(* ===== verification/_CoqProject ===== *)
-Q . S2P
Prelude.v
Traces.v
Mem.v
CStr.v
Mmu.v
Kalloc.v
Vm.v
VmSpec.v
VmUser.v
Mencrypt.v
MemIface.v
KernBase.v
Sched.v
SchedSpec.v
TicketLock.v
Threads.v
ThreadsSpec.v
ThreadsThm.v
Hashmap.v
MapReduce.v
MapQueue.v
Ext2.v
Mysh.v
Bio.v
Log.v
LogCrash.v
LogSpace.v
Pipe.v
Fs.v
FsSpec.v
FsTrunc.v
File.v
FileThm.v
FsCk.v
Icache.v
IcacheSpec.v
IcacheOps.v
IcacheThm.v
Dir.v
DirSpec.v
DirOps.v
DirDemo.v
DirThm.v
Ftable.v
Sysfile.v
Tree.v
Txn.v
SysfileSpec.v
FtableSpec.v
Syscalls.v
SysRun.v
SyscallsDemo.v
SyscallsThm.v
FileComp.v
Exec.v
ExecMem.v
ExecSpec.v
ExecThm.v
Umalloc.v
UmallocSpec.v
UmallocThm.v
Grep.v
Printf.v
Sh.v
ShThm.v
Console.v
Unixutil.v
Ide.v
Lock.v
Boot.v
Mkfs.v
MkfsSpec.v
MkfsThm.v
