(* ===== verification/Prelude.v ===== *)
(** * Verification of the CS537 projects

    The repository holds the projects of an operating-systems course, in C: several programs and
    copies of the xv6 teaching kernel, each changed for one project.  This library models the
    parts that carry the programs' own logic and proves what makes them correct.  Code
    is translated function by function: a stateful C function becomes a Rocq function from a state to
    an [outcome], concurrent code a step relation on states.

    ** The programs and the files that model them

    - The kernel of project 4 (src/p4): memory management with page encryption.  [Mem] is byte
      memory with string.c; [Mmu] the address and page-table-entry layout (mmu.h, memlayout.h); [Kalloc] the
      page allocator (kalloc.c), its free list threaded through the free pages of [Mem]; [Vm] the
      page tables (vm.c), which live in the same memory and take their pages from
      [Kalloc]; [VmSpec] and [VmUser] their theorems; [Mencrypt] encryption, the page-fault
      handler and their system calls (vm.c, trap.c, sysproc.c, syscall.c).
    - The disk side of the same kernel: [Bio] the buffer cache (bio.c, with iderw of ide.c as one step), [Ide] the queue and the interrupt handler behind it, [Lock] the spin locks and sleep locks that they use;
      [Log] the write-ahead log (log.c) over the interface that [Bio] implements;
      [LogCrash] crash safety; [LogSpace] calls that share the log.  [Fs] is the block and inode layer of fs.c on
      top of both, with its lemmas in [FsSpec] and [FsTrunc]; [File] reads and writes open files (file.c), with
      the theorems of the whole stack in [FileThm].  [Pipe] is pipe.c.
    - The rest of fs.c: [Icache] is the inode cache (iget, idup, iput, ialloc, ...).  [FsCk] says when a disk is a consistent file system, [IcacheSpec]
      when disk and cache implement a map from inode numbers to files, [IcacheOps] that each operation keeps this, [IcacheThm] that sequences of
      calls do.  [Dir] is directories and paths (dirlookup, dirlink, namex), with [DirSpec], [DirOps] and the theorems in [DirThm]; [DirDemo] a small disk
      for the examples.
    - The system calls: [Ftable] is the table of open files (file.c, and pipealloc of pipe.c), [Sysfile] the calls of sysfile.c.  [Tree] states when the files form a tree with exact link counts and that the
      changes the calls make keep it; [Txn] gives each operation of the layers below a rule inside a transaction; [SysfileSpec] specifies the calls on paths and proves
      them with these rules, [FtableSpec] the table; [Syscalls] puts both together for a process, [SysRun] for several, [SyscallsDemo] on the small
      disk, and [SyscallsThm] has the theorems.  [FileComp] puts the process table on top of it.
    - The first disk: [Mkfs] is the tool mkfs.c, [MkfsSpec] its operations as steps from one consistent disk to the next, [Boot] what the kernel does with the disk when it starts
      (readsb, iinit, initlog, userinit, forkret), and [MkfsThm] puts them together with the system calls.
    - Program loading: [Exec] is exec.c with loaduvm of vm.c, sys_exec of sysfile.c and the string arguments of syscall.c; [ExecMem] says what bytes an address space holds,
      [ExecSpec] what image an ELF file and its arguments give, [ExecThm] has the theorem.  [Console] is console.c.
    - User programs of xv6 (src/p4): [Umalloc] is the allocator (umalloc.c), with its blocks in [UmallocSpec] and the theorem in [UmallocThm]; [Printf] formatted output
      (printf.c) and atoi (ulib.c); [Grep] the matcher and filter of grep.c; [Sh] the parser of the shell (sh.c), with [ShThm].
    - The kernel of project 2A (src/p2A/xv6-public): the process table with the lottery scheduler
      (proc.c, sysproc.c, sysfile.c) is [Sched], its theorems [SchedSpec].
    - The kernel of project 3B (src/p3b/xv6-public): processes and kernel threads (proc.c, sysproc.c) are [Threads],
      [ThreadsSpec] and [ThreadsThm]; the user-level ticket lock (ulib.c) is [TicketLock].
    - [KernBase] holds what the two kernels share, and [MemIface] the contract between process and memory
      management: a type class whose laws the theorems about processes use and which the
      page-table model of project 4 satisfies.
    - Project 3A (src/p3a), the map-reduce library: [Hashmap] (hashmap.c), [MapReduce] (the partitions of
      mapreduce.c), [MapQueue] (its worker pools).
    - Project 5 (src/p5), recovery of pictures from an ext2 image: [Ext2] (read_ext2.c, runscan.c).
    - Project 2B (src/p2B), a shell: [Mysh] (mysh.c).  Project 1 (src/p1), two text filters: [Unixutil] (my-look.c, wordle.c).
    - [CStr] holds C strings, for the programs; [Traces] runs of labelled steps, for the driver and the ticket lock; this file the notions all the others share.

    ** What the theorems show

    - Memory ([Kalloc], [VmSpec], [VmUser], [Mencrypt]): pages are conserved by the allocator; allocuvm, deallocuvm, copyuvm, freevm
      and copyout do exactly what they should on every branch, failures of kalloc included, and touch nothing
      else.  Each page has a role (free, directory, table, user page), and the theorems say which pages change theirs: a copyuvm that fails changes none, one that succeeds takes
      only free pages, and it fails only if too few are free.  mencrypt is all or nothing, an access to an encrypted page restores it, except
      for pages whose first byte is 0xFF, where it panics; getpgtable lists the user pages.
    - Processes ([SchedSpec], [ThreadsThm]): in every run of fork, exit, wait, sleep, kill, sbrk and the
      scheduler in which the first process does not exit and no process gives back all of its memory, every operation but these two returns without a
      panic, memory and file references balance and no wake-up is lost; the lottery is fair; the round robin is bounded; clone starts a thread.  The
      remaining ones prove concrete defects: overflow of the ticket total, a deadline that outlives its sleep,
      a slot leaked by clone, a size that goes stale, a shared directory freed too early.
    - The ticket lock ([TicketLock]) refines a first-come first-served lock, event by event, also when its counters wrap: threads get in in the order in which they asked.
    - Map-reduce ([Hashmap], [MapReduce], [MapQueue]): the hash map refines a finite map; with calls one at a time and fewer than 1000 keys every reducer gets exactly the values of its key (an example shows how
      two searches at the same time disturb the cursor they share, and with 1000 keys the queue of tasks overruns);
      the pools run tasks in order and the mapper pool terminates if the tasks fit its queue; two theorems exhibit
      a run that loses tasks and one that hangs.
    - ext2 ([Ext2]): against the layout of ext2 with blocks of 1 KiB, stated on the bytes of the image without the program's offsets, a file is recovered byte for byte, directory blocks read back, and a scan
      finds exactly the pictures among all inodes but the last; with larger blocks it does not.
    - The shell ([Mysh]): a line runs the words it is made of, and aliases are a finite map.
    - Locks ([Lock]): spin locks have one owner under any interleaving of accesses, keep interrupts off while held and panic exactly on misuse; sleep locks have one owner and lose no wake-up.
    - The disk ([Ide], [Bio], [LogCrash], [LogSpace]): the driver serves requests in the order of the calls under any interleaving, event by event as a queue in front of the buffer cache's iderw, and loses no wake-up; a crash at any disk write, also during recovery, leaves the effect of a prefix of the
      calls; the cache is transparent; the log never overflows, but reserves one block more than it has.
    - Files ([FileThm]): reads and writes of a file, through all the layers, are those of an array of bytes; a piece
      of filewrite fits in a transaction; itrunc gives back exactly the blocks of the file.
    - Inodes and directories ([IcacheThm], [DirThm]): sequences of calls on inodes are those on a map of files, the disk stays consistent and a file without links goes with its last
      pointer; a directory is a map from names to numbers; namex resolves paths.  Linking a name that stands for the directory itself deadlocks.
    - System calls ([SyscallsThm], [FileComp]): sequences of calls by several processes, each of which finds what it needs ([run_ok]), do what they do to a tree of files and a table of open files, and keep
      the tree, the link counts and all reference counts; forks and exits keep the counts of the table; removing the current
      directory and its parent lets a user program stop the kernel.
    - The image ([MkfsThm]): mkfs, given names and files as [args_ok] asks, makes a consistent image with exactly these files, the kernel starts from it, and the theorem on the system calls goes on from there: for the first process nothing
      is assumed of the disk.  With entries that fill the directory's blocks exactly its size is wrong.
    - Programs ([ExecThm]): exec builds the image that the ELF file and the arguments specify from pages that were free and releases exactly those of the old image, or fails and leaves the process and the role of every page as
      they were; it fails only for a bad file or arguments or when too few pages are free, and never panics.
    - The console ([Console]): input is a queue of committed bytes and a line being edited; output stays on the screen.
    - User programs ([UmallocThm], [Printf], [Grep], [ShThm]): malloc gives out disjoint blocks, never loses memory and fails only when the kernel refuses; printed numbers read
      back; grep prints exactly the lines that match; the shell reads back every command it is given, and its parser always ends.
    - Project 1 ([Unixutil]): my-look and wordle print exactly the lines they should, but for a last line without newline and an empty list of letters.
    - Pipes ([Pipe]): every interleaving of readers and writers is a bounded queue without lost wake-ups, unless a
      writer is killed, which can leave a reader asleep.

    ** Conventions

    A w-bit integer is a [Z] with its wrap-around written out ([u8], [u32], [s32], ...).  [Ok] is a result, [Panic]
    a call of the kernel's panic, [Fault] an access outside of the memory or the arrays the model
    knows, or a wait that would never end, and [NoFuel] a loop that ran out of fuel.

    Loops that are not structural carry fuel: a list walk the number of nodes allocated, a probe
    the capacity of the table, a loop over pages the number of pages of the address space, a
    string routine a bound on the length.  No theorem assumes that the fuel is
    enough: those that describe a result state that it is [Ok], for the fuel the definitions give or for any fuel above a bound they name.

    ** Not modelled

    Start-up and traps in assembly (bootasm.S, entry.S, swtch.S, trapasm.S, vectors), the devices (the polling of ide.c, memide.c, kbd.c, uart.c, lapic.c, ioapic.c, mp.c, picirq.c), segment registers and cr3: hardware.
    The copies of xv6 in src/p1B and src/p1B/temp, and in each kernel the files that project did not
    change: they are the same code as the copy that is modelled.  usertests.c,
    stressfs.c, forktest.c and the other user programs, and test data: clients.

    An operation under a lock is one step of the models: [Lock] shows that the locks give this, but is not composed with them.  A system call is a step in [SysRun]: calls that sleep in the middle are not interleaved with others there.

    In [Exec] an access outside of the page tables is a [Fault], and switchuvm is left out.  In [Sh] and [Umalloc] allocation by the kernel is an oracle or succeeds; runcmd and the main
    functions of the user programs only make system calls.  The formatting of cprintf is that of printf, and is not modelled again. *)

From Stdlib Require Import ZArith Lia.
From stdpp Require Import base numbers list gmap strings relations.

#[export] Set Warnings "-clear-no-such-hyp".

(** * Scope, hint databases *)

Declare Scope c_scope.
Delimit Scope c_scope with C.
Create HintDb cwf discriminated.

#[local] Open Scope Z_scope.

(** * Machine integers

    A C [uint] is a [Z] in [0, 2^32); every arithmetic operation whose C type
    is [uint] is wrapped with [u32].  A C [int] is a [Z] in [-2^31, 2^31);
    [s32] is the conversion the ABI of the project (32-bit x86, two's
    complement) performs. *)

Definition u32 (x : Z) : Z := x mod 2 ^ 32.
Definition u64 (x : Z) : Z := x mod 2 ^ 64.
Definition u8 (x : Z) : Z := x mod 2 ^ 8.
Definition s32 (x : Z) : Z :=
  let y := u32 x in if y <? 2 ^ 31 then y else y - 2 ^ 32.

(** [~x] on a [uint]. *)
Definition bnot32 (x : Z) : Z := u32 (Z.lnot x).

Definition is_u32 (x : Z) : Prop := 0 <= x < 2 ^ 32.
Definition is_byte (x : Z) : Prop := 0 <= x < 2 ^ 8.

Lemma u32_range x : is_u32 (u32 x).
Proof. unfold is_u32, u32. apply Z.mod_pos_bound. lia. Qed.

Lemma u64_range x : 0 <= u64 x < 2 ^ 64.
Proof. unfold u64. apply Z.mod_pos_bound. lia. Qed.

Lemma u8_range x : is_byte (u8 x).
Proof. unfold is_byte, u8. apply Z.mod_pos_bound. lia. Qed.

Lemma u32_small x : is_u32 x → u32 x = x.
Proof. unfold is_u32, u32. intros. by apply Z.mod_small. Qed.

Lemma u8_small x : is_byte x → u8 x = x.
Proof. unfold is_byte, u8. intros. by apply Z.mod_small. Qed.

Lemma s32_range x : - 2 ^ 31 <= s32 x < 2 ^ 31.
Proof.
  unfold s32. pose proof (u32_range x) as [? ?].
  destruct (Z.ltb_spec (u32 x) (2 ^ 31)); lia.
Qed.

Lemma s32_small x : - 2 ^ 31 <= x < 2 ^ 31 → s32 x = x.
Proof.
  intros Hx. unfold s32, u32. destruct (Z_lt_le_dec x 0) as [Hn|Hn].
  - replace (x mod 2 ^ 32) with (x + 2 ^ 32).
    + destruct (Z.ltb_spec (x + 2 ^ 32) (2 ^ 31)); lia.
    + rewrite <- (Z_mod_plus_full x 1 (2 ^ 32)), Z.mod_small; lia.
  - rewrite Z.mod_small by lia. destruct (Z.ltb_spec x (2 ^ 31)); lia.
Qed.

#[export] Hint Resolve u32_range u8_range : cwf.

(** * Bits and divisions *)

Lemma testbit_multiple b n i :
  b mod 2 ^ n = 0 → 0 <= i < n → Z.testbit b i = false.
Proof.
  intros Hb Hi. rewrite <- (Z.mod_pow2_bits_low b n i) by lia.
  by rewrite Hb, Z.bits_0.
Qed.

Lemma testbit_small a n i :
  0 <= a < 2 ^ n → 0 <= n <= i → Z.testbit a i = false.
Proof.
  intros Ha Hi. rewrite <- (Z.mod_small a (2 ^ n)) by lia.
  apply Z.mod_pow2_bits_high. lia.
Qed.

(** Splitting a number at a bit position: for an [a] below [2^n] and a
    multiple [b] of [2^n], or-ing is adding. *)
Lemma lor_add_disjoint a b n :
  0 <= n → 0 <= a < 2 ^ n → b mod 2 ^ n = 0 → Z.lor b a = b + a.
Proof.
  intros Hn Ha Hb.
  assert (Z.land b a = 0) as Hland.
  { apply Z.bits_inj'. intros i Hi. rewrite Z.land_spec, Z.bits_0.
    destruct (Z_lt_le_dec i n).
    - by rewrite (testbit_multiple b n).
    - by rewrite (testbit_small a n), andb_false_r. }
  rewrite (Z.add_nocarry_lxor b a Hland), <- (Z.lxor_lor b a Hland). done.
Qed.

(** Clearing the low [n] bits of a 32-bit number with a mask. *)
Lemma land_clear_low a n :
  is_u32 a → 0 <= n <= 32 → Z.land a (bnot32 (2 ^ n - 1)) = a - a mod 2 ^ n.
Proof.
  intros Ha Hn. unfold bnot32, u32.
  rewrite (Z.mod_eq a (2 ^ n)) by lia.
  replace (a - (a - 2 ^ n * (a / 2 ^ n))) with (a / 2 ^ n * 2 ^ n) by lia.
  rewrite <- Z.shiftr_div_pow2, <- Z.shiftl_mul_pow2 by lia.
  apply Z.bits_inj'. intros i Hi.
  rewrite Z.land_spec, Z.shiftl_spec by lia.
  replace (2 ^ n - 1) with (Z.ones n) by (rewrite Z.ones_equiv; lia).
  destruct (Z_lt_le_dec i 32) as [H32|H32].
  - rewrite Z.mod_pow2_bits_low, Z.lnot_spec, Z.testbit_ones by lia.
    destruct (Z_lt_le_dec i n) as [Hin|Hin].
    + rewrite (Z.testbit_neg_r _ (i - n)) by lia.
      replace ((0 <=? i) && (i <? n))%bool with true by lia.
      apply andb_false_r.
    + rewrite Z.shiftr_spec by lia. replace (i - n + n) with i by lia.
      replace ((0 <=? i) && (i <? n))%bool with false by lia.
      apply andb_true_r.
  - rewrite (testbit_small a 32 i Ha) by lia. cbn [andb].
    rewrite Z.shiftr_spec by lia.
    replace (i - n + n) with i by lia. symmetry. by apply (testbit_small a 32).
Qed.

(** Testing one flag bit. *)
Lemma land_pow2_eq_0 a n : 0 <= n → Z.land a (2 ^ n) = 0 ↔ Z.testbit a n = false.
Proof.
  intros Hn. split.
  - intros H. assert (Z.testbit (Z.land a (2 ^ n)) n = false) as Hb
      by (rewrite H; apply Z.bits_0).
    rewrite Z.land_spec, Z.pow2_bits_true, andb_true_r in Hb by lia. done.
  - intros H. apply Z.bits_inj'. intros i Hi.
    rewrite Z.land_spec, Z.bits_0, Z.pow2_bits_eqb by lia.
    destruct (Z.eqb_spec n i) as [->|]; [by rewrite H | apply andb_false_r].
Qed.

(** Exclusive or with a byte stays a byte, and is its own inverse. *)
Lemma lxor_byte a b : 0 <= a < 256 → 0 <= b < 256 → is_byte (Z.lxor a b).
Proof.
  intros Ha Hb. unfold is_byte. change 256 with (2 ^ 8) in *.
  assert (Z.lxor a b = Z.lxor a b mod 2 ^ 8) as ->; [|apply Z.mod_pos_bound; lia].
  apply Z.bits_inj'. intros i Hi. destruct (Z_lt_le_dec i 8).
  - by rewrite Z.mod_pow2_bits_low by lia.
  - rewrite Z.mod_pow2_bits_high, Z.lxor_spec by lia.
    by rewrite (testbit_small a 8), (testbit_small b 8) by lia.
Qed.

Lemma lxor_cancel a b : Z.lxor (Z.lxor a b) b = a.
Proof. by rewrite Z.lxor_assoc, Z.lxor_nilpotent, Z.lxor_0_r. Qed.

(** * Little-endian integers in bytes *)

Fixpoint le (l : list Z) : Z := match l with [] => 0 | b :: l' => b + 256 * le l' end.

Fixpoint le_bytes (n : nat) (v : Z) : list Z :=
  match n with O => [] | S n' => v mod 256 :: le_bytes n' (v / 256) end.

Lemma length_le_bytes n v : length (le_bytes n v) = n.
Proof. revert v. induction n as [|n IH]; intros v; simpl; [done|]. by rewrite IH. Qed.

Lemma le_le_bytes n : ∀ v, 0 <= v < 256 ^ Z.of_nat n → le (le_bytes n v) = v.
Proof.
  induction n as [|n IH]; intros v Hv; [simpl in *; lia|]. cbn [le_bytes le].
  rewrite IH; [pose proof (Z.div_mod v 256); lia|]. rewrite Nat2Z.inj_succ, Z.pow_succ_r in Hv by lia.
  split; [apply Z.div_pos; lia|apply Z.div_lt_upper_bound; lia].
Qed.

(** Word [i] of a block of bytes. *)
Definition get32 (b : list Z) (i : nat) : Z := le (take 4 (drop (4 * i) b)).
Definition put32 (b : list Z) (i : nat) (w : Z) : list Z :=
  take (4 * i) b ++ le_bytes 4 (u32 w) ++ drop (4 * i + 4) b.

Lemma length_put32 b i w : (4 * i + 4 ≤ length b)%nat → length (put32 b i w) = length b.
Proof. intros Hi. unfold put32. rewrite !length_app, length_le_bytes, length_take, length_drop. lia. Qed.

Lemma get_put32_eq b i w : (4 * i + 4 ≤ length b)%nat → is_u32 w → get32 (put32 b i w) i = w.
Proof.
  intros Hi Hw. unfold get32, put32. rewrite drop_app_ge by (rewrite length_take; lia).
  rewrite length_take. replace (4 * i - (4 * i) `min` length b)%nat with 0%nat by lia. rewrite drop_0.
  rewrite take_app_le by (by rewrite length_le_bytes). rewrite take_ge by (by rewrite length_le_bytes).
  rewrite u32_small by done. apply le_le_bytes. exact Hw.
Qed.

Lemma get_put32_ne b i j w : (4 * i + 4 ≤ length b)%nat → i ≠ j → get32 (put32 b i w) j = get32 b j.
Proof.
  intros Hi Hne. unfold get32, put32. f_equal. apply list_eq. intros k.
  destruct (decide (k < 4)%nat) as [Hk|Hk]; [|by rewrite !lookup_take_ge by lia].
  rewrite !lookup_take_lt, !lookup_drop by lia. destruct (decide (j < i)%nat).
  - rewrite lookup_app_l by (rewrite length_take; lia). by rewrite lookup_take_lt by lia.
  - rewrite lookup_app_r by (rewrite length_take; lia). rewrite length_take.
    rewrite lookup_app_r by (rewrite length_le_bytes; lia). rewrite length_le_bytes, lookup_drop. f_equal. lia.
Qed.

(** * Outcomes of kernel code

    [Ok] is a normal return; [Panic] is a call of [panic()] (the kernel stops);
    [Fault] is the use of an address that is not mapped; [NoFuel] never
    occurs in a theorem's conclusion: the loops below carry enough fuel. *)

Inductive outcome (A : Type) : Type :=
| Ok (a : A)
| Panic (msg : string)
| Fault (addr : Z)
| NoFuel.
Arguments Ok {A} a.
Arguments Panic {A} msg.
Arguments Fault {A} addr.
Arguments NoFuel {A}.

#[export] Instance outcome_ret : MRet outcome := λ A a, Ok a.
#[export] Instance outcome_bind : MBind outcome := λ A B f m,
  match m with
  | Ok a => f a
  | Panic msg => Panic msg
  | Fault addr => Fault addr
  | NoFuel => NoFuel
  end.

Lemma bind_Ok_inv {A B} (m : outcome A) (f : A → outcome B) b :
  m ≫= f = Ok b → ∃ a, m = Ok a ∧ f a = Ok b.
Proof. destruct m; simpl; intros; simplify_eq; eauto. Qed.

Lemma bind_ext {A B} (m : outcome A) (f f' : A → outcome B) : (∀ a, f a = f' a) → m ≫= f = m ≫= f'.
Proof. intros Hf. destruct m; cbn; [apply Hf|done..]. Qed.

Lemma bind_Ok {A B} (a : A) (f : A → outcome B) : Ok a ≫= f = f a.
Proof. done. Qed.

(** [inv_ok] takes apart a computation known to return [Ok]. *)
Ltac inv_ok :=
  repeat match goal with
  | H : _ ≫= _ = Ok _ |- _ =>
      let x := fresh "x" in let E := fresh "E" in
      apply bind_Ok_inv in H as (x & E & H)
  | H : Ok _ = Ok _ |- _ => injection H as H; subst
  | p : (_ * _)%type |- _ => destruct p
  end.

(** * Tables: lists updated in one slot or in all of them *)

Lemma Forall2_alter_refl {A} (R : A → A → Prop) f i (l : list A) :
  (∀ p, R p p) → (∀ p, l !! i = Some p → R p (f p)) → Forall2 R l (alter f i l).
Proof.
  intros Hr Hf. apply Forall2_same_length_lookup_2; [by rewrite length_alter|].
  intros j p q Hp Hq. destruct (decide (i = j)) as [->|Hne].
  - rewrite list_lookup_alter_eq, Hp in Hq. simplify_eq/=. by apply Hf.
  - rewrite list_lookup_alter_ne in Hq by done. simplify_eq. apply Hr.
Qed.

Lemma Forall2_map_refl {A} (R : A → A → Prop) (f : A → A) (l : list A) :
  (∀ p, R p (f p)) → Forall2 R l (f <$> l).
Proof. intros Hf. induction l; constructor; auto. Qed.

Lemma alter_insert {A} (f : A → A) i (l : list A) p : l !! i = Some p → alter f i l = <[i := f p]> l.
Proof.
  intros Hp. apply list_eq. intros j. destruct (decide (i = j)) as [->|Hne].
  - rewrite list_lookup_alter_eq, Hp, list_lookup_insert_eq; [done|]. by eapply lookup_lt_Some.
  - by rewrite list_lookup_alter_ne, list_lookup_insert_ne.
Qed.

Lemma slot_insert_Some {A} (l : list A) j p' i q :
  <[j := p']> l !! i = Some q →
  (i = j ∧ q = p' ∧ (j < length l)%nat) ∨ (i ≠ j ∧ l !! i = Some q).
Proof.
  intros Hq. destruct (decide (i = j)) as [->|Hne].
  - apply list_lookup_insert_Some in Hq. left. naive_solver lia.
  - rewrite list_lookup_insert_ne in Hq by done. by right.
Qed.

(** Reading a slot after a change. *)
Ltac slot_cases :=
  repeat match goal with
  | Hq : <[_ := _]> _ !! _ = Some _ |- _ =>
      apply slot_insert_Some in Hq as [(-> & -> & ?)|[? Hq]]
  end.

(** * Invariants of step relations *)

Lemma rtc_invariant {A} (R : relation A) (P : A → Prop) x y :
  (∀ a b, P a → R a b → P b) → P x → rtc R x y → P y.
Proof. intros Hstep Hx Hr. induction Hr; eauto. Qed.
