(* ===== verification/Traces.v ===== *)
(** Runs with a trace: the steps of a system may carry an event, and a run shows the list of its events.  A simulation between two such systems keeps the trace, so
    that the order in which things happen in the one is the order in the other.  Used for the ticket lock (TicketLock.v) and the disk queue (Ide.v). *)

From stdpp Require Import base list option.

Section Lrun.
Context {St Ev : Type} (step : St → option Ev → St → Prop).

(** [None] is a step that shows nothing. *)
Inductive lrun : St → list Ev → St → Prop :=
| lrun_refl s : lrun s [] s
| lrun_snoc s tr s1 l s2 : lrun s tr s1 → step s1 l s2 → lrun s (tr ++ option_list l) s2.

Lemma lrun_once s l s' : step s l s' → lrun s (option_list l) s'.
Proof. intros H. by apply (lrun_snoc s [] s l s'); [apply lrun_refl|]. Qed.

Lemma lrun_trans s tr s1 tr' s2 : lrun s tr s1 → lrun s1 tr' s2 → lrun s (tr ++ tr') s2.
Proof.
  intros H1 H2. induction H2 as [s1|s1 tr' s3 l s4 H2 IH Hst]; [by rewrite app_nil_r|].
  rewrite app_assoc. eapply lrun_snoc; [by apply IH|exact Hst].
Qed.

Lemma lrun_invariant (P : list Ev → St → Prop) s tr s' :
  (∀ tr s l s', P tr s → step s l s' → P (tr ++ option_list l) s') → P [] s → lrun s tr s' → P tr s'.
Proof. intros Hstep H0 H. induction H; eauto. Qed.
End Lrun.

(** Steps that are simulated, each with its event, make runs that are simulated with their traces. *)
Lemma lrun_simulation {St Ab Ev} (step : St → option Ev → St → Prop) (astep : Ab → option Ev → Ab → Prop) (R : St → Ab → Prop) s tr s' a :
  (∀ s a l s', R s a → step s l s' → ∃ a', lrun astep a (option_list l) a' ∧ R s' a') →
  R s a → lrun step s tr s' → ∃ a', lrun astep a tr a' ∧ R s' a'.
Proof.
  intros Hstep H0 H. induction H as [s|s tr s1 l s2 H IH Hst]; [exists a; split; [apply lrun_refl|done]|].
  destruct (IH H0) as (a1 & Ha & H1). destruct (Hstep _ _ _ _ H1 Hst) as (a2 & Ha2 & H2). exists a2. split; [by eapply lrun_trans|done].
Qed.
