(* ===== verification/Mem.v ===== *)
(** Byte-addressed memory, and the kernel's memory and string routines
    (src/p4/string.c, with the [rep stos] helpers of src/p4/x86.h).

    A memory is a finite map from addresses to bytes.  An address the map does
    not hold reads as 0.  Words are little-endian, as on x86.  Pointers are
    integers; a range of bytes never crosses the end of the address space. *)

From Stdlib Require Import ZArith Lia.
From stdpp Require Import base numbers list gmap.
From S2P Require Import Prelude.
#[local] Open Scope Z_scope.

Abbreviation mem := (gmap Z Z).

Definition getb (m : mem) (a : Z) : Z := u8 (default 0 (m !! a)).
Definition setb (m : mem) (a v : Z) : mem := <[a := u8 v]> m.

Definition load32 (m : mem) (a : Z) : Z :=
  getb m a + 2 ^ 8 * getb m (a + 1) + 2 ^ 16 * getb m (a + 2)
  + 2 ^ 24 * getb m (a + 3).

(** Bytes [v], [v >> 8], [v >> 16], [v >> 24] ([setb] keeps the low 8 bits). *)
Definition store32 (m : mem) (a v : Z) : mem :=
  setb (setb (setb (setb m a v) (a + 1) (Z.shiftr v 8))
    (a + 2) (Z.shiftr v 16)) (a + 3) (Z.shiftr v 24).

(** * x86.h *)

Fixpoint stosb (m : mem) (addr data : Z) (cnt : nat) : mem :=
  match cnt with
  | O => m
  | S n => stosb (setb m addr data) (addr + 1) data n
  end.

Fixpoint stosl (m : mem) (addr data : Z) (cnt : nat) : mem :=
  match cnt with
  | O => m
  | S n => stosl (store32 m addr data) (addr + 4) data n
  end.

(** * string.c *)

Definition memset (m : mem) (dst c n : Z) : mem :=
  if (Z.rem (s32 dst) 4 =? 0) && (n mod 4 =? 0) then
    let c := Z.land c 255 in
    stosl m dst
      (Z.lor (Z.lor (Z.lor (Z.shiftl c 24) (Z.shiftl c 16)) (Z.shiftl c 8)) c)
      (Z.to_nat (n / 4))
  else stosb m dst c (Z.to_nat n).

Fixpoint memcmp_loop (m : mem) (s1 s2 : Z) (n : nat) : Z :=
  match n with
  | O => 0
  | S n =>
      if getb m s1 =? getb m s2 then memcmp_loop m (s1 + 1) (s2 + 1) n
      else getb m s1 - getb m s2
  end.
Definition memcmp (m : mem) (v1 v2 n : Z) : Z := memcmp_loop m v1 v2 (Z.to_nat n).

(** [while(n-- > 0) *--d = *--s;] *)
Fixpoint move_down (m : mem) (d s : Z) (n : nat) : mem :=
  match n with
  | O => m
  | S n => move_down (setb m (d - 1) (getb m (s - 1))) (d - 1) (s - 1) n
  end.

(** [while(n-- > 0) *d++ = *s++;] *)
Fixpoint move_up (m : mem) (d s : Z) (n : nat) : mem :=
  match n with
  | O => m
  | S n => move_up (setb m d (getb m s)) (d + 1) (s + 1) n
  end.

Definition memmove (m : mem) (dst src n : Z) : mem :=
  if (src <? dst) && (src + n >? dst)
  then move_down m (dst + n) (src + n) (Z.to_nat n)
  else move_up m dst src (Z.to_nat n).

(** [char] values are compared as [uchar]. *)
Fixpoint strncmp_loop (m : mem) (p q : Z) (n : nat) : Z :=
  match n with
  | O => 0
  | S n' =>
      if negb (getb m p =? 0) && (getb m p =? getb m q)
      then strncmp_loop m (p + 1) (q + 1) n'
      else getb m p - getb m q
  end.
Definition strncmp (m : mem) (p q n : Z) : Z := strncmp_loop m p q (Z.to_nat n).

(** First loop of [strncpy]; on its exit by the NUL, [n] has already been
    decremented for the byte just written. *)
Fixpoint strncpy_loop (m : mem) (s t : Z) (n : nat) : mem :=
  match n with
  | O => m
  | S n' =>
      let c := getb m t in
      let m' := setb m s c in
      if c =? 0 then stosb m' (s + 1) 0 n' else strncpy_loop m' (s + 1) (t + 1) n'
  end.
Definition strncpy (m : mem) (s t n : Z) : mem := strncpy_loop m s t (Z.to_nat n).

(** [while(--n > 0 && ( *s++ = *t++) != 0);  *s = 0;] with [k = n - 1] bytes left. *)
Fixpoint safestrcpy_loop (m : mem) (s t : Z) (k : nat) : mem :=
  match k with
  | O => setb m s 0
  | S k' =>
      let c := getb m t in
      let m' := setb m s c in
      if c =? 0 then setb m' (s + 1) 0 else safestrcpy_loop m' (s + 1) (t + 1) k'
  end.
Definition safestrcpy (m : mem) (s t n : Z) : mem :=
  if n <=? 0 then m else safestrcpy_loop m s t (Z.to_nat (n - 1)).

(** [strlen] scans until a NUL; [fuel] bounds the scan. *)
Fixpoint strlen_loop (m : mem) (s n : Z) (fuel : nat) : option Z :=
  match fuel with
  | O => None
  | S f => if getb m (s + n) =? 0 then Some n else strlen_loop m s (n + 1) f
  end.
Definition strlen (m : mem) (s : Z) (fuel : nat) : option Z := strlen_loop m s 0 fuel.

(** * Reading back what was written *)

Lemma getb_range m a : 0 <= getb m a < 256.
Proof. apply (u8_range (default 0 (m !! a))). Qed.

Lemma getb_setb m a v b : getb (setb m a v) b = if decide (a = b) then u8 v else getb m b.
Proof.
  unfold getb, setb. rewrite lookup_insert. case_decide; [|done].
  simpl. apply u8_small, u8_range.
Qed.

Lemma getb_setb_eq m a v : getb (setb m a v) a = u8 v.
Proof. rewrite getb_setb. by case_decide. Qed.

Lemma getb_setb_ne m a v b : a ≠ b → getb (setb m a v) b = getb m b.
Proof. intros. rewrite getb_setb. by case_decide. Qed.

Lemma getb_store32_ne m a v b : ¬ (a <= b < a + 4) → getb (store32 m a v) b = getb m b.
Proof. intros. unfold store32. rewrite !getb_setb_ne by lia. done. Qed.

Lemma load32_range m a : is_u32 (load32 m a).
Proof.
  unfold load32, is_u32.
  pose proof (getb_range m a). pose proof (getb_range m (a + 1)).
  pose proof (getb_range m (a + 2)). pose proof (getb_range m (a + 3)). lia.
Qed.

Lemma load32_store32 m a v : is_u32 v → load32 (store32 m a v) a = v.
Proof.
  intros Hv. unfold load32, store32, is_u32 in *.
  rewrite !getb_setb. repeat case_decide; try lia.
  rewrite !Z.shiftr_div_pow2 by lia. unfold u8.
  change (2 ^ 8) with 256. change (2 ^ 16) with 65536. change (2 ^ 24) with 16777216.
  change (2 ^ 32) with 4294967296 in Hv.
  pose proof (Z.div_mod v 256). pose proof (Z.div_mod (v / 256) 256).
  pose proof (Z.div_mod (v / 65536) 256). pose proof (Z.div_mod (v / 16777216) 256).
  assert (v / 65536 = v / 256 / 256) by (rewrite Z.div_div by lia; done).
  assert (v / 16777216 = v / 65536 / 256) by (rewrite Z.div_div by lia; done).
  assert (v / 16777216 / 256 = 0) by (rewrite Z.div_div by lia; apply Z.div_small; lia).
  lia.
Qed.

Lemma load32_ext m m' a :
  (∀ b, a <= b < a + 4 → getb m' b = getb m b) → load32 m' a = load32 m a.
Proof. intros H. unfold load32. rewrite !H by lia. done. Qed.

Lemma load32_store32_ne m a v b :
  b + 4 <= a ∨ a + 4 <= b → load32 (store32 m a v) b = load32 m b.
Proof. intros. apply load32_ext. intros. apply getb_store32_ne. lia. Qed.

Lemma load32_setb_ne m a v b :
  ¬ (b <= a < b + 4) → load32 (setb m a v) b = load32 m b.
Proof. intros. apply load32_ext. intros. apply getb_setb_ne. lia. Qed.

(** A word whose four bytes are [c]. *)
Lemma load32_fill m a c :
  (∀ b, a <= b < a + 4 → getb m b = c) →
  load32 m a = c + 2 ^ 8 * c + 2 ^ 16 * c + 2 ^ 24 * c.
Proof. intros H. unfold load32. rewrite !H by lia. done. Qed.

(** * The fill and copy loops *)

Lemma getb_stosb m addr data cnt b :
  getb (stosb m addr data cnt) b =
  if decide (addr <= b < addr + Z.of_nat cnt) then u8 data else getb m b.
Proof.
  revert m addr. induction cnt as [|cnt IH]; intros m addr; simpl.
  - case_decide; [lia|done].
  - rewrite IH. case_decide; case_decide; try lia; try done;
      rewrite getb_setb; case_decide; try lia; done.
Qed.

(** The word of [memset] holds four copies of the low byte of [c]. *)
Definition fill_word (c : Z) : Z :=
  let c := Z.land c 255 in
  Z.lor (Z.lor (Z.lor (Z.shiftl c 24) (Z.shiftl c 16)) (Z.shiftl c 8)) c.

Lemma fill_word_bytes c k :
  0 <= k < 4 → u8 (Z.shiftr (fill_word c) (8 * k)) = u8 c.
Proof.
  intros Hk. unfold fill_word, u8. change 255 with (Z.ones 8).
  rewrite Z.land_ones by lia.
  assert (0 <= c mod 2 ^ 8 < 2 ^ 8) as Hc by (apply Z.mod_pos_bound; lia).
  set (d := c mod 2 ^ 8) in *.
  rewrite <- (Z.mod_small d (2 ^ 8)) at 5 by lia.
  apply Z.bits_inj'. intros i Hi.
  destruct (Z_lt_le_dec i 8); [|by rewrite !Z.mod_pow2_bits_high by lia].
  rewrite !Z.mod_pow2_bits_low, Z.shiftr_spec, !Z.lor_spec, !Z.shiftl_spec by lia.
  assert (∀ j, j < 0 ∨ 8 <= j → Z.testbit d j = false) as Hout.
  { intros j [Hj|Hj]; [by apply Z.testbit_neg_r | apply (testbit_small d 8); lia]. }
  assert (k = 0 ∨ k = 1 ∨ k = 2 ∨ k = 3) as [-> | [-> | [-> | ->]]] by lia;
    repeat match goal with
    | |- context [Z.testbit d ?j] => rewrite (Hout j) by lia
    end; rewrite ?orb_false_r, ?orb_false_l; f_equal; lia.
Qed.

Lemma store32_fill m a c : store32 m a (fill_word c) = stosb m a c 4.
Proof.
  assert (∀ k v, 0 <= k < 4 → v = Z.shiftr (fill_word c) (8 * k) → u8 v = u8 c) as H.
  { intros k v Hk ->. by apply fill_word_bytes. }
  unfold store32, setb. rewrite (H 0 (fill_word c)), (H 1 (Z.shiftr _ 8)),
    (H 2 (Z.shiftr _ 16)), (H 3 (Z.shiftr _ 24)) by (lia || done).
  simpl. unfold setb. replace (a + 1 + 1) with (a + 2) by lia.
  by replace (a + 2 + 1) with (a + 3) by lia.
Qed.

Lemma stosb_app m a c n k : stosb m a c (n + k) = stosb (stosb m a c n) (a + Z.of_nat n) c k.
Proof.
  revert m a. induction n as [|n IH]; intros m a; simpl.
  - by rewrite Z.add_0_r.
  - rewrite IH. f_equal. lia.
Qed.

Lemma stosl_fill m a c k : stosl m a (fill_word c) k = stosb m a c (4 * k).
Proof.
  revert m a. induction k as [|k IH]; intros m a; [done|].
  replace (4 * S k)%nat with (4 + 4 * k)%nat by lia.
  rewrite stosb_app, <- store32_fill. simpl stosl. apply IH.
Qed.

Lemma memset_stosb m dst c n : 0 <= n → memset m dst c n = stosb m dst c (Z.to_nat n).
Proof.
  intros Hn. unfold memset. destruct (_ && _) eqn:E; [|done].
  apply andb_true_iff in E as [_ E]. apply Z.eqb_eq in E.
  change (stosl m dst (fill_word c) (Z.to_nat (n / 4)) = stosb m dst c (Z.to_nat n)).
  rewrite stosl_fill. f_equal. pose proof (Z.div_mod n 4). lia.
Qed.

Lemma getb_memset m dst c n b :
  0 <= n →
  getb (memset m dst c n) b = if decide (dst <= b < dst + n) then u8 c else getb m b.
Proof.
  intros Hn. rewrite memset_stosb, getb_stosb by done.
  rewrite Z2Nat.id by done. done.
Qed.

Lemma getb_move_up m d s n b :
  d <= s ∨ s + Z.of_nat n <= d →
  getb (move_up m d s n) b =
  if decide (d <= b < d + Z.of_nat n) then getb m (s + (b - d)) else getb m b.
Proof.
  revert m d s. induction n as [|n IH]; intros m d s Hov; simpl.
  - case_decide; [lia|done].
  - rewrite IH by lia. case_decide; case_decide; try lia.
    + rewrite getb_setb_ne by lia. f_equal. lia.
    + assert (b = d) as -> by lia. rewrite getb_setb_eq, u8_small.
      * f_equal. lia.
      * apply getb_range.
    + by rewrite getb_setb_ne by lia.
Qed.

Lemma getb_move_down m d s n b :
  s <= d →
  getb (move_down m d s n) b =
  if decide (d - Z.of_nat n <= b < d) then getb m (s + (b - d)) else getb m b.
Proof.
  revert m d s. induction n as [|n IH]; intros m d s Hov; simpl.
  - case_decide; [lia|done].
  - rewrite IH by lia. case_decide; case_decide; try lia.
    + rewrite getb_setb_ne by lia. f_equal. lia.
    + assert (b = d - 1) as -> by lia. rewrite getb_setb_eq, u8_small.
      * f_equal. lia.
      * apply getb_range.
    + by rewrite getb_setb_ne by lia.
Qed.

Lemma getb_memmove m dst src n b :
  0 <= n →
  getb (memmove m dst src n) b =
  if decide (dst <= b < dst + n) then getb m (src + (b - dst)) else getb m b.
Proof.
  intros Hn. unfold memmove. destruct (_ && _) eqn:E.
  - rewrite getb_move_down by lia. rewrite Z2Nat.id by done.
    replace (dst + n - n) with dst by lia.
    case_decide; [f_equal; lia|done].
  - rewrite getb_move_up by lia. by rewrite Z2Nat.id by done.
Qed.

#[global] Arguments getb : simpl never.
#[global] Arguments setb : simpl never.
#[global] Arguments load32 : simpl never.
#[global] Arguments store32 : simpl never.
#[global] Arguments memset : simpl never.
#[global] Arguments memmove : simpl never.
