(* ===== verification/CStr.v ===== *)
(** C strings.

    A string is the list of its bytes before the NUL, each in 1..255.
    [strcmp] is the comparison the C library and the user library
    (src/p3b/xv6-public/ulib.c) agree on: bytes compared as [unsigned char].
    The file gives the order facts the sorted lists of the map-reduce library
    need, and ties the routines of src/p4/string.c, which work on memory, to
    their meaning on lists. *)

From Stdlib Require Import ZArith Lia.
From stdpp Require Import base numbers list gmap strings.
From S2P Require Import Prelude Mem.
#[local] Open Scope Z_scope.

Abbreviation cstring := (list Z).

Definition is_char (c : Z) : Prop := 0 < c < 256.
Definition str_ok (l : cstring) : Prop := Forall is_char l.

#[export] Instance is_char_dec c : Decision (is_char c).
Proof. unfold is_char. apply _. Defined.
#[export] Instance str_ok_dec l : Decision (str_ok l).
Proof. unfold str_ok. apply _. Defined.

(** Rocq string literals as C strings, for concrete inputs. *)
Definition of_string (s : string) : cstring :=
  (λ a, Z.of_N (Ascii.N_of_ascii a)) <$> String.list_ascii_of_string s.

(** [while( *p && *p == *q) p++, q++; return (uchar)*p - (uchar)*q;] *)
Fixpoint strcmp (p q : cstring) : Z :=
  match p, q with
  | [], [] => 0
  | [], d :: _ => 0 - d
  | c :: _, [] => c - 0
  | c :: p', d :: q' => if c =? d then strcmp p' q' else c - d
  end.

(** * Order *)

Lemma strcmp_refl p : strcmp p p = 0.
Proof. induction p as [|c p IH]; simpl; [done|]. by rewrite Z.eqb_refl. Qed.

Lemma strcmp_eq p q : str_ok p → str_ok q → strcmp p q = 0 ↔ p = q.
Proof.
  intros Hp Hq. split; [|intros ->; apply strcmp_refl].
  revert q Hq. induction Hp as [|c p Hc Hp IH]; intros q Hq; destruct Hq as [|d q Hd Hq];
    simpl; unfold is_char in *; try lia.
  - done.
  - destruct (Z.eqb_spec c d) as [->|]; [intros; f_equal; by apply IH | lia].
Qed.

Lemma strcmp_anti p q : strcmp q p = - strcmp p q.
Proof.
  revert q. induction p as [|c p IH]; intros [|d q]; simpl; try lia.
  rewrite (Z.eqb_sym d c). destruct (Z.eqb_spec c d); [apply IH | lia].
Qed.

Lemma strcmp_trans p q r : str_ok p → str_ok q → str_ok r →
  strcmp p q < 0 → strcmp q r < 0 → strcmp p r < 0.
Proof.
  intros Hp. revert q r. induction Hp as [|c p Hc Hp IH]; intros q r Hq Hr;
    destruct Hq as [|d q Hd Hq], Hr as [|e r He Hr]; simpl;
    unfold is_char in *; try lia.
  destruct (Z.eqb_spec c d), (Z.eqb_spec d e), (Z.eqb_spec c e); subst; try lia.
  by apply IH.
Qed.

(** The equality test of the C programs, as a decision. *)
Lemma strcmp_neg_eq p q : str_ok p → str_ok q → (strcmp p q =? 0) = bool_decide (p = q).
Proof.
  intros Hp Hq. pose proof (strcmp_eq p q Hp Hq) as H.
  case_bool_decide; destruct (Z.eqb_spec (strcmp p q) 0); tauto.
Qed.

(** * Strings in memory *)

(** Memory holds the string [l], NUL-terminated, at address [s]. *)
Fixpoint cstr (m : mem) (s : Z) (l : cstring) : Prop :=
  match l with
  | [] => getb m s = 0
  | c :: l' => getb m s = c ∧ c ≠ 0 ∧ cstr m (s + 1) l'
  end.

Lemma cstr_ext m m' s l :
  (∀ b, s <= b <= s + Z.of_nat (length l) → getb m' b = getb m b) →
  cstr m s l → cstr m' s l.
Proof.
  revert s. induction l as [|c l IH]; intros s H; simpl in *.
  - intros. by rewrite H by lia.
  - intros (? & ? & ?). split_and!; [by rewrite H by lia|done|].
    apply IH; [|done]. intros. apply H. lia.
Qed.

Lemma strncmp_cstr m p q l k n :
  cstr m p l → cstr m q k → strncmp_loop m p q n = strcmp (take n l) (take n k).
Proof.
  revert p q l k. induction n as [|n IH]; intros p q l k Hl Hk; [done|].
  destruct l as [|c l], k as [|d k]; simpl in *.
  - by rewrite Hl, Hk.
  - rewrite Hl. simpl. by destruct Hk as [-> _].
  - destruct Hl as (-> & ? & _). rewrite Hk.
    destruct (Z.eqb_spec c 0); [done|]. simpl. lia.
  - destruct Hl as (-> & ? & ?), Hk as (-> & ? & ?).
    destruct (Z.eqb_spec c 0); [done|]. simpl.
    destruct (Z.eqb_spec c d); [|done]. by apply IH.
Qed.

Lemma strlen_cstr_from m s l k fuel :
  cstr m (s + k) l → (length l < fuel)%nat →
  strlen_loop m s k fuel = Some (k + Z.of_nat (length l)).
Proof.
  revert k fuel. induction l as [|c l IH]; intros k [|fuel] Hl Hf; simpl in *; try lia.
  - rewrite Hl. simpl. f_equal. lia.
  - destruct Hl as (Hc & Hne & Hl). rewrite Hc.
    destruct (Z.eqb_spec c 0); [done|].
    rewrite IH; [f_equal; lia | by replace (s + (k + 1)) with (s + k + 1) by lia | lia].
Qed.

Lemma getb_safestrcpy_out m s t k b :
  ¬ (s <= b <= s + Z.of_nat k) → getb (safestrcpy_loop m s t k) b = getb m b.
Proof.
  revert m s t. induction k as [|k IH]; intros m s t Hb; simpl.
  - by rewrite getb_setb_ne by lia.
  - destruct (_ =? 0); [rewrite !getb_setb_ne by lia; done|].
    rewrite IH by lia. by rewrite getb_setb_ne by lia.
Qed.

Lemma safestrcpy_cstr m s t k l :
  cstr m t l →
  s + Z.of_nat k < t ∨ t + Z.of_nat (length l) < s →
  cstr (safestrcpy_loop m s t k) s (take k l).
Proof.
  revert m s t l. induction k as [|k IH]; intros m s t l Hl Hd; simpl.
  - by rewrite getb_setb_eq.
  - destruct l as [|c l]; simpl in *.
    + rewrite Hl. simpl. rewrite getb_setb_ne by lia. by rewrite getb_setb_eq.
    + destruct Hl as (Hc & Hne & Hl). rewrite Hc.
      destruct (Z.eqb_spec c 0); [done|].
      assert (u8 c = c) as Hu by (apply u8_small; rewrite <- Hc; apply getb_range).
      split_and!; [|done|].
      * rewrite getb_safestrcpy_out by lia. by rewrite getb_setb_eq.
      * apply IH; [|lia]. apply (cstr_ext m); [|done].
        intros. apply getb_setb_ne. lia.
Qed.
