(* ===== verification/Mmu.v ===== *)
(** Addresses, page-table entries and their bit layout
    (src/p4/mmu.h, src/p4/memlayout.h, src/p4/ptentry.h).

    The macros are kept as bit operations on 32-bit words; the lemmas restate
    them as divisions and remainders, the form the proofs about page tables
    use. *)

From Stdlib Require Import ZArith Lia.
From stdpp Require Import base numbers list gmap.
From S2P Require Import Prelude.
#[local] Open Scope Z_scope.

(** * memlayout.h *)

Definition EXTMEM : Z := 1048576.          (* 0x100000 *)
Definition PHYSTOP : Z := 234881024.       (* 0xE000000 *)
Definition DEVSPACE : Z := 4261412864.     (* 0xFE000000 *)
Definition KERNBASE : Z := 2147483648.     (* 0x80000000 *)
Definition KERNLINK : Z := KERNBASE + EXTMEM.

Definition V2P (a : Z) : Z := u32 (a - KERNBASE).
Definition P2V (a : Z) : Z := u32 (a + KERNBASE).

(** * mmu.h *)

Definition NPDENTRIES : Z := 1024.
Definition NPTENTRIES : Z := 1024.
Definition PGSIZE : Z := 4096.
Definition PTXSHIFT : Z := 12.
Definition PDXSHIFT : Z := 22.

Definition PDX (va : Z) : Z := Z.land (Z.shiftr (u32 va) PDXSHIFT) 1023.
Definition PTX (va : Z) : Z := Z.land (Z.shiftr (u32 va) PTXSHIFT) 1023.
Definition PPN (pa : Z) : Z := Z.shiftr (u32 pa) PTXSHIFT.
Definition OFFSET (va : Z) : Z := Z.land (u32 va) 4095.
Definition PGADDR (d t o : Z) : Z :=
  u32 (Z.lor (Z.lor (Z.shiftl d PDXSHIFT) (Z.shiftl t PTXSHIFT)) o).

Definition PGROUNDUP (sz : Z) : Z := Z.land (u32 (sz + PGSIZE - 1)) (bnot32 (PGSIZE - 1)).
Definition PGROUNDDOWN (a : Z) : Z := Z.land a (bnot32 (PGSIZE - 1)).

Definition PTE_P : Z := 1.
Definition PTE_W : Z := 2.
Definition PTE_U : Z := 4.
Definition PTE_A : Z := 32.
Definition PTE_E : Z := 1024.

Definition PTE_ADDR (pte : Z) : Z := Z.land (u32 pte) (bnot32 4095).
Definition PTE_FLAGS (pte : Z) : Z := Z.land (u32 pte) 4095.

(** [*pte & mask] used as a C condition. *)
Definition flag (pte mask : Z) : bool := negb (Z.land pte mask =? 0).

(** * Arithmetic forms *)

Lemma land_1023 x : Z.land x 1023 = x mod 1024.
Proof. change 1023 with (Z.ones 10). by rewrite Z.land_ones. Qed.

Lemma land_4095 x : Z.land x 4095 = x mod 4096.
Proof. change 4095 with (Z.ones 12). by rewrite Z.land_ones. Qed.

Lemma PDX_div va : is_u32 va → PDX va = va / 4194304.
Proof.
  intros H. unfold PDX, PDXSHIFT. rewrite land_1023, u32_small, Z.shiftr_div_pow2 by (done || lia).
  apply Z.mod_small. unfold is_u32 in H. change (2 ^ 22) with 4194304.
  split; [apply Z.div_pos; lia | apply Z.div_lt_upper_bound; lia].
Qed.

Lemma PTX_div va : is_u32 va → PTX va = (va / 4096) mod 1024.
Proof.
  intros H. unfold PTX, PTXSHIFT.
  by rewrite land_1023, u32_small, Z.shiftr_div_pow2 by (done || lia).
Qed.

Lemma OFFSET_mod va : is_u32 va → OFFSET va = va mod 4096.
Proof. intros H. unfold OFFSET. by rewrite land_4095, u32_small. Qed.

Lemma PDX_range va : is_u32 va → 0 <= PDX va < 1024.
Proof. intros. unfold PDX. rewrite land_1023. apply Z.mod_pos_bound. lia. Qed.

Lemma PTX_range va : 0 <= PTX va < 1024.
Proof. unfold PTX. rewrite land_1023. apply Z.mod_pos_bound. lia. Qed.

Lemma PGROUNDDOWN_mod a : is_u32 a → PGROUNDDOWN a = a - a mod 4096.
Proof. intros H. by apply (land_clear_low a 12). Qed.

Lemma PGROUNDDOWN_aligned a : is_u32 a → a mod 4096 = 0 → PGROUNDDOWN a = a.
Proof. intros. rewrite PGROUNDDOWN_mod by done. lia. Qed.

(** Rounding up wraps to 0 in the last page of the address space. *)
Lemma PGROUNDUP_mod sz :
  is_u32 sz →
  PGROUNDUP sz = if sz <=? 2 ^ 32 - 4096 then (sz + 4095) / 4096 * 4096 else 0.
Proof.
  intros H. unfold PGROUNDUP.
  pose proof (land_clear_low (u32 (sz + 4096 - 1)) 12 (u32_range _)) as E.
  change (2 ^ 12) with 4096 in E. change (PGSIZE - 1) with (4096 - 1). unfold PGSIZE.
  rewrite E by lia. unfold u32. unfold is_u32 in H.
  destruct (Z.leb_spec sz (2 ^ 32 - 4096)).
  - rewrite (Z.mod_small _ (2 ^ 32)) by lia.
    replace (sz + 4096 - 1) with (sz + 4095) by lia.
    pose proof (Z.div_mod (sz + 4095) 4096). lia.
  - replace (sz + 4096 - 1) with (sz + 4096 - 1 - 2 ^ 32 + 1 * 2 ^ 32) by lia.
    rewrite Z_mod_plus_full, (Z.mod_small _ (2 ^ 32)) by lia.
    rewrite Z.mod_small by lia. lia.
Qed.

Lemma PTE_ADDR_mod pte : is_u32 pte → PTE_ADDR pte = pte - pte mod 4096.
Proof.
  intros H. unfold PTE_ADDR. rewrite u32_small by done. by apply (land_clear_low pte 12).
Qed.

Lemma PTE_FLAGS_mod pte : is_u32 pte → PTE_FLAGS pte = pte mod 4096.
Proof. intros H. unfold PTE_FLAGS. by rewrite land_4095, u32_small. Qed.

Lemma V2P_P2V a : 0 <= a < KERNBASE → V2P (P2V a) = a.
Proof.
  unfold V2P, P2V, KERNBASE, u32. intros.
  rewrite (Z.mod_small (a + _)) by lia. rewrite Z.mod_small by lia. lia.
Qed.

Lemma V2P_kern a : KERNBASE <= a < 2 ^ 32 → V2P a = a - KERNBASE.
Proof. unfold V2P, KERNBASE, u32. intros. apply Z.mod_small. lia. Qed.

Lemma P2V_V2P a : KERNBASE <= a < 2 ^ 32 → P2V (V2P a) = a.
Proof.
  intros. rewrite V2P_kern by done. unfold P2V, u32. unfold KERNBASE in *.
  rewrite Z.mod_small by lia. lia.
Qed.

(** ** Entries built as [address | flags] *)

Lemma entry_add pa fl : pa mod 4096 = 0 → 0 <= fl < 4096 → Z.lor pa fl = pa + fl.
Proof. intros. by apply (lor_add_disjoint fl pa 12). Qed.

Lemma entry_range pa fl :
  is_u32 pa → pa mod 4096 = 0 → 0 <= fl < 4096 → is_u32 (Z.lor pa fl).
Proof.
  unfold is_u32. intros Hpa Hal Hfl. rewrite entry_add by done.
  apply Z_div_exact_full_2 in Hal; [|lia]. lia.
Qed.

Lemma entry_ADDR pa fl :
  is_u32 pa → pa mod 4096 = 0 → 0 <= fl < 4096 → PTE_ADDR (Z.lor pa fl) = pa.
Proof.
  intros. rewrite PTE_ADDR_mod by (by apply entry_range). rewrite entry_add by done.
  rewrite <- Zplus_mod_idemp_l, H0, Z.add_0_l, Z.mod_small by lia. lia.
Qed.

Lemma entry_FLAGS pa fl :
  is_u32 pa → pa mod 4096 = 0 → 0 <= fl < 4096 → PTE_FLAGS (Z.lor pa fl) = fl.
Proof.
  intros. rewrite PTE_FLAGS_mod by (by apply entry_range). rewrite entry_add by done.
  by rewrite <- Zplus_mod_idemp_l, H0, Z.add_0_l, Z.mod_small by lia.
Qed.

(** An entry is its address and its flags. *)
Lemma entry_split pte : is_u32 pte → pte = Z.lor (PTE_ADDR pte) (PTE_FLAGS pte).
Proof.
  intros H. rewrite PTE_ADDR_mod, PTE_FLAGS_mod by done.
  pose proof (Z.mod_pos_bound pte 4096 ltac:(lia)).
  rewrite entry_add; [lia | | lia].
  rewrite Zminus_mod_idemp_r, Z.sub_diag. done.
Qed.

Lemma PTE_ADDR_aligned pte : is_u32 pte → PTE_ADDR pte mod 4096 = 0.
Proof.
  intros. rewrite PTE_ADDR_mod by done. by rewrite Zminus_mod_idemp_r, Z.sub_diag.
Qed.

Lemma PTE_ADDR_range pte : is_u32 pte → is_u32 (PTE_ADDR pte).
Proof.
  unfold is_u32. intros. rewrite PTE_ADDR_mod by done.
  pose proof (Z.mod_pos_bound pte 4096). pose proof (Z.mod_le pte 4096). lia.
Qed.

(** ** Flags as bits *)

Lemma flag_testbit pte n : 0 <= n → flag pte (2 ^ n) = Z.testbit pte n.
Proof.
  intros Hn. unfold flag. pose proof (land_pow2_eq_0 pte n Hn).
  destruct (Z.testbit pte n), (Z.eqb_spec (Z.land pte (2 ^ n)) 0); simpl; try done.
  - exfalso. intuition discriminate.
  - tauto.
Qed.

Lemma flag_lor pte a b : flag pte (Z.lor a b) = flag pte a || flag pte b.
Proof.
  unfold flag. rewrite Z.land_lor_distr_r.
  pose proof (Z.lor_eq_0_iff (Z.land pte a) (Z.land pte b)).
  destruct (Z.eqb_spec (Z.lor (Z.land pte a) (Z.land pte b)) 0),
    (Z.eqb_spec (Z.land pte a) 0), (Z.eqb_spec (Z.land pte b) 0);
    simpl; tauto || done.
Qed.

Lemma flag_0 mask : flag 0 mask = false.
Proof. unfold flag. by rewrite Z.land_0_l. Qed.

Lemma flag_of_lor x y mask : flag (Z.lor x y) mask = flag x mask || flag y mask.
Proof.
  pose proof (flag_lor mask x y) as H. unfold flag in *.
  by rewrite !(Z.land_comm mask) in H.
Qed.
