(* ===== verification/Kalloc.v ===== *)
(** The physical page allocator (src/p4/kalloc.c).

    The free list is threaded through the free pages themselves: the first
    word of a free page is the address of the next one.  [kst] is the state of
    the allocator together with the memory it manages; addresses are kernel
    virtual addresses, so a physical page [pa] is found at [P2V pa].

    [kmem_locked] is [kmem.lock] as the one CPU that runs the operation sees
    it: acquiring a lock this CPU already holds, or releasing one it does not
    hold, panics (src/p4/spinlock.c). *)

From Stdlib Require Import ZArith Lia.
From stdpp Require Import base numbers list gmap sets strings.
From S2P Require Import Prelude Mem Mmu.
#[local] Open Scope Z_scope.

Record kst := Kst {
  kmem_locked : bool;
  use_lock : Z;
  freelist : Z;
  ram : mem
}.

Definition set_ram (s : kst) (m : mem) : kst :=
  Kst (kmem_locked s) (use_lock s) (freelist s) m.
Definition set_freelist (s : kst) (p : Z) : kst :=
  Kst (kmem_locked s) (use_lock s) p (ram s).
Definition set_locked (s : kst) (b : bool) : kst :=
  Kst b (use_lock s) (freelist s) (ram s).
Definition set_use_lock (s : kst) (b : Z) : kst :=
  Kst (kmem_locked s) b (freelist s) (ram s).

(** [if(kmem.use_lock) acquire(&kmem.lock);] and its release. *)
Definition kmem_acquire (s : kst) : outcome kst :=
  if use_lock s =? 0 then Ok s
  else if kmem_locked s then Panic "acquire" else Ok (set_locked s true).
Definition kmem_release (s : kst) : outcome kst :=
  if use_lock s =? 0 then Ok s
  else if kmem_locked s then Ok (set_locked s false) else Panic "release".

Section Kalloc.
(** [end]: the first address after the kernel image, from the linker script. *)
Context (kend : Z).

Definition kfree (s : kst) (v : Z) : outcome kst :=
  if negb (v mod PGSIZE =? 0) || (v <? kend) || (PHYSTOP <=? V2P v)
  then Panic "kfree"
  else
    let s1 := set_ram s (memset (ram s) v 1 PGSIZE) in
    s2 ← kmem_acquire s1;
    let s3 := set_ram s2 (store32 (ram s2) v (freelist s2)) in
    let s4 := set_freelist s3 v in
    kmem_release s4.

Definition kalloc (s : kst) : outcome (Z * kst) :=
  s1 ← kmem_acquire s;
  let r := freelist s1 in
  let s2 := if r =? 0 then s1 else set_freelist s1 (load32 (ram s1) r) in
  s3 ← kmem_release s2;
  Ok (r, s3).

(** [for(; p + PGSIZE <= vend; p += PGSIZE) kfree(p);] with [n] pages to go. *)
Fixpoint freerange_loop (s : kst) (p : Z) (n : nat) : outcome kst :=
  match n with
  | O => Ok s
  | S n' => s' ← kfree s p; freerange_loop s' (p + PGSIZE) n'
  end.

Definition freerange (s : kst) (vstart vend : Z) : outcome kst :=
  let p := PGROUNDUP vstart in
  freerange_loop s p (Z.to_nat ((vend - p) / PGSIZE)).

(** [initlock] clears the lock. *)
Definition kinit1 (s : kst) (vstart vend : Z) : outcome kst :=
  freerange (set_use_lock (set_locked s false) 0) vstart vend.

Definition kinit2 (s : kst) (vstart vend : Z) : outcome kst :=
  s' ← freerange s vstart vend; Ok (set_use_lock s' 1).

(** * Invariant *)

(** The pages [kfree] accepts. *)
Definition valid_page (v : Z) : Prop :=
  v mod 4096 = 0 ∧ kend <= v < 2 ^ 32 ∧ V2P v < PHYSTOP.

Definition in_page (v b : Z) : Prop := v <= b < v + 4096.

(** Following [next] pointers from [p] visits exactly [l]. *)
Fixpoint chain (m : mem) (p : Z) (l : list Z) : Prop :=
  match l with
  | [] => p = 0
  | x :: l' => p = x ∧ chain m (load32 m x) l'
  end.

Record kmem_ok (s : kst) (fl : list Z) : Prop := {
  ok_unlocked : kmem_locked s = false;
  ok_chain : chain (ram s) (freelist s) fl;
  ok_nodup : NoDup fl;
  ok_valid : Forall valid_page fl
}.

Hypothesis Hkend : KERNLINK <= kend.

Lemma valid_page_bounds v :
  valid_page v → KERNBASE + EXTMEM <= v ∧ v + 4096 <= KERNBASE + PHYSTOP ∧ is_u32 v.
Proof.
  intros (Hal & Hr & Hp). unfold KERNLINK, KERNBASE, EXTMEM, is_u32 in *.
  rewrite V2P_kern in Hp by (unfold KERNBASE; lia). unfold KERNBASE, PHYSTOP in *.
  apply Z_div_exact_full_2 in Hal; lia.
Qed.

Lemma pages_disjoint v w b :
  v mod 4096 = 0 → w mod 4096 = 0 → v ≠ w → in_page v b → ¬ in_page w b.
Proof.
  unfold in_page. intros Hv Hw Hne.
  apply Z_div_exact_full_2 in Hv; apply Z_div_exact_full_2 in Hw; lia.
Qed.

Lemma chain_ext m m' p l :
  Forall valid_page l →
  (∀ x b, x ∈ l → in_page x b → getb m' b = getb m b) →
  chain m p l → chain m' p l.
Proof.
  intros Hv. revert p. induction Hv as [|x l Hx Hv IH]; intros p Hext; simpl; [done|].
  intros [-> Hc]. split; [done|].
  rewrite (load32_ext m m').
  - apply IH; [|done]. intros y b Hy. apply Hext. set_solver.
  - intros b Hb. apply (Hext x); [set_solver|]. unfold in_page. lia.
Qed.

(** Writes outside the free pages do not disturb the allocator. *)
Lemma kmem_ok_frame s m' fl :
  kmem_ok s fl →
  (∀ x b, x ∈ fl → in_page x b → getb m' b = getb (ram s) b) →
  kmem_ok (set_ram s m') fl.
Proof.
  intros [Hu Hc Hn Hv] Hext. split; simpl; [done| |done|done].
  by apply (chain_ext (ram s)).
Qed.

Lemma kalloc_spec s fl :
  kmem_ok s fl →
  match fl with
  | [] => kalloc s = Ok (0, s)
  | p :: fl' => ∃ s', kalloc s = Ok (p, s') ∧ ram s' = ram s ∧ kmem_ok s' fl'
                  ∧ use_lock s' = use_lock s
  end.
Proof.
  intros [Hu Hc Hn Hv]. destruct s as [lk ul f m]; simpl in *; subst lk.
  unfold kalloc, kmem_acquire, kmem_release.
  destruct fl as [|p fl]; simpl in *.
  - subst f. destruct (Z.eqb_spec ul 0); simpl.
    + destruct (Z.eqb_spec ul 0); [done|lia].
    + destruct (Z.eqb_spec ul 0); [lia|done].
  - destruct Hc as [-> Hc]. apply Forall_cons in Hv as [Hp Hv].
    pose proof (valid_page_bounds p Hp) as (? & _).
    apply NoDup_cons in Hn as [Hp' Hn].
    exists (Kst false ul (load32 m p) m).
    assert ((p =? 0) = false) as Hp0 by (unfold KERNBASE, EXTMEM in *; lia).
    destruct (Z.eqb_spec ul 0); simpl; rewrite Hp0; simpl;
      destruct (Z.eqb_spec ul 0); try lia; simpl; done.
Qed.

Lemma valid_page_check v :
  valid_page v →
  negb (v mod PGSIZE =? 0) || (v <? kend) || (PHYSTOP <=? V2P v) = false.
Proof.
  intros (Hal & [Hr _] & Hp). unfold PGSIZE. rewrite Hal.
  destruct (Z.ltb_spec v kend), (Z.leb_spec PHYSTOP (V2P v)); (done || lia).
Qed.

Lemma kfree_eq s v :
  kmem_locked s = false → valid_page v →
  kfree s v = Ok (Kst false (use_lock s) v
    (store32 (memset (ram s) v 1 PGSIZE) v (freelist s))).
Proof.
  intros Hl Hv. unfold kfree. rewrite (valid_page_check v Hv).
  destruct s as [lk ul f m]; simpl in *; subst lk.
  unfold kmem_acquire, kmem_release, set_ram, set_freelist, set_locked; simpl.
  destruct (Z.eqb_spec ul 0); simpl; destruct (Z.eqb_spec ul 0); try lia; done.
Qed.

Lemma kfree_spec s fl v :
  kmem_ok s fl → valid_page v → v ∉ fl →
  ∃ s', kfree s v = Ok s' ∧ kmem_ok s' (v :: fl) ∧ use_lock s' = use_lock s
    ∧ ∀ b, ¬ in_page v b → getb (ram s') b = getb (ram s) b.
Proof.
  intros [Hu Hc Hn Hv] Hval Hnin. pose proof (valid_page_bounds v Hval) as (? & _).
  destruct s as [lk ul f m]; simpl in *; subst lk.
  set (m1 := store32 (memset m v 1 PGSIZE) v f).
  exists (Kst false ul v m1).
  assert (is_u32 f) as Hf.
  { destruct fl as [|x fl]; simpl in Hc; [subst f; done|].
    destruct Hc as [-> _]. apply Forall_cons in Hv as [Hx _].
    by apply valid_page_bounds. }
  assert (∀ b, ¬ in_page v b → getb m1 b = getb m b) as Hframe.
  { intros b Hb. unfold m1, in_page, PGSIZE in *.
    rewrite getb_store32_ne, getb_memset by lia. case_decide; [lia|done]. }
  split_and!; [| |done|done].
  - by rewrite kfree_eq.
  - split; simpl; [done| |by apply NoDup_cons|by apply Forall_cons].
    split; [done|]. rewrite (load32_store32 _ v f Hf : load32 m1 v = f).
    apply (chain_ext m); [done| |done].
    intros x b Hx Hb. apply Hframe. rewrite Forall_forall in Hv.
    assert (x ≠ v) by (intros ->; done).
    apply (pages_disjoint x v); [by apply Hv|apply Hval|done|done].
Qed.

Lemma kfree_invalid s v : is_u32 v → ¬ valid_page v → kfree s v = Panic "kfree".
Proof.
  unfold valid_page, kfree, is_u32, PGSIZE. intros Hu H.
  destruct (Z.eqb_spec (v mod 4096) 0), (Z.ltb_spec v kend),
    (Z.leb_spec PHYSTOP (V2P v)); simpl; try done. exfalso; apply H; lia.
Qed.

(** ** Filling the free list *)

(** The page addresses from [p] on, [n] of them. *)
Fixpoint page_seq (p : Z) (n : nat) : list Z :=
  match n with
  | O => []
  | S n' => p :: page_seq (p + PGSIZE) n'
  end.

Lemma elem_of_page_seq x p n : x ∈ page_seq p n → p <= x.
Proof.
  revert p. induction n as [|n IH]; intros p; simpl; [set_solver|].
  intros [->|H]%elem_of_cons; [lia|]. apply IH in H. unfold PGSIZE in *. lia.
Qed.

Lemma freerange_loop_spec s fl p n :
  kmem_ok s fl → Forall valid_page (page_seq p n) →
  (∀ x, x ∈ page_seq p n → x ∉ fl) →
  ∃ s', freerange_loop s p n = Ok s'
    ∧ kmem_ok s' (rev (page_seq p n) ++ fl) ∧ use_lock s' = use_lock s.
Proof.
  revert s fl p. induction n as [|n IH]; intros s fl p Hok Hv Hd; simpl.
  - eauto.
  - apply Forall_cons in Hv as [Hp Hv]; fold page_seq in Hv.
    destruct (kfree_spec s fl p Hok Hp) as (s1 & -> & Hok1 & Hul & _); [set_solver|].
    rewrite bind_Ok.
    destruct (IH s1 (p :: fl) (p + PGSIZE) Hok1 Hv) as (s' & -> & Hok' & Hul').
    { intros x Hx. apply not_elem_of_cons. split; [|set_solver].
      intros ->. apply elem_of_page_seq in Hx. unfold PGSIZE in *. lia. }
    exists s'. split_and!; [done| |congruence]. by rewrite <- app_assoc.
Qed.

(** * Abstract specification: a set of free pages

    A pool is the set of pages the allocator can still hand out.  The clients
    of the allocator hold the pages they were given, may write anything into
    them, and give them back. *)

Definition pool (s : kst) (F : gset Z) : Prop :=
  ∃ fl, kmem_ok s fl ∧ F = list_to_set fl.

Inductive client_step : kst * gset Z → kst * gset Z → Prop :=
| client_alloc s s' H p :
    kalloc s = Ok (p, s') → p ≠ 0 → client_step (s, H) (s', {[p]} ∪ H)
| client_nomem s s' H :
    kalloc s = Ok (0, s') → client_step (s, H) (s', H)
| client_free s s' H v :
    v ∈ H → kfree s v = Ok s' → client_step (s, H) (s', H ∖ {[v]})
| client_write s H m' :
    (∀ b, (∀ v, v ∈ H → ¬ in_page v b) → getb m' b = getb (ram s) b) →
    client_step (s, H) (set_ram s m', H).

(** Every page is either free or held by exactly one client. *)
Definition partitioned (P : gset Z) (st : kst * gset Z) : Prop :=
  ∃ F, pool st.1 F ∧ F ## st.2 ∧ F ∪ st.2 = P.

Lemma pool_alloc s F :
  pool s F →
  (F = ∅ ∧ kalloc s = Ok (0, s))
  ∨ ∃ p s', kalloc s = Ok (p, s') ∧ p ∈ F ∧ p ≠ 0 ∧ pool s' (F ∖ {[p]}) ∧ ram s' = ram s.
Proof.
  intros (fl & Hok & ->). pose proof (kalloc_spec s fl Hok) as H.
  destruct fl as [|p fl]; [by left|right].
  destruct H as (s' & Hk & Hram & Hok' & _).
  pose proof (ok_valid s _ Hok) as Hv. apply Forall_cons in Hv as [Hp _].
  pose proof (valid_page_bounds p Hp) as (? & _).
  pose proof (ok_nodup s _ Hok) as Hn. apply NoDup_cons in Hn as [Hn _].
  exists p, s'. split_and!; [done|set_solver| |exists fl; split; [done|set_solver]|done].
  unfold KERNBASE, EXTMEM in *. lia.
Qed.

Lemma pool_free s F v :
  pool s F → valid_page v → v ∉ F →
  ∃ s', kfree s v = Ok s' ∧ pool s' ({[v]} ∪ F)
    ∧ ∀ b, ¬ in_page v b → getb (ram s') b = getb (ram s) b.
Proof.
  intros (fl & Hok & ->) Hv Hn.
  destruct (kfree_spec s fl v Hok Hv) as (s' & -> & Hok' & _ & Hfr); [set_solver|].
  exists s'. split_and!; [done| |done]. exists (v :: fl). split; [done|set_solver].
Qed.

Lemma pool_write s F m' :
  pool s F → (∀ x b, x ∈ F → in_page x b → getb m' b = getb (ram s) b) →
  pool (set_ram s m') F.
Proof.
  intros (fl & Hok & ->) Hext. exists fl. split; [|done].
  apply kmem_ok_frame; [done|]. intros x b Hx. apply Hext. set_solver.
Qed.

Lemma partitioned_step P st st' :
  set_Forall valid_page P → partitioned P st → client_step st st' → partitioned P st'.
Proof.
  intros HP (F & Hpool & Hdisj & Hun) Hstep.
  destruct Hstep as [s s' H p Hk Hp|s s' H Hk|s s' H v Hv Hk|s H m' Hext]; simpl in *.
  - destruct (pool_alloc s F Hpool) as [[_ Hk']|(p' & s2 & Hk' & Hin & _ & Hpool' & _)];
      rewrite Hk' in Hk; simplify_eq.
    exists (F ∖ {[p]}). split_and!; [done|set_solver|]. simpl.
    apply set_eq. intros x. destruct (decide (x = p)); set_solver.
  - destruct (pool_alloc s F Hpool) as [[_ Hk']|(p' & s2 & Hk' & _ & Hne & _)];
      rewrite Hk' in Hk; simplify_eq.
    by exists F.
  - destruct (pool_free s F v Hpool) as (s2 & Hk' & Hpool' & _);
      [apply HP; set_solver|set_solver|].
    rewrite Hk' in Hk. injection Hk as Hk. subst.
    exists ({[v]} ∪ F). split_and!; [done|set_solver|]. simpl.
    apply set_eq. intros x. destruct (decide (x = v)); set_solver.
  - exists F. split_and!; [|done|done]. simpl. apply pool_write; [done|].
    intros x b Hx Hb. apply Hext. intros v Hv Hb'.
    apply (pages_disjoint x v b); try done; [apply HP; set_solver..|].
    intros ->. set_solver.
Qed.
End Kalloc.

Lemma page_seq_valid kend p n :
  KERNLINK <= kend → kend <= p → p mod 4096 = 0 →
  p + 4096 * Z.of_nat n <= KERNBASE + PHYSTOP → Forall (valid_page kend) (page_seq p n).
Proof.
  intros Hk. revert p. induction n as [|n IH]; intros p Hp Hal Hr; simpl; constructor.
  - unfold valid_page, KERNLINK, KERNBASE, EXTMEM, PHYSTOP in *.
    rewrite V2P_kern by (unfold KERNBASE; lia). unfold KERNBASE, PHYSTOP. lia.
  - unfold PGSIZE. apply IH; [lia| |lia].
    by rewrite <- Zplus_mod_idemp_r, Z_mod_same_full, Z.add_0_r.
Qed.

Lemma PGROUNDUP_ge v : 0 <= v <= KERNBASE + PHYSTOP →
  v <= PGROUNDUP v ∧ PGROUNDUP v mod 4096 = 0.
Proof.
  intros Hv. rewrite PGROUNDUP_mod by (unfold is_u32, KERNBASE, PHYSTOP in *; lia).
  destruct (Z.leb_spec v (2 ^ 32 - 4096)); [|unfold KERNBASE, PHYSTOP in *; lia].
  split; [|by rewrite Z.mul_comm, Z.mul_comm, Z_mod_mult].
  pose proof (Z.div_mod (v + 4095) 4096). pose proof (Z.mod_pos_bound (v + 4095) 4096). lia.
Qed.

(** The pages [freerange] puts on the free list. *)
Definition range_pages (vstart vend : Z) : list Z :=
  page_seq (PGROUNDUP vstart) (Z.to_nat ((vend - PGROUNDUP vstart) / PGSIZE)).

Lemma range_pages_valid kend vstart vend :
  KERNLINK <= kend → kend <= vstart <= vend → vend <= KERNBASE + PHYSTOP →
  Forall (valid_page kend) (range_pages vstart vend).
Proof.
  intros Hk Hs He. unfold range_pages.
  pose proof (PGROUNDUP_ge vstart) as [Hge Hal];
    [unfold KERNLINK, KERNBASE, EXTMEM, PHYSTOP in *; lia|].
  destruct (Z_lt_le_dec (vend - PGROUNDUP vstart) 0) as [Hneg|Hpos].
  - rewrite Z2Nat.nonpos; [constructor|]. unfold PGSIZE. apply Z.div_le_upper_bound; lia.
  - apply page_seq_valid; [done|lia|done|]. unfold PGSIZE.
    rewrite Z2Nat.id by (apply Z.div_pos; lia).
    pose proof (Z.div_mod (vend - PGROUNDUP vstart) 4096).
    pose proof (Z.mod_pos_bound (vend - PGROUNDUP vstart) 4096). lia.
Qed.

Lemma kinit1_pool kend s vstart vend :
  KERNLINK <= kend → kend <= vstart <= vend → vend <= KERNBASE + PHYSTOP →
  freelist s = 0 →
  ∃ s', kinit1 kend s vstart vend = Ok s' ∧ use_lock s' = 0
    ∧ kmem_ok kend s' (rev (range_pages vstart vend)).
Proof.
  intros Hk Hs He Hf.
  destruct (freerange_loop_spec kend Hk (set_use_lock (set_locked s false) 0) []
    (PGROUNDUP vstart) (Z.to_nat ((vend - PGROUNDUP vstart) / PGSIZE)))
    as (s' & Hfr & Hok & Hul).
  - split; simpl; [done|done|constructor|constructor].
  - by apply range_pages_valid.
  - set_solver.
  - rewrite app_nil_r in Hok. exists s'. split_and!; [done|done|done].
Qed.

(** * Properties *)

(** C5.  After [kinit1] on a page range of free memory, whatever the clients do
    with [kalloc], [kfree] and writes to the pages they hold, in any order:
    each page of the range is either on the free list or held by exactly one
    client, none is lost and none is handed out twice; the free list stays a
    well-formed chain of valid pages; and no call panics. *)
Theorem kalloc_page_conservation kend s0 vstart vend :
  KERNLINK <= kend → kend <= vstart <= vend → vend <= KERNBASE + PHYSTOP →
  freelist s0 = 0 →
  ∃ s1, kinit1 kend s0 vstart vend = Ok s1 ∧
  ∀ s H, rtc (client_step kend) (s1, ∅) (s, H) →
    (∃ F, pool kend s F ∧ F ## H ∧ F ∪ H = list_to_set (range_pages vstart vend))
    ∧ (∃ r, kalloc s = Ok r)
    ∧ (∀ v, v ∈ H → ∃ s', kfree kend s v = Ok s').
Proof.
  intros Hk Hs He Hf.
  destruct (kinit1_pool kend s0 vstart vend Hk Hs He Hf) as (s1 & Hi & _ & Hok).
  exists s1. split; [done|]. intros s H Hrtc.
  set (P := list_to_set (range_pages vstart vend) : gset Z).
  assert (set_Forall (valid_page kend) P) as HP.
  { intros v Hv. pose proof (range_pages_valid kend vstart vend Hk Hs He) as HF.
    rewrite Forall_forall in HF. apply HF. set_solver. }
  assert (partitioned kend P (s1, ∅)) as H0.
  { exists P. split_and!; simpl; [|set_solver|set_solver].
    exists (rev (range_pages vstart vend)). split; [done|]. unfold P.
    apply set_eq. intros x. rewrite !elem_of_list_to_set, !list_elem_of_In.
    apply in_rev. }
  assert (partitioned kend P (s, H)) as (F & Hpool & Hdisj & Hun).
  { apply (rtc_invariant (client_step kend) _ (s1, ∅)); [|done|done].
    intros. by eapply partitioned_step. }
  simpl in *. split_and!; [by exists F| |].
  - destruct (pool_alloc kend Hk s F Hpool) as [[_ ->]|(p & s' & -> & _)]; eauto.
  - intros v Hv. destruct (pool_free kend Hk s F v Hpool) as (s' & -> & _);
      [apply HP; unfold P; set_solver|set_solver|eauto].
Qed.

(** Three pages above a kernel that ends at 0x80200000. *)
Definition demo_kend : Z := KERNBASE + 2 * EXTMEM.
Definition demo_boot : kst := Kst false 0 0 ∅.

(** C5 at the boot of a three-page machine, after one allocation. *)
Lemma kalloc_page_conservation_witness :
  ∃ s1, kinit1 demo_kend demo_boot demo_kend (demo_kend + 3 * PGSIZE) = Ok s1 ∧
  ∃ p s, kalloc s1 = Ok (p, s) ∧ p ≠ 0 ∧ ∃ r, kalloc s = Ok r.
Proof.
  destruct (kalloc_page_conservation demo_kend demo_boot demo_kend
    (demo_kend + 3 * PGSIZE)) as (s1 & Hk & Hall);
    [vm_compute; congruence|vm_compute; split; congruence|vm_compute; congruence|done|].
  exists s1. split; [done|].
  assert (∃ p s, kalloc s1 = Ok (p, s) ∧ p ≠ 0) as (p & s & Ha & Hp).
  { assert (match kinit1 demo_kend demo_boot demo_kend (demo_kend + 3 * PGSIZE) with
      | Ok s => match kalloc s with Ok (p, _) => negb (p =? 0) | _ => false end
      | _ => false end = true) as H by (vm_compute; reflexivity).
    rewrite Hk in H. destruct (kalloc s1) as [[p s]| | |]; try discriminate.
    exists p, s. split; [done|]. intros ->. discriminate. }
  exists p, s. split_and!; [done|done|].
  apply (Hall s ({[p]} ∪ ∅)). apply rtc_once. by apply client_alloc.
Defined.
