(* ===== verification/Vm.v ===== *)
(** Two-level page tables and user address spaces (src/p4/vm.c).

    A page directory is a page of 1024 words; a present entry points to a page
    table, a page of 1024 page-table entries.  Both live in the same memory as
    everything else ([Kalloc.kst]).  C pointers to entries are addresses, and 0
    is the null pointer.  Reading through the null pointer is [Fault 0].  The
    operations are specified in VmSpec. *)

From Stdlib Require Import ZArith Lia.
From stdpp Require Import base numbers list gmap sets strings.
From S2P Require Import Prelude Mem Mmu Kalloc.
#[local] Open Scope Z_scope.

(** [*p] for a pointer to a word. *)
Definition deref32 (m : mem) (p : Z) : outcome Z :=
  if p =? 0 then Fault 0 else Ok (load32 m p).

Record kmap_entry := KMap {
  virt : Z; phys_start : Z; phys_end : Z; perm : Z
}.

Section Vm.
(** Linker symbols: [end] (see Kalloc) and [data], the start of writable data. *)
Context (kend : Z) (kdata : Z).

Definition walkpgdir (s : kst) (pgdir va : Z) (alloc : bool) : outcome (Z * kst) :=
  let pde := pgdir + 4 * PDX va in
  if flag (load32 (ram s) pde) PTE_P then
    let pgtab := P2V (PTE_ADDR (load32 (ram s) pde)) in
    Ok (pgtab + 4 * PTX va, s)
  else if negb alloc then Ok (0, s)
  else
    '(pgtab, s1) ← kalloc s;
    if pgtab =? 0 then Ok (0, s1)
    else
      let m2 := memset (ram s1) pgtab 0 PGSIZE in
      let m3 := store32 m2 pde (Z.lor (Z.lor (Z.lor (V2P pgtab) PTE_P) PTE_W) PTE_U) in
      Ok (pgtab + 4 * PTX va, set_ram s1 m3).

(** The loop of [mappages]; [fuel] is the number of pages left. *)
Fixpoint mappages_loop (s : kst) (pgdir a last pa perm : Z) (fuel : nat)
  : outcome (Z * kst) :=
  match fuel with
  | O => NoFuel
  | S f =>
      '(pte, s1) ← walkpgdir s pgdir a true;
      if pte =? 0 then Ok (-1, s1)
      else if flag (load32 (ram s1) pte) (Z.lor PTE_P PTE_E)
      then Panic "p4Debug, remapping page"
      else
        let v := if flag perm PTE_E then Z.lor (Z.lor pa perm) PTE_E
                 else Z.lor (Z.lor pa perm) PTE_P in
        let s2 := set_ram s1 (store32 (ram s1) pte v) in
        if a =? last then Ok (0, s2)
        else mappages_loop s2 pgdir (u32 (a + PGSIZE)) last (u32 (pa + PGSIZE)) perm f
  end.

Definition mappages (s : kst) (pgdir va size pa perm : Z) : outcome (Z * kst) :=
  let a := PGROUNDDOWN va in
  let last := PGROUNDDOWN (u32 (va + size - 1)) in
  mappages_loop s pgdir a last pa perm (S (Z.to_nat (u32 (last - a) / PGSIZE))).

(** The loop of [deallocuvm].  Where a page table is missing the scan jumps to
    the next directory entry. *)
Fixpoint deallocuvm_loop (s : kst) (pgdir a oldsz : Z) (fuel : nat) : outcome kst :=
  if a <? oldsz then
    match fuel with
    | O => NoFuel
    | S f =>
        '(pte, _) ← walkpgdir s pgdir a false;
        if pte =? 0 then
          let a' := u32 (PGADDR (PDX a + 1) 0 0 - PGSIZE) in
          deallocuvm_loop s pgdir (u32 (a' + PGSIZE)) oldsz f
        else if flag (load32 (ram s) pte) (Z.lor PTE_P PTE_E) then
          let pa := PTE_ADDR (load32 (ram s) pte) in
          if pa =? 0 then Panic "kfree"
          else
            s1 ← kfree kend s (P2V pa);
            let s2 := set_ram s1 (store32 (ram s1) pte 0) in
            deallocuvm_loop s2 pgdir (u32 (a + PGSIZE)) oldsz f
        else deallocuvm_loop s pgdir (u32 (a + PGSIZE)) oldsz f
    end
  else Ok s.

(** One unit of fuel per page is enough: see [deallocuvm_total]. *)
Definition deallocuvm (s : kst) (pgdir oldsz newsz : Z) : outcome (Z * kst) :=
  if oldsz <=? newsz then Ok (oldsz, s)
  else
    let a := PGROUNDUP newsz in
    s' ← deallocuvm_loop s pgdir a oldsz (S (Z.to_nat ((oldsz - a) / PGSIZE)));
    Ok (newsz, s').

(** The loop of [allocuvm]; both failure paths undo with [deallocuvm]. *)
Fixpoint allocuvm_loop (s : kst) (pgdir a oldsz newsz : Z) (fuel : nat)
  : outcome (Z * kst) :=
  if a <? newsz then
    match fuel with
    | O => NoFuel
    | S f =>
        '(mm, s1) ← kalloc s;
        if mm =? 0 then
          '(_, s2) ← deallocuvm s1 pgdir newsz oldsz;
          Ok (0, s2)
        else
          let s2 := set_ram s1 (memset (ram s1) mm 0 PGSIZE) in
          '(r, s3) ← mappages s2 pgdir a PGSIZE (V2P mm) (Z.lor PTE_W PTE_U);
          if r <? 0 then
            '(_, s4) ← deallocuvm s3 pgdir newsz oldsz;
            s5 ← kfree kend s4 mm;
            Ok (0, s5)
          else allocuvm_loop s3 pgdir (u32 (a + PGSIZE)) oldsz newsz f
    end
  else Ok (newsz, s).

Definition allocuvm (s : kst) (pgdir oldsz newsz : Z) : outcome (Z * kst) :=
  if KERNBASE <=? newsz then Ok (0, s)
  else if newsz <? oldsz then Ok (oldsz, s)
  else
    let a := PGROUNDUP oldsz in
    allocuvm_loop s pgdir a oldsz newsz (S (Z.to_nat ((newsz - a) / PGSIZE))).

(** [for(i = 0; i < NPDENTRIES; i++)] of [freevm], [n] entries left. *)
Fixpoint freevm_loop (s : kst) (pgdir i : Z) (n : nat) : outcome kst :=
  match n with
  | O => Ok s
  | S n' =>
      let e := load32 (ram s) (pgdir + 4 * i) in
      if flag e (Z.lor PTE_P PTE_E) then
        s1 ← kfree kend s (P2V (PTE_ADDR e));
        freevm_loop s1 pgdir (i + 1) n'
      else freevm_loop s pgdir (i + 1) n'
  end.

Definition freevm (s : kst) (pgdir : Z) : outcome kst :=
  if pgdir =? 0 then Panic "freevm: no pgdir"
  else
    '(_, s1) ← deallocuvm s pgdir KERNBASE 0;
    s2 ← freevm_loop s1 pgdir 0 (Z.to_nat NPDENTRIES);
    kfree kend s2 pgdir.

Definition kmap : list kmap_entry :=
  [ KMap KERNBASE 0 EXTMEM PTE_W;
    KMap KERNLINK (V2P KERNLINK) (V2P kdata) 0;
    KMap kdata (V2P kdata) PHYSTOP PTE_W;
    KMap DEVSPACE DEVSPACE 0 PTE_W ].

Fixpoint setupkvm_loop (s : kst) (pgdir : Z) (ks : list kmap_entry) : outcome (Z * kst) :=
  match ks with
  | [] => Ok (pgdir, s)
  | k :: ks' =>
      '(r, s1) ← mappages s pgdir (virt k) (u32 (phys_end k - phys_start k))
                   (phys_start k) (perm k);
      if r <? 0 then s2 ← freevm s1 pgdir; Ok (0, s2)
      else setupkvm_loop s1 pgdir ks'
  end.

Definition setupkvm (s : kst) : outcome (Z * kst) :=
  '(pgdir, s1) ← kalloc s;
  if pgdir =? 0 then Ok (0, s1)
  else
    let s2 := set_ram s1 (memset (ram s1) pgdir 0 PGSIZE) in
    if DEVSPACE <? P2V PHYSTOP then Panic "PHYSTOP too high"
    else setupkvm_loop s2 pgdir kmap.

(** [init] is the address of the initial program; the result of [mappages] is
    ignored and [kalloc] is not checked, as in the source. *)
Definition inituvm (s : kst) (pgdir init sz : Z) : outcome kst :=
  if PGSIZE <=? sz then Panic "inituvm: more than a page"
  else
    '(mm, s1) ← kalloc s;
    let s2 := set_ram s1 (memset (ram s1) mm 0 PGSIZE) in
    '(_, s3) ← mappages s2 pgdir 0 PGSIZE (V2P mm) (Z.lor PTE_W PTE_U);
    Ok (set_ram s3 (memmove (ram s3) mm init sz)).

Definition clearpteu (s : kst) (pgdir uva : Z) : outcome kst :=
  '(pte, _) ← walkpgdir s pgdir uva false;
  if pte =? 0 then Panic "clearpteu"
  else Ok (set_ram s (store32 (ram s) pte (Z.land (load32 (ram s) pte) (bnot32 PTE_U)))).

Fixpoint copyuvm_loop (s : kst) (pgdir d i sz : Z) (fuel : nat) : outcome (Z * kst) :=
  if i <? sz then
    match fuel with
    | O => NoFuel
    | S f =>
        '(pte, _) ← walkpgdir s pgdir i false;
        if pte =? 0 then Panic "p4Debug: inside copyuvm, pte should exist"
        else if negb (flag (load32 (ram s) pte) (Z.lor PTE_P PTE_E))
        then Panic "p4Debug: inside copyuvm, page not present"
        else
          let pa := PTE_ADDR (load32 (ram s) pte) in
          let flags := PTE_FLAGS (load32 (ram s) pte) in
          '(mm, s1) ← kalloc s;
          if mm =? 0 then s2 ← freevm s1 d; Ok (0, s2)
          else
            let s2 := set_ram s1 (memmove (ram s1) mm (P2V pa) PGSIZE) in
            '(r, s3) ← mappages s2 d i PGSIZE (V2P mm) flags;
            if r <? 0 then
              s4 ← kfree kend s3 mm;
              s5 ← freevm s4 d;
              Ok (0, s5)
            else copyuvm_loop s3 pgdir d (u32 (i + PGSIZE)) sz f
    end
  else Ok (d, s).

Definition copyuvm (s : kst) (pgdir sz : Z) : outcome (Z * kst) :=
  '(d, s1) ← setupkvm s;
  if d =? 0 then Ok (0, s1)
  else copyuvm_loop s1 pgdir d 0 sz (S (Z.to_nat (sz / PGSIZE))).

Definition uva2ka (s : kst) (pgdir uva : Z) : outcome Z :=
  '(pte, _) ← walkpgdir s pgdir uva false;
  e ← deref32 (ram s) pte;
  if Z.lor (Z.land e PTE_P) (Z.land e PTE_E) =? 0 then Ok 0
  else if Z.land e PTE_U =? 0 then Ok 0
  else Ok (P2V (PTE_ADDR e)).

(** [while(len > 0)] of [copyout]: at most one page is written per iteration. *)
Fixpoint copyout_loop (s : kst) (pgdir va buf len : Z) (fuel : nat) : outcome (Z * kst) :=
  if 0 <? len then
    match fuel with
    | O => NoFuel
    | S f =>
        let va0 := PGROUNDDOWN va in
        pa0 ← uva2ka s pgdir va0;
        if pa0 =? 0 then Ok (-1, s)
        else
          let n0 := u32 (PGSIZE - (va - va0)) in
          let n := if len <? n0 then len else n0 in
          let s1 := set_ram s (memmove (ram s) (pa0 + (va - va0)) buf n) in
          copyout_loop s1 pgdir (u32 (va0 + PGSIZE)) (buf + n) (len - n) f
    end
  else Ok (0, s).

Definition copyout (s : kst) (pgdir va p len : Z) : outcome (Z * kst) :=
  copyout_loop s pgdir va p len (S (S (Z.to_nat (len / PGSIZE)))).

End Vm.
