(* ===== verification/VmSpec.v ===== *)
(** Specifications of the page-table operations of Vm (src/p4/vm.c).

    An ownership map gives every page of the machine one role; the invariant
    [space_inv] ties the roles to what the page tables in memory say.
    [evolves] says what an operation may change.  On this basis each operation
    is specified: [mappages], [deallocuvm], [allocuvm], [freevm], [setupkvm],
    [copyuvm], [copyout]. *)

From Stdlib Require Import ZArith Lia.
From stdpp Require Import base numbers list gmap sets strings.
From S2P Require Import Prelude Mem Mmu Kalloc Vm.
#[local] Open Scope Z_scope.

Section VmSpec.
Context (kend kdata : Z).

#[local] Abbreviation deallocuvm_loop := (deallocuvm_loop kend).
#[local] Abbreviation deallocuvm := (deallocuvm kend).
#[local] Abbreviation allocuvm_loop := (allocuvm_loop kend).
#[local] Abbreviation allocuvm := (allocuvm kend).

(** * What a page table says *)

(** The entry of [va] in the page table of [pgdir]; 0 when there is no table. *)
Definition pte_at (m : mem) (pgdir va : Z) : Z :=
  let e := load32 m (pgdir + 4 * PDX va) in
  if flag e PTE_P then load32 m (P2V (PTE_ADDR e) + 4 * PTX va) else 0.

Definition pte_addr (m : mem) (pgdir va : Z) : Z :=
  let e := load32 m (pgdir + 4 * PDX va) in
  if flag e PTE_P then P2V (PTE_ADDR e) + 4 * PTX va else 0.

(** The directory entry [walkpgdir] writes for the table [pgtab]. *)
Definition pde_for (pgtab : Z) : Z :=
  Z.lor (Z.lor (Z.lor (V2P pgtab) PTE_P) PTE_W) PTE_U.

(** * Ownership

    [Free]: on the allocator's list.  [Priv]: handed out, content arbitrary
    (kernel stacks, pages being prepared).  [Dir]: a page directory.
    [Table d i]: the page table entry [i] of directory [d] points to.
    [User d n]: the frame that virtual page [n] of directory [d] maps. *)

Inductive role :=
| Free
| Priv
| Dir
| Table (d i : Z)
| User (d n : Z).

#[export] Instance role_eq_dec : EqDecision role.
Proof. solve_decision. Defined.

Abbreviation owners := (gmap Z role).

Definition mapped (e : Z) : bool := flag e (Z.lor PTE_P PTE_E).

Record space_inv (s : kst) (own : owners) : Prop := {
  si_pool : ∃ fl, kmem_ok kend s fl ∧ ∀ p, p ∈ fl ↔ own !! p = Some Free;
  si_valid : ∀ p r, own !! p = Some r → valid_page kend p;
  si_dir : ∀ d i, own !! d = Some Dir → 0 <= i < 1024 →
    load32 (ram s) (d + 4 * i) = 0 ∨ ∃ t, own !! t = Some (Table d i);
  si_table : ∀ t d i, own !! t = Some (Table d i) →
    0 <= i < 1024 ∧ own !! d = Some Dir ∧ load32 (ram s) (d + 4 * i) = pde_for t;
  si_pte : ∀ t d i j, own !! t = Some (Table d i) → i < 512 → 0 <= j < 1024 →
    let e := load32 (ram s) (t + 4 * j) in
    e = 0 ∨ mapped e = true ∧ own !! P2V (PTE_ADDR e) = Some (User d (i * 1024 + j));
  si_user : ∀ p d n, own !! p = Some (User d n) →
    0 <= n < 524288 ∧ ∃ t, own !! t = Some (Table d (n / 1024)) ∧
    let e := load32 (ram s) (t + 4 * (n mod 1024)) in
    mapped e = true ∧ P2V (PTE_ADDR e) = p
}.

(** Two memories hold the same bytes in page [p]. *)
Definition agree (m m' : mem) (p : Z) : Prop :=
  ∀ b, in_page p b → getb m' b = getb m b.

Hypothesis Hkend : KERNLINK <= kend.

Lemma pde_for_spec t :
  valid_page kend t →
  is_u32 (pde_for t) ∧ flag (pde_for t) PTE_P = true ∧ P2V (PTE_ADDR (pde_for t)) = t
  ∧ pde_for t ≠ 0.
Proof.
  intros Hv. pose proof (valid_page_bounds kend Hkend t Hv) as (H1 & H2 & H3).
  destruct Hv as (Hal & _ & _). unfold KERNBASE, EXTMEM, PHYSTOP, is_u32 in *.
  assert (V2P t = t - KERNBASE) as HV by (apply V2P_kern; unfold KERNBASE; lia).
  assert (is_u32 (V2P t)) as Hu by (unfold is_u32; rewrite HV; unfold KERNBASE; lia).
  assert (V2P t mod 4096 = 0) as Ha.
  { rewrite HV. unfold KERNBASE. by rewrite Zminus_mod, Hal. }
  unfold pde_for. rewrite <- !Z.lor_assoc. change (Z.lor PTE_P (Z.lor PTE_W PTE_U)) with 7.
  split; [|split; [|split]].
  - by apply entry_range.
  - rewrite flag_of_lor. apply orb_true_r.
  - rewrite entry_ADDR by done. apply P2V_V2P. unfold KERNBASE. lia.
  - rewrite entry_add by done. unfold is_u32 in Hu. lia.
Qed.

Lemma valid_nonzero p j : valid_page kend p → 0 <= j → p + 4 * j ≠ 0.
Proof.
  intros Hv Hj. pose proof (valid_page_bounds kend Hkend p Hv) as (H1 & _).
  unfold KERNBASE, EXTMEM in *. lia.
Qed.

(** ** Frames *)

Lemma agree_refl m p : agree m m p.
Proof. done. Qed.

Lemma agree_trans m1 m2 m3 p : agree m1 m2 p → agree m2 m3 p → agree m1 m3 p.
Proof. intros H1 H2 b Hb. by rewrite H2, H1. Qed.

Lemma agree_load m m' p j :
  agree m m' p → 0 <= j < 1024 → load32 m' (p + 4 * j) = load32 m (p + 4 * j).
Proof. intros H Hj. apply load32_ext. intros b Hb. apply H. unfold in_page. lia. Qed.

Lemma agree_store m p q j v :
  valid_page kend p → valid_page kend q → p ≠ q → 0 <= j < 1024 →
  agree m (store32 m (p + 4 * j) v) q.
Proof.
  intros (Hp & _) (Hq & _) Hne Hj b Hb. apply getb_store32_ne. intros Hr.
  apply (pages_disjoint q p b Hq Hp); [done|done|]. unfold in_page. lia.
Qed.

Lemma agree_memset m p q c :
  valid_page kend p → valid_page kend q → p ≠ q → agree m (memset m p c PGSIZE) q.
Proof.
  intros (Hp & _) (Hq & _) Hne b Hb. unfold PGSIZE. rewrite getb_memset by lia.
  case_decide; [|done]. by destruct (pages_disjoint q p b Hq Hp).
Qed.

Lemma load_store_ne m p j k v :
  0 <= j < 1024 → 0 <= k < 1024 → j ≠ k →
  load32 (store32 m (p + 4 * j) v) (p + 4 * k) = load32 m (p + 4 * k).
Proof. intros. apply load32_store32_ne. lia. Qed.

(** Changes outside free pages, directories and tables keep the invariant. *)
Lemma space_inv_frame s own m' :
  space_inv s own →
  (∀ p r, own !! p = Some r → (r = Free ∨ r = Dir ∨ ∃ d i, r = Table d i) →
     agree (ram s) m' p) →
  space_inv (set_ram s m') own.
Proof.
  intros [(fl & Hok & Hfl) Hv Hd Ht Hp Hu] Hag. split; simpl.
  - exists fl. split; [|done]. apply kmem_ok_frame; [done|done|].
    intros x b Hx. apply (Hag x Free); [by apply Hfl|by left].
  - done.
  - intros d i Hdir Hi. rewrite (agree_load (ram s)) by (eauto 6 || done). by apply Hd.
  - intros t d i Htab. destruct (Ht t d i Htab) as (Hi & Hdir & He).
    split; [done|split; [done|]]. by rewrite (agree_load (ram s)) by (eauto 6 || done).
  - intros t d i j Htab Hi Hj. rewrite (agree_load (ram s)) by (eauto 8 || done).
    by apply Hp.
  - intros p d n Hpu. destruct (Hu p d n Hpu) as (Hn & t & Htab & He).
    split; [done|]. exists t. split; [done|].
    rewrite (agree_load (ram s)); [done|eauto 8|apply Z.mod_pos_bound; lia].
Qed.

(** ** Walking *)

Lemma flag_0_P : flag 0 PTE_P = false.
Proof. done. Qed.

(** A present directory entry leads to a table the directory owns. *)
Lemma dir_entry s own d i :
  space_inv s own → own !! d = Some Dir → 0 <= i < 1024 →
  (load32 (ram s) (d + 4 * i) = 0 ∧ ∀ t, own !! t ≠ Some (Table d i))
  ∨ ∃ t, own !! t = Some (Table d i) ∧ load32 (ram s) (d + 4 * i) = pde_for t.
Proof.
  intros Hinv Hd Hi.
  destruct (si_dir s own Hinv d i Hd Hi) as [He|[t Ht]].
  - left. split; [done|]. intros t Ht.
    destruct (si_table s own Hinv t d i Ht) as (_ & _ & He').
    rewrite He in He'. by destruct (pde_for_spec t (si_valid s own Hinv t _ Ht)) as (_ & _ & _ & ?).
  - right. exists t. split; [done|]. by apply (si_table s own Hinv).
Qed.

(** The two cases of a walk that does not allocate. *)
Lemma pte_cases s own d va :
  space_inv s own → own !! d = Some Dir → is_u32 va →
  (flag (load32 (ram s) (d + 4 * PDX va)) PTE_P = false
     ∧ pte_at (ram s) d va = 0 ∧ pte_addr (ram s) d va = 0
     ∧ ∀ t, own !! t ≠ Some (Table d (PDX va)))
  ∨ ∃ t, own !! t = Some (Table d (PDX va)) ∧ valid_page kend t
     ∧ flag (load32 (ram s) (d + 4 * PDX va)) PTE_P = true
     ∧ pte_at (ram s) d va = load32 (ram s) (t + 4 * PTX va)
     ∧ pte_addr (ram s) d va = t + 4 * PTX va
     ∧ P2V (PTE_ADDR (load32 (ram s) (d + 4 * PDX va))) = t.
Proof.
  intros Hinv Hd Hva. pose proof (PDX_range va Hva) as Hi.
  unfold pte_at, pte_addr.
  destruct (dir_entry s own d (PDX va) Hinv Hd Hi) as [[He Hno]|(t & Ht & He)]; rewrite He.
  - left. by rewrite flag_0_P.
  - right. exists t. pose proof (si_valid s own Hinv t _ Ht) as Hv.
    destruct (pde_for_spec t Hv) as (_ & -> & -> & _). done.
Qed.

Lemma walk_noalloc s d va : walkpgdir s d va false = Ok (pte_addr (ram s) d va, s).
Proof. unfold walkpgdir, pte_addr. by destruct (flag _ _). Qed.

(** Entries depend only on the directory and its tables. *)
Lemma pte_at_agree s own d va m' :
  space_inv s own → own !! d = Some Dir → is_u32 va →
  agree (ram s) m' d →
  (∀ t, own !! t = Some (Table d (PDX va)) → agree (ram s) m' t) →
  pte_at m' d va = pte_at (ram s) d va ∧ pte_addr m' d va = pte_addr (ram s) d va.
Proof.
  intros Hinv Hd Hva Hagd Hagt. pose proof (PDX_range va Hva). pose proof (PTX_range va).
  destruct (pte_cases s own d va Hinv Hd Hva)
    as [(Hf & _)|(t & Ht & Hv & Hf & _ & _ & HP)];
    unfold pte_at, pte_addr; rewrite (agree_load (ram s) m' d) by done; rewrite Hf; [done|].
  rewrite HP. by rewrite (agree_load (ram s) m' t) by eauto.
Qed.

(** * Evolution of a machine

    [evolves R X] relates two machine states and their ownership maps when
    nothing observable changed except: entries of the pages in [R], and the
    content and role of the pages in [X]. *)
Record evolves (R : Z → Z → Prop) (X : Z → Prop)
    (s : kst) (own : owners) (s' : kst) (own' : owners) : Prop := {
  ev_inv : space_inv s' own';
  ev_dir : ∀ d, own !! d = Some Dir → ¬ X d → own' !! d = Some Dir;
  ev_pte : ∀ d va, own !! d = Some Dir → ¬ X d → is_u32 va → ¬ R d (va / 4096) →
    pte_at (ram s') d va = pte_at (ram s) d va;
  ev_data : ∀ p r, own !! p = Some r → ¬ X p →
    r = Priv ∨ (∃ d n, r = User d n ∧ ¬ R d n) →
    own' !! p = Some r ∧ agree (ram s) (ram s') p
}.

Lemma evolves_refl R X s own : space_inv s own → evolves R X s own s own.
Proof. intros. split; try done. Qed.

Lemma evolves_trans (R R' : Z → Z → Prop) (X X' : Z → Prop) s1 o1 s2 o2 s3 o3 :
  evolves R X s1 o1 s2 o2 → evolves R' X' s2 o2 s3 o3 →
  evolves (λ d n, R d n ∨ R' d n) (λ p, X p ∨ X' p) s1 o1 s3 o3.
Proof.
  intros [I1 D1 P1 A1] [I2 D2 P2 A2]. split.
  - done.
  - intros d Hd Hx. apply D2; [apply D1|]; tauto.
  - intros d va Hd Hx Hva HR. rewrite P2, P1; try tauto. apply D1; tauto.
  - intros p r Hp Hx Hr.
    destruct (A1 p r Hp) as [Hp2 Hag]; [tauto|naive_solver|].
    destruct (A2 p r Hp2) as [Hp3 Hag']; [tauto|naive_solver|].
    split; [done|]. by eapply agree_trans.
Qed.

Lemma evolves_mono (R R' : Z → Z → Prop) (X X' : Z → Prop) s o s' o' :
  (∀ d n, R d n → R' d n) →
  (∀ p, X p → X' p ∨ o !! p = Some Free ∨ o !! p = None
     ∨ (∃ d n, o !! p = Some (User d n) ∧ R' d n) ∨ ∃ d i, o !! p = Some (Table d i)) →
  evolves R X s o s' o' → evolves R' X' s o s' o'.
Proof.
  intros HR HX [I D P A]. split.
  - done.
  - intros d Hd Hx. apply D; [done|]. naive_solver.
  - intros d va Hd Hx Hva Hr. apply P; naive_solver.
  - intros p r Hp Hx Hr. apply A; naive_solver.
Qed.

(** ** Allocation and release of a page *)

Definition loose (r : role) : Prop := r = Free ∨ r = Priv.

Lemma insert_loose_inv (own : owners) p r q r' :
  loose r → ¬ loose r' → <[p := r]> own !! q = Some r' → q ≠ p ∧ own !! q = Some r'.
Proof.
  intros Hr Hr' H. apply lookup_insert_Some in H as [[-> ->]|[Hne H]]; [done|].
  split; [congruence|done].
Qed.

Lemma insert_loose_keep (own : owners) p r r0 q r' :
  own !! p = Some r0 → loose r0 → ¬ loose r' →
  own !! q = Some r' → <[p := r]> own !! q = Some r'.
Proof.
  intros Hp Hr0 Hr' Hq. rewrite lookup_insert_ne; [done|]. intros ->.
  rewrite Hp in Hq. by injection Hq as ->.
Qed.

Lemma loose_Dir : ¬ loose Dir. Proof. by intros [?|?]. Qed.
Lemma loose_Table d i : ¬ loose (Table d i). Proof. by intros [?|?]. Qed.
Lemma loose_User d n : ¬ loose (User d n). Proof. by intros [?|?]. Qed.
Hint Resolve loose_Dir loose_Table loose_User : core.

(** A page may change between [Free] and [Priv] when the pool follows. *)
Lemma space_inv_swap s own p r r' s' :
  space_inv s own → own !! p = Some r → loose r → loose r' →
  (∃ fl, kmem_ok kend s' fl ∧ ∀ q, q ∈ fl ↔ <[p := r']> own !! q = Some Free) →
  (∀ q, valid_page kend q → q ≠ p → agree (ram s) (ram s') q) →
  space_inv s' (<[p := r']> own).
Proof.
  intros Hinv Hp Hr Hr' Hpool Hag.
  assert (∀ q r'', <[p := r']> own !! q = Some r'' → ¬ loose r'' →
    own !! q = Some r'' ∧ agree (ram s) (ram s') q) as Hback.
  { intros q r'' Hq Hl. destruct (insert_loose_inv own p r' q r'' Hr' Hl Hq) as [Hne Hq'].
    split; [done|]. apply Hag; [|done]. by apply (si_valid s own Hinv q r''). }
  assert (∀ q r'', own !! q = Some r'' → ¬ loose r'' → <[p := r']> own !! q = Some r'')
    as Hfwd by (intros; by eapply insert_loose_keep).
  split.
  - done.
  - intros q r'' [[-> _]|[_ Hq]]%lookup_insert_Some; by eapply (si_valid s own Hinv).
  - intros d i Hd Hi. destruct (Hback d Dir Hd) as [Hd' Had]; [auto|].
    rewrite (agree_load (ram s)) by done.
    destruct (si_dir s own Hinv d i Hd' Hi) as [?|[t Ht]]; [by left|right]. eauto.
  - intros t d i Ht. destruct (Hback t _ Ht) as [Ht' _]; [auto|].
    destruct (si_table s own Hinv t d i Ht') as (Hi & Hd & He).
    assert (<[p := r']> own !! d = Some Dir) as Hd' by auto.
    split; [done|split; [done|]].
    rewrite (agree_load (ram s)); [done|by apply (Hback d Dir)|done].
  - intros t d i j Ht Hi Hj. destruct (Hback t _ Ht) as [Ht' Hat]; [auto|].
    rewrite (agree_load (ram s)) by done.
    destruct (si_pte s own Hinv t d i j Ht' Hi Hj) as [?|[Hm Hu]]; [by left|right].
    split; [done|]. auto.
  - intros q d n Hq. destruct (Hback q _ Hq) as [Hq' _]; [auto|].
    destruct (si_user s own Hinv q d n Hq') as (Hn & t & Ht & He).
    split; [done|]. exists t. split; [auto|].
    rewrite (agree_load (ram s)); [done| |apply Z.mod_pos_bound; lia].
    apply (Hback t (Table d (n / 1024))); auto.
Qed.

Lemma kalloc_inv s own :
  space_inv s own →
  ∃ p s', kalloc s = Ok (p, s') ∧ ram s' = ram s
    ∧ ((p = 0 ∧ s' = s) ∨ (own !! p = Some Free ∧ p ≠ 0 ∧ space_inv s' (<[p := Priv]> own))).
Proof.
  intros Hinv. destruct (si_pool s own Hinv) as (fl & Hok & Hfl).
  pose proof (kalloc_spec kend Hkend s fl Hok) as Hk.
  destruct fl as [|p fl]; [exists 0, s; by auto|].
  destruct Hk as (s' & Hk & Hram & Hok' & _).
  assert (own !! p = Some Free) as Hp by (apply Hfl; set_solver).
  pose proof (si_valid s own Hinv p _ Hp) as Hv.
  exists p, s'. split_and!; [done|done|right]. split_and!; [done| |].
  - pose proof (valid_nonzero p 0 Hv). lia.
  - apply (space_inv_swap s own p Free Priv); [done|done|by left|by right| |].
    + exists fl. split; [done|]. intros q. rewrite lookup_insert_Some.
      pose proof (ok_nodup kend s _ Hok) as Hnd. apply NoDup_cons in Hnd as [Hnp _].
      split.
      * intros Hq. right. split; [by intros ->|]. apply Hfl. set_solver.
      * intros [[_ ?]|[Hne Hq]]; [done|]. apply Hfl in Hq. set_solver.
    + intros q _ _. rewrite Hram. apply agree_refl.
Qed.

Lemma kfree_inv s own p :
  space_inv s own → own !! p = Some Priv →
  ∃ s', kfree kend s p = Ok s' ∧ space_inv s' (<[p := Free]> own)
    ∧ ∀ q, valid_page kend q → q ≠ p → agree (ram s) (ram s') q.
Proof.
  intros Hinv Hp. destruct (si_pool s own Hinv) as (fl & Hok & Hfl).
  pose proof (si_valid s own Hinv p _ Hp) as Hv.
  assert (p ∉ fl) as Hnp by (rewrite Hfl; congruence).
  destruct (kfree_spec kend Hkend s fl p Hok Hv Hnp) as (s' & Hk & Hok' & _ & Hfr).
  assert (∀ q, valid_page kend q → q ≠ p → agree (ram s) (ram s') q) as Hag.
  { intros q (Hq & _) Hne b Hb. apply Hfr. intros Hb'.
    destruct Hv as [Hal _]. by apply (pages_disjoint q p b). }
  exists s'. split_and!; [done| |done].
  apply (space_inv_swap s own p Priv Free); [done|done|by right|by left| |done].
  exists (p :: fl). split; [done|]. intros q.
  rewrite elem_of_cons, lookup_insert_Some, Hfl.
  destruct (decide (q = p)) as [->|]; naive_solver.
Qed.

(** [mem = kalloc(); memset(mem, 0, PGSIZE);] *)
Lemma kalloc_zero_inv s own p s' m' :
  space_inv s' (<[p := Priv]> own) → space_inv s own → own !! p = Some Free →
  ram s' = ram s →
  (∀ q, valid_page kend q → q ≠ p → agree (ram s) m' q) →
  evolves (λ _ _, False) (λ _, False) s own (set_ram s' m') (<[p := Priv]> own).
Proof.
  intros Hinv' Hinv Hp Hram Hag. split; simpl.
  - apply space_inv_frame; [done|]. intros q r Hq Hr. rewrite Hram.
    apply Hag; [by eapply (si_valid s' _ Hinv')|].
    intros ->. rewrite lookup_insert_eq in Hq. injection Hq as <-. naive_solver.
  - intros d Hd _. rewrite lookup_insert_ne; [done|congruence].
  - intros d va Hd _ Hva _. apply (pte_at_agree s own); try done.
    + apply Hag; [by eapply (si_valid s own)|congruence].
    + intros t Ht. apply Hag; [by eapply (si_valid s own)|congruence].
  - intros q r Hq _ Hr. assert (q ≠ p) by naive_solver.
    split; [by rewrite lookup_insert_ne|]. apply Hag; [by eapply (si_valid s own)|done].
Qed.

(** ** Accounting

    Which pages an operation on the directory [d] has taken: every page has its old role, or was free and is now a table
    of [d], or a user page of [d] below [hi]. *)
Definition took (d hi : Z) (own own' : owners) (p : Z) : Prop :=
  own' !! p = own !! p
  ∨ own !! p = Some Free
    ∧ ((∃ i, own' !! p = Some (Table d i)) ∨ ∃ n, own' !! p = Some (User d n) ∧ n * 4096 < hi).

(** No page is free. *)
Definition full (own : owners) : Prop := ∀ p, own !! p ≠ Some Free.

(** Memory ran out while pages were taken for [d]: at that point no page was free, and all that were free in [own]
    belonged to [d], except for one page [mm] that was about to be mapped. *)
Definition starved (d hi : Z) (own : owners) : Prop :=
  ∃ s o mm, space_inv s o ∧ full o ∧ ∀ p, p ≠ mm → took d hi own o p.

Lemma took_refl d hi own p : took d hi own own p.
Proof. by left. Qed.

Lemma took_trans d hi o1 o2 o3 p : took d hi o1 o2 p → took d hi o2 o3 p → took d hi o1 o3 p.
Proof. unfold took. intros [E|(H1 & H2)] [E'|(H3 & H4)]; rewrite ?E, ?E'; auto. rewrite E in H3. auto. Qed.

Lemma took_mono d hi hi' o o' p : hi <= hi' → took d hi o o' p → took d hi' o o' p.
Proof. intros Hle [E|(H1 & [H2|(n & H2 & Hn)])]; [by left|by right; auto|right]. split; [done|]. right. exists n. split; [done|lia]. Qed.

Lemma starved_took d hi own own1 : (∀ p, took d hi own own1 p) → starved d hi own1 → starved d hi own.
Proof. intros Ht (s & o & mm & Hinv & Hf & Ho). exists s, o, mm. split_and!; [done|done|]. intros p Hp. eapply took_trans; [apply Ht|by apply Ho]. Qed.

Lemma starved_mono d hi hi' own : hi <= hi' → starved d hi own → starved d hi' own.
Proof. intros Hle (s & o & mm & Hinv & Hf & Ho). exists s, o, mm. split_and!; [done|done|]. intros p Hp. eapply took_mono; [done|by apply Ho]. Qed.

Lemma full_starved d hi s own : space_inv s own → full own → starved d hi own.
Proof. intros Hinv Hf. exists s, own, 0. split_and!; [done|done|]. intros p _. apply took_refl. Qed.

Lemma kalloc_full s own s' : space_inv s own → kalloc s = Ok (0, s') → full own.
Proof.
  intros Hinv Hk p Hp. destruct (si_pool s own Hinv) as (fl & Hok & Hfl). apply Hfl in Hp.
  pose proof (kalloc_spec kend Hkend s fl Hok) as Hs. destruct fl as [|q fl]; [by apply not_elem_of_nil in Hp|].
  destruct Hs as (s1 & Hk1 & _). rewrite Hk in Hk1. injection Hk1 as <- _.
  assert (own !! 0 = Some Free) as H0 by (apply Hfl; left). by apply (valid_nonzero 0 0 (si_valid s own Hinv 0 _ H0)).
Qed.

(** ** Installing a page table *)

(** The memory after [walkpgdir] has cleared the table [t] and entered it. *)
Definition install_mem (m : mem) (d t i : Z) : mem :=
  store32 (memset m t 0 PGSIZE) (d + 4 * i) (pde_for t).

Section Install.
Context (s : kst) (own : owners) (d t i : Z).
Hypothesis Hinv : space_inv s own.
Hypothesis Hd : own !! d = Some Dir.
Hypothesis Ht : own !! t = Some Priv.
Hypothesis Hi : 0 <= i < 1024.
Hypothesis Hno : ∀ t', own !! t' ≠ Some (Table d i).

#[local] Abbreviation m3 := (install_mem (ram s) d t i).

Lemma install_valid_t : valid_page kend t.
Proof using Hinv Ht. by eapply si_valid. Qed.
Lemma install_valid_d : valid_page kend d.
Proof using Hinv Hd. by eapply si_valid. Qed.
Lemma install_ne : d ≠ t.
Proof using Hd Ht. congruence. Qed.

Lemma install_agree q : valid_page kend q → q ≠ t → q ≠ d → agree (ram s) m3 q.
Proof using Hinv Hd Ht Hi.
  intros Hq Hqt Hqd. pose proof install_valid_t. pose proof install_valid_d.
  eapply agree_trans; [by apply (agree_memset _ t)|by apply agree_store].
Qed.

Lemma install_dir j : 0 <= j < 1024 → j ≠ i → load32 m3 (d + 4 * j) = load32 (ram s) (d + 4 * j).
Proof using Hinv Hd Ht Hi.
  intros Hj Hne. pose proof install_valid_t. pose proof install_valid_d. pose proof install_ne.
  unfold install_mem. rewrite load_store_ne by lia. apply agree_load; [|done].
  by apply agree_memset.
Qed.

Lemma install_entry : load32 m3 (d + 4 * i) = pde_for t.
Proof using Hinv Ht Hkend. apply load32_store32. apply pde_for_spec, install_valid_t. Qed.

Lemma install_zero j : 0 <= j < 1024 → load32 m3 (t + 4 * j) = 0.
Proof using Hinv Hd Ht Hi.
  intros Hj. pose proof install_valid_t. pose proof install_valid_d. pose proof install_ne.
  rewrite (agree_load (memset (ram s) t 0 PGSIZE) m3 t);
    [|by apply agree_store|done].
  rewrite (load32_fill _ _ 0); [done|]. intros b Hb. unfold PGSIZE.
  rewrite getb_memset by lia. case_decide; [done|lia].
Qed.

Lemma install_inv : space_inv (set_ram s m3) (<[t := Table d i]> own).
Proof using Hinv Hd Ht Hi Hno Hkend.
  pose proof install_valid_t as Hvt. pose proof install_ne as Hne.
  assert (∀ q r, own !! q = Some r → r ≠ Priv → r ≠ Dir → agree (ram s) m3 q) as Hag.
  { intros q r Hq H1 H2. apply install_agree; [by eapply si_valid|congruence|congruence]. }
  assert (∀ q r, own !! q = Some r → r ≠ Priv → <[t := Table d i]> own !! q = Some r) as Hfwd.
  { intros q r Hq Hr. rewrite lookup_insert_ne; [done|congruence]. }
  assert (∀ d' j, own !! d' = Some Dir → 0 <= j < 1024 → (d', j) ≠ (d, i) →
    load32 m3 (d' + 4 * j) = load32 (ram s) (d' + 4 * j)) as Hdirs.
  { intros d' j Hd' Hj Hneq. destruct (decide (d' = d)) as [->|Hdd].
    - apply install_dir; [done|congruence].
    - apply agree_load; [|done]. apply install_agree; [by eapply si_valid|congruence|done]. }
  split; cbn [ram set_ram].
  - destruct (si_pool s own Hinv) as (fl & Hok & Hfl). exists fl. split.
    + apply kmem_ok_frame; [done|done|]. intros x b Hx. apply (Hag x Free); [by apply Hfl|done|done].
    + intros q. rewrite Hfl, lookup_insert_Some. split.
      * intros Hq. right. split; [congruence|done].
      * by intros [[_ ?]|[_ ?]].
  - intros q r [[-> _]|[_ Hq]]%lookup_insert_Some; [done|by eapply si_valid].
  - intros d' j [[_ ?]|[_ Hd']]%lookup_insert_Some Hj; [done|].
    destruct (decide ((d', j) = (d, i))) as [E|E].
    + injection E as -> ->. right. exists t. apply lookup_insert_eq.
    + rewrite (Hdirs d' j) by done.
      destruct (si_dir s own Hinv d' j Hd' Hj) as [?|[t' Ht']]; [by left|right].
      exists t'. by apply Hfwd.
  - intros t' d' i' [[<- E]|[_ Ht']]%lookup_insert_Some.
    + injection E as <- <-. split; [done|split; [by apply Hfwd|apply install_entry]].
    + destruct (si_table s own Hinv t' d' i' Ht') as (Hi' & Hd' & He).
      split; [done|split; [by apply Hfwd|]]. rewrite Hdirs; [done|done|done|].
      intros [= -> ->]. by apply (Hno t').
  - intros t' d' i' j [[<- E]|[_ Ht']]%lookup_insert_Some Hi' Hj.
    + left. by apply install_zero.
    + rewrite (agree_load (ram s)) by (by eauto).
      destruct (si_pte s own Hinv t' d' i' j Ht' Hi' Hj) as [?|[Hm Hu]]; [by left|right].
      split; [done|]. by apply Hfwd.
  - intros p d' n [[_ ?]|[_ Hp]]%lookup_insert_Some; [done|].
    destruct (si_user s own Hinv p d' n Hp) as (Hn & t' & Ht' & He).
    split; [done|]. exists t'. split; [by apply Hfwd|].
    rewrite (agree_load (ram s)); [done|by eauto|apply Z.mod_pos_bound; lia].
Qed.

Lemma install_pte d' va :
  own !! d' = Some Dir → is_u32 va → pte_at m3 d' va = pte_at (ram s) d' va.
Proof using Hinv Hd Ht Hi Hno Hkend.
  intros Hd' Hva. pose proof (PDX_range va Hva) as HP. pose proof (PTX_range va).
  assert (∀ t', own !! t' = Some (Table d' (PDX va)) → agree (ram s) m3 t') as Hag.
  { intros t' Ht'. apply install_agree; [by eapply si_valid|congruence|congruence]. }
  destruct (decide (d' = d)) as [->|Hne].
  2:{ apply (pte_at_agree s own); try done.
      apply install_agree; [by eapply si_valid|congruence|done]. }
  destruct (pte_cases s own d va Hinv Hd Hva)
    as [(Hf & H0 & _)|(t' & Ht' & Hv & Hf & He & _ & HPT)].
  - rewrite H0. unfold pte_at. destruct (decide (PDX va = i)) as [Hii|Hii].
    + rewrite Hii, install_entry. destruct (pde_for_spec t install_valid_t) as (_ & -> & -> & _).
      by apply install_zero.
    + by rewrite install_dir, Hf.
  - rewrite He. unfold pte_at.
    rewrite install_dir by (done || (intros E; rewrite E in Ht'; by apply (Hno t'))).
    rewrite Hf, HPT. apply agree_load; [by apply Hag|done].
Qed.
End Install.

(** [walkpgdir] with [alloc] set: it returns, it fails only when memory is
    exhausted, and no mapping changes. *)
Lemma walk_alloc s own d va :
  space_inv s own → own !! d = Some Dir → is_u32 va →
  ∃ a s' own', walkpgdir s d va true = Ok (a, s')
    ∧ evolves (λ _ _, False) (λ _, False) s own s' own'
    ∧ (∀ hi p, took d hi own own' p)
    ∧ ((a = 0 ∧ s' = s ∧ own' = own ∧ full own)
       ∨ ∃ t, own' !! t = Some (Table d (PDX va)) ∧ a = t + 4 * PTX va ∧ a ≠ 0).
Proof.
  intros Hinv Hd Hva. pose proof (PDX_range va Hva) as HP. pose proof (PTX_range va).
  unfold walkpgdir.
  destruct (pte_cases s own d va Hinv Hd Hva)
    as [(Hf & _ & _ & Hno)|(t & Ht & Hv & Hf & _ & _ & HPT)]; rewrite Hf.
  - cbn [negb]. destruct (kalloc_inv s own Hinv) as (p & s1 & Ek & Hram & Hcase).
    rewrite Ek, bind_Ok. destruct Hcase as [[-> ->]|(Hp & Hp0 & Hinv1)].
    + exists 0, s, own. split_and!; [done|by apply evolves_refl|intros; apply took_refl|left].
      split_and!; [done..|by eapply kalloc_full].
    + destruct (Z.eqb_spec p 0); [done|].
      assert (<[p := Priv]> own !! d = Some Dir) as Hd1
        by (rewrite lookup_insert_ne; [done|congruence]).
      assert (∀ t, <[p := Priv]> own !! t ≠ Some (Table d (PDX va))) as Hno1.
      { intros t [[_ ?]|[_ Ht]]%lookup_insert_Some; [done|by apply (Hno t)]. }
      pose proof (lookup_insert_eq own p Priv) as Hp1.
      pose proof (install_inv s1 _ d p (PDX va) Hinv1 Hd1 Hp1 HP Hno1) as Hinv2.
      rewrite insert_insert_eq in Hinv2.
      exists (p + 4 * PTX va), (set_ram s1 (install_mem (ram s1) d p (PDX va))),
        (<[p := Table d (PDX va)]> own).
      split_and!; [done| | |right].
      * split; cbn [ram set_ram].
        -- done.
        -- intros d' Hd' _. rewrite lookup_insert_ne; [done|congruence].
        -- intros d' va' Hd' _ Hva' _.
           rewrite (install_pte s1 (<[p := Priv]> own) d p (PDX va)); try done.
           ++ by rewrite Hram.
           ++ rewrite lookup_insert_ne; [done|congruence].
        -- intros q r Hq _ Hr. assert (q ≠ p) by naive_solver.
           split; [by rewrite lookup_insert_ne|]. rewrite <- Hram.
           apply (install_agree s1 (<[p := Priv]> own)); try done;
             [by eapply (si_valid s own)|naive_solver].
      * intros hi q. destruct (decide (q = p)) as [->|Hq]; [right|left; by rewrite lookup_insert_ne].
        split; [done|]. left. exists (PDX va). apply lookup_insert_eq.
      * exists p. split_and!; [apply lookup_insert_eq|done|].
        apply valid_nonzero; [by eapply (si_valid s own)|lia].
  - exists (t + 4 * PTX va), s, own.
    split_and!; [by rewrite HPT|by apply evolves_refl|intros; apply took_refl|right].
    exists t. split_and!; [done|done|]. by apply valid_nonzero; [|lia].
Qed.

(** ** Writing a user entry *)

(** The entry of a virtual page number in a table. *)
Lemma vpn_split va :
  is_u32 va → va / 4096 = PDX va * 1024 + PTX va ∧ (va / 4096) / 1024 = PDX va
    ∧ (va / 4096) mod 1024 = PTX va.
Proof.
  intros Hva. rewrite PDX_div, PTX_div by done.
  replace (va / 4194304) with (va / 4096 / 1024) by (rewrite Z.div_div by lia; done).
  split_and!; [|done|done]. pose proof (Z.div_mod (va / 4096) 1024). lia.
Qed.

Lemma vpn_inj va va' :
  is_u32 va → is_u32 va' → PDX va = PDX va' → PTX va = PTX va' → va / 4096 = va' / 4096.
Proof.
  intros H H'. destruct (vpn_split va H) as [-> _]. destruct (vpn_split va' H') as [-> _]. lia.
Qed.

Lemma vpn_eq va va' :
  is_u32 va → is_u32 va' → va / 4096 = va' / 4096 → PDX va = PDX va' ∧ PTX va = PTX va'.
Proof.
  intros H H' E. destruct (vpn_split va H) as (_ & <- & <-).
  destruct (vpn_split va' H') as (_ & <- & <-). by rewrite E.
Qed.

Section WritePte.
Context (s : kst) (own : owners) (d t va v : Z).
Hypothesis Hinv : space_inv s own.
Hypothesis Ht : own !! t = Some (Table d (PDX va)).
Hypothesis Hva : is_u32 va.
Hypothesis Hv : is_u32 v.

#[local] Abbreviation m' := (store32 (ram s) (t + 4 * PTX va) v).

Lemma write_dir : own !! d = Some Dir.
Proof using Hinv Ht. by eapply si_table. Qed.

Lemma write_agree q r : own !! q = Some r → q ≠ t → agree (ram s) m' q.
Proof using Hinv Ht.
  intros Hq Hne. pose proof (PTX_range va).
  apply agree_store; [by eapply si_valid|by eapply si_valid|done|done].
Qed.

(** The write is visible exactly at the virtual page of [va]. *)
Lemma write_pte_at d' va' :
  own !! d' = Some Dir → is_u32 va' →
  pte_at m' d' va' =
  if decide (d' = d ∧ va' / 4096 = va / 4096) then v else pte_at (ram s) d' va'.
Proof using Hinv Ht Hva Hv Hkend.
  intros Hd' Hva'. pose proof (PTX_range va) as Hx. pose proof (PTX_range va') as Hx'.
  pose proof (PDX_range va' Hva') as Hdx'.
  assert (d' ≠ t) as Hdt by (intros ->; congruence).
  unfold pte_at. rewrite (agree_load (ram s) m' d') by (by eauto using write_agree).
  destruct (pte_cases s own d' va' Hinv Hd' Hva')
    as [(Hf & _ & _ & Hno)|(t' & Ht' & Hv' & Hf & _ & _ & HPT)]; rewrite Hf.
  - case_decide as E; [|done]. destruct E as [-> E]. exfalso. apply (Hno t).
    by destruct (vpn_eq va' va Hva' Hva E) as [-> _].
  - rewrite HPT. destruct (decide (t' = t)) as [->|Hne].
    + rewrite Ht in Ht'. injection Ht' as <- HPD.
      destruct (decide (PTX va' = PTX va)) as [HE|HE].
      * rewrite HE, load32_store32 by done. rewrite decide_True; [done|].
        split; [done|]. by apply vpn_inj.
      * rewrite load_store_ne by (done || lia). rewrite decide_False; [done|].
        intros [_ E]. apply HE. by apply vpn_eq.
    + rewrite (agree_load (ram s) m' t') by (by eauto using write_agree).
      rewrite decide_False; [done|]. intros [-> E]. apply Hne.
      destruct (vpn_eq va' va Hva' Hva E) as [EP _]. rewrite EP in HPT.
      destruct (si_table s own Hinv t d _ Ht) as (_ & _ & He).
      rewrite He in HPT. rewrite <- HPT.
      by destruct (pde_for_spec t (si_valid s own Hinv t _ Ht)) as (_ & _ & -> & _).
Qed.

(** Roles that the write of an entry does not touch. *)
Definition structural (r : role) : Prop := r = Free ∨ r = Dir ∨ ∃ d i, r = Table d i.

(** The invariant after the write, for any ownership map [own'] that agrees
    with the new entry. *)
Lemma write_inv own' :
  (∀ q r, structural r → own' !! q = Some r ↔ own !! q = Some r) →
  (∀ q r, own' !! q = Some r → valid_page kend q) →
  (PDX va < 512 → v = 0 ∨ mapped v = true ∧
     own' !! P2V (PTE_ADDR v) = Some (User d (va / 4096))) →
  (∀ q d' n, (d', n) ≠ (d, va / 4096) →
     own' !! q = Some (User d' n) ↔ own !! q = Some (User d' n)) →
  (∀ q, own' !! q = Some (User d (va / 4096)) →
     PDX va < 512 ∧ mapped v = true ∧ P2V (PTE_ADDR v) = q) →
  space_inv (set_ram s m') own'.
Proof using Hinv Ht Hva Hv Hkend.
  intros Hst Hval Hnew Hoth Hback. pose proof (PTX_range va) as Hx.
  pose proof (PDX_range va Hva) as HP.
  destruct (vpn_split va Hva) as (Evpn & Ediv & Emod).
  assert (∀ i, structural (Table d i)) as HsT by (unfold structural; eauto).
  assert (∀ d' i, structural (Table d' i)) as HsT' by (unfold structural; eauto).
  assert (structural Dir) as HsD by (unfold structural; eauto).
  assert (structural Free) as HsF by (unfold structural; eauto).
  assert (∀ t' d' i j, own !! t' = Some (Table d' i) → 0 <= j < 1024 → 0 <= i < 1024 →
    (d' = d ∧ i * 1024 + j = va / 4096 ∧ load32 m' (t' + 4 * j) = v)
    ∨ ((d', i * 1024 + j) ≠ (d, va / 4096)
       ∧ load32 m' (t' + 4 * j) = load32 (ram s) (t' + 4 * j))) as Hload.
  { intros t' d' i j Ht' Hj Hi. destruct (decide (t' = t)) as [->|Hne].
    - rewrite Ht in Ht'. injection Ht' as <- <-.
      destruct (decide (j = PTX va)) as [->|Hjx].
      + left. split_and!; [done|lia|by apply load32_store32].
      + right. split; [intros [=]; lia|]. by apply load_store_ne.
    - right. split.
      + intros [= -> E]. apply Hne.
        assert (i = PDX va) as -> by lia.
        destruct (si_table s own Hinv t' d _ Ht') as (_ & _ & He').
        destruct (si_table s own Hinv t d _ Ht) as (_ & _ & He). rewrite He in He'.
        destruct (pde_for_spec t (si_valid s own Hinv t _ Ht)) as (_ & _ & E1 & _).
        destruct (pde_for_spec t' (si_valid s own Hinv t' _ Ht')) as (_ & _ & E2 & _).
        congruence.
      + apply agree_load; [|done]. by eapply write_agree. }
  split; cbn [ram set_ram].
  - destruct (si_pool s own Hinv) as (fl & Hok & Hfl). exists fl. split.
    + apply kmem_ok_frame; [done|done|]. intros x b Hxf.
      apply Hfl in Hxf. apply (write_agree x Free Hxf). congruence.
    + intros q. rewrite Hfl. by rewrite Hst.
  - done.
  - intros d' i Hd' Hi. rewrite Hst in Hd' by done.
    rewrite (agree_load (ram s)); [|apply (write_agree d' Dir Hd'); congruence|done].
    destruct (si_dir s own Hinv d' i Hd' Hi) as [?|[t' Ht']]; [by left|right].
    exists t'. by apply Hst.
  - intros t' d' i Ht'. rewrite Hst in Ht' by done.
    destruct (si_table s own Hinv t' d' i Ht') as (Hi & Hd' & He).
    split; [done|split; [by apply Hst|]].
    rewrite (agree_load (ram s)); [done|apply (write_agree d' Dir Hd'); congruence|done].
  - intros t' d' i j Ht' Hi Hj. rewrite Hst in Ht' by done.
    destruct (si_table s own Hinv t' d' i Ht') as (Hi0 & _).
    destruct (Hload t' d' i j Ht' Hj Hi0) as [(-> & E & ->)|[Hne ->]].
    + rewrite E. apply Hnew. lia.
    + destruct (si_pte s own Hinv t' d' i j Ht' Hi Hj) as [?|[Hm Hu]]; [by left|right].
      split; [done|]. by apply Hoth.
  - intros p d' n Hp. destruct (decide ((d', n) = (d, va / 4096))) as [E|E].
    + injection E as -> ->. destruct (Hback p Hp) as (HP512 & Hm & HPp).
      split; [lia|]. exists t. rewrite Ediv, Emod, load32_store32 by done.
      split; [by apply Hst|done].
    + rewrite Hoth in Hp by done.
      destruct (si_user s own Hinv p d' n Hp) as (Hn & t' & Ht' & He).
      split; [done|]. exists t'. split; [by apply Hst|].
      pose proof (Z.mod_pos_bound n 1024 ltac:(lia)) as Hb.
      pose proof (Z.div_mod n 1024 ltac:(lia)) as Hdm.
      destruct (si_table s own Hinv t' d' _ Ht') as (Hi0 & _).
      destruct (Hload t' d' _ _ Ht' Hb Hi0) as [(-> & E' & _)|[_ ->]]; [|done].
      exfalso. apply E. f_equal. lia.
Qed.
End WritePte.

(** The page (directory and virtual page number) an entry write concerns. *)
Definition at_page (d va : Z) : Z → Z → Prop := λ d' n, d' = d ∧ n = va / 4096.

Lemma mapped_0 : mapped 0 = false.
Proof. done. Qed.

(** A directory has one table per index. *)
Lemma table_unique s own t t' d i :
  space_inv s own → own !! t = Some (Table d i) → own !! t' = Some (Table d i) → t = t'.
Proof.
  intros Hinv Ht Ht'.
  destruct (si_table s own Hinv t d i Ht) as (_ & _ & He).
  destruct (si_table s own Hinv t' d i Ht') as (_ & _ & He').
  destruct (pde_for_spec t (si_valid s own Hinv t _ Ht)) as (_ & _ & <- & _).
  destruct (pde_for_spec t' (si_valid s own Hinv t' _ Ht')) as (_ & _ & <- & _).
  congruence.
Qed.

(** A frame is the user page of an entry exactly when the entry says so. *)
Lemma user_entry s own t d va p :
  space_inv s own → own !! t = Some (Table d (PDX va)) → is_u32 va →
  own !! p = Some (User d (va / 4096)) →
  mapped (load32 (ram s) (t + 4 * PTX va)) = true
  ∧ P2V (PTE_ADDR (load32 (ram s) (t + 4 * PTX va))) = p ∧ PDX va < 512.
Proof.
  intros Hinv Ht Hva Hp. destruct (vpn_split va Hva) as (E & E1 & E2).
  destruct (si_user s own Hinv p d _ Hp) as (Hn & t' & Ht' & He).
  rewrite E1 in Ht'. rewrite (table_unique s own t t' d _ Hinv Ht Ht').
  rewrite E2 in He. pose proof (PTX_range va). split_and!; [apply He|apply He|lia].
Qed.

Lemma write_evolves s own t d va v own' (X : Z → Prop) :
  space_inv s own → own !! t = Some (Table d (PDX va)) → is_u32 va → is_u32 v →
  space_inv (set_ram s (store32 (ram s) (t + 4 * PTX va) v)) own' →
  (∀ q r, own !! q = Some r → ¬ X q → own' !! q = Some r) →
  evolves (at_page d va) X s own (set_ram s (store32 (ram s) (t + 4 * PTX va) v)) own'.
Proof.
  intros Hinv Ht Hva Hv Hinv' Hkeep. split; cbn [ram set_ram].
  - done.
  - intros d' Hd' HX. eauto.
  - intros d' va' Hd' _ Hva' HR. rewrite (write_pte_at s own d t va) by done.
    apply decide_False. intros [? ?]. by apply HR.
  - intros q r Hq HX Hr. split; [by eauto|]. apply (write_agree s own d t va v Hinv Ht q r Hq).
    naive_solver congruence.
Qed.

Lemma map_user_page s own t d va p v :
  space_inv s own → own !! t = Some (Table d (PDX va)) → is_u32 va → PDX va < 512 →
  is_u32 v → load32 (ram s) (t + 4 * PTX va) = 0 →
  own !! p = Some Priv → mapped v = true → P2V (PTE_ADDR v) = p →
  evolves (at_page d va) (λ q, q = p) s own
    (set_ram s (store32 (ram s) (t + 4 * PTX va) v)) (<[p := User d (va / 4096)]> own).
Proof.
  intros Hinv Ht Hva HP Hv H0 Hp Hm HPp.
  assert (∀ q, own !! q ≠ Some (User d (va / 4096))) as Hnone.
  { intros q Hq. destruct (user_entry s own t d va q Hinv Ht Hva Hq) as [Hm' _].
    by rewrite H0 in Hm'. }
  apply write_evolves; try done.
  2:{ intros q r Hq Hne. by rewrite lookup_insert_ne. }
  apply (write_inv s own d t va v); try done.
  - intros q r Hr. rewrite lookup_insert_Some. unfold structural in Hr. split.
    + intros [[_ <-]|[_ ?]]; naive_solver.
    + intros Hq. right. split; [|done]. naive_solver congruence.
  - intros q r [[<- _]|[_ Hq]]%lookup_insert_Some; by eapply si_valid.
  - intros _. right. split; [done|]. rewrite HPp. apply lookup_insert_eq.
  - intros q d' n Hne. rewrite lookup_insert_Some. split.
    + intros [[_ E]|[_ ?]]; [congruence|done].
    + intros Hq. right. split; [congruence|done].
  - intros q [[-> _]|[_ Hq]]%lookup_insert_Some; [done|by destruct (Hnone q)].
Qed.

Lemma clear_user_page s own t d va p :
  space_inv s own → own !! t = Some (Table d (PDX va)) → is_u32 va →
  own !! p = Some (User d (va / 4096)) →
  evolves (at_page d va) (λ q, q = p) s own
    (set_ram s (store32 (ram s) (t + 4 * PTX va) 0)) (<[p := Priv]> own).
Proof.
  intros Hinv Ht Hva Hp.
  destruct (user_entry s own t d va p Hinv Ht Hva Hp) as (Hm & HPp & HP).
  apply write_evolves; try done.
  2:{ intros q r Hq Hne. by rewrite lookup_insert_ne. }
  apply (write_inv s own d t va 0); try done.
  - intros q r Hr. rewrite lookup_insert_Some. unfold structural in Hr. split.
    + intros [[_ <-]|[_ ?]]; naive_solver.
    + intros Hq. right. split; [|done]. naive_solver congruence.
  - intros q r [[<- _]|[_ Hq]]%lookup_insert_Some; by eapply si_valid.
  - intros _. by left.
  - intros q d' n Hne. rewrite lookup_insert_Some. split.
    + intros [[_ E]|[_ ?]]; [congruence|done].
    + intros Hq. right. split; [congruence|done].
  - intros q [[_ E]|[Hne Hq]]%lookup_insert_Some; [done|].
    destruct (user_entry s own t d va q Hinv Ht Hva Hq) as (_ & E & _). congruence.
Qed.

(** Changing flags of a mapped user entry, or any entry of the kernel half. *)
Lemma reflag_inv s own t d va v :
  space_inv s own → own !! t = Some (Table d (PDX va)) → is_u32 va → is_u32 v →
  (PDX va < 512 → mapped v = true ∧ mapped (load32 (ram s) (t + 4 * PTX va)) = true
     ∧ PTE_ADDR v = PTE_ADDR (load32 (ram s) (t + 4 * PTX va))) →
  evolves (at_page d va) (λ _, False) s own
    (set_ram s (store32 (ram s) (t + 4 * PTX va) v)) own.
Proof.
  intros Hinv Ht Hva Hv Hsame. pose proof (PTX_range va) as Hx.
  apply write_evolves; try done.
  apply (write_inv s own d t va v); try done.
  - by eapply si_valid.
  - intros HP. destruct (Hsame HP) as (Hm & Hm0 & HA). right. split; [done|].
    destruct (si_pte s own Hinv t d _ _ Ht HP Hx) as [E|[_ Hu]].
    + by rewrite E in Hm0.
    + rewrite HA, Hu. by destruct (vpn_split va Hva) as [-> _].
  - intros q Hq. destruct (user_entry s own t d va q Hinv Ht Hva Hq) as (_ & E & HP).
    destruct (Hsame HP) as (? & _ & ->). done.
Qed.

(** ** Mapping one page *)

(** The entry [mappages] writes. *)
Definition map_entry (pa perm : Z) : Z :=
  if flag perm PTE_E then Z.lor (Z.lor pa perm) PTE_E else Z.lor (Z.lor pa perm) PTE_P.

Lemma lor_flags_range a b : 0 <= a < 4096 → 0 <= b < 4096 → 0 <= Z.lor a b < 4096.
Proof.
  intros Ha Hb. change 4096 with (2 ^ 12) in *.
  assert (Z.lor a b = Z.lor a b mod 2 ^ 12) as ->; [|apply Z.mod_pos_bound; lia].
  apply Z.bits_inj'. intros i Hi. destruct (Z_lt_le_dec i 12).
  - by rewrite Z.mod_pow2_bits_low by lia.
  - rewrite Z.mod_pow2_bits_high, Z.lor_spec by lia.
    by rewrite (testbit_small a 12), (testbit_small b 12) by lia.
Qed.

Lemma valid_V2P p : valid_page kend p → is_u32 (V2P p) ∧ V2P p mod 4096 = 0 ∧ P2V (V2P p) = p.
Proof.
  intros Hv. pose proof (valid_page_bounds kend Hkend p Hv) as (H1 & H2 & H3).
  destruct Hv as (Hal & _ & _). unfold KERNBASE, EXTMEM, PHYSTOP in *.
  split; [apply u32_range|]. rewrite V2P_kern by (unfold KERNBASE, is_u32 in *; lia). split.
  - unfold KERNBASE. by rewrite Zminus_mod, Hal.
  - rewrite <- V2P_kern by (unfold KERNBASE, is_u32 in *; lia).
    apply P2V_V2P. unfold KERNBASE, is_u32 in *; lia.
Qed.

Lemma map_entry_spec p perm :
  valid_page kend p → 0 <= perm < 4096 →
  is_u32 (map_entry (V2P p) perm) ∧ mapped (map_entry (V2P p) perm) = true
  ∧ P2V (PTE_ADDR (map_entry (V2P p) perm)) = p
  ∧ PTE_FLAGS (map_entry (V2P p) perm) = Z.lor perm (if flag perm PTE_E then PTE_E else PTE_P).
Proof.
  intros Hv Hperm. destruct (valid_V2P p Hv) as (Hu & Ha & HP).
  assert (map_entry (V2P p) perm
    = Z.lor (V2P p) (Z.lor perm (if flag perm PTE_E then PTE_E else PTE_P))) as ->.
  { unfold map_entry. by destruct (flag perm PTE_E); rewrite Z.lor_assoc. }
  set (fl := if flag perm PTE_E then PTE_E else PTE_P).
  assert (0 <= Z.lor perm fl < 4096) as Hfl.
  { apply lor_flags_range; [done|]. unfold fl. by destruct (flag perm PTE_E). }
  split; [by apply entry_range|]. split; [|split].
  - unfold mapped. rewrite !flag_of_lor. unfold fl.
    destruct (flag perm PTE_E); rewrite !orb_true_r; done.
  - by rewrite entry_ADDR.
  - by apply entry_FLAGS.
Qed.

(** [a + PGSIZE - 1] rounds down to [a] for a page address [a]. *)
Lemma last_of_page a :
  is_u32 a → a mod 4096 = 0 → PGROUNDDOWN (u32 (a + PGSIZE - 1)) = a.
Proof.
  intros Ha Hal. unfold PGSIZE, is_u32 in *.
  pose proof Hal as Hq. apply Z_div_exact_full_2 in Hq; [|lia].
  assert (a <= 2 ^ 32 - 4096) by lia.
  rewrite u32_small by (unfold is_u32; lia).
  rewrite PGROUNDDOWN_mod by (unfold is_u32; lia).
  replace (a + 4096 - 1) with (4095 + a) by lia.
  rewrite <- Zplus_mod_idemp_r, Hal. change ((4095 + 0) mod 4096) with 4095. lia.
Qed.

Lemma mappages_one s d va pa perm :
  is_u32 va → va mod 4096 = 0 →
  mappages s d va PGSIZE pa perm = mappages_loop s d va va pa perm 1.
Proof.
  intros Hva Hal. unfold mappages. rewrite last_of_page, PGROUNDDOWN_aligned by done.
  rewrite Z.sub_diag. done.
Qed.

Definition user_va (va : Z) : Prop := 0 <= va < KERNBASE.

Lemma user_va_u32 va : user_va va → is_u32 va.
Proof. unfold user_va, is_u32, KERNBASE. lia. Qed.

Lemma user_va_PDX va : is_u32 va → user_va va ↔ PDX va < 512.
Proof.
  intros H. rewrite PDX_div by done. unfold user_va, KERNBASE. unfold is_u32 in H. split.
  - intros. apply Z.div_lt_upper_bound; lia.
  - intros Hd. pose proof (Z.div_mod va 4194304). pose proof (Z.mod_pos_bound va 4194304). lia.
Qed.

(** Mapping a prepared page at an unmapped user address: either there is no
    memory for the page table and nothing changes, or exactly that page is
    mapped. *)
Lemma mappages_user s own d va p perm :
  space_inv s own → own !! d = Some Dir → user_va va → va mod 4096 = 0 →
  pte_at (ram s) d va = 0 → own !! p = Some Priv → 0 <= perm < 4096 →
  (∃ s' own', mappages s d va PGSIZE (V2P p) perm = Ok (-1, s')
     ∧ evolves (λ _ _, False) (λ _, False) s own s' own' ∧ own' = own ∧ full own)
  ∨ (∃ s' own', mappages s d va PGSIZE (V2P p) perm = Ok (0, s')
     ∧ evolves (at_page d va) (λ q, q = p) s own s' own'
     ∧ own' !! p = Some (User d (va / 4096))
     ∧ agree (ram s) (ram s') p
     ∧ pte_at (ram s') d va = map_entry (V2P p) perm
     ∧ ∀ hi q, q ≠ p → took d hi own own' q).
Proof.
  intros Hinv Hd Huva Hal H0 Hp Hperm. pose proof (user_va_u32 va Huva) as Hva.
  rewrite mappages_one by done. cbn [mappages_loop].
  destruct (walk_alloc s own d va Hinv Hd Hva) as (a & s1 & own1 & -> & Hev & Htk & Hcase).
  rewrite bind_Ok. destruct Hcase as [(-> & -> & -> & Hfull)|(t & Ht & -> & Hne)].
  { left. exists s, own. done. }
  right. destruct (Z.eqb_spec (t + 4 * PTX va) 0); [done|].
  pose proof (ev_inv _ _ _ _ _ _ Hev) as Hinv1.
  pose proof (ev_dir _ _ _ _ _ _ Hev d Hd ltac:(tauto)) as Hd1.
  destruct (ev_data _ _ _ _ _ _ Hev p Priv Hp ltac:(tauto) ltac:(tauto)) as [Hp1 Hag1].
  pose proof (si_valid _ _ Hinv1 _ _ Ht) as Hvt.
  assert (load32 (ram s1) (t + 4 * PTX va) = 0) as Hz.
  { rewrite <- H0, <- (ev_pte _ _ _ _ _ _ Hev d va Hd) by tauto.
    destruct (pte_cases s1 own1 d va Hinv1 Hd1 Hva)
      as [(_ & _ & _ & Hno)|(t' & Ht' & _ & _ & -> & _)]; [by destruct (Hno t)|].
    by rewrite (table_unique s1 own1 t t' d _ Hinv1 Ht Ht'). }
  rewrite Hz, flag_0.
  fold (map_entry (V2P p) perm). rewrite Z.eqb_refl.
  destruct (map_entry_spec p perm (si_valid _ _ Hinv1 _ _ Hp1) Hperm) as (Hu & Hm & HP & _).
  pose proof (map_user_page s1 own1 t d va p _ Hinv1 Ht Hva
    (proj1 (user_va_PDX va Hva) Huva) Hu Hz Hp1 Hm HP) as Hev2.
  eexists _, _. split_and!; [done| |apply lookup_insert_eq| | |]; cbn [ram set_ram].
  - eapply evolves_mono; [| |by eapply evolves_trans]; naive_solver.
  - eapply agree_trans; [done|].
    apply (write_agree s1 own1 d t va _ Hinv1 Ht p Priv Hp1). congruence.
  - rewrite (write_pte_at s1 own1 d t va) by done. by rewrite decide_True.
  - intros hi q Hq. unfold took. rewrite lookup_insert_ne by done. apply Htk.
Qed.

(** ** Unmapping *)

(** Equal bytes are as good as equal memories. *)
Lemma evolves_ext R X s o s' o' m' :
  evolves R X s o s' o' → (∀ b, getb m' b = getb (ram s') b) →
  evolves R X s o (set_ram s' m') o'.
Proof.
  intros [I D P A] Heq. split; cbn [ram set_ram].
  - apply space_inv_frame; [done|]. intros p r _ _ b _. apply Heq.
  - done.
  - intros d va Hd Hx Hva HR. rewrite <- P by done.
    apply (pte_at_agree s' o'); [done|by apply D|done| |]; intros; by intros b _.
  - intros p r Hp Hx Hr. destruct (A p r Hp Hx Hr) as [Hp' Hag].
    split; [done|]. intros b Hb. by rewrite Heq, Hag.
Qed.

Lemma kfree_evolves s own p s' :
  space_inv s own → own !! p = Some Priv → kfree kend s p = Ok s' →
  evolves (λ _ _, False) (λ q, q = p) s own s' (<[p := Free]> own).
Proof.
  intros Hinv Hp Hk. destruct (kfree_inv s own p Hinv Hp) as (s2 & Hk2 & Hinv2 & Hag).
  rewrite Hk in Hk2. injection Hk2 as <-. split.
  - done.
  - intros d Hd Hne. by rewrite lookup_insert_ne.
  - intros d va Hd Hne Hva _. apply (pte_at_agree s own); try done.
    + apply Hag; [by eapply (si_valid s own Hinv)|done].
    + intros t Ht. apply Hag; [by eapply (si_valid s own Hinv)|congruence].
  - intros q r Hq Hne _. split; [by rewrite lookup_insert_ne|].
    apply Hag; [by eapply (si_valid s own Hinv)|done].
Qed.

(** [kfree(v); *pte = 0;] for the page of a mapped user entry. *)
Lemma free_user_page s own t d va p :
  space_inv s own → own !! t = Some (Table d (PDX va)) → is_u32 va →
  own !! p = Some (User d (va / 4096)) →
  ∃ s1, kfree kend s p = Ok s1
    ∧ evolves (at_page d va) (λ _, False) s own
        (set_ram s1 (store32 (ram s1) (t + 4 * PTX va) 0)) (<[p := Free]> own)
    ∧ pte_at (store32 (ram s1) (t + 4 * PTX va) 0) d va = 0.
Proof.
  intros Hinv Ht Hva Hp. pose proof (PTX_range va) as Hx.
  pose proof (si_valid s own Hinv t _ Ht) as Hvt.
  pose proof (si_valid s own Hinv p _ Hp) as Hvp.
  assert (t ≠ p) as Htp by congruence.
  destruct (si_pool s own Hinv) as (fl & [Hlk _ _ _] & _).
  pose proof (clear_user_page s own t d va p Hinv Ht Hva Hp) as Hev1.
  set (sc := set_ram s (store32 (ram s) (t + 4 * PTX va) 0)) in *.
  pose proof (kfree_eq kend sc p Hlk Hvp) as Hk2.
  pose proof (kfree_evolves sc _ p _ (ev_inv _ _ _ _ _ _ Hev1)
    (lookup_insert_eq own p Priv) Hk2) as Hev2.
  rewrite insert_insert_eq in Hev2.
  pose proof (evolves_trans _ _ _ _ _ _ _ _ _ _ Hev1 Hev2) as Hev.
  rewrite (kfree_eq kend s p Hlk Hvp). eexists. split; [done|].
  cbn [ram set_ram use_lock freelist] in *.
  set (m2 := store32 (store32 (memset (ram s) p 1 PGSIZE) p (freelist s)) (t + 4 * PTX va) 0).
  assert (evolves (at_page d va) (λ _, False) s own
    (Kst false (use_lock s) p m2) (<[p := Free]> own)) as Hev'.
  { apply (evolves_ext _ _ _ _ (Kst false (use_lock s) p
      (store32 (memset (store32 (ram s) (t + 4 * PTX va) 0) p 1 PGSIZE) p (freelist s)))).
    - eapply evolves_mono; [| |exact Hev]; [naive_solver|].
      intros q Hq. right; right; right; left. exists d, (va / 4096).
      split; [naive_solver|done].
    - intros b. unfold m2. cbn [ram].
      assert (in_page t b → ¬ in_page p b) as Hdis.
      { apply pages_disjoint; [apply Hvt|apply Hvp|done]. }
      unfold in_page in Hdis.
      destruct (decide (t + 4 * PTX va <= b < t + 4 * PTX va + 4)).
      + rewrite (getb_store32_ne _ p) by lia. unfold PGSIZE. rewrite getb_memset by lia.
        rewrite decide_False by lia. unfold store32. rewrite !getb_setb. repeat case_decide; lia || done.
      + rewrite (getb_store32_ne _ (t + _)) by lia.
        destruct (decide (p <= b < p + 4)).
        * unfold store32 at 1 2. rewrite !getb_setb. repeat case_decide; lia || done.
        * rewrite !(getb_store32_ne _ p) by lia. unfold PGSIZE. rewrite !getb_memset by lia.
          case_decide; [done|]. by rewrite getb_store32_ne by lia. }
  split; [done|].
  pose proof (ev_inv _ _ _ _ _ _ Hev') as Hinv'.
  assert (own !! d = Some Dir) as Hd by (by eapply si_table).
  destruct (pte_cases _ _ d va Hinv' (ev_dir _ _ _ _ _ _ Hev' d Hd ltac:(tauto)) Hva)
    as [(_ & H0 & _)|(t' & Ht' & _ & _ & H0 & _)]; [exact H0|].
  assert (t' = t) as -> by (eapply (table_unique _ _ t' t d _ Hinv' Ht');
    rewrite lookup_insert_ne; [done|congruence]).
  cbn [ram] in H0. rewrite H0. unfold m2. by apply load32_store32.
Qed.

(** The virtual pages of [d] whose address lies in [lo, hi). *)
Definition range (d lo hi : Z) : Z → Z → Prop :=
  λ d' n, d' = d ∧ lo <= n * 4096 < hi.

Lemma next_table a :
  user_va a → u32 (u32 (PGADDR (PDX a + 1) 0 0 - PGSIZE) + PGSIZE) = (PDX a + 1) * 4194304.
Proof.
  intros Ha. pose proof (user_va_u32 a Ha) as Hu.
  pose proof (proj1 (user_va_PDX a Hu) Ha) as HP. pose proof (PDX_range a Hu) as HR.
  unfold PGADDR, PDXSHIFT, PTXSHIFT. rewrite Z.shiftl_0_l, !Z.lor_0_r, Z.shiftl_mul_pow2 by lia.
  change (2 ^ 22) with 4194304. unfold PGSIZE.
  rewrite (u32_small ((PDX a + 1) * 4194304)) by (unfold is_u32; lia).
  rewrite (u32_small (_ - 4096)) by (unfold is_u32; lia).
  rewrite u32_small by (unfold is_u32; lia). lia.
Qed.

(** Pages before the next table boundary share the directory entry. *)
Lemma same_table a va :
  user_va a → is_u32 va → a mod 4096 = 0 → a <= va / 4096 * 4096 < (PDX a + 1) * 4194304 →
  PDX va = PDX a.
Proof.
  intros Ha Hva Hal Hr. pose proof (user_va_u32 a Ha) as Hu.
  rewrite (PDX_div a) in * by done. rewrite (PDX_div va) by done.
  pose proof (Z.div_mod a 4194304). pose proof (Z.mod_pos_bound a 4194304).
  pose proof (Z.div_mod va 4096). pose proof (Z.mod_pos_bound va 4096).
  symmetry. apply (Z.div_unique va 4194304 _ (va - 4194304 * (a / 4194304))); lia.
Qed.

Lemma page_aligned_div a : a mod 4096 = 0 → a / 4096 * 4096 = a.
Proof. intros H. apply Z_div_exact_full_2 in H; lia. Qed.

Lemma aligned_next a : a mod 4096 = 0 → (a + PGSIZE) mod 4096 = 0.
Proof. intros. unfold PGSIZE. by rewrite <- Zplus_mod_idemp_r, Z_mod_same_full, Z.add_0_r. Qed.

(** An unmapped entry of a user address is 0. *)
Lemma user_pte_cases s own d va :
  space_inv s own → own !! d = Some Dir → user_va va →
  pte_at (ram s) d va = 0
  ∨ mapped (pte_at (ram s) d va) = true
    ∧ own !! P2V (PTE_ADDR (pte_at (ram s) d va)) = Some (User d (va / 4096)).
Proof.
  intros Hinv Hd Hu. pose proof (user_va_u32 va Hu) as Hva.
  destruct (pte_cases s own d va Hinv Hd Hva) as [(_ & -> & _)|(t & Ht & _ & _ & -> & _)];
    [by left|].
  destruct (vpn_split va Hva) as [-> _].
  apply (si_pte s own Hinv t d (PDX va) (PTX va) Ht); [|apply PTX_range].
  by apply user_va_PDX.
Qed.

Lemma frame_nonzero s own e r :
  space_inv s own → own !! P2V (PTE_ADDR e) = Some r → PTE_ADDR e ≠ 0.
Proof.
  intros Hinv Hp E. rewrite E in Hp.
  pose proof (valid_page_bounds kend Hkend _ (si_valid s own Hinv _ _ Hp)) as (H & _).
  vm_compute in H. by apply H.
Qed.

Lemma pte_at_page m d va va' :
  is_u32 va → is_u32 va' → va / 4096 = va' / 4096 → pte_at m d va = pte_at m d va'.
Proof. intros H H' E. destruct (vpn_eq va va' H H' E) as [E1 E2]. unfold pte_at. by rewrite E1, E2. Qed.

(** What unmapping the pages of [d] in [lo, hi) does to the role of a page. *)
Definition unmap_role (d lo hi : Z) (r : role) : role :=
  match r with
  | User d' n => if bool_decide (d' = d ∧ lo <= n * 4096 < hi) then Free else r
  | _ => r
  end.

Lemma unmap_role_ne d lo hi r :
  (∀ d' n, r = User d' n → ¬ (d' = d ∧ lo <= n * 4096 < hi)) → unmap_role d lo hi r = r.
Proof. destruct r; simpl; try done. intros H. by rewrite bool_decide_eq_false_2; [|apply H]. Qed.

Lemma unmap_role_split d lo mid hi r :
  lo <= mid <= hi → unmap_role d mid hi (unmap_role d lo mid r) = unmap_role d lo hi r.
Proof.
  intros H. destruct r as [| | | |d' n]; simpl; try done.
  repeat case_bool_decide; simpl; try done; repeat case_bool_decide; try done; lia.
Qed.

(** No page is a user page of [d] between [lo] and [hi]. *)
Definition no_users (own : owners) (d lo hi : Z) : Prop :=
  ∀ q n, own !! q = Some (User d n) → ¬ (lo <= n * 4096 < hi).

Lemma unmap_no_users own d lo hi q :
  no_users own d lo hi → unmap_role d lo hi <$> own !! q = own !! q.
Proof.
  intros H. destruct (own !! q) as [r|] eqn:E; simpl; [|done]. f_equal.
  apply unmap_role_ne. intros d' n -> [-> Hr]. by apply (H q n).
Qed.

(** What the scan from [a] to [hi] achieves. *)
Definition unmapped (s : kst) (own : owners) (d a hi : Z) (s' : kst) (own' : owners) : Prop :=
  evolves (range d a hi) (λ _, False) s own s' own'
  ∧ (∀ va, is_u32 va → a <= va / 4096 * 4096 < hi → pte_at (ram s') d va = 0)
  ∧ ∀ q, own' !! q = unmap_role d a hi <$> own !! q.

Lemma unmapped_nil s own d a hi :
  space_inv s own → hi <= a → unmapped s own d a hi s own.
Proof.
  intros. split_and!; [by apply evolves_refl|lia|].
  intros q. symmetry. apply unmap_no_users. intros ? ? ?. lia.
Qed.

(** Scans compose. *)
Lemma unmapped_app s own d a mid hi s1 own1 s2 own2 :
  own !! d = Some Dir → a <= mid <= hi →
  unmapped s own d a mid s1 own1 → unmapped s1 own1 d mid hi s2 own2 →
  unmapped s own d a hi s2 own2.
Proof.
  intros Hd Hmid (Hev1 & Hz1 & Ho1) (Hev2 & Hz2 & Ho2). split_and!.
  - eapply evolves_mono; [| |exact (evolves_trans _ _ _ _ _ _ _ _ _ _ Hev1 Hev2)];
      unfold range; [|naive_solver]. intros d' n [[-> ?]|[-> ?]]; split; (done || lia).
  - intros va Hva Hr. destruct (Z_lt_le_dec (va / 4096 * 4096) mid).
    + rewrite (ev_pte _ _ _ _ _ _ Hev2); [apply Hz1; (done || lia)| |tauto|done|].
      * apply (ev_dir _ _ _ _ _ _ Hev1 d Hd). tauto.
      * unfold range. lia.
    + apply Hz2; [done|lia].
  - intros q. rewrite Ho2, Ho1, <- option_fmap_compose.
    apply option_fmap_ext. intros r. simpl. by apply unmap_role_split.
Qed.

(** The page of [a] alone, when it is not mapped. *)
Lemma unmapped_here s own d a :
  space_inv s own → own !! d = Some Dir → user_va a → a mod 4096 = 0 →
  pte_at (ram s) d a = 0 → unmapped s own d a (a + PGSIZE) s own.
Proof.
  intros Hinv Hd Hu Hal Hz. pose proof (user_va_u32 a Hu) as Hu32.
  pose proof (page_aligned_div a Hal) as Hdiv. unfold PGSIZE.
  split_and!; [by apply evolves_refl| |].
  - intros va Hva Hr. rewrite (pte_at_page _ d va a); [done|done|done|lia].
  - intros q. symmetry. apply unmap_no_users. intros p n Hp Hr.
    assert (n = a / 4096) as -> by lia.
    destruct (si_user s own Hinv p d _ Hp) as (_ & t & Ht & _).
    destruct (vpn_split a Hu32) as (_ & E1 & _). rewrite E1 in Ht.
    destruct (user_entry s own t d a p Hinv Ht Hu32 Hp) as (Hm & _).
    destruct (pte_cases s own d a Hinv Hd Hu32) as [(_ & _ & _ & Hno)|(t' & Ht' & _ & _ & E & _)];
      [by destruct (Hno t)|].
    rewrite (table_unique s own t t' d _ Hinv Ht Ht'), <- E, Hz in Hm. done.
Qed.

(** The page of [a] alone, when it is mapped and released. *)
Lemma unmapped_freed s own d a p s1 t :
  space_inv s own → own !! t = Some (Table d (PDX a)) → user_va a → a mod 4096 = 0 →
  own !! p = Some (User d (a / 4096)) → kfree kend s p = Ok s1 →
  unmapped s own d a (a + PGSIZE)
    (set_ram s1 (store32 (ram s1) (t + 4 * PTX a) 0)) (<[p := Free]> own).
Proof.
  intros Hinv Ht Hu Hal Hp Hk. pose proof (user_va_u32 a Hu) as Hu32.
  pose proof (page_aligned_div a Hal) as Hdiv. unfold PGSIZE.
  destruct (free_user_page s own t d a p Hinv Ht Hu32 Hp) as (s1' & Hk' & Hev & Hz).
  rewrite Hk in Hk'. injection Hk' as <-. split_and!.
  - eapply evolves_mono; [| |exact Hev]; [|naive_solver].
    unfold at_page, range. intros d' n [-> ->]. split; [done|lia].
  - intros va Hva Hr. cbn [ram set_ram]. rewrite (pte_at_page _ d va a); [done|done|done|lia].
  - intros q. destruct (decide (q = p)) as [->|Hne].
    + rewrite lookup_insert_eq, Hp. simpl. rewrite bool_decide_eq_true_2; [done|]. lia.
    + rewrite lookup_insert_ne by done.
      destruct (own !! q) as [r|] eqn:E; simpl; [|done]. f_equal. symmetry.
      apply unmap_role_ne. intros d' n -> [-> Hr]. apply Hne.
      assert (n = a / 4096) as -> by lia.
      destruct (user_entry s own t d a p Hinv Ht Hu32 Hp) as (_ & <- & _).
      by destruct (user_entry s own t d a q Hinv Ht Hu32 E) as (_ & -> & _).
Qed.

(** A whole missing table. *)
Lemma unmapped_no_table s own d a hi :
  space_inv s own → own !! d = Some Dir → user_va a → a mod 4096 = 0 →
  (∀ t, own !! t ≠ Some (Table d (PDX a))) → hi <= (PDX a + 1) * 4194304 →
  unmapped s own d a hi s own.
Proof.
  intros Hinv Hd Hu Hal Hno Hhi. pose proof (user_va_u32 a Hu) as Hu32.
  split_and!; [by apply evolves_refl| |].
  - intros va Hva Hr. pose proof (same_table a va Hu Hva Hal ltac:(lia)) as EP.
    destruct (pte_cases s own d va Hinv Hd Hva) as [(_ & -> & _)|(t & Ht & _)]; [done|].
    rewrite EP in Ht. by destruct (Hno t).
  - intros q. symmetry. apply unmap_no_users. intros p n Hp Hr.
    destruct (si_user s own Hinv p d n Hp) as (Hn & t & Ht & _).
    assert (is_u32 (n * 4096)) as Hn32 by (unfold is_u32; lia).
    assert (n * 4096 / 4096 = n) as En by (apply Z.div_mul; lia).
    pose proof (same_table a (n * 4096) Hu Hn32 Hal ltac:(rewrite En; lia)) as EP.
    destruct (vpn_split (n * 4096) Hn32) as (_ & E1 & _). rewrite En, EP in E1.
    rewrite E1 in Ht. by destruct (Hno t).
Qed.

Lemma dealloc_loop_spec d oldsz fuel s own a :
  space_inv s own → own !! d = Some Dir → 0 <= a → a mod 4096 = 0 → oldsz <= KERNBASE →
  oldsz - a <= 4096 * Z.of_nat fuel →
  ∃ s' own', deallocuvm_loop s d a oldsz fuel = Ok s' ∧ unmapped s own d a oldsz s' own'.
Proof.
  revert s own a. induction fuel as [|fuel IH]; intros s own a Hinv Hd Ha Hal Hold Hfuel.
  { exists s, own. cbn [Vm.deallocuvm_loop]. destruct (Z.ltb_spec a oldsz); [lia|].
    split; [done|]. by apply unmapped_nil. }
  cbn [Vm.deallocuvm_loop]. destruct (Z.ltb_spec a oldsz) as [Hlt|Hge].
  2:{ exists s, own. split; [done|]. by apply unmapped_nil. }
  assert (user_va a) as Hu by (unfold user_va; lia).
  pose proof (user_va_u32 a Hu) as Hu32. rewrite walk_noalloc, bind_Ok.
  assert (u32 (a + PGSIZE) = a + PGSIZE) as Enext.
  { apply u32_small. unfold is_u32, user_va, KERNBASE, PGSIZE in *. lia. }
  assert (∀ mid s1 own1, a + 4096 <= mid → mid mod 4096 = 0 →
    (∀ hi, mid <= hi ∨ hi = oldsz → hi <= mid → unmapped s own d a hi s1 own1) →
    ∃ s' own', deallocuvm_loop s1 d mid oldsz fuel = Ok s' ∧ unmapped s own d a oldsz s' own')
    as Hrest.
  { intros mid s1 own1 Hmid Hmal Hpre.
    pose proof (Hpre mid ltac:(lia) ltac:(lia)) as (Hev1 & _).
    destruct (IH s1 own1 mid (ev_inv _ _ _ _ _ _ Hev1)
      (ev_dir _ _ _ _ _ _ Hev1 d Hd ltac:(tauto))) as (s' & own' & Heq & Hun);
      [lia|done|done|lia|].
    destruct (Z_le_gt_dec mid oldsz).
    - exists s', own'. split; [done|]. apply (unmapped_app s own d a mid oldsz s1 own1); auto with lia.
    - exists s1, own1. split; [|apply Hpre; lia]. rewrite Heq. f_equal.
      destruct fuel; cbn [Vm.deallocuvm_loop] in Heq;
        (destruct (Z.ltb_spec mid oldsz); [lia|congruence]). }
  destruct (pte_cases s own d a Hinv Hd Hu32)
    as [(_ & H0 & -> & Hno)|(t & Ht & Hvt & _ & Hpte & -> & _)].
  - rewrite Z.eqb_refl, next_table by done. apply (Hrest _ s own).
    + rewrite PDX_div by done. pose proof (page_aligned_div a Hal).
      pose proof (Z.div_mod a 4194304). pose proof (Z.mod_pos_bound a 4194304). lia.
    + replace ((PDX a + 1) * 4194304) with ((PDX a + 1) * 1024 * 4096) by lia. apply Z_mod_mult.
    + intros hi _ Hhi. by apply unmapped_no_table.
  - destruct (Z.eqb_spec (t + 4 * PTX a) 0) as [E|_];
      [by destruct (valid_nonzero t (PTX a) Hvt (proj1 (PTX_range a)))|].
    rewrite <- Hpte. fold (mapped (pte_at (ram s) d a)).
    assert (∀ s1 own1, unmapped s own d a (a + PGSIZE) s1 own1 →
      ∀ hi, a + PGSIZE <= hi ∨ hi = oldsz → hi <= a + PGSIZE →
      unmapped s own d a hi s1 own1) as Hcut.
    { intros s1 own1 (Hev & Hz & Ho) hi Hhi Hle. unfold PGSIZE in *.
      pose proof (page_aligned_div a Hal).
      assert (∀ n, a <= n * 4096 < hi ↔ a <= n * 4096 < a + 4096) as Hsame by lia.
      split_and!.
      - eapply evolves_mono; [| |exact Hev]; [|naive_solver]. unfold range. intros d' n [-> Hn].
        split; [done|]. by apply Hsame.
      - intros va Hva Hr. apply Hz; [done|lia].
      - intros q. rewrite Ho. apply option_fmap_ext. intros [| | | |d' n]; simpl; try done.
        erewrite bool_decide_ext; [done|]. by rewrite Hsame. }
    rewrite Enext.
    destruct (user_pte_cases s own d a Hinv Hd Hu) as [E|[Hm Hp]].
    + rewrite E, mapped_0. apply (Hrest _ s own); [unfold PGSIZE; lia|by apply aligned_next|].
      apply Hcut. by apply unmapped_here.
    + rewrite Hm. destruct (Z.eqb_spec (PTE_ADDR (pte_at (ram s) d a)) 0) as [E|_];
        [by destruct (frame_nonzero s own _ _ Hinv Hp)|].
      destruct (free_user_page s own t d a _ Hinv Ht Hu32 Hp) as (s1 & Hk & _).
      rewrite Hk, bind_Ok. eapply Hrest; [unfold PGSIZE; lia|by apply aligned_next|].
      apply Hcut. by apply unmapped_freed.
Qed.

Lemma PGROUNDUP_user sz :
  0 <= sz <= KERNBASE →
  sz <= PGROUNDUP sz < sz + 4096 ∧ PGROUNDUP sz mod 4096 = 0 ∧ PGROUNDUP sz <= KERNBASE.
Proof.
  intros H. unfold KERNBASE in *. rewrite PGROUNDUP_mod by (unfold is_u32; lia).
  destruct (Z.leb_spec sz (2 ^ 32 - 4096)); [|lia].
  pose proof (Z.div_mod (sz + 4095) 4096). pose proof (Z.mod_pos_bound (sz + 4095) 4096).
  split_and!; [lia|lia|by apply Z_mod_mult|lia].
Qed.

Lemma deallocuvm_spec s own d oldsz newsz :
  space_inv s own → own !! d = Some Dir → 0 <= newsz → oldsz <= KERNBASE →
  ∃ s' own', deallocuvm s d oldsz newsz = Ok (if oldsz <=? newsz then oldsz else newsz, s')
    ∧ unmapped s own d (PGROUNDUP newsz) (if oldsz <=? newsz then 0 else oldsz) s' own'.
Proof.
  intros Hinv Hd Hnew Hold. unfold Vm.deallocuvm. destruct (Z.leb_spec oldsz newsz).
  { exists s, own. split; [done|]. apply unmapped_nil; [done|]. unfold PGROUNDUP.
    apply Z.land_nonneg. right. vm_compute. congruence. }
  destruct (PGROUNDUP_user newsz) as (Hb & Hal & Hk); [lia|].
  destruct (dealloc_loop_spec d oldsz
    (S (Z.to_nat ((oldsz - PGROUNDUP newsz) / PGSIZE))) s own (PGROUNDUP newsz))
    as (s' & own' & -> & Hun); [done|done|lia|done|done| |].
  - unfold PGSIZE. pose proof (Z.div_mod (oldsz - PGROUNDUP newsz) 4096).
    pose proof (Z.mod_pos_bound (oldsz - PGROUNDUP newsz) 4096). lia.
  - rewrite bind_Ok. exists s', own'. done.
Qed.

Lemma dealloc_undo s own d oldsz newsz :
  space_inv s own → own !! d = Some Dir → 0 <= oldsz < newsz → newsz <= KERNBASE →
  ∃ s' own', deallocuvm s d newsz oldsz = Ok (oldsz, s')
    ∧ unmapped s own d (PGROUNDUP oldsz) newsz s' own'.
Proof.
  intros Hinv Hd Hold Hnew.
  destruct (deallocuvm_spec s own d newsz oldsz) as (s' & own' & E & Hun); [done|done|lia|done|].
  destruct (Z.leb_spec newsz oldsz); [lia|]. eauto.
Qed.

(** ** Growing an address space *)

(** Virtual page [va / 4096] of [d] is mapped, user-writable, to a zero page. *)
Definition fresh_page (s : kst) (own : owners) (d va : Z) : Prop :=
  ∃ p, own !! p = Some (User d (va / 4096))
    ∧ pte_at (ram s) d va = map_entry (V2P p) (Z.lor PTE_W PTE_U)
    ∧ ∀ b, in_page p b → getb (ram s) b = 0.

Lemma fresh_evolves R s own s' own' d va :
  evolves R (λ _, False) s own s' own' → own !! d = Some Dir → is_u32 va →
  ¬ R d (va / 4096) → fresh_page s own d va → fresh_page s' own' d va.
Proof.
  intros Hev Hd Hva HR (p & Hp & He & Hz).
  destruct (ev_data _ _ _ _ _ _ Hev p _ Hp ltac:(tauto)) as [Hp' Hag];
    [right; eauto|].
  exists p. split_and!; [done| |].
  - by rewrite (ev_pte _ _ _ _ _ _ Hev) by (done || tauto).
  - intros b Hb. by rewrite Hag, Hz.
Qed.

(** Preparing a zeroed page. *)
Lemma alloc_zeroed s own p s1 :
  space_inv s own → kalloc s = Ok (p, s1) → p ≠ 0 →
  own !! p = Some Free
  ∧ evolves (λ _ _, False) (λ _, False) s own
      (set_ram s1 (memset (ram s1) p 0 PGSIZE)) (<[p := Priv]> own)
  ∧ ∀ b, in_page p b → getb (memset (ram s1) p 0 PGSIZE) b = 0.
Proof.
  intros Hinv Hk Hne. destruct (kalloc_inv s own Hinv) as (p' & s1' & Hk' & Hram & Hcase).
  rewrite Hk in Hk'. injection Hk' as <- <-.
  destruct Hcase as [[? _]|(Hp & _ & Hinv1)]; [done|]. split_and!; [done| |].
  - apply (kalloc_zero_inv s own p s1); [done|done|done|done|].
    intros q Hq Hqp. rewrite Hram. apply agree_memset; [by eapply (si_valid s own)|done|done].
  - intros b Hb. unfold PGSIZE, in_page in *. rewrite getb_memset by lia. by rewrite decide_True by lia.
Qed.

(** The second failure path of [allocuvm]: the new page is mapped nowhere, the
    pages mapped so far are released, then the new page. *)
Lemma alloc_undo s own d oldsz newsz p s2 own2 s3 own3 :
  own !! d = Some Dir → own !! p = Some Free →
  evolves (λ _ _, False) (λ _, False) s own s2 own2 → own2 !! p = Some Priv →
  evolves (λ _ _, False) (λ _, False) s2 own2 s3 own3 →
  0 <= oldsz < newsz → newsz <= KERNBASE →
  ∃ s4 s5 own5, deallocuvm s3 d newsz oldsz = Ok (oldsz, s4) ∧ kfree kend s4 p = Ok s5
    ∧ evolves (range d (PGROUNDUP oldsz) newsz) (λ _, False) s own s5 own5
    ∧ (∀ va, is_u32 va → PGROUNDUP oldsz <= va / 4096 * 4096 < newsz →
        pte_at (ram s5) d va = 0)
    ∧ ∀ q, own5 !! q = if decide (q = p) then Some Free else unmap_role d (PGROUNDUP oldsz) newsz <$> own3 !! q.
Proof.
  intros Hd Hp Hev2 Hp2 Hev3 Hold Hnew.
  pose proof (ev_dir _ _ _ _ _ _ Hev2 d Hd ltac:(tauto)) as Hd2.
  pose proof (ev_dir _ _ _ _ _ _ Hev3 d Hd2 ltac:(tauto)) as Hd3.
  destruct (ev_data _ _ _ _ _ _ Hev3 p Priv Hp2 ltac:(tauto) ltac:(tauto)) as [Hp3 _].
  destruct (dealloc_undo s3 own3 d oldsz newsz) as (s4 & own4 & E4 & Hev4 & Hz & Ho4);
    [by eapply ev_inv|done|done|done|].
  pose proof (ev_dir _ _ _ _ _ _ Hev4 d Hd3 ltac:(tauto)) as Hd4.
  destruct (ev_data _ _ _ _ _ _ Hev4 p Priv Hp3 ltac:(tauto) ltac:(tauto)) as [Hp4 _].
  pose proof (ev_inv _ _ _ _ _ _ Hev4) as Hinv4.
  destruct (kfree_inv s4 own4 p Hinv4 Hp4) as (s5 & Hk5 & _ & _).
  pose proof (kfree_evolves s4 own4 p s5 Hinv4 Hp4 Hk5) as Hev5.
  exists s4, s5, (<[p := Free]> own4). split_and!; [done|done| | |].
  - eapply evolves_mono; [| |exact (evolves_trans _ _ _ _ _ _ _ _ _ _ Hev2
      (evolves_trans _ _ _ _ _ _ _ _ _ _ Hev3 (evolves_trans _ _ _ _ _ _ _ _ _ _ Hev4 Hev5)))];
      naive_solver.
  - intros va Hva Hr. rewrite (ev_pte _ _ _ _ _ _ Hev5); [by apply Hz|done| |done|tauto].
    intros ->. congruence.
  - intros q. case_decide as Hq; [subst; apply lookup_insert_eq|]. by rewrite lookup_insert_ne, Ho4.
Qed.

(** Unmapping what was mapped since [own0] gives it back; tables stay. *)
Lemma took_unmap d lo hi own0 own1 q r :
  no_users own0 d lo hi → took d hi own0 own1 q → r = unmap_role d lo hi <$> own1 !! q →
  r = own0 !! q ∨ own0 !! q = Some Free ∧ ((∃ i, r = Some (Table d i)) ∨ ∃ n, r = Some (User d n) ∧ n * 4096 < hi).
Proof.
  intros Hn Ht ->. destruct Ht as [E|(Hf & [[i E]|(n & E & Hlt)])]; rewrite E.
  - left. by apply unmap_no_users.
  - right. split; [done|]. left. by exists i.
  - cbn. case_bool_decide as Hb; [left; congruence|]. right. split; [done|]. right. by exists n.
Qed.

Lemma alloc_loop_spec d oldsz newsz fuel s own a :
  space_inv s own → own !! d = Some Dir → 0 <= oldsz <= newsz → newsz < KERNBASE →
  PGROUNDUP oldsz <= a → a mod 4096 = 0 → newsz - a <= 4096 * Z.of_nat fuel →
  (∀ va, is_u32 va → a <= va / 4096 * 4096 < newsz → pte_at (ram s) d va = 0) →
  ∃ r s' own', allocuvm_loop s d a oldsz newsz fuel = Ok (r, s') ∧
    ((r = newsz ∧ evolves (range d a newsz) (λ _, False) s own s' own'
       ∧ (∀ va, is_u32 va → a <= va / 4096 * 4096 < newsz → fresh_page s' own' d va)
       ∧ ∀ p, took d newsz own own' p)
     ∨ (r = 0 ∧ evolves (range d (PGROUNDUP oldsz) newsz) (λ _, False) s own s' own'
       ∧ (∀ va, is_u32 va → PGROUNDUP oldsz <= va / 4096 * 4096 < newsz →
           pte_at (ram s') d va = 0)
       ∧ starved d newsz own
       ∧ ∀ own0, no_users own0 d (PGROUNDUP oldsz) newsz → (∀ p, took d newsz own0 own p) →
           ∀ p, took d newsz own0 own' p)).
Proof.
  revert s own a. induction fuel as [|fuel IH];
    intros s own a Hinv Hd Hold Hnew Hlo Hal Hfuel Hun; cbn [allocuvm_loop].
  { destruct (Z.ltb_spec a newsz); [lia|]. exists newsz, s, own. split; [done|left].
    split_and!; [done|by apply evolves_refl|lia|intros; apply took_refl]. }
  destruct (Z.ltb_spec a newsz) as [Hlt|Hge].
  2:{ exists newsz, s, own. split; [done|left]. split_and!; [done|by apply evolves_refl|lia|intros; apply took_refl]. }
  assert (oldsz <= PGROUNDUP oldsz) as Hrup.
  { apply PGROUNDUP_user. lia. }
  assert (user_va a) as Hu by (unfold user_va; lia).
  pose proof (user_va_u32 a Hu) as Hu32. pose proof (page_aligned_div a Hal) as Hdiv.
  destruct (kalloc_inv s own Hinv) as (p & s1 & Hk & Hram & Hcase). rewrite Hk, bind_Ok.
  destruct Hcase as [[-> ->]|(Hp & Hp0 & _)].
  { cbn [Z.eqb]. destruct (dealloc_undo s own d oldsz newsz) as (s' & own' & -> & Hev & Hz & Ho);
      [done|done|lia|lia|]. rewrite bind_Ok. exists 0, s', own'. split; [done|right]. split_and!; [done|done|done|..].
    - eapply full_starved; [done|by eapply kalloc_full].
    - intros own0 Hnu Ht q. eapply took_unmap; [done|apply Ht|apply Ho]. }
  destruct (Z.eqb_spec p 0); [done|].
  destruct (alloc_zeroed s own p s1 Hinv Hk Hp0) as (_ & Hev2 & Hzero).
  set (s2 := set_ram s1 (memset (ram s1) p 0 PGSIZE)) in *.
  pose proof (ev_inv _ _ _ _ _ _ Hev2) as Hinv2.
  pose proof (ev_dir _ _ _ _ _ _ Hev2 d Hd ltac:(tauto)) as Hd2.
  assert (pte_at (ram s2) d a = 0) as Ha0.
  { rewrite (ev_pte _ _ _ _ _ _ Hev2) by (done || tauto). apply Hun; [done|lia]. }
  destruct (mappages_user s2 _ d a p (Z.lor PTE_W PTE_U) Hinv2 Hd2 Hu Hal Ha0
    (lookup_insert_eq own p Priv) ltac:(vm_compute; by split))
    as [(s3 & own3 & -> & Hev3 & -> & Hfull)|(s3 & own3 & -> & Hev3 & Hp3 & Hag3 & He3 & Htk3)]; rewrite bind_Ok.
  - (* no memory for the page table *)
    cbn [Z.ltb]. destruct (alloc_undo s own d oldsz newsz p _ _ s3 _ Hd Hp Hev2
      (lookup_insert_eq own p Priv) Hev3) as (s4 & s5 & own5 & -> & Hk5 & Hev & Hz & Ho5); [lia|lia|].
    rewrite bind_Ok, Hk5, bind_Ok. exists 0, s5, own5. split; [done|right]. split_and!; [done|done|done|..].
    + exists s2, (<[p := Priv]> own), p. split_and!; [done|done|]. intros q Hq. left. by rewrite lookup_insert_ne.
    + intros own0 Hnu Ht q. unfold took. rewrite Ho5. case_decide as Hq.
      * subst q. destruct (Ht p) as [E|(Hf & _)]; left; congruence.
      * eapply took_unmap; [done|apply Ht|]. by rewrite lookup_insert_ne.
  - (* mapped: go on with the next page *)
    cbn [Z.ltb].
    assert (u32 (a + PGSIZE) = a + PGSIZE) as ->.
    { apply u32_small. unfold is_u32, user_va, KERNBASE, PGSIZE in *. lia. }
    assert (evolves (at_page d a) (λ _, False) s own s3 own3) as Hev23.
    { eapply evolves_mono; [| |exact (evolves_trans _ _ _ _ _ _ _ _ _ _ Hev2 Hev3)]; naive_solver. }
    pose proof (ev_inv _ _ _ _ _ _ Hev23) as Hinv3.
    pose proof (ev_dir _ _ _ _ _ _ Hev23 d Hd ltac:(tauto)) as Hd3.
    assert (fresh_page s3 own3 d a) as Hfresh.
    { exists p. split_and!; [done|done|]. intros b Hb. rewrite Hag3 by done. by apply Hzero. }
    assert (∀ q, took d newsz own own3 q) as Htk.
    { intros q. destruct (decide (q = p)) as [->|Hq].
      - right. split; [done|]. right. exists (a / 4096). split; [done|lia].
      - pose proof (Htk3 newsz q Hq) as Ht. unfold took in *. by rewrite lookup_insert_ne in Ht by done. }
    destruct (IH s3 own3 (a + PGSIZE) Hinv3 Hd3 Hold Hnew) as (r & s' & own' & -> & Hcase);
      [unfold PGSIZE; lia|by apply aligned_next|unfold PGSIZE; lia| |].
    { intros va Hva Hr. unfold PGSIZE in Hr.
      rewrite (ev_pte _ _ _ _ _ _ Hev23) by (done || tauto || (unfold at_page; lia)).
      apply Hun; [done|lia]. }
    exists r, s', own'. split; [done|].
    destruct Hcase as [(-> & Hev4 & Hall & Htk4)|(-> & Hev4 & Hz & Hst & Htk4)]; [left|right]; split_and!; try done.
    + eapply evolves_mono; [| |exact (evolves_trans _ _ _ _ _ _ _ _ _ _ Hev23 Hev4)];
        [|naive_solver].
      unfold at_page, range, PGSIZE. intros d' k [[-> ->]|[-> ?]]; split; (done || lia).
    + intros va Hva Hr. destruct (Z.eq_dec (va / 4096) (a / 4096)) as [E|E].
      * destruct (fresh_evolves _ _ _ _ _ d a Hev4 Hd3 Hu32) as (q & Hq & He & Hzq);
          [unfold range, PGSIZE; lia|done|].
        exists q. rewrite E, (pte_at_page _ d va a) by done. done.
      * apply Hall; [done|]. unfold PGSIZE. lia.
    + intros q. eapply took_trans; [apply Htk|apply Htk4].
    + eapply evolves_mono; [| |exact (evolves_trans _ _ _ _ _ _ _ _ _ _ Hev23 Hev4)];
        [|naive_solver].
      unfold at_page, range, PGSIZE. intros d' k [[-> ->]|[-> ?]]; split; (done || lia).
    + by eapply starved_took.
    + intros own0 Hnu Ht. apply Htk4; [done|]. intros q. eapply took_trans; [apply Ht|apply Htk].
Qed.

(** ** Releasing an address space *)

#[local] Abbreviation freevm_loop := (freevm_loop kend).
#[local] Abbreviation freevm := (freevm kend).

(** A directory without user pages can be seen as ordinary kernel pages. *)
Definition retire_role (d q : Z) (r : role) : role :=
  match r with
  | Dir => if bool_decide (q = d) then Priv else r
  | Table d' _ => if bool_decide (d' = d) then Priv else r
  | _ => r
  end.

Definition retire (d : Z) (own : owners) : owners := map_imap (λ q r, Some (retire_role d q r)) own.

Lemma lookup_retire d own q : retire d own !! q = retire_role d q <$> own !! q.
Proof. unfold retire. rewrite map_lookup_imap. by destruct (own !! q). Qed.

Lemma retire_Some d own q r :
  retire d own !! q = Some r →
  r ≠ Priv → own !! q = Some r ∧ (r = Dir → q ≠ d) ∧ (∀ i, r ≠ Table d i).
Proof.
  rewrite lookup_retire. destruct (own !! q) as [r'|] eqn:E; simpl; [|done].
  intros [= <-]. destruct r'; simpl; repeat case_bool_decide; naive_solver.
Qed.

Lemma retire_keep d own q r :
  own !! q = Some r → (r = Dir → q ≠ d) → (∀ i, r ≠ Table d i) → retire d own !! q = Some r.
Proof.
  intros E H1 H2. rewrite lookup_retire, E. simpl. f_equal.
  destruct r; simpl; repeat case_bool_decide; naive_solver.
Qed.

Lemma retire_inv s own d :
  space_inv s own → own !! d = Some Dir → (∀ q n, own !! q ≠ Some (User d n)) →
  space_inv s (retire d own).
Proof.
  intros Hinv Hd Hnu. split.
  - destruct (si_pool s own Hinv) as (fl & Hok & Hfl). exists fl. split; [done|].
    intros p. rewrite Hfl. split.
    + intros Hp. by apply retire_keep.
    + intros Hp. by apply (retire_Some d own p Free).
  - intros p r Hp. rewrite lookup_retire in Hp. destruct (own !! p) eqn:E; [|done].
    by eapply si_valid.
  - intros d' i (Hd' & Hne & _)%retire_Some Hi; [|done].
    destruct (si_dir s own Hinv d' i Hd' Hi) as [?|[t Ht]]; [by left|right].
    exists t. apply retire_keep; [done|done|]. intros j [= -> ->]. by apply Hne.
  - intros t d' i (Ht & _ & Hne)%retire_Some; [|done].
    destruct (si_table s own Hinv t d' i Ht) as (Hi & Hd' & He).
    split; [done|split; [|done]]. apply retire_keep; [done| |done].
    intros _ ->. by apply (Hne i).
  - intros t d' i j (Ht & _ & Hne)%retire_Some Hi Hj; [|done].
    destruct (si_pte s own Hinv t d' i j Ht Hi Hj) as [?|[Hm Hu]]; [by left|right].
    split; [done|]. by apply retire_keep.
  - intros p d' n (Hp & _)%retire_Some; [|done].
    destruct (si_user s own Hinv p d' n Hp) as (Hn & t & Ht & He).
    split; [done|]. exists t. split; [|done]. apply retire_keep; [done|done|].
    intros i [= -> _]. by apply (Hnu p n).
Qed.

(** The pages the directory entries from [i] on point to. *)
Definition entry_page (m : mem) (d i q : Z) : Prop :=
  ∃ j, i <= j < 1024 ∧ load32 m (d + 4 * j) = pde_for q ∧ valid_page kend q.

Lemma pde_for_inj q q' :
  valid_page kend q → valid_page kend q' → pde_for q = pde_for q' → q = q'.
Proof.
  intros Hq Hq' E. destruct (pde_for_spec q Hq) as (_ & _ & <- & _).
  destruct (pde_for_spec q' Hq') as (_ & _ & <- & _). by rewrite E.
Qed.

Lemma pde_for_mapped t : valid_page kend t → flag (pde_for t) (Z.lor PTE_P PTE_E) = true.
Proof. intros Ht. rewrite flag_lor. by destruct (pde_for_spec t Ht) as (_ & -> & _). Qed.

Lemma freevm_loop_spec n s own d i :
  i + Z.of_nat n = 1024 → 0 <= i → space_inv s own → own !! d = Some Priv →
  (∀ j, i <= j < 1024 → load32 (ram s) (d + 4 * j) = 0
     ∨ ∃ t, load32 (ram s) (d + 4 * j) = pde_for t ∧ own !! t = Some Priv ∧ t ≠ d) →
  (∀ j k t, i <= j < 1024 → i <= k < 1024 → valid_page kend t →
     load32 (ram s) (d + 4 * j) = pde_for t → load32 (ram s) (d + 4 * k) = pde_for t → j = k) →
  ∃ s' own', freevm_loop s d i n = Ok s'
    ∧ evolves (λ _ _, False) (entry_page (ram s) d i) s own s' own'
    ∧ own' !! d = Some Priv
    ∧ (∀ q, entry_page (ram s) d i q → own' !! q = Some Free)
    ∧ (∀ q, ¬ entry_page (ram s) d i q → own' !! q = own !! q).
Proof.
  revert s own i. induction n as [|n IH]; intros s own i Hn Hi Hinv Hd Hent Huniq;
    cbn [Vm.freevm_loop].
  { exists s, own. split_and!; [done|by apply evolves_refl|done| |done].
    intros q (j & Hj & _). lia. }
  destruct (Hent i ltac:(lia)) as [H0|(t & Ht & Hown & Htd)].
  - rewrite H0, flag_0. destruct (IH s own (i + 1)) as (s' & own' & -> & Hev & Hd' & HF & Hk);
      [lia|lia|done|done|intros; apply Hent; lia|intros; by apply (Huniq j k t); [lia|lia|..]|].
    assert (∀ q, entry_page (ram s) d i q ↔ entry_page (ram s) d (i + 1) q) as Hiff.
    { intros q. split; intros (j & Hj & He & Hq); exists j; (split; [|done]); [|lia].
      destruct (Z.eq_dec j i) as [->|]; [|lia]. rewrite H0 in He.
      by destruct (pde_for_spec q Hq) as (_ & _ & _ & ?). }
    exists s', own'. split_and!; [done| |done|by intros q ?%Hiff; apply HF|].
    + eapply evolves_mono; [| |exact Hev]; [done|]. intros q ?. left. by apply Hiff.
    + intros q Hq. apply Hk. by rewrite <- Hiff.
  - pose proof (si_valid s own Hinv t _ Hown) as Hvt.
    rewrite Ht, pde_for_mapped by done.
    destruct (pde_for_spec t Hvt) as (_ & _ & -> & _).
    destruct (kfree_inv s own t Hinv Hown) as (s1 & Hk1 & Hinv1 & Hag). rewrite Hk1, bind_Ok.
    pose proof (kfree_evolves s own t s1 Hinv Hown Hk1) as Hev1.
    assert (∀ j, 0 <= j < 1024 → load32 (ram s1) (d + 4 * j) = load32 (ram s) (d + 4 * j)) as Hsame.
    { intros j Hj. apply agree_load; [|done]. apply Hag; [by eapply (si_valid s own)|done]. }
    assert (∀ q, entry_page (ram s) d i q ↔ q = t ∨ entry_page (ram s1) d (i + 1) q) as Hiff.
    { intros q. split.
      - intros (j & Hj & He & Hq). destruct (Z.eq_dec j i) as [->|].
        + left. rewrite Ht in He. by apply pde_for_inj.
        + right. exists j. rewrite Hsame by lia. split_and!; [lia|lia|done|done].
      - intros [->|(j & Hj & He & Hq)].
        + exists i. split_and!; [lia|lia|done|done].
        + exists j. rewrite Hsame in He by lia. split_and!; [lia|lia|done|done]. }
    assert (¬ entry_page (ram s1) d (i + 1) t) as Hnt.
    { intros (j & Hj & He & _). rewrite Hsame in He by lia.
      assert (j = i) by (apply (Huniq j i t); (lia || done)). lia. }
    destruct (IH s1 (<[t := Free]> own) (i + 1)) as (s' & own' & -> & Hev & Hd' & HF & Hk);
      [lia|lia|done|by rewrite lookup_insert_ne| | |].
    { intros j Hj. rewrite Hsame by lia. destruct (Hent j ltac:(lia)) as [?|(u & Hu & Ho & ?)];
        [by left|right]. exists u. split_and!; [done| |done]. rewrite lookup_insert_ne; [done|].
      intros ->. assert (i = j) by (apply (Huniq i j u); (lia || done)). lia. }
    { intros j k u Hj Hk. rewrite !Hsame by lia. apply Huniq; lia. }
    exists s', own'. split_and!; [done| |done| |].
    + eapply evolves_mono; [| |exact (evolves_trans _ _ _ _ _ _ _ _ _ _ Hev1 Hev)];
        [naive_solver|]. intros q Hq. left. by apply Hiff.
    + intros q [->|Hq]%Hiff; [|by apply HF]. by rewrite Hk, lookup_insert_eq.
    + intros q Hq. rewrite Hk by (rewrite Hiff in Hq; tauto).
      apply lookup_insert_ne. intros ->. apply Hq, Hiff. by left.
Qed.

(** What [freevm d] does to the role of page [q]. *)
Definition release_role (d q : Z) (r : role) : role :=
  match r with
  | Dir => if bool_decide (q = d) then Free else r
  | Table d' _ | User d' _ => if bool_decide (d' = d) then Free else r
  | _ => r
  end.

Lemma retire_evolves s own d :
  space_inv s own → own !! d = Some Dir → (∀ q n, own !! q ≠ Some (User d n)) →
  evolves (λ _ _, False) (λ q, q = d) s own s (retire d own).
Proof.
  intros Hinv Hd Hnu. split; [by apply retire_inv| |done|].
  - intros d' Hd' Hne. by apply retire_keep.
  - intros p r Hp Hne Hr. split; [|done]. apply retire_keep; [done| |]; naive_solver.
Qed.

(** The entries of a directory name its tables. *)
Lemma entry_page_table s own d q :
  space_inv s own → own !! d = Some Dir →
  entry_page (ram s) d 0 q ↔ ∃ j, own !! q = Some (Table d j).
Proof.
  intros Hinv Hd. split.
  - intros (j & Hj & He & Hq).
    destruct (dir_entry s own d j Hinv Hd Hj) as [[H0 _]|(t & Ht & He')].
    + rewrite H0 in He. by destruct (pde_for_spec q Hq) as (_ & _ & _ & ?).
    + exists j. rewrite He in He'. apply pde_for_inj in He' as ->; [done|done|].
      by eapply (si_valid s own).
  - intros [j Ht]. destruct (si_table s own Hinv q d j Ht) as (Hj & _ & He).
    exists j. split_and!; [lia|lia|done|by eapply (si_valid s own)].
Qed.

(** The second half of [freevm]: tables and directory go back to the allocator. *)
Lemma free_tables s own d :
  space_inv s own → own !! d = Some Dir → (∀ q n, own !! q ≠ Some (User d n)) →
  ∃ s1 s2 own2, freevm_loop s d 0 (Z.to_nat NPDENTRIES) = Ok s1 ∧ kfree kend s1 d = Ok s2
    ∧ evolves (λ _ _, False) (λ q, q = d) s own s2 own2
    ∧ ∀ q, own2 !! q = release_role d q <$> own !! q.
Proof.
  intros Hinv Hd Hnu. pose proof (retire_evolves s own d Hinv Hd Hnu) as Hev0.
  assert (retire d own !! d = Some Priv) as Hd0.
  { rewrite lookup_retire, Hd. simpl. by rewrite bool_decide_eq_true_2. }
  destruct (freevm_loop_spec (Z.to_nat NPDENTRIES) s (retire d own) d 0)
    as (s1 & own1 & Hloop & Hev1 & Hd1 & HF & Hk);
    [done|done|by eapply ev_inv|done| | |].
  { intros j Hj. destruct (dir_entry s own d j Hinv Hd Hj) as [[H0 _]|(t & Ht & He)];
      [by left|right]. exists t. split_and!; [done| |congruence].
    rewrite lookup_retire, Ht. simpl. by rewrite bool_decide_eq_true_2. }
  { intros j k t Hj Hk Hv Ej Ek.
    destruct (dir_entry s own d j Hinv Hd Hj) as [[H0 _]|(t1 & Ht1 & He1)];
      [rewrite H0 in Ej; by destruct (pde_for_spec t Hv) as (_ & _ & _ & ?)|].
    destruct (dir_entry s own d k Hinv Hd Hk) as [[H0 _]|(t2 & Ht2 & He2)];
      [rewrite H0 in Ek; by destruct (pde_for_spec t Hv) as (_ & _ & _ & ?)|].
    assert (t1 = t2) as -> by (apply pde_for_inj; [by eapply (si_valid s own)..|congruence]).
    rewrite Ht1 in Ht2. by injection Ht2. }
  pose proof (ev_inv _ _ _ _ _ _ Hev1) as Hinv1.
  destruct (kfree_inv s1 own1 d Hinv1 Hd1) as (s2 & Hk2 & _ & _).
  pose proof (kfree_evolves s1 own1 d s2 Hinv1 Hd1 Hk2) as Hev2.
  exists s1, s2, (<[d := Free]> own1). split_and!; [done|done| |].
  - eapply evolves_mono; [| |exact (evolves_trans _ _ _ _ _ _ _ _ _ _ Hev0
      (evolves_trans _ _ _ _ _ _ _ _ _ _ Hev1 Hev2))]; [by intros ? ? [[]|[[]|[]]]|].
    intros q [->|[Hq| ->]]; [by left| |by left].
    apply (entry_page_table s own d q Hinv Hd) in Hq as [j Hq]. do 4 right. eauto.
  - intros q. destruct (decide (q = d)) as [->|Hne].
    + rewrite lookup_insert_eq, Hd. simpl. by rewrite bool_decide_eq_true_2.
    + rewrite lookup_insert_ne by done.
      destruct (own !! q) as [r|] eqn:Eq.
      * assert ((∀ j, r ≠ Table d j) → ¬ entry_page (ram s) d 0 q) as Hnot.
        { intros Hr. rewrite (entry_page_table s own) by done. intros [j E]. apply (Hr j). congruence. }
        destruct r as [| | |d' j|d' n]; simpl;
          try (rewrite Hk, lookup_retire, Eq by (apply Hnot; congruence);
               simpl; done).
        -- rewrite Hk, lookup_retire, Eq by (apply Hnot; congruence).
           simpl. by rewrite !bool_decide_eq_false_2.
        -- case_bool_decide as Hdd.
           ++ subst d'. apply HF, (entry_page_table s own); eauto.
           ++ rewrite Hk, lookup_retire, Eq by (apply Hnot; congruence).
              simpl. by rewrite bool_decide_eq_false_2.
        -- rewrite Hk, lookup_retire, Eq by (apply Hnot; congruence).
           simpl. rewrite bool_decide_eq_false_2; [done|]. intros ->. by apply (Hnu q n).
      * rewrite Hk, lookup_retire, Eq; [done|].
        rewrite (entry_page_table s own) by done. intros [j E]. congruence.
Qed.

(** [freevm] gives back every page of the address space, and only those. *)
Lemma freevm_spec s own d :
  space_inv s own → own !! d = Some Dir →
  ∃ s' own', freevm s d = Ok s'
    ∧ evolves (λ d' _, d' = d) (λ q, q = d) s own s' own'
    ∧ ∀ q, own' !! q = release_role d q <$> own !! q.
Proof.
  intros Hinv Hd. unfold Vm.freevm.
  destruct (Z.eqb_spec d 0) as [->|_].
  { exfalso. by apply (valid_nonzero 0 0 (si_valid s own Hinv 0 _ Hd)). }
  destruct (dealloc_undo s own d 0 KERNBASE) as (s1 & own1 & -> & Hev1 & _ & Ho1);
    [done|done|done|done|]. rewrite bind_Ok.
  change (PGROUNDUP 0) with 0 in *.
  pose proof (ev_inv _ _ _ _ _ _ Hev1) as Hinv1.
  pose proof (ev_dir _ _ _ _ _ _ Hev1 d Hd ltac:(tauto)) as Hd1.
  assert (∀ q n, own !! q = Some (User d n) → 0 <= n * 4096 < KERNBASE) as Hrange.
  { intros q n Hq. destruct (si_user s own Hinv q d n Hq) as (Hn & _).
    unfold KERNBASE. lia. }
  assert (∀ q n, own1 !! q ≠ Some (User d n)) as Hnu.
  { intros q n. rewrite Ho1. destruct (own !! q) as [[| | | |d' k]|] eqn:E; simpl; try done.
    case_bool_decide as Hc; [done|]. intros [= -> ->]. apply Hc.
    split; [done|]. by apply (Hrange q). }
  destruct (free_tables s1 own1 d Hinv1 Hd1 Hnu) as (s2 & s3 & own3 & -> & Hk & Hev2 & Ho3).
  rewrite bind_Ok. exists s3, own3. split_and!; [done| |].
  - eapply evolves_mono; [| |exact (evolves_trans _ _ _ _ _ _ _ _ _ _ Hev1 Hev2)];
      unfold range; naive_solver.
  - intros q. rewrite Ho3, Ho1. destruct (own !! q) as [[| | | |d' n]|] eqn:E; simpl; try done.
    case_bool_decide as Hc; simpl.
    + destruct Hc as [-> _]. by rewrite bool_decide_eq_true_2.
    + done.
Qed.

(** Memory ran out while pages were taken for [d], and then all pages of [d] were given back. *)
Definition gave_back (d hi : Z) (own own' : owners) : Prop :=
  starved d hi own ∧ ∃ o, (∀ p, took d hi own o p) ∧ ∀ q, own' !! q = release_role d q <$> o !! q.

Lemma gave_back_took d hi own own1 own' :
  (∀ p, took d hi own own1 p) → gave_back d hi own1 own' → gave_back d hi own own'.
Proof.
  intros Ht (Hs & o & Ho & Hr). split; [by eapply starved_took|]. exists o. split; [|done].
  intros p. eapply took_trans; [apply Ht|apply Ho].
Qed.

(** If [d] was a free page before, all roles are what they were. *)
Lemma took_released s d hi own o own' :
  space_inv s own → own !! d = Some Free → (∀ p, took d hi (<[d := Dir]> own) o p) →
  (∀ q, own' !! q = release_role d q <$> o !! q) → own' = own.
Proof.
  intros Hinv Hd Ho Hr. apply map_eq. intros q. rewrite Hr.
  assert (∀ i, own !! q ≠ Some (Table d i)) as Hnt by (intros i Hq; destruct (si_table s own Hinv q d i Hq) as (_ & ? & _); congruence).
  assert (∀ n, own !! q ≠ Some (User d n)) as Hnu.
  { intros n Hq. destruct (si_user s own Hinv q d n Hq) as (_ & t & Ht & _). destruct (si_table s own Hinv t d _ Ht) as (_ & ? & _). congruence. }
  destruct (decide (q = d)) as [->|Hne].
  { destruct (Ho d) as [E|(E & _)]; rewrite lookup_insert_eq in E; [|done]. rewrite E, Hd. cbn. by rewrite bool_decide_eq_true_2. }
  destruct (Ho q) as [E|(E & E')]; rewrite lookup_insert_ne in E by done.
  - rewrite E. destruct (own !! q) as [[| | |d' i|d' n]|]; cbn; try done; (rewrite bool_decide_eq_false_2; [done|]); [done|intros ->; by apply (Hnt i)|intros ->; by apply (Hnu n)].
  - rewrite E. destruct E' as [[i ->]|(n & -> & _)]; cbn; by rewrite bool_decide_eq_true_2.
Qed.

Lemma gave_back_all s d hi own own' :
  space_inv s own → own !! d = Some Free → gave_back d hi (<[d := Dir]> own) own' → own' = own.
Proof. intros Hinv Hd (_ & o & Ho & Hr). by eapply took_released. Qed.

(** Memory ran out for a new directory, or for its pages below [hi]. *)
Definition short (hi : Z) (own : owners) : Prop :=
  full own ∨ ∃ d, own !! d = Some Free ∧ starved d hi (<[d := Dir]> own).

Lemma short_mono hi hi' own : hi <= hi' → short hi own → short hi' own.
Proof. intros Hle [Hf|(d & Hd & Hs)]; [by left|right]. exists d. split; [done|]. by eapply starved_mono. Qed.

(** *** How much memory is enough

    A directory has at most 1024 tables, and below [hi] at most one page per 4096 bytes: memory can run out only if no
    more pages were free to begin with. *)

Definition free_pages (own : owners) : gset Z := dom (filter (λ x, x.2 = Free) own).

Lemma elem_of_free_pages own p : p ∈ free_pages own ↔ own !! p = Some Free.
Proof using.
  unfold free_pages. rewrite elem_of_dom. split.
  - intros [r Hr]. apply map_lookup_filter_Some in Hr as [Hr E]. cbn in E. by subst.
  - intros Hp. exists Free. by apply map_lookup_filter_Some.
Qed.

Definition pages_below (hi : Z) : Z := (hi + 4095) / 4096.

(** The place of a page in its directory. *)
Definition place (own : owners) (p : Z) : Z :=
  match own !! p with Some (Table _ i) => i | Some (User _ n) => 1024 + n | _ => 0 end.

Lemma user_unique s own p q d n : space_inv s own → own !! p = Some (User d n) → own !! q = Some (User d n) → p = q.
Proof.
  intros Hinv Hp Hq. destruct (si_user s own Hinv p d n Hp) as (_ & t & Ht & _ & <-).
  destruct (si_user s own Hinv q d n Hq) as (_ & t' & Ht' & _ & <-). by rewrite (table_unique s own t t' d _ Hinv Ht Ht').
Qed.

Lemma took_bound s o d hi own mm : space_inv s o → 0 <= hi → (∀ p, p ≠ mm → took d hi own o p) →
  Z.of_nat (size (free_pages own)) <= Z.of_nat (size (free_pages o)) + 1025 + pages_below hi.
Proof.
  intros Hinv Hhi Ht. pose proof (Z.div_mod (hi + 4095) 4096 ltac:(lia)) as Hdm. pose proof (Z.mod_pos_bound (hi + 4095) 4096 ltac:(lia)).
  set (T := free_pages own ∖ (free_pages o ∪ {[mm]})).
  assert (∀ p, p ∈ T → (∃ i, o !! p = Some (Table d i)) ∨ ∃ n, o !! p = Some (User d n) ∧ n * 4096 < hi) as Hro.
  { intros p [Hp Hne]%elem_of_difference. apply elem_of_free_pages in Hp. destruct (Ht p) as [E|[_ H']]; [set_solver| |done].
    exfalso. apply Hne, elem_of_union_l, elem_of_free_pages. congruence. }
  assert (length (place o <$> elements T) ≤ length (seqZ 0 (1024 + pages_below hi)))%nat as Hl.
  { apply submseteq_length, NoDup_submseteq.
    - apply NoDup_fmap_2_strong; [|apply NoDup_elements]. intros p q Hp%elem_of_elements Hq%elem_of_elements.
      unfold place. destruct (Hro p Hp) as [[i Ep]|(n & Ep & _)], (Hro q Hq) as [[j Eq]|(k & Eq & _)]; rewrite Ep, Eq; intros E.
      + subst j. by apply (table_unique s o p q d i).
      + destruct (si_table s o Hinv p d i Ep) as (? & _), (si_user s o Hinv q d k Eq) as (? & _). lia.
      + destruct (si_table s o Hinv q d j Eq) as (? & _), (si_user s o Hinv p d n Ep) as (? & _). lia.
      + replace k with n in Eq by lia. by apply (user_unique s o p q d n).
    - intros x (p & -> & Hp%elem_of_elements)%list_elem_of_fmap. apply elem_of_seqZ. unfold place, pages_below in *.
      destruct (Hro p Hp) as [[i Ep]|(n & Ep & Hn)]; rewrite Ep.
      + destruct (si_table s o Hinv p d i Ep) as (? & _). lia.
      + destruct (si_user s o Hinv p d n Ep) as (? & _). lia. }
  rewrite length_fmap, length_seqZ in Hl. change (length (elements T)) with (size T) in Hl.
  assert (size (free_pages own) ≤ size T + size (free_pages o ∪ {[mm]}))%nat as H1.
  { rewrite <- size_union by set_solver. apply subseteq_size. intros p Hp. destruct (decide (p ∈ free_pages o ∪ {[mm]})); set_solver. }
  assert (size (free_pages o ∪ {[mm]}) ≤ size (free_pages o) + 1)%nat.
  { rewrite size_union_alt, <- (size_singleton (C := gset Z) mm). apply Nat.add_le_mono_l, subseteq_size. set_solver. }
  assert (0 <= pages_below hi) by (unfold pages_below; apply Z.div_pos; lia). lia.
Qed.

Lemma full_free own : full own → size (free_pages own) = 0%nat.
Proof using. clear Hkend. intros Hf. rewrite size_empty_iff. intros p. rewrite elem_of_free_pages. split; [by intros ?%Hf|set_solver]. Qed.

Lemma starved_bound d hi own : starved d hi own → 0 <= hi → Z.of_nat (size (free_pages own)) <= 1025 + pages_below hi.
Proof. intros (s & o & mm & Hinv & Hfull & Ht) Hhi. pose proof (took_bound s o d hi own mm Hinv Hhi Ht) as H. rewrite (full_free o Hfull) in H. lia. Qed.

Lemma short_bound hi own : short hi own → 0 <= hi → Z.of_nat (size (free_pages own)) <= 1026 + pages_below hi.
Proof.
  intros [Hf|(d & Hd & Hs)] Hhi.
  - rewrite (full_free own Hf). assert (0 <= pages_below hi) by (unfold pages_below; apply Z.div_pos; lia). lia.
  - pose proof (starved_bound d hi _ Hs Hhi). assert (size (free_pages own) ≤ size (free_pages (<[d := Dir]> own)) + 1)%nat; [|lia].
    rewrite <- (size_singleton (C := gset Z) d), <- size_union.
    + apply subseteq_size. intros p Hp. destruct (decide (p = d)) as [->|Hne]; [set_solver|]. apply elem_of_union_l, elem_of_free_pages.
      rewrite lookup_insert_ne by done. by apply elem_of_free_pages.
    + intros p Hp ->%elem_of_singleton. apply elem_of_free_pages in Hp. by rewrite lookup_insert_eq in Hp.
Qed.

(** ** Kernel mappings *)

(** Entries of directories that did not exist before do not count as changes. *)
Lemma user_dir s own p d n : space_inv s own → own !! p = Some (User d n) → own !! d = Some Dir.
Proof.
  intros Hinv Hp. destruct (si_user s own Hinv p d n Hp) as (_ & t & Ht & _).
  by eapply si_table.
Qed.

Lemma evolves_new (R R' : Z → Z → Prop) (X X' : Z → Prop) s o s' o' :
  space_inv s o →
  (∀ d n, o !! d = Some Dir → R d n → R' d n) →
  (∀ p, X p → X' p ∨ o !! p = Some Free ∨ o !! p = None) →
  evolves R X s o s' o' → evolves R' X' s o s' o'.
Proof.
  intros Hinv HR HX [I D P A]. split.
  - done.
  - intros d Hd Hx. apply D; [done|]. naive_solver.
  - intros d va Hd Hx Hva Hr. apply P; naive_solver.
  - intros p r Hp Hx Hr. apply A; [done|naive_solver|].
    destruct Hr as [->|(d & n & -> & Hr)]; [by left|right]. exists d, n. split; [done|].
    intros Hr'. apply Hr, HR; [|done]. by eapply user_dir.
Qed.

(** A zeroed page becomes an empty directory. *)
Lemma new_dir_inv s own p :
  space_inv s own → own !! p = Some Priv → (∀ b, in_page p b → getb (ram s) b = 0) →
  space_inv s (<[p := Dir]> own).
Proof.
  intros Hinv Hp Hz.
  assert (∀ q r, own !! q = Some r → r ≠ Priv → <[p := Dir]> own !! q = Some r) as Hfwd.
  { intros q r Hq Hr. rewrite lookup_insert_ne; [done|congruence]. }
  split.
  - destruct (si_pool s own Hinv) as (fl & Hok & Hfl). exists fl. split; [done|].
    intros q. rewrite Hfl, lookup_insert_Some. split; [|naive_solver].
    intros Hq. right. split; [congruence|done].
  - intros q r [[<- _]|[_ Hq]]%lookup_insert_Some; by eapply si_valid.
  - intros d i [[<- _]|[_ Hd]]%lookup_insert_Some Hi.
    + left. rewrite (load32_fill _ _ 0); [done|]. intros b Hb. apply Hz. unfold in_page. lia.
    + destruct (si_dir s own Hinv d i Hd Hi) as [?|[t Ht]]; [by left|right]. eauto.
  - intros t d i [[_ ?]|[_ Ht]]%lookup_insert_Some; [done|].
    destruct (si_table s own Hinv t d i Ht) as (Hi & Hd & He). split; [done|split; [|done]]. auto.
  - intros t d i j [[_ ?]|[_ Ht]]%lookup_insert_Some Hi Hj; [done|].
    destruct (si_pte s own Hinv t d i j Ht Hi Hj) as [?|[Hm Hu]]; [by left|right]. auto.
  - intros q d n [[_ ?]|[_ Hq]]%lookup_insert_Some; [done|].
    destruct (si_user s own Hinv q d n Hq) as (Hn & t & Ht & He). split; [done|]. eauto.
Qed.

Lemma map_entry_u32 pa perm :
  is_u32 pa → pa mod 4096 = 0 → 0 <= perm < 4096 → is_u32 (map_entry pa perm).
Proof.
  intros Hpa Hal Hperm. unfold map_entry.
  destruct (flag perm PTE_E); rewrite <- Z.lor_assoc; apply entry_range; try done;
    by apply lor_flags_range.
Qed.

(** One iteration of [mappages] in the kernel half. *)
Lemma map_kernel_page s own d va pa perm :
  space_inv s own → own !! d = Some Dir → is_u32 va → KERNBASE <= va →
  pte_at (ram s) d va = 0 → is_u32 pa → pa mod 4096 = 0 → 0 <= perm < 4096 →
  ∃ a s1, walkpgdir s d va true = Ok (a, s1) ∧
  ((a = 0 ∧ s1 = s ∧ full own)
   ∨ (a ≠ 0 ∧ load32 (ram s1) a = 0 ∧ ∃ own',
      evolves (at_page d va) (λ _, False) s own
        (set_ram s1 (store32 (ram s1) a (map_entry pa perm))) own'
      ∧ (∀ hi p, took d hi own own' p)
      ∧ pte_at (store32 (ram s1) a (map_entry pa perm)) d va = map_entry pa perm)).
Proof.
  intros Hinv Hd Hva Hk H0 Hpa Hal Hperm.
  destruct (walk_alloc s own d va Hinv Hd Hva) as (a & s1 & own1 & Hw & Hev & Htk & Hcase).
  exists a, s1. split; [done|].
  destruct Hcase as [(-> & -> & -> & Hfull)|(t & Ht & -> & Hne)]; [by left|right].
  pose proof (ev_inv _ _ _ _ _ _ Hev) as Hinv1.
  pose proof (ev_dir _ _ _ _ _ _ Hev d Hd ltac:(tauto)) as Hd1.
  assert (¬ PDX va < 512) as HP by (rewrite <- user_va_PDX by done; unfold user_va; lia).
  pose proof (map_entry_u32 pa perm Hpa Hal Hperm) as Hu.
  split_and!; [done| |].
  - rewrite <- H0, <- (ev_pte _ _ _ _ _ _ Hev d va Hd) by tauto.
    destruct (pte_cases s1 own1 d va Hinv1 Hd1 Hva)
      as [(_ & _ & _ & Hno)|(t' & Ht' & _ & _ & -> & _)]; [by destruct (Hno t)|].
    by rewrite (table_unique s1 own1 t t' d _ Hinv1 Ht Ht').
  - exists own1. split_and!; [|done|].
    + pose proof (reflag_inv s1 own1 t d va _ Hinv1 Ht Hva Hu ltac:(lia)) as Hev2.
      eapply evolves_mono; [| |exact (evolves_trans _ _ _ _ _ _ _ _ _ _ Hev Hev2)];
        naive_solver.
    + rewrite (write_pte_at s1 own1 d t va) by done. by rewrite decide_True.
Qed.

Lemma map_kernel_loop d perm last n s own a pa :
  space_inv s own → own !! d = Some Dir → KERNBASE <= a → is_u32 last →
  a mod 4096 = 0 → last = a + 4096 * Z.of_nat n →
  is_u32 pa → pa mod 4096 = 0 → 0 <= perm < 4096 →
  (∀ va, is_u32 va → a <= va / 4096 * 4096 <= last → pte_at (ram s) d va = 0) →
  ∃ r s' own', mappages_loop s d a last pa perm (S n) = Ok (r, s')
    ∧ evolves (range d a (last + 4096)) (λ _, False) s own s' own'
    ∧ (∀ hi p, took d hi own own' p)
    ∧ (r = -1 ∧ full own' ∨ r = 0 ∧ ∀ va, is_u32 va → a <= va / 4096 * 4096 <= last →
        pte_at (ram s') d va = map_entry (u32 (pa + (va / 4096 * 4096 - a))) perm).
Proof.
  intros Hinv Hd Hk Hlast Hal Hn Hpa Hpal Hperm.
  revert s own a pa Hinv Hd Hk Hal Hn Hpa Hpal.
  induction n as [|n IH]; intros s own a pa Hinv Hd Hk Hal Hn Hpa Hpal Hun;
    assert (is_u32 a) as Ha by (unfold is_u32, KERNBASE in *; lia);
    pose proof (page_aligned_div a Hal) as Hdiv;
    destruct (map_kernel_page s own d a pa perm Hinv Hd Ha Hk (Hun a Ha ltac:(lia)) Hpa Hpal Hperm)
      as (p & s1 & Hw & [(-> & -> & Hfull)|(Hp & H0 & own1 & Hev1 & Htk1 & Hpte)]);
    remember (S n) as k eqn:Ek || idtac; cbn [mappages_loop]; rewrite Hw, bind_Ok.
  1,3: exists (-1), s, own; split_and!; [done|by apply evolves_refl|intros; apply took_refl|by left].
  all: destruct (Z.eqb_spec p 0); [done|]; rewrite H0, flag_0; fold (map_entry pa perm).
  - destruct (Z.eqb_spec a last); [|lia]. subst last. eexists 0, _, own1.
    split_and!; [done| |done|right; split; [done|]].
    + eapply evolves_mono; [| |exact Hev1]; [|naive_solver].
      unfold at_page, range. intros d' j [-> ->]. split; [done|lia].
    + intros va Hva Hr. cbn [ram set_ram].
      rewrite (pte_at_page _ d va a), Hpte by (done || lia).
      replace (pa + (va / 4096 * 4096 - a)) with pa by lia. by rewrite u32_small.
  - destruct (Z.eqb_spec a last); [lia|].
    assert (u32 (a + PGSIZE) = a + PGSIZE) as ->.
    { apply u32_small. unfold is_u32, PGSIZE in *. lia. }
    pose proof (ev_inv _ _ _ _ _ _ Hev1) as Hinv1.
    pose proof (ev_dir _ _ _ _ _ _ Hev1 d Hd ltac:(tauto)) as Hd1. subst k.
    destruct (IH _ own1 (a + PGSIZE) (u32 (pa + PGSIZE)) Hinv1 Hd1) as (r & s' & own' & -> & Hev2 & Htk2 & Hr);
      [unfold PGSIZE; lia|by apply aligned_next|unfold PGSIZE; lia|apply u32_range| | |].
    { unfold u32. change (2 ^ 32) with (4096 * 1048576).
      rewrite Z.rem_mul_r by lia. rewrite (aligned_next pa Hpal).
      rewrite Z.add_0_l, Z.mul_comm. apply Z_mod_mult. }
    { intros va Hva Hr. unfold PGSIZE in Hr.
      rewrite (ev_pte _ _ _ _ _ _ Hev1) by (done || tauto || (unfold at_page; lia)).
      apply Hun; [done|lia]. }
    exists r, s', own'. split_and!; [done| | |].
    + eapply evolves_mono; [| |exact (evolves_trans _ _ _ _ _ _ _ _ _ _ Hev1 Hev2)];
        [|naive_solver].
      unfold at_page, range, PGSIZE. intros d' j [[-> ->]|[-> ?]]; split; (done || lia).
    + intros hi q. eapply took_trans; [apply Htk1|apply Htk2].
    + destruct Hr as [[-> Hf]|[-> Hr]]; [by left|right]. split; [done|]. intros va Hva Hb.
      destruct (Z.eq_dec (va / 4096) (a / 4096)) as [E|E].
      * rewrite (ev_pte _ _ _ _ _ _ Hev2); [|done|tauto|done|unfold range, PGSIZE; lia].
        cbn [ram set_ram]. rewrite (pte_at_page _ d va a), Hpte by done.
        replace (pa + (va / 4096 * 4096 - a)) with pa by lia. by rewrite u32_small.
      * rewrite Hr by (done || (unfold PGSIZE; lia)). f_equal. unfold u32, PGSIZE.
        rewrite Zplus_mod_idemp_l. f_equal. lia.
Qed.

(** ** Setting up the kernel part of a page table *)

#[local] Abbreviation setupkvm_loop := (setupkvm_loop kend).
#[local] Abbreviation setupkvm := (setupkvm kend kdata).

Definition kmap_size (k : kmap_entry) : Z := u32 (phys_end k - phys_start k).

(** Page-aligned, non-empty regions of the kernel half, in increasing order. *)
Fixpoint kmap_wf (lo : Z) (ks : list kmap_entry) : Prop :=
  match ks with
  | [] => True
  | k :: ks' =>
      lo <= virt k ∧ virt k mod 4096 = 0 ∧ 0 < kmap_size k ∧ kmap_size k mod 4096 = 0
      ∧ virt k + kmap_size k <= 2 ^ 32 ∧ is_u32 (phys_start k) ∧ phys_start k mod 4096 = 0
      ∧ 0 <= perm k < 4096 ∧ kmap_wf (virt k + kmap_size k) ks'
  end.

(** Region [k] is mapped in [d] at its physical address with its permissions. *)
Definition kmapped (m : mem) (d : Z) (k : kmap_entry) : Prop :=
  ∀ va, is_u32 va → virt k <= va / 4096 * 4096 < virt k + kmap_size k →
    pte_at m d va = map_entry (u32 (phys_start k + (va / 4096 * 4096 - virt k))) (perm k).

Lemma mappages_kernel s own d k :
  space_inv s own → own !! d = Some Dir → kmap_wf KERNBASE [k] →
  (∀ va, is_u32 va → virt k <= va / 4096 * 4096 → pte_at (ram s) d va = 0) →
  ∃ r s' own', mappages s d (virt k) (kmap_size k) (phys_start k) (perm k) = Ok (r, s')
    ∧ evolves (range d (virt k) (virt k + kmap_size k)) (λ _, False) s own s' own'
    ∧ (∀ hi p, took d hi own own' p)
    ∧ (r = -1 ∧ full own' ∨ r = 0 ∧ kmapped (ram s') d k).
Proof.
  intros Hinv Hd (Hv & Hval & Hs0 & Hsal & Hend & Hp & Hpal & Hperm & _) Hun.
  unfold mappages. unfold KERNBASE in Hv.
  rewrite (PGROUNDDOWN_aligned (virt k)) by (done || (unfold is_u32; lia)).
  pose proof (Z_div_exact_full_2 (virt k) 4096 ltac:(lia) Hval) as Ev.
  pose proof (Z_div_exact_full_2 (kmap_size k) 4096 ltac:(lia) Hsal) as Es.
  set (n := Z.to_nat (kmap_size k / 4096 - 1)).
  assert (Z.of_nat n = kmap_size k / 4096 - 1) as En by (unfold n; lia).
  assert (PGROUNDDOWN (u32 (virt k + kmap_size k - 1)) = virt k + 4096 * Z.of_nat n) as ->.
  { rewrite u32_small by (unfold is_u32; lia).
    rewrite PGROUNDDOWN_mod by (unfold is_u32; lia).
    replace (virt k + kmap_size k - 1) with (4095 + (virt k / 4096 + kmap_size k / 4096 - 1) * 4096) by lia.
    rewrite Z_mod_plus_full. change (4095 mod 4096) with 4095. lia. }
  assert (Z.to_nat (u32 (virt k + 4096 * Z.of_nat n - virt k) / PGSIZE) = n) as ->.
  { rewrite u32_small by (unfold is_u32; lia). unfold PGSIZE.
    replace (virt k + 4096 * Z.of_nat n - virt k) with (Z.of_nat n * 4096) by lia.
    rewrite Z.div_mul by lia. lia. }
  destruct (map_kernel_loop d (perm k) (virt k + 4096 * Z.of_nat n) n s own (virt k) (phys_start k))
    as (r & s' & own' & -> & Hev & Htk & Hr);
    [done|done|unfold KERNBASE; lia|unfold is_u32; lia|done|done|done|done|done| |].
  { intros va Hva Hb. apply Hun; [done|lia]. }
  exists r, s', own'. split_and!; [done| |done|].
  - eapply evolves_mono; [| |exact Hev]; [|naive_solver]. unfold range. intros d' j [-> ?].
    split; [done|lia].
  - destruct Hr as [[-> Hf]|[-> Hr]]; [by left|right]. split; [done|]. intros va Hva Hb.
    apply Hr; [done|]. lia.
Qed.

Lemma kmap_wf_lower lo lo' ks : lo' <= lo → kmap_wf lo ks → kmap_wf lo' ks.
Proof. destruct ks; simpl; [done|]. intros ? (? & ?). split; [lia|done]. Qed.

Lemma kmap_wf_cons lo k ks : kmap_wf lo (k :: ks) → kmap_wf lo [k] ∧ kmap_wf (virt k + kmap_size k) ks.
Proof. simpl. tauto. Qed.

(** The loop of [setupkvm]: on success every region is mapped and nothing
    below [lo] changed; on failure the whole new directory is given back. *)
Lemma setupkvm_loop_spec d ks lo s own :
  space_inv s own → own !! d = Some Dir → KERNBASE <= lo → kmap_wf lo ks →
  (∀ va, is_u32 va → lo <= va / 4096 * 4096 → pte_at (ram s) d va = 0) →
  ∃ r s' own', setupkvm_loop s d ks = Ok (r, s') ∧
    ((r = 0 ∧ evolves (λ d' _, d' = d) (λ q, q = d) s own s' own' ∧ gave_back d 0 own own')
     ∨ (r = d ∧ evolves (range d lo (2 ^ 32)) (λ _, False) s own s' own'
        ∧ Forall (kmapped (ram s') d) ks ∧ ∀ hi p, took d hi own own' p)).
Proof.
  revert lo s own. induction ks as [|k ks IH]; intros lo s own Hinv Hd Hlo Hwf Hun;
    cbn [Vm.setupkvm_loop].
  { exists d, s, own. split; [done|right]. split_and!; [done|by apply evolves_refl|done|intros; apply took_refl]. }
  destruct (kmap_wf_cons _ _ _ Hwf) as [Hk Hks]. pose proof Hk as (Hv & _ & Hs & _ & He & _).
  destruct (mappages_kernel s own d k Hinv Hd) as (r & s1 & own1 & Hm & Hev1 & Htk1 & Hr);
    [by eapply kmap_wf_lower|intros; apply Hun; [done|lia]|].
  fold (kmap_size k). rewrite Hm, bind_Ok.
  pose proof (ev_inv _ _ _ _ _ _ Hev1) as Hinv1.
  pose proof (ev_dir _ _ _ _ _ _ Hev1 d Hd ltac:(tauto)) as Hd1.
  destruct Hr as [[-> Hfull]|[-> Hmk]].
  - cbn [Z.ltb]. destruct (freevm_spec s1 own1 d Hinv1 Hd1) as (s2 & own2 & -> & Hev2 & Ho2).
    rewrite bind_Ok. exists 0, s2, own2. split; [done|left]. split_and!; [done| |].
    + eapply evolves_mono; [| |exact (evolves_trans _ _ _ _ _ _ _ _ _ _ Hev1 Hev2)];
        unfold range; naive_solver.
    + split; [|by exists own1]. eapply starved_took; [apply Htk1|by eapply full_starved].
  - cbn [Z.ltb]. destruct (IH (virt k + kmap_size k) s1 own1 Hinv1 Hd1) as (r & s' & own' & -> & Hc);
      [lia|done| |].
    { intros va Hva Hb. rewrite (ev_pte _ _ _ _ _ _ Hev1) by (done || tauto || (unfold range; lia)).
      apply Hun; [done|lia]. }
    exists r, s', own'. split; [done|].
    destruct Hc as [(-> & Hev2 & Hgb)|(-> & Hev2 & HF & Htk2)]; [left|right]; split_and!; try done.
    + eapply evolves_mono; [| |exact (evolves_trans _ _ _ _ _ _ _ _ _ _ Hev1 Hev2)];
        unfold range; naive_solver.
    + by eapply gave_back_took.
    + eapply evolves_mono; [| |exact (evolves_trans _ _ _ _ _ _ _ _ _ _ Hev1 Hev2)];
        unfold range; [|naive_solver]. intros d' n [[-> ?]|[-> ?]]; split; (done || lia).
    + constructor; [|done]. intros va Hva Hb.
      rewrite (ev_pte _ _ _ _ _ _ Hev2); [by apply Hmk|done|tauto|done|unfold range; lia].
    + intros hi q. eapply took_trans; [apply Htk1|apply Htk2].
Qed.

(** [data] comes right after the kernel text, on a page boundary (kernel.ld). *)
Definition kdata_ok : Prop :=
  KERNLINK < kdata < KERNBASE + PHYSTOP ∧ kdata mod 4096 = 0.

Lemma kmap_ok : kdata_ok → kmap_wf KERNBASE (kmap kdata).
Proof.
  intros [Hr Hal]. unfold KERNLINK, KERNBASE, EXTMEM, PHYSTOP in Hr.
  assert (V2P kdata = kdata - KERNBASE) as HV by (apply V2P_kern; unfold KERNBASE; lia).
  assert (V2P KERNLINK = EXTMEM) as HL by done.
  assert ((kdata - 2147483648) mod 4096 = 0) as Ha by (by rewrite Zminus_mod, Hal).
  unfold kmap, kmap_wf, kmap_size. cbn [virt phys_start phys_end perm].
  rewrite HV, HL. unfold KERNLINK, KERNBASE, EXTMEM, PHYSTOP, DEVSPACE, PTE_W, is_u32 in *.
  change (u32 (0 - 4261412864)) with 33554432. change (u32 (1048576 - 0)) with 1048576.
  rewrite (u32_small (kdata - 2147483648 - 1048576)) by (unfold is_u32; lia).
  rewrite (u32_small (234881024 - (kdata - 2147483648))) by (unfold is_u32; lia).
  apply Z_div_exact_full_2 in Hal; [|lia].
  assert ((kdata - 2147483648 - 1048576) mod 4096 = 0) by (by rewrite Zminus_mod, Ha).
  assert ((234881024 - (kdata - 2147483648)) mod 4096 = 0) by (by rewrite Zminus_mod, Ha).
  assert (kdata mod 4096 = 0) by (rewrite Hal, Z.mul_comm; apply Z_mod_mult).
  split_and!; done || lia.
Qed.

Lemma setupkvm_spec s own :
  space_inv s own → kdata_ok →
  ∃ r s' own', setupkvm s = Ok (r, s')
    ∧ evolves (λ _ _, False) (λ _, False) s own s' own'
    ∧ (r = 0 ∧ own' = own ∧ short 0 own
       ∨ r ≠ 0 ∧ own !! r = Some Free ∧ own' !! r = Some Dir
        ∧ (∀ va, user_va va → pte_at (ram s') r va = 0)
        ∧ Forall (kmapped (ram s') r) (kmap kdata)
        ∧ ∀ hi p, took r hi (<[r := Dir]> own) own' p).
Proof.
  intros Hinv Hkd. unfold Vm.setupkvm.
  destruct (kalloc_inv s own Hinv) as (d & s1 & Hk & Hram & Hcase). rewrite Hk, bind_Ok.
  destruct Hcase as [[-> ->]|(Hfree & Hd0 & _)].
  { exists 0, s, own. split_and!; [done|by apply evolves_refl|left]. split_and!; [done|done|]. left. by eapply kalloc_full. }
  destruct (Z.eqb_spec d 0); [done|].
  change (DEVSPACE <? P2V PHYSTOP) with false.
  destruct (alloc_zeroed s own d s1 Hinv Hk Hd0) as (_ & Hev1 & Hz).
  set (s2 := set_ram s1 (memset (ram s1) d 0 PGSIZE)) in *.
  pose proof (new_dir_inv s2 _ d (ev_inv _ _ _ _ _ _ Hev1) (lookup_insert_eq own d Priv) Hz) as Hinv2.
  rewrite insert_insert_eq in Hinv2.
  assert (evolves (λ _ _, False) (λ _, False) s own s2 (<[d := Dir]> own)) as Hev2.
  { destruct Hev1 as [_ D P A]. split; [done| |done|].
    - intros d' Hd' _. rewrite lookup_insert_ne; [done|congruence].
    - intros p r Hp _ Hr. assert (p ≠ d) by (intros ->; naive_solver).
      split; [by rewrite lookup_insert_ne|]. by apply (A p r Hp ltac:(tauto) Hr). }
  assert (∀ va, is_u32 va → pte_at (ram s2) d va = 0) as Hzero.
  { intros va Hva. unfold pte_at. rewrite (load32_fill _ _ 0); [done|].
    intros b Hb. apply Hz. pose proof (PDX_range va Hva). unfold in_page. lia. }
  destruct (setupkvm_loop_spec d (kmap kdata) KERNBASE s2 (<[d := Dir]> own) Hinv2
    (lookup_insert_eq own d Dir) (Z.le_refl _) (kmap_ok Hkd)) as (r & s' & own' & -> & Hc); [auto|].
  exists r, s', own'. split; [done|].
  destruct Hc as [(-> & Hev3 & Hgb)|(-> & Hev3 & HF & Htk)]; split.
  - apply (evolves_new (λ d' n, False ∨ d' = d) _ (λ q, False ∨ q = d));
      [done|intros ? ? Hdir [[]| ->]; congruence|naive_solver|exact (evolves_trans _ _ _ _ _ _ _ _ _ _ Hev2 Hev3)].
  - left. split_and!; [done|by eapply gave_back_all|]. right. exists d. split; [done|apply Hgb].
  - apply (evolves_new (λ d' n, False ∨ range d KERNBASE (2 ^ 32) d' n) _ (λ q, False ∨ False));
      [done| |naive_solver|exact (evolves_trans _ _ _ _ _ _ _ _ _ _ Hev2 Hev3)].
    intros d' n' Hdir [[]|[-> _]]. congruence.
  - right. split_and!; [done|done| | |done|done].
    + apply (ev_dir _ _ _ _ _ _ Hev3); [apply lookup_insert_eq|tauto].
    + intros va Hu. pose proof (user_va_u32 va Hu) as Hva.
      rewrite (ev_pte _ _ _ _ _ _ Hev3); [by apply Hzero|apply lookup_insert_eq|tauto|done|].
      unfold range, user_va in *. pose proof (Z.div_mod va 4096).
      pose proof (Z.mod_pos_bound va 4096). lia.
Qed.

(** ** Copying an address space *)

#[local] Abbreviation copyuvm_loop := (copyuvm_loop kend).
#[local] Abbreviation copyuvm := (copyuvm kend kdata).

Lemma flag_FLAGS e mask : is_u32 e → Z.land 4095 mask = mask → flag (PTE_FLAGS e) mask = flag e mask.
Proof.
  intros He Hm. unfold flag, PTE_FLAGS. rewrite u32_small by done.
  by rewrite <- Z.land_assoc, Hm.
Qed.

Lemma lor_absorb a n : 0 <= n → Z.testbit a n = true → Z.lor a (2 ^ n) = a.
Proof.
  intros Hn Hb. apply Z.bits_inj'. intros i Hi. rewrite Z.lor_spec, Z.pow2_bits_eqb by lia.
  destruct (Z.eqb_spec n i) as [<-|]; [by rewrite Hb|apply orb_false_r].
Qed.

(** [mappages] with the flags of an existing entry reproduces those flags. *)
Lemma map_entry_same_flags e p :
  is_u32 e → mapped e = true → valid_page kend p →
  PTE_FLAGS (map_entry (V2P p) (PTE_FLAGS e)) = PTE_FLAGS e.
Proof.
  intros He Hm Hp.
  assert (0 <= PTE_FLAGS e < 4096) as Hr.
  { rewrite PTE_FLAGS_mod by done. by apply Z.mod_pos_bound. }
  destruct (map_entry_spec p (PTE_FLAGS e) Hp Hr) as (_ & _ & _ & ->).
  rewrite flag_FLAGS by done. unfold mapped in Hm. rewrite flag_lor in Hm.
  destruct (flag e PTE_E) eqn:EE.
  - apply (lor_absorb _ 10); [done|]. rewrite <- flag_testbit by done.
    change (2 ^ 10) with PTE_E. by rewrite flag_FLAGS.
  - rewrite orb_false_r in Hm. apply (lor_absorb _ 0); [done|].
    rewrite <- flag_testbit by done. change (2 ^ 0) with PTE_P. by rewrite flag_FLAGS.
Qed.

(** The child [d] has, at [va], a private copy of the parent's page with the
    parent's flags. *)
Definition copied_page (s : kst) (own : owners) (pd d va : Z) : Prop :=
  ∃ p q, own !! p = Some (User pd (va / 4096)) ∧ own !! q = Some (User d (va / 4096))
    ∧ P2V (PTE_ADDR (pte_at (ram s) pd va)) = p ∧ P2V (PTE_ADDR (pte_at (ram s) d va)) = q
    ∧ PTE_FLAGS (pte_at (ram s) d va) = PTE_FLAGS (pte_at (ram s) pd va)
    ∧ ∀ k, 0 <= k < 4096 → getb (ram s) (q + k) = getb (ram s) (p + k).

Lemma copied_evolves R s own s' own' pd d va :
  evolves R (λ _, False) s own s' own' → own !! pd = Some Dir → own !! d = Some Dir →
  is_u32 va → ¬ R pd (va / 4096) → ¬ R d (va / 4096) →
  copied_page s own pd d va → copied_page s' own' pd d va.
Proof.
  intros Hev Hpd Hd Hva HR1 HR2 (p & q & Hp & Hq & Ep & Eq & Hf & Hc).
  destruct (ev_data _ _ _ _ _ _ Hev p _ Hp ltac:(tauto)) as [Hp' Hagp]; [right; eauto|].
  destruct (ev_data _ _ _ _ _ _ Hev q _ Hq ltac:(tauto)) as [Hq' Hagq]; [right; eauto|].
  exists p, q. rewrite !(ev_pte _ _ _ _ _ _ Hev) by (done || tauto).
  split_and!; try done. intros k Hk. rewrite (Hagq (q + k)), (Hagp (p + k)) by (unfold in_page; lia).
  by apply Hc.
Qed.

Lemma pte_u32 m d va : is_u32 (pte_at m d va).
Proof. unfold pte_at. destruct (flag _ _); [apply load32_range|done]. Qed.

(** One page of the copy: allocation, [memmove] and [mappages]. *)
Lemma copy_page s own pd d va p mm s1 :
  space_inv s own → own !! pd = Some Dir → own !! d = Some Dir → user_va va →
  va mod 4096 = 0 → mapped (pte_at (ram s) pd va) = true →
  own !! p = Some (User pd (va / 4096)) → P2V (PTE_ADDR (pte_at (ram s) pd va)) = p →
  pte_at (ram s) d va = 0 → d ≠ pd → kalloc s = Ok (mm, s1) → mm ≠ 0 →
  ∃ r s3 own3,
    mappages (set_ram s1 (memmove (ram s1) mm p PGSIZE)) d va PGSIZE (V2P mm)
      (PTE_FLAGS (pte_at (ram s) pd va)) = Ok (r, s3) ∧
    ((r = -1 ∧ own3 = <[mm := Priv]> own ∧ own !! mm = Some Free ∧ full own3
        ∧ evolves (λ _ _, False) (λ _, False) s own s3 own3)
     ∨ (r = 0 ∧ evolves (at_page d va) (λ _, False) s own s3 own3
        ∧ copied_page s3 own3 pd d va ∧ ∀ hi q, va < hi → took d hi own own3 q)).
Proof.
  intros Hinv Hpd Hd Hu Hal Hm Hp HPp H0 Hne Hk Hmm. pose proof (user_va_u32 va Hu) as Hva.
  destruct (kalloc_inv s own Hinv) as (mm' & s1' & Hk' & Hram & Hcase).
  rewrite Hk in Hk'. injection Hk' as <- <-.
  destruct Hcase as [[? _]|(Hfree & _ & Hinv1)]; [done|].
  pose proof (si_valid s own Hinv mm _ Hfree) as Hvm.
  pose proof (si_valid s own Hinv p _ Hp) as Hvp.
  assert (mm ≠ p) as Hmp by congruence.
  set (m2 := memmove (ram s1) mm p PGSIZE).
  assert (∀ b, getb m2 b = if decide (mm <= b < mm + 4096) then getb (ram s) (p + (b - mm))
    else getb (ram s) b) as Hm2.
  { intros b. unfold m2, PGSIZE. rewrite getb_memmove by lia. by rewrite Hram. }
  assert (evolves (λ _ _, False) (λ _, False) s own (set_ram s1 m2) (<[mm := Priv]> own)) as Hev1.
  { apply (kalloc_zero_inv s own mm s1); [done|done|done|done|].
    intros q (Hq & _) Hqm b Hb. rewrite Hm2. rewrite decide_False; [done|]. intros Hb'.
    apply (pages_disjoint q mm b Hq (proj1 Hvm) Hqm Hb). unfold in_page. lia. }
  pose proof (ev_inv _ _ _ _ _ _ Hev1) as Hinv2.
  pose proof (ev_dir _ _ _ _ _ _ Hev1 d Hd ltac:(tauto)) as Hd2.
  assert (0 <= PTE_FLAGS (pte_at (ram s) pd va) < 4096) as Hfl.
  { rewrite PTE_FLAGS_mod by apply pte_u32. by apply Z.mod_pos_bound. }
  assert (pte_at (ram (set_ram s1 m2)) d va = 0) as H02.
  { by rewrite (ev_pte _ _ _ _ _ _ Hev1) by (done || tauto). }
  destruct (mappages_user (set_ram s1 m2) _ d va mm _ Hinv2 Hd2 Hu Hal H02
    (lookup_insert_eq own mm Priv) Hfl)
    as [(s3 & own3 & -> & Hev3 & -> & Hfull)|(s3 & own3 & -> & Hev3 & Hq3 & Hag3 & He3 & Htk)].
  - exists (-1), s3, (<[mm := Priv]> own). split; [done|left]. split_and!; [done|done|done|done|].
    eapply evolves_mono; [| |exact (evolves_trans _ _ _ _ _ _ _ _ _ _ Hev1 Hev3)]; naive_solver.
  - exists 0, s3, own3. split; [done|right].
    assert (evolves (at_page d va) (λ _, False) s own s3 own3) as Hev.
    { eapply evolves_mono; [| |exact (evolves_trans _ _ _ _ _ _ _ _ _ _ Hev1 Hev3)]; naive_solver. }
    split_and!; [done|done| |].
    2:{ intros hi q Hhi. destruct (decide (q = mm)) as [->|Hq].
      - right. split; [done|]. right. exists (va / 4096). split; [done|]. pose proof (page_aligned_div va Hal). lia.
      - pose proof (Htk hi q Hq) as Ht. unfold took in *. by rewrite lookup_insert_ne in Ht by done. }
    destruct (ev_data _ _ _ _ _ _ Hev p _ Hp ltac:(tauto)) as [Hp3 Hagp].
    { right. exists pd, (va / 4096). split; [done|]. unfold at_page. naive_solver. }
    destruct (map_entry_spec mm _ Hvm Hfl) as (_ & _ & HPmm & _).
    assert (pte_at (ram s3) pd va = pte_at (ram s) pd va) as Epd.
    { apply (ev_pte _ _ _ _ _ _ Hev); [done|tauto|done|]. unfold at_page. naive_solver. }
    exists p, mm. rewrite Epd, He3. split_and!; try done.
    + apply map_entry_same_flags; [apply pte_u32|done|done].
    + intros k Hk3. rewrite (Hag3 (mm + k)), (Hagp (p + k)) by (unfold in_page; lia).
      cbn [ram set_ram].
      rewrite Hm2, decide_True by lia. f_equal. lia.
Qed.

Lemma copy_loop_spec pd d sz fuel s own i :
  space_inv s own → own !! pd = Some Dir → own !! d = Some Dir → d ≠ pd →
  0 <= i → i mod 4096 = 0 → sz <= KERNBASE → sz - i <= 4096 * Z.of_nat fuel →
  (∀ va, is_u32 va → i <= va / 4096 * 4096 < sz → mapped (pte_at (ram s) pd va) = true) →
  (∀ va, is_u32 va → i <= va / 4096 * 4096 < sz → pte_at (ram s) d va = 0) →
  ∃ r s' own', copyuvm_loop s pd d i sz fuel = Ok (r, s') ∧
    ((r = 0 ∧ evolves (λ d' _, d' = d) (λ q, q = d) s own s' own' ∧ gave_back d sz own own')
     ∨ (r = d ∧ evolves (range d i sz) (λ _, False) s own s' own'
        ∧ (∀ va, is_u32 va → i <= va / 4096 * 4096 < sz → copied_page s' own' pd d va)
        ∧ ∀ q, took d sz own own' q)).
Proof.
  revert s own i. induction fuel as [|fuel IH];
    intros s own i Hinv Hpd Hd Hne Hi Hal Hsz Hfuel Hmap Hun; cbn [Vm.copyuvm_loop].
  { destruct (Z.ltb_spec i sz); [lia|]. exists d, s, own. split; [done|right].
    split_and!; [done|by apply evolves_refl|lia|intros; apply took_refl]. }
  destruct (Z.ltb_spec i sz) as [Hlt|Hge].
  2:{ exists d, s, own. split; [done|right]. split_and!; [done|by apply evolves_refl|lia|intros; apply took_refl]. }
  assert (user_va i) as Hu by (unfold user_va; lia).
  pose proof (user_va_u32 i Hu) as Hu32. pose proof (page_aligned_div i Hal) as Hdiv.
  pose proof (Hmap i Hu32 ltac:(lia)) as Hm. pose proof (Hun i Hu32 ltac:(lia)) as H0.
  rewrite walk_noalloc, bind_Ok.
  destruct (user_pte_cases s own pd i Hinv Hpd Hu) as [E|[_ Hp]]; [by rewrite E in Hm|].
  destruct (pte_cases s own pd i Hinv Hpd Hu32)
    as [(_ & E & _)|(t & Ht & Hvt & _ & Hpte & -> & _)]; [by rewrite E in Hm|].
  destruct (Z.eqb_spec (t + 4 * PTX i) 0) as [E|_];
    [by destruct (valid_nonzero t (PTX i) Hvt (proj1 (PTX_range i)))|].
  rewrite <- Hpte. fold (mapped (pte_at (ram s) pd i)). rewrite Hm. cbn [negb].
  destruct (kalloc_inv s own Hinv) as (mm & s1 & Hk & Hram & Hcase). rewrite Hk, bind_Ok.
  destruct Hcase as [[-> ->]|(_ & Hmm & _)].
  { cbn [Z.eqb]. destruct (freevm_spec s own d Hinv Hd) as (s2 & own2 & -> & Hev2 & Ho2).
    rewrite bind_Ok. exists 0, s2, own2. split; [done|left]. split_and!; [done|done|]. split.
    - eapply full_starved; [done|by eapply kalloc_full].
    - exists own. split; [intros; apply took_refl|done]. }
  destruct (Z.eqb_spec mm 0); [done|].
  destruct (copy_page s own pd d i _ mm s1 Hinv Hpd Hd Hu Hal Hm Hp eq_refl H0 Hne Hk Hmm)
    as (r & s3 & own3 & -> & [(-> & -> & Hfree & Hfull & Hev3)|(-> & Hev3 & Hcp & Htk3)]); rewrite bind_Ok;
    pose proof (ev_inv _ _ _ _ _ _ Hev3) as Hinv3;
    pose proof (ev_dir _ _ _ _ _ _ Hev3 d Hd ltac:(tauto)) as Hd3; cbn [Z.ltb].
  - pose proof (lookup_insert_eq own mm Priv) as Hmm3.
    destruct (kfree_inv s3 _ mm Hinv3 Hmm3) as (s4 & Hk4 & Hinv4 & _). rewrite Hk4, bind_Ok.
    pose proof (kfree_evolves s3 _ mm s4 Hinv3 Hmm3 Hk4) as Hev4.
    assert (mm ≠ d) by congruence.
    destruct (freevm_spec s4 _ d Hinv4) as (s5 & own5 & -> & Hev5 & Ho5);
      [by rewrite lookup_insert_ne|]. rewrite bind_Ok.
    exists 0, s5, own5. split; [done|left]. split_and!; [done| |].
    2:{ split.
      - exists s3, (<[mm := Priv]> own), mm. split_and!; [done|done|]. intros q Hq. left. by rewrite lookup_insert_ne.
      - exists own. split; [intros; apply took_refl|]. intros q. by rewrite Ho5, insert_insert_eq, insert_id. }
    eapply evolves_mono; [| |exact (evolves_trans _ _ _ _ _ _ _ _ _ _ Hev3
      (evolves_trans _ _ _ _ _ _ _ _ _ _ Hev4 Hev5))]; [by intros ? ? [[]|[[]|?]]|].
    intros q [[]|[->|?]]; auto.
  - assert (u32 (i + PGSIZE) = i + PGSIZE) as ->.
    { apply u32_small. unfold is_u32, user_va, KERNBASE, PGSIZE in *. lia. }
    pose proof (ev_dir _ _ _ _ _ _ Hev3 pd Hpd ltac:(tauto)) as Hpd3.
    destruct (IH s3 own3 (i + PGSIZE) Hinv3 Hpd3 Hd3 Hne) as (r & s' & own' & -> & Hc);
      [unfold PGSIZE; lia|by apply aligned_next|done|unfold PGSIZE; lia| | |].
    { intros va Hva Hr. unfold PGSIZE in Hr.
      rewrite (ev_pte _ _ _ _ _ _ Hev3) by (done || tauto || (unfold at_page; naive_solver)).
      apply Hmap; [done|lia]. }
    { intros va Hva Hr. unfold PGSIZE in Hr.
      rewrite (ev_pte _ _ _ _ _ _ Hev3) by (done || tauto || (unfold at_page; lia)).
      apply Hun; [done|lia]. }
    exists r, s', own'. split; [done|].
    destruct Hc as [(-> & Hev4 & Hgb)|(-> & Hev4 & Hall & Htk4)]; [left|right]; split_and!; try done.
    + eapply evolves_mono; [| |exact (evolves_trans _ _ _ _ _ _ _ _ _ _ Hev3 Hev4)];
        unfold at_page; [by intros ? ? [[-> _]|?]|]. intros q [[]|?]; auto.
    + eapply gave_back_took; [|exact Hgb]. intros q. by apply Htk3.
    + eapply evolves_mono; [| |exact (evolves_trans _ _ _ _ _ _ _ _ _ _ Hev3 Hev4)];
        [|intros q [[]|[]]].
      unfold at_page, range, PGSIZE. intros d' k [[-> ->]|[-> ?]]; split; (done || lia).
    + intros va Hva Hr. destruct (Z.eq_dec (va / 4096) (i / 4096)) as [E|E].
      * destruct (copied_evolves _ _ _ _ _ pd d i Hev4 Hpd3 Hd3 Hu32)
          as (p & q & Hcp'); [unfold range; naive_solver|unfold range, PGSIZE; lia|done|].
        exists p, q. by rewrite E, !(pte_at_page _ _ va i).
      * apply Hall; [done|]. unfold PGSIZE. lia.
    + intros q. eapply took_trans; [by apply Htk3|apply Htk4].
Qed.

Lemma copyuvm_spec s own pd sz :
  space_inv s own → kdata_ok → own !! pd = Some Dir → 0 <= sz <= KERNBASE →
  (∀ va, is_u32 va → va / 4096 * 4096 < sz → mapped (pte_at (ram s) pd va) = true) →
  ∃ r s' own', copyuvm s pd sz = Ok (r, s')
    ∧ evolves (λ _ _, False) (λ _, False) s own s' own'
    ∧ (r = 0 ∧ own' = own ∧ short sz own
       ∨ r ≠ 0 ∧ own !! r = Some Free ∧ own' !! r = Some Dir
        ∧ (∀ va, is_u32 va → va / 4096 * 4096 < sz → copied_page s' own' pd r va)
        ∧ (∀ va, user_va va → sz <= va / 4096 * 4096 → pte_at (ram s') r va = 0)
        ∧ ∀ q, took r sz (<[r := Dir]> own) own' q).
Proof.
  intros Hinv Hkd Hpd Hsz Hmap. unfold Vm.copyuvm.
  destruct (setupkvm_spec s own Hinv Hkd) as (d & s1 & own1 & -> & Hev1 & Hc). rewrite bind_Ok.
  destruct Hc as [(-> & -> & Hshort)|(Hd0 & Hfree & Hd & Hz & _ & Htk1)].
  { exists 0, s1, own. split_and!; [done|done|left]. split_and!; [done|done|]. by eapply short_mono; [|done]; lia. }
  destruct (Z.eqb_spec d 0); [done|].
  assert (d ≠ pd) as Hne by congruence.
  pose proof (ev_inv _ _ _ _ _ _ Hev1) as Hinv1.
  pose proof (ev_dir _ _ _ _ _ _ Hev1 pd Hpd ltac:(tauto)) as Hpd1.
  assert (∀ va, is_u32 va → 0 <= va / 4096 * 4096) as Hnn.
  { intros va Hva. pose proof (Z.div_pos va 4096). unfold is_u32 in Hva. lia. }
  assert (∀ va, is_u32 va → va / 4096 * 4096 < sz → user_va va) as Huser.
  { intros va Hva Hr. unfold user_va. unfold is_u32, KERNBASE in *. pose proof (Z.div_mod va 4096).
    pose proof (Z.mod_pos_bound va 4096). split; [lia|].
    destruct (Z_lt_le_dec (va / 4096) 524288); lia. }
  destruct (copy_loop_spec pd d sz (S (Z.to_nat (sz / PGSIZE))) s1 own1 0)
    as (r & s' & own' & -> & Hc); [done|done|done|done|done|done|lia| | | |].
  { unfold PGSIZE. pose proof (Z.div_mod sz 4096). pose proof (Z.mod_pos_bound sz 4096). lia. }
  { intros va Hva [_ Hr]. rewrite (ev_pte _ _ _ _ _ _ Hev1) by (done || tauto). by apply Hmap. }
  { intros va Hva [_ Hr]. apply Hz, Huser; done. }
  exists r, s', own'. split; [done|].
  destruct Hc as [(-> & Hev2 & Hgb)|(-> & Hev2 & Hall & Htk2)]; split.
  - apply (evolves_new (λ d' n, False ∨ d' = d) _ (λ q, False ∨ q = d));
      [done|intros ? ? Hdir [[]| ->]; congruence| |exact (evolves_trans _ _ _ _ _ _ _ _ _ _ Hev1 Hev2)].
    intros q [[]| ->]. auto.
  - left. assert (gave_back d sz (<[d := Dir]> own) own') as Hg by (eapply gave_back_took; [intros; apply Htk1|done]).
    split_and!; [done|by eapply gave_back_all|]. right. exists d. split; [done|apply Hg].
  - apply (evolves_new (λ d' n, False ∨ range d 0 sz d' n) _ (λ q, False ∨ False));
      [done| |intros q [[]|[]]|exact (evolves_trans _ _ _ _ _ _ _ _ _ _ Hev1 Hev2)].
    intros d' n' Hdir [[]|[-> _]]. congruence.
  - right. split_and!; [done|done| | | |].
    + apply (ev_dir _ _ _ _ _ _ Hev2 d Hd). tauto.
    + intros va Hva Hr. apply Hall; [done|]. split; [by apply Hnn|done].
    + intros va Hu Hr. rewrite (ev_pte _ _ _ _ _ _ Hev2); [by apply Hz|done|tauto|by apply user_va_u32|].
      unfold range. lia.
    + intros q. eapply took_trans; [apply Htk1|apply Htk2].
Qed.

(** ** The machine after boot *)

Definition all_free (fl : list Z) : owners := list_to_map ((λ p, (p, Free)) <$> fl).

Lemma lookup_all_free fl p r : all_free fl !! p = Some r ↔ p ∈ fl ∧ r = Free.
Proof.
  unfold all_free. induction fl as [|x fl IH]; simpl.
  - rewrite lookup_empty. set_solver.
  - rewrite lookup_insert_Some, elem_of_cons, IH. destruct (decide (x = p)) as [->|]; naive_solver.
Qed.

Lemma boot_inv s fl : kmem_ok kend s fl → space_inv s (all_free fl).
Proof.
  intros Hok. pose proof (ok_valid kend s fl Hok) as Hv. rewrite Forall_forall in Hv.
  split; try (intros * [_ ?]%lookup_all_free; done).
  - exists fl. split; [done|]. intros p. rewrite lookup_all_free. naive_solver.
  - intros p r [Hp _]%lookup_all_free. by apply Hv.
Qed.

(** The first allocation of a page directory. *)
Lemma boot_dir s fl p s1 :
  kmem_ok kend s (p :: fl) → kalloc s = Ok (p, s1) →
  space_inv (set_ram s1 (memset (ram s1) p 0 PGSIZE)) (<[p := Dir]> (all_free (p :: fl)))
  ∧ ∀ va, is_u32 va → pte_at (memset (ram s1) p 0 PGSIZE) p va = 0.
Proof.
  intros Hok Hk. pose proof (boot_inv s _ Hok) as Hinv.
  assert (all_free (p :: fl) !! p = Some Free) as Hp by (apply lookup_all_free; set_solver).
  assert (p ≠ 0) as Hp0.
  { pose proof (valid_nonzero p 0 (si_valid _ _ Hinv p _ Hp)). lia. }
  destruct (alloc_zeroed s _ p s1 Hinv Hk Hp0) as (_ & Hev & Hz). split.
  - pose proof (new_dir_inv _ _ p (ev_inv _ _ _ _ _ _ Hev) (lookup_insert_eq _ p Priv) Hz) as H.
    by rewrite insert_insert_eq in H.
  - intros va Hva. unfold pte_at. rewrite (load32_fill _ _ 0); [done|].
    intros b Hb. apply Hz. pose proof (PDX_range va Hva). unfold in_page. lia.
Qed.

End VmSpec.

(** A machine with seven free pages and one empty page directory. *)
Definition demo_top : Z := demo_kend + 8 * PGSIZE.
Definition demo_fl : list Z := rev (range_pages demo_kend demo_top).
Definition demo_s0 : kst :=
  match kinit1 demo_kend demo_boot demo_kend demo_top with Ok s => s | _ => demo_boot end.
Definition demo_d : Z := demo_kend + 7 * PGSIZE.
Definition demo_s : kst :=
  match kalloc demo_s0 with
  | Ok (p, s) => set_ram s (memset (ram s) p 0 PGSIZE)
  | _ => demo_s0
  end.
Definition demo_own : gmap Z role := <[demo_d := Dir]> (all_free demo_fl).

Lemma demo_kend_ok : KERNLINK <= demo_kend.
Proof. vm_compute. congruence. Qed.

Lemma demo_ok :
  space_inv demo_kend demo_s demo_own ∧ demo_own !! demo_d = Some Dir
  ∧ ∀ va, is_u32 va → pte_at (ram demo_s) demo_d va = 0.
Proof.
  destruct (kinit1_pool demo_kend demo_boot demo_kend demo_top demo_kend_ok)
    as (s0 & Hi & _ & Hok); [vm_compute; split; congruence|vm_compute; congruence|done|].
  assert (demo_s0 = s0) as <- by (unfold demo_s0; by rewrite Hi).
  fold demo_fl in Hok.
  assert (demo_fl = demo_d :: tail demo_fl) as Efl by (vm_compute; reflexivity).
  pose proof (kalloc_spec demo_kend demo_kend_ok demo_s0 demo_fl Hok) as Hk.
  rewrite Efl in Hk, Hok. destruct Hk as (s1 & Hk & _).
  destruct (boot_dir demo_kend demo_kend_ok demo_s0 _ demo_d s1 Hok Hk) as [Hinv Hz].
  assert (demo_s = set_ram s1 (memset (ram s1) demo_d 0 PGSIZE)) as ->
    by (unfold demo_s; by rewrite Hk).
  unfold demo_own. rewrite Efl. split_and!; [done|apply lookup_insert_eq|done].
Qed.

Lemma allocuvm_spec kend s own d oldsz newsz :
  KERNLINK <= kend → space_inv kend s own → own !! d = Some Dir →
  0 <= oldsz <= newsz → newsz < KERNBASE →
  (∀ va, is_u32 va → PGROUNDUP oldsz <= va / 4096 * 4096 < newsz → pte_at (ram s) d va = 0) →
  ∃ r s' own', allocuvm kend s d oldsz newsz = Ok (r, s')
    ∧ evolves kend (range d (PGROUNDUP oldsz) newsz) (λ _, False) s own s' own'
    ∧ ((r = newsz ∧ (∀ va, is_u32 va → PGROUNDUP oldsz <= va / 4096 * 4096 < newsz →
          fresh_page s' own' d va) ∧ ∀ p, took d newsz own own' p)
       ∨ (r = 0 ∧ (∀ va, is_u32 va → PGROUNDUP oldsz <= va / 4096 * 4096 < newsz →
          pte_at (ram s') d va = 0) ∧ starved kend d newsz own
          ∧ (no_users own d (PGROUNDUP oldsz) newsz → ∀ p, took d newsz own own' p))).
Proof.
  intros Hk Hinv Hd Hold Hnew Hun. unfold allocuvm.
  destruct (Z.leb_spec KERNBASE newsz); [lia|]. destruct (Z.ltb_spec newsz oldsz); [lia|].
  destruct (PGROUNDUP_user oldsz) as (Hb & Hal & _); [lia|].
  destruct (alloc_loop_spec kend Hk d oldsz newsz
    (S (Z.to_nat ((newsz - PGROUNDUP oldsz) / PGSIZE))) s own (PGROUNDUP oldsz))
    as (r & s' & own' & E & Hc); try done.
  - unfold PGSIZE. pose proof (Z.div_mod (newsz - PGROUNDUP oldsz) 4096).
    pose proof (Z.mod_pos_bound (newsz - PGROUNDUP oldsz) 4096). lia.
  - exists r, s', own'. split; [done|]. destruct Hc as [(-> & Hev & Hf & Ht)|(-> & Hev & Hz & Hst & Ht)]; (split; [done|]).
    + left. done.
    + right. split_and!; [done|done|done|]. intros Hnu. apply Ht; [done|]. intros p. apply took_refl.
Qed.

Lemma demo_grow : ∃ s1, allocuvm demo_kend demo_s demo_d 0 8192 = Ok (8192, s1).
Proof.
  assert (match allocuvm demo_kend demo_s demo_d 0 8192 with
    | Ok (r, _) => r =? 8192 | _ => false end = true) as H by (vm_compute; reflexivity).
  destruct (allocuvm _ _ _ _ _) as [[r s1]| | |]; try discriminate.
  apply Z.eqb_eq in H as ->. eauto.
Qed.

(** * Properties *)

(** C7.  Growing an address space.  [allocuvm] always returns.  When it returns
    [newsz], exactly the pages from [PGROUNDUP(oldsz)] to [newsz] are newly
    mapped, each to a distinct zero-filled page that was free, writable and
    accessible to the user; every other mapping of every address space and the
    content of all other allocated pages is unchanged.  When memory runs out
    it returns 0 and the pages it had mapped are unmapped again. *)
Theorem allocuvm_correct kend s own d oldsz newsz :
  KERNLINK <= kend → space_inv kend s own → own !! d = Some Dir →
  0 <= oldsz <= newsz → newsz < KERNBASE →
  (∀ va, is_u32 va → PGROUNDUP oldsz <= va / 4096 * 4096 < newsz → pte_at (ram s) d va = 0) →
  ∃ r s' own', allocuvm kend s d oldsz newsz = Ok (r, s')
    ∧ evolves kend (range d (PGROUNDUP oldsz) newsz) (λ _, False) s own s' own'
    ∧ ((r = newsz ∧ ∀ va, is_u32 va → PGROUNDUP oldsz <= va / 4096 * 4096 < newsz →
          fresh_page s' own' d va)
       ∨ (r = 0 ∧ ∀ va, is_u32 va → PGROUNDUP oldsz <= va / 4096 * 4096 < newsz →
          pte_at (ram s') d va = 0)).
Proof.
  intros Hk Hinv Hd Hold Hnew Hun. destruct (allocuvm_spec kend s own d oldsz newsz Hk Hinv Hd Hold Hnew Hun) as (r & s' & own' & E & Hev & Hc).
  exists r, s', own'. split_and!; [done|done|]. destruct Hc as [(-> & Hf & _)|(-> & Hz & _)]; auto.
Qed.

(** C7 at the growth of an empty address space to two pages: it succeeds. *)
Lemma allocuvm_correct_witness :
  ∃ s' own', allocuvm demo_kend demo_s demo_d 0 8192 = Ok (8192, s')
    ∧ fresh_page s' own' demo_d 4096.
Proof.
  destruct demo_ok as (Hinv & Hd & Hz). destruct demo_grow as (s1 & E1).
  destruct (allocuvm_correct demo_kend demo_s demo_own demo_d 0 8192)
    as (r & s' & own' & E & _ & Hc);
    [apply demo_kend_ok|exact Hinv|exact Hd|lia|reflexivity|intros; by apply Hz|].
  rewrite E1 in E. injection E as <- <-. destruct Hc as [[_ Hf]|[? _]]; [|done].
  exists s1, own'. split; [done|]. apply Hf; vm_compute; split; congruence.
Defined.
