(* ===== verification/VmUser.v ===== *)
(** Shrinking, releasing and copying address spaces, and kernel access to user
    memory (src/p4/vm.c): properties of [deallocuvm], [freevm], [copyuvm],
    [uva2ka] and [copyout], on top of the invariant of VmSpec. *)

From Stdlib Require Import ZArith Lia.
From stdpp Require Import base numbers list gmap sets strings.
From S2P Require Import Prelude Mem Mmu Kalloc Vm VmSpec.
#[local] Open Scope Z_scope.

(** * The user's view of memory *)

(** The page is mapped, present or encrypted, and accessible to the user. *)
Definition user_ok (e : Z) : bool :=
  negb (Z.lor (Z.land e PTE_P) (Z.land e PTE_E) =? 0) && flag e PTE_U.

(** The kernel address that backs user address [va]. *)
Definition frame_of (m : mem) (d va : Z) : Z := P2V (PTE_ADDR (pte_at m d va)).
Definition user_addr (m : mem) (d va : Z) : Z := frame_of m d va + va mod 4096.
Definition user_byte (m : mem) (d va : Z) : Z := getb m (user_addr m d va).

Lemma user_ok_mapped e : user_ok e = true → mapped e = true.
Proof.
  unfold user_ok, mapped, flag. intros H. apply andb_true_iff in H as [H _].
  by rewrite <- Z.land_lor_distr_r in H.
Qed.

Lemma user_ok_alt e : user_ok e = mapped e && flag e PTE_U.
Proof. unfold user_ok, mapped. unfold flag at 2. by rewrite <- Z.land_lor_distr_r. Qed.

Section VmUser.
Context (kend : Z) (Hkend : KERNLINK <= kend).

Lemma frame_owned s own d va :
  space_inv kend s own → own !! d = Some Dir → user_va va →
  mapped (pte_at (ram s) d va) = true →
  own !! frame_of (ram s) d va = Some (User d (va / 4096)).
Proof using Hkend.
  intros Hinv Hd Hu Hm. unfold frame_of.
  destruct (user_pte_cases kend Hkend s own d va Hinv Hd Hu) as [H|[_ H]]; [|done].
  by rewrite H in Hm.
Qed.

(** [uva2ka] returns the frame of a user page, 0 for a page that is absent or
    not the user's, and reads through a null pointer when the page table itself
    is absent. *)
Lemma uva2ka_spec s own d va :
  space_inv kend s own → own !! d = Some Dir → is_u32 va →
  uva2ka s d va =
    if pte_addr (ram s) d va =? 0 then Fault 0
    else if user_ok (pte_at (ram s) d va) then Ok (frame_of (ram s) d va) else Ok 0.
Proof using Hkend.
  intros Hinv Hd Hva. unfold uva2ka. rewrite walk_noalloc, bind_Ok. unfold deref32.
  destruct (pte_cases kend Hkend s own d va Hinv Hd Hva)
    as [(_ & _ & -> & _)|(t & Ht & Hvt & _ & Hp & Ha & _)]; [done|].
  destruct (Z.eqb_spec (pte_addr (ram s) d va) 0); [done|]. rewrite bind_Ok.
  unfold frame_of, user_ok, flag. rewrite Ha, Hp.
  destruct (Z.eqb_spec (Z.lor (Z.land (load32 (ram s) (t + 4 * PTX va)) PTE_P)
    (Z.land (load32 (ram s) (t + 4 * PTX va)) PTE_E)) 0); [done|]. cbn [negb andb].
  by destruct (Z.eqb_spec (Z.land (load32 (ram s) (t + 4 * PTX va)) PTE_U) 0).
Qed.

Lemma pte_addr_nonzero s own d va :
  space_inv kend s own → own !! d = Some Dir → is_u32 va →
  mapped (pte_at (ram s) d va) = true → (pte_addr (ram s) d va =? 0) = false.
Proof using Hkend.
  intros Hinv Hd Hva Hm.
  destruct (pte_cases kend Hkend s own d va Hinv Hd Hva)
    as [(_ & H0 & _)|(t & _ & Hvt & _ & _ & Ha & _)].
  - by rewrite H0 in Hm.
  - rewrite Ha. apply Z.eqb_neq, (valid_nonzero kend Hkend); [done|apply PTX_range].
Qed.

Lemma uva2ka_user s own d va :
  space_inv kend s own → own !! d = Some Dir → is_u32 va →
  user_ok (pte_at (ram s) d va) = true →
  uva2ka s d va = Ok (frame_of (ram s) d va).
Proof using Hkend.
  intros Hinv Hd Hva Hok. rewrite (uva2ka_spec s own) by done. rewrite Hok.
  by rewrite (pte_addr_nonzero s own) by (try done; by apply user_ok_mapped).
Qed.

(** Writing bytes of a user frame changes no mapping and no other page. *)
Lemma write_frame s own d va m' :
  space_inv kend s own → own !! d = Some Dir → user_va va →
  mapped (pte_at (ram s) d va) = true →
  (∀ b, ¬ in_page (frame_of (ram s) d va) b → getb m' b = getb (ram s) b) →
  space_inv kend (set_ram s m') own
  ∧ (∀ d' va', own !! d' = Some Dir → is_u32 va' → pte_at m' d' va' = pte_at (ram s) d' va'
       ∧ pte_addr m' d' va' = pte_addr (ram s) d' va').
Proof using Hkend.
  intros Hinv Hd Hu Hm Hfr. pose proof (frame_owned s own d va Hinv Hd Hu Hm) as Hf.
  set (p := frame_of (ram s) d va) in *.
  assert (∀ q r, own !! q = Some r → q ≠ p → agree (ram s) m' q) as Hag.
  { intros q r Hq Hne b Hb. apply Hfr. apply (pages_disjoint q p b); try done;
      by eapply (si_valid kend s own Hinv). }
  split.
  - apply (space_inv_frame kend Hkend); [done|]. intros q r Hq Hr. apply (Hag q r Hq).
    intros ->. naive_solver congruence.
  - intros d' va' Hd' Hva'. apply (pte_at_agree kend Hkend s own); [done|done|done| |].
    + apply (Hag d' Dir Hd'). intros ->. congruence.
    + intros t Ht. apply (Hag t _ Ht). intros ->. congruence.
Qed.

Lemma user_addr_in s d va :
  user_va va → in_page (frame_of (ram s) d va) (user_addr (ram s) d va).
Proof using. intros. unfold in_page, user_addr. pose proof (Z.mod_pos_bound va 4096). lia. Qed.

(** Distinct user addresses are backed by distinct bytes. *)
Lemma user_addr_inj s own d va va' :
  space_inv kend s own → own !! d = Some Dir → user_va va → user_va va' →
  mapped (pte_at (ram s) d va) = true → mapped (pte_at (ram s) d va') = true →
  user_addr (ram s) d va = user_addr (ram s) d va' → va = va'.
Proof using Hkend.
  intros Hinv Hd Hu Hu' Hm Hm' E.
  pose proof (frame_owned s own d va Hinv Hd Hu Hm) as Hf.
  pose proof (frame_owned s own d va' Hinv Hd Hu' Hm') as Hf'.
  pose proof (user_addr_in s d va Hu) as Hin.
  pose proof (user_addr_in s d va' Hu') as Hin'. rewrite E in Hin.
  assert (va / 4096 = va' / 4096) as En.
  { destruct (decide (frame_of (ram s) d va = frame_of (ram s) d va')) as [Ef|Hne].
    - rewrite Ef, Hf' in Hf. by injection Hf.
    - exfalso. apply (pages_disjoint _ _ _ (proj1 (si_valid kend s own Hinv _ _ Hf))
        (proj1 (si_valid kend s own Hinv _ _ Hf')) Hne Hin Hin'). }
  unfold user_addr, frame_of in E.
  rewrite (pte_at_page (ram s) d va va') in E by (try done; by apply user_va_u32).
  pose proof (Z.div_mod va 4096). pose proof (Z.div_mod va' 4096). lia.
Qed.

(** Addresses of one page have one frame. *)
Lemma user_addr_page m d va k :
  user_va va → user_va (va + k) → (va + k) / 4096 = va / 4096 →
  user_addr m d (va + k) = user_addr m d va + k ∧ frame_of m d (va + k) = frame_of m d va.
Proof using.
  intros H H' E. unfold user_addr, frame_of.
  rewrite (pte_at_page m d (va + k) va) by (try done; by apply user_va_u32).
  pose proof (Z.div_mod va 4096). pose proof (Z.div_mod (va + k) 4096). lia.
Qed.

(** * copyout

    [copied_to s s' d va buf w]: [s'] is [s] with the [w] bytes at [buf]
    written to the user addresses from [va] on, and nothing else changed. *)
Definition copied_to (s s' : kst) (own : gmap Z role) (d va buf w : Z) : Prop :=
  space_inv kend s' own
  ∧ (∀ d' a, own !! d' = Some Dir → is_u32 a → pte_at (ram s') d' a = pte_at (ram s) d' a)
  ∧ (∀ k, 0 <= k < w → user_byte (ram s') d (va + k) = getb (ram s) (buf + k))
  ∧ ∀ b, (∀ k, 0 <= k < w → b ≠ user_addr (ram s) d (va + k)) →
      getb (ram s') b = getb (ram s) b.

(** No byte of the source belongs to the address space written to. *)
Definition foreign (own : gmap Z role) (d buf len : Z) : Prop :=
  ∀ k p n, 0 <= k < len → own !! p = Some (User d n) → ¬ in_page p (buf + k).

(** One [memmove] of the loop, inside one page. *)
Lemma copy_chunk s own d va buf n :
  space_inv kend s own → own !! d = Some Dir → user_va va →
  mapped (pte_at (ram s) d va) = true → 0 <= n → va mod 4096 + n <= 4096 →
  let s1 := set_ram s (memmove (ram s) (user_addr (ram s) d va) buf n) in
  copied_to s s1 own d va buf n
  ∧ ∀ a, is_u32 a → pte_addr (ram s1) d a = pte_addr (ram s) d a.
Proof using Hkend.
  intros Hinv Hd Hu Hm Hn Hoff s1. pose proof (Z.mod_pos_bound va 4096 ltac:(lia)) as Hmod.
  destruct (write_frame s own d va (ram s1) Hinv Hd Hu Hm) as [Hinv1 Hpte].
  { intros b Hb. unfold s1; simpl. rewrite getb_memmove by done. apply decide_False.
    unfold in_page, user_addr in *. lia. }
  change (set_ram s (ram s1)) with s1 in Hinv1.
  assert (∀ k, 0 <= k < n → user_va (va + k) ∧ (va + k) / 4096 = va / 4096) as Hpage.
  { intros k Hk. unfold user_va, KERNBASE in *. pose proof (Z.div_mod va 4096).
    assert ((va + k) / 4096 = va / 4096) as E.
    { symmetry. apply (Z.div_unique_pos _ _ _ (va mod 4096 + k)); lia. }
    split; [|done]. pose proof (Z.div_mod (va + k) 4096). lia. }
  assert (∀ k, 0 <= k < n → user_addr (ram s) d (va + k) = user_addr (ram s) d va + k) as Haddr.
  { intros k Hk. destruct (Hpage k Hk). by apply user_addr_page. }
  split; [|intros a Ha; by apply Hpte].
  split_and!; [done|intros; by apply Hpte| |].
  - intros k Hk. destruct (Hpage k Hk) as [Hk' _].
    unfold user_byte. unfold user_addr, frame_of.
    rewrite (proj1 (Hpte d (va + k) Hd (user_va_u32 _ Hk'))).
    fold (frame_of (ram s) d (va + k)). fold (user_addr (ram s) d (va + k)).
    rewrite Haddr by done. unfold s1; simpl. rewrite getb_memmove by done.
    rewrite decide_True by lia. f_equal. lia.
  - intros b Hb. unfold s1; simpl. rewrite getb_memmove by done. apply decide_False.
    intros Hr. apply (Hb (b - user_addr (ram s) d va)); [lia|]. rewrite Haddr; lia.
Qed.

Lemma copied_to_app s s1 s2 own d va buf n w :
  own !! d = Some Dir → 0 <= n → 0 <= w → foreign own d buf (n + w) → space_inv kend s own →
  (∀ k, 0 <= k < n + w → user_va (va + k) ∧ mapped (pte_at (ram s) d (va + k)) = true) →
  copied_to s s1 own d va buf n → copied_to s1 s2 own d (va + n) (buf + n) w →
  copied_to s s2 own d va buf (n + w).
Proof using Hkend.
  intros Hd Hn Hw Hfor Hinv Hmap (I1 & P1 & C1 & F1) (I2 & P2 & C2 & F2).
  assert (∀ a, user_va a → user_addr (ram s1) d a = user_addr (ram s) d a) as E1.
  { intros a Ha. unfold user_addr, frame_of. by rewrite P1 by (done || by apply user_va_u32). }
  assert (∀ a, user_va a → user_addr (ram s2) d a = user_addr (ram s1) d a) as E2.
  { intros a Ha. unfold user_addr, frame_of. by rewrite P2 by (done || by apply user_va_u32). }
  assert (∀ k, 0 <= k < n + w →
    own !! frame_of (ram s) d (va + k) = Some (User d ((va + k) / 4096))) as Hown.
  { intros k Hk. destruct (Hmap k Hk). by apply (frame_owned s own). }
  split_and!; [done| | |].
  - intros d' a Hd' Ha. by rewrite P2, P1.
  - intros k Hk. destruct (Hmap k Hk) as [Hu Hm]. unfold user_byte. rewrite E2, E1 by done.
    destruct (Z_lt_le_dec k n) as [Hlt|Hge].
    + rewrite F2.
      * rewrite <- E1 by done. apply C1. lia.
      * intros j Hj. destruct (Hmap (n + j) ltac:(lia)) as [Huj Hmj].
        replace (va + n + j) with (va + (n + j)) by lia. rewrite E1 by done. intros E.
        apply (user_addr_inj s own d (va + k) (va + (n + j))) in E; try done. lia.
    + replace (va + k) with (va + n + (k - n)) by lia.
      replace (va + k) with (va + n + (k - n)) in Hu by lia.
      rewrite <- E1, <- E2 by done. fold (user_byte (ram s2) d (va + n + (k - n))).
      rewrite C2 by lia. replace (buf + n + (k - n)) with (buf + k) by lia.
      apply F1. intros j Hj E. apply (Hfor k _ _ Hk (Hown j ltac:(lia))). rewrite E.
      apply user_addr_in. apply Hmap. lia.
  - intros b Hb. rewrite F2, F1; [done| |].
    + intros k Hk. apply Hb. lia.
    + intros k Hk. destruct (Hmap (n + k) ltac:(lia)) as [Huk _].
      replace (va + n + k) with (va + (n + k)) by lia. rewrite E1 by done. apply Hb. lia.
Qed.

Lemma copied_to_nil s own d va buf : space_inv kend s own → copied_to s s own d va buf 0.
Proof using. intros. split_and!; try done. lia. Qed.

(** The result [r] of copying [len] bytes, of which [w] were written: either all
    of them, or the copy stopped at a page the user may not access. *)
Definition copyout_result (s : kst) (d va len r w : Z) : Prop :=
  (r = 0 ∧ w = len)
  ∨ (r = -1 ∧ 0 <= w < len ∧ user_ok (pte_at (ram s) d (va + w)) = false).

Lemma copyout_loop_spec fuel s own d va buf len :
  space_inv kend s own → own !! d = Some Dir → 0 <= va → 0 <= len → va + len <= KERNBASE →
  foreign own d buf len → va mod 4096 + len <= 4096 * Z.of_nat fuel →
  (∀ a, is_u32 a → va / 4096 * 4096 <= a < va + len → pte_addr (ram s) d a ≠ 0) →
  ∃ r s' w, copyout_loop s d va buf len fuel = Ok (r, s')
    ∧ copied_to s s' own d va buf w ∧ copyout_result s d va len r w
    ∧ ∀ k, 0 <= k < w → user_ok (pte_at (ram s) d (va + k)) = true.
Proof using Hkend.
  revert s va buf len.
  induction fuel as [|f IH]; intros s va buf len Hinv Hd Hva Hlen Htop Hfor Hfuel Htab.
  { assert (len = 0) as -> by (pose proof (Z.mod_pos_bound va 4096); lia). simpl.
    exists 0, s, 0. split_and!; [done|by apply copied_to_nil|by left|lia]. }
  simpl. destruct (Z.ltb_spec 0 len) as [Hl|Hl].
  2:{ assert (len = 0) as -> by lia.
      exists 0, s, 0. split_and!; [done|by apply copied_to_nil|by left|lia]. }
  assert (user_va va) as Hu by (unfold user_va, KERNBASE in *; lia).
  pose proof (Z.mod_pos_bound va 4096 ltac:(lia)) as Hmod.
  pose proof (Z.div_mod va 4096 ltac:(lia)) as Hdm.
  rewrite (PGROUNDDOWN_mod va) by (by apply user_va_u32).
  set (va0 := va - va mod 4096).
  assert (user_va va0 ∧ va0 / 4096 = va / 4096) as [Hu0 E0].
  { unfold user_va, KERNBASE, va0 in *. split; [lia|].
    symmetry. apply (Z.div_unique_pos _ _ _ 0); lia. }
  assert (pte_at (ram s) d va0 = pte_at (ram s) d va) as Ep
    by (apply pte_at_page; [by apply user_va_u32..|done]).
  rewrite (uva2ka_spec s own) by (done || by apply user_va_u32).
  destruct (Z.eqb_spec (pte_addr (ram s) d va0) 0) as [Hz|_].
  { exfalso. apply (Htab va0); [by apply user_va_u32|unfold va0 in *; lia|done]. }
  rewrite Ep. destruct (user_ok (pte_at (ram s) d va)) eqn:Hok; rewrite bind_Ok.
  2:{ simpl. exists (-1), s, 0. split_and!; [done|by apply copied_to_nil|right|lia].
      rewrite Z.add_0_r. split_and!; (done || lia). }
  pose proof (user_ok_mapped _ Hok) as Hm.
  unfold frame_of. rewrite Ep. fold (frame_of (ram s) d va).
  pose proof (frame_owned s own d va Hinv Hd Hu Hm) as Hf.
  pose proof (valid_page_bounds kend Hkend _ (si_valid kend s own Hinv _ _ Hf)) as (Hb & _).
  destruct (Z.eqb_spec (frame_of (ram s) d va) 0) as [Hz|_];
    [unfold KERNBASE, EXTMEM in *; lia|].
  replace (frame_of (ram s) d va + (va - va0)) with (user_addr (ram s) d va)
    by (unfold user_addr, va0; lia).
  rewrite (u32_small (PGSIZE - _)) by (unfold is_u32, PGSIZE, va0; lia).
  rewrite (u32_small (va0 + PGSIZE)) by (unfold is_u32, PGSIZE, va0, KERNBASE in *; lia).
  set (n := if len <? PGSIZE - (va - va0) then len else PGSIZE - (va - va0)).
  assert (0 < n <= len ∧ va mod 4096 + n <= 4096 ∧ (n = len ∨ va0 + PGSIZE = va + n)) as (Hn & Hno & Hnext).
  { unfold n, PGSIZE, va0. destruct (Z.ltb_spec len (4096 - (va - (va - va mod 4096)))); lia. }
  destruct (copy_chunk s own d va buf n Hinv Hd Hu Hm ltac:(lia) Hno) as [Hc Hpa].
  set (s1 := set_ram s (memmove (ram s) (user_addr (ram s) d va) buf n)) in *.
  pose proof Hc as (Hinv1 & Hpte1 & _ & _).
  assert (∀ k, 0 <= k < n → user_ok (pte_at (ram s) d (va + k)) = true) as Hokn.
  { intros k Hk. rewrite <- Hok. f_equal. unfold KERNBASE, user_va in *.
    apply pte_at_page; [unfold is_u32; lia..|].
    symmetry. apply (Z.div_unique_pos _ _ _ (va mod 4096 + k)); lia. }
  destruct Hnext as [Hend|Hnext].
  - rewrite Hend in *. rewrite Z.sub_diag. exists 0, s1, len.
    split_and!; [by destruct f|done|by left|done].
  - rewrite Hnext. assert ((va + n) mod 4096 = 0) as Hal.
    { rewrite <- Hnext. unfold va0, PGSIZE. replace (va - va mod 4096 + 4096) with ((va / 4096 + 1) * 4096) by lia.
      apply Z_mod_mult. }
    destruct (IH s1 (va + n) (buf + n) (len - n)) as (r & s' & w & E & Hc' & Hres & Hokw);
      [done|done|lia|lia|lia| | | |].
    { intros k p j Hk Hp. replace (buf + n + k) with (buf + (n + k)) by lia. apply (Hfor _ _ j); [lia|done]. }
    { unfold va0, PGSIZE in *. lia. }
    { intros a Ha Hr. rewrite Hpa by done. apply Htab; [done|]. pose proof (Z.div_mod (va + n) 4096). lia. }
    rewrite E. exists r, s', (n + w).
    assert (0 <= w <= len - n) as Hw by (unfold copyout_result in Hres; lia).
    assert (∀ k, 0 <= k < len → is_u32 (va + k)) as Hu32
      by (intros; unfold is_u32, KERNBASE in *; lia).
    assert (∀ k, 0 <= k < n + w → user_ok (pte_at (ram s) d (va + k)) = true) as Hall.
    { intros k Hk. destruct (Z_lt_le_dec k n) as [|Hkn]; [apply Hokn; lia|].
      rewrite <- Hpte1 by (done || apply Hu32; lia).
      replace (va + k) with (va + n + (k - n)) by lia. apply Hokw. lia. }
    split_and!; [done| | |done].
    + apply (copied_to_app s s1); try done; [lia|lia| |].
      * intros k p j Hk. apply Hfor. lia.
      * intros k Hk. split; [unfold user_va; lia|]. by apply user_ok_mapped, Hall.
    + destruct Hres as [[-> ->]|(-> & Hw' & Hbad)]; [left; lia|right].
      rewrite Hpte1 in Hbad; [|done|replace (va + n + w) with (va + (n + w)) by lia; apply Hu32; lia].
      split_and!; [done|lia|lia|]. by replace (va + (n + w)) with (va + n + w) by lia.
Qed.

(** Entries that were and are again empty did not change. *)
Lemma evolves_restored (R : Z → Z → Prop) s own s' own' :
  space_inv kend s own → (∀ d n, Decision (R d n)) →
  (∀ d va, is_u32 va → R d (va / 4096) → pte_at (ram s) d va = 0 ∧ pte_at (ram s') d va = 0) →
  evolves kend R (λ _, False) s own s' own' →
  evolves kend (λ _ _, False) (λ _, False) s own s' own'.
Proof using Hkend.
  intros Hinv HR Hz [I D P A]. split; [done|done| |].
  - intros d va Hd Hx Hva _. destruct (decide (R d (va / 4096))) as [Hr|Hr]; [|by apply P].
    by destruct (Hz d va Hva Hr) as [-> ->].
  - intros p r Hp Hx Hr. apply (A p r Hp Hx). destruct Hr as [Hr|(d & n & -> & _)]; [by left|].
    right. exists d, n. split; [done|]. intros Hr.
    destruct (si_user kend s own Hinv p d n Hp) as (Hn & t & Ht & Hm & _).
    assert (is_u32 (n * 4096)) as Hu by (unfold is_u32; lia).
    assert (n * 4096 / 4096 = n) as En by (apply Z.div_mul; lia).
    destruct (Hz d (n * 4096) Hu) as [H0 _]; [by rewrite En|].
    destruct (pte_cases kend Hkend s own d (n * 4096) Hinv
      (proj1 (proj2 (si_table kend s own Hinv t d _ Ht))) Hu)
      as [(_ & _ & _ & Hno)|(t' & Ht' & _ & _ & Hp' & _)].
    + apply (Hno t). destruct (vpn_split (n * 4096) Hu) as (_ & <- & _). by rewrite En.
    + destruct (vpn_split (n * 4096) Hu) as (_ & E1 & E2). rewrite En in E1, E2.
      rewrite <- E1 in Ht'. rewrite (table_unique kend Hkend s own t' t d _ Hinv Ht' Ht) in Hp'.
      rewrite <- E2 in Hp'. by rewrite <- Hp', H0 in Hm.
Qed.

End VmUser.

#[local] Opaque demo_s demo_own.

(** * Properties *)

(** Shrinking undoes growing.  If [allocuvm] grew an address space from
    [oldsz] to [newsz], [deallocuvm] back to [oldsz] succeeds and leaves every
    page-table entry of every address space as it was before, with every user
    page and every private kernel page still owned and unchanged. *)
Theorem grow_shrink_roundtrip kend s own d oldsz newsz s1 :
  KERNLINK <= kend → space_inv kend s own → own !! d = Some Dir →
  0 <= oldsz < newsz → newsz < KERNBASE →
  (∀ va, is_u32 va → PGROUNDUP oldsz <= va / 4096 * 4096 < newsz → pte_at (ram s) d va = 0) →
  allocuvm kend s d oldsz newsz = Ok (newsz, s1) →
  ∃ s2 own2, deallocuvm kend s1 d newsz oldsz = Ok (oldsz, s2)
    ∧ evolves kend (λ _ _, False) (λ _, False) s own s2 own2.
Proof.
  intros Hk Hinv Hd Hold Hnew Hun E.
  destruct (allocuvm_spec kend s own d oldsz newsz) as (r & s' & own' & E' & Hev & _);
    [done|done|done|lia|done|done|].
  rewrite E in E'. injection E' as <- <-.
  destruct (dealloc_undo kend Hk s1 own' d oldsz newsz) as (s2 & own2 & E2 & Hev2 & Hz & _);
    [by eapply ev_inv|apply (ev_dir _ _ _ _ _ _ _ Hev d Hd); tauto|lia|lia|].
  exists s2, own2. split; [done|].
  apply (evolves_restored kend Hk (range d (PGROUNDUP oldsz) newsz) s own); [done|solve_decision| |].
  - intros d' va Hva [-> Hr]. split; [by apply Hun|by apply Hz].
  - eapply (evolves_mono kend); [| |exact (evolves_trans _ _ _ _ _ _ _ _ _ _ _ Hev Hev2)]; naive_solver.
Qed.

(** The demonstration machine with two user pages: every address below 8192 is
    backed by a zeroed user page. *)
Lemma demo_grown :
  ∃ s1 own1, allocuvm demo_kend demo_s demo_d 0 8192 = Ok (8192, s1)
    ∧ space_inv demo_kend s1 own1 ∧ own1 !! demo_d = Some Dir
    ∧ ∀ va, 0 <= va < 8192 → PTE_FLAGS (pte_at (ram s1) demo_d va) = 7
        ∧ user_ok (pte_at (ram s1) demo_d va) = true ∧ user_byte (ram s1) demo_d va = 0.
Proof.
  destruct demo_ok as (Hinv & Hd & Hz). destruct demo_grow as (s1 & E1).
  destruct (allocuvm_spec demo_kend demo_s demo_own demo_d 0 8192)
    as (r & s' & own1 & E & Hev & Hc);
    [apply demo_kend_ok|exact Hinv|exact Hd|lia|reflexivity|intros; by apply Hz|].
  rewrite E1 in E. injection E as <- <-. destruct Hc as [(_ & Hf & _)|[? _]]; [|done].
  exists s1, own1.
  split_and!; [done|by eapply ev_inv|apply (ev_dir _ _ _ _ _ _ _ Hev _ Hd); tauto|].
  intros va Hva. change (PGROUNDUP 0) with 0 in Hf.
  assert (fresh_page s1 own1 demo_d va) as Hfr.
  { apply Hf; [unfold is_u32; lia|]. pose proof (Z.div_mod va 4096).
    pose proof (Z.mod_pos_bound va 4096). lia. }
  destruct Hfr as (p & Hp & Hpte & Hzero).
  pose proof (si_valid demo_kend s1 own1 (ev_inv _ _ _ _ _ _ _ Hev) p _ Hp) as Hvp.
  destruct (map_entry_spec demo_kend demo_kend_ok p (Z.lor PTE_W PTE_U) Hvp)
    as (Hu & Hm & Ha & Hfl); [split; vm_compute; congruence|].
  rewrite Hpte. change (Z.lor (Z.lor PTE_W PTE_U) _) with 7 in Hfl. split_and!; [assumption| |].
  - rewrite user_ok_alt, Hm. rewrite <- (flag_FLAGS _ _ Hu) by reflexivity. rewrite Hfl. reflexivity.
  - unfold user_byte, user_addr, frame_of. rewrite Hpte, Ha. apply Hzero.
    unfold in_page. pose proof (Z.mod_pos_bound va 4096). lia.
Qed.

(** That theorem on two pages. *)
Lemma grow_shrink_roundtrip_witness :
  ∃ s1 s2 own2, allocuvm demo_kend demo_s demo_d 0 8192 = Ok (8192, s1)
    ∧ deallocuvm demo_kend s1 demo_d 8192 0 = Ok (0, s2)
    ∧ evolves demo_kend (λ _ _, False) (λ _, False) demo_s demo_own s2 own2.
Proof.
  destruct demo_ok as (Hinv & Hd & Hz). destruct demo_grow as (s1 & E1).
  destruct (grow_shrink_roundtrip demo_kend demo_s demo_own demo_d 0 8192 s1)
    as (s2 & own2 & E2 & Hev);
    [apply demo_kend_ok|exact Hinv|exact Hd|lia|reflexivity|intros; by apply Hz|exact E1|].
  exists s1, s2, own2. split_and!; assumption.
Defined.

(** C8.  Releasing an address space.  [freevm] never panics on a page directory
    built by this module: it gives back every user page, every page table and
    the directory itself, each exactly once, and the role of every other page
    of the machine, the mappings of every other address space and their
    contents are unchanged.  Nothing leaks. *)
Theorem freevm_releases_all kend s own d :
  KERNLINK <= kend → space_inv kend s own → own !! d = Some Dir →
  ∃ s' own', freevm kend s d = Ok s'
    ∧ evolves kend (λ d' _, d' = d) (λ q, q = d) s own s' own'
    ∧ own' !! d = Some Free
    ∧ (∀ q i, own !! q = Some (Table d i) → own' !! q = Some Free)
    ∧ (∀ q n, own !! q = Some (User d n) → own' !! q = Some Free)
    ∧ (∀ q r, own !! q = Some r → q ≠ d → (∀ i, r ≠ Table d i) → (∀ n, r ≠ User d n) →
         own' !! q = Some r).
Proof.
  intros Hk Hinv Hd. destruct (freevm_spec kend Hk s own d Hinv Hd) as (s' & own' & E & Hev & Hr).
  exists s', own'. split_and!; [done|done| | | |].
  - rewrite Hr, Hd. simpl. by rewrite bool_decide_eq_true_2.
  - intros q i Hq. rewrite Hr, Hq. simpl. by rewrite bool_decide_eq_true_2.
  - intros q n Hq. rewrite Hr, Hq. simpl. by rewrite bool_decide_eq_true_2.
  - intros q r Hq Hne Ht Hu. rewrite Hr, Hq. simpl.
    destruct r as [| | |d' i|d' n]; simpl; try done; rewrite bool_decide_eq_false_2; try done;
      intros ->; naive_solver.
Qed.

(** C8 on an address space of two pages. *)
Lemma freevm_releases_all_witness :
  ∃ s1 s2 own2, allocuvm demo_kend demo_s demo_d 0 8192 = Ok (8192, s1)
    ∧ freevm demo_kend s1 demo_d = Ok s2 ∧ own2 !! demo_d = Some Free
    ∧ space_inv demo_kend s2 own2.
Proof.
  destruct demo_grown as (s1 & own1 & E1 & Hinv & Hd & _).
  destruct (freevm_releases_all demo_kend s1 own1 demo_d demo_kend_ok Hinv Hd)
    as (s2 & own2 & E2 & Hev & Hfree & _).
  exists s1, s2, own2. split_and!; [assumption..|by eapply ev_inv].
Defined.

(** A machine with 4095 free pages and one empty page directory. *)
Definition big_top : Z := demo_kend + 4096 * PGSIZE.
Definition big_fl : list Z := rev (range_pages demo_kend big_top).
Definition big_s0 : kst :=
  match kinit1 demo_kend demo_boot demo_kend big_top with Ok s => s | _ => demo_boot end.
Definition big_d : Z := demo_kend + 4095 * PGSIZE.
Definition big_s : kst :=
  match kalloc big_s0 with Ok (p, s) => set_ram s (memset (ram s) p 0 PGSIZE) | _ => big_s0 end.
Definition big_own : gmap Z role := <[big_d := Dir]> (all_free big_fl).

Lemma big_list : ∃ fl, big_fl = big_d :: fl ∧ length fl = Z.to_nat 4095.
Proof.
  assert (match big_fl with [] => false | p :: fl => (p =? big_d) && (Z.of_nat (length fl) =? 4095) end = true) as H by (vm_compute; reflexivity).
  destruct big_fl as [|p fl]; [discriminate|]. apply andb_true_iff in H as [H1%Z.eqb_eq H2%Z.eqb_eq]. subst p. exists fl. split; [done|lia].
Qed.

Lemma big_ok :
  space_inv demo_kend big_s big_own ∧ big_own !! big_d = Some Dir
  ∧ (∀ va, is_u32 va → pte_at (ram big_s) big_d va = 0) ∧ 4095 <= Z.of_nat (size (free_pages big_own)).
Proof.
  destruct (kinit1_pool demo_kend demo_boot demo_kend big_top demo_kend_ok)
    as (s0 & Hi & _ & Hok); [vm_compute; split; congruence|vm_compute; congruence|done|].
  assert (big_s0 = s0) as <- by (unfold big_s0; by rewrite Hi). fold big_fl in Hok.
  destruct big_list as (fl & Efl & Hlen). pose proof (ok_nodup _ _ _ Hok) as Hnd.
  pose proof (kalloc_spec demo_kend demo_kend_ok big_s0 big_fl Hok) as Hk.
  rewrite Efl in Hk, Hok, Hnd. destruct Hk as (s1 & Hk & _).
  destruct (boot_dir demo_kend demo_kend_ok big_s0 _ big_d s1 Hok Hk) as [Hinv Hz].
  assert (big_s = set_ram s1 (memset (ram s1) big_d 0 PGSIZE)) as -> by (unfold big_s; by rewrite Hk).
  unfold big_own. rewrite Efl. split_and!; [done|apply lookup_insert_eq|done|].
  apply NoDup_cons in Hnd as [Hd Hnd]. replace 4095 with (Z.of_nat (length fl)) by lia.
  rewrite <- (size_list_to_set (C := gset Z) fl) by done. apply inj_le, subseteq_size. intros p Hp%elem_of_list_to_set.
  apply elem_of_free_pages. assert (big_d ≠ p) as Hne by (intros E; apply Hd; by rewrite E).
  rewrite lookup_insert_ne by done. apply (lookup_all_free demo_kend demo_kend_ok). split; [by right|done].
Qed.

(** With two user pages. *)
Lemma big_grown :
  ∃ s1 own1, allocuvm demo_kend big_s big_d 0 8192 = Ok (8192, s1)
    ∧ space_inv demo_kend s1 own1 ∧ own1 !! big_d = Some Dir ∧ 3000 <= Z.of_nat (size (free_pages own1))
    ∧ ∀ va, 0 <= va < 8192 → mapped (pte_at (ram s1) big_d va) = true.
Proof.
  destruct big_ok as (Hinv & Hd & Hz & Hn).
  destruct (allocuvm_spec demo_kend big_s big_own big_d 0 8192)
    as (r & s1 & own1 & E & Hev & Hc);
    [apply demo_kend_ok|exact Hinv|exact Hd|lia|reflexivity|intros; by apply Hz|].
  destruct Hc as [(-> & Hf & Ht)|(_ & _ & Hs & _)].
  2:{ pose proof (starved_bound demo_kend demo_kend_ok big_d 8192 big_own Hs ltac:(lia)) as Hb. change (pages_below 8192) with 2 in Hb. lia. }
  pose proof (ev_inv _ _ _ _ _ _ _ Hev) as Hinv1. exists s1, own1.
  split_and!; [done|done|apply (ev_dir _ _ _ _ _ _ _ Hev _ Hd); tauto| |].
  - pose proof (took_bound demo_kend demo_kend_ok s1 own1 big_d 8192 big_own 0 Hinv1 ltac:(lia) (λ p _, Ht p)) as Hb. change (pages_below 8192) with 2 in Hb. lia.
  - intros va Hva. change (PGROUNDUP 0) with 0 in Hf. destruct (Hf va) as (p & Hp & -> & _).
    + unfold is_u32. lia.
    + pose proof (Z.div_mod va 4096). pose proof (Z.mod_pos_bound va 4096). lia.
    + exact (proj1 (proj2 (map_entry_spec demo_kend demo_kend_ok p (Z.lor PTE_W PTE_U) (si_valid _ _ _ Hinv1 p _ Hp) ltac:(vm_compute; split; congruence)))).
Qed.

(** C9.  Copying an address space (the memory half of [fork]).  For a parent
    whose pages below [sz] are all mapped, [copyuvm] returns without panic, and no
    existing mapping or page changes.  If more than [1026 + sz / 4096] (rounded up) pages are free, it
    succeeds.  When it fails, with 0, every page has the role it had before: all that was taken is free again.  When it
    succeeds, it returns a new directory, a page that was free, in which every page below [sz] is backed by a
    frame of its own, distinct from the parent's, with the same 4096 bytes and
    the same flags (so an encrypted page stays encrypted), and nothing is
    mapped between [sz] and the kernel; and apart from the directory every page has its old role, or was free and
    is now a table of the new directory or one of its frames below [sz]. *)
Theorem copyuvm_correct kend kdata s own pd sz :
  KERNLINK <= kend → kdata_ok kdata → space_inv kend s own → own !! pd = Some Dir →
  0 <= sz <= KERNBASE →
  (∀ va, is_u32 va → va / 4096 * 4096 < sz → mapped (pte_at (ram s) pd va) = true) →
  ∃ r s' own', copyuvm kend kdata s pd sz = Ok (r, s')
    ∧ evolves kend (λ _ _, False) (λ _, False) s own s' own'
    ∧ (1026 + pages_below sz < Z.of_nat (size (free_pages own)) → r ≠ 0)
    ∧ (r = 0 → own' = own)
    ∧ (r ≠ 0 → own !! r = Some Free ∧ own' !! r = Some Dir
        ∧ (∀ va, is_u32 va → va / 4096 * 4096 < sz → copied_page s' own' pd r va)
        ∧ (∀ va, user_va va → sz <= va / 4096 * 4096 → pte_at (ram s') r va = 0)
        ∧ ∀ q, took r sz (<[r := Dir]> own) own' q).
Proof.
  intros Hk Hkd Hinv Hpd Hsz Hm. destruct (copyuvm_spec kend kdata Hk s own pd sz Hinv Hkd Hpd Hsz Hm) as (r & s' & own' & E & Hev & Hc).
  exists r, s', own'. split_and!; [done|done| | |]; destruct Hc as [(-> & -> & Hs)|(Hr & Hc)]; try done.
  intros Hn. pose proof (short_bound kend Hk sz own Hs ltac:(lia)). lia.
Qed.

(** C9 for a parent with two pages, on a machine with enough memory: the copy succeeds.  The kernel's data segment starts one page
    above its text. *)
Lemma copyuvm_correct_witness :
  ∃ s1 own1 r s' own', allocuvm demo_kend big_s big_d 0 8192 = Ok (8192, s1)
    ∧ copyuvm demo_kend (KERNLINK + 4096) s1 big_d 8192 = Ok (r, s')
    ∧ r ≠ 0 ∧ copied_page s' own' big_d r 4096 ∧ took r 8192 (<[r := Dir]> own1) own' r.
Proof.
  destruct big_grown as (s1 & own1 & E1 & Hinv & Hd & Hn & Hu).
  destruct (copyuvm_correct demo_kend (KERNLINK + 4096) s1 own1 big_d 8192)
    as (r & s' & own' & E & Hev & Hok & _ & Hc);
    [apply demo_kend_ok|split; [split|]; vm_compute; congruence|exact Hinv|exact Hd
    |split; vm_compute; congruence| |].
  - intros va Hva Hlt. apply (Hu va). unfold is_u32 in Hva.
    pose proof (Z.div_mod va 4096). pose proof (Z.mod_pos_bound va 4096). lia.
  - assert (r ≠ 0) as Hr by (apply Hok; change (pages_below 8192) with 2; lia). destruct (Hc Hr) as (_ & _ & Hcp & _ & Ht).
    exists s1, own1, r, s', own'. split_and!; [exact E1|exact E|exact Hr| |apply Ht].
    apply Hcp; vm_compute; [split; congruence|reflexivity].
Defined.

(** [copyout] writes exactly the requested bytes.  Where every page table
    of the destination range exists and the source is not memory of the
    destination address space, it returns 0 after writing all [len] bytes in
    order, even across page boundaries where the frames are not contiguous; if
    some page of the range is not the user's, it returns -1 having written the
    bytes before that page.  No other byte of memory and no mapping changes. *)
Theorem copyout_correct kend s own d va buf len :
  KERNLINK <= kend → space_inv kend s own → own !! d = Some Dir →
  0 <= va → 0 <= len → va + len <= KERNBASE → foreign own d buf len →
  (∀ a, is_u32 a → va / 4096 * 4096 <= a < va + len → pte_addr (ram s) d a ≠ 0) →
  ∃ r s' w, copyout s d va buf len = Ok (r, s')
    ∧ copied_to kend s s' own d va buf w ∧ copyout_result s d va len r w
    ∧ ∀ k, 0 <= k < w → user_ok (pte_at (ram s) d (va + k)) = true.
Proof.
  intros Hk Hinv Hd Hva Hlen Htop Hfor Htab. unfold copyout.
  apply (copyout_loop_spec kend Hk); try done. unfold PGSIZE.
  pose proof (Z.div_mod len 4096). pose proof (Z.mod_pos_bound len 4096).
  pose proof (Z.mod_pos_bound va 4096). lia.
Qed.

(** That theorem on a write of 12 bytes across the boundary between two pages. *)
Lemma copyout_correct_witness :
  ∃ s1 s', allocuvm demo_kend demo_s demo_d 0 8192 = Ok (8192, s1)
    ∧ copyout s1 demo_d 4090 (KERNBASE + 4096) 12 = Ok (0, s')
    ∧ ∀ k, 0 <= k < 12 → user_byte (ram s') demo_d (4090 + k) = getb (ram s1) (KERNBASE + 4096 + k).
Proof.
  destruct demo_grown as (s1 & own1 & E1 & Hinv & Hd & Hu).
  destruct (copyout_correct demo_kend s1 own1 demo_d 4090 (KERNBASE + 4096) 12)
    as (r & s' & w & E & (_ & _ & Hc & _) & Hres & _);
    [apply demo_kend_ok|exact Hinv|exact Hd|lia|lia|vm_compute; congruence| | |].
  - intros k p n Hk Hp Hin.
    pose proof (proj1 (proj2 (si_valid demo_kend s1 own1 Hinv p _ Hp))) as [Hge _].
    unfold demo_kend, in_page, KERNBASE, EXTMEM in *. lia.
  - intros a Ha Hr. apply Z.eqb_neq.
    apply (pte_addr_nonzero demo_kend demo_kend_ok s1 own1); [assumption..|].
    apply user_ok_mapped, Hu. change (4090 / 4096 * 4096) with 0 in Hr. lia.
  - exists s1, s'. destruct Hres as [[-> ->]|(_ & Hw & Hbad)]; [split_and!; assumption|].
    destruct (Hu (4090 + w)) as (_ & Hok & _); [lia|]. rewrite Hok in Hbad. discriminate.
Defined.
