(* ===== verification/Mencrypt.v ===== *)
(** Page encryption (src/p4/vm.c, src/p4/trap.c, src/p4/sysproc.c,
    src/p4/syscall.c).

    [mencrypt] complements the bytes of user pages and marks them encrypted and
    not present; the next access faults and the page-fault handler calls
    [mdecrypt], which complements them back.

    The kernel reads and writes user pages through the user's own virtual
    addresses, so the accesses go through [hw_addr], the address translation of
    the processor: both levels must be present, and a write needs both levels
    writable (src/p4/entry.S sets CR0.WP).  [cprintf] output is not modelled,
    and [switchuvm], which reloads cr3 to drop stale translations, has no effect
    on this state. *)

From Stdlib Require Import ZArith Lia.
From stdpp Require Import base numbers list gmap sets strings.
From S2P Require Import Prelude Mem Mmu Kalloc Vm VmSpec VmUser.
#[local] Open Scope Z_scope.

(** The fields of the current process this code uses. *)
Record uproc := UProc { pgdir : Z; psz : Z; tf_esp : Z }.

Definition hw_addr (m : mem) (pgdir va : Z) (write : bool) : option Z :=
  let pde := load32 m (pgdir + 4 * PDX va) in
  if flag pde PTE_P then
    let pte := load32 m (P2V (PTE_ADDR pde) + 4 * PTX va) in
    if flag pte PTE_P && (negb write || (flag pde PTE_W && flag pte PTE_W))
    then Some (P2V (PTE_ADDR pte) + OFFSET va)
    else None
  else None.

(** [for(offset = 0; offset < PGSIZE; offset++) { *slider ^= 0xFF; slider++; }];
    a faulting access is [Fault]. *)
Fixpoint flip_loop (m : mem) (pgdir slider : Z) (n : nat) : outcome (Z * mem) :=
  match n with
  | O => Ok (slider, m)
  | S n' =>
      match hw_addr m pgdir slider true with
      | None => Fault slider
      | Some a =>
          flip_loop (setb m a (Z.lxor (getb m a) 255)) pgdir (u32 (slider + 1)) n'
      end
  end.

Definition translate_and_set (s : kst) (pgdir uva : Z) : outcome (Z * kst) :=
  '(pte, _) ← walkpgdir s pgdir uva false;
  e ← deref32 (ram s) pte;
  if (Z.land e PTE_P =? 0) && (Z.land e PTE_E =? 0) then Ok (0, s)
  else if flag e PTE_E then Ok (0, s)
  else if Z.land e PTE_U =? 0 then Ok (0, s)
  else
    let e1 := Z.lor e PTE_E in
    let e2 := Z.land e1 (bnot32 PTE_P) in
    Ok (P2V (PTE_ADDR e2), set_ram s (store32 (ram s) pte e2)).

Definition mdecrypt (s : kst) (pgdir virtual_addr : Z) : outcome (Z * kst) :=
  '(pte, _) ← walkpgdir s pgdir virtual_addr false;
  if (pte =? 0) || (load32 (ram s) pte =? 0) then Ok (-1, s)
  else
    let e := load32 (ram s) pte in
    let e1 := Z.land e (bnot32 PTE_E) in
    let e2 := Z.lor e1 PTE_P in
    let s1 := set_ram s (store32 (ram s) pte e2) in
    _ ← uva2ka s1 pgdir virtual_addr;
    let va0 := PGROUNDDOWN virtual_addr in
    kvp ← uva2ka s1 pgdir va0;
    if (kvp =? 0) || (getb (ram s1) kvp =? 0) then Ok (-1, s1)
    else
      '(_, m) ← flip_loop (ram s1) pgdir va0 (Z.to_nat PGSIZE);
      Ok (0, set_ram s1 m).

(** The error check of [mencrypt]: [true] when every page translates. *)
Fixpoint mencrypt_check (s : kst) (pgdir slider : Z) (n : nat) : outcome bool :=
  match n with
  | O => Ok true
  | S n' =>
      kvp ← uva2ka s pgdir slider;
      if kvp =? 0 then Ok false
      else mencrypt_check s pgdir (u32 (slider + PGSIZE)) n'
  end.

Fixpoint mencrypt_loop (s : kst) (pgdir slider : Z) (n : nat) : outcome (Z * kst) :=
  match n with
  | O => Ok (0, s)
  | S n' =>
      _ ← uva2ka s pgdir slider;
      '(mypte, _) ← walkpgdir s pgdir slider false;
      e ← deref32 (ram s) mypte;
      if flag e PTE_E then mencrypt_loop s pgdir (u32 (slider + PGSIZE)) n'
      else
        '(slider1, m) ← flip_loop (ram s) pgdir slider (Z.to_nat PGSIZE);
        '(kvp, s2) ← translate_and_set (set_ram s m) pgdir (u32 (slider1 - PGSIZE));
        if kvp =? 0 then Ok (-1, s2)
        else mencrypt_loop s2 pgdir slider1 n'
  end.

Definition mencrypt (s : kst) (pgdir virtual_addr len : Z) : outcome (Z * kst) :=
  let va := PGROUNDDOWN virtual_addr in
  ok ← mencrypt_check s pgdir va (Z.to_nat len);
  if negb ok then Ok (-1, s) else mencrypt_loop s pgdir va (Z.to_nat len).

(** * The page-fault trap

    [T_PGFLT] of [trap]: the handler decrypts, and panics when it cannot. *)
Definition trap_pgflt (s : kst) (pgdir cr2 : Z) : outcome kst :=
  '(r, s1) ← mdecrypt s pgdir cr2;
  if negb (r =? 0) then Panic "p4Debug: Memory fault" else Ok s1.

(** One access to a virtual address, by the process or by the kernel on its
    behalf: the translated address, after at most one page fault.  An access
    that still faults after the handler returned would fault forever. *)
Definition touch (s : kst) (pgdir va : Z) (write : bool) : outcome (Z * kst) :=
  match hw_addr (ram s) pgdir va write with
  | Some a => Ok (a, s)
  | None =>
      s1 ← trap_pgflt s pgdir va;
      match hw_addr (ram s1) pgdir va write with
      | Some a => Ok (a, s1)
      | None => NoFuel
      end
  end.

(** * System-call arguments (syscall.c) *)

(** The four byte accesses of a 32-bit load. *)
Fixpoint read_user (s : kst) (pgdir va : Z) (n : nat) : outcome (list Z * kst) :=
  match n with
  | O => Ok ([], s)
  | S n' =>
      '(a, s1) ← touch s pgdir va false;
      '(l, s2) ← read_user s1 pgdir (u32 (va + 1)) n';
      Ok (getb (ram s1) a :: l, s2)
  end.

Fixpoint le_word (l : list Z) : Z :=
  match l with [] => 0 | b :: l' => b + 256 * le_word l' end.

(** [None] is the -1 of the C function, [Some v] is 0 with [*ip = v]. *)
Definition fetchint (s : kst) (p : uproc) (addr : Z) : outcome (option Z * kst) :=
  if (psz p <=? addr) || (psz p <? u32 (addr + 4)) then Ok (None, s)
  else '(l, s1) ← read_user s (pgdir p) addr 4; Ok (Some (s32 (le_word l)), s1).

Definition argint (s : kst) (p : uproc) (n : Z) : outcome (option Z * kst) :=
  fetchint s p (u32 (tf_esp p + 4 + 4 * n)).

Definition argptr (s : kst) (p : uproc) (n size : Z) : outcome (option Z * kst) :=
  '(r, s1) ← argint s p n;
  match r with
  | None => Ok (None, s1)
  | Some i =>
      if (size <? 0) || (psz p <=? u32 i) || (psz p <? u32 (u32 i + size))
      then Ok (None, s1) else Ok (Some (u32 i), s1)
  end.

(** * System calls (sysproc.c) *)

Definition sys_mencrypt (s : kst) (p : uproc) : outcome (Z * kst) :=
  '(r, s1) ← argint s p 1;
  match r with
  | None => Ok (-1, s1)
  | Some len =>
      if len <? 0 then Ok (-1, s1)
      else if len =? 0 then Ok (0, s1)
      else
        '(r0, s2) ← argptr s1 p 0 1;
        match r0 with
        | None => Ok (-1, s2)
        | Some virtual_addr =>
            if P2V PHYSTOP <=? virtual_addr then Ok (-1, s2)
            else mencrypt s2 (pgdir p) virtual_addr len
        end
  end.

(** * getpgtable *)

Record pt_entry := PtEntry {
  pt_pdx : Z; pt_ptx : Z; pt_ppage : Z; pt_present : Z; pt_writable : Z;
  pt_user : Z; pt_encrypted : Z; pt_ref : Z
}.

Definition b2z (b : bool) : Z := if b then 1 else 0.

(** The bit fields [getpgtable] assigns; [user] keeps what the buffer held. *)
Definition fill_entry (old : pt_entry) (uva e : Z) : pt_entry :=
  PtEntry (PDX uva) (PTX uva) (Z.shiftr e PTXSHIFT) (Z.land e PTE_P)
    (b2z (0 <? Z.land e PTE_W)) (pt_user old) (b2z (0 <? Z.land e PTE_E))
    (b2z (0 <? Z.land e PTE_A)).

Definition zero_entry : pt_entry := PtEntry 0 0 0 0 0 0 0 0.

(** [buf i] is the caller's buffer [pt_entries[i]]; memory beyond the caller's
    [num] elements is also [buf].  [continue] skips the [uva == 0] test. *)
Fixpoint getpgtable_loop (s : kst) (pgdir uva num i : Z) (buf : gmap Z pt_entry)
    (fuel : nat) : outcome (Z * gmap Z pt_entry) :=
  match fuel with
  | O => NoFuel
  | S f =>
      '(pte, _) ← walkpgdir s pgdir uva false;
      e ← deref32 (ram s) pte;
      if (Z.land e PTE_U =? 0) || (Z.land e (Z.lor PTE_P PTE_E) =? 0) then
        getpgtable_loop s pgdir (u32 (uva - PGSIZE)) num i buf f
      else
        let buf' := <[i := fill_entry (default zero_entry (buf !! i)) uva e]> buf in
        let i' := i + 1 in
        if (uva =? 0) || (i' =? num) then Ok (i', buf')
        else getpgtable_loop s pgdir (u32 (uva - PGSIZE)) num i' buf' f
  end.

Definition getpgtable (s : kst) (p : uproc) (buf : gmap Z pt_entry) (num : Z) (fuel : nat)
  : outcome (Z * gmap Z pt_entry) :=
  let uva := if psz p mod PGSIZE =? 0 then u32 (psz p - PGSIZE) else PGROUNDDOWN (psz p) in
  getpgtable_loop s (pgdir p) uva num 0 buf fuel.

(** A [struct pt_entry] takes 8 bytes; the byte count is computed in [uint] and
    passed as [int].  The result is the state, the return value and the buffer. *)
Definition sys_getpgtable (s : kst) (p : uproc) (buf : gmap Z pt_entry) (fuel : nat)
  : outcome (kst * (Z * gmap Z pt_entry)) :=
  '(r, s1) ← argint s p 1;
  match r with
  | None => Ok (s1, (-1, buf))
  | Some num =>
      '(r0, s2) ← argptr s1 p 0 (s32 (num * 8));
      match r0 with
      | None => Ok (s2, (-1, buf))
      | Some _ => res ← getpgtable s2 p buf num fuel; Ok (s2, res)
      end
  end.

(** * dump_rawphymem

    [*buffer = *buffer] touches the first byte of the buffer (and so decrypts
    its page); then one physical page is copied out. *)
Definition dump_rawphymem (s : kst) (p : uproc) (physical_addr buffer : Z)
  : outcome (Z * kst) :=
  '(a, s1) ← touch s (pgdir p) buffer true;
  let s2 := set_ram s1 (setb (ram s1) a (getb (ram s1) a)) in
  '(retval, s3) ← copyout s2 (pgdir p) buffer (PGROUNDDOWN (P2V physical_addr)) PGSIZE;
  if negb (retval =? 0) then Ok (-1, s3) else Ok (0, s3).

Definition sys_dump_rawphymem (s : kst) (p : uproc) : outcome (Z * kst) :=
  '(r, s1) ← argptr s p 1 PGSIZE;
  match r with
  | None => Ok (-1, s1)
  | Some buffer =>
      '(r0, s2) ← argint s1 p 0;
      match r0 with
      | None => Ok (-1, s2)
      | Some physical_addr => dump_rawphymem s2 p (u32 physical_addr) buffer
      end
  end.

(** * Entries *)

Definition enc_entry (e : Z) : Z := Z.land (Z.lor e PTE_E) (bnot32 PTE_P).
Definition dec_entry (e : Z) : Z := Z.lor (Z.land e (bnot32 PTE_E)) PTE_P.

Lemma bnot32_bit n i :
  0 <= n < 32 → 0 <= i → Z.testbit (bnot32 (2 ^ n)) i = (i <? 32) && negb (i =? n).
Proof.
  intros Hn Hi. unfold bnot32, u32. destruct (Z.ltb_spec i 32).
  - rewrite Z.mod_pow2_bits_low, Z.lnot_spec, Z.pow2_bits_eqb by lia.
    by rewrite Z.eqb_sym.
  - by rewrite Z.mod_pow2_bits_high by lia.
Qed.

Lemma u32_bits_high e i : is_u32 e → 32 <= i → Z.testbit e i = false.
Proof. intros He Hi. by apply (testbit_small e 32). Qed.

Lemma enc_bit e i :
  is_u32 e → 0 <= i → Z.testbit (enc_entry e) i = (Z.testbit e i || (i =? 10)) && negb (i =? 0).
Proof.
  intros He Hi. unfold enc_entry. change PTE_P with (2 ^ 0). change PTE_E with (2 ^ 10).
  rewrite Z.land_spec, Z.lor_spec, bnot32_bit, Z.pow2_bits_eqb by lia.
  rewrite (Z.eqb_sym 10 i). destruct (Z.ltb_spec i 32); [done|].
  rewrite (u32_bits_high e i He) by lia. by replace (i =? 10) with false by lia.
Qed.

Lemma dec_bit e i :
  is_u32 e → 0 <= i → Z.testbit (dec_entry e) i = (Z.testbit e i && negb (i =? 10)) || (i =? 0).
Proof.
  intros He Hi. unfold dec_entry. change PTE_P with (2 ^ 0). change PTE_E with (2 ^ 10).
  rewrite Z.lor_spec, Z.land_spec, bnot32_bit, Z.pow2_bits_eqb by lia.
  rewrite (Z.eqb_sym 0 i). destruct (Z.ltb_spec i 32); [done|].
  by rewrite (u32_bits_high e i He) by lia.
Qed.

(** A number with the high bits of a [uint] is a [uint]; page-frame bits decide
    the address. *)
Lemma u32_of_bits x : (∀ i, 32 <= i → Z.testbit x i = false) → is_u32 x.
Proof.
  intros H. assert (x = x mod 2 ^ 32) as ->; [|apply Z.mod_pos_bound; lia].
  apply Z.bits_inj'. intros i Hi. destruct (Z_lt_le_dec i 32).
  - by rewrite Z.mod_pow2_bits_low by lia.
  - rewrite Z.mod_pow2_bits_high by lia. by apply H.
Qed.

Lemma PTE_ADDR_bits e e' :
  is_u32 e → is_u32 e' → (∀ i, 12 <= i → Z.testbit e' i = Z.testbit e i) →
  PTE_ADDR e' = PTE_ADDR e.
Proof.
  intros He He' H. rewrite !PTE_ADDR_mod by done.
  assert (e' / 2 ^ 12 = e / 2 ^ 12) as E.
  { rewrite <- !Z.shiftr_div_pow2 by lia. apply Z.bits_inj'. intros i Hi.
    rewrite !Z.shiftr_spec by lia. apply H. lia. }
  pose proof (Z.div_mod e 4096). pose proof (Z.div_mod e' 4096).
  change (2 ^ 12) with 4096 in E. lia.
Qed.

Lemma enc_u32 e : is_u32 e → is_u32 (enc_entry e).
Proof.
  intros He. apply u32_of_bits. intros i Hi. rewrite enc_bit, (u32_bits_high e i He) by (done || lia).
  by replace (i =? 10) with false by lia.
Qed.

Lemma dec_u32 e : is_u32 e → is_u32 (dec_entry e).
Proof.
  intros He. apply u32_of_bits. intros i Hi. rewrite dec_bit, (u32_bits_high e i He) by (done || lia).
  by replace (i =? 0) with false by lia.
Qed.

Lemma enc_ADDR e : is_u32 e → PTE_ADDR (enc_entry e) = PTE_ADDR e.
Proof.
  intros He. apply PTE_ADDR_bits; [done|by apply enc_u32|]. intros i Hi.
  rewrite enc_bit by (done || lia). replace (i =? 10) with false by lia.
  replace (i =? 0) with false by lia. by rewrite orb_false_r, andb_true_r.
Qed.

Lemma dec_ADDR e : is_u32 e → PTE_ADDR (dec_entry e) = PTE_ADDR e.
Proof.
  intros He. apply PTE_ADDR_bits; [done|by apply dec_u32|]. intros i Hi.
  rewrite dec_bit by (done || lia). replace (i =? 10) with false by lia.
  replace (i =? 0) with false by lia. by rewrite orb_false_r, andb_true_r.
Qed.

(** Decrypting an encrypted entry restores it. *)
Lemma dec_enc e : is_u32 e → flag e PTE_P = true → flag e PTE_E = false → dec_entry (enc_entry e) = e.
Proof.
  intros He HP HE. change PTE_P with (2 ^ 0) in HP. change PTE_E with (2 ^ 10) in HE.
  rewrite flag_testbit in HP, HE by lia. apply Z.bits_inj'. intros i Hi.
  rewrite dec_bit, enc_bit by (done || by apply enc_u32).
  destruct (Z.eqb_spec i 0) as [->|]; [by rewrite orb_true_r|].
  destruct (Z.eqb_spec i 10) as [->|]; simpl; [by rewrite andb_false_r|].
  by rewrite !orb_false_r, !andb_true_r.
Qed.

Lemma enc_flags e :
  is_u32 e → flag (enc_entry e) PTE_P = false ∧ flag (enc_entry e) PTE_E = true
  ∧ flag (enc_entry e) PTE_W = flag e PTE_W ∧ flag (enc_entry e) PTE_U = flag e PTE_U.
Proof.
  intros He. change PTE_P with (2 ^ 0). change PTE_E with (2 ^ 10).
  change PTE_W with (2 ^ 1). change PTE_U with (2 ^ 2). rewrite !flag_testbit by lia.
  rewrite !enc_bit by (done || lia). simpl. rewrite !orb_false_r, !orb_true_r, !andb_true_r.
  by rewrite andb_false_r.
Qed.

Lemma dec_flags e :
  is_u32 e → flag (dec_entry e) PTE_P = true ∧ flag (dec_entry e) PTE_E = false
  ∧ flag (dec_entry e) PTE_W = flag e PTE_W ∧ flag (dec_entry e) PTE_U = flag e PTE_U.
Proof.
  intros He. change PTE_P with (2 ^ 0). change PTE_E with (2 ^ 10).
  change PTE_W with (2 ^ 1). change PTE_U with (2 ^ 2). rewrite !flag_testbit by lia.
  rewrite !dec_bit by (done || lia). simpl. rewrite ?orb_false_r, ?orb_true_r, ?andb_true_r.
  by rewrite andb_false_r.
Qed.

Lemma mapped_flags e : mapped e = flag e PTE_P || flag e PTE_E.
Proof. unfold mapped. apply flag_lor. Qed.

(** * Lemmas *)

Section MencryptSpec.
Context (kend : Z) (Hkend : KERNLINK <= kend).

Lemma pde_for_writable t : valid_page kend t → flag (pde_for t) PTE_W = true.
Proof using Hkend.
  intros Ht. destruct (valid_V2P kend Hkend t Ht) as (Hu & Ha & _).
  unfold pde_for. rewrite !flag_of_lor. by rewrite orb_true_r.
Qed.

(** The processor's translation in terms of the page-table entry. *)
Lemma hw_addr_spec s own d va w :
  space_inv kend s own → own !! d = Some Dir → is_u32 va →
  hw_addr (ram s) d va w =
  let e := pte_at (ram s) d va in
  if flag e PTE_P && (negb w || flag e PTE_W) then Some (user_addr (ram s) d va) else None.
Proof using Hkend.
  intros Hinv Hd Hva. unfold hw_addr, user_addr, frame_of.
  destruct (pte_cases kend Hkend s own d va Hinv Hd Hva)
    as [(Hf & -> & _)|(t & Ht & Hvt & Hf & -> & _ & Et)]; rewrite Hf; [done|].
  destruct (si_table kend s own Hinv t d _ Ht) as (_ & _ & He).
  rewrite Et, (OFFSET_mod va Hva), He, (pde_for_writable t Hvt). done.
Qed.

(** A present, writable user page of [d]. *)
Definition plain_page (e : Z) : Prop :=
  flag e PTE_P = true ∧ flag e PTE_W = true ∧ flag e PTE_U = true ∧ flag e PTE_E = false.

Lemma flip_loop_spec n s own d va k :
  space_inv kend s own → own !! d = Some Dir → user_va va → va mod 4096 = 0 →
  flag (pte_at (ram s) d va) PTE_P = true → flag (pte_at (ram s) d va) PTE_W = true →
  0 <= k → k + Z.of_nat n = 4096 →
  ∃ m', flip_loop (ram s) d (va + k) n = Ok (va + 4096, m')
    ∧ ∀ b, getb m' b = if decide (frame_of (ram s) d va + k <= b < frame_of (ram s) d va + 4096)
                       then Z.lxor (getb (ram s) b) 255 else getb (ram s) b.
Proof using Hkend.
  revert s k. induction n as [|n IH]; intros s k Hinv Hd Hu Hal HP HW Hk Hn.
  - exists (ram s). assert (k = 4096) as -> by lia. split; [done|]. intros b. by rewrite decide_False by lia.
  - cbn [flip_loop]. pose proof (Z.div_mod va 4096 ltac:(lia)) as Hdm.
    assert (user_va (va + k) ∧ (va + k) / 4096 = va / 4096) as [Huk Ek].
    { unfold user_va, KERNBASE in *.
      assert ((va + k) / 4096 = va / 4096) as E
        by (symmetry; apply (Z.div_unique_pos _ _ _ k); lia).
      split; [|done]. pose proof (Z.div_mod (va + k) 4096). lia. }
    destruct (user_addr_page (ram s) d va k Hu Huk Ek) as [Eu _].
    rewrite (hw_addr_spec s own) by (done || by apply user_va_u32). cbv zeta.
    rewrite (pte_at_page (ram s) d (va + k) va) by (done || by apply user_va_u32).
    rewrite HP, HW. cbn [andb negb orb].
    set (f := frame_of (ram s) d va) in *.
    assert (user_addr (ram s) d (va + k) = f + k) as -> by (rewrite Eu; unfold user_addr, f; lia).
    set (m1 := setb (ram s) (f + k) (Z.lxor (getb (ram s) (f + k)) 255)).
    destruct (write_frame kend Hkend s own d va m1 Hinv Hd Hu) as [Hinv1 Hpte].
    { unfold mapped. rewrite flag_lor, HP. done. }
    { intros b Hb. apply getb_setb_ne. unfold in_page in Hb. fold f in Hb. lia. }
    destruct (Hpte d va Hd (user_va_u32 va Hu)) as [Ep _].
    destruct (IH (set_ram s m1) (k + 1)) as (m' & E & Hb); cbn [ram set_ram];
      rewrite ?Ep; try done; try lia.
    cbn [ram set_ram] in *. rewrite u32_small by (unfold is_u32, user_va, KERNBASE in *; lia).
    rewrite Z.add_assoc in E. exists m'. split; [done|]. intros b. rewrite Hb.
    assert (frame_of m1 d va = f) as -> by (unfold frame_of; by rewrite Ep). unfold m1.
    destruct (decide (b = f + k)) as [->|Hne].
    + rewrite decide_False, decide_True by lia. rewrite getb_setb_eq. apply u8_small.
      apply lxor_byte; [apply getb_range|lia].
    + rewrite getb_setb_ne by lia. repeat case_decide; try lia; done.
Qed.

(** The bytes of the page [f] complemented, all others kept. *)
Definition flipped (m m' : mem) (f : Z) : Prop :=
  ∀ b, getb m' b = if decide (f <= b < f + 4096) then Z.lxor (getb m b) 255 else getb m b.

(** [s'] is [s] with the entry of [va] set to [e] and its frame complemented. *)
Record toggled (s s' : kst) (own : gmap Z role) (d va e : Z) : Prop := {
  tg_ev : evolves kend (at_page d va) (λ _, False) s own s' own;
  tg_pte : pte_at (ram s') d va = e;
  tg_addr : pte_addr (ram s') d va = pte_addr (ram s) d va;
  tg_frame : frame_of (ram s') d va = frame_of (ram s) d va;
  tg_data : ∀ b, in_page (frame_of (ram s) d va) b →
    getb (ram s') b = Z.lxor (getb (ram s) b) 255;
  tg_rest : ∀ b, ¬ in_page (frame_of (ram s) d va) b →
    ¬ (pte_addr (ram s) d va <= b < pte_addr (ram s) d va + 4) →
    getb (ram s') b = getb (ram s) b
}.

Lemma write_frame_evolves s own d va m' :
  space_inv kend s own → own !! d = Some Dir → user_va va →
  mapped (pte_at (ram s) d va) = true →
  (∀ b, ¬ in_page (frame_of (ram s) d va) b → getb m' b = getb (ram s) b) →
  evolves kend (at_page d va) (λ _, False) s own (set_ram s m') own.
Proof using Hkend.
  intros Hinv Hd Hu Hm Hfr.
  destruct (write_frame kend Hkend s own d va m' Hinv Hd Hu Hm Hfr) as [Hinv' Hpte].
  pose proof (frame_owned kend Hkend s own d va Hinv Hd Hu Hm) as Hf.
  split; cbn [ram set_ram]; [done|done|intros; by apply Hpte|].
  intros p r Hp _ Hr. split; [done|]. intros b Hb. apply Hfr. intros Hb'.
  apply (pages_disjoint _ _ b (proj1 (si_valid kend s own Hinv _ _ Hp))
    (proj1 (si_valid kend s own Hinv _ _ Hf))); [|done|done].
  intros ->. rewrite Hf in Hp. injection Hp as <-.
  destruct Hr as [?|(d' & n & E & HR)]; [done|]. injection E as <- <-. by destruct HR.
Qed.

(** Writing the entry of a mapped user page without moving it. *)
Lemma set_entry s own d va e :
  space_inv kend s own → own !! d = Some Dir → user_va va →
  mapped (pte_at (ram s) d va) = true → is_u32 e → mapped e = true →
  PTE_ADDR e = PTE_ADDR (pte_at (ram s) d va) →
  let s' := set_ram s (store32 (ram s) (pte_addr (ram s) d va) e) in
  evolves kend (at_page d va) (λ _, False) s own s' own
  ∧ pte_at (ram s') d va = e ∧ pte_addr (ram s') d va = pte_addr (ram s) d va
  ∧ (∀ b, in_page (frame_of (ram s) d va) b → getb (ram s') b = getb (ram s) b).
Proof using Hkend.
  intros Hinv Hd Hu Hm He Hme HA s'. pose proof (user_va_u32 va Hu) as Hva.
  pose proof (frame_owned kend Hkend s own d va Hinv Hd Hu Hm) as Hf.
  destruct (pte_cases kend Hkend s own d va Hinv Hd Hva)
    as [(_ & H0 & _)|(t & Ht & Hvt & _ & Ep & Ea & _)]; [by rewrite H0 in Hm|].
  unfold s'. rewrite Ea.
  pose proof (reflag_inv kend Hkend s own t d va e Hinv Ht Hva He) as Hev.
  rewrite <- Ep in Hev. specialize (Hev (λ _, conj Hme (conj Hm HA))).
  cbn [ram set_ram]. split_and!; [done| | |].
  - rewrite (write_pte_at kend Hkend s own d t va e) by done. by rewrite decide_True.
  - destruct (pte_cases kend Hkend _ own d va (ev_inv _ _ _ _ _ _ _ Hev) Hd Hva)
      as [(_ & _ & _ & Hno)|(t' & Ht' & _ & _ & _ & Ea' & _)]; [by destruct (Hno t)|].
    cbn [ram set_ram] in Ea'. by rewrite Ea', (table_unique kend Hkend s own t' t d _ Hinv Ht' Ht).
  - pose proof (PTX_range va). intros b Hb. apply (agree_store kend (ram s) t (frame_of (ram s) d va)); try done.
    + by eapply (si_valid kend s own Hinv).
    + congruence.
Qed.

Lemma translate_spec s own d va :
  space_inv kend s own → own !! d = Some Dir → user_va va →
  plain_page (pte_at (ram s) d va) →
  translate_and_set s d va = Ok (frame_of (ram s) d va,
    set_ram s (store32 (ram s) (pte_addr (ram s) d va) (enc_entry (pte_at (ram s) d va)))).
Proof using Hkend.
  intros Hinv Hd Hu (HP & HW & HU & HE). pose proof (user_va_u32 va Hu) as Hva.
  assert (mapped (pte_at (ram s) d va) = true) as Hm by (rewrite mapped_flags, HP; done).
  unfold translate_and_set. rewrite walk_noalloc, bind_Ok. unfold deref32.
  rewrite (pte_addr_nonzero kend Hkend s own) by done. rewrite bind_Ok.
  destruct (pte_cases kend Hkend s own d va Hinv Hd Hva)
    as [(_ & H0 & _)|(t & _ & _ & _ & Ep & Ea & _)]; [by rewrite H0 in Hm|].
  assert (load32 (ram s) (pte_addr (ram s) d va) = pte_at (ram s) d va) as -> by congruence.
  unfold flag in HP, HU. rewrite HE.
  destruct (Z.eqb_spec (Z.land (pte_at (ram s) d va) PTE_P) 0); [done|].
  destruct (Z.eqb_spec (Z.land (pte_at (ram s) d va) PTE_U) 0); [done|]. cbn [andb].
  fold (enc_entry (pte_at (ram s) d va)).
  by rewrite enc_ADDR by apply pte_u32.
Qed.

(** The two halves of a toggle: complement the page, and write the entry. *)
Lemma toggle_intro s own d va e m sa sb :
  space_inv kend s own → own !! d = Some Dir → user_va va →
  mapped (pte_at (ram s) d va) = true → is_u32 e → mapped e = true →
  PTE_ADDR e = PTE_ADDR (pte_at (ram s) d va) →
  flipped (ram s) m (frame_of (ram s) d va) →
  sa = set_ram s m → sb = set_ram sa (store32 (ram sa) (pte_addr (ram sa) d va) e) →
  toggled s sb own d va e.
Proof using Hkend.
  intros Hinv Hd Hu Hm He Hme HA Hfl -> ->. cbn [ram set_ram].
  pose proof (user_va_u32 va Hu) as Hva.
  assert (∀ b, ¬ in_page (frame_of (ram s) d va) b → getb m b = getb (ram s) b) as Hfr.
  { intros b Hb. rewrite Hfl. apply decide_False. unfold in_page in Hb. lia. }
  pose proof (write_frame_evolves s own d va m Hinv Hd Hu Hm Hfr) as Hev1.
  destruct (write_frame kend Hkend s own d va m Hinv Hd Hu Hm Hfr) as [Hinv1 Hpte].
  destruct (Hpte d va Hd Hva) as [Ep Ea].
  destruct (set_entry (set_ram s m) own d va e) as (Hev2 & E2 & A2 & F2);
    cbn [ram set_ram]; rewrite ?Ep; try done.
  cbn [ram set_ram] in *.
  assert (frame_of m d va = frame_of (ram s) d va) as Ef by (unfold frame_of; by rewrite Ep).
  rewrite Ef in F2. split; cbn [ram set_ram].
  - eapply (evolves_mono kend); [| |exact (evolves_trans _ _ _ _ _ _ _ _ _ _ _ Hev1 Hev2)]; naive_solver.
  - done.
  - by rewrite A2.
  - unfold frame_of. rewrite E2. by rewrite HA.
  - intros b Hb. rewrite F2 by done. rewrite Hfl. apply decide_True. done.
  - intros b Hb Hw. rewrite getb_store32_ne by (rewrite Ea; done). by apply Hfr.
Qed.

(** Encrypting one plain page. *)
Lemma encrypt_page s own d va :
  space_inv kend s own → own !! d = Some Dir → user_va va → va mod 4096 = 0 →
  plain_page (pte_at (ram s) d va) →
  ∃ m s2, flip_loop (ram s) d va (Z.to_nat PGSIZE) = Ok (va + 4096, m)
    ∧ translate_and_set (set_ram s m) d va = Ok (frame_of (ram s) d va, s2)
    ∧ toggled s s2 own d va (enc_entry (pte_at (ram s) d va)).
Proof using Hkend.
  intros Hinv Hd Hu Hal Hpl. pose proof Hpl as (HP & HW & HU & HE).
  pose proof (user_va_u32 va Hu) as Hva.
  assert (mapped (pte_at (ram s) d va) = true) as Hm by (rewrite mapped_flags, HP; done).
  destruct (flip_loop_spec (Z.to_nat PGSIZE) s own d va 0) as (m & Efl & Hfl); try done.
  rewrite Z.add_0_r in Efl.
  assert (flipped (ram s) m (frame_of (ram s) d va)) as Hflip.
  { intros b. rewrite Hfl. by rewrite Z.add_0_r. }
  destruct (write_frame kend Hkend s own d va m Hinv Hd Hu Hm) as [Hinv1 Hpte].
  { intros b Hb. rewrite Hflip. apply decide_False. unfold in_page in Hb. lia. }
  destruct (Hpte d va Hd Hva) as [Ep Ea].
  pose proof (translate_spec (set_ram s m) own d va Hinv1 Hd Hu) as Htr.
  cbn [ram set_ram] in Htr. rewrite Ep in Htr. specialize (Htr Hpl).
  assert (frame_of m d va = frame_of (ram s) d va) as Ef by (unfold frame_of; by rewrite Ep).
  rewrite Ef in Htr. eexists m, _. split_and!; [done|exact Htr|].
  pose proof (pte_u32 (ram s) d va) as Hpu.
  eapply (toggle_intro s own d va _ m (set_ram s m)); try done.
  - by apply enc_u32.
  - rewrite mapped_flags. by destruct (enc_flags _ Hpu) as (_ & -> & _); rewrite orb_true_r.
  - by apply enc_ADDR.
Qed.

(** ** Whole ranges *)

(** Same entry, same bytes. *)
Definition page_kept (s s' : kst) (d va : Z) : Prop :=
  pte_at (ram s') d va = pte_at (ram s) d va
  ∧ ∀ b, in_page (frame_of (ram s) d va) b → getb (ram s') b = getb (ram s) b.

(** Marked encrypted and not present, bytes complemented. *)
Definition page_encrypted (s s' : kst) (d va : Z) : Prop :=
  pte_at (ram s') d va = enc_entry (pte_at (ram s) d va)
  ∧ ∀ b, in_page (frame_of (ram s) d va) b → getb (ram s') b = Z.lxor (getb (ram s) b) 255.

(** What [mencrypt] does to one page of its range: a page that is already
    encrypted is left alone. *)
Definition page_after (s s' : kst) (d va : Z) : Prop :=
  if flag (pte_at (ram s) d va) PTE_E then page_kept s s' d va else page_encrypted s s' d va.

(** A user page that [mencrypt] can process: encrypted already, or writable. *)
Definition encryptable (e : Z) : Prop :=
  user_ok e = true ∧ (flag e PTE_E = false → flag e PTE_W = true).

Lemma encryptable_plain e : encryptable e → flag e PTE_E = false → plain_page e.
Proof using.
  intros [Hok HW] HE. rewrite user_ok_alt, mapped_flags, HE, orb_false_r in Hok.
  apply andb_true_iff in Hok as [HP HU]. by split_and!; [|apply HW| |].
Qed.

Lemma kept_of_evolves (R : Z → Z → Prop) s own s' own' d va :
  evolves kend R (λ _, False) s own s' own' → space_inv kend s own → own !! d = Some Dir →
  user_va va → mapped (pte_at (ram s) d va) = true → ¬ R d (va / 4096) → page_kept s s' d va.
Proof using Hkend.
  intros Hev Hinv Hd Hu Hm HR. pose proof (user_va_u32 va Hu).
  pose proof (frame_owned kend Hkend s own d va Hinv Hd Hu Hm) as Hf. split.
  - apply (ev_pte _ _ _ _ _ _ _ Hev); tauto.
  - apply (ev_data _ _ _ _ _ _ _ Hev _ _ Hf); [tauto|]. right. eauto.
Qed.

Lemma page_after_kept s s1 s' d va :
  page_kept s s1 d va → page_after s1 s' d va → page_after s s' d va.
Proof using.
  intros [Ep Hb]. unfold page_after, page_kept, page_encrypted, frame_of. rewrite Ep.
  destruct (flag (pte_at (ram s) d va) PTE_E); intros [-> Hb']; (split; [done|]);
    intros b Hin; rewrite Hb' by done; by rewrite Hb.
Qed.

Lemma page_kept_trans s s1 s' d va :
  page_kept s s1 d va → page_kept s1 s' d va → page_kept s s' d va.
Proof using.
  intros [Ep Hb] [Ep' Hb']. unfold page_kept, frame_of in *. rewrite Ep in *.
  split; [done|]. intros b Hin. by rewrite Hb', Hb.
Qed.

Lemma page_encrypted_kept s s1 s' d va :
  page_encrypted s s1 d va → page_kept s1 s' d va → page_encrypted s s' d va.
Proof using.
  intros [Ep Hb] [Ep' Hb']. unfold page_kept, page_encrypted, frame_of in *. rewrite Ep in *.
  rewrite enc_ADDR in Hb' by apply pte_u32. split; [done|]. intros b Hin. by rewrite Hb', Hb.
Qed.

(** The pages [va], [va + PGSIZE], ... of a range of [n] pages. *)
Definition in_range (va n a : Z) : Prop := va <= a < va + 4096 * n ∧ a mod 4096 = 0.

Lemma encrypt_first s own d va :
  space_inv kend s own → own !! d = Some Dir → user_va va → va mod 4096 = 0 →
  encryptable (pte_at (ram s) d va) →
  ∃ s1, (∀ n, mencrypt_loop s d va (S n) = mencrypt_loop s1 d (u32 (va + 4096)) n)
    ∧ evolves kend (at_page d va) (λ _, False) s own s1 own ∧ page_after s s1 d va.
Proof using Hkend.
  intros Hinv Hd Hu Hal Henc. pose proof (user_va_u32 va Hu) as Hva.
  pose proof (user_ok_mapped _ (proj1 Henc)) as Hm.
  destruct (pte_cases kend Hkend s own d va Hinv Hd Hva)
    as [(_ & H0 & _)|(t & _ & _ & _ & Ep & Ea & _)]; [by rewrite H0 in Hm|].
  assert (load32 (ram s) (pte_addr (ram s) d va) = pte_at (ram s) d va) as El by congruence.
  assert (∀ n, mencrypt_loop s d va (S n) =
    if flag (pte_at (ram s) d va) PTE_E then mencrypt_loop s d (u32 (va + PGSIZE)) n
    else
      '(slider1, m) ← flip_loop (ram s) d va (Z.to_nat PGSIZE);
      '(kvp, s2) ← translate_and_set (set_ram s m) d (u32 (slider1 - PGSIZE));
      if kvp =? 0 then Ok (-1, s2) else mencrypt_loop s2 d slider1 n) as Hstep.
  { intros n. cbn [mencrypt_loop]. rewrite (uva2ka_user kend Hkend s own) by (done || apply Henc).
    rewrite bind_Ok, walk_noalloc, bind_Ok. unfold deref32.
    rewrite (pte_addr_nonzero kend Hkend s own) by done. by rewrite bind_Ok, El. }
  unfold page_after. destruct (flag (pte_at (ram s) d va) PTE_E) eqn:HE.
  { exists s. split_and!; [done|by apply evolves_refl|]. by split. }
  destruct (encrypt_page s own d va Hinv Hd Hu Hal (encryptable_plain _ Henc HE))
    as (m & s2 & Efl & Etr & Htg).
  exists s2. split_and!; [|apply Htg|split; apply Htg].
  intros n. rewrite Hstep, Efl, bind_Ok. unfold PGSIZE.
  replace (va + 4096 - 4096) with va by lia. rewrite (u32_small va Hva), Etr, bind_Ok.
  pose proof (frame_owned kend Hkend s own d va Hinv Hd Hu Hm) as Hf.
  pose proof (valid_page_bounds kend Hkend _ (si_valid kend s own Hinv _ _ Hf)) as (Hb & _).
  destruct (Z.eqb_spec (frame_of (ram s) d va) 0); [unfold KERNBASE, EXTMEM in *; lia|].
  rewrite u32_small; [done|]. unfold is_u32, user_va, KERNBASE in *. lia.
Qed.

Lemma mencrypt_loop_spec n s own d va :
  space_inv kend s own → own !! d = Some Dir → 0 <= va → va + 4096 * Z.of_nat n <= KERNBASE →
  va mod 4096 = 0 →
  (∀ a, in_range va (Z.of_nat n) a → encryptable (pte_at (ram s) d a)) →
  ∃ s', mencrypt_loop s d va n = Ok (0, s')
    ∧ evolves kend (range d va (va + 4096 * Z.of_nat n)) (λ _, False) s own s' own
    ∧ ∀ a, in_range va (Z.of_nat n) a → page_after s s' d a.
Proof using Hkend.
  revert s va. induction n as [|n IH]; intros s va Hinv Hd Hva Htop Hal Hall.
  { exists s. split_and!; [done|by apply evolves_refl|]. unfold in_range. lia. }
  assert (user_va va) as Hu by (unfold user_va, KERNBASE in *; lia).
  assert (∀ a, in_range (va + 4096) (Z.of_nat n) a →
    in_range va (Z.of_nat (S n)) a ∧ user_va a ∧ ¬ at_page d va d (a / 4096)) as Hrest.
  { intros a [Ha Ham]. unfold in_range, user_va, at_page. pose proof (Z.div_mod a 4096).
    pose proof (Z.div_mod va 4096). unfold KERNBASE in *. split_and!; try done; lia. }
  destruct (encrypt_first s own d va Hinv Hd Hu Hal) as (s1 & Hstep & Hev & Haft).
  { apply Hall. unfold in_range. lia. }
  pose proof (ev_inv _ _ _ _ _ _ _ Hev) as Hinv1.
  assert (∀ a, in_range (va + 4096) (Z.of_nat n) a → page_kept s s1 d a) as Hkept.
  { intros a Ha. destruct (Hrest a Ha) as (Hr & Hua & HR).
    apply (kept_of_evolves _ _ _ _ _ d a Hev); try done. by apply user_ok_mapped, Hall. }
  destruct (IH s1 (va + 4096)) as (s' & E & Hev' & Haft'); try done; try lia.
  { by rewrite Zplus_mod, Hal. }
  { intros a Ha. rewrite (proj1 (Hkept a Ha)). by apply Hall, Hrest. }
  exists s'. split_and!.
  - rewrite Hstep, u32_small; [done|]. unfold is_u32, user_va, KERNBASE in *. lia.
  - eapply (evolves_mono kend); [| |exact (evolves_trans _ _ _ _ _ _ _ _ _ _ _ Hev Hev')];
      [|intros p [[]|[]]].
    intros d' k [[-> ->]|[-> Hk]]; (split; [done|]); [|lia]. pose proof (Z.div_mod va 4096). lia.
  - intros a Ha. destruct (decide (a = va)) as [->|Hne].
    + assert (mapped (pte_at (ram s1) d va) = true) as Hm1.
      { unfold page_after in Haft. pose proof (Hall va Ha) as [Hok _].
        destruct (flag (pte_at (ram s) d va) PTE_E); destruct Haft as [-> _];
          [by apply user_ok_mapped|].
        rewrite mapped_flags. destruct (enc_flags _ (pte_u32 (ram s) d va)) as (_ & -> & _).
        apply orb_true_r. }
      assert (page_kept s1 s' d va) as Hk1.
      { apply (kept_of_evolves _ _ _ _ _ d va Hev'); try done. unfold range.
        pose proof (Z.div_mod va 4096). lia. }
      unfold page_after in *. destruct (flag _ _);
        [by eapply page_kept_trans|by eapply page_encrypted_kept].
    + assert (in_range (va + 4096) (Z.of_nat n) a) as Ha'.
      { unfold in_range in *. pose proof (Z.div_mod a 4096). pose proof (Z.div_mod va 4096). lia. }
      eapply page_after_kept; [by apply Hkept|by apply Haft'].
Qed.

Lemma mencrypt_check_spec n s own d va :
  space_inv kend s own → own !! d = Some Dir → 0 <= va → va + 4096 * Z.of_nat n <= KERNBASE →
  va mod 4096 = 0 → (∀ a, in_range va (Z.of_nat n) a → pte_addr (ram s) d a ≠ 0) →
  (mencrypt_check s d va n = Ok true
     ∧ ∀ a, in_range va (Z.of_nat n) a → user_ok (pte_at (ram s) d a) = true)
  ∨ (mencrypt_check s d va n = Ok false
     ∧ ∃ a, in_range va (Z.of_nat n) a ∧ user_ok (pte_at (ram s) d a) = false).
Proof using Hkend.
  intros Hinv Hd. revert va. induction n as [|n IH]; intros va Hva Htop Hal Htab.
  { left. split; [done|]. unfold in_range. lia. }
  assert (user_va va) as Hu by (unfold user_va, KERNBASE in *; lia).
  assert (∀ a, in_range va (Z.of_nat (S n)) a ↔ a = va ∨ in_range (va + 4096) (Z.of_nat n) a) as Hsplit.
  { intros a. unfold in_range. pose proof (Z.div_mod a 4096). pose proof (Z.div_mod va 4096).
    rewrite Nat2Z.inj_succ. split; [intros [? ?]|intros [->|[? ?]]]; lia. }
  cbn [mencrypt_check]. rewrite (uva2ka_spec kend Hkend s own) by (done || by apply user_va_u32).
  rewrite (proj2 (Z.eqb_neq _ _) (Htab va (proj2 (Hsplit va) (or_introl eq_refl)))).
  destruct (user_ok (pte_at (ram s) d va)) eqn:Hok; rewrite bind_Ok.
  2:{ right. split; [done|]. exists va. split; [by apply Hsplit; left|done]. }
  pose proof (frame_owned kend Hkend s own d va Hinv Hd Hu (user_ok_mapped _ Hok)) as Hf.
  pose proof (valid_page_bounds kend Hkend _ (si_valid kend s own Hinv _ _ Hf)) as (Hb & _).
  destruct (Z.eqb_spec (frame_of (ram s) d va) 0); [unfold KERNBASE, EXTMEM in *; lia|].
  unfold PGSIZE. rewrite u32_small by (unfold is_u32, user_va, KERNBASE in *; lia).
  destruct (IH (va + 4096)) as [[-> Hall]|(-> & a & Ha & Hbad)]; try lia.
  - by rewrite Zplus_mod, Hal.
  - intros a Ha. apply Htab, Hsplit. by right.
  - left. split; [done|]. intros a [->|Ha]%Hsplit; [done|by apply Hall].
  - right. split; [done|]. exists a. split; [apply Hsplit; by right|done].
Qed.

(** ** Decryption *)

(** An entry [mencrypt] wrote for a writable user page. *)
Definition sealed_page (e : Z) : Prop :=
  flag e PTE_P = false ∧ flag e PTE_W = true ∧ flag e PTE_U = true ∧ flag e PTE_E = true.

Lemma sealed_enc e : is_u32 e → plain_page e → sealed_page (enc_entry e).
Proof using.
  intros He (HP & HW & HU & HE). destruct (enc_flags e He) as (H1 & H2 & H3 & H4).
  unfold sealed_page. by rewrite H1, H2, H3, H4.
Qed.

Lemma page_of_addr va :
  user_va va → PGROUNDDOWN va = va / 4096 * 4096 ∧ user_va (va / 4096 * 4096)
    ∧ va / 4096 * 4096 / 4096 = va / 4096 ∧ (va / 4096 * 4096) mod 4096 = 0.
Proof using.
  intros Hu. pose proof (Z.div_mod va 4096). pose proof (Z.mod_pos_bound va 4096).
  rewrite PGROUNDDOWN_mod by (by apply user_va_u32). unfold user_va, KERNBASE in *.
  split_and!; [lia|lia|lia|by apply Z.div_mul|by apply Z_mod_mult].
Qed.

(** The entry is written before the page is complemented. *)
Lemma mdecrypt_spec s own d va :
  space_inv kend s own → own !! d = Some Dir → user_va va → sealed_page (pte_at (ram s) d va) →
  let va0 := va / 4096 * 4096 in
  (getb (ram s) (frame_of (ram s) d va) = 0 ∧ ∃ s1, mdecrypt s d va = Ok (-1, s1))
  ∨ (getb (ram s) (frame_of (ram s) d va) ≠ 0 ∧
     ∃ s', mdecrypt s d va = Ok (0, s') ∧ toggled s s' own d va0 (dec_entry (pte_at (ram s) d va))).
Proof using Hkend.
  intros Hinv Hd Hu (HP & HW & HU & HE) va0. pose proof (user_va_u32 va Hu) as Hva.
  destruct (page_of_addr va Hu) as (Edn & Hu0 & En & Hal). fold va0 in Edn, Hu0, En, Hal.
  assert (pte_at (ram s) d va0 = pte_at (ram s) d va) as Ep0
    by (apply pte_at_page; [by apply user_va_u32..|done]).
  set (e := pte_at (ram s) d va) in *. pose proof (pte_u32 (ram s) d va) as He.
  assert (mapped e = true) as Hm by (rewrite mapped_flags, HE; apply orb_true_r).
  destruct (dec_flags e He) as (HP' & HE' & HW' & HU').
  assert (mapped (dec_entry e) = true) as Hm' by (by rewrite mapped_flags, HP').
  destruct (pte_cases kend Hkend s own d va Hinv Hd Hva)
    as [(_ & H0 & _)|(t & _ & _ & _ & Ep & Ea & _)]; [by fold e in H0; rewrite H0 in Hm|].
  assert (load32 (ram s) (pte_addr (ram s) d va) = e) as El by (unfold e; congruence).
  assert (pte_addr (ram s) d va0 = pte_addr (ram s) d va) as Ea0.
  { unfold pte_addr. by destruct (vpn_eq va0 va (user_va_u32 _ Hu0) Hva En) as [-> ->]. }
  unfold mdecrypt. rewrite walk_noalloc, bind_Ok, (pte_addr_nonzero kend Hkend s own), El by done.
  destruct (Z.eqb_spec e 0) as [E0|_]; [by rewrite E0 in Hm|]. cbn [orb]. fold (dec_entry e).
  destruct (set_entry s own d va0 (dec_entry e)) as (Hev1 & E1 & A1 & F1);
    rewrite ?Ep0; try done; [by apply dec_u32|by apply dec_ADDR|].
  rewrite Ea0 in Hev1, E1, A1, F1.
  set (s1 := set_ram s (store32 (ram s) (pte_addr (ram s) d va) (dec_entry e))) in *.
  pose proof (ev_inv _ _ _ _ _ _ _ Hev1) as Hinv1.
  assert (pte_at (ram s1) d va = dec_entry e) as E1'.
  { rewrite <- E1. by apply pte_at_page; [|apply user_va_u32|]. }
  assert (user_ok (dec_entry e) = true) as Hok' by (by rewrite user_ok_alt, Hm', HU').
  rewrite (uva2ka_user kend Hkend s1 own d va) by (done || by rewrite E1').
  rewrite bind_Ok, Edn.
  rewrite (uva2ka_user kend Hkend s1 own d va0) by (done || (by apply user_va_u32) || by rewrite E1).
  rewrite bind_Ok.
  assert (frame_of (ram s) d va0 = frame_of (ram s) d va) as Ef0 by (unfold frame_of; by rewrite Ep0).
  rewrite Ef0 in F1. set (f := frame_of (ram s) d va) in *.
  assert (frame_of (ram s1) d va0 = f) as Ef.
  { unfold frame_of. rewrite E1. unfold f, frame_of. f_equal. by apply dec_ADDR. }
  rewrite Ef.
  pose proof (frame_owned kend Hkend s own d va Hinv Hd Hu Hm) as Hf.
  pose proof (valid_page_bounds kend Hkend _ (si_valid kend s own Hinv _ _ Hf)) as (Hb & _).
  fold f in Hb. destruct (Z.eqb_spec f 0); [unfold KERNBASE, EXTMEM in *; lia|]. cbn [orb].
  rewrite F1 by (unfold in_page; lia).
  destruct (Z.eqb_spec (getb (ram s) f) 0) as [Hz|Hnz].
  { left. split; [done|]. eauto. }
  right. split; [done|].
  destruct (flip_loop_spec (Z.to_nat PGSIZE) s1 own d va0 0) as (m & Efl & Hfl);
    rewrite ?E1, ?HP', ?HW'; try done.
  rewrite Z.add_0_r in Efl. rewrite Efl, bind_Ok. eexists. split; [done|].
  rewrite Ef in Hfl.
  assert (∀ b, ¬ in_page f b → getb m b = getb (ram s1) b) as Hfr.
  { intros b Hbn. rewrite Hfl. apply decide_False. unfold in_page in Hbn. lia. }
  pose proof (write_frame kend Hkend s1 own d va0 m Hinv1 Hd Hu0) as Hwf.
  rewrite E1, Ef in Hwf. destruct (Hwf Hm' Hfr) as [_ Hpte].
  destruct (Hpte d va0 Hd (user_va_u32 _ Hu0)) as [Ep2 Ea2].
  pose proof (write_frame_evolves s1 own d va0 m Hinv1 Hd Hu0) as Hev2.
  rewrite E1, Ef in Hev2. specialize (Hev2 Hm' Hfr).
  split; cbn [ram set_ram]; rewrite ?Ef0.
  - eapply (evolves_mono kend); [| |exact (evolves_trans _ _ _ _ _ _ _ _ _ _ _ Hev1 Hev2)];
      [by intros ? ? [?|?]|intros ? [[]|[]]].
  - by rewrite Ep2.
  - by rewrite Ea2, A1, Ea0.
  - rewrite <- Ef. unfold frame_of. by rewrite Ep2.
  - intros b Hbi. rewrite Hfl, decide_True by (rewrite Z.add_0_r; done). by rewrite F1.
  - intros b Hbi Hbw. rewrite Hfr by done. rewrite Ea0 in Hbw. by apply getb_store32_ne.
Qed.

(** ** A user access to a sealed page *)

Lemma touch_sealed s own d va w :
  space_inv kend s own → own !! d = Some Dir → user_va va → sealed_page (pte_at (ram s) d va) →
  (getb (ram s) (frame_of (ram s) d va) = 0 ∧ touch s d va w = Panic "p4Debug: Memory fault")
  ∨ (getb (ram s) (frame_of (ram s) d va) ≠ 0 ∧
     ∃ s', touch s d va w = Ok (user_addr (ram s) d va, s')
       ∧ toggled s s' own d (va / 4096 * 4096) (dec_entry (pte_at (ram s) d va))).
Proof using Hkend.
  intros Hinv Hd Hu Hs. pose proof (user_va_u32 va Hu) as Hva. pose proof Hs as (HP & HW & _).
  destruct (page_of_addr va Hu) as (_ & Hu0 & En & _).
  unfold touch, trap_pgflt. rewrite (hw_addr_spec s own) by done. cbv zeta. rewrite HP. cbn [andb].
  destruct (mdecrypt_spec s own d va Hinv Hd Hu Hs) as [(Hz & s1 & ->)|(Hnz & s' & -> & Htg)].
  { left. done. }
  right. split; [done|]. rewrite bind_Ok. cbn [Z.eqb negb]. rewrite bind_Ok. exists s'.
  rewrite (hw_addr_spec s' own d va) by (done || by eapply ev_inv, tg_ev). cbv zeta.
  pose proof (tg_pte _ _ _ _ _ _ Htg) as Ep.
  rewrite (pte_at_page _ d _ va (user_va_u32 _ Hu0) Hva En) in Ep. rewrite Ep.
  destruct (dec_flags _ (pte_u32 (ram s) d va)) as (-> & _ & -> & _). rewrite HW, orb_true_r.
  split; [|done]. do 2 f_equal. unfold user_addr, frame_of. rewrite Ep.
  by rewrite dec_ADDR by apply pte_u32.
Qed.

(** The first byte decides whether an encrypted page can be recovered. *)
Lemma reveal s s1 own d va w :
  space_inv kend s own → space_inv kend s1 own → own !! d = Some Dir → user_va va →
  plain_page (pte_at (ram s) d va) → page_encrypted s s1 d (va / 4096 * 4096) →
  if decide (user_byte (ram s) d (va / 4096 * 4096) = 255)
  then touch s1 d va w = Panic "p4Debug: Memory fault"
  else ∃ s2, touch s1 d va w = Ok (user_addr (ram s) d va, s2)
    ∧ evolves kend (at_page d va) (λ _, False) s1 own s2 own
    ∧ page_kept s s2 d (va / 4096 * 4096).
Proof using Hkend.
  intros Hinv Hinv1 Hd Hu Hpl [Ee Hb]. pose proof (user_va_u32 va Hu) as Hva.
  destruct (page_of_addr va Hu) as (_ & Hu0 & En & Hal). set (va0 := va / 4096 * 4096) in *.
  pose proof (user_va_u32 _ Hu0) as Hva0. pose proof (pte_u32 (ram s) d va) as Hpu.
  assert (pte_at (ram s) d va0 = pte_at (ram s) d va) as Ep0 by (by apply pte_at_page).
  assert (pte_at (ram s1) d va = enc_entry (pte_at (ram s) d va)) as E1.
  { rewrite (pte_at_page _ d va va0), Ee by done. by rewrite Ep0. }
  assert (frame_of (ram s1) d va = frame_of (ram s) d va0) as Ef.
  { unfold frame_of. by rewrite E1, enc_ADDR, Ep0. }
  assert (frame_of (ram s1) d va0 = frame_of (ram s) d va0) as Ef0.
  { unfold frame_of. rewrite Ee. by rewrite enc_ADDR by apply pte_u32. }
  assert (user_byte (ram s) d va0 = getb (ram s) (frame_of (ram s) d va0)) as Eb.
  { unfold user_byte, user_addr. by rewrite Hal, Z.add_0_r. }
  assert (getb (ram s1) (frame_of (ram s1) d va) = Z.lxor (user_byte (ram s) d va0) 255) as Efirst.
  { rewrite Ef, Eb. apply Hb. unfold in_page. lia. }
  destruct (touch_sealed s1 own d va w Hinv1 Hd Hu) as [(Hz & Ht)|(Hnz & s2 & Ht & Htg)].
  { rewrite E1. by apply sealed_enc. }
  - rewrite Efirst in Hz. apply Z.lxor_eq in Hz. by rewrite decide_True.
  - rewrite decide_False by (intros E; rewrite Efirst, E in Hnz; done).
    exists s2. fold va0 in Htg. split_and!.
    + rewrite Ht. do 2 f_equal. unfold user_addr, frame_of. by rewrite E1, enc_ADDR.
    + eapply (evolves_mono kend); [| |exact (tg_ev _ _ _ _ _ _ Htg)]; [|by intros ? []].
      intros d' k [-> ->]. split; [done|done].
    + split.
      * rewrite (tg_pte _ _ _ _ _ _ Htg), E1, Ep0. apply dec_enc; [done|apply Hpl..].
      * intros b Hin. rewrite (tg_data _ _ _ _ _ _ Htg) by (by rewrite Ef0).
        rewrite Hb by done. apply lxor_cancel.
Qed.

Lemma mencrypt_spec s own d va len :
  space_inv kend s own → own !! d = Some Dir → is_u32 va → 0 <= len →
  PGROUNDDOWN va + 4096 * len <= KERNBASE →
  (∀ a, in_range (PGROUNDDOWN va) len a → pte_addr (ram s) d a ≠ 0) →
  (∀ a, in_range (PGROUNDDOWN va) len a → flag (pte_at (ram s) d a) PTE_E = false →
     flag (pte_at (ram s) d a) PTE_W = true) →
  ∃ r s', mencrypt s d va len = Ok (r, s') ∧
    ((r = -1 ∧ s' = s
        ∧ ∃ a, in_range (PGROUNDDOWN va) len a ∧ user_ok (pte_at (ram s) d a) = false)
     ∨ (r = 0 ∧ evolves kend (range d (PGROUNDDOWN va) (PGROUNDDOWN va + 4096 * len))
                  (λ _, False) s own s' own
        ∧ ∀ a, in_range (PGROUNDDOWN va) len a →
            user_ok (pte_at (ram s) d a) = true ∧ page_after s s' d a)).
Proof using Hkend.
  intros Hinv Hd Hva Hlen Htop Htab HW. unfold mencrypt.
  assert (0 <= PGROUNDDOWN va ∧ PGROUNDDOWN va mod 4096 = 0) as [Hge Hal].
  { rewrite PGROUNDDOWN_mod by done. unfold is_u32 in Hva. pose proof (Z.div_mod va 4096).
    replace (va - va mod 4096) with (va / 4096 * 4096) by lia.
    split; [|by apply Z_mod_mult]. pose proof (Z.div_pos va 4096). lia. }
  set (va0 := PGROUNDDOWN va) in *.
  replace len with (Z.of_nat (Z.to_nat len)) in * by lia. rewrite Nat2Z.id.
  set (n := Z.to_nat len) in *. clearbody n va0.
  destruct (mencrypt_check_spec n s own d va0) as [[-> Hall]|(-> & a & Ha & Hbad)]; try done.
  - rewrite bind_Ok. cbn [negb].
    destruct (mencrypt_loop_spec n s own d va0) as (s' & E & Hev & Haft); try done.
    { intros a Ha. split; [by apply Hall|by apply HW]. }
    exists 0, s'. split; [done|]. right. split_and!; [done|done|].
    intros a Ha. split; [by apply Hall|by apply Haft].
  - rewrite bind_Ok. cbn [negb]. exists (-1), s. split; [done|]. left. eauto.
Qed.

Lemma user_check e :
  (Z.land e PTE_U =? 0) || (Z.land e (Z.lor PTE_P PTE_E) =? 0) = negb (user_ok e).
Proof using.
  rewrite user_ok_alt. unfold mapped, flag.
  destruct (Z.land e PTE_U =? 0), (Z.land e (Z.lor PTE_P PTE_E) =? 0); done.
Qed.

Lemma load_pte s own d va :
  space_inv kend s own → own !! d = Some Dir → is_u32 va → pte_addr (ram s) d va ≠ 0 →
  load32 (ram s) (pte_addr (ram s) d va) = pte_at (ram s) d va.
Proof using Hkend.
  intros Hinv Hd Hva Hne. destruct (pte_cases kend Hkend s own d va Hinv Hd Hva)
    as [(_ & _ & H0 & _)|(t & _ & _ & _ & -> & -> & _)]; done.
Qed.

(** ** getpgtable *)

(** The user pages at or below page number [k], highest first. *)
Fixpoint user_pages (m : mem) (d : Z) (k : nat) : list Z :=
  let va := 4096 * Z.of_nat k in
  (if user_ok (pte_at m d va) then [va] else [])
  ++ match k with O => [] | S k' => user_pages m d k' end.

(** What the loop reports when it starts at index [i]: at most [num - i] pages,
    but every page when [num] is not above [i]. *)
Definition reported (m : mem) (d num i : Z) (k : nat) : list Z :=
  if i <? num then take (Z.to_nat (num - i)) (user_pages m d k) else user_pages m d k.

(** The buffer after the entries for the pages [l] were stored from [i] on. *)
Fixpoint store_entries (m : mem) (d i : Z) (buf : gmap Z pt_entry) (l : list Z) : gmap Z pt_entry :=
  match l with
  | [] => buf
  | va :: l' =>
      store_entries m d (i + 1)
        (<[i := fill_entry (default zero_entry (buf !! i)) va (pte_at m d va)]> buf) l'
  end.

Lemma getpgtable_loop_spec k s own d num i buf :
  space_inv kend s own → own !! d = Some Dir → 4096 * Z.of_nat k < KERNBASE →
  (∀ j, (j <= k)%nat → pte_addr (ram s) d (4096 * Z.of_nat j) ≠ 0) →
  user_ok (pte_at (ram s) d 0) = true →
  getpgtable_loop s d (4096 * Z.of_nat k) num i buf (S k) =
  Ok (i + Z.of_nat (length (reported (ram s) d num i k)),
      store_entries (ram s) d i buf (reported (ram s) d num i k)).
Proof using Hkend.
  intros Hinv Hd. revert i buf. induction k as [|k IH]; intros i buf Htop Htab H0.
  - cbn [getpgtable_loop]. rewrite walk_noalloc, bind_Ok. unfold deref32.
    rewrite (proj2 (Z.eqb_neq _ _) (Htab 0%nat ltac:(lia))), bind_Ok.
    change (4096 * Z.of_nat 0) with 0.
    rewrite (load_pte s own) by (done || by apply (Htab 0%nat); lia).
    rewrite user_check, H0. cbn [negb Z.eqb orb].
    unfold reported. cbn [user_pages app]. change (4096 * Z.of_nat 0) with 0. rewrite H0. simpl.
    destruct (Z.ltb_spec i num); [|done].
    destruct (Z.to_nat (num - i)) eqn:E; [lia|]. simpl. by rewrite take_nil.
  - set (va := 4096 * Z.of_nat (S k)) in *. remember (S k) as f eqn:Ef.
    cbn [getpgtable_loop]. rewrite walk_noalloc, bind_Ok. unfold deref32. subst f.
    pose proof (Htab (S k) ltac:(lia)) as Hpa. fold va in Hpa.
    rewrite (proj2 (Z.eqb_neq _ _) Hpa), bind_Ok.
    assert (u32 (va - PGSIZE) = 4096 * Z.of_nat k) as Enext.
    { unfold va, PGSIZE, KERNBASE in *. rewrite u32_small by (unfold is_u32; lia). lia. }
    assert (is_u32 va) as Hva by (unfold is_u32, va, KERNBASE in *; lia).
    rewrite Enext, (load_pte s own), user_check by done.
    unfold reported. cbn [user_pages]. fold va.
    destruct (user_ok (pte_at (ram s) d va)) eqn:Hok; cbn [negb app].
    + replace (va =? 0) with false by lia. cbn [orb].
      destruct (Z.eqb_spec (i + 1) num) as [E|E].
      * replace (i <? num) with true by lia. replace (num - i) with 1 by lia.
        change (Z.to_nat 1) with 1%nat. cbn [take store_entries length]. done.
      * rewrite IH by (done || (unfold KERNBASE in *; lia) || (intros; apply Htab; lia)).
        unfold reported. destruct (Z.ltb_spec i num), (Z.ltb_spec (i + 1) num); try lia.
        -- replace (Z.to_nat (num - i)) with (S (Z.to_nat (num - (i + 1)))) by lia.
           cbn [take store_entries length]. do 2 f_equal. lia.
        -- cbn [store_entries length]. do 2 f_equal. lia.
    + by rewrite IH by (done || (unfold KERNBASE in *; lia) || (intros; apply Htab; lia)).
Qed.

End MencryptSpec.

(** [getpgtable] starts at the page of the last byte of the process. *)
Lemma last_page sz :
  0 < sz <= KERNBASE →
  (if sz mod PGSIZE =? 0 then u32 (sz - PGSIZE) else PGROUNDDOWN sz)
  = 4096 * Z.of_nat (Z.to_nat ((sz - 1) / 4096)).
Proof.
  intros Hsz. unfold PGSIZE, KERNBASE in *.
  rewrite Z2Nat.id by (apply Z.div_pos; lia). pose proof (Z.div_mod sz 4096 ltac:(lia)).
  destruct (Z.eqb_spec (sz mod 4096) 0) as [E|E].
  - rewrite u32_small by (unfold is_u32; lia).
    assert ((sz - 1) / 4096 = sz / 4096 - 1) as ->; [|lia].
    symmetry. apply (Z.div_unique_pos _ _ _ 4095); lia.
  - rewrite PGROUNDDOWN_mod by (unfold is_u32; lia).
    assert ((sz - 1) / 4096 = sz / 4096) as ->; [|lia].
    pose proof (Z.mod_pos_bound sz 4096).
    symmetry. apply (Z.div_unique_pos _ _ _ (sz mod 4096 - 1)); lia.
Qed.

Lemma plain_of_flags e : is_u32 e → PTE_FLAGS e = 7 → plain_page e.
Proof.
  intros He H. unfold plain_page.
  rewrite <- !(flag_FLAGS e) by (done || reflexivity). by rewrite H.
Qed.

(** What an access finds after [mencrypt], by the first byte of the page. *)
Lemma mencrypt_reveal kend s own d va len s1 a w :
  KERNLINK <= kend → space_inv kend s own → own !! d = Some Dir → is_u32 va → 0 <= len →
  PGROUNDDOWN va + 4096 * len <= KERNBASE →
  (∀ b, in_range (PGROUNDDOWN va) len b → pte_addr (ram s) d b ≠ 0) →
  (∀ b, in_range (PGROUNDDOWN va) len b → flag (pte_at (ram s) d b) PTE_E = false →
     flag (pte_at (ram s) d b) PTE_W = true) →
  mencrypt s d va len = Ok (0, s1) →
  user_va a → in_range (PGROUNDDOWN va) len (a / 4096 * 4096) →
  plain_page (pte_at (ram s) d a) →
  if decide (user_byte (ram s) d (a / 4096 * 4096) = 255)
  then touch s1 d a w = Panic "p4Debug: Memory fault"
  else ∃ s2, touch s1 d a w = Ok (user_addr (ram s) d a, s2)
    ∧ evolves kend (at_page d a) (λ _, False) s1 own s2 own
    ∧ page_kept s s2 d (a / 4096 * 4096).
Proof.
  intros Hk Hinv Hd Hva Hlen Htop Htab HW E Hu Hin Hpl.
  destruct (mencrypt_spec kend Hk s own d va len) as (r & s' & E' & Hc); try done.
  rewrite E in E'. injection E' as <- <-. destruct Hc as [[? _]|(_ & Hev & Haft)]; [done|].
  destruct (Haft _ Hin) as [_ Hp]. destruct (page_of_addr a Hu) as (_ & Hu0 & En & _).
  apply (reveal kend Hk s s1 own d a w Hinv (ev_inv _ _ _ _ _ _ _ Hev) Hd Hu Hpl).
  unfold page_after in Hp.
  rewrite (pte_at_page _ d _ a (user_va_u32 _ Hu0) (user_va_u32 _ Hu) En) in Hp.
  destruct Hpl as (_ & _ & _ & HE). by rewrite HE in Hp.
Qed.

#[local] Opaque demo_s demo_own.

(** A process of two plain pages whose first byte is [c]. *)
Definition demo_state (s : kst) (own : gmap Z role) (c : Z) : Prop :=
  space_inv demo_kend s own ∧ own !! demo_d = Some Dir
  ∧ (∀ a, in_range 0 2 a → pte_addr (ram s) demo_d a ≠ 0)
  ∧ (∀ a, 0 <= a < 8192 → plain_page (pte_at (ram s) demo_d a))
  ∧ user_byte (ram s) demo_d 0 = c.

Lemma demo_state_0 : ∃ s own, demo_state s own 0.
Proof.
  destruct demo_grown as (s1 & own1 & E1 & Hinv & Hd & Hu). exists s1, own1. split_and!.
  - assumption.
  - assumption.
  - intros a Ha. apply Z.eqb_neq.
    apply (pte_addr_nonzero demo_kend demo_kend_ok s1 own1); [assumption|assumption| |].
    + unfold is_u32, in_range in *. lia.
    + apply user_ok_mapped, Hu. unfold in_range in *. lia.
  - intros a Ha. destruct (Hu a Ha) as (Hf & _). apply (plain_of_flags _ (pte_u32 _ _ _) Hf).
  - apply (Hu 0). lia.
Qed.

Lemma demo_state_255 : ∃ s own, demo_state s own 255.
Proof.
  destruct demo_state_0 as (s & own & Hinv & Hd & Htab & Hpl & _).
  assert (user_va 0) as Hu by (split; [lia|reflexivity]).
  set (m := setb (ram s) (user_addr (ram s) demo_d 0) 255).
  destruct (write_frame demo_kend demo_kend_ok s own demo_d 0 m Hinv Hd Hu) as [Hinv' Hpte].
  { rewrite mapped_flags. destruct (Hpl 0 ltac:(lia)) as (-> & _). reflexivity. }
  { intros b Hb. apply getb_setb_ne. intros <-. destruct Hb. by apply user_addr_in. }
  exists (set_ram s m), own. split_and!; cbn [ram set_ram].
  - assumption.
  - assumption.
  - intros a Ha. destruct (Hpte demo_d a Hd) as [_ ->]; [|auto].
    unfold is_u32, in_range in *. lia.
  - intros a Ha. destruct (Hpte demo_d a Hd) as [-> _]; [|auto]. unfold is_u32. lia.
  - destruct (Hpte demo_d 0 Hd) as [E _]; [split; [lia|reflexivity]|].
    unfold user_byte, user_addr, frame_of. rewrite E. apply getb_setb_eq.
Qed.

(** Its two pages can be encrypted. *)
Lemma demo_encrypts s own c :
  demo_state s own c →
  (∀ a, in_range (PGROUNDDOWN 0) 2 a → flag (pte_at (ram s) demo_d a) PTE_E = false →
     flag (pte_at (ram s) demo_d a) PTE_W = true)
  ∧ ∃ s', mencrypt s demo_d 0 2 = Ok (0, s').
Proof.
  intros (Hinv & Hd & Htab & Hpl & _).
  assert (∀ a, in_range (PGROUNDDOWN 0) 2 a → 0 <= a < 8192) as Hr
    by (change (PGROUNDDOWN 0) with 0; unfold in_range; lia).
  split; [intros a Ha _; apply Hpl; auto|].
  destruct (mencrypt_spec demo_kend demo_kend_ok s own demo_d 0 2) as (r & s2 & E2 & Hc);
    [exact Hinv|exact Hd|split; [lia|reflexivity]|lia|vm_compute; congruence
    |exact Htab|intros a Ha _; apply Hpl; auto|].
  destruct Hc as [(_ & _ & a & Ha & Hbad)|(-> & _)]; [|eauto].
  exfalso. destruct (Hpl a (Hr a Ha)) as (HP & _ & HU & _).
  by rewrite user_ok_alt, mapped_flags, HP, HU in Hbad.
Qed.

(** * Properties *)

(** C10.  Encryption is all or nothing.  Where the page tables of the range exist
    and its pages are writable, [mencrypt] returns.  If some page of the range
    is not a mapped user page it returns -1 and nothing at all has changed.
    Otherwise it returns 0; every page of the range that was not encrypted
    before is now marked encrypted and not present with each of its bytes
    complemented, pages that were encrypted already are untouched, and no
    other page or mapping changes. *)
Theorem mencrypt_all_or_nothing kend s own d va len :
  KERNLINK <= kend → space_inv kend s own → own !! d = Some Dir → is_u32 va → 0 <= len →
  PGROUNDDOWN va + 4096 * len <= KERNBASE →
  (∀ a, in_range (PGROUNDDOWN va) len a → pte_addr (ram s) d a ≠ 0) →
  (∀ a, in_range (PGROUNDDOWN va) len a → flag (pte_at (ram s) d a) PTE_E = false →
     flag (pte_at (ram s) d a) PTE_W = true) →
  ∃ r s', mencrypt s d va len = Ok (r, s') ∧
    ((r = -1 ∧ s' = s
        ∧ ∃ a, in_range (PGROUNDDOWN va) len a ∧ user_ok (pte_at (ram s) d a) = false)
     ∨ (r = 0 ∧ evolves kend (range d (PGROUNDDOWN va) (PGROUNDDOWN va + 4096 * len))
                  (λ _, False) s own s' own
        ∧ ∀ a, in_range (PGROUNDDOWN va) len a →
            user_ok (pte_at (ram s) d a) = true ∧ page_after s s' d a)).
Proof. intros Hk. by apply mencrypt_spec. Qed.

(** C10 on a process of two pages: they are encrypted. *)
Lemma mencrypt_all_or_nothing_witness :
  ∃ s own s', demo_state s own 0 ∧ mencrypt s demo_d 0 2 = Ok (0, s')
    ∧ page_encrypted s s' demo_d 4096.
Proof.
  destruct demo_state_0 as (s & own & Hst). destruct (demo_encrypts s own 0 Hst) as (HW & s' & E).
  pose proof Hst as (Hinv & Hd & Htab & Hpl & _).
  destruct (mencrypt_all_or_nothing demo_kend s own demo_d 0 2) as (r & s2 & E2 & Hc);
    [apply demo_kend_ok|exact Hinv|exact Hd|split; [lia|reflexivity]|lia
    |vm_compute; congruence|exact Htab|exact HW|].
  rewrite E in E2. injection E2 as <- <-. destruct Hc as [(? & _)|(_ & _ & Haft)]; [discriminate|].
  exists s, own, s'. split_and!; [assumption|assumption|].
  destruct (Haft 4096) as [_ Hp]; [split; [vm_compute; split; congruence|reflexivity]|].
  destruct (Hpl 4096 ltac:(lia)) as (_ & _ & _ & HE). unfold page_after in Hp.
  rewrite HE in Hp. exact Hp.
Defined.

(** C11.  Transparent decryption.  After a successful [mencrypt], the first
    access of the process to any address of a page that was plain before, and
    whose first byte is not 0xFF, faults once, returns the same physical byte
    address, and leaves that page with its original entry and its original
    4096 bytes; every other page of every address space is as after
    [mencrypt]. *)
Theorem encrypt_access_roundtrip kend s own d va len s1 a w :
  KERNLINK <= kend → space_inv kend s own → own !! d = Some Dir → is_u32 va → 0 <= len →
  PGROUNDDOWN va + 4096 * len <= KERNBASE →
  (∀ b, in_range (PGROUNDDOWN va) len b → pte_addr (ram s) d b ≠ 0) →
  (∀ b, in_range (PGROUNDDOWN va) len b → flag (pte_at (ram s) d b) PTE_E = false →
     flag (pte_at (ram s) d b) PTE_W = true) →
  mencrypt s d va len = Ok (0, s1) →
  user_va a → in_range (PGROUNDDOWN va) len (a / 4096 * 4096) →
  plain_page (pte_at (ram s) d a) → user_byte (ram s) d (a / 4096 * 4096) ≠ 255 →
  ∃ s2, touch s1 d a w = Ok (user_addr (ram s) d a, s2)
    ∧ evolves kend (at_page d a) (λ _, False) s1 own s2 own
    ∧ page_kept s s2 d (a / 4096 * 4096).
Proof.
  intros Hk Hinv Hd Hva Hlen Htop Htab HW E Hu Hin Hpl Hne.
  pose proof (mencrypt_reveal kend s own d va len s1 a w Hk Hinv Hd Hva Hlen Htop Htab HW E Hu Hin Hpl)
    as H. by rewrite decide_False in H.
Qed.

(** C11 on a write to address 3000. *)
Lemma encrypt_access_roundtrip_witness :
  ∃ s own s1 s2, demo_state s own 0 ∧ mencrypt s demo_d 0 2 = Ok (0, s1)
    ∧ touch s1 demo_d 3000 true = Ok (user_addr (ram s) demo_d 3000, s2)
    ∧ page_kept s s2 demo_d 0.
Proof.
  destruct demo_state_0 as (s & own & Hst). destruct (demo_encrypts s own 0 Hst) as (HW & s' & E).
  pose proof Hst as (Hinv & Hd & Htab & Hpl & Hb).
  destruct (encrypt_access_roundtrip demo_kend s own demo_d 0 2 s' 3000 true) as (s2 & E2 & _ & Hk);
    [apply demo_kend_ok|exact Hinv|exact Hd|split; [lia|reflexivity]|lia|vm_compute; congruence
    |exact Htab|exact HW|exact E|vm_compute; split; congruence
    |vm_compute; split; [split; congruence|reflexivity]|apply Hpl; lia| |].
  - change (3000 / 4096 * 4096) with 0. rewrite Hb. lia.
  - exists s, own, s', s2. split_and!; assumption.
Defined.

(** A page whose first byte is 0xFF cannot be decrypted.  [mdecrypt] reads
    the first byte of the encrypted page and takes a zero there for a failed
    translation, so after a successful [mencrypt] of such a page the first
    access by the process stops the kernel. *)
Theorem encrypt_access_panics kend s own d va len s1 a w :
  KERNLINK <= kend → space_inv kend s own → own !! d = Some Dir → is_u32 va → 0 <= len →
  PGROUNDDOWN va + 4096 * len <= KERNBASE →
  (∀ b, in_range (PGROUNDDOWN va) len b → pte_addr (ram s) d b ≠ 0) →
  (∀ b, in_range (PGROUNDDOWN va) len b → flag (pte_at (ram s) d b) PTE_E = false →
     flag (pte_at (ram s) d b) PTE_W = true) →
  mencrypt s d va len = Ok (0, s1) →
  user_va a → in_range (PGROUNDDOWN va) len (a / 4096 * 4096) →
  plain_page (pte_at (ram s) d a) → user_byte (ram s) d (a / 4096 * 4096) = 255 →
  touch s1 d a w = Panic "p4Debug: Memory fault".
Proof.
  intros Hk Hinv Hd Hva Hlen Htop Htab HW E Hu Hin Hpl Heq.
  pose proof (mencrypt_reveal kend s own d va len s1 a w Hk Hinv Hd Hva Hlen Htop Htab HW E Hu Hin Hpl)
    as H. by rewrite decide_True in H.
Qed.

(** That theorem on a process whose first byte is 0xFF. *)
Lemma encrypt_access_panics_witness :
  ∃ s own s1, demo_state s own 255 ∧ mencrypt s demo_d 0 2 = Ok (0, s1)
    ∧ touch s1 demo_d 3000 false = Panic "p4Debug: Memory fault".
Proof.
  destruct demo_state_255 as (s & own & Hst).
  destruct (demo_encrypts s own 255 Hst) as (HW & s' & E).
  pose proof Hst as (Hinv & Hd & Htab & Hpl & Hb).
  exists s, own, s'. split_and!; [assumption|assumption|].
  apply (encrypt_access_panics demo_kend s own demo_d 0 2 s' 3000 false);
    [apply demo_kend_ok|exact Hinv|exact Hd|split; [lia|reflexivity]|lia|vm_compute; congruence
    |exact Htab|exact HW|exact E|vm_compute; split; congruence
    |vm_compute; split; [split; congruence|reflexivity]|apply Hpl; lia|exact Hb].
Defined.

(** [getpgtable] reports the user pages of the process from the highest
    address down, at most [num] of them, when [num] is positive: it returns
    their number and stores one entry per page, in order, leaving the rest of
    the buffer alone.  When [num] is 0 it ignores the bound and stores an
    entry for every user page.  The loop ends because page 0 of a process is
    a user page and every page table below its size exists. *)
Theorem getpgtable_correct kend s own p num buf fuel :
  KERNLINK <= kend → space_inv kend s own → own !! pgdir p = Some Dir → 0 < psz p <= KERNBASE →
  (∀ j, (j <= Z.to_nat ((psz p - 1) / 4096))%nat →
     pte_addr (ram s) (pgdir p) (4096 * Z.of_nat j) ≠ 0) →
  user_ok (pte_at (ram s) (pgdir p) 0) = true → 0 <= num →
  fuel = S (Z.to_nat ((psz p - 1) / 4096)) →
  let pages := user_pages (ram s) (pgdir p) (Z.to_nat ((psz p - 1) / 4096)) in
  let out := if num =? 0 then pages else take (Z.to_nat num) pages in
  getpgtable s p buf num fuel =
  Ok (Z.of_nat (length out), store_entries (ram s) (pgdir p) 0 buf out).
Proof.
  intros Hk Hinv Hd Hsz Htab H0 Hnum -> pages out. unfold getpgtable. rewrite last_page by done.
  rewrite (getpgtable_loop_spec kend Hk _ s own); try done.
  - unfold reported, out. rewrite Z.sub_0_r, Z.add_0_l.
    destruct (Z.ltb_spec 0 num), (Z.eqb_spec num 0); try lia; done.
  - unfold KERNBASE in *. pose proof (Z.div_mod (psz p - 1) 4096).
    pose proof (Z.mod_pos_bound (psz p - 1) 4096).
    rewrite Z2Nat.id by (apply Z.div_pos; lia). lia.
Qed.

(** That theorem on the two-page process: with [num = 0] two entries are written. *)
Lemma getpgtable_correct_witness :
  ∃ s own buf, demo_state s own 0
    ∧ getpgtable s (UProc demo_d 8192 0) ∅ 0 2 = Ok (2, buf).
Proof.
  destruct demo_state_0 as (s & own & Hst). pose proof Hst as (Hinv & Hd & Htab & Hpl & Hb).
  assert (∀ a, 0 <= a < 8192 → user_ok (pte_at (ram s) demo_d a) = true) as Hok.
  { intros a Ha. destruct (Hpl a Ha) as (HP & _ & HU & _).
    rewrite user_ok_alt, mapped_flags, HP, HU. reflexivity. }
  pose proof (getpgtable_correct demo_kend s own (UProc demo_d 8192 0) 0 ∅ 2) as H.
  cbn [pgdir psz] in H. change (Z.to_nat ((8192 - 1) / 4096)) with 1%nat in H.
  cbv zeta in H. cbn [user_pages] in H.
  rewrite (Hok (4096 * Z.of_nat 1) ltac:(lia)), (Hok (4096 * Z.of_nat 0) ltac:(lia)) in H.
  eexists s, own, _. split; [assumption|]. apply H; clear H.
  - apply demo_kend_ok.
  - exact Hinv.
  - exact Hd.
  - split; [lia|vm_compute; congruence].
  - intros j Hj. apply Htab. unfold in_range.
    assert (j = 0%nat ∨ j = 1%nat) as [-> | ->] by lia; (split; [lia|reflexivity]).
  - apply Hok. lia.
  - lia.
  - reflexivity.
Defined.
