(* ===== verification/MemIface.v ===== *)
(** What memory management promises to process management.

    [MemOps] lists the operations of kalloc.c and vm.c that proc.c calls;
    [MemLaws] states their contract in terms of a ledger: [holds m K D] says
    that the pages in [K] were handed out by [kalloc] and not given back, and
    that each directory [d] of [D] is an address space whose mapped user pages
    are exactly those below [D !! d].  [kst_laws] proves the contract for the
    page-table implementation of Vm. *)

From Stdlib Require Import ZArith Lia.
From stdpp Require Import base numbers list gmap sets strings.
From S2P Require Import Prelude Mem Mmu Kalloc Vm VmSpec VmUser Mencrypt.
#[local] Open Scope Z_scope.

Class MemOps (M : Type) := {
  mkalloc : M → outcome (Z * M);
  mkfree : M → Z → outcome M;
  msetupkvm : M → outcome (Z * M);
  minituvm : M → Z → Z → Z → outcome M;
  mallocuvm : M → Z → Z → Z → outcome (Z * M);
  mdeallocuvm : M → Z → Z → Z → outcome (Z * M);
  mcopyuvm : M → Z → Z → outcome (Z * M);
  mfreevm : M → Z → outcome M;
  (* the words of a local array, stored at a kernel-stack address *)
  mpoke : M → Z → list Z → M;
  mcopyout : M → Z → Z → Z → Z → outcome (Z * M);
  (* a 32-bit store of the kernel through a user address of the current space *)
  muwrite : M → Z → Z → Z → outcome M
}.

Class MemLaws (M : Type) `{MemOps M} (holds : M → gset Z → gmap Z Z → Prop) : Prop := {
  law_kalloc m K D : holds m K D →
    ∃ p m', mkalloc m = Ok (p, m')
      ∧ ((p = 0 ∧ holds m' K D)
         ∨ (p ≠ 0 ∧ (p ∉ K) ∧ holds m' ({[p]} ∪ K) D));
  law_kfree m K D p : holds m K D → p ∈ K →
    ∃ m', mkfree m p = Ok m' ∧ holds m' (K ∖ {[p]}) D;
  law_copyuvm m K D d sz : holds m K D → D !! d = Some sz →
    ∃ r m', mcopyuvm m d sz = Ok (r, m')
      ∧ ((r = 0 ∧ holds m' K D)
         ∨ (r ≠ 0 ∧ D !! r = None ∧ holds m' K (<[r := sz]> D)));
  law_freevm m K D d sz : holds m K D → D !! d = Some sz →
    ∃ m', mfreevm m d = Ok m' ∧ holds m' K (delete d D);
  law_allocuvm m K D d sz newsz : holds m K D → D !! d = Some sz → 0 <= newsz →
    ∃ r m', mallocuvm m d sz newsz = Ok (r, m')
      ∧ ((r = 0 ∧ holds m' K D) ∨ (r = Z.max sz newsz ∧ holds m' K (<[d := r]> D)));
  law_deallocuvm m K D d sz newsz : holds m K D → D !! d = Some sz → 0 <= newsz →
    ∃ m', mdeallocuvm m d sz newsz = Ok (Z.min sz newsz, m')
      ∧ holds m' K (<[d := Z.min sz newsz]> D);
  law_size m K D d sz : holds m K D → D !! d = Some sz → 0 <= sz <= KERNBASE
}.

(** * The implementation of Vm *)

Fixpoint poke_words (m : mem) (a : Z) (ws : list Z) : mem :=
  match ws with
  | [] => m
  | w :: ws' => poke_words (store32 m a w) (a + 4) ws'
  end.

(** Store [n] little-endian bytes of [w] at the user addresses from [va],
    through the translation of the processor. *)
Fixpoint store_user (m : mem) (d va w : Z) (n : nat) : outcome mem :=
  match n with
  | O => Ok m
  | S n' =>
      match hw_addr m d va true with
      | None => Fault va
      | Some a => store_user (setb m a (u8 w)) d (u32 (va + 1)) (w / 256) n'
      end
  end.

Section Kst.
Context (kend kdata : Z).

#[export] Instance kst_ops : MemOps kst := {
  mkalloc := kalloc;
  mkfree := kfree kend;
  msetupkvm := setupkvm kend kdata;
  minituvm := inituvm;
  mallocuvm := allocuvm kend;
  mdeallocuvm := deallocuvm kend;
  mcopyuvm := copyuvm kend kdata;
  mfreevm := freevm kend;
  mpoke s a ws := set_ram s (poke_words (ram s) a ws);
  mcopyout := copyout;
  muwrite s d va w := m ← store_user (ram s) d va w 4; Ok (set_ram s m)
}.

(** The user pages of [d] are exactly those below [sz]. *)
Definition sized (s : kst) (d sz : Z) : Prop :=
  0 <= sz <= KERNBASE
  ∧ ∀ va, user_va va → mapped (pte_at (ram s) d va) = true ↔ va / 4096 * 4096 < sz.

(** The roles of the pages are [own]; the free ones are those of the free list. *)
Definition kst_owns (s : kst) (own : gmap Z role) (K : gset Z) (D : gmap Z Z) : Prop :=
  space_inv kend s own
    ∧ (∀ p, p ∈ K → own !! p = Some Priv)
    ∧ ∀ d sz, D !! d = Some sz → own !! d = Some Dir ∧ sized s d sz.

Definition kst_holds (s : kst) (K : gset Z) (D : gmap Z Z) : Prop := ∃ own, kst_owns s own K D.

Context (Hkend : KERNLINK <= kend).

Lemma sized_evolves R X s own s' own' d sz :
  evolves kend R X s own s' own' → own !! d = Some Dir → ¬ X d → (∀ n, ¬ R d n) →
  sized s d sz → sized s' d sz.
Proof using.
  intros Hev Hd HX HR [Hr Hm]. split; [done|]. intros va Hu.
  rewrite (ev_pte _ _ _ _ _ _ _ Hev) by (done || (by apply user_va_u32) || apply HR). by apply Hm.
Qed.

Lemma sized_zero s own d sz va :
  space_inv kend s own → own !! d = Some Dir → sized s d sz → user_va va →
  sz <= va / 4096 * 4096 → pte_at (ram s) d va = 0.
Proof using Hkend.
  intros Hinv Hd [_ Hm] Hu Hge.
  destruct (user_pte_cases kend Hkend s own d va Hinv Hd Hu) as [?|[Hmp _]]; [done|].
  apply Hm in Hmp; [lia|done].
Qed.

Lemma sized_below s d sz va :
  sized s d sz → is_u32 va → va / 4096 * 4096 < sz → mapped (pte_at (ram s) d va) = true.
Proof using.
  intros [Hr Hm] Hva Hlt. apply Hm; [|done]. unfold user_va, is_u32, KERNBASE in *.
  pose proof (Z.div_mod va 4096). pose proof (Z.mod_pos_bound va 4096). lia.
Qed.

(** Ledger entries away from the changed pages survive. *)
Lemma ledger_evolves R X s own s' own' (K : gset Z) (D : gmap Z Z) :
  evolves kend R X s own s' own' →
  (∀ p, p ∈ K → own !! p = Some Priv ∧ ¬ X p) →
  (∀ d sz, D !! d = Some sz → own !! d = Some Dir ∧ sized s d sz ∧ ¬ X d ∧ ∀ n, ¬ R d n) →
  (∀ p, p ∈ K → own' !! p = Some Priv)
  ∧ ∀ d sz, D !! d = Some sz → own' !! d = Some Dir ∧ sized s' d sz.
Proof using.
  intros Hev HK HD. split.
  - intros p Hp. destruct (HK p Hp) as [Ho HX].
    apply (ev_data _ _ _ _ _ _ _ Hev p Priv Ho HX). by left.
  - intros d sz Hd. destruct (HD d sz Hd) as (Ho & Hs & HX & HR). split.
    + by apply (ev_dir _ _ _ _ _ _ _ Hev).
    + by eapply sized_evolves.
Qed.
(** ** The laws *)

Lemma kst_kalloc s K D :
  kst_holds s K D →
  ∃ p s', kalloc s = Ok (p, s')
    ∧ ((p = 0 ∧ kst_holds s' K D) ∨ (p ≠ 0 ∧ (p ∉ K) ∧ kst_holds s' ({[p]} ∪ K) D)).
Proof using Hkend.
  intros (own & Hinv & HK & HD).
  destruct (kalloc_inv kend Hkend s own Hinv) as (p & s' & E & Hram & Hc).
  exists p, s'. split; [done|]. destruct Hc as [[-> ->]|(Hp & Hne & Hinv')].
  { left. split; [done|]. by exists own. }
  right. split_and!; [done|intros Hin; apply HK in Hin; congruence|].
  exists (<[p := Priv]> own). split_and!; [done| |].
  - intros q [->%elem_of_singleton|Hq]%elem_of_union; [by rewrite lookup_insert_eq|].
    destruct (decide (q = p)) as [->|]; [by rewrite lookup_insert_eq|].
    rewrite lookup_insert_ne by done. by apply HK.
  - intros d sz Hd. destruct (HD d sz Hd) as [Ho Hs].
    split; [rewrite lookup_insert_ne by congruence; done|].
    unfold sized in *. by rewrite Hram.
Qed.

Lemma kst_kfree s K D p :
  kst_holds s K D → p ∈ K → ∃ s', kfree kend s p = Ok s' ∧ kst_holds s' (K ∖ {[p]}) D.
Proof using Hkend.
  intros (own & Hinv & HK & HD) Hp.
  destruct (kfree_inv kend Hkend s own p Hinv (HK p Hp)) as (s' & E & Hinv' & _).
  pose proof (kfree_evolves kend Hkend s own p s' Hinv (HK p Hp) E) as Hev.
  exists s'. split; [done|]. exists (<[p := Free]> own). split; [done|].
  apply (ledger_evolves _ _ s own s' _ (K ∖ {[p]}) D Hev).
  - intros q Hq. apply elem_of_difference in Hq as [Hq Hne]. split; [by apply HK|set_solver].
  - intros d sz Hd. destruct (HD d sz Hd) as [Ho Hs]. split_and!; [done|done| |tauto].
    intros ->. rewrite (HK p Hp) in Ho. done.
Qed.

Lemma owns_freevm s own K D d sz :
  kst_owns s own K D → D !! d = Some sz →
  ∃ s' own', freevm kend s d = Ok s' ∧ evolves kend (λ d' _, d' = d) (λ q, q = d) s own s' own'
    ∧ (∀ q, own' !! q = release_role d q <$> own !! q) ∧ kst_owns s' own' K (delete d D).
Proof using Hkend.
  intros (Hinv & HK & HD) Hd. destruct (HD d sz Hd) as [Ho Hs].
  destruct (freevm_spec kend Hkend s own d Hinv Ho) as (s' & own' & E & Hev & Hr).
  exists s', own'. split_and!; [done|done|done|]. split; [by eapply ev_inv|].
  apply (ledger_evolves _ _ s own s' own' K (delete d D) Hev).
  - intros p Hp. split; [by apply HK|]. intros ->. rewrite (HK d Hp) in Ho. done.
  - intros d' sz' [Hne Hd']%lookup_delete_Some. destruct (HD d' sz' Hd') as [Ho' Hs'].
    split_and!; [done|done|by intros ->|by intros n ->].
Qed.

Lemma kst_freevm s K D d sz :
  kst_holds s K D → D !! d = Some sz →
  ∃ s', freevm kend s d = Ok s' ∧ kst_holds s' K (delete d D).
Proof using Hkend.
  intros [own Hh] Hd. destruct (owns_freevm s own K D d sz Hh Hd) as (s' & own' & E & _ & _ & Hh').
  exists s'. split; [done|]. by exists own'.
Qed.

(** The ledger after [d] was resized between [lo] and [hi]. *)
Lemma owns_resized s own s' own' (K : gset Z) (D : gmap Z Z) d sz sz' lo hi :
  kst_owns s own K D → D !! d = Some sz → evolves kend (range d lo hi) (λ _, False) s own s' own' →
  sized s' d sz' → kst_owns s' own' K (<[d := sz']> D).
Proof using.
  intros (Hinv & HK & HD) Hd Hev Hs'. destruct (HD d sz Hd) as [Ho _].
  split; [by eapply ev_inv|].
  destruct (ledger_evolves _ _ s own s' own' K (delete d D) Hev) as [HK' HD'].
  { intros p Hp. split; [by apply HK|tauto]. }
  { intros d' x [Hne Hd']%lookup_delete_Some. destruct (HD d' x Hd'). split_and!; [done|done|tauto|].
    intros n [-> _]. done. }
  split; [done|]. intros d' x [[<- <-]|[Hne Hd']]%lookup_insert_Some.
  - split; [|done]. apply (ev_dir _ _ _ _ _ _ _ Hev d Ho). tauto.
  - apply HD'. by apply lookup_delete_Some.
Qed.

(** Page arithmetic: a page lies below a size exactly when it lies below the
    size rounded up. *)
Lemma page_below_roundup va sz :
  user_va va → 0 <= sz <= KERNBASE → va / 4096 * 4096 < sz ↔ va / 4096 * 4096 < PGROUNDUP sz.
Proof using.
  intros Hu Hsz. destruct (PGROUNDUP_user sz Hsz) as (H1 & H2 & _).
  pose proof (Z.div_mod (PGROUNDUP sz) 4096). lia.
Qed.
Lemma kst_deallocuvm s K D d sz newsz :
  kst_holds s K D → D !! d = Some sz → 0 <= newsz →
  ∃ s', deallocuvm kend s d sz newsz = Ok (Z.min sz newsz, s')
    ∧ kst_holds s' K (<[d := Z.min sz newsz]> D).
Proof using Hkend.
  intros Hh Hd Hnew. pose proof Hh as (own & Hinv & HK & HD). destruct (HD d sz Hd) as [Ho Hs].
  destruct (Z_le_gt_dec sz newsz) as [Hle|Hgt].
  { exists s. rewrite Z.min_l by lia. unfold deallocuvm. destruct (Z.leb_spec sz newsz); [|lia].
    split; [done|]. by rewrite insert_id. }
  rewrite Z.min_r by lia. pose proof Hs as [Hr Hm].
  destruct (dealloc_undo kend Hkend s own d newsz sz) as (s' & own' & E & Hev & Hz & _);
    [done|done|lia|apply Hs|].
  exists s'. split; [done|]. exists own'.
  apply (owns_resized s own s' own' K D d sz newsz (PGROUNDUP newsz) sz); try done. split; [lia|]. intros va Hu.
  destruct (PGROUNDUP_user newsz) as (H1 & H2 & _); [lia|].
  rewrite (page_below_roundup va newsz Hu) by lia.
  destruct (Z_lt_le_dec (va / 4096 * 4096) (PGROUNDUP newsz)) as [Hlt|Hge].
  - rewrite (ev_pte _ _ _ _ _ _ _ Hev) by (done || (by apply user_va_u32) || (unfold range; lia)).
    rewrite (Hm va Hu). split; [done|]. intros _.
    assert (va / 4096 * 4096 < newsz) by (by apply page_below_roundup; [|lia|]). lia.
  - split; [|lia]. destruct (Z_lt_le_dec (va / 4096 * 4096) sz) as [Hlt|Hge'].
    + by rewrite Hz by (done || by apply user_va_u32).
    + rewrite (ev_pte _ _ _ _ _ _ _ Hev) by (done || (by apply user_va_u32) || (unfold range; lia)).
      intros Hmp. apply Hm in Hmp; [lia|done].
Qed.

Lemma fresh_mapped s own d va : space_inv kend s own → fresh_page s own d va →
  mapped (pte_at (ram s) d va) = true.
Proof using Hkend.
  intros Hinv (p & Hp & -> & _).
  apply (map_entry_spec kend Hkend p (Z.lor PTE_W PTE_U)); [by eapply si_valid|done].
Qed.

(** The user pages of [d] lie below its size. *)
Lemma sized_no_users s own d sz hi :
  space_inv kend s own → own !! d = Some Dir → sized s d sz → no_users own d (PGROUNDUP sz) hi.
Proof using Hkend.
  intros Hinv Hd [Hr Hm] q n Hq [Hlo _]. destruct (si_user kend s own Hinv q d n Hq) as (Hn & t & Ht & _).
  assert (user_va (n * 4096)) as Hu by (unfold user_va, KERNBASE; lia). assert (n * 4096 / 4096 = n) as En by (apply Z.div_mul; lia).
  rewrite <- En in Hq. destruct (vpn_split (n * 4096) (user_va_u32 _ Hu)) as (_ & E1 & _). rewrite En in E1. rewrite E1 in Ht.
  destruct (user_entry kend Hkend s own t d (n * 4096) q Hinv Ht (user_va_u32 _ Hu) Hq) as (Hmp & _).
  destruct (pte_cases kend Hkend s own d (n * 4096) Hinv Hd (user_va_u32 _ Hu)) as [(_ & _ & _ & Hno)|(t' & Ht' & _ & _ & Ep & _)]; [by apply (Hno t)|].
  rewrite (table_unique kend Hkend s own t t' d _ Hinv Ht Ht'), <- Ep in Hmp.
  apply (Hm _ Hu) in Hmp. rewrite En in Hmp. destruct (PGROUNDUP_user sz Hr). lia.
Qed.

(** [allocuvm] with its accounting: it fails only for sizes at or above KERNBASE or when memory runs out. *)
Lemma owns_allocuvm s own K D d sz newsz :
  kst_owns s own K D → D !! d = Some sz → 0 <= newsz →
  ∃ r s' own', allocuvm kend s d sz newsz = Ok (r, s')
    ∧ evolves kend (range d (PGROUNDUP sz) newsz) (λ _, False) s own s' own'
    ∧ (∀ p, took d newsz own own' p)
    ∧ ((r = 0 ∧ kst_owns s' own' K D ∧ (newsz < KERNBASE → starved kend d newsz own))
       ∨ (r = Z.max sz newsz ∧ newsz < KERNBASE ∧ kst_owns s' own' K (<[d := r]> D)
          ∧ (∀ va, is_u32 va → PGROUNDUP sz <= va / 4096 * 4096 < newsz → fresh_page s' own' d va))).
Proof using Hkend.
  intros Hh Hd Hnew. pose proof Hh as (Hinv & HK & HD). destruct (HD d sz Hd) as [Ho Hs]. pose proof Hs as [Hr Hm].
  destruct (PGROUNDUP_user sz Hr) as (H1 & H2 & _).
  destruct (Z_le_gt_dec KERNBASE newsz) as [Hbig|Hsmall].
  { exists 0, s, own. unfold allocuvm. destruct (Z.leb_spec KERNBASE newsz); [|lia].
    split_and!; [done|by apply evolves_refl|intros p; apply took_refl|left]. split_and!; [done|done|lia]. }
  destruct (Z_lt_le_dec newsz sz) as [Hlt|Hle].
  { exists sz, s, own. unfold allocuvm. destruct (Z.leb_spec KERNBASE newsz); [lia|].
    destruct (Z.ltb_spec newsz sz); [|lia]. split_and!; [done|by apply evolves_refl|intros p; apply took_refl|right].
    rewrite insert_id by done. split_and!; [lia|lia|done|lia]. }
  assert (∀ va, is_u32 va → va / 4096 * 4096 < newsz → user_va va) as Huser.
  { intros va Hva Hlt. unfold user_va, is_u32, KERNBASE in *.
    pose proof (Z.div_mod va 4096). pose proof (Z.mod_pos_bound va 4096). lia. }
  destruct (allocuvm_spec kend s own d sz newsz) as (r & s' & own' & E & Hev & Hc);
    [done|done|done|lia|lia| |].
  { intros va Hva Hrg. eapply sized_zero; [done|done|done|apply Huser; [done|lia]|lia]. }
  pose proof (ev_inv _ _ _ _ _ _ _ Hev) as Hinv'.
  assert (∀ va, user_va va → ¬ (PGROUNDUP sz <= va / 4096 * 4096 < newsz) →
    pte_at (ram s') d va = pte_at (ram s) d va) as Hsame.
  { intros va Hu Hn. apply (ev_pte _ _ _ _ _ _ _ Hev); [done|tauto|by apply user_va_u32|].
    unfold range. tauto. }
  exists r, s', own'. split_and!; [done|done| |].
  { destruct Hc as [(_ & _ & Ht)|(_ & _ & _ & Ht)]; [done|]. apply Ht. by eapply sized_no_users. }
  destruct Hc as [(-> & Hf & _)|(-> & Hz & Hst & _)].
  - right. split_and!; [lia|lia| |done].
    apply (owns_resized s own s' own' K D d sz newsz (PGROUNDUP sz) newsz); try done. split; [lia|]. intros va Hu.
    destruct (decide (PGROUNDUP sz <= va / 4096 * 4096 < newsz)) as [Hrg|Hn].
    + split; [lia|]. intros _. eapply fresh_mapped; [done|]. apply Hf; [by apply user_va_u32|done].
    + rewrite Hsame, (Hm va Hu), (page_below_roundup va sz Hu Hr) by done.
      split; [|lia]. intros ?%(page_below_roundup va sz Hu Hr). lia.
  - left. split_and!; [done| |done]. rewrite <- (insert_id D d sz Hd).
    apply (owns_resized s own s' own' K D d sz sz (PGROUNDUP sz) newsz); try done. split; [done|]. intros va Hu.
    destruct (decide (PGROUNDUP sz <= va / 4096 * 4096 < newsz)) as [Hrg|Hn].
    + rewrite Hz by (done || by apply user_va_u32). split; [done|].
      intros ?%(page_below_roundup va sz Hu Hr). lia.
    + rewrite Hsame by done. by apply Hm.
Qed.

Lemma kst_allocuvm s K D d sz newsz :
  kst_holds s K D → D !! d = Some sz → 0 <= newsz →
  ∃ r s', allocuvm kend s d sz newsz = Ok (r, s')
    ∧ ((r = 0 ∧ kst_holds s' K D) ∨ (r = Z.max sz newsz ∧ kst_holds s' K (<[d := r]> D))).
Proof using Hkend.
  intros [own Hh] Hd Hnew. destruct (owns_allocuvm s own K D d sz newsz Hh Hd Hnew) as (r & s' & own' & E & _ & _ & Hc).
  exists r, s'. split; [done|]. destruct Hc as [(-> & Hh' & _)|(Er & _ & Hh' & _)]; [left|right]; (split; [done|by exists own']).
Qed.

(** ** Words for a user stack

    [clone] builds an array on the caller's kernel stack and copies it to user
    memory. *)

(** The word the user reads at [va]. *)
Definition user_word (m : mem) (d va : Z) : Z :=
  user_byte m d va + 2 ^ 8 * user_byte m d (va + 1) + 2 ^ 16 * user_byte m d (va + 2)
  + 2 ^ 24 * user_byte m d (va + 3).

Lemma poke_words_ne m a ws b :
  ¬ (a <= b < a + 4 * Z.of_nat (length ws)) → getb (poke_words m a ws) b = getb m b.
Proof using.
  revert m a. induction ws as [|w ws IH]; intros m a Hb; [done|]. cbn [poke_words length] in *.
  rewrite IH by lia. apply getb_store32_ne. lia.
Qed.

Lemma poke_words_load m a ws j w :
  ws !! j = Some w → is_u32 w → load32 (poke_words m a ws) (a + 4 * Z.of_nat j) = w.
Proof using.
  revert m a j. induction ws as [|w0 ws IH]; intros m a j Hj Hw; [done|]. cbn [poke_words].
  destruct j as [|j]; simplify_eq/=.
  - rewrite Z.add_0_r. rewrite (load32_ext (store32 m a w)); [by apply load32_store32|].
    intros b Hb. apply poke_words_ne. lia.
  - rewrite <- (IH (store32 m a w0) (a + 4) j Hj Hw). f_equal. lia.
Qed.

(** Writing a private kernel page changes no address space. *)
Lemma write_private s own ks m' :
  space_inv kend s own → own !! ks = Some Priv →
  (∀ b, ¬ in_page ks b → getb m' b = getb (ram s) b) →
  space_inv kend (set_ram s m') own
  ∧ (∀ d va, own !! d = Some Dir → is_u32 va → pte_at m' d va = pte_at (ram s) d va
       ∧ pte_addr m' d va = pte_addr (ram s) d va)
  ∧ (∀ d va, own !! d = Some Dir → user_va va → mapped (pte_at (ram s) d va) = true →
       user_byte m' d va = user_byte (ram s) d va).
Proof using Hkend.
  intros Hinv Hks Hfr.
  assert (∀ q r, own !! q = Some r → r ≠ Priv → agree (ram s) m' q) as Hag.
  { intros q r Hq Hne b Hb. apply Hfr. assert (q ≠ ks) by congruence.
    apply (pages_disjoint q ks b); try done; by eapply (si_valid kend s own Hinv). }
  assert (∀ d va, own !! d = Some Dir → is_u32 va → pte_at m' d va = pte_at (ram s) d va
    ∧ pte_addr m' d va = pte_addr (ram s) d va) as Hpte.
  { intros d va Hd Hva. apply (pte_at_agree kend Hkend s own); [done|done|done|by apply (Hag d Dir)|].
    intros t Ht. by apply (Hag t _ Ht). }
  split_and!; [|done|].
  - apply (space_inv_frame kend Hkend); [done|]. intros q r Hq Hr. apply (Hag q r Hq). naive_solver.
  - intros d va Hd Hu Hm. pose proof (frame_owned kend Hkend s own d va Hinv Hd Hu Hm) as Hf.
    unfold user_byte. assert (user_addr m' d va = user_addr (ram s) d va) as ->.
    { unfold user_addr, frame_of. destruct (Hpte d va Hd (user_va_u32 va Hu)) as [-> _]. done. }
    apply (Hag _ _ Hf); [done|]. by apply user_addr_in.
Qed.

Lemma push_words s own d va ks buf ws :
  space_inv kend s own → own !! d = Some Dir → own !! ks = Some Priv → Forall is_u32 ws →
  ks <= buf → buf + 4 * Z.of_nat (length ws) <= ks + 4096 →
  0 <= va → va mod 4096 + 4 * Z.of_nat (length ws) <= 4096 → va + 4 * Z.of_nat (length ws) <= KERNBASE →
  user_va va → user_ok (pte_at (ram s) d va) = true →
  ∃ s', copyout (set_ram s (poke_words (ram s) buf ws)) d va buf (4 * Z.of_nat (length ws)) = Ok (0, s')
    ∧ space_inv kend s' own
    ∧ (∀ d' a, own !! d' = Some Dir → is_u32 a → pte_at (ram s') d' a = pte_at (ram s) d' a)
    ∧ (∀ j w, ws !! j = Some w → user_word (ram s') d (va + 4 * Z.of_nat j) = w)
    ∧ (∀ a, user_va a → mapped (pte_at (ram s) d a) = true → ¬ (va <= a < va + 4 * Z.of_nat (length ws)) →
         user_byte (ram s') d a = user_byte (ram s) d a).
Proof using Hkend.
  intros Hinv Hd Hks Hws Hb1 Hb2 Hva Hpg Htop Hu Hok. set (n := 4 * Z.of_nat (length ws)) in *.
  destruct (write_private s own ks (poke_words (ram s) buf ws) Hinv Hks) as (Hinv1 & Hpte & Hub).
  { intros b Hb. apply poke_words_ne. unfold in_page in Hb. lia. }
  set (s1 := set_ram s (poke_words (ram s) buf ws)) in *.
  assert (ram s1 = poke_words (ram s) buf ws) as Er by done. rewrite <- Er in Hpte, Hub. clear Er.
  assert (∀ k, 0 <= k < n → pte_at (ram s1) d (va + k) = pte_at (ram s) d va) as Hone.
  { intros k Hk. rewrite (proj1 (Hpte d (va + k) Hd ltac:(unfold is_u32, KERNBASE in *; lia))).
    apply pte_at_page; [unfold is_u32, KERNBASE in *; lia|by apply user_va_u32|].
    pose proof (Z.div_mod va 4096). pose proof (Z.mod_pos_bound va 4096).
    symmetry. apply (Z.div_unique_pos _ _ _ (va mod 4096 + k)); lia. }
  destruct (copyout_loop_spec kend Hkend (S (S (Z.to_nat (n / PGSIZE)))) s1 own d va buf n) as (r & s' & w & E & Hc & Hr & _);
    try done; [unfold n; lia| | | |].
  - intros k p m Hk Hp. apply (pages_disjoint ks p); [by eapply (si_valid kend s own Hinv)
      |by eapply (si_valid kend s own Hinv)|congruence|]. unfold in_page. lia.
  - unfold PGSIZE. pose proof (Z.div_mod n 4096). pose proof (Z.mod_pos_bound n 4096). lia.
  - intros a Ha Hr. apply Z.eqb_neq, (pte_addr_nonzero kend Hkend s1 own); [done|done|done|].
    rewrite (proj1 (Hpte d a Hd Ha)), (pte_at_page (ram s) d a va); [by apply user_ok_mapped|done
      |by apply user_va_u32|].
    pose proof (Z.div_mod va 4096). pose proof (Z.mod_pos_bound va 4096).
    symmetry. apply (Z.div_unique_pos _ _ _ (a - va / 4096 * 4096)); lia.
  - destruct Hr as [[-> ->]|(_ & Hw & Hbad)]; [|rewrite (Hone w Hw) in Hbad; congruence].
    destruct Hc as (Hi & Hp & Hk & Ho). exists s'. split_and!; [done|done| | |].
    + intros d' a Hd' Ha. rewrite (Hp d' a Hd' Ha). by apply Hpte.
    + intros j w Hj. pose proof (lookup_lt_Some _ _ _ Hj).
      rewrite <- (poke_words_load (ram s) buf ws j w Hj) by (by eapply Forall_lookup_1).
      unfold user_word, load32. rewrite <- !Z.add_assoc, !Hk by (unfold n; lia). done.
    + intros a Ha Hm Hn. rewrite <- (Hub d a Hd Ha Hm).
      destruct (Hpte d a Hd (user_va_u32 a Ha)) as [Ep _].
      assert (user_addr (ram s') d a = user_addr (ram s1) d a) as Ea.
      { unfold user_addr, frame_of. rewrite (Hp d a Hd (user_va_u32 a Ha)). done. }
      unfold user_byte. rewrite Ea. apply Ho. intros k Hk' E'. apply Hn.
      assert (a = va + k) as ->; [|lia].
      apply (user_addr_inj kend Hkend s1 own d); try done.
      * unfold user_va, KERNBASE in *. lia.
      * by rewrite Ep.
      * rewrite Hone by done. by apply user_ok_mapped.
Qed.

Context (Hkdata : kdata_ok kdata).

Lemma kst_copyuvm s K D d sz :
  kst_holds s K D → D !! d = Some sz →
  ∃ r s', copyuvm kend kdata s d sz = Ok (r, s')
    ∧ ((r = 0 ∧ kst_holds s' K D)
       ∨ (r ≠ 0 ∧ D !! r = None ∧ kst_holds s' K (<[r := sz]> D))).
Proof using Hkend Hkdata.
  intros (own & Hinv & HK & HD) Hd. destruct (HD d sz Hd) as [Ho Hs].
  destruct (copyuvm_spec kend kdata Hkend s own d sz) as (r & s' & own' & E & Hev & Hc);
    [done|done|done|apply Hs|by intros; eapply sized_below|].
  destruct (ledger_evolves _ _ s own s' own' K D Hev) as [HK' HD'].
  { intros p Hp. split; [by apply HK|tauto]. }
  { intros d' sz' Hd'. destruct (HD d' sz' Hd') as [Ho' Hs']. split_and!; [done|done|tauto|tauto]. }
  pose proof (ev_inv _ _ _ _ _ _ _ Hev) as Hinv'.
  exists r, s'. split; [done|]. destruct Hc as [(-> & _ & _)|(Hr & Hf & Hr' & Hcp & Hz & _)].
  { left. split; [done|]. by exists own'. }
  right. split_and!; [done| |].
  - destruct (D !! r) as [x|] eqn:Er; [|done]. destruct (HD r x Er). congruence.
  - exists own'. split_and!; [done|done|]. intros d' sz' [[<- <-]|[Hne Hd']]%lookup_insert_Some.
    2:{ by apply HD'. }
    split; [done|]. split; [apply Hs|]. intros va Hu. split.
    + intros Hm. destruct (Z_lt_le_dec (va / 4096 * 4096) sz) as [|Hge]; [done|].
      by rewrite (Hz va Hu Hge) in Hm.
    + intros Hlt. destruct (Hcp va (user_va_u32 va Hu) Hlt) as (p & q & _ & Hq & _ & Eq & _).
      destruct (user_pte_cases kend Hkend s' own' r va Hinv' Hr' Hu) as [H0|[Hm _]]; [|done].
      exfalso. rewrite H0 in Eq. change (P2V (PTE_ADDR 0)) with KERNBASE in Eq. subst q.
      pose proof (valid_page_bounds kend Hkend _ (si_valid kend s' own' Hinv' _ _ Hq)) as (Hb & _).
      unfold KERNBASE, EXTMEM in Hb. lia.
Qed.

#[export] Instance kst_laws : MemLaws kst kst_holds.
Proof using Hkend Hkdata.
  split; cbn [mkalloc mkfree mcopyuvm mfreevm mallocuvm mdeallocuvm kst_ops].
  - apply kst_kalloc.
  - apply kst_kfree.
  - apply kst_copyuvm.
  - apply kst_freevm.
  - apply kst_allocuvm.
  - apply kst_deallocuvm.
  - intros s K D d sz (own & _ & _ & HD) Hd. by destruct (HD d sz Hd) as [_ [? _]].
Qed.
End Kst.

(** * A ledger that is its own implementation, for closed examples

    Pages and directories are numbered in the order they are handed out. *)
Record mledger := MLedger { ml_held : gset Z; ml_dirs : gmap Z Z; ml_next : Z }.

Definition ml_dir (m : mledger) (sz : Z) : outcome (Z * mledger) :=
  Ok (ml_next m, MLedger (ml_held m) (<[ml_next m := sz]> (ml_dirs m)) (ml_next m + 1)).

Definition ml_resize (m : mledger) (d sz : Z) : mledger :=
  MLedger (ml_held m) (<[d := sz]> (ml_dirs m)) (ml_next m).

#[export] Instance mledger_ops : MemOps mledger := {
  mkalloc m := Ok (ml_next m, MLedger ({[ml_next m]} ∪ ml_held m) (ml_dirs m) (ml_next m + 1));
  mkfree m p := if decide (p ∈ ml_held m)
    then Ok (MLedger (ml_held m ∖ {[p]}) (ml_dirs m) (ml_next m)) else Panic "kfree";
  msetupkvm m := ml_dir m 0;
  minituvm m d _ size := if PGSIZE <=? size then Panic "inituvm: more than a page"
    else Ok (ml_resize m d PGSIZE);
  mallocuvm m d sz newsz := if KERNBASE <=? newsz then Ok (0, m)
    else if newsz <? sz then Ok (sz, m) else Ok (newsz, ml_resize m d newsz);
  mdeallocuvm m d sz newsz := if sz <=? newsz then Ok (sz, m)
    else Ok (newsz, ml_resize m d newsz);
  mcopyuvm m d sz := if decide (ml_dirs m !! d = Some sz) then ml_dir m sz
    else Panic "copyuvm: page not present";
  mfreevm m d := Ok (MLedger (ml_held m) (delete d (ml_dirs m)) (ml_next m));
  mpoke m _ _ := m;
  mcopyout m _ _ _ _ := Ok (0, m);
  muwrite m _ _ _ := Ok m
}.

Definition mledger_holds (m : mledger) (K : gset Z) (D : gmap Z Z) : Prop :=
  ml_held m = K ∧ ml_dirs m = D ∧ 0 < ml_next m ∧ (∀ p, p ∈ K → p < ml_next m)
  ∧ ∀ d sz, D !! d = Some sz → d < ml_next m ∧ 0 <= sz <= KERNBASE.

#[export] Instance mledger_laws : MemLaws mledger mledger_holds.
Proof.
  split; intros [held dirs next] K D; unfold mledger_holds;
    cbn [mkalloc mkfree mcopyuvm mfreevm mallocuvm mdeallocuvm mledger_ops ml_held ml_dirs ml_next];
    unfold ml_dir, ml_resize; cbn [ml_held ml_dirs ml_next].
  - intros (<- & <- & Hn & HK & HD). eexists _, _. split; [done|]. right. split; [lia|].
    split; [intros Hin; specialize (HK _ Hin); lia|]. cbn [ml_held ml_dirs ml_next]. split_and!; [done|done|lia| |].
    + intros p [->%elem_of_singleton|Hp]%elem_of_union; [lia|]. specialize (HK p Hp). lia.
    + intros d sz Hd. destruct (HD d sz Hd). lia.
  - intros p (<- & <- & Hn & HK & HD) Hp. rewrite decide_True by done. eexists. split; [done|]. cbn [ml_held ml_dirs ml_next].
    split_and!; try done. intros q [Hq _]%elem_of_difference. by apply HK.
  - intros d sz (<- & <- & Hn & HK & HD) Hd. rewrite decide_True by done. eexists _, _.
    split; [done|]. right. split; [lia|]. split.
    { destruct (dirs !! next) as [x|] eqn:E; [|done]. destruct (HD _ _ E). lia. }
    cbn [ml_held ml_dirs ml_next]. split_and!; [done|done|lia|intros q Hq; specialize (HK q Hq); lia|].
    intros d' sz' [[<- <-]|[_ Hd']]%lookup_insert_Some; [|destruct (HD _ _ Hd'); lia].
    destruct (HD _ _ Hd). lia.
  - intros d sz (<- & <- & Hn & HK & HD) Hd. eexists. split; [done|]. cbn [ml_held ml_dirs ml_next]. split_and!; try done.
    intros d' sz' [_ Hd']%lookup_delete_Some. by apply HD.
  - intros d sz newsz (<- & <- & Hn & HK & HD) Hd Hnew. pose proof (HD d sz Hd) as [Hdn Hsz].
    destruct (Z.leb_spec KERNBASE newsz); [eexists _, _; split; [done|]; left; by split_and!|].
    destruct (Z.ltb_spec newsz sz).
    + eexists _, _. split; [done|]. right. split; [lia|]. cbn [ml_held ml_dirs ml_next]. rewrite insert_id by done. by split_and!.
    + eexists _, _. split; [done|]. right. split; [lia|]. cbn [ml_held ml_dirs ml_next]. split_and!; try done.
      intros d' sz' [[<- <-]|[_ Hd']]%lookup_insert_Some; [lia|by apply HD].
  - intros d sz newsz (<- & <- & Hn & HK & HD) Hd Hnew. pose proof (HD d sz Hd) as [Hdn Hsz].
    destruct (Z.leb_spec sz newsz).
    + eexists. rewrite Z.min_l by lia. split; [done|]. rewrite insert_id by done. by split_and!.
    + eexists. rewrite Z.min_r by lia. split; [done|]. cbn [ml_held ml_dirs ml_next]. split_and!; try done.
      intros d' sz' [[<- <-]|[_ Hd']]%lookup_insert_Some; [lia|by apply HD].
  - intros d sz (_ & <- & _ & _ & HD) Hd. by apply HD in Hd as [_ ?].
Qed.

(** A decidable form of the ledger's contract. *)
Definition ml_check (m : mledger) : bool :=
  (0 <? ml_next m) && forallb (λ p, p <? ml_next m) (elements (ml_held m))
  && forallb (λ x, (x.1 <? ml_next m) && (0 <=? x.2) && (x.2 <=? KERNBASE)) (map_to_list (ml_dirs m)).

Lemma ml_check_holds m : ml_check m = true → mledger_holds m (ml_held m) (ml_dirs m).
Proof.
  unfold ml_check. rewrite !andb_true_iff, !forallb_forall. intros [[Hn HK] HD].
  split_and!; [done|done|lia| |].
  - intros p Hp. specialize (HK p). apply Z.ltb_lt, HK, list_elem_of_In. by apply elem_of_elements.
  - intros d n Hd. specialize (HD (d, n)). rewrite <- list_elem_of_In, elem_of_map_to_list in HD.
    specialize (HD Hd). rewrite !andb_true_iff in HD. simpl in HD. lia.
Qed.
