(* ===== verification/KernBase.v ===== *)
(** Data shared by the two process-management modules: trap frames, process
    states, sleep channels, and the interface to the file layer.  The same
    declarations are in src/p2A/xv6-public/proc.h, x86.h and
    src/p3b/xv6-public/proc.h, x86.h. *)

From Stdlib Require Import ZArith Lia.
From stdpp Require Import base numbers list gmap sets strings.
From S2P Require Import Prelude.
#[local] Open Scope Z_scope.

(** [struct trapframe], without its padding. *)
Record trapframe := TrapFrame {
  edi : Z;
  esi : Z;
  ebp : Z;
  oesp : Z;
  ebx : Z;
  edx : Z;
  ecx : Z;
  eax : Z;
  gs : Z;
  fs : Z;
  es : Z;
  ds : Z;
  trapno : Z;
  err : Z;
  eip : Z;
  cs : Z;
  eflags : Z;
  esp : Z;
  ss : Z
}.

Definition set_ebp (v : Z) (t : trapframe) : trapframe :=
  TrapFrame (edi t) (esi t) v (oesp t) (ebx t) (edx t) (ecx t) (eax t) (gs t) (fs t) (es t) (ds t) (trapno t) (err t) (eip t) (cs t) (eflags t) (esp t) (ss t).
Definition set_eax (v : Z) (t : trapframe) : trapframe :=
  TrapFrame (edi t) (esi t) (ebp t) (oesp t) (ebx t) (edx t) (ecx t) v (gs t) (fs t) (es t) (ds t) (trapno t) (err t) (eip t) (cs t) (eflags t) (esp t) (ss t).
Definition set_es (v : Z) (t : trapframe) : trapframe :=
  TrapFrame (edi t) (esi t) (ebp t) (oesp t) (ebx t) (edx t) (ecx t) (eax t) (gs t) (fs t) v (ds t) (trapno t) (err t) (eip t) (cs t) (eflags t) (esp t) (ss t).
Definition set_ds (v : Z) (t : trapframe) : trapframe :=
  TrapFrame (edi t) (esi t) (ebp t) (oesp t) (ebx t) (edx t) (ecx t) (eax t) (gs t) (fs t) (es t) v (trapno t) (err t) (eip t) (cs t) (eflags t) (esp t) (ss t).
Definition set_eip (v : Z) (t : trapframe) : trapframe :=
  TrapFrame (edi t) (esi t) (ebp t) (oesp t) (ebx t) (edx t) (ecx t) (eax t) (gs t) (fs t) (es t) (ds t) (trapno t) (err t) v (cs t) (eflags t) (esp t) (ss t).
Definition set_cs (v : Z) (t : trapframe) : trapframe :=
  TrapFrame (edi t) (esi t) (ebp t) (oesp t) (ebx t) (edx t) (ecx t) (eax t) (gs t) (fs t) (es t) (ds t) (trapno t) (err t) (eip t) v (eflags t) (esp t) (ss t).
Definition set_eflags (v : Z) (t : trapframe) : trapframe :=
  TrapFrame (edi t) (esi t) (ebp t) (oesp t) (ebx t) (edx t) (ecx t) (eax t) (gs t) (fs t) (es t) (ds t) (trapno t) (err t) (eip t) (cs t) v (esp t) (ss t).
Definition set_esp (v : Z) (t : trapframe) : trapframe :=
  TrapFrame (edi t) (esi t) (ebp t) (oesp t) (ebx t) (edx t) (ecx t) (eax t) (gs t) (fs t) (es t) (ds t) (trapno t) (err t) (eip t) (cs t) (eflags t) v (ss t).
Definition set_ss (v : Z) (t : trapframe) : trapframe :=
  TrapFrame (edi t) (esi t) (ebp t) (oesp t) (ebx t) (edx t) (ecx t) (eax t) (gs t) (fs t) (es t) (ds t) (trapno t) (err t) (eip t) (cs t) (eflags t) (esp t) v.

(** [memset(p->tf, 0, sizeof *p->tf)]. *)
Definition zero_tf : trapframe := TrapFrame 0 0 0 0 0 0 0 0 0 0 0 0 0 0 0 0 0 0 0.

Inductive procstate := UNUSED | EMBRYO | SLEEPING | RUNNABLE | RUNNING | ZOMBIE.

#[export] Instance procstate_eq_dec : EqDecision procstate.
Proof. solve_decision. Defined.

(** Sleep channels are kernel addresses: [&ticks], the slot of a process (what
    [wait] and [join] sleep on), or another kernel object. *)
Inductive channel := CTicks | CProc (i : nat) | CAddr (a : Z).

#[export] Instance channel_eq_dec : EqDecision channel.
Proof. solve_decision. Defined.

Definition NPROC : nat := 64.
Definition NOFILE : nat := 16.
Definition KSTACKSIZE : Z := 4096.

(** * The file layer

    [fork] and [exit] count references to open files and to the current
    directory.  [fholds f l c]: the references handed out and not given back
    are the files [l] and the inodes [c]. *)
Class FileOps (F : Type) := {
  filedup : F → Z → outcome F;
  fileclose : F → Z → outcome F;
  idup : F → Z → outcome F;
  iput_cwd : F → Z → outcome F;      (* begin_op(); iput(ip); end_op(); *)
  namei_root : F → outcome (Z * F)
}.

Class FileLaws (F : Type) `{FileOps F} (fholds : F → list Z → list Z → Prop) : Prop := {
  law_fperm f l c l' c' : fholds f l c → l ≡ₚ l' → c ≡ₚ c' → fholds f l' c';
  law_filedup f l c x : fholds f l c → x ∈ l →
    ∃ f', filedup f x = Ok f' ∧ fholds f' (x :: l) c;
  law_fileclose f l c x : fholds f (x :: l) c →
    ∃ f', fileclose f x = Ok f' ∧ fholds f' l c;
  law_idup f l c x : fholds f l c → x ∈ c →
    ∃ f', idup f x = Ok f' ∧ fholds f' l (x :: c);
  law_iput f l c x : fholds f l (x :: c) →
    ∃ f', iput_cwd f x = Ok f' ∧ fholds f' l c
}.

(** The loop over [ofile] in [fork]: each non-null entry is duplicated. *)
Fixpoint dup_files {F} `{FileOps F} (f : F) (l : list Z) : outcome F :=
  match l with
  | [] => Ok f
  | x :: l' => if x =? 0 then dup_files f l' else f' ← filedup f x; dup_files f' l'
  end.

(** The loop over [ofile] in [exit]. *)
Fixpoint close_files {F} `{FileOps F} (f : F) (l : list Z) : outcome F :=
  match l with
  | [] => Ok f
  | x :: l' => if x =? 0 then close_files f l' else f' ← fileclose f x; close_files f' l'
  end.

(** The non-null entries. *)
Definition open_files (l : list Z) : list Z := filter (λ x, x ≠ 0) l.

(** A reference ledger that is its own implementation, for closed examples:
    every operation checks the reference it is given. *)
Definition ledger : Type := list Z * list Z.

Fixpoint remove1 (x : Z) (l : list Z) : option (list Z) :=
  match l with
  | [] => None
  | y :: l' => if x =? y then Some l' else (y ::.) <$> remove1 x l'
  end.

#[export] Instance ledger_ops : FileOps ledger := {
  filedup f x := if decide (x ∈ f.1) then Ok (x :: f.1, f.2) else Panic "filedup";
  fileclose f x := match remove1 x f.1 with
    Some l => Ok (l, f.2) | None => Panic "fileclose" end;
  idup f x := if decide (x ∈ f.2) then Ok (f.1, x :: f.2) else Panic "idup";
  iput_cwd f x := match remove1 x f.2 with
    Some l => Ok (f.1, l) | None => Panic "iput" end;
  namei_root f := Ok (1, (f.1, 1 :: f.2))
}.

Definition ledger_holds (f : ledger) (l c : list Z) : Prop := f.1 ≡ₚ l ∧ f.2 ≡ₚ c.

Lemma remove1_spec x l : x ∈ l → ∃ l', remove1 x l = Some l' ∧ l ≡ₚ x :: l'.
Proof.
  induction l as [|y l IH]; [set_solver|]. intros Hx. simpl.
  destruct (Z.eqb_spec x y) as [<-|Hne]; [eauto|].
  destruct IH as (l' & -> & Hp); [set_solver|]. simpl. eexists. split; [done|].
  rewrite Hp. constructor.
Qed.

#[export] Instance ledger_laws : FileLaws ledger ledger_holds.
Proof.
  split; unfold ledger_holds; cbn.
  - intros f l c l' c' [-> ->] ? ?. done.
  - intros f l c x [Hl Hc] Hx. rewrite decide_True by (by rewrite Hl).
    eexists. split; [done|]. simpl. by rewrite Hl.
  - intros f l c x [Hl Hc]. destruct (remove1_spec x f.1) as (l' & -> & Hp); [rewrite Hl; set_solver|].
    eexists. split; [done|]. simpl. split; [|done]. apply (Permutation_cons_inv (a := x)).
    by rewrite <- Hp, Hl.
  - intros f l c x [Hl Hc] Hx. rewrite decide_True by (by rewrite Hc).
    eexists. split; [done|]. simpl. by rewrite Hc.
  - intros f l c x [Hl Hc]. destruct (remove1_spec x f.2) as (l' & -> & Hp); [rewrite Hc; set_solver|].
    eexists. split; [done|]. simpl. split; [done|]. apply (Permutation_cons_inv (a := x)).
    by rewrite <- Hp, Hc.
Qed.

Section Files.
Context {F : Type} `{FL : FileLaws F fholds}.

Lemma dup_files_spec f l c o :
  fholds f l c → (∀ x, x ∈ open_files o → x ∈ l) →
  ∃ f', dup_files f o = Ok f' ∧ fholds f' (open_files o ++ l) c.
Proof using FL.
  revert f l. induction o as [|x o IH]; intros f l Hf Hin; simpl; [eauto|].
  unfold open_files in *. rewrite filter_cons in *.
  destruct (Z.eqb_spec x 0) as [->|Hx].
  - rewrite decide_False in * by tauto. by apply IH.
  - rewrite decide_True in * by done.
    destruct (law_filedup f l c x Hf) as (f1 & -> & Hf1); [set_solver|]. rewrite bind_Ok.
    destruct (IH f1 (x :: l) Hf1) as (f' & -> & Hf'); [set_solver|].
    exists f'. split; [done|]. eapply law_fperm; [done| |done].
    by rewrite <- Permutation_middle.
Qed.

Lemma close_files_spec f l c o :
  fholds f (open_files o ++ l) c → ∃ f', close_files f o = Ok f' ∧ fholds f' l c.
Proof using FL.
  revert f. induction o as [|x o IH]; intros f Hf; simpl; [eauto|].
  unfold open_files in *. rewrite filter_cons in *.
  destruct (Z.eqb_spec x 0) as [->|Hx].
  - rewrite decide_False in * by tauto. by apply IH.
  - rewrite decide_True in * by done.
    destruct (law_fileclose f (filter (λ x, x ≠ 0) o ++ l) c x Hf) as (f1 & -> & Hf1).
    rewrite bind_Ok. by apply IH.
Qed.

End Files.
