(* ===== verification/Sched.v ===== *)
(** The lottery scheduler and the process table (src/p2A/xv6-public/proc.c, with
    the system calls of sysfile.c and sysproc.c that use it).

    A [struct proc *] is an index into the table, a null one is [None].  The
    operations run under [ptable.lock]; [plocked] is that lock, and taking it
    twice or releasing it when it is free panics.  [cpus k !! c] is [c->proc].

    A process inside the kernel that has given up the processor resumes where
    its saved context says; [kc] is that resume point.  [swtch] into a process
    therefore runs [resume] and [swtch] out of it clears [c->proc] and lets
    [scheduler] release the lock.  The trap frame lives at the top of the kernel
    stack; it is the field [tf] here.  The checks of [sched] on [ncli] and on the
    interrupt flag, and the segment and cr3 loads of [switchuvm] and [switchkvm],
    are not modelled. *)

From Stdlib Require Import ZArith Lia.
From stdpp Require Import base numbers list gmap sets strings relations.
From S2P Require Import Prelude CStr Mmu MemIface KernBase.
#[local] Open Scope Z_scope.

(** Where a process continues when it is next scheduled: at [forkret], after
    [sched] in [yield], or after [sched] in [sleep] called from [wait], from
    [sys_sleep] (with its [n] and [ticks0]) or from other kernel code; [KUser]
    is not inside a blocking call. *)
Inductive kcont := KUser | KForkret | KYield | KWait | KTicks (n ticks0 : Z) | KOther.

Record proc := Proc {
  sz : Z;
  pgdir : Z;
  kstack : Z;
  state : procstate;
  pid : Z;
  parent : option nat;
  tf : trapframe;
  kc : kcont;
  chan : option channel;
  killed : bool;
  ofile : list Z;
  cwd : Z;
  name : cstring;
  tickets : Z;
  runticks : Z;
  boostsleft : Z;
  sleepticks : Z;
  sleepstart : Z
}.

Definition set_sz (v : Z) (p : proc) : proc :=
  Proc v (pgdir p) (kstack p) (state p) (pid p) (parent p) (tf p) (kc p) (chan p) (killed p) (ofile p) (cwd p) (name p) (tickets p) (runticks p) (boostsleft p) (sleepticks p) (sleepstart p).
Definition set_pgdir (v : Z) (p : proc) : proc :=
  Proc (sz p) v (kstack p) (state p) (pid p) (parent p) (tf p) (kc p) (chan p) (killed p) (ofile p) (cwd p) (name p) (tickets p) (runticks p) (boostsleft p) (sleepticks p) (sleepstart p).
Definition set_kstack (v : Z) (p : proc) : proc :=
  Proc (sz p) (pgdir p) v (state p) (pid p) (parent p) (tf p) (kc p) (chan p) (killed p) (ofile p) (cwd p) (name p) (tickets p) (runticks p) (boostsleft p) (sleepticks p) (sleepstart p).
Definition set_state (v : procstate) (p : proc) : proc :=
  Proc (sz p) (pgdir p) (kstack p) v (pid p) (parent p) (tf p) (kc p) (chan p) (killed p) (ofile p) (cwd p) (name p) (tickets p) (runticks p) (boostsleft p) (sleepticks p) (sleepstart p).
Definition set_pid (v : Z) (p : proc) : proc :=
  Proc (sz p) (pgdir p) (kstack p) (state p) v (parent p) (tf p) (kc p) (chan p) (killed p) (ofile p) (cwd p) (name p) (tickets p) (runticks p) (boostsleft p) (sleepticks p) (sleepstart p).
Definition set_parent (v : option nat) (p : proc) : proc :=
  Proc (sz p) (pgdir p) (kstack p) (state p) (pid p) v (tf p) (kc p) (chan p) (killed p) (ofile p) (cwd p) (name p) (tickets p) (runticks p) (boostsleft p) (sleepticks p) (sleepstart p).
Definition set_tf (v : trapframe) (p : proc) : proc :=
  Proc (sz p) (pgdir p) (kstack p) (state p) (pid p) (parent p) v (kc p) (chan p) (killed p) (ofile p) (cwd p) (name p) (tickets p) (runticks p) (boostsleft p) (sleepticks p) (sleepstart p).
Definition set_kc (v : kcont) (p : proc) : proc :=
  Proc (sz p) (pgdir p) (kstack p) (state p) (pid p) (parent p) (tf p) v (chan p) (killed p) (ofile p) (cwd p) (name p) (tickets p) (runticks p) (boostsleft p) (sleepticks p) (sleepstart p).
Definition set_chan (v : option channel) (p : proc) : proc :=
  Proc (sz p) (pgdir p) (kstack p) (state p) (pid p) (parent p) (tf p) (kc p) v (killed p) (ofile p) (cwd p) (name p) (tickets p) (runticks p) (boostsleft p) (sleepticks p) (sleepstart p).
Definition set_killed (v : bool) (p : proc) : proc :=
  Proc (sz p) (pgdir p) (kstack p) (state p) (pid p) (parent p) (tf p) (kc p) (chan p) v (ofile p) (cwd p) (name p) (tickets p) (runticks p) (boostsleft p) (sleepticks p) (sleepstart p).
Definition set_ofile (v : list Z) (p : proc) : proc :=
  Proc (sz p) (pgdir p) (kstack p) (state p) (pid p) (parent p) (tf p) (kc p) (chan p) (killed p) v (cwd p) (name p) (tickets p) (runticks p) (boostsleft p) (sleepticks p) (sleepstart p).
Definition set_cwd (v : Z) (p : proc) : proc :=
  Proc (sz p) (pgdir p) (kstack p) (state p) (pid p) (parent p) (tf p) (kc p) (chan p) (killed p) (ofile p) v (name p) (tickets p) (runticks p) (boostsleft p) (sleepticks p) (sleepstart p).
Definition set_name (v : cstring) (p : proc) : proc :=
  Proc (sz p) (pgdir p) (kstack p) (state p) (pid p) (parent p) (tf p) (kc p) (chan p) (killed p) (ofile p) (cwd p) v (tickets p) (runticks p) (boostsleft p) (sleepticks p) (sleepstart p).
Definition set_tickets (v : Z) (p : proc) : proc :=
  Proc (sz p) (pgdir p) (kstack p) (state p) (pid p) (parent p) (tf p) (kc p) (chan p) (killed p) (ofile p) (cwd p) (name p) v (runticks p) (boostsleft p) (sleepticks p) (sleepstart p).
Definition set_runticks (v : Z) (p : proc) : proc :=
  Proc (sz p) (pgdir p) (kstack p) (state p) (pid p) (parent p) (tf p) (kc p) (chan p) (killed p) (ofile p) (cwd p) (name p) (tickets p) v (boostsleft p) (sleepticks p) (sleepstart p).
Definition set_boostsleft (v : Z) (p : proc) : proc :=
  Proc (sz p) (pgdir p) (kstack p) (state p) (pid p) (parent p) (tf p) (kc p) (chan p) (killed p) (ofile p) (cwd p) (name p) (tickets p) (runticks p) v (sleepticks p) (sleepstart p).
Definition set_sleepticks (v : Z) (p : proc) : proc :=
  Proc (sz p) (pgdir p) (kstack p) (state p) (pid p) (parent p) (tf p) (kc p) (chan p) (killed p) (ofile p) (cwd p) (name p) (tickets p) (runticks p) (boostsleft p) v (sleepstart p).
Definition set_sleepstart (v : Z) (p : proc) : proc :=
  Proc (sz p) (pgdir p) (kstack p) (state p) (pid p) (parent p) (tf p) (kc p) (chan p) (killed p) (ofile p) (cwd p) (name p) (tickets p) (runticks p) (boostsleft p) (sleepticks p) v.

(** A slot of the zero-initialised table. *)
Definition null_proc : proc :=
  Proc 0 0 0 UNUSED 0 None zero_tf KUser None false (replicate NOFILE 0) 0 [] 0 0 0 0 0.

Record kern (M F : Type) := Kern {
  ptab : list proc;
  plocked : bool;
  cpus : list (option nat);
  nextpid : Z;
  rseed : Z;
  ticks : Z;
  initproc : option nat;
  mm : M;
  fs_ : F
}.
Arguments Kern {M F}.
Arguments ptab {M F}.
Arguments plocked {M F}.
Arguments cpus {M F}.
Arguments nextpid {M F}.
Arguments rseed {M F}.
Arguments ticks {M F}.
Arguments initproc {M F}.
Arguments mm {M F}.
Arguments fs_ {M F}.

Section Sched.
Context {M F : Type} `{MemOps M} `{FileOps F}.

#[local] Abbreviation kern := (kern M F).

Definition set_ptab (v : list proc) (k : kern) : kern :=
  Kern v (plocked k) (cpus k) (nextpid k) (rseed k) (ticks k) (initproc k) (mm k) (fs_ k).
Definition set_plocked (v : bool) (k : kern) : kern :=
  Kern (ptab k) v (cpus k) (nextpid k) (rseed k) (ticks k) (initproc k) (mm k) (fs_ k).
Definition set_cpus (v : list (option nat)) (k : kern) : kern :=
  Kern (ptab k) (plocked k) v (nextpid k) (rseed k) (ticks k) (initproc k) (mm k) (fs_ k).
Definition set_nextpid (v : Z) (k : kern) : kern :=
  Kern (ptab k) (plocked k) (cpus k) v (rseed k) (ticks k) (initproc k) (mm k) (fs_ k).
Definition set_rseed (v : Z) (k : kern) : kern :=
  Kern (ptab k) (plocked k) (cpus k) (nextpid k) v (ticks k) (initproc k) (mm k) (fs_ k).
Definition set_ticks (v : Z) (k : kern) : kern :=
  Kern (ptab k) (plocked k) (cpus k) (nextpid k) (rseed k) v (initproc k) (mm k) (fs_ k).
Definition set_initproc (v : option nat) (k : kern) : kern :=
  Kern (ptab k) (plocked k) (cpus k) (nextpid k) (rseed k) (ticks k) v (mm k) (fs_ k).
Definition set_mm (v : M) (k : kern) : kern :=
  Kern (ptab k) (plocked k) (cpus k) (nextpid k) (rseed k) (ticks k) (initproc k) v (fs_ k).
Definition set_fs_ (v : F) (k : kern) : kern :=
  Kern (ptab k) (plocked k) (cpus k) (nextpid k) (rseed k) (ticks k) (initproc k) (mm k) v.

Definition getp (k : kern) (i : nat) : proc := default null_proc (ptab k !! i).
Definition upd (i : nat) (f : proc → proc) (k : kern) : kern := set_ptab (alter f i (ptab k)) k.
Definition map_procs (f : proc → proc) (k : kern) : kern := set_ptab (f <$> ptab k) k.

(** [for(p = ptable.proc; p < &ptable.proc[NPROC]; p++) if(...) goto found;] *)
Definition find_proc (P : proc → bool) (l : list proc) : option nat :=
  fst <$> list_find (λ p, P p = true) l.

Definition acquire (k : kern) : outcome kern :=
  if plocked k then Panic "acquire" else Ok (set_plocked true k).
Definition release (k : kern) : outcome kern :=
  if plocked k then Ok (set_plocked false k) else Panic "release".

(** * The random numbers and the lottery *)

Definition RAND_MAX : Z := 2147483647.     (* 0x7fffffff *)

Definition rand (k : kern) : Z * kern :=
  let r := Z.land (u32 (u32 (rseed k * 1103515245) + 12345)) RAND_MAX in
  (r, set_rseed r k).

Definition is_runnable (p : proc) : bool := bool_decide (state p = RUNNABLE).

(** The tickets that count in a lottery; the product is an [int]. *)
Definition lottery_tickets (p : proc) : Z :=
  if 0 <? boostsleft p then s32 (2 * tickets p) else tickets p.

(** First loop of [hold_lottery]: the index of the winner. *)
Fixpoint draw (l : list proc) (temp_tickets : Z) (i : nat) : option nat :=
  match l with
  | [] => None
  | p :: l' =>
      if is_runnable p then
        let t := s32 (temp_tickets - lottery_tickets p) in
        if t <? 0 then Some i else draw l' t (S i)
      else draw l' temp_tickets (S i)
  end.

(** Body of the second loop. *)
Definition boost (p : proc) : proc :=
  match state p with
  | RUNNABLE => if 0 <? boostsleft p then set_boostsleft (s32 (boostsleft p - 1)) p else p
  | SLEEPING => set_boostsleft (s32 (boostsleft p + 1)) p
  | _ => p
  end.

Definition hold_lottery (k : kern) (total_tickets : Z) : option nat * kern :=
  if total_tickets <=? 0 then (None, k)
  else
    let '(random_number, k1) := rand k in
    let winner_ticket_number := random_number mod total_tickets in
    let winner := draw (ptab k1) (s32 winner_ticket_number) 0 in
    (winner, map_procs boost k1).

(** The loop of [scheduler] that adds up the tickets. *)
Fixpoint count_tickets (l : list proc) (total : Z) : Z :=
  match l with
  | [] => total
  | p :: l' =>
      count_tickets l' (if is_runnable p then s32 (total + lottery_tickets p) else total)
  end.

(** * Giving up the processor *)

Definition leave_cpu (i : nat) (k : kern) : kern :=
  set_cpus ((λ o, if decide (o = Some i) then None else o) <$> cpus k) k.

(** [sched] switches to the scheduler, which forgets the process and releases
    the lock. *)
Definition sched (k : kern) (i : nat) : outcome kern :=
  if negb (plocked k) then Panic "sched ptable.lock"
  else if decide (state (getp k i) = RUNNING) then Panic "sched running"
  else release (leave_cpu i k).

Definition yield (k : kern) (i : nat) : outcome kern :=
  k1 ← acquire k;
  sched (upd i (set_kc KYield ∘ set_state RUNNABLE) k1) i.

(** The part of [sleep] up to [sched], with [ptable.lock] held; [r] is the
    caller that continues after it. *)
Definition sleep (k : kern) (i : nat) (ch : channel) (r : kcont) : outcome kern :=
  sched (upd i (set_kc r ∘ set_state SLEEPING ∘ set_chan (Some ch)) k) i.

Definition wake (now : Z) (ch : channel) (p : proc) : proc :=
  if decide (state p = SLEEPING ∧ chan p = Some ch) then
    if u32 (sleepticks p) <=? u32 (now - u32 (sleepstart p))
    then set_sleepstart 0 (set_sleepticks 0 (set_state RUNNABLE p))
    else set_boostsleft (s32 (boostsleft p + 1)) p
  else p.

Definition wakeup1 (ch : channel) (k : kern) : kern := map_procs (wake (ticks k) ch) k.

Definition wakeup (ch : channel) (k : kern) : outcome kern :=
  k1 ← acquire k; release (wakeup1 ch k1).

(** A system call returns [r]: it is stored in the trap frame (syscall.c). *)
Definition sys_return (r : Z) (q : proc) : proc :=
  set_tf (set_eax (u32 r) (tf q)) (set_kc KUser q).

(** * wait *)

Definition is_zombie_child (i : nat) (p : proc) : bool :=
  bool_decide (parent p = Some i ∧ state p = ZOMBIE).
Definition is_child (i : nat) (p : proc) : bool := bool_decide (parent p = Some i).

Definition reap (p : proc) : proc :=
  set_state UNUSED (set_killed false (set_name [] (set_parent None (set_pid 0 (set_kstack 0 p))))).

(** One iteration of the [for(;;)] of [wait], with [ptable.lock] held: [Some r]
    when [wait] returns [r], [None] when the process went to sleep. *)
Definition wait_iter (k : kern) (i : nat) : outcome (option Z * kern) :=
  match find_proc (is_zombie_child i) (ptab k) with
  | Some j =>
      let p := getp k j in
      m1 ← mkfree (mm k) (kstack p);
      m2 ← mfreevm m1 (pgdir p);
      let k1 := upd i (sys_return (pid p))
                  (upd j reap (set_mm m2 k)) in
      k2 ← release k1;
      Ok (Some (pid p), k2)
  | None =>
      if negb (existsb (is_child i) (ptab k)) || killed (getp k i) then
        k1 ← release (upd i (sys_return (-1)) k);
        Ok (Some (-1), k1)
      else k1 ← sleep k i (CProc i) KWait; Ok (None, k1)
  end.

Definition wait (k : kern) (i : nat) : outcome (option Z * kern) :=
  k1 ← acquire k; wait_iter k1 i.

(** * sys_sleep *)

(** One test of [while(ticks - ticks0 < n)]; [tickslock] is not modelled. *)
Definition sleep_iter (k : kern) (i : nat) (n ticks0 : Z) : outcome (option Z * kern) :=
  if u32 (ticks k - ticks0) <? u32 n then
    if killed (getp k i) then
      Ok (Some (-1), upd i (sys_return (-1)) k)
    else
      k1 ← acquire k; k2 ← sleep k1 i CTicks (KTicks n ticks0); Ok (None, k2)
  else Ok (Some 0, upd i (sys_return 0) k).

Definition sys_sleep (k : kern) (i : nat) (n : Z) : outcome (option Z * kern) :=
  let ticks0 := ticks k in
  sleep_iter (upd i (set_sleepstart (s32 ticks0) ∘ set_sleepticks n) k) i n ticks0.

(** * The scheduler *)

Definition forkret (k : kern) (i : nat) : outcome kern := release (upd i (set_kc KUser) k).

(** What runs when [scheduler] switches to process [i], with the lock held. *)
Definition resume (k : kern) (i : nat) : outcome kern :=
  match kc (getp k i) with
  | KUser => release k
  | KForkret => forkret k i
  | KYield => release (upd i (set_kc KUser) k)
  | KWait => '(_, k1) ← wait_iter (upd i (set_chan None) k) i; Ok k1
  | KTicks n ticks0 =>
      k1 ← release (upd i (set_chan None) k);
      '(_, k2) ← sleep_iter k1 i n ticks0; Ok k2
  | KOther => release (upd i (set_kc KUser ∘ set_chan None) k)
  end.

(** One round of the [for(;;)] of [scheduler] on processor [c]. *)
Definition scheduler (k : kern) (c : nat) : outcome kern :=
  k1 ← acquire k;
  let total_tickets := count_tickets (ptab k1) 0 in
  if total_tickets =? 0 then release k1
  else
    match hold_lottery k1 total_tickets with
    | (None, k2) => release k2
    | (Some i, k2) =>
        let k3 := set_cpus (<[c := Some i]> (cpus k2)) k2 in
        let k4 := upd i (λ p, set_runticks (s32 (runticks p + 1)) (set_state RUNNING p)) k3 in
        resume k4 i
    end.

(** * Creating processes *)

Definition is_unused (p : proc) : bool := bool_decide (state p = UNUSED).

(** The kernel stack is recorded and the context starts at [forkret]. *)
Definition allocproc (k : kern) : outcome (option nat * kern) :=
  k1 ← acquire k;
  match find_proc is_unused (ptab k1) with
  | None => k2 ← release k1; Ok (None, k2)
  | Some i =>
      let k2 := upd i (λ p, set_sleepticks 0 (set_runticks 0 (set_boostsleft 0 (set_tickets 1
                  (set_pid (nextpid k1) (set_state EMBRYO p)))))) k1 in
      k3 ← release (set_nextpid (s32 (nextpid k1 + 1)) k2);
      '(ks, m) ← mkalloc (mm k3);
      let k4 := upd i (set_kstack ks) (set_mm m k3) in
      if ks =? 0 then Ok (None, upd i (set_state UNUSED) k4)
      else Ok (Some i, upd i (set_kc KForkret) k4)
  end.

(** [initcode] and its size come from the linked binary. *)
Definition userinit (initcode size : Z) (k : kern) : outcome kern :=
  '(o, k1) ← allocproc k;
  match o with
  | None => Fault 0
  | Some i =>
      let k2 := set_initproc (Some i) k1 in
      '(d, m) ← msetupkvm (mm k2);
      if d =? 0 then Panic "userinit: out of memory?"
      else
        m' ← minituvm m d initcode size;
        let t := set_eip 0 (set_esp PGSIZE (set_eflags 512
                   (set_ss 35 (set_es 35 (set_ds 35 (set_cs 27 zero_tf)))))) in
        '(root, f') ← namei_root (fs_ k2);
        let k3 := upd i (λ p, set_cwd root (set_name (of_string "initcode") (set_tf t
                    (set_sz PGSIZE (set_pgdir d p))))) (set_fs_ f' (set_mm m' k2)) in
        k4 ← acquire k3;
        release (upd i (set_state RUNNABLE) k4)
  end.

Definition growproc (k : kern) (i : nat) (n : Z) : outcome (Z * kern) :=
  let p := getp k i in
  let finish (sz' : Z) (k' : kern) : outcome (Z * kern) := Ok (0, upd i (set_sz sz') k') in
  if 0 <? n then
    '(sz', m) ← mallocuvm (mm k) (pgdir p) (sz p) (u32 (sz p + n));
    if sz' =? 0 then Ok (-1, set_mm m k) else finish sz' (set_mm m k)
  else if n <? 0 then
    '(sz', m) ← mdeallocuvm (mm k) (pgdir p) (sz p) (u32 (sz p + n));
    if sz' =? 0 then Ok (-1, set_mm m k) else finish sz' (set_mm m k)
  else finish (sz p) k.

(** The new slot gets the parent's files where they are open; its other
    entries keep what they held. *)
Definition inherit_files (mine theirs : list Z) : list Z :=
  zip_with (λ x y, if y =? 0 then x else y) mine theirs.

Definition fork (k : kern) (i : nat) : outcome (Z * kern) :=
  '(o, k1) ← allocproc k;
  match o with
  | None => Ok (-1, k1)
  | Some j =>
      let cur := getp k1 i in
      '(d, m) ← mcopyuvm (mm k1) (pgdir cur) (sz cur);
      let k2 := upd j (set_pgdir d) (set_mm m k1) in
      if d =? 0 then
        m' ← mkfree (mm k2) (kstack (getp k2 j));
        Ok (-1, upd j (set_state UNUSED ∘ set_kstack 0) (set_mm m' k2))
      else
        f1 ← dup_files (fs_ k2) (ofile cur);
        f2 ← idup f1 (cwd cur);
        let k3 := upd j (λ p, set_name (name cur) (set_cwd (cwd cur)
                    (set_ofile (inherit_files (ofile p) (ofile cur))
                    (set_tf (set_eax 0 (tf cur)) (set_parent (Some i) (set_sz (sz cur) p))))))
                    (set_fs_ f2 k2) in
        k4 ← acquire k3;
        k5 ← release (upd j (λ p, set_state RUNNABLE (set_sleepticks 0 (set_runticks 0
               (set_boostsleft 0 (set_tickets (tickets cur) p))))) k4);
        Ok (pid (getp k5 j), k5)
  end.

(** * exit and kill *)

(** The loop that passes abandoned children to [initproc]; [wakeup1(initproc)]
    runs for each of them that is a zombie. *)
Fixpoint reparent (k : kern) (i : nat) (js : list nat) : kern :=
  match js with
  | [] => k
  | j :: js' =>
      if decide (parent (getp k j) = Some i) then
        let k1 := upd j (set_parent (initproc k)) k in
        let k2 := if decide (state (getp k1 j) = ZOMBIE)
                  then match initproc k1 with Some r => wakeup1 (CProc r) k1 | None => k1 end
                  else k1 in
        reparent k2 i js'
      else reparent k i js'
  end.

Definition wake_parent (i : nat) (k : kern) : kern :=
  match parent (getp k i) with Some q => wakeup1 (CProc q) k | None => k end.

Definition exit (k : kern) (i : nat) : outcome kern :=
  if decide (initproc k = Some i) then Panic "init exiting"
  else
    let p := getp k i in
    f1 ← close_files (fs_ k) (ofile p);
    f2 ← iput_cwd f1 (cwd p);
    let k1 := upd i (λ p, set_cwd 0 (set_ofile (replicate NOFILE 0) p)) (set_fs_ f2 k) in
    k2 ← acquire k1;
    let k3 := reparent (wake_parent i k2) i (seq 0 NPROC) in
    sched (upd i (set_state ZOMBIE) k3) i.

Definition kill1 (p : proc) : proc :=
  let p' := set_killed true p in
  if decide (state p' = SLEEPING) then set_state RUNNABLE p' else p'.

Definition kill (k : kern) (target : Z) : outcome (Z * kern) :=
  k1 ← acquire k;
  match find_proc (λ p, pid p =? target) (ptab k1) with
  | Some j => k2 ← release (upd j kill1 k1); Ok (0, k2)
  | None => k2 ← release k1; Ok (-1, k2)
  end.

(** * System calls on tickets; the arguments are the fetched integers *)

Definition sys_srand (k : kern) (i : Z) : Z * kern := (0, set_rseed (u32 i) k).

Definition sys_settickets (k : kern) (target n : Z) : outcome (Z * kern) :=
  if target <? 0 then Ok (-1, k)
  else if n <=? 0 then Ok (-1, k)
  else
    k1 ← acquire k;
    k2 ← release (map_procs (λ p, if pid p =? target then set_tickets n p else p) k1);
    Ok (0, k2).

(** One row of [struct pstat]. *)
Record pstat_row := PStat {
  ps_inuse : Z; ps_pid : Z; ps_tickets : Z; ps_runticks : Z; ps_boostsleft : Z
}.

(** [ps] is the user pointer [argptr] fetched. *)
Definition sys_getpinfo (k : kern) (ps : Z) : outcome (Z * list pstat_row * kern) :=
  if ps =? 0 then Ok (-1, [], k)
  else
    k1 ← acquire k;
    let rows := (λ p, PStat (if decide (state p = UNUSED) then 0 else 1) (pid p) (tickets p)
                        (runticks p) (boostsleft p)) <$> ptab k1 in
    k2 ← release k1;
    Ok (0, rows, k2).

(** The timer interrupt of the first processor (trap.c). *)
Definition timer_tick (k : kern) : outcome kern :=
  wakeup CTicks (set_ticks (u32 (ticks k + 1)) k).

End Sched.
