(* ===== verification/SchedSpec.v ===== *)
(** Properties of the lottery scheduler and of the process table of Sched. *)

From Stdlib Require Import ZArith Lia.
From stdpp Require Import base numbers list gmap sets strings relations.
From S2P Require Import Prelude CStr Mmu MemIface KernBase Sched.
#[local] Open Scope Z_scope.

(** * Tickets without wrap-around *)

(** What a process is worth in a lottery. *)
Definition weight (p : proc) : Z :=
  if is_runnable p then (if 0 <? boostsleft p then 2 * tickets p else tickets p) else 0.

Definition total_weight (l : list proc) : Z := foldr (λ p n, weight p + n) 0 l.

(** The tickets held by the processes before slot [i]. *)
Definition before (l : list proc) (i : nat) : Z := total_weight (take i l).

(** Every runnable process has a ticket ... *)
Definition ticketed (l : list proc) : Prop :=
  ∀ p, p ∈ l → is_runnable p = true → 0 < tickets p.

(** ... and the tickets fit in an [int]. *)
Definition fair_table (l : list proc) : Prop := ticketed l ∧ total_weight l < 2 ^ 31.

Lemma ticketed_cons p l : ticketed (p :: l) → ticketed l ∧ (is_runnable p = true → 0 < tickets p).
Proof. unfold ticketed. set_solver. Qed.

Lemma weight_nonneg l p : ticketed l → p ∈ l → 0 <= weight p.
Proof.
  intros Ht Hp. unfold weight. destruct (is_runnable p) eqn:E; [|done].
  specialize (Ht p Hp E). destruct (0 <? boostsleft p); lia.
Qed.

Lemma weight_pos p : 0 < tickets p → is_runnable p = true → 0 < weight p.
Proof. intros Ht E. unfold weight. rewrite E. destruct (0 <? boostsleft p); lia. Qed.

Lemma total_nonneg l : ticketed l → 0 <= total_weight l.
Proof.
  induction l as [|p l IH]; intros Ht; simpl; [done|].
  pose proof (weight_nonneg (p :: l) p Ht ltac:(set_solver)).
  destruct (ticketed_cons p l Ht) as [Ht' _]. specialize (IH Ht'). lia.
Qed.

Lemma fair_cons p l : fair_table (p :: l) → fair_table l ∧ 0 <= weight p ∧ weight p <= total_weight (p :: l).
Proof.
  intros [Ht Hs]. simpl in Hs.
  pose proof (ticketed_cons p l Ht) as [Ht' _].
  pose proof (total_nonneg l Ht').
  pose proof (weight_nonneg (p :: l) p Ht ltac:(set_solver)). split; [split; [done|lia]|]. simpl. lia.
Qed.

Lemma lottery_tickets_weight p :
  is_runnable p = true → 0 < tickets p → weight p < 2 ^ 31 → lottery_tickets p = weight p.
Proof.
  intros E Ht Hw. unfold lottery_tickets, weight in *. rewrite E in *.
  destruct (0 <? boostsleft p); [|done]. apply s32_small. lia.
Qed.

(** The count of [scheduler] is the true total. *)
Lemma count_tickets_spec l n :
  ticketed l → 0 <= n → n + total_weight l < 2 ^ 31 →
  count_tickets l n = n + total_weight l.
Proof.
  revert n. induction l as [|p l IH]; intros n Ht Hn Hs; simpl in *; [lia|].
  pose proof (ticketed_cons p l Ht) as [Ht' _].
  pose proof (total_nonneg l Ht') as Hl.
  pose proof (weight_nonneg (p :: l) p Ht ltac:(set_solver)) as Hw.
  destruct (is_runnable p) eqn:E.
  - rewrite lottery_tickets_weight by (done || lia || (apply Ht; set_solver)).
    rewrite s32_small by lia. rewrite IH by (done || lia). lia.
  - assert (weight p = 0) as -> by (unfold weight; by rewrite E). rewrite IH by (done || lia). lia.
Qed.

(** The draw finds the process whose tickets contain the number drawn. *)
Lemma draw_spec l r i :
  fair_table l → 0 <= r < total_weight l →
  ∃ j p, draw l r i = Some (i + j)%nat ∧ l !! j = Some p ∧ is_runnable p = true
    ∧ before l j <= r < before l j + weight p.
Proof.
  revert r i. induction l as [|p l IH]; intros r i Hf Hr; simpl in *; [lia|].
  destruct (fair_cons p l Hf) as (Hf' & Hw & Hle). destruct Hf as [Ht Hs]. simpl in Hle, Hs.
  destruct (is_runnable p) eqn:E.
  - assert (0 < tickets p) as Htp by (apply Ht; set_solver).
    rewrite lottery_tickets_weight by (done || lia). rewrite s32_small by lia.
    destruct (Z.ltb_spec (r - weight p) 0) as [Hlt|Hge].
    + exists 0%nat, p. rewrite Nat.add_0_r. unfold before. simpl. split_and!; [done|done|done|lia|lia].
    + destruct (IH (r - weight p) (S i) Hf') as (j & q & Hd & Hq & Hrq & Hb); [lia|].
      exists (S j), q. unfold before in *. simpl. split_and!; [|done|done|lia|lia].
      rewrite Hd. f_equal. lia.
  - assert (weight p = 0) as Hw0 by (unfold weight; by rewrite E).
    destruct (IH r (S i) Hf') as (j & q & Hd & Hq & Hrq & Hb); [lia|].
    exists (S j), q. unfold before in *. simpl. split_and!; [|done|done|lia|lia].
    rewrite Hd. f_equal. lia.
Qed.

(** Ticket intervals of different slots are disjoint. *)
Lemma before_mono l i j : ticketed l →
  (i <= j)%nat → before l i <= before l j.
Proof.
  intros Ht. revert i j. induction l as [|p l IH]; intros i j Hij; unfold before in *.
  - by rewrite !take_nil.
  - assert (∀ q, q ∈ l → is_runnable q = true → 0 < tickets q) as Ht' by set_solver.
    pose proof (weight_nonneg (p :: l) p Ht ltac:(set_solver)).
    destruct i as [|i], j as [|j]; simpl; try lia.
    + pose proof (total_nonneg (take j l)) as Hn. enough (0 <= total_weight (take j l)) by lia.
      apply Hn. intros q Hq. apply Ht'. rewrite <- (take_drop j l). set_solver.
    + specialize (IH Ht' i j). lia.
Qed.

(** The remainders that make slot [j] win are exactly its tickets. *)
Lemma draw_iff l r j p :
  fair_table l → 0 <= r < total_weight l → l !! j = Some p →
  draw l r 0 = Some j ↔ before l j <= r < before l j + weight p.
Proof.
  intros Hf Hr Hp. destruct (draw_spec l r 0 Hf Hr) as (n & q & Hd & Hq & _ & Hb).
  rewrite Hd. cbn [Nat.add]. destruct Hf as [Ht _].
  assert (∀ a x, l !! a = Some x → before l (S a) = before l a + weight x) as Hstep.
  { clear. induction l as [|y l IH]; intros [|a] x Hx; simplify_eq/=; unfold before in *; simpl in *.
    - lia.
    - specialize (IH a x Hx). lia. }
  split; [intros E; by simplify_eq|]. intros Hj. f_equal.
  destruct (lt_eq_lt_dec n j) as [[Hlt|?]|Hlt]; [exfalso|done|exfalso].
  - pose proof (before_mono l (S n) j Ht ltac:(lia)). rewrite (Hstep n q Hq) in *. lia.
  - pose proof (before_mono l (S j) n Ht ltac:(lia)). rewrite (Hstep j p Hp) in *. lia.
Qed.

(** * The lottery *)

Section Lottery.
Context {M F : Type} `{MemOps M} `{FileOps F}.
#[local] Abbreviation kern := (kern M F).

Lemma rand_range (k : kern) : 0 <= (rand k).1 < 2 ^ 31.
Proof.
  unfold rand, RAND_MAX; simpl. change 2147483647 with (Z.ones 31).
  rewrite Z.land_ones by lia. apply Z.mod_pos_bound. lia.
Qed.

Lemma hold_lottery_spec (k : kern) :
  fair_table (ptab k) → 0 < total_weight (ptab k) →
  let r := (rand k).1 mod total_weight (ptab k) in
  ∃ i p, hold_lottery k (total_weight (ptab k))
           = (Some i, map_procs boost (set_rseed (rand k).1 k))
    ∧ ptab k !! i = Some p ∧ state p = RUNNABLE
    ∧ before (ptab k) i <= r < before (ptab k) i + weight p.
Proof.
  intros Hf Hpos r. pose proof (rand_range k) as Hr.
  assert (0 <= r < total_weight (ptab k)) as Hrt by (apply Z.mod_pos_bound; lia).
  unfold hold_lottery. destruct (Z.leb_spec (total_weight (ptab k)) 0); [lia|].
  destruct (draw_spec (ptab k) r 0 Hf Hrt) as (i & p & Hd & Hp & Hrun & Hb).
  exists i, p. unfold is_runnable in Hrun. apply bool_decide_eq_true in Hrun.
  split_and!; [|done|done|lia|lia].
  cbn [rand fst] in *. rewrite s32_small by (destruct Hf; lia).
  cbn [ptab set_rseed]. fold r. by rewrite Hd.
Qed.

(** A round with a usable total reaches [resume] of the winner. *)
Lemma scheduler_spec (k : kern) (c : nat) :
  plocked k = false → fair_table (ptab k) → 0 < total_weight (ptab k) →
  let r := (rand k).1 mod total_weight (ptab k) in
  ∃ i p k', ptab k !! i = Some p ∧ state p = RUNNABLE
    ∧ before (ptab k) i <= r < before (ptab k) i + weight p
    ∧ scheduler k c = resume k' i ∧ cpus k' = <[c := Some i]> (cpus k)
    ∧ ptab k' = alter (λ p, set_runticks (s32 (runticks p + 1)) (set_state RUNNING p)) i
                  (boost <$> ptab k)
    ∧ plocked k' = true.
Proof.
  intros Hl Hf Hpos r. unfold scheduler, acquire. rewrite Hl, bind_Ok. cbn [ptab set_plocked].
  rewrite count_tickets_spec by (destruct Hf; done || lia). rewrite Z.add_0_l.
  destruct (Z.eqb_spec (total_weight (ptab k)) 0); [lia|].
  destruct (hold_lottery_spec (set_plocked true k)) as (i & p & E & Hp & Hst & Hb); [done|done|].
  cbn [ptab set_plocked] in E. rewrite E. eexists i, p, _. split_and!; try done; apply Hb.
Qed.

(** ** When the sum of the tickets overflows *)

Lemma scheduler_negative (k : kern) c :
  plocked k = false → count_tickets (ptab k) 0 < 0 → scheduler k c = Ok k.
Proof.
  intros Hl Hneg. unfold scheduler, acquire. rewrite Hl, bind_Ok. cbn [ptab set_plocked].
  destruct (Z.eqb_spec (count_tickets (ptab k) 0) 0); [lia|].
  unfold hold_lottery. destruct (Z.leb_spec (count_tickets (ptab k) 0) 0); [|lia].
  unfold release. cbn. destruct k; simpl in *. by subst.
Qed.

End Lottery.

(** * Resources of the process table *)

Definition live (p : proc) : Prop := state p ≠ UNUSED ∧ state p ≠ ZOMBIE.
Definition inuse (p : proc) : Prop := state p ≠ UNUSED.

#[export] Instance live_dec p : Decision (live p).
Proof. unfold live. apply _. Defined.
#[export] Instance inuse_dec p : Decision (inuse p).
Proof. unfold inuse. apply _. Defined.

(** A dead slot holds no file; a live one has a current directory; a used one
    has tickets. *)
Record slot_ok (p : proc) : Prop := {
  so_ofile : length (ofile p) = NOFILE;
  so_dead : ¬ live p → ofile p = replicate NOFILE 0 ∧ cwd p = 0;
  so_live : live p → cwd p ≠ 0;
  so_tickets : inuse p → 0 < tickets p;
  so_embryo : state p ≠ EMBRYO
}.

(** Kernel stacks and page directories belong to exactly one used slot each,
    and nothing else is held. *)
Record owns (K : gset Z) (D : gmap Z Z) (l : list proc) : Prop := {
  ow_stack : ∀ x, x ∈ K ↔ ∃ i p, l !! i = Some p ∧ inuse p ∧ kstack p = x;
  ow_dir : ∀ d n, D !! d = Some n ↔ ∃ i p, l !! i = Some p ∧ inuse p ∧ pgdir p = d ∧ sz p = n;
  ow_sep : ∀ i j p q, l !! i = Some p → l !! j = Some q → inuse p → inuse q → i ≠ j →
    kstack p ≠ kstack q ∧ pgdir p ≠ pgdir q
}.

Definition cwds (p : proc) : list Z := if decide (cwd p = 0) then [] else [cwd p].
Definition all_files (l : list proc) : list Z := flat_map (λ p, open_files (ofile p)) l.
Definition all_cwds (l : list proc) : list Z := flat_map cwds l.

(** Changes that do not touch resources. *)
Record same_res (p p' : proc) : Prop := {
  sr_live : live p ↔ live p';
  sr_inuse : inuse p ↔ inuse p';
  sr_embryo : state p ≠ EMBRYO → state p' ≠ EMBRYO;
  sr_kstack : kstack p' = kstack p;
  sr_pgdir : pgdir p' = pgdir p;
  sr_sz : sz p' = sz p;
  sr_ofile : ofile p' = ofile p;
  sr_cwd : cwd p' = cwd p;
  sr_tickets : 0 < tickets p → 0 < tickets p'
}.

Lemma same_res_refl p : same_res p p.
Proof. by split. Qed.

Lemma same_res_trans p q r : same_res p q → same_res q r → same_res p r.
Proof. intros [] []. split; try congruence; tauto. Qed.

Lemma slot_ok_same p p' : same_res p p' → slot_ok p → slot_ok p'.
Proof.
  intros [Hl Hi He Hk Hp Hz Ho Hc Ht] [Ho' Hd Hv Htk Hem].
  split; rewrite ?Ho, ?Hc; try done.
  - intros Hn. apply Hd. tauto.
  - intros Hn. apply Hv. tauto.
  - intros Hn. apply Ht, Htk. tauto.
  - tauto.
Qed.

Lemma owns_same K D l l' : Forall2 same_res l l' → owns K D l → owns K D l'.
Proof.
  intros HF [Hs Hd Hsep].
  assert (∀ i p', l' !! i = Some p' → ∃ p, l !! i = Some p ∧ same_res p p') as Hback.
  { intros i p' Hp'. by eapply Forall2_lookup_r. }
  assert (∀ i p, l !! i = Some p → ∃ p', l' !! i = Some p' ∧ same_res p p') as Hfwd.
  { intros i p Hp. by eapply Forall2_lookup_l. }
  split.
  - intros x. rewrite Hs. split.
    + intros (i & p & Hp & Hu & Hk). destruct (Hfwd i p Hp) as (p' & Hp' & S).
      exists i, p'. split_and!; [done|by apply (sr_inuse _ _ S)|by rewrite (sr_kstack _ _ S)].
    + intros (i & p' & Hp' & Hu & Hk). destruct (Hback i p' Hp') as (p & Hp & S).
      exists i, p. split_and!; [done|by apply (sr_inuse _ _ S)|by rewrite <- (sr_kstack _ _ S)].
  - intros d n. rewrite Hd. split.
    + intros (i & p & Hp & Hu & Hk & Hz). destruct (Hfwd i p Hp) as (p' & Hp' & S).
      exists i, p'. split_and!; [done|by apply (sr_inuse _ _ S)|by rewrite (sr_pgdir _ _ S)
        |by rewrite (sr_sz _ _ S)].
    + intros (i & p' & Hp' & Hu & Hk & Hz). destruct (Hback i p' Hp') as (p & Hp & S).
      exists i, p. split_and!; [done|by apply (sr_inuse _ _ S)|by rewrite <- (sr_pgdir _ _ S)
        |by rewrite <- (sr_sz _ _ S)].
  - intros i j p' q' Hp' Hq' Hu Hv Hne.
    destruct (Hback i p' Hp') as (p & Hp & S). destruct (Hback j q' Hq') as (q & Hq & S').
    rewrite (sr_kstack _ _ S), (sr_kstack _ _ S'), (sr_pgdir _ _ S), (sr_pgdir _ _ S').
    apply (Hsep i j); try done; [by apply (sr_inuse _ _ S)|by apply (sr_inuse _ _ S')].
Qed.

Lemma files_same l l' : Forall2 same_res l l' → all_files l' = all_files l ∧ all_cwds l' = all_cwds l.
Proof.
  unfold all_files, all_cwds. induction 1 as [|p p' l l' S _ [IH1 IH2]]; simpl; [done|].
  unfold cwds in *. by rewrite (sr_ofile _ _ S), (sr_cwd _ _ S), IH1, IH2.
Qed.

(** ** Changing one slot *)

Section Slots.
Context (K : gset Z) (D : gmap Z Z) (l : list proc) (j : nat) (p p' : proc).
Hypothesis Hown : owns K D l.
Hypothesis Hj : l !! j = Some p.

Lemma slot_at : <[j := p']> l !! j = Some p'.
Proof using Hj. apply list_lookup_insert_eq. by eapply lookup_lt_Some. Qed.

Lemma slot_other i q : i ≠ j → l !! i = Some q → <[j := p']> l !! i = Some q.
Proof using. intros. by rewrite list_lookup_insert_ne. Qed.

Lemma unused_ne i q : ¬ inuse p → l !! i = Some q → inuse q → i ≠ j.
Proof using Hj. intros Hu Hq Hin ->. rewrite Hj in Hq. by injection Hq as <-. Qed.

Lemma owns_idle : ¬ inuse p → ¬ inuse p' → owns K D (<[j := p']> l).
Proof using Hown Hj.
  intros Hu Hu'. destruct Hown as [Hs Hd Hsep]. split.
  - intros x. rewrite Hs. split; intros (i & q & Hq & Hin & E); slot_cases; try done.
    + exists i, q. split; [|done]. by apply slot_other; [eapply unused_ne|].
    + by exists i, q.
  - intros d n. rewrite Hd. split; intros (i & q & Hq & Hin & E); slot_cases; try done.
    + exists i, q. split; [|done]. by apply slot_other; [eapply unused_ne|].
    + by exists i, q.
  - intros i i' q q' Hq Hq' Hin Hin' Hne. slot_cases; try done. by apply (Hsep i i').
Qed.

Lemma owns_add :
  ¬ inuse p → inuse p' → kstack p' ∉ K → D !! pgdir p' = None →
  owns ({[kstack p']} ∪ K) (<[pgdir p' := sz p']> D) (<[j := p']> l).
Proof using Hown Hj.
  intros Hu Hu' HK HD. destruct Hown as [Hs Hd Hsep].
  pose proof (λ i q, unused_ne i q Hu) as Hnj.
  assert (∀ i q, l !! i = Some q → inuse q → kstack q ≠ kstack p' ∧ pgdir q ≠ pgdir p') as Hnew.
  { intros i q Hq Hin. split; intros E.
    - apply HK. rewrite <- E. apply Hs. eauto.
    - assert (D !! pgdir q = Some (sz q)) as HDq by (apply Hd; eauto 6). congruence. }
  split.
  - intros x. rewrite elem_of_union, elem_of_singleton, Hs. split.
    + intros [->|(i & q & Hq & Hin & E)]; [exists j, p'; split; [apply slot_at|done]|].
      exists i, q. split; [|done]. apply slot_other; [by eapply Hnj|done].
    + intros (i & q & Hq & Hin & E). slot_cases; [by left|]. right. eauto.
  - intros d n. rewrite lookup_insert_Some. split.
    + intros [[<- <-]|[Hne (i & q & Hq & Hin & E)%Hd]];
        [exists j, p'; split; [apply slot_at|done]|].
      exists i, q. split; [|done]. apply slot_other; [by eapply Hnj|done].
    + intros (i & q & Hq & Hin & E & E'). slot_cases; [by left|]. right. subst.
      split; [|apply Hd; eauto 6]. intros E. by destruct (Hnew i q Hq Hin).
  - intros i i' q q' Hq Hq' Hin Hin' Hne. slot_cases; try done.
    + by apply (Hnew i q).
    + destruct (Hnew i' q' Hq' Hin') as [H1 H2]. done.
    + by apply (Hsep i i').
Qed.

Lemma owns_remove :
  inuse p → ¬ inuse p' → owns (K ∖ {[kstack p]}) (delete (pgdir p) D) (<[j := p']> l).
Proof using Hown Hj.
  intros Hu Hu'. destruct Hown as [Hs Hd Hsep].
  assert (∀ i q, l !! i = Some q → inuse q → i ≠ j → kstack q ≠ kstack p ∧ pgdir q ≠ pgdir p) as Hnew
    by (intros i q Hq Hin Hne; by apply (Hsep i j)).
  split.
  - intros x. rewrite elem_of_difference, elem_of_singleton, Hs. split.
    + intros [(i & q & Hq & Hin & E) Hne]. exists i, q. split; [|done].
      apply slot_other; [|done]. intros ->. congruence.
    + intros (i & q & Hq & Hin & E). slot_cases; [done|]. split; [eauto|].
      subst. by apply (Hnew i q).
  - intros d n. rewrite lookup_delete_Some, Hd. split.
    + intros [Hne (i & q & Hq & Hin & E & E')]. exists i, q. split; [|done].
      apply slot_other; [|done]. intros ->. congruence.
    + intros (i & q & Hq & Hin & E & E'). slot_cases; [done|]. split; [|by eauto 6].
      subst. intros E. by destruct (Hnew i q).
  - intros i i' q q' Hq Hq' Hin Hin' Hne. slot_cases; try done. by apply (Hsep i i').
Qed.

Lemma owns_resize :
  inuse p → inuse p' → kstack p' = kstack p → pgdir p' = pgdir p →
  owns K (<[pgdir p := sz p']> D) (<[j := p']> l).
Proof using Hown Hj.
  intros Hu Hu' EK ED. destruct Hown as [Hs Hd Hsep].
  assert (∀ i q, l !! i = Some q → inuse q → i ≠ j → kstack q ≠ kstack p ∧ pgdir q ≠ pgdir p) as Hnew
    by (intros i q Hq Hin Hne; by apply (Hsep i j)).
  split.
  - intros x. rewrite Hs. split.
    + intros (i & q & Hq & Hin & E). destruct (decide (i = j)) as [->|Hne].
      * exists j, p'. split; [apply slot_at|]. split; [done|]. congruence.
      * exists i, q. split; [by apply slot_other|done].
    + intros (i & q & Hq & Hin & E). slot_cases; [|by eauto]. exists j, p. split_and!; [done|done|congruence].
  - intros d n. rewrite lookup_insert_Some. split.
    + intros [[<- <-]|[Hne (i & q & Hq & Hin & E & E')%Hd]];
        [exists j, p'; split; [apply slot_at|done]|].
      exists i, q. split; [|done]. apply slot_other; [|done]. intros ->. congruence.
    + intros (i & q & Hq & Hin & E & E'). slot_cases; [left; split; congruence|]. right. subst.
      split; [|apply Hd; by eauto 6]. intros E. by destruct (Hnew i q).
  - intros i i' q q' Hq Hq' Hin Hin' Hne. slot_cases; try done; rewrite ?EK, ?ED.
    + by apply (Hnew i q).
    + destruct (Hnew i' q') as [H1 H2]; [done..|]. split; congruence.
    + by apply (Hsep i i').
Qed.

End Slots.

(** The references of a table with one slot changed. *)
Lemma files_insert l j p p' :
  l !! j = Some p →
  ∃ L C, all_files l ≡ₚ open_files (ofile p) ++ L ∧ all_files (<[j := p']> l) ≡ₚ open_files (ofile p') ++ L
    ∧ all_cwds l ≡ₚ cwds p ++ C ∧ all_cwds (<[j := p']> l) ≡ₚ cwds p' ++ C.
Proof.
  intros Hj. pose proof (lookup_lt_Some _ _ _ Hj) as Hlt.
  pose proof (take_drop_middle l j p Hj) as E. pose proof (insert_take_drop l j p' Hlt) as E'.
  set (a := take j l) in *. set (b := drop (S j) l) in *. clearbody a b.
  rewrite E'. rewrite <- E. exists (all_files a ++ all_files b), (all_cwds a ++ all_cwds b).
  unfold all_files, all_cwds. rewrite !flat_map_app.
  cbn [flat_map]. split_and!; apply Permutation_app_swap_app.
Qed.

(** Null entries are filled with the parent's files. *)
Lemma inherit_closed l : length l = NOFILE → inherit_files (replicate NOFILE 0) l = l.
Proof.
  intros Hl. unfold inherit_files, NOFILE in *. remember 16%nat as n eqn:En. clear En.
  revert n Hl. induction l as [|x l IH]; intros [|n] Hl; simpl in *; try done; try lia.
  rewrite IH by lia. destruct (Z.eqb_spec x 0); congruence.
Qed.

Lemma all_files_in (l : list proc) i p :
  l !! i = Some p → (∀ x, x ∈ open_files (ofile p) → x ∈ all_files l) ∧ (∀ x, x ∈ cwds p → x ∈ all_cwds l).
Proof.
  intros Hp. destruct (files_insert l i p p Hp) as (L & C & E & _ & G & _).
  split; intros x Hx; [rewrite E|rewrite G]; set_solver.
Qed.

(** * Processors *)

Definition running (l : list proc) (i : nat) : Prop :=
  ∃ p, l !! i = Some p ∧ state p = RUNNING.

(** The running processes are those on a processor, each on one. *)
Record cpu_ok (l : list proc) (cs : list (option nat)) : Prop := {
  co_run : ∀ c i, cs !! c = Some (Some i) → running l i;
  co_cpu : ∀ i, running l i → ∃ c, cs !! c = Some (Some i);
  co_one : ∀ c c' i, cs !! c = Some (Some i) → cs !! c' = Some (Some i) → c = c'
}.

Lemma cpu_ok_same l l' cs :
  (∀ i, running l i ↔ running l' i) → cpu_ok l cs → cpu_ok l' cs.
Proof. intros Hr [H1 H2 H3]. split; [|intros i ?%Hr; auto|done]. intros c i ?%H1. by apply Hr. Qed.

(** Leaving the processor. *)
Lemma cpu_ok_leave l l' cs i :
  cpu_ok l cs → (∀ j, j ≠ i → running l j ↔ running l' j) → ¬ running l' i →
  cpu_ok l' ((λ o, if decide (o = Some i) then None else o) <$> cs).
Proof.
  intros [H1 H2 H3] Hne Hi. split.
  - intros c j Hc. apply list_lookup_fmap_Some in Hc as (o & E & Ho).
    case_decide; [done|]. subst o. apply Hne; [congruence|]. by apply (H1 c).
  - intros j Hj. assert (j ≠ i) as Hji by (intros ->; done).
    apply Hne in Hj; [|done]. destruct (H2 j Hj) as [c Hc]. exists c.
    rewrite list_lookup_fmap, Hc. simpl. rewrite decide_False by congruence. done.
  - intros c c' j Hc Hc'. apply list_lookup_fmap_Some in Hc as (o & E & Ho).
    apply list_lookup_fmap_Some in Hc' as (o' & E' & Ho'). do 2 case_decide; try done. subst.
    by apply (H3 c c' j).
Qed.

(** Entering an idle processor. *)
Lemma cpu_ok_enter l l' cs c i :
  cpu_ok l cs → cs !! c = Some None → ¬ running l i →
  (∀ j, j ≠ i → running l j ↔ running l' j) → running l' i →
  cpu_ok l' (<[c := Some i]> cs).
Proof.
  intros [H1 H2 H3] Hc Hni Hne Hi.
  assert (c < length cs)%nat as Hlt by (by eapply lookup_lt_Some).
  split.
  - intros c' j Hc'. destruct (decide (c = c')) as [->|Hcc].
    + rewrite list_lookup_insert_eq in Hc' by done. by simplify_eq.
    + rewrite list_lookup_insert_ne in Hc' by done. destruct (decide (j = i)) as [->|]; [done|].
      apply Hne; [done|]. by apply (H1 c').
  - intros j Hj. destruct (decide (j = i)) as [->|Hji].
    + exists c. by rewrite list_lookup_insert_eq.
    + apply Hne in Hj; [|done]. destruct (H2 j Hj) as [c' Hc']. exists c'.
      rewrite list_lookup_insert_ne; [done|]. intros ->. congruence.
  - intros c1 c2 j Hc1 Hc2. destruct (decide (c = c1)) as [<-|N1], (decide (c = c2)) as [<-|N2]; try done.
    + rewrite list_lookup_insert_eq in Hc1 by done. simplify_eq.
      rewrite list_lookup_insert_ne in Hc2 by done. by apply H1 in Hc2.
    + rewrite list_lookup_insert_eq in Hc2 by done. simplify_eq.
      rewrite list_lookup_insert_ne in Hc1 by done. by apply H1 in Hc1.
    + rewrite list_lookup_insert_ne in Hc1, Hc2 by done. by apply (H3 c1 c2 j).
Qed.

Lemma running_alter f i l j :
  running (alter f i l) j ↔
  if decide (i = j) then ∃ p, l !! j = Some p ∧ state (f p) = RUNNING else running l j.
Proof.
  unfold running. case_decide as E; [subst j|].
  - rewrite list_lookup_alter_eq. split.
    + intros (p & Hp & Hs). destruct (l !! i) as [q|]; simplify_eq/=. eauto.
    + intros (p & -> & Hs). simpl. eauto.
  - by rewrite list_lookup_alter_ne.
Qed.

(** Changes that keep every process on or off the processors. *)
Definition same_run (p p' : proc) : Prop := state p = RUNNING ↔ state p' = RUNNING.

Lemma running_same l l' : Forall2 same_run l l' → ∀ i, running l i ↔ running l' i.
Proof.
  intros HF i. unfold running. split.
  - intros (p & Hp & Hs). destruct (Forall2_lookup_l _ _ _ _ _ HF Hp) as (p' & Hp' & S).
    exists p'. split; [done|]. by apply S.
  - intros (p & Hp & Hs). destruct (Forall2_lookup_r _ _ _ _ _ HF Hp) as (p' & Hp' & S).
    exists p'. split; [done|]. by apply S.
Qed.

Section Safety.
Context {M F : Type} `{ML : MemLaws M holds} `{FL : FileLaws F fholds}.
#[local] Abbreviation kern := (kern M F).

Record res_ok (k : kern) : Prop := {
  rs_len : length (ptab k) = NPROC;
  rs_slots : Forall slot_ok (ptab k);
  rs_mem : ∃ K D, holds (mm k) K D ∧ owns K D (ptab k);
  rs_files : fholds (fs_ k) (all_files (ptab k)) (all_cwds (ptab k))
}.

Lemma res_same (k k' : kern) :
  Forall2 same_res (ptab k) (ptab k') → mm k' = mm k → fs_ k' = fs_ k → res_ok k → res_ok k'.
Proof using.
  intros HF Hm Hf [Hl Hs (K & D & Hh & Ho) Hfl]. split.
  - by rewrite <- Hl, (Forall2_length _ _ _ HF).
  - apply Forall_forall. intros p' Hp'. apply list_elem_of_lookup in Hp' as [i Hi].
    destruct (Forall2_lookup_r _ _ _ _ _ HF Hi) as (p & Hp & S).
    apply (slot_ok_same p p' S). rewrite Forall_lookup in Hs. by apply (Hs i).
  - exists K, D. rewrite Hm. split; [done|]. by apply (owns_same K D (ptab k)).
  - destruct (files_same _ _ HF) as [-> ->]. by rewrite Hf.
Qed.

(** The invariant between two steps. *)
Record safe (k : kern) : Prop := {
  sf_res : res_ok k;
  sf_lock : plocked k = false;
  sf_cpu : cpu_ok (ptab k) (cpus k)
}.

(** ** Quiet changes *)

Ltac quiet := split; simpl; unfold live, inuse; simpl; intuition congruence.

Lemma lookup_getp (k : kern) i p : ptab k !! i = Some p → getp k i = p.
Proof using. intros E. unfold getp. by rewrite E. Qed.

(** A change of one slot that keeps its resources and leaves it on or off the
    processor. *)
Lemma safe_upd (k : kern) i f :
  safe k → (∀ p, ptab k !! i = Some p → same_res p (f p) ∧ same_run p (f p)) → safe (upd i f k).
Proof using.
  intros [Hr Hl Hc] Hf. split; [|done|].
  - apply (res_same k); [|done|done|done]. apply Forall2_alter_refl; [apply same_res_refl|].
    intros p Hp. by apply Hf.
  - apply (cpu_ok_same (ptab k)); [|done]. apply running_same.
    apply Forall2_alter_refl; [done|]. intros p Hp. by apply Hf.
Qed.

Lemma safe_map (k : kern) f :
  safe k → (∀ p, same_res p (f p) ∧ same_run p (f p)) → safe (map_procs f k).
Proof using.
  intros [Hr Hl Hc] Hf. split; [|done|].
  - apply (res_same k); [|done|done|done]. apply Forall2_map_refl. apply Hf.
  - apply (cpu_ok_same (ptab k)); [|done]. apply running_same. apply Forall2_map_refl. apply Hf.
Qed.

(** The lock around a change. *)
Definition locked (k : kern) : Prop := safe (set_plocked false k) ∧ plocked k = true.

Lemma acquire_safe (k : kern) : safe k → ∃ k', acquire k = Ok k' ∧ locked k' ∧ k' = set_plocked true k.
Proof using.
  intros Hs. unfold acquire. rewrite (sf_lock k Hs). eexists. split; [done|]. split; [|done].
  split; [|done]. destruct Hs as [Hr Hl Hc]. split; [|done|done].
  apply (res_same k); [|done|done|done]. simpl. apply Forall2_same_length_lookup_2; [done|].
  intros ? ? ? ? ?. simplify_eq. apply same_res_refl.
Qed.

Lemma release_safe (k : kern) : locked k → ∃ k', release k = Ok k' ∧ safe k' ∧ k' = set_plocked false k.
Proof using. intros [Hs Hl]. unfold release. rewrite Hl. eauto. Qed.

Lemma locked_upd (k : kern) i f :
  locked k → (∀ p, ptab k !! i = Some p → same_res p (f p) ∧ same_run p (f p)) → locked (upd i f k).
Proof using.
  intros [Hs Hl] Hf. split; [|done]. apply (safe_upd (set_plocked false k) i f Hs). done.
Qed.

Lemma locked_map (k : kern) f :
  locked k → (∀ p, same_res p (f p) ∧ same_run p (f p)) → locked (map_procs f k).
Proof using. intros [Hs Hl] Hf. split; [|done]. by apply (safe_map (set_plocked false k) f Hs). Qed.

Lemma wake_quiet now ch p : same_res p (wake now ch p) ∧ same_run p (wake now ch p).
Proof using.
  unfold wake. case_decide as E; [|split; [apply same_res_refl|done]].
  destruct E as [Es _]. destruct (_ <=? _).
  - split; [quiet|]. unfold same_run. simpl. rewrite Es. done.
  - split; [quiet|done].
Qed.

Lemma boost_quiet p : same_res p (boost p) ∧ same_run p (boost p).
Proof using.
  unfold boost. destruct (state p) eqn:E; try (split; [apply same_res_refl|done]).
  - split; [quiet|]. unfold same_run. simpl. done.
  - destruct (0 <? boostsleft p); [|split; [apply same_res_refl|done]].
    split; [quiet|done].
Qed.

(** A live process leaves its processor in a state other than RUNNING. *)
Lemma leave_processor (k : kern) i f :
  locked k → (∀ p, ptab k !! i = Some p → same_res p (f p) ∧ state (f p) ≠ RUNNING) →
  ∃ k', sched (upd i f k) i = Ok k' ∧ safe k'.
Proof using.
  intros [[Hr _ Hc] Hl] Hf. unfold sched. cbn [plocked upd set_ptab]. rewrite Hl. cbn [negb].
  assert (¬ running (alter f i (ptab k)) i) as Hni.
  { rewrite running_alter, decide_True by done. intros (p & Hp & Hs). by apply (Hf p Hp). }
  rewrite decide_False.
  2:{ intros Hs. apply Hni. unfold getp in Hs. cbn [ptab upd set_ptab] in Hs.
      destruct (alter f i (ptab k) !! i) as [q|] eqn:E; [|done]. by exists q. }
  unfold release. cbn. rewrite Hl. eexists. split; [done|]. split; [|done|].
  - apply (res_same (set_plocked false k)); [|done|done|done]. simpl.
    apply Forall2_alter_refl; [apply same_res_refl|]. intros p Hp. by apply Hf.
  - simpl. apply (cpu_ok_leave (ptab k)); [done| |done].
    intros j Hne. rewrite running_alter, decide_False by done. done.
Qed.

Lemma yield_safe (k : kern) i : safe k → running (ptab k) i → ∃ k', yield k i = Ok k' ∧ safe k'.
Proof using.
  intros Hs (p & Hp & Hrun). unfold yield.
  destruct (acquire_safe k Hs) as (k1 & -> & Hl & ->). rewrite bind_Ok.
  apply leave_processor; [done|]. cbn [ptab set_plocked]. intros q Hq. simplify_eq.
  split; [quiet|done].
Qed.

Lemma sleep_safe (k : kern) i ch r :
  locked k → running (ptab k) i → ∃ k', sleep k i ch r = Ok k' ∧ safe k'.
Proof using.
  intros Hl (p & Hp & Hrun). unfold sleep. apply leave_processor; [done|].
  intros q Hq. simplify_eq. split; [quiet|done].
Qed.

Lemma wakeup_safe (k : kern) ch : safe k → ∃ k', wakeup ch k = Ok k' ∧ safe k'.
Proof using.
  intros Hs. unfold wakeup. destruct (acquire_safe k Hs) as (k1 & -> & Hl & _). rewrite bind_Ok.
  destruct (release_safe (wakeup1 ch k1)) as (k2 & -> & Hs2 & _); [|eauto].
  apply locked_map; [done|]. intros p. apply wake_quiet.
Qed.

Lemma safe_fields (k k' : kern) :
  ptab k' = ptab k → plocked k' = plocked k → cpus k' = cpus k → mm k' = mm k → fs_ k' = fs_ k →
  safe k → safe k'.
Proof using.
  intros Ep El Ec Em Ef [Hr Hl Hc]. split; [|congruence|congruence].
  destruct Hr. split; rewrite ?Ep, ?Em, ?Ef; done.
Qed.

Lemma tick_safe (k : kern) : safe k → ∃ k', timer_tick k = Ok k' ∧ safe k'.
Proof using. intros Hs. apply wakeup_safe. by apply (safe_fields k). Qed.

Lemma find_proc_Some P l j :
  find_proc P l = Some j → ∃ p, l !! j = Some p ∧ P p = true.
Proof using.
  unfold find_proc. intros ([j' p] & E & ->)%fmap_Some. simpl.
  apply list_find_Some in E as (Hj & HP & _). eauto.
Qed.

Lemma kill_safe (k : kern) t : safe k → ∃ r k', kill k t = Ok (r, k') ∧ safe k'.
Proof using.
  intros Hs. unfold kill. destruct (acquire_safe k Hs) as (k1 & -> & Hl & _). rewrite bind_Ok.
  destruct (find_proc _ _) as [j|] eqn:E.
  - destruct (release_safe (upd j kill1 k1)) as (k2 & -> & Hs2 & _); [|rewrite bind_Ok; eauto].
    apply locked_upd; [done|]. intros p Hp. unfold kill1. case_decide as Es; simpl in Es.
    + split; [quiet|]. unfold same_run. simpl. rewrite Es. done.
    + split; [quiet|done].
  - destruct (release_safe k1 Hl) as (k2 & -> & Hs2 & _). rewrite bind_Ok. eauto.
Qed.

Lemma settickets_safe (k : kern) t n : safe k → ∃ r k', sys_settickets k t n = Ok (r, k') ∧ safe k'.
Proof using.
  intros Hs. unfold sys_settickets. destruct (t <? 0); [eauto|].
  destruct (Z.leb_spec n 0); [eauto|].
  destruct (acquire_safe k Hs) as (k1 & -> & Hl & _). rewrite bind_Ok.
  edestruct (release_safe (map_procs (λ p, if pid p =? t then set_tickets n p else p) k1))
    as (k2 & -> & Hs2 & _); [|rewrite bind_Ok; eauto].
  apply locked_map; [done|]. intros p. destruct (pid p =? t); [|split; [apply same_res_refl|done]].
  split; [quiet|done].
Qed.

(** ** wait *)

Lemma slots_insert (l : list proc) j p' : Forall slot_ok l → slot_ok p' → Forall slot_ok (<[j := p']> l).
Proof using. intros. by apply Forall_insert. Qed.

Lemma sys_return_quiet r p : same_res p (sys_return r p) ∧ same_run p (sys_return r p).
Proof using. split; [quiet|done]. Qed.

(** Freeing a zombie: its stack and address space go back, and only they. *)
Lemma reap_safe (k : kern) j p :
  locked k → ptab k !! j = Some p → state p = ZOMBIE →
  ∃ m1 m2, mkfree (mm k) (kstack p) = Ok m1 ∧ mfreevm m1 (pgdir p) = Ok m2
    ∧ locked (upd j reap (set_mm m2 k)).
Proof using ML FL.
  intros [[[Hlen Hsl (K & D & Hh & Hown) Hfl] _ Hc] Hl] Hp Hz. simpl in *.
  assert (inuse p) as Hu by (unfold inuse; congruence).
  destruct (law_kfree (mm k) K D (kstack p) Hh) as (m1 & E1 & H1).
  { apply (ow_stack _ _ _ Hown). eauto. }
  destruct (law_freevm m1 (K ∖ {[kstack p]}) D (pgdir p) (sz p) H1) as (m2 & E2 & H2).
  { apply (ow_dir _ _ _ Hown). eauto 6. }
  exists m1, m2. split_and!; [done|done|]. split; [|done].
  assert (alter reap j (ptab k) = <[j := reap p]> (ptab k)) as Ea by (by apply alter_insert).
  rewrite Forall_lookup in Hsl. pose proof (Hsl j p Hp) as Hok.
  split; [split| |]; cbn [ptab upd set_ptab set_plocked set_mm mm fs_ plocked cpus]; rewrite ?Ea.
  - by rewrite length_insert.
  - apply slots_insert; [by rewrite Forall_lookup|]. destruct Hok as [Ho Hd Hv Ht He].
    split; simpl; try done; [|by intros []].
    intros _. apply Hd. unfold live. rewrite Hz. tauto.
  - exists (K ∖ {[kstack p]}), (delete (pgdir p) D). split; [done|].
    apply owns_remove; try done. by intros [].
  - destruct (files_insert (ptab k) j p (reap p) Hp) as (L & C & E & E' & G & G').
    eapply law_fperm; [done| |]; [by rewrite E, E'|by rewrite G, G'].
  - done.
  - apply (cpu_ok_same (ptab k)); [|done]. intros i. rewrite <- Ea, running_alter. case_decide; [|done].
    subst i. split; intros (q & Hq & Hs); simplify_eq/=; congruence.
Qed.

Lemma wait_iter_safe (k : kern) i :
  locked k → running (ptab k) i → ∃ r k', wait_iter k i = Ok (r, k') ∧ safe k'.
Proof using ML FL.
  intros Hl Hrun. unfold wait_iter.
  destruct (find_proc (is_zombie_child i) (ptab k)) as [j|] eqn:E.
  - apply find_proc_Some in E as (p & Hp & HP). apply bool_decide_eq_true in HP as [_ Hz].
    rewrite (lookup_getp k j p Hp).
    destruct (reap_safe k j p Hl Hp Hz) as (m1 & m2 & -> & E2 & Hlk). rewrite bind_Ok, E2, bind_Ok.
    edestruct (release_safe (upd i (sys_return (pid p)) (upd j reap (set_mm m2 k))))
      as (k2 & -> & Hs & _); [|rewrite bind_Ok; eauto].
    apply locked_upd; [done|]. intros q _. apply sys_return_quiet.
  - destruct (_ || _).
    + edestruct (release_safe (upd i (sys_return (-1)) k)) as (k2 & -> & Hs & _);
        [|rewrite bind_Ok; eauto].
      apply locked_upd; [done|]. intros q _. apply sys_return_quiet.
    + destruct (sleep_safe k i (CProc i) KWait Hl Hrun) as (k' & -> & Hs). rewrite bind_Ok. eauto.
Qed.

Lemma wait_safe (k : kern) i :
  safe k → running (ptab k) i → ∃ r k', wait k i = Ok (r, k') ∧ safe k'.
Proof using ML FL.
  intros Hs Hrun. unfold wait. destruct (acquire_safe k Hs) as (k1 & -> & Hl & ->). rewrite bind_Ok.
  by apply wait_iter_safe.
Qed.

(** ** sys_sleep *)

Lemma sleep_iter_safe (k : kern) i n t0 :
  safe k → running (ptab k) i → ∃ r k', sleep_iter k i n t0 = Ok (r, k') ∧ safe k'.
Proof using ML FL.
  intros Hs Hrun. unfold sleep_iter. destruct (_ <? _).
  - destruct (killed (getp k i)).
    + eexists _, _. split; [done|]. apply safe_upd; [done|]. intros p _. apply sys_return_quiet.
    + destruct (acquire_safe k Hs) as (k1 & -> & Hl & ->). rewrite bind_Ok.
      destruct (sleep_safe (set_plocked true k) i CTicks (KTicks n t0) Hl Hrun) as (k2 & -> & Hs2).
      rewrite bind_Ok. eauto.
  - eexists _, _. split; [done|]. apply safe_upd; [done|]. intros p _. apply sys_return_quiet.
Qed.

Lemma running_upd (k : kern) i f j :
  (∀ p, state (f p) = state p) → running (ptab (upd i f k)) j ↔ running (ptab k) j.
Proof using.
  intros Hf. cbn [ptab upd set_ptab]. rewrite running_alter. case_decide; [|done].
  unfold running. by setoid_rewrite Hf.
Qed.

Lemma sys_sleep_safe (k : kern) i n :
  safe k → running (ptab k) i → ∃ r k', sys_sleep k i n = Ok (r, k') ∧ safe k'.
Proof using ML FL.
  intros Hs Hrun. unfold sys_sleep. apply sleep_iter_safe.
  - apply safe_upd; [done|]. intros p _. split; [quiet|done].
  - by apply running_upd.
Qed.

(** ** The scheduler *)

Lemma resume_safe (k : kern) i :
  locked k → running (ptab k) i → ∃ k', resume k i = Ok k' ∧ safe k'.
Proof using ML FL.
  intros Hl Hrun.
  assert (∀ f, (∀ p, same_res p (f p) ∧ same_run p (f p)) →
    ∃ k', release (upd i f k) = Ok k' ∧ safe k' ∧ k' = set_plocked false (upd i f k)) as Hrel.
  { intros f Hf. apply release_safe, locked_upd; [done|]. intros p _. apply Hf. }
  unfold resume, forkret. destruct (kc (getp k i)) as [| | | |n t0|].
  - destruct (release_safe k Hl) as (k' & -> & ? & _). eauto.
  - destruct (Hrel (set_kc KUser)) as (k' & -> & ? & _); [split; [quiet|done]|eauto].
  - destruct (Hrel (set_kc KUser)) as (k' & -> & ? & _); [split; [quiet|done]|eauto].
  - destruct (wait_iter_safe (upd i (set_chan None) k) i) as (r & k' & -> & Hs).
    + apply locked_upd; [done|]. intros p _. split; [quiet|done].
    + by apply running_upd.
    + rewrite bind_Ok. eauto.
  - destruct (Hrel (set_chan None)) as (k1 & -> & Hs & ->); [split; [quiet|done]|]. rewrite bind_Ok.
    destruct (sleep_iter_safe _ i n t0 Hs) as (r & k' & -> & Hs').
    + change (running (ptab (upd i (set_chan None) k)) i). by apply running_upd.
    + rewrite bind_Ok. eauto.
  - destruct (Hrel (set_kc KUser ∘ set_chan None)) as (k' & -> & ? & _); [split; [quiet|done]|eauto].
Qed.

(** Handing the processor to a runnable process. *)
Lemma switch_to (k : kern) c i p :
  locked k → cpus k !! c = Some None → ptab k !! i = Some p → state p = RUNNABLE →
  let k' := upd i (λ p, set_runticks (s32 (runticks p + 1)) (set_state RUNNING p))
              (set_cpus (<[c := Some i]> (cpus k)) k) in
  locked k' ∧ running (ptab k') i.
Proof using.
  intros [[Hr _ Hc] Hl] Hcp Hp Hst k'.
  assert (running (ptab k') i) as Hrun.
  { unfold k'. cbn [ptab upd set_ptab set_cpus]. rewrite running_alter, decide_True by done. eauto. }
  split; [|done]. split; [|done]. split; [|done|].
  - apply (res_same (set_plocked false k)); [|done|done|done].
    apply Forall2_alter_refl; [apply same_res_refl|]. intros q Hq. simpl in Hq. simplify_eq. quiet.
  - simpl. apply (cpu_ok_enter (ptab k)); try done.
    + intros (q & Hq & Hs). congruence.
    + intros j Hne. rewrite running_alter, decide_False by done. done.
Qed.

Lemma boosted_runnable (l : list proc) i p :
  l !! i = Some p → state p = RUNNABLE → ∃ p', (boost <$> l) !! i = Some p' ∧ state p' = RUNNABLE.
Proof using.
  intros Hp Hs. exists (boost p). rewrite list_lookup_fmap, Hp. split; [done|].
  unfold boost. rewrite Hs. by destruct (0 <? boostsleft p).
Qed.

Lemma draw_runnable l t i j : draw l t i = Some j →
  ∃ n p, j = (i + n)%nat ∧ l !! n = Some p ∧ state p = RUNNABLE.
Proof using.
  revert t i. induction l as [|p l IH]; intros t i E; simpl in E; [done|].
  destruct (is_runnable p) eqn:Er.
  - destruct (_ <? 0).
    + injection E as <-. exists 0%nat, p. apply bool_decide_eq_true in Er.
      split_and!; [lia|done|done].
    + destruct (IH _ _ E) as (n & q & -> & Hq & Hs). exists (S n), q. split_and!; [lia|done|done].
  - destruct (IH _ _ E) as (n & q & -> & Hq & Hs). exists (S n), q. split_and!; [lia|done|done].
Qed.

Lemma scheduler_safe (k : kern) c :
  safe k → cpus k !! c = Some None → ∃ k', scheduler k c = Ok k' ∧ safe k'.
Proof using ML FL.
  intros Hs Hc. unfold scheduler. destruct (acquire_safe k Hs) as (k1 & -> & Hl & ->). rewrite bind_Ok.
  set (k1 := set_plocked true k) in *. destruct (_ =? 0).
  { destruct (release_safe k1 Hl) as (k2 & -> & ? & _). eauto. }
  unfold hold_lottery. destruct (_ <=? 0).
  { destruct (release_safe k1 Hl) as (k2 & -> & ? & _). eauto. }
  destruct (rand k1) as [r k2] eqn:Er. assert (k2 = set_rseed r k1) as ->.
  { unfold rand in Er. by injection Er as <- <-. }
  assert (locked (map_procs boost (set_rseed r k1))) as Hl2.
  { apply locked_map; [|apply boost_quiet]. destruct Hl as [Hs1 Hl1]. split; [|done].
    by apply (safe_fields (set_plocked false k1)). }
  destruct (draw _ _ _) as [i|] eqn:Ed.
  - destruct (draw_runnable _ _ _ _ Ed) as (n & p & -> & Hp & Hst). cbn [Nat.add].
    destruct (boosted_runnable _ _ _ Hp Hst) as (p' & Hp' & Hst').
    destruct (switch_to (map_procs boost (set_rseed r k1)) c n p' Hl2 Hc Hp' Hst') as [Hl3 Hrun].
    by apply resume_safe.
  - destruct (release_safe _ Hl2) as (k3 & -> & ? & _). eauto.
Qed.

(** ** fork *)

(** A new state that differs in one slot, the memory and the files. *)
Lemma safe_slot (k k' : kern) j p p' :
  safe k → ptab k !! j = Some p → ptab k' = <[j := p']> (ptab k) → plocked k' = false →
  cpus k' = cpus k → slot_ok p' → same_run p p' →
  (∃ K D, holds (mm k') K D ∧ owns K D (ptab k')) →
  fholds (fs_ k') (all_files (ptab k')) (all_cwds (ptab k')) → safe k'.
Proof using.
  intros [[Hlen Hsl _ _] _ Hc] Hp Ep El Ec Hok Hrun Hm Hf. split; [split|done|].
  - by rewrite Ep, length_insert.
  - rewrite Ep. by apply slots_insert.
  - done.
  - done.
  - rewrite Ec. apply (cpu_ok_same (ptab k)); [|done]. apply running_same. rewrite Ep.
    rewrite <- (alter_insert (λ _, p') j (ptab k) p Hp). apply Forall2_alter_refl; [done|].
    intros q Hq. congruence.
Qed.

(** A slot that was and stays unused keeps every ledger. *)
Lemma safe_unused (k k' : kern) j p p' K D :
  safe k → ptab k !! j = Some p → state p = UNUSED →
  ptab k' = <[j := p']> (ptab k) → state p' = UNUSED → ofile p' = ofile p → cwd p' = cwd p →
  plocked k' = false → cpus k' = cpus k → fs_ k' = fs_ k →
  owns K D (ptab k) → holds (mm k') K D → safe k'.
Proof using FL.
  intros Hs Hp Hun Ep Hun' Eo Ew El Ec Ef Hown Hh.
  pose proof (rs_slots k (sf_res k Hs)) as Hsl. rewrite Forall_lookup in Hsl.
  destruct (Hsl j p Hp) as [Ho Hd Hv Ht He].
  apply (safe_slot k k' j p p'); try done.
  - split; rewrite ?Eo, ?Ew; unfold live, inuse in *; [done|tauto|tauto|tauto|congruence].
  - unfold same_run. by rewrite Hun, Hun'.
  - exists K, D. split; [done|]. rewrite Ep. apply (owns_idle K D (ptab k) j p); try done;
      unfold inuse; tauto.
  - rewrite Ep, Ef. destruct (files_insert (ptab k) j p p' Hp) as (L & C & E & E' & G & G').
    eapply law_fperm; [apply (rs_files k (sf_res k Hs))| |].
    + by rewrite E, E', Eo.
    + rewrite G, G'. unfold cwds. by rewrite Ew.
Qed.

(** The slot [allocproc] prepares. *)
Definition embryo (n ks : Z) (p : proc) : proc :=
  set_kc KForkret (set_kstack ks (set_sleepticks 0 (set_runticks 0 (set_boostsleft 0
    (set_tickets 1 (set_pid n (set_state EMBRYO p))))))).

Lemma allocproc_spec (k : kern) :
  safe k →
  (∃ k', allocproc k = Ok (None, k') ∧ safe k')
  ∨ ∃ j p ks k1 K D, allocproc k = Ok (Some j, k1) ∧ ptab k !! j = Some p ∧ state p = UNUSED
      ∧ ptab k1 = <[j := embryo (nextpid k) ks p]> (ptab k) ∧ plocked k1 = false
      ∧ cpus k1 = cpus k ∧ fs_ k1 = fs_ k
      ∧ owns K D (ptab k) ∧ ks ≠ 0 ∧ (ks ∉ K) ∧ holds (mm k1) ({[ks]} ∪ K) D.
Proof using ML FL.
  intros Hs. unfold allocproc. destruct (acquire_safe k Hs) as (k1 & -> & Hl & ->). rewrite bind_Ok.
  destruct (find_proc is_unused (ptab (set_plocked true k))) as [j|] eqn:E.
  2:{ left. destruct (release_safe _ Hl) as (k2 & -> & Hs2 & _). rewrite bind_Ok. eauto. }
  apply find_proc_Some in E as (p & Hp & HP). apply bool_decide_eq_true in HP.
  cbn [ptab set_plocked] in Hp. unfold release. cbn [plocked set_nextpid upd set_ptab set_plocked].
  rewrite bind_Ok. cbn [mm set_nextpid upd set_ptab set_plocked].
  destruct (rs_mem k (sf_res k Hs)) as (K & D & Hh & Hown).
  destruct (law_kalloc (mm k) K D Hh) as (ks & m & -> & Hc). rewrite bind_Ok.
  destruct Hc as [[-> Hh']|(Hks & HnK & Hh')]; [left|right].
  - eexists. split; [done|].
    eapply (safe_unused k _ j p (set_kc (kc p) (set_state UNUSED (embryo (nextpid k) 0 p)))); try done.
    cbn [ptab upd set_ptab set_plocked set_mm set_nextpid].
    rewrite !list_alter_alter_eq. by rewrite (alter_insert _ _ _ p).
  - destruct (Z.eqb_spec ks 0); [done|]. eexists j, p, ks, _, K, D. split; [done|].
    split_and!; try done. cbn [ptab upd set_ptab set_plocked set_mm set_nextpid].
    rewrite !list_alter_alter_eq. by rewrite (alter_insert _ _ _ p).
Qed.


(** The slot of the child when [fork] returns. *)
Definition forked (i : nat) (n ks d : Z) (cur p : proc) : proc :=
  set_state RUNNABLE (set_sleepticks 0 (set_runticks 0 (set_boostsleft 0 (set_tickets (tickets cur)
    (set_name (name cur) (set_cwd (cwd cur) (set_ofile (inherit_files (ofile p) (ofile cur))
      (set_tf (set_eax 0 (tf cur)) (set_parent (Some i) (set_sz (sz cur)
        (set_pgdir d (embryo n ks p)))))))))))).

Lemma forked_ok i n ks d cur p :
  slot_ok cur → live cur → ofile p = replicate NOFILE 0 → slot_ok (forked i n ks d cur p).
Proof using.
  intros [Ho Hd Hv Ht He] Hl Hoc. split; unfold forked, live, inuse; simpl.
  - by rewrite Hoc, inherit_closed.
  - intros Hn. destruct Hn. split; congruence.
  - intros _. by apply Hv.
  - intros _. apply Ht, Hl.
  - done.
Qed.

Lemma fork_spec (k : kern) i cur :
  safe k → ptab k !! i = Some cur → state cur = RUNNING →
  ∃ r k', fork k i = Ok (r, k') ∧ safe k' ∧
    (r = -1 ∨ ∃ j p ks d, ptab k !! j = Some p ∧ state p = UNUSED ∧ r = nextpid k
       ∧ ptab k' = <[j := forked i (nextpid k) ks d cur p]> (ptab k)).
Proof using ML FL.
  intros Hs Hi Hrun. unfold fork.
  destruct (allocproc_spec k Hs) as [(k' & -> & Hs')|(j & p & ks & k1 & K & D & -> & Hp & Hun
    & Ept & El & Ec & Ef & Hown & Hks & HnK & Hh)]; rewrite bind_Ok; [eauto 6|].
  assert (i ≠ j) as Hij by (intros ->; congruence).
  assert (getp k1 i = cur) as Ecur.
  { apply lookup_getp. rewrite Ept. by rewrite list_lookup_insert_ne. }
  rewrite Ecur.
  pose proof (rs_slots k (sf_res k Hs)) as Hsl. rewrite Forall_lookup in Hsl.
  pose proof (Hsl i cur Hi) as Hcur. destruct (Hsl j p Hp) as [Ho Hd Hv Ht He].
  destruct Hd as [Hoc Hcc]; [unfold live; tauto|].
  assert (D !! pgdir cur = Some (sz cur)) as HDc.
  { apply (ow_dir _ _ _ Hown). exists i, cur. unfold inuse. rewrite Hrun. done. }
  destruct (law_copyuvm (mm k1) ({[ks]} ∪ K) D (pgdir cur) (sz cur) Hh HDc) as (d & m & -> & Hc).
  rewrite bind_Ok.
  assert (j < length (ptab k))%nat as Hlt by (by eapply lookup_lt_Some).
  destruct Hc as [[-> Hh']|(Hd0 & HDd & Hh')].
  - rewrite (lookup_getp _ j (set_pgdir 0 (embryo (nextpid k) ks p))).
    2:{ cbn [ptab upd set_ptab set_mm]. rewrite Ept, list_lookup_alter_eq, list_lookup_insert_eq by done. done. }
    cbn [mm upd set_ptab set_mm kstack embryo set_pgdir set_kc set_kstack].
    destruct (law_kfree m ({[ks]} ∪ K) D ks Hh') as (m' & -> & Hh2); [set_solver|]. rewrite bind_Ok.
    assert (({[ks]} ∪ K) ∖ {[ks]} = K) as EK by set_solver. rewrite EK in Hh2.
    eexists (-1), _. split; [done|]. split; [|by left].
    eapply (safe_unused k _ j p (set_state UNUSED (set_kstack 0 (set_pgdir 0 (embryo (nextpid k) ks p)))));
      [done|done|done| |done..]. cbn [ptab upd set_ptab set_mm]. rewrite Ept, !list_alter_alter_eq.
    rewrite (alter_insert _ _ _ (embryo (nextpid k) ks p)) by (by rewrite list_lookup_insert_eq).
    rewrite list_insert_insert_eq. unfold compose. reflexivity.
  - destruct (Z.eqb_spec d 0); [done|].
    destruct (dup_files_spec (fs_ k1) (all_files (ptab k)) (all_cwds (ptab k)) (ofile cur))
      as (f1 & E1 & Hf1); [rewrite Ef; apply (rs_files k (sf_res k Hs))|by apply (all_files_in _ i)|].
    cbn [fs_ upd set_ptab set_mm]. rewrite E1, bind_Ok.
    assert (cwd cur ≠ 0) as Hcw.
    { apply (so_live _ Hcur). unfold live. rewrite Hrun. done. }
    destruct (law_idup f1 (open_files (ofile cur) ++ all_files (ptab k)) (all_cwds (ptab k)) (cwd cur) Hf1)
      as (f2 & E2 & Hf2).
    { apply (all_files_in (ptab k) i cur Hi). unfold cwds. rewrite decide_False by done. set_solver. }
    rewrite E2, bind_Ok. unfold acquire, release.
    cbn [plocked upd set_ptab set_mm set_fs_]. rewrite El, bind_Ok. cbn [plocked upd set_ptab set_plocked].
    rewrite bind_Ok. eexists _, _. split; [done|].
    match goal with |- safe ?k' ∧ _ =>
      assert (ptab k' = <[j := forked i (nextpid k) ks d cur p]> (ptab k)) as Ept' end.
    { cbn [ptab upd set_ptab set_mm set_fs_ set_plocked]. rewrite Ept, !list_alter_alter_eq.
      rewrite (alter_insert _ _ _ (embryo (nextpid k) ks p)) by (by rewrite list_lookup_insert_eq).
      rewrite list_insert_insert_eq. unfold forked, compose. reflexivity. }
    split.
    + eapply (safe_slot k _ j p (forked i (nextpid k) ks d cur p)); try done.
      * apply forked_ok; [done|by unfold live; rewrite Hrun|done].
      * unfold same_run. simpl. by rewrite Hun.
      * exists ({[ks]} ∪ K), (<[d := sz cur]> D). split; [done|]. rewrite Ept'.
        apply (owns_add K D (ptab k) j p (forked i (nextpid k) ks d cur p)); try done. unfold inuse. tauto.
      * rewrite Ept'. destruct (files_insert (ptab k) j p (forked i (nextpid k) ks d cur p) Hp)
          as (L & C & E & E' & G & G'). cbn [fs_ upd set_ptab set_mm set_fs_ set_plocked].
        eapply law_fperm; [exact Hf2| |].
        -- rewrite E, E', Hoc. simpl. by rewrite Hoc, inherit_closed by apply Hcur.
        -- rewrite G, G'. unfold cwds. simpl. rewrite Hcc, decide_True, decide_False by done. done.
    + right. exists j, p, ks, d. split_and!; try done.
      rewrite (lookup_getp _ j (forked i (nextpid k) ks d cur p)); [done|].
      rewrite Ept'. by apply list_lookup_insert_eq.
Qed.

(** ** growproc *)

Lemma resize_safe (k : kern) i p m sz' K D :
  safe k → ptab k !! i = Some p → inuse p → owns K D (ptab k) →
  holds m K (<[pgdir p := sz']> D) → safe (upd i (set_sz sz') (set_mm m k)).
Proof using FL.
  intros Hs Hp Hu Hown Hh.
  assert (alter (set_sz sz') i (ptab k) = <[i := set_sz sz' p]> (ptab k)) as Ea by (by apply alter_insert).
  pose proof (rs_slots k (sf_res k Hs)) as Hsl. rewrite Forall_lookup in Hsl.
  apply (safe_slot k _ i p (set_sz sz' p)); try done; cbn [ptab upd set_ptab set_mm]; rewrite ?Ea.
  - apply (sf_lock k Hs).
  - destruct (Hsl i p Hp). by split.
  - exists K, (<[pgdir p := sz']> D). split; [done|]. by apply (owns_resize K D (ptab k) i p (set_sz sz' p)).
  - destruct (files_insert (ptab k) i p (set_sz sz' p) Hp) as (L & C & E & E' & G & G').
    eapply law_fperm; [apply (rs_files k (sf_res k Hs))| |]; [by rewrite E, E'|by rewrite G, G'].
Qed.

Lemma mem_safe (k : kern) m K D :
  safe k → owns K D (ptab k) → holds m K D → safe (set_mm m k).
Proof using.
  intros [[Hlen Hsl _ Hf] Hl Hc] Hown Hh. split; [split|done|done]; try done. eauto.
Qed.

Lemma growproc_safe (k : kern) i p n :
  safe k → ptab k !! i = Some p → inuse p → - 2 ^ 31 <= n → (n < 0 → sz p + n ≠ 0) →
  ∃ r k', growproc k i n = Ok (r, k') ∧ safe k'.
Proof using ML FL.
  intros Hs Hp Hu Hint Hn. destruct (rs_mem k (sf_res k Hs)) as (K & D & Hh & Hown).
  assert (D !! pgdir p = Some (sz p)) as HD by (apply (ow_dir _ _ _ Hown); eauto 6).
  pose proof (law_size _ _ _ _ _ Hh HD) as Hsz. unfold KERNBASE in Hsz.
  pose proof (u32_range (sz p + n)) as [Hnew _].
  unfold growproc. rewrite (lookup_getp k i p Hp). destruct (Z.ltb_spec 0 n).
  - destruct (law_allocuvm (mm k) K D (pgdir p) (sz p) _ Hh HD Hnew) as (r & m & -> & Hc).
    rewrite bind_Ok. destruct (Z.eqb_spec r 0) as [->|Hr].
    + eexists _, _. split; [done|]. destruct Hc as [[_ Hh']|[E Hh']]; [by eapply mem_safe|].
      rewrite E, insert_id in Hh' by (rewrite HD; f_equal; lia). by eapply mem_safe.
    + eexists _, _. split; [done|]. destruct Hc as [[? _]|[E Hh']]; [done|]. by eapply resize_safe.
  - destruct (Z.ltb_spec n 0).
    + destruct (law_deallocuvm (mm k) K D (pgdir p) (sz p) _ Hh HD Hnew) as (m & -> & Hh').
      rewrite bind_Ok. destruct (Z.eqb_spec (Z.min (sz p) (u32 (sz p + n))) 0) as [E|E].
      * eexists _, _. split; [done|].
        assert (sz p = 0) as E0.
        { destruct (Z_lt_le_dec (sz p + n) 0) as [Hneg|Hpos].
          - assert (u32 (sz p + n) = sz p + n + 2 ^ 32) as Eu; [|lia].
            unfold u32. rewrite <- (Z_mod_plus_full _ 1), Z.mod_small; lia.
          - rewrite u32_small in E by (unfold is_u32; lia). lia. }
        rewrite E, insert_id in Hh' by (by rewrite HD, E0). by eapply mem_safe.
      * eexists _, _. split; [done|]. by eapply resize_safe.
    + eexists _, _. split; [done|]. apply safe_upd; [done|]. intros q Hq. simplify_eq.
      split; [quiet|done].
Qed.

(** ** exit *)

(** Only quiet changes in the table, nothing else but the lock aside. *)
Definition quiet_step (k k' : kern) : Prop :=
  Forall2 (λ p p', same_res p p' ∧ same_run p p') (ptab k) (ptab k')
  ∧ mm k' = mm k ∧ fs_ k' = fs_ k ∧ cpus k' = cpus k ∧ plocked k' = plocked k.

Lemma quiet_refl (k : kern) : quiet_step k k.
Proof using.
  split_and!; try done. apply Forall2_same_length_lookup_2; [done|].
  intros ? ? ? ? ?. simplify_eq. split; [apply same_res_refl|done].
Qed.

Lemma quiet_trans (k1 k2 k3 : kern) : quiet_step k1 k2 → quiet_step k2 k3 → quiet_step k1 k3.
Proof using.
  intros (Ha & ? & ? & ? & ?) (Hb & ? & ? & ? & ?). split_and!; try congruence.
  eapply Forall2_trans; [|exact Ha|exact Hb]. intros p q r [S1 R1] [S2 R2].
  split; [by eapply same_res_trans|]. unfold same_run in *. tauto.
Qed.

Lemma quiet_upd (k : kern) i f :
  (∀ p, same_res p (f p) ∧ same_run p (f p)) → quiet_step k (upd i f k).
Proof using.
  intros Hf. split_and!; try done. apply Forall2_alter_refl; [split; [apply same_res_refl|done]|].
  intros p _. apply Hf.
Qed.

Lemma quiet_wakeup1 (k : kern) ch : quiet_step k (wakeup1 ch k).
Proof using. split_and!; try done. apply Forall2_map_refl. intros p. apply wake_quiet. Qed.

Lemma quiet_reparent js (k : kern) i : quiet_step k (reparent k i js).
Proof using.
  revert k. induction js as [|j js IH]; intros k; simpl; [apply quiet_refl|].
  case_decide; [|apply IH]. eapply quiet_trans; [|apply IH].
  apply (quiet_trans _ (upd j (set_parent (initproc k)) k)); [apply quiet_upd; split; [quiet|done]|].
  case_decide; [|apply quiet_refl]. destruct (initproc _); [apply quiet_wakeup1|apply quiet_refl].
Qed.

Lemma quiet_exit (k : kern) i js : quiet_step k (reparent (wake_parent i k) i js).
Proof using.
  eapply quiet_trans; [|apply quiet_reparent]. unfold wake_parent.
  destruct (parent _); [apply quiet_wakeup1|apply quiet_refl].
Qed.

(** A process that gives its references back and dies. *)
Definition buried (p : proc) : proc :=
  set_state ZOMBIE (set_cwd 0 (set_ofile (replicate NOFILE 0) p)).

Definition closed (p : proc) : proc := set_cwd 0 (set_ofile (replicate NOFILE 0) p).

(** The end of [exit]: the references are gone, the table was changed quietly. *)
Lemma bury (k k2 k3 : kern) i p f2 L C :
  safe k → ptab k !! i = Some p → state p = RUNNING →
  all_files (<[i := buried p]> (ptab k)) ≡ₚ L → all_cwds (<[i := buried p]> (ptab k)) ≡ₚ C →
  fholds f2 L C → k2 = set_plocked true (upd i closed (set_fs_ f2 k)) → quiet_step k2 k3 →
  ∃ k', sched (upd i (set_state ZOMBIE) k3) i = Ok k' ∧ safe k'.
Proof using FL.
  intros [[Hlen Hsl (K & D & Hh & Hown) Hf] Hl Hc] Hp Hrun EL EC Hf2 E2 (Hq & Em & Ef & Ec & El).
  pose proof (proj1 (Forall_lookup _ _) Hsl i p Hp) as [Ho Hd Hv Ht He].
  assert (inuse p) as Hu by (unfold inuse; by rewrite Hrun).
  assert (ptab k2 = alter closed i (ptab k)) as Ep2 by (by rewrite E2).
  assert (plocked k2 = true ∧ cpus k2 = cpus k ∧ mm k2 = mm k ∧ fs_ k2 = f2) as (El2 & Ec2 & Em2 & Ef2)
    by (by rewrite E2).
  clear E2. rewrite Ec2 in Ec. rewrite Em2 in Em. rewrite Ef2 in Ef.
  unfold sched. cbn [plocked upd set_ptab]. rewrite El, El2. cbn [negb].
  rewrite decide_False.
  2:{ unfold getp. cbn [ptab upd set_ptab]. rewrite list_lookup_alter_eq. by destruct (ptab k3 !! i). }
  unfold release, leave_cpu. cbn [plocked set_cpus upd set_ptab]. rewrite El, El2.
  eexists. split; [done|]. split; [|done|].
  - apply (res_same (set_fs_ f2 (upd i buried k))); [|exact Em|exact Ef|].
    + change (Forall2 same_res (alter buried i (ptab k)) (alter (set_state ZOMBIE) i (ptab k3))).
      assert (alter buried i (ptab k) = alter (set_state ZOMBIE) i (ptab k2)) as ->
        by (rewrite Ep2; by rewrite list_alter_alter_eq).
      apply (Forall2_alter same_res); [eapply Forall2_impl; [exact Hq|by intros ? ? [? _]]|].
      intros q q' _ _ Hsr. destruct Hsr. split; simpl; unfold live, inuse; simpl; try done; tauto.
    + split; cbn [ptab upd set_ptab set_fs_ mm fs_]; rewrite ?(alter_insert _ _ _ p Hp).
      * by rewrite length_insert.
      * apply slots_insert; [done|]. split; simpl; unfold live, inuse; simpl; try done; [tauto|].
        intros _. by apply Ht.
      * exists K, D. split; [done|]. rewrite <- (insert_id D (pgdir p) (sz p)).
        -- by apply (owns_resize K D (ptab k) i p (buried p)).
        -- apply (ow_dir _ _ _ Hown). by exists i, p.
      * by eapply law_fperm; [exact Hf2|rewrite EL|rewrite EC].
  - change (cpu_ok (alter (set_state ZOMBIE) i (ptab k3))
      ((λ o, if decide (o = Some i) then None else o) <$> cpus k3)). rewrite Ec.
    apply (cpu_ok_leave (ptab k2)).
    + apply (cpu_ok_same (ptab k)); [|done]. apply running_same. rewrite Ep2.
      by apply Forall2_alter_refl.
    + intros j Hj. rewrite running_alter, decide_False by done. apply running_same.
      eapply Forall2_impl; [exact Hq|by intros ? ? [_ ?]].
    + rewrite running_alter, decide_True by done. by intros (q & _ & ?).
Qed.

Lemma exit_safe (k : kern) i p :
  safe k → ptab k !! i = Some p → state p = RUNNING → initproc k ≠ Some i →
  ∃ k', exit k i = Ok k' ∧ safe k'.
Proof using ML FL.
  intros Hs Hp Hrun Hinit. pose proof Hs as [[Hlen Hsl _ Hf] Hl Hc].
  unfold exit. rewrite decide_False by done. rewrite (lookup_getp k i p Hp).
  pose proof (proj1 (Forall_lookup _ _) Hsl i p Hp) as Hok.
  assert (live p) as Hlive by (unfold live; by rewrite Hrun).
  pose proof (so_live p Hok Hlive) as Hcw.
  destruct (files_insert (ptab k) i p (buried p) Hp) as (L & C & E & E' & G & G').
  assert (cwds p = [cwd p]) as Ecw by (unfold cwds; by rewrite decide_False).
  rewrite Ecw in G.
  destruct (close_files_spec (fs_ k) L (cwd p :: C) (ofile p)) as (f1 & -> & Hf1).
  { by eapply law_fperm. }
  rewrite bind_Ok. destruct (law_iput f1 L C (cwd p) Hf1) as (f2 & -> & Hf2). rewrite bind_Ok.
  unfold acquire. cbn [plocked upd set_ptab set_fs_]. rewrite Hl, bind_Ok.
  eapply (bury k _ _ i p f2 L C); [done|done|done|exact E'|exact G'|done|reflexivity|].
  apply quiet_exit.
Qed.

(** * Runs *)

(** What the machine can do: an idle processor runs a round of its scheduler, a
    running process makes a system call or is preempted, or an interrupt arrives. *)
Inductive kop :=
| OScheduler (c : nat)
| OYield (i : nat)
| OFork (i : nat)
| OExit (i : nat)
| OWait (i : nat)
| OSleep (i : nat) (n : Z)
| OBlock (i : nat) (a : Z)
| OGrow (i : nat) (n : Z)
| OKill (t : Z)
| OWakeup (a : Z)
| OSettickets (t n : Z)
| OSrand (n : Z)
| OTick.

Definition kexec (k : kern) (o : kop) : outcome kern :=
  match o with
  | OScheduler c => scheduler k c
  | OYield i => yield k i
  | OFork i => '(_, k') ← fork k i; Ok k'
  | OExit i => exit k i
  | OWait i => '(_, k') ← wait k i; Ok k'
  | OSleep i n => '(_, k') ← sys_sleep k i n; Ok k'
  | OBlock i a => k1 ← acquire k; sleep k1 i (CAddr a) KOther
  | OGrow i n => '(_, k') ← growproc k i n; Ok k'
  | OKill t => '(_, k') ← kill k t; Ok k'
  | OWakeup a => wakeup (CAddr a) k
  | OSettickets t n => '(_, k') ← sys_settickets k t n; Ok k'
  | OSrand n => Ok (sys_srand k n).2
  | OTick => timer_tick k
  end.

(** When it can happen: the processor is idle, or the process runs; the argument of [sbrk] is an int. *)
Definition kenabled (k : kern) (o : kop) : Prop :=
  match o with
  | OScheduler c => cpus k !! c = Some None
  | OYield i | OFork i | OExit i | OWait i | OSleep i _ | OBlock i _ => ∃ c, cpus k !! c = Some (Some i)
  | OGrow i n => (∃ c, cpus k !! c = Some (Some i)) ∧ - 2 ^ 31 <= n < 2 ^ 31
  | _ => True
  end.

Definition kstep (o : kop) (k k' : kern) : Prop := kenabled k o ∧ kexec k o = Ok k'.

(** The two requests after which the kernel does not go on as it should: the first process exits, which is a panic, or a
    process gives back all of its memory, which [growproc] takes for an error after the pages are gone. *)
Definition kallowed (k : kern) (o : kop) : Prop :=
  match o with
  | OExit i => initproc k ≠ Some i
  | OGrow i n => n < 0 → sz (getp k i) + n ≠ 0
  | _ => True
  end.

(** One step of a run without such requests. *)
Definition allowed_step (k k' : kern) : Prop := ∃ o, kallowed k o ∧ kstep o k k'.

Lemma safe_running (k : kern) c i :
  safe k → cpus k !! c = Some (Some i) → ∃ p, ptab k !! i = Some p ∧ state p = RUNNING.
Proof using. intros Hs Hc. by apply (co_run _ _ (sf_cpu k Hs) c). Qed.

Lemma kexec_safe (k : kern) o : safe k → kenabled k o → kallowed k o → ∃ k', kexec k o = Ok k' ∧ safe k'.
Proof using ML FL.
  intros Hs He Ha.
  assert (∀ i, (∃ c, cpus k !! c = Some (Some i)) → ∃ p, ptab k !! i = Some p ∧ state p = RUNNING) as Hrun
    by (intros i [c Hc]; by apply (safe_running k c)).
  destruct o as [c|i|i|i|i|i n|i a|i n|t|a|t n|n|]; cbn [kexec kenabled kallowed] in *.
  - by apply scheduler_safe.
  - by apply (yield_safe k i Hs (Hrun i He)).
  - destruct (Hrun i He) as (p & Hp & Hr). destruct (fork_spec k i p Hs Hp Hr) as (r & k2 & -> & ? & _). rewrite bind_Ok. by exists k2.
  - destruct (Hrun i He) as (p & Hp & Hr). by apply (exit_safe k i p).
  - destruct (wait_safe k i Hs (Hrun i He)) as (r & k2 & -> & ?). rewrite bind_Ok. by exists k2.
  - destruct (sys_sleep_safe k i n Hs (Hrun i He)) as (r & k2 & -> & ?). rewrite bind_Ok. by exists k2.
  - destruct (acquire_safe k Hs) as (k2 & -> & Hl & ->). rewrite bind_Ok.
    apply (sleep_safe _ i (CAddr a) KOther Hl). by apply Hrun.
  - destruct He as [He Hn]. destruct (Hrun i He) as (p & Hp & Hr). rewrite (lookup_getp k i p Hp) in Ha.
    destruct (growproc_safe k i p n Hs Hp) as (r & k2 & -> & ?); [unfold inuse; by rewrite Hr|lia|done|].
    rewrite bind_Ok. by exists k2.
  - destruct (kill_safe k t Hs) as (r & k2 & -> & ?). rewrite bind_Ok. by exists k2.
  - by apply wakeup_safe.
  - destruct (settickets_safe k t n Hs) as (r & k2 & -> & ?). rewrite bind_Ok. by exists k2.
  - eexists. split; [done|]. by apply (safe_fields k).
  - by apply tick_safe.
Qed.

Lemma allowed_safe (k k' : kern) : safe k → allowed_step k k' → safe k'.
Proof using ML FL. intros Hs (o & Ha & He & E). destruct (kexec_safe k o Hs He Ha) as (k2 & E2 & ?). congruence. Qed.

(** The state [userinit] leaves behind: one runnable process in the first slot
    that holds its kernel stack, its address space and its current directory;
    every other slot empty, every processor idle. *)
Record booted (k : kern) (p : proc) : Prop := {
  bt_tab : ptab k = <[0%nat := p]> (replicate NPROC null_proc);
  bt_state : state p = RUNNABLE;
  bt_lock : plocked k = false;
  bt_cpus : ∃ n, cpus k = replicate n None;
  bt_mem : holds (mm k) {[kstack p]} {[pgdir p := sz p]};
  bt_files : fholds (fs_ k) (open_files (ofile p)) [cwd p];
  bt_slot : slot_ok p
}.

Lemma null_proc_ok : slot_ok null_proc.
Proof using. split; unfold live, inuse; simpl; try done; tauto. Qed.

Lemma boot_safe (k : kern) p : booted k p → safe k.
Proof using FL.
  intros [Et Es El [n Ec] Hm Hf Hs].
  assert (∀ i q, ptab k !! i = Some q → inuse q → i = 0%nat ∧ q = p) as Hone.
  { intros i q Hq Hu. rewrite Et in Hq. slot_cases; [done|].
    apply lookup_replicate in Hq as [-> _]. by destruct Hu. }
  assert (ptab k !! 0%nat = Some p) as H0p by (by rewrite Et).
  assert (inuse p) as Hup by (unfold inuse; by rewrite Es).
  split; [split|done|].
  - by rewrite Et, length_insert, length_replicate.
  - rewrite Et. apply slots_insert; [|done]. apply Forall_replicate, null_proc_ok.
  - exists {[kstack p]}, {[pgdir p := sz p]}. split; [done|]. split.
    + intros x. rewrite elem_of_singleton. split.
      * intros ->. by exists 0%nat, p.
      * intros (i & q & Hq & Hu & <-). by destruct (Hone i q Hq Hu) as [_ ->].
    + intros d z. rewrite lookup_singleton_Some. split.
      * intros [<- <-]. by exists 0%nat, p.
      * intros (i & q & Hq & Hu & <- & <-). by destruct (Hone i q Hq Hu) as [_ ->].
    + intros i j q q' Hq Hq' Hu Hu' Hne. destruct (Hone i q Hq Hu), (Hone j q' Hq' Hu'). lia.
  - rewrite Et. destruct (files_insert (replicate NPROC null_proc) 0 null_proc p) as (L & C & E & E' & G & G');
      [done|].
    assert (cwds p = [cwd p]) as Ecw.
    { unfold cwds. rewrite decide_False; [done|]. apply (so_live p Hs). unfold live. by rewrite Es. }
    assert (L = []) as ->
      by (apply Permutation_nil; by rewrite <- E).
    assert (C = []) as ->
      by (apply Permutation_nil; by rewrite <- G).
    eapply law_fperm; [exact Hf| |]; [by rewrite E', app_nil_r|by rewrite G', app_nil_r, Ecw].
  - rewrite Ec. split.
    + intros c i Hc. by apply lookup_replicate in Hc as [? _].
    + intros i (q & Hq & Hr). destruct (Hone i q Hq) as [_ ->]; [unfold inuse; by rewrite Hr|congruence].
    + intros c c' i Hc. by apply lookup_replicate in Hc as [? _].
Qed.

End Safety.

(** * A machine with two processors and one process *)

Definition demo_empty : kern mledger ledger :=
  Kern (replicate NPROC null_proc) false (replicate 2 None) 1 0 0 None (MLedger ∅ ∅ 1) ([], []).

Definition demo_booted : kern mledger ledger :=
  Eval vm_compute in match userinit 0 44 demo_empty with Ok k => k | _ => demo_empty end.

Lemma demo_userinit : userinit 0 44 demo_empty = Ok demo_booted.
Proof. vm_compute. reflexivity. Qed.

Lemma demo_is_booted :
  booted (holds := mledger_holds) (fholds := ledger_holds) demo_booted (getp demo_booted 0).
Proof.
  split.
  - reflexivity.
  - reflexivity.
  - reflexivity.
  - exists 2%nat. reflexivity.
  - split; [reflexivity|]. split; [reflexivity|]. split; [reflexivity|]. split.
    + intros p ->%elem_of_singleton. reflexivity.
    + intros d z [<- <-]%lookup_singleton_Some. split; [reflexivity|]. split; vm_compute; congruence.
  - split; reflexivity.
  - split; try reflexivity.
    + intros Hn. exfalso. apply Hn. split; discriminate.
    + intros _. discriminate.
    + discriminate.
Qed.

(** The first process sets its tickets to 2^30, is scheduled, forks and yields. *)
Definition demo_rich1 : kern mledger ledger :=
  Eval vm_compute in match sys_settickets demo_booted 1 (2 ^ 30) with Ok (_, k) => k | _ => demo_empty end.
Definition demo_rich2 : kern mledger ledger :=
  Eval vm_compute in match scheduler demo_rich1 0 with Ok k => k | _ => demo_empty end.
Definition demo_rich3 : kern mledger ledger :=
  Eval vm_compute in match fork demo_rich2 0 with Ok (_, k) => k | _ => demo_empty end.
Definition demo_rich4 : kern mledger ledger :=
  Eval vm_compute in match yield demo_rich3 0 with Ok k => k | _ => demo_empty end.

(** * Properties *)

(** C12.  The lottery is fair.  When every runnable process has a ticket and the
    tickets fit in an [int], a round of the scheduler runs a runnable process:
    the one whose tickets, in table order, contain the number drawn (reduced
    modulo the total).  Over the possible remainders, a process wins for
    exactly as many of them as it has tickets, twice as many while it is
    boosted.  The winner is marked running on this processor and its run count
    grows by one. *)
Theorem lottery_fair {M F} `{MemOps M} `{FileOps F} (k : kern M F) (c : nat) :
  plocked k = false → fair_table (ptab k) → 0 < total_weight (ptab k) →
  (∃ i p k', ptab k !! i = Some p ∧ state p = RUNNABLE
     ∧ draw (ptab k) ((rand k).1 mod total_weight (ptab k)) 0 = Some i
     ∧ scheduler k c = resume k' i ∧ cpus k' = <[c := Some i]> (cpus k)
     ∧ ptab k' = alter (λ p, set_runticks (s32 (runticks p + 1)) (set_state RUNNING p)) i
                   (boost <$> ptab k))
  ∧ ∀ r j q, 0 <= r < total_weight (ptab k) → ptab k !! j = Some q →
      draw (ptab k) r 0 = Some j ↔ before (ptab k) j <= r < before (ptab k) j + weight q.
Proof.
  intros Hl Hf Hpos. split; [|intros; by apply draw_iff].
  destruct (scheduler_spec k c Hl Hf Hpos) as (i & p & k' & Hp & Hst & Hb & E & Ec & Et & _).
  exists i, p, k'. split_and!; try done. apply (draw_iff _ _ i p); try done.
  apply Z.mod_pos_bound. lia.
Qed.

(** C12 after boot: the only process is scheduled. *)
Lemma lottery_fair_witness :
  0 < total_weight (ptab demo_booted) ∧ ∃ i k', scheduler demo_booted 0 = resume k' i.
Proof.
  split; [vm_compute; reflexivity|].
  destruct (lottery_fair demo_booted 0) as [(i & p & k' & _ & _ & _ & E & _) _];
    [reflexivity| |vm_compute; reflexivity|eauto].
  split; [|vm_compute; reflexivity].
  intros p Hp Hr. apply bool_decide_eq_true in Hr.
  assert (safe (holds := mledger_holds) (fholds := ledger_holds) demo_booted) as Hs
    by (eapply boot_safe, demo_is_booted).
  pose proof (rs_slots _ (sf_res _ Hs)) as HF. rewrite Forall_forall in HF.
  apply (so_tickets p (HF p Hp)). unfold inuse. rewrite Hr. discriminate.
Defined.

(** The scheduler can be stalled.  [settickets] accepts any positive number
    and the total is an [int]: when the sum wraps to a negative number, a
    round of the scheduler changes nothing, so no process runs again although
    some are runnable. *)
Theorem tickets_overflow_starves {M F} `{MemOps M} `{FileOps F} (k : kern M F) (c n : nat) :
  plocked k = false → count_tickets (ptab k) 0 < 0 →
  Nat.iter n (λ r, k' ← r; scheduler k' c) (Ok k) = Ok k.
Proof.
  intros Hl Hneg. induction n as [|n IH]; [done|]. simpl. rewrite IH, bind_Ok.
  by apply scheduler_negative.
Qed.

(** With two runnable processes of 2^30 tickets each: the first gets its
    tickets from [settickets], the second inherits them from [fork]. *)
Lemma tickets_overflow_starves_witness :
  sys_settickets demo_booted 1 (2 ^ 30) = Ok (0, demo_rich1)
  ∧ scheduler demo_rich1 0 = Ok demo_rich2 ∧ fork demo_rich2 0 = Ok (2, demo_rich3)
  ∧ yield demo_rich3 0 = Ok demo_rich4
  ∧ is_runnable (getp demo_rich4 0) = true
  ∧ Nat.iter 10 (λ r, k' ← r; scheduler k' 0%nat) (Ok demo_rich4) = Ok demo_rich4.
Proof.
  split_and!; [vm_compute; reflexivity..|].
  apply (tickets_overflow_starves demo_rich4 0 10); vm_compute; reflexivity.
Defined.

(** [growproc] of the whole size takes the pages and reports an error. *)
Lemma growproc_emptied {M F} `{ML : MemLaws M holds} `{FileOps F} (k : kern M F) i p K D n :
  ptab k !! i = Some p → holds (mm k) K D → D !! pgdir p = Some (sz p) → n < 0 → sz p + n = 0 →
  ∃ m, growproc k i n = Ok (-1, set_mm m k) ∧ holds m K (<[pgdir p := 0]> D).
Proof.
  intros Hp Hh HD Hn Hz. unfold growproc, getp. rewrite Hp. simpl default.
  destruct (Z.ltb_spec 0 n); [lia|]. destruct (Z.ltb_spec n 0); [|lia]. rewrite Hz. change (u32 0) with 0.
  destruct (law_deallocuvm (mm k) K D (pgdir p) (sz p) 0 Hh HD ltac:(lia)) as (m & E & Hh').
  rewrite Z.min_r in E, Hh' by lia. exists m. by rewrite E, bind_Ok.
Qed.

(** C6.  The kernel is safe in every run in which the first process does not
    exit and no process shrinks itself to size zero.  Starting from the booted machine,
    after any interleaving of scheduling rounds, forks, exits, waits, sleeps,
    wake-ups, kills, ticket changes and heap changes on the processors, without these two requests: every operation that
    can happen next and is not one of the two returns, without a panic and without using memory that is not its own; every process in use
    owns its own kernel stack and address space, disjoint from all others, and
    nothing else is held, so nothing leaks and nothing is freed twice; the
    references to open files and directories are exactly those of the table;
    a process runs on at most one processor and only while it is marked
    running; and every runnable process has at least one ticket.  The two requests that are left out do what the code says: the
    exit of the first process is the panic, and [growproc] to size zero returns -1. *)
Theorem kernel_safe {M F} `{ML : MemLaws M holds} `{FL : FileLaws F fholds}
    (k0 k : kern M F) (p0 : proc) :
  booted (holds := holds) (fholds := fholds) k0 p0 → rtc allowed_step k0 k →
  safe (holds := holds) (fholds := fholds) k ∧ ticketed (ptab k)
  ∧ (∀ o, kenabled k o → kallowed k o → ∃ k', kexec k o = Ok k')
  ∧ (∀ i, initproc k = Some i → kexec k (OExit i) = Panic "init exiting")
  ∧ (∀ i n, kenabled k (OGrow i n) → ¬ kallowed k (OGrow i n) → ∃ k', growproc k i n = Ok (-1, k')).
Proof.
  intros Hb Hr.
  assert (safe (holds := holds) (fholds := fholds) k) as Hs.
  { eapply (rtc_invariant allowed_step); [intros a b; apply allowed_safe|by eapply boot_safe|done]. }
  split_and!; [done| | | |].
  - intros p Hp Hrun. apply bool_decide_eq_true in Hrun.
    pose proof (rs_slots _ (sf_res _ Hs)) as HF. rewrite Forall_forall in HF.
    apply (so_tickets p (HF p Hp)). unfold inuse. by rewrite Hrun.
  - intros o He Ha. destruct (kexec_safe k o Hs He Ha) as (k' & ? & _). eauto.
  - intros i Hi. cbn [kexec]. unfold exit. by rewrite decide_True.
  - intros i n [[c Hc] Hn] Hna. cbn [kallowed] in Hna. destruct (safe_running k c i Hs Hc) as (p & Hp & Hst).
    assert (n < 0 ∧ sz (getp k i) + n = 0) as [Hneg Hz] by (destruct (decide (n < 0)), (decide (sz (getp k i) + n = 0)); tauto).
    rewrite (lookup_getp k i p Hp) in Hz. destruct (rs_mem k (sf_res k Hs)) as (K & D & Hh & Hown).
    assert (D !! pgdir p = Some (sz p)) as HD by (apply (ow_dir _ _ _ Hown); exists i, p; unfold inuse; by rewrite Hst).
    destruct (growproc_emptied k i p K D n Hp Hh HD Hneg Hz) as (m & E & _). eauto.
Qed.

(** C6 after the first process was scheduled and has forked. *)
Lemma kernel_safe_witness :
  safe (holds := mledger_holds) (fholds := ledger_holds) demo_rich3
  ∧ ∃ k', kexec demo_rich3 (OWait 0) = Ok k'.
Proof.
  destruct (kernel_safe (holds := mledger_holds) (fholds := ledger_holds)
    demo_booted demo_rich3 _ demo_is_booted) as (Hs & _ & Hops & _).
  - apply (rtc_l _ _ demo_rich1); [exists (OSettickets 1 (2 ^ 30)); split; [exact I|]; split; [exact I|]; vm_compute; reflexivity|].
    apply (rtc_l _ _ demo_rich2); [exists (OScheduler 0); split; [exact I|]; split; vm_compute; reflexivity|].
    apply rtc_once. exists (OFork 0). split; [exact I|]. split; [exists 0%nat|]; vm_compute; reflexivity.
  - split; [exact Hs|]. apply (Hops (OWait 0)); [exists 0%nat; vm_compute; reflexivity|exact I].
Defined.

(** A killed sleeper can miss a wake-up.  [kill] makes a process sleeping in
    [sys_sleep] runnable but leaves its sleep deadline in place, and [wakeup1]
    checks the deadline for every channel: if the process then blocks on some
    other channel before the deadline, waking that channel leaves it asleep. *)
Theorem killed_sleeper_misses_wakeup {M F} `{MemOps M} `{FileOps F} (k k1 k2 k3 : kern M F) j p a :
  ptab k !! j = Some p → state p = SLEEPING → find_proc (λ q, pid q =? pid p) (ptab k) = Some j →
  u32 (ticks k - u32 (sleepstart p)) < u32 (sleepticks p) →
  kill k (pid p) = Ok (0, k1) →
  sleep (set_plocked true (upd j (set_state RUNNING) k1)) j (CAddr a) KOther = Ok k2 →
  wakeup (CAddr a) k2 = Ok k3 →
  state (getp k1 j) = RUNNABLE ∧ state (getp k3 j) = SLEEPING.
Proof.
  intros Hp Hst Hfind Hlt Hk Hs Hw. unfold kill, acquire in Hk.
  destruct (plocked k) eqn:Hl; [done|]. rewrite bind_Ok in Hk.
  cbn [ptab set_plocked] in Hk. rewrite Hfind in Hk. unfold release in Hk. cbn in Hk.
  injection Hk as <-. unfold kill1 in *. unfold sleep, sched, release in Hs. cbn in Hs.
  destruct (decide _) in Hs; [done|]. injection Hs as <-.
  unfold wakeup, acquire, release in Hw. cbn in Hw. injection Hw as <-.
  unfold getp. cbn. rewrite list_lookup_fmap, !list_lookup_alter_eq, Hp. cbn.
  rewrite decide_True by done. split; [done|]. unfold wake. cbn. rewrite decide_True by done.
  by rewrite (proj2 (Z.leb_gt _ _) Hlt).
Qed.

(** The first process sleeps for ten ticks. *)
Definition demo_sleeper : kern mledger ledger :=
  Eval vm_compute in match scheduler demo_booted 0 with
    | Ok k => match sys_sleep k 0 10 with Ok (_, k') => k' | _ => demo_empty end
    | _ => demo_empty end.

(** On that process, killed at once and then blocked on another channel. *)
Lemma killed_sleeper_misses_wakeup_witness :
  ∃ k1 k2 k3, kill demo_sleeper 1 = Ok (0, k1)
    ∧ sleep (set_plocked true (upd 0 (set_state RUNNING) k1)) 0 (CAddr 5) KOther = Ok k2
    ∧ wakeup (CAddr 5) k2 = Ok k3 ∧ state (getp k3 0) = SLEEPING.
Proof.
  destruct (kill demo_sleeper 1) as [[r k1]| | |] eqn:E1; try (vm_compute in E1; discriminate).
  destruct (sleep (set_plocked true (upd 0 (set_state RUNNING) k1)) 0 (CAddr 5) KOther)
    as [k2| | |] eqn:E2; try (vm_compute in E1; injection E1 as <- <-; vm_compute in E2; discriminate).
  destruct (wakeup (CAddr 5) k2) as [k3| | |] eqn:E3;
    try (vm_compute in E1; injection E1 as <- <-; vm_compute in E2; injection E2 as <-;
         vm_compute in E3; discriminate).
  assert (r = 0) as -> by (vm_compute in E1; by injection E1 as <- _).
  exists k1, k2, k3. split_and!; try assumption; try reflexivity.
  apply (killed_sleeper_misses_wakeup demo_sleeper k1 k2 k3 0 (getp demo_sleeper 0) 5);
    [reflexivity|reflexivity|vm_compute; reflexivity|vm_compute; reflexivity|exact E1|exact E2|exact E3].
Defined.

(** Shrinking a process to nothing is reported as a failure after the memory
    is gone.  [growproc] takes the new size 0 that [deallocuvm] returns for an
    error: it returns -1 and leaves [sz] as it was, while every page of the
    address space has been released, so the table and the page tables no
    longer agree. *)
Theorem growproc_to_zero {M F} `{ML : MemLaws M holds} `{FileOps F} (k : kern M F) i p K D :
  ptab k !! i = Some p → holds (mm k) K D → D !! pgdir p = Some (sz p) → 0 < sz p →
  ∃ m, growproc k i (- sz p) = Ok (-1, set_mm m k)
    ∧ sz (getp (set_mm m k) i) = sz p ∧ holds m K (<[pgdir p := 0]> D).
Proof.
  intros Hp Hh HD Hsz. destruct (growproc_emptied k i p K D (- sz p) Hp Hh HD) as (m & E & Hh'); [lia|lia|].
  exists m. split_and!; [done| |done]. unfold getp. cbn [ptab set_mm]. by rewrite Hp.
Qed.

(** On the first process, whose size is one page. *)
Lemma growproc_to_zero_witness :
  ∃ m, growproc demo_booted 0 (-4096) = Ok (-1, set_mm m demo_booted)
    ∧ sz (getp (set_mm m demo_booted) 0) = 4096.
Proof.
  destruct (growproc_to_zero (holds := mledger_holds) demo_booted 0 (getp demo_booted 0)
    {[1]} {[2 := 4096]}) as (m & E & Es & _);
    [reflexivity|apply demo_is_booted|reflexivity|reflexivity|].
  exists m. split; [exact E|exact Es].
Defined.
