(* ===== verification/TicketLock.v ===== *)
(** The user-level ticket lock (src/p3b/xv6-public/ulib.c, with [FAA] of x86.h
    and [lock_t] of user.h).

    The threads of a process share one [lock_t].  A state holds the two words of
    the lock and, for each thread, how far it is in [lock_acquire] or
    [lock_release]; a step is one access to the shared words by one thread.
    The fields are [int]s, [myturn] is a [uint]; both wrap. *)

From Stdlib Require Import ZArith Lia.
From stdpp Require Import base numbers list gmap sets relations.
From S2P Require Import Prelude Traces.
#[local] Open Scope Z_scope.

Record lock_t := Lock { ticket : Z; turn : Z }.

Definition lock_init : lock_t := Lock 0 0.

(** [lock; xaddl]: returns the old value. *)
Definition FAA (var val : Z) : Z * Z := (var, s32 (var + val)).

(** [Out]: not using the lock.  [Spin myturn]: in the loop of [lock_acquire].
    [In]: holds the lock.  [Store v]: in [lock_release], about to store [v]. *)
Inductive pc := Out | Spin (myturn : Z) | In | Store (v : Z).

Record tstate := TState { lk : lock_t; threads : list pc }.

Definition set_pc (i : nat) (p : pc) (s : tstate) : tstate :=
  TState (lk s) (<[i := p]> (threads s)).

(** [uint myturn = FAA(&lk->ticket, 1);] *)
Definition take_ticket (i : nat) (s : tstate) : tstate :=
  let '(old, new) := FAA (ticket (lk s)) 1 in
  TState (Lock new (turn (lk s))) (<[i := Spin (u32 old)]> (threads s)).

(** [while(lk->turn != myturn)]: the comparison converts [turn] to [uint]. *)
Definition my_turn (s : tstate) (myturn : Z) : bool := u32 (turn (lk s)) =? myturn.

(** What a run shows: a thread draws its ticket, leaves the loop of [lock_acquire], gives the lock back. *)
Inductive event := Request (i : nat) | Enter (i : nat) | Leave (i : nat).

Inductive tstep : tstate → option event → tstate → Prop :=
| step_faa s i : threads s !! i = Some Out → tstep s (Some (Request i)) (take_ticket i s)
| step_wait s i t : threads s !! i = Some (Spin t) → my_turn s t = false → tstep s None s
| step_enter s i t : threads s !! i = Some (Spin t) → my_turn s t = true → tstep s (Some (Enter i)) (set_pc i In s)
| step_load s i : threads s !! i = Some In →
    tstep s None (set_pc i (Store (s32 (turn (lk s) + 1))) s)
| step_store s i v : threads s !! i = Some (Store v) →
    tstep s (Some (Leave i)) (TState (Lock (ticket (lk s)) v) (<[i := Out]> (threads s))).

(** * Specification: a first-come first-served lock

    The threads that asked for the lock and have not released it, in the order
    of their requests; only the first may be inside. *)
Record fifo := Fifo { queue : list nat; inside : bool }.

Inductive fifo_step : fifo → option event → fifo → Prop :=
| fifo_request q b i : i ∉ q → fifo_step (Fifo q b) (Some (Request i)) (Fifo (q ++ [i]) b)
| fifo_enter q i : fifo_step (Fifo (i :: q) false) (Some (Enter i)) (Fifo (i :: q) true)
| fifo_leave q i : fifo_step (Fifo (i :: q) true) (Some (Leave i)) (Fifo q false).

(** The threads in the order of their requests, and in the order in which they got in. *)
Definition requests (tr : list event) : list nat := omap (λ e, match e with Request i => Some i | _ => None end) tr.
Definition entries (tr : list event) : list nat := omap (λ e, match e with Enter i => Some i | _ => None end) tr.

(** * The invariant *)

(** The pc of the thread at position [j] of the queue. *)
Definition queued (turn : Z) (b : bool) (j : nat) (p : pc) : Prop :=
  match j with
  | O => if b then p = In ∨ p = Store (s32 (turn + 1)) else p = Spin (u32 turn)
  | S _ => p = Spin (u32 (turn + Z.of_nat j))
  end.

Record simulates (s : tstate) (a : fifo) : Prop := {
  sm_turn : - 2 ^ 31 <= turn (lk s) < 2 ^ 31;
  sm_ticket : ticket (lk s) = s32 (turn (lk s) + Z.of_nat (length (queue a)));
  sm_nodup : NoDup (queue a);
  sm_pc : ∀ j i, queue a !! j = Some i →
    ∃ p, threads s !! i = Some p ∧ queued (turn (lk s)) (inside a) j p;
  sm_out : ∀ i p, threads s !! i = Some p → i ∉ queue a → p = Out;
  sm_head : queue a = [] → inside a = false;
  sm_bound : Z.of_nat (length (threads s)) < 2 ^ 32
}.

Lemma u32_s32 x : u32 (s32 x) = u32 x.
Proof.
  unfold s32. pose proof (u32_range x). destruct (_ <? _).
  - by apply u32_small.
  - unfold u32 at 1. rewrite <- (Z_mod_plus_full (u32 x - 2 ^ 32) 1 (2 ^ 32)).
    replace (u32 x - 2 ^ 32 + 1 * 2 ^ 32) with (u32 x) by lia. by apply Z.mod_small.
Qed.

Lemma u32_add x y : u32 (u32 x + y) = u32 (x + y).
Proof. unfold u32. by rewrite Zplus_mod_idemp_l. Qed.

Lemma s32_of_u32 x y : u32 x = u32 y → s32 x = s32 y.
Proof. unfold s32. by intros ->. Qed.

(** Distinct positions have distinct tickets: fewer than 2^32 threads wait. *)
Lemma ticket_inj t j k :
  Z.of_nat j < 2 ^ 32 → Z.of_nat k < 2 ^ 32 → u32 (t + Z.of_nat j) = u32 (t + Z.of_nat k) → j = k.
Proof.
  intros Hj Hk E. unfold u32 in E.
  assert ((Z.of_nat j - Z.of_nat k) mod 2 ^ 32 = 0) as H0.
  { replace (Z.of_nat j - Z.of_nat k) with (t + Z.of_nat j - (t + Z.of_nat k)) by lia.
    rewrite Zminus_mod, E, Z.sub_diag. done. }
  destruct (Z_lt_le_dec (Z.of_nat j - Z.of_nat k) 0) as [Hn|Hp].
  - rewrite <- (Z_mod_plus_full _ 1), Z.mod_small in H0 by lia. lia.
  - rewrite Z.mod_small in H0 by lia. lia.
Qed.

Section Sim.
Context (s : tstate) (a : fifo).
Hypothesis Hs : simulates s a.

Lemma queue_range j i : queue a !! j = Some i → (i < length (threads s))%nat.
Proof using Hs.
  intros Hj. destruct (sm_pc s a Hs j i Hj) as (p & Hp & _). by eapply lookup_lt_Some.
Qed.

Lemma queue_bound : Z.of_nat (length (queue a)) < 2 ^ 32.
Proof using Hs.
  pose proof (sm_bound s a Hs). enough (length (queue a) <= length (threads s))%nat by lia.
  rewrite <- (length_seq (length (threads s)) 0). apply submseteq_length, NoDup_submseteq;
    [apply (sm_nodup s a Hs)|].
  intros i Hi. apply list_elem_of_lookup in Hi as [j Hj]. apply elem_of_seq.
  pose proof (queue_range j i Hj). lia.
Qed.

(** A thread using the lock is in the queue. *)
Lemma in_queue i p : threads s !! i = Some p → p ≠ Out →
  ∃ j, queue a !! j = Some i ∧ queued (turn (lk s)) (inside a) j p.
Proof using Hs.
  intros Hp Hne. destruct (decide (i ∈ queue a)) as [Hi|Hi].
  - apply list_elem_of_lookup in Hi as [j Hj]. exists j. split; [done|].
    destruct (sm_pc s a Hs j i Hj) as (p' & Hp' & Hq). congruence.
  - by destruct (Hne (sm_out s a Hs i p Hp Hi)).
Qed.

Lemma not_queued i : threads s !! i = Some Out → i ∉ queue a.
Proof using Hs.
  intros Hp Hi. apply list_elem_of_lookup in Hi as [j Hj].
  destruct (sm_pc s a Hs j i Hj) as (p & Hp' & Hq). rewrite Hp in Hp'. injection Hp' as <-.
  destruct j; simpl in Hq; [destruct (inside a); [destruct Hq|]|]; done.
Qed.

(** Only the head can be at, or past, its turn. *)
Lemma at_turn i t : threads s !! i = Some (Spin t) → my_turn s t = true →
  ∃ q, queue a = i :: q ∧ inside a = false.
Proof using Hs.
  intros Hp Ht. apply Z.eqb_eq in Ht. destruct (in_queue i _ Hp ltac:(done)) as (j & Hj & Hq).
  destruct j as [|j].
  - simpl in Hq. destruct (inside a) eqn:E; [by destruct Hq|].
    destruct (queue a) as [|i' q]; simplify_eq/=. eauto.
  - exfalso. simpl in Hq. injection Hq as ->. pose proof queue_bound as Hb.
    pose proof (lookup_lt_Some _ _ _ Hj).
    rewrite <- (Z.add_0_r (turn (lk s))) in Ht at 1.
    apply (ticket_inj (turn (lk s)) 0 (S j)) in Ht; lia.
Qed.

Lemma holder_head i p : threads s !! i = Some p → p = In ∨ (∃ v, p = Store v) →
  ∃ q, queue a = i :: q ∧ inside a = true ∧ (p = In ∨ p = Store (s32 (turn (lk s) + 1))).
Proof using Hs.
  intros Hp Hin. destruct (in_queue i p Hp) as (j & Hj & Hq); [by destruct Hin as [->|[v ->]]|].
  destruct j as [|j]; simpl in Hq.
  - destruct (inside a) eqn:E; [|destruct Hin as [->|[v ->]]; done].
    destruct (queue a) as [|i' q]; simplify_eq/=. eauto.
  - destruct Hin as [->|[v ->]]; done.
Qed.
End Sim.

(** The first of the queue. *)
Lemma head_pc s a : simulates s a → ∀ i, head (queue a) = Some i →
  ∃ p, threads s !! i = Some p ∧ queued (turn (lk s)) (inside a) 0 p.
Proof.
  intros Hs i Hh. apply (sm_pc s a Hs 0 i). destruct (queue a); [done|]. by injection Hh as ->.
Qed.

(** * Simulation *)

Lemma queued_shift t b j p : queued t b (S j) p → queued (s32 (t + 1)) false j p.
Proof.
  intros H. simpl in H. destruct j as [|j]; simpl.
  - rewrite H, u32_s32. done.
  - rewrite H. f_equal. rewrite <- (u32_add (s32 (t + 1))), u32_s32, u32_add. f_equal. lia.
Qed.

Lemma sim_request s a i :
  simulates s a → threads s !! i = Some Out →
  simulates (take_ticket i s) (Fifo (queue a ++ [i]) (inside a)) ∧ i ∉ queue a.
Proof.
  intros Hs Hi. pose proof (not_queued s a Hs i Hi) as Hnq.
  assert (i < length (threads s))%nat as Hlt by (by eapply lookup_lt_Some).
  split; [|done]. destruct Hs as [Ht Htk Hnd Hpc Hout Hhd Hb].
  split; simpl; try done.
  - rewrite Htk, length_app. simpl. apply s32_of_u32.
    rewrite <- u32_add, u32_s32, u32_add. f_equal. lia.
  - apply NoDup_app. split_and!; [done|set_solver|apply NoDup_singleton].
  - intros j i' Hj. apply lookup_app_Some in Hj as [Hj|[Hge Hj]].
    + destruct (Hpc j i' Hj) as (p & Hp & Hq). exists p. split; [|done].
      rewrite list_lookup_insert_ne; [done|]. intros <-. apply Hnq. by eapply list_elem_of_lookup_2.
    + apply list_lookup_singleton_Some in Hj as [Hj <-].
      assert (j = length (queue a)) as -> by lia. eexists. split; [by apply list_lookup_insert_eq|].
      rewrite Htk, u32_s32. destruct (queue a) as [|x q] eqn:E; simpl.
      * rewrite (Hhd eq_refl), Z.add_0_r. done.
      * done.
  - intros i' p Hp Hn. destruct (decide (i' = i)) as [->|Hne]; [set_solver|].
    rewrite list_lookup_insert_ne in Hp by done. apply (Hout i' p Hp). set_solver.
  - intros E. by apply app_eq_nil in E as [_ ?].
  - by rewrite length_insert.
Qed.

Lemma sim_enter s a i t :
  simulates s a → threads s !! i = Some (Spin t) → my_turn s t = true →
  ∃ q, a = Fifo (i :: q) false ∧ simulates (set_pc i In s) (Fifo (i :: q) true).
Proof.
  intros Hs Hi Ht. destruct (at_turn s a Hs i t Hi Ht) as (q & Eq & Ein).
  assert (i < length (threads s))%nat as Hlt by (by eapply lookup_lt_Some).
  destruct a as [qa b]. simpl in *. subst. exists q. split; [done|].
  destruct Hs as [Htn Htk Hnd Hpc Hout Hhd Hb]. simpl in *. split; simpl; try done.
  - intros [|j] i' Hj; simplify_eq/=.
    + eexists. split; [by apply list_lookup_insert_eq|]. by left.
    + destruct (Hpc (S j) i' Hj) as (p & Hp & Hq). exists p. split; [|done].
      rewrite list_lookup_insert_ne; [done|]. intros <-.
      apply NoDup_cons in Hnd as [Hn _]. apply Hn. by eapply list_elem_of_lookup_2.
  - intros i' p Hp Hn. destruct (decide (i' = i)) as [->|Hne]; [set_solver|].
    rewrite list_lookup_insert_ne in Hp by done. by apply (Hout i' p Hp).
  - by rewrite length_insert.
Qed.

Lemma sim_load s a i :
  simulates s a → threads s !! i = Some In →
  simulates (set_pc i (Store (s32 (turn (lk s) + 1))) s) a.
Proof.
  intros Hs Hi. destruct (holder_head s a Hs i In Hi) as (q & Eq & Ein & _); [by left|].
  assert (i < length (threads s))%nat as Hlt by (by eapply lookup_lt_Some).
  destruct Hs as [Htn Htk Hnd Hpc Hout Hhd Hb]. split; simpl; try done.
  - rewrite Eq in *. intros [|j] i' Hj; simplify_eq/=.
    + eexists. split; [by apply list_lookup_insert_eq|]. rewrite Ein. by right.
    + destruct (Hpc (S j) i' Hj) as (p & Hp & Hq). exists p. split; [|done].
      rewrite list_lookup_insert_ne; [done|]. intros <-.
      apply NoDup_cons in Hnd as [Hn _]. apply Hn. by eapply list_elem_of_lookup_2.
  - intros i' p Hp Hn. destruct (decide (i' = i)) as [->|Hne]; [rewrite Eq in Hn; set_solver|].
    rewrite list_lookup_insert_ne in Hp by done. by apply (Hout i' p Hp).
  - by rewrite length_insert.
Qed.

Lemma sim_store s a i v :
  simulates s a → threads s !! i = Some (Store v) →
  ∃ q, a = Fifo (i :: q) true
    ∧ simulates (TState (Lock (ticket (lk s)) v) (<[i := Out]> (threads s))) (Fifo q false).
Proof.
  intros Hs Hi. destruct (holder_head s a Hs i (Store v) Hi) as (q & Eq & Ein & Hv); [eauto|].
  destruct Hv as [?|Hv]; [done|]. injection Hv as ->.
  assert (i < length (threads s))%nat as Hlt by (by eapply lookup_lt_Some).
  destruct a as [qa b]. simpl in *. subst. exists q. split; [done|].
  destruct Hs as [Htn Htk Hnd Hpc Hout Hhd Hb]. simpl in *. apply NoDup_cons in Hnd as [Hn Hnd].
  split; simpl; try done.
  - apply s32_range.
  - rewrite Htk. apply s32_of_u32. rewrite <- (u32_add (s32 _)), u32_s32, u32_add. f_equal. lia.
  - intros j i' Hj. destruct (Hpc (S j) i' Hj) as (p & Hp & Hq). exists p. split.
    + rewrite list_lookup_insert_ne; [done|]. intros <-. apply Hn. by eapply list_elem_of_lookup_2.
    + by apply queued_shift in Hq.
  - intros i' p Hp Hni. destruct (decide (i' = i)) as [->|Hne].
    + rewrite list_lookup_insert_eq in Hp by done. congruence.
    + rewrite list_lookup_insert_ne in Hp by done. apply (Hout i' p Hp). set_solver.
  - by rewrite length_insert.
Qed.

(** Every step of the code is the step of the specification with the same event, or shows nothing. *)
Lemma sim_step s a l s' :
  simulates s a → tstep s l s' → ∃ a', lrun fifo_step a (option_list l) a' ∧ simulates s' a'.
Proof.
  intros Hs Hst. destruct Hst as [s i Hi|s i t Hi Ht|s i t Hi Ht|s i Hi|s i v Hi].
  - destruct (sim_request s a i Hs Hi) as [Hs' Hn]. eexists. split; [|done]. destruct a. by apply lrun_once, fifo_request.
  - exists a. split; [apply lrun_refl|done].
  - destruct (sim_enter s a i t Hs Hi Ht) as (q & -> & Hs'). eexists. split; [|done]. apply lrun_once, fifo_enter.
  - exists a. split; [apply lrun_refl|]. by apply sim_load.
  - destruct (sim_store s a i v Hs Hi) as (q & -> & Hs'). eexists. split; [|done]. apply lrun_once, fifo_leave.
Qed.

Lemma sim_init n : Z.of_nat n < 2 ^ 32 → simulates (TState lock_init (replicate n Out)) (Fifo [] false).
Proof.
  intros Hn. split; simpl; try done.
  - constructor.
  - intros i p Hp _. by apply lookup_replicate in Hp as [? _].
  - by rewrite length_replicate.
Qed.

Lemma sim_run n tr s :
  Z.of_nat n < 2 ^ 32 → lrun tstep (TState lock_init (replicate n Out)) tr s →
  ∃ a, lrun fifo_step (Fifo [] false) tr a ∧ simulates s a.
Proof. intros Hn. apply lrun_simulation; [apply sim_step|by apply sim_init]. Qed.

(** In the specification the entries are the first of the requests: all but those that still wait. *)
Lemma fifo_order tr a :
  lrun fifo_step (Fifo [] false) tr a → requests tr = entries tr ++ (if inside a then tail (queue a) else queue a).
Proof.
  intros Hr. apply (lrun_invariant fifo_step (λ tr a, requests tr = entries tr ++ (if inside a then tail (queue a) else queue a) ∧ (inside a = true → queue a ≠ []))
    (Fifo [] false) tr a); [|by split|done].
  clear Hr tr a. intros tr a l a' [E Hne] Hst. unfold requests, entries in *. rewrite !omap_app, E.
  destruct Hst as [q [] i Hi|q i|q i]; simpl in *; rewrite ?app_nil_r, <- ?app_assoc; split; try done.
  - destruct q; [by destruct (Hne eq_refl)|done].
  - intros _ Eq. by apply app_eq_nil in Eq as [_ ?].
Qed.

(** * Properties *)

(** C13.  The ticket lock is a first-come first-served lock.  For any number of
    threads below 2^32 and any interleaving of their steps from a fresh lock
    (the counters may have wrapped any number of times), with [tr] the events
    of the run in their order (ticket drawn, lock entered, lock left): the
    first-come first-served lock of the specification has a run with the same
    events; the threads that got in are the first ones that asked, in the order
    in which they asked, and those that still wait are the rest; the queue holds
    just the threads that use the lock; at most one thread is inside; and the
    lock never gets stuck: while anybody uses it, either nobody is inside and
    the oldest request, and no other, finds that it is its turn, or the oldest
    request is inside and its next or next but one step gives the lock back. *)
Theorem ticket_lock_fifo n tr s :
  Z.of_nat n < 2 ^ 32 → lrun tstep (TState lock_init (replicate n Out)) tr s →
  ∃ a, lrun fifo_step (Fifo [] false) tr a
    ∧ requests tr = entries tr ++ (if inside a then tail (queue a) else queue a)
    ∧ (∀ i p, threads s !! i = Some p → i ∈ queue a ↔ p ≠ Out)
    ∧ (∀ i j, threads s !! i = Some In → threads s !! j = Some In → i = j)
    ∧ (∀ i t, threads s !! i = Some (Spin t) →
         my_turn s t = true ↔ head (queue a) = Some i ∧ inside a = false)
    ∧ (∀ i, head (queue a) = Some i →
         if inside a
         then threads s !! i = Some In ∨ (∃ v, threads s !! i = Some (Store v))
         else ∃ t, threads s !! i = Some (Spin t) ∧ my_turn s t = true).
Proof.
  intros Hn Hr. destruct (sim_run n tr s Hn Hr) as (a & Ha & Hs). exists a.
  split_and!; [done|by apply fifo_order|..].
  - intros i p Hp. split; [|intros Hne; destruct (in_queue s a Hs i p Hp Hne) as (j & Hj & _); by eapply list_elem_of_lookup_2].
    intros Hi ->. by apply (not_queued s a Hs i Hp).
  - intros i j Hi Hj. destruct (holder_head s a Hs i In Hi) as (q & Eq & _); [by left|].
    destruct (holder_head s a Hs j In Hj) as (q' & Eq' & _); [by left|]. congruence.
  - intros i t Hi. split.
    + intros Ht. by destruct (at_turn s a Hs i t Hi Ht) as (q & -> & ->).
    + intros [Hh Hb]. destruct (head_pc s a Hs i Hh) as (p & Hp & Hq). rewrite Hi in Hp. injection Hp as <-.
      rewrite Hb in Hq. injection Hq as ->. unfold my_turn. apply Z.eqb_refl.
  - intros i Hh. destruct (head_pc s a Hs i Hh) as (p & Hp & Hq). destruct (inside a).
    + cbn in Hq; destruct Hq as [->| ->]; eauto.
    + cbn in Hq. subst p. eexists. split; [exact Hp|]. apply Z.eqb_refl.
Qed.

(** C13 for three threads: the second and the first take tickets, the second enters and leaves, the first enters. *)
Lemma ticket_lock_fifo_witness :
  ∃ s a, let tr := [Request 1; Request 0; Enter 1; Leave 1; Enter 0] in
    lrun tstep (TState lock_init (replicate 3 Out)) tr s ∧ threads s = [In; Out; Out]
    ∧ lrun fifo_step (Fifo [] false) tr a ∧ queue a = [0%nat].
Proof.
  set (tr := [Request 1; Request 0; Enter 1; Leave 1; Enter 0]).
  set (s := TState (Lock 2 1) [In; Out; Out]).
  assert (lrun tstep (TState lock_init (replicate 3 Out)) tr s) as Hr.
  { apply (lrun_trans tstep _ [Request 1] (TState (Lock 1 0) [Out; Spin 0; Out]) [Request 0; Enter 1; Leave 1; Enter 0]).
    { apply (lrun_once tstep _ (Some (Request 1))). by apply (step_faa (TState lock_init (replicate 3 Out)) 1). }
    apply (lrun_trans tstep _ [Request 0] (TState (Lock 2 0) [Spin 1; Spin 0; Out]) [Enter 1; Leave 1; Enter 0]).
    { apply (lrun_once tstep _ (Some (Request 0))). by apply (step_faa (TState (Lock 1 0) [Out; Spin 0; Out]) 0). }
    apply (lrun_trans tstep _ [Enter 1] (TState (Lock 2 0) [Spin 1; In; Out]) [Leave 1; Enter 0]).
    { apply (lrun_once tstep _ (Some (Enter 1))). by apply (step_enter (TState (Lock 2 0) [Spin 1; Spin 0; Out]) 1 0). }
    apply (lrun_trans tstep _ [] (TState (Lock 2 0) [Spin 1; Store 1; Out]) [Leave 1; Enter 0]).
    { apply (lrun_once tstep _ None). by apply (step_load (TState (Lock 2 0) [Spin 1; In; Out]) 1). }
    apply (lrun_trans tstep _ [Leave 1] (TState (Lock 2 1) [Spin 1; Out; Out]) [Enter 0]).
    { apply (lrun_once tstep _ (Some (Leave 1))). by apply (step_store (TState (Lock 2 0) [Spin 1; Store 1; Out]) 1 1). }
    apply (lrun_once tstep _ (Some (Enter 0))). by apply (step_enter (TState (Lock 2 1) [Spin 1; Out; Out]) 0 1). }
  destruct (ticket_lock_fifo 3 tr s) as (a & Ha & Ho & Hq & _ & Hsp & Hh); [lia|exact Hr|].
  exists s, a. split_and!; [exact Hr|reflexivity|exact Ha|].
  assert (0%nat ∈ queue a) as Hin by (apply (Hq 0%nat In); [reflexivity|discriminate]).
  cbn in Ho. destruct (inside a).
  - injection Ho as Ho. destruct (queue a) as [|x q]; [by apply elem_of_nil in Hin|]. cbn in Ho. subst q. apply list_elem_of_singleton in Hin. by subst x.
  - injection Ho as Ho. rewrite <- Ho in Hin. by apply elem_of_nil in Hin.
Defined.
