(* ===== verification/Threads.v ===== *)
(** Processes and kernel threads (src/p3b/xv6-public/proc.c, with the system calls
    of sysproc.c): the round-robin scheduler, fork, exit, wait, kill, heap growth,
    and the thread calls [clone] and [join].

    A [struct proc *] is an index into the table, a null one is [None].  Here
    [scheduler] keeps [ptable.lock] from the moment a process gives up the
    processor until the next one runs or the pass over the table ends, so a
    processor has its own position in that loop: [cproc] is [c->proc] and
    [cursor] is [Some i] inside the pass, with slot [i] the next one to look at.
    A step of a process that takes the lock runs when the lock is free; the
    pieces of [fork], [clone] and [exit] outside the lock touch only the slot of
    the caller and the new slot, which no other processor uses before it is
    published, so each call is one step.

    A process inside the kernel that has given up the processor resumes where its
    saved context says; [kc] is that resume point.  The checks of [sched] on
    [ncli] and on the interrupt flag, and the segment and cr3 loads of
    [switchuvm] and [switchkvm], are not modelled. *)

From Stdlib Require Import ZArith Lia.
From stdpp Require Import base numbers list gmap sets strings relations.
From S2P Require Import Prelude CStr Mmu MemIface KernBase.
#[local] Open Scope Z_scope.

(** Where a process continues when it is next scheduled: at [forkret], after
    [sched] in [yield], or after [sched] in [sleep] called from [wait], from [join]
    (with its result pointer), from [sys_sleep] (with its [n] and [ticks0]) or from
    other kernel code; [KUser] is not inside a blocking call. *)
Inductive kcont :=
  KUser | KForkret | KYield | KWait | KJoin (res : Z) | KTicks (n ticks0 : Z) | KOther.

Record proc := Proc {
  sz : Z;
  pgdir : Z;
  kstack : Z;
  state : procstate;
  pid : Z;
  parent : option nat;
  tf : trapframe;
  kc : kcont;
  chan : option channel;
  killed : bool;
  ofile : list Z;
  cwd : Z;
  name : cstring;
  stack : Z
}.

Definition set_sz (v : Z) (p : proc) : proc :=
  Proc v (pgdir p) (kstack p) (state p) (pid p) (parent p) (tf p) (kc p) (chan p) (killed p) (ofile p) (cwd p) (name p) (stack p).
Definition set_pgdir (v : Z) (p : proc) : proc :=
  Proc (sz p) v (kstack p) (state p) (pid p) (parent p) (tf p) (kc p) (chan p) (killed p) (ofile p) (cwd p) (name p) (stack p).
Definition set_kstack (v : Z) (p : proc) : proc :=
  Proc (sz p) (pgdir p) v (state p) (pid p) (parent p) (tf p) (kc p) (chan p) (killed p) (ofile p) (cwd p) (name p) (stack p).
Definition set_state (v : procstate) (p : proc) : proc :=
  Proc (sz p) (pgdir p) (kstack p) v (pid p) (parent p) (tf p) (kc p) (chan p) (killed p) (ofile p) (cwd p) (name p) (stack p).
Definition set_pid (v : Z) (p : proc) : proc :=
  Proc (sz p) (pgdir p) (kstack p) (state p) v (parent p) (tf p) (kc p) (chan p) (killed p) (ofile p) (cwd p) (name p) (stack p).
Definition set_parent (v : option nat) (p : proc) : proc :=
  Proc (sz p) (pgdir p) (kstack p) (state p) (pid p) v (tf p) (kc p) (chan p) (killed p) (ofile p) (cwd p) (name p) (stack p).
Definition set_tf (v : trapframe) (p : proc) : proc :=
  Proc (sz p) (pgdir p) (kstack p) (state p) (pid p) (parent p) v (kc p) (chan p) (killed p) (ofile p) (cwd p) (name p) (stack p).
Definition set_kc (v : kcont) (p : proc) : proc :=
  Proc (sz p) (pgdir p) (kstack p) (state p) (pid p) (parent p) (tf p) v (chan p) (killed p) (ofile p) (cwd p) (name p) (stack p).
Definition set_chan (v : option channel) (p : proc) : proc :=
  Proc (sz p) (pgdir p) (kstack p) (state p) (pid p) (parent p) (tf p) (kc p) v (killed p) (ofile p) (cwd p) (name p) (stack p).
Definition set_killed (v : bool) (p : proc) : proc :=
  Proc (sz p) (pgdir p) (kstack p) (state p) (pid p) (parent p) (tf p) (kc p) (chan p) v (ofile p) (cwd p) (name p) (stack p).
Definition set_ofile (v : list Z) (p : proc) : proc :=
  Proc (sz p) (pgdir p) (kstack p) (state p) (pid p) (parent p) (tf p) (kc p) (chan p) (killed p) v (cwd p) (name p) (stack p).
Definition set_cwd (v : Z) (p : proc) : proc :=
  Proc (sz p) (pgdir p) (kstack p) (state p) (pid p) (parent p) (tf p) (kc p) (chan p) (killed p) (ofile p) v (name p) (stack p).
Definition set_name (v : cstring) (p : proc) : proc :=
  Proc (sz p) (pgdir p) (kstack p) (state p) (pid p) (parent p) (tf p) (kc p) (chan p) (killed p) (ofile p) (cwd p) v (stack p).
Definition set_stack (v : Z) (p : proc) : proc :=
  Proc (sz p) (pgdir p) (kstack p) (state p) (pid p) (parent p) (tf p) (kc p) (chan p) (killed p) (ofile p) (cwd p) (name p) v.

(** A slot of the zero-initialised table. *)
Definition null_proc : proc :=
  Proc 0 0 0 UNUSED 0 None zero_tf KUser None false (replicate NOFILE 0) 0 [] 0.

Record cpu := Cpu { cproc : option nat; cursor : option nat }.

Record kern (M F : Type) := Kern {
  ptab : list proc;
  plocked : bool;
  cpus : list cpu;
  nextpid : Z;
  ticks : Z;
  initproc : option nat;
  mm : M;
  fs_ : F
}.
Arguments Kern {M F}.
Arguments ptab {M F}.
Arguments plocked {M F}.
Arguments cpus {M F}.
Arguments nextpid {M F}.
Arguments ticks {M F}.
Arguments initproc {M F}.
Arguments mm {M F}.
Arguments fs_ {M F}.

Section Threads.
Context {M F : Type} `{MemOps M} `{FileOps F}.

#[local] Abbreviation kern := (kern M F).

Definition set_ptab (v : list proc) (k : kern) : kern :=
  Kern v (plocked k) (cpus k) (nextpid k) (ticks k) (initproc k) (mm k) (fs_ k).
Definition set_plocked (v : bool) (k : kern) : kern :=
  Kern (ptab k) v (cpus k) (nextpid k) (ticks k) (initproc k) (mm k) (fs_ k).
Definition set_cpus (v : list cpu) (k : kern) : kern :=
  Kern (ptab k) (plocked k) v (nextpid k) (ticks k) (initproc k) (mm k) (fs_ k).
Definition set_nextpid (v : Z) (k : kern) : kern :=
  Kern (ptab k) (plocked k) (cpus k) v (ticks k) (initproc k) (mm k) (fs_ k).
Definition set_ticks (v : Z) (k : kern) : kern :=
  Kern (ptab k) (plocked k) (cpus k) (nextpid k) v (initproc k) (mm k) (fs_ k).
Definition set_initproc (v : option nat) (k : kern) : kern :=
  Kern (ptab k) (plocked k) (cpus k) (nextpid k) (ticks k) v (mm k) (fs_ k).
Definition set_mm (v : M) (k : kern) : kern :=
  Kern (ptab k) (plocked k) (cpus k) (nextpid k) (ticks k) (initproc k) v (fs_ k).
Definition set_fs_ (v : F) (k : kern) : kern :=
  Kern (ptab k) (plocked k) (cpus k) (nextpid k) (ticks k) (initproc k) (mm k) v.

Definition getp (k : kern) (i : nat) : proc := default null_proc (ptab k !! i).
Definition upd (i : nat) (f : proc → proc) (k : kern) : kern := set_ptab (alter f i (ptab k)) k.
Definition map_procs (f : proc → proc) (k : kern) : kern := set_ptab (f <$> ptab k) k.

(** [for(p = ptable.proc; p < &ptable.proc[NPROC]; p++) if(...) goto found;] *)
Definition find_proc (P : proc → bool) (l : list proc) : option nat :=
  fst <$> list_find (λ p, P p = true) l.

Definition acquire (k : kern) : outcome kern :=
  if plocked k then Panic "acquire" else Ok (set_plocked true k).
Definition release (k : kern) : outcome kern :=
  if plocked k then Ok (set_plocked false k) else Panic "release".

(** * Giving up the processor *)

Definition leave_cpu (i : nat) (k : kern) : kern :=
  set_cpus ((λ c, if decide (cproc c = Some i) then Cpu None (cursor c) else c) <$> cpus k) k.

(** [sched] switches to the scheduler of the processor, which goes on with its
    pass over the table and still holds the lock. *)
Definition sched (k : kern) (i : nat) : outcome kern :=
  if negb (plocked k) then Panic "sched ptable.lock"
  else if decide (state (getp k i) = RUNNING) then Panic "sched running"
  else Ok (leave_cpu i k).

Definition yield (k : kern) (i : nat) : outcome kern :=
  k1 ← acquire k;
  sched (upd i (set_kc KYield ∘ set_state RUNNABLE) k1) i.

(** The part of [sleep] up to [sched], with [ptable.lock] held; [r] is the
    caller that continues after it. *)
Definition sleep (k : kern) (i : nat) (ch : channel) (r : kcont) : outcome kern :=
  sched (upd i (set_kc r ∘ set_state SLEEPING ∘ set_chan (Some ch)) k) i.

Definition wake (ch : channel) (p : proc) : proc :=
  if decide (state p = SLEEPING ∧ chan p = Some ch) then set_state RUNNABLE p else p.

Definition wakeup1 (ch : channel) (k : kern) : kern := map_procs (wake ch) k.

Definition wakeup (ch : channel) (k : kern) : outcome kern :=
  k1 ← acquire k; release (wakeup1 ch k1).

(** A system call returns [r]: it is stored in the trap frame (syscall.c). *)
Definition sys_return (r : Z) (q : proc) : proc :=
  set_tf (set_eax (u32 r) (tf q)) (set_kc KUser q).

(** * wait and join *)

(** The children [wait] looks at: those that are not threads. *)
Definition is_child (i : nat) (p : proc) : bool :=
  bool_decide (parent p = Some i) && (stack p =? 0).

(** The children [join] looks at: those in the same address space. *)
Definition is_thread (i : nat) (pd : Z) (p : proc) : bool :=
  (pgdir p =? pd) && bool_decide (parent p = Some i).

Definition is_zombie (p : proc) : bool := bool_decide (state p = ZOMBIE).

Definition reap (p : proc) : proc :=
  set_state UNUSED (set_killed false (set_name [] (set_parent None (set_pid 0 (set_kstack 0 p))))).

(** One iteration of the [for(;;)] of [wait], with [ptable.lock] held: [Some r]
    when [wait] returns [r], [None] when the process went to sleep. *)
Definition wait_iter (k : kern) (i : nat) : outcome (option Z * kern) :=
  match find_proc (λ p, is_child i p && is_zombie p) (ptab k) with
  | Some j =>
      let p := getp k j in
      m1 ← mkfree (mm k) (kstack p);
      m2 ← mfreevm m1 (pgdir p);
      k2 ← release (upd i (sys_return (pid p)) (upd j reap (set_mm m2 k)));
      Ok (Some (pid p), k2)
  | None =>
      if negb (existsb (is_child i) (ptab k)) || killed (getp k i) then
        k1 ← release (upd i (sys_return (-1)) k);
        Ok (Some (-1), k1)
      else k1 ← sleep k i (CProc i) KWait; Ok (None, k1)
  end.

Definition wait (k : kern) (i : nat) : outcome (option Z * kern) :=
  k1 ← acquire k; wait_iter k1 i.

(** One iteration of [join]; [res] is its argument, a user address. *)
Definition join_iter (k : kern) (i : nat) (res : Z) : outcome (option Z * kern) :=
  let cur := getp k i in
  match find_proc (λ p, is_thread i (pgdir cur) p && is_zombie p) (ptab k) with
  | Some j =>
      let p := getp k j in
      m1 ← mkfree (mm k) (kstack p);
      m2 ← muwrite m1 (pgdir cur) res (stack p);
      k2 ← release (upd i (sys_return (pid p)) (upd j reap (set_mm m2 k)));
      Ok (Some (pid p), k2)
  | None =>
      if negb (existsb (is_thread i (pgdir cur)) (ptab k)) || killed cur then
        k1 ← release (upd i (sys_return (-1)) k);
        Ok (Some (-1), k1)
      else k1 ← sleep k i (CProc i) (KJoin res); Ok (None, k1)
  end.

Definition join (k : kern) (i : nat) (res : Z) : outcome (option Z * kern) :=
  k1 ← acquire k; join_iter k1 i res.

(** * sys_sleep *)

(** One test of [while(ticks - ticks0 < n)]; [tickslock] is not modelled. *)
Definition sleep_iter (k : kern) (i : nat) (n ticks0 : Z) : outcome (option Z * kern) :=
  if u32 (ticks k - ticks0) <? u32 n then
    if killed (getp k i) then
      Ok (Some (-1), upd i (sys_return (-1)) k)
    else
      k1 ← acquire k; k2 ← sleep k1 i CTicks (KTicks n ticks0); Ok (None, k2)
  else Ok (Some 0, upd i (sys_return 0) k).

Definition sys_sleep (k : kern) (i : nat) (n : Z) : outcome (option Z * kern) :=
  sleep_iter k i n (ticks k).

(** * The scheduler *)

Definition forkret (k : kern) (i : nat) : outcome kern := release (upd i (set_kc KUser) k).

(** What runs when [scheduler] switches to process [i], with the lock held. *)
Definition resume (k : kern) (i : nat) : outcome kern :=
  match kc (getp k i) with
  | KUser => release k
  | KForkret => forkret k i
  | KYield => release (upd i (set_kc KUser) k)
  | KWait => '(_, k1) ← wait_iter (upd i (set_chan None) k) i; Ok k1
  | KJoin res => '(_, k1) ← join_iter (upd i (set_chan None) k) i res; Ok k1
  | KTicks n ticks0 =>
      k1 ← release (upd i (set_chan None) k);
      '(_, k2) ← sleep_iter k1 i n ticks0; Ok k2
  | KOther => release (upd i (set_kc KUser ∘ set_chan None) k)
  end.

Definition is_runnable (p : proc) : bool := bool_decide (state p = RUNNABLE).

(** The next runnable slot at or after [n]. *)
Definition next_runnable (k : kern) (n : nat) : option nat :=
  (λ i, (n + i)%nat) <$> find_proc is_runnable (drop n (ptab k)).

(** [scheduler] on processor [c], which runs no process.  Outside a pass it
    takes the lock and starts one; inside a pass it goes on to the next runnable
    process and switches to it, or ends the pass and releases the lock. *)
Definition scheduler (k : kern) (c : nat) : outcome kern :=
  match cursor <$> cpus k !! c with
  | None => Fault 0
  | Some None => k1 ← acquire k; Ok (set_cpus (<[c := Cpu None (Some 0%nat)]> (cpus k1)) k1)
  | Some (Some n) =>
      match next_runnable k n with
      | Some i =>
          let k1 := set_cpus (<[c := Cpu (Some i) (Some (S i))]> (cpus k)) k in
          resume (upd i (set_state RUNNING) k1) i
      | None => release (set_cpus (<[c := Cpu None None]> (cpus k)) k)
      end
  end.

(** * Creating processes *)

Definition is_unused (p : proc) : bool := bool_decide (state p = UNUSED).

(** The kernel stack is recorded and the context starts at [forkret]. *)
Definition allocproc (k : kern) : outcome (option nat * kern) :=
  k1 ← acquire k;
  match find_proc is_unused (ptab k1) with
  | None => k2 ← release k1; Ok (None, k2)
  | Some i =>
      let k2 := upd i (λ p, set_stack 0 (set_pid (nextpid k1) (set_state EMBRYO p))) k1 in
      k3 ← release (set_nextpid (s32 (nextpid k1 + 1)) k2);
      '(ks, m) ← mkalloc (mm k3);
      let k4 := upd i (set_kstack ks) (set_mm m k3) in
      if ks =? 0 then Ok (None, upd i (set_state UNUSED) k4)
      else Ok (Some i, upd i (set_kc KForkret) k4)
  end.

(** [initcode] and its size come from the linked binary. *)
Definition userinit (initcode size : Z) (k : kern) : outcome kern :=
  '(o, k1) ← allocproc k;
  match o with
  | None => Fault 0
  | Some i =>
      let k2 := set_initproc (Some i) k1 in
      '(d, m) ← msetupkvm (mm k2);
      if d =? 0 then Panic "userinit: out of memory?"
      else
        m' ← minituvm m d initcode size;
        let t := set_eip 0 (set_esp PGSIZE (set_eflags 512
                   (set_ss 35 (set_es 35 (set_ds 35 (set_cs 27 zero_tf)))))) in
        '(root, f') ← namei_root (fs_ k2);
        let k3 := upd i (λ p, set_cwd root (set_name (of_string "initcode") (set_tf t
                    (set_sz PGSIZE (set_pgdir d p))))) (set_fs_ f' (set_mm m' k2)) in
        k4 ← acquire k3;
        release (upd i (set_state RUNNABLE) k4)
  end.

(** The loop at the end of [growproc]: the caller's direct threads get its new
    size.  It runs without the lock. *)
Definition share_sz (i : nat) (pd sz' : Z) (p : proc) : proc :=
  if (pgdir p =? pd) && bool_decide (parent p = Some i) then set_sz sz' p else p.

Definition growproc (k : kern) (i : nat) (n : Z) : outcome (Z * kern) :=
  let p := getp k i in
  let finish (sz' : Z) (k' : kern) : outcome (Z * kern) :=
    Ok (0, map_procs (share_sz i (pgdir p) sz') (upd i (set_sz sz') k')) in
  if 0 <? n then
    '(sz', m) ← mallocuvm (mm k) (pgdir p) (sz p) (u32 (sz p + n));
    if sz' =? 0 then Ok (-1, set_mm m k) else finish sz' (set_mm m k)
  else if n <? 0 then
    '(sz', m) ← mdeallocuvm (mm k) (pgdir p) (sz p) (u32 (sz p + n));
    if sz' =? 0 then Ok (-1, set_mm m k) else finish sz' (set_mm m k)
  else finish (sz p) k.

Definition sys_sbrk (k : kern) (i : nat) (n : Z) : outcome (Z * kern) :=
  let addr := s32 (sz (getp k i)) in
  '(r, k1) ← growproc k i n;
  if r <? 0 then Ok (-1, k1) else Ok (addr, k1).

(** The new slot gets the caller's files where they are open; its other
    entries keep what they held. *)
Definition inherit_files (mine theirs : list Z) : list Z :=
  zip_with (λ x y, if y =? 0 then x else y) mine theirs.

Definition fork (k : kern) (i : nat) : outcome (Z * kern) :=
  '(o, k1) ← allocproc k;
  match o with
  | None => Ok (-1, k1)
  | Some j =>
      let cur := getp k1 i in
      '(d, m) ← mcopyuvm (mm k1) (pgdir cur) (sz cur);
      let k2 := upd j (set_pgdir d) (set_mm m k1) in
      if d =? 0 then
        m' ← mkfree (mm k2) (kstack (getp k2 j));
        Ok (-1, upd j (set_state UNUSED ∘ set_kstack 0) (set_mm m' k2))
      else
        f1 ← dup_files (fs_ k2) (ofile cur);
        f2 ← idup f1 (cwd cur);
        let k3 := upd j (λ p, set_name (name cur) (set_cwd (cwd cur)
                    (set_ofile (inherit_files (ofile p) (ofile cur))
                    (set_tf (set_eax 0 (tf cur)) (set_parent (Some i) (set_sz (sz cur) p))))))
                    (set_fs_ f2 k2) in
        k4 ← acquire k3;
        k5 ← release (upd j (set_state RUNNABLE) k4);
        Ok (pid (getp k5 j), k5)
  end.

(** [ustack] is the kernel address of the local array [user_stack]. *)
Definition clone (k : kern) (i : nat) (ustack fcn arg1 arg2 stk : Z) : outcome (Z * kern) :=
  let cur0 := getp k i in
  if negb (stk mod PGSIZE =? 0) then Ok (-1, k)
  else if u32 (sz cur0 - stk) <? PGSIZE then Ok (-1, k)
  else
    '(o, k1) ← allocproc k;
    match o with
    | None => Ok (-1, k1)
    | Some j =>
        let cur := getp k1 i in
        let k2 := upd j (λ p, set_tf (tf cur) (set_parent (Some i) (set_sz (sz cur)
                    (set_pgdir (pgdir cur) p)))) k1 in
        let stack_top := u32 (u32 (stk + PGSIZE) - 12) in
        '(r, m) ← mcopyout (mpoke (mm k2) ustack [4294967295; arg1; arg2]) (pgdir cur)
                    stack_top ustack 12;
        let k3 := set_mm m k2 in
        if r <? 0 then Ok (-1, k3)
        else
          f1 ← dup_files (fs_ k3) (ofile cur);
          f2 ← idup f1 (cwd cur);
          let k4 := upd j (λ p, set_name (name cur) (set_cwd (cwd cur)
                      (set_ofile (inherit_files (ofile p) (ofile cur))
                      (set_tf (set_eax 0 (set_eip fcn (set_esp stack_top (set_ebp stack_top (tf p)))))
                      p)))) (set_fs_ f2 k3) in
          k5 ← acquire k4;
          k6 ← release (upd j (set_stack stk ∘ set_state RUNNABLE) k5);
          Ok (pid (getp k6 j), k6)
    end.

(** [argptr] after the argument [i] was fetched: its checks. *)
Definition argptr_ok (p : proc) (i size : Z) : bool :=
  negb ((size <? 0) || (sz p <=? u32 i) || (sz p <? u32 (u32 i + size))).

Definition sys_clone (k : kern) (i : nat) (ustack fcn arg1 arg2 stk : Z) : outcome (Z * kern) :=
  let p := getp k i in
  if argptr_ok p fcn 4 && argptr_ok p arg1 4 && argptr_ok p arg2 4 && argptr_ok p stk 4
  then clone k i ustack fcn arg1 arg2 stk else Ok (-1, k).

Definition sys_join (k : kern) (i : nat) (res : Z) : outcome (option Z * kern) :=
  if argptr_ok (getp k i) res 4 then join k i res else Ok (Some (-1), upd i (sys_return (-1)) k).

(** * exit and kill *)

(** The loop that passes abandoned children to [initproc]; [wakeup1(initproc)]
    runs for each of them that is a zombie. *)
Fixpoint reparent (k : kern) (i : nat) (js : list nat) : kern :=
  match js with
  | [] => k
  | j :: js' =>
      if decide (parent (getp k j) = Some i) then
        let k1 := upd j (set_parent (initproc k)) k in
        let k2 := if decide (state (getp k1 j) = ZOMBIE)
                  then match initproc k1 with Some r => wakeup1 (CProc r) k1 | None => k1 end
                  else k1 in
        reparent k2 i js'
      else reparent k i js'
  end.

Definition wake_parent (i : nat) (k : kern) : kern :=
  match parent (getp k i) with Some q => wakeup1 (CProc q) k | None => k end.

Definition exit (k : kern) (i : nat) : outcome kern :=
  if decide (initproc k = Some i) then Panic "init exiting"
  else
    let p := getp k i in
    f1 ← close_files (fs_ k) (ofile p);
    f2 ← iput_cwd f1 (cwd p);
    let k1 := upd i (λ p, set_cwd 0 (set_ofile (replicate NOFILE 0) p)) (set_fs_ f2 k) in
    k2 ← acquire k1;
    let k3 := reparent (wake_parent i k2) i (seq 0 NPROC) in
    sched (upd i (set_state ZOMBIE) k3) i.

Definition kill1 (p : proc) : proc :=
  let p' := set_killed true p in
  if decide (state p' = SLEEPING) then set_state RUNNABLE p' else p'.

Definition kill (k : kern) (target : Z) : outcome (Z * kern) :=
  k1 ← acquire k;
  match find_proc (λ p, pid p =? target) (ptab k1) with
  | Some j => k2 ← release (upd j kill1 k1); Ok (0, k2)
  | None => k2 ← release k1; Ok (-1, k2)
  end.

(** The timer interrupt of the first processor (trap.c). *)
Definition timer_tick (k : kern) : outcome kern :=
  wakeup CTicks (set_ticks (u32 (ticks k + 1)) k).

End Threads.
