(* ===== verification/ThreadsSpec.v ===== *)
(** Properties of the processes and threads of Threads. *)

From Stdlib Require Import ZArith Lia.
From stdpp Require Import base numbers list gmap sets strings relations.
From S2P Require Import Prelude CStr Mmu MemIface KernBase Threads.
#[local] Open Scope Z_scope.

(** * The invariant of the table *)

Definition alive (p : proc) : Prop := state p ≠ UNUSED ∧ state p ≠ ZOMBIE.

(** The slots a process in [wait] or [join] waits for. *)
Definition waits_for (i : nat) (p q : proc) : bool :=
  match kc p with
  | KWait => is_child i q
  | KJoin _ => is_thread i (pgdir p) q
  | _ => false
  end.

Definition blocked (p : proc) : Prop :=
  state p = SLEEPING ∧ match kc p with KWait | KJoin _ => True | _ => False end.

(** Process [i], asleep in [wait] or [join], can still be woken: some child it
    waits for exists, and none of them has exited. *)
Record blocked_ok (l : list proc) (i : nat) (p : proc) : Prop := {
  bo_chan : chan p = Some (CProc i);
  bo_none : ∀ j q, l !! j = Some q → waits_for i p q = true → state q ≠ ZOMBIE;
  bo_some : ∃ j q, l !! j = Some q ∧ waits_for i p q = true
}.

Record tab_ok (r : nat) (l : list proc) : Prop := {
  to_len : length l = NPROC;
  to_init : ∃ p, l !! r = Some p ∧ alive p ∧ parent p = None;
  to_unused : ∀ i p, l !! i = Some p → state p = UNUSED → parent p = None;
  to_parent : ∀ i p, l !! i = Some p → state p ≠ UNUSED → i ≠ r →
    ∃ q pq, parent p = Some q ∧ l !! q = Some pq ∧ alive pq;
  to_self : ∀ i p, l !! i = Some p → parent p ≠ Some i;
  to_blocked : ∀ i p, l !! i = Some p → blocked p → blocked_ok l i p
}.

(** Changes that keep the family tree ... *)
Record kin (p p' : proc) : Prop := {
  kin_parent : parent p' = parent p;
  kin_stack : stack p' = stack p;
  kin_pgdir : pgdir p' = pgdir p;
  kin_unused : state p' = UNUSED ↔ state p = UNUSED;
  kin_zombie : state p' = ZOMBIE ↔ state p = ZOMBIE
}.

(** ... and put nobody to sleep. *)
Record quiet (p p' : proc) : Prop := {
  qt_kin : kin p p';
  qt_blocked : blocked p' → blocked p ∧ kc p' = kc p ∧ chan p' = chan p
}.

Lemma kin_refl p : kin p p.
Proof. by split. Qed.

Lemma th_quiet_refl p : quiet p p.
Proof. split; [apply kin_refl|done]. Qed.

Lemma kin_trans p q s : kin p q → kin q s → kin p s.
Proof. intros [] []. split; try congruence; tauto. Qed.

Lemma th_quiet_trans p q s : quiet p q → quiet q s → quiet p s.
Proof.
  intros [K1 H1] [K2 H2]. split; [by eapply kin_trans|].
  intros Hb. destruct (H2 Hb) as (Hb' & ? & ?). destruct (H1 Hb') as (? & ? & ?).
  split_and!; [done|congruence|congruence].
Qed.

Lemma kin_alive p p' : kin p p' → alive p ↔ alive p'.
Proof. intros Q. unfold alive. rewrite (kin_unused _ _ Q), (kin_zombie _ _ Q). tauto. Qed.

Lemma waits_for_kin i p q q' : kin q q' → waits_for i p q' = waits_for i p q.
Proof.
  intros Q. unfold waits_for, is_child, is_thread.
  by rewrite (kin_parent _ _ Q), (kin_stack _ _ Q), (kin_pgdir _ _ Q).
Qed.

Lemma blocked_ok_same l i p p' :
  kc p' = kc p → chan p' = chan p → pgdir p' = pgdir p → blocked_ok l i p → blocked_ok l i p'.
Proof.
  intros Hk Hc Hd [Hch Hno Hs].
  assert (∀ q, waits_for i p' q = waits_for i p q) as E by (intros q; unfold waits_for; by rewrite Hk, Hd).
  split; [congruence| |].
  - intros j q Hj. rewrite E. by apply (Hno j).
  - destruct Hs as (j & q & Hj & Hw). exists j, q. by rewrite E.
Qed.

Section Kin.
Context (r : nat) (l l' : list proc).
Hypothesis Hq : Forall2 kin l l'.

Lemma kin_fwd i p : l !! i = Some p → ∃ p', l' !! i = Some p' ∧ kin p p'.
Proof using Hq. intros Hp. by eapply Forall2_lookup_l. Qed.

Lemma kin_back i p' : l' !! i = Some p' → ∃ p, l !! i = Some p ∧ kin p p'.
Proof using Hq. intros Hp. by eapply Forall2_lookup_r. Qed.

Lemma blocked_kin i p : blocked_ok l i p → blocked_ok l' i p.
Proof using Hq.
  intros [Hch Hno (j & q & Hj & Hw)]. split; [done| |].
  - intros j' q' Hj' Hw'. destruct (kin_back j' q' Hj') as (q0 & Hq0 & Q0).
    rewrite (kin_zombie _ _ Q0). apply (Hno j' q0 Hq0). by rewrite <- (waits_for_kin i p q0 q' Q0).
  - destruct (kin_fwd j q Hj) as (q' & Hq' & Q0). exists j, q'. split; [done|].
    by rewrite (waits_for_kin i p q q' Q0).
Qed.

Lemma tab_ok_kin :
  tab_ok r l → (∀ i p, l' !! i = Some p → blocked p → blocked_ok l i p) → tab_ok r l'.
Proof using Hq.
  intros [Hlen (p & Hp & Ha & Hn) Hun Hpar Hself _] Hb. split.
  - by rewrite <- (Forall2_length _ _ _ Hq).
  - destruct (kin_fwd r p Hp) as (p' & Hp' & Q). exists p'. rewrite (kin_parent _ _ Q).
    split_and!; [done|by apply (kin_alive _ _ Q)|done].
  - intros i p' Hp' Hu. destruct (kin_back i p' Hp') as (p0 & Hp0 & Q).
    rewrite (kin_parent _ _ Q). apply (Hun i p0 Hp0). by apply (kin_unused _ _ Q).
  - intros i p' Hp' Hu Hi. destruct (kin_back i p' Hp') as (p0 & Hp0 & Q).
    rewrite (kin_unused _ _ Q) in Hu. destruct (Hpar i p0 Hp0 Hu Hi) as (q & pq & E & Hpq & Ha').
    destruct (kin_fwd q pq Hpq) as (pq' & Hpq' & Q'). exists q, pq'.
    rewrite (kin_parent _ _ Q). split_and!; [done|done|by apply (kin_alive _ _ Q')].
  - intros i p' Hp'. destruct (kin_back i p' Hp') as (p0 & Hp0 & Q).
    rewrite (kin_parent _ _ Q). by apply (Hself i).
  - intros i p' Hp' Hbl. apply blocked_kin. by apply Hb.
Qed.
End Kin.

Lemma tab_ok_quiet r l l' : Forall2 quiet l l' → tab_ok r l → tab_ok r l'.
Proof.
  intros HF Hl. apply (tab_ok_kin r l); [|done|].
  - eapply Forall2_impl; [done|]. by intros p p' [].
  - intros i p' Hp' Hb. destruct (Forall2_lookup_r _ _ _ _ _ HF Hp') as (p & Hp & [K Q]).
    destruct (Q Hb) as (Hbp & Hk & Hc). apply (blocked_ok_same l i p); [done|done|apply K|].
    by apply (to_blocked r l Hl).
Qed.

Lemma tab_ok_alter r l i f :
  tab_ok r l → (∀ p, l !! i = Some p → quiet p (f p)) → tab_ok r (alter f i l).
Proof.
  intros Hl Hf. eapply tab_ok_quiet; [|done]. apply Forall2_alter_refl; [apply th_quiet_refl|done].
Qed.

Lemma tab_ok_map r l f : tab_ok r l → (∀ p, quiet p (f p)) → tab_ok r (f <$> l).
Proof. intros Hl Hf. eapply tab_ok_quiet; [|done]. by apply Forall2_map_refl. Qed.

(** Changes of one slot between living states. *)
Lemma kin_living p p' :
  parent p' = parent p → stack p' = stack p → pgdir p' = pgdir p → alive p → alive p' → kin p p'.
Proof. intros H1 H2 H3 [??] [??]. by split. Qed.

Lemma quiet_awake p p' : kin p p' → state p' ≠ SLEEPING → quiet p p'.
Proof. intros. split; [done|]. by intros [? _]. Qed.

Lemma th_wake_quiet ch p : quiet p (wake ch p).
Proof.
  unfold wake. destruct (decide _) as [[Hs _]|]; [|apply th_quiet_refl].
  apply quiet_awake; [|done]. apply kin_living; try done; split; simpl; congruence.
Qed.

Lemma kill_quiet p : quiet p (kill1 p).
Proof.
  unfold kill1. simpl. destruct (decide _) as [Hs|]; [|by split; [split|]].
  apply quiet_awake; [|done]. apply kin_living; try done; split; simpl; congruence.
Qed.

Lemma share_quiet i pd n p : quiet p (share_sz i pd n p).
Proof. unfold share_sz. destruct (_ && _); by split; [split|]. Qed.

(** Going to sleep. *)
Lemma tab_ok_sleep r l i p f :
  tab_ok r l → l !! i = Some p → kin p (f p) → (blocked (f p) → blocked_ok l i (f p)) →
  tab_ok r (alter f i l).
Proof.
  intros Hl Hi K Hb. apply (tab_ok_kin r l); [|done|].
  - apply Forall2_alter_refl; [apply kin_refl|]. intros p' Hp'. by simplify_eq.
  - intros j x Hx Hbx. rewrite (alter_insert f i l p Hi) in Hx.
    apply slot_insert_Some in Hx as [(-> & -> & _)|[_ Hx]]; [by apply Hb|].
    by apply (to_blocked r l Hl).
Qed.

(** ** Slots that join or leave the family tree *)

Lemma waits_for_parent i p q : waits_for i p q = true → parent q = Some i.
Proof.
  unfold waits_for, is_child, is_thread.
  destruct (kc p); try done; rewrite andb_true_iff, bool_decide_eq_true; tauto.
Qed.

Lemma to_alive_parent r l i p q pq :
  tab_ok r l → l !! i = Some p → parent p = Some q → l !! q = Some pq → alive pq.
Proof.
  intros Hl Hi Hp Hq. destruct (decide (state p = UNUSED)) as [Hu|Hu].
  { rewrite (to_unused r l Hl i p Hi Hu) in Hp. done. }
  destruct (decide (i = r)) as [->|Hne].
  { destruct (to_init r l Hl) as (p0 & Hp0 & _ & Hn). congruence. }
  destruct (to_parent r l Hl i p Hi Hu Hne) as (q' & pq' & E & Hq' & Ha). congruence.
Qed.

(** A slot that nobody waits for, before and after the change of slot [j]. *)
Lemma blocked_ok_insert l j p p' b x :
  blocked_ok l b x → l !! j = Some p →
  waits_for b x p' = false → (waits_for b x p = true → state p = ZOMBIE) →
  blocked_ok (<[j := p']> l) b x.
Proof.
  intros [Hc Hno (j0 & q & Hj0 & Hw)] Hj Hp' Hp. split; [done| |].
  - intros a y Hy Hwy. apply slot_insert_Some in Hy as [(-> & -> & _)|[_ Hy]]; [congruence|].
    by apply (Hno a y).
  - exists j0, q. split; [|done]. rewrite list_lookup_insert_ne; [done|]. intros <-.
    assert (q = p) as -> by congruence. by apply (Hno j p Hj Hw), Hp.
Qed.

(** A dead slot becomes, or stays, free. *)
Lemma tab_ok_free r l j p p' :
  tab_ok r l → l !! j = Some p → state p = UNUSED ∨ state p = ZOMBIE →
  state p' = UNUSED → parent p' = None → tab_ok r (<[j := p']> l).
Proof.
  intros Hl Hj Hdead Hu' Hp'. pose proof Hl as [Hlen (pr & Hr & Har & Hnr) Hun Hpar Hself Hb].
  assert (¬ alive p) as Hd by (intros []; tauto).
  assert (r ≠ j) as Hrj by (intros ->; congruence).
  split.
  - by rewrite length_insert.
  - exists pr. by rewrite list_lookup_insert_ne.
  - intros i x Hx. slot_cases; [done|]. by apply (Hun i).
  - intros i x Hx Hu Hi. slot_cases; [done|]. destruct (Hpar i x Hx Hu Hi) as (q & pq & E & Hq & Ha).
    exists q, pq. split_and!; [done| |done]. rewrite list_lookup_insert_ne; [done|].
    intros <-. congruence.
  - intros i x Hx. slot_cases; [congruence|]. by apply (Hself i).
  - intros i x Hx Hbx. slot_cases; [destruct Hbx; congruence|].
    apply (blocked_ok_insert l j p); [by apply Hb|done| |].
    + destruct (waits_for i x p') eqn:E; [|done]. apply waits_for_parent in E. congruence.
    + intros E%waits_for_parent. destruct Hdead as [Hu|]; [|done].
      rewrite (Hun j p Hj Hu) in E. done.
Qed.

(** A free slot becomes a child of [i], which is awake. *)
Lemma tab_ok_child r l j p p' i pi :
  tab_ok r l → l !! j = Some p → state p = UNUSED → l !! i = Some pi → alive pi → ¬ blocked pi →
  alive p' → ¬ blocked p' → parent p' = Some i → tab_ok r (<[j := p']> l).
Proof.
  intros Hl Hj Hu Hi Hai Hbi Ha' Hb' Hp'.
  pose proof Hl as [Hlen (pr & Hr & Har & Hnr) Hun Hpar Hself Hb].
  assert (j ≠ i) as Hji by (intros ->; simplify_eq; by destruct Hai).
  assert (r ≠ j) as Hrj by (intros ->; simplify_eq; by destruct Har).
  split.
  - by rewrite length_insert.
  - exists pr. by rewrite list_lookup_insert_ne.
  - intros a x Hx. slot_cases; [by destruct Ha'|]. by apply (Hun a).
  - intros a x Hx Hxu Ha. slot_cases.
    { exists i, pi. by rewrite list_lookup_insert_ne. }
    destruct (Hpar a x Hx Hxu Ha) as (q & pq & E & Hq & Haq).
    exists q, pq. split_and!; [done| |done]. rewrite list_lookup_insert_ne; [done|].
    intros <-. simplify_eq. by destruct Haq.
  - intros a x Hx. slot_cases; [congruence|]. by apply (Hself a).
  - intros a x Hx Hbx. slot_cases; [done|].
    apply (blocked_ok_insert l j p); [by apply Hb|done| |].
    + destruct (waits_for a x p') eqn:E; [|done]. apply waits_for_parent in E. congruence.
    + intros E%waits_for_parent. rewrite (Hun j p Hj Hu) in E. done.
Qed.

(** A childless process whose parent is awake becomes a zombie. *)
Lemma tab_ok_bury r l i p q pq :
  tab_ok r l → l !! i = Some p → i ≠ r → alive p → (∀ j x, l !! j = Some x → parent x ≠ Some i) →
  parent p = Some q → l !! q = Some pq → ¬ blocked pq → tab_ok r (<[i := set_state ZOMBIE p]> l).
Proof.
  intros Hl Hi Hir Ha Hkids Hp Hq Hbq.
  pose proof Hl as [Hlen (pr & Hr & Har & Hnr) Hun Hpar Hself Hb].
  split.
  - by rewrite length_insert.
  - exists pr. by rewrite list_lookup_insert_ne.
  - intros a x Hx. slot_cases; [done|]. by apply (Hun a).
  - intros a x Hx Hu Har'.
    assert (∃ q pq, parent x = Some q ∧ l !! q = Some pq ∧ alive pq ∧ q ≠ i) as (q' & pq' & E & Hq' & Ha' & Hne).
    { slot_cases.
      - destruct (Hpar i p Hi) as (q' & pq' & E & ? & ?); [apply Ha|done|].
        exists q', pq'. split_and!; [done|done|done|]. intros ->. by apply (Hkids i p Hi).
      - destruct (Hpar a x Hx Hu Har') as (q' & pq' & E & ? & ?).
        exists q', pq'. split_and!; [done|done|done|]. intros ->. by apply (Hkids a x Hx). }
    exists q', pq'. by rewrite list_lookup_insert_ne.
  - intros a x Hx. slot_cases; [exact (Hself i p Hi)|]. by apply (Hself a).
  - intros a x Hx Hbx. slot_cases; [destruct Hbx as [Hs _]; discriminate Hs|].
    destruct (Hb a x Hx Hbx) as [Hc Hno (j0 & q0 & Hj0 & Hw)].
    assert (∀ y, parent y = parent p → waits_for a x y = true → False) as Hnot.
    { intros y Ey E%waits_for_parent. assert (a = q) as -> by congruence. by simplify_eq. }
    split; [done| |].
    + intros b y Hy Hwy. slot_cases; [by destruct (Hnot (set_state ZOMBIE p))|]. by apply (Hno b y).
    + exists j0, q0. split; [|done]. rewrite list_lookup_insert_ne; [done|]. intros <-. simplify_eq.
      by destruct (Hnot p).
Qed.

(** A child of [i] is passed to [r], which is woken if the child is a zombie. *)
Lemma tab_ok_adopt r l j p i pi :
  tab_ok r l → l !! j = Some p → parent p = Some i → l !! i = Some pi → ¬ blocked pi →
  (state p = ZOMBIE → ∀ pr, l !! r = Some pr → ¬ blocked pr) →
  tab_ok r (<[j := set_parent (Some r) p]> l).
Proof.
  intros Hl Hj Hp Hi Hbi Hz. pose proof Hl as [Hlen (pr & Hr & Har & Hnr) Hun Hpar Hself Hb].
  assert (r ≠ j) as Hrj by (intros ->; simplify_eq; congruence).
  assert (state p ≠ UNUSED) as Hu by (intros Hu; rewrite (Hun j p Hj Hu) in Hp; done).
  assert (∀ a x, <[j := set_parent (Some r) p]> l !! a = Some x → ∃ y, l !! a = Some y ∧ (alive x ↔ alive y)) as Hback.
  { intros a x Hx. slot_cases; eauto. }
  assert (∀ a x, l !! a = Some x → ∃ y, <[j := set_parent (Some r) p]> l !! a = Some y ∧ (alive x ↔ alive y)) as Hfwd.
  { intros a x Hx. destruct (decide (a = j)) as [->|Hne].
    - exists (set_parent (Some r) p). rewrite list_lookup_insert_eq by (by eapply lookup_lt_Some).
      by simplify_eq.
    - exists x. by rewrite list_lookup_insert_ne. }
  split.
  - by rewrite length_insert.
  - exists pr. by rewrite list_lookup_insert_ne.
  - intros a x Hx. slot_cases; [done|]. by apply (Hun a).
  - intros a x Hx Hux Ha.
    assert (∃ q pq, parent x = Some q ∧ l !! q = Some pq ∧ alive pq) as (q & pq & E & Hq & Haq).
    { slot_cases; [by exists r, pr|by apply (Hpar a)]. }
    destruct (Hfwd q pq Hq) as (y & ? & ?). exists q, y. tauto.
  - intros a x Hx. slot_cases; [simpl; congruence|]. by apply (Hself a).
  - intros a x Hx Hbx.
    assert (∃ x0, l !! a = Some x0 ∧ blocked x0 ∧ blocked_ok l a x) as (x0 & Hx0 & Hbx0 & [Hc Hno (j0 & q & Hj0 & Hw)]).
    { slot_cases.
      - exists p. split_and!; [done|done|]. apply (blocked_ok_same l j p); [done..|]. by apply Hb.
      - exists x. split_and!; [done|done|by apply Hb]. }
    assert (waits_for a x p = false) as Hwp.
    { destruct (waits_for a x p) eqn:E; [|done]. apply waits_for_parent in E.
      assert (a = i) as -> by congruence. by simplify_eq. }
    split; [done| |].
    + intros b y Hy Hwy. apply slot_insert_Some in Hy as [(-> & -> & _)|[_ Hy]]; [|by apply (Hno b)].
      intros Ez. simpl in Ez. pose proof (waits_for_parent _ _ _ Hwy) as E. simpl in E. injection E as <-.
      by apply (Hz Ez x0 Hx0).
    + exists j0, q. split; [|done]. rewrite list_lookup_insert_ne; [done|]. intros <-. simplify_eq. congruence.
Qed.

(** * Processors and the lock *)

Definition runs (l : list proc) (i : nat) : Prop := ∃ p, l !! i = Some p ∧ state p = RUNNING.

(** A processor inside its pass over the table that runs no process. *)
Definition scanning (cs : list cpu) (c : nat) : Prop := ∃ n, cs !! c = Some (Cpu None (Some n)).

Definition on_cpu (cs : list cpu) (c i : nat) : Prop := ∃ x, cs !! c = Some x ∧ cproc x = Some i.

(** Running processes and processors correspond one to one, and the lock is held
    between steps exactly when one processor is scanning the table. *)
Record cpu_ok (l : list proc) (cs : list cpu) (b : bool) : Prop := {
  co_run : ∀ c i, on_cpu cs c i → runs l i;
  co_pass : ∀ c x i, cs !! c = Some x → cproc x = Some i → ∃ n, cursor x = Some n;
  co_excl : ∀ c c' i, on_cpu cs c i → on_cpu cs c' i → c = c';
  co_on : ∀ i, runs l i → ∃ c, on_cpu cs c i;
  co_lock : b = true ↔ ∃ c, scanning cs c;
  co_one : ∀ c c', scanning cs c → scanning cs c' → c = c'
}.

Lemma th_cpu_ok_same l l' cs b :
  (∀ i, runs l' i ↔ runs l i) → cpu_ok l cs b → cpu_ok l' cs b.
Proof.
  intros Hr [H1 H2 H3 H4 H5 H6]. split; try done.
  - intros c i Hc. apply Hr. by apply (H1 c).
  - intros i Hi. apply H4. by apply Hr.
Qed.

Lemma runs_alter l i f j :
  (∀ p, l !! i = Some p → state (f p) = RUNNING ↔ state p = RUNNING) →
  runs (alter f i l) j ↔ runs l j.
Proof.
  intros Hf. unfold runs. destruct (decide (i = j)) as [->|Hne].
  - rewrite list_lookup_alter_eq. destruct (l !! j) as [p|]; simpl; [|naive_solver].
    specialize (Hf p eq_refl). naive_solver.
  - by rewrite list_lookup_alter_ne.
Qed.

Lemma runs_map l f j :
  (∀ p, state (f p) = RUNNING ↔ state p = RUNNING) → runs (f <$> l) j ↔ runs l j.
Proof.
  intros Hf. unfold runs. rewrite list_lookup_fmap.
  destruct (l !! j) as [p|]; simpl; [|naive_solver]. specialize (Hf p). naive_solver.
Qed.

Lemma runs_insert l i p p' j :
  l !! i = Some p → (state p' = RUNNING ↔ state p = RUNNING) → runs (<[i := p']> l) j ↔ runs l j.
Proof.
  intros Hi Hf. rewrite <- (alter_insert (λ _, p') i l p Hi). apply runs_alter. intros. by simplify_eq.
Qed.

(** A slot that stops running. *)
Lemma runs_stop l i f j :
  (∀ p, l !! i = Some p → state (f p) ≠ RUNNING) → runs (alter f i l) j ↔ runs l j ∧ j ≠ i.
Proof.
  intros Hf. unfold runs. destruct (decide (i = j)) as [->|Hne].
  - rewrite list_lookup_alter_eq. destruct (l !! j) as [p|]; simpl; [|naive_solver].
    specialize (Hf p eq_refl). naive_solver.
  - rewrite list_lookup_alter_ne by done. naive_solver.
Qed.

Definition leave (i : nat) (cs : list cpu) : list cpu :=
  (λ c, if decide (cproc c = Some i) then Cpu None (cursor c) else c) <$> cs.

Lemma leave_on cs i c j : on_cpu (leave i cs) c j ↔ on_cpu cs c j ∧ j ≠ i.
Proof.
  unfold on_cpu, leave. rewrite list_lookup_fmap. destruct (cs !! c) as [x|]; simpl; [|naive_solver].
  destruct (decide (cproc x = Some i)); naive_solver.
Qed.

Lemma leave_scanning cs i c :
  (∀ x, cs !! c = Some x → cproc x = Some i → ∃ n, cursor x = Some n) →
  scanning (leave i cs) c ↔ scanning cs c ∨ on_cpu cs c i.
Proof.
  intros Hp. unfold on_cpu, scanning, leave. rewrite list_lookup_fmap.
  destruct (cs !! c) as [x|]; simpl; [|naive_solver].
  destruct (decide (cproc x = Some i)) as [E|E].
  - destruct (Hp x eq_refl E) as [n Hn]. split; [naive_solver|]. intros _. exists n. by rewrite Hn.
  - split; [naive_solver|]. intros [?|(y & [= <-] & ?)]; [done|congruence].
Qed.

(** A process gives up its processor: the scheduler there goes on scanning. *)
Lemma th_cpu_ok_leave l l' cs c i :
  cpu_ok l cs false → on_cpu cs c i → (∀ j, runs l' j ↔ runs l j ∧ j ≠ i) →
  cpu_ok l' (leave i cs) true.
Proof.
  intros [H1 H2 H3 H4 H5 H6] Hc Hr.
  assert (∀ c, ¬ scanning cs c) as Hno by (intros c' Hc'; discriminate (proj2 H5 (ex_intro _ c' Hc'))).
  assert (∀ c, scanning (leave i cs) c ↔ on_cpu cs c i) as Hs.
  { intros c'. rewrite leave_scanning by (intros; by apply (H2 c' x i)). specialize (Hno c'). tauto. }
  split.
  - intros c' j [Hj Hne]%leave_on. apply Hr. split; [by apply (H1 c')|done].
  - intros c' x j Hx Hp. unfold leave in Hx. rewrite list_lookup_fmap in Hx.
    apply fmap_Some in Hx as (y & Hy & ->). destruct (decide _); [done|]. by apply (H2 c' y j).
  - intros c1 c2 j [Ha _]%leave_on [Hb _]%leave_on. by apply (H3 c1 c2 j).
  - intros j [Hj Hne]%Hr. destruct (H4 j Hj) as [c' Hc']. exists c'. by apply leave_on.
  - split; [|done]. intros _. exists c. by apply Hs.
  - intros c1 c2 Ha%Hs Hb%Hs. by apply (H3 c1 c2 i).
Qed.

(** The scanning processor switches to a process. *)
Lemma cpu_ok_dispatch l l' cs c i n :
  cpu_ok l cs true → scanning cs c → ¬ runs l i → (∀ j, runs l' j ↔ runs l j ∨ j = i) →
  cpu_ok l' (<[c := Cpu (Some i) (Some n)]> cs) false ∧ on_cpu (<[c := Cpu (Some i) (Some n)]> cs) c i.
Proof.
  intros [H1 H2 H3 H4 H5 H6] [m Hc] Hni Hr.
  assert (c < length cs)%nat as Hlt by (by eapply lookup_lt_Some).
  assert (∀ c' j, on_cpu (<[c := Cpu (Some i) (Some n)]> cs) c' j ↔
    (c' = c ∧ j = i) ∨ (on_cpu cs c' j)) as Hon.
  { intros c' j. unfold on_cpu. destruct (decide (c' = c)) as [->|Hne].
    - rewrite list_lookup_insert_eq, Hc by done. naive_solver.
    - rewrite list_lookup_insert_ne by done. naive_solver. }
  assert (∀ c', scanning (<[c := Cpu (Some i) (Some n)]> cs) c' → c' ≠ c ∧ scanning cs c') as Hsc.
  { intros c' [k Hk]. destruct (decide (c' = c)) as [->|Hne].
    - rewrite list_lookup_insert_eq in Hk by done. done.
    - rewrite list_lookup_insert_ne in Hk by done. split; [done|]. by exists k. }
  split; [split|apply Hon; auto].
  - intros c' j [[-> ->]|Hj]%Hon; apply Hr; [by right|left; by apply (H1 c')].
  - intros c' x j Hx Hp. apply slot_insert_Some in Hx as [(-> & -> & _)|[_ Hx]]; [eauto|by apply (H2 c' x j)].
  - intros c1 c2 j Ha Hb. apply Hon in Ha as [[-> ->]|Ha], Hb as [[-> ?]|Hb]; subst; try done.
    + destruct Hni. by apply (H1 c2).
    + destruct Hni. by apply (H1 c1).
    + by apply (H3 c1 c2 j).
  - intros j [Hj| ->]%Hr; [|exists c; apply Hon; auto]. destruct (H4 j Hj) as [c' ?]. exists c'. apply Hon. auto.
  - split; [done|]. intros [c' [Hne Hs]%Hsc]. destruct Hne. apply (H6 c' c); [done|by exists m].
  - intros c1 c2 [Hne Hs]%Hsc. destruct Hne. apply (H6 c1 c); [done|by exists m].
Qed.

(** The scanning processor ends its pass; a processor starts one. *)
Lemma idle_on cs c x o c' j :
  cs !! c = Some x → cproc x = None → on_cpu (<[c := Cpu None o]> cs) c' j ↔ on_cpu cs c' j.
Proof.
  intros Hx Hn. assert (c < length cs)%nat as Hlt by (by eapply lookup_lt_Some).
  unfold on_cpu. destruct (decide (c' = c)) as [->|Hne].
  - rewrite list_lookup_insert_eq, Hx by done. naive_solver.
  - by rewrite list_lookup_insert_ne.
Qed.

Lemma cpu_ok_idle l cs b b' c x o :
  cpu_ok l cs b → cs !! c = Some x → cproc x = None →
  (∀ c', scanning (<[c := Cpu None o]> cs) c' → c' = c) →
  (b' = true ↔ scanning (<[c := Cpu None o]> cs) c) →
  cpu_ok l (<[c := Cpu None o]> cs) b'.
Proof.
  intros [H1 H2 H3 H4 H5 H6] Hx Hn Hsc Hb.
  assert (∀ c' j, on_cpu (<[c := Cpu None o]> cs) c' j ↔ on_cpu cs c' j) as Hon
    by (intros; by eapply idle_on).
  split.
  - intros c' j Hj%Hon. by apply (H1 c').
  - intros c' y j Hy Hp. apply slot_insert_Some in Hy as [(-> & -> & _)|[_ Hy]]; [done|by apply (H2 c' y j)].
  - intros c1 c2 j ?%Hon ?%Hon. by apply (H3 c1 c2 j).
  - intros j Hj. destruct (H4 j Hj) as [c' ?]. exists c'. by apply Hon.
  - rewrite Hb. split; [eauto|]. intros [c' Hs]. by destruct (Hsc c' Hs).
  - intros c1 c2 ->%Hsc ->%Hsc. done.
Qed.

Lemma cpu_ok_end l cs c : cpu_ok l cs true → scanning cs c → cpu_ok l (<[c := Cpu None None]> cs) false.
Proof.
  intros Hc [n Hn]. assert (c < length cs)%nat as Hlt by (by eapply lookup_lt_Some).
  apply (cpu_ok_idle l cs true false c _ None Hc Hn eq_refl).
  - intros c' [m Hm]. destruct (decide (c' = c)) as [|Hne]; [done|].
    rewrite list_lookup_insert_ne in Hm by done. apply (co_one _ _ _ Hc); [by exists m|by exists n].
  - split; [done|]. intros [m Hm]. by rewrite list_lookup_insert_eq in Hm.
Qed.

Lemma cpu_ok_start l cs c x :
  cpu_ok l cs false → cs !! c = Some x → cproc x = None → cpu_ok l (<[c := Cpu None (Some 0%nat)]> cs) true.
Proof.
  intros Hc Hx Hn. assert (c < length cs)%nat as Hlt by (by eapply lookup_lt_Some).
  apply (cpu_ok_idle l cs false true c x _ Hc Hx Hn).
  - intros c' [m Hm]. destruct (decide (c' = c)) as [|Hne]; [done|].
    rewrite list_lookup_insert_ne in Hm by done.
    discriminate (proj2 (co_lock _ _ _ Hc) (ex_intro _ c' (ex_intro _ m Hm))).
  - split; [|done]. intros _. exists 0%nat. by rewrite list_lookup_insert_eq.
Qed.

Lemma th_find_proc_Some P l j : find_proc P l = Some j → ∃ p, l !! j = Some p ∧ P p = true.
Proof.
  unfold find_proc. intros ([j' p] & E & ->)%fmap_Some. simpl.
  apply list_find_Some in E as (? & ? & _). eauto.
Qed.

Lemma find_proc_None P l j p : find_proc P l = None → l !! j = Some p → P p = false.
Proof.
  unfold find_proc. intros E%fmap_None Hp. apply list_find_None in E.
  rewrite Forall_lookup in E. specialize (E j p Hp). by destruct (P p).
Qed.

(** * Every operation keeps the invariant *)

Section Inv.
Context {M F : Type} `{MemOps M} `{FileOps F}.
#[local] Abbreviation kern := (kern M F).

Record tinv (r : nat) (k : kern) : Prop := {
  ti_tab : tab_ok r (ptab k);
  ti_cpu : cpu_ok (ptab k) (cpus k) (plocked k);
  ti_init : initproc k = Some r
}.

(** Process [i], running on processor [c], holds the lock. *)
Record held (r : nat) (k : kern) (c i : nat) : Prop := {
  hd_tab : tab_ok r (ptab k);
  hd_cpu : cpu_ok (ptab k) (cpus k) false;
  hd_init : initproc k = Some r;
  hd_lock : plocked k = true;
  hd_on : on_cpu (cpus k) c i
}.

Lemma acquire_inv (k k1 : kern) : acquire k = Ok k1 → plocked k = false ∧ k1 = set_plocked true k.
Proof. unfold acquire. destruct (plocked k); [done|]. by intros [= <-]. Qed.

Lemma held_acquire r (k k1 : kern) c i :
  tinv r k → on_cpu (cpus k) c i → acquire k = Ok k1 → held r k1 c i ∧ k1 = set_plocked true k.
Proof.
  intros [Ht Hc Hi] Hon E. apply acquire_inv in E as [Hl ->]. rewrite Hl in Hc. by split.
Qed.

Lemma held_release r (k : kern) c i :
  held r k c i → release k = Ok (set_plocked false k) ∧ tinv r (set_plocked false k).
Proof. intros [Ht Hc Hi Hl Hon]. unfold release. rewrite Hl. by split. Qed.

Lemma held_release_inv r (k k' : kern) c i : held r k c i → release k = Ok k' → tinv r k'.
Proof. intros Hh E. destruct (held_release r k c i Hh) as [E' ?]. rewrite E' in E. by injection E as <-. Qed.

Lemma held_running r (k : kern) c i : held r k c i → ∃ p, ptab k !! i = Some p ∧ state p = RUNNING.
Proof. intros [Ht Hc _ _ Hon]. by apply (co_run _ _ _ Hc c i). Qed.

Lemma running_alive p : state p = RUNNING → alive p ∧ ¬ blocked p.
Proof. intros E. unfold alive, blocked. rewrite E. split; [done|]. by intros [? _]. Qed.

(** A quiet change of a slot that keeps it running, or not. *)
Definition still (p p' : proc) : Prop := quiet p p' ∧ (state p' = RUNNING ↔ state p = RUNNING).

Lemma tinv_upd r (k : kern) j f :
  tinv r k → (∀ p, ptab k !! j = Some p → still p (f p)) → tinv r (upd j f k).
Proof.
  intros [Ht Hc Hi] Hf. split; [|cbn|done].
  - apply tab_ok_alter; [done|]. intros p Hp. by apply Hf.
  - eapply th_cpu_ok_same; [|done]. intros a. apply runs_alter. intros p Hp. by apply Hf.
Qed.

Lemma tinv_map r (k : kern) f : tinv r k → (∀ p, still p (f p)) → tinv r (map_procs f k).
Proof.
  intros [Ht Hc Hi] Hf. split; [|cbn|done].
  - apply tab_ok_map; [done|]. intros p. by apply Hf.
  - eapply th_cpu_ok_same; [|done]. intros a. apply runs_map. intros p. by apply Hf.
Qed.

Lemma held_upd r (k : kern) c i j f :
  held r k c i → (∀ p, ptab k !! j = Some p → still p (f p)) → held r (upd j f k) c i.
Proof.
  intros [Ht Hc Hi Hl Hon] Hf. split; try done.
  - apply tab_ok_alter; [done|]. intros p Hp. by apply Hf.
  - eapply th_cpu_ok_same; [|done]. intros a. apply runs_alter. intros p Hp. by apply Hf.
Qed.

Lemma held_map r (k : kern) c i f :
  held r k c i → (∀ p, still p (f p)) → held r (map_procs f k) c i.
Proof.
  intros [Ht Hc Hi Hl Hon] Hf. split; try done.
  - apply tab_ok_map; [done|]. intros p. by apply Hf.
  - eapply th_cpu_ok_same; [|done]. intros a. apply runs_map. intros p. by apply Hf.
Qed.

(** Changes of fields other than the state and the family. *)
Lemma still_fields p p' :
  parent p' = parent p → stack p' = stack p → pgdir p' = pgdir p → state p' = state p →
  (state p = SLEEPING → kc p' = kc p ∧ chan p' = chan p) → still p p'.
Proof.
  intros H1 H2 H3 H4 H5. split; [split; [split; try done; by rewrite H4|]|by rewrite H4].
  intros [Hs Hb]. rewrite H4 in Hs. destruct (H5 Hs) as [Hk Hc]. unfold blocked. by rewrite <- Hk.
Qed.

Lemma still_running p p' :
  state p = RUNNING → parent p' = parent p → stack p' = stack p → pgdir p' = pgdir p →
  state p' = state p → still p p'.
Proof. intros Hs ????. apply still_fields; try done. by rewrite Hs. Qed.

Lemma wake_still ch p : still p (wake ch p).
Proof.
  split; [apply th_wake_quiet|]. unfold wake. destruct (decide _) as [[E _]|]; [|done].
  simpl. rewrite E. done.
Qed.

Lemma kill_still p : still p (kill1 p).
Proof.
  split; [apply kill_quiet|]. unfold kill1. simpl. destruct (decide _) as [E|]; [|done].
  simpl. rewrite E. done.
Qed.

(** The end of a blocking or yielding call: the process leaves its processor. *)
Lemma sched_inv r (k : kern) c i f :
  held r k c i → tab_ok r (alter f i (ptab k)) →
  (∀ p, ptab k !! i = Some p → state (f p) ≠ RUNNING) →
  ∃ k', sched (upd i f k) i = Ok k' ∧ tinv r k' ∧ ptab k' = alter f i (ptab k).
Proof.
  intros Hh Ht Hf. pose proof (held_running r k c i Hh) as (p & Hp & Hs).
  destruct Hh as [_ Hc Hi Hl Hon]. unfold sched. cbn [plocked upd set_ptab]. rewrite Hl. cbn [negb].
  unfold getp. cbn [ptab upd set_ptab]. rewrite list_lookup_alter_eq, Hp. simpl default.
  rewrite decide_False by (by apply Hf). eexists. split; [done|]. split; [|done]. split; [done| |done].
  cbn [ptab cpus plocked leave_cpu upd set_ptab set_cpus]. rewrite Hl.
  apply (th_cpu_ok_leave (ptab k) _ (cpus k) c i Hc Hon). intros j. apply runs_stop. done.
Qed.

Lemma sleep_inv r (k : kern) c i ch rk :
  held r k c i →
  (match rk with KWait | KJoin _ => True | _ => False end →
   ∀ p, ptab k !! i = Some p →
     blocked_ok (ptab k) i (set_kc rk (set_state SLEEPING (set_chan (Some ch) p)))) →
  ∃ k', sleep k i ch rk = Ok k' ∧ tinv r k'.
Proof.
  intros Hh Hb. pose proof (held_running r k c i Hh) as (p & Hp & Hs).
  destruct (sched_inv r k c i (set_kc rk ∘ set_state SLEEPING ∘ set_chan (Some ch)) Hh)
    as (k' & E & Hk & _); [|done|eauto].
  apply (tab_ok_sleep r _ i p); [apply Hh|done| |].
  - destruct (running_alive p Hs) as [Ha _]. apply kin_living; done.
  - intros [_ Hbl]. by apply Hb.
Qed.

Lemma yield_inv r (k : kern) c i :
  tinv r k → on_cpu (cpus k) c i → plocked k = false → ∃ k', yield k i = Ok k' ∧ tinv r k'.
Proof.
  intros Hk Hon Hl. unfold yield. destruct (acquire k) as [k1| | |] eqn:E;
    try (unfold acquire in E; by rewrite Hl in E).
  rewrite bind_Ok. destruct (held_acquire r k k1 c i Hk Hon E) as [Hh _].
  destruct (held_running r k1 c i Hh) as (p & Hp & Hs).
  destruct (sched_inv r k1 c i (set_kc KYield ∘ set_state RUNNABLE) Hh) as (k' & ? & ? & _); [|done|eauto].
  apply tab_ok_alter; [apply Hh|]. intros p' Hp'. assert (p' = p) as -> by congruence.
  destruct (running_alive p Hs) as [Ha _]. apply quiet_awake; [|done]. by apply kin_living.
Qed.

(** ** wait and join *)

(** Nobody waiting for a child that exited goes to sleep. *)
Lemma go_blocked r (k : kern) i p ch rk (P : proc → bool) :
  tab_ok r (ptab k) → ch = CProc i →
  (∀ q, waits_for i (set_kc rk (set_state SLEEPING (set_chan (Some ch) p))) q = P q) →
  find_proc (λ q, P q && is_zombie q) (ptab k) = None → existsb P (ptab k) = true →
  blocked_ok (ptab k) i (set_kc rk (set_state SLEEPING (set_chan (Some ch) p))).
Proof.
  intros Ht -> HP Hf Hex. split; [done| |].
  - intros j q Hq Hw Hz. rewrite HP in Hw. pose proof (find_proc_None _ _ j q Hf Hq) as E.
    simpl in E. rewrite Hw in E. unfold is_zombie in E. by rewrite bool_decide_eq_true_2 in E.
  - apply existsb_exists in Hex as (q & Hq & Hw). apply list_elem_of_In, list_elem_of_lookup in Hq as [j Hj].
    exists j, q. by rewrite HP.
Qed.

(** Reaping a zombie, and the return of the system call. *)
Lemma held_reap r (k : kern) c i j q n :
  held r k c i → ptab k !! j = Some q → state q = ZOMBIE →
  held r (upd i (sys_return n) (upd j reap k)) c i.
Proof.
  intros Hh Hj Hz. pose proof (held_running r k c i Hh) as (p & Hp & Hs).
  assert (j ≠ i) as Hne by (intros ->; congruence).
  apply held_upd.
  - destruct Hh as [Ht Hc Hi Hl Hon].
    split; try done; cbn [ptab upd set_ptab cpus]; rewrite (alter_insert _ _ _ q Hj).
    + apply (tab_ok_free r _ j q); [done|done|by right|done|done].
    + eapply th_cpu_ok_same; [|done]. intros a. apply (runs_insert _ _ q); [done|]. simpl. by rewrite Hz.
  - intros p' Hp'. cbn [ptab upd set_ptab] in Hp'. rewrite list_lookup_alter_ne in Hp' by done.
    assert (p' = p) as -> by congruence. by apply still_running.
Qed.

Lemma held_return r (k : kern) c i n : held r k c i → held r (upd i (sys_return n) k) c i.
Proof.
  intros Hh. apply held_upd; [done|]. intros p' Hp'.
  pose proof (held_running r k c i Hh) as (p & Hp & Hs). assert (p' = p) as -> by congruence.
  by apply still_running.
Qed.

Lemma held_mm r (k : kern) c i m : held r k c i → held r (set_mm m k) c i.
Proof. by intros [? ? ? ? ?]. Qed.

Lemma wait_iter_inv r (k k' : kern) c i o :
  held r k c i → wait_iter k i = Ok (o, k') → tinv r k'.
Proof.
  intros Hh. unfold wait_iter. destruct (find_proc _ _) as [j|] eqn:Ef.
  - intros E. inv_ok. simplify_eq. apply th_find_proc_Some in Ef as (q & Hq & [_ Hz]%andb_true_iff).
    apply bool_decide_eq_true in Hz. eapply held_release_inv; [|done].
    apply (held_reap r (set_mm _ k) c i j q); [by apply held_mm|done|done].
  - destruct (negb _ || _) eqn:Eo; intros E; inv_ok; simplify_eq.
    + eapply held_release_inv; [|done]. by apply held_return.
    + apply orb_false_iff in Eo as [Eo _]. apply negb_false_iff in Eo.
      destruct (sleep_inv r k c i (CProc i) KWait Hh) as (k2 & E2 & ?); [|congruence].
      intros _ p Hp. apply (go_blocked r k i p _ _ (is_child i)); [apply Hh|done|done|done|done].
Qed.

Lemma join_iter_inv r (k k' : kern) c i res o :
  held r k c i → join_iter k i res = Ok (o, k') → tinv r k'.
Proof.
  intros Hh. unfold join_iter. destruct (find_proc _ _) as [j|] eqn:Ef.
  - intros E. inv_ok. simplify_eq. apply th_find_proc_Some in Ef as (q & Hq & [_ Hz]%andb_true_iff).
    apply bool_decide_eq_true in Hz. eapply held_release_inv; [|done].
    apply (held_reap r (set_mm _ k) c i j q); [by apply held_mm|done|done].
  - destruct (negb _ || _) eqn:Eo; intros E; inv_ok; simplify_eq.
    + eapply held_release_inv; [|done]. by apply held_return.
    + apply orb_false_iff in Eo as [Eo _]. apply negb_false_iff in Eo.
      destruct (sleep_inv r k c i (CProc i) (KJoin res) Hh) as (k2 & E2 & ?); [|congruence].
      intros _ p Hp. apply (go_blocked r k i p _ _ (is_thread i (pgdir p)));
        [apply Hh|done|done| |]; unfold getp in *; rewrite Hp in *; done.
Qed.

Lemma wait_inv r (k k' : kern) c i o :
  tinv r k → on_cpu (cpus k) c i → wait k i = Ok (o, k') → tinv r k'.
Proof.
  intros Hk Hon E. unfold wait in E. inv_ok. destruct (held_acquire r k x c i Hk Hon E0) as [Hh _].
  by eapply wait_iter_inv.
Qed.

Lemma join_inv r (k k' : kern) c i res o :
  tinv r k → on_cpu (cpus k) c i → join k i res = Ok (o, k') → tinv r k'.
Proof.
  intros Hk Hon E. unfold join in E. inv_ok. destruct (held_acquire r k x c i Hk Hon E0) as [Hh _].
  by eapply join_iter_inv.
Qed.

Lemma tinv_running r (k : kern) c i :
  tinv r k → on_cpu (cpus k) c i → ∃ p, ptab k !! i = Some p ∧ state p = RUNNING.
Proof. intros Hk Hon. by apply (co_run _ _ _ (ti_cpu r k Hk) c i). Qed.

Lemma tinv_return r (k : kern) c i n :
  tinv r k → on_cpu (cpus k) c i → tinv r (upd i (sys_return n) k).
Proof.
  intros Hk Hon. apply tinv_upd; [done|]. intros p' Hp'.
  destruct (tinv_running r k c i Hk Hon) as (p & Hp & Hs). assert (p' = p) as -> by congruence.
  by apply still_running.
Qed.

Lemma sleep_iter_inv r (k : kern) c i n t0 :
  tinv r k → on_cpu (cpus k) c i → plocked k = false →
  ∃ o k', sleep_iter k i n t0 = Ok (o, k') ∧ tinv r k'.
Proof.
  intros Hk Hon Hl. unfold sleep_iter. destruct (_ <? _).
  2:{ eexists _, _. split; [done|]. by eapply tinv_return. }
  destruct (killed _).
  { eexists _, _. split; [done|]. by eapply tinv_return. }
  destruct (acquire k) as [k1| | |] eqn:E; try (unfold acquire in E; by rewrite Hl in E).
  rewrite bind_Ok. destruct (held_acquire r k k1 c i Hk Hon E) as [Hh _].
  destruct (sleep_inv r k1 c i CTicks (KTicks n t0) Hh) as (k2 & -> & ?); [done|].
  rewrite bind_Ok. eauto.
Qed.

(** ** The scheduler *)

Lemma resume_inv r (k k' : kern) c i :
  held r k c i → resume k i = Ok k' → tinv r k'.
Proof.
  intros Hh. pose proof (held_running r k c i Hh) as (p & Hp & Hs).
  assert (∀ f, (∀ p, parent (f p) = parent p ∧ stack (f p) = stack p ∧ pgdir (f p) = pgdir p
    ∧ state (f p) = state p) → held r (upd i f k) c i) as Hu.
  { intros f Hf. apply held_upd; [done|]. intros p' Hp'. assert (p' = p) as -> by congruence.
    destruct (Hf p) as (? & ? & ? & ?). by apply still_running. }
  unfold resume. destruct (kc (getp k i)) as [| | | |res|n t0|]; intros E.
  - by eapply held_release_inv.
  - eapply held_release_inv; [|done]. by apply Hu.
  - eapply held_release_inv; [|done]. by apply Hu.
  - inv_ok. eapply wait_iter_inv; [|done]. by apply Hu.
  - inv_ok. eapply join_iter_inv; [|done]. by apply Hu.
  - destruct (held_release r (upd i (set_chan None) k) c i) as [Er Hk]; [by apply Hu|].
    rewrite Er, bind_Ok in E. inv_ok.
    destruct (sleep_iter_inv r (set_plocked false (upd i (set_chan None) k)) c i n t0 Hk)
      as (o' & k2 & E2 & ?); [apply Hh|done|]. rewrite E2 in E0. by injection E0 as <- <-.
  - eapply held_release_inv; [|done]. by apply Hu.
Qed.

Lemma next_runnable_spec (k : kern) n i :
  next_runnable k n = Some i →
  (n <= i)%nat ∧ (∃ p, ptab k !! i = Some p ∧ state p = RUNNABLE).
Proof.
  unfold next_runnable. intros (j & Ej & ->)%fmap_Some.
  apply th_find_proc_Some in Ej as (p & Hp & Hr%bool_decide_eq_true).
  rewrite lookup_drop in Hp. split; [lia|eauto].
Qed.

Lemma scheduler_inv r (k k' : kern) c x :
  tinv r k → cpus k !! c = Some x → cproc x = None → scheduler k c = Ok k' → tinv r k'.
Proof.
  intros [Ht Hc Hi] Hx Hn. unfold scheduler. rewrite Hx. simpl. destruct x as [o [n|]]; simpl in *; subst.
  - assert (scanning (cpus k) c) as Hsc by (by exists n).
    assert (plocked k = true) as Hl by (apply (co_lock _ _ _ Hc); eauto). rewrite Hl in Hc.
    destruct (next_runnable k n) as [i|] eqn:En; intros E.
    + apply next_runnable_spec in En as (_ & p & Hp & Hr).
      destruct (cpu_ok_dispatch (ptab k) (alter (set_state RUNNING) i (ptab k)) (cpus k) c i (S i) Hc Hsc)
        as [Hc' Hon].
      { intros (p' & Hp' & Hs). congruence. }
      { intros j. unfold runs. destruct (decide (i = j)) as [->|Hne].
        - rewrite list_lookup_alter_eq, Hp. simpl. naive_solver.
        - rewrite list_lookup_alter_ne by done. naive_solver. }
      eapply resume_inv; [|done]. split; [|done|done|done|done].
      apply tab_ok_alter; [done|]. intros p' Hp'. simpl in Hp'. assert (p' = p) as -> by congruence.
      apply quiet_awake; [|done]. apply kin_living; try done. split; congruence.
    + unfold release in E. cbn in E. rewrite Hl in E. injection E as <-. split; [done| |done].
      by apply cpu_ok_end.
  - intros E. inv_ok. apply acquire_inv in E0 as [Hl ->]. split; [done| |done].
    rewrite Hl in Hc. by eapply cpu_ok_start.
Qed.

(** ** Creating processes and threads *)

#[local] Ltac kcbn :=
  cbn [ptab plocked cpus nextpid ticks initproc mm fs_ upd map_procs set_ptab set_plocked set_cpus
    set_nextpid set_ticks set_initproc set_mm set_fs_].

(** What [allocproc] does to the table. *)
Record fresh (k : kern) (j : nat) (p p' : proc) (k1 : kern) : Prop := {
  fr_slot : ptab k !! j = Some p;
  fr_unused : state p = UNUSED;
  fr_state : state p' = EMBRYO;
  fr_parent : parent p' = parent p;
  fr_stack : stack p' = 0;
  fr_kc : kc p' = KForkret;
  fr_pid : pid p' = nextpid k;
  fr_ofile : ofile p' = ofile p;
  fr_ptab : ptab k1 = <[j := p']> (ptab k);
  fr_cpus : cpus k1 = cpus k;
  fr_lock : plocked k1 = false;
  fr_init : initproc k1 = initproc k;
  fr_fs : fs_ k1 = fs_ k
}.

Lemma alter_twice {A} (f g : A → A) i (l : list A) : alter f i (alter g i l) = alter (f ∘ g) i l.
Proof.
  apply list_eq. intros j. destruct (decide (i = j)) as [->|Hne].
  - rewrite !list_lookup_alter_eq. by destruct (l !! j).
  - by rewrite !list_lookup_alter_ne.
Qed.

Lemma th_allocproc_spec (k k1 : kern) o :
  allocproc k = Ok (o, k1) →
  plocked k = false ∧ cpus k1 = cpus k ∧ plocked k1 = false ∧ initproc k1 = initproc k ∧
  match o with
  | Some j => ∃ p p', fresh k j p p' k1
  | None => ptab k1 = ptab k ∨ ∃ j p p', ptab k !! j = Some p ∧ state p = UNUSED ∧ state p' = UNUSED
      ∧ parent p' = parent p ∧ ptab k1 = <[j := p']> (ptab k)
  end.
Proof.
  unfold allocproc. intros E. inv_ok. apply acquire_inv in E0 as [Hl ->]. split; [done|].
  destruct (find_proc _ _) as [j|] eqn:Ef.
  - apply th_find_proc_Some in Ef as (p & Hp & Hu%bool_decide_eq_true). simpl in Hp. inv_ok.
    unfold release in E0. simpl in E0. injection E0 as <-.
    destruct (_ =? 0) in E; inv_ok; simplify_eq; kcbn.
    + rewrite !alter_twice, (alter_insert _ _ _ p Hp). split_and!; try done. right. eexists j, p, _. split_and!; [done|done| | |done]; done.
    + split_and!; try done.
      eexists p, (set_kc KForkret (set_kstack _ (set_stack 0 (set_pid (nextpid k) (set_state EMBRYO p))))).
      split; try done. kcbn. rewrite !alter_twice, (alter_insert _ _ _ p Hp). done.
  - unfold release in E. simpl in E. inv_ok. simplify_eq. simpl. auto.
Qed.

Lemma tinv_free r (k k1 : kern) j p p' :
  tinv r k → ptab k !! j = Some p → state p = UNUSED → state p' = UNUSED → parent p' = parent p →
  ptab k1 = <[j := p']> (ptab k) → cpus k1 = cpus k → plocked k1 = plocked k →
  initproc k1 = initproc k → tinv r k1.
Proof.
  intros [Ht Hc Hi] Hp Hu Hu' Hpp E1 E2 E3 E4. split; rewrite ?E1, ?E2, ?E3, ?E4; [|..|done].
  - apply (tab_ok_free r _ j p); try done; [by left|]. rewrite Hpp. by apply (to_unused r _ Ht j).
  - eapply th_cpu_ok_same; [|done]. intros a. apply (runs_insert _ _ p); [done|]. by rewrite Hu, Hu'.
Qed.

Lemma tinv_child r (k k1 : kern) c i j p p' :
  tinv r k → on_cpu (cpus k) c i → ptab k !! j = Some p → state p = UNUSED →
  state p' = EMBRYO ∨ state p' = RUNNABLE → parent p' = Some i →
  ptab k1 = <[j := p']> (ptab k) → cpus k1 = cpus k → plocked k1 = plocked k →
  initproc k1 = initproc k → tinv r k1.
Proof.
  intros Hk Hon Hp Hu Hs' Hpp E1 E2 E3 E4. destruct (tinv_running r k c i Hk Hon) as (pi & Hpi & Hrun).
  destruct (running_alive pi Hrun) as [Ha Hb]. destruct Hk as [Ht Hc Hi].
  split; rewrite ?E1, ?E2, ?E3, ?E4; [|..|done].
  - apply (tab_ok_child r _ j p p' i pi); try done; [split; destruct Hs'; congruence|intros [? _]; destruct Hs'; congruence].
  - eapply th_cpu_ok_same; [|done]. intros a. apply (runs_insert _ _ p); [done|]. rewrite Hu.
    split; [destruct Hs'; congruence|done].
Qed.

Lemma alloc_failed r (k k1 : kern) : tinv r k → allocproc k = Ok (None, k1) → tinv r k1.
Proof.
  intros Hk E. destruct (th_allocproc_spec k k1 None E) as (Hl & Ec & El & Ei & Ho).
  destruct Ho as [Et|(j & p & p' & Hp & Hu & Hu' & Hpp & Et)].
  - destruct Hk as [Ht Hc Hi]. split; rewrite ?Et, ?Ec, ?El, ?Ei; try done. by rewrite <- Hl.
  - apply (tinv_free r k k1 j p p'); congruence || done.
Qed.

Lemma fork_inv r (k k' : kern) c i n :
  tinv r k → on_cpu (cpus k) c i → fork k i = Ok (n, k') → tinv r k'.
Proof.
  intros Hk Hon. unfold fork. intros E. apply bind_Ok_inv in E as ([o k1] & Ea & E).
  destruct o as [j|]; [|injection E as <- <-; by eapply alloc_failed].
  destruct (th_allocproc_spec k k1 (Some j) Ea) as (Hl & Ec & El & Ei & p & p' & [Hp Hu Hs Hpp Hst Hkc _ _ Et _ _ _ _]).
  assert (j < length (ptab k))%nat as Hlt by (by eapply lookup_lt_Some).
  apply bind_Ok_inv in E as ([d m] & _ & E).
  destruct (_ =? 0).
  - inv_ok. simplify_eq. eapply (tinv_free r k _ j p); [done|done|done| | |kcbn; rewrite Et, !alter_twice,
      (alter_insert _ _ _ p') by (by apply list_lookup_insert_eq); apply list_insert_insert_eq|kcbn; congruence..]; done.
  - inv_ok. simplify_eq. apply acquire_inv in E2 as [_ ->]. unfold release in E3. simpl in E3. injection E3 as <-.
    eapply (tinv_child r k _ c i j p); [done|done|done|done| | |kcbn; rewrite Et, !alter_twice,
      (alter_insert _ _ _ p') by (by apply list_lookup_insert_eq); apply list_insert_insert_eq|kcbn; congruence..]; [by right|done].
Qed.

Lemma clone_inv r (k k' : kern) c i ust fcn a1 a2 stk n :
  tinv r k → on_cpu (cpus k) c i → clone k i ust fcn a1 a2 stk = Ok (n, k') → tinv r k'.
Proof.
  intros Hk Hon. unfold clone. destruct (negb _); [by intros [= <- <-]|].
  destruct (_ <? _); [by intros [= <- <-]|]. intros E. apply bind_Ok_inv in E as ([o k1] & Ea & E).
  destruct o as [j|]; [|injection E as <- <-; by eapply alloc_failed].
  destruct (th_allocproc_spec k k1 (Some j) Ea) as (Hl & Ec & El & Ei & p & p' & [Hp Hu Hs Hpp Hst Hkc _ _ Et _ _ _ _]).
  assert (j < length (ptab k))%nat as Hlt by (by eapply lookup_lt_Some).
  apply bind_Ok_inv in E as ([d m] & _ & E).
  destruct (_ <? _).
  - injection E as <- <-. eapply (tinv_child r k _ c i j p); [done|done|done|done| | |kcbn; rewrite Et,
      (alter_insert _ _ _ p') by (by apply list_lookup_insert_eq); apply list_insert_insert_eq|kcbn; congruence..];
      [by left|done].
  - inv_ok. simplify_eq. apply acquire_inv in E2 as [_ ->]. unfold release in E3. simpl in E3. injection E3 as <-.
    eapply (tinv_child r k _ c i j p); [done|done|done|done| | |kcbn; rewrite Et, !alter_twice,
      (alter_insert _ _ _ p') by (by apply list_lookup_insert_eq); apply list_insert_insert_eq|kcbn; congruence..]; [by right|done].
Qed.

(** ** exit *)

Lemma wake_unblocks r l a x :
  tab_ok r l → (wake (CProc a) <$> l) !! a = Some x → ¬ blocked x.
Proof.
  intros Hl. rewrite list_lookup_fmap. intros (y & Hy & ->)%fmap_Some Hb.
  destruct (qt_blocked _ _ (th_wake_quiet (CProc a) y) Hb) as (Hb' & _ & _).
  pose proof (bo_chan _ _ _ (to_blocked r l Hl a y Hy Hb')) as Hc. destruct Hb' as [Hs _].
  destruct Hb as [Hs' _]. unfold wake in Hs'. rewrite decide_True in Hs' by done. done.
Qed.

Lemma wake_not_blocked ch p : ¬ blocked p → ¬ blocked (wake ch p).
Proof. intros Hn Hb. by destruct (qt_blocked _ _ (th_wake_quiet ch p) Hb) as (? & _ & _). Qed.

Lemma wake_adopt ch v (j : nat) (l : list proc) :
  wake ch <$> alter (set_parent v) j l = alter (set_parent v) j (wake ch <$> l).
Proof.
  apply list_eq. intros a. rewrite list_lookup_fmap. destruct (decide (j = a)) as [->|Hne].
  - rewrite !list_lookup_alter_eq, list_lookup_fmap. destruct (l !! a) as [p|]; [|done]. simpl.
    unfold wake. simpl. by destruct (decide _).
  - by rewrite !list_lookup_alter_ne, list_lookup_fmap.
Qed.

(** The caller of [exit] after its parent [q] was woken. *)
Record dying (r : nat) (k : kern) (c i q : nat) : Prop := {
  dy_held : held r k c i;
  dy_parent : parent (getp k i) = Some q;
  dy_awake : ∃ pq, ptab k !! q = Some pq ∧ ¬ blocked pq
}.

Lemma getp_some (k : kern) j p : ptab k !! j = Some p → getp k j = p.
Proof. unfold getp. by intros ->. Qed.

Lemma dying_wake r (k : kern) c i q ch : dying r k c i q → dying r (wakeup1 ch k) c i q.
Proof.
  intros [Hh Hp (pq & Hq & Hb)]. destruct (held_running r k c i Hh) as (p & Hi & Hs).
  split; [apply held_map; [done|apply wake_still]| |].
  - rewrite (getp_some k i p Hi) in Hp. rewrite (getp_some _ i (wake ch p)).
    + unfold wake. by destruct (decide _).
    + cbn. by rewrite list_lookup_fmap, Hi.
  - exists (wake ch pq). cbn. rewrite list_lookup_fmap, Hq. split; [done|]. by apply wake_not_blocked.
Qed.

Lemma dying_adopt r (k : kern) c i q j p :
  dying r k c i q → ptab k !! j = Some p → parent p = Some i →
  (state p = ZOMBIE → ∀ pr, ptab k !! r = Some pr → ¬ blocked pr) →
  dying r (upd j (set_parent (Some r)) k) c i q.
Proof.
  intros [Hh Hp (pq & Hq & Hb)] Hj Hpj Hz. destruct (held_running r k c i Hh) as (pi & Hi & Hs).
  destruct (running_alive pi Hs) as [_ Hbi].
  assert (j ≠ i) as Hne by (intros ->; by apply (to_self r _ (hd_tab _ _ _ _ Hh) i p Hj)).
  split.
  - destruct Hh as [Ht Hc Hin Hl Hon]. split; try done; cbn; rewrite (alter_insert _ _ _ p Hj).
    + by apply (tab_ok_adopt r _ j p i pi).
    + eapply th_cpu_ok_same; [|done]. intros a. by apply (runs_insert _ _ p).
  - rewrite (getp_some k i pi Hi) in Hp. rewrite (getp_some _ i pi); [done|].
    cbn. by rewrite list_lookup_alter_ne.
  - cbn. destruct (decide (j = q)) as [->|Hjq].
    + exists (set_parent (Some r) p). rewrite list_lookup_alter_eq, Hj. split; [done|].
      assert (pq = p) as -> by congruence. done.
    + exists pq. by rewrite list_lookup_alter_ne.
Qed.

Definition not_child (k : kern) (i j : nat) : Prop := parent (getp k j) ≠ Some i.

Lemma getp_upd (k : kern) j f a : getp (upd j f k) a = if decide (a = j) then
  match ptab k !! j with Some p => f p | None => null_proc end else getp k a.
Proof.
  unfold getp. cbn. destruct (decide (a = j)) as [->|Hne].
  - rewrite list_lookup_alter_eq. by destruct (ptab k !! j).
  - by rewrite list_lookup_alter_ne.
Qed.

Lemma wakeup1_parent ch (k : kern) a : parent (getp (wakeup1 ch k) a) = parent (getp k a).
Proof.
  unfold getp. cbn. rewrite list_lookup_fmap. destruct (ptab k !! a) as [p|]; [|done].
  simpl. unfold wake. by destruct (decide _).
Qed.

(** One round of the loop. *)
Lemma adopt_spec r (k : kern) c i q j :
  dying r k c i q → i ≠ r → parent (getp k j) = Some i →
  let k1 := upd j (set_parent (initproc k)) k in
  let k2 := if decide (state (getp k1 j) = ZOMBIE)
            then match initproc k1 with Some r => wakeup1 (CProc r) k1 | None => k1 end else k1 in
  dying r k2 c i q ∧ ∀ a, parent (getp k2 a) = if decide (a = j) then Some r else parent (getp k a).
Proof.
  intros Hd Hir Hp. pose proof (hd_init _ _ _ _ (dy_held _ _ _ _ _ Hd)) as Hi. cbn zeta.
  destruct (ptab k !! j) as [p|] eqn:Hj; [|unfold getp in Hp; by rewrite Hj in Hp].
  rewrite (getp_some k j p Hj) in Hp.
  rewrite (getp_some (upd j (set_parent (initproc k)) k) j (set_parent (initproc k) p))
    by (cbn; by rewrite list_lookup_alter_eq, Hj).
  change (initproc (upd j _ k)) with (initproc k). rewrite Hi.
  assert (∀ a, parent (getp (upd j (set_parent (Some r)) k) a)
    = if decide (a = j) then Some r else parent (getp k a)) as Hpar.
  { intros a. rewrite getp_upd. destruct (decide (a = j)); [by rewrite Hj|done]. }
  destruct (decide (state (set_parent (Some r) p) = ZOMBIE)) as [Hz|Hz].
  - split; [|intros a; by rewrite wakeup1_parent].
    assert (wakeup1 (CProc r) (upd j (set_parent (Some r)) k)
      = upd j (set_parent (Some r)) (wakeup1 (CProc r) k)) as ->.
    { unfold wakeup1, map_procs, upd, set_ptab. cbn. f_equal. apply wake_adopt. }
    pose proof (dying_wake r k c i q (CProc r) Hd) as Hd'.
    apply (dying_adopt r _ c i q j (wake (CProc r) p)); [done| | |].
    + cbn. by rewrite list_lookup_fmap, Hj.
    + unfold wake. destruct (decide _); done.
    + intros _ pr Hpr. apply (wake_unblocks r (ptab k) r); [apply Hd|done].
  - split; [|done]. by apply (dying_adopt r _ c i q j p).
Qed.

Lemma reparent_spec r c i q js : ∀ k : kern,
  dying r k c i q → i ≠ r →
  dying r (reparent k i js) c i q
  ∧ ∀ j, j ∈ js ∨ not_child k i j → not_child (reparent k i js) i j.
Proof.
  induction js as [|j js IH]; intros k Hd Hir; simpl.
  { split; [done|]. intros j [Hj|Hj]; [set_solver|done]. }
  destruct (decide (parent (getp k j) = Some i)) as [E|E].
  - destruct (adopt_spec r k c i q j Hd Hir E) as [Hd' Hpar]. cbn zeta in Hd', Hpar.
    destruct (IH _ Hd' Hir) as [Hd'' Hn]. split; [done|].
    intros a Ha. apply Hn. unfold not_child in *. rewrite Hpar.
    destruct (decide (a = j)) as [->|Hne]; [right; congruence|].
    destruct Ha as [[?|?]%elem_of_cons|?]; [done|by left|by right].
  - destruct (IH k Hd Hir) as [Hd' Hn]. split; [done|]. intros a Ha. apply Hn.
    destruct Ha as [[->|?]%elem_of_cons|?]; [by right|by left|by right].
Qed.

Lemma exit_inv r (k k' : kern) c i :
  tinv r k → on_cpu (cpus k) c i → exit k i = Ok k' → tinv r k'.
Proof.
  intros Hk Hon. unfold exit. destruct (decide _) as [|Hi]; [done|]. intros E. inv_ok.
  assert (i ≠ r) as Hir by (rewrite (ti_init r k Hk) in Hi; congruence).
  destruct (tinv_running r k c i Hk Hon) as (p & Hp & Hs).
  assert (tinv r (upd i (λ p, set_cwd 0 (set_ofile (replicate NOFILE 0) p)) (set_fs_ x0 k))) as Hk1.
  { apply (tinv_upd r (set_fs_ x0 k)); [by destruct Hk; split|].
    intros p' Hp'. simpl in Hp'. assert (p' = p) as -> by congruence. by apply still_running. }
  destruct (held_acquire r _ x1 c i Hk1 Hon E2) as [Hh _].
  destruct (held_running r x1 c i Hh) as (p1 & Hp1 & Hs1).
  destruct (to_parent r _ (hd_tab _ _ _ _ Hh) i p1 Hp1) as (q & pq & Hpq & Hq & _); [congruence|done|].
  assert (dying r (wake_parent i x1) c i q) as Hd.
  { unfold wake_parent. rewrite (getp_some x1 i p1 Hp1), Hpq. split.
    - apply held_map; [done|apply wake_still].
    - by rewrite wakeup1_parent, (getp_some x1 i p1 Hp1).
    - exists (wake (CProc q) pq). cbn. rewrite list_lookup_fmap, Hq. split; [done|].
      apply (wake_unblocks r (ptab x1) q); [apply Hh|]. by rewrite list_lookup_fmap, Hq. }
  destruct (reparent_spec r c i q (seq 0 NPROC) _ Hd Hir) as [[Hh' Hp' (pq' & Hq' & Hb')] Hn].
  destruct (held_running r _ c i Hh') as (p2 & Hp2 & Hs2). destruct (running_alive p2 Hs2) as [Ha2 _].
  destruct (sched_inv r _ c i (set_state ZOMBIE) Hh') as (k2 & E2' & Hk2 & _); [|done|congruence].
  rewrite (alter_insert _ _ _ p2 Hp2). rewrite (getp_some _ i p2 Hp2) in Hp'.
  apply (tab_ok_bury r _ i p2 q pq'); try done; [apply Hh'|].
  intros j y Hy. rewrite <- (getp_some _ j y Hy). apply Hn. left. apply elem_of_seq.
  apply lookup_lt_Some in Hy. rewrite (to_len r _ (hd_tab _ _ _ _ Hh')) in Hy. lia.
Qed.

(** ** The other operations *)

Lemma kill_inv r (k : kern) n :
  tinv r k → plocked k = false → ∃ v k', kill k n = Ok (v, k') ∧ tinv r k'.
Proof.
  intros Hk Hl. unfold kill, acquire. rewrite Hl, bind_Ok. cbn [ptab set_plocked].
  destruct (find_proc _ _) as [j|]; unfold release; cbn.
  - eexists _, _. split; [done|]. pose proof (tinv_upd r k j kill1 Hk ltac:(intros; apply kill_still)) as [? ? ?].
    split; try done. cbn in *. by rewrite Hl in *.
  - eexists _, _. split; [done|]. destruct Hk. split; try done. cbn. by rewrite Hl in *.
Qed.

Lemma wakeup_inv r (k : kern) ch :
  tinv r k → plocked k = false → ∃ k', wakeup ch k = Ok k' ∧ tinv r k'.
Proof.
  intros Hk Hl. unfold wakeup, acquire. rewrite Hl, bind_Ok. unfold release. cbn.
  eexists. split; [done|]. pose proof (tinv_map r k (wake ch) Hk (wake_still ch)) as [? ? ?].
  split; try done. cbn in *. by rewrite Hl in *.
Qed.

Lemma timer_inv r (k : kern) : tinv r k → plocked k = false → ∃ k', timer_tick k = Ok k' ∧ tinv r k'.
Proof. intros [? ? ?] Hl. by apply wakeup_inv. Qed.

Lemma growproc_inv r (k k' : kern) c i n v :
  tinv r k → on_cpu (cpus k) c i → growproc k i n = Ok (v, k') → tinv r k'.
Proof.
  intros Hk Hon.
  assert (∀ m s, tinv r (map_procs (share_sz i (pgdir (getp k i)) s) (upd i (set_sz s) (set_mm m k)))) as Hfin.
  { intros m s. apply tinv_map.
    - apply tinv_upd; [by destruct Hk; split|]. intros p _. by apply still_fields.
    - intros p. unfold share_sz. destruct (_ && _); by apply still_fields. }
  assert (∀ m, tinv r (set_mm m k)) as Hm by (intros m; by destruct Hk; split).
  unfold growproc. destruct (0 <? n); [|destruct (n <? 0)].
  - intros E. inv_ok. destruct (_ =? 0) in E; by injection E as <- <-.
  - intros E. inv_ok. destruct (_ =? 0) in E; by injection E as <- <-.
  - intros [= <- <-]. specialize (Hfin (mm k) (sz (getp k i))). by destruct k.
Qed.

End Inv.
