(* ===== verification/ThreadsThm.v ===== *)
(** Runs of the processes and threads of Threads: the step relation, the
    round-robin order, and the theorems. *)

From Stdlib Require Import ZArith Lia.
From stdpp Require Import base numbers list gmap sets strings relations.
From S2P Require Import Prelude CStr Mmu Mem Kalloc Vm VmSpec VmUser MemIface KernBase.
From S2P Require Import Threads ThreadsSpec.
#[local] Open Scope Z_scope.

(** * Runs *)

Section Run.
Context {M F : Type} `{MemOps M} `{FileOps F}.
#[local] Abbreviation kern := (kern M F).

(** One step of the machine.  [Some c] labels a step of [scheduler] on processor
    [c]; the other steps are calls of a running process and the timer. *)
Inductive tkstep : option nat → kern → kern → Prop :=
| ts_scheduler k k' c x : cpus k !! c = Some x → cproc x = None → scheduler k c = Ok k' →
    tkstep (Some c) k k'
| ts_yield k k' c i : on_cpu (cpus k) c i → yield k i = Ok k' → tkstep None k k'
| ts_wait k k' c i o : on_cpu (cpus k) c i → wait k i = Ok (o, k') → tkstep None k k'
| ts_join k k' c i res o : on_cpu (cpus k) c i → sys_join k i res = Ok (o, k') → tkstep None k k'
| ts_fork k k' c i n : on_cpu (cpus k) c i → fork k i = Ok (n, k') → tkstep None k k'
| ts_clone k k' c i ust fcn a1 a2 stk n : on_cpu (cpus k) c i →
    sys_clone k i ust fcn a1 a2 stk = Ok (n, k') → tkstep None k k'
| ts_exit k k' c i : on_cpu (cpus k) c i → exit k i = Ok k' → tkstep None k k'
| ts_kill k k' n v : kill k n = Ok (v, k') → tkstep None k k'
| ts_sbrk k k' c i n v : on_cpu (cpus k) c i → sys_sbrk k i n = Ok (v, k') → tkstep None k k'
| ts_sleep k k' c i n o : on_cpu (cpus k) c i → sys_sleep k i n = Ok (o, k') → tkstep None k k'
| ts_block k k1 k' c i a : on_cpu (cpus k) c i → acquire k = Ok k1 →
    sleep k1 i (CAddr a) KOther = Ok k' → tkstep None k k'
| ts_wakeup k k' a : wakeup (CAddr a) k = Ok k' → tkstep None k k'
| ts_timer k k' : timer_tick k = Ok k' → tkstep None k k'.

Definition tkany (k k' : kern) : Prop := ∃ a, tkstep a k k'.

Lemma acquire_unlocked (k k1 : kern) : acquire k = Ok k1 → plocked k = false.
Proof. intros E. by apply acquire_inv in E as [? _]. Qed.

Lemma tkstep_inv r a (k k' : kern) : tinv r k → tkstep a k k' → tinv r k'.
Proof.
  intros Hk Hst. destruct Hst as [k k' c x Hx Hn E|k k' c i Hc E|k k' c i o Hc E|k k' c i res o Hc E
    |k k' c i n Hc E|k k' c i ust fcn a1 a2 stk n Hc E|k k' c i Hc E|k k' n v E|k k' c i n v Hc E
    |k k' c i n o Hc E|k k1 k' c i a Hc E1 E|k k' a E|k k' E].
  - by eapply scheduler_inv.
  - assert (plocked k = false) as Hl by (unfold yield in E; inv_ok; by eapply acquire_unlocked).
    destruct (yield_inv r k c i Hk Hc Hl) as (k2 & ? & ?). congruence.
  - by eapply wait_inv.
  - unfold sys_join in E. destruct (argptr_ok _ _ _); [by eapply join_inv|].
    injection E as <- <-. by eapply tinv_return.
  - by eapply fork_inv.
  - unfold sys_clone in E. destruct (_ && _); [by eapply clone_inv|]. by injection E as <- <-.
  - by eapply exit_inv.
  - assert (plocked k = false) as Hl by (unfold kill in E; inv_ok; by eapply acquire_unlocked).
    destruct (kill_inv r k n Hk Hl) as (? & k2 & ? & ?). congruence.
  - unfold sys_sbrk in E. inv_ok. destruct (_ <? _) in E; injection E as <- <-; by eapply growproc_inv.
  - unfold sys_sleep in E. destruct (plocked k) eqn:Hl.
    + unfold sleep_iter in E. destruct (_ <? _).
      * destruct (killed _); [injection E as <- <-; by eapply tinv_return|].
        inv_ok. apply acquire_unlocked in E0. congruence.
      * injection E as <- <-. by eapply tinv_return.
    + destruct (sleep_iter_inv r k c i n (ticks k) Hk Hc Hl) as (? & k2 & E2 & ?).
      rewrite E2 in E. by injection E as <- <-.
  - destruct (held_acquire r k k1 c i Hk Hc E1) as [Hh _].
    destruct (sleep_inv r k1 c i (CAddr a) KOther Hh) as (k2 & ? & ?); [done|congruence].
  - assert (plocked k = false) as Hl by (unfold wakeup in E; inv_ok; by eapply acquire_unlocked).
    destruct (wakeup_inv r k (CAddr a) Hk Hl) as (k2 & ? & ?). congruence.
  - assert (plocked k = false) as Hl.
    { unfold timer_tick, wakeup in E. inv_ok. by apply acquire_unlocked in E0. }
    destruct (timer_inv r k Hk Hl) as (k2 & ? & ?). congruence.
Qed.

(** The machine after [userinit], before a processor enters [scheduler]. *)
Record booted (r : nat) (k : kern) : Prop := {
  bt_len : length (ptab k) = NPROC;
  bt_init : ∃ p, ptab k !! r = Some p ∧ state p = RUNNABLE ∧ parent p = None;
  bt_rest : ∀ i p, ptab k !! i = Some p → i ≠ r → state p = UNUSED ∧ parent p = None;
  bt_cpus : ∀ c x, cpus k !! c = Some x → x = Cpu None None;
  bt_lock : plocked k = false;
  bt_initproc : initproc k = Some r
}.

Lemma booted_inv r k : booted r k → tinv r k.
Proof.
  intros [Hlen (p & Hp & Hs & Hn) Hrest Hcpu Hl Hi].
  assert (∀ i q, ptab k !! i = Some q → (i = r ∧ q = p) ∨ state q = UNUSED ∧ parent q = None) as Hall.
  { intros i q Hq. destruct (decide (i = r)) as [->|Hne]; [left; split; [done|congruence]|right; eauto]. }
  split; [split|split|done]; try done.
  - exists p. split_and!; [done| |done]. split; congruence.
  - intros i q Hq. by destruct (Hall i q Hq) as [[-> ->]|[]].
  - intros i q Hq Hu Hne. destruct (Hall i q Hq) as [[-> ->]|[]]; congruence.
  - intros i q Hq. destruct (Hall i q Hq) as [[-> ->]|[]]; congruence.
  - intros i q Hq [Hsl _]. destruct (Hall i q Hq) as [[-> ->]|[]]; congruence.
  - intros c i (x & Hx & Hc). rewrite (Hcpu c x Hx) in Hc. done.
  - intros c x i Hx Hc. rewrite (Hcpu c x Hx) in Hc. done.
  - intros c c' i (x & Hx & Hc). rewrite (Hcpu c x Hx) in Hc. done.
  - intros i (q & Hq & Hr). destruct (Hall i q Hq) as [[-> ->]|[]]; congruence.
  - rewrite Hl. split; [done|]. intros (c & n & Hx). apply Hcpu in Hx. done.
  - intros c c' [n Hx]. apply Hcpu in Hx. done.
Qed.

Lemma run_inv r k0 k : booted r k0 → rtc tkany k0 k → tinv r k.
Proof.
  intros Hb Hr. eapply (rtc_invariant tkany); [|by apply booted_inv|done].
  intros a b Ha [l Hs]. by eapply tkstep_inv.
Qed.
(** * The round-robin order *)

Definition cursors (k : kern) : list (option nat) := cursor <$> cpus k.

(** Only [scheduler] moves a cursor. *)
Lemma leave_cursors i (k : kern) : cursors (leave_cpu i k) = cursors k.
Proof.
  unfold cursors, leave_cpu. cbn. rewrite <- list_fmap_compose. apply list_fmap_ext.
  intros _ x _. simpl. by destruct (decide _).
Qed.

Lemma sched_cursors (k k' : kern) i : sched k i = Ok k' → cursors k' = cursors k.
Proof.
  unfold sched. destruct (negb _); [done|]. destruct (decide _); [done|].
  intros [= <-]. apply leave_cursors.
Qed.

Lemma acquire_cursors (k k' : kern) : acquire k = Ok k' → cursors k' = cursors k.
Proof. by intros [_ ->]%acquire_inv. Qed.

Lemma release_cursors (k k' : kern) : release k = Ok k' → cursors k' = cursors k.
Proof. unfold release. destruct (plocked k); [|done]. by intros [= <-]. Qed.

Lemma sleep_cursors (k k' : kern) i ch rk : sleep k i ch rk = Ok k' → cursors k' = cursors k.
Proof. unfold sleep. by intros ->%sched_cursors. Qed.

#[local] Ltac cur :=
  repeat match goal with
  | E : acquire _ = Ok _ |- _ => apply acquire_cursors in E
  | E : release _ = Ok _ |- _ => apply release_cursors in E
  | E : sched _ _ = Ok _ |- _ => apply sched_cursors in E
  | E : sleep _ _ _ _ = Ok _ |- _ => apply sleep_cursors in E
  end; unfold cursors in *; cbn in *; congruence.

Lemma wait_iter_cursors (k k' : kern) i o : wait_iter k i = Ok (o, k') → cursors k' = cursors k.
Proof.
  unfold wait_iter. destruct (find_proc _ _); [|destruct (_ || _)]; intros E; inv_ok; simplify_eq; cur.
Qed.

Lemma join_iter_cursors (k k' : kern) i res o :
  join_iter k i res = Ok (o, k') → cursors k' = cursors k.
Proof.
  unfold join_iter. destruct (find_proc _ _); [|destruct (_ || _)]; intros E; inv_ok; simplify_eq; cur.
Qed.

Lemma sleep_iter_cursors (k k' : kern) i n t o :
  sleep_iter k i n t = Ok (o, k') → cursors k' = cursors k.
Proof.
  unfold sleep_iter. destruct (_ <? _); [destruct (killed _)|]; intros E; inv_ok; simplify_eq; cur.
Qed.

Lemma resume_cursors (k k' : kern) i : resume k i = Ok k' → cursors k' = cursors k.
Proof.
  unfold resume, forkret. destruct (kc _); intros E; inv_ok; try cur.
  - by apply wait_iter_cursors in E0.
  - by apply join_iter_cursors in E0.
  - apply sleep_iter_cursors in E1. cur.
Qed.

Lemma allocproc_cursors (k k' : kern) o : allocproc k = Ok (o, k') → cursors k' = cursors k.
Proof. intros E. unfold cursors. by apply th_allocproc_spec in E as (_ & -> & _). Qed.

Lemma fork_cursors (k k' : kern) i n : fork k i = Ok (n, k') → cursors k' = cursors k.
Proof.
  unfold fork. intros E. apply bind_Ok_inv in E as ([[j|] k1] & Ea & E); apply allocproc_cursors in Ea.
  - apply bind_Ok_inv in E as ([d m] & _ & E). destruct (_ =? _); inv_ok; simplify_eq; cur.
  - injection E as <- <-. done.
Qed.

Lemma clone_cursors (k k' : kern) i ust fcn a1 a2 stk n :
  clone k i ust fcn a1 a2 stk = Ok (n, k') → cursors k' = cursors k.
Proof.
  unfold clone. destruct (negb _); [by intros [= <- <-]|]. destruct (_ <? _); [by intros [= <- <-]|].
  intros E. apply bind_Ok_inv in E as ([[j|] k1] & Ea & E); apply allocproc_cursors in Ea.
  - apply bind_Ok_inv in E as ([d m] & _ & E). destruct (_ <? _); inv_ok; simplify_eq; cur.
  - injection E as <- <-. done.
Qed.

Lemma reparent_cursors i js : ∀ k : kern, cursors (reparent k i js) = cursors k.
Proof.
  induction js as [|j js IH]; intros k; simpl; [done|]. destruct (decide _); rewrite IH; [|done].
  destruct (decide _); [|done]. by destruct (initproc _).
Qed.

Lemma upd_cursors i f (k : kern) : cursors (upd i f k) = cursors k.
Proof. done. Qed.

Lemma wake_parent_cursors i (k : kern) : cursors (wake_parent i k) = cursors k.
Proof. unfold wake_parent. by destruct (parent _). Qed.

Lemma exit_cursors (k k' : kern) i : exit k i = Ok k' → cursors k' = cursors k.
Proof.
  unfold exit. destruct (decide _); [done|]. intros E. inv_ok. apply sched_cursors in E.
  apply acquire_cursors in E2. by rewrite E, upd_cursors, reparent_cursors, wake_parent_cursors, E2.
Qed.

Lemma other_cursors (k k' : kern) : tkstep None k k' → cursors k' = cursors k.
Proof.
  inversion 1 as [|? ? c i _ E|? ? c i o _ E|? ? c i res o _ E|? ? c i n _ E|? ? c i ust fcn a1 a2 stk n _ E
    |? ? c i _ E|? ? n v E|? ? c i n v _ E|? ? c i n o _ E|? k1 ? c i a _ E1 E|? ? a E|? ? E]; subst.
  - unfold yield in E. inv_ok. cur.
  - unfold wait in E. inv_ok. apply wait_iter_cursors in E. cur.
  - unfold sys_join in E. destruct (argptr_ok _ _ _).
    + unfold join in E. inv_ok. apply join_iter_cursors in E. cur.
    + by injection E as <- <-.
  - by eapply fork_cursors.
  - unfold sys_clone in E. destruct (_ && _); [by eapply clone_cursors|]. by injection E as <- <-.
  - by eapply exit_cursors.
  - unfold kill in E. inv_ok. destruct (find_proc _ _); inv_ok; simplify_eq; cur.
  - unfold sys_sbrk, growproc in E. inv_ok.
    assert (cursors k0 = cursors k) as Hc.
    { destruct (0 <? n); [|destruct (n <? 0)]; inv_ok; try (destruct (_ =? 0) in E0); by simplify_eq. }
    destruct (_ <? _) in E; by simplify_eq.
  - unfold sys_sleep in E. by eapply sleep_iter_cursors.
  - cur.
  - unfold wakeup in E. inv_ok. cur.
  - unfold timer_tick, wakeup in E. inv_ok. cur.
Qed.

Definition runnable (k : kern) (i : nat) : Prop :=
  ∃ p, ptab k !! i = Some p ∧ state p = RUNNABLE.

(** How many rounds processor [c] can pass over slot [i] from here. *)
Definition dist (k : kern) (c i : nat) : nat :=
  match cursors k !! c with
  | Some (Some n) => if (n <=? i)%nat then i - n else NPROC - n + i + 2
  | Some None => i + 1
  | None => 0
  end.

Lemma sched_state (k k' : kern) i j : sched k j = Ok k' → getp k' i = getp k i.
Proof. unfold sched. destruct (negb _); [done|]. destruct (decide _); [done|]. by intros [= <-]. Qed.

Lemma release_state (k k' : kern) i : release k = Ok k' → getp k' i = getp k i.
Proof. unfold release. destruct (plocked k); [|done]. by intros [= <-]. Qed.

Lemma sleep_state (k k' : kern) i ch rk :
  (i < length (ptab k))%nat → sleep k i ch rk = Ok k' → state (getp k' i) = SLEEPING.
Proof.
  intros [p Hp]%lookup_lt_is_Some. unfold sleep. intros E%(sched_state _ _ i). rewrite E.
  by rewrite getp_upd, decide_True, Hp.
Qed.

(** The process that was switched to is not runnable when the step ends. *)
Definition awake_or_asleep (k : kern) (i : nat) : Prop :=
  state (getp k i) = RUNNING ∨ state (getp k i) = SLEEPING.

Lemma reaped_state (k k' : kern) i j p q n m :
  ptab k !! i = Some p → state p = RUNNING → ptab k !! j = Some q → state q = ZOMBIE →
  release (upd i (sys_return n) (upd j reap (set_mm m k))) = Ok k' → state (getp k' i) = RUNNING.
Proof.
  intros Hp Hs Hq Hz E. rewrite (release_state _ _ i E), getp_upd, decide_True by done.
  cbn [ptab upd set_ptab set_mm]. rewrite list_lookup_alter_ne by (intros ->; congruence). by rewrite Hp.
Qed.

Lemma returned_state (k k' : kern) i p n :
  ptab k !! i = Some p → state p = RUNNING →
  release (upd i (sys_return n) k) = Ok k' → state (getp k' i) = RUNNING.
Proof.
  intros Hp Hs E. by rewrite (release_state _ _ i E), getp_upd, decide_True, Hp.
Qed.

Lemma wait_iter_state (k k' : kern) i p o :
  ptab k !! i = Some p → state p = RUNNING → wait_iter k i = Ok (o, k') → awake_or_asleep k' i.
Proof.
  intros Hp Hs. unfold wait_iter. destruct (find_proc _ _) as [j|] eqn:Ef; [|destruct (_ || _)];
    intros E; inv_ok; simplify_eq.
  - apply th_find_proc_Some in Ef as (q & Hq & [_ Hz%bool_decide_eq_true]%andb_true_iff).
    left. by eapply reaped_state.
  - left. by eapply returned_state.
  - right. eapply sleep_state; [by eapply lookup_lt_Some|done].
Qed.

Lemma join_iter_state (k k' : kern) i p res o :
  ptab k !! i = Some p → state p = RUNNING → join_iter k i res = Ok (o, k') → awake_or_asleep k' i.
Proof.
  intros Hp Hs. unfold join_iter. destruct (find_proc _ _) as [j|] eqn:Ef; [|destruct (_ || _)];
    intros E; inv_ok; simplify_eq.
  - apply th_find_proc_Some in Ef as (q & Hq & [_ Hz%bool_decide_eq_true]%andb_true_iff).
    left. by eapply reaped_state.
  - left. by eapply returned_state.
  - right. eapply sleep_state; [by eapply lookup_lt_Some|done].
Qed.

Lemma resume_state (k k' : kern) i p :
  ptab k !! i = Some p → state p = RUNNING → resume k i = Ok k' → awake_or_asleep k' i.
Proof.
  intros Hp Hs. assert (∀ f, ptab (upd i f k) !! i = Some (f p)) as Hu.
  { intros f. cbn. by rewrite list_lookup_alter_eq, Hp. }
  unfold resume, forkret. destruct (kc _) as [| | | |res|n t|]; intros E; inv_ok.
  - left. by rewrite (release_state _ _ i E), (getp_some k i p Hp).
  - left. by rewrite (release_state _ _ i E), (getp_some _ i _ (Hu _)).
  - left. by rewrite (release_state _ _ i E), (getp_some _ i _ (Hu _)).
  - by apply (wait_iter_state (upd i (set_chan None) k) _ i (set_chan None p) _ (Hu _) Hs E0).
  - by apply (join_iter_state (upd i (set_chan None) k) _ i (set_chan None p) _ _ (Hu _) Hs E0).
  - apply (release_state _ _ i) in E0 as Eg. rewrite (getp_some _ i _ (Hu _)) in Eg.
    assert (ptab x !! i = Some (set_chan None p)) as Hx.
    { unfold release in E0. destruct (plocked _) in E0; [|done]. injection E0 as <-. apply Hu. }
    unfold sleep_iter in E1. destruct (_ <? _); [destruct (killed _)|]; inv_ok; simplify_eq.
    + left. by rewrite getp_upd, decide_True, Hx.
    + right. apply acquire_inv in E as [_ ->]. eapply sleep_state; [|done]. by eapply lookup_lt_Some.
    + left. by rewrite getp_upd, decide_True, Hx.
  - left. by rewrite (release_state _ _ i E), (getp_some _ i _ (Hu _)).
Qed.

(** The pass finds the first runnable slot at or after its position. *)
Lemma next_runnable_first (k : kern) n i :
  (n <= i)%nat → runnable k i → ∃ j, next_runnable k n = Some j ∧ (n <= j <= i)%nat.
Proof.
  intros Hn (p & Hp & Hs). unfold next_runnable, find_proc.
  assert (drop n (ptab k) !! (i - n)%nat = Some p) as Hd.
  { rewrite lookup_drop. by replace (n + (i - n))%nat with i by lia. }
  assert (is_runnable p = true) as Hr by (by apply bool_decide_eq_true).
  destruct (list_find _ _) as [[j q]|] eqn:E.
  - exists (n + j)%nat. split; [done|]. apply list_find_Some in E as (Hj & _ & Hmin).
    destruct (decide (i - n < j)%nat) as [Hlt|]; [|lia]. by destruct (Hmin (i - n)%nat p Hd Hlt).
  - apply list_find_None in E. rewrite Forall_lookup in E. by destruct (E _ _ Hd).
Qed.

Lemma round_other c c' (k k' : kern) :
  c' ≠ c → tkstep (Some c') k k' → cursors k' !! c = cursors k !! c.
Proof.
  intros Hne. inversion 1 as [? ? ? x Hx Hn E| | | | | | | | | | | |]; subst.
  assert (∀ y, cursors (set_cpus (<[c' := y]> (cpus k)) k) !! c = cursors k !! c) as Hc.
  { intros y. unfold cursors. cbn. by rewrite !list_lookup_fmap, list_lookup_insert_ne by done. }
  unfold scheduler in E. rewrite Hx in E. simpl in E. destruct (cursor x) as [n|].
  - destruct (next_runnable k n) as [i|].
    + apply resume_cursors in E. by rewrite E, upd_cursors.
    + apply release_cursors in E. by rewrite E.
  - inv_ok. apply acquire_inv in E0 as [_ ->]. apply Hc.
Qed.

(** Every round of processor [c] that leaves a runnable process waiting brings
    the cursor closer to it. *)
Lemma round_closer r c i (k k' : kern) :
  tinv r k → tkstep (Some c) k k' → runnable k i → runnable k' i → (dist k' c i < dist k c i)%nat.
Proof.
  intros Hk Hst Hi Hi'. inversion Hst as [? ? ? x Hx Hn E| | | | | | | | | | | |]; subst.
  assert (c < length (cpus k))%nat as Hlt by (by eapply lookup_lt_Some).
  assert (i < NPROC)%nat as HiN.
  { destruct Hi as (p & Hp & _). apply lookup_lt_Some in Hp. by rewrite (to_len r _ (ti_tab r k Hk)) in Hp. }
  assert (∀ y, cursors (set_cpus (<[c := y]> (cpus k)) k) !! c = Some (cursor y)) as Hc.
  { intros y. unfold cursors. cbn. by rewrite list_lookup_fmap, list_lookup_insert_eq. }
  assert (cursors k !! c = Some (cursor x)) as Hcx by (unfold cursors; by rewrite list_lookup_fmap, Hx).
  unfold dist at 2. rewrite Hcx. unfold scheduler in E. rewrite Hx in E. simpl in E.
  destruct (cursor x) as [n|].
  - destruct (next_runnable k n) as [j|] eqn:En.
    + pose proof (next_runnable_spec k n j En) as (Hnj & p & Hp & Hs).
      assert (j < NPROC)%nat as HjN.
      { apply lookup_lt_Some in Hp. by rewrite (to_len r _ (ti_tab r k Hk)) in Hp. }
      assert (j ≠ i) as Hji.
      { intros ->. apply (resume_state _ _ i (set_state RUNNING p)) in E;
          [|cbn; by rewrite list_lookup_alter_eq, Hp|done].
        destruct Hi' as (p' & Hp' & Hs'). unfold awake_or_asleep in E. rewrite (getp_some k' i p' Hp') in E.
        rewrite Hs' in E. by destruct E. }
      apply resume_cursors in E. unfold dist. rewrite E, upd_cursors, Hc. cbn [cursor].
      destruct (Nat.leb_spec n i) as [Hni|Hni].
      * destruct (next_runnable_first k n i Hni Hi) as (j' & E' & Hj'). assert (j' = j) as -> by congruence.
        destruct (Nat.leb_spec (S j) i); lia.
      * destruct (Nat.leb_spec (S j) i); lia.
    + destruct (Nat.leb_spec n i) as [Hni|Hni].
      { destruct (next_runnable_first k n i Hni Hi) as (j' & E' & _). congruence. }
      apply release_cursors in E. unfold dist. rewrite E, Hc. cbn [cursor]. lia.
  - inv_ok. apply acquire_inv in E0 as [_ ->]. unfold dist.
    unfold cursors. cbn. rewrite list_lookup_fmap, list_lookup_insert_eq by done. simpl. lia.
Qed.

(** Process [i] stays runnable during a run with [n] rounds of processor [c]. *)
Inductive passed_over (c i : nat) : nat → kern → kern → Prop :=
| po_refl k : runnable k i → passed_over c i 0 k k
| po_step a n k k' k'' : runnable k i → tkstep a k k' → passed_over c i n k' k'' →
    passed_over c i (if decide (a = Some c) then S n else n) k k''.

Lemma passed_over_dist r c i n k k' : tinv r k → passed_over c i n k k' → (n <= dist k c i)%nat.
Proof.
  intros Hk Hp. induction Hp as [|a n k k1 k' Hi Hst Hp IH]; [lia|].
  specialize (IH (tkstep_inv r a k k1 Hk Hst)).
  assert (runnable k1 i) as Hi1 by (by destruct Hp).
  destruct (decide (a = Some c)) as [->|Hne].
  - pose proof (round_closer r c i k k1 Hk Hst Hi Hi1). lia.
  - assert (cursors k1 !! c = cursors k !! c) as Ec.
    { destruct a as [c'|]; [apply (round_other c c'); congruence|by rewrite (other_cursors k k1)]. }
    unfold dist in *. by rewrite Ec in IH.
Qed.

Lemma dist_bound (k : kern) c i : (i < NPROC)%nat → (dist k c i <= NPROC + 1)%nat.
Proof.
  intros Hi. unfold dist. destruct (cursors k !! c) as [[n|]|]; [destruct (Nat.leb_spec n i)|..]; lia.
Qed.

End Run.

(** * Closed examples: one processor, the reference ledgers *)

Definition demo_empty : kern mledger ledger :=
  Kern (replicate NPROC null_proc) false [Cpu None None] 1 0 None (MLedger ∅ ∅ 1) ([], []).

Definition demo_booted : kern mledger ledger :=
  Eval vm_compute in match userinit 0 44 demo_empty with Ok k => k | _ => demo_empty end.

Lemma th_demo_userinit : userinit 0 44 demo_empty = Ok demo_booted.
Proof. vm_compute. reflexivity. Qed.

Lemma th_demo_is_booted : booted 0 demo_booted.
Proof.
  split; [reflexivity| | | |reflexivity|reflexivity].
  - eexists. split_and!; reflexivity.
  - intros i p Hp Hi. assert (Forall (λ p, state p = UNUSED ∧ parent p = None) (tail (ptab demo_booted))) as HF.
    { repeat constructor. }
    destruct i as [|i]; [done|]. rewrite Forall_lookup in HF. apply (HF i). rewrite <- Hp. reflexivity.
  - intros [|c] x Hx; [|done]. by injection Hx as <-.
Qed.

(** Results of the closed runs below. *)
Definition get_k {A} (r : outcome (A * kern mledger ledger)) : kern mledger ledger :=
  match r with Ok (_, k) => k | _ => demo_empty end.
Definition get_k1 (r : outcome (kern mledger ledger)) : kern mledger ledger :=
  match r with Ok k => k | _ => demo_empty end.

(** The first process runs, forks, and waits. *)
Definition demo_pass : kern mledger ledger := Eval vm_compute in get_k1 (scheduler demo_booted 0).
Definition demo_init : kern mledger ledger := Eval vm_compute in get_k1 (scheduler demo_pass 0).
Definition demo_forked : kern mledger ledger := Eval vm_compute in get_k (fork demo_init 0).
Definition demo_waiting : kern mledger ledger := Eval vm_compute in get_k (wait demo_forked 0).
(** The child runs and grows; it creates a thread on its second page. *)
Definition demo_child : kern mledger ledger := Eval vm_compute in get_k1 (scheduler demo_waiting 0).
Definition demo_big : kern mledger ledger := Eval vm_compute in get_k (sys_sbrk demo_child 1 8192).
Definition demo_threaded : kern mledger ledger :=
  Eval vm_compute in get_k (sys_clone demo_big 1 0 100 4 8 4096).

Lemma demo_run : rtc tkany demo_booted demo_waiting.
Proof.
  apply (rtc_l _ _ demo_pass); [exists (Some 0%nat); eapply ts_scheduler; vm_compute; reflexivity|].
  apply (rtc_l _ _ demo_init); [exists (Some 0%nat); eapply ts_scheduler; vm_compute; reflexivity|].
  apply (rtc_l _ _ demo_forked).
  { exists None. apply (ts_fork _ _ 0 0 2); [by eexists|vm_compute; reflexivity]. }
  apply rtc_once. exists None. apply (ts_wait _ _ 0 0 None); [by eexists|vm_compute; reflexivity].
Qed.

Lemma demo_run2 : rtc tkany demo_waiting demo_big.
Proof.
  apply (rtc_l _ _ demo_child); [exists (Some 0%nat); eapply ts_scheduler; vm_compute; reflexivity|].
  apply rtc_once. exists None. apply (ts_sbrk _ _ 0 1 8192 4096); [by eexists|vm_compute; reflexivity].
Qed.

Lemma demo_big_inv : tinv 0 demo_big.
Proof. apply (run_inv 0 demo_booted); [apply th_demo_is_booted|]. etrans; [apply demo_run|apply demo_run2]. Qed.

(** * Properties *)

(** C14.  Nobody waits in vain.  In every run from the booted machine, under any
    interleaving of the processors: a process asleep in [wait] or [join] has a
    child (for [join], a thread of its address space) that it waits for and that
    is alive, and none that has already exited, so no exit is missed; the parent of
    every process is alive, or the process is the first one; running processes
    and processors correspond one to one; and the table lock is held between
    steps exactly when one processor is inside its scheduling pass. *)
Theorem wait_join_no_lost_wakeup {M F} `{MemOps M} `{FileOps F} (r : nat) (k0 k : kern M F) :
  booted r k0 → rtc tkany k0 k →
  (∀ i p, ptab k !! i = Some p → blocked p →
     (∀ j q, ptab k !! j = Some q → waits_for i p q = true → alive q)
     ∧ ∃ j q, ptab k !! j = Some q ∧ waits_for i p q = true)
  ∧ (∀ i p, ptab k !! i = Some p → state p ≠ UNUSED → i ≠ r →
       ∃ q pq, parent p = Some q ∧ ptab k !! q = Some pq ∧ alive pq)
  ∧ (∀ i, runs (ptab k) i ↔ ∃ c, on_cpu (cpus k) c i)
  ∧ (∀ c c' i, on_cpu (cpus k) c i → on_cpu (cpus k) c' i → c = c')
  ∧ (plocked k = true ↔ ∃ c, scanning (cpus k) c)
  ∧ (plocked k = false → ∀ c i, on_cpu (cpus k) c i →
       (∃ k', yield k i = Ok k') ∧ ∀ n, ∃ o k', sys_sleep k i n = Ok (o, k')).
Proof.
  intros Hb Hr. pose proof (run_inv r k0 k Hb Hr) as Hk. pose proof Hk as [Ht Hc Hi]. split_and!.
  - intros i p Hp Hbl. destruct (to_blocked r _ Ht i p Hp Hbl) as [_ Hno Hs]. split; [|done].
    intros j q Hq Hw. split; [|by apply (Hno j)]. intros Hu.
    apply waits_for_parent in Hw. rewrite (to_unused r _ Ht j q Hq Hu) in Hw. done.
  - apply (to_parent r _ Ht).
  - intros i. split; [apply (co_on _ _ _ Hc)|]. intros [c ?]. by apply (co_run _ _ _ Hc c).
  - apply (co_excl _ _ _ Hc).
  - apply (co_lock _ _ _ Hc).
  - intros Hl c i Hon. split.
    + destruct (yield_inv r k c i Hk Hon Hl) as (k' & ? & _). eauto.
    + intros n. destruct (sleep_iter_inv r k c i n (ticks k) Hk Hon Hl) as (o & k' & ? & _). eauto.
Qed.

(** C14 in the run where the first process forks and waits for its child. *)
Lemma wait_join_no_lost_wakeup_witness :
  state (getp demo_waiting 0) = SLEEPING
  ∧ ∃ j q, ptab demo_waiting !! j = Some q ∧ waits_for 0 (getp demo_waiting 0) q = true.
Proof.
  split; [reflexivity|].
  destruct (wait_join_no_lost_wakeup 0 demo_booted demo_waiting th_demo_is_booted demo_run) as [Hb _].
  apply (Hb 0%nat (getp demo_waiting 0)); [reflexivity|split; [reflexivity|exact I]].
Defined.

(** C15.  Bounded waiting under round robin.  In any run, a process that stays
    runnable is passed over by a processor in at most 65 rounds of its scheduler
    ([NPROC] + 1), whatever the other processors and processes do meanwhile: then
    it has been switched to, here or on another processor. *)
Theorem runnable_waits_bounded {M F} `{MemOps M} `{FileOps F} (r c i n : nat) (k0 k k' : kern M F) :
  booted r k0 → rtc tkany k0 k → passed_over c i n k k' → (n <= NPROC + 1)%nat.
Proof.
  intros Hb Hr Hp. pose proof (run_inv r k0 k Hb Hr) as Hk.
  etrans; [by eapply passed_over_dist|]. apply dist_bound.
  assert (runnable k i) as (p & Hpi & _) by (by destruct Hp).
  apply lookup_lt_Some in Hpi. by rewrite (to_len r _ (ti_tab r k Hk)) in Hpi.
Qed.

(** C15 on the first two rounds of a processor, before the first process runs. *)
Lemma runnable_waits_bounded_witness :
  passed_over 0 0 1 demo_booted demo_pass ∧ (1 <= NPROC + 1)%nat.
Proof.
  assert (passed_over 0 0 1 demo_booted demo_pass) as Hp.
  { apply (po_step 0 0 (Some 0%nat) 0 demo_booted demo_pass demo_pass).
    - eexists. split; reflexivity.
    - eapply ts_scheduler; vm_compute; reflexivity.
    - apply po_refl. eexists. split; reflexivity. }
  split; [exact Hp|].
  apply (runnable_waits_bounded 0 0 0 1 demo_booted demo_booted demo_pass th_demo_is_booted (rtc_refl _ _) Hp).
Defined.

(** ** clone on the page-table memory *)

Section Clone.
Context {F : Type} `{FL : FileLaws F fholds} (kend kdata : Z) (Hkend : KERNLINK <= kend).
#[local] Existing Instance kst_ops.
#[local] Instance the_ops : MemOps kst := kst_ops kend kdata.

(** The caller: a running process, with the array [user_stack] of the call on its
    kernel stack at [ust]. *)
Record caller (k : kern kst F) (own : gmap Z role) (i : nat) (cur : proc) (ust : Z)
    (L C : list Z) : Prop := {
  ca_slot : ptab k !! i = Some cur;
  ca_state : state cur = RUNNING;
  ca_lock : plocked k = false;
  ca_space : space_inv kend (mm k) own;
  ca_dir : own !! pgdir cur = Some Dir;
  ca_size : sz cur <= KERNBASE;
  ca_stack : own !! kstack cur = Some Priv ∧ kstack cur <= ust ∧ ust + 12 <= kstack cur + 4096;
  ca_files : fholds (fs_ k) L C ∧ (∀ x, x ∈ open_files (ofile cur) → x ∈ L) ∧ cwd cur ∈ C
}.

(** What the new thread starts with. *)
Record started (k k' : kern kst F) (own : gmap Z role) (i j : nat) (cur : proc)
    (fcn a1 a2 stk : Z) (p : proc) : Prop := {
  st_ptab : ptab k' = <[j := p]> (ptab k);
  st_state : state p = RUNNABLE;
  st_pid : pid p = nextpid k;
  st_parent : parent p = Some i;
  st_pgdir : pgdir p = pgdir cur;
  st_sz : sz p = sz cur;
  st_stack : stack p = stk;
  st_tf : tf p = set_eax 0 (set_eip fcn (set_esp (stk + 4084) (set_ebp (stk + 4084) (tf cur))));
  st_kstack : own !! kstack p = Some Free ∧ space_inv kend (mm k') (<[kstack p := Priv]> own);
  st_frame : user_word (ram (mm k')) (pgdir cur) (stk + 4084) = 4294967295
    ∧ user_word (ram (mm k')) (pgdir cur) (stk + 4088) = a1
    ∧ user_word (ram (mm k')) (pgdir cur) (stk + 4092) = a2;
  st_rest : ∀ a, user_va a → mapped (pte_at (ram (mm k)) (pgdir cur) a) = true →
    ¬ (stk + 4084 <= a < stk + 4096) →
    user_byte (ram (mm k')) (pgdir cur) a = user_byte (ram (mm k)) (pgdir cur) a
}.

Lemma find_unused_ne (k : kern kst F) i j cur :
  ptab k !! i = Some cur → state cur = RUNNING → find_proc is_unused (ptab k) = Some j → j ≠ i.
Proof.
  intros Hi Hs Hf ->. apply th_find_proc_Some in Hf as (p & Hp & Hu%bool_decide_eq_true). congruence.
Qed.

Lemma clone_spec (k : kern kst F) own i j cur ust L C fcn a1 a2 stk :
  caller k own i cur ust L C → find_proc is_unused (ptab k) = Some j →
  stk mod 4096 = 0 → 0 <= stk → stk + 4096 <= sz cur →
  user_ok (pte_at (ram (mm k)) (pgdir cur) stk) = true → is_u32 a1 → is_u32 a2 →
  (kalloc (mm k) = Ok (0, mm k) ∧ ∃ k', clone k i ust fcn a1 a2 stk = Ok (-1, k'))
  ∨ ∃ k' p, clone k i ust fcn a1 a2 stk = Ok (nextpid k, k')
      ∧ started k k' own i j cur fcn a1 a2 stk p
      ∧ fholds (fs_ k') (open_files (ofile cur) ++ L) (cwd cur :: C).
Proof using FL Hkend.
  intros [Hi Hs Hl Hinv Hd Hsz (Hks & Hu1 & Hu2) (Hf & HL & HC)] Hfind Hal Hpos Hfit Hok Ha1 Ha2.
  pose proof (find_unused_ne k i j cur Hi Hs Hfind) as Hne.
  apply th_find_proc_Some in Hfind as Hj. destruct Hj as (q & Hq & _).
  assert (KERNBASE = 2147483648) as Hkb by reflexivity.
  unfold clone. rewrite (getp_some k i cur Hi). unfold PGSIZE.
  rewrite (proj2 (Z.eqb_eq _ _) Hal). cbn [negb].
  rewrite (u32_small (sz cur - stk)) by (unfold is_u32; lia).
  destruct (Z.ltb_spec (sz cur - stk) 4096); [lia|].
  unfold allocproc, acquire. rewrite Hl, bind_Ok. cbn [ptab set_plocked]. rewrite Hfind.
  unfold release. cbn [plocked upd set_ptab set_nextpid set_plocked]. rewrite bind_Ok.
  cbn [mm set_plocked set_nextpid upd set_ptab]. cbn [mkalloc the_ops kst_ops].
  destruct (kalloc_inv kend Hkend (mm k) own Hinv) as (ks & s1 & -> & Hram & Hc). rewrite bind_Ok.
  destruct Hc as [[-> ->]|(Hfree & Hksn & Hinv1)].
  { left. split; [done|]. eexists. reflexivity. }
  right. destruct (Z.eqb_spec ks 0); [done|]. rewrite bind_Ok.
  set (k1 := upd j (set_kc KForkret) _).
  assert (ptab k1 !! i = Some cur) as Hi1.
  { unfold k1. cbn. rewrite !list_lookup_alter_ne by done. done. }
  rewrite (getp_some k1 i cur Hi1).
  replace (u32 (u32 (stk + 4096) - 12)) with (stk + 4084)
    by (rewrite (u32_small (stk + 4096)) by (unfold is_u32; lia); rewrite u32_small; unfold is_u32; lia).
  cbn [mcopyout mpoke the_ops kst_ops]. change (mm (upd j _ k1)) with (mm k1). change (mm k1) with s1.
  assert (stk + 4084 = stk / 4096 * 4096 + 4084) as Hst by (pose proof (Z.div_mod stk 4096); lia).
  assert ((stk + 4084) mod 4096 = 4084 ∧ (stk + 4084) / 4096 = stk / 4096) as [Hm Hdv].
  { rewrite Hst. rewrite Z.add_comm, Z_mod_plus_full, Z.div_add by lia. split; reflexivity. }
  destruct (push_words kend Hkend s1 (<[ks := Priv]> own) (pgdir cur) (stk + 4084) (kstack cur) ust
    [4294967295; a1; a2]) as (s2 & E & Hinv2 & _ & Hw & Hrest); try done.
  { rewrite lookup_insert_ne by congruence. done. }
  { rewrite lookup_insert_ne by congruence. done. }
  { apply Forall_cons_2; [unfold is_u32; lia|]. by apply Forall_cons_2; [|apply Forall_cons_2]. }
  { lia. }
  { rewrite Hm. done. }
  { simpl length. lia. }
  { unfold user_va. lia. }
  { rewrite Hram, (pte_at_page (ram (mm k)) _ (stk + 4084) stk); [done|unfold is_u32; lia|unfold is_u32; lia|done]. }
  change (4 * Z.of_nat (length [4294967295; a1; a2])) with 12 in *. rewrite E, bind_Ok.
  cbn [Z.ltb Z.compare].
  destruct (dup_files_spec (fs_ k) L C (ofile cur) Hf HL) as (f1 & Ef1 & Hf1).
  change (fs_ (set_mm s2 _)) with (fs_ k). rewrite Ef1, bind_Ok.
  destruct (law_idup f1 _ C (cwd cur) Hf1 HC) as (f2 & Ef2 & Hf2). rewrite Ef2, bind_Ok.
  cbn [plocked upd set_ptab set_mm set_fs_ set_plocked]. change (plocked k1) with false.
  cbn [plocked set_plocked upd set_ptab]. rewrite !bind_Ok.
  eexists _, _. split; [|split].
  - f_equal. f_equal. unfold getp. cbn. rewrite !list_lookup_alter_eq, Hq. done.
  - split; [cbn; unfold k1; cbn; rewrite !alter_twice, (alter_insert _ _ _ q Hq); reflexivity|..]; try done.
    + split_and!; [etrans; [|exact (Hw 0%nat _ eq_refl)]|etrans; [|exact (Hw 1%nat _ eq_refl)]
        |etrans; [|exact (Hw 2%nat _ eq_refl)]]; cbn [mm ram]; f_equal; lia.
    + intros a Ha Hma Hna. cbn. rewrite Hrest; [by rewrite Hram|done|by rewrite Hram|lia].
  - done.
Qed.
End Clone.

(** A machine with two user pages, a kernel stack and one running process. *)
Definition demo_proc (ks : Z) : proc :=
  Proc 8192 demo_d ks RUNNING 1 None zero_tf KUser None false (replicate NOFILE 0) 1 [] 0.
Definition demo_kern (s : kst) (ks : Z) : kern kst ledger :=
  Kern (demo_proc ks :: replicate 63 null_proc) false [Cpu (Some 0%nat) (Some 1%nat)] 2 0 (Some 0%nat) s ([], [1]).

#[local] Opaque demo_s demo_own.

Lemma demo_caller :
  ∃ s own ks, caller (fholds := ledger_holds) demo_kend (demo_kern s ks) own 0 (demo_proc ks) ks [] [1]
    ∧ user_ok (pte_at (ram s) demo_d 4096) = true ∧ ∃ ks' s', kalloc s = Ok (ks', s') ∧ ks' ≠ 0.
Proof.
  destruct demo_grown as (s1 & own1 & E1 & Hinv & Hd & Hu).
  assert (match allocuvm demo_kend demo_s demo_d 0 8192 with
    | Ok (_, s) => match kalloc s with
        | Ok (ks, s') => match kalloc s' with Ok (ks', _) => negb (ks =? 0) && negb (ks' =? 0) | _ => false end
        | _ => false end
    | _ => false end = true) as Hk by (vm_compute; reflexivity).
  rewrite E1 in Hk.
  destruct (kalloc_inv demo_kend demo_kend_ok s1 own1 Hinv) as (ks & s2 & E2 & Hram & Hc).
  rewrite E2 in Hk. clear E1 E2. destruct (kalloc s2) as [[ks' s3]| | |] eqn:E3; try discriminate Hk.
  apply andb_true_iff in Hk as [Hk1 Hk2]. apply negb_true_iff, Z.eqb_neq in Hk1, Hk2.
  destruct Hc as [[-> _]|(Hfree & _ & Hinv2)]; [contradiction|].
  exists s2, (<[ks := Priv]> own1), ks. split_and!.
  - split; cbn; try reflexivity; try assumption.
    + rewrite lookup_insert_ne; [exact Hd|]. intros ->. rewrite Hd in Hfree. discriminate.
    + vm_compute. congruence.
    + rewrite lookup_insert_eq. split_and!; [reflexivity|lia|lia].
    + split_and!; [by split|vm_compute; by intros x Hx%elem_of_nil|set_solver].
  - rewrite Hram. apply Hu. lia.
  - eauto.
Qed.

(** C16.  [clone] starts a thread in the caller's address space.  Called with a
    page-aligned stack page of the process, it returns the new pid unless the
    kernel has no page for the thread's kernel stack; the first free slot becomes
    a runnable child of the caller with the caller's page directory and size, the
    trap frame of the caller except that it continues at [fcn] with its stack
    pointer 12 bytes below the top of the page and 0 in [eax]; the user's memory
    there holds the return address 0xffffffff and the two arguments, every other
    user byte is unchanged, no other slot changes, and the open files and the
    directory of the caller are shared. *)
Theorem clone_starts_thread {F} `{FL : FileLaws F fholds} (kend kdata : Z)
    (k : kern kst F) own i j cur ust L C fcn a1 a2 stk :
  KERNLINK <= kend → caller (fholds := fholds) kend k own i cur ust L C →
  find_proc is_unused (ptab k) = Some j →
  stk mod 4096 = 0 → 0 <= stk → stk + 4096 <= sz cur →
  user_ok (pte_at (ram (mm k)) (pgdir cur) stk) = true → is_u32 a1 → is_u32 a2 →
  let run := @clone kst F (kst_ops kend kdata) _ k i ust fcn a1 a2 stk in
  (kalloc (mm k) = Ok (0, mm k) ∧ ∃ k', run = Ok (-1, k'))
  ∨ ∃ k' p, run = Ok (nextpid k, k') ∧ started kend k k' own i j cur fcn a1 a2 stk p
      ∧ fholds (fs_ k') (open_files (ofile cur) ++ L) (cwd cur :: C).
Proof. intros Hk. by apply clone_spec. Qed.

(** C16 with the second user page as the stack. *)
Lemma clone_starts_thread_witness :
  ∃ s own ks k' p, @clone kst ledger (kst_ops demo_kend (KERNLINK + 4096)) _ (demo_kern s ks) 0 ks 100 7 8 4096
      = Ok (2, k')
    ∧ started demo_kend (demo_kern s ks) k' own 0 1 (demo_proc ks) 100 7 8 4096 p.
Proof.
  destruct demo_caller as (s & own & ks & Hc & Hu & ks' & s' & Ek & Hn).
  destruct (clone_starts_thread (fholds := ledger_holds) demo_kend (KERNLINK + 4096) (demo_kern s ks) own
    0 1 (demo_proc ks) ks [] [1] 100 7 8 4096 demo_kend_ok Hc) as [[E _]|(k' & p & E & Hst & _)];
    [reflexivity|reflexivity|lia|cbn; lia|exact Hu|split; lia|split; lia| |].
  - cbn in E. rewrite Ek in E. injection E as -> _. contradiction.
  - exists s, own, ks, k', p. split; [exact E|exact Hst].
Defined.

(** ** wait with and without children *)

Lemma wait_childless {M F} `{MemOps M} `{FileOps F} (k : kern M F) i :
  plocked k = false → (∀ q, q ∈ ptab k → is_child i q = false) →
  ∃ k', wait k i = Ok (Some (-1), k').
Proof.
  intros Hl Hnone. unfold wait, acquire. rewrite Hl, bind_Ok. unfold wait_iter. cbn [ptab set_plocked].
  destruct (find_proc _ _) as [x|] eqn:Ef.
  { apply th_find_proc_Some in Ef as (q & Hq & [Hc _]%andb_true_iff).
    rewrite (Hnone q) in Hc by (by eapply list_elem_of_lookup_2). done. }
  assert (existsb (is_child i) (ptab k) = false) as ->; [|cbn; eauto].
  apply not_true_iff_false. intros (q & Hq & Hc)%existsb_exists.
  rewrite (Hnone q) in Hc by (by apply list_elem_of_In). done.
Qed.

Lemma wait_live_child {M F} `{MemOps M} `{FileOps F} r (k : kern M F) c i j p :
  tinv r k → on_cpu (cpus k) c i → plocked k = false → killed (getp k i) = false →
  ptab k !! j = Some p → is_child i p = true →
  (∀ q, q ∈ ptab k → is_child i q = true → state q ≠ ZOMBIE) →
  ∃ k', wait k i = Ok (None, k').
Proof.
  intros Hk Hon Hl Hkill Hj Hc Hno. unfold wait.
  destruct (acquire k) as [kl| | |] eqn:El; try (unfold acquire in El; by rewrite Hl in El).
  rewrite bind_Ok. destruct (held_acquire r k kl c i Hk Hon El) as [Hh ->].
  unfold wait_iter. cbn [ptab set_plocked]. destruct (find_proc _ _) as [x|] eqn:Ef.
  { apply th_find_proc_Some in Ef as (q & Hq & [Hq' Hz%bool_decide_eq_true]%andb_true_iff).
    by destruct (Hno q (list_elem_of_lookup_2 _ _ _ Hq) Hq'). }
  assert (existsb (is_child i) (ptab k) = true) as Hex.
  { apply existsb_exists. exists p. split; [|done]. apply list_elem_of_In. by eapply list_elem_of_lookup_2. }
  rewrite Hex. change (getp (set_plocked true k) i) with (getp k i). rewrite Hkill. cbn [negb orb].
  destruct (sleep_inv r (set_plocked true k) c i (CProc i) KWait Hh) as (k3 & -> & _); [|rewrite bind_Ok; eauto].
  intros _ p0 Hp0. by apply (go_blocked r (set_plocked true k) i p0 _ _ (is_child i)); [apply Hh|..].
Qed.

(** What a failed copy leaves behind. *)
Lemma clone_copy_fails {M F} `{MemOps M} `{FileOps F} (k k1 : kern M F) i j ust fcn a1 a2 stk n m :
  i ≠ j → stk mod PGSIZE = 0 → PGSIZE <= u32 (sz (getp k i) - stk) →
  allocproc k = Ok (Some j, k1) → n < 0 →
  mcopyout (mpoke (mm k1) ust [4294967295; a1; a2]) (pgdir (getp k1 i))
    (u32 (u32 (stk + PGSIZE) - 12)) ust 12 = Ok (n, m) →
  ∃ k' p, clone k i ust fcn a1 a2 stk = Ok (-1, k') ∧ ptab k' = <[j := p]> (ptab k)
    ∧ (j < length (ptab k))%nat ∧ cpus k' = cpus k ∧ plocked k' = false
    ∧ state p = EMBRYO ∧ parent p = Some i ∧ stack p = 0.
Proof.
  intros Hne Hal Hsz Ea Hn Ec.
  destruct (th_allocproc_spec k k1 (Some j) Ea) as (Hl & Ecp & El & Ei & p & p' & [Hp Hu Hs Hpp Hst Hkc _ _ Et _ _ _ _]).
  assert (j < length (ptab k))%nat as Hlt by (by eapply lookup_lt_Some).
  assert (ptab k1 !! j = Some p') as Hj1 by (rewrite Et; by apply list_lookup_insert_eq).
  unfold clone. rewrite (proj2 (Z.eqb_eq _ _) Hal). cbn [negb].
  destruct (Z.ltb_spec (u32 (sz (getp k i) - stk)) PGSIZE); [lia|]. rewrite Ea, bind_Ok.
  change (mm (upd j _ k1)) with (mm k1). rewrite Ec, bind_Ok. destruct (Z.ltb_spec n 0); [|lia].
  eexists _, _. split; [done|]. cbn. rewrite (alter_insert _ _ _ p' Hj1), Et.
  split_and!; [apply list_insert_insert_eq|done|done|done|done|done|done].
Qed.

(** A failed [clone] loses a process slot and can hang its caller.  When the
    copy to the new stack fails (the page is a guard page), [clone] returns -1
    but keeps the slot it took: the slot stays an embryo, owned by the caller.
    A process without children then blocks in [wait] instead of getting -1, and
    nothing will ever run to wake it. *)
Theorem clone_failure_leaks_slot {M F} `{MemOps M} `{FileOps F} (r c i j : nat) (k k1 : kern M F)
    ust fcn a1 a2 stk n m :
  tinv r k → on_cpu (cpus k) c i → killed (getp k i) = false →
  existsb (is_child i) (ptab k) = false →
  stk mod PGSIZE = 0 → PGSIZE <= u32 (sz (getp k i) - stk) →
  allocproc k = Ok (Some j, k1) → n < 0 →
  mcopyout (mpoke (mm k1) ust [4294967295; a1; a2]) (pgdir (getp k1 i))
    (u32 (u32 (stk + PGSIZE) - 12)) ust 12 = Ok (n, m) →
  ∃ k', clone k i ust fcn a1 a2 stk = Ok (-1, k')
    ∧ state (getp k' j) = EMBRYO ∧ parent (getp k' j) = Some i
    ∧ (∃ k2, wait k i = Ok (Some (-1), k2)) ∧ ∃ k3, wait k' i = Ok (None, k3).
Proof.
  intros Hk Hon Hkill Hno Hal Hsz Ea Hn Ec.
  destruct (tinv_running r k c i Hk Hon) as (cur & Hi & Hrun).
  assert (i ≠ j) as Hne.
  { intros <-. destruct (th_allocproc_spec k k1 (Some i) Ea) as (_ & _ & _ & _ & p & p' & Hf).
    pose proof (fr_slot _ _ _ _ _ Hf). pose proof (fr_unused _ _ _ _ _ Hf). congruence. }
  assert (plocked k = false) as Hl by (by apply th_allocproc_spec in Ea as [? _]).
  assert (∀ q, q ∈ ptab k → is_child i q = false) as Hnone.
  { intros q Hq. destruct (is_child i q) eqn:E; [|done]. rewrite <- not_true_iff_false in Hno. destruct Hno.
    apply existsb_exists. exists q. split; [by apply list_elem_of_In|done]. }
  destruct (clone_copy_fails k k1 i j ust fcn a1 a2 stk n m) as (k' & p & E & Ept & Hlt & Ecp & El & Hs & Hp & Hst);
    try done.
  assert (ptab k' !! j = Some p) as Hj by (rewrite Ept; by apply list_lookup_insert_eq).
  exists k'. rewrite (getp_some k' j p Hj). split_and!; [done|done|done|by apply wait_childless|].
  apply (wait_live_child r k' c i j p); try done; [by eapply clone_inv|by rewrite Ecp| | |].
  - rewrite <- Hkill. f_equal. unfold getp. by rewrite Ept, list_lookup_insert_ne.
  - unfold is_child. by rewrite Hst, bool_decide_eq_true_2.
  - intros q [x Hx]%list_elem_of_lookup Hc. rewrite Ept in Hx.
    apply slot_insert_Some in Hx as [(-> & -> & _)|[_ Hx]]; [congruence|].
    by rewrite (Hnone q (list_elem_of_lookup_2 _ _ _ Hx)) in Hc.
Qed.

(** The ledger with a guard page: addresses of the second page are not the user's. *)
Definition guarded_ops : MemOps mledger := {|
  mkalloc := mkalloc; mkfree := mkfree; msetupkvm := msetupkvm; minituvm := minituvm;
  mallocuvm := mallocuvm; mdeallocuvm := mdeallocuvm; mcopyuvm := mcopyuvm; mfreevm := mfreevm;
  mpoke := mpoke; muwrite := muwrite;
  mcopyout m _ va _ len := if (va <? 8192) && (4096 <? va + len) then Ok (-1, m) else Ok (0, m)
|}.

(** That theorem for the child process of the closed run, with the guard page as the stack. *)
Lemma clone_failure_leaks_slot_witness :
  ∃ k', @clone _ _ guarded_ops _ demo_big 1 0 100 4 8 4096 = Ok (-1, k')
    ∧ (∃ k2, @wait _ _ guarded_ops demo_big 1 = Ok (Some (-1), k2))
    ∧ ∃ k3, @wait _ _ guarded_ops k' 1 = Ok (None, k3).
Proof.
  destruct (@clone_failure_leaks_slot mledger ledger guarded_ops _ 0 0 1 2 demo_big
    (get_k (@allocproc _ _ guarded_ops demo_big)) 0 100 4 8 4096 (-1)
    (mm (get_k (@allocproc _ _ guarded_ops demo_big)))) as (k' & E & _ & _ & Hw & Hw');
    [exact demo_big_inv|eexists; split; reflexivity|reflexivity|vm_compute; reflexivity|reflexivity
    |vm_compute; congruence|vm_compute; reflexivity|reflexivity|vm_compute; reflexivity|].
  exists k'. split_and!; [exact E|exact Hw|exact Hw'].
Defined.

(** Threads see different sizes of their shared memory.  [growproc] passes
    the new size on to the caller's own threads only: when a thread grows the
    address space, its parent keeps the old size, so a pointer into the new memory
    is accepted from the thread and rejected from the parent, although the pages
    are mapped for both. *)
Theorem thread_growth_goes_stale {M F} `{ML : MemLaws M holds} `{FileOps F} (k : kern M F) i t pi pt K D x :
  ptab k !! i = Some pi → ptab k !! t = Some pt → t ≠ i → parent pi ≠ Some t →
  pgdir pt = pgdir pi → sz pt = sz pi → 0 <= sz pi → 4 <= x → sz pi + x < KERNBASE →
  holds (mm k) K D → D !! pgdir pi = Some (sz pi) →
  ∃ v k', growproc k t x = Ok (v, k')
    ∧ (v = 0 → holds (mm k') K (<[pgdir pi := sz pi + x]> D)
        ∧ sz (getp k' t) = sz pi + x ∧ argptr_ok (getp k' t) (sz pi) 4 = true
        ∧ sz (getp k' i) = sz pi ∧ argptr_ok (getp k' i) (sz pi) 4 = false).
Proof.
  intros Hi Ht Hne Hpar Hd Hsz Hpos Hx Htop Hh HD. unfold growproc. rewrite (getp_some k t pt Ht).
  assert (KERNBASE = 2147483648) as Hkb by reflexivity.
  destruct (Z.ltb_spec 0 x); [|lia]. rewrite Hd, Hsz, u32_small by (unfold is_u32; lia).
  destruct (law_allocuvm (mm k) K D (pgdir pi) (sz pi) (sz pi + x) Hh HD ltac:(lia)) as (r & m & -> & Hr).
  rewrite bind_Ok. destruct (Z.eqb_spec r 0) as [->|Hr0]; [by eexists _, _|].
  destruct Hr as [[? _]|[Hr Hm]]; [done|]. rewrite Z.max_r in Hr by lia. subst r.
  set (k' := map_procs _ _). exists 0, k'. split; [done|]. intros _.
  assert (sz (getp k' t) = sz pi + x) as Et.
  { unfold getp, k'. cbn. rewrite list_lookup_fmap, list_lookup_alter_eq, Ht. cbn.
    unfold share_sz. by destruct (_ && _). }
  assert (sz (getp k' i) = sz pi) as Ei.
  { unfold getp, k'. cbn. rewrite list_lookup_fmap, list_lookup_alter_ne, Hi by done. cbn.
    unfold share_sz. rewrite (bool_decide_eq_false_2 _ Hpar), andb_false_r. done. }
  unfold argptr_ok. rewrite Et, Ei, (u32_small (sz pi)) by (unfold is_u32; lia).
  rewrite u32_small by (unfold is_u32; lia). split_and!; [done|done| |done|].
  - destruct (Z.leb_spec (sz pi + x) (sz pi)); [lia|]. by destruct (Z.ltb_spec (sz pi + x) (sz pi + 4)); [lia|].
  - destruct (Z.leb_spec (sz pi) (sz pi)); [done|lia].
Qed.

(** For the thread in slot 2 of the closed run. *)
Lemma thread_growth_goes_stale_witness :
  sys_clone demo_big 1 0 100 4 8 4096 = Ok (3, demo_threaded)
  ∧ ∃ v k', growproc demo_threaded 2 4096 = Ok (v, k') ∧ (v = 0 → sz (getp k' 1) = 12288).
Proof.
  split; [vm_compute; reflexivity|].
  destruct (thread_growth_goes_stale (holds := mledger_holds) demo_threaded 1 2 (getp demo_threaded 1)
    (getp demo_threaded 2) (ml_held (mm demo_threaded)) (ml_dirs (mm demo_threaded)) 4096)
    as (v & k' & E & Hv);
    [reflexivity|reflexivity|lia|vm_compute; discriminate|reflexivity|reflexivity|vm_compute; discriminate
    |lia|vm_compute; reflexivity|apply ml_check_holds; vm_compute; reflexivity|vm_compute; reflexivity|].
  exists v, k'. split; [exact E|]. intros Hv0. apply (Hv Hv0).
Defined.

(** Reaping a process pulls the memory from under its threads.  [exit] does
    not wait for threads and [wait] releases the address space of the zombie it
    finds: if another process still uses that page directory (a thread that is
    still alive), it is left alive with a directory that has been freed. *)
Theorem wait_frees_shared_space {M F} `{ML : MemLaws M holds} `{FileOps F} (k : kern M F) i j t pj pt K D n :
  plocked k = false → find_proc (λ p, is_child i p && is_zombie p) (ptab k) = Some j →
  ptab k !! j = Some pj → ptab k !! t = Some pt → alive pt → pgdir pt = pgdir pj →
  holds (mm k) K D → kstack pj ∈ K → D !! pgdir pj = Some n →
  ∃ k', wait k i = Ok (Some (pid pj), k')
    ∧ holds (mm k') (K ∖ {[kstack pj]}) (delete (pgdir pj) D)
    ∧ alive (getp k' t) ∧ delete (pgdir pj) D !! pgdir (getp k' t) = None.
Proof.
  intros Hl Hf Hj Ht Ha Hd Hh HK HD. unfold wait, acquire. rewrite Hl, bind_Ok.
  unfold wait_iter. cbn [ptab set_plocked]. rewrite Hf.
  rewrite (getp_some (set_plocked true k) j pj Hj). cbn [mm set_plocked].
  destruct (law_kfree (mm k) K D (kstack pj) Hh HK) as (m1 & -> & Hh1). rewrite bind_Ok.
  destruct (law_freevm m1 _ D (pgdir pj) n Hh1 HD) as (m2 & -> & Hh2). rewrite bind_Ok.
  unfold release. cbn [plocked upd set_ptab set_mm set_plocked]. rewrite bind_Ok.
  assert (t ≠ j) as Hne.
  { intros ->. apply th_find_proc_Some in Hf as (q & Hq & [_ Hz%bool_decide_eq_true]%andb_true_iff).
    destruct Ha. congruence. }
  eexists. split; [done|]. split; [done|]. set (k' := set_plocked false _).
  assert (∃ p, getp k' t = p ∧ state p = state pt ∧ pgdir p = pgdir pt) as (p & -> & Es & Ep).
  { unfold getp, k'. cbn. destruct (decide (i = t)) as [->|Hit].
    - rewrite list_lookup_alter_eq, list_lookup_alter_ne, Ht by done. by eexists.
    - rewrite !list_lookup_alter_ne, Ht by done. by eexists. }
  unfold alive. rewrite Es, Ep, Hd, lookup_delete_eq. split; [done|done].
Qed.

(** The first process lets its child run; the child creates a thread and exits;
    the thread runs and yields; the first process is scheduled again. *)
Definition demo_zombie : kern mledger ledger :=
  Eval vm_compute in get_k1 (
    k1 ← yield demo_forked 0; k2 ← scheduler k1 0; '(_, k3) ← sys_sbrk k2 1 8192;
    '(_, k4) ← sys_clone k3 1 0 100 4 8 4096; k5 ← exit k4 1; k6 ← scheduler k5 0;
    k7 ← yield k6 2; k8 ← scheduler k7 0; k9 ← scheduler k8 0; scheduler k9 0).

(** In that state: the thread in slot 2 loses its page directory. *)
Lemma wait_frees_shared_space_witness :
  state (getp demo_zombie 2) = RUNNABLE
  ∧ ∃ k', wait demo_zombie 0 = Ok (Some 2, k') ∧ alive (getp k' 2).
Proof.
  split; [reflexivity|].
  destruct (wait_frees_shared_space (holds := mledger_holds) demo_zombie 0 1 2 (getp demo_zombie 1)
    (getp demo_zombie 2) (ml_held (mm demo_zombie)) (ml_dirs (mm demo_zombie)) 12288)
    as (k' & E & _ & Ha & _);
    [reflexivity|vm_compute; reflexivity|reflexivity|reflexivity|vm_compute; split; discriminate|reflexivity
    |apply ml_check_holds; vm_compute; reflexivity|apply elem_of_elements; vm_compute; repeat constructor
    |vm_compute; reflexivity|].
  exists k'. split; [exact E|exact Ha].
Defined.
