(* ===== verification/Hashmap.v ===== *)
(** The hash map of the map-reduce project (src/p3a/hashmap.c, hashmap.h): open
    addressing with linear probing, FNV-1a hashing, doubling.

    A table is the list of its slots; a slot holds the pair it points to, or
    nothing.  [MapPut] copies the key and [value_size] bytes of the value, so a
    pair owns both.  Indices are C [int]s: the result of [Hash], a [size_t], is
    converted when it is stored in [h].  [malloc] and [strdup] are taken to
    succeed (the code does not test them); whether [calloc] succeeds in
    [resize_map] is an argument.  The mutex is not modelled: [MapPut] holds it
    from start to end, so its calls do not interleave. *)

From Stdlib Require Import ZArith Lia.
From stdpp Require Import base numbers list gmap sets strings.
From S2P Require Import Prelude CStr.
#[local] Open Scope Z_scope.

Record MapPair := Pair { key : cstring; value : list Z }.
Record HashMap := HMap { contents : list (option MapPair); capacity : Z; size : Z }.

Definition MAP_INIT_CAPACITY : Z := 11.
Definition FNV_OFFSET : Z := 14695981039346656037.
Definition FNV_PRIME : Z := 1099511628211.

(** [( size_t)( *p)]: [char] is signed. *)
Definition sign_extend (c : Z) : Z := if c <? 128 then c else u64 (c - 256).

Fixpoint Hash_loop (hash : Z) (p : cstring) : Z :=
  match p with
  | [] => hash
  | c :: p' => Hash_loop (Z.lxor (u64 (Z.lxor hash c * FNV_PRIME)) (sign_extend c)) p'
  end.

Definition Hash (key : cstring) (capacity : Z) : Z := Hash_loop FNV_OFFSET key mod capacity.

Definition MapInit : HashMap :=
  HMap (replicate (Z.to_nat MAP_INIT_CAPACITY) None) MAP_INIT_CAPACITY 0.

(** [contents[h]]; an index outside the table is a wild read. *)
Definition slot (l : list (option MapPair)) (h : Z) : outcome (option MapPair) :=
  if h <? 0 then Fault h
  else match l !! Z.to_nat h with Some o => Ok o | None => Fault h end.

Definition next_slot (h capacity : Z) : Z := if h + 1 =? capacity then 0 else h + 1.

(** The loop of [MapPut] and [MapGet]: the first slot from [h] on that is empty
    or holds [key], with its content. *)
Fixpoint find_key (l : list (option MapPair)) (capacity : Z) (k : cstring) (h : Z) (fuel : nat)
    : outcome (Z * option MapPair) :=
  match fuel with
  | O => NoFuel
  | S f =>
      o ← slot l h;
      match o with
      | None => Ok (h, None)
      | Some p =>
          if strcmp k (key p) =? 0 then Ok (h, Some p)
          else find_key l capacity k (next_slot h capacity) f
      end
  end.

(** The loop of [resize_map]: the first empty slot from [h] on. *)
Fixpoint find_empty (l : list (option MapPair)) (capacity h : Z) (fuel : nat) : outcome Z :=
  match fuel with
  | O => NoFuel
  | S f =>
      o ← slot l h;
      match o with
      | None => Ok h
      | Some _ => find_empty l capacity (next_slot h capacity) f
      end
  end.

Definition MapGet (m : HashMap) (k : cstring) : outcome (option (list Z)) :=
  '(_, o) ← find_key (contents m) (capacity m) k (s32 (Hash k (capacity m))) (length (contents m));
  Ok (option_map value o).

Definition MapSize (m : HashMap) : Z := size m.

(** The [for] loop of [resize_map]: every old entry goes to its place in [temp]. *)
Fixpoint rehash (old : list (option MapPair)) (newcapacity : Z) (temp : list (option MapPair))
    : outcome (list (option MapPair)) :=
  match old with
  | [] => Ok temp
  | None :: old' => rehash old' newcapacity temp
  | Some entry :: old' =>
      h ← find_empty temp newcapacity (s32 (Hash (key entry) newcapacity)) (length temp);
      rehash old' newcapacity (<[Z.to_nat h := Some entry]> temp)
  end.

(** [None] is the -1 of a failed [calloc]. *)
Definition resize_map (calloc_ok : bool) (m : HashMap) : outcome (option HashMap) :=
  let newcapacity := u64 (capacity m * 2) in
  if calloc_ok then
    temp ← rehash (contents m) newcapacity (replicate (Z.to_nat newcapacity) None);
    Ok (Some (HMap temp newcapacity (size m)))
  else Ok None.

(** [None] is [exit(0)]. *)
Definition MapPut (calloc_ok : bool) (m : HashMap) (k : cstring) (v : list Z) : outcome (option HashMap) :=
  r ← (if capacity m / 2 <? size m then resize_map calloc_ok m else Ok (Some m));
  match r with
  | None => Ok None
  | Some m1 =>
      let newpair := Pair k v in
      '(h, o) ← find_key (contents m1) (capacity m1) k (s32 (Hash k (capacity m1))) (length (contents m1));
      let contents' := <[Z.to_nat h := Some newpair]> (contents m1) in
      match o with
      | Some _ => Ok (Some (HMap contents' (capacity m1) (size m1)))
      | None => Ok (Some (HMap contents' (capacity m1) (u64 (size m1 + 1))))
      end
  end.

Example get_after_put :
  (m ← MapPut true MapInit (of_string "foo") [1; 2];
   match m with Some m => MapGet m (of_string "foo") | None => Ok None end) = Ok (Some [1; 2]).
Proof. vm_compute. reflexivity. Qed.

(** * Linear probing

    [at_offset l s e] is the slot reached from [s] after [e] steps. *)
Definition at_offset (l : list (option MapPair)) (s e : Z) : option MapPair :=
  default None (l !! Z.to_nat ((s + e) mod Z.of_nat (length l))).

(** A slot that ends the search for [k]. *)
Definition stops (k : cstring) (o : option MapPair) : Prop :=
  match o with None => True | Some p => key p = k end.

#[export] Instance stops_dec k o : Decision (stops k o).
Proof. unfold stops. destruct o; apply _. Defined.

Section Probe.
Context (l : list (option MapPair)).
#[local] Abbreviation cap := (Z.of_nat (length l)).

Lemma slot_ok s e : 0 < cap → slot l ((s + e) mod cap) = Ok (at_offset l s e).
Proof.
  intros Hc. pose proof (Z.mod_pos_bound (s + e) cap Hc) as Hb. unfold slot, at_offset.
  destruct (Z.ltb_spec ((s + e) mod cap) 0); [lia|].
  destruct (l !! _) as [o|] eqn:E; [done|]. apply lookup_ge_None in E. lia.
Qed.

Lemma next_slot_offset s e : 0 < cap → next_slot ((s + e) mod cap) cap = (s + (e + 1)) mod cap.
Proof.
  intros Hc. pose proof (Z.mod_pos_bound (s + e) cap Hc) as Hb. unfold next_slot.
  rewrite Z.add_assoc, <- (Zplus_mod_idemp_l (s + e)).
  destruct (Z.eqb_spec ((s + e) mod cap + 1) cap) as [E|E].
  - by rewrite E, Z_mod_same_full.
  - rewrite (Z.mod_small ((s + e) mod cap + 1)); lia.
Qed.

(** The search stops at the first offset that ends it. *)
Lemma find_key_first k s d fuel : 0 < cap → Forall (λ o, ∀ p, o = Some p → str_ok (key p)) l → str_ok k →
  ∀ e, 0 <= e → (e <= d < e + Z.of_nat fuel) →
  (∀ e', e <= e' < d → ¬ stops k (at_offset l s e')) → stops k (at_offset l s d) →
  find_key l cap k ((s + e) mod cap) fuel = Ok ((s + d) mod cap, at_offset l s d).
Proof.
  intros Hc Hk Hok. induction fuel as [|f IH]; intros e He Hd Hno Hst; [lia|].
  simpl. rewrite slot_ok, bind_Ok by done.
  assert (∀ p, at_offset l s e = Some p → (strcmp k (key p) =? 0) = bool_decide (key p = k)) as Hcmp.
  { intros p Hp. rewrite strcmp_neg_eq; [apply bool_decide_ext; naive_solver|done|].
    unfold at_offset in Hp. destruct (l !! _) as [o|] eqn:Eo; [|done]. simpl in Hp. subst o.
    rewrite Forall_lookup in Hk. by apply (Hk _ _ Eo). }
  destruct (decide (e = d)) as [->|Hne].
  - destruct (at_offset l s d) as [p|]; [|done]. rewrite Hcmp by done. simpl in Hst.
    by rewrite bool_decide_eq_true_2.
  - assert (¬ stops k (at_offset l s e)) as Hs by (apply Hno; lia).
    destruct (at_offset l s e) as [p|]; [|destruct Hs; exact I]. rewrite Hcmp by done. simpl in Hs.
    rewrite bool_decide_eq_false_2 by done. rewrite next_slot_offset by done.
    apply IH; [lia|lia| |done]. intros e' He'. apply Hno. lia.
Qed.

Lemma find_empty_first s d fuel : 0 < cap →
  ∀ e, 0 <= e → (e <= d < e + Z.of_nat fuel) →
  (∀ e', e <= e' < d → at_offset l s e' ≠ None) → at_offset l s d = None →
  find_empty l cap ((s + e) mod cap) fuel = Ok ((s + d) mod cap).
Proof.
  intros Hc. induction fuel as [|f IH]; intros e He Hd Hno Hst; [lia|].
  simpl. rewrite slot_ok, bind_Ok by done. destruct (decide (e = d)) as [->|Hne]; [by rewrite Hst|].
  destruct (at_offset l s e) eqn:Eo; [|destruct (Hno e); [lia|done]].
  rewrite next_slot_offset by done. apply IH; [lia|lia| |done]. intros e' He'. apply Hno. lia.
Qed.

(** A first offset with a decidable property exists below any offset that has it. *)
Lemma first_offset (P : Z → Prop) (Pd : ∀ e, Decision (P e)) n :
  P (Z.of_nat n) → ∃ d, 0 <= d <= Z.of_nat n ∧ P d ∧ ∀ e, 0 <= e < d → ¬ P e.
Proof using.
  induction n as [n IH] using lt_wf_ind. intros Hn.
  destruct (decide (Exists (λ i, P (Z.of_nat i)) (seq 0 n))) as [Hex|Hno].
  - apply Exists_exists in Hex as (i & Hi%elem_of_seq & HP).
    destruct (IH i ltac:(lia) HP) as (d & Hd & HPd & Hmin). exists d. split; [lia|done].
  - exists (Z.of_nat n). split_and!; [lia|lia|done|]. intros e He HPe. apply Hno, Exists_exists.
    exists (Z.to_nat e). split; [apply elem_of_seq; lia|]. by rewrite Z2Nat.id by lia.
Qed.

(** The offset of a slot from a start. *)
Lemma offset_of s j o : 0 < cap → l !! j = Some o →
  let d := (Z.of_nat j - s) mod cap in 0 <= d < cap ∧ (s + d) mod cap = Z.of_nat j ∧ at_offset l s d = o.
Proof.
  intros Hc Hj d. pose proof (lookup_lt_Some _ _ _ Hj).
  assert ((s + d) mod cap = Z.of_nat j) as E.
  { unfold d. rewrite Zplus_mod_idemp_r. replace (s + (Z.of_nat j - s)) with (Z.of_nat j) by lia.
    apply Z.mod_small. lia. }
  split_and!; [apply Z.mod_pos_bound, Hc|apply Z.mod_pos_bound, Hc|done|].
  unfold at_offset. by rewrite E, Nat2Z.id, Hj.
Qed.
End Probe.

(** * The invariant of a table *)

Abbreviation table := (list (option MapPair)).

Definition holds_pair (l : table) (p : MapPair) : Prop := Some p ∈ l.

(** Keys are C strings, no key occurs twice, and every slot between the hash of
    a key and the slot that holds it is occupied. *)
Record table_ok (l : table) : Prop := {
  tk_keys : Forall (λ o, ∀ p, o = Some p → str_ok (key p)) l;
  tk_nodup : ∀ i j p q, l !! i = Some (Some p) → l !! j = Some (Some q) → key p = key q → i = j;
  tk_path : ∀ j p, l !! j = Some (Some p) →
    ∀ e, 0 <= e < (Z.of_nat j - Hash (key p) (Z.of_nat (length l))) mod Z.of_nat (length l) →
    at_offset l (Hash (key p) (Z.of_nat (length l))) e ≠ None
}.

Fixpoint occupied (l : table) : nat :=
  match l with [] => 0 | None :: l' => occupied l' | Some _ :: l' => S (occupied l') end.

Lemma free_slot l : (occupied l < length l)%nat → ∃ j, l !! j = Some None.
Proof.
  induction l as [|o l IH]; simpl; [lia|]. destruct o as [p|]; simpl.
  - intros Hlt. destruct IH as [j Hj]; [lia|]. by exists (S j).
  - intros _. by exists 0%nat.
Qed.

Lemma occupied_insert l j p : l !! j = Some None → occupied (<[j := Some p]> l) = S (occupied l).
Proof.
  revert j. induction l as [|o l IH]; intros [|j] Hj; simplify_eq/=; [done|].
  destruct o; simpl; by rewrite IH.
Qed.

Lemma occupied_replace l j p q :
  l !! j = Some (Some q) → occupied (<[j := Some p]> l) = occupied l.
Proof.
  revert j. induction l as [|o l IH]; intros [|j] Hj; simplify_eq/=; [done|].
  destruct o; simpl; by rewrite IH.
Qed.

Lemma occupied_replicate n : occupied (replicate n None) = 0%nat.
Proof. induction n; simpl; done. Qed.

Lemma Hash_range k c : 0 < c → 0 <= Hash k c < c.
Proof. apply Z.mod_pos_bound. Qed.

Lemma at_offset_insert l j o s e :
  (j < length l)%nat →
  at_offset (<[j := o]> l) s e
  = if decide ((s + e) mod Z.of_nat (length l) = Z.of_nat j) then o else at_offset l s e.
Proof.
  intros Hj. pose proof (Z.mod_pos_bound (s + e) (Z.of_nat (length l)) ltac:(lia)).
  unfold at_offset. rewrite length_insert. destruct (decide _) as [E|E].
  - rewrite E, Nat2Z.id, list_lookup_insert_eq by done. done.
  - rewrite list_lookup_insert_ne; [done|]. intros ->. lia.
Qed.

(** Filling a slot keeps every path. *)
Lemma table_ok_fill l j p o :
  table_ok l → l !! j = Some o → str_ok (key p) →
  (∀ i q, i ≠ j → l !! i = Some (Some q) → key q ≠ key p) →
  (∀ e, 0 <= e < (Z.of_nat j - Hash (key p) (Z.of_nat (length l))) mod Z.of_nat (length l) →
     at_offset l (Hash (key p) (Z.of_nat (length l))) e ≠ None) →
  table_ok (<[j := Some p]> l).
Proof.
  intros [Hk Hn Hp] Hj Hok Hfresh Hpath. pose proof (lookup_lt_Some _ _ _ Hj) as Hlt.
  split.
  - rewrite Forall_lookup in *. intros i x Hx q ->.
    apply slot_insert_Some in Hx as [(-> & Hx & _)|[_ Hx]]; [by simplify_eq|by apply (Hk _ _ Hx)].
  - intros i i' q q' Hi Hi' E.
    apply slot_insert_Some in Hi as [(-> & Hi & _)|[Hne Hi]];
      apply slot_insert_Some in Hi' as [(-> & Hi' & _)|[Hne' Hi']]; simplify_eq; [done| | |by apply (Hn i i' q q')].
    + by destruct (Hfresh i' q' Hne' Hi').
    + by destruct (Hfresh i q Hne Hi).
  - intros i q Hi e. rewrite length_insert. intros He. rewrite at_offset_insert by done.
    destruct (decide _); [done|].
    apply slot_insert_Some in Hi as [(-> & Hi & _)|[Hne Hi]]; [simplify_eq; by apply Hpath|by apply (Hp i q)].
Qed.

Lemma table_ok_empty n : table_ok (replicate n None).
Proof.
  split.
  - apply Forall_forall. intros o [-> _]%elem_of_replicate. done.
  - intros i j p q Hi. apply lookup_replicate in Hi as [? _]. done.
  - intros j p Hj. apply lookup_replicate in Hj as [? _]. done.
Qed.

(** * The search *)

Section Search.
Context (l : table) (k : cstring).
#[local] Abbreviation cap := (Z.of_nat (length l)).
Hypothesis (Hl : table_ok l) (Hcap : 0 < cap <= 2 ^ 31) (Hk : str_ok k)
  (Hfree : (occupied l < length l)%nat).

Lemma start_ok : s32 (Hash k cap) = (Hash k cap + 0) mod cap.
Proof using Hcap Hfree.
  pose proof (Hash_range k cap ltac:(lia)). rewrite Z.add_0_r, Z.mod_small by lia. apply s32_small. lia.
Qed.

(** What the search returns: the slot of [k], or the empty slot where [k] belongs. *)
Lemma find_key_spec :
  ∃ j o, find_key l cap k (s32 (Hash k cap)) (length l) = Ok (Z.of_nat j, o) ∧ l !! j = Some o
    ∧ (∀ e, 0 <= e < (Z.of_nat j - Hash k cap) mod cap → at_offset l (Hash k cap) e ≠ None)
    ∧ match o with
      | Some p => key p = k
      | None => ∀ i p, l !! i = Some (Some p) → key p ≠ k
      end.
Proof using Hl Hcap Hk Hfree.
  set (s := Hash k cap). destruct (free_slot l Hfree) as [j0 Hj0].
  destruct (offset_of l s j0 None ltac:(lia) Hj0) as (Hd0 & _ & E0). cbn zeta in *.
  set (d0 := (Z.of_nat j0 - s) mod cap) in *.
  destruct (first_offset (λ e, stops k (at_offset l s e)) _ (Z.to_nat d0)) as (d & Hd & Hst & Hmin).
  { rewrite Z2Nat.id, E0 by lia. exact I. }
  rewrite Z2Nat.id in Hd by lia.
  pose proof (Z.mod_pos_bound (s + d) cap ltac:(lia)) as Hb.
  assert (l !! Z.to_nat ((s + d) mod cap) = Some (at_offset l s d)) as Hj.
  { destruct (lookup_lt_is_Some_2 l (Z.to_nat ((s + d) mod cap))) as [o Ho]; [lia|].
    unfold at_offset. by rewrite Ho. }
  exists (Z.to_nat ((s + d) mod cap)), (at_offset l s d). rewrite Z2Nat.id by lia.
  assert (((s + d) mod cap - s) mod cap = d) as Ed.
  { rewrite Zminus_mod_idemp_l. replace (s + d - s) with d by lia. apply Z.mod_small. lia. }
  split_and!; [|done| |].
  - pose proof start_ok as Hs0. fold s in Hs0. rewrite Hs0. apply find_key_first; [lia|apply Hl|done|lia|lia| |done].
    intros e He. apply Hmin. lia.
  - rewrite Ed. intros e He E. apply (Hmin e He). by rewrite E.
  - destruct (at_offset l s d) as [p|] eqn:Eo; [exact Hst|].
    intros i p Hi Ek. pose proof (tk_path l Hl i p Hi) as Hpath. rewrite Ek in Hpath. fold s in Hpath.
    destruct (offset_of l s i (Some p) ltac:(lia) Hi) as (Hdi & _ & Ei). cbn zeta in *.
    destruct (Z_lt_le_dec d ((Z.of_nat i - s) mod cap)) as [Hlt|Hge].
    + apply (Hpath d); [lia|done].
    + destruct (decide (d = (Z.of_nat i - s) mod cap)) as [E|E]; [congruence|].
      apply (Hmin ((Z.of_nat i - s) mod cap)); [lia|]. rewrite Ei. done.
Qed.

Lemma find_empty_spec :
  ∃ j, find_empty l cap (s32 (Hash k cap)) (length l) = Ok (Z.of_nat j) ∧ l !! j = Some None
    ∧ ∀ e, 0 <= e < (Z.of_nat j - Hash k cap) mod cap → at_offset l (Hash k cap) e ≠ None.
Proof using Hl Hcap Hfree.
  set (s := Hash k cap). destruct (free_slot l Hfree) as [j0 Hj0].
  destruct (offset_of l s j0 None ltac:(lia) Hj0) as (Hd0 & _ & E0). cbn zeta in *.
  set (d0 := (Z.of_nat j0 - s) mod cap) in *.
  destruct (first_offset (λ e, at_offset l s e = None) _ (Z.to_nat d0)) as (d & Hd & Hst & Hmin).
  { by rewrite Z2Nat.id, E0 by lia. }
  rewrite Z2Nat.id in Hd by lia.
  pose proof (Z.mod_pos_bound (s + d) cap ltac:(lia)) as Hb.
  exists (Z.to_nat ((s + d) mod cap)). rewrite Z2Nat.id by lia. split_and!.
  - pose proof start_ok as Hs0. fold s in Hs0. rewrite Hs0. apply find_empty_first; [lia|lia|lia| |done]. intros e He. apply Hmin. lia.
  - destruct (lookup_lt_is_Some_2 l (Z.to_nat ((s + d) mod cap))) as [o Ho]; [lia|].
    unfold at_offset in Hst. rewrite Ho in *. simpl in Hst. by rewrite Hst.
  - rewrite Zminus_mod_idemp_l. replace (s + d - s) with d by lia.
    rewrite (Z.mod_small d) by lia. intros e He. by apply Hmin.
Qed.
End Search.

(** * Refinement of finite maps *)

Record repr (h : HashMap) (m : gmap cstring (list Z)) : Prop := {
  rp_cap : capacity h = Z.of_nat (length (contents h));
  rp_tab : table_ok (contents h);
  rp_map : ∀ k v, m !! k = Some v ↔ Some (Pair k v) ∈ contents h;
  rp_occ : size h = Z.of_nat (occupied (contents h));
  rp_size : size h = Z.of_nat (base.size m);
  rp_load : 11 <= capacity h ∧ size h <= capacity h / 2 + 1;
  rp_grow : capacity h = 11 ∨ capacity h <= 4 * size h
}.

Lemma repr_init : repr MapInit ∅.
Proof.
  split; cbn [contents capacity size MapInit].
  - done.
  - apply table_ok_empty.
  - intros k v. rewrite lookup_empty. split; [done|]. by intros [? _]%elem_of_replicate.
  - done.
  - by rewrite map_size_empty.
  - done.
  - by left.
Qed.

(** ** resize_map *)

(** Entries of [old] with distinct keys, none of them in [temp]. *)
Record fresh_entries (old temp : table) : Prop := {
  fe_keys : Forall (λ o, ∀ p, o = Some p → str_ok (key p)) old;
  fe_nodup : ∀ i j p q, old !! i = Some (Some p) → old !! j = Some (Some q) → key p = key q → i = j;
  fe_disj : ∀ i j p q, old !! i = Some (Some p) → temp !! j = Some (Some q) → key p ≠ key q
}.

Lemma fresh_entries_tail o old temp : fresh_entries (o :: old) temp → fresh_entries old temp.
Proof.
  intros [Hk Hn Hd]. split.
  - by apply Forall_cons in Hk as [_ ?].
  - intros i j p q Hi Hj E. specialize (Hn (S i) (S j) p q Hi Hj E). lia.
  - intros i j p q Hi Hj. by apply (Hd (S i) j).
Qed.

Lemma rehash_spec old : ∀ temp,
  fresh_entries old temp → table_ok temp → 0 < Z.of_nat (length temp) <= 2 ^ 31 →
  (occupied old + occupied temp < length temp)%nat →
  ∃ temp', rehash old (Z.of_nat (length temp)) temp = Ok temp' ∧ table_ok temp'
    ∧ length temp' = length temp ∧ occupied temp' = (occupied old + occupied temp)%nat
    ∧ ∀ p, Some p ∈ temp' ↔ Some p ∈ old ∨ Some p ∈ temp.
Proof.
  induction old as [|[e|] old IH]; intros temp Hf Ht Hc Ho; simpl in *.
  - exists temp. split_and!; [done|done|done|done|]. set_solver.
  - destruct (find_empty_spec temp (key e) Ht Hc) as (j & E & Hj & Hpath); [lia|].
    rewrite E, bind_Ok, Nat2Z.id. pose proof (lookup_lt_Some _ _ _ Hj) as Hlt.
    pose proof Hf as [Hk Hn Hd].
    assert (table_ok (<[j := Some e]> temp)) as Ht'.
    { apply (table_ok_fill temp j e None); try done.
      - apply Forall_cons in Hk as [Hk _]. by apply Hk.
      - intros i q _ Hi E'. by apply (Hd 0%nat i e q). }
    assert (fresh_entries old (<[j := Some e]> temp)) as Hf'.
    { split; [by eapply fresh_entries_tail|by eapply fresh_entries_tail|].
      intros i i' p q Hi Hi' Ek. apply slot_insert_Some in Hi' as [(-> & Hi' & _)|[_ Hi']].
      - simplify_eq. specialize (Hn (S i) 0%nat p e Hi eq_refl Ek). lia.
      - by apply (Hd (S i) i' p q). }
    destruct (IH (<[j := Some e]> temp) Hf' Ht') as (t & Et & Hok & Hl & Hocc & Hin);
      [by rewrite length_insert|rewrite occupied_insert, length_insert by done; lia|].
    rewrite length_insert in Et, Hl. exists t. split_and!; [done|done|done| |].
    + rewrite Hocc, occupied_insert by done. lia.
    + intros p. rewrite Hin, elem_of_cons. split.
      * intros [?|Hp]; [auto|]. apply list_elem_of_lookup in Hp as [i Hi].
        apply slot_insert_Some in Hi as [(-> & -> & _)|[_ Hi]]; [auto|].
        right. by eapply list_elem_of_lookup_2.
      * intros [[[= ->]|?]|Hp]; [right|by left|right].
        -- eapply list_elem_of_lookup_2, list_lookup_insert_eq, Hlt.
        -- apply list_elem_of_lookup in Hp as [i Hi]. apply (list_elem_of_lookup_2 _ i).
           rewrite list_lookup_insert_ne; [done|congruence].
  - destruct (IH temp) as (t & Et & Hok & Hl & Hocc & Hin); [by eapply fresh_entries_tail|done|done|lia|].
    exists t. split_and!; try done. intros p. rewrite Hin. set_solver.
Qed.

Lemma resize_spec h m :
  repr h m → capacity h / 2 < size h → capacity h <= 2 ^ 30 →
  ∃ h', resize_map true h = Ok (Some h') ∧ repr h' m ∧ capacity h' = 2 * capacity h
    ∧ size h' <= capacity h' / 2.
Proof.
  intros [Hc Ht Hm Ho Hs [Hmin Hload] Hg] Hhalf Hbig. unfold resize_map. cbn zeta.
  assert (u64 (capacity h * 2) = 2 * capacity h) as -> by (unfold u64; rewrite Z.mod_small; lia).
  set (n := Z.to_nat (2 * capacity h)).
  assert (length (replicate n (@None MapPair)) = n) as Hn by apply length_replicate.
  assert (Z.of_nat n = 2 * capacity h) as Hz by lia.
  pose proof (Z.div_mod (capacity h) 2). pose proof (Z.mod_pos_bound (capacity h) 2).
  destruct (rehash_spec (contents h) (replicate n None)) as (t & E & Hok & Hl & Hocc & Hin).
  - split; [apply Ht|apply Ht|]. intros i j p q _ Hj. apply lookup_replicate in Hj as [? _]. done.
  - apply table_ok_empty.
  - rewrite Hn. lia.
  - rewrite Hn, occupied_replicate. lia.
  - rewrite Hn in E, Hl. rewrite <- Hz, E, bind_Ok. eexists. split; [done|]. cbn [capacity size].
    rewrite occupied_replicate in Hocc. rewrite Hz.
    assert (2 * capacity h / 2 = capacity h) as Ed by (rewrite Z.mul_comm; apply Z.div_mul; lia).
    split_and!; [|done|lia]. split; cbn [contents capacity size]; try done.
    + lia.
    + intros k v. rewrite Hm, Hin. split; [auto|]. intros [?|[? _]%elem_of_replicate]; done.
    + lia.
    + lia.
    + right. lia.
Qed.

(** ** MapGet and MapPut *)

Lemma repr_free h m : repr h m → (occupied (contents h) < length (contents h))%nat.
Proof.
  intros [Hc Ht Hm Ho Hs [Hmin Hload] Hg].
  pose proof (Z.div_mod (capacity h) 2). pose proof (Z.mod_pos_bound (capacity h) 2). lia.
Qed.

Lemma MapGet_spec h m k : repr h m → capacity h <= 2 ^ 31 → str_ok k → MapGet h k = Ok (m !! k).
Proof.
  intros Hr Hbig Hk. pose proof (repr_free h m Hr) as Hfree. destruct Hr as [Hc Ht Hm Ho Hs [Hmin Hload] Hg].
  unfold MapGet. rewrite Hc.
  destruct (find_key_spec (contents h) k Ht ltac:(lia) Hk Hfree) as (j & o & -> & Hj & _ & Hkey).
  rewrite bind_Ok. f_equal. destruct o as [[k' v]|]; simpl in *.
  - subst k'. symmetry. apply Hm. by eapply list_elem_of_lookup_2.
  - destruct (m !! k) as [v|] eqn:E; [|done]. apply Hm, list_elem_of_lookup in E as [i Hi].
    by destruct (Hkey i _ Hi).
Qed.

(** Filling the slot the search found. *)
Lemma repr_fill h m k v j o n :
  repr h m → str_ok k → contents h !! j = Some o →
  (∀ e, 0 <= e < (Z.of_nat j - Hash k (capacity h)) mod capacity h →
     at_offset (contents h) (Hash k (capacity h)) e ≠ None) →
  match o with Some p => key p = k | None => ∀ i p, contents h !! i = Some (Some p) → key p ≠ k end →
  n = Z.of_nat (base.size (<[k := v]> m)) → n <= capacity h / 2 + 1 → size h <= n →
  repr (HMap (<[j := Some (Pair k v)]> (contents h)) (capacity h) n) (<[k := v]> m).
Proof.
  intros [Hc Ht Hm Ho Hs [Hmin Hload] Hg] Hk Hj Hpath Hkey Hn Hld Hle.
  pose proof (lookup_lt_Some _ _ _ Hj) as Hlt. rewrite Hc in Hpath.
  assert (∀ i q, i ≠ j → contents h !! i = Some (Some q) → key q ≠ k) as Hfresh.
  { intros i q Hne Hi E. destruct o as [p|]; [|by apply (Hkey i q Hi)].
    apply Hne. apply (tk_nodup _ Ht i j q p); congruence. }
  split; cbn [contents capacity size].
  - by rewrite length_insert.
  - by apply (table_ok_fill _ j _ o).
  - intros k' v'. destruct (decide (k' = k)) as [->|Hne].
    + rewrite lookup_insert_eq. split.
      * intros [= ->]. eapply list_elem_of_lookup_2, list_lookup_insert_eq, Hlt.
      * intros [i Hi]%list_elem_of_lookup. apply slot_insert_Some in Hi as [(-> & Hi & _)|[Hne Hi]]; [by simplify_eq|].
        by destruct (Hfresh i _ Hne Hi).
    + rewrite lookup_insert_ne, Hm by done. split; intros [i Hi]%list_elem_of_lookup.
      * apply (list_elem_of_lookup_2 _ i). rewrite list_lookup_insert_ne; [done|]. intros <-.
        assert (o = Some (Pair k' v')) as -> by congruence. done.
      * apply slot_insert_Some in Hi as [(-> & Hi & _)|[_ Hi]]; [by simplify_eq|by eapply list_elem_of_lookup_2].
  - destruct o as [p|].
    + rewrite (occupied_replace _ j _ p Hj), <- Ho, Hs, Hn. f_equal.
      apply map_size_insert_Some. exists (value p). apply Hm. eapply (list_elem_of_lookup_2 _ j).
      rewrite Hj, <- Hkey. by destruct p.
    + rewrite occupied_insert, Hn by done. rewrite map_size_insert_None; [lia|].
      destruct (m !! k) as [x|] eqn:E; [|done]. apply Hm, list_elem_of_lookup in E as [i Hi].
      by destruct (Hkey i _ Hi).
  - done.
  - lia.
  - lia.
Qed.

Lemma MapPut_spec h m k v :
  repr h m → capacity h <= 2 ^ 30 → str_ok k →
  ∃ h', MapPut true h k v = Ok (Some h') ∧ repr h' (<[k := v]> m).
Proof.
  intros Hr Hbig Hk.
  assert (∃ h1, (if capacity h / 2 <? size h then resize_map true h else Ok (Some h)) = Ok (Some h1)
    ∧ repr h1 m ∧ size h1 <= capacity h1 / 2 ∧ capacity h1 <= 2 ^ 31) as (h1 & E1 & Hr1 & Hld & Hcap).
  { destruct (Z.ltb_spec (capacity h / 2) (size h)) as [Hlt|Hge].
    - destruct (resize_spec h m Hr Hlt Hbig) as (h1 & ? & ? & ? & ?). exists h1. split_and!; try done. lia.
    - exists h. split_and!; try done; lia. }
  unfold MapPut. rewrite E1, bind_Ok. pose proof (repr_free h1 m Hr1) as Hfree.
  pose proof Hr1 as [Hc Ht Hm Ho Hs [Hmin _] _].
  destruct (find_key_spec (contents h1) k Ht ltac:(lia) Hk Hfree) as (j & o & E & Hj & Hpath & Hkey).
  rewrite <- Hc in E, Hpath. rewrite E, bind_Ok, Nat2Z.id.
  pose proof (Z.div_mod (capacity h1) 2). pose proof (Z.mod_pos_bound (capacity h1) 2).
  destruct o as [p|].
  - eexists. split; [done|]. apply (repr_fill h1 m k v j (Some p)); try done; try lia.
    rewrite map_size_insert_Some; [done|]. exists (value p). apply Hm. eapply (list_elem_of_lookup_2 _ j).
    rewrite Hj, <- Hkey. by destruct p.
  - eexists. split; [done|]. assert (u64 (size h1 + 1) = size h1 + 1) as ->
      by (unfold u64; rewrite Z.mod_small; lia).
    apply (repr_fill h1 m k v j None); try done; try lia.
    rewrite map_size_insert_None; [lia|].
    destruct (m !! k) as [x|] eqn:Ex; [|done]. apply Hm, list_elem_of_lookup in Ex as [i Hi].
    by destruct (Hkey i _ Hi).
Qed.

(** * Properties *)

Fixpoint put_all (h : HashMap) (ops : list (cstring * list Z)) : outcome (option HashMap) :=
  match ops with
  | [] => Ok (Some h)
  | (k, v) :: ops' =>
      r ← MapPut true h k v;
      match r with None => Ok None | Some h' => put_all h' ops' end
  end.

(** The specification: insertions into a finite map. *)
Definition insert_all (m : gmap cstring (list Z)) (ops : list (cstring * list Z)) : gmap cstring (list Z) :=
  foldl (λ m '(k, v), <[k := v]> m) m ops.

Lemma put_all_spec ops : ∀ h m n,
  repr h m → size h <= n → n + Z.of_nat (length ops) <= 2 ^ 28 → Forall (λ '(k, _), str_ok k) ops →
  ∃ h', put_all h ops = Ok (Some h') ∧ repr h' (insert_all m ops)
    ∧ size h' <= n + Z.of_nat (length ops).
Proof.
  induction ops as [|[k v] ops IH]; intros h m n Hr Hn Hlen Hops; cbn [put_all insert_all foldl length] in *.
  { exists h. split_and!; [done|done|lia]. }
  apply Forall_cons in Hops as [Hk Hops].
  assert (capacity h <= 2 ^ 30) as Hcap by (destruct (rp_grow h m Hr); lia).
  destruct (MapPut_spec h m k v Hr Hcap Hk) as (h1 & -> & Hr1). rewrite bind_Ok.
  destruct (IH h1 (<[k := v]> m) (n + 1)) as (h' & E & Hr' & Hs'); [done| |lia|done|].
  - rewrite (rp_size h1 _ Hr1). rewrite (rp_size h m Hr) in Hn.
    rewrite map_size_insert. destruct (m !! k); simpl; lia.
  - exists h'. split_and!; [done|done|lia].
Qed.

(** C17.  The hash map is a finite map.  After any sequence of up to 2^28 insertions
    into a fresh map (long enough for many doublings), no call loops, faults or
    exits; [MapGet] returns for every string exactly the value last stored under
    it, or NULL if there is none; and [MapSize] is the number of distinct keys. *)
Theorem hashmap_refines_map ops :
  Forall (λ '(k, _), str_ok k) ops → Z.of_nat (length ops) <= 2 ^ 28 →
  ∃ h, put_all MapInit ops = Ok (Some h)
    ∧ (∀ k, str_ok k → MapGet h k = Ok (insert_all ∅ ops !! k))
    ∧ MapSize h = Z.of_nat (base.size (insert_all ∅ ops)).
Proof.
  intros Hops Hlen. destruct (put_all_spec ops MapInit ∅ 0 repr_init) as (h & E & Hr & Hs); [done|lia|done|].
  exists h. split_and!; [done| |by apply (rp_size h _ Hr)].
  intros k Hk. apply MapGet_spec; [done| |done]. destruct (rp_grow h _ Hr); lia.
Qed.

(** C17 with an overwritten key. *)
Lemma hashmap_refines_map_witness :
  ∃ h, put_all MapInit [(of_string "a", [1]); (of_string "b", [2]); (of_string "a", [3])] = Ok (Some h)
    ∧ MapGet h (of_string "a") = Ok (Some [3]) ∧ MapSize h = 2.
Proof.
  destruct (hashmap_refines_map [(of_string "a", [1]); (of_string "b", [2]); (of_string "a", [3])])
    as (h & E & Hg & Hs); [|vm_compute; congruence|].
  - repeat constructor; vm_compute; reflexivity.
  - exists h. split_and!; [exact E| |exact Hs]. rewrite Hg; [reflexivity|].
    repeat constructor; vm_compute; reflexivity.
Defined.
