(* ===== verification/MapReduce.v ===== *)
(** The data structures of the map-reduce library (src/p3a/mapreduce.c): for each
    partition a list of keys, and for each key a list of values, linked through
    heap nodes.

    A pointer is [None] or the number of a node; [malloc] hands out the next
    number.  [strdup] copies, so a node owns its key and value.  [search] keeps its
    cursor in the globals [head] and [current], which all partitions share, while the lock
    around [add] and [Get] is that of one partition: [search_step] is one access to the
    globals, and [shared_cursor] shows what two searches do to each other.  The theorem is about
    calls that run one at a time, with the globals in the state that the last call left.
    The [while] loops carry as fuel the number of
    nodes allocated, which no cycle-free list exceeds. *)

From Stdlib Require Import ZArith Lia.
From stdpp Require Import base numbers list gmap sets sorting strings.
From S2P Require Import Prelude CStr.
#[local] Open Scope Z_scope.

Record node := Node { nkey : cstring; nval : cstring; next_key : option nat; next_val : option nat }.

Definition set_next_key (p : option nat) (n : node) : node := Node (nkey n) (nval n) p (next_val n).
Definition set_next_val (p : option nat) (n : node) : node := Node (nkey n) (nval n) (next_key n) p.

Record store := Store { heap : gmap nat node; brk : nat; arr_part : list (option nat) }.

(** [malloc] and the stores that initialise the node. *)
Definition new_node (n : node) (s : store) : nat * store :=
  (brk s, Store (<[brk s := n]> (heap s)) (S (brk s)) (arr_part s)).

Definition load (s : store) (a : nat) : outcome node :=
  match heap s !! a with Some n => Ok n | None => Fault (Z.of_nat a) end.

Definition modify (a : nat) (f : node → node) (s : store) : outcome store :=
  n ← load s a; Ok (Store (<[a := f n]> (heap s)) (brk s) (arr_part s)).

Definition part (s : store) (i : nat) : outcome (option nat) :=
  match arr_part s !! i with Some p => Ok p | None => Fault (Z.of_nat i) end.

Definition set_part (i : nat) (p : option nat) (s : store) : store :=
  Store (heap s) (brk s) (<[i := p]> (arr_part s)).

(** The whole state: the lists, and the globals [head] and [current], which the searches of all partitions share. *)
Record mem := Mem { sto : store; g_head : option nat; g_current : option nat }.

Definition set_sto (s : store) (m : mem) : mem := Mem s (g_head m) (g_current m).

(** Where a call of [search] is: before one of its accesses to the globals, or done. *)
Inductive search_pc := SHead | SNull | SFirst | STest | SCmp | SReturn | SNext | SDone (r : option nat).

Definition deref (s : store) (p : option nat) : outcome node :=
  match p with Some a => load s a | None => Fault 0 end.

(** One step of [search(k, partition)]. *)
Definition search_step (k : cstring) (partition : nat) (pc : search_pc) (m : mem) : outcome (search_pc * mem) :=
  match pc with
  | SHead => h ← part (sto m) partition; Ok (SNull, Mem (sto m) h (g_current m))
  | SNull => Ok (match g_head m with None => SDone None | Some _ => SFirst end, m)
  | SFirst => Ok (STest, Mem (sto m) (g_head m) (g_head m))
  | STest => Ok (match g_current m with None => SDone None | Some _ => SCmp end, m)
  | SCmp => n ← deref (sto m) (g_current m); Ok (if strcmp (nkey n) k =? 0 then SReturn else SNext, m)
  | SReturn => Ok (SDone (g_current m), m)
  | SNext => n ← deref (sto m) (g_current m); Ok (STest, Mem (sto m) (g_head m) (next_key n))
  | SDone r => Ok (SDone r, m)
  end.

Fixpoint search_run (k : cstring) (partition : nat) (pc : search_pc) (m : mem) (fuel : nat) : outcome (option nat * mem) :=
  match pc with
  | SDone r => Ok (r, m)
  | _ =>
      match fuel with
      | O => NoFuel
      | S f => '(pc1, m1) ← search_step k partition pc m; search_run k partition pc1 m1 f
      end
  end.

(** A call with no other search at the same time: three steps, three for each node, and one. *)
Definition search (m : mem) (k : cstring) (partition : nat) : outcome (option nat * mem) :=
  search_run k partition SHead m (3 + (3 * brk (sto m) + 1)).

(** [add] from the result of the search on. *)
Definition add_at (s : store) (result : option nat) (k v : cstring) (partition : nat) : outcome store :=
  let '(insert_val, s1) := new_node (Node k v None None) s in
  match result with
  | Some r =>
      n ← load s1 r;
      s2 ← modify insert_val (set_next_val (next_val n)) s1;
      modify r (set_next_val (Some insert_val)) s2
  | None =>
      let '(temp, s2) := new_node (Node k v None None) s1 in
      h ← part s2 partition;
      match h with
      | None => Ok (set_part partition (Some temp) s2)
      | Some _ =>
          s3 ← modify temp (set_next_key h) s2;
          Ok (set_part partition (Some temp) s3)
      end
  end.

Definition add (m : mem) (k v : cstring) (partition : nat) : outcome mem :=
  '(result, m1) ← search m k partition;
  s ← add_at (sto m1) result k v partition;
  Ok (set_sto s m1).

(** [while(curr != NULL) { if(strcmp(curr->key,key) >= 0) return prev; ... }] *)
Fixpoint findPrev_from (s : store) (prev curr : option nat) (k : cstring) (fuel : nat) : outcome (option nat) :=
  match curr with
  | None => Ok prev
  | Some a =>
      match fuel with
      | O => NoFuel
      | S f =>
          n ← load s a;
          if 0 <=? strcmp (nkey n) k then Ok prev else findPrev_from s curr (next_key n) k f
      end
  end.

Definition findPrev (s : store) (k : cstring) (partition : nat) : outcome (option nat) :=
  curr ← part s partition; findPrev_from s None curr k (brk s).

(** [Get] from the result of the search on. *)
Definition Get_at (s : store) (result : option nat) (k : cstring) (partition : nat) : outcome (option cstring * store) :=
  match result with
  | None => Ok (None, s)
  | Some r =>
      n ← load s r;
      match next_val n with
      | Some t =>
          temp ← load s t;
          s1 ← modify r (set_next_val (next_val temp)) s;
          Ok (Some (nval temp), s1)
      | None =>
          prev ← findPrev s k partition;
          match prev with
          | None => Ok (Some (nval n), set_part partition (next_key n) s)
          | Some q =>
              s1 ← modify q (set_next_key (next_key n)) s;
              Ok (Some (nval n), s1)
          end
      end
  end.

Definition Get (m : mem) (k : cstring) (partition : nat) : outcome (option cstring * mem) :=
  '(result, m1) ← search m k partition;
  '(r, s) ← Get_at (sto m1) result k partition;
  Ok (r, set_sto s m1).

(** [hash * 33 + c] in [unsigned long]; [char] is signed.  [num_partitions] is an
    [int], converted for the remainder. *)
Fixpoint hash_loop (hash : Z) (k : cstring) : Z :=
  match k with
  | [] => hash
  | c :: k' => hash_loop (u64 (hash * 33 + (if c <? 128 then c else c - 256))) k'
  end.

Definition MR_DefaultHashPartition (k : cstring) (num_partitions : Z) : Z :=
  hash_loop 5381 k mod u64 num_partitions.

(** [while(temp->next_key != NULL && strcmp(temp->next_key->key, curr->key) < 0)] *)
Fixpoint insert_walk (s : store) (temp : nat) (k : cstring) (fuel : nat) : outcome nat :=
  match fuel with
  | O => NoFuel
  | S f =>
      t ← load s temp;
      match next_key t with
      | None => Ok temp
      | Some a => n ← load s a; if strcmp (nkey n) k <? 0 then insert_walk s a k f else Ok temp
      end
  end.

Definition insertHelper (s : store) (sortedHead : option nat) (curr : nat) : outcome (option nat * store) :=
  c ← load s curr;
  first ← (match sortedHead with
           | None => Ok true
           | Some h => n ← load s h; Ok (0 <? strcmp (nkey n) (nkey c))
           end);
  match first, sortedHead with
  | false, Some h =>
      temp ← insert_walk s h (nkey c) (S (brk s));
      t ← load s temp;
      s1 ← modify curr (set_next_key (next_key t)) s;
      s2 ← modify temp (set_next_key (Some curr)) s1;
      Ok (sortedHead, s2)
  | _, _ => s1 ← modify curr (set_next_key sortedHead) s; Ok (Some curr, s1)
  end.

(** The [while] loop of [insertionSort] over one partition. *)
Fixpoint sort_loop (s : store) (sortedHead curr : option nat) (fuel : nat) : outcome (option nat * store) :=
  match curr with
  | None => Ok (sortedHead, s)
  | Some a =>
      match fuel with
      | O => NoFuel
      | S f =>
          n ← load s a;
          '(h, s1) ← insertHelper s sortedHead a;
          sort_loop s1 h (next_key n) f
      end
  end.

Fixpoint insertionSort_from (s : store) (i todo : nat) : outcome store :=
  match todo with
  | O => Ok s
  | S t =>
      curr ← part s i;
      '(h, s1) ← sort_loop s None curr (brk s);
      insertionSort_from (set_part i h s1) (S i) t
  end.

Definition insertionSort (s : store) : outcome store :=
  insertionSort_from s 0 (length (arr_part s)).

(** [PARTITIONS] empty lists. *)
Definition empty_store (partitions : nat) : store := Store ∅ 0 (replicate partitions None).

Definition empty_mem (partitions : nat) : mem := Mem (empty_store partitions) None None.

(** [pner] is the partitioner the program passed to [MR_Run]; its result is
    stored in an [int]. *)
Definition MR_Emit (pner : cstring → Z → Z) (m : mem) (k v : cstring) : outcome mem :=
  let part_num := s32 (pner k (Z.of_nat (length (arr_part (sto m))))) in
  if part_num <? 0 then Fault part_num else add m k v (Z.to_nat part_num).

(** The queue of the reducers, up to [reduceTaskCount]: the key and the partition of each task; [None] is the end marker,
    whose key is NULL. *)
Abbreviation rqueue := (list (option (cstring * nat))).

(** [reduceTask rQueue[1000]] *)
Definition RQUEUE : nat := Z.to_nat 1000.

Definition submitReduceTask (task : option (cstring * nat)) (rQueue : rqueue) : outcome rqueue :=
  if (RQUEUE <=? length rQueue)%nat then Fault (Z.of_nat (length rQueue)) else Ok (rQueue ++ [task]).

(** The loop of [MR_Run] that makes the reduce tasks of a partition, in list order. *)
Fixpoint tasks_from (s : store) (curr : option nat) (part_num fuel : nat) (rQueue : rqueue) : outcome rqueue :=
  match curr with
  | None => Ok rQueue
  | Some a =>
      match fuel with
      | O => NoFuel
      | S f => n ← load s a; q ← submitReduceTask (Some (nkey n, part_num)) rQueue; tasks_from s (next_key n) part_num f q
      end
  end.

Fixpoint reduce_tasks_from (s : store) (i todo : nat) (rQueue : rqueue) : outcome rqueue :=
  match todo with
  | O => Ok rQueue
  | S t =>
      curr ← part s i;
      q ← tasks_from s curr i (brk s) rQueue;
      reduce_tasks_from s (S i) t q
  end.

(** All tasks and the end marker, submitted before a reducer takes the first. *)
Definition reduce_tasks (s : store) : outcome rqueue :=
  q ← reduce_tasks_from s 0 (length (arr_part s)) [];
  submitReduceTask None q.

(** The mappers' emissions, one after another. *)
Fixpoint emit_all (pner : cstring → Z → Z) (m : mem) (kvs : list (cstring * cstring)) : outcome mem :=
  match kvs with
  | [] => Ok m
  | (k, v) :: kvs' => m1 ← MR_Emit pner m k v; emit_all pner m1 kvs'
  end.

(** A [reduce] that calls [get_next] until it returns NULL. *)
Fixpoint drain (m : mem) (k : cstring) (partition fuel : nat) : outcome (list cstring * mem) :=
  match fuel with
  | O => NoFuel
  | S f =>
      '(r, m1) ← Get m k partition;
      match r with
      | None => Ok ([], m1)
      | Some v => '(l, m2) ← drain m1 k partition f; Ok (v :: l, m2)
      end
  end.

(** One reducer thread with such a [reduce]: it takes the first task and moves the others up, until the end marker.
    On an empty queue it would wait. *)
Fixpoint startReduceThread (m : mem) (rQueue : rqueue) : outcome (list (list cstring) * mem) :=
  match rQueue with
  | [] => Fault 0
  | None :: _ => Ok ([], m)
  | Some (k, i) :: rQueue' =>
      '(l, m1) ← drain m k i (S (brk (sto m)));
      '(ls, m2) ← startReduceThread m1 rQueue';
      Ok (l :: ls, m2)
  end.

Example emit_sort_get :
  (m ← MR_Emit MR_DefaultHashPartition (empty_mem 2) (of_string "b") (of_string "1");
   m ← MR_Emit MR_DefaultHashPartition m (of_string "d") (of_string "2");
   m ← MR_Emit MR_DefaultHashPartition m (of_string "b") (of_string "3");
   s ← insertionSort (sto m); '(v, m) ← Get (set_sto s m) (of_string "b") 1; '(w, m) ← Get m (of_string "b") 1;
   '(x, _) ← Get m (of_string "b") 1; Ok (v, w, x))
  = Ok (Some (of_string "3"), Some (of_string "1"), None).
Proof. vm_compute. reflexivity. Qed.

(** Two searches at the same time; [true] is a step of the first. *)
Fixpoint interleave (sched : list bool) (k1 : cstring) (i1 : nat) (pc1 : search_pc) (k2 : cstring) (i2 : nat) (pc2 : search_pc) (m : mem)
    : outcome (search_pc * search_pc * mem) :=
  match sched with
  | [] => Ok (pc1, pc2, m)
  | true :: sched' => '(pc, m1) ← search_step k1 i1 pc1 m; interleave sched' k1 i1 pc k2 i2 pc2 m1
  | false :: sched' => '(pc, m1) ← search_step k2 i2 pc2 m; interleave sched' k1 i1 pc1 k2 i2 pc m1
  end.

Definition race_mem : mem := Mem (Store {[ 0%nat := Node (of_string "a") [] None None; 1%nat := Node (of_string "b") [] (Some 0%nat) None;
  2%nat := Node (of_string "c") [] None None ]} 3 [Some 1%nat; Some 2%nat]) None None.

(** The locks of the partitions do not protect the cursor: while the first search is between two nodes of partition 0, a
    search of partition 1 starts.  The first then misses the key [a], which is in its list, or, one step later, dereferences NULL. *)
Example shared_cursor :
  ('(r, _) ← search race_mem (of_string "a") 0; Ok r) = Ok (Some 0%nat) ∧
  ('(pc, _, _) ← interleave [true; true; true; true; true; false; false; false; true; true] (of_string "a") 0 SHead (of_string "c") 1 SHead race_mem; Ok pc) = Ok (SDone None) ∧
  interleave [true; true; true; true; true; true; true; false; false; false; false; false; true; false; true] (of_string "a") 0 SHead (of_string "d") 1 SHead race_mem = Fault 0.
Proof. vm_compute. done. Qed.

(** * One search at a time

    The same operations on the lists alone, with a cursor that nobody shares. *)

Fixpoint find_from (s : store) (curr : option nat) (k : cstring) (fuel : nat) : outcome (option nat) :=
  match curr with
  | None => Ok None
  | Some a =>
      match fuel with
      | O => NoFuel
      | S f => n ← load s a; if strcmp (nkey n) k =? 0 then Ok (Some a) else find_from s (next_key n) k f
      end
  end.

Definition find_key (s : store) (k : cstring) (i : nat) : outcome (option nat) := h ← part s i; find_from s h k (brk s).
Definition add_s (s : store) (k v : cstring) (i : nat) : outcome store := r ← find_key s k i; add_at s r k v i.
Definition Get_s (s : store) (k : cstring) (i : nat) : outcome (option cstring * store) := r ← find_key s k i; Get_at s r k i.

Lemma search_run_find k i f : ∀ m r, find_from (sto m) (g_current m) k f = Ok r →
  ∃ c, search_run k i STest m (3 * f + 1) = Ok (r, Mem (sto m) (g_head m) c).
Proof.
  induction f as [|f IH]; intros [s h c] r E; cbn [sto g_current g_head] in *; destruct c as [a|]; cbn [find_from] in E; try discriminate E.
  - injection E as <-. by exists None.
  - apply bind_Ok_inv in E as (n & En & E). replace (3 * S f + 1)%nat with (S (S (S (3 * f + 1)))) by lia.
    cbn [search_run search_step sto g_current g_head deref]. rewrite !bind_Ok. cbn [search_run search_step sto g_current g_head deref]. rewrite En, !bind_Ok.
    destruct (strcmp (nkey n) k =? 0); cbn [search_run search_step sto g_current g_head deref].
    + injection E as <-. rewrite bind_Ok. exists (Some a). replace (3 * f + 1)%nat with (S (3 * f)) by lia. done.
    + rewrite En, !bind_Ok. apply (IH (Mem s h (next_key n)) r E).
  - injection E as <-. exists None. by replace (3 * S f + 1)%nat with (S (S (3 * f + 2))) by lia.
Qed.

(** A search that is alone finds what the private one finds, and changes nothing but the cursor. *)
Lemma search_find m k i r : find_key (sto m) k i = Ok r → ∃ m', search m k i = Ok (r, m') ∧ sto m' = sto m.
Proof.
  destruct m as [s h0 c0]. unfold find_key. cbn [sto]. intros E. apply bind_Ok_inv in E as (h & Eh & E). unfold search. cbn [sto].
  change (3 + (3 * brk s + 1))%nat with (S (S (S (3 * brk s + 1)))). cbn [search_run search_step sto g_current g_head]. rewrite Eh, !bind_Ok.
  cbn [search_run search_step sto g_current g_head]. rewrite bind_Ok. destruct h as [a|].
  - cbn [search_run search_step sto g_current g_head]. rewrite bind_Ok.
    destruct (search_run_find k i (brk s) (Mem s (Some a) (Some a)) r E) as (c & ->). by eexists.
  - destruct (brk s); injection E as <-; by eexists.
Qed.

Lemma add_find m k v i s' : add_s (sto m) k v i = Ok s' → ∃ m', add m k v i = Ok m' ∧ sto m' = s'.
Proof.
  unfold add_s. intros E. apply bind_Ok_inv in E as (r & Er & E). destruct (search_find m k i r Er) as (m1 & Es & Em).
  unfold add. rewrite Es, bind_Ok, Em, E, bind_Ok. by eexists.
Qed.

Lemma Get_find m k i x s' : Get_s (sto m) k i = Ok (x, s') → ∃ m', Get m k i = Ok (x, m') ∧ sto m' = s'.
Proof.
  unfold Get_s. intros E. apply bind_Ok_inv in E as (r & Er & E). destruct (search_find m k i r Er) as (m1 & Es & Em).
  unfold Get. rewrite Es, bind_Ok, Em, E, bind_Ok. by eexists.
Qed.

(** * Lists in the heap

    A group is a key node with the value nodes that hang off it. *)

Record group := Group { gloc : nat; gkey : cstring; gval : cstring; gchain : list (nat * cstring) }.

Definition glocs (g : group) : list nat := gloc g :: (gchain g).*1.
Definition gvals (g : group) : list cstring := (gchain g).*2 ++ [gval g].

Fixpoint vchain (h : gmap nat node) (p : option nat) (l : list (nat * cstring)) : Prop :=
  match l with
  | [] => p = None
  | (a, v) :: l' => p = Some a ∧ ∃ n, h !! a = Some n ∧ nval n = v ∧ vchain h (next_val n) l'
  end.

Definition group_at (h : gmap nat node) (g : group) : Prop :=
  ∃ n, h !! gloc g = Some n ∧ nkey n = gkey g ∧ nval n = gval g ∧ vchain h (next_val n) (gchain g).

(** The nodes from [p] to [q], exclusive, along [next_key]. *)
Fixpoint kseg (h : gmap nat node) (p : option nat) (ls : list nat) (q : option nat) : Prop :=
  match ls with
  | [] => p = q
  | a :: ls' => p = Some a ∧ ∃ n, h !! a = Some n ∧ kseg h (next_key n) ls' q
  end.

(** Node [a] keeps all but [next_key]. *)
Definition keeps (h h' : gmap nat node) (a : nat) : Prop :=
  ∀ n, h !! a = Some n → ∃ p, h' !! a = Some (set_next_key p n).

Lemma keeps_eq h h' a : h' !! a = h !! a → keeps h h' a.
Proof. intros E n Hn. exists (next_key n). rewrite E, Hn. by destruct n. Qed.

Lemma keeps_set h a n p b : h !! a = Some n → keeps h (<[a := set_next_key p n]> h) b.
Proof.
  intros Ha m Hm. destruct (decide (a = b)) as [<-|Hne].
  - rewrite Ha in Hm. simplify_eq. exists p. by rewrite lookup_insert_eq.
  - exists (next_key m). rewrite lookup_insert_ne, Hm by done. by destruct m.
Qed.

Lemma keeps_trans h1 h2 h3 a : keeps h1 h2 a → keeps h2 h3 a → keeps h1 h3 a.
Proof. intros H12 H23 n Hn. apply H12 in Hn as [p Hn]. apply H23 in Hn as [q Hn]. by exists q. Qed.

Lemma vchain_keeps h h' p l : (∀ a, a ∈ l.*1 → keeps h h' a) → vchain h p l → vchain h' p l.
Proof.
  revert p. induction l as [|[a v] l IH]; intros p Hk; simpl in *; [done|].
  intros (-> & n & Hn & <- & Hl). split; [done|].
  destruct (Hk a (list_elem_of_here _ _) n Hn) as [q Hq]. exists (set_next_key q n).
  split_and!; [done..|]. apply IH; [|done]. intros b Hb. apply Hk. by right.
Qed.

Lemma group_at_keeps h h' g : (∀ a, a ∈ glocs g → keeps h h' a) → group_at h g → group_at h' g.
Proof.
  intros Hk (n & Hn & Hkey & Hval & Hl).
  destruct (Hk (gloc g) (list_elem_of_here _ _) n Hn) as [q Hq]. exists (set_next_key q n).
  split_and!; [done..|]. eapply vchain_keeps; [|done]. intros a Ha. apply Hk. by right.
Qed.

Lemma kseg_keeps h h' p ls q :
  (∀ a n, a ∈ ls → h !! a = Some n → ∃ n', h' !! a = Some n' ∧ next_key n' = next_key n) →
  kseg h p ls q → kseg h' p ls q.
Proof.
  revert p. induction ls as [|a ls IH]; intros p Hf; simpl; [done|].
  intros (-> & n & Hn & Hs). split; [done|].
  destruct (Hf a n (list_elem_of_here _ _) Hn) as (n' & Hn' & E). exists n'. rewrite E.
  split; [done|]. apply IH; [|done]. intros b m Hb. apply Hf. by right.
Qed.

Lemma kseg_frame h h' p ls q : (∀ a, a ∈ ls → h' !! a = h !! a) → kseg h p ls q → kseg h' p ls q.
Proof. intros Hf. apply kseg_keeps. intros a n Ha Hn. exists n. by rewrite Hf. Qed.

Lemma kseg_app h p l1 l2 q : kseg h p (l1 ++ l2) q ↔ ∃ r, kseg h p l1 r ∧ kseg h r l2 q.
Proof.
  revert p. induction l1 as [|a l1 IH]; intros p; simpl.
  - naive_solver.
  - setoid_rewrite IH. naive_solver.
Qed.

Definition gkeys (gs : list group) : list cstring := map gkey gs.

(** A partition: its key nodes linked in order, each node used once, keys distinct. *)
Record rep (h : gmap nat node) (p : option nat) (gs : list group) : Prop := {
  rep_seg : kseg h p (gloc <$> gs) None;
  rep_at : Forall (group_at h) gs;
  rep_locs : NoDup (gs ≫= glocs);
  rep_ok : Forall (λ g, str_ok (gkey g)) gs;
  rep_keys : NoDup (gkeys gs) }.

(** The partitions together: no node is shared, and all lie below [brk]. *)
Record store_ok (s : store) (parts : list (list group)) : Prop := {
  st_rep : Forall2 (rep (heap s)) (arr_part s) parts;
  st_sep : ∀ i j gi gj a, parts !! i = Some gi → parts !! j = Some gj →
    a ∈ gi ≫= glocs → a ∈ gj ≫= glocs → i = j;
  st_brk : ∀ i gs a, parts !! i = Some gs → a ∈ gs ≫= glocs → (a < brk s)%nat }.

Lemma gloc_in g gs : g ∈ gs → gloc g ∈ gs ≫= glocs.
Proof. intros Hg. apply list_elem_of_bind. exists g. split; [apply list_elem_of_here|done]. Qed.

Lemma glocs_app l1 g l2 : (l1 ++ g :: l2) ≫= glocs = (l1 ≫= glocs) ++ glocs g ++ (l2 ≫= glocs).
Proof. by rewrite bind_app. Qed.

Lemma store_part s parts i gs : store_ok s parts → parts !! i = Some gs →
  ∃ p, arr_part s !! i = Some p ∧ part s i = Ok p ∧ rep (heap s) p gs.
Proof.
  intros [Hr _ _] Hi. destruct (Forall2_lookup_r _ _ _ _ _ Hr Hi) as (p & Hp & Hrep).
  exists p. unfold part. by rewrite Hp.
Qed.

Lemma rep_frame h h' p gs : (∀ a, a ∈ gs ≫= glocs → h' !! a = h !! a) → rep h p gs → rep h' p gs.
Proof.
  intros Hf [Hs Ha Hl Ho Hk]. split; try done.
  - eapply kseg_frame; [|done]. intros a (g & -> & Hg)%list_elem_of_fmap. by apply Hf, gloc_in.
  - rewrite Forall_forall in Ha |- *. intros g Hg. eapply group_at_keeps; [|by apply Ha].
    intros a Hag. apply keeps_eq, Hf, list_elem_of_bind. by exists g.
Qed.

(** A change of partition [i] that leaves the other nodes alone. *)
Lemma store_update s parts i p gs h' brk' p' gs' :
  store_ok s parts → parts !! i = Some gs → arr_part s !! i = Some p →
  rep h' p' gs' → (brk s ≤ brk')%nat →
  (∀ a, a ∈ gs' ≫= glocs → a ∈ gs ≫= glocs ∨ (brk s ≤ a < brk')%nat) →
  (∀ a, (a < brk s)%nat → a ∉ gs ≫= glocs → h' !! a = heap s !! a) →
  store_ok (Store h' brk' (<[i := p']> (arr_part s))) (<[i := gs']> parts).
Proof.
  intros [Hr Hsep Hbrk] Hi Hp Hrep Hle Hnew Hframe. split; cbn [heap arr_part brk].
  - apply Forall2_same_length_lookup_2.
    { rewrite !length_insert. by eapply Forall2_length. }
    intros j q gj Hq Hj. destruct (decide (j = i)) as [->|Hne].
    { apply list_lookup_insert_Some in Hq, Hj. naive_solver. }
    rewrite list_lookup_insert_ne in Hq by done. rewrite list_lookup_insert_ne in Hj by done.
    eapply rep_frame; [|exact (Forall2_lookup_lr _ _ _ _ _ _ Hr Hq Hj)].
    intros a Ha. apply Hframe; [by eapply Hbrk|]. intros Ha'. by eapply Hne, Hsep.
  - intros j1 j2 g1 g2 a H1 H2 Ha1 Ha2.
    apply slot_insert_Some in H1 as [(-> & -> & ?)|[? H1]], H2 as [(-> & -> & ?)|[? H2]]; [done|..].
    + apply Hnew in Ha1 as [Ha1|Ha1]; [by eapply Hsep|]. specialize (Hbrk _ _ _ H2 Ha2). lia.
    + apply Hnew in Ha2 as [Ha2|Ha2]; [by eapply Hsep|]. specialize (Hbrk _ _ _ H1 Ha1). lia.
    + by eapply Hsep.
  - intros j gj a Hj Ha. slot_cases.
    + apply Hnew in Ha as [Ha|Ha]; [|lia]. specialize (Hbrk _ _ _ Hi Ha). lia.
    + specialize (Hbrk _ _ _ Hj Ha). lia.
Qed.

Lemma load_ok s a n : heap s !! a = Some n → load s a = Ok n.
Proof. unfold load. by intros ->. Qed.

Lemma load_group s g : group_at (heap s) g →
  ∃ n, heap s !! gloc g = Some n ∧ load s (gloc g) = Ok n ∧ nkey n = gkey g ∧ nval n = gval g ∧
    vchain (heap s) (next_val n) (gchain g).
Proof. intros (n & Hn & ?). exists n. unfold load. by rewrite Hn. Qed.

Lemma length_brk s parts i gs : store_ok s parts → parts !! i = Some gs → (length (gs ≫= glocs) ≤ brk s)%nat.
Proof.
  intros Hok Hi. destruct (store_part _ _ _ _ Hok Hi) as (p & _ & _ & Hrep).
  rewrite <- (length_seq (brk s) 0). apply submseteq_length, NoDup_submseteq; [apply Hrep|].
  intros a Ha. apply elem_of_seq. pose proof (st_brk _ _ Hok _ _ _ Hi Ha). lia.
Qed.

Lemma length_glocs gs : (length gs ≤ length (gs ≫= glocs))%nat.
Proof. induction gs as [|g gs IH]; cbn; [lia|]. rewrite length_app. cbn in *. lia. Qed.

(** * Search *)

Lemma find_from_spec s gs k : str_ok k → ∀ p fuel,
  kseg (heap s) p (gloc <$> gs) None → Forall (group_at (heap s)) gs →
  Forall (λ g, str_ok (gkey g)) gs → (length gs ≤ fuel)%nat →
  (∃ l1 g l2, gs = l1 ++ g :: l2 ∧ gkey g = k ∧ (k ∉ gkeys l1) ∧
     find_from s p k fuel = Ok (Some (gloc g))) ∨
  ((k ∉ gkeys gs) ∧ find_from s p k fuel = Ok None).
Proof.
  intros Hk. induction gs as [|g gs IH]; intros p fuel Hs Ha Ho Hf.
  { simpl in Hs. subst p. right. split; [apply not_elem_of_nil|]. by destruct fuel. }
  inversion_clear Ha as [|?? Hg Ha']. inversion_clear Ho as [|?? Hgk Ho'].
  destruct Hs as (-> & n & Hn & Hs). destruct fuel as [|fuel]; [simpl in Hf; lia|].
  destruct (load_group _ _ Hg) as (n' & Hn' & Hl & Ek & _). rewrite Hn in Hn'. simplify_eq.
  cbn [find_from]. rewrite Hl, bind_Ok, Ek, strcmp_neg_eq by done.
  case_bool_decide as Heq.
  - left. exists [], g, gs. split_and!; [done..|apply not_elem_of_nil|done].
  - destruct (IH (next_key n') fuel Hs Ha' Ho') as [(l1 & x & l2 & -> & Hx & Hn1 & E)|[Hno E]];
      [simpl in Hf; lia| |].
    + left. exists (g :: l1), x, l2. split_and!; [done..| |done]. by apply not_elem_of_cons.
    + right. split; [|done]. by apply not_elem_of_cons.
Qed.

Lemma find_spec s parts i gs k : store_ok s parts → parts !! i = Some gs → str_ok k →
  (∃ l1 g l2, gs = l1 ++ g :: l2 ∧ gkey g = k ∧ find_key s k i = Ok (Some (gloc g))) ∨
  ((k ∉ gkeys gs) ∧ find_key s k i = Ok None).
Proof.
  intros Hok Hi Hk. destruct (store_part _ _ _ _ Hok Hi) as (p & _ & Hp & [Hs Ha _ Ho _]).
  unfold find_key. rewrite Hp, bind_Ok.
  pose proof (length_brk _ _ _ _ Hok Hi). pose proof (length_glocs gs).
  destruct (find_from_spec s gs k Hk p (brk s) Hs Ha Ho) as [(l1 & g & l2 & H1 & H2 & _ & H3)|[]]; [lia| |by right].
  left. by exists l1, g, l2.
Qed.

(** * The values of a key *)

Fixpoint values_of (gs : list group) (k : cstring) : list cstring :=
  match gs with
  | [] => []
  | g :: gs' => if decide (gkey g = k) then gvals g else values_of gs' k
  end.

Lemma values_of_absent gs k : k ∉ gkeys gs → values_of gs k = [].
Proof.
  induction gs as [|g gs IH]; simpl; [done|]. intros [Hne Hk]%not_elem_of_cons.
  rewrite decide_False by congruence. auto.
Qed.

Lemma values_of_present gs k : values_of gs k = [] → k ∉ gkeys gs.
Proof.
  induction gs as [|g gs IH]; simpl; [intros; apply not_elem_of_nil|]. destruct (decide (gkey g = k)) as [->|Hne].
  - unfold gvals. intros H. by apply app_nil in H as [_ H].
  - intros H. apply not_elem_of_cons. split; [congruence|auto].
Qed.

Lemma values_of_in gs g : NoDup (gkeys gs) → g ∈ gs → values_of gs (gkey g) = gvals g.
Proof.
  induction gs as [|x gs IH]; simpl; [by intros _ ?%not_elem_of_nil|].
  rewrite NoDup_cons. intros [Hx Hnd] [->|Hg]%elem_of_cons; [by rewrite decide_True|].
  rewrite decide_False; [by apply IH|]. intros E. apply Hx. rewrite E.
  apply list_elem_of_fmap. by exists g.
Qed.

(** [values_of] depends on the keys and their values only, not on order. *)
Lemma values_of_ext gs gs' k : NoDup (gkeys gs) → NoDup (gkeys gs') →
  (∀ g, g ∈ gs → gkey g = k → ∃ g', g' ∈ gs' ∧ gkey g' = k ∧ gvals g' = gvals g) →
  (∀ g', g' ∈ gs' → gkey g' = k → ∃ g, g ∈ gs ∧ gkey g = k) →
  values_of gs' k = values_of gs k.
Proof.
  intros Hn Hn' H1 H2. destruct (decide (k ∈ gkeys gs)) as [Hin|Hout].
  - apply list_elem_of_fmap in Hin as (g & -> & Hg). destruct (H1 g Hg eq_refl) as (g' & Hg' & E & Ev).
    rewrite <- E at 1. by rewrite !values_of_in, Ev.
  - rewrite !values_of_absent; [done|done|]. intros (g' & E & Hg')%list_elem_of_fmap.
    destruct (H2 g' Hg' (eq_sym E)) as (g & Hg & Eg). apply Hout, list_elem_of_fmap. by exists g.
Qed.

(** * add *)

Lemma values_of_app_ne l1 g g' l2 k : gkey g = gkey g' → gkey g ≠ k →
  values_of (l1 ++ g' :: l2) k = values_of (l1 ++ g :: l2) k.
Proof.
  intros E Hne. induction l1 as [|x l1 IH]; simpl.
  - by rewrite !decide_False by congruence.
  - by rewrite IH.
Qed.

Lemma values_of_app_eq l1 g l2 : NoDup (gkeys (l1 ++ g :: l2)) →
  values_of (l1 ++ g :: l2) (gkey g) = gvals g.
Proof. intros. apply values_of_in; [done|]. apply elem_of_app. right. apply list_elem_of_here. Qed.

Lemma modify_ok s a f n : heap s !! a = Some n →
  modify a f s = Ok (Store (<[a := f n]> (heap s)) (brk s) (arr_part s)).
Proof. intros Hn. unfold modify, load. by rewrite Hn. Qed.

Lemma fresh_glocs s parts i gs : store_ok s parts → parts !! i = Some gs →
  ∀ a, (brk s ≤ a)%nat → a ∉ gs ≫= glocs.
Proof. intros Hok Hi a Ha Hin. pose proof (st_brk _ _ Hok _ _ _ Hi Hin). lia. Qed.

Lemma gkeys_mid l1 g g' l2 : gkey g' = gkey g → gkeys (l1 ++ g' :: l2) = gkeys (l1 ++ g :: l2).
Proof. unfold gkeys. rewrite !map_app. simpl. by intros ->. Qed.

Definition cons_val (a : nat) (v : cstring) (g : group) : group :=
  Group (gloc g) (gkey g) (gval g) ((a, v) :: gchain g).

(** Groups away from the changed nodes. *)
Lemma groups_frame h h' gs : (∀ b, b ∈ gs ≫= glocs → h' !! b = h !! b) →
  Forall (group_at h) gs → Forall (group_at h') gs.
Proof.
  rewrite !Forall_forall. intros Hf Ha x Hx. eapply group_at_keeps; [|by apply Ha].
  intros b Hb. apply keeps_eq, Hf, list_elem_of_bind. by exists x.
Qed.

(** Splitting the distinct nodes of a partition at one group. *)
Lemma glocs_split l1 g l2 : NoDup ((l1 ++ g :: l2) ≫= glocs) →
  NoDup (glocs g) ∧ (∀ b, b ∈ l1 ≫= glocs ∨ b ∈ l2 ≫= glocs → b ∉ glocs g).
Proof.
  rewrite glocs_app. intros (_ & Hd1 & (Hg & Hd2 & _)%NoDup_app)%NoDup_app. split; [done|].
  intros b [Hb|Hb] Hbg; [|by eapply Hd2]. eapply Hd1; [done|]. apply elem_of_app. by left.
Qed.

(** A new value node at the front of the chain of [g]. *)
Lemma rep_cons_val h p l1 g l2 a k v n :
  rep h p (l1 ++ g :: l2) → a ∉ (l1 ++ g :: l2) ≫= glocs → h !! gloc g = Some n →
  rep (<[gloc g := set_next_val (Some a) n]> (<[a := Node k v None (next_val n)]> h))
    p (l1 ++ cons_val a v g :: l2).
Proof.
  intros [Hs Ha Hl Ho Hk] Hfresh Hn. destruct (glocs_split _ _ _ Hl) as [Hlg Hd].
  set (h' := <[gloc g := set_next_val (Some a) n]> (<[a := Node k v None (next_val n)]> h)).
  assert (∀ b, b ≠ gloc g → b ≠ a → h' !! b = h !! b) as Hsame
    by (intros; unfold h'; by rewrite !lookup_insert_ne by done).
  pose proof Hfresh as Hf. rewrite glocs_app, !not_elem_of_app in Hf. destruct Hf as (Hf1 & Hfg & Hf2).
  apply Forall_app in Ha as [Ha1 Ha]. inversion_clear Ha as [|?? Hg Ha2].
  assert (∀ b, b ∈ l1 ≫= glocs ∨ b ∈ l2 ≫= glocs → h' !! b = h !! b) as Hrest.
  { intros b Hb. apply Hsame; [intros ->; eapply Hd; [done|apply list_elem_of_here]|].
    intros ->. by destruct Hb. }
  split.
  - rewrite fmap_app in Hs |- *. eapply kseg_keeps; [|exact Hs]. intros b m Hb Hm.
    destruct (decide (b = gloc g)) as [->|Hbg].
    { simplify_eq. eexists. unfold h'. by rewrite lookup_insert_eq. }
    exists m. rewrite Hsame; [done..|]. intros ->. apply Hfresh.
    change (gloc <$> cons_val a v g :: l2) with (gloc <$> g :: l2) in Hb. rewrite <- fmap_app in Hb.
    apply list_elem_of_fmap in Hb as (x & -> & Hx). by apply gloc_in.
  - apply Forall_app. split; [|constructor].
    + eapply groups_frame; [|done]. intros. apply Hrest. by left.
    + destruct Hg as (n0 & Hn0 & Ek & Ev & Hc). rewrite Hn in Hn0. injection Hn0 as <-. exists (set_next_val (Some a) n).
      unfold h' at 1. rewrite lookup_insert_eq. split_and!; [done..|]. split; [done|].
      exists (Node k v None (next_val n)). unfold h' at 1.
      rewrite lookup_insert_ne, lookup_insert_eq by (intros <-; apply Hfg, list_elem_of_here).
      split_and!; [done..|]. eapply vchain_keeps; [|done]. intros b Hb. apply keeps_eq, Hsame.
      * intros ->. by apply NoDup_cons in Hlg as [? _].
      * intros ->. apply Hfg. by right.
    + eapply groups_frame; [|done]. intros. apply Hrest. by right.
  - eapply NoDup_Permutation_proper, NoDup_cons; [|split; [exact Hfresh|exact Hl]].
    rewrite !glocs_app. simpl. solve_Permutation.
  - apply Forall_app in Ho as [Ho1 Ho]. apply Forall_app. split; [done|]. by inversion_clear Ho; constructor.
  - by rewrite (gkeys_mid l1 g).
Qed.

(** A new key node at the front of the partition. *)
Lemma rep_cons_key h p gs a k v :
  rep h p gs → a ∉ gs ≫= glocs → k ∉ gkeys gs → str_ok k →
  rep (<[a := Node k v p None]> h) (Some a) (Group a k v [] :: gs).
Proof.
  intros Hrep Hfresh Hk Hok.
  assert (rep (<[a := Node k v p None]> h) p gs) as [Hs Ha Hl Ho Hd].
  { eapply rep_frame; [|done]. intros b Hb. rewrite lookup_insert_ne; [done|]. by intros ->. }
  split.
  - split; [done|]. exists (Node k v p None). by rewrite lookup_insert_eq.
  - constructor; [|done]. exists (Node k v p None). by rewrite lookup_insert_eq.
  - simpl. by apply NoDup_cons.
  - by constructor.
  - by apply NoDup_cons.
Qed.

Lemma glocs_cons_val l1 g l2 a v b :
  b ∈ (l1 ++ cons_val a v g :: l2) ≫= glocs → b = a ∨ b ∈ (l1 ++ g :: l2) ≫= glocs.
Proof. rewrite !glocs_app. unfold glocs, cons_val. simpl. rewrite !elem_of_app, !elem_of_cons. tauto. Qed.

Lemma add_found s parts i l1 g l2 v :
  store_ok s parts → parts !! i = Some (l1 ++ g :: l2) →
  find_key s (gkey g) i = Ok (Some (gloc g)) →
  ∃ s', add_s s (gkey g) v i = Ok s' ∧
    store_ok s' (<[i := l1 ++ cons_val (brk s) v g :: l2]> parts).
Proof.
  intros Hok Hi Hsearch. destruct (store_part _ _ _ _ Hok Hi) as (p & Hp & _ & Hrep).
  pose proof (fresh_glocs _ _ _ _ Hok Hi) as Hfresh.
  assert (g ∈ l1 ++ g :: l2) as Hin by (apply elem_of_app; right; apply list_elem_of_here).
  assert (group_at (heap s) g) as (n & Hn & _) by (by eapply Forall_forall; [apply Hrep|]).
  assert (gloc g ≠ brk s) as Hne by (intros E; eapply (Hfresh (gloc g)); [lia|by apply gloc_in]).
  unfold add_s, add_at. rewrite Hsearch, bind_Ok. cbn [new_node].
  unfold load at 1. cbn [heap]. rewrite lookup_insert_ne, Hn, bind_Ok by done.
  erewrite modify_ok by (cbn [heap]; apply lookup_insert_eq). rewrite bind_Ok.
  erewrite modify_ok by (cbn [heap]; rewrite !lookup_insert_ne by done; exact Hn).
  cbn [heap brk arr_part]. rewrite insert_insert_eq. eexists. split; [done|].
  rewrite <- (list_insert_id (arr_part s) i p) by done.
  eapply store_update; [done..| |lia| |].
  - apply (rep_cons_val _ _ l1 g l2 (brk s) (gkey g) v n Hrep); [by apply Hfresh|done].
  - intros b [->|Hb]%glocs_cons_val; [right; lia|by left].
  - intros b Hb Hnot. rewrite !lookup_insert_ne; [done|lia|]. intros <-. by apply Hnot, gloc_in.
Qed.

Lemma add_new s parts i gs k v :
  store_ok s parts → parts !! i = Some gs → str_ok k → k ∉ gkeys gs → find_key s k i = Ok None →
  ∃ s', add_s s k v i = Ok s' ∧ store_ok s' (<[i := Group (S (brk s)) k v [] :: gs]> parts).
Proof.
  intros Hok Hi Hk Habs Hsearch. destruct (store_part _ _ _ _ Hok Hi) as (p & Hp & _ & Hrep).
  pose proof (fresh_glocs _ _ _ _ Hok Hi) as Hfresh.
  exists (Store (<[S (brk s) := Node k v p None]> (<[brk s := Node k v None None]> (heap s))) (S (S (brk s)))
    (<[i := Some (S (brk s))]> (arr_part s))). split.
  - unfold add_s, add_at. rewrite Hsearch, bind_Ok. cbn [new_node brk heap arr_part].
    unfold part. cbn [arr_part]. rewrite Hp, bind_Ok. destruct p as [a|]; [|done].
    erewrite modify_ok by (cbn [heap]; apply lookup_insert_eq). rewrite bind_Ok.
    unfold set_part. cbn [heap brk arr_part]. by rewrite insert_insert_eq.
  - eapply store_update; [done..| |lia| |].
    + apply rep_cons_key; [|by apply Hfresh; lia|done..]. eapply rep_frame; [|done].
      intros b Hb. rewrite lookup_insert_ne; [done|]. intros <-. by eapply Hfresh.
    + intros b [->|Hb]%elem_of_cons; [right; simpl; lia|by left].
    + intros b Hb _. by rewrite !lookup_insert_ne by lia.
Qed.

Lemma add_spec s parts i gs k v : store_ok s parts → parts !! i = Some gs → str_ok k →
  ∃ s' gs', add_s s k v i = Ok s' ∧ store_ok s' (<[i := gs']> parts) ∧
    ∀ k', values_of gs' k' = if decide (k' = k) then v :: values_of gs k else values_of gs k'.
Proof.
  intros Hok Hi Hk. destruct (store_part _ _ _ _ Hok Hi) as (p & _ & _ & Hrep).
  destruct (find_spec _ _ _ _ k Hok Hi Hk) as [(l1 & g & l2 & -> & <- & Hs)|[Habs Hs]].
  - destruct (add_found _ _ _ _ _ _ v Hok Hi Hs) as (s' & E & Hok'). do 2 eexists. split; [exact E|].
    split; [exact Hok'|]. intros k'. case_decide as Hkk; [subst k'|].
    + rewrite (values_of_app_eq l1 g) by apply Hrep.
      apply (values_of_app_eq l1 (cons_val (brk s) v g)). rewrite (gkeys_mid _ g); [apply Hrep|done].
    + by apply values_of_app_ne.
  - destruct (add_new _ _ _ _ _ v Hok Hi Hk Habs Hs) as (s' & E & Hok'). do 2 eexists. split; [exact E|].
    split; [exact Hok'|]. intros k'. simpl. case_decide; case_decide; try congruence.
    by rewrite values_of_absent.
Qed.

(** * insertionSort *)

Definition klt (a b : group) : Prop := strcmp (gkey a) (gkey b) < 0.
Definition sorted_keys (gs : list group) : Prop := StronglySorted klt gs.

Lemma sorted_insert l1 c l2 :
  Forall (λ g, str_ok (gkey g)) (c :: l1 ++ l2) → sorted_keys (l1 ++ l2) →
  Forall (λ x, klt x c) l1 → (∀ x, head l2 = Some x → klt c x) → sorted_keys (l1 ++ c :: l2).
Proof.
  intros Hok Hs Hl1 Hl2. inversion_clear Hok as [|?? Hc Hok']. induction l1 as [|x l1 IH]; simpl in *.
  - apply StronglySorted_cons. split; [|done]. destruct l2 as [|y l2]; [done|].
    specialize (Hl2 y eq_refl). constructor; [done|]. apply StronglySorted_cons in Hs as [Hs _].
    apply Forall_cons in Hok' as [Hy Hok']. rewrite Forall_forall in Hs, Hok' |- *.
    intros z Hz. unfold klt in *. eapply strcmp_trans; eauto.
  - apply StronglySorted_cons in Hs as [Hx Hs]. apply Forall_cons in Hok' as [Hxo Hok'].
    apply Forall_cons in Hl1 as [Hxc Hl1]. apply StronglySorted_cons. split; [|by apply IH].
    apply Forall_app in Hx as [Hx1 Hx2]. apply Forall_app. split; [done|]. by constructor.
Qed.

Lemma insert_walk_spec s k gs : ∀ g fuel,
  kseg (heap s) (Some (gloc g)) (gloc <$> g :: gs) None → Forall (group_at (heap s)) (g :: gs) →
  strcmp (gkey g) k < 0 → (length gs < fuel)%nat →
  ∃ l1 t l2, g :: gs = l1 ++ t :: l2 ∧ insert_walk s (gloc g) k fuel = Ok (gloc t) ∧
    Forall (λ x, strcmp (gkey x) k < 0) (l1 ++ [t]) ∧
    ∀ x, head l2 = Some x → 0 <= strcmp (gkey x) k.
Proof.
  induction gs as [|x gs IH]; intros g fuel Hs Ha Hlt Hf; (destruct fuel as [|fuel]; [lia|]);
    destruct Hs as (_ & n & Hn & Hs); cbn [insert_walk]; rewrite (load_ok _ _ _ Hn), bind_Ok.
  - cbn in Hs. rewrite Hs. exists [], g, []. split_and!; [done..| |done]. by constructor.
  - pose proof Hs as Hs'. destruct Hs as (E & m & Hm & _). rewrite E in Hs'. rewrite E. inversion_clear Ha as [|?? _ Ha'].
    inversion_clear Ha' as [|?? Hx Ha]. destruct (load_group _ _ Hx) as (m' & Hm' & Hl & Ek & _).
    rewrite Hl, bind_Ok, Ek. destruct (Z.ltb_spec (strcmp (gkey x) k) 0) as [Hxk|Hxk].
    + destruct (IH x fuel Hs') as (l1 & t & l2 & E1 & E2 & H1 & H2); [by constructor|done|simpl in Hf; lia|].
      exists (g :: l1), t, l2. split_and!; [by rewrite E1|done| |done]. by constructor.
    + exists [], g, (x :: gs). split_and!; [done..|by constructor|]. by intros ? [= <-].
Qed.

(** Linking node [c] between [t] and its successor. *)
Lemma kseg_link h p l1 t l2 c tn cn : kseg h p (l1 ++ t :: l2) None →
  NoDup (c :: l1 ++ t :: l2) → h !! t = Some tn →
  kseg (<[t := set_next_key (Some c) tn]> (<[c := set_next_key (next_key tn) cn]> h)) p (l1 ++ t :: c :: l2) None.
Proof.
  intros (r & Hl1 & -> & tn' & Htn & Hl2)%kseg_app Hnd Ht. rewrite Ht in Htn. injection Htn as <-.
  apply NoDup_cons in Hnd as [Hc Hnd]. apply not_elem_of_app in Hc as [Hc1 [Hct Hc2]%not_elem_of_cons].
  apply NoDup_app in Hnd as (_ & Hd & [Ht2 _]%NoDup_cons).
  apply kseg_app. exists (Some t). split.
  - eapply kseg_frame; [|done]. intros a Ha. rewrite !lookup_insert_ne; [done|by intros ->|].
    intros ->. eapply Hd; [done|]. apply list_elem_of_here.
  - split; [done|]. eexists. rewrite lookup_insert_eq. split; [done|]. split; [done|].
    eexists. rewrite lookup_insert_ne, lookup_insert_eq by done. split; [done|].
    eapply kseg_frame; [|done]. intros a Ha. by rewrite !lookup_insert_ne by (by intros ->).
Qed.

(** What one insertion achieves: the new list holds [c] and the old groups in
    order, and only [next_key] fields of these nodes have changed. *)
Definition inserted (h : gmap nat node) (c : group) (gs : list group) (sh' : option nat) (h' : gmap nat node) : Prop :=
  ∃ gs', gs' ≡ₚ c :: gs ∧ sorted_keys gs' ∧ kseg h' sh' (gloc <$> gs') None ∧
    (∀ a, keeps h h' a) ∧ (∀ a, a ∉ gloc <$> c :: gs → h' !! a = h !! a).

Section insertion.
Context (h : gmap nat node) (sh : option nat) (gs : list group) (c : group) (cn : node).
Hypothesis Hs : kseg h sh (gloc <$> gs) None.
Hypothesis Hl : NoDup (gloc <$> c :: gs).
Hypothesis Ho : Forall (λ g, str_ok (gkey g)) (c :: gs).
Hypothesis Hk : NoDup (gkeys (c :: gs)).
Hypothesis Hsort : sorted_keys gs.
Hypothesis Hc : h !! gloc c = Some cn.

Lemma inserted_front : (∀ x, head gs = Some x → klt c x) →
  inserted h c gs (Some (gloc c)) (<[gloc c := set_next_key sh cn]> h).
Proof using Hs Hl Ho Hsort Hc.
  intros Hhd. exists (c :: gs). split_and!; [done|..].
  - apply (sorted_insert [] c gs); [done..|by constructor|done].
  - split; [done|]. eexists. rewrite lookup_insert_eq. split; [done|]. eapply kseg_frame; [|exact Hs].
    apply NoDup_cons in Hl as [Hcl _]. intros a Hin. rewrite lookup_insert_ne; [done|]. by intros <-.
  - intros a. by apply keeps_set.
  - intros a Hna. rewrite lookup_insert_ne; [done|]. intros <-. apply Hna, list_elem_of_here.
Qed.

Lemma inserted_after l1 t l2 tn : gs = l1 ++ t :: l2 → h !! gloc t = Some tn →
  Forall (λ x, strcmp (gkey x) (gkey c) < 0) (l1 ++ [t]) →
  (∀ x, head l2 = Some x → 0 <= strcmp (gkey x) (gkey c)) →
  inserted h c gs sh
    (<[gloc t := set_next_key (Some (gloc c)) tn]> (<[gloc c := set_next_key (next_key tn) cn]> h)).
Proof using Hs Hl Ho Hk Hsort Hc.
  intros -> Ht Hlow Hhigh. exists (l1 ++ t :: c :: l2).
  assert (gloc c ≠ gloc t) as Hne.
  { intros E. apply NoDup_cons in Hl as [Hcl _]. apply Hcl. rewrite E. apply list_elem_of_fmap_2.
    apply elem_of_app. right. apply list_elem_of_here. }
  split_and!.
  - solve_Permutation.
  - rewrite cons_middle, app_assoc in Hsort, Ho |- *. apply sorted_insert; [done..|].
    intros x Hx. specialize (Hhigh x Hx). unfold klt. rewrite strcmp_anti.
    enough (strcmp (gkey x) (gkey c) ≠ 0) by lia. destruct l2 as [|y l2]; [done|]. simplify_eq/=.
    apply Forall_cons in Ho as [Hco Ho']. apply Forall_app in Ho' as [_ [Hxo _]%Forall_cons].
    rewrite strcmp_eq by done. intros E. apply NoDup_cons in Hk as [Hkc _]. apply Hkc.
    rewrite <- E. apply list_elem_of_fmap_2. apply elem_of_app. right. right. apply list_elem_of_here.
  - rewrite fmap_app in Hs |- *. rewrite fmap_cons, fmap_app in Hl. by apply kseg_link.
  - intros a. apply keeps_trans with (<[gloc c := set_next_key (next_key tn) cn]> h);
      apply keeps_set; [done|]. by rewrite lookup_insert_ne.
  - intros a [Hac Hna]%not_elem_of_cons. rewrite !lookup_insert_ne; [done|done|]. intros <-. apply Hna.
    apply list_elem_of_fmap_2, elem_of_app. right. apply list_elem_of_here.
Qed.
End insertion.

Lemma insertHelper_spec s sh gs c :
  kseg (heap s) sh (gloc <$> gs) None → Forall (group_at (heap s)) (c :: gs) →
  NoDup (gloc <$> c :: gs) → Forall (λ g, str_ok (gkey g)) (c :: gs) → NoDup (gkeys (c :: gs)) →
  sorted_keys gs → (length gs ≤ brk s)%nat →
  ∃ h' sh', insertHelper s sh (gloc c) = Ok (sh', Store h' (brk s) (arr_part s)) ∧
    inserted (heap s) c gs sh' h'.
Proof.
  intros Hs Ha Hl Ho Hk Hsort Hlen. pose proof Ha as Ha0. apply Forall_cons in Ha0 as [Hc Hgs].
  destruct (load_group _ _ Hc) as (cn & Hcn & Ecn & Eck & _). unfold insertHelper. rewrite Ecn, bind_Ok, Eck.
  destruct gs as [|g gs].
  { cbn in Hs. subst sh. rewrite bind_Ok, (modify_ok _ _ _ _ Hcn). do 2 eexists. split; [done|].
    by apply inserted_front. }
  destruct (proj1 (Forall_cons _ _ _) Hgs) as [Hg _]. pose proof Hs as Hs0. destruct Hs as [-> _].
  destruct (load_group _ _ Hg) as (gn & _ & Egn & Egk & _). rewrite Egn, !bind_Ok, Egk.
  destruct (Z.ltb_spec 0 (strcmp (gkey g) (gkey c))) as [Hlt|Hge].
  { rewrite (modify_ok _ _ _ _ Hcn). do 2 eexists. split; [done|]. apply inserted_front; [done..|].
    intros ? [= <-]. unfold klt. rewrite strcmp_anti. lia. }
  assert (strcmp (gkey g) (gkey c) < 0) as Hlt.
  { apply NoDup_cons in Hk as [Hkc _]. apply Forall_cons in Ho as [Hco [Hgo _]%Forall_cons].
    enough (strcmp (gkey g) (gkey c) ≠ 0) by lia. rewrite strcmp_eq by done. intros E. apply Hkc.
    rewrite <- E. apply list_elem_of_here. }
  destruct (insert_walk_spec s (gkey c) gs g (S (brk s)) Hs0 Hgs Hlt) as (l1 & t & l2 & E & -> & H1 & H2);
    [simpl in Hlen; lia|]. rewrite bind_Ok.
  assert (group_at (heap s) t) as Ht.
  { rewrite E in Hgs. apply Forall_app in Hgs as [_ Hgs]. by inversion_clear Hgs. }
  destruct (load_group _ _ Ht) as (tn & Htn & -> & _). rewrite bind_Ok, (modify_ok _ _ _ _ Hcn), bind_Ok.
  erewrite modify_ok; [rewrite bind_Ok; do 2 eexists; split; [done|]|].
  { by eapply inserted_after. }
  cbn [heap]. rewrite lookup_insert_ne; [done|]. intros Ect. apply NoDup_cons in Hl as [Hl _]. apply Hl.
  assert (t ∈ g :: gs) as Hin by (rewrite E; apply elem_of_app; right; apply list_elem_of_here).
  rewrite Ect. exact (list_elem_of_fmap_2 gloc _ _ Hin).
Qed.

Lemma inserted_groups h c gs sh' h' l : inserted h c gs sh' h' → Forall (group_at h) l → Forall (group_at h') l.
Proof.
  intros (gs' & _ & _ & _ & Hkeep & _). rewrite !Forall_forall. intros Ha x Hx.
  eapply group_at_keeps; [|by apply Ha]. auto.
Qed.

Lemma gkeys_perm gs gs' : gs ≡ₚ gs' → gkeys gs ≡ₚ gkeys gs'.
Proof. apply Permutation_map. Qed.

Lemma NoDup_fmap_mid {B} (f : group → B) c rest gs :
  NoDup (f <$> c :: rest ++ gs) → NoDup (f <$> c :: gs).
Proof.
  rewrite !fmap_cons, fmap_app, !NoDup_cons. intros [Hc (_ & _ & Hgs)%NoDup_app].
  split; [|done]. intros Hin. apply Hc, elem_of_app. by right.
Qed.

Lemma sort_loop_spec rest : ∀ s sh curr gs fuel,
  kseg (heap s) sh (gloc <$> gs) None → kseg (heap s) curr (gloc <$> rest) None →
  Forall (group_at (heap s)) (rest ++ gs) → NoDup (gloc <$> rest ++ gs) →
  Forall (λ g, str_ok (gkey g)) (rest ++ gs) → NoDup (gkeys (rest ++ gs)) →
  sorted_keys gs → (length (rest ++ gs) ≤ brk s)%nat → (length rest ≤ fuel)%nat →
  ∃ h' sh' gs', sort_loop s sh curr fuel = Ok (sh', Store h' (brk s) (arr_part s)) ∧
    gs' ≡ₚ rest ++ gs ∧ sorted_keys gs' ∧ kseg h' sh' (gloc <$> gs') None ∧
    (∀ a, keeps (heap s) h' a) ∧ (∀ a, a ∉ gloc <$> rest ++ gs → h' !! a = heap s !! a).
Proof.
  induction rest as [|c rest IH]; intros s sh curr gs fuel Hs Hr Ha Hl Ho Hk Hsort Hlen Hf.
  { cbn in Hr. subst curr. exists (heap s), sh, gs.
    split_and!; [by destruct s, fuel|done..| |done]. intros a. by apply keeps_eq. }
  destruct fuel as [|fuel]; [simpl in Hf; lia|]. destruct Hr as (-> & n & Hn & Hr).
  assert (c :: rest ++ gs ≡ₚ rest ++ c :: gs) as Hperm by solve_Permutation.
  assert (∀ P : group → Prop, Forall P (c :: rest ++ gs) → Forall P (c :: gs)) as Hsub.
  { intros P [? [_ ?]%Forall_app]%Forall_cons. by constructor. }
  destruct (insertHelper_spec s sh gs c) as (h1 & sh1 & E & Hins);
    [by auto..|by eapply NoDup_fmap_mid|by auto|by eapply (NoDup_fmap_mid gkey)|done|
     simpl in Hlen; rewrite length_app in Hlen; lia|].
  cbn [sort_loop]. rewrite (load_ok _ _ _ Hn), bind_Ok, E, bind_Ok.
  pose proof (λ l, inserted_groups _ _ _ _ _ l Hins) as Hgr.
  destruct Hins as (gs1 & Hp1 & Hs1 & Hk1 & Hkeep1 & Hframe1).
  assert (rest ++ gs1 ≡ₚ c :: rest ++ gs) as Hp by (rewrite Hp1; solve_Permutation).
  destruct (IH (Store h1 (brk s) (arr_part s)) sh1 (next_key n) gs1 fuel) as (h2 & sh2 & gs2 & E2 & Hp2 & Hs2 & Hk2 & Hkeep2 & Hframe2).
  - done.
  - cbn [heap]. eapply kseg_frame; [|exact Hr]. intros a Hin. apply Hframe1. simpl in Hl. rewrite fmap_app in Hl.
    apply NoDup_cons in Hl as [Hcl (_ & Hd & _)%NoDup_app]. apply not_elem_of_cons. split; [|by apply Hd].
    intros ->. apply Hcl, elem_of_app. by left.
  - cbn [heap]. rewrite Hp. by apply Hgr.
  - by rewrite Hp.
  - by rewrite Hp.
  - by rewrite (gkeys_perm _ _ Hp).
  - done.
  - cbn [brk]. by rewrite Hp.
  - simpl in Hf. lia.
  - exists h2, sh2, gs2. split_and!; [exact E2|by rewrite Hp2|done..| |].
    + intros a. eapply keeps_trans; [apply Hkeep1|apply Hkeep2].
    + intros a Hna. rewrite Hframe2 by (by rewrite Hp). apply Hframe1. intros Hin. apply Hna.
      change (a ∈ gloc <$> c :: rest ++ gs). change (a ∈ gloc <$> c :: gs) in Hin.
      rewrite fmap_cons, fmap_app. rewrite fmap_cons in Hin. set_solver.
Qed.

Lemma rep_perm h h' p p' gs gs' : rep h p gs → gs' ≡ₚ gs → kseg h' p' (gloc <$> gs') None →
  (∀ a, keeps h h' a) → rep h' p' gs'.
Proof.
  intros [_ Ha Hl Ho Hk] Hp Hs Hkeep. split; [done|..].
  - rewrite Hp. rewrite Forall_forall in Ha |- *. intros x Hx. eapply group_at_keeps; [|by apply Ha]. auto.
  - by rewrite Hp.
  - by rewrite Hp.
  - by rewrite (gkeys_perm _ _ Hp).
Qed.

Lemma NoDup_gloc gs : NoDup (gs ≫= glocs) → NoDup (gloc <$> gs).
Proof.
  induction gs as [|g gs IH]; [done|]. rewrite bind_cons, fmap_cons. intros (Hg & Hd & Hgs)%NoDup_app.
  apply NoDup_cons. split; [|by apply IH]. intros (x & E & Hx)%list_elem_of_fmap.
  eapply (Hd (gloc g)); [apply list_elem_of_here|]. rewrite E. by apply gloc_in.
Qed.

Lemma sort_part s parts i gs : store_ok s parts → parts !! i = Some gs →
  ∃ p h' sh' gs', part s i = Ok p ∧ sort_loop s None p (brk s) = Ok (sh', Store h' (brk s) (arr_part s)) ∧
    store_ok (set_part i sh' (Store h' (brk s) (arr_part s))) (<[i := gs']> parts) ∧
    gs' ≡ₚ gs ∧ sorted_keys gs'.
Proof.
  intros Hok Hi. destruct (store_part _ _ _ _ Hok Hi) as (p & Hp & Epart & Hrep).
  pose proof (length_brk _ _ _ _ Hok Hi). pose proof (length_glocs gs).
  destruct (sort_loop_spec gs s None p [] (brk s)) as (h' & sh' & gs' & E & Hperm & Hs & Hk & Hkeep & Hframe);
    try (rewrite app_nil_r); try apply Hrep; [done|by apply NoDup_gloc, Hrep|constructor|lia|lia|].
  rewrite app_nil_r in Hperm, Hframe. exists p, h', sh', gs'. split_and!; [done..| |done|done].
  unfold set_part. cbn [heap brk arr_part]. eapply store_update; [done..| |lia| |].
  - by eapply rep_perm.
  - intros a. rewrite Hperm. by left.
  - intros a _ Hna. apply Hframe. intros (x & -> & Hx)%list_elem_of_fmap. by apply Hna, gloc_in.
Qed.

Lemma insertionSort_from_spec todo : ∀ i s parts, store_ok s parts → (i + todo)%nat = length parts →
  (∀ j gs, (j < i)%nat → parts !! j = Some gs → sorted_keys gs) →
  ∃ s' parts', insertionSort_from s i todo = Ok s' ∧ store_ok s' parts' ∧ Forall2 (≡ₚ) parts' parts ∧
    Forall sorted_keys parts'.
Proof.
  induction todo as [|todo IH]; intros i s parts Hok Hlen Hsorted; cbn [insertionSort_from].
  - exists s, parts. split_and!; [done..|reflexivity|].
    apply Forall_lookup. intros j gs Hj. eapply Hsorted; [|done]. apply lookup_lt_Some in Hj. lia.
  - destruct (lookup_lt_is_Some_2 parts i) as [gs Hi]; [lia|].
    destruct (sort_part _ _ _ _ Hok Hi) as (p & h1 & sh1 & gs1 & -> & E & Hok1 & Hperm & Hs1).
    rewrite bind_Ok, E, bind_Ok.
    destruct (IH (S i) _ _ Hok1) as (s2 & parts2 & -> & Hok2 & Hperm2 & Hs2).
    + rewrite length_insert. lia.
    + intros j gs' Hj Hg. apply slot_insert_Some in Hg as [(-> & -> & _)|[Hne Hg]]; [done|].
      eapply Hsorted; [|done]. lia.
    + exists s2, parts2. split_and!; [done..| |done]. etrans; [exact Hperm2|].
      rewrite <- (list_insert_id parts i gs) at 2 by done. apply Forall2_insert; [reflexivity|done].
Qed.

Lemma insertionSort_spec s parts : store_ok s parts →
  ∃ s' parts', insertionSort s = Ok s' ∧ store_ok s' parts' ∧ Forall2 (≡ₚ) parts' parts ∧
    Forall sorted_keys parts'.
Proof.
  intros Hok. apply insertionSort_from_spec; [done| |intros; lia].
  simpl. by eapply Forall2_length, st_rep.
Qed.

(** * Get *)

(** Changing the chain of one group, when the nodes of the others stay. *)
Lemma rep_chain h h' p l1 g g' l2 : rep h p (l1 ++ g :: l2) →
  gloc g' = gloc g → gkey g' = gkey g → NoDup ((l1 ++ g' :: l2) ≫= glocs) → group_at h' g' →
  (∀ b n, h !! b = Some n → ∃ n', h' !! b = Some n' ∧ next_key n' = next_key n) →
  (∀ b, b ≠ gloc g → h' !! b = h !! b) →
  rep h' p (l1 ++ g' :: l2).
Proof.
  intros [Hs Ha Hl Ho Hk] El Ek Hl' Hg' Hnk Hsame. destruct (glocs_split _ _ _ Hl) as [_ Hd].
  apply Forall_app in Ha as [Ha1 [_ Ha2]%Forall_cons].
  assert (∀ b, b ∈ l1 ≫= glocs ∨ b ∈ l2 ≫= glocs → h' !! b = h !! b) as Hrest.
  { intros b Hb. apply Hsame. intros ->. eapply Hd; [done|apply list_elem_of_here]. }
  split.
  - replace (gloc <$> l1 ++ g' :: l2) with (gloc <$> l1 ++ g :: l2) by (rewrite !fmap_app; csimpl; by rewrite El).
    eapply kseg_keeps; [|exact Hs]. intros b n _. apply Hnk.
  - apply Forall_app. split; [|constructor; [done|]]; eapply groups_frame; [|done| |done]; auto.
  - done.
  - apply Forall_app in Ho as [Ho1 [Hg Ho2]%Forall_cons]. apply Forall_app. split; [done|].
    constructor; [by rewrite Ek|done].
  - by rewrite (gkeys_mid l1 g).
Qed.

Definition pop_val (g : group) : group := Group (gloc g) (gkey g) (gval g) (tail (gchain g)).

Lemma glocs_pop l1 g l2 a v ch : gchain g = (a, v) :: ch →
  (l1 ++ g :: l2) ≫= glocs ≡ₚ a :: (l1 ++ pop_val g :: l2) ≫= glocs.
Proof. intros E. rewrite !glocs_app. unfold glocs, pop_val. rewrite E. simpl. solve_Permutation. Qed.

Lemma group_at_pop h g n a v ch tn : NoDup (glocs g) → h !! gloc g = Some n → group_at h g →
  gchain g = (a, v) :: ch → h !! a = Some tn →
  next_val n = Some a ∧ nval tn = v ∧
  group_at (<[gloc g := set_next_val (next_val tn) n]> h) (pop_val g).
Proof.
  intros Hnd Hn (n' & Hn' & Ek & Ev & Hch) E Ha. rewrite Hn in Hn'. injection Hn' as <-.
  rewrite E in Hch. destruct Hch as (Ea & tn' & Htn & Etv & Hch). rewrite Ha in Htn. injection Htn as <-.
  split_and!; [done..|]. exists (set_next_val (next_val tn) n). cbn [pop_val gloc gkey gval gchain].
  rewrite lookup_insert_eq, E. split_and!; [done..|]. eapply vchain_keeps; [|exact Hch].
  intros b Hb. apply keeps_eq. rewrite lookup_insert_ne; [done|]. intros <-. unfold glocs in Hnd.
  rewrite E in Hnd. apply NoDup_cons in Hnd as [Hnd _]. apply Hnd. right. exact Hb.
Qed.

Lemma findPrev_from_spec s k l1 g l2 : ∀ prev p fuel,
  kseg (heap s) p (gloc <$> l1 ++ g :: l2) None → Forall (group_at (heap s)) (l1 ++ g :: l2) →
  Forall (λ x, strcmp (gkey x) k < 0) l1 → 0 <= strcmp (gkey g) k → (length l1 < fuel)%nat →
  findPrev_from s prev p k fuel = Ok (match last l1 with Some x => Some (gloc x) | None => prev end).
Proof.
  induction l1 as [|x l1 IH]; intros prev p fuel Hs Ha Hl Hg Hf; (destruct fuel as [|fuel]; [lia|]);
    destruct Hs as (-> & n & Hn & Hs); apply Forall_cons in Ha as [Hx Ha];
    destruct (load_group _ _ Hx) as (n' & Hn' & El & Ek & _); rewrite Hn in Hn'; injection Hn' as <-;
    cbn [findPrev_from]; rewrite El, bind_Ok, Ek.
  - by rewrite (proj2 (Z.leb_le _ _) Hg).
  - apply Forall_cons in Hl as [Hxk Hl]. rewrite (proj2 (Z.leb_gt _ _) Hxk).
    rewrite (IH _ _ _ Hs Ha Hl Hg) by (simpl in Hf; lia). rewrite last_cons. by destruct (last l1).
Qed.

Lemma rep_remove h h' p p' l1 g l2 : rep h p (l1 ++ g :: l2) → kseg h' p' (gloc <$> l1 ++ l2) None →
  (∀ a, keeps h h' a) → rep h' p' (l1 ++ l2).
Proof.
  intros [_ Ha Hl Ho Hk] Hs Hkeep.
  assert (l1 ++ g :: l2 ≡ₚ g :: l1 ++ l2) as Hp by solve_Permutation.
  rewrite Hp in Ha, Hl, Ho. rewrite (gkeys_perm _ _ Hp) in Hk. split; [done|..].
  - apply Forall_cons in Ha as [_ Ha]. rewrite Forall_forall in Ha |- *.
    intros x Hx. eapply group_at_keeps; [|by apply Ha]. auto.
  - rewrite bind_cons in Hl. by apply NoDup_app in Hl as (_ & _ & Hl).
  - by apply Forall_cons in Ho as [_ Ho].
  - by apply NoDup_cons in Hk as [_ Hk].
Qed.

(** Unlinking the successor of [x]. *)
Lemma kseg_unlink h p l x a l2 xn n : kseg h p (l ++ x :: a :: l2) None → NoDup (l ++ x :: a :: l2) →
  h !! x = Some xn → h !! a = Some n →
  kseg (<[x := set_next_key (next_key n) xn]> h) p (l ++ x :: l2) None.
Proof.
  intros (r & Hl & -> & xn' & Hx' & Ea & n' & Hn' & Hl2)%kseg_app Hnd Hx Hn. simplify_eq.
  apply NoDup_app in Hnd as (_ & Hd & [[_ Hxl]%not_elem_of_cons _]%NoDup_cons).
  apply kseg_app. exists (Some x). split.
  - eapply kseg_frame; [|done]. intros b Hb. rewrite lookup_insert_ne; [done|]. intros ->.
    eapply Hd; [done|apply list_elem_of_here].
  - split; [done|]. eexists. rewrite lookup_insert_eq. split; [done|]. eapply kseg_frame; [|done].
    intros b Hb. rewrite lookup_insert_ne; [done|]. by intros ->.
Qed.

Lemma values_of_remove l1 g l2 k : NoDup (gkeys (l1 ++ g :: l2)) →
  values_of (l1 ++ l2) k = if decide (k = gkey g) then [] else values_of (l1 ++ g :: l2) k.
Proof.
  assert (l1 ++ g :: l2 ≡ₚ g :: l1 ++ l2) as Hp by solve_Permutation.
  intros Hk. case_decide as E.
  - subst k. apply values_of_absent. rewrite (gkeys_perm _ _ Hp) in Hk. by apply NoDup_cons in Hk as [? _].
  - clear Hp Hk. induction l1 as [|x l1 IH]; simpl; [by rewrite decide_False by congruence|]. by rewrite IH.
Qed.

Lemma sorted_below l1 g l2 : sorted_keys (l1 ++ g :: l2) → Forall (λ x, strcmp (gkey x) (gkey g) < 0) l1.
Proof.
  intros Hs. apply Forall_forall. intros x Hx.
  apply (StronglySorted_app_1_elem_of klt l1 (g :: l2)); [done|done|apply list_elem_of_here].
Qed.

Lemma sorted_remove l1 g l2 : sorted_keys (l1 ++ g :: l2) → sorted_keys (l1 ++ l2).
Proof.
  intros (Hd & H1 & H2)%StronglySorted_app. apply StronglySorted_app. apply StronglySorted_cons in H2 as [_ H2].
  split_and!; [|done..]. intros x y Hx Hy. apply Hd; [done|]. by right.
Qed.

Lemma sorted_ext gs gs' : gkeys gs' = gkeys gs → sorted_keys gs → sorted_keys gs'.
Proof.
  unfold sorted_keys. revert gs'. induction gs as [|g gs IH]; intros [|g' gs'] E; try done.
  injection E as Eg Egs. rewrite !StronglySorted_cons. intros [Hf Hs]. split; [|by apply IH].
  clear IH Hs. revert gs' Egs. induction Hf as [|x gs Hx Hf IH]; intros [|x' gs'] E; try done.
  injection E as Ex Es. constructor; [|by apply IH]. unfold klt. by rewrite Eg, Ex.
Qed.

(** The effect of a [Get] that returns a value of key [k]. *)
Definition got (s : store) (parts : list (list group)) (i : nat) (gs : list group) (k : cstring) (r : outcome (option cstring * store)) : Prop :=
  ∃ v vs s' gs', values_of gs k = v :: vs ∧ r = Ok (Some v, s') ∧ brk s' = brk s ∧
    store_ok s' (<[i := gs']> parts) ∧ sorted_keys gs' ∧
    ∀ k', values_of gs' k' = if decide (k' = k) then vs else values_of gs k'.

Lemma Get_pop s parts i l1 g l2 a v ch :
  store_ok s parts → parts !! i = Some (l1 ++ g :: l2) → sorted_keys (l1 ++ g :: l2) →
  find_key s (gkey g) i = Ok (Some (gloc g)) → gchain g = (a, v) :: ch →
  got s parts i (l1 ++ g :: l2) (gkey g) (Get_s s (gkey g) i).
Proof.
  intros Hok Hi Hsort Hsearch Ech. destruct (store_part _ _ _ _ Hok Hi) as (p & Hp & _ & Hrep).
  assert (group_at (heap s) g) as Hg.
  { destruct Hrep as [_ Ha _ _ _]. apply Forall_app in Ha as [_ Ha]. by inversion_clear Ha. }
  destruct (load_group _ _ Hg) as (n & Hn & Eload & _ & _ & Hch). rewrite Ech in Hch.
  destruct Hch as (Ea & tn & Htn & Etv & _).
  destruct (glocs_split l1 g l2) as [Hlg _]; [apply Hrep|].
  destruct (group_at_pop _ _ _ _ _ _ _ Hlg Hn Hg Ech Htn) as (_ & _ & Hg').
  unfold Get_s, Get_at. rewrite Hsearch, bind_Ok, Eload, bind_Ok, Ea, (load_ok _ _ _ Htn), bind_Ok, (modify_ok _ _ _ _ Hn), bind_Ok.
  exists v, ((ch.*2) ++ [gval g]). eexists. exists (l1 ++ pop_val g :: l2).
  assert (NoDup (gkeys (l1 ++ pop_val g :: l2))) as Hk' by (rewrite (gkeys_mid l1 g); [apply Hrep|done]).
  split_and!.
  - rewrite values_of_app_eq by apply Hrep. unfold gvals. by rewrite Ech.
  - by rewrite Etv.
  - done.
  - rewrite <- (list_insert_id (arr_part s) i p) at 1 by done. eapply store_update; [done..| |lia| |].
    + eapply rep_chain; [exact Hrep|done|done| |exact Hg'| |].
      * destruct Hrep as [_ _ Hl _ _]. rewrite (glocs_pop _ _ _ _ _ _ Ech) in Hl. by apply NoDup_cons in Hl as [_ Hl].
      * intros b m Hm. destruct (decide (b = gloc g)) as [->|Hne].
        -- rewrite lookup_insert_eq. simplify_eq. by eexists.
        -- rewrite lookup_insert_ne by done. by eexists.
      * intros b Hb. by rewrite lookup_insert_ne.
    + intros b Hb. left. rewrite (glocs_pop _ _ _ _ _ _ Ech). by right.
    + intros b _ Hb. rewrite lookup_insert_ne; [done|]. intros <-. apply Hb, gloc_in, elem_of_app.
      right. apply list_elem_of_here.
  - eapply sorted_ext; [|exact Hsort]. by apply gkeys_mid.
  - intros k'. case_decide as E; [subst k'|by apply values_of_app_ne].
    rewrite (values_of_app_eq l1 (pop_val g)) by done. unfold gvals. cbn [pop_val gchain gval]. by rewrite Ech.
Qed.

Lemma Get_last s parts i l1 g l2 :
  store_ok s parts → parts !! i = Some (l1 ++ g :: l2) → sorted_keys (l1 ++ g :: l2) →
  find_key s (gkey g) i = Ok (Some (gloc g)) → gchain g = [] →
  got s parts i (l1 ++ g :: l2) (gkey g) (Get_s s (gkey g) i).
Proof.
  intros Hok Hi Hsort Hsearch Ech. destruct (store_part _ _ _ _ Hok Hi) as (p & Hp & Epart & Hrep).
  pose proof Hrep as [Hs Ha Hl Ho Hk]. pose proof (length_brk _ _ _ _ Hok Hi) as Hb. pose proof (length_glocs (l1 ++ g :: l2)).
  assert (group_at (heap s) g) as Hg by (apply Forall_app in Ha as [_ Ha]; by inversion_clear Ha).
  destruct (load_group _ _ Hg) as (n & Hn & Eload & _ & Env & Hch). rewrite Ech in Hch.
  unfold Get_s, Get_at. rewrite Hsearch, bind_Ok, Eload, bind_Ok, Hch. unfold findPrev. rewrite Epart, bind_Ok.
  rewrite (findPrev_from_spec s (gkey g) l1 g l2 None p (brk s)), bind_Ok;
    [|done|done|by eapply sorted_below|by rewrite strcmp_refl|rewrite length_app in *; simpl in *; lia].
  assert (∀ h' p', rep h' p' (l1 ++ l2) → (∀ a, a ∉ (l1 ++ g :: l2) ≫= glocs → h' !! a = heap s !! a) →
    store_ok (Store h' (brk s) (<[i := p']> (arr_part s))) (<[i := l1 ++ l2]> parts)) as Hupd.
  { intros h' p' Hrep' Hframe. eapply store_update; [done..|lia| |by auto]. intros a.
    rewrite glocs_app, bind_app. set_solver. }
  assert (values_of (l1 ++ g :: l2) (gkey g) = [nval n]) as Hv.
  { rewrite values_of_app_eq by done. unfold gvals. by rewrite Ech, Env. }
  assert (∀ s', brk s' = brk s → store_ok s' (<[i := l1 ++ l2]> parts) →
    got s parts i (l1 ++ g :: l2) (gkey g) (Ok (Some (nval n), s'))) as Hdone.
  { intros s' Hb' Hok'. exists (nval n), [], s', (l1 ++ l2). split_and!; [done..|by eapply sorted_remove|].
    intros k'. by apply values_of_remove. }
  destruct l1 as [|x l _] using rev_ind.
  - apply Hdone; [done|]. apply Hupd; [|done]. eapply (rep_remove _ _ _ _ []); [exact Hrep| |intros; by apply keeps_eq].
    destruct Hs as (_ & n' & Hn' & Hs). rewrite Hn in Hn'. by injection Hn' as <-.
  - rewrite last_snoc. assert (group_at (heap s) x) as (xn & Hxn & _).
    { apply Forall_app in Ha as [Ha _]. apply Forall_app in Ha as [_ Ha]. by inversion_clear Ha. }
    rewrite (modify_ok _ _ _ _ Hxn), bind_Ok. apply Hdone; [done|].
    rewrite <- (list_insert_id (arr_part s) i p) by done. apply Hupd.
    + eapply rep_remove; [exact Hrep| |intros; by apply keeps_set].
      rewrite <- app_assoc in Hs |- *. rewrite fmap_app in Hs |- *. eapply kseg_unlink; [exact Hs| |done|done].
      apply NoDup_gloc in Hl. by rewrite <- app_assoc, fmap_app in Hl.
    + intros a Hna. rewrite lookup_insert_ne; [done|]. intros <-. apply Hna, gloc_in. set_solver.
Qed.

Lemma Get_spec s parts i gs k : store_ok s parts → parts !! i = Some gs → sorted_keys gs → str_ok k →
  (values_of gs k = [] ∧ Get_s s k i = Ok (None, s)) ∨ got s parts i gs k (Get_s s k i).
Proof.
  intros Hok Hi Hsort Hk.
  destruct (find_spec _ _ _ _ k Hok Hi Hk) as [(l1 & g & l2 & -> & <- & Hs)|[Habs Hs]].
  - right. destruct (gchain g) as [|[a v] ch] eqn:Ech; [by apply Get_last|by eapply Get_pop].
  - left. split; [by apply values_of_absent|]. unfold Get_s, Get_at. by rewrite Hs.
Qed.

(** * Draining keys *)

Lemma values_of_le gs k : (length (values_of gs k) ≤ length (gs ≫= glocs))%nat.
Proof.
  induction gs as [|g gs IH]; [done|]. rewrite bind_cons, length_app. simpl. case_decide; [|lia].
  unfold gvals. rewrite length_app, !length_fmap. simpl. lia.
Qed.

Lemma drain_spec fuel : ∀ m parts i gs k, store_ok (sto m) parts → parts !! i = Some gs → sorted_keys gs → str_ok k →
  (length (values_of gs k) < fuel)%nat →
  ∃ m' gs', drain m k i fuel = Ok (values_of gs k, m') ∧ store_ok (sto m') (<[i := gs']> parts) ∧
    sorted_keys gs' ∧ ∀ k', values_of gs' k' = if decide (k' = k) then [] else values_of gs k'.
Proof.
  induction fuel as [|fuel IH]; intros m parts i gs k Hok Hi Hsort Hk Hf; [lia|]. cbn [drain].
  destruct (Get_spec _ _ _ _ k Hok Hi Hsort Hk) as [[Hv E1]|(v & vs & s1 & gs1 & Hv & E1 & Hb & Hok1 & Hsort1 & Hvals)];
    apply Get_find in E1 as (m1 & -> & Em); rewrite bind_Ok.
  - exists m1, gs. rewrite Hv, Em. split_and!; [done| |done|].
    + by rewrite list_insert_id.
    + intros k'. case_decide; by subst.
  - assert (values_of gs1 k = vs) as Hv1 by (by rewrite Hvals, decide_True). subst s1.
    destruct (IH m1 (<[i := gs1]> parts) i gs1 k Hok1) as (m2 & gs2 & E & Hok2 & Hsort2 & Hvals2); try done.
    + apply list_lookup_insert_eq. by eapply lookup_lt_Some.
    + rewrite Hv in Hf. simpl in Hf. rewrite Hv1. lia.
    + rewrite E, bind_Ok, Hv1, Hv. rewrite list_insert_insert_eq in Hok2. exists m2, gs2. split_and!; [done..|].
      intros k'. rewrite Hvals2. case_decide as Ek; [done|]. by rewrite Hvals, decide_False.
Qed.

(** The queue when all is submitted: the tasks and the end marker. *)
Definition reduce_queue (tasks : list (cstring * nat)) : rqueue := (Some <$> tasks) ++ [None].

(** The values held for a task. *)
Definition task_values (parts : list (list group)) (t : cstring * nat) : list cstring :=
  values_of (parts !!! t.2) t.1.

Lemma reducer_spec tasks : ∀ m parts, store_ok (sto m) parts → Forall sorted_keys parts → NoDup tasks →
  Forall (λ t, str_ok t.1 ∧ (t.2 < length parts)%nat) tasks →
  ∃ m' parts', startReduceThread m (reduce_queue tasks) = Ok (task_values parts <$> tasks, m') ∧ store_ok (sto m') parts' ∧
    length parts' = length parts ∧
    ∀ t, task_values parts' t = if decide (t ∈ tasks) then [] else task_values parts t.
Proof.
  unfold reduce_queue. induction tasks as [|[k i] tasks IH]; intros m parts Hok Hsort Hnd Ht; cbn [fmap list_fmap app startReduceThread].
  { exists m, parts. split_and!; [done..|]. intros t. rewrite decide_False; [done|apply not_elem_of_nil]. }
  apply Forall_cons in Ht as [[Hk Hi] Ht]. apply NoDup_cons in Hnd as [Hki Hnd]. cbn [fst snd] in *.
  destruct (lookup_lt_is_Some_2 _ _ Hi) as [gs Hgs].
  pose proof (values_of_le gs k). pose proof (length_brk _ _ _ _ Hok Hgs).
  destruct (drain_spec (S (brk (sto m))) m parts i gs k Hok Hgs) as (m1 & gs1 & -> & Hok1 & Hsort1 & Hvals1);
    [by eapply Forall_lookup_1|done|lia|].
  assert (∀ t, task_values (<[i := gs1]> parts) t = if decide (t = (k, i)) then [] else task_values parts t) as Htv.
  { intros [k' j]. unfold task_values. cbn [fst snd]. destruct (decide (j = i)) as [->|Hne].
    - rewrite list_lookup_total_insert_eq, Hvals1, (list_lookup_total_correct _ _ _ Hgs) by done.
      repeat case_decide; congruence.
    - rewrite list_lookup_total_insert_ne by done. case_decide; congruence. }
  destruct (IH m1 _ Hok1) as (m2 & parts2 & E2 & Hok2 & Hlen2 & Hvals2); [by apply Forall_insert|done| |].
  { eapply Forall_impl; [exact Ht|]. intros t. by rewrite length_insert. }
  rewrite bind_Ok, E2, bind_Ok. exists m2, parts2. split_and!; [| done|by rewrite Hlen2, length_insert|].
  - f_equal. f_equal. unfold task_values at 2. cbn [fst snd]. rewrite (list_lookup_total_correct _ _ _ Hgs).
    f_equal. apply list_fmap_ext. intros j t Hj. rewrite Htv, decide_False; [done|]. intros ->.
    apply Hki. by eapply list_elem_of_lookup_2.
  - intros t. rewrite Hvals2, Htv. repeat case_decide; set_solver.
Qed.

(** * The reduce tasks *)

Definition group_task (i : nat) (g : group) : cstring * nat := (gkey g, i).

Fixpoint task_list (i : nat) (parts : list (list group)) : list (cstring * nat) :=
  match parts with [] => [] | gs :: parts' => (group_task i <$> gs) ++ task_list (S i) parts' end.

(** Submitting one task after another. *)
Fixpoint submit_all (l q : rqueue) : outcome rqueue :=
  match l with [] => Ok q | t :: l' => q1 ← submitReduceTask t q; submit_all l' q1 end.

Lemma submit_all_app l1 l2 q : submit_all (l1 ++ l2) q = q1 ← submit_all l1 q; submit_all l2 q1.
Proof. revert q. induction l1 as [|t l1 IH]; intros q; cbn [app submit_all]; [done|]. destruct (submitReduceTask t q); cbn; auto. Qed.

Lemma submit_all_spec l : ∀ q, (length q ≤ RQUEUE)%nat →
  submit_all l q = if decide (length q + length l ≤ RQUEUE)%nat then Ok (q ++ l) else Fault (Z.of_nat RQUEUE).
Proof.
  unfold RQUEUE. induction l as [|t l IH]; intros q Hq; cbn [submit_all].
  { rewrite decide_True by (cbn; lia). by rewrite app_nil_r. }
  unfold submitReduceTask, RQUEUE. destruct (Nat.leb_spec (Z.to_nat 1000) (length q)) as [Hge|Hlt].
  - rewrite decide_False by (cbn [length]; lia). cbn. do 2 f_equal. lia.
  - rewrite bind_Ok, IH by (rewrite length_app; cbn [length]; lia). rewrite length_app, <- app_assoc. cbn [length app].
    repeat case_decide; done || lia.
Qed.

Lemma tasks_from_spec s i gs : ∀ p fuel q, kseg (heap s) p (gloc <$> gs) None → Forall (group_at (heap s)) gs →
  (length gs ≤ fuel)%nat → tasks_from s p i fuel q = submit_all (Some <$> (group_task i <$> gs)) q.
Proof.
  induction gs as [|g gs IH]; intros p fuel q Hs Ha Hf.
  { cbn in Hs. subst p. by destruct fuel. }
  destruct fuel as [|fuel]; [simpl in Hf; lia|]. destruct Hs as (-> & n & Hn & Hs).
  apply Forall_cons in Ha as [(n' & Hn' & Ek & _) Ha]. rewrite Hn in Hn'. injection Hn' as <-.
  cbn [tasks_from fmap list_fmap submit_all]. rewrite (load_ok _ _ _ Hn), bind_Ok, Ek.
  apply bind_ext. intros q1. apply IH; [done..|]. simpl in Hf. lia.
Qed.

Lemma reduce_tasks_from_spec s parts todo : store_ok s parts → ∀ i q, (i + todo)%nat = length parts →
  reduce_tasks_from s i todo q = submit_all (Some <$> task_list i (drop i parts)) q.
Proof.
  intros Hok. induction todo as [|todo IH]; intros i q Hlen; cbn [reduce_tasks_from].
  - by rewrite drop_ge by lia.
  - destruct (lookup_lt_is_Some_2 parts i) as [gs Hi]; [lia|].
    destruct (store_part _ _ _ _ Hok Hi) as (p & _ & -> & Hrep).
    pose proof (length_brk _ _ _ _ Hok Hi). pose proof (length_glocs gs).
    rewrite bind_Ok, (tasks_from_spec s i gs) by (apply Hrep || lia).
    rewrite (drop_S _ _ _ Hi). cbn [task_list]. rewrite fmap_app, submit_all_app. apply bind_ext. intros q1. apply IH. lia.
Qed.

(** The queue has room for 999 tasks and the end marker. *)
Lemma reduce_tasks_spec s parts : store_ok s parts → reduce_tasks s =
  if decide (length (task_list 0 parts) < RQUEUE)%nat then Ok (reduce_queue (task_list 0 parts)) else Fault (Z.of_nat RQUEUE).
Proof.
  intros Hok. unfold reduce_tasks. rewrite (reduce_tasks_from_spec s parts) by
    (done || by simpl; eapply Forall2_length, st_rep). rewrite drop_0.
  transitivity (submit_all (reduce_queue (task_list 0 parts)) []).
  { unfold reduce_queue. rewrite submit_all_app. apply bind_ext. intros q. cbn [submit_all]. by destruct (submitReduceTask None q). }
  rewrite submit_all_spec by (cbn; lia). unfold reduce_queue. rewrite length_app, length_fmap. cbn [length app].
  repeat case_decide; done || lia.
Qed.

Lemma elem_of_task_list parts : ∀ i k j, (k, j) ∈ task_list i parts ↔
  ∃ d gs, j = (i + d)%nat ∧ parts !! d = Some gs ∧ k ∈ gkeys gs.
Proof.
  induction parts as [|gs parts IH]; intros i k j; simpl.
  { split; [by intros ?%not_elem_of_nil|]. by intros (d & ? & _ & ? & _). }
  rewrite elem_of_app, IH, list_elem_of_fmap. split.
  - intros [(g & [= -> ->] & Hg)|(d & gs' & -> & Hd & Hk)].
    + exists 0%nat, gs. split_and!; [lia|done|]. by apply list_elem_of_fmap_2.
    + exists (S d), gs'. split_and!; [lia|done..].
  - intros ([|d] & gs' & -> & Hd & Hk); simpl in Hd.
    + simplify_eq. left. apply list_elem_of_fmap in Hk as (g & -> & Hg). exists g.
      split; [|done]. unfold group_task. f_equal. lia.
    + right. exists d, gs'. split_and!; [lia|done..].
Qed.

(** Tasks in the order in which [MR_Run] submits them. *)
Definition task_lt (t u : cstring * nat) : Prop :=
  (t.2 < u.2)%nat ∨ (t.2 = u.2 ∧ strcmp t.1 u.1 < 0).

Lemma task_list_sorted parts : ∀ i, Forall sorted_keys parts → StronglySorted task_lt (task_list i parts).
Proof.
  induction parts as [|gs parts IH]; intros i Hs; [constructor|]. apply Forall_cons in Hs as [Hs Hps].
  cbn [task_list]. apply StronglySorted_app. split_and!; [| |by apply IH].
  - intros t [k j] (g & -> & _)%list_elem_of_fmap (d & gs' & -> & _)%elem_of_task_list.
    left. simpl. lia.
  - eapply StronglySorted_fmap; [|exact Hs]. intros x y Hxy. by right.
Qed.

Lemma task_list_NoDup parts i : Forall sorted_keys parts → NoDup (task_list i parts).
Proof.
  intros Hs. pose proof (task_list_sorted parts i Hs) as H. induction H as [|t l _ IH Hf]; constructor; [|done].
  intros Hin. rewrite Forall_forall in Hf. destruct (Hf t Hin) as [?|[_ H]]; [lia|]. rewrite strcmp_refl in H. lia.
Qed.

(** * Emissions *)

Definition emitted (k : cstring) (kvs : list (cstring * cstring)) : list cstring :=
  (filter (λ kv, kv.1 = k) kvs).*2.

Section emissions.
Context (pner : cstring → Z → Z) (n : nat).
Hypothesis Hn : Z.of_nat n < 2 ^ 31.
Hypothesis Hpner : ∀ k, 0 <= pner k (Z.of_nat n) < Z.of_nat n.

(** The partition of a key. *)
Definition part_of (k : cstring) : nat := Z.to_nat (pner k (Z.of_nat n)).

Lemma part_of_lt k : (part_of k < n)%nat.
Proof using Hpner. unfold part_of. pose proof (Hpner k). lia. Qed.

Lemma MR_Emit_spec m parts k v : store_ok (sto m) parts → length parts = n → str_ok k →
  ∃ m' parts', MR_Emit pner m k v = Ok m' ∧ store_ok (sto m') parts' ∧ length parts' = n ∧
    ∀ t, task_values parts' t = if decide (t = (k, part_of k)) then v :: task_values parts t else task_values parts t.
Proof using Hn Hpner.
  intros Hok Hlen Hk. unfold MR_Emit. assert (length (arr_part (sto m)) = n) as ->.
  { rewrite <- Hlen. by eapply Forall2_length, st_rep. }
  pose proof (Hpner k) as Hp. rewrite s32_small by lia. rewrite (proj2 (Z.ltb_ge _ _)) by lia.
  fold (part_of k). pose proof (part_of_lt k) as Hlt.
  destruct (lookup_lt_is_Some_2 parts (part_of k)) as [gs Hgs]; [lia|].
  destruct (add_spec _ _ _ _ k v Hok Hgs Hk) as (s' & gs' & E & Hok' & Hvals).
  apply add_find in E as (m' & -> & <-). exists m', (<[part_of k := gs']> parts). split_and!; [done..|by rewrite length_insert|].
  intros [k' j]. unfold task_values. cbn [fst snd]. destruct (decide (j = part_of k)) as [->|Hne].
  - rewrite list_lookup_total_insert_eq, Hvals, (list_lookup_total_correct _ _ _ Hgs) by lia.
    repeat case_decide; congruence.
  - rewrite list_lookup_total_insert_ne by done. rewrite decide_False; [done|congruence].
Qed.

Lemma emit_all_spec kvs : ∀ m parts, store_ok (sto m) parts → length parts = n → Forall (λ kv, str_ok kv.1) kvs →
  ∃ m' parts', emit_all pner m kvs = Ok m' ∧ store_ok (sto m') parts' ∧ length parts' = n ∧
    ∀ t, task_values parts' t =
      (if decide (t.2 = part_of t.1) then reverse (emitted t.1 kvs) else []) ++ task_values parts t.
Proof using Hn Hpner.
  induction kvs as [|[k v] kvs IH]; intros m parts Hok Hlen Hks; cbn [emit_all].
  { exists m, parts. split_and!; [done..|]. intros t. by case_decide. }
  apply Forall_cons in Hks as [Hk Hks].
  destruct (MR_Emit_spec m parts k v Hok Hlen Hk) as (m1 & parts1 & -> & Hok1 & Hlen1 & Hv1).
  destruct (IH m1 parts1 Hok1 Hlen1 Hks) as (m2 & parts2 & E & Hok2 & Hlen2 & Hv2).
  rewrite bind_Ok. exists m2, parts2. split_and!; [done..|].
  intros [k' j]. rewrite Hv2, Hv1. cbn [fst snd]. unfold emitted.
  destruct (decide (k = k')) as [<-|Hne].
  - rewrite filter_cons_True by done. csimpl. rewrite reverse_cons. destruct (decide (j = part_of k)) as [->|Hj].
    + by rewrite decide_True, <- app_assoc.
    + by rewrite decide_False by congruence.
  - rewrite filter_cons_False by done. rewrite (decide_False (P := (k', j) = _)) by congruence. done.
Qed.
End emissions.

Lemma empty_ok n : store_ok (empty_store n) (replicate n []).
Proof.
  split; cbn [heap brk arr_part empty_store].
  - apply Forall2_replicate. split; [done|constructor..].
  - intros i j gi gj a [-> _]%lookup_replicate _ Ha. by apply not_elem_of_nil in Ha.
  - intros i gs a [-> _]%lookup_replicate Ha. by apply not_elem_of_nil in Ha.
Qed.

Lemma emitted_nil k kvs : emitted k kvs = [] ↔ k ∉ kvs.*1.
Proof.
  unfold emitted. induction kvs as [|[k' v] kvs IH]; simpl; [split; [intros; apply not_elem_of_nil|done]|].
  rewrite not_elem_of_cons. destruct (decide (k' = k)) as [->|Hne].
  - rewrite filter_cons_True by done. csimpl. naive_solver.
  - rewrite filter_cons_False by done. rewrite IH. naive_solver.
Qed.

(** All values gone means all lists empty. *)
Lemma drained s parts : store_ok s parts → (∀ t, task_values parts t = []) →
  arr_part s = replicate (length parts) None.
Proof.
  intros [Hr _ _] Hv. symmetry. apply replicate_as_Forall. split; [by eapply Forall2_length|].
  apply Forall_lookup. intros i p Hi. destruct (Forall2_lookup_l _ _ _ _ _ Hr Hi) as (gs & Hgs & Hrep).
  destruct gs as [|g gs]; [by destruct Hrep|].
  pose proof (Hv (gkey g, i)) as H. unfold task_values in H. cbn [fst snd] in H.
  rewrite (list_lookup_total_correct _ _ _ Hgs) in H. apply values_of_present in H. exfalso. apply H, list_elem_of_here.
Qed.

Lemma values_of_perm gs gs' k : gs' ≡ₚ gs → NoDup (gkeys gs) → values_of gs' k = values_of gs k.
Proof.
  intros Hp Hk. apply values_of_ext; [done|by rewrite (gkeys_perm _ _ Hp)|..].
  - intros g Hg E. exists g. by rewrite Hp.
  - intros g Hg E. exists g. by rewrite <- Hp.
Qed.

Lemma task_values_perm s parts parts' t : store_ok s parts → Forall2 (≡ₚ) parts' parts →
  task_values parts' t = task_values parts t.
Proof.
  intros Hok Hp. unfold task_values. destruct (decide (t.2 < length parts)%nat) as [Hlt|Hge].
  - destruct (lookup_lt_is_Some_2 _ _ Hlt) as [gs Hgs].
    destruct (Forall2_lookup_r _ _ _ _ _ Hp Hgs) as (gs' & Hgs' & Hperm).
    rewrite (list_lookup_total_correct _ _ _ Hgs), (list_lookup_total_correct _ _ _ Hgs').
    destruct (store_part _ _ _ _ Hok Hgs) as (p & _ & _ & Hrep). apply values_of_perm; [done|apply Hrep].
  - rewrite !list_lookup_total_alt, !lookup_ge_None_2; [done|lia|]. rewrite (Forall2_length _ _ _ Hp). lia.
Qed.

(** The partitions after the sort hold, for each key, its values in its partition. *)
Definition grouped (pner : cstring → Z → Z) (n : nat) (kvs : list (cstring * cstring)) (parts : list (list group)) : Prop :=
  length parts = n ∧ Forall sorted_keys parts ∧
  ∀ t, task_values parts t = if decide (t.2 = part_of pner n t.1) then reverse (emitted t.1 kvs) else [].

Lemma task_values_empty n t : task_values (replicate n []) t = [].
Proof.
  unfold task_values. rewrite list_lookup_total_alt. destruct (replicate n [] !! t.2) as [gs|] eqn:E; [|done].
  by apply lookup_replicate in E as [-> _].
Qed.

Lemma grouped_tasks pner n kvs parts : (∀ k, 0 <= pner k (Z.of_nat n) < Z.of_nat n) → grouped pner n kvs parts →
  ∀ k i, (k, i) ∈ task_list 0 parts ↔ k ∈ kvs.*1 ∧ i = part_of pner n k.
Proof.
  intros Hpner (Hlen & _ & Hv) k i. rewrite elem_of_task_list. split.
  - intros (d & gs & -> & Hd & Hk). cbn [Nat.add]. specialize (Hv (k, d)). unfold task_values in Hv. cbn [fst snd] in Hv.
    rewrite (list_lookup_total_correct _ _ _ Hd) in Hv.
    destruct (decide (d = part_of pner n k)) as [Hdk|Hdk]; [|by apply values_of_present in Hv].
    split; [|done]. destruct (decide (k ∈ kvs.*1)) as [|Hno]; [done|]. apply emitted_nil in Hno.
    rewrite Hno in Hv. by apply values_of_present in Hv.
  - intros [Hk ->]. destruct (lookup_lt_is_Some_2 parts (part_of pner n k)) as [gs Hgs].
    { rewrite Hlen. by apply part_of_lt. }
    exists (part_of pner n k), gs. split_and!; [done..|].
    destruct (decide (k ∈ gkeys gs)) as [|Hno]; [done|]. apply values_of_absent in Hno.
    specialize (Hv (k, part_of pner n k)). unfold task_values in Hv. cbn [fst snd] in Hv.
    rewrite (list_lookup_total_correct _ _ _ Hgs), Hno, decide_True in Hv by done.
    symmetry in Hv. apply (f_equal reverse) in Hv. rewrite reverse_involutive in Hv. by apply emitted_nil in Hv.
Qed.

(** Every value belongs to a task. *)
Lemma grouped_all pner n kvs parts t : (∀ k, 0 <= pner k (Z.of_nat n) < Z.of_nat n) → grouped pner n kvs parts →
  t ∉ task_list 0 parts → task_values parts t = [].
Proof.
  intros Hpner Hgr Ht. destruct t as [k i]. rewrite (grouped_tasks _ _ _ _ Hpner Hgr) in Ht.
  destruct Hgr as (_ & _ & Hv). rewrite Hv. cbn [fst snd]. case_decide as Hi; [|done].
  rewrite (proj2 (emitted_nil k kvs)); [done|]. tauto.
Qed.

Lemma emit_sort_grouped pner n kvs :
  Z.of_nat n < 2 ^ 31 → (∀ k, 0 <= pner k (Z.of_nat n) < Z.of_nat n) → Forall (λ kv, str_ok kv.1) kvs →
  ∃ m1 s2 parts, emit_all pner (empty_mem n) kvs = Ok m1 ∧ insertionSort (sto m1) = Ok s2 ∧ store_ok s2 parts ∧
    grouped pner n kvs parts.
Proof.
  intros Hn Hpner Hkvs.
  destruct (emit_all_spec pner n Hn Hpner kvs (empty_mem n) (replicate n [])) as (m1 & parts1 & E1 & Hok1 & Hlen1 & Hv1);
    [apply empty_ok|apply length_replicate|done|].
  destruct (insertionSort_spec (sto m1) parts1 Hok1) as (s2 & parts2 & E2 & Hok2 & Hp2 & Hs2).
  exists m1, s2, parts2. split_and!; [done..|]. split_and!; [by rewrite (Forall2_length _ _ _ Hp2)|done|].
  intros t. by rewrite (task_values_perm _ _ _ _ Hok1 Hp2), Hv1, task_values_empty, app_nil_r.
Qed.

(** A task for each key: there are as many tasks as different keys. *)
Lemma grouped_count pner n kvs parts : (∀ k, 0 <= pner k (Z.of_nat n) < Z.of_nat n) → grouped pner n kvs parts →
  length (task_list 0 parts) = length (remove_dups kvs.*1).
Proof.
  intros Hpner Hgr. pose proof (grouped_tasks _ _ _ _ Hpner Hgr) as Ht. destruct Hgr as (_ & Hs & _).
  rewrite <- (length_fmap fst (task_list 0 parts)). apply Permutation_length, NoDup_Permutation.
  - apply NoDup_fmap_2_strong; [|by apply task_list_NoDup]. intros [k i] [k' i'] [_ ->]%Ht [_ ->]%Ht E. cbn in E. by subst.
  - apply NoDup_remove_dups.
  - intros k. rewrite elem_of_remove_dups, list_elem_of_fmap. split.
    + intros ([k' i] & -> & [Hk _]%Ht). exact Hk.
    + intros Hk. exists (k, part_of pner n k). split; [done|]. by apply Ht.
Qed.


Lemma MR_DefaultHashPartition_range k n : 0 < n < 2 ^ 31 → 0 <= MR_DefaultHashPartition k n < n.
Proof.
  intros Hn. unfold MR_DefaultHashPartition, u64. rewrite (Z.mod_small n) by lia. apply Z.mod_pos_bound. lia.
Qed.

