(* ===== verification/MapQueue.v ===== *)
(** The worker pools of the map-reduce library (src/p3a/mapreduce.c): the task
    queues with their mutex and condition variable, the worker threads
    [startMapThread] and [startReduceThread], and the submissions of [MR_Run].

    The two pools differ in one statement: a mapper that finds the end marker (a task
    whose file name is NULL) signals the condition variable before it leaves, a
    reducer does not; [signal_on_exit] tells them apart.  A step is a critical
    section, a [pthread_cond_signal] outside of one, or the end of a task.  The task itself
    ([map], [reduce]) is opaque and returns.  [pthread_cond_wait] may also return
    without a signal; such steps are a separate relation. *)

From Stdlib Require Import ZArith Lia.
From stdpp Require Import base numbers list relations.
From S2P Require Import Prelude.
#[local] Open Scope Z_scope.

Definition QSIZE : nat := 1000.

Section pool.
Context {A : Type} (signal_on_exit : bool).

(** Where a worker is: about to lock the mutex, in [pthread_cond_wait], woken and
    about to get the mutex back, running a task, or returned. *)
Inductive worker := Locking | Waiting | Woken | Running (t : A) | Exited.

(** Where [MR_Run] is: the next submission, or the signal after one; [Submit []]
    is the [pthread_join] loop. *)
Inductive submitter := Submit (todo : list (option A)) | Signal (todo : list (option A)).

(** [None] is a task whose [filename] ([key]) is NULL; [started] records the tasks
    that workers have begun, in order. *)
Record pool := Pool {
  mQueue : list (option A); mapTaskCount : Z;
  workers : list worker; main : submitter; started : list A }.

Definition set_workers (w : list worker) (s : pool) : pool :=
  Pool (mQueue s) (mapTaskCount s) w (main s) (started s).
Definition set_main (m : submitter) (s : pool) : pool :=
  Pool (mQueue s) (mapTaskCount s) (workers s) m (started s).

(** The critical section of [submitMapTask]. *)
Definition submitMapTask (t : option A) (s : pool) : outcome pool :=
  if (0 <=? mapTaskCount s) && (mapTaskCount s <? Z.of_nat QSIZE) then
    Ok (Pool (<[Z.to_nat (mapTaskCount s) := t]> (mQueue s)) (mapTaskCount s + 1)
          (workers s) (main s) (started s))
  else Fault (mapTaskCount s).

(** [for(int i = 0; i < mapTaskCount; i++) mQueue[i] = mQueue[i+1];] *)
Fixpoint shift (q : list (option A)) (i n : nat) : outcome (list (option A)) :=
  match n with
  | O => Ok q
  | S n' =>
      match q !! S i with
      | Some t => shift (<[i := t]> q) (S i) n'
      | None => Fault (Z.of_nat (S i))
      end
  end.

(** The worker holds the mutex and no longer waits: take the first task, or
    leave.  The boolean tells whether it signals. *)
Definition serve (i : nat) (s : pool) : outcome (pool * bool) :=
  match mQueue s !! 0%nat with
  | None => Fault 0
  | Some None => Ok (set_workers (<[i := Exited]> (workers s)) s, signal_on_exit)
  | Some (Some t) =>
      q ← shift (mQueue s) 0 (Z.to_nat (mapTaskCount s));
      Ok (Pool q (mapTaskCount s - 1) (<[i := Running t]> (workers s)) (main s) (started s ++ [t]), false)
  end.

(** [pthread_cond_signal]: one of the waiting workers, if there are any. *)
Inductive signal (w : list worker) : list worker → Prop :=
| signal_none : Waiting ∉ w → signal w w
| signal_one i : w !! i = Some Waiting → signal w (<[i := Woken]> w).

(** Worker [i] is past the [if (mapTaskCount == 0)]. *)
Definition past_wait (s : pool) (i : nat) : Prop :=
  (workers s !! i = Some Locking ∧ mapTaskCount s ≠ 0) ∨ workers s !! i = Some Woken.

Inductive pstep : pool → pool → Prop :=
| step_submit s t todo s' : main s = Submit (t :: todo) → submitMapTask t s = Ok s' →
    pstep s (set_main (Signal todo) s')
| step_signal s todo w : main s = Signal todo → signal (workers s) w →
    pstep s (set_main (Submit todo) (set_workers w s))
| step_wait s i : workers s !! i = Some Locking → mapTaskCount s = 0 →
    pstep s (set_workers (<[i := Waiting]> (workers s)) s)
| step_serve s i s' : past_wait s i → serve i s = Ok (s', false) → pstep s s'
| step_serve_signal s i s' w : past_wait s i → serve i s = Ok (s', true) → signal (workers s') w →
    pstep s (set_workers w s')
| step_done s i t : workers s !! i = Some (Running t) →
    pstep s (set_workers (<[i := Locking]> (workers s)) s).

(** [pthread_cond_wait] returning on its own. *)
Inductive spurious : pool → pool → Prop :=
| spurious_wake s i : workers s !! i = Some Waiting →
    spurious s (set_workers (<[i := Woken]> (workers s)) s).

Definition pool_step (s s' : pool) : Prop := pstep s s' ∨ spurious s s'.

(** [MR_Run] with [n] workers: the queue is a zeroed global array; all tasks are
    submitted, then the end marker. *)
Definition pool_init (tasks : list A) (n : nat) : pool :=
  Pool (replicate QSIZE None) 0 (replicate n Locking) (Submit ((Some <$> tasks) ++ [None])) [].

(** All tasks are submitted and all [pthread_join]s have returned. *)
Definition finished (s : pool) : Prop := main s = Submit [] ∧ Forall (eq Exited) (workers s).

(** * The queue *)

Lemma shift_spec n : ∀ q i, (i + n < length q)%nat →
  ∃ q', shift q i n = Ok q' ∧ length q' = length q ∧
    ∀ j, q' !! j = if bool_decide (i ≤ j < i + n)%nat then q !! S j else q !! j.
Proof.
  induction n as [|n IH]; intros q i Hlt; cbn [shift].
  { exists q. split_and!; [done..|]. intros j. by rewrite bool_decide_false by lia. }
  destruct (lookup_lt_is_Some_2 q (S i)) as [t Ht]; [lia|]. rewrite Ht.
  destruct (IH (<[i := t]> q) (S i)) as (q' & E & Hl & Hq); [rewrite length_insert; lia|].
  rewrite length_insert in Hl. exists q'. split_and!; [done..|]. intros j. rewrite Hq.
  destruct (decide (j = i)) as [->|Hne].
  - rewrite bool_decide_false, bool_decide_true by lia. by rewrite list_lookup_insert_eq by lia.
  - case_bool_decide as H1; case_bool_decide as H2; try lia; by rewrite list_lookup_insert_ne by lia.
Qed.

(** What the array holds when [fs] are the tasks not yet taken. *)
Definition queue_of (fs : list A) : list (option A) := (Some <$> fs) ++ replicate (QSIZE - length fs) None.

Lemma lookup_queue fs j : (length fs ≤ QSIZE)%nat → (j < QSIZE)%nat → queue_of fs !! j = Some (fs !! j).
Proof.
  intros Hl Hj. unfold queue_of. destruct (decide (j < length fs)%nat) as [Hlt|Hge].
  - rewrite lookup_app_l by (by rewrite length_fmap). rewrite list_lookup_fmap.
    by destruct (lookup_lt_is_Some_2 _ _ Hlt) as [x ->].
  - rewrite lookup_app_r by (rewrite length_fmap; lia). rewrite length_fmap.
    rewrite lookup_replicate_2 by lia. by rewrite lookup_ge_None_2 by lia.
Qed.

Lemma length_queue fs : (length fs ≤ QSIZE)%nat → length (queue_of fs) = QSIZE.
Proof. intros Hl. unfold queue_of. rewrite length_app, length_fmap, length_replicate. lia. Qed.

Lemma queue_ext q fs : (length fs ≤ QSIZE)%nat → length q = QSIZE →
  (∀ j, (j < QSIZE)%nat → q !! j = Some (fs !! j)) → q = queue_of fs.
Proof.
  intros Hl Hq Hj. apply list_eq. intros j. destruct (decide (j < QSIZE)%nat) as [Hlt|Hge].
  - by rewrite Hj, lookup_queue.
  - rewrite !lookup_ge_None_2; [done| |]; rewrite ?length_queue by done; lia.
Qed.

Lemma queue_append fs t : (length fs < QSIZE)%nat → <[length fs := Some t]> (queue_of fs) = queue_of (fs ++ [t]).
Proof.
  intros Hl. apply queue_ext; [rewrite length_app; simpl; lia|by rewrite length_insert, length_queue by lia|].
  intros j Hj. destruct (decide (j = length fs)) as [->|Hne].
  - rewrite list_lookup_insert_eq by (rewrite length_queue; lia). by rewrite lookup_app_r, Nat.sub_diag by lia.
  - rewrite list_lookup_insert_ne, lookup_queue by lia. f_equal.
    destruct (decide (j < length fs)%nat); [by rewrite lookup_app_l|].
    rewrite !lookup_ge_None_2; [done|rewrite length_app; simpl; lia|lia].
Qed.

Lemma queue_marker fs : (length fs < QSIZE)%nat → <[length fs := None]> (queue_of fs) = queue_of fs.
Proof.
  intros Hl. apply list_insert_id. rewrite lookup_queue by lia. by rewrite lookup_ge_None_2.
Qed.

Lemma queue_shift t fs n : (length fs < n < QSIZE)%nat →
  shift (queue_of (t :: fs)) 0 n = Ok (queue_of fs).
Proof.
  intros Hn. assert (length (queue_of (t :: fs)) = QSIZE) as Hlen by (apply length_queue; simpl; lia).
  destruct (shift_spec n (queue_of (t :: fs)) 0) as (q & -> & Hl & Hq); [lia|]. f_equal.
  apply queue_ext; [lia|congruence|]. intros j Hj. rewrite Hq. case_bool_decide as Hjn.
  - rewrite lookup_queue by (simpl; lia). done.
  - rewrite lookup_queue by (simpl; lia). rewrite !lookup_ge_None_2; [done|lia|simpl; lia].
Qed.

(** * The invariant *)

Definition main_todo (m : submitter) : list (option A) :=
  match m with Submit todo | Signal todo => todo end.

(** [fs] are the tasks in the queue, [rest] those not yet submitted, [sent]
    tells whether the end marker is in the queue. *)
Record pinv (tasks : list A) (s : pool) (fs rest : list A) (sent : bool) : Prop := {
  pi_queue : mQueue s = queue_of fs;
  pi_count : mapTaskCount s = Z.of_nat (length fs) + (if sent then 1 else 0);
  pi_todo : main_todo (main s) = if sent then [] else (Some <$> rest) ++ [None];
  pi_sent : sent = true → rest = [];
  pi_tasks : started s ++ fs ++ rest = tasks }.

Section run.
Context (tasks : list A).
Hypothesis Hsize : (length tasks + 1 < QSIZE)%nat.

Lemma pinv_len s fs rest sent : pinv tasks s fs rest sent → (length fs + 1 < QSIZE)%nat.
Proof using Hsize. intros [_ _ _ _ E]. rewrite <- E, !length_app in Hsize. lia. Qed.

Lemma submit_task s t rest fs todo : pinv tasks s fs (t :: rest) false → main s = Submit (Some t :: todo) →
  ∃ s', submitMapTask (Some t) s = Ok s' ∧ workers s' = workers s ∧ started s' = started s ∧
    todo = (Some <$> rest) ++ [None] ∧
    pinv tasks (set_main (Signal todo) s') (fs ++ [t]) rest false.
Proof using Hsize.
  intros Hi Hm. pose proof (pinv_len _ _ _ _ Hi) as Hlen. destruct Hi as [Hq Hc Ht Hs E].
  rewrite Hm in Ht. simpl in Ht. injection Ht as Ht. unfold submitMapTask.
  rewrite (proj2 (Z.leb_le _ _)), (proj2 (Z.ltb_lt _ _)) by lia. cbn [andb]. eexists. split; [done|].
  split_and!; [done..|]. split; cbn [set_main mQueue mapTaskCount main started main_todo]; try done.
  - rewrite Hq, Hc. replace (Z.to_nat (Z.of_nat (length fs) + 0)) with (length fs) by lia.
    apply queue_append. lia.
  - rewrite Hc, length_app. simpl. lia.
  - rewrite <- E, <- app_assoc. done.
Qed.

Lemma submit_marker s fs todo : pinv tasks s fs [] false → main s = Submit (None :: todo) →
  ∃ s', submitMapTask None s = Ok s' ∧ workers s' = workers s ∧ started s' = started s ∧ todo = [] ∧
    pinv tasks (set_main (Signal todo) s') fs [] true.
Proof using Hsize.
  intros Hi Hm. pose proof (pinv_len _ _ _ _ Hi) as Hlen. destruct Hi as [Hq Hc Ht Hs E].
  rewrite Hm in Ht. simpl in Ht. injection Ht as ->. unfold submitMapTask.
  rewrite (proj2 (Z.leb_le _ _)), (proj2 (Z.ltb_lt _ _)) by lia. cbn [andb]. eexists. split; [done|].
  split_and!; [done..|]. split; cbn [set_main mQueue mapTaskCount main started main_todo]; try done.
  - rewrite Hq, Hc. replace (Z.to_nat (Z.of_nat (length fs) + 0)) with (length fs) by lia.
    apply queue_marker. lia.
  - lia.
Qed.

Lemma serve_spec s i fs rest sent : pinv tasks s fs rest sent →
  match fs with
  | [] => serve i s = Ok (set_workers (<[i := Exited]> (workers s)) s, signal_on_exit)
  | t :: fs' => ∃ s', serve i s = Ok (s', false) ∧ workers s' = <[i := Running t]> (workers s) ∧
      main s' = main s ∧ started s' = started s ++ [t] ∧ pinv tasks s' fs' rest sent
  end.
Proof using Hsize.
  intros Hi. pose proof (pinv_len _ _ _ _ Hi) as Hlen. destruct Hi as [Hq Hc Ht Hs E]. unfold serve.
  rewrite Hq, lookup_queue by lia. destruct fs as [|t fs]; [done|]. cbn [lookup list_lookup].
  rewrite queue_shift, bind_Ok; [|rewrite Hc; simpl length in *; destruct sent; lia].
  eexists. split; [done|]. split_and!; [done..|]. split; cbn [mQueue mapTaskCount main started]; try done.
  - rewrite Hc. simpl length. lia.
  - by rewrite <- app_assoc.
Qed.

Lemma pinv_workers s w fs rest sent : pinv tasks s fs rest sent → pinv tasks (set_workers w s) fs rest sent.
Proof. by intros []. Qed.

Lemma pinv_main s m fs rest sent : pinv tasks s fs rest sent → main_todo m = main_todo (main s) →
  pinv tasks (set_main m s) fs rest sent.
Proof. intros [] E. split; try done. cbn [set_main main]. by rewrite E. Qed.

(** [MR_Run] submits the tasks in order, then the marker. *)
Lemma submit_cases s t todo fs rest sent : pinv tasks s fs rest sent → main s = Submit (t :: todo) →
  ∃ s' fs' rest' sent', submitMapTask t s = Ok s' ∧ workers s' = workers s ∧ started s' = started s ∧
    (sent = true → sent' = true) ∧ (length fs' + length rest' = length fs + length rest)%nat ∧
    pinv tasks (set_main (Signal todo) s') fs' rest' sent'.
Proof using Hsize.
  intros Hi Hm. pose proof (pi_todo _ _ _ _ _ Hi) as Ht. rewrite Hm in Ht. cbn [main_todo] in Ht.
  destruct sent; [done|]. destruct rest as [|x rest]; injection Ht as -> Ht.
  - destruct (submit_marker _ _ _ Hi Hm) as (s' & E & Hw & Hst & -> & Hi'). exists s', fs, [], true.
    split_and!; auto.
  - destruct (submit_task _ _ _ _ _ Hi Hm) as (s' & E & Hw & Hst & -> & Hi'). exists s', (fs ++ [x]), rest, false.
    split_and!; auto. rewrite length_app. simpl. lia.
Qed.

Lemma pinv_step s s' fs rest sent : pinv tasks s fs rest sent → pool_step s s' →
  ∃ fs' rest' sent', pinv tasks s' fs' rest' sent'.
Proof using Hsize.
  intros Hi Hst. revert Hi.
  destruct Hst as [[x t todo y Hm E|x todo w Hm _|x i _ _|x i y _ E|x i y w _ E _|x i t _]|[x i _]]; intros Hi;
    try (exists fs, rest, sent; by apply pinv_workers).
  - destruct (submit_cases _ _ _ _ _ _ Hi Hm) as (z & fs' & rest' & sent' & E' & _ & _ & _ & _ & Hi').
    rewrite E in E'. injection E' as <-. eauto.
  - exists fs, rest, sent. apply pinv_main; [by apply pinv_workers|]. cbn. by rewrite Hm.
  - pose proof (serve_spec x i _ _ _ Hi) as H. destruct fs as [|t fs].
    + rewrite E in H. injection H as -> _. exists [], rest, sent. by apply pinv_workers.
    + destruct H as (z & E1 & _ & _ & _ & Hi'). rewrite E in E1. injection E1 as <-. eauto.
  - pose proof (serve_spec x i _ _ _ Hi) as H. destruct fs as [|t fs].
    + rewrite E in H. injection H as -> _. exists [], rest, sent. by do 2 apply pinv_workers.
    + destruct H as (z & E1 & _). by rewrite E in E1.
Qed.

Lemma pinv_init n : pinv tasks (pool_init tasks n) [] tasks false.
Proof. split; done. Qed.

Lemma pinv_reach n s : rtc pool_step (pool_init tasks n) s → ∃ fs rest sent, pinv tasks s fs rest sent.
Proof using Hsize.
  intros Hr. eapply (rtc_invariant _ (λ s, ∃ fs rest sent, pinv tasks s fs rest sent)); [|exists [], tasks, false; apply pinv_init|exact Hr].
  intros a b (fs & rest & sent & Hi) Hst. by eapply pinv_step.
Qed.
End run.

(** * Steps and deadlock *)

Definition active (w : worker) : bool :=
  match w with Locking | Woken | Running _ => true | Waiting | Exited => false end.

(** While [MR_Run] joins, a waiting worker has an active colleague. *)
Definition winv (s : pool) : Prop :=
  main s = Submit [] → Waiting ∈ workers s → ∃ j w, workers s !! j = Some w ∧ active w = true.

Lemma winv_signal w w' : signal w w' → Waiting ∈ w' → ∃ j x, w' !! j = Some x ∧ active x = true.
Proof.
  intros [Hno|i Hi] Hin; [done|]. exists i, Woken. split; [|done].
  apply list_lookup_insert_eq. by eapply lookup_lt_Some.
Qed.

Lemma past_wait_lt s i : past_wait s i → (i < length (workers s))%nat.
Proof. intros [[H _]|H]; by eapply lookup_lt_Some. Qed.

(** All tasks are submitted: the marker is in the queue. *)
Lemma pinv_joining tasks s fs rest sent : pinv tasks s fs rest sent → main_todo (main s) = [] → sent = true.
Proof. intros [_ _ Ht _ _] Hm. rewrite Hm in Ht. destruct sent; [done|]. by destruct rest. Qed.

Lemma winv_step tasks s s' fs rest sent : signal_on_exit = true → (length tasks + 1 < QSIZE)%nat →
  pinv tasks s fs rest sent → pstep s s' → winv s → winv s'.
Proof.
  intros Hexit Hsize Hi Hst. revert Hi.
  destruct Hst as [x t todo y Hm E|x todo w Hm Hsig|x i Hw Hc|x i y Hp E|x i y w _ E Hsig|x i t Hw]; intros Hi Hx Hm' Hin;
    cbn [set_main set_workers main workers] in *.
  - done.
  - by eapply winv_signal.
  - assert (sent = true) as -> by (eapply pinv_joining; [done|by rewrite Hm']).
    destruct Hi as [_ Hc' _ _ _]. rewrite Hc in Hc'. lia.
  - pose proof (serve_spec _ Hsize x i _ _ _ Hi) as H. destruct fs as [|t fs].
    + rewrite E, Hexit in H. done.
    + destruct H as (z & E1 & Hw & _). rewrite E in E1. injection E1 as <-. exists i, (Running t).
      rewrite Hw. split; [|done]. by apply list_lookup_insert_eq, past_wait_lt.
  - by eapply winv_signal.
  - exists i, Locking. split; [|done]. apply list_lookup_insert_eq. by eapply lookup_lt_Some.
Qed.

Lemma waiting_cases (w : list worker) : (∃ i, w !! i = Some Waiting) ∨ Waiting ∉ w.
Proof.
  induction w as [|x w [[i Hi]|Hno]]; [right; apply not_elem_of_nil|left; by exists (S i)|].
  destruct x; try (right; apply not_elem_of_cons; by split). left. by exists 0%nat.
Qed.

Lemma signal_exists w : ∃ w', signal w w'.
Proof.
  destruct (waiting_cases w) as [[i Hi]|Hno]; eexists; [by eapply signal_one|by apply signal_none].
Qed.

(** A worker that is neither waiting nor gone can move. *)
Lemma active_moves tasks s fs rest i w : (length tasks + 1 < QSIZE)%nat → pinv tasks s fs rest true →
  workers s !! i = Some w → active w = true → ∃ s', pstep s s'.
Proof.
  intros Hsize Hi Hw Ha. assert (mapTaskCount s ≠ 0) as Hc by (destruct Hi as [_ -> _ _ _]; lia).
  assert (past_wait s i → ∃ s', pstep s s') as Hserve.
  { intros Hp. pose proof (serve_spec _ Hsize s i _ _ _ Hi) as H. destruct fs as [|t fs].
    - destruct signal_on_exit eqn:Hx.
      + destruct (signal_exists (<[i := Exited]> (workers s))) as [w' Hw']. eexists. by eapply step_serve_signal.
      + eexists. by eapply step_serve.
    - destruct H as (z & E & _). eexists. by eapply step_serve. }
  destruct w; try done.
  - apply Hserve. by left.
  - apply Hserve. by right.
  - eexists. by eapply step_done.
Qed.

Lemma exited_cases (l : list worker) : Forall (eq Exited) l ∨ ∃ j w, l !! j = Some w ∧ w ≠ Exited.
Proof.
  induction l as [|x l [IH|(j & w & Hj & Hw)]]; [by left| |right; by exists (S j), w].
  destruct x; try (right; exists 0%nat; by eexists). left. by constructor.
Qed.

Lemma finished_or_moves tasks s fs rest sent : (length tasks + 1 < QSIZE)%nat →
  pinv tasks s fs rest sent → winv s → finished s ∨ ∃ s', pstep s s'.
Proof.
  intros Hsize Hi Hwi. destruct (main s) as [[|t todo]|todo] eqn:Hm.
  - assert (sent = true) as -> by (eapply pinv_joining; [done|by rewrite Hm]).
    destruct (exited_cases (workers s)) as [Hall|(j & w & Hj & Hne)]; [by left|right].
    destruct (active w) eqn:Ha; [by eapply active_moves|].
    destruct w; try done. destruct (Hwi Hm) as (j' & w' & Hj' & Ha'); [by eapply list_elem_of_lookup_2|].
    by eapply active_moves.
  - right. destruct (submit_cases _ Hsize _ _ _ _ _ _ Hi Hm) as (s' & _ & _ & _ & E & _). eexists. by eapply step_submit.
  - right. destruct (signal_exists (workers s)) as [w Hw]. eexists. by eapply step_signal.
Qed.

(** * Termination *)

Definition weight (w : worker) : nat :=
  match w with Exited => 0 | Waiting => 2 | Woken => 3 | Locking => 4 | Running _ => 5 end.

Definition main_weight (m : submitter) : nat :=
  match m with Submit todo => 8 * length todo | Signal todo => 8 * length todo + 2 end.

Definition pool_weight (s : pool) : nat :=
  sum_list_with weight (workers s) + 4 * Z.to_nat (mapTaskCount s) + main_weight (main s).

Lemma weight_insert l i x y : l !! i = Some x →
  (sum_list_with weight (<[i := y]> l) + weight x = sum_list_with weight l + weight y)%nat.
Proof.
  revert i. induction l as [|z l IH]; intros [|i] Hi; simpl in *; [done|done|injection Hi as ->; lia|].
  specialize (IH i Hi). lia.
Qed.

Lemma weight_signal w w' : signal w w' → (sum_list_with weight w' ≤ S (sum_list_with weight w))%nat.
Proof.
  intros [Hno|i Hi]; [lia|]. pose proof (weight_insert _ _ _ Woken Hi) as E. simpl in E. lia.
Qed.

Lemma weight_past_wait s i y : past_wait s i →
  (sum_list_with weight (<[i := y]> (workers s)) + 3 ≤ sum_list_with weight (workers s) + weight y)%nat.
Proof. intros [[H _]|H]; pose proof (weight_insert _ _ _ y H) as E; simpl in E; lia. Qed.

Lemma pool_weight_step tasks s s' fs rest sent : (length tasks + 1 < QSIZE)%nat →
  pinv tasks s fs rest sent → pstep s s' → (pool_weight s' < pool_weight s)%nat.
Proof.
  intros Hsize Hi Hst. revert Hi. unfold pool_weight.
  destruct Hst as [x t todo y Hm E|x todo w Hm Hsig|x i Hw Hc|x i y Hp E|x i y w Hp E Hsig|x i t Hw]; intros Hi;
    cbn [set_main set_workers main workers mapTaskCount] in *; rewrite ?Hm.
  - destruct (submit_cases _ Hsize _ _ _ _ _ _ Hi Hm) as (z & _ & _ & _ & E' & Hw & _).
    rewrite E in E'. injection E' as <-. rewrite Hw. unfold submitMapTask in E.
    destruct (Z.leb_spec 0 (mapTaskCount x)); [|done]. destruct (_ <? _); [|done]. injection E as <-.
    cbn [mapTaskCount main_weight length]. lia.
  - pose proof (weight_signal _ _ Hsig). simpl. lia.
  - pose proof (weight_insert _ _ _ Waiting Hw) as E. simpl in E. lia.
  - pose proof (serve_spec _ Hsize x i _ _ _ Hi) as H. destruct fs as [|t fs].
    + rewrite E in H. injection H as -> _. pose proof (weight_past_wait _ _ Exited Hp). simpl in *. lia.
    + destruct H as (z & E1 & Hw & Hm & _ & Hi'). rewrite E in E1. injection E1 as <-.
      pose proof (weight_past_wait _ _ (Running t) Hp) as Hwt. rewrite Hw, Hm. destruct Hi as [_ -> _ _ _], Hi' as [_ -> _ _ _].
      simpl length. simpl in Hwt. destruct sent; lia.
  - pose proof (serve_spec _ Hsize x i _ _ _ Hi) as H. destruct fs as [|t fs].
    + rewrite E in H. injection H as -> _. cbn [set_workers workers] in Hsig. pose proof (weight_past_wait _ _ Exited Hp).
      pose proof (weight_signal _ _ Hsig). simpl in *. lia.
    + destruct H as (z & E1 & _). by rewrite E in E1.
  - pose proof (weight_insert _ _ _ Locking Hw) as E. simpl in E. lia.
Qed.
End pool.

Arguments worker : clear implicits.
Arguments submitter : clear implicits.
Arguments pool : clear implicits.

(** The tasks in a list of queue entries. *)
Fixpoint tasks_in {A} (l : list (option A)) : list A :=
  match l with [] => [] | Some t :: l' => t :: tasks_in l' | None :: l' => tasks_in l' end.

Lemma tasks_in_app {A} (l1 l2 : list (option A)) : tasks_in (l1 ++ l2) = tasks_in l1 ++ tasks_in l2.
Proof. induction l1 as [|[t|] l1 IH]; simpl; by rewrite ?IH. Qed.

Lemma tasks_in_some {A} (l : list A) : tasks_in (Some <$> l) = l.
Proof. induction l as [|x l IH]; csimpl; by rewrite ?IH. Qed.

Lemma tasks_in_none {A} n : tasks_in (replicate n None) = @nil A.
Proof. by induction n. Qed.

Lemma tasks_in_queue {A} (fs : list A) : tasks_in (queue_of fs) = fs.
Proof. unfold queue_of. by rewrite tasks_in_app, tasks_in_some, tasks_in_none, app_nil_r. Qed.

(** In every run of either pool, spurious wake-ups included, the tasks begun so far, the tasks in the
    queue and the tasks still to be submitted are together the tasks of [MR_Run], in order: none is run twice,
    none overtakes another; and as long as the tasks and the end marker leave a free entry, no operation leaves the array. *)
Theorem tasks_start_in_order {A} (signal_on_exit : bool) (tasks : list A) (n : nat) (s : pool A) :
  (length tasks + 1 < QSIZE)%nat → rtc (pool_step signal_on_exit) (pool_init tasks n) s →
  started s ++ tasks_in (mQueue s) ++ tasks_in (main_todo (main s)) = tasks ∧
  (∀ t todo, main s = Submit (t :: todo) → ∃ s', submitMapTask t s = Ok s') ∧
  (∀ i, ∃ r, serve signal_on_exit i s = Ok r).
Proof.
  intros Hsize Hr. destruct (pinv_reach signal_on_exit tasks Hsize n s Hr) as (fs & rest & sent & Hi). split_and!.
  - destruct Hi as [-> _ Ht Hsent <-]. rewrite tasks_in_queue, Ht. do 2 f_equal.
    destruct sent; [by rewrite Hsent|]. by rewrite tasks_in_app, tasks_in_some, app_nil_r.
  - intros t todo Hm. destruct (submit_cases _ Hsize _ _ _ _ _ _ Hi Hm) as (s' & _ & _ & _ & E & _). eauto.
  - intros i. pose proof (serve_spec signal_on_exit _ Hsize s i _ _ _ Hi) as H. destruct fs as [|t fs]; [eauto|].
    destruct H as (s' & E & _). eauto.
Qed.

(** That theorem at two tasks, two workers and the first submission. *)
Lemma tasks_start_in_order_witness :
  let s := Pool (<[0%nat := Some 7]> (replicate QSIZE None)) 1 [Locking; Locking] (Signal [Some 8; None]) [] in
  rtc (pool_step true) (pool_init [7; 8] 2) s ∧
  started s ++ tasks_in (mQueue s) ++ tasks_in (main_todo (main s)) = [7; 8].
Proof.
  intros s. assert (rtc (pool_step true) (pool_init [7; 8] 2) s) as Hr.
  { apply rtc_once. left. exact (step_submit true (pool_init [7; 8] 2) (Some 7) [Some 8; None] _ eq_refl eq_refl). }
  split; [exact Hr|]. refine (proj1 (tasks_start_in_order true [7; 8] 2 s _ Hr)). unfold QSIZE. simpl. lia.
Defined.

Lemma pool_weight_init {A} (tasks : list A) n : pool_weight (pool_init tasks n) = (4 * n + 8 * (length tasks + 1))%nat.
Proof.
  unfold pool_weight, pool_init. cbn [workers mapTaskCount main main_weight]. rewrite length_app, length_fmap. simpl length.
  assert (sum_list_with weight (replicate n (@Locking A)) = 4 * n)%nat as ->; [|lia].
  induction n as [|n IHn]; [done|]. simpl replicate. simpl sum_list_with. rewrite IHn. lia.
Qed.

Lemma mapper_run {A} (tasks : list A) k : (length tasks + 1 < QSIZE)%nat → ∀ x s,
  nsteps (pstep true) k x s → winv x → (∃ fs rest sent, pinv tasks x fs rest sent) →
  (k + pool_weight s ≤ pool_weight x)%nat ∧ winv s ∧ ∃ fs rest sent, pinv tasks s fs rest sent.
Proof.
  intros Hsize. induction k as [|k IH]; intros x s Hx Hw Hi.
  - inversion Hx. subst. split_and!; [lia|done..].
  - inversion Hx as [|? ? y ? Hst Hrest]. subst. destruct Hi as (fs & rest & sent & Hi).
    pose proof (pool_weight_step _ _ _ _ _ _ _ Hsize Hi Hst) as Hlt.
    destruct (IH y s Hrest) as (Hk & Hw' & Hi'); [by eapply winv_step| |split_and!; [lia|done..]].
    eapply pinv_step; [done..|]. by left.
Qed.

(** C19.  The mapper pool comes to an end if the tasks fit the queue: for fewer than 999 tasks, which with the NULL at the end fit the 1000 places of mQueue (the code does not test this), a run
    without spurious wake-ups has at most [4 n + 8 (length tasks + 1)] steps, and a run that cannot go on has submitted everything and all its mappers have
    returned, so the joins of [MR_Run] return. *)
Theorem mapper_pool_terminates {A} (tasks : list A) (n k : nat) (s : pool A) :
  (length tasks + 1 < QSIZE)%nat → nsteps (pstep true) k (pool_init tasks n) s →
  (k ≤ 4 * n + 8 * (length tasks + 1))%nat ∧ (finished s ∨ ∃ s', pstep true s s').
Proof.
  intros Hsize Hr. destruct (mapper_run tasks k Hsize _ _ Hr) as (Hk & Hw & fs & rest & sent & Hi).
  - intros Hm. by destruct tasks.
  - exists [], tasks, false. apply pinv_init.
  - rewrite pool_weight_init in Hk. split; [lia|]. by eapply finished_or_moves.
Qed.

(** C19 at one task and one mapper, after the first submission. *)
Lemma mapper_pool_terminates_witness :
  let s := Pool (<[0%nat := Some 7]> (replicate QSIZE None)) 1 [Locking] (Signal [None]) [] in
  nsteps (pstep true) 1 (pool_init [7] 1) s ∧
  (1 ≤ 20)%nat ∧ (finished s ∨ ∃ s', pstep true s s').
Proof.
  intros s. assert (nsteps (pstep true) 1 (pool_init [7] 1) s) as Hr.
  { apply nsteps_once. exact (step_submit true (pool_init [7] 1) (Some 7) [None] _ eq_refl eq_refl). }
  split; [exact Hr|]. apply (mapper_pool_terminates [7] 1 1 s); [unfold QSIZE; simpl; lia|exact Hr].
Defined.

(** * Lost tasks and a hang *)

Section defects.
Context {A : Type} (b : bool) (tasks : list A).
Hypothesis Hsize : (length tasks + 1 < QSIZE)%nat.

(** With nobody waiting, [MR_Run] submits the rest and the signals are lost. *)
Lemma submit_all todo : ∀ (s : pool A) fs rest sent, pinv tasks s fs rest sent → main s = Submit todo →
  Waiting ∉ workers s →
  ∃ s', rtc (pstep b) s s' ∧ main s' = Submit [] ∧ workers s' = workers s ∧ started s' = started s.
Proof using Hsize.
  induction todo as [|t todo IH]; intros s fs rest sent Hi Hm Hw; [by exists s|].
  destruct (submit_cases _ Hsize _ _ _ _ _ _ Hi Hm) as (s1 & fs1 & rest1 & sent1 & E & Hw1 & Hst1 & _ & _ & Hi1).
  destruct (IH (set_main (Submit todo) (set_workers (workers s1) (set_main (Signal todo) s1))) fs1 rest1 sent1)
    as (s' & Hr & Hm' & Hw' & Hst').
  - apply pinv_main; [by apply pinv_workers|done].
  - done.
  - cbn. by rewrite Hw1.
  - exists s'. cbn [set_main set_workers workers started] in Hw', Hst'. split_and!; [|done|congruence..].
    eapply rtc_l; [by eapply step_submit|]. eapply rtc_l; [|exact Hr].
    eapply step_signal; [done|]. cbn. rewrite Hw1. by apply signal_none.
Qed.

(** One task for the waiting worker [i]: submitted, signalled, taken, finished, waiting again. *)
Lemma one_round (s : pool A) t rest i : pinv tasks s [] (t :: rest) false →
  main s = Submit ((Some <$> t :: rest) ++ [None]) → workers s !! i = Some Waiting →
  ∃ s', rtc (pstep b) s s' ∧ pinv tasks s' [] rest false ∧ main s' = Submit ((Some <$> rest) ++ [None]) ∧
    workers s' = workers s ∧ started s' = started s ++ [t].
Proof using Hsize.
  intros Hi Hm Hw. set (todo := (Some <$> rest) ++ [None]). pose proof (lookup_lt_Some _ _ _ Hw) as Hlt.
  destruct (submit_task tasks Hsize s t rest [] todo Hi Hm) as (s1 & E1 & Hw1 & Hst1 & _ & Hi1).
  set (s2 := set_main (Submit todo) (set_workers (<[i := Woken]> (workers s1)) (set_main (Signal todo) s1))).
  assert (pinv tasks s2 [t] rest false) as Hi2 by (apply pinv_main; [by apply pinv_workers|done]).
  destruct (serve_spec b tasks Hsize s2 i _ _ _ Hi2) as (s3 & E3 & Hw3 & Hm3 & Hst3 & Hi3).
  set (s4 := set_workers (<[i := Locking]> (workers s3)) s3).
  assert (workers s2 !! i = Some Woken) as Hw2 by (cbn; rewrite Hw1; by apply list_lookup_insert_eq).
  assert (workers s4 !! i = Some Locking) as Hw4.
  { cbn. apply list_lookup_insert_eq. rewrite Hw3, length_insert. cbn. by rewrite length_insert, Hw1. }
  exists (set_workers (<[i := Waiting]> (workers s4)) s4). split_and!.
  - eapply rtc_l; [exact (step_submit b s (Some t) todo s1 Hm E1)|].
    eapply rtc_l; [eapply step_signal; [done|]; eapply (signal_one _ i); cbn; by rewrite Hw1|].
    eapply rtc_l; [eapply step_serve; [right; exact Hw2|exact E3]|].
    eapply rtc_l; [eapply step_done; rewrite Hw3; apply list_lookup_insert_eq; cbn; rewrite length_insert, Hw1; exact Hlt|].
    apply rtc_once. eapply step_wait; [exact Hw4|]. destruct Hi3 as [_ Hc _ _ _]. exact Hc.
  - by do 2 apply pinv_workers.
  - exact Hm3.
  - cbn. rewrite Hw3. cbn. rewrite !list_insert_insert_eq, Hw1. by apply list_insert_id.
  - cbn. rewrite Hst3. cbn. by rewrite Hst1.
Qed.
End defects.

(** With one mapper and no spurious wake-up, tasks can get lost: the mapper takes the first task before
    [MR_Run] signals it, waits again, is woken by that late signal, does not test the count again, takes the empty
    entry for the end marker and leaves.  [MR_Run] submits the rest and joins, and only the first task was ever run. *)
Theorem mapper_loses_tasks {A} (t : A) (rest : list A) :
  (length rest + 2 < QSIZE)%nat →
  ∃ s, rtc (pstep true) (pool_init (t :: rest) 1) s ∧ finished s ∧ started s = [t].
Proof.
  intros Hlen. assert (length (t :: rest) + 1 < QSIZE)%nat as Hsize by (simpl; lia).
  set (todo := (Some <$> rest) ++ [None]).
  destruct (submit_task _ Hsize (pool_init (t :: rest) 1) t rest [] todo (pinv_init _ 1) eq_refl) as (s1 & E1 & Hw1 & Hst1 & _ & Hi1).
  destruct (serve_spec true _ Hsize _ 0%nat _ _ _ Hi1) as (s2 & E2 & Hw2 & Hm2 & Hst2 & Hi2).
  cbn in Hw1, Hw2, Hst1, Hst2, Hm2. rewrite Hw1 in Hw2. rewrite Hst1 in Hst2. cbn in Hw2, Hst2.
  set (s5 := set_main (Submit todo) (set_workers [Woken] (set_workers [Waiting] (set_workers [Locking] s2)))).
  assert (pinv (t :: rest) s5 [] rest false) as Hi5.
  { apply pinv_main; [by do 3 apply pinv_workers|]. cbn. by rewrite Hm2. }
  pose proof (serve_spec true _ Hsize s5 0%nat _ _ _ Hi5) as E5. cbn [set_workers workers] in E5.
  destruct (submit_all true _ Hsize todo (set_workers [Exited] s5) [] rest false) as (s' & Hr & Hm' & Hw' & Hst').
  { by apply pinv_workers. }
  { done. }
  { cbn. intros [Hx|Hx]%elem_of_cons; [discriminate Hx|by apply not_elem_of_nil in Hx]. }
  exists s'. split_and!.
  - eapply rtc_l; [by eapply step_submit|].
    eapply rtc_l; [eapply (step_serve _ _ 0); [left; cbn; rewrite Hw1; split; [done|]; destruct Hi1 as [_ Hc _ _ _]; cbn in Hc; rewrite Hc; done|exact E2]|].
    eapply rtc_l; [eapply (step_done _ _ 0 t); by rewrite Hw2|].
    rewrite Hw2. cbn [insert list_insert].
    eapply rtc_l; [eapply (step_wait _ _ 0); [done|destruct Hi2 as [_ Hc _ _ _]; exact Hc]|].
    eapply rtc_l; [eapply step_signal; [exact Hm2|]; exact (signal_one [Waiting] 0 eq_refl)|].
    eapply rtc_l; [|exact Hr].
    eapply (step_serve_signal _ s5 0 (set_workers [Exited] s5) [Exited]); [right; done|exact E5|].
    apply signal_none. intros [Hx|Hx]%elem_of_cons; [discriminate Hx|by apply not_elem_of_nil in Hx].
  - split; [done|]. rewrite Hw'. by repeat constructor.
  - by rewrite Hst'.
Qed.

(** The theorem above with two tasks: the second is lost. *)
Lemma mapper_loses_tasks_witness :
  ∃ s, rtc (pstep true) (pool_init [7; 8] 1) s ∧ finished s ∧ started s = [7].
Proof. apply (mapper_loses_tasks 7 [8]). unfold QSIZE. simpl. lia. Defined.

Lemma rounds {A} (tasks : list A) (b : bool) : (length tasks + 1 < QSIZE)%nat → ∀ rest (s : pool A),
  pinv tasks s [] rest false → main s = Submit ((Some <$> rest) ++ [None]) → workers s = [Waiting; Waiting] →
  ∃ s', rtc (pstep b) s s' ∧ pinv tasks s' [] [] false ∧ main s' = Submit [None] ∧
    workers s' = [Waiting; Waiting] ∧ started s' = started s ++ rest.
Proof.
  intros Hsize. induction rest as [|t rest IH]; intros s Hi Hm Hw.
  { exists s. by rewrite app_nil_r. }
  destruct (one_round b tasks Hsize s t rest 0 Hi Hm) as (s1 & Hr1 & Hi1 & Hm1 & Hw1 & Hst1); [by rewrite Hw|].
  destruct (IH s1 Hi1 Hm1) as (s2 & Hr2 & Hi2 & Hm2 & Hw2 & Hst2); [by rewrite Hw1|].
  exists s2. split_and!; [by etrans|done..|]. by rewrite Hst2, Hst1, <- app_assoc.
Qed.

(** Reducers can hang: a reducer that finds the end marker leaves without a signal, so with two
    reducers there is a run in which all tasks are done, one reducer has returned, the other waits on the condition
    variable, and no step is left: [MR_Run] blocks in [pthread_join]. *)
Theorem reducers_hang {A} (tasks : list A) :
  (length tasks + 1 < QSIZE)%nat →
  ∃ s, rtc (pstep false) (pool_init tasks 2) s ∧ started s = tasks ∧
    workers s = [Exited; Waiting] ∧ ∀ s', ¬ pstep false s s'.
Proof.
  intros Hsize. set (s0 := set_workers [Waiting; Waiting] (pool_init tasks 2)).
  assert (rtc (pstep false) (pool_init tasks 2) s0) as Hr0.
  { eapply rtc_l; [exact (step_wait false (pool_init tasks 2) 0 eq_refl eq_refl)|].
    apply rtc_once. exact (step_wait false (set_workers [Waiting; Locking] (pool_init tasks 2)) 1 eq_refl eq_refl). }
  destruct (rounds tasks false Hsize tasks s0) as (s1 & Hr1 & Hi1 & Hm1 & Hw1 & Hst1);
    [apply pinv_workers, pinv_init|done|done|].
  destruct (submit_marker tasks Hsize s1 [] [] Hi1 Hm1) as (s2 & E2 & Hw2 & Hst2 & _ & Hi2).
  set (s3 := set_main (Submit []) (set_workers [Woken; Waiting] (set_main (Signal []) s2))).
  assert (pinv tasks s3 [] [] true) as Hi3 by (apply pinv_main; [by apply pinv_workers|done]).
  pose proof (serve_spec false tasks Hsize s3 0 _ _ _ Hi3) as E3.
  set (s4 := set_workers [Exited; Waiting] s3). exists s4. split_and!.
  - etrans; [exact Hr0|]. etrans; [exact Hr1|]. eapply rtc_l; [exact (step_submit false s1 None [] s2 Hm1 E2)|].
    eapply rtc_l; [eapply step_signal; [done|]; cbn; rewrite Hw2, Hw1; exact (signal_one [Waiting; Waiting] 0 eq_refl)|].
    apply rtc_once. eapply (step_serve false s3 0); [by right|exact E3].
  - cbn. by rewrite Hst2, Hst1.
  - done.
  - assert (∀ i w, workers s4 !! i = Some w → w = Exited ∨ w = Waiting) as Hall.
    { intros [|[|i]] w Hw; cbn in Hw; [injection Hw as <-; by left|injection Hw as <-; by right|done]. }
    intros s' Hst. assert (main s4 = Submit []) as Hm by done. revert Hall Hm. generalize dependent s4.
    intros s4 Hst. destruct Hst as [x t todo y Hm E|x todo w Hm _|x i Hw _|x i y Hp E|x i y w Hp E _|x i t Hw]; intros Hall Hm4;
      try congruence; try (destruct Hp as [[Hw _]|Hw]); apply Hall in Hw; naive_solver.
Qed.

(** With three tasks. *)
Lemma reducers_hang_witness :
  ∃ s, rtc (pstep false) (pool_init [7; 8; 9] 2) s ∧ started s = [7; 8; 9] ∧
    workers s = [Exited; Waiting] ∧ ∀ s', ¬ pstep false s s'.
Proof. apply (reducers_hang [7; 8; 9]). unfold QSIZE. simpl. lia. Defined.
