(* ===== verification/Ext2.v ===== *)
(** The ext2 reader and the image recovery tool (src/p5/read_ext2.c, runscan.c).

    The disk image is the list of its bytes.  [lseek] followed by [read] is
    [read_at]; a request that the image cannot serve in full is a [Fault] of the model
    (the C code would go on with the bytes a previous read left in its buffer), and
    so is an access outside of an array.  The structures are decoded from their bytes, little
    endian, at the offsets of ext2_fs.h.  The output directory is a map from file names
    to contents; [open] on an output file is taken to succeed.  The debug output is
    not modelled.

    [copy_data] and [copy_data_name] differ in the name of the file they write; their loop
    over the blocks of an inode, and the loop of [main] over the blocks of a directory,
    are one definition, [walk_blocks]. *)

From Stdlib Require Import ZArith Lia.
From stdpp Require Import base numbers list gmap strings pretty.
From S2P Require Import Prelude CStr.
#[local] Open Scope Z_scope.

(** * Bytes *)

Abbreviation image := (list Z).

(** [n] bytes at offset [o] of a buffer. *)
Definition bytes_at (l : list Z) (o n : Z) : outcome (list Z) :=
  if (0 <=? o) && (0 <=? n) && (o + n <=? Z.of_nat (length l)) then
    Ok (take (Z.to_nat n) (drop (Z.to_nat o) l))
  else Fault o.

Definition field (l : list Z) (o n : Z) : outcome Z := b ← bytes_at l o n; Ok (le b).

Definition read_at (img : image) (off n : Z) : outcome (list Z) := bytes_at img off n.

(** A block of pointers as [unsigned int]s. *)
Fixpoint words (n : nat) (l : list Z) : list Z :=
  match n with O => [] | S n' => le (take 4 l) :: words n' (drop 4 l) end.

(** * read_ext2.c *)

Definition BASE_OFFSET : Z := 1024.
Definition EXT2_SUPER_MAGIC : Z := 61267. (* 0xEF53 *)
Definition EXT2_NDIR_BLOCKS : nat := 12.
Definition EXT2_IND_BLOCK : nat := 12.
Definition EXT2_DIND_BLOCK : nat := 13.
Definition EXT2_TIND_BLOCK : nat := 14.
Definition EXT2_N_BLOCKS : nat := 15.
Definition EXT2_NAME_LEN : Z := 255.
Definition sizeof_super : Z := 1024.
Definition sizeof_group_desc : Z := 32.
Definition sizeof_inode : Z := 128.

Record ext2_super_block := Super {
  s_blocks_count : Z; s_log_block_size : Z; s_blocks_per_group : Z; s_inodes_per_group : Z; s_magic : Z }.
Record ext2_group_desc := GroupDesc { bg_block_bitmap : Z; bg_inode_bitmap : Z; bg_inode_table : Z }.
Record ext2_inode := Inode { i_mode : Z; i_size : Z; i_block : list Z }.

Record globals := Globals {
  block_size : Z; inodes_per_block : Z; itable_blocks : Z; blocks_per_group : Z;
  num_groups : Z; inodes_per_group : Z }.

Definition decode_super (b : list Z) : outcome ext2_super_block :=
  blocks ← field b 4 4; log ← field b 24 4; bpg ← field b 32 4; ipg ← field b 40 4; magic ← field b 56 2;
  Ok (Super blocks log bpg ipg magic).

Definition decode_group (b : list Z) : outcome ext2_group_desc :=
  bb ← field b 0 4; ib ← field b 4 4; it ← field b 8 4; Ok (GroupDesc bb ib it).

Definition decode_inode (b : list Z) : outcome ext2_inode :=
  mode ← field b 0 2; size ← field b 4 4; blk ← bytes_at b 40 60; Ok (Inode mode size (words 15 blk)).

(** An unsigned division. *)
Definition udiv (a b : Z) : outcome Z := if b =? 0 then Fault 0 else Ok (a / b).

(** [1024 << s_log_block_size] in [int], undefined from 21 on. *)
Definition shl1024 (log : Z) : outcome Z := if 20 <? log then Fault log else Ok (Z.shiftl 1024 log).

(** [None] is [exit(1)]. *)
Definition ext2_read_init (img : image) : outcome (option globals) :=
  b ← read_at img BASE_OFFSET sizeof_super;
  super ← decode_super b;
  if negb (s_magic super =? EXT2_SUPER_MAGIC) then Ok None
  else
    bs ← shl1024 (s_log_block_size super);
    ipb ← udiv bs sizeof_inode;
    itb ← udiv (s_inodes_per_group super) ipb;
    let bpg := s_blocks_per_group super in
    ng ← udiv (u32 (s_blocks_count super + bpg - 1)) bpg;
    Ok (Some (Globals bs ipb itb bpg ng (s_inodes_per_group super))).

(** [(BASE_OFFSET + (block-1)*block_size)], in [unsigned int]. *)
Definition BLOCK_OFFSET (g : globals) (block : Z) : Z :=
  u32 (BASE_OFFSET + u32 (u32 (block - 1) * block_size g)).

(** [int]s with C's division.  A positive [int] is divided by [n >= 2] at most 31 times. *)
Fixpoint isPowerOf_loop (m n : Z) (fuel : nat) : outcome Z :=
  if m =? 1 then Ok 1
  else
    match fuel with
    | O => NoFuel
    | S f => if negb (Z.rem m n =? 0) then Ok 0 else isPowerOf_loop (Z.quot m n) n f
    end.

Definition isPowerOf (m n : Z) : outcome Z := isPowerOf_loop m n 31.

Fixpoint powersBelow_loop (m n cnt : Z) (fuel : nat) : outcome Z :=
  if m =? 1 then Ok cnt
  else
    match fuel with
    | O => NoFuel
    | S f => if negb (Z.rem m n =? 0) then Ok cnt else powersBelow_loop (Z.quot m n) n (cnt + 1) f
    end.

Definition powersBelow (m n : Z) : outcome Z := powersBelow_loop m n 0 31.

(** [ngroup != 0 && ngroup != 1 && c3 && c5 && c7], where [c] is the truth of a call of [isPowerOf]
    or of its negation; [&&] stops at the first false conjunct. *)
Definition group_test (ngroup : Z) (c : Z → bool) : outcome bool :=
  if (ngroup =? 0) || (ngroup =? 1) then Ok false
  else
    a ← isPowerOf ngroup 3;
    if negb (c a) then Ok false
    else
      b ← isPowerOf ngroup 5;
      if negb (c b) then Ok false else d ← isPowerOf ngroup 7; Ok (c d).

(** What [read_super_block] does: return -1, call [exit(1)], or return 0 with the super block and the new globals. *)
Inductive super_result := NoCopy | BadMagic | GotSuper (super : ext2_super_block) (g : globals).

Definition read_super_block (img : image) (g : globals) (ngroup : Z) : outcome super_result :=
  no_copy ← group_test ngroup (λ r, r =? 0);
  if (no_copy : bool) then Ok NoCopy
  else
    b ← read_at img (u32 (BASE_OFFSET + BLOCK_OFFSET g (u32 (blocks_per_group g * ngroup)))) sizeof_super;
    super ← decode_super b;
    if negb (s_magic super =? EXT2_SUPER_MAGIC) then Ok BadMagic
    else
      bs ← shl1024 (s_log_block_size super);
      ipb ← udiv bs sizeof_inode;
      itb ← udiv (s_inodes_per_group super) ipb;
      Ok (GotSuper super (Globals bs ipb itb (blocks_per_group g) (num_groups g) (inodes_per_group g))).

Definition group_desc_offset (g : globals) (ngroup : Z) (bare : bool) : Z :=
  let off := u32 (BASE_OFFSET + BLOCK_OFFSET g (u32 (blocks_per_group g * ngroup))) in
  if bare then off else u32 (off + block_size g).

Definition read_group_desc (img : image) (g : globals) (ngroup : Z) : outcome ext2_group_desc :=
  bare ← group_test ngroup (λ r, negb (r =? 0));
  b ← read_at img (group_desc_offset g ngroup bare) sizeof_group_desc;
  decode_group b.

Definition locate_inode_table (g : globals) (ngroup : Z) (group : ext2_group_desc) : Z :=
  BLOCK_OFFSET g (u32 (bg_inode_table group + u32 (blocks_per_group g * ngroup))).

Definition locate_data_blocks (g : globals) (ngroup : Z) (group : ext2_group_desc) : Z :=
  BLOCK_OFFSET g (u32 (u32 (bg_inode_table group + itable_blocks g) + u32 (blocks_per_group g * ngroup))).

(** The sum is a [size_t], converted to [off_t]. *)
Definition read_inode (img : image) (g : globals) (ngroup offset inode_no : Z) : outcome ext2_inode :=
  b ← read_at img (u64 (BLOCK_OFFSET g (u32 (blocks_per_group g * ngroup)) + offset + u64 (inode_no - 1) * sizeof_inode))
    sizeof_inode;
  decode_inode b.

(** * runscan.c: the blocks of an inode *)

(** The arrays [i_num] and [filenames] of [main], up to [count]. *)
Abbreviation entries := (list (Z * cstring)).

(** The output directory. *)
Abbreviation outputs := (gmap cstring (list Z)).

Section runscan.
Context (img : image) (g : globals).

(** [for (j ...) { if (ptr[j] == 0) continue; ... }] *)
Fixpoint for_ptrs {S} (f : Z → S → outcome S) (ptrs : list Z) (st : S) : outcome S :=
  match ptrs with
  | [] => Ok st
  | b :: ptrs' => if b =? 0 then for_ptrs f ptrs' st else st1 ← f b st; for_ptrs f ptrs' st1
  end.

(** A block of [n] pointers; the array it is read into has room for [room] bytes. *)
Definition read_ptrs (room b : Z) : outcome (list Z) :=
  if room <? block_size g then Fault room
  else l ← read_at img (BLOCK_OFFSET g b) (block_size g); Ok (words (Z.to_nat (room / 4)) l).

Definition block_ptr (inode : ext2_inode) (i : nat) : outcome Z :=
  match i_block inode !! i with Some b => Ok b | None => Fault (Z.of_nat i) end.

(** The loop over [i_block]: direct blocks, the single and the double indirect block; the
    triple indirect block is passed over. *)
Definition walk_blocks {S} (room : Z) (f : Z → S → outcome S) (inode : ext2_inode) (st : S) : outcome S :=
  st ← for_ptrs f (take EXT2_NDIR_BLOCKS (i_block inode)) st;
  b1 ← block_ptr inode EXT2_IND_BLOCK;
  st ← (if b1 =? 0 then Ok st else sindirect ← read_ptrs room b1; for_ptrs f sindirect st);
  b2 ← block_ptr inode EXT2_DIND_BLOCK;
  if b2 =? 0 then Ok st
  else
    sindirect ← read_ptrs room b2;
    for_ptrs (λ b st, dindirect ← read_ptrs room b; for_ptrs f dindirect st) sindirect st.

(** One block of the copy: [filesize] is what is left of the file. *)
Definition copy_block (b : Z) (st : Z * list Z) : outcome (Z * list Z) :=
  let '(filesize, out) := st in
  let want := if block_size g <? filesize then block_size g else filesize in
  buffer ← read_at img (BLOCK_OFFSET g b) want;
  Ok (u32 (filesize - want), out ++ buffer).

(** The bytes written to the output file. *)
Definition copy_data (inode : ext2_inode) : outcome (list Z) :=
  '(_, out) ← walk_blocks (block_size g) copy_block inode (i_size inode, []);
  Ok out.

(** The same loop; only the name of the output file differs. *)
Definition copy_data_name (inode : ext2_inode) : outcome (list Z) :=
  '(_, out) ← walk_blocks (block_size g) copy_block inode (i_size inode, []);
  Ok out.

Definition is_jpg (buffer : list Z) : bool :=
  match buffer with
  | b0 :: b1 :: b2 :: b3 :: _ =>
      (b0 =? 255) && (b1 =? 216) && (b2 =? 255) && ((b3 =? 224) || (b3 =? 225) || (b3 =? 232))
  | _ => false
  end.

Fixpoint get_index (inode_no : Z) (l : entries) (i : Z) : Z :=
  match l with
  | [] => -1
  | (n, _) :: l' => if n =? inode_no then i else get_index inode_no l' (i + 1)
  end.

Fixpoint get_filename (inode_no : Z) (l : entries) : option cstring :=
  match l with
  | [] => None
  | (n, name) :: l' => if n =? inode_no then Some name else get_filename inode_no l'
  end.

(** The bytes before the first NUL. *)
Fixpoint until_nul (l : list Z) : cstring :=
  match l with [] => [] | c :: l' => if c =? 0 then [] else c :: until_nul l' end.

(** [strncpy(name, dentry->name, name_len); name[name_len] = 0; ... strdup(name)]: the copy stops
    at a NUL, or else needs [name_len] bytes of the block. *)
Definition entry_name (buffer : list Z) (o name_len : Z) : outcome cstring :=
  if EXT2_NAME_LEN <=? name_len then Fault name_len
  else
    let name := take (Z.to_nat name_len) (drop (Z.to_nat (o + 8)) buffer) in
    if (length name <? Z.to_nat name_len)%nat && bool_decide (0 ∉ name) then Fault o
    else Ok (until_nul name).

Definition entry_size (name_len : Z) : Z :=
  if name_len mod 4 =? 0 then 8 + name_len else 8 + name_len + (4 - name_len mod 4).

(** [while(curr_offset < block_size)]; each round advances by 8 or more. *)
Fixpoint dir_loop (buffer : list Z) (curr_offset : Z) (st : entries) (fuel : nat) : outcome entries :=
  if negb (curr_offset <? block_size g) then Ok st
  else
    match fuel with
    | O => NoFuel
    | S f =>
        inode ← field buffer curr_offset 4;
        if inode =? 0 then Ok st
        else
          name_len ← field buffer (curr_offset + 6) 1;
          name ← entry_name buffer curr_offset name_len;
          if block_size g * 10 <=? Z.of_nat (length st) then Fault (Z.of_nat (length st))
          else dir_loop buffer (curr_offset + entry_size name_len) (st ++ [(s32 inode, name)]) f
    end.

(** [main] reads blocks into [buffer] and [sindirect], whose size is the default block size, set
    before [ext2_read_init] runs. *)
Definition DEFAULT_BLOCK_SIZE : Z := 1024.

Definition main_read (b : Z) : outcome (list Z) :=
  if DEFAULT_BLOCK_SIZE <? block_size g then Fault DEFAULT_BLOCK_SIZE
  else read_at img (BLOCK_OFFSET g b) (block_size g).

Definition dir_block (b : Z) (st : entries) : outcome entries :=
  buffer ← main_read b; dir_loop buffer 24 st (Z.to_nat (block_size g)).

Definition S_ISDIR (mode : Z) : bool := Z.land mode 61440 =? 16384.
Definition S_ISREG (mode : Z) : bool := Z.land mode 61440 =? 32768.

(** The first pass, from inode [n] on. *)
Fixpoint dir_pass (table n : Z) (st : entries) (todo : nat) : outcome entries :=
  match todo with
  | O => Ok st
  | S t =>
      inode ← read_inode img g 0 table n;
      st1 ← (if S_ISDIR (i_mode inode) then walk_blocks DEFAULT_BLOCK_SIZE dir_block inode st else Ok st);
      dir_pass table (n + 1) st1 t
  end.

Definition inode_file (n : Z) : cstring := of_string "file-" ++ of_string (pretty n) ++ of_string ".jpg".

(** A JPG was found in inode [n]. *)
Definition save (inode : ext2_inode) (n : Z) (names : entries) (out : outputs) : outcome outputs :=
  c ← copy_data inode;
  let out1 := <[inode_file n := c]> out in
  let temp := get_index n names 0 in
  if temp =? -1 then Ok out1
  else
    match names !! Z.to_nat temp with
    | None => Fault temp
    | Some (_, name) => c2 ← copy_data_name inode; Ok (<[name := c2]> out1)
    end.

(** A loop over pointers that ends at the first block with a JPG signature; the boolean tells whether
    there was one. *)
Fixpoint scan_ptrs (hit : outputs → outcome outputs) (ptrs : list Z) (out : outputs) : outcome (bool * outputs) :=
  match ptrs with
  | [] => Ok (false, out)
  | b :: ptrs' =>
      if b =? 0 then scan_ptrs hit ptrs' out
      else
        buffer ← main_read b;
        if is_jpg buffer then out1 ← hit out; Ok (true, out1) else scan_ptrs hit ptrs' out
  end.

(** The second pass over one regular file: a hit in a direct block ends the search; a hit below an
    indirect block ends only the loop over that block. *)
Definition scan_file (hit : outputs → outcome outputs) (inode : ext2_inode) (out : outputs) : outcome outputs :=
  '(found, out) ← scan_ptrs hit (take EXT2_NDIR_BLOCKS (i_block inode)) out;
  if (found : bool) then Ok out
  else
    b1 ← block_ptr inode EXT2_IND_BLOCK;
    out ← (if b1 =? 0 then Ok out
           else sindirect ← read_ptrs DEFAULT_BLOCK_SIZE b1; '(_, out) ← scan_ptrs hit sindirect out; Ok out);
    b2 ← block_ptr inode EXT2_DIND_BLOCK;
    if b2 =? 0 then Ok out
    else
      sindirect ← read_ptrs DEFAULT_BLOCK_SIZE b2;
      for_ptrs (λ b out, dindirect ← read_ptrs DEFAULT_BLOCK_SIZE b; '(_, out) ← scan_ptrs hit dindirect out; Ok out)
        sindirect out.

Fixpoint file_pass (table n : Z) (names : entries) (out : outputs) (todo : nat) : outcome outputs :=
  match todo with
  | O => Ok out
  | S t =>
      inode ← read_inode img g 0 table n;
      out1 ← (if S_ISREG (i_mode inode) then scan_file (save inode n names) inode out else Ok out);
      file_pass table (n + 1) names out1 t
  end.
End runscan.

(** [main] on an image, with a new output directory.  [None] is an exit with an error. *)
Definition runscan (img : image) : outcome (option outputs) :=
  r ← ext2_read_init img;
  match r with
  | None => Ok None
  | Some g0 =>
      r ← read_super_block img g0 0;
      match r with
      | BadMagic => Ok None
      | NoCopy => Fault 0
      | GotSuper _ g =>
          group ← read_group_desc img g 0;
          let table := locate_inode_table g 0 group in
          let inodes := Z.to_nat (u32 (inodes_per_block g * itable_blocks g)) in
          names ← dir_pass img g table 0 [] inodes;
          out ← file_pass img g table 0 names ∅ inodes;
          Ok (Some out)
      end
  end.

(** * A small image

    One group of 1 KiB blocks: the inode table is block 5; inode 2 is the root directory, with its
    entries in block 6; inode 3 is a file of 1500 bytes in blocks 7 and 8 that starts like a JPG. *)

Definition put (off : Z) (l : list Z) (img : image) : image :=
  take (Z.to_nat off) img ++ l ++ drop (Z.to_nat off + length l) img.

Definition demo_inode (mode size : Z) (blocks : list Z) : list Z :=
  le_bytes 2 mode ++ le_bytes 2 0 ++ le_bytes 4 size ++ replicate 32 0 ++
  (b ← blocks; le_bytes 4 b) ++ replicate (60 - 4 * length blocks) 0.

Definition demo_entry (inode : Z) (name : cstring) : list Z :=
  le_bytes 4 inode ++ le_bytes 2 0 ++ [Z.of_nat (length name); 1] ++ name.

Definition demo_content : list Z :=
  [255; 216; 255; 224] ++ replicate (Z.to_nat 1496) 42.

Definition demo_image : image :=
  put 1028 (le_bytes 4 9) (put 1056 (le_bytes 4 8192) (put 1064 (le_bytes 4 8) (put 1080 (le_bytes 2 EXT2_SUPER_MAGIC)
  (put 2056 (le_bytes 4 5)
  (put (5120 + 128) (demo_inode 16877 1024 [6]) (put (5120 + 256) (demo_inode 33188 1500 [7; 8])
  (put (6144 + 24) (demo_entry 3 (of_string "a.jpg"))
  (put 7168 demo_content (replicate (Z.to_nat 9216) 0))))))))).

Example runscan_demo :
  runscan demo_image = Ok (Some {[ inode_file 3 := demo_content; of_string "a.jpg" := demo_content ]}).
Proof. vm_compute. reflexivity. Qed.

(** * Lists of equal-length pieces *)

Lemma bind_length {A B} (f : A → list B) (P : nat) l :
  (∀ x, x ∈ l → length (f x) = P) → length (l ≫= f) = (length l * P)%nat.
Proof.
  induction l as [|x l IH]; intros Hf; [done|]. rewrite bind_cons, length_app, IH, Hf; [simpl; lia|set_solver..].
Qed.

Lemma bind_lookup {A B} (f : A → list B) (P : nat) l : (0 < P)%nat →
  (∀ x, x ∈ l → length (f x) = P) → ∀ i, (l ≫= f) !! i = l !! (i / P)%nat ≫= λ x, f x !! (i mod P)%nat.
Proof.
  intros HP. induction l as [|x l IH]; intros Hf i; [done|]. rewrite bind_cons.
  assert (length (f x) = P) as Hx by (apply Hf, list_elem_of_here).
  destruct (decide (i < P)%nat) as [Hlt|Hge].
  - rewrite lookup_app_l, Nat.div_small, Nat.mod_small by lia. done.
  - rewrite lookup_app_r, Hx, IH by (lia || set_solver).
    replace (i / P)%nat with (S ((i - P) / P))%nat.
    + replace (i mod P)%nat with ((i - P) mod P)%nat; [done|].
      replace i with (i - P + 1 * P)%nat at 2 by lia. by rewrite Nat.Div0.mod_add.
    + replace i with (i - P + 1 * P)%nat at 2 by lia. rewrite Nat.div_add by lia. lia.
Qed.

Lemma length_words n l : length (words n l) = n.
Proof. revert l. induction n as [|n IH]; intros l; simpl; [done|]. by rewrite IH. Qed.

(** * What the block lists mean *)

(** Running [f] over a list. *)
Fixpoint foldM {A S} (f : A → S → outcome S) (l : list A) (st : S) : outcome S :=
  match l with [] => Ok st | x :: l' => st1 ← f x st; foldM f l' st1 end.

Lemma foldM_app {A S} (f : A → S → outcome S) l1 l2 st :
  foldM f (l1 ++ l2) st = st1 ← foldM f l1 st; foldM f l2 st1.
Proof. revert st. induction l1 as [|x l1 IH]; intros st; simpl; [done|]. destruct (f x st); simpl; auto. Qed.

Definition nonzero (l : list Z) : list Z := filter (λ b, b ≠ 0) l.

Lemma for_ptrs_foldM {S} (f : Z → S → outcome S) ptrs st : for_ptrs f ptrs st = foldM f (nonzero ptrs) st.
Proof.
  unfold nonzero. revert st. induction ptrs as [|b ptrs IH]; intros st; cbn [for_ptrs]; [done|]. destruct (Z.eqb_spec b 0).
  - by rewrite filter_cons_False, IH by tauto.
  - rewrite filter_cons_True by done. cbn [foldM]. destruct (f b st); simpl; auto.
Qed.

Lemma nonzero_prefix k l : (∀ i, (i < k)%nat → ∃ b, l !! i = Some b ∧ b ≠ 0) →
  ∀ i, (i < k)%nat → nonzero l !! i = l !! i.
Proof.
  unfold nonzero. revert k. induction l as [|b l IH]; intros k Hk i Hi.
  { destruct (Hk i Hi) as (? & ? & _). done. }
  destruct k as [|k]; [lia|]. destruct (Hk 0%nat) as (b' & [= <-] & Hb); [lia|].
  rewrite filter_cons_True by done. destruct i as [|i]; [done|]. simpl. apply (IH k); [|lia].
  intros j Hj. apply (Hk (S j)). lia.
Qed.

(** The format of the file system with 1 KiB blocks, written down without the program: block [b] is at byte
    [1024 * b], and holds 1024 bytes or 256 pointers. *)
Section blocks.
Context (img : image) (g : globals).
Let bs : nat := Z.to_nat 1024.
Let P : nat := Z.to_nat 256.

(** The content of a block, and the pointers it holds. *)
Definition blk (b : Z) : list Z := take bs (drop (Z.to_nat (b * 1024)) img).
Definition ptrs (b : Z) : list Z := (λ k, le (take 4 (drop (4 * k) (blk b)))) <$> seq 0 P.
Definition blk_ok (b : Z) : Prop := 1 <= b ∧ b * 1024 + 1024 <= Z.of_nat (length img) ∧ b * 1024 + 1024 <= 2 ^ 32.

(** Block [l] of the file, 0 for a hole. *)
Definition bmap (inode : ext2_inode) (l : nat) : Z :=
  if (l <? 12)%nat then i_block inode !!! l
  else if (l - 12 <? P)%nat then
    (if i_block inode !!! 12%nat =? 0 then 0 else ptrs (i_block inode !!! 12%nat) !!! (l - 12)%nat)
  else
    if i_block inode !!! 13%nat =? 0 then 0
    else
      let b := ptrs (i_block inode !!! 13%nat) !!! ((l - 12 - P) / P)%nat in
      if b =? 0 then 0 else ptrs b !!! ((l - 12 - P) mod P)%nat.

(** All blocks of the file in order, with the holes. *)
Definition sub_ptrs (b : Z) : list Z := if b =? 0 then replicate P 0 else ptrs b.
Definition all_blocks (inode : ext2_inode) : list Z :=
  take 12 (i_block inode) ++ sub_ptrs (i_block inode !!! 12%nat) ++
  (if i_block inode !!! 13%nat =? 0 then replicate (P * P) 0
   else ptrs (i_block inode !!! 13%nat) ≫= sub_ptrs).

Definition data_blocks (inode : ext2_inode) : list Z := nonzero (all_blocks inode).

(** The indirect blocks. *)
Definition meta_blocks (inode : ext2_inode) : list Z :=
  nonzero [i_block inode !!! 12%nat; i_block inode !!! 13%nat] ++
  (if i_block inode !!! 13%nat =? 0 then [] else nonzero (ptrs (i_block inode !!! 13%nat))).

Definition inode_ok (inode : ext2_inode) : Prop :=
  length (i_block inode) = 15%nat ∧ Forall blk_ok (data_blocks inode ++ meta_blocks inode).

Hypothesis Hbs : block_size g = 1024.

(** What the code computes is the place of the block. *)
Lemma BLOCK_OFFSET_spec b : blk_ok b → BLOCK_OFFSET g b = b * 1024.
Proof using Hbs.
  intros (H1 & _ & H2). unfold BLOCK_OFFSET, BASE_OFFSET. rewrite Hbs.
  rewrite (u32_small (b - 1)), (u32_small ((b - 1) * _)), u32_small by (unfold is_u32; lia). lia.
Qed.

Lemma read_blk b n : blk_ok b → 0 <= n <= 1024 →
  read_at img (BLOCK_OFFSET g b) n = Ok (take (Z.to_nat n) (blk b)).
Proof using Hbs.
  intros Hok Hn. rewrite BLOCK_OFFSET_spec by done. destruct Hok as (? & ? & ?). unfold read_at, bytes_at, blk.
  rewrite !(proj2 (Z.leb_le _ _)) by lia. cbn [andb]. rewrite take_take. do 2 f_equal. unfold bs. lia.
Qed.

Lemma length_blk b : blk_ok b → length (blk b) = bs.
Proof using. intros (? & ? & ?). unfold blk. rewrite length_take, length_drop. unfold bs. lia. Qed.

Lemma words_spec n l : words n l = (λ k, le (take 4 (drop (4 * k) l))) <$> seq 0 n.
Proof using.
  revert l. induction n as [|n IH]; intros l; [done|]. cbn [words seq fmap list_fmap]. f_equal.
  rewrite IH, <- fmap_S_seq, <- list_fmap_compose. apply list_fmap_ext. intros i k _. cbn. rewrite drop_drop. do 3 f_equal. lia.
Qed.

Lemma read_ptrs_spec b : blk_ok b → read_ptrs img g (block_size g) b = Ok (ptrs b).
Proof using Hbs.
  intros Hok. unfold read_ptrs. rewrite Z.ltb_irrefl, Hbs, read_blk by (done || lia). rewrite bind_Ok.
  unfold ptrs. rewrite take_ge by (by rewrite length_blk). by rewrite words_spec.
Qed.

Lemma nonzero_app l1 l2 : nonzero (l1 ++ l2) = nonzero l1 ++ nonzero l2.
Proof. apply filter_app. Qed.

Lemma nonzero_zeros n : nonzero (replicate n 0) = [].
Proof. unfold nonzero. induction n as [|n IH]; [done|]. simpl. by rewrite filter_cons_False, IH by tauto. Qed.

Lemma nonzero_sub l : nonzero (l ≫= sub_ptrs) = nonzero l ≫= λ b, nonzero (ptrs b).
Proof.
  unfold nonzero. induction l as [|b l IH]; [done|]. rewrite bind_cons, filter_app, IH. unfold sub_ptrs at 1.
  destruct (Z.eqb_spec b 0) as [->|Hne].
  - rewrite filter_cons_False by tauto. pose proof (nonzero_zeros P) as E. unfold nonzero in E. by rewrite E.
  - rewrite filter_cons_True by done. by rewrite bind_cons.
Qed.

Lemma data_blocks_split inode : data_blocks inode =
  nonzero (take 12 (i_block inode)) ++
  (if i_block inode !!! 12%nat =? 0 then [] else nonzero (ptrs (i_block inode !!! 12%nat))) ++
  (if i_block inode !!! 13%nat =? 0 then []
   else nonzero (ptrs (i_block inode !!! 13%nat)) ≫= λ b, nonzero (ptrs b)).
Proof.
  unfold data_blocks, all_blocks. rewrite !nonzero_app. do 2 f_equal.
  - unfold sub_ptrs. destruct (_ =? 0); [apply nonzero_zeros|done].
  - destruct (_ =? 0); [apply nonzero_zeros|apply nonzero_sub].
Qed.

Lemma meta_ok inode : inode_ok inode →
  (i_block inode !!! 12%nat ≠ 0 → blk_ok (i_block inode !!! 12%nat)) ∧
  (i_block inode !!! 13%nat ≠ 0 → blk_ok (i_block inode !!! 13%nat) ∧
    Forall blk_ok (nonzero (ptrs (i_block inode !!! 13%nat)))).
Proof using.
  clear Hbs g.
  intros [_ [_ Hm]%Forall_app]. unfold meta_blocks in Hm. apply Forall_app in Hm as [Hm Hd].
  rewrite Forall_forall in Hm. unfold nonzero in Hm. split; [|intros Hne; split].
  - intros Hne. apply Hm, list_elem_of_filter. split; [done|set_solver].
  - apply Hm, list_elem_of_filter. split; [done|set_solver].
  - by rewrite (proj2 (Z.eqb_neq _ _)) in Hd by done.
Qed.

Lemma foldM_ext {A S} (f f' : A → S → outcome S) l st : Forall (λ x, ∀ st, f x st = f' x st) l → foldM f l st = foldM f' l st.
Proof.
  intros Hf. revert st. induction Hf as [|x l Hx Hf IH]; intros st; simpl; [done|]. rewrite Hx.
  destruct (f' x st); simpl; auto.
Qed.

Lemma foldM_bind {A B S} (f : A → S → outcome S) (h : B → list A) l st :
  foldM f (l ≫= h) st = foldM (λ x st, foldM f (h x) st) l st.
Proof.
  revert st. induction l as [|x l IH]; intros st; [done|]. rewrite bind_cons, foldM_app. cbn [foldM].
  destruct (foldM f (h x) st); simpl; auto.
Qed.

(** The loop over an inode runs over its blocks in order, leaving out the holes. *)
Lemma walk_blocks_spec {S} (f : Z → S → outcome S) inode st : inode_ok inode →
  walk_blocks img g (block_size g) f inode st = foldM f (data_blocks inode) st.
Proof.
  intros Hok. destruct (meta_ok _ Hok) as [H1 H2]. destruct Hok as [Hlen _].
  assert (∀ i, (i < 15)%nat → block_ptr inode i = Ok (i_block inode !!! i)) as Hptr.
  { intros i Hi. unfold block_ptr. destruct (lookup_lt_is_Some_2 (i_block inode) i) as [b Hb]; [lia|].
    rewrite Hb. by rewrite (list_lookup_total_correct _ _ _ Hb). }
  unfold walk_blocks. rewrite data_blocks_split, foldM_app, for_ptrs_foldM. unfold EXT2_NDIR_BLOCKS, EXT2_IND_BLOCK, EXT2_DIND_BLOCK.
  destruct (foldM f (nonzero (take 12 (i_block inode))) st) as [st1| | |]; try done.
  rewrite !bind_Ok, (Hptr 12%nat), bind_Ok, foldM_app by lia.
  assert ((if i_block inode !!! 12%nat =? 0 then Ok st1
      else sindirect ← read_ptrs img g (block_size g) (i_block inode !!! 12%nat); for_ptrs f sindirect st1) =
    foldM f (if i_block inode !!! 12%nat =? 0 then [] else nonzero (ptrs (i_block inode !!! 12%nat))) st1) as ->.
  { destruct (Z.eqb_spec (i_block inode !!! 12%nat) 0) as [|Hne]; [done|].
    by rewrite read_ptrs_spec, bind_Ok, for_ptrs_foldM by auto. }
  destruct (foldM f _ st1) as [st2| | |]; try done. rewrite !bind_Ok, (Hptr 13%nat), bind_Ok by lia.
  destruct (Z.eqb_spec (i_block inode !!! 13%nat) 0) as [|Hne]; [done|]. destruct (H2 Hne) as [Hb Hbs2].
  rewrite read_ptrs_spec, bind_Ok, for_ptrs_foldM, foldM_bind by done. apply foldM_ext.
  eapply Forall_impl; [exact Hbs2|]. intros b Hb' st'. cbn beta. by rewrite read_ptrs_spec, bind_Ok, for_ptrs_foldM.
Qed.

(** * copy_data *)

Lemma copy_blocks_spec l : ∀ size out, Forall blk_ok l → 0 <= size < 2 ^ 32 →
  ∃ rest, foldM (copy_block img g) l (size, out) = Ok (rest, out ++ take (Z.to_nat size) (l ≫= blk)).
Proof.
  induction l as [|b l IH]; intros size out Hok Hsize; cbn [foldM].
  { exists size. simpl. by rewrite firstn_nil, app_nil_r. }
  apply Forall_cons in Hok as [Hb Hok]. rewrite bind_cons.
  change (copy_block img g b (size, out)) with (let want := if block_size g <? size then block_size g else size in
    buffer ← read_at img (BLOCK_OFFSET g b) want; Ok (u32 (size - want), out ++ buffer)). cbv zeta.
  pose proof (length_blk b Hb) as Hl. rewrite take_app.
  destruct (Z.ltb_spec (block_size g) size) as [Hlt|Hge].
  - rewrite read_blk, !bind_Ok by (done || lia). rewrite u32_small by (unfold is_u32; lia).
    destruct (IH (size - block_size g) (out ++ take (Z.to_nat (block_size g)) (blk b)) Hok) as [rest E]; [lia|].
    exists rest. rewrite E, <- app_assoc. do 4 f_equal.
    + rewrite !take_ge; [done|..]; rewrite Hl by lia; unfold bs; lia.
    + f_equal. rewrite Hl by lia. unfold bs. lia.
  - rewrite read_blk, !bind_Ok by (done || lia). rewrite Z.sub_diag.
    destruct (IH (u32 0) (out ++ take (Z.to_nat size) (blk b)) Hok) as [rest E]; [done|].
    exists rest. rewrite E, <- app_assoc. do 4 f_equal. simpl.
    rewrite Hl by lia. replace (Z.to_nat size - bs)%nat with 0%nat by (unfold bs; lia). done.
Qed.

(** The copy holds the first [i_size] bytes of the blocks the inode names. *)
Lemma copy_data_spec inode : inode_ok inode → 0 <= i_size inode < 2 ^ 32 →
  copy_data img g inode = Ok (take (Z.to_nat (i_size inode)) (data_blocks inode ≫= blk)).
Proof.
  intros Hok Hsize. unfold copy_data. rewrite walk_blocks_spec by (done || lia).
  destruct (copy_blocks_spec (data_blocks inode) (i_size inode) []) as [rest ->]; [|done..].
  destruct Hok as [_ Hok]. by apply Forall_app in Hok as [Hok _].
Qed.

(** * Files without holes *)

Lemma length_ptrs b : length (ptrs b) = P.
Proof. unfold ptrs. by rewrite length_fmap, length_seq. Qed.

Lemma length_sub b : length (sub_ptrs b) = P.
Proof. unfold sub_ptrs. destruct (b =? 0); [apply length_replicate|apply length_ptrs]. Qed.

Lemma sub_lookup b i : (i < P)%nat → sub_ptrs b !! i = Some (if b =? 0 then 0 else ptrs b !!! i).
Proof.
  intros Hi. unfold sub_ptrs. destruct (b =? 0); [by apply lookup_replicate_2|].
  apply list_lookup_lookup_total_lt. by rewrite length_ptrs.
Qed.

Lemma all_blocks_lookup inode l : length (i_block inode) = 15%nat → (l < 12 + P + P * P)%nat →
  all_blocks inode !! l = Some (bmap inode l).
Proof.
  intros Hlen Hl. unfold all_blocks, bmap. destruct (Nat.ltb_spec l 12) as [H12|H12].
  { rewrite lookup_app_l by (rewrite length_take; lia). rewrite lookup_take_lt by lia.
    apply list_lookup_lookup_total_lt. lia. }
  rewrite lookup_app_r by (rewrite length_take; lia). rewrite length_take, Hlen. replace (l - 12 `min` 15)%nat with (l - 12)%nat by lia.
  destruct (Nat.ltb_spec (l - 12) P) as [HP|HP].
  { rewrite lookup_app_l by (by rewrite length_sub). by rewrite sub_lookup. }
  rewrite lookup_app_r, length_sub by (by rewrite length_sub). destruct (_ =? 0); [apply lookup_replicate_2; lia|].
  assert (0 < P)%nat by nia.
  rewrite (bind_lookup sub_ptrs P) by (done || intros; apply length_sub).
  assert ((l - 12 - P) / P < P)%nat by (apply Nat.Div0.div_lt_upper_bound; lia).
  rewrite (list_lookup_lookup_total_lt (ptrs _)) by (by rewrite length_ptrs). cbn [mbind option_bind].
  apply sub_lookup. apply Nat.mod_upper_bound. lia.
Qed.
End blocks.

(** Without holes in the first [i / block_size] blocks, the block at that place of the list is the
    one of the block map. *)
Lemma data_block_at img inode size i :
  let bs := Z.to_nat 1024 in
  let P := Z.to_nat 256 in
  length (i_block inode) = 15%nat → (0 < bs)%nat → (size ≤ (12 + P + P * P) * bs)%nat →
  (∀ i, (i < size)%nat → bmap img inode (i / bs) ≠ 0) → (i < size)%nat →
  data_blocks img inode !! (i / bs)%nat = Some (bmap img inode (i / bs)).
Proof.
  intros bs P Hlen Hbs Hcap Hholes Hi.
  assert (i / bs < 12 + P + P * P)%nat by (apply Nat.Div0.div_lt_upper_bound; nia).
  unfold data_blocks. rewrite (nonzero_prefix (S (i / bs))), all_blocks_lookup; [done|done|done| |lia].
  intros l Hl. exists (bmap img inode l). split; [apply all_blocks_lookup; [done|unfold P in *; lia]|].
  assert (l = l * bs / bs)%nat as -> by (by rewrite Nat.div_mul by lia). apply Hholes.
  assert (i / bs * bs ≤ i)%nat by (rewrite Nat.mul_comm; apply Nat.Div0.mul_div_le). nia.
Qed.

(** C20.  [copy_data] recovers a file of a file system with 1 KiB blocks: for an inode whose blocks lie in the image, whose
    size is within the reach of the double indirect block and which has no hole, the output has [i_size] bytes, and byte [i] is
    byte [i mod 1024] of the block that the block map of ext2 (12 direct blocks, then one and two levels of indirection
    with 256 pointers each) gives for [i / 1024], where block [b] is what the image holds from byte [1024 * b] on. *)
Theorem copy_data_recovers (img : image) (g : globals) (inode : ext2_inode) :
  let bs := Z.to_nat 1024 in
  let P := Z.to_nat 256 in
  block_size g = 1024 → inode_ok img inode → 0 <= i_size inode < 2 ^ 32 →
  (Z.to_nat (i_size inode) ≤ (12 + P + P * P) * bs)%nat →
  (∀ i, (i < Z.to_nat (i_size inode))%nat → bmap img inode (i / bs) ≠ 0) →
  ∃ out, copy_data img g inode = Ok out ∧ length out = Z.to_nat (i_size inode) ∧
    ∀ i, (i < Z.to_nat (i_size inode))%nat → out !! i = img !! (Z.to_nat (bmap img inode (i / bs) * 1024) + i mod bs)%nat.
Proof.
  intros bs P Hbs Hok Hsize Hcap Hholes. rewrite copy_data_spec by done. eexists. split; [done|].
  pose proof Hok as [Hlen [Hdata _]%Forall_app]. assert (0 < bs)%nat as Hbs' by lia.
  assert (∀ x, x ∈ data_blocks img inode → length (blk img x) = bs) as Hblk.
  { intros x Hx. apply length_blk. by eapply Forall_forall in Hdata. }
  assert (∀ i, (i < Z.to_nat (i_size inode))%nat → data_blocks img inode !! (i / bs)%nat = Some (bmap img inode (i / bs))) as Hat
    by (intros i Hi; by eapply data_block_at).
  assert (∀ i, (i < Z.to_nat (i_size inode))%nat → (data_blocks img inode ≫= blk img) !! i =
    blk img (bmap img inode (i / bs)) !! (i mod bs)%nat) as Hbyte.
  { intros i Hi. by rewrite (bind_lookup (blk img) bs), Hat by done. }
  split; [|intros i Hi; rewrite lookup_take_lt, Hbyte by done; unfold blk; by rewrite lookup_take_lt, lookup_drop by (apply Nat.mod_upper_bound; lia)].
  rewrite length_take. assert (Z.to_nat (i_size inode) ≤ length (data_blocks img inode ≫= blk img))%nat; [|lia].
  destruct (Z.to_nat (i_size inode)) as [|n] eqn:En; [lia|]. apply lookup_lt_is_Some_1. rewrite Hbyte by lia.
  apply lookup_lt_is_Some_2. rewrite Hblk; [apply Nat.mod_upper_bound; lia|].
  eapply list_elem_of_lookup_2. apply Hat. lia.
Qed.

#[export] Instance blk_ok_dec img b : Decision (blk_ok img b).
Proof. unfold blk_ok. apply _. Defined.

Definition demo_globals : globals := Globals 1024 8 1 8192 1 8.
Definition demo_file : ext2_inode := Inode 33188 1500 ([7; 8] ++ replicate 13 0).

Lemma demo_file_ok : inode_ok demo_image demo_file.
Proof. split; [done|]. apply (bool_decide_unpack _). vm_compute. exact I. Qed.

(** C20 at the file of the small image. *)
Lemma copy_data_recovers_witness :
  ∃ out, copy_data demo_image demo_globals demo_file = Ok out ∧ length out = Z.to_nat 1500 ∧
    ∀ i, (i < Z.to_nat 1500)%nat → out !! i =
      demo_image !! (Z.to_nat (bmap demo_image demo_file (i / Z.to_nat 1024) * 1024) + i mod Z.to_nat 1024)%nat.
Proof.
  apply (copy_data_recovers demo_image demo_globals demo_file eq_refl demo_file_ok).
  - cbn [demo_file i_size]. lia.
  - cbn [demo_file i_size]. nia.
  - intros i Hi. cbn [demo_file i_size] in *.
    assert (i / Z.to_nat 1024 < 2)%nat as Hl by (apply Nat.Div0.div_lt_upper_bound; lia).
    destruct (i / Z.to_nat 1024)%nat as [|[|l]]; [done|done|lia].
Defined.

(** * Directory blocks *)

(** A directory entry as the file system writes it, in the space its name needs. *)
Record dirent := Dirent { d_inode : Z; d_rec_len : Z; d_type : Z; d_name : cstring }.

(** 8 bytes and the name, rounded up to a multiple of 4. *)
Definition entry_len (name_len : Z) : Z := (8 + name_len + 3) / 4 * 4.

Definition entry_bytes (e : dirent) : list Z :=
  le_bytes 4 (d_inode e) ++ le_bytes 2 (d_rec_len e) ++ [Z.of_nat (length (d_name e)); d_type e] ++ d_name e ++
  replicate (Z.to_nat (entry_len (Z.of_nat (length (d_name e))) - 8) - length (d_name e)) 0.

(** A block: 24 bytes for the entries of the directory itself and its parent, packed entries, zeros. *)
Definition dir_bytes (dots : list Z) (es : list dirent) : list Z :=
  dots ++ (es ≫= entry_bytes) ++ replicate (Z.to_nat 1024 - length (dots ++ (es ≫= entry_bytes))) 0.

Definition dirent_ok (e : dirent) : Prop :=
  0 < d_inode e < 2 ^ 31 ∧ str_ok (d_name e) ∧ (length (d_name e) < 255)%nat.

Lemma bytes_at_app pre l post o n : o = Z.of_nat (length pre) → n = Z.of_nat (length l) →
  bytes_at (pre ++ l ++ post) o n = Ok l.
Proof.
  intros -> ->. unfold bytes_at. rewrite !(proj2 (Z.leb_le _ _)) by (rewrite ?length_app; lia). cbn [andb].
  rewrite !Nat2Z.id, drop_app_length, take_app_length. done.
Qed.

Lemma entry_size_spec n : 0 <= n → entry_size n = entry_len n.
Proof.
  intros Hn. unfold entry_size, entry_len. pose proof (Z.mod_pos_bound n 4). pose proof (Z.div_mod n 4).
  destruct (Z.eqb_spec (n mod 4) 0) as [E|E].
  - replace (8 + n + 3) with (3 + (2 + n / 4) * 4) by lia. rewrite Z.div_add by lia. change (3 / 4) with 0. lia.
  - replace (8 + n + 3) with (n mod 4 - 1 + (3 + n / 4) * 4) by lia. rewrite Z.div_add, Z.div_small by lia. lia.
Qed.

Lemma entry_len_bounds n : 0 <= n → 8 + n <= entry_len n ∧ entry_len n mod 4 = 0.
Proof.
  intros Hn. unfold entry_len. split; [|apply Z_mod_mult]. pose proof (Z.div_mod (8 + n + 3) 4). pose proof (Z.mod_pos_bound (8 + n + 3) 4). lia.
Qed.

Lemma length_entry e : Z.of_nat (length (entry_bytes e)) = entry_len (Z.of_nat (length (d_name e))).
Proof.
  pose proof (entry_len_bounds (Z.of_nat (length (d_name e)))). unfold entry_bytes.
  rewrite !length_app, !length_le_bytes, length_replicate. simpl length. lia.
Qed.

Lemma until_nul_ok l : str_ok l → until_nul l = l.
Proof. induction 1 as [|c l Hc _ IH]; simpl; [done|]. destruct (Z.eqb_spec c 0); [unfold is_char in *; lia|by rewrite IH]. Qed.

Lemma entry_name_ok buffer pre name post o : buffer = pre ++ name ++ post → o + 8 = Z.of_nat (length pre) →
  str_ok name → (length name < 255)%nat → entry_name buffer o (Z.of_nat (length name)) = Ok name.
Proof.
  intros -> Ho Hs Hl. unfold entry_name. rewrite (proj2 (Z.leb_gt _ _)) by (unfold EXT2_NAME_LEN; lia).
  rewrite Ho, !Nat2Z.id, drop_app_length, take_app_length, Nat.ltb_irrefl. cbn [andb]. by rewrite until_nul_ok.
Qed.

Section dir.
Context (g : globals).
Hypothesis Hbs : block_size g = 1024.

(** The loop at the start of an entry. *)
Lemma dir_loop_entry pre e post st fuel : dirent_ok e →
  (length pre < Z.to_nat (block_size g))%nat → (length st < Z.to_nat (block_size g * 10))%nat →
  dir_loop g (pre ++ entry_bytes e ++ post) (Z.of_nat (length pre)) st (S fuel) =
  dir_loop g (pre ++ entry_bytes e ++ post) (Z.of_nat (length (pre ++ entry_bytes e))) (st ++ [(d_inode e, d_name e)]) fuel.
Proof.
  intros (Hi & Hs & Hn) Hpre Hst. set (buffer := pre ++ entry_bytes e ++ post).
  change (dir_loop g buffer (Z.of_nat (length pre)) st (S fuel)) with
    (if negb (Z.of_nat (length pre) <? block_size g) then Ok st
     else inode ← field buffer (Z.of_nat (length pre)) 4;
       if inode =? 0 then Ok st
       else name_len ← field buffer (Z.of_nat (length pre) + 6) 1;
         name ← entry_name buffer (Z.of_nat (length pre)) name_len;
         if block_size g * 10 <=? Z.of_nat (length st) then Fault (Z.of_nat (length st))
         else dir_loop g buffer (Z.of_nat (length pre) + entry_size name_len) (st ++ [(s32 inode, name)]) fuel).
  rewrite (proj2 (Z.ltb_lt _ _)) by lia. cbn [negb].
  set (name := d_name e). set (pad := replicate (Z.to_nat (entry_len (Z.of_nat (length name)) - 8) - length name) 0).
  assert (field buffer (Z.of_nat (length pre)) 4 = Ok (d_inode e)) as ->.
  { unfold field, buffer, entry_bytes. rewrite <- !app_assoc, bytes_at_app, bind_Ok by (done || by rewrite length_le_bytes).
    rewrite le_le_bytes; [done|]. change (256 ^ Z.of_nat 4) with (2 ^ 32). lia. }
  rewrite bind_Ok, (proj2 (Z.eqb_neq _ _)) by lia.
  assert (field buffer (Z.of_nat (length pre) + 6) 1 = Ok (Z.of_nat (length name))) as ->.
  { unfold field. assert (buffer = (pre ++ le_bytes 4 (d_inode e) ++ le_bytes 2 (d_rec_len e)) ++ [Z.of_nat (length name)] ++
      (d_type e :: name ++ pad ++ post)) as -> by (unfold buffer, entry_bytes; by rewrite <- !app_assoc).
    rewrite bytes_at_app, bind_Ok; [cbn [le]; f_equal; lia| |done]. rewrite !length_app, !length_le_bytes. lia. }
  rewrite bind_Ok.
  rewrite (entry_name_ok buffer (pre ++ le_bytes 4 (d_inode e) ++ le_bytes 2 (d_rec_len e) ++ [Z.of_nat (length name); d_type e])
    name (pad ++ post)); [| |rewrite !length_app, !length_le_bytes; simpl length; lia|done|done].
  - rewrite bind_Ok, (proj2 (Z.leb_gt _ _)) by lia. rewrite s32_small by lia.
    by rewrite length_app, Nat2Z.inj_add, length_entry, entry_size_spec by lia.
  - unfold buffer, entry_bytes. by rewrite <- !app_assoc.
Qed.

Lemma dir_loop_spec es : ∀ pre st fuel, Forall dirent_ok es →
  (length (pre ++ (es ≫= entry_bytes)) ≤ Z.to_nat 1024)%nat → Z.of_nat (length pre) mod 4 = 0 →
  (length st + length es ≤ Z.to_nat 10240)%nat → (length es < fuel)%nat →
  dir_loop g (dir_bytes pre es) (Z.of_nat (length pre)) st fuel =
    Ok (st ++ ((λ e, (d_inode e, d_name e)) <$> es)).
Proof using Hbs.
  induction es as [|e es IH]; intros pre st fuel Hok Hlen Hmod Hcount Hf; (destruct fuel as [|fuel]; [lia|]).
  - rewrite app_nil_r in Hlen. simpl. rewrite app_nil_r. cbn [dir_loop].
    rewrite Hbs. destruct (Z.ltb_spec (Z.of_nat (length pre)) 1024) as [Hlt|Hge]; [|done]. cbn [negb].
    unfold dir_bytes. simpl. rewrite app_nil_r.
    assert (4 ≤ Z.to_nat 1024 - length pre)%nat as H4.
    { pose proof (Z.div_mod (Z.of_nat (length pre)) 4). lia. }
    assert (∀ k, field (pre ++ replicate (4 + k) 0) (Z.of_nat (length pre)) 4 = Ok 0) as Hz.
    { intros k. unfold field. rewrite replicate_add, bytes_at_app by done. done. }
    replace (Z.to_nat 1024 - length pre)%nat with (4 + (Z.to_nat 1024 - length pre - 4))%nat by lia.
    by rewrite Hz.
  - apply Forall_cons in Hok as [He Hok].
    rewrite bind_cons in Hlen. rewrite !length_app in Hlen. pose proof (length_entry e) as Hle.
    pose proof (entry_len_bounds (Z.of_nat (length (d_name e)))) as [Hes Hmod'].
    { lia. }
    assert (length pre < Z.to_nat 1024)%nat by lia. simpl in Hcount, Hf.
    unfold dir_bytes at 1. rewrite bind_cons, <- !app_assoc, dir_loop_entry by (done || rewrite ?Hbs; lia).
    transitivity (dir_loop g (dir_bytes (pre ++ entry_bytes e) es) (Z.of_nat (length (pre ++ entry_bytes e)))
      (st ++ [(d_inode e, d_name e)]) fuel).
    { f_equal. unfold dir_bytes. by rewrite <- !app_assoc. }
    rewrite IH; [by rewrite <- app_assoc|..].
    + done.
    + rewrite !length_app. lia.
    + rewrite length_app, Nat2Z.inj_add, Hle, Z.add_mod, Hmod, Hmod' by lia. done.
    + rewrite length_app. simpl. lia.
    + lia.
Qed.
End dir.

Lemma length_entries es : (length es ≤ length (es ≫= entry_bytes))%nat.
Proof.
  induction es as [|e es IH]; [done|]. rewrite bind_cons, length_app. pose proof (length_entry e) as Hl.
  pose proof (entry_len_bounds (Z.of_nat (length (d_name e)))). simpl. lia.
Qed.

Lemma dir_loop_block (img : image) (g : globals) (b : Z) (dots : list Z) (es : list dirent) (st : entries) :
  length dots = 24%nat → Forall dirent_ok es → block_size g = 1024 →
  blk_ok img b → blk img b = dir_bytes dots es →
  (length (dots ++ (es ≫= entry_bytes)) ≤ Z.to_nat 1024)%nat →
  (length st + length es ≤ Z.to_nat 10240)%nat →
  dir_block img g b st = Ok (st ++ ((λ e, (d_inode e, d_name e)) <$> es)).
Proof.
  intros Hdots Hes Hbs Hok Hblk Hlen Hcount. unfold dir_block, main_read. rewrite Hbs.
  change (DEFAULT_BLOCK_SIZE <? 1024) with false. cbn match.
  rewrite read_blk, bind_Ok, take_ge, Hblk by (done || lia || (rewrite length_blk by done; lia)).
  replace 24 with (Z.of_nat (length dots)) by (by rewrite Hdots). apply dir_loop_spec; [done|done|done|by rewrite Hdots|done|].
  pose proof (length_entries es) as Hl. rewrite length_app in Hlen. lia.
Qed.

(** Reading back a directory: from a block with the 24 bytes of the two dot entries followed by packed
    entries, the first pass of [main] collects exactly the inode number and the name of each entry, in order. *)
Theorem dir_block_roundtrip (img : image) (g : globals) (b : Z) (dots : list Z) (es : list dirent) (st : entries) :
  length dots = 24%nat → Forall dirent_ok es → block_size g = 1024 →
  blk_ok img b → blk img b = dir_bytes dots es →
  (length (dots ++ (es ≫= entry_bytes)) ≤ Z.to_nat 1024)%nat →
  (length st + length es ≤ Z.to_nat 10240)%nat →
  dir_block img g b st = Ok (st ++ ((λ e, (d_inode e, d_name e)) <$> es)).
Proof. apply dir_loop_block. Qed.

(** That theorem at the root directory of the small image. *)
Lemma dir_block_roundtrip_witness :
  dir_block demo_image demo_globals 6 [] = Ok [(3, of_string "a.jpg")].
Proof.
  apply (dir_block_roundtrip demo_image demo_globals 6 (replicate 24 0) [Dirent 3 0 1 (of_string "a.jpg")] []).
  - reflexivity.
  - constructor; [|constructor]. split; [cbn; lia|]. split; [apply (bool_decide_unpack _); vm_compute; exact I|cbn; lia].
  - reflexivity.
  - unfold blk_ok. apply (bool_decide_unpack _). vm_compute. exact I.
  - vm_compute. reflexivity.
  - apply Nat.leb_le. vm_compute. reflexivity.
  - cbn [length]. lia.
Defined.

(** * The two passes *)

Lemma get_index_spec n l : ∀ i, 0 <= i →
  match get_filename n l with
  | None => get_index n l i = -1
  | Some name => i <= get_index n l i ∧ ∃ m, l !! Z.to_nat (get_index n l i - i) = Some (m, name)
  end.
Proof.
  induction l as [|[m name] l IH]; intros i Hi; cbn [get_filename get_index]; [done|].
  destruct (m =? n); [rewrite Z.sub_diag; split; [lia|by exists m]|]. specialize (IH (i + 1)).
  destruct (get_filename n l) as [nm|]; [|apply IH; lia].
  destruct IH as (Hge & m' & Hl); [lia|]. split; [lia|]. exists m'.
  by replace (Z.to_nat (get_index n l (i + 1) - i)) with (S (Z.to_nat (get_index n l (i + 1) - (i + 1)))) by lia.
Qed.

(** The first name that the entries give to an inode. *)
Definition first_name (n : Z) (names : entries) : option cstring := snd <$> head (filter (λ e, e.1 = n) names).

Lemma get_filename_spec n l : get_filename n l = first_name n l.
Proof.
  unfold first_name. induction l as [|[m name] l IH]; cbn [get_filename]; [done|]. destruct (Z.eqb_spec m n) as [E|E].
  - by rewrite filter_cons_True by done.
  - by rewrite filter_cons_False by done.
Qed.

(** The signatures of a JPG. *)
Definition signature (l : list Z) : bool :=
  bool_decide (take 4 l ∈ [[255; 216; 255; 224]; [255; 216; 255; 225]; [255; 216; 255; 232]]).

Lemma is_jpg_spec l : is_jpg l = signature l.
Proof.
  unfold signature. symmetry. destruct (is_jpg l) eqn:E; [apply bool_decide_eq_true|apply bool_decide_eq_false].
  - destruct l as [|b0 [|b1 [|b2 [|b3 l]]]]; try discriminate E. cbn [is_jpg] in E. cbn [take firstn].
    rewrite !andb_true_iff, !orb_true_iff, !Z.eqb_eq in E. destruct E as [[[-> ->] ->] [[->| ->]| ->]]; set_solver.
  - intros H. destruct l as [|b0 [|b1 [|b2 [|b3 l]]]]; cbn in H;
      repeat (apply elem_of_cons in H as [H|H]; [try discriminate H; injection H as -> -> -> ->; discriminate E|]); by apply elem_of_nil in H.
Qed.

Section passes.
Context (img : image) (g : globals) (names : entries).
Hypothesis Hbs : block_size g = 1024.

(** The content of a file and the two names it is saved under. *)
Definition file_bytes (inode : ext2_inode) : list Z :=
  take (Z.to_nat (i_size inode)) (data_blocks img inode ≫= blk img).

Definition saved (inode : ext2_inode) (n : Z) (out : outputs) : outputs :=
  let out1 := <[inode_file n := file_bytes inode]> out in
  match first_name n names with None => out1 | Some name => <[name := file_bytes inode]> out1 end.

Definition sized_ok (inode : ext2_inode) : Prop := inode_ok img inode ∧ 0 <= i_size inode < 2 ^ 32.

Lemma save_spec inode n out : sized_ok inode → save img g inode n names out = Ok (saved inode n out).
Proof using Hbs.
  intros [Hok Hsize]. unfold save. change copy_data_name with copy_data.
  rewrite (copy_data_spec img g Hbs inode Hok Hsize), bind_Ok.
  pose proof (get_index_spec n names 0 ltac:(lia)) as Hidx. rewrite get_filename_spec in Hidx. unfold saved. fold (file_bytes inode).
  destruct (first_name n names) as [name|].
  - destruct Hidx as (Hge & m & Hm). rewrite Z.sub_0_r in Hm. rewrite (proj2 (Z.eqb_neq _ _)) by lia. by rewrite Hm.
  - by rewrite Hidx.
Qed.

Lemma saved_idemp inode n out : saved inode n (saved inode n out) = saved inode n out.
Proof.
  unfold saved. apply map_eq. intros k. destruct (first_name n names) as [name|].
  - destruct (decide (k = name)) as [->|Hn]; [by rewrite !lookup_insert_eq|].
    rewrite !(lookup_insert_ne _ name) by done.
    destruct (decide (k = inode_file n)) as [->|Hi]; [by rewrite !lookup_insert_eq|].
    by rewrite !lookup_insert_ne by done.
  - by rewrite insert_insert_eq.
Qed.

(** Some block carries the signature. *)
Definition jpg_in (l : list Z) : bool := existsb (λ b, signature (blk img b)) l.

Lemma main_read_spec b : blk_ok img b → main_read img g b = Ok (blk img b).
Proof using Hbs.
  intros Hok. unfold main_read. rewrite Hbs. change (DEFAULT_BLOCK_SIZE <? 1024) with false. cbn match.
  rewrite read_blk by (done || lia). rewrite take_ge; [done|]. by rewrite length_blk.
Qed.

Section scan.
Context (hit : outputs → outcome outputs) (h : outputs → outputs).
Hypothesis Hhit : ∀ out, hit out = Ok (h out).
Hypothesis Hidemp : ∀ out, h (h out) = h out.

Lemma scan_ptrs_spec l out : Forall (blk_ok img) (nonzero l) →
  scan_ptrs img g hit l out = Ok (jpg_in (nonzero l), if jpg_in (nonzero l) then h out else out).
Proof using Hbs Hhit.
  unfold nonzero. induction l as [|b l IH]; intros Hok; cbn [scan_ptrs]; [done|]. destruct (Z.eqb_spec b 0) as [Hb|Hb].
  - rewrite filter_cons_False in Hok |- * by tauto. by apply IH.
  - rewrite filter_cons_True in Hok |- * by done. apply Forall_cons in Hok as [Hbo Hok].
    rewrite main_read_spec, bind_Ok, is_jpg_spec by done. cbn [jpg_in existsb]. destruct (signature (blk img b)); [by rewrite Hhit|].
    by apply IH.
Qed.

Definition after (l : list Z) (out : outputs) : outputs := if jpg_in l then h out else out.

Lemma after_app l1 l2 out : after l2 (after l1 out) = after (l1 ++ l2) out.
Proof using Hidemp.
  unfold after, jpg_in. rewrite existsb_app. destruct (existsb _ l1), (existsb _ l2); simpl; by rewrite ?Hidemp.
Qed.

Lemma after_h l out : after l (h out) = h out.
Proof using Hidemp. unfold after. destruct (jpg_in l); [apply Hidemp|done]. Qed.

Lemma scan_double bs2 out : Forall (blk_ok img) bs2 → Forall (blk_ok img) (bs2 ≫= λ b, nonzero (ptrs img b)) →
  foldM (λ b out, dindirect ← read_ptrs img g DEFAULT_BLOCK_SIZE b; '(_, out) ← scan_ptrs img g hit dindirect out; Ok out) bs2 out
  = Ok (after (bs2 ≫= λ b, nonzero (ptrs img b)) out).
Proof using Hbs Hhit Hidemp.
  revert out. induction bs2 as [|b bs2 IH]; intros out Hok Hsub; cbn [foldM]; [done|].
  apply Forall_cons in Hok as [Hb Hok]. rewrite bind_cons in Hsub |- *. apply Forall_app in Hsub as [Hsub1 Hsub2].
  change DEFAULT_BLOCK_SIZE with 1024. rewrite <- Hbs, read_ptrs_spec, bind_Ok, scan_ptrs_spec, !bind_Ok by (done || lia).
  rewrite Hbs. change 1024 with DEFAULT_BLOCK_SIZE. rewrite IH by done. by rewrite <- after_app.
Qed.

Lemma scan_file_spec inode out : inode_ok img inode →
  scan_file img g hit inode out = Ok (after (data_blocks img inode) out).
Proof using Hbs Hhit Hidemp.
  intros Hok. destruct (meta_ok _ _ Hok) as [H1 H2]. destruct Hok as [Hlen [Hdata _]%Forall_app].
  rewrite data_blocks_split in Hdata |- *. apply Forall_app in Hdata as [Hd1 Hdata]. apply Forall_app in Hdata as [Hd2 Hd3].
  assert (∀ i, (i < 15)%nat → block_ptr inode i = Ok (i_block inode !!! i)) as Hptr.
  { intros i Hi. unfold block_ptr. destruct (lookup_lt_is_Some_2 (i_block inode) i) as [b Hb]; [lia|].
    rewrite Hb. by rewrite (list_lookup_total_correct _ _ _ Hb). }
  unfold scan_file, EXT2_NDIR_BLOCKS, EXT2_IND_BLOCK, EXT2_DIND_BLOCK. rewrite scan_ptrs_spec, bind_Ok by done.
  rewrite <- !after_app. set (l1 := nonzero (take 12 (i_block inode))) in *.
  destruct (jpg_in l1) eqn:Ej.
  { replace (after l1 out) with (h out) by (unfold after; by rewrite Ej). by rewrite !after_h. }
  replace (after l1 out) with out by (unfold after; by rewrite Ej). rewrite (Hptr 12%nat), bind_Ok by lia.
  assert ((if i_block inode !!! 12%nat =? 0 then Ok out
  else sindirect ← read_ptrs img g DEFAULT_BLOCK_SIZE (i_block inode !!! 12%nat); '(_, out) ← scan_ptrs img g hit sindirect out; Ok out) =
    Ok (after (if i_block inode !!! 12%nat =? 0 then [] else nonzero (ptrs img (i_block inode !!! 12%nat))) out)) as ->.
  { destruct (Z.eqb_spec (i_block inode !!! 12%nat) 0) as [|Hne]; [done|].
    change DEFAULT_BLOCK_SIZE with 1024. rewrite <- Hbs, read_ptrs_spec, bind_Ok, scan_ptrs_spec, bind_Ok by (auto || lia). done. }
  rewrite bind_Ok, (Hptr 13%nat), bind_Ok by lia.
  destruct (Z.eqb_spec (i_block inode !!! 13%nat) 0) as [|Hne]; [done|]. destruct (H2 Hne) as [Hb Hbs2].
  change DEFAULT_BLOCK_SIZE with 1024. rewrite <- Hbs, read_ptrs_spec, bind_Ok, for_ptrs_foldM, Hbs by (done || lia). by apply scan_double.
Qed.
End scan.
End passes.

(** * The file system *)

(** A little-endian number at byte [off] of the image. *)
Definition num (img : image) (off : Z) (n : nat) : Z := le (take n (drop (Z.to_nat off) img)).

(** The record of inode [i] when the table starts at block [table]: inodes are numbered from 1. *)
Definition inode_offset (table i : Z) : Z := table * 1024 + (i - 1) * 128.
Definition inode_at (img : image) (off : Z) : ext2_inode :=
  Inode (num img off 2) (num img (off + 4) 4) ((λ k, num img (off + 40 + 4 * Z.of_nat k) 4) <$> seq 0 15).
Definition inode_of (img : image) (table i : Z) : ext2_inode := inode_at img (inode_offset table i).

Definition is_dir (inode : ext2_inode) : bool := i_mode inode / 4096 =? 4.
Definition is_reg (inode : ext2_inode) : bool := i_mode inode / 4096 =? 8.

(** A file system of 1 KiB blocks and one group, whose table of [inodes] inodes starts at block [table]: the super block is
    block 1, the descriptor of the group is in block 2.  The table fills its blocks, 8 inodes in each.  The 128 bytes in front of
    the table, at the end of another block, do not look like a directory or a file (in practice they are the end of the bitmap of
    inodes, all ones): the program takes them for inode 0. *)
Record ext2_1k (img : image) (inodes table : Z) : Prop := {
  x_len : 3072 <= Z.of_nat (length img) < 2 ^ 32;
  x_bytes : Forall (λ c, 0 <= c < 256) img;
  x_magic : num img (1024 + 56) 2 = 61267;
  x_log : num img (1024 + 24) 4 = 0;
  x_bpg : num img (1024 + 32) 4 ≠ 0;
  x_ipg : num img (1024 + 40) 4 = inodes;
  x_full : 0 < inodes ∧ inodes mod 8 = 0;
  x_table : num img (2048 + 8) 4 = table;
  x_place : 1 <= table ∧ table * 1024 + inodes * 128 <= Z.of_nat (length img);
  x_before : is_dir (inode_of img table 0) = false ∧ is_reg (inode_of img table 0) = false
}.

(** [read] and the decoding of the structures. *)
Lemma bytes_at_take l o n : 0 <= o → 0 <= n → o + n <= Z.of_nat (length l) → bytes_at l o n = Ok (take (Z.to_nat n) (drop (Z.to_nat o) l)).
Proof. intros. unfold bytes_at. by rewrite !(proj2 (Z.leb_le _ _)) by lia. Qed.

Lemma bytes_sub (img : image) off n o k : 0 <= off → 0 <= o → 0 <= k → o + k <= n → off + n <= Z.of_nat (length img) →
  bytes_at (take (Z.to_nat n) (drop (Z.to_nat off) img)) o k = Ok (take (Z.to_nat k) (drop (Z.to_nat (off + o)) img)).
Proof.
  intros ? ? ? ? ?. rewrite bytes_at_take by (rewrite ?length_take, ?length_drop; lia).
  rewrite skipn_firstn_comm, take_take, drop_drop. f_equal. f_equal; [lia|f_equal; lia].
Qed.

Lemma field_num (img : image) off n o k : 0 <= off → 0 <= o → 0 <= k → o + k <= n → off + n <= Z.of_nat (length img) →
  field (take (Z.to_nat n) (drop (Z.to_nat off) img)) o k = Ok (num img (off + o) (Z.to_nat k)).
Proof. intros. unfold field. by rewrite bytes_sub, bind_Ok. Qed.

Lemma num_range (img : image) off n : Forall (λ c, 0 <= c < 256) img → 0 <= num img off n < 256 ^ Z.of_nat n.
Proof.
  intros Hb. unfold num. assert (Forall (λ c, 0 <= c < 256) (take n (drop (Z.to_nat off) img))) as H by (by apply Forall_take, Forall_drop).
  assert (length (take n (drop (Z.to_nat off) img)) ≤ n)%nat as Hl by (rewrite length_take; lia). revert H Hl. generalize (take n (drop (Z.to_nat off) img)). intros l H. revert n.
  induction H as [|c l Hc _ IH]; intros n Hl; cbn [le].
  - pose proof (Z.pow_pos_nonneg 256 (Z.of_nat n)). lia.
  - destruct n as [|n]; [cbn in Hl; lia|]. specialize (IH n). rewrite Nat2Z.inj_succ, Z.pow_succ_r by lia. cbn [length] in Hl. lia.
Qed.

Lemma decode_inode_spec (img : image) off : 0 <= off → off + 128 <= Z.of_nat (length img) →
  (b ← read_at img off sizeof_inode; decode_inode b) = Ok (inode_at img off).
Proof.
  intros ? ?. unfold read_at, decode_inode, sizeof_inode. rewrite bytes_at_take, bind_Ok by lia. rewrite !field_num, !bind_Ok by lia.
  rewrite bytes_sub, !bind_Ok by lia. unfold inode_at. rewrite Z.add_0_r. do 2 f_equal. rewrite words_spec. apply list_fmap_ext. intros i k Hk.
  apply lookup_seq in Hk as [-> Hi]. unfold num. f_equal. rewrite skipn_firstn_comm, take_take, drop_drop. f_equal; [lia|f_equal; lia].
Qed.

(** The file type: the upper 4 of the 16 bits of the mode. *)
Lemma mode_type m : 0 <= m < 65536 → Z.land m 61440 = m / 4096 * 4096.
Proof.
  intros Hm. pose proof (Z.div_mod (Z.land m 61440) 4096).
  assert (Z.land m 61440 mod 4096 = 0) as E0.
  { change 4096 with (2 ^ 12). rewrite <- Z.land_ones, <- Z.land_assoc by lia. change (Z.land 61440 (Z.ones 12)) with 0. apply Z.land_0_r. }
  assert (Z.land m 61440 / 4096 = m / 4096) as E1; [|lia].
  change 4096 with (2 ^ 12). rewrite <- !Z.shiftr_div_pow2, Z.shiftr_land by lia. change (Z.shiftr 61440 12) with (Z.ones 4).
  rewrite Z.land_ones, Z.shiftr_div_pow2 by lia. apply Z.mod_small. split; [apply Z.div_pos; lia|]. apply Z.div_lt_upper_bound; lia.
Qed.

Lemma S_ISDIR_spec inode : 0 <= i_mode inode < 65536 → S_ISDIR (i_mode inode) = is_dir inode.
Proof. intros Hm. unfold S_ISDIR, is_dir. rewrite mode_type by done. apply eq_bool_prop_intro. rewrite !Is_true_true, !Z.eqb_eq. lia. Qed.

Lemma S_ISREG_spec inode : 0 <= i_mode inode < 65536 → S_ISREG (i_mode inode) = is_reg inode.
Proof. intros Hm. unfold S_ISREG, is_reg. rewrite mode_type by done. apply eq_bool_prop_intro. rewrite !Is_true_true, !Z.eqb_eq. lia. Qed.

Section whole.
Context (img : image) (inodes table : Z) (ents : Z → list dirent).
Let ino : Z → ext2_inode := inode_of img table.

(** Block [b] of a directory holds the entries [ents b]. *)
Definition dir_block_ok (b : Z) : Prop :=
  Forall dirent_ok (ents b) ∧ ∃ dots, length dots = 24%nat ∧ blk img b = dir_bytes dots (ents b) ∧
    (length (dots ++ (ents b ≫= entry_bytes)) ≤ Z.to_nat 1024)%nat.

(** The blocks of inode [i] lie in the image, and those of a directory are well formed. *)
Definition slot_ok (i : Z) : Prop :=
  (is_reg (ino i) = true → inode_ok img (ino i)) ∧
  (is_dir (ino i) = true → inode_ok img (ino i) ∧ Forall dir_block_ok (data_blocks img (ino i))).

Definition block_names (b : Z) : entries := (λ e, (d_inode e, d_name e)) <$> ents b.

(** The names found in inode [i], if it is a directory. *)
Definition dir_names (i : Z) : entries :=
  if is_dir (ino i) then data_blocks img (ino i) ≫= block_names else [].

(** The output directory after inode [i]. *)
Definition recover (names : entries) (out : outputs) (i : Z) : outputs :=
  if is_reg (ino i) && jpg_in img (data_blocks img (ino i)) then saved img names (ino i) i out else out.

Hypothesis Hx : ext2_1k img inodes table.

(** What [main] finds in the super block. *)
Definition g1k : globals :=
  Globals 1024 8 (inodes / 8) (num img (1024 + 32) 4)
    (u32 (num img (1024 + 4) 4 + num img (1024 + 32) 4 - 1) / num img (1024 + 32) 4) inodes.

Lemma decode_super_spec : ∃ b, read_at img 1024 sizeof_super = Ok b ∧ decode_super b =
  Ok (Super (num img (1024 + 4) 4) 0 (num img (1024 + 32) 4) inodes 61267).
Proof using Hx.
  destruct Hx. unfold read_at, decode_super, sizeof_super. rewrite bytes_at_take by lia. eexists. split; [reflexivity|]. rewrite !field_num, !bind_Ok by lia.
  change (Z.to_nat 4) with 4%nat. change (Z.to_nat 2) with 2%nat. congruence.
Qed.

Lemma init_spec : ext2_read_init img = Ok (Some g1k).
Proof using Hx.
  destruct decode_super_spec as (b & Eb & E). unfold ext2_read_init. change BASE_OFFSET with 1024. rewrite Eb, bind_Ok, E, bind_Ok. cbn [s_magic s_log_block_size s_inodes_per_group s_blocks_per_group s_blocks_count].
  change (negb (61267 =? EXT2_SUPER_MAGIC)) with false. cbn match. change (shl1024 0) with (Ok 1024). rewrite bind_Ok.
  change (udiv 1024 sizeof_inode) with (Ok 8). rewrite bind_Ok. change (udiv inodes 8) with (Ok (inodes / 8)). rewrite bind_Ok.
  unfold udiv. rewrite (proj2 (Z.eqb_neq _ _)) by apply (x_bpg _ _ _ Hx). done.
Qed.

Lemma group0 : u32 (blocks_per_group g1k * 0) = 0 ∧ BLOCK_OFFSET g1k 0 = 0.
Proof using. split; [by rewrite Z.mul_0_r|done]. Qed.

Lemma super_spec : ∃ sb, read_super_block img g1k 0 = Ok (GotSuper sb g1k).
Proof using Hx.
  destruct decode_super_spec as (b & Eb & E). unfold read_super_block. change (group_test 0 _) with (Ok false : outcome bool). rewrite bind_Ok. cbn match.
  destruct group0 as [-> ->]. change (u32 (BASE_OFFSET + 0)) with 1024. rewrite Eb, bind_Ok, E, bind_Ok. cbn [s_magic s_log_block_size s_inodes_per_group].
  change (negb (61267 =? EXT2_SUPER_MAGIC)) with false. cbn match. change (shl1024 0) with (Ok 1024). rewrite bind_Ok.
  change (udiv 1024 sizeof_inode) with (Ok 8). rewrite bind_Ok. change (udiv inodes 8) with (Ok (inodes / 8)). rewrite bind_Ok. by eexists.
Qed.

Lemma group_spec : ∃ group, read_group_desc img g1k 0 = Ok group ∧ locate_inode_table g1k 0 group = table * 1024.
Proof using Hx.
  destruct Hx. unfold read_group_desc, group_desc_offset. change (group_test 0 _) with (Ok false : outcome bool). rewrite bind_Ok. cbn match.
  destruct group0 as [E1 E2]. rewrite E1, E2. change (u32 (u32 (BASE_OFFSET + 0) + block_size g1k)) with 2048. unfold read_at, sizeof_group_desc.
  rewrite bytes_at_take, bind_Ok by lia. unfold decode_group. rewrite !field_num, !bind_Ok by lia. eexists. split; [reflexivity|].
  unfold locate_inode_table. cbn [bg_inode_table]. rewrite E1. change (Z.to_nat 4) with 4%nat. rewrite x_table0, Z.add_0_r.
  rewrite (u32_small table) by (unfold is_u32; lia). apply (BLOCK_OFFSET_spec img); [done|]. unfold blk_ok. pose proof (Z.div_mod inodes 8). lia.
Qed.

Lemma read_inode_spec n : 0 <= n < inodes → read_inode img g1k 0 (table * 1024) n = Ok (ino n).
Proof using Hx.
  intros Hn. destruct Hx. unfold read_inode. destruct group0 as [-> ->]. pose proof (Z.div_mod inodes 8).
  assert (u64 (0 + table * 1024 + u64 (n - 1) * sizeof_inode) = inode_offset table n) as ->.
  { unfold inode_offset, sizeof_inode, u64. rewrite Z.add_0_l, <- Zplus_mod_idemp_r, Zmult_mod_idemp_l, Zplus_mod_idemp_r. apply Z.mod_small. lia. }
  apply decode_inode_spec; unfold inode_offset; lia.
Qed.

Lemma slot_range i : 0 <= i_mode (ino i) < 65536 ∧ 0 <= i_size (ino i) < 2 ^ 32.
Proof using Hx.
  split; [apply (num_range img (inode_offset table i) 2)|apply (num_range img (inode_offset table i + 4) 4)]; apply (x_bytes _ _ _ Hx).
Qed.

Lemma dir_blocks_spec l : ∀ st, Forall dir_block_ok l → Forall (blk_ok img) l →
  (length (st ++ (l ≫= block_names)) ≤ Z.to_nat 10240)%nat →
  foldM (dir_block img g1k) l st = Ok (st ++ (l ≫= block_names)).
Proof using.
  induction l as [|b l IH]; intros st Hd Hok Hlen; cbn [foldM]; [by rewrite app_nil_r|].
  apply Forall_cons in Hd as [(Hes & dots & Hdots & Hblk & Hfit) Hd]. apply Forall_cons in Hok as [Hb Hok].
  rewrite bind_cons in Hlen |- *. rewrite app_assoc in Hlen |- *.
  rewrite (dir_loop_block img g1k b dots (ents b) st), bind_Ok; try done; [by apply IH|].
  rewrite !length_app in Hlen. unfold block_names in Hlen. rewrite length_fmap in Hlen. lia.
Qed.

Lemma dir_pass_spec todo : ∀ n st, (∀ m, n <= m < n + Z.of_nat todo → 0 <= m < inodes ∧ slot_ok m) →
  (length (st ++ (seqZ n (Z.of_nat todo) ≫= dir_names)) ≤ Z.to_nat 10240)%nat →
  dir_pass img g1k (table * 1024) n st todo = Ok (st ++ (seqZ n (Z.of_nat todo) ≫= dir_names)).
Proof using Hx.
  induction todo as [|todo IH]; intros n st Hs Hlen; cbn [dir_pass]; [by rewrite app_nil_r|].
  rewrite seqZ_cons in Hlen |- * by lia. replace (Z.pred (Z.of_nat (S todo))) with (Z.of_nat todo) in * by lia.
  rewrite bind_cons in Hlen |- *. rewrite app_assoc in Hlen |- *.
  destruct (Hs n) as (Hn & _ & Hdir); [lia|]. rewrite read_inode_spec, bind_Ok, S_ISDIR_spec by (done || apply slot_range).
  assert ((if is_dir (ino n) then walk_blocks img g1k DEFAULT_BLOCK_SIZE (dir_block img g1k) (ino n) st else Ok st)
    = Ok (st ++ dir_names n)) as ->.
  { unfold dir_names in *. destruct (is_dir (ino n)); [|by rewrite app_nil_r]. destruct (Hdir eq_refl) as [Hok Hd].
    change DEFAULT_BLOCK_SIZE with (block_size g1k). rewrite walk_blocks_spec by done. apply dir_blocks_spec; [done| |].
    - destruct Hok as [_ Hok]. by apply Forall_app in Hok as [Hok _].
    - rewrite length_app in Hlen. lia. }
  rewrite bind_Ok. apply IH; [|done]. intros m Hm. apply Hs. lia.
Qed.

Lemma file_pass_spec names todo : ∀ n out, (∀ m, n <= m < n + Z.of_nat todo → 0 <= m < inodes ∧ slot_ok m) →
  file_pass img g1k (table * 1024) n names out todo = Ok (foldl (recover names) out (seqZ n (Z.of_nat todo))).
Proof using Hx.
  induction todo as [|todo IH]; intros n out Hs; cbn [file_pass]; [done|].
  rewrite seqZ_cons by lia. replace (Z.pred (Z.of_nat (S todo))) with (Z.of_nat todo) in * by lia. cbn [foldl].
  destruct (Hs n) as (Hn & Hreg & _); [lia|]. rewrite read_inode_spec, bind_Ok, S_ISREG_spec by (done || apply slot_range).
  assert ((if is_reg (ino n) then scan_file img g1k (save img g1k (ino n) n names) (ino n) out else Ok out)
    = Ok (recover names out n)) as ->.
  { unfold recover. destruct (is_reg (ino n)); [|done]. specialize (Hreg eq_refl). cbn [andb].
    rewrite (scan_file_spec img g1k eq_refl _ (saved img names (ino n) n)); [done|..|done].
    - intros out'. apply save_spec; [done|]. split; [done|]. apply slot_range.
    - intros out'. apply saved_idemp. }
  rewrite bind_Ok. apply IH. intros m Hm. apply Hs. lia.
Qed.

(** What stands in for inode 0 is passed over. *)
Lemma slot0 : slot_ok 0 ∧ dir_names 0 = [] ∧ ∀ names out, recover names out 0 = out.
Proof using Hx.
  destruct (x_before _ _ _ Hx) as [Hd Hr]. unfold slot_ok, dir_names, recover, ino. rewrite Hd, Hr. done.
Qed.
End whole.

(** C21.  [runscan] on a file system with 1 KiB blocks and one group whose [inodes] inodes are read off the image as ext2 lays them
    down (the super block, the group descriptor, the records of the inode table, block [b] at byte [1024 * b]), for which the blocks of the
    inodes from 1 to [inodes - 1] lie in the image, directory blocks hold 24 bytes, then packed entries, then zeros, and
    there are at most 10240 names, and whose table fills its blocks, 8 inodes in each, behind 128 bytes that do not look like a directory or a
    file (the program takes them for inode 0): it ends, and the output directory is what results from going through the inodes from 1 to
    [inodes - 1] in order and saving every regular file that has a block with a JPG signature, under its number and, if
    some directory entry names that number, under the first such name.  The program never looks at the last inode of the table. *)
Theorem runscan_recovers (img : image) (inodes table : Z) (ents : Z → list dirent) :
  let names := seqZ 1 (inodes - 1) ≫= dir_names img table ents in
  ext2_1k img inodes table → (∀ i, 1 <= i < inodes → slot_ok img table ents i) → (length names ≤ Z.to_nat 10240)%nat →
  runscan img = Ok (Some (foldl (recover img table names) ∅ (seqZ 1 (inodes - 1)))).
Proof.
  intros names Hx Hs Hcount. destruct (slot0 img inodes table ents Hx) as (Hs0 & Hn0 & Hr0). destruct (x_full _ _ _ Hx) as [Hpos H8].
  pose proof (x_len _ _ _ Hx). pose proof (x_place _ _ _ Hx). pose proof (Z.div_mod inodes 8).
  assert (∀ m, 0 <= m < 0 + Z.of_nat (Z.to_nat inodes) → 0 <= m < inodes ∧ slot_ok img table ents m) as Hs'.
  { intros m Hm. split; [lia|]. destruct (decide (m = 0)) as [->|Hne]; [done|]. apply Hs. lia. }
  assert (seqZ 0 (Z.of_nat (Z.to_nat inodes)) = 0 :: seqZ 1 (inodes - 1)) as Eseq.
  { rewrite Z2Nat.id, seqZ_cons by lia. reflexivity. }
  unfold runscan. rewrite (init_spec img inodes table Hx), bind_Ok. destruct (super_spec img inodes table Hx) as [sb ->]. rewrite bind_Ok.
  destruct (group_spec img inodes table Hx) as (group & -> & Et). rewrite bind_Ok. cbv zeta. rewrite Et. cbn [inodes_per_block itable_blocks g1k].
  replace (u32 (8 * (inodes / 8))) with inodes by (rewrite u32_small by (unfold is_u32; lia); lia).
  rewrite (dir_pass_spec img inodes table ents Hx _ 0 [] Hs'), bind_Ok by (rewrite Eseq; cbn [app]; rewrite bind_cons, Hn0; exact Hcount).
  rewrite (file_pass_spec img inodes table ents Hx _ _ 0 ∅ Hs'), bind_Ok. rewrite Eseq. cbn [app foldl]. by rewrite bind_cons, Hn0, Hr0.
Qed.

Definition demo_ents (b : Z) : list dirent := if b =? 6 then [Dirent 3 0 1 (of_string "a.jpg")] else [].

Lemma demo_1k : ext2_1k demo_image 8 5.
Proof.
  split; try (vm_compute; reflexivity).
  - refine (bool_decide_unpack _ _). vm_compute. exact I.
  - refine (bool_decide_unpack _ _). vm_compute. exact I.
  - by vm_compute.
  - done.
  - refine (bool_decide_unpack _ _). vm_compute. exact I.
  - split; vm_compute; reflexivity.
Qed.

Lemma demo_slot i : 1 <= i < 8 → slot_ok demo_image 5 demo_ents i.
Proof.
  intros Hi. assert (i = 1 ∨ i = 2 ∨ i = 3 ∨ i = 4 ∨ i = 5 ∨ i = 6 ∨ i = 7) as Hcases by lia. clear Hi.
  destruct Hcases as [->|[->|[->|[->|[->|[->| ->]]]]]]; (split; intros Hm); try (vm_compute in Hm; discriminate Hm).
  - split; [split; [done|apply (bool_decide_unpack _); vm_compute; exact I]|].
    assert (data_blocks demo_image (inode_of demo_image 5 2) = [6]) as -> by (vm_compute; reflexivity).
    constructor; [|constructor]. split.
    + constructor; [|constructor]. split; [cbn; lia|]. split; [apply (bool_decide_unpack _); vm_compute; exact I|cbn; lia].
    + exists (replicate 24 0). split; [done|]. split; [vm_compute; reflexivity|]. apply Nat.leb_le. vm_compute. reflexivity.
  - assert (inode_of demo_image 5 3 = demo_file) as -> by (vm_compute; reflexivity). exact demo_file_ok.
Qed.

(** C21 at the small image: the file is saved as file-3.jpg and as a.jpg. *)
Lemma runscan_recovers_witness :
  runscan demo_image = Ok (Some {[ inode_file 3 := demo_content; of_string "a.jpg" := demo_content ]}).
Proof.
  rewrite (runscan_recovers demo_image 8 5 demo_ents demo_1k demo_slot).
  - vm_compute. reflexivity.
  - apply Nat.leb_le. vm_compute. reflexivity.
Defined.

Lemma for_ptrs_fault {S} (f : Z → S → outcome S) a l st b :
  (∀ b st, f b st = Fault a) → b ∈ l → b ≠ 0 → for_ptrs f l st = Fault a.
Proof.
  intros Hf Hb Hne. revert st. induction l as [|x l IH]; intros st; [by apply not_elem_of_nil in Hb|].
  cbn [for_ptrs]. destruct (Z.eqb_spec x 0) as [->|Hx]; [|by rewrite Hf].
  apply elem_of_cons in Hb as [->|Hb]; [done|by apply IH].
Qed.

(** The program works for 1 KiB blocks only.  With them, [BLOCK_OFFSET] is the start of the block; with any larger
    block size it is not, and as soon as a directory has a direct block the first pass reads [block_size] bytes into a
    buffer of 1024. *)
Theorem only_1k_blocks (img : image) (g : globals) (b : Z) (inode : ext2_inode) (st : entries) :
  1 <= b → b * block_size g < 2 ^ 32 → b ∈ take EXT2_NDIR_BLOCKS (i_block inode) →
  (block_size g = 1024 → BLOCK_OFFSET g b = b * block_size g) ∧
  (1024 < block_size g → BLOCK_OFFSET g b ≠ b * block_size g ∧
     walk_blocks img g DEFAULT_BLOCK_SIZE (dir_block img g) inode st = Fault DEFAULT_BLOCK_SIZE).
Proof.
  intros Hb Hlt Hin.
  assert (1024 <= block_size g → BLOCK_OFFSET g b = 1024 + (b - 1) * block_size g) as Hoff.
  { intros Hge. unfold BLOCK_OFFSET, BASE_OFFSET. rewrite (u32_small (b - 1)) by (unfold is_u32; nia).
    rewrite (u32_small ((b - 1) * _)) by (unfold is_u32; nia). apply u32_small. unfold is_u32. nia. }
  split; [intros E; rewrite Hoff; lia|]. intros Hgt. split; [rewrite Hoff; lia|].
  unfold walk_blocks. rewrite (for_ptrs_fault _ DEFAULT_BLOCK_SIZE _ _ b); [done| |done|lia].
  intros b' st'. unfold dir_block, main_read. by rewrite (proj2 (Z.ltb_lt _ _)) by (unfold DEFAULT_BLOCK_SIZE; lia).
Qed.

(** That theorem at block 6 of a directory, with 4 KiB blocks. *)
Lemma only_1k_blocks_witness :
  BLOCK_OFFSET (Globals 4096 32 1 8192 1 32) 6 ≠ 6 * 4096 ∧
  walk_blocks demo_image (Globals 4096 32 1 8192 1 32) DEFAULT_BLOCK_SIZE
    (dir_block demo_image (Globals 4096 32 1 8192 1 32)) (Inode 16877 1024 (6 :: replicate 14 0)) [] = Fault DEFAULT_BLOCK_SIZE.
Proof.
  apply (only_1k_blocks demo_image (Globals 4096 32 1 8192 1 32) 6 (Inode 16877 1024 (6 :: replicate 14 0)) []).
  - lia.
  - cbn. lia.
  - apply list_elem_of_here.
  - cbn. lia.
Defined.
