(* ===== verification/Mysh.v ===== *)
(** The shell mysh (src/p2B/mysh.c): lines, redirection, aliases, commands.

    A string is the list of its bytes before the NUL.  [strtok] cuts a string in place and
    keeps a pointer to what is left: here it returns the token and the rest.  The
    alias list is a list of pairs, the newest first; its keys and values are copies ([strdup]).
    The shell's effects are events: what it writes, and the commands it runs: [Run argv file]
    is the [fork], the [execv] of [argv] in the child, with standard output on [file] if there
    is one, and the [waitpid] of the parent, which is taken to succeed.

    The interactive and the batch loop have the same body, [exec_line].  Array accesses past
    [toks[99]] are a [Fault]. *)

From Stdlib Require Import ZArith Lia.
From stdpp Require Import base numbers list gmap strings.
From S2P Require Import Prelude CStr.
#[local] Open Scope Z_scope.

Definition MAX_LENGTH : nat := 512.
Definition NTOKS : nat := 100.

Abbreviation aliases := (list (cstring * cstring)).

Inductive event :=
| Out (s : cstring)
| Err (s : cstring)
| Run (argv : list cstring) (file : option cstring).

(** [snprintf(buf, 512, ...)] keeps 511 characters. *)
Definition snprintf (s : cstring) : cstring := take (MAX_LENGTH - 1) s.

(** * The alias list *)

Fixpoint search (l : aliases) (k : cstring) : option cstring :=
  match l with
  | [] => None
  | (k', v) :: l' => if strcmp k' k =? 0 then Some v else search l' k
  end.

(** [result->value = value], on the node [search] has found. *)
Fixpoint update (l : aliases) (k v : cstring) : aliases :=
  match l with
  | [] => []
  | (k', v') :: l' => if strcmp k' k =? 0 then (k', v) :: l' else (k', v') :: update l' k v
  end.

Definition add (l : aliases) (k v : cstring) : aliases :=
  match search l k with Some _ => update l k v | None => (k, v) :: l end.

Fixpoint delete (l : aliases) (k : cstring) : aliases :=
  match l with
  | [] => []
  | (k', v) :: l' => if strcmp k' k =? 0 then l' else (k', v) :: delete l' k
  end.

Definition show (k v : cstring) : event := Out (snprintf (k ++ [32] ++ v ++ [10])).

Definition printall (l : aliases) : list event := (λ kv, show kv.1 kv.2) <$> l.

(** * strtok *)

(** Blank and tab. *)
Definition delim : list Z := [32; 9].
Definition is_delim (d : list Z) (c : Z) : bool := existsb (Z.eqb c) d.

Fixpoint skip_delims (d : list Z) (s : cstring) : cstring :=
  match s with [] => [] | c :: s' => if is_delim d c then skip_delims d s' else s end.

(** The token at the start of [s], and what follows the delimiter that ends it. *)
Fixpoint cut (d : list Z) (s : cstring) : cstring * cstring :=
  match s with
  | [] => ([], [])
  | c :: s' => if is_delim d c then ([], s') else let '(t, r) := cut d s' in (c :: t, r)
  end.

Definition strtok (s : cstring) (d : list Z) : option (cstring * cstring) :=
  match skip_delims d s with [] => None | s1 => Some (cut d s1) end.

(** [while (token != NULL) { *next++ = token; token = strtok(NULL, delim); }]; each token takes a byte. *)
Fixpoint tokens_loop (s : cstring) (fuel : nat) : list cstring :=
  match fuel with
  | O => []
  | S f => match strtok s delim with None => [] | Some (t, r) => t :: tokens_loop r f end
  end.

Definition tokens (s : cstring) : list cstring := tokens_loop s (length s).

(** [strchr(s, c)]: the bytes before the first [c] and those after it. *)
Fixpoint strchr (s : cstring) (c : Z) : option (cstring * cstring) :=
  match s with
  | [] => None
  | x :: s' =>
      if x =? c then Some ([], s')
      else match strchr s' c with Some (a, b) => Some (x :: a, b) | None => None end
  end.

(** * One line *)

Definition misformatted : event := Err (of_string "Redirection misformatted.
").
Definition bad_unalias : event := Out (of_string "unalias: Incorrect number of arguments.
").

(** The part about ['>']: [None] if the line is refused, else the command and the file.  The first
    [strtok] on the half behind ['>'] has put a NUL behind the file name. *)
Definition redirect (input : cstring) : outcome (option (cstring * option cstring)) :=
  match strchr input 62 with
  | None => Ok (Some (input, None))
  | Some (before, redirHalf) =>
      match strchr redirHalf 62 with
      | Some _ => Ok None
      | None =>
          match strtok redirHalf delim with
          | None => Ok None
          | Some (filename, rest) =>
              match strtok rest delim with
              | Some _ => Ok None
              | None =>
                  let blanks := take (length redirHalf - length (skip_delims delim redirHalf)) redirHalf in
                  match strtok (before ++ [62] ++ blanks ++ filename) delim with
                  | None => Fault 0
                  | Some (token, _) =>
                      if strcmp token [62] =? 0 then Ok None else Ok (Some (before, Some filename))
                  end
              end
          end
      end
  end.

(** The result: the aliases, the events, and whether the shell exits. *)
Definition exec_cmd (a : aliases) (input : cstring) (filename : option cstring)
    : outcome (aliases * list event * bool) :=
  match strtok input delim with
  | None => Ok (a, [], false)
  | Some (token, rest) =>
      if strcmp token (of_string "exit") =? 0 then Ok (a, [], true)
      else if strcmp token [62] =? 0 then Ok (a, [misformatted], false)
      else if strcmp token (of_string "alias") =? 0 then
        match strtok rest delim with
        | None => Ok (a, printall a, false)
        | Some (key, rest1) =>
            match strtok rest1 [] with
            | None => Ok (a, match search a key with Some v => [show key v] | None => [] end, false)
            | Some (value, _) => Ok (add a key value, [], false)
            end
        end
      else if strcmp token (of_string "unalias") =? 0 then
        match strtok rest delim with
        | None => Ok (a, [bad_unalias], false)
        | Some (key, rest1) =>
            match strtok rest1 [] with
            | Some _ => Ok (a, [bad_unalias], false)
            | None => Ok (delete a key, [], false)
            end
        end
      else
        let toks :=
          match search a token with
          | None => token :: tokens rest
          | Some v =>
              match strtok rest [] with
              | None => tokens (snprintf v)
              | Some (key, _) => tokens (snprintf (v ++ [32] ++ key))
              end
          end in
        if (NTOKS <=? length toks)%nat then Fault (Z.of_nat (length toks))
        else Ok (a, [Run toks filename], false)
  end.

Definition exec_line (a : aliases) (input : cstring) : outcome (aliases * list event * bool) :=
  r ← redirect input;
  match r with
  | None => Ok (a, [misformatted], false)
  | Some (cmd, filename) => exec_cmd a cmd filename
  end.

(** * The loops *)

(** [fgets(input, n + 1, fp)]: at most [n] characters, up to and with the newline; then the newline is
    cut off ([input[strcspn(input, newline)] = 0]). *)
Fixpoint fgets (n : nat) (fp : list Z) : list Z * list Z :=
  match n, fp with
  | O, _ | _, [] => ([], fp)
  | S n', c :: fp' => if c =? 10 then ([], fp') else let '(l, r) := fgets n' fp' in (c :: l, r)
  end.

(** What the string functions see of a buffer: the bytes before the first NUL. *)
Fixpoint before_nul (l : list Z) : cstring :=
  match l with [] => [] | c :: l' => if c =? 0 then [] else c :: before_nul l' end.

(** A line of the file, which may hold NUL bytes: [fgets] reads past them, [strcspn] and all that follows stop at the first. *)
Definition read_line (fp : list Z) : option (cstring * list Z) :=
  match fp with [] => None | _ => let '(l, r) := fgets (MAX_LENGTH - 1) fp in Some (before_nul l, r) end.

(** The batch loop on what is left of the file; every round reads a byte or ends.  The result is what
    the shell has done when it exits. *)
Fixpoint batch_loop (a : aliases) (fp : cstring) (fuel : nat) : outcome (aliases * list event) :=
  match fuel with
  | O => NoFuel
  | S f =>
      match read_line fp with
      | None => Ok (a, [])
      | Some (input, fp1) =>
          '(a1, ev, quit) ← exec_line a input;
          if (quit : bool) then Ok (a1, Out (input ++ [10]) :: ev)
          else '(a2, ev2) ← batch_loop a1 fp1 f; Ok (a2, Out (input ++ [10]) :: ev ++ ev2)
      end
  end.

Definition batch (fp : cstring) : outcome (aliases * list event) := batch_loop [] fp (S (length fp)).

(** The interactive loop on what the user types. *)
Fixpoint interactive_loop (a : aliases) (stdin : cstring) (fuel : nat) : outcome (aliases * list event) :=
  match fuel with
  | O => NoFuel
  | S f =>
      let prompt := Out (of_string "mysh> ") in
      match read_line stdin with
      | None => Ok (a, [prompt])
      | Some (input, stdin1) =>
          '(a1, ev, quit) ← exec_line a input;
          if (quit : bool) then Ok (a1, prompt :: ev)
          else '(a2, ev2) ← interactive_loop a1 stdin1 f; Ok (a2, prompt :: ev ++ ev2)
      end
  end.

Definition interactive (stdin : cstring) : outcome (aliases * list event) :=
  interactive_loop [] stdin (S (length stdin)).

(** [main] by its arguments: too many, none, or a batch file ([None]: it cannot be opened). *)
Definition main (argc : Z) (argv1 : cstring) (stdin : cstring) (file : option cstring) : outcome (aliases * list event) :=
  if 2 <? argc then Ok ([], [Err (of_string "Usage: mysh [batch-file]
")])
  else if argc =? 1 then interactive stdin
  else
    match file with
    | None => Ok ([], [Err (snprintf (of_string "Error: Cannot open file " ++ argv1 ++ of_string ".
"))])
    | Some fp => batch fp
    end.

Example batch_demo :
  batch (of_string "alias ll /bin/ls -l
ll /tmp > out
") = Ok ([(of_string "ll", of_string "/bin/ls -l")],
       [Out (of_string "alias ll /bin/ls -l
"); Out (of_string "ll /tmp > out
"); Run [of_string "/bin/ls"; of_string "-l"; of_string "/tmp"] (Some (of_string "out"))]).
Proof. vm_compute. reflexivity. Qed.

(** * Words and tokens *)

(** A character of a word: no blank, tab, newline or ['>']. *)
Definition word_char (c : Z) : Prop := is_char c ∧ c ≠ 32 ∧ c ≠ 9 ∧ c ≠ 10 ∧ c ≠ 62.
Definition word_ok (w : cstring) : Prop := w ≠ [] ∧ Forall word_char w.

#[export] Instance word_ok_dec w : Decision (word_ok w).
Proof. unfold word_ok, word_char. apply _. Defined.

Lemma word_str_ok w : word_ok w → str_ok w.
Proof. intros [_ Hw]. eapply Forall_impl; [exact Hw|]. by intros c [Hc _]. Qed.

Lemma word_char_delim c : word_char c → is_delim delim c = false.
Proof.
  intros (_ & H1 & H2 & _). unfold is_delim, delim. cbn [existsb].
  by rewrite (proj2 (Z.eqb_neq c 32)), (proj2 (Z.eqb_neq c 9)) by done.
Qed.

Lemma cut_word w r : Forall word_char w → cut delim (w ++ 32 :: r) = (w, r).
Proof. induction 1 as [|c w Hc _ IH]; cbn [cut app]; [done|]. by rewrite (word_char_delim c Hc), IH. Qed.

Lemma cut_word_end w : Forall word_char w → cut delim w = (w, []).
Proof. induction 1 as [|c w Hc _ IH]; cbn [cut]; [done|]. by rewrite (word_char_delim c Hc), IH. Qed.

Lemma skip_word w r : word_ok w → skip_delims delim (w ++ r) = w ++ r.
Proof. intros [Hne Hw]. destruct Hw as [|c w Hc _]; [done|]. cbn [skip_delims app]. by rewrite (word_char_delim c Hc). Qed.

Lemma strtok_word w r : word_ok w → strtok (w ++ 32 :: r) delim = Some (w, r).
Proof.
  intros Hw. unfold strtok. rewrite skip_word by done. destruct Hw as [Hne Hw].
  destruct w as [|c w]; [done|]. cbn [app]. change (c :: w ++ 32 :: r) with ((c :: w) ++ 32 :: r). by rewrite cut_word.
Qed.

Lemma strtok_word_end w : word_ok w → strtok w delim = Some (w, []).
Proof.
  intros Hw. unfold strtok. rewrite <- (app_nil_r w) at 1. rewrite skip_word, app_nil_r by done.
  destruct Hw as [Hne Hw]. destruct w as [|c w]; [done|]. by rewrite cut_word_end.
Qed.

(** The words with a blank between each two, and a blank at the end if [sp]. *)
Fixpoint join (ws : list cstring) (sp : bool) : cstring :=
  match ws with
  | [] => []
  | [w] => w ++ (if sp then [32] else [])
  | w :: ws' => w ++ 32 :: join ws' sp
  end.

Lemma strtok_join w ws sp : word_ok w → strtok (join (w :: ws) sp) delim = Some (w, join ws sp).
Proof.
  intros Hw. destruct ws as [|w2 ws]; cbn [join].
  - destruct sp; [by apply strtok_word|]. by rewrite app_nil_r, strtok_word_end.
  - by apply strtok_word.
Qed.

Lemma length_join ws sp : Forall word_ok ws → (length ws ≤ length (join ws sp))%nat.
Proof.
  induction 1 as [|w ws Hw _ IH]; [done|]. destruct Hw as [Hne _]. destruct w as [|c w]; [done|].
  destruct ws as [|w2 ws]; [cbn; lia|].
  change (join ((c :: w) :: w2 :: ws) sp) with ((c :: w) ++ 32 :: join (w2 :: ws) sp).
  rewrite length_app. cbn [length] in *. lia.
Qed.

Lemma tokens_loop_join ws sp fuel : Forall word_ok ws → (length ws ≤ fuel)%nat → tokens_loop (join ws sp) fuel = ws.
Proof.
  intros Hws. revert fuel. induction Hws as [|w ws Hw Hws IH]; intros fuel Hf; [by destruct fuel|].
  destruct fuel as [|fuel]; [simpl in Hf; lia|]. cbn [tokens_loop]. rewrite strtok_join by done. f_equal.
  apply IH. simpl in Hf. lia.
Qed.

Lemma tokens_join ws sp : Forall word_ok ws → tokens (join ws sp) = ws.
Proof. intros Hws. apply tokens_loop_join; [done|]. by apply length_join. Qed.

Lemma join_no_gt ws sp : Forall word_ok ws → Forall (λ c, c ≠ 62) (join ws sp).
Proof.
  assert (∀ w, word_ok w → Forall (λ c, c ≠ 62) w) as Hno.
  { intros w [_ Hw]. eapply Forall_impl; [exact Hw|]. by intros c (_ & _ & _ & _ & ?). }
  induction 1 as [|w ws Hw _ IH]; [constructor|]. destruct ws as [|w2 ws]; cbn [join].
  - apply Forall_app. split; [by apply Hno|]. destruct sp; by repeat constructor.
  - apply Forall_app. split; [by apply Hno|]. by constructor.
Qed.

Lemma strchr_none s c : Forall (λ x, x ≠ c) s → strchr s c = None.
Proof. induction 1 as [|x s Hx _ IH]; cbn; [done|]. by rewrite (proj2 (Z.eqb_neq _ _) Hx), IH. Qed.

Lemma strchr_some s c r : Forall (λ x, x ≠ c) s → strchr (s ++ c :: r) c = Some (s, r).
Proof.
  induction 1 as [|x s Hx _ IH]; cbn; [by rewrite Z.eqb_refl|]. by rewrite (proj2 (Z.eqb_neq _ _) Hx), IH.
Qed.

(** * Command lines *)

(** [w1 w2 ... > file] *)
Definition line_of (ws : list cstring) (file : option cstring) : cstring :=
  match file with None => join ws false | Some f => join ws true ++ [62; 32] ++ f end.

Lemma strcmp_ne p q : str_ok p → str_ok q → p ≠ q → (strcmp p q =? 0) = false.
Proof. intros Hp Hq Hne. apply Z.eqb_neq. rewrite strcmp_eq by done. done. Qed.

Lemma redirect_line w ws file : Forall word_ok (w :: ws) → (∀ f, file = Some f → word_ok f) →
  redirect (line_of (w :: ws) file) = Ok (Some (join (w :: ws) (match file with Some _ => true | None => false end), file)).
Proof.
  intros Hws Hf. unfold redirect, line_of. destruct file as [f|].
  - specialize (Hf f eq_refl). pose proof (join_no_gt _ true Hws) as Hno.
    change ([62; 32] ++ f) with (62 :: 32 :: f). rewrite strchr_some by done. pose proof (join_no_gt [f] false ltac:(by constructor)) as Hfno.
    cbn [join] in Hfno. rewrite app_nil_r in Hfno. rewrite strchr_none by (by constructor).
    change (strtok (32 :: f) delim) with (strtok f delim). rewrite strtok_word_end by done.
    change (strtok [] delim) with (@None (cstring * cstring)). cbv iota zeta.
    apply Forall_cons in Hws as [Hw Hws].
    assert (∃ r, strtok (join (w :: ws) true ++ [62] ++ take (length (32 :: f) - length (skip_delims delim (32 :: f))) (32 :: f) ++ f) delim
      = Some (w, r)) as [r E].
    { destruct ws as [|w2 ws]; cbn [join]; rewrite <- app_assoc; eexists; by apply strtok_word. }
    rewrite E, strcmp_ne; [done|by apply word_str_ok|by repeat constructor|].
    intros ->. destruct Hw as [_ Hw]. apply Forall_cons in Hw as [(_ & _ & _ & _ & ?) _]. done.
  - by rewrite strchr_none by (by apply join_no_gt).
Qed.

Definition builtins : list cstring := [of_string "exit"; of_string "alias"; of_string "unalias"].

(** A word that is neither a builtin nor ['>'] is taken for a command. *)
Lemma exec_cmd_word a w ws sp file : word_ok w → w ∉ builtins → Forall word_ok ws → search a w = None →
  exec_cmd a (join (w :: ws) sp) file =
    if (NTOKS <=? length (w :: ws))%nat then Fault (Z.of_nat (length (w :: ws)))
    else Ok (a, [Run (w :: ws) file], false).
Proof.
  intros Hw Hb Hws Hs. unfold exec_cmd. rewrite strtok_join by done.
  assert (∀ b, b ∈ builtins → (strcmp w b =? 0) = false) as Hne.
  { intros b Hb'. apply strcmp_ne; [by apply word_str_ok| |by intros ->].
    assert (Forall str_ok builtins) as Hok by (apply (bool_decide_unpack _); vm_compute; exact I).
    by eapply Forall_forall in Hok. }
  rewrite (Hne (of_string "exit")), (Hne (of_string "alias")), (Hne (of_string "unalias")) by (unfold builtins; set_solver).
  assert ((strcmp w [62] =? 0) = false) as ->.
  { apply strcmp_ne; [by apply word_str_ok|by repeat constructor|]. intros ->. destruct Hw as [_ Hw].
    apply Forall_cons in Hw as [(_ & _ & _ & _ & ?) _]. done. }
  by rewrite Hs, tokens_join.
Qed.

(** C22.  A command line survives the parser: for words without blanks and ['>'], the first neither a builtin nor an
    alias, and an optional file, the line [w1 w2 ... > file] runs exactly these words with output to that file; and
    from 100 words on, the shell writes past its array of tokens. *)
Theorem command_line_roundtrip (a : aliases) (w : cstring) (ws : list cstring) (file : option cstring) :
  Forall word_ok (w :: ws) → (∀ f, file = Some f → word_ok f) → w ∉ builtins → search a w = None →
  exec_line a (line_of (w :: ws) file) =
    if (NTOKS <=? length (w :: ws))%nat then Fault (Z.of_nat (length (w :: ws)))
    else Ok (a, [Run (w :: ws) file], false).
Proof.
  intros Hws Hf Hb Hs. unfold exec_line. rewrite redirect_line, bind_Ok by done.
  apply Forall_cons in Hws as [Hw Hws]. by apply exec_cmd_word.
Qed.

(** C22 at [/bin/ls -l > out]. *)
Lemma command_line_roundtrip_witness :
  exec_line [] (of_string "/bin/ls -l > out") =
    Ok ([], [Run [of_string "/bin/ls"; of_string "-l"] (Some (of_string "out"))], false).
Proof.
  apply (command_line_roundtrip [] (of_string "/bin/ls") [of_string "-l"] (Some (of_string "out"))).
  - apply (bool_decide_unpack _). vm_compute. exact I.
  - intros f [= <-]. apply (bool_decide_unpack _). vm_compute. exact I.
  - apply (bool_decide_unpack _). vm_compute. exact I.
  - reflexivity.
Defined.

(** * Aliases as a map *)

(** The list stands for the map: no key twice, [search] is lookup. *)
Record alias_ok (l : aliases) (m : gmap cstring cstring) : Prop := {
  ao_str : Forall (λ kv, str_ok kv.1) l;
  ao_nodup : NoDup l.*1;
  ao_map : m = list_to_map l }.

Lemma alias_search l m k : alias_ok l m → str_ok k → search l k = m !! k.
Proof.
  intros [Hs _ ->] Hk. induction l as [|[k' v] l IH]; cbn [search]; [done|].
  apply Forall_cons in Hs as [Hk' Hs]. rewrite strcmp_neg_eq by done. cbn [list_to_map foldr fst snd].
  case_bool_decide as E; [subst; by rewrite lookup_insert_eq|]. rewrite lookup_insert_ne by done. by apply IH.
Qed.

Lemma update_keys l k v : (update l k v).*1 = l.*1.
Proof.
  induction l as [|[k' v'] l IH]; cbn [update]; [done|]. destruct (strcmp k' k =? 0); csimpl; [done|]. by rewrite IH.
Qed.

Lemma update_map l k v : Forall (λ kv, str_ok kv.1) l → NoDup l.*1 → str_ok k → k ∈ l.*1 →
  list_to_map (update l k v) = <[k := v]> (list_to_map l : gmap cstring cstring).
Proof.
  intros Hs Hnd Hk Hin. induction l as [|[k' v'] l IH]; [by apply not_elem_of_nil in Hin|].
  apply Forall_cons in Hs as [Hk' Hs]. csimpl in *. apply NoDup_cons in Hnd as [Hk'l Hnd]. cbn [update].
  rewrite strcmp_neg_eq by done. case_bool_decide as E; cbn [list_to_map foldr fst snd].
  - subst. by rewrite insert_insert_eq.
  - rewrite IH; [by rewrite insert_insert_ne|done..|]. apply elem_of_cons in Hin as [->|Hin]; done.
Qed.

Lemma alias_add l m k v : alias_ok l m → str_ok k → alias_ok (add l k v) (<[k := v]> m).
Proof.
  intros Ha Hk. pose proof (alias_search l m k Ha Hk) as Hsearch. destruct Ha as [Hs Hnd ->]. unfold add. rewrite Hsearch.
  destruct (list_to_map l !! k) as [v0|] eqn:E.
  - assert (k ∈ l.*1) as Hin.
    { apply elem_of_list_to_map_2 in E. by apply (list_elem_of_fmap_2 fst) in E. }
    split; [|by rewrite update_keys|by rewrite update_map].
    clear -Hs. induction l as [|[k' v'] l IH]; cbn [update]; [done|]. apply Forall_cons in Hs as [? ?].
    destruct (_ =? 0); constructor; auto.
  - apply not_elem_of_list_to_map in E. split; [by constructor|csimpl; by apply NoDup_cons|done].
Qed.

Lemma delete_subset l k kv : kv ∈ delete l k → kv ∈ l.
Proof.
  induction l as [|[k' v'] l IH]; cbn [delete]; [done|]. destruct (_ =? 0); [by right|].
  rewrite !elem_of_cons. naive_solver.
Qed.

Lemma alias_delete l m k : alias_ok l m → str_ok k → alias_ok (delete l k) (base.delete k m).
Proof.
  intros [Hs Hnd ->] Hk. split.
  - rewrite Forall_forall in Hs |- *. intros kv Hkv. by apply Hs, (delete_subset l k).
  - clear Hs. induction l as [|[k' v'] l IH]; cbn [delete]; [done|]. csimpl in *. apply NoDup_cons in Hnd as [Hk' Hnd].
    destruct (_ =? 0); [done|]. csimpl. apply NoDup_cons. split; [|by apply IH].
    intros (kv & -> & Hkv)%list_elem_of_fmap. apply Hk', list_elem_of_fmap_2. by apply (delete_subset l k).
  - induction l as [|[k' v'] l IH]; cbn [delete]; [apply delete_empty|].
    apply Forall_cons in Hs as [Hk' Hs]. csimpl in *. apply NoDup_cons in Hnd as [Hkl Hnd].
    rewrite strcmp_neg_eq by done. cbn [list_to_map foldr fst snd]. case_bool_decide as E.
    + subst. rewrite delete_insert_eq, delete_id; [done|]. by apply not_elem_of_list_to_map_1.
    + rewrite delete_insert_ne by done. cbn [list_to_map foldr fst snd]. by rewrite IH.
Qed.

(** * Scripts of alias commands *)

Inductive alias_op := Alias (k v : cstring) | Unalias (k : cstring).

Definition op_line (o : alias_op) : cstring :=
  match o with
  | Alias k v => of_string "alias" ++ 32 :: k ++ 32 :: v
  | Unalias k => of_string "unalias" ++ 32 :: k
  end.

(** Keys are words; a value is any string without ['>'] and newline. *)
Definition op_ok (o : alias_op) : Prop :=
  match o with
  | Alias k v => word_ok k ∧ v ≠ [] ∧ Forall (λ c, is_char c ∧ c ≠ 62 ∧ c ≠ 10) v
  | Unalias k => word_ok k
  end ∧ (length (op_line o) < MAX_LENGTH - 1)%nat.

Definition apply_op (m : gmap cstring cstring) (o : alias_op) : gmap cstring cstring :=
  match o with Alias k v => <[k := v]> m | Unalias k => base.delete k m end.

Definition script (ops : list alias_op) : cstring := ops ≫= λ o, op_line o ++ [10].

Lemma cut_nothing s : cut [] s = (s, []).
Proof. induction s as [|c s IH]; cbn [cut is_delim existsb]; [done|]. by rewrite IH. Qed.

Lemma strtok_all s : strtok s [] = match s with [] => None | _ => Some (s, []) end.
Proof. unfold strtok. destruct s as [|c s]; [done|]. cbn [skip_delims is_delim existsb]. by rewrite cut_nothing. Qed.

Lemma alias_word : word_ok (of_string "alias") ∧ word_ok (of_string "unalias").
Proof. split; apply (bool_decide_unpack _); vm_compute; exact I. Qed.

Lemma op_line_chars o : op_ok o → Forall (λ c, is_char c ∧ c ≠ 62 ∧ c ≠ 10) (op_line o).
Proof.
  assert (∀ w, word_ok w → Forall (λ c, is_char c ∧ c ≠ 62 ∧ c ≠ 10) w) as Hw.
  { intros w [_ Hw]. eapply Forall_impl; [exact Hw|]. intros c (? & _ & _ & ? & ?). done. }
  destruct alias_word as [Ha Hu]. intros [Ho _]. destruct o as [k v|k]; cbn [op_line].
  - destruct Ho as (Hk & _ & Hv). apply Forall_app. split; [by apply Hw|]. constructor; [done|].
    apply Forall_app. split; [by apply Hw|]. by constructor.
  - apply Forall_app. split; [by apply Hw|]. constructor; [done|]. by apply Hw.
Qed.

Lemma exec_op a o : op_ok o → exec_line a (op_line o) =
  Ok (match o with Alias k v => add a k v | Unalias k => delete a k end, [], false).
Proof.
  intros Hok. pose proof (op_line_chars o Hok) as Hc. unfold exec_line, redirect.
  rewrite strchr_none by (eapply Forall_impl; [exact Hc|]; by intros c (_ & ? & _)). rewrite bind_Ok. destruct alias_word as [Ha Hu].
  unfold exec_cmd. destruct Hok as [Hok _]. destruct o as [k v|k]; cbn [op_line].
  - destruct Hok as (Hk & Hv & _). rewrite strtok_word by done.
    change (strcmp (of_string "alias") (of_string "exit") =? 0) with false.
    change (strcmp (of_string "alias") [62] =? 0) with false.
    change (strcmp (of_string "alias") (of_string "alias") =? 0) with true. cbv iota.
    rewrite strtok_word by done. rewrite strtok_all. by destruct v.
  - rewrite strtok_word by done.
    change (strcmp (of_string "unalias") (of_string "exit") =? 0) with false.
    change (strcmp (of_string "unalias") [62] =? 0) with false.
    change (strcmp (of_string "unalias") (of_string "alias") =? 0) with false.
    change (strcmp (of_string "unalias") (of_string "unalias") =? 0) with true. cbv iota.
    by rewrite strtok_word_end by done.
Qed.

Lemma fgets_line n l r : Forall (λ c, c ≠ 10) l → (length l < n)%nat → fgets n (l ++ 10 :: r) = (l, r).
Proof.
  intros Hl. revert n. induction Hl as [|c l Hc _ IH]; intros n Hn; (destruct n as [|n]; [simpl in Hn; lia|]); cbn [fgets app].
  - done.
  - rewrite (proj2 (Z.eqb_neq _ _) Hc), IH by (simpl in Hn; lia). done.
Qed.

Lemma before_nul_ok l : str_ok l → before_nul l = l.
Proof. induction 1 as [|c l Hc _ IH]; simpl; [done|]. destruct (Z.eqb_spec c 0); [unfold is_char in *; lia|by rewrite IH]. Qed.

Lemma read_op o r : op_ok o → read_line ((op_line o ++ [10]) ++ r) = Some (op_line o, r).
Proof.
  intros Hok. rewrite <- app_assoc. change ([10] ++ r) with (10 :: r).
  unfold read_line. rewrite fgets_line; [|eapply Forall_impl; [by apply op_line_chars|by intros c (_ & _ & ?)]|apply Hok].
  rewrite before_nul_ok by (eapply Forall_impl; [by apply op_line_chars|by intros c [? _]]). by destruct (op_line o).
Qed.

Lemma batch_ops ops : ∀ a m fuel, Forall op_ok ops → alias_ok a m → (length ops < fuel)%nat →
  ∃ a', batch_loop a (script ops) fuel = Ok (a', (λ o, Out (op_line o ++ [10])) <$> ops) ∧
    alias_ok a' (foldl apply_op m ops).
Proof.
  induction ops as [|o ops IH]; intros a m fuel Hops Ha Hf; (destruct fuel as [|fuel]; [lia|]); cbn [batch_loop].
  { exists a. done. }
  apply Forall_cons in Hops as [Ho Hops]. unfold script. rewrite bind_cons, read_op, exec_op, bind_Ok by done. fold (script ops).
  assert (alias_ok (match o with Alias k v => add a k v | Unalias k => delete a k end) (apply_op m o)) as Ha1.
  { destruct Ho as [Ho _]. destruct o as [k v|k]; [apply alias_add|apply alias_delete]; try done; by apply word_str_ok, Ho. }
  destruct (IH _ _ fuel Hops Ha1) as (a' & E & Ha'); [simpl in Hf; lia|]. rewrite E, bind_Ok. by exists a'.
Qed.

Lemma script_length ops : (length ops ≤ length (script ops))%nat.
Proof.
  induction ops as [|o ops IH]; [done|]. unfold script. rewrite bind_cons, !length_app. fold (script ops). simpl. lia.
Qed.

(** C23.  A batch file of [alias] and [unalias] lines (keys are words, values non-empty strings without ['>'] and newline, lines of at most 510 characters)
    ends normally, echoes every line, and leaves an alias list that is the
    map these lines describe: no key twice, a later [alias] replaces the value, [unalias] removes the key, and
    [search] finds exactly the keys of the map. *)
Theorem batch_aliases_refine_map (ops : list alias_op) :
  Forall op_ok ops →
  ∃ a, batch (script ops) = Ok (a, (λ o, Out (op_line o ++ [10])) <$> ops) ∧
    NoDup a.*1 ∧ ∀ k, str_ok k → search a k = foldl apply_op ∅ ops !! k.
Proof.
  intros Hops. destruct (batch_ops ops [] ∅ (S (length (script ops))) Hops) as (a & E & Ha).
  - split; [done|constructor|done].
  - pose proof (script_length ops). lia.
  - exists a. split; [exact E|]. split; [apply Ha|]. intros k Hk. by apply alias_search.
Qed.

(** C23 at a script that defines, redefines and removes. *)
Lemma batch_aliases_refine_map_witness :
  let ops := [Alias (of_string "ll") (of_string "/bin/ls -l"); Alias (of_string "x") (of_string "y"); Unalias (of_string "ll")] in
  ∃ a, batch (script ops) = Ok (a, (λ o, Out (op_line o ++ [10])) <$> ops) ∧
    NoDup a.*1 ∧ ∀ k, str_ok k → search a k = foldl apply_op ∅ ops !! k.
Proof.
  apply batch_aliases_refine_map. repeat constructor; try (apply (bool_decide_unpack _); vm_compute; exact I); done.
Defined.
