(* ===== verification/Bio.v ===== *)
(** The buffer cache (src/p4/bio.c) over the IDE disk (src/p4/ide.c).

    [bufs] is the array of buffers and [mru] the order of the list threaded through them, the
    most recently used first.  A buffer is named by its index.  The model is one
    process: [acquiresleep] on a buffer that is held is a [Fault] (the process would sleep
    forever), and holding a buffer is its [locked] flag.  The second disk is present.  [iderw]
    is one step here, until the disk has done the request; the queue of requests and the interrupt
    handler that serves it are in Ide.v, which proves that they come to this.  [trace] records the blocks written to the disk, in
    order; the write of one block is atomic.

    [BufOps] and [BufLaws] are what the cache promises to the log; [bio_laws] proves it.
    The laws speak of blocks of [ROOTDEV], the only device the kernel uses: the disk itself looks
    at the low bit of the device number only. *)

From Stdlib Require Import ZArith Lia.
From stdpp Require Import base numbers list gmap fin_sets sets strings.
From S2P Require Import Prelude.
#[local] Open Scope Z_scope.

Definition NBUF : nat := 30.
Definition FSSIZE : Z := 1000.
Definition BSIZE : nat := 512.

(** A disk block: device and block number; its content is a list of [BSIZE] bytes. *)
Abbreviation bkey := (Z * Z)%type.
Abbreviation block := (list Z).

Record buf := Buf {
  b_key : bkey; valid : bool; dirty : bool; locked : bool; refcnt : nat; data : block }.

Definition set_key (k : bkey) (b : buf) : buf := Buf k (valid b) (dirty b) (locked b) (refcnt b) (data b).
Definition set_valid (x : bool) (b : buf) : buf := Buf (b_key b) x (dirty b) (locked b) (refcnt b) (data b).
Definition set_dirty (x : bool) (b : buf) : buf := Buf (b_key b) (valid b) x (locked b) (refcnt b) (data b).
Definition set_locked (x : bool) (b : buf) : buf := Buf (b_key b) (valid b) (dirty b) x (refcnt b) (data b).
Definition set_refcnt (n : nat) (b : buf) : buf := Buf (b_key b) (valid b) (dirty b) (locked b) n (data b).
Definition set_data (d : block) (b : buf) : buf := Buf (b_key b) (valid b) (dirty b) (locked b) (refcnt b) d.

Abbreviation disk_map := (gmap (Z * Z) (list Z)).

Record bcache := BCache {
  bufs : list buf; mru : list nat; disk : disk_map; trace : list (bkey * block) }.

Definition upd (i : nat) (f : buf → buf) (c : bcache) : bcache :=
  BCache (alter f i (bufs c)) (mru c) (disk c) (trace c).
Definition set_mru (l : list nat) (c : bcache) : bcache := BCache (bufs c) l (disk c) (trace c).

Definition getbuf (c : bcache) (i : nat) : outcome buf :=
  match bufs c !! i with Some b => Ok b | None => Fault (Z.of_nat i) end.

(** [binit]: each buffer goes to the head of the list. *)
Definition binit (d : disk_map) : bcache :=
  BCache (replicate NBUF (Buf (0, 0) false false false 0 (replicate BSIZE 0))) (reverse (seq 0 NBUF)) d [].

Definition acquiresleep (c : bcache) (i : nat) : outcome bcache :=
  b ← getbuf c i; if locked b then Fault (Z.of_nat i) else Ok (upd i (set_locked true) c).

(** [for(b = ...; b != &bcache.head; ...)] *)
Fixpoint scan (c : bcache) (p : buf → bool) (l : list nat) : outcome (option nat) :=
  match l with
  | [] => Ok None
  | i :: l' => b ← getbuf c i; if p b then Ok (Some i) else scan c p l'
  end.

Definition same_block (k : bkey) (b : buf) : bool := ((b_key b).1 =? k.1) && ((b_key b).2 =? k.2).
Definition unused (b : buf) : bool := (refcnt b =? 0)%nat && negb (dirty b).

Definition bget (c : bcache) (k : bkey) : outcome (nat * bcache) :=
  r ← scan c (same_block k) (mru c);
  match r with
  | Some i => c1 ← acquiresleep (upd i (λ b, set_refcnt (S (refcnt b)) b) c) i; Ok (i, c1)
  | None =>
      r ← scan c unused (reverse (mru c));
      match r with
      | Some i =>
          let c1 := upd i (λ b, set_refcnt 1 (set_dirty false (set_valid false (set_key k b)))) c in
          c2 ← acquiresleep c1 i; Ok (i, c2)
      | None => Panic "bget: no buffers"
      end
  end.

(** The request [iderw] hands to the disk, with the tests of [idestart]. *)
Definition iderw (c : bcache) (i : nat) : outcome bcache :=
  b ← getbuf c i;
  if negb (locked b) then Panic "iderw: buf not locked"
  else if valid b && negb (dirty b) then Panic "iderw: nothing to do"
  else if FSSIZE <=? (b_key b).2 then Panic "incorrect blockno"
  else if dirty b then
    let c1 := upd i (λ b, set_dirty false (set_valid true b)) c in
    Ok (BCache (bufs c1) (mru c1) (<[b_key b := data b]> (disk c1)) (trace c1 ++ [(b_key b, data b)]))
  else Ok (upd i (λ b, set_valid true (set_data (disk c !!! b_key b) b)) c).

Definition bread (c : bcache) (k : bkey) : outcome (nat * bcache) :=
  '(i, c1) ← bget c k;
  b ← getbuf c1 i;
  if negb (valid b) then c2 ← iderw c1 i; Ok (i, c2) else Ok (i, c1).

Definition bwrite (c : bcache) (i : nat) : outcome bcache :=
  b ← getbuf c i;
  if negb (locked b) then Panic "bwrite" else iderw (upd i (set_dirty true) c) i.

Definition move_front (i : nat) (l : list nat) : list nat := i :: filter (λ j, j ≠ i) l.

Definition brelse (c : bcache) (i : nat) : outcome bcache :=
  b ← getbuf c i;
  if negb (locked b) then Panic "brelse"
  else
    let c1 := upd i (λ b, set_refcnt (refcnt b - 1) (set_locked false b)) c in
    if (refcnt b - 1 =? 0)%nat then Ok (set_mru (move_front i (mru c1)) c1) else Ok c1.

(** * What the cache promises

    [view] is what a reader of the cache sees, [dsk] what is on the disk, [held] the buffers that
    are locked with their blocks, [pins] the blocks marked dirty by the log. *)

Record cabs := CAbs { view : disk_map; dsk : disk_map; held : gmap nat bkey; pins : gset bkey }.

Class BufOps (C : Type) := {
  c_init : disk_map → C;
  c_bread : C → bkey → outcome (nat * C);
  c_bwrite : C → nat → outcome C;
  c_brelse : C → nat → outcome C;
  c_data : C → nat → outcome block;       (* b->data *)
  c_store : C → nat → block → C;          (* stores into b->data *)
  c_pin : C → nat → C;                    (* b->flags |= B_DIRTY *)
  c_key : C → nat → outcome bkey;         (* b->dev, b->blockno *)
  c_writes : C → list (bkey * block)      (* the disk writes so far *)
}.

(** The laws are about the blocks of the second disk, [ROOTDEV]. *)
Definition ROOTDEV : Z := 1.
Definition key_ok (k : bkey) : Prop := k.1 = ROOTDEV ∧ 0 <= k.2 < FSSIZE.

Lemma key_ok_dev k : key_ok k → k.1 ≠ 0.
Proof. intros [-> _]. done. Qed.

Class BufLaws (C : Type) `{BufOps C} (cview : C → cabs → Prop) : Prop := {
  law_init d : cview (c_init d) (CAbs d d ∅ ∅) ∧ c_writes (c_init d) = [];
  law_bread c a k : cview c a → key_ok k → (∀ i, held a !! i ≠ Some k) →
    (k ∈ pins a ∨ (size (pins a) + size (held a) < NBUF)%nat) →
    ∃ i c', c_bread c k = Ok (i, c') ∧ held a !! i = None ∧
      cview c' (CAbs (view a) (dsk a) (<[i := k]> (held a)) (pins a)) ∧ c_writes c' = c_writes c;
  law_clean c a k : cview c a → k ∉ pins a → (∀ i, held a !! i ≠ Some k) → view a !!! k = dsk a !!! k;
  law_data c a i k : cview c a → held a !! i = Some k → c_data c i = Ok (view a !!! k) ∧ c_key c i = Ok k;
  law_store c a i k d : cview c a → held a !! i = Some k →
    cview (c_store c i d) (CAbs (<[k := d]> (view a)) (dsk a) (held a) (pins a)) ∧ c_writes (c_store c i d) = c_writes c;
  law_pin c a i k : cview c a → held a !! i = Some k →
    cview (c_pin c i) (CAbs (view a) (dsk a) (held a) ({[k]} ∪ pins a)) ∧ c_writes (c_pin c i) = c_writes c;
  law_bwrite c a i k : cview c a → held a !! i = Some k →
    ∃ c', c_bwrite c i = Ok c' ∧
      cview c' (CAbs (view a) (<[k := view a !!! k]> (dsk a)) (held a) (pins a ∖ {[k]})) ∧
      c_writes c' = c_writes c ++ [(k, view a !!! k)];
  law_brelse c a i k : cview c a → held a !! i = Some k → (k ∈ pins a ∨ view a !!! k = dsk a !!! k) →
    ∃ c', c_brelse c i = Ok c' ∧
      cview c' (CAbs (view a) (dsk a) (delete i (held a)) (pins a)) ∧ c_writes c' = c_writes c
}.

#[export] Instance bio_ops : BufOps bcache := {
  c_init := binit;
  c_bread := bread;
  c_bwrite := bwrite;
  c_brelse := brelse;
  c_data c i := b ← getbuf c i; Ok (data b);
  c_store c i d := upd i (set_data d) c;
  c_pin c i := upd i (set_dirty true) c;
  c_key c i := b ← getbuf c i; Ok (b_key b);
  c_writes := trace
}.

(** * The invariant *)

Record binv (c : bcache) (a : cabs) : Prop := {
  bi_len : length (bufs c) = NBUF;
  bi_mru : mru c ≡ₚ seq 0 NBUF;
  bi_disk : disk c = dsk a;
  bi_uniq : ∀ i j bi bj, bufs c !! i = Some bi → bufs c !! j = Some bj →
    (b_key bi).1 ≠ 0 → b_key bi = b_key bj → i = j;
  bi_zero : ∀ i b, bufs c !! i = Some b → (b_key b).1 = 0 → valid b = false ∧ dirty b = false ∧ locked b = false;
  bi_ref : ∀ i b, bufs c !! i = Some b → refcnt b = if locked b then 1%nat else 0%nat;
  bi_held : ∀ i k, held a !! i = Some k ↔ ∃ b, bufs c !! i = Some b ∧ locked b = true ∧ b_key b = k;
  bi_pins : ∀ k, k ∈ pins a ↔ ∃ i b, bufs c !! i = Some b ∧ dirty b = true ∧ b_key b = k;
  bi_keyok : ∀ i b, bufs c !! i = Some b → (b_key b).1 ≠ 0 → key_ok (b_key b);
  bi_lv : ∀ i b, bufs c !! i = Some b → locked b = true ∨ dirty b = true → valid b = true;
  bi_data : ∀ i b, bufs c !! i = Some b → valid b = true → data b = view a !!! b_key b;
  bi_clean : ∀ k, k ∉ pins a → (∀ i, held a !! i ≠ Some k) → view a !!! k = dsk a !!! k }.

Lemma getbuf_ok c i b : bufs c !! i = Some b → getbuf c i = Ok b.
Proof. unfold getbuf. by intros ->. Qed.

Lemma upd_insert c i f b : bufs c !! i = Some b → upd i f c = BCache (<[i := f b]> (bufs c)) (mru c) (disk c) (trace c).
Proof. intros Hb. unfold upd. by rewrite (alter_insert f i (bufs c) b). Qed.

Lemma same_block_spec k b : same_block k b = bool_decide (b_key b = k).
Proof.
  unfold same_block. destruct (b_key b) as [x y], k as [x' y']. cbn [fst snd].
  case_bool_decide as E; [injection E as -> ->; by rewrite !Z.eqb_refl|].
  destruct (Z.eqb_spec x x'), (Z.eqb_spec y y'); cbn; congruence.
Qed.

Lemma scan_spec c p l : Forall (λ i, is_Some (bufs c !! i)) l →
  (∃ i b, scan c p l = Ok (Some i) ∧ i ∈ l ∧ bufs c !! i = Some b ∧ p b = true) ∨
  (scan c p l = Ok None ∧ ∀ i b, i ∈ l → bufs c !! i = Some b → p b = false).
Proof.
  induction 1 as [|i l [b Hb] Hl IH]; cbn [scan]; [right; split; [done|]; by intros i b ?%not_elem_of_nil|].
  rewrite (getbuf_ok _ _ _ Hb), bind_Ok. destruct (p b) eqn:Ep.
  - left. exists i, b. split_and!; [done|apply list_elem_of_here|done..].
  - destruct IH as [(j & bj & E & Hj & Hbj & Hp)|[E Hno]].
    + left. exists j, bj. split_and!; [done|by right|done..].
    + right. split; [done|]. intros j bj [->|Hj]%elem_of_cons Hbj; [congruence|by eapply Hno].
Qed.

Section inv.
Context (c : bcache) (a : cabs).
Hypothesis Hi : binv c a.

Lemma slot_exists i : (i < NBUF)%nat → ∃ b, bufs c !! i = Some b.
Proof using Hi. intros Hlt. apply lookup_lt_is_Some_2. by rewrite (bi_len _ _ Hi). Qed.

Lemma mru_slots l : l ≡ₚ mru c → Forall (λ i, is_Some (bufs c !! i)) l.
Proof using Hi.
  intros Hl. apply Forall_forall. intros i. rewrite Hl, (bi_mru _ _ Hi), elem_of_seq. intros [_ Hlt]. by apply slot_exists.
Qed.

Lemma slot_in_mru i b : bufs c !! i = Some b → i ∈ mru c.
Proof using Hi.
  intros Hb. rewrite (bi_mru _ _ Hi). apply elem_of_seq. apply lookup_lt_Some in Hb. rewrite (bi_len _ _ Hi) in Hb. lia.
Qed.

Lemma held_slot i k : held a !! i = Some k → ∃ b, bufs c !! i = Some b ∧ locked b = true ∧ b_key b = k ∧ valid b = true ∧
  key_ok k ∧ refcnt b = 1%nat ∧ data b = view a !!! k.
Proof using Hi.
  intros (b & Hb & Hl & Hk)%(bi_held _ _ Hi). exists b. pose proof (bi_lv _ _ Hi i b Hb (or_introl Hl)) as Hv.
  assert ((b_key b).1 ≠ 0) as Hz.
  { intros Hz. apply (bi_zero _ _ Hi i b Hb) in Hz as (_ & _ & Hl'). congruence. }
  split_and!; try done.
  - rewrite <- Hk. by eapply (bi_keyok _ _ Hi).
  - rewrite (bi_ref _ _ Hi i b Hb). by rewrite Hl.
  - rewrite <- Hk. by eapply (bi_data _ _ Hi).
Qed.

(** More buffers than pinned and held blocks: one is unused. *)
Lemma unused_exists : (size (pins a) + size (held a) < NBUF)%nat → ∃ i b, bufs c !! i = Some b ∧ unused b = true.
Proof using Hi.
  intros Hlt. destruct (decide (Exists (λ b, unused b = true) (bufs c))) as [Hex|Hno].
  { apply Exists_exists in Hex as (b & Hb & Hu). apply list_elem_of_lookup_1 in Hb as [i Hb]. by exists i, b. }
  exfalso. set (dirty_at := λ i, match bufs c !! i with Some b => dirty b | None => false end).
  set (key_at := λ i, match bufs c !! i with Some b => b_key b | None => (0, 0) end).
  set (D := filter (λ i, dirty_at i = true) (seq 0 NBUF)).
  assert (∀ i, i ∈ D → ∃ b, bufs c !! i = Some b ∧ dirty b = true ∧ key_at i = b_key b) as HD.
  { intros i [Hd _]%list_elem_of_filter. unfold dirty_at, key_at in *. destruct (bufs c !! i) as [b|]; [by exists b|done]. }
  assert (NoDup (key_at <$> D)) as Hnd.
  { apply NoDup_fmap_2_strong; [|apply NoDup_filter, NoDup_seq]. intros i j (bi & Hbi & Hdi & Ei)%HD (bj & Hbj & _ & Ej)%HD E.
    eapply (bi_uniq _ _ Hi); [done..| |congruence]. intros Hz. apply (bi_zero _ _ Hi i bi Hbi) in Hz as (_ & Hd & _). congruence. }
  assert (length D ≤ size (pins a))%nat as HlenD.
  { rewrite <- (length_fmap key_at), <- (size_list_to_set (C := gset bkey)) by done. apply subseteq_size.
    intros k (i & -> & (b & Hb & Hd & ->)%HD)%elem_of_list_to_set%list_elem_of_fmap. apply (bi_pins _ _ Hi). by exists i, b. }
  assert ((list_to_set (seq 0 NBUF) : gset nat) ⊆ list_to_set D ∪ dom (held a)) as Hsub.
  { intros i Hin%elem_of_list_to_set. assert (i < NBUF)%nat as Hin' by (apply elem_of_seq in Hin; lia).
    destruct (slot_exists i Hin') as [b Hb]. apply elem_of_union.
    destruct (dirty b) eqn:Hd.
    - left. apply elem_of_list_to_set, list_elem_of_filter. split; [|done]. unfold dirty_at. by rewrite Hb.
    - right. apply elem_of_dom. exists (b_key b). apply (bi_held _ _ Hi). exists b. split_and!; [done| |done].
      destruct (locked b) eqn:Hl; [done|]. exfalso. apply Hno, Exists_exists. exists b.
      split; [by eapply list_elem_of_lookup_2|]. unfold unused. by rewrite (bi_ref _ _ Hi i b Hb), Hl, Hd. }
  apply subseteq_size in Hsub. rewrite size_list_to_set, length_seq in Hsub by apply NoDup_seq.
  rewrite size_union_alt, (size_list_to_set (C := gset nat)) in Hsub by apply NoDup_filter, NoDup_seq.
  pose proof (subseteq_size (dom (held a) ∖ list_to_set D) (dom (held a))) as Hle. rewrite size_dom in Hle.
  specialize (Hle ltac:(set_solver)). lia.
Qed.
End inv.

(** One buffer [i] changes and now holds block [k]. *)
Lemma binv_change (c : bcache) (a : cabs) (i : nat) (b b' : buf) (v' d' : disk_map) (h' : gmap nat bkey) (p' : gset bkey) (mru' : list nat) tr' :
  let k := b_key b' in
  binv c a → bufs c !! i = Some b → key_ok k →
  (b_key b = k ∨ (dirty b = false ∧ locked b = false ∧ ∀ j bj, bufs c !! j = Some bj → b_key bj ≠ k)) →
  refcnt b' = (if locked b' then 1%nat else 0%nat) →
  (locked b' = true ∨ dirty b' = true → valid b' = true) → (valid b' = true → data b' = v' !!! k) →
  (∀ j, j ≠ i → h' !! j = held a !! j) → h' !! i = (if locked b' then Some k else None) →
  (∀ x, x ≠ k → x ∈ p' ↔ x ∈ pins a) → (k ∈ p' ↔ dirty b' = true) →
  (∀ x, x ≠ k → v' !!! x = view a !!! x) → (∀ x, x ≠ k → d' !!! x = dsk a !!! x) →
  (k ∉ p' → locked b' = false → v' !!! k = d' !!! k) → mru' ≡ₚ mru c →
  binv (BCache (<[i := b']> (bufs c)) mru' d' tr') (CAbs v' d' h' p').
Proof.
  intros k Hi Hb Hk Hold Href Hlv Hdata Hh Hhi Hp Hpk Hv Hd Hclean Hmru.
  pose proof (lookup_lt_Some _ _ _ Hb) as Hlt.
  assert (∀ j bj, j ≠ i → bufs c !! j = Some bj → b_key bj ≠ k) as Huniq.
  { intros j bj Hne Hbj E. destruct Hold as [Hkb|(_ & _ & Hno)]; [|by eapply Hno].
    apply Hne. eapply (bi_uniq _ _ Hi); [done..| |congruence]. rewrite E. by apply key_ok_dev. }
  split; cbn [bufs mru disk view dsk held pins].
  - by rewrite length_insert, (bi_len _ _ Hi).
  - by rewrite Hmru, (bi_mru _ _ Hi).
  - done.
  - intros j1 j2 b1 b2 H1 H2 Hz E.
    apply slot_insert_Some in H1 as [(-> & -> & _)|[Hn1 H1]], H2 as [(-> & -> & _)|[Hn2 H2]].
    + done.
    + by exfalso; eapply Huniq.
    + by exfalso; eapply Huniq.
    + by eapply (bi_uniq _ _ Hi).
  - intros j bj Hj Hz. apply slot_insert_Some in Hj as [(-> & -> & _)|[Hn Hj]]; [by apply key_ok_dev in Hz|by eapply (bi_zero _ _ Hi)].
  - intros j bj Hj. apply slot_insert_Some in Hj as [(-> & -> & _)|[Hn Hj]]; [done|by eapply (bi_ref _ _ Hi)].
  - intros j kj. destruct (decide (j = i)) as [->|Hne].
    + rewrite Hhi, list_lookup_insert_eq by done. destruct (locked b') eqn:Hl; split.
      * intros [= <-]. by exists b'.
      * by intros (b0 & [= <-] & _ & <-).
      * done.
      * intros (b0 & [= <-] & Hl' & _). congruence.
    + rewrite Hh, list_lookup_insert_ne by done. apply (bi_held _ _ Hi).
  - intros x. destruct (decide (x = k)) as [->|Hne].
    + rewrite Hpk. split.
      * intros Hdb. exists i, b'. by rewrite list_lookup_insert_eq.
      * intros (j & bj & Hj & Hdj & Ej). apply slot_insert_Some in Hj as [(-> & -> & _)|[Hn Hj]]; [done|].
        by exfalso; eapply Huniq.
    + rewrite Hp by done. rewrite (bi_pins _ _ Hi). split.
      * intros (j & bj & Hj & Hdj & Ej). exists j, bj. rewrite list_lookup_insert_ne; [done|]. intros <-.
        rewrite Hb in Hj. injection Hj as <-. destruct Hold as [?|(? & _)]; congruence.
      * intros (j & bj & Hj & Hdj & Ej). apply slot_insert_Some in Hj as [(-> & -> & _)|[Hn Hj]]; [done|]. by exists j, bj.
  - intros j bj Hj Hz. apply slot_insert_Some in Hj as [(-> & -> & _)|[Hn Hj]]; [done|by eapply (bi_keyok _ _ Hi)].
  - intros j bj Hj. apply slot_insert_Some in Hj as [(-> & -> & _)|[Hn Hj]]; [done|by eapply (bi_lv _ _ Hi)].
  - intros j bj Hj Hval. apply slot_insert_Some in Hj as [(-> & -> & _)|[Hn Hj]]; [by apply Hdata|].
    rewrite Hv by (by eapply Huniq). by eapply (bi_data _ _ Hi).
  - intros x Hx Hxh. destruct (decide (x = k)) as [->|Hne].
    + apply Hclean; [done|]. specialize (Hxh i). rewrite Hhi in Hxh. destruct (locked b'); [done|done].
    + rewrite Hv, Hd by done. apply (bi_clean _ _ Hi); [by rewrite <- Hp|]. intros j Ej. destruct (decide (j = i)) as [->|Hji].
      * apply (bi_held _ _ Hi) in Ej as (b0 & Hb0 & Hl0 & Ek0). rewrite Hb in Hb0. injection Hb0 as <-.
        destruct Hold as [?|(_ & ? & _)]; congruence.
      * apply (Hxh j). by rewrite Hh.
Qed.

(** * The laws *)

Lemma binit_inv d : binv (binit d) (CAbs d d ∅ ∅).
Proof.
  assert (∀ i b, bufs (binit d) !! i = Some b → b = Buf (0, 0) false false false 0 (replicate BSIZE 0)) as Hb.
  { intros i b [-> _]%lookup_replicate. done. }
  split; cbn [view dsk held pins].
  - apply length_replicate.
  - cbn [binit mru]. apply reverse_Permutation.
  - done.
  - intros i j bi bj Hi%Hb _ Hz. by subst bi.
  - intros i b Hi%Hb _. by subst b.
  - intros i b Hi%Hb. by subst b.
  - intros i k. rewrite lookup_empty. split; [done|]. intros (b & Hi%Hb & Hl & _). by subst b.
  - intros k. split; [by intros ?%not_elem_of_empty|]. intros (i & b & Hi%Hb & Hd & _). by subst b.
  - intros i b Hi%Hb Hz. by subst b.
  - intros i b Hi%Hb [Hl|Hl]; by subst b.
  - intros i b Hi%Hb Hv. by subst b.
  - done.
Qed.

(** Locking buffer [i], which holds block [k], and reading the block if it is not valid. *)
Lemma lock_and_read c a i b b1 k : binv c a → bufs c !! i = Some b → key_ok k →
  (∀ j, held a !! j ≠ Some k) → locked b = false →
  b_key b1 = k → valid b1 = false ∨ (b_key b = k ∧ valid b1 = valid b ∧ data b1 = data b) →
  dirty b1 = true ↔ k ∈ pins a → (dirty b1 = true → valid b1 = true) → refcnt b1 = 1%nat → locked b1 = false →
  (b_key b = k ∨ (dirty b = false ∧ ∀ j bj, bufs c !! j = Some bj → b_key bj ≠ k)) →
  ∃ c', (c1 ← acquiresleep (BCache (<[i := b1]> (bufs c)) (mru c) (disk c) (trace c)) i;
         x ← getbuf c1 i; if negb (valid x) then c2 ← iderw c1 i; Ok (i, c2) else Ok (i, c1)) = Ok (i, c') ∧
    held a !! i = None ∧
    binv c' (CAbs (view a) (dsk a) (<[i := k]> (held a)) (pins a)) ∧ trace c' = trace c.
Proof.
  intros Hi Hb Hk Hfree Hl Ek Hval Hd Hdv Href Hl1 Hold. pose proof (lookup_lt_Some _ _ _ Hb) as Hlt.
  assert (held a !! i = None) as Hhi.
  { destruct (held a !! i) as [x|] eqn:E; [|done]. apply (bi_held _ _ Hi) in E as (b0 & Hb0 & Hl0 & _). congruence. }
  assert (<[i := b1]> (bufs c) !! i = Some b1) as Hb1 by (by apply list_lookup_insert_eq).
  unfold acquiresleep. rewrite (getbuf_ok _ i b1), bind_Ok, Hl1 by done.
  rewrite (upd_insert _ _ _ b1) by done. rewrite bind_Ok. cbn [bufs mru disk trace]. rewrite list_insert_insert_eq.
  set (b2 := set_locked true b1).
  assert (<[i := b2]> (bufs c) !! i = Some b2) as Hb2 by (by apply list_lookup_insert_eq).
  rewrite (getbuf_ok _ i b2), bind_Ok by done.
  assert (∀ b3, b_key b3 = k → locked b3 = true → valid b3 = true → refcnt b3 = 1%nat → dirty b3 = dirty b1 →
    data b3 = view a !!! k →
    binv (BCache (<[i := b3]> (bufs c)) (mru c) (disk c) (trace c)) (CAbs (view a) (dsk a) (<[i := k]> (held a)) (pins a))) as Hfin.
  { intros b3 Ek3 Hl3 Hv3 Hr3 Hd3 Hdat3. rewrite (bi_disk _ _ Hi). apply (binv_change c a i b b3); try done.
    - by rewrite Ek3.
    - rewrite Ek3. destruct Hold as [?|(? & ?)]; [by left|by right].
    - by rewrite Hl3.
    - by rewrite Ek3.
    - intros j Hj. by rewrite lookup_insert_ne.
    - by rewrite lookup_insert_eq, Hl3, Ek3.
    - rewrite Ek3, Hd3. symmetry. exact Hd.
    - congruence. }
  change (valid b2) with (valid b1). destruct (valid b1) eqn:Hv1; cbn [negb].
  - eexists. split; [done|]. split; [done|]. split; [|done]. apply Hfin; try done.
    destruct Hval as [?|(Ekb & Hvb & Edb)]; [congruence|]. change (data b2) with (data b1). rewrite Edb, <- Ekb.
    apply (bi_data _ _ Hi i b Hb). congruence.
  - assert (dirty b1 = false) as Hd1 by (destruct (dirty b1) eqn:E; [specialize (Hdv eq_refl); congruence|done]).
    unfold iderw. rewrite (getbuf_ok _ i b2), bind_Ok by done.
    change (locked b2) with true. change (valid b2) with (valid b1). change (dirty b2) with (dirty b1).
    change (b_key b2) with (b_key b1). rewrite Hv1, Hd1, Ek. cbn [negb andb].
    rewrite (proj2 (Z.leb_gt _ _)) by apply Hk. rewrite bind_Ok, (upd_insert _ _ _ b2) by done. cbn [bufs mru disk trace].
    rewrite list_insert_insert_eq. eexists. split; [done|]. split; [done|]. split; [|done].
    apply Hfin; try done. cbn [set_valid set_data data]. change (b_key b2) with (b_key b1). rewrite Ek, (bi_disk _ _ Hi). symmetry. apply (bi_clean _ _ Hi); [|done].
    intros Hp. apply Hd in Hp. congruence.
Qed.

Lemma pins_slot c a i b k : binv c a → bufs c !! i = Some b → b_key b = k → key_ok k → k ∈ pins a ↔ dirty b = true.
Proof.
  intros Hi Hb Ek Hk. rewrite (bi_pins _ _ Hi). split; [|intros; by exists i, b]. intros (j & bj & Hj & Hdj & Ej).
  assert (j = i) as ->; [|congruence]. eapply (bi_uniq _ _ Hi); [done..| |congruence]. rewrite Ej. by apply key_ok_dev.
Qed.

Lemma bread_spec c a k : binv c a → key_ok k → (∀ i, held a !! i ≠ Some k) →
  (k ∈ pins a ∨ (size (pins a) + size (held a) < NBUF)%nat) →
  ∃ i c', bread c k = Ok (i, c') ∧ held a !! i = None ∧
    binv c' (CAbs (view a) (dsk a) (<[i := k]> (held a)) (pins a)) ∧ trace c' = trace c.
Proof.
  intros Hi Hk Hfree Hroom.
  assert (∀ i b, bufs c !! i = Some b → b_key b = k → locked b = false) as Hunlocked.
  { intros i b Hb Ek. destruct (locked b) eqn:Hl; [|done]. exfalso. apply (Hfree i), (bi_held _ _ Hi). by exists b. }
  unfold bread, bget. destruct (scan_spec c (same_block k) (mru c)) as [(i & b & -> & _ & Hb & Hs)|[-> Hno]];
    [by eapply mru_slots|..]; rewrite bind_Ok.
  - rewrite same_block_spec in Hs. apply bool_decide_eq_true in Hs. rewrite (upd_insert _ _ _ b) by done.
    set (b1 := set_refcnt (S (refcnt b)) b).
    destruct (lock_and_read c a i b b1 k) as (c' & E & Hhi & Hinv & Htr); try done.
    + by apply (Hunlocked i b Hb).
    + by right.
    + symmetry. by apply (pins_slot c a i b).
    + intros Hd. apply (bi_lv _ _ Hi i b Hb). by right.
    + cbn. by rewrite (bi_ref _ _ Hi i b Hb), (Hunlocked i b Hb Hs).
    + by apply (Hunlocked i b Hb).
    + by left.
    + exists i, c'. split_and!; try done. rewrite <- E.
      destruct (acquiresleep _ i); [|done..]. done.
  - assert (∀ j bj, bufs c !! j = Some bj → b_key bj ≠ k) as Hnone.
    { intros j bj Hj Ej. pose proof (Hno j bj (slot_in_mru c a Hi j bj Hj) Hj) as Hs. rewrite same_block_spec in Hs.
      by apply bool_decide_eq_false in Hs. }
    assert (k ∉ pins a) as Hnp.
    { intros (j & bj & Hj & _ & Ej)%(bi_pins _ _ Hi). by eapply Hnone. }
    destruct Hroom as [Hp|Hroom]; [done|]. destruct (unused_exists c a Hi Hroom) as (i0 & b0 & Hb0 & Hu0).
    destruct (scan_spec c unused (reverse (mru c))) as [(i & b & -> & _ & Hb & Hu)|[_ Hnou]].
    { eapply mru_slots; [done|]. apply reverse_Permutation. }
    2:{ rewrite (Hnou i0 b0) in Hu0; [done| |done]. rewrite elem_of_reverse. by eapply slot_in_mru. }
    rewrite bind_Ok. unfold unused in Hu. apply andb_prop in Hu as [Hr Hd]. apply Nat.eqb_eq in Hr. apply negb_true_iff in Hd.
    assert (locked b = false) as Hl.
    { pose proof (bi_ref _ _ Hi i b Hb) as E. rewrite Hr in E. by destruct (locked b). }
    rewrite (upd_insert _ _ _ b) by done.
    set (b1 := set_refcnt 1 (set_dirty false (set_valid false (set_key k b)))).
    destruct (lock_and_read c a i b b1 k) as (c' & E & Hhi & Hinv & Htr); try done.
    + by left.
    + by right.
    + exists i, c'. split_and!; try done. rewrite <- E. destruct (acquiresleep _ i); [|done..]. done.
Qed.

Lemma bwrite_spec c a i k : binv c a → held a !! i = Some k →
  ∃ c', bwrite c i = Ok c' ∧
    binv c' (CAbs (view a) (<[k := view a !!! k]> (dsk a)) (held a) (pins a ∖ {[k]})) ∧
    trace c' = trace c ++ [(k, view a !!! k)].
Proof.
  intros Hi Hh. destruct (held_slot c a Hi i k Hh) as (b & Hb & Hl & Ek & Hv & Hk & Hr & Hd).
  pose proof (lookup_lt_Some _ _ _ Hb) as Hlt.
  unfold bwrite. rewrite (getbuf_ok _ _ _ Hb), bind_Ok, Hl. cbn [negb]. rewrite (upd_insert _ _ _ b) by done.
  unfold iderw. rewrite (getbuf_ok _ i (set_dirty true b)), bind_Ok by (cbn; by apply list_lookup_insert_eq).
  cbn [set_dirty locked valid dirty b_key data]. rewrite Hl, Hv, Ek. cbn [negb andb].
  rewrite (proj2 (Z.leb_gt _ _)) by apply Hk. rewrite (upd_insert _ _ _ (set_dirty true b)) by (cbn; by apply list_lookup_insert_eq).
  cbn [bufs mru disk trace]. rewrite list_insert_insert_eq, Hd, (bi_disk _ _ Hi). eexists. split; [done|]. split; [|done].
  apply (binv_change c a i b); try done; cbn [set_dirty set_valid b_key locked valid dirty refcnt data]; rewrite ?Ek, ?Hl; try done.
  - by left.
  - intros x Hx. set_solver.
  - set_solver.
  - intros x Hx. by rewrite lookup_total_insert_ne.
Qed.

Lemma brelse_spec c a i k : binv c a → held a !! i = Some k → (k ∈ pins a ∨ view a !!! k = dsk a !!! k) →
  ∃ c', brelse c i = Ok c' ∧
    binv c' (CAbs (view a) (dsk a) (delete i (held a)) (pins a)) ∧ trace c' = trace c.
Proof.
  intros Hi Hh Hclean. destruct (held_slot c a Hi i k Hh) as (b & Hb & Hl & Ek & Hv & Hk & Hr & Hd).
  unfold brelse. rewrite (getbuf_ok _ _ _ Hb), bind_Ok, Hl, Hr. cbn [negb Nat.sub Nat.eqb]. rewrite (upd_insert _ _ _ b) by done.
  unfold set_mru. cbn [bufs mru disk trace]. eexists. split; [done|]. split; [|done]. rewrite (bi_disk _ _ Hi).
  apply (binv_change c a i b); try done; cbn [set_refcnt set_locked b_key locked valid dirty refcnt data]; rewrite ?Ek, ?Hr; try done.
  - by left.
  - intros j Hj. by rewrite lookup_delete_ne.
  - apply lookup_delete_eq.
  - by apply (pins_slot c a i b).
  - tauto.
  - unfold move_front. assert (NoDup (mru c)) as Hnd by (rewrite (bi_mru _ _ Hi); apply NoDup_seq).
    pose proof (slot_in_mru c a Hi i b Hb) as Hin. apply NoDup_Permutation; [|done|].
    + apply NoDup_cons. split; [|by apply NoDup_filter]. intros [? _]%list_elem_of_filter. done.
    + intros j. rewrite elem_of_cons, list_elem_of_filter. destruct (decide (j = i)) as [->|Hne]; tauto.
Qed.

(** The cache keeps its promise. *)
#[export] Instance bio_laws : BufLaws bcache binv.
Proof.
  split; cbn [c_init c_bread c_bwrite c_brelse c_data c_store c_pin c_key c_writes bio_ops].
  - intros d. split; [apply binit_inv|done].
  - intros c a k. apply bread_spec.
  - intros c a k Hi. by apply (bi_clean _ _ Hi).
  - intros c a i k Hi Hh. destruct (held_slot c a Hi i k Hh) as (b & Hb & _ & Ek & _ & _ & _ & Hd).
    by rewrite (getbuf_ok _ _ _ Hb), !bind_Ok, Hd, Ek.
  - intros c a i k d Hi Hh. destruct (held_slot c a Hi i k Hh) as (b & Hb & Hl & Ek & Hv & Hk & Hr & Hd).
    split; [|done]. rewrite (upd_insert _ _ _ b), (bi_disk _ _ Hi) by done.
    apply (binv_change c a i b); try done; cbn [set_data b_key locked valid dirty refcnt data]; rewrite ?Ek, ?Hl; try done.
    + by left.
    + intros _. by rewrite lookup_total_insert_eq.
    + by apply (pins_slot c a i b).
    + intros x Hx. by rewrite lookup_total_insert_ne.
  - intros c a i k Hi Hh. destruct (held_slot c a Hi i k Hh) as (b & Hb & Hl & Ek & Hv & Hk & Hr & Hd).
    split; [|done]. rewrite (upd_insert _ _ _ b), (bi_disk _ _ Hi) by done.
    apply (binv_change c a i b); try done; cbn [set_dirty b_key locked valid dirty refcnt data]; rewrite ?Ek, ?Hl; try done.
    + by left.
    + intros x Hx. set_solver.
    + set_solver.
  - intros c a i k. apply bwrite_spec.
  - intros c a i k. apply brelse_spec.
Qed.

(** * The cache is transparent *)

Inductive request := RdBlk (b : Z) | WrBlk (b : Z) (x : block).

(** A client: bread, a look at the data or a change of it and bwrite, brelse. *)
Definition serve_req (c : bcache) (r : request) : outcome (block * bcache) :=
  match r with
  | RdBlk b => '(i, c) ← bread c (ROOTDEV, b); x ← getbuf c i; c ← brelse c i; Ok (data x, c)
  | WrBlk b x => '(i, c) ← bread c (ROOTDEV, b); c ← bwrite (upd i (set_data x) c) i; c ← brelse c i; Ok (x, c)
  end.

Fixpoint serve_all (c : bcache) (rs : list request) : outcome (list block * bcache) :=
  match rs with
  | [] => Ok ([], c)
  | r :: rs' => '(x, c) ← serve_req c r; '(xs, c) ← serve_all c rs'; Ok (x :: xs, c)
  end.

(** The specification: a disk without a cache. *)
Definition disk_serve (d : disk_map) (r : request) : block * disk_map :=
  match r with RdBlk b => (d !!! (ROOTDEV, b), d) | WrBlk b x => (x, <[(ROOTDEV, b) := x]> d) end.

Fixpoint disk_all (d : disk_map) (rs : list request) : list block * disk_map :=
  match rs with
  | [] => ([], d)
  | r :: rs' => let '(x, d) := disk_serve d r in let '(xs, d) := disk_all d rs' in (x :: xs, d)
  end.

Definition on_disk (r : request) : Prop := match r with RdBlk b | WrBlk b _ => 0 <= b < FSSIZE end.

Lemma serve_req_spec c v d r : binv c (CAbs v d ∅ ∅) → on_disk r →
  ∃ c' v', serve_req c r = Ok ((disk_serve d r).1, c') ∧ binv c' (CAbs v' (disk_serve d r).2 ∅ ∅).
Proof.
  intros Hc Hr. assert (∀ k, v !!! k = d !!! k) as Hv.
  { intros k. apply (law_clean (cview := binv) c _ k Hc); [set_solver|]. intros i. cbn [held]. by rewrite lookup_empty. }
  assert (∀ b, 0 <= b < FSSIZE → ∃ i c1, bread c (ROOTDEV, b) = Ok (i, c1) ∧ binv c1 (CAbs v d {[i := (ROOTDEV, b)]} ∅)) as Hread.
  { intros b Hb. destruct (bread_spec c _ (ROOTDEV, b) Hc) as (i & c1 & E & _ & Hc1 & _).
    - by split.
    - intros i. cbn [held]. by rewrite lookup_empty.
    - right. cbn [held pins]. rewrite size_empty, map_size_empty. unfold NBUF. lia.
    - cbn [view dsk held pins] in Hc1. rewrite insert_empty in Hc1. by exists i, c1. }
  destruct r as [b|b x]; cbn [on_disk serve_req disk_serve fst snd] in *; destruct (Hread b Hr) as (i & c1 & -> & Hc1);
    rewrite bind_Ok; set (k := (ROOTDEV, b)) in *;
    assert (({[i := k]} : gmap nat bkey) !! i = Some k) as Hi by apply lookup_singleton_eq.
  - destruct (held_slot c1 _ Hc1 i k Hi) as (x & Hx & _ & _ & _ & _ & _ & Hdx). rewrite (getbuf_ok _ _ _ Hx), bind_Ok.
    destruct (brelse_spec c1 _ i k Hc1 Hi) as (c2 & -> & Hc2 & _); [right; apply Hv|]. rewrite bind_Ok, Hdx.
    cbn [view dsk held pins] in *. rewrite delete_singleton_eq in Hc2. rewrite Hv. by exists c2, v.
  - destruct (law_store (cview := binv) c1 _ i k x Hc1 Hi) as [Hc2 _]. cbn [c_store bio_ops view dsk held pins] in Hc2.
    destruct (bwrite_spec _ _ i k Hc2 Hi) as (c3 & -> & Hc3 & _). cbn [view dsk held pins] in Hc3. rewrite bind_Ok.
    rewrite lookup_total_insert_eq in Hc3.
    destruct (brelse_spec _ _ i k Hc3 Hi) as (c4 & -> & Hc4 & _); [right; cbn [view dsk]; by rewrite !lookup_total_insert_eq|].
    cbn [view dsk held pins] in Hc4. rewrite bind_Ok, delete_singleton_eq in *. replace (∅ ∖ {[k]}) with (∅ : gset bkey) in Hc4 by set_solver. by exists c4, (<[k := x]> v).
Qed.

Lemma serve_all_spec rs : ∀ c v d, binv c (CAbs v d ∅ ∅) → Forall on_disk rs →
  ∃ c' v', serve_all c rs = Ok ((disk_all d rs).1, c') ∧ binv c' (CAbs v' (disk_all d rs).2 ∅ ∅).
Proof.
  induction rs as [|r rs IH]; intros c v d Hc Hrs; [by exists c, v|]. apply Forall_cons in Hrs as [Hr Hrs].
  destruct (serve_req_spec c v d r Hc Hr) as (c1 & v1 & E1 & Hc1). destruct (IH c1 v1 _ Hc1 Hrs) as (c2 & v2 & E2 & Hc2).
  exists c2, v2. cbn [serve_all disk_all]. rewrite E1, bind_Ok, E2, bind_Ok. destruct (disk_serve d r) as [x d1].
  cbn [fst snd] in *. by destruct (disk_all d1 rs).
Qed.

(** C24. The buffer cache refines the disk.  Any sequence of block reads and writes through
    [bread], [bwrite] and [brelse], on any number of different blocks, runs to the end without a
    panic, reads what a disk without a cache would give, and leaves the same disk. *)
Theorem cache_refines_disk d rs : Forall on_disk rs →
  ∃ c, serve_all (binit d) rs = Ok ((disk_all d rs).1, c) ∧ disk c = (disk_all d rs).2.
Proof.
  intros Hrs. destruct (serve_all_spec rs _ _ _ (binit_inv d) Hrs) as (c & v & E & Hc). exists c.
  split; [done|]. apply (bi_disk _ _ Hc).
Qed.

Definition w_reqs : list request := ((λ n, WrBlk (Z.of_nat n) [Z.of_nat n]) <$> seq 1 40) ++ [RdBlk 3; RdBlk 40; WrBlk 3 [0]; RdBlk 3].

Lemma cache_refines_disk_witness : ∃ c xs, serve_all (binit ∅) w_reqs = Ok (xs, c) ∧ drop 40 xs = [[3]; [40]; [0]; [0]] ∧
  disk c !!! (ROOTDEV, 3) = [0].
Proof.
  destruct (cache_refines_disk ∅ w_reqs) as (c & E & Ed).
  - unfold w_reqs. apply Forall_app. split.
    + apply Forall_fmap, Forall_seq. intros j Hj. cbn. unfold FSSIZE. lia.
    + repeat constructor; cbn; unfold FSSIZE; lia.
  - exists c, (disk_all ∅ w_reqs).1. split; [exact E|]. split; [vm_compute; reflexivity|]. rewrite Ed. vm_compute. reflexivity.
Defined.
