(* ===== verification/Log.v ===== *)
(** The file-system log (src/p4/log.c): write-ahead logging with group commit and recovery.

    The log runs on a buffer cache given by the interface [BufOps]; the theorems use
    its laws only and hold for the cache of Bio.v.  [lh] is the in-memory header: the
    block numbers logged so far.  On disk the header is the block [start]: a count and that many block numbers, as 32-bit words;
    the log blocks follow it.  [begin_op] returns [None] where the code
    sleeps.  The spin lock of the log makes [begin_op], [log_write] and the two halves of [end_op] atomic. *)

From Stdlib Require Import ZArith Lia.
From stdpp Require Import base numbers list gmap fin_sets sets strings.
From S2P Require Import Prelude Bio.
#[local] Open Scope Z_scope.

Definition MAXOPBLOCKS : Z := 10.
Definition LOGSIZE : Z := 30.

Record log := Log {
  start : Z; lsize : Z; outstanding : Z; committing : bool; dev : Z; lh : list Z }.

Definition set_lh (l : list Z) (g : log) : log :=
  Log (start g) (lsize g) (outstanding g) (committing g) (dev g) l.
Definition set_outstanding (n : Z) (g : log) : log :=
  Log (start g) (lsize g) n (committing g) (dev g) (lh g).
Definition set_committing (x : bool) (g : log) : log :=
  Log (start g) (lsize g) (outstanding g) x (dev g) (lh g).

Section ops.
Context {C : Type} `{BufOps C}.

(** The loop of [install_trans]; [bl] are the entries of [lh] from [tail] on. *)
Fixpoint install_loop (c : C) (g : log) (tail : Z) (bl : list Z) : outcome C :=
  match bl with
  | [] => Ok c
  | b :: bl' =>
      '(lbuf, c) ← c_bread c (dev g, start g + tail + 1);
      '(dbuf, c) ← c_bread c (dev g, b);
      d ← c_data c lbuf;
      c ← c_bwrite (c_store c dbuf d) dbuf;
      c ← c_brelse c lbuf;
      c ← c_brelse c dbuf;
      install_loop c g (tail + 1) bl'
  end.

Definition install_trans (c : C) (g : log) : outcome C := install_loop c g 0 (lh g).

(** [for (i = 0; i < log.lh.n; i++) log.lh.block[i] = lh->block[i];] *)
Fixpoint head_blocks (d : block) (i n : nat) : list Z :=
  match n with O => [] | S n' => get32 d (S i) :: head_blocks d (S i) n' end.

Definition read_head (c : C) (g : log) : outcome (C * log) :=
  '(buf, c) ← c_bread c (dev g, start g);
  d ← c_data c buf;
  let n := s32 (get32 d 0) in
  if LOGSIZE <? n then Fault n
  else
    c ← c_brelse c buf;
    Ok (c, set_lh (head_blocks d 0 (Z.to_nat n)) g).

(** [for (i = 0; i < log.lh.n; i++) hb->block[i] = log.lh.block[i];] *)
Fixpoint put_blocks (d : block) (i : nat) (bl : list Z) : block :=
  match bl with [] => d | b :: bl' => put_blocks (put32 d (S i) b) (S i) bl' end.

Definition head_bytes (d : block) (bl : list Z) : block := put_blocks (put32 d 0 (Z.of_nat (length bl))) 0 bl.

Definition write_head (c : C) (g : log) : outcome C :=
  '(buf, c) ← c_bread c (dev g, start g);
  d ← c_data c buf;
  c ← c_bwrite (c_store c buf (head_bytes d (lh g))) buf;
  c_brelse c buf.

Definition recover_from_log (c : C) (g : log) : outcome (C * log) :=
  '(c, g) ← read_head c g;
  c ← install_trans c g;
  let g := set_lh [] g in
  c ← write_head c g;
  Ok (c, g).

(** [initlog], with the log's place from the super block; the size of the header is below [BSIZE]. *)
Definition initlog (c : C) (device logstart nlog : Z) : outcome (C * log) :=
  recover_from_log c (Log logstart nlog 0 false device []).

(** [None]: the caller sleeps. *)
Definition begin_op (g : log) : option log :=
  if committing g then None
  else if LOGSIZE <? Z.of_nat (length (lh g)) + (outstanding g + 1) * MAXOPBLOCKS then None
  else Some (set_outstanding (outstanding g + 1) g).

(** The loop of [write_log]. *)
Fixpoint write_log_loop (c : C) (g : log) (tail : Z) (bl : list Z) : outcome C :=
  match bl with
  | [] => Ok c
  | b :: bl' =>
      '(to, c) ← c_bread c (dev g, start g + tail + 1);
      '(from, c) ← c_bread c (dev g, b);
      d ← c_data c from;
      c ← c_bwrite (c_store c to d) to;
      c ← c_brelse c from;
      c ← c_brelse c to;
      write_log_loop c g (tail + 1) bl'
  end.

Definition write_log (c : C) (g : log) : outcome C := write_log_loop c g 0 (lh g).

Definition commit (c : C) (g : log) : outcome (C * log) :=
  if 0 <? Z.of_nat (length (lh g)) then
    c ← write_log c g;
    c ← write_head c g;
    c ← install_trans c g;
    let g := set_lh [] g in
    c ← write_head c g;
    Ok (c, g)
  else Ok (c, g).

(** The first half of [end_op]; the boolean is [do_commit]. *)
Definition end_op_start (g : log) : outcome (bool * log) :=
  let g := set_outstanding (outstanding g - 1) g in
  if committing g then Panic "log.committing"
  else if outstanding g =? 0 then Ok (true, set_committing true g) else Ok (false, g).

Definition end_op (c : C) (g : log) : outcome (C * log) :=
  '(do_commit, g) ← end_op_start g;
  if (do_commit : bool) then '(c, g) ← commit c g; Ok (c, set_committing false g) else Ok (c, g).

(** [log.lh.block[i] = b->blockno] at the first equal entry, or at the end. *)
Definition absorb (bl : list Z) (b : Z) : list Z := if decide (b ∈ bl) then bl else bl ++ [b].

Definition log_write (c : C) (g : log) (buf : nat) : outcome (C * log) :=
  let n := Z.of_nat (length (lh g)) in
  if (LOGSIZE <=? n) || (lsize g - 1 <=? n) then Panic "too big a transaction"
  else if outstanding g <? 1 then Panic "log_write outside of trans"
  else
    k ← c_key c buf;
    Ok (c_pin c buf, set_lh (absorb (lh g) k.2) g).
End ops.

(** The loops use the place of the log only. *)
Lemma install_loop_ext {C} `{BufOps C} g g' bl : ∀ tail (c : C), dev g' = dev g → start g' = start g →
  install_loop c g' tail bl = install_loop c g tail bl.
Proof.
  induction bl as [|b bl IH]; intros tail c Hd Hs; cbn [install_loop]; [done|]. rewrite Hd, Hs.
  apply bind_ext. intros [lbuf c1]. apply bind_ext. intros [dbuf c2]. apply bind_ext. intros d.
  do 3 (apply bind_ext; intros ?). by apply IH.
Qed.

(** * Disk writes *)

Definition apply_writes (m : disk_map) (ws : list (bkey * block)) : disk_map := foldl (λ m w, <[w.1 := w.2]> m) m ws.

Lemma apply_writes_app m ws1 ws2 : apply_writes m (ws1 ++ ws2) = apply_writes (apply_writes m ws1) ws2.
Proof. apply foldl_app. Qed.

Lemma apply_writes_other m ws k : k ∉ ws.*1 → apply_writes m ws !!! k = m !!! k.
Proof.
  revert m. induction ws as [|[k' x] ws IH]; intros m Hk; [done|]. csimpl in Hk. apply not_elem_of_cons in Hk as [Hne Hk].
  cbn [apply_writes foldl fst snd]. fold (apply_writes (<[k' := x]> m) ws). rewrite IH by done.
  by rewrite lookup_total_insert_ne.
Qed.

Lemma apply_writes_in m ws k x : NoDup ws.*1 → (k, x) ∈ ws → apply_writes m ws !!! k = x.
Proof.
  revert m. induction ws as [|[k' y] ws IH]; intros m Hnd Hin; [by apply not_elem_of_nil in Hin|].
  csimpl in Hnd. apply NoDup_cons in Hnd as [Hk' Hnd]. cbn [apply_writes foldl fst snd].
  fold (apply_writes (<[k' := y]> m) ws). apply elem_of_cons in Hin as [[= -> ->]|Hin]; [|by apply IH].
  rewrite apply_writes_other by done. by rewrite lookup_total_insert_eq.
Qed.

Section specs.
Context {C : Type} `{BL : BufLaws C cview}.

Let L_bread := law_bread (cview := cview).
Let L_clean := law_clean (cview := cview).
Let L_data := law_data (cview := cview).
Let L_store := law_store (cview := cview).
Let L_bwrite := law_bwrite (cview := cview).
Let L_brelse := law_brelse (cview := cview).

(** Copying the buffer [i1] of block [ks] to the buffer [i2] of block [kd], writing and releasing. *)
Definition copy_tail (c : C) (i1 i2 : nat) : outcome C :=
  d ← c_data c i1; c ← c_bwrite (c_store c i2 d) i2; c ← c_brelse c i1; c_brelse c i2.

Lemma copy_tail_spec c v d p i1 i2 ks kd : i1 ≠ i2 → ks ≠ kd →
  cview c (CAbs v d {[i1 := ks; i2 := kd]} p) → (ks ∈ p ∨ v !!! ks = d !!! ks) →
  ∃ c', copy_tail c i1 i2 = Ok c' ∧
    cview c' (CAbs (<[kd := v !!! ks]> v) (<[kd := v !!! ks]> d) ∅ (p ∖ {[kd]})) ∧
    c_writes c' = c_writes c ++ [(kd, v !!! ks)].
Proof using BL.
  intros Hi Hk Hc Hs. set (h := {[i1 := ks; i2 := kd]} : gmap nat bkey) in *.
  assert (h !! i1 = Some ks) as H1 by (unfold h; by rewrite lookup_insert_eq).
  assert (h !! i2 = Some kd) as H2 by (unfold h; rewrite lookup_insert_ne by done; by apply lookup_singleton_eq).
  unfold copy_tail. destruct (L_data c _ i1 ks Hc H1) as [-> _]. rewrite bind_Ok. cbn [view].
  destruct (L_store c _ i2 kd (v !!! ks) Hc H2) as [Hc1 Hw1]. cbn [view dsk held pins] in Hc1.
  destruct (L_bwrite _ _ i2 kd Hc1 H2) as (c2 & -> & Hc2 & Hw2). cbn [view dsk held pins] in Hc2, Hw2.
  rewrite lookup_total_insert_eq in Hc2, Hw2. rewrite bind_Ok.
  destruct (L_brelse _ _ i1 ks Hc2 H1) as (c3 & -> & Hc3 & Hw3).
  { cbn [view dsk pins]. rewrite !lookup_total_insert_ne by done. destruct Hs as [Hs|Hs]; [left; set_solver|by right]. }
  cbn [view dsk held pins] in Hc3. rewrite bind_Ok.
  destruct (L_brelse _ _ i2 kd Hc3) as (c4 & E4 & Hc4 & Hw4).
  { cbn [held]. by rewrite lookup_delete_ne. }
  { right. cbn [view dsk]. by rewrite !lookup_total_insert_eq. }
  exists c4. split; [done|]. cbn [view dsk held pins] in Hc4. split; [|congruence].
  replace (delete i2 (delete i1 h)) with (∅ : gmap nat bkey) in Hc4; [done|].
  apply map_eq. intros j. rewrite lookup_empty. destruct (decide (j = i2)) as [->|Hj2]; [by rewrite lookup_delete_eq|].
  rewrite lookup_delete_ne by done. destruct (decide (j = i1)) as [->|Hj1]; [by rewrite lookup_delete_eq|].
  rewrite lookup_delete_ne by done. unfold h. by rewrite lookup_insert_ne, lookup_singleton_ne by done.
Qed.

(** Reading two different blocks. *)
Lemma two_breads c v d p k1 k2 : k1 ≠ k2 → key_ok k1 → key_ok k2 →
  cview c (CAbs v d ∅ p) → (size p < NBUF)%nat → (k2 ∈ p ∨ (S (size p) < NBUF)%nat) →
  ∃ i1 i2 c1 c2, c_bread c k1 = Ok (i1, c1) ∧ c_bread c1 k2 = Ok (i2, c2) ∧ i1 ≠ i2 ∧
    cview c2 (CAbs v d {[i1 := k1; i2 := k2]} p) ∧ c_writes c2 = c_writes c.
Proof using BL.
  intros Hne H1 H2 Hc Hp Hp2.
  destruct (L_bread c _ k1 Hc H1) as (i1 & c1 & E1 & _ & Hc1 & Hw1).
  { intros i. cbn [held]. by rewrite lookup_empty. }
  { right. cbn [held pins]. rewrite map_size_empty. lia. }
  cbn [view dsk held pins] in Hc1. rewrite insert_empty in Hc1.
  destruct (L_bread c1 _ k2 Hc1 H2) as (i2 & c2 & E2 & Hi2 & Hc2 & Hw2).
  { intros i Hi. cbn [held] in Hi. apply lookup_singleton_Some in Hi as [_ Hi]. done. }
  { cbn [held pins]. rewrite map_size_singleton. destruct Hp2 as [?|?]; [by left|right; lia]. }
  cbn [view dsk held pins] in Hc2, Hi2. exists i1, i2, c1, c2. apply lookup_singleton_None in Hi2.
  split_and!; [done..| |congruence].
  replace ({[i1 := k1; i2 := k2]} : gmap nat bkey) with (<[i2 := k2]> {[i1 := k1]} : gmap nat bkey); [done|].
  rewrite <- !insert_empty. by apply insert_insert_ne.
Qed.

Context (g : log).

(** The log lies on the disk. *)
Record layout : Prop := {
  lo_dev : dev g = ROOTDEV; lo_start : 0 <= start g; lo_size : 0 < lsize g; lo_end : start g + lsize g <= FSSIZE }.
Hypothesis HL : layout.

Definition in_log (b : Z) : Prop := start g <= b < start g + lsize g.
Definition header_key : bkey := (dev g, start g).
Definition log_key (i : Z) : bkey := (dev g, start g + i + 1).
Definition home_key (b : Z) : bkey := (dev g, b).

(** Blocks that may be logged: on the disk, outside of the log. *)
Definition home_ok (b : Z) : Prop := 0 <= b < FSSIZE ∧ ¬ in_log b.

(** The writes of [write_log] and of [install_trans], when the cache shows [v]. *)
Fixpoint log_writes (v : disk_map) (tail : Z) (bl : list Z) : list (bkey * block) :=
  match bl with [] => [] | b :: bl' => (log_key tail, v !!! home_key b) :: log_writes v (tail + 1) bl' end.
Fixpoint inst_writes (v : disk_map) (tail : Z) (bl : list Z) : list (bkey * block) :=
  match bl with [] => [] | b :: bl' => (home_key b, v !!! log_key tail) :: inst_writes v (tail + 1) bl' end.

Lemma log_key_ok i : 0 <= i < lsize g - 1 → key_ok (log_key i).
Proof using HL. destruct HL. unfold key_ok, log_key. cbn [fst snd]. split; [done|]. lia. Qed.

Lemma home_key_ok b : home_ok b → key_ok (home_key b).
Proof using HL. destruct HL. intros [Hb _]. by split. Qed.

Lemma log_home_ne i b : 0 <= i < lsize g - 1 → home_ok b → log_key i ≠ home_key b.
Proof. intros Hi [_ Hb] [= E]. apply Hb. unfold in_log. lia. Qed.

Lemma log_writes_ext v v' tail bl : (∀ b, b ∈ bl → v' !!! home_key b = v !!! home_key b) →
  log_writes v' tail bl = log_writes v tail bl.
Proof.
  revert tail. induction bl as [|b bl IH]; intros tail Hv; cbn [log_writes]; [done|].
  rewrite Hv by apply list_elem_of_here. f_equal. apply IH. intros b' Hb'. apply Hv. by right.
Qed.

Lemma inst_writes_ext v v' tail bl : (∀ i, tail <= i < tail + Z.of_nat (length bl) → v' !!! log_key i = v !!! log_key i) →
  inst_writes v' tail bl = inst_writes v tail bl.
Proof.
  revert tail. induction bl as [|b bl IH]; intros tail Hv; cbn [inst_writes]; [done|]. simpl in Hv.
  rewrite Hv by lia. f_equal. apply IH. intros i Hi. apply Hv. lia.
Qed.

Lemma write_log_spec bl : ∀ c v d p tail, cview c (CAbs v d ∅ p) → (size p < NBUF)%nat →
  Forall home_ok bl → (∀ b, b ∈ bl → home_key b ∈ p) → (∀ b, in_log b → (dev g, b) ∉ p) →
  0 <= tail → tail + Z.of_nat (length bl) < lsize g →
  ∃ c', write_log_loop c g tail bl = Ok c' ∧
    cview c' (CAbs (apply_writes v (log_writes v tail bl)) (apply_writes d (log_writes v tail bl)) ∅ p) ∧
    c_writes c' = c_writes c ++ log_writes v tail bl.
Proof using BL HL.
  induction bl as [|b bl IH]; intros c v d p tail Hc Hp Hok Hin Hlog Ht Hlen.
  { exists c. by rewrite app_nil_r. }
  apply Forall_cons in Hok as [Hb Hok]. simpl length in Hlen. assert (0 <= tail < lsize g - 1) as Htl by lia.
  assert (home_key b ∈ p) as Hbp by apply Hin, list_elem_of_here.
  assert (log_key tail ∉ p) as Hlp by (apply Hlog; unfold in_log; lia).
  pose proof (log_home_ne tail b Htl Hb) as Hne.
  destruct (two_breads c v d p (log_key tail) (home_key b)) as (i1 & i2 & c1 & c2 & E1 & E2 & Hi & Hc2 & Hw2);
    [done|by apply log_key_ok|by apply home_key_ok|done..|by left|].
  destruct (copy_tail_spec c2 v d p i2 i1 (home_key b) (log_key tail)) as (c3 & E3 & Hc3 & Hw3);
    [done|done| |by left|].
  { replace ({[i2 := home_key b; i1 := log_key tail]} : gmap nat bkey) with ({[i1 := log_key tail; i2 := home_key b]} : gmap nat bkey); [done|].
    rewrite <- !insert_empty. by apply insert_insert_ne. }
  replace (p ∖ {[log_key tail]}) with p in Hc3 by set_solver.
  set (x := v !!! home_key b) in *.
  assert (log_writes (<[log_key tail := x]> v) (tail + 1) bl = log_writes v (tail + 1) bl) as Eext.
  { apply log_writes_ext. intros b' Hb'. rewrite lookup_total_insert_ne; [done|]. apply log_home_ne; [done|].
    by eapply Forall_forall in Hok. }
  destruct (IH c3 _ _ p (tail + 1) Hc3) as (c4 & E4 & Hc4 & Hw4); [done|done| |done|lia|lia|].
  { intros b' Hb'. apply Hin. by right. }
  rewrite Eext in Hc4, Hw4. exists c4. cbn [write_log_loop]. fold (log_key tail) (home_key b).
  rewrite E1, bind_Ok, E2, bind_Ok. unfold copy_tail in E3.
  apply bind_Ok_inv in E3 as (xd & Ed & E3). apply bind_Ok_inv in E3 as (y1 & Ew & E3). apply bind_Ok_inv in E3 as (y2 & Er & E3).
  rewrite Ed, bind_Ok, Ew, bind_Ok, Er, bind_Ok, E3, bind_Ok. split; [done|]. split; [done|].
  rewrite Hw4, Hw3, Hw2, <- app_assoc. done.
Qed.

Lemma install_spec bl : ∀ c v d p tail, cview c (CAbs v d ∅ p) → (size p < NBUF)%nat →
  Forall home_ok bl → NoDup bl → (∀ b, b ∈ bl → home_key b ∈ p ∨ (S (size p) < NBUF)%nat) → (∀ b, in_log b → (dev g, b) ∉ p) →
  0 <= tail → tail + Z.of_nat (length bl) < lsize g →
  ∃ c', install_loop c g tail bl = Ok c' ∧
    cview c' (CAbs (apply_writes v (inst_writes v tail bl)) (apply_writes d (inst_writes v tail bl)) ∅
      (p ∖ list_to_set (home_key <$> bl))) ∧
    c_writes c' = c_writes c ++ inst_writes v tail bl.
Proof using BL HL.
  induction bl as [|b bl IH]; intros c v d p tail Hc Hp Hok Hnd Hin Hlog Ht Hlen.
  { exists c. rewrite app_nil_r. replace (p ∖ list_to_set (home_key <$> [])) with p by set_solver. done. }
  apply Forall_cons in Hok as [Hb Hok]. apply NoDup_cons in Hnd as [Hbl Hnd]. simpl length in Hlen.
  assert (0 <= tail < lsize g - 1) as Htl by lia.
  assert (log_key tail ∉ p) as Hlp by (apply Hlog; unfold in_log; lia).
  pose proof (log_home_ne tail b Htl Hb) as Hne.
  destruct (two_breads c v d p (log_key tail) (home_key b)) as (i1 & i2 & c1 & c2 & E1 & E2 & Hi & Hc2 & Hw2);
    [done|by apply log_key_ok|by apply home_key_ok|done..|apply Hin, list_elem_of_here|].
  destruct (copy_tail_spec c2 v d p i1 i2 (log_key tail) (home_key b)) as (c3 & E3 & Hc3 & Hw3);
    [done|done|done| |].
  { right. apply (L_clean c (CAbs v d ∅ p) (log_key tail) Hc); [done|]. intros i. cbn [held]. by rewrite lookup_empty. }
  set (x := v !!! log_key tail) in *.
  assert (inst_writes (<[home_key b := x]> v) (tail + 1) bl = inst_writes v (tail + 1) bl) as Eext.
  { apply inst_writes_ext. intros i Hii. rewrite lookup_total_insert_ne; [done|]. apply not_eq_sym, log_home_ne; [lia|done]. }
  pose proof (subseteq_size (p ∖ {[home_key b]}) p ltac:(set_solver)) as Hle.
  destruct (IH c3 _ _ (p ∖ {[home_key b]}) (tail + 1) Hc3) as (c4 & E4 & Hc4 & Hw4); [lia|done|done| | |lia|lia|].
  { intros b' Hb'. destruct (Hin b') as [Hb'p|Hroom]; [by right| |right; lia]. left.
    apply elem_of_difference. split; [done|]. rewrite elem_of_singleton. intros [= ->]. done. }
  { intros b' Hb' Hin'. apply (Hlog b' Hb'). set_solver. }
  rewrite Eext in Hc4, Hw4. exists c4. cbn [install_loop]. fold (log_key tail) (home_key b).
  rewrite E1, bind_Ok, E2, bind_Ok. unfold copy_tail in E3.
  apply bind_Ok_inv in E3 as (xd & Ed & E3). apply bind_Ok_inv in E3 as (y1 & Ew & E3). apply bind_Ok_inv in E3 as (y2 & Er & E3).
  rewrite Ed, bind_Ok, Ew, bind_Ok, Er, bind_Ok, E3, bind_Ok. split; [done|]. split.
  - replace (p ∖ list_to_set (home_key <$> b :: bl)) with (p ∖ {[home_key b]} ∖ list_to_set (home_key <$> bl)); [done|].
    csimpl. set_solver.
  - rewrite Hw4, Hw3, Hw2, <- app_assoc. done.
Qed.

(** ** The header *)

Definition decode_head (d : block) : list Z := head_blocks d 0 (Z.to_nat (s32 (get32 d 0))).

Lemma length_put_blocks bl : ∀ d i, (4 * (i + length bl) + 4 ≤ length d)%nat → length (put_blocks d i bl) = length d.
Proof.
  induction bl as [|b bl IH]; intros d i Hl; cbn [put_blocks]; [done|]. simpl in Hl.
  rewrite IH; rewrite length_put32; lia.
Qed.

Lemma get_put_blocks_below bl : ∀ d i j, (4 * (i + length bl) + 4 ≤ length d)%nat → (j ≤ i)%nat →
  get32 (put_blocks d i bl) j = get32 d j.
Proof.
  induction bl as [|b bl IH]; intros d i j Hl Hj; cbn [put_blocks]; [done|]. simpl in Hl.
  rewrite IH by (rewrite ?length_put32; lia). apply get_put32_ne; lia.
Qed.

Lemma head_put_blocks bl : ∀ d i, (4 * (i + length bl) + 4 ≤ length d)%nat → Forall is_u32 bl →
  head_blocks (put_blocks d i bl) i (length bl) = bl.
Proof.
  induction bl as [|b bl IH]; intros d i Hl Hb; cbn [put_blocks head_blocks length]; [done|]. simpl in Hl.
  apply Forall_cons in Hb as [Hb Hbl]. f_equal.
  - rewrite get_put_blocks_below by (rewrite ?length_put32; lia). apply get_put32_eq; [lia|done].
  - apply IH; [rewrite length_put32; lia|done].
Qed.

Lemma decode_head_bytes d bl : length d = BSIZE → (length bl ≤ Z.to_nat LOGSIZE)%nat → Forall is_u32 bl →
  s32 (get32 (head_bytes d bl) 0) = Z.of_nat (length bl) ∧ decode_head (head_bytes d bl) = bl ∧ length (head_bytes d bl) = BSIZE.
Proof.
  intros Hd Hl Hb. unfold LOGSIZE, BSIZE in *.
  assert (s32 (get32 (head_bytes d bl) 0) = Z.of_nat (length bl)) as E.
  { unfold head_bytes. rewrite get_put_blocks_below by (rewrite ?length_put32; lia).
    rewrite get_put32_eq; [|lia|unfold is_u32; lia]. apply s32_small. lia. }
  split; [done|]. split.
  - unfold decode_head. rewrite E, Nat2Z.id. unfold head_bytes. apply head_put_blocks; [rewrite length_put32; lia|done].
  - unfold head_bytes. rewrite length_put_blocks; rewrite length_put32; lia.
Qed.

Lemma header_key_ok : key_ok header_key.
Proof using HL. destruct HL. unfold key_ok, header_key. cbn [fst snd]. split; [done|]. lia. Qed.

(** Reading the header block and giving the buffer back. *)
Lemma read_block_spec c v d p k : cview c (CAbs v d ∅ p) → key_ok k → (size p < NBUF)%nat →
  ∃ i c1, c_bread c k = Ok (i, c1) ∧ cview c1 (CAbs v d {[i := k]} p) ∧ c_writes c1 = c_writes c ∧ c_data c1 i = Ok (v !!! k).
Proof using BL.
  intros Hc Hk Hp. destruct (L_bread c _ k Hc Hk) as (i & c1 & E & _ & Hc1 & Hw).
  { intros i. cbn [held]. by rewrite lookup_empty. }
  { right. cbn [held pins]. rewrite map_size_empty. lia. }
  cbn [view dsk held pins] in Hc1. rewrite insert_empty in Hc1. exists i, c1. split_and!; [done..|].
  apply (L_data c1 _ i k Hc1). cbn [held]. by apply lookup_singleton_eq.
Qed.

Lemma write_head_spec c v d p g' : dev g' = dev g → start g' = start g →
  cview c (CAbs v d ∅ p) → (size p < NBUF)%nat → header_key ∉ p →
  let ws := [(header_key, head_bytes (v !!! header_key) (lh g'))] in
  ∃ c', write_head c g' = Ok c' ∧ cview c' (CAbs (apply_writes v ws) (apply_writes d ws) ∅ p) ∧
    c_writes c' = c_writes c ++ ws.
Proof using BL HL.
  intros Ed Es Hc Hp Hh ws. destruct (read_block_spec c v d p header_key Hc header_key_ok Hp) as (i & c1 & E1 & Hc1 & Hw1 & Ed1).
  assert ({[i := header_key]} !! i = Some header_key) as Hi by (by apply (lookup_singleton_eq (M := gmap nat))).
  unfold write_head. rewrite Ed, Es. fold header_key. rewrite E1, bind_Ok, Ed1, bind_Ok.
  destruct (L_store c1 _ i header_key (head_bytes (v !!! header_key) (lh g')) Hc1 Hi) as [Hc2 Hw2]. cbn [view dsk held pins] in Hc2.
  destruct (L_bwrite _ _ i header_key Hc2 Hi) as (c3 & -> & Hc3 & Hw3). cbn [view dsk held pins] in Hc3, Hw3.
  rewrite lookup_total_insert_eq in Hc3, Hw3. rewrite bind_Ok.
  destruct (L_brelse _ _ i header_key Hc3 Hi) as (c4 & -> & Hc4 & Hw4).
  { right. cbn [view dsk]. by rewrite !lookup_total_insert_eq. }
  exists c4. split; [done|]. cbn [view dsk held pins] in Hc4. rewrite delete_singleton_eq in Hc4.
  replace (p ∖ {[header_key]}) with p in Hc4 by set_solver. split; [done|]. by rewrite Hw4, Hw3, Hw2, Hw1.
Qed.

(** ** Recovery *)

(** The header on disk [D] describes a transaction that can be installed. *)
Definition head_ok (D : disk_map) : Prop :=
  let hs := decode_head (D !!! header_key) in
  s32 (get32 (D !!! header_key) 0) <= LOGSIZE ∧ Forall home_ok hs ∧ NoDup hs ∧ Z.of_nat (length hs) < lsize g.

(** What recovery writes. *)
Definition recover_writes (D : disk_map) : list (bkey * block) :=
  let ws := inst_writes D 0 (decode_head (D !!! header_key)) in
  ws ++ [(header_key, head_bytes (D !!! header_key) [])].

Lemma header_not_inst v tail bl : Forall home_ok bl → header_key ∉ (inst_writes v tail bl).*1.
Proof using HL.
  intros Hok. revert tail. induction Hok as [|b bl Hb _ IH]; intros tail; [apply not_elem_of_nil|]. csimpl.
  apply not_elem_of_cons. split; [|apply IH]. intros [= E]. destruct Hb as [_ Hb]. apply Hb. destruct HL. unfold in_log. lia.
Qed.

Lemma recover_spec c D : cview c (CAbs D D ∅ ∅) → head_ok D →
  ∃ c', recover_from_log c g = Ok (c', set_lh [] g) ∧
    cview c' (CAbs (apply_writes D (recover_writes D)) (apply_writes D (recover_writes D)) ∅ ∅) ∧
    c_writes c' = c_writes c ++ recover_writes D.
Proof using BL HL.
  intros Hc (Hn & Hok & Hnd & Hlen). assert (size (∅ : gset bkey) < NBUF)%nat as Hp by (rewrite size_empty; unfold NBUF; lia).
  destruct (read_block_spec c D D ∅ header_key Hc header_key_ok Hp) as (i & c1 & E1 & Hc1 & Hw1 & Ed1).
  destruct (L_brelse c1 _ i header_key Hc1) as (c2 & E2 & Hc2 & Hw2); [by apply (lookup_singleton_eq (M := gmap nat))|by right|].
  cbn [view dsk held pins] in Hc2. rewrite delete_singleton_eq in Hc2.
  unfold recover_from_log, read_head. fold header_key. rewrite E1, bind_Ok, Ed1, bind_Ok.
  rewrite (proj2 (Z.ltb_ge _ _)) by done. rewrite E2, !bind_Ok. fold (decode_head (D !!! header_key)).
  set (hs := decode_head (D !!! header_key)) in *. unfold install_trans. cbn [set_lh lh].
  rewrite (install_loop_ext g) by done.
  destruct (install_spec hs c2 D D ∅ 0 Hc2 Hp Hok Hnd) as (c3 & E3 & Hc3 & Hw3); [|set_solver|lia|lia|].
  { intros b _. right. rewrite size_empty. unfold NBUF. lia. }
  rewrite E3, bind_Ok. replace (∅ ∖ list_to_set (home_key <$> hs)) with (∅ : gset bkey) in Hc3 by set_solver.
  destruct (write_head_spec c3 _ _ ∅ (set_lh [] (set_lh hs g)) eq_refl eq_refl Hc3 Hp) as (c4 & E4 & Hc4 & Hw4); [set_solver|].
  cbn [set_lh lh] in E4, Hc4. cbn zeta. rewrite E4, bind_Ok. exists c4. split; [done|].
  rewrite apply_writes_other in Hc4, Hw4 by (by apply header_not_inst). unfold recover_writes. fold hs.
  rewrite apply_writes_app. split; [done|]. by rewrite Hw4, Hw3, Hw2, Hw1, app_assoc.
Qed.
End specs.
