(* ===== verification/LogCrash.v ===== *)
(** Crash safety of the log: what a disk means, and what survives a crash.

    [stands g D V] says that the disk [D] stands for the file-system content [V]: recovery
    would give [V] on every block outside of the log.  Each single disk write of [commit] and of
    [recover_from_log] keeps [stands], except the write of the header that commits, which goes from
    the old content to the new one in one step.  The lemmas use the interface of the
    cache; the theorems are about the cache of Bio.v. *)

From Stdlib Require Import ZArith Lia.
From stdpp Require Import base numbers list gmap fin_sets sets strings relations.
From S2P Require Import Prelude Bio Log.
#[local] Open Scope Z_scope.

(** * The use of the log

    A file-system call: [begin_op], then for each block bread, a change of its data, log_write and
    brelse, then [end_op]. *)
Section clients.
Context {C : Type} `{BufOps C}.

Definition update (c : C) (g : log) (u : Z * block) : outcome (C * log) :=
  '(bp, c) ← c_bread c (dev g, u.1);
  '(c, g) ← log_write (c_store c bp u.2) g bp;
  c ← c_brelse c bp;
  Ok (c, g).

Fixpoint updates (c : C) (g : log) (us : list (Z * block)) : outcome (C * log) :=
  match us with [] => Ok (c, g) | u :: us' => '(c, g) ← update c g u; updates c g us' end.

Definition transaction (c : C) (g : log) (us : list (Z * block)) : outcome (C * log) :=
  match begin_op g with
  | None => Fault 0
  | Some g => '(c, g) ← updates c g us; end_op c g
  end.

Fixpoint transactions (c : C) (g : log) (txs : list (list (Z * block))) : outcome (C * log) :=
  match txs with [] => Ok (c, g) | us :: txs' => '(c, g) ← transaction c g us; transactions c g txs' end.

(** The log as [initlog] leaves it. *)
Definition boot (c : C) (g : log) : outcome (C * log) := initlog c (dev g) (start g) (lsize g).

(** A machine that stops while it recovers the disk [D]. *)
Definition interrupted (g : log) (D D' : disk_map) : Prop :=
  ∃ (c' : C) g' j, boot (c_init D) g = Ok (c', g') ∧ D' = apply_writes D (take j (c_writes c')).
End clients.

Section crash.
Context {C : Type} `{BL : BufLaws C cview} (g : log) (HL : layout g).

Abbreviation hdr := (header_key g).
Abbreviation head D := (decode_head (D !!! hdr)).

(** The disk [D] stands for the content [V]. *)
Record stands (D V : disk_map) : Prop := {
  st_head : head_ok g D;
  st_len : length (D !!! hdr) = BSIZE;
  st_log : ∀ i b, head D !! i = Some b → D !!! log_key g (Z.of_nat i) = V !!! home_key g b;
  st_home : ∀ b, home_ok g b → b ∉ head D → D !!! home_key g b = V !!! home_key g b }.

(** The log on disk is empty. *)
Definition clean (D V : disk_map) : Prop := stands D V ∧ head D = [].

Lemma header_home_ne b : home_ok g b → home_key g b ≠ hdr.
Proof using HL. intros [_ Hb] [= ->]. apply Hb. destruct HL. unfold in_log. lia. Qed.

Lemma header_log_ne i : 0 <= i → log_key g i ≠ hdr.
Proof. intros Hi [= E]. lia. Qed.

Lemma log_key_inj i j : log_key g i = log_key g j → i = j.
Proof. intros [= E]. lia. Qed.

(** A write to a home block of the header, of the content it stands for. *)
Lemma stands_install D V b : stands D V → b ∈ head D → stands (<[home_key g b := V !!! home_key g b]> D) V.
Proof using HL.
  intros HS Hb. pose proof (st_head _ _ HS) as (Hn & Hok & Hnd & Hl).
  assert (home_ok g b) as Hbo by (by eapply Forall_forall in Hok).
  assert (∀ x, (<[home_key g b := x]> D) !!! hdr = D !!! hdr) as E
    by (intros x; apply lookup_total_insert_ne; by apply header_home_ne).
  split; unfold head_ok; rewrite ?E.
  - exact (st_head _ _ HS).
  - exact (st_len _ _ HS).
  - intros i b' Hi. rewrite lookup_total_insert_ne; [by apply (st_log _ _ HS)|].
    pose proof (lookup_lt_Some _ _ _ Hi). apply not_eq_sym, log_home_ne; [lia|done].
  - intros b' Hb' Hnot. rewrite lookup_total_insert_ne; [by apply (st_home _ _ HS)|]. intros [= ->]. done.
Qed.

(** A write to a log block while the header is empty. *)
Lemma stands_log D V i x : clean D V → 0 <= i < lsize g - 1 → clean (<[log_key g i := x]> D) V.
Proof using HL.
  intros [HS He] Hi. assert ((<[log_key g i := x]> D) !!! hdr = D !!! hdr) as E
    by (apply lookup_total_insert_ne; apply header_log_ne; lia).
  split; [split|]; unfold head_ok; rewrite ?E, ?He.
  - rewrite <- He. exact (st_head _ _ HS).
  - exact (st_len _ _ HS).
  - intros j b. by rewrite lookup_nil.
  - intros b Hb _. rewrite lookup_total_insert_ne by (by apply log_home_ne). apply (st_home _ _ HS); [done|].
    rewrite He. apply not_elem_of_nil.
  - done.
Qed.

(** Home blocks as the header stores them. *)
Lemma home_u32 bl : Forall (home_ok g) bl → Forall is_u32 bl.
Proof. intros Hok. eapply Forall_impl; [done|]. intros b [Hb _]. unfold is_u32, FSSIZE in *. lia. Qed.

(** Clearing the header when every home block is installed. *)
Lemma stands_clear D V : stands D V → (∀ b, b ∈ head D → D !!! home_key g b = V !!! home_key g b) →
  clean (<[hdr := head_bytes (D !!! hdr) []]> D) V.
Proof using HL.
  intros HS Hin. destruct (decode_head_bytes (D !!! hdr) [] (st_len _ _ HS)) as (En & Ed & El); [cbn; lia|constructor|].
  assert ((<[hdr := head_bytes (D !!! hdr) []]> D) !!! hdr = head_bytes (D !!! hdr) []) as E by apply lookup_total_insert_eq.
  split; [split|]; unfold head_ok; rewrite ?E, ?Ed, ?En, ?El; try done.
  - cbn. destruct HL. split_and!; [done|constructor|constructor|done].
  - intros b Hb _. rewrite lookup_total_insert_ne by (by apply not_eq_sym, header_home_ne).
    destruct (decide (b ∈ head D)) as [Hbh|Hbh]; [by apply Hin|by apply (st_home _ _ HS)].
Qed.

(** The commit point: the log blocks hold the new content of the blocks [bl]. *)
Lemma stands_commit D V V' bl : clean D V → Forall (home_ok g) bl → NoDup bl →
  Z.of_nat (length bl) < lsize g → Z.of_nat (length bl) <= LOGSIZE →
  (∀ i b, bl !! i = Some b → D !!! log_key g (Z.of_nat i) = V' !!! home_key g b) →
  (∀ b, home_ok g b → b ∉ bl → V' !!! home_key g b = V !!! home_key g b) →
  stands (<[hdr := head_bytes (D !!! hdr) bl]> D) V'.
Proof using HL.
  intros [HS He] Hok Hnd Hl Hl2 Hlog Hhome.
  destruct (decode_head_bytes (D !!! hdr) bl (st_len _ _ HS)) as (En & Ed & El); [lia|by apply home_u32|].
  assert ((<[hdr := head_bytes (D !!! hdr) bl]> D) !!! hdr = head_bytes (D !!! hdr) bl) as E by apply lookup_total_insert_eq.
  split; unfold head_ok; rewrite ?E, ?Ed, ?En, ?El; try done.
  - intros i b Hi. rewrite lookup_total_insert_ne by (apply not_eq_sym, header_log_ne; lia). by apply Hlog.
  - intros b Hb Hnot. rewrite lookup_total_insert_ne by (by apply not_eq_sym, header_home_ne).
    rewrite Hhome by done. apply (st_home _ _ HS); [done|]. rewrite He. apply not_elem_of_nil.
Qed.

(** ** The prefixes of the writes *)

Definition home_writes (V : disk_map) (bl : list Z) : list (bkey * block) :=
  (λ b, (home_key g b, V !!! home_key g b)) <$> bl.

Lemma inst_home_writes D V bl : ∀ tail,
  (∀ i b, bl !! i = Some b → D !!! log_key g (tail + Z.of_nat i) = V !!! home_key g b) →
  inst_writes g D tail bl = home_writes V bl.
Proof.
  induction bl as [|b bl IH]; intros tail Hlog; [done|]. cbn [inst_writes home_writes fmap list_fmap].
  pose proof (Hlog 0%nat b eq_refl) as E0. rewrite Z.add_0_r in E0. rewrite E0. f_equal. apply IH.
  intros i b' Hi. rewrite <- (Hlog (S i) b' Hi). f_equal. f_equal. lia.
Qed.

Lemma home_writes_prefix bl : ∀ D V, stands D V → bl ⊆ head D →
  stands (apply_writes D (home_writes V bl)) V ∧ apply_writes D (home_writes V bl) !!! hdr = D !!! hdr.
Proof using HL.
  induction bl as [|b bl IH]; intros D V HS Hin; [done|].
  assert (b ∈ head D) as Hb by apply Hin, list_elem_of_here.
  assert (home_ok g b) as Hbo by (destruct (st_head _ _ HS) as (_ & Hok & _); by eapply Forall_forall in Hok).
  pose proof (stands_install D V b HS Hb) as HS'.
  assert ((<[home_key g b := V !!! home_key g b]> D) !!! hdr = D !!! hdr) as E
    by (apply lookup_total_insert_ne; by apply header_home_ne).
  cbn [home_writes fmap list_fmap apply_writes foldl fst snd].
  destruct (IH _ V HS') as [HS2 E2]; [rewrite E; intros x Hx; apply Hin; by right|].
  split; [exact HS2|]. rewrite <- E. exact E2.
Qed.

Lemma home_writes_in D V bl b : NoDup bl → b ∈ bl → apply_writes D (home_writes V bl) !!! home_key g b = V !!! home_key g b.
Proof.
  intros Hnd Hb. apply apply_writes_in.
  - unfold home_writes. rewrite <- list_fmap_compose. apply NoDup_fmap; [|done]. by intros x y [= ->].
  - unfold home_writes. apply list_elem_of_fmap. by exists b.
Qed.

(** Installing the blocks of the header and clearing it, stopped at any point. *)
Lemma install_clear_prefix D V k :
  let W := home_writes V (head D) ++ [(hdr, head_bytes (D !!! hdr) [])] in
  stands D V → stands (apply_writes D (take k W)) V ∧ clean (apply_writes D W) V.
Proof using HL.
  intros W HS. destruct (st_head _ _ HS) as (_ & _ & Hnd & _).
  destruct (home_writes_prefix (head D) D V HS) as [HS1 E1]; [done|].
  assert (clean (apply_writes D W) V) as Hfin.
  { unfold W. rewrite apply_writes_app. cbn [apply_writes foldl fst snd]. fold (apply_writes D (home_writes V (head D))).
    set (D1 := apply_writes D (home_writes V (head D))) in *. rewrite <- E1. apply stands_clear; [done|]. rewrite E1.
    intros b Hb. by apply home_writes_in. }
  split; [|done]. destruct (decide (k ≤ length (home_writes V (head D)))%nat) as [Hk|Hk].
  - unfold W. rewrite take_app_le by done. unfold home_writes. rewrite <- fmap_take. apply home_writes_prefix; [done|].
    apply subseteq_take.
  - rewrite take_ge; [apply Hfin|]. unfold W. rewrite length_app. cbn [length]. lia.
Qed.

(** Recovery, stopped at any point and finished. *)
Lemma recover_prefix D V k : stands D V →
  stands (apply_writes D (take k (recover_writes g D))) V ∧ clean (apply_writes D (recover_writes g D)) V.
Proof using HL.
  intros HS. unfold recover_writes. rewrite (inst_home_writes D V); [by apply install_clear_prefix|].
  intros i b Hi. rewrite Z.add_0_l. by apply (st_log _ _ HS).
Qed.

(** ** The writes of a commit *)

Definition commit_writes (h : block) (V : disk_map) (bl : list Z) : list (bkey * block) :=
  log_writes g V 0 bl ++ (hdr, head_bytes h bl) :: home_writes V bl ++ [(hdr, head_bytes (head_bytes h bl) [])].

Lemma length_log_writes V bl : ∀ tail, length (log_writes g V tail bl) = length bl.
Proof. induction bl as [|b bl IH]; intros tail; cbn [log_writes length]; [done|]. by rewrite IH. Qed.

Lemma log_writes_prefix V' bl : ∀ D V tail k, clean D V → 0 <= tail → tail + Z.of_nat (length bl) < lsize g →
  let D' := apply_writes D (take k (log_writes g V' tail bl)) in clean D' V ∧ D' !!! hdr = D !!! hdr.
Proof using HL.
  induction bl as [|b bl IH]; intros D V tail k HC Ht Hl; cbn [log_writes]; [by destruct k|]. simpl length in Hl.
  destruct k as [|k]; [done|]. cbn [take apply_writes foldl fst snd].
  destruct (IH (<[log_key g tail := V' !!! home_key g b]> D) V (tail + 1) k) as [HC' E']; [apply stands_log; [done|lia]|lia..|].
  split; [exact HC'|]. etrans; [exact E'|]. apply lookup_total_insert_ne. by apply header_log_ne.
Qed.

Lemma log_writes_content V' bl : ∀ D tail i b, bl !! i = Some b →
  apply_writes D (log_writes g V' tail bl) !!! log_key g (tail + Z.of_nat i) = V' !!! home_key g b.
Proof.
  induction bl as [|b0 bl IH]; intros D tail i b Hi; [done|]. cbn [log_writes apply_writes foldl fst snd].
  destruct i as [|i]; [|rewrite <- (IH (<[log_key g tail := V' !!! home_key g b0]> D) (tail + 1) i b Hi); unfold apply_writes; do 2 f_equal; lia].
  injection Hi as <-. fold (apply_writes (<[log_key g tail := V' !!! home_key g b0]> D) (log_writes g V' (tail + 1) bl)).
  rewrite Z.add_0_r, apply_writes_other; [apply lookup_total_insert_eq|].
  assert (∀ t, tail < t → log_key g tail ∉ (log_writes g V' t bl).*1) as Hout; [|apply Hout; lia].
  clear. induction bl as [|b bl IH]; intros t Ht; [apply not_elem_of_nil|]. csimpl. apply not_elem_of_cons.
  split; [|apply IH; lia]. intros E%log_key_inj. lia.
Qed.

(** What a commit leaves outside of the log. *)
Lemma commit_writes_home D h V bl b : NoDup bl → home_ok g b → Z.of_nat (length bl) < lsize g →
  apply_writes D (commit_writes h V bl) !!! home_key g b = if decide (b ∈ bl) then V !!! home_key g b else D !!! home_key g b.
Proof using HL.
  intros Hnd Hb Hl. unfold commit_writes. rewrite cons_middle, !apply_writes_app.
  rewrite (apply_writes_other _ [(hdr, head_bytes (head_bytes h bl) [])]) by (intros E%list_elem_of_singleton; by apply (header_home_ne b Hb)).
  case_decide as Hin; [by apply home_writes_in|]. rewrite apply_writes_other.
  2:{ unfold home_writes. rewrite <- list_fmap_compose. intros (b' & [= ->] & Hb')%list_elem_of_fmap. done. }
  rewrite (apply_writes_other _ [(hdr, head_bytes h bl)]) by (intros E%list_elem_of_singleton; by apply (header_home_ne b Hb)).
  apply apply_writes_other.
  assert (∀ t, 0 <= t → t + Z.of_nat (length bl) < lsize g → home_key g b ∉ (log_writes g V t bl).*1) as Hout; [|by apply Hout].
  clear Hl Hin Hnd. induction bl as [|b' bl IH]; intros t Ht Hl; [apply not_elem_of_nil|]. csimpl in *. apply not_elem_of_cons.
  split; [by apply not_eq_sym, log_home_ne; [lia|]|apply IH; lia].
Qed.

(** A commit stopped after [k] writes: the old content before the header is written, the new one from then on. *)
Lemma commit_prefix D V V' bl k : clean D V → Forall (home_ok g) bl → NoDup bl →
  Z.of_nat (length bl) < lsize g → Z.of_nat (length bl) <= LOGSIZE →
  (∀ b, home_ok g b → b ∉ bl → V' !!! home_key g b = V !!! home_key g b) →
  stands (apply_writes D (take k (commit_writes (D !!! hdr) V' bl))) (if decide (k ≤ length bl)%nat then V else V') ∧
  clean (apply_writes D (commit_writes (D !!! hdr) V' bl)) V'.
Proof using HL.
  intros HC Hok Hnd Hl Hl2 Hhome. set (L := log_writes g V' 0 bl).
  assert (∀ j, clean (apply_writes D (take j L)) V ∧ apply_writes D (take j L) !!! hdr = D !!! hdr) as Hlog.
  { intros j. apply log_writes_prefix; [done|lia..]. }
  pose proof (Hlog (length L)) as [HC1 E1]. rewrite firstn_all in HC1, E1. set (D1 := apply_writes D L) in *.
  assert (stands (<[hdr := head_bytes (D !!! hdr) bl]> D1) V') as HS2.
  { rewrite <- E1. apply (stands_commit D1 V V' bl); try done. intros i b Hi.
    rewrite <- (log_writes_content V' bl D 0 i b Hi). by rewrite Z.add_0_l. }
  set (D2 := <[hdr := head_bytes (D !!! hdr) bl]> D1) in *.
  assert (D2 !!! hdr = head_bytes (D !!! hdr) bl) as E2 by apply lookup_total_insert_eq.
  assert (head D2 = bl) as Eh.
  { rewrite E2. apply decode_head_bytes; [apply (st_len _ _ (proj1 HC))|lia|by apply home_u32]. }
  pose proof (λ j, install_clear_prefix D2 V' j HS2) as HP. rewrite Eh, E2 in HP. unfold commit_writes. fold L.
  assert (length L = length bl) as EL by apply length_log_writes. split.
  - destruct (decide (k ≤ length bl)%nat) as [Hk|Hk].
    + rewrite take_app_le by lia. apply Hlog.
    + rewrite take_app_ge, apply_writes_app by lia. fold D1. replace (k - length L)%nat with (S (k - S (length L))) by lia.
      exact (proj1 (HP _)).
  - rewrite apply_writes_app. fold D1. exact (proj2 (HP 0%nat)).
Qed.

(** ** Running a commit *)

Lemma write_log_ext g' bl : ∀ tail (c : C), dev g' = dev g → start g' = start g →
  write_log_loop c g' tail bl = write_log_loop c g tail bl.
Proof.
  induction bl as [|b bl IH]; intros tail c Hd Hs; cbn [write_log_loop]; [done|]. rewrite Hd, Hs.
  apply bind_ext. intros [to c1]. apply bind_ext. intros [from c2]. apply bind_ext. intros d.
  do 3 (apply bind_ext; intros ?). by apply IH.
Qed.

(** The blocks pinned by the log. *)
Definition logged (bl : list Z) : gset bkey := list_to_set (home_key g <$> bl).

Lemma logged_in bl b : b ∈ bl → home_key g b ∈ logged bl.
Proof. intros Hb. apply elem_of_list_to_set, list_elem_of_fmap. by exists b. Qed.

Lemma logged_inv bl k : k ∈ logged bl → ∃ b, k = home_key g b ∧ b ∈ bl.
Proof. intros Hk. apply elem_of_list_to_set, list_elem_of_fmap in Hk as (b & -> & Hb). by exists b. Qed.

Lemma logged_size bl : (size (logged bl) ≤ length bl)%nat.
Proof.
  unfold logged. induction bl as [|b bl IH]; [done|]. csimpl. rewrite size_union_alt, size_singleton.
  etrans; [|apply le_n_S, IH]. apply le_n_S, subseteq_size. set_solver.
Qed.

Lemma log_not_logged bl b : Forall (home_ok g) bl → in_log g b → (dev g, b) ∉ logged bl.
Proof. intros Hok Hb (b' & [= ->] & Hin)%logged_inv. eapply Forall_forall in Hok; [|done]. by destruct Hok. Qed.

Lemma header_not_home V bl : Forall (home_ok g) bl → hdr ∉ (home_writes V bl).*1.
Proof using HL.
  intros Hok. unfold home_writes. rewrite <- list_fmap_compose. intros (b & E & Hb)%list_elem_of_fmap. cbn in E.
  eapply Forall_forall in Hok; [|done]. by apply (header_home_ne b Hok).
Qed.

Lemma commit_spec c g' v d bl : dev g' = dev g → start g' = start g → lh g' = bl → bl ≠ [] →
  cview c (CAbs v d ∅ (logged bl)) → Forall (home_ok g) bl → NoDup bl →
  Z.of_nat (length bl) < lsize g → (length bl < NBUF)%nat →
  let W := commit_writes (v !!! hdr) v bl in
  ∃ c' v', commit c g' = Ok (c', set_lh [] g') ∧ cview c' (CAbs v' (apply_writes d W) ∅ ∅) ∧ c_writes c' = c_writes c ++ W.
Proof using BL HL.
  intros Ed Es El Hne Hc Hok Hnd Hl Hb W. pose proof (logged_size bl) as Hsz.
  assert (∀ b, in_log g b → (dev g, b) ∉ logged bl) as Hnl by (intros b; by apply log_not_logged).
  assert (hdr ∉ logged bl) as Hh by (apply Hnl; destruct HL; unfold in_log; lia).
  unfold commit. rewrite El. rewrite (proj2 (Z.ltb_lt _ _)) by (destruct bl; [done|cbn; lia]).
  unfold write_log, install_trans. rewrite El, (write_log_ext g') by done.
  destruct (write_log_spec g HL bl c v d (logged bl) 0 Hc) as (c1 & -> & Hc1 & Hw1); [lia|done|apply logged_in|done|lia..|].
  rewrite bind_Ok. set (L := log_writes g v 0 bl) in *.
  assert (apply_writes v L !!! hdr = v !!! hdr) as Eh.
  { apply apply_writes_other. unfold L. assert (∀ t, 0 <= t → hdr ∉ (log_writes g v t bl).*1) as Hout; [|apply Hout; lia].
    clear. induction bl as [|b bl IH]; intros t Ht; [apply not_elem_of_nil|]. csimpl. apply not_elem_of_cons.
    split; [|apply IH; lia]. by apply not_eq_sym, header_log_ne. }
  destruct (write_head_spec g HL c1 _ _ (logged bl) g' Ed Es Hc1) as (c2 & -> & Hc2 & Hw2); [lia|done|].
  rewrite bind_Ok, (install_loop_ext g) by done. rewrite Eh, El in Hc2, Hw2. set (h1 := head_bytes (v !!! hdr) bl) in *.
  destruct (install_spec g HL bl c2 _ _ (logged bl) 0 Hc2) as (c3 & -> & Hc3 & Hw3); [lia|done|done| |done|lia..|].
  { intros b Hin. left. by apply logged_in. }
  rewrite bind_Ok. cbn zeta. fold (logged bl) in Hc3. rewrite difference_diag_L in Hc3.
  rewrite (inst_home_writes _ v) in Hc3, Hw3.
  2-3: intros i b Hi; rewrite apply_writes_other;
    [rewrite <- (log_writes_content v bl v 0 i b Hi); by rewrite Z.add_0_l|cbn; apply not_elem_of_cons; split; [apply header_log_ne; lia|apply not_elem_of_nil]].
  destruct (write_head_spec g HL c3 _ _ ∅ (set_lh [] g') Ed Es Hc3) as (c4 & -> & Hc4 & Hw4); [rewrite size_empty; unfold NBUF; lia|set_solver|].
  rewrite bind_Ok. eexists _, _. split; [done|].
  assert (∀ m, apply_writes (apply_writes m [(hdr, h1)]) (home_writes v bl) !!! hdr = h1) as Eh1.
  { intros m. rewrite apply_writes_other by (by apply header_not_home). apply lookup_total_insert_eq. }
  rewrite Eh1 in Hc4, Hw4.
  split; [|unfold W, commit_writes; rewrite Hw4, Hw3, Hw2, Hw1, <- !app_assoc; done].
  unfold W, commit_writes. rewrite apply_writes_app. cbn [apply_writes foldl fst snd] in Hc4 |- *. rewrite foldl_app. exact Hc4.
Qed.

(** ** Transactions *)

Definition upd_writes (us : list (Z * block)) : list (bkey * block) := (λ u, (home_key g u.1, u.2)) <$> us.

(** The content after the transactions [txs]. *)
Definition content (V : disk_map) (txs : list (list (Z * block))) : disk_map := apply_writes V (upd_writes (concat txs)).

Definition idle : Prop := outstanding g = 0 ∧ committing g = false ∧ lh g = [].

(** A transaction the log has room for. *)
Definition fits (us : list (Z * block)) : Prop :=
  Forall (home_ok g) us.*1 ∧ Z.of_nat (length us) < Z.min LOGSIZE (lsize g).

Lemma absorb_spec bl b : home_ok g b → Forall (home_ok g) bl → NoDup bl →
  logged (absorb bl b) = {[home_key g b]} ∪ logged bl ∧ Forall (home_ok g) (absorb bl b) ∧ NoDup (absorb bl b) ∧
  (length (absorb bl b) ≤ S (length bl))%nat ∧ ∀ x, x ∈ absorb bl b ↔ x = b ∨ x ∈ bl.
Proof.
  intros Hb Hok Hnd. unfold absorb. destruct (decide (b ∈ bl)) as [Hin|Hin].
  - pose proof (logged_in bl b Hin). split_and!; [set_solver|done|done|lia|]. intros x. split; [by right|]. by intros [->|?].
  - split_and!.
    + unfold logged. rewrite fmap_app, list_to_set_app_L. csimpl. set_solver.
    + apply Forall_app. by split; [|constructor].
    + apply NoDup_app. split_and!; [done| |apply NoDup_singleton]. intros x Hx ->%list_elem_of_singleton. done.
    + rewrite length_app. cbn. lia.
    + intros x. rewrite elem_of_app, list_elem_of_singleton. tauto.
Qed.

Lemma update_spec c g' v d u : dev g' = dev g → 1 <= outstanding g' → home_ok g u.1 →
  Forall (home_ok g) (lh g') → NoDup (lh g') → Z.of_nat (length (lh g')) < Z.min LOGSIZE (lsize g' - 1) →
  cview c (CAbs v d ∅ (logged (lh g'))) →
  ∃ c', update c g' u = Ok (c', set_lh (absorb (lh g') u.1) g') ∧
    cview c' (CAbs (<[home_key g u.1 := u.2]> v) d ∅ (logged (absorb (lh g') u.1))) ∧ c_writes c' = c_writes c.
Proof using BL HL.
  intros Ed Ho Hu Hok Hnd Hl Hc. pose proof (logged_size (lh g')) as Hsz. unfold LOGSIZE in Hl.
  destruct (read_block_spec c v d (logged (lh g')) (home_key g u.1) Hc) as (i & c1 & E1 & Hc1 & Hw1 & _);
    [by apply home_key_ok|unfold NBUF; lia|].
  assert ({[i := home_key g u.1]} !! i = Some (home_key g u.1)) as Hi by (by apply (lookup_singleton_eq (M := gmap nat))).
  destruct (law_store (cview := cview) c1 _ i _ u.2 Hc1 Hi) as [Hc2 Hw2]. cbn [view dsk held pins] in Hc2.
  destruct (law_data (cview := cview) _ _ i _ Hc2 Hi) as [_ Ek].
  destruct (law_pin (cview := cview) _ _ i _ Hc2 Hi) as [Hc3 Hw3]. cbn [view dsk held pins] in Hc3.
  destruct (law_brelse (cview := cview) _ _ i _ Hc3 Hi) as (c4 & E4 & Hc4 & Hw4); [left; set_solver|].
  cbn [view dsk held pins] in Hc4. rewrite delete_singleton_eq in Hc4.
  exists c4. unfold update. rewrite Ed. fold (home_key g u.1). rewrite E1, bind_Ok. unfold log_write, LOGSIZE.
  rewrite (proj2 (Z.leb_gt _ _)), (proj2 (Z.leb_gt _ _)), (proj2 (Z.ltb_ge _ _)) by lia. cbn [orb].
  rewrite Ek, !bind_Ok, E4, bind_Ok. split; [done|].
  destruct (absorb_spec (lh g') u.1 Hu Hok Hnd) as [-> _]. split; [done|]. congruence.
Qed.

Lemma updates_spec us : ∀ c g' v d, dev g' = dev g → lsize g' = lsize g → 1 <= outstanding g' → Forall (home_ok g) us.*1 →
  Forall (home_ok g) (lh g') → NoDup (lh g') → Z.of_nat (length (lh g') + length us) < Z.min LOGSIZE (lsize g) →
  cview c (CAbs v d ∅ (logged (lh g'))) →
  ∃ c' bl, updates c g' us = Ok (c', set_lh bl g') ∧
    cview c' (CAbs (apply_writes v (upd_writes us)) d ∅ (logged bl)) ∧ c_writes c' = c_writes c ∧
    Forall (home_ok g) bl ∧ NoDup bl ∧ (length bl ≤ length (lh g') + length us)%nat ∧ ∀ x, x ∈ bl ↔ x ∈ lh g' ∨ x ∈ us.*1.
Proof using BL HL.
  induction us as [|u us IH]; intros c g' v d Ed Es Ho Hus Hok Hnd Hl Hc.
  { exists c, (lh g'). split_and!; [by destruct g'|done..|lia|]. intros x. set_solver. }
  csimpl in Hus. apply Forall_cons in Hus as [Hu Hus]. cbn [length] in Hl.
  destruct (update_spec c g' v d u) as (c1 & E1 & Hc1 & Hw1); [done..|lia|done|].
  destruct (absorb_spec (lh g') u.1 Hu Hok Hnd) as (_ & Hok1 & Hnd1 & Hl1 & Hin1).
  destruct (IH c1 (set_lh (absorb (lh g') u.1) g') _ d Ed Es Ho Hus Hok1 Hnd1 ltac:(cbn [lh set_lh]; lia) Hc1)
    as (c2 & bl & E2 & Hc2 & Hw2 & Hok2 & Hnd2 & Hl2 & Hin2). cbn [lh set_lh] in Hl2, Hin2.
  exists c2, bl. cbn [updates]. rewrite E1, bind_Ok, E2. split_and!; [done..|congruence|done|done|cbn [length]; lia|].
  intros x. rewrite Hin2, Hin1. csimpl. rewrite elem_of_cons. tauto.
Qed.

Lemma stands_ext D V V' : (∀ b, home_ok g b → V' !!! home_key g b = V !!! home_key g b) → stands D V → stands D V'.
Proof.
  intros HV HS. pose proof (st_head _ _ HS) as (_ & Hok & _). split; [apply HS..| |].
  - intros i b Hi. rewrite HV; [by apply (st_log _ _ HS)|]. eapply Forall_lookup in Hok; done.
  - intros b Hb Hn. rewrite HV by done. by apply (st_home _ _ HS).
Qed.

Lemma upd_writes_agree v V us b : v !!! home_key g b = V !!! home_key g b →
  apply_writes v (upd_writes us) !!! home_key g b = apply_writes V (upd_writes us) !!! home_key g b.
Proof.
  revert v V. induction us as [|u us IH]; intros v V E; [done|]. cbn [upd_writes fmap list_fmap apply_writes foldl fst snd].
  apply IH. destruct (decide (home_key g u.1 = home_key g b)) as [->|Hne]; [by rewrite !lookup_total_insert_eq|].
  by rewrite !lookup_total_insert_ne.
Qed.

Lemma upd_writes_other v us k : (∀ b, b ∈ us.*1 → home_key g b ≠ k) → apply_writes v (upd_writes us) !!! k = v !!! k.
Proof.
  intros Hk. apply apply_writes_other. unfold upd_writes. rewrite <- list_fmap_compose.
  intros (u & -> & Hu)%list_elem_of_fmap. apply (Hk u.1); [|done]. apply list_elem_of_fmap. by exists u.
Qed.

(** One file-system call: it returns, and a crash leaves all of it or nothing. *)
Lemma transaction_spec c v D V us : idle → fits us → cview c (CAbs v D ∅ ∅) → clean D V →
  ∃ c' v' W, transaction c g us = Ok (c', g) ∧ c_writes c' = c_writes c ++ W ∧
    cview c' (CAbs v' (apply_writes D W) ∅ ∅) ∧ clean (apply_writes D W) (content V [us]) ∧
    ∀ k, stands (apply_writes D (take k W)) V ∨ stands (apply_writes D (take k W)) (content V [us]).
Proof using BL HL.
  intros (Hout & Hcom & Hlh) [Hok Hl] Hc HC. unfold LOGSIZE in Hl.
  assert (∀ k, v !!! k = D !!! k) as Hv.
  { intros k. apply (law_clean (cview := cview) c _ k Hc); [set_solver|]. intros i. cbn [held]. by rewrite lookup_empty. }
  assert (∀ b, home_ok g b → D !!! home_key g b = V !!! home_key g b) as HV.
  { intros b Hb. apply (st_home _ _ (proj1 HC)); [done|]. rewrite (proj2 HC). apply not_elem_of_nil. }
  unfold transaction, begin_op. rewrite Hcom, Hlh, Hout. cbn [length Z.of_nat].
  rewrite (proj2 (Z.ltb_ge _ _)) by (unfold LOGSIZE, MAXOPBLOCKS; lia).
  set (g1 := set_outstanding (0 + 1) g). unfold content. cbn [concat]. rewrite app_nil_r. set (V' := apply_writes V (upd_writes us)).
  destruct (updates_spec us c g1 v D) as (c1 & bl & E1 & Hc1 & Hw1 & Hbok & Hnd & Hbl & Hin);
    [done..|cbn; by rewrite ?Hlh|cbn; rewrite ?Hlh; constructor|unfold g1, LOGSIZE; cbn [lh set_outstanding]; rewrite Hlh; cbn [length]; lia| |].
  { unfold g1. cbn [lh set_outstanding]. by rewrite Hlh. }
  unfold g1 in Hbl, Hin. cbn [lh set_outstanding] in Hbl, Hin. rewrite Hlh in Hbl, Hin. cbn [length] in Hbl.
  rewrite E1, bind_Ok. unfold end_op, end_op_start. cbn [set_lh set_outstanding outstanding committing g1]. rewrite Hcom.
  replace (0 + 1 - 1) with 0 by lia. rewrite Z.eqb_refl, bind_Ok.
  change (set_committing true (set_outstanding 0 (set_lh bl g1))) with (Log (start g) (lsize g) 0 true (dev g) bl).
  assert (Log (start g) (lsize g) 0 false (dev g) [] = g) as Eg by (destruct g; cbn in *; congruence).
  destruct (decide (bl = [])) as [->|Hne].
  { exists c1, (apply_writes v (upd_writes us)), []. unfold commit. cbn [lh length].
    change (0 <? Z.of_nat 0) with false. cbn iota. rewrite bind_Ok. unfold set_committing. cbn [start lsize outstanding dev lh]. rewrite Eg, app_nil_r.
    assert (us = []) as -> by (destruct us as [|u us']; [done|]; exfalso; apply (not_elem_of_nil u.1), Hin; right; by left).
    by split_and!; [..|left; rewrite take_nil; apply HC]. }
  destruct (commit_spec c1 (Log (start g) (lsize g) 0 true (dev g) bl) (apply_writes v (upd_writes us)) D bl)
    as (c2 & v2 & E2 & Hc2 & Hw2); [done..|lia|unfold NBUF; lia|].
  assert (apply_writes v (upd_writes us) !!! hdr = D !!! hdr) as Eh.
  { rewrite upd_writes_other; [apply Hv|]. intros b Hb. apply header_home_ne. by eapply Forall_forall in Hok. }
  rewrite Eh in Hc2, Hw2. set (v1 := apply_writes v (upd_writes us)) in *. set (W := commit_writes (D !!! hdr) v1 bl) in *.
  assert (∀ b, home_ok g b → V' !!! home_key g b = v1 !!! home_key g b) as HV1.
  { intros b Hb. unfold V', v1. symmetry. apply upd_writes_agree. by rewrite Hv, HV. }
  pose proof (λ k, commit_prefix D V v1 bl k HC Hbok Hnd ltac:(lia) ltac:(unfold LOGSIZE; lia)) as HP.
  assert (∀ b, home_ok g b → b ∉ bl → v1 !!! home_key g b = V !!! home_key g b) as Hoff.
  { intros b Hb Hn. unfold v1. rewrite upd_writes_other; [by rewrite Hv, HV|]. intros b' Hb' [= ->]. apply Hn, Hin. by right. }
  exists c2, v2, W. rewrite E2, bind_Ok. unfold set_lh, set_committing. cbn [start lsize outstanding committing dev lh]. rewrite Eg.
  split_and!; [done|congruence|done| |].
  - destruct (HP 0%nat Hoff) as [_ [HS He]]. split; [by apply (stands_ext _ v1)|done].
  - intros k. destruct (HP k Hoff) as [HS _]. fold W in HS. case_decide; [by left|]. right. by apply (stands_ext _ v1).
Qed.

Lemma content_cons V us txs : content V (us :: txs) = content (content V [us]) txs.
Proof. unfold content. cbn [concat]. rewrite app_nil_r. unfold upd_writes. by rewrite fmap_app, apply_writes_app. Qed.

Lemma transactions_run txs : ∀ c v D V, idle → Forall fits txs → cview c (CAbs v D ∅ ∅) → clean D V →
  ∃ c' W, transactions c g txs = Ok (c', g) ∧ c_writes c' = c_writes c ++ W.
Proof using BL HL.
  induction txs as [|us txs IH]; intros c v D V Hid Hf Hc HC; [exists c, []; by rewrite app_nil_r|].
  apply Forall_cons in Hf as [Hu Hf].
  destruct (transaction_spec c v D V us Hid Hu Hc HC) as (c1 & v1 & W1 & E1 & Hw1 & Hc1 & HC1 & _).
  destruct (IH c1 v1 _ _ Hid Hf Hc1 HC1) as (c2 & W2 & E2 & Hw2).
  exists c2, (W1 ++ W2). cbn [transactions]. rewrite E1, bind_Ok. by rewrite Hw2, Hw1, app_assoc.
Qed.

(** Any number of calls: a crash leaves the effect of the first [m] of them, at least of those that had returned. *)
Lemma transactions_spec txs : ∀ c v D V, idle → Forall fits txs → cview c (CAbs v D ∅ ∅) → clean D V →
  ∃ c' W, transactions c g txs = Ok (c', g) ∧ c_writes c' = c_writes c ++ W ∧
    ∀ k, ∃ m, (m ≤ length txs)%nat ∧ stands (apply_writes D (take k W)) (content V (take m txs)) ∧
      ∀ i c1 g1, (i ≤ length txs)%nat → transactions c g (take i txs) = Ok (c1, g1) →
        (length (c_writes c1) ≤ length (c_writes c) + k)%nat → (i ≤ m)%nat.
Proof using BL HL.
  induction txs as [|us txs IH]; intros c v D V Hid Hf Hc HC.
  { exists c, []. rewrite app_nil_r. split_and!; [done..|]. intros k. exists 0%nat. rewrite take_nil.
    split_and!; [done|apply HC|]. cbn [length]. lia. }
  apply Forall_cons in Hf as [Hu Hf].
  destruct (transaction_spec c v D V us Hid Hu Hc HC) as (c1 & v1 & W1 & E1 & Hw1 & Hc1 & HC1 & HP).
  destruct (IH c1 v1 _ _ Hid Hf Hc1 HC1) as (c2 & W2 & E2 & Hw2 & HP2).
  exists c2, (W1 ++ W2). cbn [transactions]. rewrite E1, bind_Ok. split_and!; [done|by rewrite Hw2, Hw1, app_assoc|].
  intros k. assert (length (c_writes c1) = length (c_writes c) + length W1)%nat as El by (by rewrite Hw1, length_app).
  destruct (decide (length W1 ≤ k)%nat) as [Hk|Hk].
  - destruct (HP2 (k - length W1)%nat) as (m & Hm & HS & Hdur). exists (S m). cbn [length take].
    rewrite take_app_ge, apply_writes_app, content_cons by lia. split_and!; [lia|done|].
    intros [|i] c3 g3 Hi E3 Hlen; [lia|]. cbn [take transactions] in E3. rewrite E1, bind_Ok in E3.
    apply le_n_S. eapply (Hdur i c3 g3); [lia|done|lia].
  - rewrite take_app_le by lia.
    assert (∀ i c3 g3, (i ≤ length (us :: txs))%nat → transactions c g (take i (us :: txs)) = Ok (c3, g3) →
      (length (c_writes c3) ≤ length (c_writes c) + k)%nat → i = 0%nat) as Hdur.
    { intros [|i] c3 g3 Hi E3 Hlen; [done|]. exfalso. cbn [take transactions length] in E3, Hi. rewrite E1, bind_Ok in E3.
      destruct (transactions_run (take i txs) c1 v1 _ _ Hid (Forall_take _ _ _ Hf) Hc1 HC1) as (c4 & W4 & E4 & Hw4).
      rewrite E4 in E3. injection E3 as <- <-. rewrite Hw4, length_app in Hlen. lia. }
    destruct (HP k) as [HS|HS]; [exists 0%nat|exists 1%nat]; cbn [length take]; (split_and!; [lia|done|]);
      intros i c3 g3 Hi E3 Hlen; rewrite (Hdur i c3 g3) by done; lia.
Qed.

(** ** Recovery *)

Lemma boot_spec D V : idle → stands D V →
  ∃ c', boot (c_init D : C) g = Ok (c', g) ∧ c_writes c' = recover_writes g D ∧
    cview c' (CAbs (apply_writes D (recover_writes g D)) (apply_writes D (recover_writes g D)) ∅ ∅).
Proof using BL HL.
  intros (Hout & Hcom & Hlh) HS. destruct (law_init (cview := cview) D) as [Hc Hw].
  destruct (recover_spec g HL _ D Hc (st_head _ _ HS)) as (c' & E & Hc' & Hw'). exists c'.
  assert (Log (start g) (lsize g) 0 false (dev g) [] = g) as Eg by (destruct g; cbn in *; congruence).
  unfold boot, initlog. rewrite Eg, E, Hw', Hw. unfold set_lh. rewrite Hout, Hcom, Eg. done.
Qed.

Lemma interrupted_stands D D' V : idle → interrupted (C := C) g D D' → stands D V → stands D' V.
Proof using BL HL.
  intros Hid (c' & g' & j & E & ->) HS. destruct (boot_spec D V Hid HS) as (c2 & E2 & Hw & _).
  rewrite E2 in E. injection E as <- <-. rewrite Hw. by apply recover_prefix.
Qed.

(** Any number of interrupted recoveries, and one that ends. *)
Lemma recoveries_spec D D1 V : idle → rtc (interrupted (C := C) g) D D1 → stands D V →
  ∃ c2 V2 D2, boot (c_init D1 : C) g = Ok (c2, g) ∧ cview c2 (CAbs V2 D2 ∅ ∅) ∧
    ∀ b, home_ok g b → D2 !!! home_key g b = V !!! home_key g b.
Proof using BL HL.
  intros Hid Hr. induction Hr as [D|D D' D1 Hi Hr IH]; intros HS; [|apply IH; by eapply interrupted_stands].
  destruct (boot_spec D V Hid HS) as (c2 & E2 & _ & Hc2). exists c2, (apply_writes D (recover_writes g D)), (apply_writes D (recover_writes g D)).
  split_and!; [done..|]. intros b Hb. destruct (proj2 (recover_prefix D V 0 HS)) as [HC He].
  apply (st_home _ _ HC); [done|]. rewrite He. apply not_elem_of_nil.
Qed.

(** The log on a disk whose header is empty. *)
Definition empty_log (D : disk_map) : Prop := length (D !!! hdr) = BSIZE ∧ get32 (D !!! hdr) 0 = 0.

Lemma empty_log_clean D : empty_log D → clean D D.
Proof using HL.
  intros [Hl Hn]. assert (head D = []) as Eh by (unfold decode_head; by rewrite Hn).
  split; [|done]. split; [|done|by rewrite Eh|done]. unfold head_ok. rewrite Eh, Hn. destruct HL.
  split_and!; [done|constructor|constructor|done].
Qed.
End crash.

Arguments interrupted C {_} g D D'.

(** C4. Crash safety of the file-system log.  On a disk whose log is empty, any sequence of calls
    that fit in the log runs to the end.  Stop the machine after any number [k] of its
    disk writes, then stop it during any number of recoveries, each after any number of
    writes: booting once more returns, and every block outside of the log has the content
    after exactly the first [m] calls, for one [m]: no call is seen in part, their order is
    kept, and every call whose [end_op] had returned is included. *)
Theorem log_crash_atomic g D txs : layout g → idle g → empty_log g D → Forall (fits g) txs →
  ∃ c, transactions (binit D) g txs = Ok (c, g) ∧
    ∀ k D1, rtc (interrupted bcache g) (apply_writes D (take k (trace c))) D1 →
      ∃ m c2, (m ≤ length txs)%nat ∧ boot (binit D1) g = Ok (c2, g) ∧
        (∀ b, home_ok g b → disk c2 !!! home_key g b = content g D (take m txs) !!! home_key g b) ∧
        ∀ i c1 g1, (i ≤ length txs)%nat → transactions (binit D) g (take i txs) = Ok (c1, g1) →
          (length (trace c1) ≤ k)%nat → (i ≤ m)%nat.
Proof.
  intros HL Hid He Hf. destruct (law_init (cview := binv) D) as [Hc Hw].
  destruct (transactions_spec g HL txs _ _ _ _ Hid Hf Hc (empty_log_clean g HL D He)) as (c & W & E & Hw' & HP).
  cbn [c_writes c_init bio_ops] in *. rewrite Hw in Hw'. exists c. split; [done|]. intros k D1 Hr. rewrite Hw' in Hr.
  destruct (HP k) as (m & Hm & HS & Hdur).
  destruct (recoveries_spec (cview := binv) g HL _ _ _ Hid Hr HS) as (c2 & V2 & D2 & E2 & Hc2 & Hh).
  exists m, c2. split_and!; [done|done| |].
  - intros b Hb. rewrite (bi_disk _ _ Hc2). by apply Hh.
  - intros i c1 g1 Hi E1 Hl. eapply Hdur; [done|exact E1|]. cbn [binit trace length]. lia.
Qed.

Definition w_log : log := Log 2 30 0 false ROOTDEV [].
Definition w_disk : disk_map := {[ (ROOTDEV, 2) := replicate BSIZE 0 ]}.
Definition w_txs : list (list (Z * block)) :=
  [[(50, replicate BSIZE 7); (51, replicate BSIZE 8)]; [(50, replicate BSIZE 9)]].

Lemma w_log_layout : layout w_log.
Proof. by split. Qed.

Lemma log_crash_atomic_witness :
  ∃ c, transactions (binit w_disk) w_log w_txs = Ok (c, w_log) ∧
    ∀ k, ∃ m c2, (m ≤ 2)%nat ∧ boot (binit (apply_writes w_disk (take k (trace c)))) w_log = Ok (c2, w_log) ∧
      disk c2 !!! (ROOTDEV, 50) = content w_log w_disk (take m w_txs) !!! (ROOTDEV, 50) ∧
      disk c2 !!! (ROOTDEV, 51) = content w_log w_disk (take m w_txs) !!! (ROOTDEV, 51).
Proof.
  assert (∀ b, 32 <= b < 1000 → home_ok w_log b) as Hb by (intros b Hb; split; [unfold FSSIZE; lia|unfold in_log, w_log; cbn; lia]).
  destruct (log_crash_atomic w_log w_disk w_txs) as (c & E & HP).
  - apply w_log_layout.
  - done.
  - split; by vm_compute.
  - repeat constructor; cbn [fst]; first [apply Hb; lia|vm_compute; reflexivity].
  - exists c. split; [exact E|]. intros k. destruct (HP k _ (rtc_refl _ _)) as (m & c2 & Hm & E2 & Hh & _).
    exists m, c2. split_and!; [exact Hm|exact E2|apply (Hh 50), Hb; lia|apply (Hh 51), Hb; lia].
Defined.
