(* ===== verification/LogSpace.v ===== *)
(** Space in the log: file-system calls that run at the same time (src/p4/log.c).

    A state is the cache, the log and, for each call between [begin_op] and [end_op], the
    number of blocks it has logged.  A call logs at most [MAXOPBLOCKS] blocks; each update holds
    the lock of its buffer and of the log, so updates are atomic. *)

From Stdlib Require Import ZArith Lia.
From stdpp Require Import base numbers list gmap fin_sets sets strings relations.
From S2P Require Import Prelude Bio Log LogCrash.
#[local] Open Scope Z_scope.

Record lstate := LState { l_cache : bcache; l_log : log; l_ops : list nat }.

Definition MAXOP : nat := Z.to_nat MAXOPBLOCKS.

Inductive lstep : lstate → lstate → Prop :=
  | l_begin c g g' ops : begin_op g = Some g' → lstep (LState c g ops) (LState c g' (0%nat :: ops))
  | l_write c g c' g' ops1 u ops2 b x : (u < MAXOP)%nat → home_ok g b → update c g (b, x) = Ok (c', g') →
      lstep (LState c g (ops1 ++ u :: ops2)) (LState c' g' (ops1 ++ S u :: ops2))
  | l_end c g c' g' ops1 u ops2 : end_op c g = Ok (c', g') →
      lstep (LState c g (ops1 ++ u :: ops2)) (LState c' g' (ops1 ++ ops2)).

(** The blocks the running calls may still log. *)
Definition reserved (ops : list nat) : nat := sum_list_with (λ u, MAXOP - u)%nat ops.

Lemma reserved_app l1 l2 : reserved (l1 ++ l2) = (reserved l1 + reserved l2)%nat.
Proof. apply sum_list_with_app. Qed.

Lemma reserved_bound ops : (reserved ops ≤ MAXOP * length ops)%nat.
Proof. induction ops as [|u ops IH]; [cbn; lia|]. cbn [reserved sum_list_with length]; fold (reserved ops); lia. Qed.

Section space.
Context (g0 : log) (HL : layout g0) (Hsize : lsize g0 <= LOGSIZE).

(** The states that are reached. *)
Record linv (s : lstate) : Prop := {
  li_dev : dev (l_log s) = dev g0;
  li_start : start (l_log s) = start g0;
  li_size : lsize (l_log s) = lsize g0;
  li_idle : committing (l_log s) = false;
  li_out : outstanding (l_log s) = Z.of_nat (length (l_ops s));
  li_ok : Forall (home_ok g0) (lh (l_log s));
  li_nodup : NoDup (lh (l_log s));
  li_room : (length (lh (l_log s)) + reserved (l_ops s) ≤ Z.to_nat LOGSIZE)%nat;
  li_len : Z.of_nat (length (lh (l_log s))) < lsize g0;
  li_view : ∃ v d, binv (l_cache s) (CAbs v d ∅ (logged g0 (lh (l_log s)))) }.

Lemma linv_init D : idle g0 → linv (LState (binit D) g0 []).
Proof using HL.
  intros (Hout & Hcom & Hlh). split; cbn [l_cache l_log l_ops]; rewrite ?Hlh, ?Hout, ?Hcom; try done.
  - constructor.
  - unfold LOGSIZE. cbn. lia.
  - destruct HL. done.
  - exists D, D. apply binit_inv.
Qed.

Lemma home_ok_place g b : dev g = dev g0 → start g = start g0 → lsize g = lsize g0 → home_ok g b ↔ home_ok g0 b.
Proof. intros Hd Hs Hl. unfold home_ok, in_log. by rewrite Hs, Hl. Qed.

Lemma begin_inv c g g' ops : linv (LState c g ops) → begin_op g = Some g' → linv (LState c g' (0%nat :: ops)).
Proof.
  intros HI E. destruct HI as [Hd Hs Hl Hi Ho Hok Hnd Hr Hlen Hv]. cbn [l_cache l_log l_ops] in *.
  unfold begin_op in E. rewrite Hi in E. destruct (Z.ltb_spec LOGSIZE (Z.of_nat (length (lh g)) + (outstanding g + 1) * MAXOPBLOCKS)) as [?|Hle]; [done|].
  injection E as <-. pose proof (reserved_bound ops) as Hb. unfold MAXOP, LOGSIZE, MAXOPBLOCKS in *.
  split; cbn [l_cache l_log l_ops set_outstanding dev start lsize committing outstanding lh length]; try done.
  - lia.
  - cbn [reserved sum_list_with]. fold (reserved ops). unfold MAXOP, MAXOPBLOCKS, LOGSIZE. lia.
Qed.

(** An update of a call that may still log a block. *)
Lemma update_ok c g ops1 u ops2 b x : linv (LState c g (ops1 ++ u :: ops2)) → (u < MAXOP)%nat → home_ok g b →
  Z.of_nat (length (lh g)) < lsize g - 1 →
  ∃ c', update c g (b, x) = Ok (c', set_lh (absorb (lh g) b) g) ∧
    linv (LState c' (set_lh (absorb (lh g) b) g) (ops1 ++ S u :: ops2)).
Proof using HL Hsize.
  intros [Hd Hs Hl Hi Ho Hok Hnd Hr Hlen (v & d & Hv)] Hu Hb Hlt. cbn [l_cache l_log l_ops] in *.
  apply home_ok_place in Hb; [|done..]. rewrite reserved_app in Hr. cbn [reserved sum_list_with] in Hr. fold (reserved ops2) in Hr.
  destruct (absorb_spec g0 HL (lh g) b Hb Hok Hnd) as (El & Hok' & Hnd' & Hlen' & _).
  destruct (update_spec g0 HL c g v d (b, x)) as (c' & E & Hc' & _); [done| |done..| |done|].
  { rewrite Ho, length_app. cbn [length]. lia. }
  { rewrite Hl in *. unfold LOGSIZE in *. lia. }
  exists c'. split; [done|]. split; cbn [l_cache l_log l_ops set_lh dev start lsize committing outstanding lh]; try done.
  - rewrite Ho, !length_app. done.
  - rewrite reserved_app. cbn [reserved sum_list_with]. fold (reserved ops2). lia.
  - lia.
  - eexists _, _. exact Hc'.
Qed.

Lemma update_full c g ops1 u ops2 b x : linv (LState c g (ops1 ++ u :: ops2)) → home_ok g b →
  lsize g - 1 <= Z.of_nat (length (lh g)) → update c g (b, x) = Panic "too big a transaction".
Proof using HL Hsize.
  intros [Hd Hs Hl Hi Ho Hok Hnd Hr Hlen (v & d & Hv)] Hb Hge. cbn [l_cache l_log l_ops] in *.
  apply home_ok_place in Hb; [|done..]. pose proof (logged_size g0 HL (lh g)) as Hsz. unfold LOGSIZE in *.
  destruct (read_block_spec c v d _ (home_key g0 b) Hv) as (i & c1 & E1 & _); [by apply home_key_ok|unfold NBUF; lia|].
  unfold update. cbn [fst snd]. rewrite Hd. fold (home_key g0 b). rewrite E1, bind_Ok. unfold log_write.
  rewrite (proj2 (Z.leb_le (lsize g - 1) _)) by done. by rewrite orb_true_r.
Qed.

Lemma end_ok c g ops1 u ops2 : linv (LState c g (ops1 ++ u :: ops2)) →
  ∃ c' g', end_op c g = Ok (c', g') ∧ linv (LState c' g' (ops1 ++ ops2)) ∧ lh g' = (if decide (ops1 ++ ops2 = []) then [] else lh g).
Proof using HL Hsize.
  intros [Hd Hs Hl Hi Ho Hok Hnd Hr Hlen (v & d & Hv)]. cbn [l_cache l_log l_ops] in *.
  rewrite reserved_app in Hr. cbn [reserved sum_list_with] in Hr. fold (reserved ops2) in Hr.
  assert (outstanding g - 1 = Z.of_nat (length (ops1 ++ ops2))) as Eo by (rewrite Ho, !length_app; cbn [length]; lia).
  unfold end_op, end_op_start. cbn [set_outstanding committing outstanding]. rewrite Hi, Eo.
  destruct (decide (ops1 ++ ops2 = [])) as [En|En].
  - rewrite En. change (Z.of_nat (length [])) with 0. rewrite Z.eqb_refl, bind_Ok.
    set (g1 := set_committing true (set_outstanding 0 g)).
    assert (∀ c', (∃ v' d', binv c' (CAbs v' d' ∅ ∅)) → linv (LState c' (set_committing false (set_lh [] g1)) [])) as Hfin.
    { intros c' Hc'. split; cbn; try done; [constructor|unfold LOGSIZE; lia|destruct HL; done]. }
    destruct (decide (lh g = [])) as [Elh|Elh].
    + exists c, (set_committing false (set_lh [] g1)). unfold commit. cbn [g1 set_committing set_outstanding lh]. rewrite Elh.
      split; [|split; [|done]].
      * unfold g1, set_lh, set_committing, set_outstanding. cbn. by rewrite Elh.
      * apply Hfin. rewrite Elh in Hv. by exists v, d.
    + destruct (commit_spec g0 HL c g1 v d (lh g)) as (c' & v' & E & Hc' & _); [done..|unfold NBUF; unfold LOGSIZE in Hsize; lia|].
      rewrite E, bind_Ok. eexists _, _. split; [done|]. split; [|done]. apply Hfin. by eexists _, _.
  - destruct (Z.eqb_spec (Z.of_nat (length (ops1 ++ ops2))) 0) as [Ez|_]; [destruct (ops1 ++ ops2); [done|cbn in Ez; lia]|].
    rewrite bind_Ok. eexists _, _. split; [done|]. split; [|done].
    split; cbn [l_cache l_log l_ops set_outstanding dev start lsize committing outstanding lh]; try done.
    + rewrite reserved_app. lia.
    + by exists v, d.
Qed.

Lemma linv_step s s' : linv s → lstep s s' → linv s'.
Proof using HL Hsize.
  intros HI Hst. destruct Hst as [c g g' ops E|c g c' g' ops1 u ops2 b x Hu Hb E|c g c' g' ops1 u ops2 E].
  - by eapply begin_inv.
  - destruct (Z.lt_ge_cases (Z.of_nat (length (lh g))) (lsize g - 1)) as [Hlt|Hge].
    + destruct (update_ok c g ops1 u ops2 b x HI Hu Hb Hlt) as (c2 & E2 & HI2). rewrite E2 in E. by injection E as <- <-.
    + by rewrite (update_full c g ops1 u ops2 b x HI Hb Hge) in E.
  - destruct (end_ok c g ops1 u ops2 HI) as (c2 & g2 & E2 & HI2 & _). rewrite E2 in E. by injection E as <- <-.
Qed.

Lemma linv_reach D s : idle g0 → rtc lstep (LState (binit D) g0 []) s → linv s.
Proof using HL Hsize.
  intros Hid Hr. pose proof (linv_init D Hid) as HI. revert HI. induction Hr; [done|]. intros HI. eauto using linv_step.
Qed.
End space.

(** C25. Space in the log.  In every state that file-system calls of at most [MAXOPBLOCKS] updates reach, on a log
    of at most [LOGSIZE] blocks: [outstanding] counts the calls; the blocks logged and those
    the running calls may still log are at most [LOGSIZE]; the end of a call always
    succeeds, and the last one empties the log; an update that is allowed succeeds when fewer than
    [lsize - 1] blocks are logged and otherwise panics. *)
Theorem log_space g D c g' ops : layout g → lsize g <= LOGSIZE → idle g →
  rtc lstep (LState (binit D) g []) (LState c g' ops) →
  outstanding g' = Z.of_nat (length ops) ∧
  (length (lh g') + reserved ops ≤ Z.to_nat LOGSIZE)%nat ∧
  (∀ ops1 u ops2, ops = ops1 ++ u :: ops2 →
    (∃ c2 g2, end_op c g' = Ok (c2, g2) ∧ lh g2 = if decide (ops1 ++ ops2 = []) then [] else lh g') ∧
    ∀ b x, (u < MAXOP)%nat → home_ok g' b →
      if decide (Z.of_nat (length (lh g')) < lsize g - 1)
      then ∃ c2, update c g' (b, x) = Ok (c2, set_lh (absorb (lh g') b) g')
      else update c g' (b, x) = Panic "too big a transaction").
Proof.
  intros HL Hs Hid Hr. pose proof (linv_reach g HL Hs D _ Hid Hr) as HI.
  split; [apply (li_out _ _ HI)|]. split; [apply (li_room _ _ HI)|]. intros ops1 u ops2 ->. split.
  - destruct (end_ok g HL Hs c g' ops1 u ops2 HI) as (c2 & g2 & E & _ & Elh). by exists c2, g2.
  - intros b x Hu Hb. pose proof (li_size _ _ HI) as El. cbn [l_log] in El. rewrite <- El. case_decide as Hlt.
    + destruct (update_ok g HL Hs c g' ops1 u ops2 b x HI Hu Hb Hlt) as (c2 & E & _). by exists c2.
    + eapply (update_full g HL Hs); [done..|lia].
Qed.

(** * The reservation is one block too large *)

Definition run_begin (s : lstate) : option lstate :=
  match begin_op (l_log s) with Some g => Some (LState (l_cache s) g (0%nat :: l_ops s)) | None => None end.

#[export] Instance home_ok_dec g b : Decision (home_ok g b).
Proof. unfold home_ok, in_log. apply _. Defined.

(** Call number [i] updates the blocks [bs]. *)
Fixpoint run_updates (s : lstate) (i : nat) (bs : list Z) : option lstate :=
  match bs, l_ops s !! i with
  | [], _ => Some s
  | b :: bs', Some u =>
      if decide ((u < MAXOP)%nat ∧ home_ok (l_log s) b) then
        match update (l_cache s) (l_log s) (b, [b]) with
        | Ok (c, g) => run_updates (LState c g (<[i := S u]> (l_ops s))) i bs'
        | _ => None
        end
      else None
  | _, None => None
  end.

Lemma run_begin_steps s s' : run_begin s = Some s' → rtc lstep s s'.
Proof.
  destruct s as [c g ops]. unfold run_begin. cbn. destruct (begin_op g) as [g'|] eqn:E; [|done].
  intros [= <-]. apply rtc_once. by constructor.
Qed.

Lemma run_updates_steps i bs : ∀ s s', run_updates s i bs = Some s' → rtc lstep s s'.
Proof.
  induction bs as [|b bs IH]; intros [c g ops] s' E; cbn [run_updates l_ops l_cache l_log] in E;
    [injection E as <-; apply rtc_refl|].
  destruct (ops !! i) as [u|] eqn:Hi; [|done]. case_decide as Hd; [|done]. destruct Hd as [Hu Hb].
  destruct (update c g (b, [b])) as [[c1 g1]| | |] eqn:E1; try done.
  apply (rtc_l _ _ (LState c1 g1 (<[i := S u]> ops))); [|by apply IH].
  pose proof (l_write c g c1 g1 (take i ops) u (drop (S i) ops) b [b] Hu Hb E1) as Hst.
  rewrite take_drop_middle in Hst by done. rewrite insert_take_drop by (by eapply lookup_lt_Some). done.
Qed.

(** Three calls begin and update 10, 10 and 9 blocks. *)
Definition w_start : lstate := LState (binit w_disk) w_log [].
Definition w_blocks (a n : nat) : list Z := (λ j, 100 + Z.of_nat j) <$> seq a n.
Definition w_run : option lstate :=
  s ← run_begin w_start; s ← run_begin s; s ← run_begin s;
  s ← run_updates s 0 (w_blocks 0 10); s ← run_updates s 1 (w_blocks 10 10); run_updates s 2 (w_blocks 20 9).

Lemma w_run_reach s : w_run = Some s → rtc lstep w_start s.
Proof.
  unfold w_run. intros E. apply bind_Some in E as (s1 & E1%run_begin_steps & E). apply bind_Some in E as (s2 & E2%run_begin_steps & E).
  apply bind_Some in E as (s3 & E3%run_begin_steps & E). apply bind_Some in E as (s4 & E4%run_updates_steps & E).
  apply bind_Some in E as (s5 & E5%run_updates_steps & E%run_updates_steps).
  do 4 (etrans; [eassumption|]). etrans; eassumption.
Qed.

Definition w_end : lstate := default w_start w_run.

Lemma w_end_reach : rtc lstep w_start w_end.
Proof. apply w_run_reach. unfold w_end. assert (is_Some w_run) as [s ->]; [vm_compute; by eexists|done]. Qed.

(** The log reserves one block more than it has.  [mkfs] makes a log of [LOGSIZE] blocks, one of which is the
    header.  Three calls can run at the same time with at most [MAXOPBLOCKS] updates each,
    all admitted by [begin_op], and reach a state where the next allowed update panics. *)
Theorem log_reservation_panics :
  ∃ c g ops1 u ops2, rtc lstep (LState (binit w_disk) w_log []) (LState c g (ops1 ++ u :: ops2)) ∧
    lsize w_log = LOGSIZE ∧ (u < MAXOP)%nat ∧ ∀ b x, home_ok g b → update c g (b, x) = Panic "too big a transaction".
Proof.
  pose proof w_end_reach as Hr. exists (l_cache w_end), (l_log w_end), [10; 10]%nat, 9%nat, [].
  assert (LState (l_cache w_end) (l_log w_end) ([10; 10] ++ [9])%nat = w_end) as Ew.
  { assert (l_ops w_end = [10; 10; 9]%nat) as Eo by (vm_compute; reflexivity). cbn [app]. rewrite <- Eo. by destruct w_end. }
  split; [by rewrite Ew|]. split; [done|]. split; [unfold MAXOP, MAXOPBLOCKS; lia|]. intros b x Hb.
  assert (lsize w_log <= LOGSIZE) as Hs by done.
  eapply (update_full w_log w_log_layout Hs _ _ [10; 10]%nat 9 []); [|done|].
  - rewrite Ew. apply (linv_reach w_log w_log_layout Hs w_disk); [split_and!; reflexivity|exact Hr].
  - vm_compute. done.
Qed.

Lemma log_space_witness :
  (length (lh (l_log w_end)) + reserved (l_ops w_end) ≤ Z.to_nat LOGSIZE)%nat ∧ outstanding (l_log w_end) = 3.
Proof.
  assert (lsize w_log <= LOGSIZE) as Hs by (vm_compute; discriminate).
  destruct (log_space w_log w_disk (l_cache w_end) (l_log w_end) (l_ops w_end) w_log_layout Hs) as (Ho & Hr & _).
  - done.
  - assert (LState (l_cache w_end) (l_log w_end) (l_ops w_end) = w_end) as -> by (by destruct w_end). apply w_end_reach.
  - split; [exact Hr|]. rewrite Ho. vm_compute. reflexivity.
Defined.
