(* ===== verification/Pipe.v ===== *)
(** Pipes (src/p4/pipe.c): a bounded byte buffer between processes.

    The buffer is an array of [PIPESIZE] bytes with two [uint] counters that only grow and wrap
    around.  Every process that runs [pipewrite] or [piperead] is a thread of the model, and a
    step is what it does under the lock: from the call, or from being woken up, to the
    point where it sleeps or returns.  [wakeup] makes every sleeper of its channel run again; each
    of the two calls tests its condition again then.  [sent] and [received] record the
    bytes stored and taken out, in order. *)

From Stdlib Require Import ZArith Lia.
From stdpp Require Import base numbers list relations.
From S2P Require Import Prelude.
#[local] Open Scope Z_scope.

Definition PIPESIZE : Z := 512.

Record pipe := Pipe { p_data : list Z; nread : Z; nwrite : Z; readopen : bool; writeopen : bool }.

(** The pipe of [pipealloc], in a page with any content. *)
Definition pipe_new (d : list Z) : pipe := Pipe d 0 0 true true.

Definition full (p : pipe) : bool := nwrite p =? u32 (nread p + PIPESIZE).
Definition empty (p : pipe) : bool := nread p =? nwrite p.

(** [p->data[p->nwrite++ % PIPESIZE] = c] *)
Definition put (p : pipe) (c : Z) : pipe :=
  Pipe (<[Z.to_nat (nwrite p mod PIPESIZE) := c]> (p_data p)) (nread p) (u32 (nwrite p + 1)) (readopen p) (writeopen p).

(** [p->data[p->nread++ % PIPESIZE]] *)
Definition get (p : pipe) : Z * pipe :=
  (p_data p !!! Z.to_nat (nread p mod PIPESIZE), Pipe (p_data p) (u32 (nread p + 1)) (nwrite p) (readopen p) (writeopen p)).

(** What a call does in one critical section: it sleeps, or returns a value.  The boolean says whether
    it wakes up the other side. *)
Inductive result := Sleep (wake : bool) | Return (r : Z) (wake : bool).

(** The [for] loop of [pipewrite], up to a full pipe: the bytes that are left. *)
Fixpoint pipewrite_loop (p : pipe) (l : list Z) : pipe * list Z :=
  match l with
  | [] => (p, [])
  | c :: l' => if full p then (p, l) else pipewrite_loop (put p c) l'
  end.

(** [l] is what is left of the [n] bytes. *)
Definition pipewrite (p : pipe) (l : list Z) (n : Z) (killed : bool) : pipe * list Z * result :=
  let '(p', rest) := pipewrite_loop p l in
  match rest with
  | [] => (p', [], Return n true)
  | _ => if negb (readopen p') || killed then (p', rest, Return (-1) false) else (p', rest, Sleep true)
  end.

Fixpoint piperead_loop (p : pipe) (n : nat) : pipe * list Z :=
  match n with
  | O => (p, [])
  | S n' => if empty p then (p, []) else let '(c, p1) := get p in let '(p2, l) := piperead_loop p1 n' in (p2, c :: l)
  end.

Definition piperead (p : pipe) (n : nat) (killed : bool) : pipe * list Z * result :=
  if empty p && writeopen p then
    if killed then (p, [], Return (-1) false) else (p, [], Sleep false)
  else let '(p', l) := piperead_loop p n in (p', l, Return (Z.of_nat (length l)) true).

(** The second component: the page is given back. *)
Definition pipeclose (p : pipe) (writable : bool) : pipe * bool :=
  let p' := if writable then Pipe (p_data p) (nread p) (nwrite p) (readopen p) false
            else Pipe (p_data p) (nread p) (nwrite p) false (writeopen p) in
  (p', negb (readopen p') && negb (writeopen p')).

(** * Processes that share a pipe *)

Inductive thread :=
  | Idle
  | Writing (l : list Z) (n : Z)    (* in pipewrite, runnable *)
  | WSleep (l : list Z) (n : Z)     (* asleep on &p->nwrite *)
  | Reading (n : nat)               (* in piperead, runnable *)
  | RSleep (n : nat).               (* asleep on &p->nread *)

Definition wake_reader (t : thread) : thread := match t with RSleep n => Reading n | _ => t end.
Definition wake_writer (t : thread) : thread := match t with WSleep l n => Writing l n | _ => t end.

(** [wakeup(&p->nread)] and [wakeup(&p->nwrite)], if [b]. *)
Definition wake_readers (b : bool) (ts : list thread) : list thread := if b then wake_reader <$> ts else ts.
Definition wake_writers (b : bool) (ts : list thread) : list thread := if b then wake_writer <$> ts else ts.

Record pst := PSt { pp : pipe; threads : list thread; sent : list Z; received : list Z }.

Definition after_write (l : list Z) (n : Z) (r : result) : thread := match r with Sleep _ => WSleep l n | Return _ _ => Idle end.
Definition after_read (n : nat) (r : result) : thread := match r with Sleep _ => RSleep n | Return _ _ => Idle end.
Definition wakes (r : result) : bool := match r with Sleep b | Return _ b => b end.

(** [killed i]: the process of thread [i] may be killed. *)
Inductive pipe_step (killed : nat → bool → Prop) : pst → pst → Prop :=
  | s_call_write p ts sn rc i l : ts !! i = Some Idle → writeopen p = true →
      pipe_step killed (PSt p ts sn rc) (PSt p (<[i := Writing l (Z.of_nat (length l))]> ts) sn rc)
  | s_call_read p ts sn rc i n : ts !! i = Some Idle → readopen p = true →
      pipe_step killed (PSt p ts sn rc) (PSt p (<[i := Reading n]> ts) sn rc)
  | s_write p ts sn rc i l n k p' rest r : ts !! i = Some (Writing l n) → killed i k → pipewrite p l n k = (p', rest, r) →
      pipe_step killed (PSt p ts sn rc)
        (PSt p' (<[i := after_write rest n r]> (wake_readers (wakes r) ts)) (sn ++ take (length l - length rest) l) rc)
  | s_read p ts sn rc i n k p' got r : ts !! i = Some (Reading n) → killed i k → piperead p n k = (p', got, r) →
      pipe_step killed (PSt p ts sn rc)
        (PSt p' (<[i := after_read n r]> (wake_writers (wakes r) ts)) sn (rc ++ got))
  | s_close p ts sn rc w p' : (if w : bool then writeopen p else readopen p) = true → pipeclose p w = (p', false) →
      pipe_step killed (PSt p ts sn rc) (PSt p' (if w then wake_readers true ts else wake_writers true ts) sn rc)
  | s_kill p ts sn rc i t : ts !! i = Some t → killed i true →
      pipe_step killed (PSt p ts sn rc) (PSt p (<[i := wake_reader (wake_writer t)]> ts) sn rc).

(** * The bytes in the pipe *)

Definition count (p : pipe) : Z := u32 (nwrite p - nread p).
Definition contents (p : pipe) : list Z :=
  (λ j, p_data p !!! Z.to_nat ((nread p + Z.of_nat j) mod PIPESIZE)) <$> seq 0 (Z.to_nat (count p)).

Record pipe_ok (p : pipe) : Prop := {
  po_len : length (p_data p) = Z.to_nat PIPESIZE; po_r : is_u32 (nread p); po_w : is_u32 (nwrite p); po_count : count p <= PIPESIZE }.

Ltac mods := unfold PIPESIZE, is_u32, count, u32 in *; change (2 ^ 32) with 4294967296 in *; Z.to_euclidean_division_equations; lia.

Lemma u32_slot x : u32 x mod PIPESIZE = x mod PIPESIZE.
Proof. unfold u32, PIPESIZE. apply Z.mod_mod_divide. by exists (2 ^ 23). Qed.

Lemma length_contents p : length (contents p) = Z.to_nat (count p).
Proof. unfold contents. by rewrite length_fmap, length_seq. Qed.

Lemma count_range p : is_u32 (count p).
Proof. apply u32_range. Qed.

Lemma full_count p : pipe_ok p → full p = (count p =? PIPESIZE).
Proof. intros [_ Hr Hw Hc]. unfold full. destruct (Z.eqb_spec (count p) PIPESIZE), (Z.eqb_spec (nwrite p) (u32 (nread p + PIPESIZE))); try done; exfalso; mods. Qed.

Lemma empty_count p : pipe_ok p → empty p = (count p =? 0).
Proof. intros [_ Hr Hw Hc]. unfold empty. destruct (Z.eqb_spec (count p) 0), (Z.eqb_spec (nread p) (nwrite p)); try done; exfalso; mods. Qed.

Lemma empty_contents p : pipe_ok p → empty p = true ↔ contents p = [].
Proof.
  intros Hp. rewrite (empty_count p Hp), Z.eqb_eq. pose proof (count_range p) as [? _].
  rewrite <- length_zero_iff_nil, length_contents. lia.
Qed.

Lemma put_spec p c : pipe_ok p → full p = false → pipe_ok (put p c) ∧ contents (put p c) = contents p ++ [c].
Proof.
  intros Hp Hf. rewrite (full_count p Hp) in Hf. apply Z.eqb_neq in Hf. destruct Hp as [Hl Hr Hw Hc].
  pose proof (count_range p) as [Hc0 _].
  assert (count (put p c) = count p + 1) as Ec by (unfold count, put in *; cbn [nwrite nread]; mods).
  split; [split|].
  - cbn [put p_data]. by rewrite length_insert.
  - done.
  - apply u32_range.
  - rewrite Ec. lia.
  - unfold contents. rewrite Ec, Z2Nat.inj_add, Nat.add_1_r, seq_S, fmap_app by lia. cbn [Nat.add fmap list_fmap put p_data nread].
    assert ((nread p + count p) mod PIPESIZE = nwrite p mod PIPESIZE) as Es by mods.
    f_equal.
    + apply list_fmap_ext. intros k j Hj. apply lookup_seq in Hj as [-> Hj]. rewrite Nat.add_0_l.
      apply list_lookup_total_insert_ne. intros E. rewrite <- Es in E. apply Z2Nat.inj in E; [mods|apply Z.mod_pos_bound; done..].
    + f_equal. rewrite Z2Nat.id, Es by lia. apply list_lookup_total_insert_eq. rewrite Hl.
      pose proof (Z.mod_pos_bound (nwrite p) PIPESIZE eq_refl). lia.
Qed.

Lemma get_spec p c p' : pipe_ok p → empty p = false → get p = (c, p') → pipe_ok p' ∧ contents p = c :: contents p'.
Proof.
  intros Hp He [= <- <-]. rewrite (empty_count p Hp) in He. apply Z.eqb_neq in He. destruct Hp as [Hl Hr Hw Hc].
  pose proof (count_range p) as [Hc0 _]. set (p' := Pipe _ _ _ _ _).
  assert (count p = count p' + 1) as Ec by (unfold p', count in *; cbn [nwrite nread]; mods).
  pose proof (count_range p') as [Hc1 _].
  split; [split|].
  - done.
  - apply u32_range.
  - done.
  - lia.
  - unfold contents. rewrite Ec, Z2Nat.inj_add, Nat.add_1_r by lia. cbn [seq fmap list_fmap]. f_equal; [by rewrite Z.add_0_r|].
    rewrite <- fmap_S_seq, <- list_fmap_compose. apply list_fmap_ext. intros k j _. cbn [compose p' p_data nread].
    do 2 f_equal. rewrite (Zplus_mod (u32 (nread p + 1))), u32_slot, <- Zplus_mod. f_equal. lia.
Qed.

(** ** The calls *)

Lemma pipewrite_loop_spec l : ∀ p p' rest, pipe_ok p → pipewrite_loop p l = (p', rest) →
  pipe_ok p' ∧ readopen p' = readopen p ∧ writeopen p' = writeopen p ∧
  ∃ done, l = done ++ rest ∧ contents p' = contents p ++ done ∧ (rest ≠ [] → full p' = true).
Proof.
  induction l as [|c l IH]; intros p p' rest Hp E; cbn [pipewrite_loop] in E.
  { injection E as <- <-. split_and!; [done..|]. exists []. rewrite (app_nil_r (contents p)). split_and!; [done..|congruence]. }
  destruct (full p) eqn:Hf.
  { injection E as <- <-. split_and!; [done..|]. exists []. rewrite (app_nil_r (contents p)). by split_and!. }
  destruct (put_spec p c Hp Hf) as [Hp1 E1].
  destruct (IH _ _ _ Hp1 E) as (Hp' & Er & Ew & ds & -> & E2 & Hr). split_and!; [done..|].
  exists (c :: ds). rewrite E2, E1, <- app_assoc. done.
Qed.

Lemma piperead_loop_spec n : ∀ p p' l, pipe_ok p → piperead_loop p n = (p', l) →
  pipe_ok p' ∧ readopen p' = readopen p ∧ writeopen p' = writeopen p ∧ contents p = l ++ contents p' ∧
  length l = min n (length (contents p)).
Proof.
  induction n as [|n IH]; intros p p' l Hp E; cbn [piperead_loop] in E; [injection E as <- <-; done|].
  destruct (empty p) eqn:He.
  { injection E as <- <-. split_and!; [done..|]. apply (empty_contents p Hp) in He. by rewrite He. }
  destruct (get p) as [c p1] eqn:Eg. destruct (piperead_loop p1 n) as [p2 l2] eqn:E2. injection E as <- <-.
  destruct (get_spec p c p1 Hp He Eg) as [Hp1 Ec]. destruct (IH _ _ _ Hp1 E2) as (Hp' & Er & Ew & Ec2 & Hl).
  unfold get in Eg. injection Eg as _ <-. split_and!; [done..| |].
  - rewrite Ec, Ec2. done.
  - rewrite Ec. cbn [length]. rewrite Hl. lia.
Qed.

(** * Invariants *)

(** First in, first out. *)
Definition fifo (s : pst) : Prop := pipe_ok (pp s) ∧ sent s = received s ++ contents (pp s).

(** Sleeping writers have a full pipe with a reader, and sleeping readers an empty one with a writer. *)
Definition wsleep_ok (s : pst) : Prop := ∀ l n, WSleep l n ∈ threads s → full (pp s) = true ∧ readopen (pp s) = true ∧ l ≠ [].
Definition rsleep_ok (s : pst) : Prop := ∀ n, RSleep n ∈ threads s → readopen (pp s) = true → empty (pp s) = true ∧ writeopen (pp s) = true.

Lemma elem_of_insert_thread (ts : list thread) (i : nat) (t t' : thread) : t ∈ <[i := t']> ts → t = t' ∨ t ∈ ts.
Proof. intros Ht. apply list_elem_of_lookup in Ht as (j & Hj). apply slot_insert_Some in Hj as [(_ & -> & _)|[_ Hj]]; [by left|right]. by eapply list_elem_of_lookup_2. Qed.

Lemma woken_reader ts n : RSleep n ∉ wake_readers true ts.
Proof. intros (t & E & _)%list_elem_of_fmap. by destruct t. Qed.

Lemma woken_writer ts l n : WSleep l n ∉ wake_writers true ts.
Proof. intros (t & E & _)%list_elem_of_fmap. by destruct t. Qed.

Lemma rsleep_wake_writers b ts n : RSleep n ∈ wake_writers b ts → RSleep n ∈ ts.
Proof. destruct b; [|done]. intros (t & E & Ht)%list_elem_of_fmap. destruct t; try done. by injection E as ->. Qed.

Lemma wsleep_wake_readers b ts l n : WSleep l n ∈ wake_readers b ts → WSleep l n ∈ ts.
Proof. destruct b; [|done]. intros (t & E & Ht)%list_elem_of_fmap. destruct t; try done. by injection E as -> ->. Qed.

Lemma fifo_step K s s' : fifo s → pipe_step K s s' → fifo s'.
Proof.
  intros [Hp Hs] Hst. destruct Hst as [| |p ts sn rc i l n k p' rest r Hi Hk E|p ts sn rc i n k p' got r Hi Hk E
    |p ts sn rc w p' Ho E|]; try done; cbn [pp sent received] in *.
  - unfold pipewrite in E. destruct (pipewrite_loop p l) as [p1 rest1] eqn:El.
    destruct (pipewrite_loop_spec l p p1 rest1 Hp El) as (Hp1 & _ & _ & ds & -> & Ec & _).
    assert (p' = p1 ∧ rest = rest1) as [-> ->] by (destruct rest1; [|destruct (negb (readopen p1) || k)]; by injection E as <- <- <-).
    split; [done|]. cbn [sent received pp]. rewrite length_app, Nat.add_sub, take_app_length, Hs, Ec. by rewrite app_assoc.
  - unfold piperead in E. destruct (empty p && writeopen p) eqn:Eb.
    { destruct k; injection E as <- <- <-; split; cbn [sent received pp]; by rewrite ?app_nil_r. }
    destruct (piperead_loop p n) as [p1 l1] eqn:El. injection E as <- <- <-.
    destruct (piperead_loop_spec n p p1 l1 Hp El) as (Hp1 & _ & _ & Ec & _).
    split; [done|]. cbn [sent received pp]. by rewrite Hs, Ec, app_assoc.
  - unfold pipeclose in E. injection E as <- _. destruct w; (split; [destruct Hp; by split|done]).
Qed.

Lemma wsleep_step K s s' : fifo s → wsleep_ok s → pipe_step K s s' → wsleep_ok s'.
Proof.
  intros [Hp _] Hw Hst l0 n0 H0. destruct Hst as [p ts sn rc i l Hi Ho|p ts sn rc i n Hi Ho|p ts sn rc i l n k p' rest r Hi Hk E
    |p ts sn rc i n k p' got r Hi Hk E|p ts sn rc w p' Ho E|p ts sn rc i t Hi Hk]; unfold wsleep_ok in Hw; cbn [pp threads] in *.
  - apply elem_of_insert_thread in H0 as [?|H0]; [done|by eapply Hw].
  - apply elem_of_insert_thread in H0 as [?|H0]; [done|by eapply Hw].
  - unfold pipewrite in E. destruct (pipewrite_loop p l) as [p1 rest1] eqn:El.
    destruct (pipewrite_loop_spec l p p1 rest1 Hp El) as (Hp1 & Er & _ & ds & Eds & Ec & Hf).
    apply elem_of_insert_thread in H0 as [H0|H0%wsleep_wake_readers].
    + destruct rest1 as [|c rest1]; [by injection E as <- <- <-|].
      destruct (readopen p1) eqn:Ho, k; cbn in E; injection E as <- <- <-; try done. injection H0 as -> ->. auto.
    + destruct (Hw _ _ H0) as (Hfull & Hopen & Hl0). assert (p' = p1) as ->
        by (destruct rest1; [|destruct (negb (readopen p1) || k)]; by injection E as <- <- <-).
      rewrite Er. split_and!; [|done..]. rewrite full_count in Hfull |- * by done. apply Z.eqb_eq in Hfull. apply Z.eqb_eq.
      apply (f_equal length) in Ec. rewrite length_app, !length_contents in Ec. pose proof (po_count _ Hp1).
      unfold PIPESIZE in *. lia.
  - apply elem_of_insert_thread in H0 as [H0|H0]; [by destruct r|]. unfold piperead in E.
    destruct (empty p && writeopen p) eqn:Eb; [destruct k|destruct (piperead_loop p n)]; injection E as <- <- <-; cbn [wakes] in H0;
      [by eapply Hw..|by apply woken_writer in H0].
  - unfold pipeclose in E. injection E as <- _. destruct w; [|by apply woken_writer in H0].
    apply wsleep_wake_readers in H0. destruct (Hw _ _ H0) as (Hf & Hr & Hl). done.
  - apply elem_of_insert_thread in H0 as [H0|H0]; [by destruct t|by eapply Hw].
Qed.

(** Readers: the invariant needs processes that are not killed. *)
Definition alive (i : nat) (k : bool) : Prop := k = false.

Lemma rsleep_step s s' : fifo s → rsleep_ok s → pipe_step alive s s' → rsleep_ok s'.
Proof.
  intros [Hp _] Hw Hst n0 H0 Hro. destruct Hst as [p ts sn rc i l Hi Ho|p ts sn rc i n Hi Ho|p ts sn rc i l n k p' rest r Hi Hk E
    |p ts sn rc i n k p' got r Hi Hk E|p ts sn rc w p' Ho E|p ts sn rc i t Hi Hk]; unfold rsleep_ok in Hw; cbn [pp threads] in *.
  - apply elem_of_insert_thread in H0 as [?|H0]; [done|by eapply Hw].
  - apply elem_of_insert_thread in H0 as [?|H0]; [done|by eapply Hw].
  - unfold alive in Hk. subst k. unfold pipewrite in E. destruct (pipewrite_loop p l) as [p1 rest1] eqn:El.
    destruct (pipewrite_loop_spec l p p1 rest1 Hp El) as (Hp1 & Er & _ & ds & Eds & Ec & Hf).
    apply elem_of_insert_thread in H0 as [H0|H0]; [by destruct r|].
    destruct rest1 as [|c rest1]; [injection E as <- <- <-; by apply woken_reader in H0|].
    destruct (readopen p1) eqn:Ho; cbn in E; injection E as <- <- <-; [by apply woken_reader in H0|congruence].
  - unfold piperead in E. destruct (empty p && writeopen p) eqn:Eb.
    + apply andb_prop in Eb as [He Ho]. destruct k; by injection E as <- <- <-.
    + destruct (piperead_loop p n) as [p1 l1] eqn:El. injection E as <- <- <-. cbn [wakes after_read] in H0.
      destruct (piperead_loop_spec n p p1 l1 Hp El) as (Hp1 & Er & Ew & Ec & _).
      apply elem_of_insert_thread in H0 as [H0|H0%rsleep_wake_writers]; [done|]. rewrite Er in Hro. destruct (Hw _ H0 Hro) as [He Ho].
      rewrite He, Ho in Eb. done.
  - unfold pipeclose in E. injection E as <- _. destruct w; [by apply woken_reader in H0|]. done.
  - apply elem_of_insert_thread in H0 as [H0|H0]; [by destruct t|by eapply Hw].
Qed.

Lemma step_mono (K K' : nat → bool → Prop) s s' : (∀ i k, K i k → K' i k) → pipe_step K s s' → pipe_step K' s s'.
Proof.
  intros HK []; [by eapply s_call_write|by eapply s_call_read|eapply s_write|eapply s_read|by eapply s_close|eapply s_kill]; eauto.
Qed.

(** * Theorems *)

Definition pipe_init (d : list Z) (n : nat) : pst := PSt (pipe_new d) (replicate n Idle) [] [].

Lemma pipe_init_ok d n : length d = Z.to_nat PIPESIZE →
  fifo (pipe_init d n) ∧ wsleep_ok (pipe_init d n) ∧ rsleep_ok (pipe_init d n).
Proof.
  intros Hd. split_and!.
  - split; [|done]. by split.
  - intros l m Hin. by apply elem_of_replicate_inv in Hin.
  - intros m Hin. by apply elem_of_replicate_inv in Hin.
Qed.

Lemma fifo_run K d n s : length d = Z.to_nat PIPESIZE → rtc (pipe_step K) (pipe_init d n) s → fifo s ∧ wsleep_ok s.
Proof.
  intros Hd Hr. destruct (pipe_init_ok d n Hd) as (Hf & Hw & _). revert Hf Hw.
  induction Hr as [|s s1 s2 Hst Hr IH]; intros Hf Hw; [done|]. apply IH; [by eapply fifo_step|by eapply wsleep_step].
Qed.

Lemma rsleep_run d n s : length d = Z.to_nat PIPESIZE → rtc (pipe_step alive) (pipe_init d n) s → rsleep_ok s.
Proof.
  intros Hd Hr. destruct (pipe_init_ok d n Hd) as (Hf & _ & Hw). revert Hf Hw.
  induction Hr as [|s s1 s2 Hst Hr IH]; intros Hf Hw; [done|]. apply IH; [by eapply fifo_step|by eapply rsleep_step].
Qed.

(** C26. A pipe is a bounded queue.  In every interleaving of readers and writers, also when the counters
    wrap around and processes are killed, the bytes received are a prefix of the bytes sent and the rest, at most
    [PIPESIZE] bytes, is in the pipe; a writer sleeps only while the pipe is full and
    has a reader.  If nobody is killed, a reader of an open pipe sleeps only
    while the pipe is empty and has a writer; so a reader and a writer never
    sleep at the same time. *)
Theorem pipe_fifo K d n s : length d = Z.to_nat PIPESIZE → rtc (pipe_step K) (pipe_init d n) s →
  sent s = received s ++ contents (pp s) ∧ (length (contents (pp s)) ≤ 512)%nat ∧
  (∀ l m, WSleep l m ∈ threads s → length (contents (pp s)) = 512%nat ∧ readopen (pp s) = true) ∧
  ((∀ i k, K i k → k = false) →
    (∀ m, RSleep m ∈ threads s → readopen (pp s) = true → contents (pp s) = [] ∧ writeopen (pp s) = true) ∧
    ∀ l m m', WSleep l m ∈ threads s → RSleep m' ∉ threads s).
Proof.
  intros Hd Hr. destruct (fifo_run K d n s Hd Hr) as [[Hp Hs] Hw].
  assert (∀ l m, WSleep l m ∈ threads s → length (contents (pp s)) = 512%nat ∧ readopen (pp s) = true) as HW.
  { intros l m Hin. destruct (Hw l m Hin) as (Hf & Ho & _). split; [|done]. rewrite (full_count _ Hp) in Hf. apply Z.eqb_eq in Hf.
    by rewrite length_contents, Hf. }
  split_and!; [done| |done|].
  { rewrite length_contents. pose proof (po_count _ Hp). unfold PIPESIZE in *. lia. }
  intros HK. assert (rsleep_ok s) as HR.
  { apply (rsleep_run d n s Hd). eapply rtc_subrel; [|done]. intros x y. by apply step_mono. }
  assert (∀ m, RSleep m ∈ threads s → readopen (pp s) = true → contents (pp s) = [] ∧ writeopen (pp s) = true) as HR'.
  { intros m Hin Ho. destruct (HR m Hin Ho) as [He ?]. split; [|done]. by apply (empty_contents _ Hp). }
  split; [done|]. intros l m m' H1 H2. destruct (HW _ _ H1) as [Hl Ho]. destruct (HR' _ H2 Ho) as [E _]. by rewrite E in Hl.
Qed.

(** Process 1 is killed, the others are not. *)
Definition second_killed (i : nat) (k : bool) : Prop := k = bool_decide (i = 1%nat).
Definition w_page : list Z := replicate (Z.to_nat PIPESIZE) 0.
Definition w_bytes : list Z := replicate 513 7.
Definition w_written : pipe := (pipewrite (pipe_new w_page) w_bytes 513 true).1.1.
Definition w_stuck : pst := PSt w_written [RSleep 10; Idle] (take 512 w_bytes) [].

Lemma w_stuck_reach : rtc (pipe_step second_killed) (pipe_init w_page 2) w_stuck.
Proof.
  unfold pipe_init. cbn [replicate].
  eapply rtc_l; [apply (s_call_read _ _ _ _ _ 0 10); done|].
  eapply rtc_l; [apply (s_read _ _ _ _ _ 0 10 false (pipe_new w_page) [] (Sleep false)); done|].
  eapply rtc_l; [apply (s_call_write _ _ _ _ _ 1 w_bytes); done|].
  eapply rtc_l; [apply (s_write _ _ _ _ _ 1 w_bytes (Z.of_nat (length w_bytes)) true w_written [7] (Return (-1) false)); [done..|vm_compute; reflexivity]|].
  apply rtc_refl.
Qed.

(** A killed writer can leave a reader asleep on a full pipe.  When [pipewrite] has filled the pipe and finds its
    process killed, it returns without [wakeup(&p->nread)]: a reader that was
    waiting for the first byte goes on sleeping although [PIPESIZE] bytes are there, both ends are open and no other
    process is inside a call. *)
Theorem killed_writer_strands_reader :
  ∃ s m, rtc (pipe_step second_killed) (pipe_init w_page 2) s ∧ threads s = [RSleep m; Idle] ∧
    length (contents (pp s)) = 512%nat ∧ readopen (pp s) = true ∧ writeopen (pp s) = true.
Proof. exists w_stuck, 10%nat. split; [apply w_stuck_reach|]. by vm_compute. Qed.

Definition w_waiting : pst := PSt (pipe_new w_page) [RSleep 10; Idle] [] [].

Lemma w_waiting_reach : rtc (pipe_step alive) (pipe_init w_page 2) w_waiting.
Proof.
  unfold pipe_init. cbn [replicate].
  eapply rtc_l; [apply (s_call_read _ _ _ _ _ 0 10); done|].
  eapply rtc_l; [apply (s_read _ _ _ _ _ 0 10 false (pipe_new w_page) [] (Sleep false)); done|]. apply rtc_refl.
Qed.

Lemma pipe_fifo_witness : (sent w_stuck = received w_stuck ++ contents (pp w_stuck) ∧ (length (contents (pp w_stuck)) ≤ 512)%nat) ∧
  contents (pp w_waiting) = [] ∧ writeopen (pp w_waiting) = true.
Proof.
  split.
  - destruct (pipe_fifo second_killed w_page 2 w_stuck) as (H1 & H2 & _); [reflexivity|apply w_stuck_reach|].
    split; [exact H1|exact H2].
  - destruct (pipe_fifo alive w_page 2 w_waiting) as (_ & _ & _ & H); [reflexivity|apply w_waiting_reach|].
    destruct H as [H _]; [intros i k Hk; exact Hk|]. apply (H 10%nat); [by left|reflexivity].
Defined.
