(* ===== verification/Fs.v ===== *)
(** Blocks and the content of inodes (src/p4/fs.c, fs.h, the struct inode of file.h).

    The operations run on the buffer cache and the log of Bio.v and Log.v, through the interface
    [BufOps].  [sb] is the super block that [iinit] has read.  An in-memory inode is a value: the
    caller holds its lock, so the operations that change it return the new one.  Device
    files go through the table [devsw], whose functions (the console's) are a parameter.  [memmove] into or out
    of a buffer is [splice] or a slice of its bytes. *)

From Stdlib Require Import ZArith Lia.
From stdpp Require Import base numbers list gmap fin_sets sets strings.
From S2P Require Import Prelude Bio Log.
#[local] Open Scope Z_scope.

Record superblock := SuperBlock {
  sb_size : Z; sb_nblocks : Z; sb_ninodes : Z; sb_nlog : Z; sb_logstart : Z; sb_inodestart : Z; sb_bmapstart : Z }.

Definition NDIRECT : Z := 12.
Definition NINDIRECT : Z := 128.
Definition MAXFILE : Z := NDIRECT + NINDIRECT.
Definition BS : Z := Z.of_nat BSIZE.
Definition IPB : Z := 8.
Definition BPB : Z := BS * 8.
Definition NDEV : Z := 10.
Definition T_DIR : Z := 1.
Definition T_FILE : Z := 2.
Definition T_DEV : Z := 3.

Record inode := Inode {
  i_dev : Z; inum : Z; i_ref : Z; i_locked : bool; i_valid : bool;
  itype : Z; major : Z; minor : Z; nlink : Z; isize : Z; addrs : list Z }.

Definition set_addrs (l : list Z) (ip : inode) : inode :=
  Inode (i_dev ip) (inum ip) (i_ref ip) (i_locked ip) (i_valid ip) (itype ip) (major ip) (minor ip) (nlink ip) (isize ip) l.
Definition set_addr (i : Z) (a : Z) (ip : inode) : inode := set_addrs (<[Z.to_nat i := a]> (addrs ip)) ip.
Definition set_size (n : Z) (ip : inode) : inode :=
  Inode (i_dev ip) (inum ip) (i_ref ip) (i_locked ip) (i_valid ip) (itype ip) (major ip) (minor ip) (nlink ip) n (addrs ip).
Definition set_ilocked (x : bool) (ip : inode) : inode :=
  Inode (i_dev ip) (inum ip) (i_ref ip) x (i_valid ip) (itype ip) (major ip) (minor ip) (nlink ip) (isize ip) (addrs ip).
Definition addr_at (ip : inode) (i : Z) : Z := addrs ip !!! Z.to_nat i.

(** The bytes [x] stored at offset [o] of [d]. *)
Definition splice (d : list Z) (o : nat) (x : list Z) : list Z := take o d ++ x ++ drop (o + length x) d.

(** [struct dinode], little endian. *)
Definition dinode_bytes (ip : inode) : list Z :=
  le_bytes 2 (itype ip) ++ le_bytes 2 (major ip) ++ le_bytes 2 (minor ip) ++ le_bytes 2 (nlink ip) ++
  le_bytes 4 (isize ip) ++ concat (le_bytes 4 <$> addrs ip).
Definition DINODE : nat := 64.

(** The fields of a [struct dinode]. *)
Definition short_at (d : list Z) (o : nat) : Z := let x := le (take 2 (drop o d)) in if x <? 2 ^ 15 then x else x - 2 ^ 16.
Definition load_dinode (d : list Z) (ip : inode) : inode :=
  Inode (i_dev ip) (inum ip) (i_ref ip) (i_locked ip) true
    (short_at d 0) (short_at d 2) (short_at d 4) (short_at d 6) (get32 d 2) ((λ k, get32 d (3 + k)) <$> seq 0 13).

Section fs.
Context {C : Type} `{BufOps C} (sb : superblock).

Definition IBLOCK (i : Z) : Z := i / IPB + sb_inodestart sb.
Definition BBLOCK (b : Z) : Z := b / BPB + sb_bmapstart sb.

(** A change of the data of a buffer followed by its [log_write]. *)
Definition store_log (c : C) (g : log) (bp : nat) (x : block) : outcome (C * log) := log_write (c_store c bp x) g bp.

Definition bzero (c : C) (g : log) (dv bno : Z) : outcome (C * log) :=
  '(bp, c) ← c_bread c (dv, bno);
  '(c, g) ← store_log c g bp (replicate BSIZE 0);
  c ← c_brelse c bp;
  Ok (c, g).

(** [bp->data[bi/8] & (1 << (bi % 8))] *)
Definition bit_of (d : block) (bi : Z) : Z := Z.land (d !!! Z.to_nat (bi / 8)) (Z.shiftl 1 (bi mod 8)).
Definition set_bit (d : block) (bi : Z) : block :=
  <[Z.to_nat (bi / 8) := u8 (Z.lor (d !!! Z.to_nat (bi / 8)) (Z.shiftl 1 (bi mod 8)))]> d.
Definition clear_bit (d : block) (bi : Z) : block :=
  <[Z.to_nat (bi / 8) := u8 (Z.land (d !!! Z.to_nat (bi / 8)) (Z.lnot (Z.shiftl 1 (bi mod 8))))]> d.

(** The inner loop of [balloc]; [n] is [BPB - bi]. *)
Fixpoint find_free (d : block) (b bi : Z) (n : nat) : option Z :=
  match n with
  | O => None
  | S n' => if b + bi <? sb_size sb then if bit_of d bi =? 0 then Some bi else find_free d b (bi + 1) n' else None
  end.

(** The outer loop; [n] bounds the bitmap blocks left. *)
Fixpoint balloc_loop (c : C) (g : log) (dv b : Z) (n : nat) : outcome (Z * C * log) :=
  if b <? sb_size sb then
    match n with
    | O => NoFuel
    | S n' =>
        '(bp, c) ← c_bread c (dv, BBLOCK b);
        d ← c_data c bp;
        match find_free d b 0 (Z.to_nat BPB) with
        | Some bi =>
            '(c, g) ← store_log c g bp (set_bit d bi);
            c ← c_brelse c bp;
            '(c, g) ← bzero c g dv (b + bi);
            Ok (b + bi, c, g)
        | None => c ← c_brelse c bp; balloc_loop c g dv (b + BPB) n'
        end
    end
  else Panic "balloc: out of blocks".

Definition balloc (c : C) (g : log) (dv : Z) : outcome (Z * C * log) := balloc_loop c g dv 0 (Z.to_nat (sb_size sb)).

Definition bfree (c : C) (g : log) (dv b : Z) : outcome (C * log) :=
  '(bp, c) ← c_bread c (dv, BBLOCK b);
  d ← c_data c bp;
  let bi := b mod BPB in
  if bit_of d bi =? 0 then Panic "freeing free block"
  else
    '(c, g) ← store_log c g bp (clear_bit d bi);
    c ← c_brelse c bp;
    Ok (c, g).

Definition iupdate (c : C) (g : log) (ip : inode) : outcome (C * log) :=
  '(bp, c) ← c_bread c (i_dev ip, IBLOCK (inum ip));
  d ← c_data c bp;
  '(c, g) ← store_log c g bp (splice d (Z.to_nat (inum ip mod IPB) * DINODE) (dinode_bytes ip));
  c ← c_brelse c bp;
  Ok (c, g).

(** [acquiresleep(&ip->lock)] on a lock that is held is a [Fault]: the process would sleep. *)
Definition ilock (c : C) (ip : inode) : outcome (inode * C) :=
  if i_ref ip <? 1 then Panic "ilock"
  else if i_locked ip then Fault (inum ip)
  else
    let ip := set_ilocked true ip in
    if i_valid ip then Ok (ip, c)
    else
      '(bp, c) ← c_bread c (i_dev ip, IBLOCK (inum ip));
      d ← c_data c bp;
      let ip := load_dinode (take DINODE (drop (Z.to_nat (inum ip mod IPB) * DINODE) d)) ip in
      c ← c_brelse c bp;
      if itype ip =? 0 then Panic "ilock: no type" else Ok (ip, c).

Definition iunlock (ip : inode) : outcome inode :=
  if negb (i_locked ip) || (i_ref ip <? 1) then Panic "iunlock" else Ok (set_ilocked false ip).

Definition bmap (c : C) (g : log) (ip : inode) (bn : Z) : outcome (Z * inode * C * log) :=
  if bn <? NDIRECT then
    let addr := addr_at ip bn in
    if addr =? 0 then
      '(addr, c, g) ← balloc c g (i_dev ip);
      Ok (addr, set_addr bn addr ip, c, g)
    else Ok (addr, ip, c, g)
  else
    let bn := bn - NDIRECT in
    if bn <? NINDIRECT then
      '(addr, ip, c, g) ←
        (let addr := addr_at ip NDIRECT in
         if addr =? 0 then
           '(addr, c, g) ← balloc c g (i_dev ip);
           Ok (addr, set_addr NDIRECT addr ip, c, g)
         else Ok (addr, ip, c, g));
      '(bp, c) ← c_bread c (i_dev ip, addr);
      a ← c_data c bp;
      let addr := get32 a (Z.to_nat bn) in
      if addr =? 0 then
        '(addr, c, g) ← balloc c g (i_dev ip);
        '(c, g) ← store_log c g bp (put32 a (Z.to_nat bn) addr);
        c ← c_brelse c bp;
        Ok (addr, ip, c, g)
      else
        c ← c_brelse c bp;
        Ok (addr, ip, c, g)
    else Panic "bmap: out of range".

(** [if(ip->addrs[i]) { bfree(...); ip->addrs[i] = 0; }] for the [n] addresses from [i] on. *)
Fixpoint trunc_direct (c : C) (g : log) (ip : inode) (i : Z) (n : nat) : outcome (inode * C * log) :=
  match n with
  | O => Ok (ip, c, g)
  | S n' =>
      if addr_at ip i =? 0 then trunc_direct c g ip (i + 1) n'
      else
        '(c, g) ← bfree c g (i_dev ip) (addr_at ip i);
        trunc_direct c g (set_addr i 0 ip) (i + 1) n'
  end.

Fixpoint trunc_indirect (c : C) (g : log) (dv : Z) (a : block) (j : nat) (n : nat) : outcome (C * log) :=
  match n with
  | O => Ok (c, g)
  | S n' =>
      if get32 a j =? 0 then trunc_indirect c g dv a (S j) n'
      else '(c, g) ← bfree c g dv (get32 a j); trunc_indirect c g dv a (S j) n'
  end.

Definition itrunc (c : C) (g : log) (ip : inode) : outcome (inode * C * log) :=
  '(ip, c, g) ← trunc_direct c g ip 0 (Z.to_nat NDIRECT);
  '(ip, c, g) ←
    (if addr_at ip NDIRECT =? 0 then Ok (ip, c, g)
     else
       '(bp, c) ← c_bread c (i_dev ip, addr_at ip NDIRECT);
       a ← c_data c bp;
       '(c, g) ← trunc_indirect c g (i_dev ip) a 0 (Z.to_nat NINDIRECT);
       c ← c_brelse c bp;
       '(c, g) ← bfree c g (i_dev ip) (addr_at ip NDIRECT);
       Ok (set_addr NDIRECT 0 ip, c, g));
  let ip := set_size 0 ip in
  '(c, g) ← iupdate c g ip;
  Ok (ip, c, g).

(** [devsw[major].read] and [devsw[major].write]. *)
Context (devsw_read : Z → option (C → log → inode → Z → outcome (Z * list Z * inode * C * log))).
Context (devsw_write : Z → option (C → log → inode → list Z → outcome (Z * inode * C * log))).

(** The loop of [readi]: the bytes copied to [dst]. *)
Fixpoint readi_loop (c : C) (g : log) (ip : inode) (off tot n : Z) (fuel : nat) : outcome (list Z * inode * C * log) :=
  if tot <? n then
    match fuel with
    | O => NoFuel
    | S fuel' =>
        '(addr, ip, c, g) ← bmap c g ip (off / BS);
        '(bp, c) ← c_bread c (i_dev ip, addr);
        let m := Z.min (n - tot) (BS - off mod BS) in
        d ← c_data c bp;
        let x := take (Z.to_nat m) (drop (Z.to_nat (off mod BS)) d) in
        c ← c_brelse c bp;
        '(l, ip, c, g) ← readi_loop c g ip (off + m) (tot + m) n fuel';
        Ok (x ++ l, ip, c, g)
    end
  else Ok ([], ip, c, g).

(** The result and the bytes stored at [dst]. *)
Definition readi (c : C) (g : log) (ip : inode) (off n : Z) : outcome (Z * list Z * inode * C * log) :=
  if itype ip =? T_DEV then
    if (major ip <? 0) || (NDEV <=? major ip) then Ok (-1, [], ip, c, g)
    else match devsw_read (major ip) with None => Ok (-1, [], ip, c, g) | Some f => f c g ip (s32 n) end
  else if (isize ip <? off) || (u32 (off + n) <? off) then Ok (-1, [], ip, c, g)
  else
    let n := if isize ip <? u32 (off + n) then u32 (isize ip - off) else n in
    '(l, ip, c, g) ← readi_loop c g ip off 0 n (Z.to_nat n);
    Ok (n, l, ip, c, g).

(** The loop of [writei]; [src] is what is left to write. *)
Fixpoint writei_loop (c : C) (g : log) (ip : inode) (src : list Z) (off tot n : Z) (fuel : nat) : outcome (inode * C * log) :=
  if tot <? n then
    match fuel with
    | O => NoFuel
    | S fuel' =>
        '(addr, ip, c, g) ← bmap c g ip (off / BS);
        '(bp, c) ← c_bread c (i_dev ip, addr);
        let m := Z.min (n - tot) (BS - off mod BS) in
        d ← c_data c bp;
        '(c, g) ← store_log c g bp (splice d (Z.to_nat (off mod BS)) (take (Z.to_nat m) src));
        c ← c_brelse c bp;
        writei_loop c g ip (drop (Z.to_nat m) src) (off + m) (tot + m) n fuel'
    end
  else Ok (ip, c, g).

(** [n] is the length of [src]. *)
Definition writei (c : C) (g : log) (ip : inode) (src : list Z) (off : Z) : outcome (Z * inode * C * log) :=
  let n := Z.of_nat (length src) in
  if itype ip =? T_DEV then
    if (major ip <? 0) || (NDEV <=? major ip) then Ok (-1, ip, c, g)
    else match devsw_write (major ip) with None => Ok (-1, ip, c, g) | Some f => f c g ip src end
  else if (isize ip <? off) || (u32 (off + n) <? off) then Ok (-1, ip, c, g)
  else if MAXFILE * BS <? u32 (off + n) then Ok (-1, ip, c, g)
  else
    '(ip, c, g) ← writei_loop c g ip src off 0 n (length src);
    let off := off + n in
    if (0 <? n) && (isize ip <? off) then
      let ip := set_size off ip in
      '(c, g) ← iupdate c g ip;
      Ok (n, ip, c, g)
    else Ok (n, ip, c, g).
End fs.
