(* ===== verification/FsSpec.v ===== *)
(** Specifications of the block and inode operations of Fs (src/p4/fs.c).

    Inside a transaction an operation sees the blocks through the cache: [sees c g v h] says that the cache shows
    [v], that the buffers [h] are held and that the log is in use.  On it: the free-block
    bitmap ([balloc], [bfree]), the block map of a file ([bmap]) and its bytes ([readi], [writei], [itrunc]). *)

From Stdlib Require Import ZArith Lia.
From stdpp Require Import base numbers list gmap fin_sets sets strings.
From S2P Require Import Prelude Bio Log LogCrash Fs.
#[local] Open Scope Z_scope.

(** * Bits *)

Lemma bit_of_testbit d b : 0 <= b → (bit_of d b =? 0) = negb (Z.testbit (d !!! Z.to_nat (b / 8)) (b mod 8)).
Proof.
  intros Hb. unfold bit_of. set (x := d !!! _). set (k := b mod 8). assert (0 <= k) as Hk by (apply Z.mod_pos_bound; lia).
  rewrite Z.shiftl_1_l. destruct (Z.testbit x k) eqn:E; cbn [negb].
  - apply Z.eqb_neq. intros E0. apply (f_equal (λ z, Z.testbit z k)) in E0.
    rewrite Z.land_spec, E, Z.pow2_bits_true, Z.bits_0 in E0 by done. done.
  - apply Z.eqb_eq. apply Z.bits_inj'. intros j Hj. rewrite Z.land_spec, Z.bits_0, Z.pow2_bits_eqb by done.
    destruct (Z.eqb_spec k j) as [<-|_]; [by rewrite E|apply andb_false_r].
Qed.

Lemma bit_of_set d b b' : 0 <= b → 0 <= b' → (Z.to_nat (b / 8) < length d)%nat →
  (bit_of (set_bit d b) b' =? 0) = (bit_of d b' =? 0) && negb (b' =? b).
Proof.
  intros Hb Hb' Hl. rewrite !bit_of_testbit by done. unfold set_bit.
  assert (0 <= b mod 8 < 8 ∧ 0 <= b' mod 8 < 8) as [Hm Hm'] by (split; apply Z.mod_pos_bound; lia).
  pose proof (Z.div_mod b 8 ltac:(lia)). pose proof (Z.div_mod b' 8 ltac:(lia)).
  pose proof (Z.div_pos b 8 Hb ltac:(lia)). pose proof (Z.div_pos b' 8 Hb' ltac:(lia)).
  destruct (decide (b / 8 = b' / 8)) as [Eq|Hne].
  - rewrite <- Eq, list_lookup_total_insert_eq by done. unfold u8. rewrite Z.mod_pow2_bits_low, Z.lor_spec, Z.shiftl_1_l, Z.pow2_bits_eqb by lia.
    destruct (Z.eqb_spec (b mod 8) (b' mod 8)), (Z.eqb_spec b' b); try lia; rewrite ?orb_true_r, ?orb_false_r, ?andb_false_r, ?andb_true_r; done.
  - rewrite list_lookup_total_insert_ne by lia. destruct (Z.eqb_spec b' b) as [->|_]; [done|]. by rewrite andb_true_r.
Qed.

Lemma bit_of_clear d b b' : 0 <= b → 0 <= b' → (Z.to_nat (b / 8) < length d)%nat →
  (bit_of (clear_bit d b) b' =? 0) = (bit_of d b' =? 0) || (b' =? b).
Proof.
  intros Hb Hb' Hl. rewrite !bit_of_testbit by done. unfold clear_bit.
  assert (0 <= b mod 8 < 8 ∧ 0 <= b' mod 8 < 8) as [Hm Hm'] by (split; apply Z.mod_pos_bound; lia).
  pose proof (Z.div_mod b 8 ltac:(lia)). pose proof (Z.div_mod b' 8 ltac:(lia)).
  pose proof (Z.div_pos b 8 Hb ltac:(lia)). pose proof (Z.div_pos b' 8 Hb' ltac:(lia)).
  destruct (decide (b / 8 = b' / 8)) as [Eq|Hne].
  - rewrite <- Eq, list_lookup_total_insert_eq by done. unfold u8.
    rewrite Z.mod_pow2_bits_low, Z.land_spec, Z.lnot_spec, Z.shiftl_1_l, Z.pow2_bits_eqb by lia.
    destruct (Z.eqb_spec (b mod 8) (b' mod 8)), (Z.eqb_spec b' b); try lia; cbn [negb];
      rewrite ?orb_true_r, ?orb_false_r, ?andb_false_r, ?andb_true_r; done.
  - rewrite list_lookup_total_insert_ne by lia. destruct (Z.eqb_spec b' b) as [->|_]; [done|]. by rewrite orb_false_r.
Qed.

(** * Stores into a block *)

Lemma length_splice d o x : (o + length x ≤ length d)%nat → length (splice d o x) = length d.
Proof. intros Hl. unfold splice. rewrite !length_app, length_take, length_drop. lia. Qed.

Lemma splice_in d o x k : (o + length x ≤ length d)%nat → (o ≤ k < o + length x)%nat → splice d o x !!! k = x !!! (k - o)%nat.
Proof.
  intros Hl Hk. rewrite !list_lookup_total_alt. unfold splice. rewrite lookup_app_r by (rewrite length_take; lia).
  rewrite length_take, lookup_app_l by lia. do 2 f_equal. lia.
Qed.

Lemma splice_lookup_out d o x k : (o + length x ≤ length d)%nat → ¬ (o ≤ k < o + length x)%nat → splice d o x !! k = d !! k.
Proof.
  intros Hl Hk. unfold splice. destruct (decide (k < o)%nat).
  - rewrite lookup_app_l by (rewrite length_take; lia). by rewrite lookup_take_lt by lia.
  - rewrite lookup_app_r by (rewrite length_take; lia). rewrite length_take, lookup_app_r by lia.
    rewrite lookup_drop. f_equal. lia.
Qed.

Lemma splice_out d o x k : (o + length x ≤ length d)%nat → ¬ (o ≤ k < o + length x)%nat → splice d o x !!! k = d !!! k.
Proof. intros Hl Hk. rewrite !list_lookup_total_alt. by rewrite splice_lookup_out. Qed.

Lemma splice_slice d o x : (o + length x ≤ length d)%nat → take (length x) (drop o (splice d o x)) = x.
Proof.
  intros Hl. unfold splice. rewrite drop_app_ge by (rewrite length_take; lia). rewrite length_take.
  replace (o - o `min` length d)%nat with 0%nat by lia. rewrite drop_0. apply take_app_length.
Qed.

Lemma splice_disjoint d o x o' n : (o + length x ≤ length d)%nat → (o' + n ≤ o ∨ o + length x ≤ o')%nat →
  take n (drop o' (splice d o x)) = take n (drop o' d).
Proof.
  intros Hl Hd. apply list_eq. intros k. destruct (decide (k < n)%nat); [|by rewrite !lookup_take_ge by lia].
  rewrite !lookup_take_lt, !lookup_drop by done. apply splice_lookup_out; lia.
Qed.

Section fsspec.
Context {C : Type} `{BL : BufLaws C cview} (g0 : log) (HL : layout g0).

Abbreviation key := (home_key g0).
Abbreviation okb := (home_ok g0).

(** * Blocks inside a transaction *)

Record sees (c : C) (g : log) (v : disk_map) (h : gmap nat bkey) : Prop := {
  se_place : dev g = dev g0 ∧ start g = start g0 ∧ lsize g = lsize g0;
  se_ok : Forall okb (lh g);
  se_nodup : NoDup (lh g);
  se_view : ∃ d, cview c (CAbs v d h (logged g0 (lh g))) ∧ ∀ k, k ∉ logged g0 (lh g) → v !!! k = d !!! k }.

(** The log has room for [k] more blocks, and the cache for the buffers of an operation. *)
Definition room (g : log) (k : nat) : Prop :=
  (length (lh g) + k ≤ 27)%nat ∧ Z.of_nat (length (lh g) + k) < lsize g0 ∧ (k = 0%nat ∨ 1 <= outstanding g).

Lemma room_le g k k' : (k' ≤ k)%nat → room g k → room g k'.
Proof. unfold room. lia. Qed.

Lemma fs_bread c g v h b : sees c g v h → okb b → (∀ i, h !! i ≠ Some (key b)) → room g 0 → (size h ≤ 2)%nat →
  ∃ i c', c_bread c (dev g0, b) = Ok (i, c') ∧ h !! i = None ∧ sees c' g v (<[i := key b]> h).
Proof using BL HL.
  intros [Hpl Hok Hnd (d & Hc & Hcl)] Hb Hh [Hr _] Hsz. pose proof (logged_size g0 HL (lh g)) as Hs.
  destruct (law_bread (cview := cview) c _ (key b) Hc) as (i & c' & E & Hi & Hc' & _);
    [by apply home_key_ok|done|right; cbn [pins held]; unfold NBUF; lia|].
  exists i, c'. split_and!; [done..|]. split; [done..|]. by exists d.
Qed.

Lemma fs_data c g v h i b : sees c g v h → h !! i = Some (key b) → c_data c i = Ok (v !!! key b).
Proof using BL. intros [_ _ _ (d & Hc & _)] Hi. by apply (law_data (cview := cview) c _ i (key b) Hc). Qed.

Lemma fs_store c g v h i b x : sees c g v h → h !! i = Some (key b) → okb b → room g 1 →
  ∃ c', store_log c g i x = Ok (c', set_lh (absorb (lh g) b) g) ∧
    sees c' (set_lh (absorb (lh g) b) g) (<[key b := x]> v) h.
Proof using BL HL.
  intros [(Hd & Hs & Hl) Hok Hnd (d & Hc & Hcl)] Hi Hb (Hr1 & Hr2 & Ho).
  destruct (law_store (cview := cview) c _ i (key b) x Hc Hi) as [Hc1 _]. cbn [view dsk held pins] in Hc1.
  destruct (law_data (cview := cview) _ _ i (key b) Hc1 Hi) as [_ Ek].
  destruct (law_pin (cview := cview) _ _ i (key b) Hc1 Hi) as [Hc2 _]. cbn [view dsk held pins] in Hc2.
  destruct (absorb_spec g0 HL (lh g) b Hb Hok Hnd) as (El & Hok' & Hnd' & _).
  exists (c_pin (c_store c i x) i). unfold store_log, log_write, LOGSIZE.
  rewrite (proj2 (Z.leb_gt _ _)), (proj2 (Z.leb_gt _ _)), (proj2 (Z.ltb_ge _ _)) by lia. cbn [orb]. rewrite Ek, bind_Ok.
  split; [done|]. split; cbn [set_lh lh outstanding]; try done. exists d. rewrite El. split; [done|].
  intros k Hk. rewrite lookup_total_insert_ne; [apply Hcl|]; set_solver.
Qed.

Lemma fs_brelse c g v h i b : sees c g v h → h !! i = Some (key b) →
  ∃ c', c_brelse c i = Ok c' ∧ sees c' g v (delete i h).
Proof using BL.
  intros [Hpl Hok Hnd (d & Hc & Hcl)] Hi.
  destruct (law_brelse (cview := cview) c _ i (key b) Hc Hi) as (c' & E & Hc' & _).
  { cbn [view dsk pins]. destruct (decide (key b ∈ logged g0 (lh g))) as [?|Hn]; [by left|right; by apply Hcl]. }
  exists c'. split; [done|]. split; [done..|]. by exists d.
Qed.

(** The log of [g] with the blocks [bl] recorded. *)
Definition logs (g : log) (bl : list Z) : log := set_lh (foldl absorb (lh g) bl) g.

Lemma absorb_length bl b : (length (absorb bl b) ≤ S (length bl))%nat.
Proof. unfold absorb. case_decide; [lia|]. rewrite length_app. cbn. lia. Qed.

Lemma logs_length g bl : (length (lh (logs g bl)) ≤ length (lh g) + length bl)%nat.
Proof.
  unfold logs. cbn [set_lh lh]. generalize (lh g). induction bl as [|b bl IH]; intros l; cbn [foldl length]; [lia|].
  pose proof (IH (absorb l b)). pose proof (absorb_length l b). lia.
Qed.

Lemma logs_app g bl1 bl2 : logs (logs g bl1) bl2 = logs g (bl1 ++ bl2).
Proof. unfold logs, set_lh. cbn. by rewrite foldl_app. Qed.

Lemma logs_nil g : logs g [] = g.
Proof. by destruct g. Qed.

Lemma room_logs g bl k : room g (length bl + k) → room (logs g bl) k.
Proof. pose proof (logs_length g bl). unfold room. change (outstanding (logs g bl)) with (outstanding g). lia. Qed.

(** Reading a block that is not held, and changing it. *)
Lemma fs_read c g v h b : sees c g v h → okb b → (∀ i, h !! i ≠ Some (key b)) → room g 0 → (size h ≤ 2)%nat →
  ∃ i c1 c2, c_bread c (dev g0, b) = Ok (i, c1) ∧ c_data c1 i = Ok (v !!! key b) ∧ c_brelse c1 i = Ok c2 ∧ sees c2 g v h.
Proof using BL HL.
  intros Hs Hb Hh Hr Hsz. destruct (fs_bread c g v h b Hs Hb Hh Hr Hsz) as (i & c1 & E1 & Hi & Hs1).
  assert (<[i := key b]> h !! i = Some (key b)) as Hi1 by apply lookup_insert_eq.
  destruct (fs_brelse c1 g v _ i b Hs1 Hi1) as (c2 & E2 & Hs2). exists i, c1, c2. rewrite delete_insert_id in Hs2 by done.
  split_and!; [done|by eapply fs_data|done|done].
Qed.

Lemma fs_modify c g v h b : sees c g v h → okb b → (∀ i, h !! i ≠ Some (key b)) → room g 1 → (size h ≤ 2)%nat →
  ∃ i c1, c_bread c (dev g0, b) = Ok (i, c1) ∧ c_data c1 i = Ok (v !!! key b) ∧
    ∀ x, ∃ c2 c3, store_log c1 g i x = Ok (c2, logs g [b]) ∧ c_brelse c2 i = Ok c3 ∧
      sees c3 (logs g [b]) (<[key b := x]> v) h.
Proof using BL HL.
  intros Hs Hb Hh Hr Hsz. destruct (fs_bread c g v h b Hs Hb Hh (room_le _ 1 0 ltac:(lia) Hr) Hsz) as (i & c1 & E1 & Hi & Hs1).
  assert (<[i := key b]> h !! i = Some (key b)) as Hi1 by apply lookup_insert_eq.
  exists i, c1. split_and!; [done|by eapply fs_data|]. intros x.
  destruct (fs_store c1 g v _ i b x Hs1 Hi1 Hb Hr) as (c2 & E2 & Hs2).
  destruct (fs_brelse c2 _ _ _ i b Hs2 Hi1) as (c3 & E3 & Hs3). rewrite delete_insert_id in Hs3 by done. by exists c2, c3.
Qed.

(** * The bitmap *)

Context (sb : superblock).
Abbreviation bm := (sb_bmapstart sb).

(** Where the parts of the file system are. *)
Record fs_layout : Prop := {
  fl_size : 0 < sb_size sb <= FSSIZE;
  fl_bm : okb bm;
  fl_ino : ∀ i, 0 <= i < sb_ninodes sb → okb (IBLOCK sb i) ∧ IBLOCK sb i ≠ bm;
  fl_iblock : ∀ i, 0 <= i < sb_ninodes sb → 0 < IBLOCK sb i < sb_size sb }.
Context (FL : fs_layout).

(** The log, the bitmap, the boot block, the super block and the blocks of inodes, with those behind the last inode. *)
Definition meta (b : Z) : Prop := ¬ okb b ∨ b = bm ∨ (0 <= b <= 1 ∨ sb_inodestart sb <= b < bm) ∨ ∃ i, 0 <= i < sb_ninodes sb ∧ b = IBLOCK sb i.
Definition used (v : disk_map) (b : Z) : Prop := bit_of (v !!! key bm) b ≠ 0.

#[local] Instance used_dec v b : Decision (used v b).
Proof. unfold used. apply _. Defined.

Record fs_inv (v : disk_map) : Prop := {
  fi_len : length (v !!! key bm) = BSIZE;
  fi_meta : ∀ b, 0 <= b < sb_size sb → meta b → used v b }.

Definition free_blocks (v : disk_map) : gset Z := list_to_set (filter (λ b, ¬ used v b) (seqZ 0 (sb_size sb))).

Lemma elem_of_free v b : b ∈ free_blocks v ↔ 0 <= b < sb_size sb ∧ ¬ used v b.
Proof. unfold free_blocks. rewrite elem_of_list_to_set, list_elem_of_filter, elem_of_seqZ, Z.add_0_l. tauto. Qed.

Lemma free_blocks_ext v v' : v' !!! key bm = v !!! key bm → free_blocks v' = free_blocks v.
Proof. intros E. apply set_eq. intros b. rewrite !elem_of_free. unfold used. by rewrite E. Qed.

Lemma BBLOCK_bm b : 0 <= b < sb_size sb → BBLOCK sb b = bm.
Proof using FL. intros Hb. destruct FL. unfold BBLOCK, FSSIZE in *. rewrite Z.div_small; [lia|]. unfold BPB, BS, BSIZE. lia. Qed.

Lemma bit_byte b : 0 <= b < sb_size sb → (Z.to_nat (b / 8) < BSIZE)%nat.
Proof using FL.
  intros Hb. destruct FL. unfold FSSIZE, BSIZE in *. assert (b / 8 < 512) by (apply Z.div_lt_upper_bound; lia).
  pose proof (Z.div_pos b 8). lia.
Qed.

Lemma find_free_spec d n : ∀ bi b, 0 <= bi → bi <= b < bi + Z.of_nat n → b < sb_size sb → bit_of d b = 0 →
  ∃ r, find_free sb d 0 bi n = Some r ∧ bi <= r <= b ∧ bit_of d r = 0.
Proof.
  induction n as [|n IH]; intros bi b Hbi Hb Hs E; [lia|]. cbn [find_free].
  rewrite (proj2 (Z.ltb_lt _ _)) by lia. destruct (Z.eqb_spec (bit_of d bi) 0) as [E0|Hne].
  - exists bi. split; [done|]. split; [lia|done].
  - destruct (IH (bi + 1) b) as (r & Er & Hr & E0); [lia| |done|done|].
    { destruct (decide (b = bi)) as [->|?]; [done|lia]. }
    exists r. split; [done|]. split; [lia|done].
Qed.

(** The view after block [b] is allocated. *)
Definition alloc_view (v : disk_map) (b : Z) : disk_map :=
  <[key b := replicate BSIZE 0]> (<[key bm := set_bit (v !!! key bm) b]> v).

Lemma alloc_view_bm v b : b ≠ bm → alloc_view v b !!! key bm = set_bit (v !!! key bm) b.
Proof. intros Hb. unfold alloc_view. rewrite lookup_total_insert_ne by (intros [=]; congruence). apply lookup_total_insert_eq. Qed.

Lemma alloc_view_other v b b' : b' ≠ bm → b' ≠ b → alloc_view v b !!! key b' = v !!! key b'.
Proof. intros H1 H2. unfold alloc_view. by rewrite !lookup_total_insert_ne by (intros [=]; congruence). Qed.

Lemma alloc_used v b b' : fs_inv v → b ∈ free_blocks v → 0 <= b' → used (alloc_view v b) b' ↔ used v b' ∨ b' = b.
Proof using FL.
  intros Hi [Hb Hu]%elem_of_free Hb'. assert (b ≠ bm) as Hne.
  { intros ->. apply Hu, (fi_meta _ Hi); [done|]. right. by left. }
  unfold used. rewrite alloc_view_bm by done.
  pose proof (bit_of_set (v !!! key bm) b b' ltac:(lia) Hb' ltac:(rewrite (fi_len _ Hi); by apply bit_byte)) as E.
  destruct (Z.eqb_spec (bit_of (set_bit (v !!! key bm) b) b') 0), (Z.eqb_spec (bit_of (v !!! key bm) b') 0), (Z.eqb_spec b' b);
    cbn in E; try done; tauto.
Qed.

Lemma free_not_meta v b : fs_inv v → b ∈ free_blocks v → ¬ meta b ∧ okb b ∧ b ≠ bm.
Proof.
  intros Hi [Hb Hu]%elem_of_free. assert (¬ meta b) as Hm by (intros Hm; by apply Hu, (fi_meta _ Hi)).
  split; [done|]. split; [|intros ->; apply Hm; right; by left]. destruct (decide (okb b)) as [?|Hn]; [done|]. exfalso. apply Hm. by left.
Qed.

Lemma alloc_inv v b : fs_inv v → b ∈ free_blocks v →
  fs_inv (alloc_view v b) ∧ free_blocks (alloc_view v b) = free_blocks v ∖ {[b]}.
Proof using FL.
  intros Hi Hb. destruct (free_not_meta v b Hi Hb) as (_ & _ & Hne). split; [split|].
  - rewrite alloc_view_bm by done. unfold set_bit. by rewrite length_insert, (fi_len _ Hi).
  - intros b' Hb' Hm. apply alloc_used; [done..|lia|]. left. by apply (fi_meta _ Hi).
  - apply set_eq. intros b'. rewrite elem_of_difference, elem_of_singleton, !elem_of_free. split.
    + intros [Hr Hu]. rewrite alloc_used in Hu by (done || lia). tauto.
    + intros [[Hr Hu] Hn]. split; [done|]. rewrite alloc_used by (done || lia). tauto.
Qed.

(** [balloc] takes a free block, zeroes it and marks it. *)
Lemma balloc_spec c g v h : sees c g v h → fs_inv v → free_blocks v ≠ ∅ → room g 2 → (size h ≤ 1)%nat →
  (∀ i b, h !! i = Some (key b) → used v b ∧ 0 <= b ∧ b ≠ bm) →
  ∃ b c', balloc sb c g (dev g0) = Ok (b, c', logs g [bm; b]) ∧ b ∈ free_blocks v ∧ sees c' (logs g [bm; b]) (alloc_view v b) h.
Proof using BL HL FL.
  intros Hs Hi Hf Hr Hsz Hh. apply set_choose_L in Hf as (b0 & Hb0). pose proof Hb0 as [Hr0 Hu0]%elem_of_free.
  pose proof FL as [Hsize Hbm _]. unfold balloc. destruct (Z.to_nat (sb_size sb)) as [|n] eqn:En; [lia|]. cbn [balloc_loop].
  rewrite (proj2 (Z.ltb_lt _ _)) by lia. rewrite BBLOCK_bm by lia.
  destruct (fs_modify c g v h bm Hs Hbm) as (i & c1 & E1 & Ed & Hst); [|by apply (room_le _ 2 1); [lia|]|lia|].
  { intros i Hih. by apply Hh in Hih as (_ & _ & ?). }
  rewrite E1, bind_Ok, Ed, bind_Ok. unfold used in Hu0. apply dec_stable in Hu0.
  destruct (find_free_spec (v !!! key bm) (Z.to_nat BPB) 0 b0) as (b & -> & Hb & Eb); [lia| |lia|done|].
  { unfold FSSIZE, BPB, BS, BSIZE in *. lia. }
  assert (b ∈ free_blocks v) as Hbf by (apply elem_of_free; split; [lia|]; unfold used; tauto).
  destruct (free_not_meta v b Hi Hbf) as (_ & Hokb & Hne).
  destruct (Hst (set_bit (v !!! key bm) b)) as (c2 & c3 & -> & E3 & Hs3). rewrite bind_Ok, E3, bind_Ok, Z.add_0_l. unfold bzero.
  destruct (fs_modify c3 _ _ h b Hs3 Hokb) as (j & c4 & E4 & _ & Hst4); [|by apply (room_logs g [bm] 1)|lia|].
  { intros j Hjh. apply Hh in Hjh as (Hub & _). by apply elem_of_free in Hbf as [_ ?]. }
  destruct (Hst4 (replicate BSIZE 0)) as (c5 & c6 & E5 & E6 & Hs6).
  rewrite E4, bind_Ok, E5, bind_Ok, E6, !bind_Ok. rewrite logs_app in *. by exists b, c6.
Qed.

(** * The block map of a file

    Slot [s] of an inode: its addresses 0 to 11, the address 12 of the indirect block, and from 13 on the
    addresses in the indirect block. *)

Definition saddr (v : disk_map) (ip : inode) (s : nat) : Z :=
  if decide (s < 13)%nat then addrs ip !!! s
  else if decide (addrs ip !!! 12%nat = 0) then 0 else get32 (v !!! key (addrs ip !!! 12%nat)) (s - 13).

(** The slot of block [j] of the file. *)
Definition slot (j : nat) : nat := if decide (j < 12)%nat then j else S j.
Definition NSLOT : nat := 141.

Record file_ok (v : disk_map) (ip : inode) : Prop := {
  fo_dev : i_dev ip = dev g0;
  fo_inum : 0 <= inum ip < sb_ninodes sb;
  fo_len : length (addrs ip) = 13%nat;
  fo_good : ∀ s, (s < NSLOT)%nat → saddr v ip s ≠ 0 →
    0 <= saddr v ip s < sb_size sb ∧ used v (saddr v ip s) ∧ ¬ meta (saddr v ip s) ∧ length (v !!! key (saddr v ip s)) = BSIZE;
  fo_inj : ∀ s s', (s < NSLOT)%nat → (s' < NSLOT)%nat → saddr v ip s ≠ 0 → saddr v ip s = saddr v ip s' → s = s' }.

(** The inodes [ip] and [ip'] differ in their addresses only. *)
Definition same_inode (ip ip' : inode) : Prop :=
  set_addrs [] ip' = set_addrs [] ip ∧ length (addrs ip') = length (addrs ip).

Lemma same_inode_inv ip ip' : same_inode ip ip' →
  i_dev ip' = i_dev ip ∧ inum ip' = inum ip ∧ itype ip' = itype ip ∧ isize ip' = isize ip ∧ length (addrs ip') = length (addrs ip).
Proof. by intros [[=] ?]. Qed.

(** Every block that has become used is one of the file. *)
Definition accounted (v v' : disk_map) (ip' : inode) : Prop :=
  ∀ b, 0 <= b → used v' b → used v b ∨ b ≠ 0 ∧ ∃ s, (s < NSLOT)%nat ∧ saddr v' ip' s = b.

Lemma accounted_trans v v1 ip1 v2 ip2 : (∀ s, (s < NSLOT)%nat → saddr v1 ip1 s ≠ 0 → saddr v2 ip2 s = saddr v1 ip1 s) →
  accounted v v1 ip1 → accounted v1 v2 ip2 → accounted v v2 ip2.
Proof.
  intros Hsl H1 H2 b Hb Hu. destruct (H2 b Hb Hu) as [Hu1|?]; [|by right]. destruct (H1 b Hb Hu1) as [?|(Hn & s & Hs & <-)]; [by left|right].
  split; [done|]. exists s. split; [done|by apply Hsl].
Qed.

(** The file has got new blocks; those it had, and all other blocks in use, are as before, the indirect block and
    the bitmap apart. *)
Record extends (v : disk_map) (ip : inode) (v' : disk_map) (ip' : inode) : Prop := {
  ex_inv : fs_inv v';
  ex_file : file_ok v' ip';
  ex_same : same_inode ip ip';
  ex_slots : ∀ s, (s < NSLOT)%nat → saddr v ip s ≠ 0 → saddr v' ip' s = saddr v ip s;
  ex_new : ∀ s, (s < NSLOT)%nat → saddr v ip s = 0 → saddr v' ip' s ≠ 0 → saddr v' ip' s ∈ free_blocks v;
  ex_used : ∀ b, 0 <= b → used v b → used v' b;
  ex_fresh : accounted v v' ip';
  ex_data : ∀ b, 0 <= b → used v b → b ≠ bm → b ≠ saddr v ip 12 → v' !!! key b = v !!! key b }.

(** The bitmap, or the block of a slot in [S]. *)
Definition touched (v : disk_map) (ip : inode) (S : nat → Prop) (b : Z) : Prop :=
  b = bm ∨ ∃ s, S s ∧ (s < NSLOT)%nat ∧ saddr v ip s = b ∧ b ≠ 0.

Lemma touched_mono v ip v' ip' (S S' : nat → Prop) b : (∀ s, S s → S' s) →
  (∀ s, (s < NSLOT)%nat → saddr v ip s ≠ 0 → saddr v' ip' s = saddr v ip s) → touched v ip S b → touched v' ip' S' b.
Proof. intros HS Hsl [->|(s & Hs & Hlt & <- & Hn)]; [by left|right]. exists s. split_and!; [auto|done|by apply Hsl|done]. Qed.

Lemma extends_refl v ip : fs_inv v → file_ok v ip → extends v ip v ip.
Proof. intros Hi Hf. split; try done. intros b Hb Hu. by left. Qed.

Lemma extends_trans v ip v1 ip1 v2 ip2 : extends v ip v1 ip1 → extends v1 ip1 v2 ip2 → extends v ip v2 ip2.
Proof.
  intros H1 H2. split; [apply H2..| | | | |eapply accounted_trans; [apply H2|apply H1|apply H2]|].
  - destruct (ex_same _ _ _ _ H1) as [? ?], (ex_same _ _ _ _ H2) as [? ?]. split; congruence.
  - intros s Hs Hn. rewrite (ex_slots _ _ _ _ H2); [by apply (ex_slots _ _ _ _ H1)|done|]. by rewrite (ex_slots _ _ _ _ H1).
  - intros s Hs E0 Hn. destruct (decide (saddr v1 ip1 s = 0)) as [E1|Hn1].
    + pose proof (ex_new _ _ _ _ H2 s Hs E1 Hn) as [Hr Hu]%elem_of_free. apply elem_of_free. split; [done|]. intros Hu'.
      apply Hu, (ex_used _ _ _ _ H1); [lia|done].
    + rewrite (ex_slots _ _ _ _ H2) in * by done. by apply (ex_new _ _ _ _ H1).
  - intros b Hb Hu. apply (ex_used _ _ _ _ H2), (ex_used _ _ _ _ H1); done.
  - intros b Hb Hu Hbm Hind. rewrite (ex_data _ _ _ _ H2); [by apply (ex_data _ _ _ _ H1)|done|by apply (ex_used _ _ _ _ H1)|done|].
    intros E. assert (12 < NSLOT)%nat as H12 by (unfold NSLOT; lia). destruct (decide (saddr v ip 12 = 0)) as [E0|Hn0].
    + destruct (decide (saddr v1 ip1 12 = 0)) as [E1|Hn1].
      * congruence.
      * pose proof (ex_new _ _ _ _ H1 12 H12 E0 Hn1) as [_ Hf]%elem_of_free. rewrite <- E in Hf. done.
    + rewrite (ex_slots _ _ _ _ H1) in E by done. done.
Qed.

(** One new block [b], in slot [s]. *)
Lemma extends_alloc v ip v' ip' s b : fs_inv v → file_ok v ip → fs_inv v' → same_inode ip ip' → b ∈ free_blocks v →
  (s < NSLOT)%nat → saddr v ip s = 0 →
  (∀ s', (s' < NSLOT)%nat → saddr v' ip' s' = if decide (s' = s) then b else saddr v ip s') →
  (∀ x, 0 <= x → used v' x ↔ used v x ∨ x = b) →
  (∀ x, 0 <= x → used v x → x ≠ bm → length (v' !!! key x) = length (v !!! key x)) → length (v' !!! key b) = BSIZE →
  (∀ x, 0 <= x → used v x → x ≠ bm → x ≠ saddr v ip 12 → v' !!! key x = v !!! key x) →
  extends v ip v' ip'.
Proof.
  intros Hi Hf Hi' Hsame Hb Hs Es Hslots Hused Hlen Hlenb Hdata.
  destruct (free_not_meta v b Hi Hb) as (Hm & _ & _). pose proof Hb as [Hbr Hbu]%elem_of_free.
  assert (b ≠ 0) as Hb0 by (intros ->; apply Hm; right; right; left; lia).
  assert (∀ s', (s' < NSLOT)%nat → saddr v ip s' ≠ b) as Hfresh.
  { intros s' Hs' E. destruct (fo_good _ _ Hf s' Hs') as (_ & Hu & _); [congruence|]. by rewrite E in Hu. }
  split; [done| |done| | | | |done].
  - destruct (same_inode_inv _ _ Hsame) as (Ed & En & _ & _ & El). split; [by rewrite Ed, (fo_dev _ _ Hf)|rewrite En; apply (fo_inum _ _ Hf)|by rewrite El, (fo_len _ _ Hf)| |].
    + intros s' Hs' Hn. rewrite (Hslots s' Hs') in Hn |- *. case_decide as E.
      * split_and!; [lia|lia|apply Hused; [lia|by right]|done|done].
      * destruct (fo_good _ _ Hf s' Hs' Hn) as (Hr & Hu & Hmm & Hl). split_and!; [lia|lia|apply Hused; [lia|by left]|done|].
        rewrite Hlen; [done|lia|done|]. intros Eb. apply Hmm. right. left. exact Eb.
    + intros s1 s2 H1 H2 Hn E. rewrite (Hslots s1 H1), (Hslots s2 H2) in E. rewrite (Hslots s1 H1) in Hn.
      destruct (decide (s1 = s)) as [->|N1], (decide (s2 = s)) as [->|N2]; [done| | |].
      * symmetry in E. by apply Hfresh in E.
      * by apply Hfresh in E.
      * by apply (fo_inj _ _ Hf).
  - intros s' Hs' Hn. rewrite Hslots by done. case_decide as E; [|done]. subst. done.
  - intros s' Hs' E0 Hn. rewrite (Hslots s' Hs') in Hn |- *. by case_decide.
  - intros x Hx Hu. apply Hused; [done|by left].
  - intros x Hx [Hu| ->]%Hused; [by left|right|done]. split; [done|]. exists s. split; [done|]. rewrite Hslots by done. by rewrite decide_True.
Qed.

Lemma get32_zero k : (k < 128)%nat → get32 (replicate BSIZE 0) k = 0.
Proof.
  intros Hk. unfold get32, BSIZE. rewrite drop_replicate, take_replicate.
  replace (4 `min` (512 - 4 * k))%nat with 4%nat by lia. done.
Qed.

(** A new block in the inode itself. *)
Lemma alloc_in_inode v ip s b : fs_inv v → file_ok v ip → b ∈ free_blocks v → (s < 13)%nat → addrs ip !!! s = 0 →
  extends v ip (alloc_view v b) (set_addr (Z.of_nat s) b ip).
Proof using FL.
  intros Hi Hf Hb Hs Es. destruct (free_not_meta v b Hi Hb) as (Hm & _ & Hbm). pose proof Hb as [Hbr Hbu]%elem_of_free.
  pose proof (fo_len _ _ Hf) as Hlen.
  assert (b ≠ 0) as Hb0 by (intros ->; apply Hm; right; right; left; lia).
  destruct (alloc_inv v b Hi Hb) as [Hi' _].
  apply (extends_alloc _ _ _ _ s b); try done.
  - unfold same_inode, set_addr, set_addrs. cbn. by rewrite length_insert.
  - unfold NSLOT. lia.
  - unfold saddr. by rewrite decide_True.
  - intros s' Hs'. unfold saddr, set_addr, set_addrs, NSLOT in *. cbn [addrs]. rewrite Nat2Z.id. case_decide as H13.
    + case_decide as E; [subst s'; by rewrite list_lookup_total_insert_eq by lia|by rewrite list_lookup_total_insert_ne by done].
    + rewrite (decide_False (P := s' = s)) by lia. destruct (decide (s = 12%nat)) as [->|Hs12].
      * rewrite list_lookup_total_insert_eq by lia. rewrite (decide_False (P := b = 0)), Es, decide_True by done. unfold alloc_view.
        rewrite lookup_total_insert_eq. apply get32_zero. lia.
      * rewrite list_lookup_total_insert_ne by done. case_decide as E12; [done|]. rewrite alloc_view_other; [done| |].
        -- intros E. destruct (fo_good _ _ Hf 12) as (_ & _ & Hmm & _); [unfold NSLOT; lia|done|]. apply Hmm. right. left. exact E.
        -- intros E. destruct (fo_good _ _ Hf 12) as (_ & Hu & _); [unfold NSLOT; lia|done|]. apply Hbu. rewrite <- E. exact Hu.
  - intros x Hx. by apply alloc_used.
  - intros x Hx Hu Hxm. rewrite alloc_view_other; [done..|]. by intros ->.
  - unfold alloc_view. rewrite lookup_total_insert_eq. apply length_replicate.
  - intros x Hx Hu Hxm _. apply alloc_view_other; [done|by intros ->].
Qed.

(** A new block in the indirect block [a]. *)
Lemma alloc_in_indirect v ip k b : fs_inv v → file_ok v ip → b ∈ free_blocks v → (k < 128)%nat →
  let a := addrs ip !!! 12%nat in a ≠ 0 → get32 (v !!! key a) k = 0 →
  let v' := <[key a := put32 (v !!! key a) k b]> (alloc_view v b) in
  extends v ip v' ip ∧ free_blocks v' = free_blocks v ∖ {[b]}.
Proof using FL.
  intros Hi Hf Hb Hk a Ha Ek v'. destruct (free_not_meta v b Hi Hb) as (Hm & _ & Hbm). pose proof Hb as [Hbr Hbu]%elem_of_free.
  destruct (fo_good _ _ Hf 12) as (Har & Hau & Ham & Hal); [unfold NSLOT; lia|done|].
  change (saddr v ip 12) with a in *.
  assert (a ≠ bm ∧ a ≠ b) as [Habm Hab] by (split; [intros E; apply Ham; right; by left|intros E; by rewrite E in Hau]).
  destruct (alloc_inv v b Hi Hb) as [Hi' Hfree].
  assert (v' !!! key bm = alloc_view v b !!! key bm) as Ebm by (apply lookup_total_insert_ne; intros [=]; congruence).
  assert (fs_inv v') as Hi2.
  { split; [rewrite Ebm; apply (fi_len _ Hi')|]. intros x Hx Hxm. unfold used. rewrite Ebm. by apply (fi_meta _ Hi'). }
  assert (is_u32 b) as Hb32 by (destruct FL; unfold is_u32, FSSIZE in *; lia).
  assert (4 * k + 4 ≤ length (v !!! key a))%nat as Hkl by (rewrite Hal; unfold BSIZE; lia).
  split; [|rewrite <- Hfree; by apply free_blocks_ext].
  apply (extends_alloc _ _ _ _ (13 + k) b); try done.
  - unfold NSLOT. lia.
  - unfold saddr. rewrite decide_False, decide_False by (done || lia). by replace (13 + k - 13)%nat with k by lia.
  - intros s' Hs'. unfold saddr. case_decide as H13; [by rewrite (decide_False (P := s' = _)) by lia|]. fold a.
    rewrite !(decide_False (P := a = 0)) by done. unfold v' at 1. rewrite lookup_total_insert_eq. case_decide as E.
    + subst s'. replace (13 + k - 13)%nat with k by lia. by apply get_put32_eq.
    + rewrite get_put32_ne by (done || lia). done.
  - intros x Hx. unfold used at 1. rewrite Ebm. by apply alloc_used.
  - intros x Hx Hu Hxm. unfold v'. destruct (decide (x = a)) as [->|Hxa].
    + by rewrite lookup_total_insert_eq, length_put32.
    + rewrite lookup_total_insert_ne by (intros [=]; congruence). rewrite alloc_view_other; [done..|by intros ->].
  - unfold v'. rewrite lookup_total_insert_ne by (intros [=]; congruence). unfold alloc_view. rewrite lookup_total_insert_eq. apply length_replicate.
  - intros x Hx Hu Hxm Hxa. unfold v'. rewrite lookup_total_insert_ne by (intros [= E]; by apply Hxa). apply alloc_view_other; [done|by intros ->].
Qed.

Lemma slot_lt j : (j < 140)%nat → (slot j < NSLOT)%nat.
Proof. unfold slot, NSLOT. case_decide; lia. Qed.

Lemma good_block v ip s : file_ok v ip → (s < NSLOT)%nat → saddr v ip s ≠ 0 → okb (saddr v ip s) ∧ saddr v ip s ≠ bm.
Proof.
  intros Hf Hs Hn. destruct (fo_good _ _ Hf s Hs Hn) as (_ & _ & Hm & _). split.
  - destruct (decide (okb (saddr v ip s))) as [?|Hno]; [done|]. exfalso. apply Hm. by left.
  - intros E. apply Hm. right. by left.
Qed.

(** The block is there: [bmap] changes nothing. *)
Lemma bmap_hit c g v ip j : sees c g v ∅ → file_ok v ip → (j < 140)%nat → saddr v ip (slot j) ≠ 0 → room g 0 →
  ∃ c', bmap sb c g ip (Z.of_nat j) = Ok (saddr v ip (slot j), ip, c', g) ∧ sees c' g v ∅.
Proof using BL HL.
  intros Hs Hf Hj Hn Hr. unfold bmap, NDIRECT. destruct (Z.ltb_spec (Z.of_nat j) 12) as [Hd|Hd].
  - assert (saddr v ip (slot j) = addr_at ip (Z.of_nat j)) as E.
    { unfold saddr, slot, addr_at. rewrite (decide_True (P := (j < 12)%nat)), decide_True by lia. by rewrite Nat2Z.id. }
    rewrite E in *. rewrite (proj2 (Z.eqb_neq _ _)) by done. by exists c.
  - assert (slot j = (13 + (j - 12))%nat) as Es by (unfold slot; rewrite decide_False by lia; lia). rewrite Es in *.
    rewrite (proj2 (Z.ltb_lt _ _)) by (unfold NINDIRECT; lia). change (addr_at ip 12) with (addrs ip !!! 12%nat).
    assert (addrs ip !!! 12%nat ≠ 0) as H12.
    { intros E. apply Hn. unfold saddr. rewrite decide_False by lia. by rewrite decide_True. }
    assert (saddr v ip (13 + (j - 12)) = get32 (v !!! key (addrs ip !!! 12%nat)) (j - 12)) as E.
    { unfold saddr. rewrite decide_False, decide_False by (done || lia). f_equal. lia. }
    rewrite (proj2 (Z.eqb_neq _ _)), bind_Ok by done. rewrite (fo_dev _ _ Hf).
    destruct (good_block v ip 12 Hf) as [Hok _]; [unfold NSLOT; lia|done|]. change (saddr v ip 12) with (addrs ip !!! 12%nat) in Hok.
    destruct (fs_read c g v ∅ _ Hs Hok) as (i & c1 & c2 & -> & Ed & E2 & Hs2); [intros i; by rewrite lookup_empty|done|rewrite map_size_empty; lia|].
    rewrite bind_Ok, Ed, bind_Ok. replace (Z.to_nat (Z.of_nat j - 12)) with (j - 12)%nat by lia. rewrite <- E.
    rewrite (proj2 (Z.eqb_neq _ _)) by done. rewrite E2, bind_Ok. by exists c2.
Qed.

Lemma room_more g k : room g k → room g 0.
Proof. apply room_le. lia. Qed.

Lemma free_after_alloc v b : fs_inv v → b ∈ free_blocks v → size (free_blocks v) = S (size (free_blocks (alloc_view v b))).
Proof using BL HL FL.
  intros Hi Hb. rewrite (proj2 (alloc_inv v b Hi Hb)), size_difference by set_solver. rewrite size_singleton.
  assert (size (free_blocks v) ≠ 0%nat) by (apply size_non_empty_iff; set_solver). lia.
Qed.

Lemma free_nonzero v b : fs_inv v → b ∈ free_blocks v → b ≠ 0.
Proof. intros Hi Hb ->. destruct (free_not_meta v 0 Hi Hb) as (Hm & _). apply Hm. right. right. left. lia. Qed.

(** The address of the indirect block, allocated if it is missing. *)
Lemma indirect_spec c g v ip : sees c g v ∅ → fs_inv v → file_ok v ip → room g 2 → (1 ≤ size (free_blocks v))%nat →
  ∃ ip' c' v' bl,
    (if addr_at ip NDIRECT =? 0 then '(addr, c, g) ← balloc sb c g (i_dev ip); Ok (addr, set_addr NDIRECT addr ip, c, g)
     else Ok (addr_at ip NDIRECT, ip, c, g)) = Ok (addrs ip' !!! 12%nat, ip', c', logs g bl) ∧
    sees c' (logs g bl) v' ∅ ∧ extends v ip v' ip' ∧ addrs ip' !!! 12%nat ≠ 0 ∧ (length bl ≤ 2)%nat ∧
    (size (free_blocks v) ≤ size (free_blocks v') + 1)%nat ∧ ∀ b, b ∈ bl → touched v' ip' (λ s, s = 12%nat) b.
Proof using BL HL FL.
  intros Hs Hi Hf Hr Hfree. change (addr_at ip NDIRECT) with (addrs ip !!! 12%nat).
  destruct (Z.eqb_spec (addrs ip !!! 12%nat) 0) as [E0|Hn].
  - destruct (balloc_spec c g v ∅ Hs Hi) as (b & c' & E & Hb & Hs'); [|done|rewrite map_size_empty; lia|intros i b; by rewrite lookup_empty|].
    { intros E. rewrite E, size_empty in Hfree. lia. }
    rewrite (fo_dev _ _ Hf), E, bind_Ok. pose proof (alloc_in_inode v ip 12 b Hi Hf Hb ltac:(lia) E0) as He.
    exists (set_addr (Z.of_nat 12) b ip), c', (alloc_view v b), [bm; b].
    assert (addrs (set_addr (Z.of_nat 12) b ip) !!! 12%nat = b) as Eb.
    { unfold set_addr, set_addrs. cbn [addrs]. apply list_lookup_total_insert_eq. rewrite (fo_len _ _ Hf). cbn. lia. }
    pose proof (free_nonzero v b Hi Hb) as Hb0. rewrite Eb. split_and!; [done..|cbn; lia| |].
    + rewrite (free_after_alloc v b Hi Hb). lia.
    + intros x Hx. apply elem_of_cons in Hx as [->|Hx]; [by left|]. apply list_elem_of_singleton in Hx as ->. right.
      exists 12%nat. split_and!; [done|unfold NSLOT; lia|exact Eb|done].
  - exists ip, c, v, []. rewrite logs_nil. split_and!; [done|done|by apply extends_refl|done|cbn; lia|lia|by intros b ?%not_elem_of_nil].
Qed.

(** The entry [k] of the indirect block, allocated if it is missing. *)
Lemma entry_spec c g v ip k : sees c g v ∅ → fs_inv v → file_ok v ip → addrs ip !!! 12%nat ≠ 0 → (k < 128)%nat → room g 3 →
  (1 ≤ size (free_blocks v))%nat →
  ∃ c' v' bl,
    ('(bp, c) ← c_bread c (i_dev ip, addrs ip !!! 12%nat);
     a ← c_data c bp;
     let addr := get32 a k in
     if addr =? 0 then
       '(addr, c, g) ← balloc sb c g (i_dev ip);
       '(c, g) ← store_log c g bp (put32 a k addr);
       c ← c_brelse c bp;
       Ok (addr, ip, c, g)
     else
       c ← c_brelse c bp;
       Ok (addr, ip, c, g)) = Ok (saddr v' ip (13 + k), ip, c', logs g bl) ∧
    sees c' (logs g bl) v' ∅ ∧ extends v ip v' ip ∧ saddr v' ip (13 + k) ≠ 0 ∧ (length bl ≤ 3)%nat ∧
    (size (free_blocks v) ≤ size (free_blocks v') + 1)%nat ∧ ∀ b, b ∈ bl → touched v' ip (λ s, s = 12%nat ∨ s = (13 + k)%nat) b.
Proof using BL HL FL.
  intros Hs Hi Hf Ha Hk Hr Hfree. rewrite (fo_dev _ _ Hf). set (a := addrs ip !!! 12%nat) in *.
  assert (∀ w, saddr w ip (13 + k) = get32 (w !!! key a) k) as Esa.
  { intros w. unfold saddr. rewrite decide_False, decide_False by (done || lia). f_equal. lia. }
  destruct (good_block v ip 12 Hf) as [Hoka Habm]; [unfold NSLOT; lia|done|]. change (saddr v ip 12) with a in Hoka, Habm.
  destruct (fo_good _ _ Hf 12) as (Har & Hau & _ & Hal); [unfold NSLOT; lia|done|]. change (saddr v ip 12) with a in Har, Hau, Hal.
  destruct (fs_bread c g v ∅ a Hs Hoka) as (i & c2 & E2 & _ & Hs2); [intros i; by rewrite lookup_empty|by eapply room_more|rewrite map_size_empty; lia|].
  rewrite insert_empty in Hs2. assert (({[i := key a]} : gmap nat bkey) !! i = Some (key a)) as Hia by apply lookup_singleton_eq.
  rewrite E2, bind_Ok, (fs_data _ _ _ _ i a Hs2 Hia), bind_Ok. cbn zeta.
  destruct (Z.eqb_spec (get32 (v !!! key a) k) 0) as [Ek|Hn].
  - destruct (balloc_spec c2 g v _ Hs2 Hi) as (b & c3 & E3 & Hb & Hs3);
      [intros E; rewrite E, size_empty in Hfree; lia|by apply (room_le _ 3 2); [lia|]|rewrite map_size_singleton; lia| |].
    { intros i' b' [_ E']%lookup_singleton_Some. injection E' as <-. split_and!; [done|lia|done]. }
    destruct (fs_store c3 _ _ _ i a (put32 (v !!! key a) k b) Hs3 Hia Hoka) as (c4 & E4 & Hs4); [by apply (room_logs g [bm; b] 1)|].
    change (set_lh _ _) with (logs (logs g [bm; b]) [a]) in E4, Hs4. rewrite logs_app in E4, Hs4.
    destruct (fs_brelse c4 _ _ _ i a Hs4 Hia) as (c5 & E5 & Hs5). rewrite delete_singleton_eq in Hs5.
    rewrite E3, bind_Ok, E4, bind_Ok, E5, bind_Ok.
    destruct (alloc_in_indirect v ip k b Hi Hf Hb Hk Ha Ek) as [He2 Ef2]. fold a in He2, Ef2.
    pose proof (free_nonzero v b Hi Hb) as Hb0. set (v2 := <[key a := put32 (v !!! key a) k b]> (alloc_view v b)) in *.
    assert (saddr v2 ip (13 + k) = b) as Eb.
    { rewrite Esa. unfold v2. rewrite lookup_total_insert_eq. apply get_put32_eq; [rewrite Hal; unfold BSIZE; lia|].
      apply elem_of_free in Hb. destruct FL. unfold is_u32, FSSIZE in *. lia. }
    exists c5, v2, ([bm; b] ++ [a]). rewrite Eb. split_and!; [done|exact Hs5|exact He2|done|cbn; lia| |].
    + rewrite Ef2, <- (proj2 (alloc_inv v b Hi Hb)), (free_after_alloc v b Hi Hb). lia.
    + intros x Hx. cbn [app] in Hx. apply elem_of_cons in Hx as [->|Hx]; [by left|]. apply elem_of_cons in Hx as [->|Hx%list_elem_of_singleton]; right.
      * exists (13 + k)%nat. split_and!; [by right|unfold NSLOT; lia|done|done].
      * subst x. exists 12%nat. split_and!; [by left|unfold NSLOT; lia|done|done].
  - destruct (fs_brelse c2 _ _ _ i a Hs2 Hia) as (c5 & E5 & Hs5). rewrite delete_singleton_eq in Hs5.
    rewrite E5, bind_Ok. exists c5, v, []. rewrite logs_nil, Esa. split_and!; [done|done|by apply extends_refl|done|cbn; lia|lia|by intros b ?%not_elem_of_nil].
Qed.

(** [bmap] gives the address of block [j], which it allocates, with the indirect block, if it is missing. *)
Lemma bmap_spec c g v ip j : sees c g v ∅ → fs_inv v → file_ok v ip → (j < 140)%nat → room g 5 → (2 ≤ size (free_blocks v))%nat ∨ saddr v ip (slot j) ≠ 0 →
  ∃ ip' c' v' bl, bmap sb c g ip (Z.of_nat j) = Ok (saddr v' ip' (slot j), ip', c', logs g bl) ∧
    sees c' (logs g bl) v' ∅ ∧ extends v ip v' ip' ∧ saddr v' ip' (slot j) ≠ 0 ∧ (length bl ≤ 5)%nat ∧
    (size (free_blocks v) ≤ size (free_blocks v') + 2)%nat ∧ (saddr v ip (slot j) ≠ 0 → ip' = ip ∧ free_blocks v' = free_blocks v) ∧
    ∀ b, b ∈ bl → touched v' ip' (λ s, s = 12%nat ∨ s = slot j) b.
Proof using BL HL FL.
  intros Hs Hi Hf Hj Hr Hfree. destruct (decide (saddr v ip (slot j) = 0)) as [E0|Hn].
  2:{ destruct (bmap_hit c g v ip j Hs Hf Hj Hn (room_more _ _ Hr)) as (c' & E & Hs'). exists ip, c', v, []. rewrite logs_nil.
      split_and!; [done|done|by apply extends_refl|done|cbn; lia|lia|done|by intros b ?%not_elem_of_nil]. }
  destruct Hfree as [Hfree|?]; [|done]. unfold bmap. cbv zeta. change (Z.of_nat j <? NDIRECT) with (Z.of_nat j <? 12). change (Z.of_nat j - NDIRECT) with (Z.of_nat j - 12). destruct (Z.ltb_spec (Z.of_nat j) 12) as [Hd|Hd].
  - assert (slot j = j) as Ej by (unfold slot; by rewrite decide_True by lia). rewrite Ej in *.
    assert (addrs ip !!! j = 0) as Ea by (unfold saddr in E0; rewrite decide_True in E0 by lia; done).
    unfold addr_at. rewrite Nat2Z.id, Ea. cbn [Z.eqb].
    destruct (balloc_spec c g v ∅ Hs Hi) as (b & c' & E & Hb & Hs'); [|by apply (room_le _ 5 2); [lia|]|rewrite map_size_empty; lia|intros i b; by rewrite lookup_empty|].
    { intros E. rewrite E, size_empty in Hfree. lia. }
    rewrite (fo_dev _ _ Hf), E, bind_Ok. pose proof (alloc_in_inode v ip j b Hi Hf Hb ltac:(lia) Ea) as He.
    exists (set_addr (Z.of_nat j) b ip), c', (alloc_view v b), [bm; b].
    assert (saddr (alloc_view v b) (set_addr (Z.of_nat j) b ip) j = b) as Eb.
    { unfold saddr, set_addr, set_addrs. cbn [addrs]. rewrite decide_True, Nat2Z.id by lia. apply list_lookup_total_insert_eq. rewrite (fo_len _ _ Hf). lia. }
    pose proof (free_nonzero v b Hi Hb) as Hb0. rewrite Eb. split_and!; [done..|cbn; lia| |by intros []|].
    + rewrite (free_after_alloc v b Hi Hb). lia.
    + intros x Hx. apply elem_of_cons in Hx as [->|Hx]; [by left|]. apply list_elem_of_singleton in Hx as ->. right.
      exists j. split_and!; [by right|unfold NSLOT; lia|exact Eb|done].
  - rewrite (proj2 (Z.ltb_lt _ _)) by (unfold NINDIRECT; lia).
    destruct (indirect_spec c g v ip Hs Hi Hf) as (ip1 & c1 & v1 & bl1 & -> & Hs1 & He1 & Ha & Hl1 & Hf1 & Ht1); [by apply (room_le _ 5 2); [lia|]|lia|].
    rewrite bind_Ok. assert (room (logs g bl1) 3) as Hr1 by (apply room_logs; eapply room_le; [|done]; lia).
    replace (Z.to_nat (Z.of_nat j - 12)) with (j - 12)%nat by lia.
    destruct (entry_spec c1 (logs g bl1) v1 ip1 (j - 12)) as (c2 & v2 & bl2 & E2 & Hs2 & He2 & Hn2 & Hl2 & Hf2 & Ht2);
      [done|apply He1|apply He1|done|lia|done|lia|].
    assert (slot j = (13 + (j - 12))%nat) as Es by (unfold slot; rewrite decide_False by lia; lia). rewrite logs_app in *.
    exists ip1, c2, v2, (bl1 ++ bl2). rewrite Es. split_and!; [exact E2|done|by eapply extends_trans|done|rewrite length_app; lia|lia|rewrite Es in E0; by intros []|].
    intros b [Hb|Hb]%elem_of_app; [|by apply Ht2]. eapply (touched_mono v1 ip1); [|apply (ex_slots _ _ _ _ He2)|by apply Ht1]. by left.
Qed.

(** * The bytes of a file *)

Definition faddr (v : disk_map) (ip : inode) (x : nat) : Z := saddr v ip (slot (x / BSIZE)).
Definition fbyte (v : disk_map) (ip : inode) (x : nat) : Z := (v !!! key (faddr v ip x)) !!! (x mod BSIZE)%nat.
Definition MAXBYTES : nat := 140 * BSIZE.

Lemma block_lt x : (x < MAXBYTES)%nat → (x / BSIZE < 140)%nat.
Proof. intros Hx. apply Nat.Div0.div_lt_upper_bound. unfold MAXBYTES in Hx. lia. Qed.

Lemma slot_inj j j' : slot j = slot j' → j = j'.
Proof. unfold slot. do 2 case_decide; lia. Qed.

Lemma slot_not_12 j : slot j ≠ 12%nat.
Proof. unfold slot. case_decide; lia. Qed.

(** Offsets inside one block. *)
Lemma same_block_offset o k : (o mod BSIZE + k < BSIZE)%nat → ((o + k) / BSIZE = o / BSIZE)%nat ∧ ((o + k) mod BSIZE = o mod BSIZE + k)%nat.
Proof.
  intros Hk. pose proof (Nat.div_mod o BSIZE ltac:(done)) as E. split.
  - symmetry. apply (Nat.div_unique _ _ _ (o mod BSIZE + k)%nat); lia.
  - symmetry. apply (Nat.mod_unique _ _ (o / BSIZE)%nat); lia.
Qed.

Lemma chunk_bytes v ip o m : (o mod BSIZE + m ≤ BSIZE)%nat → length (v !!! key (faddr v ip o)) = BSIZE →
  take m (drop (o mod BSIZE) (v !!! key (faddr v ip o))) = fbyte v ip <$> seq o m.
Proof.
  intros Hm Hl. apply list_eq. intros k. destruct (decide (k < m)%nat) as [Hk|Hk].
  - rewrite lookup_take_lt, lookup_drop, list_lookup_fmap, lookup_seq_lt by done. cbn [fmap option_fmap option_map].
    unfold fbyte. destruct (same_block_offset o k ltac:(lia)) as [Ed Em]. unfold faddr. rewrite Ed, Em. fold (faddr v ip o).
    destruct (lookup_lt_is_Some_2 (v !!! key (faddr v ip o)) (o mod BSIZE + k)) as [y Hy]; [lia|].
    rewrite Hy, (list_lookup_total_correct _ _ y Hy). done.
  - rewrite lookup_take_ge by lia. symmetry. apply lookup_ge_None_2. rewrite length_fmap, length_seq. lia.
Qed.

Lemma readi_loop_spec r : ∀ fuel c g v ip o tot n, sees c g v ∅ → file_ok v ip → room g 0 → (r ≤ fuel)%nat →
  n - tot = Z.of_nat r → (o + r ≤ MAXBYTES)%nat → (∀ x, (o ≤ x < o + r)%nat → faddr v ip x ≠ 0) →
  ∃ c', readi_loop sb c g ip (Z.of_nat o) tot n fuel = Ok (fbyte v ip <$> seq o r, ip, c', g) ∧ sees c' g v ∅.
Proof using BL HL FL.
  induction r as [r IH] using lt_wf_ind. intros fuel c g v ip o tot n Hs Hf Hr Hfuel Hn Ho Ha. destruct r as [|r0].
  { exists c. destruct fuel; cbn [readi_loop]; rewrite (proj2 (Z.ltb_ge _ _)) by lia; done. }
  destruct fuel as [|fuel]; [lia|]. cbn [readi_loop]. rewrite (proj2 (Z.ltb_lt _ _)) by lia.
  set (m := Nat.min (S r0) (BSIZE - o mod BSIZE)). pose proof (Nat.mod_upper_bound o BSIZE ltac:(done)) as Hmod.
  assert (1 ≤ m ≤ S r0 ∧ o mod BSIZE + m ≤ BSIZE)%nat as [Hm1 Hm2] by (unfold m; lia).
  assert (Z.of_nat o / BS = Z.of_nat (o / BSIZE)) as Ediv by (unfold BS; by rewrite Nat2Z.inj_div).
  assert (Z.of_nat o mod BS = Z.of_nat (o mod BSIZE)) as Emod by (unfold BS; by rewrite Nat2Z.inj_mod).
  assert (Z.min (n - tot) (BS - Z.of_nat (o mod BSIZE)) = Z.of_nat m) as Em by (unfold m, BS; lia).
  rewrite Ediv, Emod, Em, !Nat2Z.id. assert (faddr v ip o ≠ 0) as Hao by (apply Ha; lia).
  assert (o / BSIZE < 140)%nat as Hj by (apply block_lt; lia).
  destruct (bmap_hit c g v ip (o / BSIZE) Hs Hf Hj Hao Hr) as (c1 & E1 & Hs1). rewrite E1, bind_Ok. fold (faddr v ip o) in *.
  destruct (good_block v ip (slot (o / BSIZE)) Hf (slot_lt _ Hj) Hao) as [Hok _].
  destruct (fs_read c1 g v ∅ _ Hs1 Hok) as (i & c2 & c3 & E2 & Ed & E3 & Hs3); [intros i; by rewrite lookup_empty|done|rewrite map_size_empty; lia|].
  rewrite (fo_dev _ _ Hf). fold (faddr v ip o) in E2, Ed. rewrite E2, bind_Ok, Ed, bind_Ok, E3, bind_Ok.
  destruct (IH (S r0 - m)%nat ltac:(lia) fuel c3 g v ip (o + m)%nat (tot + Z.of_nat m) n) as (c4 & E4 & Hs4); [done|done|done|lia|lia|lia| |].
  { intros x Hx. apply Ha. lia. }
  rewrite Nat2Z.inj_add in E4. rewrite E4, bind_Ok. exists c4. split; [|done].
  rewrite chunk_bytes by (first [lia|apply (fo_good _ _ Hf _ (slot_lt _ Hj) Hao)]). rewrite <- fmap_app, <- seq_app.
  by replace (m + (S r0 - m))%nat with (S r0) by lia.
Qed.

(** ** Writing *)

(** The bytes [x] have been written at offset [o]; the rest of the file and all other blocks in use are as before. *)
Record written (v : disk_map) (ip : inode) (v' : disk_map) (ip' : inode) (o : nat) (x : list Z) : Prop := {
  wr_inv : fs_inv v';
  wr_file : file_ok v' ip';
  wr_same : same_inode ip ip';
  wr_slots : ∀ s, (s < NSLOT)%nat → saddr v ip s ≠ 0 → saddr v' ip' s = saddr v ip s;
  wr_in : ∀ k, (o ≤ k < o + length x)%nat → faddr v' ip' k ≠ 0 ∧ fbyte v' ip' k = x !!! (k - o)%nat;
  wr_out : ∀ k, (k < MAXBYTES)%nat → ¬ (o ≤ k < o + length x)%nat → faddr v ip k ≠ 0 →
    faddr v' ip' k ≠ 0 ∧ fbyte v' ip' k = fbyte v ip k;
  wr_frame : ∀ b, 0 <= b → used v b → b ≠ bm → (∀ s, (s < NSLOT)%nat → saddr v ip s ≠ b) →
    v' !!! key b = v !!! key b ∧ used v' b ∧ ∀ s, (s < NSLOT)%nat → saddr v' ip' s ≠ b;
  wr_fresh : accounted v v' ip' }.

Lemma written_nil v ip o : fs_inv v → file_ok v ip → written v ip v ip o [].
Proof. intros Hi Hf. split; [done|done|by split_and!|done|cbn; lia|auto..|]. intros b Hb Hu. by left. Qed.

Lemma written_app v ip v1 ip1 v2 ip2 o x y : (o + length x + length y ≤ MAXBYTES)%nat →
  written v ip v1 ip1 o x → written v1 ip1 v2 ip2 (o + length x) y → written v ip v2 ip2 o (x ++ y).
Proof.
  intros Hmax H1 H2. split; [apply H2..| | | | | |eapply accounted_trans; [apply H2|apply H1|apply H2]].
  - destruct (wr_same _ _ _ _ _ _ H1) as [? ?], (wr_same _ _ _ _ _ _ H2) as [? ?]. split; congruence.
  - intros s Hs Hn. rewrite (wr_slots _ _ _ _ _ _ H2); [by apply (wr_slots _ _ _ _ _ _ H1)|done|]. by rewrite (wr_slots _ _ _ _ _ _ H1).
  - intros k Hk. rewrite length_app in Hk. destruct (decide (k < o + length x)%nat) as [Hx|Hx].
    + destruct (wr_in _ _ _ _ _ _ H1 k) as [Ha1 Eb1]; [lia|]. destruct (wr_out _ _ _ _ _ _ H2 k) as [Ha2 Eb2]; [lia|lia|done|].
      split; [done|]. rewrite Eb2, Eb1. by rewrite lookup_total_app_l by lia.
    + destruct (wr_in _ _ _ _ _ _ H2 k) as [Ha2 Eb2]; [lia|]. split; [done|]. rewrite Eb2, lookup_total_app_r by lia. f_equal. lia.
  - intros k Hk Hn Ha. rewrite length_app in Hn. destruct (wr_out _ _ _ _ _ _ H1 k) as [Ha1 Eb1]; [done|lia|done|].
    destruct (wr_out _ _ _ _ _ _ H2 k) as [Ha2 Eb2]; [done|lia|done|]. split; [done|congruence].
  - intros b Hb Hu Hbm Hs. destruct (wr_frame _ _ _ _ _ _ H1 b Hb Hu Hbm Hs) as (E1 & Hu1 & Hs1).
    destruct (wr_frame _ _ _ _ _ _ H2 b Hb Hu1 Hbm Hs1) as (E2 & Hu2 & Hs2). split_and!; [congruence|done|done].
Qed.

(** A data block gets new bytes. *)
Lemma store_data v ip s x : fs_inv v → file_ok v ip → (s < NSLOT)%nat → s ≠ 12%nat → saddr v ip s ≠ 0 → length x = BSIZE →
  let v' := <[key (saddr v ip s) := x]> v in
  fs_inv v' ∧ file_ok v' ip ∧ (∀ s', (s' < NSLOT)%nat → saddr v' ip s' = saddr v ip s') ∧ v' !!! key bm = v !!! key bm.
Proof.
  intros Hi Hf Hs H12 Hn Hx v'. set (a := saddr v ip s) in *. destruct (good_block v ip s Hf Hs Hn) as [_ Hbm]. fold a in Hbm.
  assert (v' !!! key bm = v !!! key bm) as Ebm by (apply lookup_total_insert_ne; intros [=]; congruence).
  assert (∀ s', (s' < NSLOT)%nat → saddr v' ip s' = saddr v ip s') as Hsl.
  { intros s' Hs'. unfold saddr. case_decide; [done|]. case_decide as E12; [done|]. unfold v'.
    rewrite lookup_total_insert_ne; [done|]. intros [= E]. apply H12. apply (fo_inj _ _ Hf s 12 Hs); [unfold NSLOT; lia|done|exact E]. }
  split_and!; [|split|done|done].
  - split; [rewrite Ebm; apply (fi_len _ Hi)|]. intros b Hb Hm. unfold used. rewrite Ebm. by apply (fi_meta _ Hi).
  - apply (fo_dev _ _ Hf).
  - apply (fo_inum _ _ Hf).
  - apply (fo_len _ _ Hf).
  - intros s' Hs' Hn'. rewrite Hsl in * by done. destruct (fo_good _ _ Hf s' Hs' Hn') as (Hr & Hu & Hm & Hl).
    split_and!; [lia|lia|unfold used; by rewrite Ebm|done|]. unfold v'. destruct (decide (saddr v ip s' = a)) as [->|Hne].
    + by rewrite lookup_total_insert_eq.
    + rewrite lookup_total_insert_ne; [done|]. intros [=]. congruence.
  - intros s1 s2 H1 H2. rewrite !Hsl by done. by apply (fo_inj _ _ Hf).
Qed.

(** One iteration of [writei]: the effect on the disk. *)
Lemma written_block v ip v1 ip1 o x : fs_inv v → file_ok v ip → extends v ip v1 ip1 → (o < MAXBYTES)%nat →
  (o mod BSIZE + length x ≤ BSIZE)%nat → faddr v1 ip1 o ≠ 0 →
  let a := faddr v1 ip1 o in
  let v2 := <[key a := splice (v1 !!! key a) (o mod BSIZE) x]> v1 in
  written v ip v2 ip1 o x ∧ free_blocks v2 = free_blocks v1.
Proof using FL.
  intros Hi Hf He Ho Hx Hn a v2. pose proof (ex_file _ _ _ _ He) as Hf1. pose proof (block_lt o Ho) as Hj.
  destruct (fo_good _ _ Hf1 _ (slot_lt _ Hj) Hn) as (_ & _ & _ & Hla). fold (faddr v1 ip1 o) in Hla. fold a in Hla.
  destruct (store_data v1 ip1 (slot (o / BSIZE)) (splice (v1 !!! key a) (o mod BSIZE) x) (ex_inv _ _ _ _ He) Hf1 (slot_lt _ Hj) (slot_not_12 _) Hn)
    as (Hi2 & Hf2 & Hsl & Ebm); [rewrite length_splice; lia|]. fold (faddr v1 ip1 o) in Hi2, Hf2, Hsl, Ebm. fold a in Hi2, Hf2, Hsl, Ebm. fold v2 in Hi2, Hf2, Hsl, Ebm.
  assert (∀ k, (k < MAXBYTES)%nat → faddr v2 ip1 k = faddr v1 ip1 k) as Hfa by (intros k Hk; apply Hsl, slot_lt, block_lt, Hk).
  split; [|by apply free_blocks_ext]. split; [done|done|apply He| | | | |].
  - intros s Hs Hsn. rewrite Hsl by done. by apply (ex_slots _ _ _ _ He).
  - intros k Hk. assert (∃ d, k = o + d ∧ d < length x)%nat as (d & -> & Hd) by (exists (k - o)%nat; lia).
    destruct (same_block_offset o d ltac:(lia)) as [Ed Em]. assert (faddr v1 ip1 (o + d) = a) as Ea by (unfold faddr, a, faddr; by rewrite Ed).
    assert (o + d < MAXBYTES)%nat as Hlt.
    { unfold MAXBYTES in *. pose proof (Nat.div_mod o BSIZE ltac:(done)). nia. }
    unfold fbyte. rewrite (Hfa _ Hlt), Ea, Em. split; [done|]. unfold v2. rewrite lookup_total_insert_eq, splice_in by lia. f_equal. lia.
  - intros k Hk Hnot Hak.
    assert (faddr v1 ip1 k = faddr v ip k) as Eak by (apply (ex_slots _ _ _ _ He _ (slot_lt _ (block_lt k Hk)) Hak)).
    destruct (fo_good _ _ Hf _ (slot_lt _ (block_lt k Hk)) Hak) as (Hr & Hu & Hm & _). fold (faddr v ip k) in Hr, Hu, Hm.
    assert (v1 !!! key (faddr v ip k) = v !!! key (faddr v ip k)) as Ev.
    { apply (ex_data _ _ _ _ He); [lia|done|intros E; apply Hm; right; by left|]. intros E.
      apply (slot_not_12 (k / BSIZE)). apply (fo_inj _ _ Hf _ 12 (slot_lt _ (block_lt k Hk))); [unfold NSLOT; lia|done|exact E]. }
    unfold fbyte. rewrite (Hfa k Hk), Eak. split; [done|]. unfold v2. destruct (decide (faddr v ip k = a)) as [Ea|Hne].
    + rewrite Ea, lookup_total_insert_eq, <- Ea, Ev. apply splice_out; [rewrite <- Ev, Ea; lia|].
      assert (k / BSIZE = o / BSIZE)%nat as Eb.
      { apply slot_inj, (fo_inj _ _ Hf1); [by apply slot_lt, block_lt|by apply slot_lt|fold (faddr v1 ip1 k); by rewrite Eak|].
        fold (faddr v1 ip1 k) (faddr v1 ip1 o). by rewrite Eak. }
      pose proof (Nat.div_mod o BSIZE ltac:(done)). pose proof (Nat.div_mod k BSIZE ltac:(done)). rewrite Eb in *. lia.
    + rewrite lookup_total_insert_ne by (intros [=]; congruence). by rewrite Ev.
  - intros b Hb Hu Hbm Hsb.
    assert (∀ s, (s < NSLOT)%nat → saddr v1 ip1 s ≠ b) as Hs1.
    { intros s Hs E. destruct (decide (saddr v ip s = 0)) as [E0|Hn0].
      - destruct (decide (b = 0)) as [->|Hb0].
        + apply (Hsb s Hs E0).
        + pose proof (ex_new _ _ _ _ He s Hs E0 ltac:(congruence)) as [_ Hfr]%elem_of_free. by rewrite E in Hfr.
      - rewrite (ex_slots _ _ _ _ He) in E by done. by apply (Hsb s Hs). }
    split_and!.
    + unfold v2. rewrite lookup_total_insert_ne.
      * apply (ex_data _ _ _ _ He); [done..|]. intros E. symmetry in E. by apply (Hsb 12%nat) in E; [|unfold NSLOT; lia].
      * intros [= E]. apply (Hs1 _ (slot_lt _ Hj)). exact E.
    + unfold used. rewrite Ebm. by apply (ex_used _ _ _ _ He).
    + intros s Hs. rewrite Hsl by done. by apply Hs1.
  - eapply accounted_trans; [|apply He|]; [intros s Hs _; by apply Hsl|]. intros b Hb. unfold used. rewrite Ebm. by left.
Qed.

(** The number of blocks that [r] bytes at offset [o] touch. *)
Definition nblk (o r : nat) : nat := if decide (r = 0)%nat then 0%nat else ((o + r - 1) / BSIZE - o / BSIZE + 1)%nat.

Lemma nblk_step o r m : (0 < r)%nat → m = Nat.min r (BSIZE - o mod BSIZE) → nblk o r = S (nblk (o + m) (r - m)).
Proof.
  intros Hr ->. pose proof (Nat.div_mod o BSIZE ltac:(done)) as E. pose proof (Nat.mod_upper_bound o BSIZE ltac:(done)) as Hm.
  unfold nblk. rewrite (decide_False (P := r = 0%nat)) by lia. case_decide as Hd.
  - assert ((o + r - 1) / BSIZE = o / BSIZE)%nat as ->; [|lia]. symmetry. apply (Nat.div_unique _ _ _ (o mod BSIZE + (r - 1))%nat); lia.
  - replace (r `min` (BSIZE - o mod BSIZE))%nat with (BSIZE - o mod BSIZE)%nat in * by lia.
    assert ((o + (BSIZE - o mod BSIZE)) / BSIZE = o / BSIZE + 1)%nat as ->.
    { symmetry. apply (Nat.div_unique _ _ _ 0%nat); [unfold BSIZE; lia|]. lia. }
    replace (o + (BSIZE - o mod BSIZE) + (r - (BSIZE - o mod BSIZE)) - 1)%nat with (o + r - 1)%nat by lia.
    assert (o / BSIZE + 1 ≤ (o + r - 1) / BSIZE)%nat by (apply Nat.div_le_lower_bound; [done|]; lia). lia.
Qed.

Lemma next_block o r m : m = Nat.min (S r) (BSIZE - o mod BSIZE) →
  (o / BSIZE ≤ (o + m) / BSIZE ∧ (nblk (o + m) (S r - m) = 0 ∨ (o + m) / BSIZE = o / BSIZE + 1))%nat.
Proof.
  intros ->. pose proof (Nat.div_mod o BSIZE ltac:(done)) as E. pose proof (Nat.mod_upper_bound o BSIZE ltac:(done)) as Hm.
  split; [apply Nat.Div0.div_le_mono; lia|]. destruct (decide (S r ≤ BSIZE - o mod BSIZE)%nat) as [Hle|Hgt].
  - left. unfold nblk. rewrite decide_True by lia. done.
  - right. symmetry. apply (Nat.div_unique _ _ _ 0%nat); [unfold BSIZE; lia|]. lia.
Qed.

Lemma writei_loop_spec q r : ∀ fuel c g v ip src o tot n, sees c g v ∅ → fs_inv v → file_ok v ip → length src = r → (r ≤ fuel)%nat →
  n - tot = Z.of_nat r → (o + r ≤ MAXBYTES)%nat → room g (6 * nblk o r) → q = 2%nat ∨ q = 0%nat ∧ (∀ k, (o ≤ k < o + r)%nat → faddr v ip k ≠ 0) → (q * nblk o r ≤ size (free_blocks v))%nat →
  ∃ ip' c' v' bl, writei_loop sb c g ip src (Z.of_nat o) tot n fuel = Ok (ip', c', logs g bl) ∧
    sees c' (logs g bl) v' ∅ ∧ written v ip v' ip' o src ∧ (length bl ≤ 6 * nblk o r)%nat ∧
    (size (free_blocks v) ≤ size (free_blocks v') + q * nblk o r)%nat ∧
    ((∀ k, (o ≤ k < o + r)%nat → faddr v ip k ≠ 0) → ip' = ip) ∧
    ∀ b, b ∈ bl → touched v' ip' (λ s, s = 12%nat ∨ ∃ j, (o / BSIZE ≤ j < o / BSIZE + nblk o r)%nat ∧ s = slot j) b.
Proof using BL HL FL.
  induction r as [r IH] using lt_wf_ind. intros fuel c g v ip src o tot n Hs Hi Hf Hsrc Hfuel Hn Ho Hr Hq Hfree. destruct r as [|r0].
  { exists ip, c, v, []. apply nil_length_inv in Hsrc as ->. rewrite logs_nil.
    split_and!; [destruct fuel; cbn [writei_loop]; rewrite (proj2 (Z.ltb_ge _ _)) by lia; done|done|by apply written_nil|cbn; lia|lia|done|by intros b ?%not_elem_of_nil]. }
  destruct fuel as [|fuel]; [lia|]. cbn [writei_loop]. rewrite (proj2 (Z.ltb_lt _ _)) by lia.
  set (m := Nat.min (S r0) (BSIZE - o mod BSIZE)). pose proof (Nat.mod_upper_bound o BSIZE ltac:(done)) as Hmod.
  assert (1 ≤ m ≤ S r0 ∧ o mod BSIZE + m ≤ BSIZE)%nat as [Hm1 Hm2] by (unfold m; lia).
  pose proof (nblk_step o (S r0) m ltac:(lia) eq_refl) as Hnb. rewrite Hnb in Hr, Hfree |- *.
  set (nb := nblk (o + m) (S r0 - m)) in *.
  assert (Z.of_nat o / BS = Z.of_nat (o / BSIZE)) as Ediv by (unfold BS; by rewrite Nat2Z.inj_div).
  assert (Z.of_nat o mod BS = Z.of_nat (o mod BSIZE)) as Emod by (unfold BS; by rewrite Nat2Z.inj_mod).
  assert (Z.min (n - tot) (BS - Z.of_nat (o mod BSIZE)) = Z.of_nat m) as Em by (unfold m, BS; lia).
  rewrite Ediv, Emod, Em, !Nat2Z.id. assert (o / BSIZE < 140)%nat as Hj by (apply block_lt; lia).
  destruct (bmap_spec c g v ip (o / BSIZE) Hs Hi Hf Hj) as (ip1 & c1 & v1 & bl1 & E1 & Hs1 & He1 & Ha & Hl1 & Hf1 & Hhit1 & Ht1); [by apply (room_le _ _ 5) in Hr; [|lia]|destruct Hq as [->|[-> Hq]]; [left; lia|right; apply Hq; lia]|].
  rewrite E1, bind_Ok. fold (faddr v1 ip1 o) in *. pose proof (ex_file _ _ _ _ He1) as Hok1. rewrite (fo_dev _ _ Hok1).
  destruct (good_block v1 ip1 (slot (o / BSIZE)) Hok1 (slot_lt _ Hj) Ha) as [Hoka _]. fold (faddr v1 ip1 o) in Hoka.
  assert (room (logs g bl1) (1 + 6 * nb)) as Hr1 by (apply room_logs; eapply room_le; [|exact Hr]; lia).
  destruct (fs_modify c1 _ v1 ∅ _ Hs1 Hoka) as (i & c2 & E2 & Ed & Hst); [intros i; by rewrite lookup_empty|by eapply room_le; [|exact Hr1]; lia|rewrite map_size_empty; lia|].
  set (x := take m src). assert (length x = m) as Hlx by (unfold x; rewrite length_take; lia).
  destruct (Hst (splice (v1 !!! key (faddr v1 ip1 o)) (o mod BSIZE) x)) as (c3 & c4 & E3 & E4 & Hs4).
  rewrite E2, bind_Ok, Ed, bind_Ok, E3, bind_Ok, E4, bind_Ok.
  destruct (written_block v ip v1 ip1 o x Hi Hf He1) as [Hw1 Ef1]; [lia|lia|done|].
  destruct (IH (S r0 - m)%nat ltac:(lia) fuel c4 (logs (logs g bl1) [faddr v1 ip1 o]) _ ip1 (drop m src) (o + m)%nat (tot + Z.of_nat m) n Hs4)
    as (ip2 & c5 & v2 & bl2 & E5 & Hs5 & Hw2 & Hl2 & Hf2 & Hhit2 & Ht2); [apply Hw1|apply Hw1|rewrite length_drop; lia|lia|lia|lia| | | |].
  { apply (room_logs _ [faddr v1 ip1 o] (6 * nb)). exact Hr1. }
  { destruct Hq as [?|[Hq0 Hq]]; [by left|right]. split; [done|]. intros k Hk. apply (wr_out _ _ _ _ _ _ Hw1 k); [lia|rewrite Hlx; lia|apply Hq; lia]. }
  { rewrite Ef1. destruct Hq as [->|[-> Hq]]; [lia|]. destruct (Hhit1 ltac:(apply Hq; lia)) as [_ ->]. lia. }
  rewrite Nat2Z.inj_add in E5. rewrite E5. rewrite !logs_app in *. eexists ip2, c5, v2, _. split_and!; [done|exact Hs5| | | | |].
  - rewrite <- (take_drop m src). fold x. eapply (written_app _ _ _ _ _ _ o x); [rewrite Hlx, length_drop; lia|exact Hw1|]. by rewrite Hlx.
  - rewrite !length_app. cbn [length]. fold nb in Hl2. lia.
  - fold nb in Hf2. rewrite Ef1 in Hf2. destruct Hq as [->|[-> Hq]]; [lia|]. destruct (Hhit1 ltac:(apply Hq; lia)) as [_ <-]. lia.
  - intros Hall. assert (ip1 = ip) as -> by (by destruct (Hhit1 ltac:(apply Hall; lia))). apply Hhit2. intros k Hk.
    destruct (decide (k < o + m)%nat) as [?|Hge]; [lia|]. apply (wr_out _ _ _ _ _ _ Hw1 k); [lia|rewrite Hlx; lia|apply Hall; lia].
  - fold nb in Ht2. intros b Hb.
    assert (∀ s, (s < NSLOT)%nat → saddr v1 ip1 s ≠ 0 → saddr v2 ip2 s = saddr v1 ip1 s) as Hsl.
    { intros s Hs' Hns. destruct (fo_good _ _ Hok1 _ (slot_lt _ Hj) Ha) as (_ & _ & _ & Hla). fold (faddr v1 ip1 o) in Hla.
      destruct (store_data v1 ip1 _ (splice (v1 !!! key (faddr v1 ip1 o)) (o mod BSIZE) x) (ex_inv _ _ _ _ He1) Hok1 (slot_lt _ Hj) (slot_not_12 _) Ha)
        as (_ & _ & Hsl' & _); [rewrite length_splice; lia|].
      rewrite (wr_slots _ _ _ _ _ _ Hw2); [by apply Hsl'|done|]. by rewrite Hsl'. }
    assert (o / BSIZE ≤ (o + m) / BSIZE ∧ (nb = 0 ∨ (o + m) / BSIZE = o / BSIZE + 1))%nat as [Hle Hnext] by (by apply next_block).
    apply elem_of_app in Hb as [Hb|Hb]; [|apply elem_of_app in Hb as [Hb|Hb]].
    + eapply (touched_mono v1 ip1); [|exact Hsl|by apply Ht1]. intros s [-> | ->]; [by left|right]. exists (o / BSIZE)%nat. split; [lia|done].
    + apply list_elem_of_singleton in Hb as ->. right. exists (slot (o / BSIZE)). split_and!; [right; exists (o / BSIZE)%nat; split; [lia|done]|by apply slot_lt|by apply Hsl; [apply slot_lt|]|done].
    + eapply (touched_mono v2 ip2); [|done|by apply Ht2]. intros s [->|(j & Hjr & ->)]; [by left|right]. exists j. split; [lia|done].
Qed.

(** ** Whole calls *)

Definition fcontent (v : disk_map) (ip : inode) : list Z := fbyte v ip <$> seq 0 (Z.to_nat (isize ip)).

(** Every byte of the file has a block. *)
Definition sized (v : disk_map) (ip : inode) : Prop :=
  0 <= isize ip <= Z.of_nat MAXBYTES ∧ ∀ x, (x < Z.to_nat (isize ip))%nat → faddr v ip x ≠ 0.

(** The inode on disk. *)
Definition dinode_at (v : disk_map) (i : Z) : list Z :=
  take DINODE (drop (Z.to_nat (i mod IPB) * DINODE) (v !!! key (IBLOCK sb i))).

(** The inodes on disk other than [i] are the same. *)
Definition inodes_kept (v v' : disk_map) (i : Z) : Prop :=
  ∀ j, 0 <= j < sb_ninodes sb → (j ≠ i → dinode_at v' j = dinode_at v j) ∧ length (v' !!! key (IBLOCK sb j)) = length (v !!! key (IBLOCK sb j)).

Lemma inodes_kept_trans v v1 v2 i : inodes_kept v v1 i → inodes_kept v1 v2 i → inodes_kept v v2 i.
Proof. intros H1 H2 j Hj. destruct (H1 j Hj) as [E1 L1], (H2 j Hj) as [E2 L2]. split; [intros Hn; by rewrite E2, E1|congruence]. Qed.

(** The inode on disk is the one in memory again, or neither has changed. *)
Definition inode_synced (v : disk_map) (ip : inode) (v' : disk_map) (ip' : inode) : Prop :=
  (ip' = ip ∧ dinode_at v' (inum ip) = dinode_at v (inum ip) ∨ dinode_at v' (inum ip) = dinode_bytes ip') ∧ inodes_kept v v' (inum ip).

Lemma length_content v ip : length (fcontent v ip) = Z.to_nat (isize ip).
Proof. unfold fcontent. by rewrite length_fmap, length_seq. Qed.

Lemma content_slice v ip o r : (o + r ≤ Z.to_nat (isize ip))%nat → take r (drop o (fcontent v ip)) = fbyte v ip <$> seq o r.
Proof.
  intros Hl. unfold fcontent. rewrite <- fmap_drop, <- fmap_take. f_equal. rewrite drop_seq, take_seq, Nat.add_0_l. f_equal. lia.
Qed.

Lemma readi_spec dr c g v ip off n : sees c g v ∅ → file_ok v ip → sized v ip → itype ip ≠ T_DEV → room g 0 → is_u32 off → is_u32 n →
  ∃ c', sees c' g v ∅ ∧
    readi sb dr c g ip off n =
      if decide (off <= isize ip ∧ off + n < 2 ^ 32)
      then let m := Z.min n (isize ip - off) in Ok (m, take (Z.to_nat m) (drop (Z.to_nat off) (fcontent v ip)), ip, c', g)
      else Ok (-1, [], ip, c', g).
Proof using BL HL FL.
  intros Hs Hf [Hsz Ha] Ht Hr [Ho Ho2] [Hn Hn2]. unfold readi. rewrite (proj2 (Z.eqb_neq _ _)) by done.
  assert (isize ip < 2 ^ 32) as Hs32 by (unfold MAXBYTES, BSIZE in Hsz; lia).
  case_decide as Hd.
  - destruct Hd as [H1 H2]. rewrite (u32_small (off + n)) by (unfold is_u32; lia).
    rewrite (proj2 (Z.ltb_ge _ _)), (proj2 (Z.ltb_ge (off + n) off)) by lia. cbn [orb].
    rewrite (u32_small (isize ip - off)) by (unfold is_u32; lia). set (m := Z.min n (isize ip - off)).
    assert ((if isize ip <? off + n then isize ip - off else n) = m) as ->.
    { unfold m. destruct (Z.ltb_spec (isize ip) (off + n)); lia. }
    destruct (readi_loop_spec (Z.to_nat m) (Z.to_nat m) c g v ip (Z.to_nat off) 0 m Hs Hf Hr) as (c' & E & Hs'); [lia|lia|lia| |].
    { intros x Hx. apply Ha. lia. }
    rewrite Z2Nat.id in E by done. rewrite E, bind_Ok. exists c'. split; [done|]. cbn zeta. rewrite content_slice by lia. done.
  - exists c. split; [done|]. destruct (Z.ltb_spec (isize ip) off) as [?|Hle]; [done|]. cbn [orb].
    assert (u32 (off + n) < off) as Hw.
    { unfold u32. rewrite <- (Z.mod_unique_pos (off + n) (2 ^ 32) 1 (off + n - 2 ^ 32)); lia. }
    by rewrite (proj2 (Z.ltb_lt _ _)).
Qed.

(** A store into a block of metadata, the bitmap apart. *)
Lemma store_meta v ip b x : fs_inv v → file_ok v ip → meta b → b ≠ bm →
  let v' := <[key b := x]> v in
  fs_inv v' ∧ file_ok v' ip ∧ (∀ s, (s < NSLOT)%nat → saddr v' ip s = saddr v ip s) ∧
  (∀ k, (k < MAXBYTES)%nat → faddr v ip k ≠ 0 → fbyte v' ip k = fbyte v ip k) ∧ v' !!! key bm = v !!! key bm.
Proof.
  intros Hi Hf Hm Hbm v'.
  assert (v' !!! key bm = v !!! key bm) as Ebm by (apply lookup_total_insert_ne; intros [=]; congruence).
  assert (∀ s, (s < NSLOT)%nat → saddr v ip s ≠ 0 → v' !!! key (saddr v ip s) = v !!! key (saddr v ip s)) as Hkeep.
  { intros s Hs Hn. apply lookup_total_insert_ne. intros [= E]. destruct (fo_good _ _ Hf s Hs Hn) as (_ & _ & Hnm & _). apply Hnm. by rewrite <- E. }
  assert (∀ s, (s < NSLOT)%nat → saddr v' ip s = saddr v ip s) as Hsl.
  { intros s Hs. unfold saddr. case_decide; [done|]. case_decide as E12; [done|].
    pose proof (Hkeep 12%nat ltac:(unfold NSLOT; lia) E12) as E. change (saddr v ip 12) with (addrs ip !!! 12%nat) in E. by rewrite E. }
  split_and!; [|split|done| |done].
  - split; [rewrite Ebm; apply (fi_len _ Hi)|]. intros b' Hb Hm'. unfold used. rewrite Ebm. by apply (fi_meta _ Hi).
  - apply (fo_dev _ _ Hf).
  - apply (fo_inum _ _ Hf).
  - apply (fo_len _ _ Hf).
  - intros s Hs Hn. rewrite Hsl in * by done. destruct (fo_good _ _ Hf s Hs Hn) as (Hr & Hu & Hnm & Hl).
    split_and!; [lia|lia|unfold used; by rewrite Ebm|done|by rewrite Hkeep].
  - intros s1 s2 H1 H2. rewrite !Hsl by done. by apply (fo_inj _ _ Hf).
  - intros k Hk Hn. unfold fbyte, faddr. rewrite Hsl by (by apply slot_lt, block_lt). rewrite Hkeep; [done|by apply slot_lt, block_lt|done].
Qed.

Lemma length_dinode_bytes ip : length (addrs ip) = 13%nat → length (dinode_bytes ip) = DINODE.
Proof.
  intros Hl. unfold dinode_bytes. rewrite !length_app, !length_le_bytes. cut (length (concat (le_bytes 4 <$> addrs ip)) = 52%nat); [intros ->; done|].
  replace 52%nat with (4 * length (addrs ip))%nat by (rewrite Hl; done). clear Hl. induction (addrs ip) as [|a l IH]; [done|].
  cbn [fmap list_fmap concat length]. rewrite length_app, IH, length_le_bytes. lia.
Qed.

(** New bytes for inode [i] in its block. *)
Definition inode_put (v : disk_map) (i : Z) (x : list Z) : disk_map :=
  <[key (IBLOCK sb i) := splice (v !!! key (IBLOCK sb i)) (Z.to_nat (i mod IPB) * DINODE) x]> v.

Lemma inode_put_spec v i x : length (v !!! key (IBLOCK sb i)) = BSIZE → length x = DINODE →
  dinode_at (inode_put v i x) i = x ∧ inodes_kept v (inode_put v i x) i.
Proof.
  intros Hl Hx. set (b := IBLOCK sb i) in *. unfold inode_put. fold b. set (v' := <[key b := _]> v).
  assert (∀ z, 0 <= z mod IPB < 8) as Hmod by (intros z; by apply Z.mod_pos_bound). pose proof (Hmod i). unfold BSIZE in Hl.
  assert (v' !!! key b = splice (v !!! key b) (Z.to_nat (i mod IPB) * DINODE) x) as Eb by apply lookup_total_insert_eq. split.
  - unfold dinode_at. fold b. rewrite Eb. rewrite <- Hx at 1. apply splice_slice. rewrite Hl, Hx. unfold DINODE. lia.
  - intros j Hj. destruct (decide (IBLOCK sb j = b)) as [Ej|Nj].
    + unfold dinode_at. rewrite Ej, Eb. pose proof (Hmod j). split.
      * intros Hne. assert (j mod IPB ≠ i mod IPB) as Hne2.
        { intros E. apply Hne. unfold b, IBLOCK, IPB in Ej, E. pose proof (Z.div_mod j 8 ltac:(done)). pose proof (Z.div_mod i 8 ltac:(done)). lia. }
        apply splice_disjoint; rewrite ?Hl, ?Hx; unfold DINODE; lia.
      * rewrite length_splice; [done|]. rewrite Hl, Hx. unfold DINODE. lia.
    + unfold dinode_at, v'. rewrite lookup_total_insert_ne by (intros [=]; congruence). done.
Qed.

Lemma iupdate_spec c g v ip : sees c g v ∅ → file_ok v ip → room g 1 → length (v !!! key (IBLOCK sb (inum ip))) = BSIZE →
  let b := IBLOCK sb (inum ip) in
  let v' := inode_put v (inum ip) (dinode_bytes ip) in
  ∃ c', iupdate sb c g ip = Ok (c', logs g [b]) ∧ sees c' (logs g [b]) v' ∅ ∧ dinode_at v' (inum ip) = dinode_bytes ip ∧
    inodes_kept v v' (inum ip).
Proof using BL HL FL.
  intros Hs Hf Hr Hl b v'. destruct (fl_ino FL (inum ip) (fo_inum _ _ Hf)) as [Hok _]. fold b in Hok, Hl.
  destruct (fs_modify c g v ∅ b Hs Hok) as (i & c1 & E1 & Ed & Hst); [intros i; by rewrite lookup_empty|done|rewrite map_size_empty; lia|].
  unfold iupdate. rewrite (fo_dev _ _ Hf). fold b. rewrite E1, bind_Ok, Ed, bind_Ok.
  destruct (Hst (splice (v !!! key b) (Z.to_nat (inum ip mod IPB) * DINODE) (dinode_bytes ip))) as (c2 & c3 & -> & E3 & Hs3).
  rewrite bind_Ok, E3, bind_Ok. exists c3.
  assert (length (dinode_bytes ip) = DINODE) as Hdl by (apply length_dinode_bytes, (fo_len _ _ Hf)).
  destruct (inode_put_spec v (inum ip) (dinode_bytes ip) Hl Hdl). split_and!; [done|exact Hs3|done|done].
Qed.

Lemma file_ok_size v ip n : file_ok v ip → file_ok v (set_size n ip).
Proof. intros [H1 H2 H3 H4 H5]. by split. Qed.

(** The bytes of a file after a write of [src] at [o], when its size becomes [sz']. *)
Lemma content_written v ip v' ip' o src : (o ≤ Z.to_nat (isize ip))%nat → (Z.to_nat (isize ip) ≤ MAXBYTES)%nat →
  sized v ip → Z.to_nat (isize ip') = Nat.max (Z.to_nat (isize ip)) (o + length src) →
  (∀ k, (o ≤ k < o + length src)%nat → fbyte v' ip' k = src !!! (k - o)%nat) →
  (∀ k, (k < MAXBYTES)%nat → ¬ (o ≤ k < o + length src)%nat → faddr v ip k ≠ 0 → fbyte v' ip' k = fbyte v ip k) →
  fcontent v' ip' = take o (fcontent v ip) ++ src ++ drop (o + length src) (fcontent v ip).
Proof.
  intros Ho Hmax [_ Hsz] Esz Hin Hout. unfold fcontent. rewrite Esz. set (z := Z.to_nat (isize ip)) in *. set (r := length src) in *.
  replace (Nat.max z (o + r)) with (o + (r + (Nat.max z (o + r) - (o + r))))%nat by lia.
  rewrite !seq_app, !fmap_app, <- fmap_take, <- fmap_drop, take_seq, drop_seq, !Nat.add_0_l. f_equal; [|f_equal].
  - replace (o `min` z)%nat with o by lia. apply list_fmap_ext. intros k x [-> Hk]%lookup_seq. apply Hout; [lia|lia|]. apply Hsz. lia.
  - apply list_eq. intros k. destruct (decide (k < r)%nat) as [Hk|Hk].
    + rewrite list_lookup_fmap, lookup_seq_lt by done. cbn. rewrite Hin by lia. replace (o + k - o)%nat with k by lia.
      destruct (lookup_lt_is_Some_2 src k Hk) as [y Hy]. by rewrite Hy, (list_lookup_total_correct _ _ _ Hy).
    + rewrite !lookup_ge_None_2 by (rewrite ?length_fmap, ?length_seq; lia). done.
  - replace (Nat.max z (o + r) - (o + r))%nat with (z - (o + r))%nat by lia.
    apply list_fmap_ext. intros k x [-> Hk]%lookup_seq. apply Hout; [lia|lia|]. apply Hsz. lia.
Qed.

(** What a write may change: blocks in use that are not the file's, the bitmap or the inode's block are kept. *)
Definition others_kept (v : disk_map) (ip : inode) (v' : disk_map) (ip' : inode) : Prop :=
  ∀ b, okb b → used v b → b ≠ bm → b ≠ IBLOCK sb (inum ip) → (∀ s, (s < NSLOT)%nat → saddr v ip s ≠ b) →
    v' !!! key b = v !!! key b ∧ used v' b ∧ ∀ s, (s < NSLOT)%nat → saddr v' ip' s ≠ b.

Lemma inode_block_meta ip v : file_ok v ip → meta (IBLOCK sb (inum ip)) ∧ IBLOCK sb (inum ip) ≠ bm.
Proof using FL. intros Hf. split; [right; right; right; exists (inum ip); split; [apply (fo_inum _ _ Hf)|done]|]. apply (fl_ino FL), (fo_inum _ _ Hf). Qed.

Lemma inode_block_used ip v : fs_inv v → file_ok v ip → let b := IBLOCK sb (inum ip) in
  0 <= b ∧ b < sb_size sb → used v b ∧ ∀ s, (s < NSLOT)%nat → saddr v ip s ≠ 0 → saddr v ip s ≠ b.
Proof using FL.
  intros Hi Hf b Hb. destruct (inode_block_meta ip v Hf) as [Hm _]. split; [by apply (fi_meta _ Hi)|].
  intros s Hs Hn E. destruct (fo_good _ _ Hf s Hs Hn) as (_ & _ & Hnm & _). apply Hnm. by rewrite E.
Qed.

Lemma written_inodes v ip v' ip' o x : fs_inv v → file_ok v ip → written v ip v' ip' o x → inodes_kept v v' (inum ip).
Proof using FL.
  intros Hi Hf Hw j Hj. destruct (fl_ino FL j Hj) as [_ Hbm]. pose proof (fl_iblock FL j Hj) as Hr.
  assert (meta (IBLOCK sb j)) as Hm by (right; right; right; by exists j).
  destruct (wr_frame _ _ _ _ _ _ Hw (IBLOCK sb j)) as (E & _); [lia|apply (fi_meta _ Hi); [lia|done]|done| |unfold dinode_at; by rewrite E].
  intros s Hs E. destruct (decide (saddr v ip s = 0)) as [E0|Hn]; [lia|]. destruct (fo_good _ _ Hf s Hs Hn) as (_ & _ & Hnm & _). rewrite E in Hnm. done.
Qed.

Lemma writei_spec q dw c g v ip src off : sees c g v ∅ → fs_inv v → file_ok v ip → sized v ip → itype ip ≠ T_DEV →
  length (v !!! key (IBLOCK sb (inum ip))) = BSIZE →
  0 <= off <= isize ip → off + Z.of_nat (length src) <= Z.of_nat MAXBYTES →
  room g (6 * nblk (Z.to_nat off) (length src) + 1) → q = 2%nat ∨ q = 0%nat ∧ off + Z.of_nat (length src) <= isize ip →
  (q * nblk (Z.to_nat off) (length src) ≤ size (free_blocks v))%nat →
  ∃ ip' c' v' bl, writei sb dw c g ip src off = Ok (Z.of_nat (length src), ip', c', logs g bl) ∧
    sees c' (logs g bl) v' ∅ ∧ fs_inv v' ∧ file_ok v' ip' ∧ sized v' ip' ∧
    isize ip' = Z.max (isize ip) (off + Z.of_nat (length src)) ∧
    fcontent v' ip' = take (Z.to_nat off) (fcontent v ip) ++ src ++ drop (Z.to_nat off + length src) (fcontent v ip) ∧
    others_kept v ip v' ip' ∧ (size (free_blocks v) ≤ size (free_blocks v') + q * nblk (Z.to_nat off) (length src))%nat ∧
    inode_synced v ip v' ip' ∧ accounted v v' ip' ∧ (∀ s, (s < NSLOT)%nat → saddr v ip s ≠ 0 → saddr v' ip' s = saddr v ip s) ∧
    (length bl ≤ 6 * nblk (Z.to_nat off) (length src) + 1)%nat ∧ same_inode (set_size (isize ip') ip) ip' ∧
    length (v' !!! key (IBLOCK sb (inum ip))) = BSIZE ∧
    ∀ b, b ∈ bl → b = IBLOCK sb (inum ip) ∨
      touched v' ip' (λ s, s = 12%nat ∨ ∃ j, (Z.to_nat off / BSIZE ≤ j < Z.to_nat off / BSIZE + nblk (Z.to_nat off) (length src))%nat ∧ s = slot j) b.
Proof using BL HL FL.
  intros Hs Hi Hf [Hsz Ha] Ht Hibl Ho Hmax Hr Hq Hfree. pose proof (fl_iblock FL _ (fo_inum _ _ Hf)) as Hib. set (r := length src) in *. set (o := Z.to_nat off) in *.
  assert (off = Z.of_nat o) as Eo by lia. unfold writei. rewrite (proj2 (Z.eqb_neq _ _)) by done. fold r.
  assert (off + Z.of_nat r < 2 ^ 32) as H32 by (unfold MAXBYTES, BSIZE in Hmax; lia).
  rewrite (u32_small (off + Z.of_nat r)) by (unfold is_u32; lia).
  rewrite (proj2 (Z.ltb_ge (isize ip) off)), (proj2 (Z.ltb_ge (off + Z.of_nat r) off)) by lia. cbn [orb].
  assert (MAXFILE * BS = Z.of_nat MAXBYTES) as -> by done. rewrite (proj2 (Z.ltb_ge _ _)) by lia. rewrite Eo in *.
  destruct (writei_loop_spec q r r c g v ip src o 0 (Z.of_nat r)) as (ip1 & c1 & v1 & bl1 & -> & Hs1 & Hw & Hl1 & Hf1 & Hhit & Ht1);
    [done..|lia|lia|lia|eapply room_le; [|done]; lia|destruct Hq as [?|[? ?]]; [by left|right; split; [done|]; intros k Hk; apply Ha; lia]|done|]. rewrite bind_Ok.
  destruct (same_inode_inv _ _ (wr_same _ _ _ _ _ _ Hw)) as (Ed & En & Ety & Esz & _). rewrite Esz. rewrite <- Esz in Hsz.
  destruct (inode_block_used ip v Hi Hf ltac:(lia)) as [Hub Hnb]. destruct (inode_block_meta ip v Hf) as [Hmb Hbm].
  destruct (wr_frame _ _ _ _ _ _ Hw (IBLOCK sb (inum ip))) as (Eib & _ & _); [lia|done|done| |].
  { intros s Hs' E. destruct (decide (saddr v ip s = 0)) as [E0|Hn]; [lia|]. by apply (Hnb s Hs' Hn). }
  assert (inodes_kept v v1 (inum ip)) as Hk1 by (by eapply written_inodes).
  assert (∀ k, (k < Nat.max (Z.to_nat (isize ip)) (o + r))%nat → faddr v1 ip1 k ≠ 0) as Hall.
  { intros k Hk. destruct (decide (o ≤ k < o + r)%nat) as [Hin|Hout]; [by apply (wr_in _ _ _ _ _ _ Hw)|].
    apply (wr_out _ _ _ _ _ _ Hw k); [unfold MAXBYTES in *; lia|done|]. apply Ha. lia. }
  destruct ((0 <? Z.of_nat r) && (isize ip <? Z.of_nat o + Z.of_nat r)) eqn:Eg.
  - apply andb_prop in Eg as [Er%Z.ltb_lt Es%Z.ltb_lt]. set (ip2 := set_size (Z.of_nat o + Z.of_nat r) ip1).
    assert (file_ok v1 ip2) as Hf2 by apply file_ok_size, Hw.
    destruct (iupdate_spec c1 (logs g bl1) v1 ip2 Hs1 Hf2) as (c2 & -> & Hs2 & Edi & Hk2).
    { apply room_logs. eapply room_le; [|done]. lia. }
    { cbn [ip2 inum set_size]. by rewrite En, Eib. }
    rewrite bind_Ok, logs_app in *. change (inum ip2) with (inum ip1) in *. rewrite En in *.
    destruct (store_meta v1 ip2 _ (splice (v1 !!! key (IBLOCK sb (inum ip))) (Z.to_nat (inum ip mod IPB) * DINODE) (dinode_bytes ip2)) (wr_inv _ _ _ _ _ _ Hw) Hf2 Hmb Hbm)
      as (Hi3 & Hf3 & Hsl3 & Hfb3 & Ebm3). set (v3 := <[key (IBLOCK sb (inum ip)) := _]> v1) in *.
    eexists ip2, c2, v3, _. split_and!; [done|exact Hs2|done|done| |cbn; lia| | | | | | | | | |].
    + split; [cbn [isize ip2 set_size]; lia|]. intros x Hx. cbn [isize ip2 set_size] in Hx. unfold faddr. rewrite Hsl3 by (apply slot_lt, block_lt; lia).
      apply (Hall x). lia.
    + apply content_written; [lia|lia|by split; [rewrite <- Esz|]|cbn [isize ip2 set_size]; fold r; lia| |].
      * intros k Hk. fold r in Hk. destruct (wr_in _ _ _ _ _ _ Hw k Hk) as [Hak Ebk]. rewrite <- Ebk. apply Hfb3; [lia|done].
      * intros k Hk Hn Hak. fold r in Hn. destruct (wr_out _ _ _ _ _ _ Hw k Hk Hn Hak) as [Hak1 Ebk]. rewrite <- Ebk. by apply Hfb3.
    + intros b [[Hb _] _] Hu Hbb Hbi Hsb. destruct (wr_frame _ _ _ _ _ _ Hw b Hb Hu Hbb Hsb) as (E1 & Hu1 & Hs1'). split_and!.
      * unfold v3. rewrite lookup_total_insert_ne by (intros [=]; congruence). done.
      * unfold used. by rewrite Ebm3.
      * intros s Hs'. rewrite (Hsl3 s Hs'). by apply Hs1'.
    + by rewrite (free_blocks_ext v1 v3).
    + split; [by right|]. by eapply inodes_kept_trans.
    + eapply accounted_trans; [|apply Hw|]; [intros s Hs' _; by apply Hsl3|]. intros b Hb. unfold used. rewrite Ebm3. by left.
    + intros s Hs' Hn. rewrite (Hsl3 s Hs'). by apply (wr_slots _ _ _ _ _ _ Hw).
    + rewrite length_app. cbn [length]. lia.
    + destruct (wr_same _ _ _ _ _ _ Hw) as [Esa El]. split; [|exact El].
      unfold set_addrs in Esa. injection Esa. intros. unfold ip2, set_addrs, set_size.
      cbn [i_dev inum i_ref i_locked i_valid itype major minor nlink isize]. congruence.
    + unfold v3. rewrite lookup_total_insert_eq, length_splice; rewrite ?Eib; [done|]. rewrite Hibl, length_dinode_bytes by (apply (fo_len _ _ Hf2)).
      pose proof (Z.mod_pos_bound (inum ip) IPB eq_refl). unfold IPB, DINODE, BSIZE in *. lia.
    + intros b [Hb|Hb]%elem_of_app; [right|left; by apply list_elem_of_singleton in Hb].
      refine (touched_mono v1 ip1 _ _ _ _ b _ _ (Ht1 b Hb)); [done|]. intros s Hs' _. apply (Hsl3 s Hs').
  - eexists ip1, c1, v1, bl1.
    assert (Nat.max (Z.to_nat (isize ip)) (o + r) = Z.to_nat (isize ip)) as Emax.
    { apply andb_false_iff in Eg as [?%Z.ltb_ge|?%Z.ltb_ge]; lia. }
    rewrite Emax in Hall. split_and!; [done|exact Hs1|apply Hw|apply Hw| |lia| | |done| |apply Hw|apply Hw|lia| |by rewrite Eib|].
    + split; [lia|]. intros x Hx. apply Hall. lia.
    + apply content_written; [lia|lia|by split; [rewrite <- Esz|]|rewrite Esz; fold r; lia| |].
      * intros k Hk. by apply (wr_in _ _ _ _ _ _ Hw).
      * intros k Hk Hn Hak. by apply (wr_out _ _ _ _ _ _ Hw).
    + intros b [[Hb _] _] Hu Hbb _ Hsb. apply (wr_frame _ _ _ _ _ _ Hw b Hb Hu Hbb Hsb).
    + split; [|done]. left. split; [apply Hhit; intros k Hk; apply Ha; lia|]. unfold dinode_at. by rewrite Eib.
    + rewrite Esz. destruct (wr_same _ _ _ _ _ _ Hw) as [Esa El]. split; [by destruct ip|exact El].
    + intros b Hb. right. by apply Ht1.
Qed.
End fsspec.
