(* ===== verification/FsTrunc.v ===== *)
(** Freeing blocks and truncating files ([bfree], [itrunc] of src/p4/fs.c). *)

From Stdlib Require Import ZArith Lia.
From stdpp Require Import base numbers list gmap fin_sets sets strings.
From S2P Require Import Prelude Bio Log LogCrash Fs FsSpec.
#[local] Open Scope Z_scope.

Section trunc.
Context {C : Type} `{BL : BufLaws C cview} (g0 : log) (HL : layout g0) (sb : superblock) (FL : fs_layout g0 sb).
Abbreviation key := (home_key g0).
Abbreviation okb := (home_ok g0).
Abbreviation bm := (sb_bmapstart sb).
Abbreviation sees := (sees (cview := cview) g0).
Abbreviation frees := (free_blocks g0 sb).

(** A data block in use. *)
Definition data_block (v : disk_map) (b : Z) : Prop := 0 <= b < sb_size sb ∧ used g0 sb v b ∧ ¬ meta g0 sb b.

(** [v'] is [v] but for the bitmap, with the blocks [X] freed. *)
Record freed (v v' : disk_map) (X : gset Z) : Prop := {
  fr_inv : fs_inv g0 sb v';
  fr_free : frees v' = frees v ∪ X;
  fr_keep : ∀ b, b ≠ bm → v' !!! key b = v !!! key b;
  fr_used : ∀ b, 0 <= b < sb_size sb → used g0 sb v' b ↔ used g0 sb v b ∧ b ∉ X }.

Lemma freed_refl v : fs_inv g0 sb v → freed v v ∅.
Proof. intros Hi. split; [done|set_solver|done|]. intros b _. set_solver. Qed.

Lemma freed_trans v v1 v2 X Y : freed v v1 X → freed v1 v2 Y → freed v v2 (X ∪ Y).
Proof.
  intros H1 H2. split; [apply H2|rewrite (fr_free _ _ _ H2), (fr_free _ _ _ H1); set_solver| |].
  - intros b Hb. by rewrite (fr_keep _ _ _ H2), (fr_keep _ _ _ H1).
  - intros b Hb. rewrite (fr_used _ _ _ H2 b Hb), (fr_used _ _ _ H1 b Hb). set_solver.
Qed.

(** The log with the bitmap block recorded, once. *)
Definition with_bm (g g' : log) : Prop := g' = g ∨ g' = logs g [bm].

Lemma with_bm_again g g' : with_bm g g' → logs g' [bm] = logs g [bm].
Proof.
  intros [->| ->]; [done|]. rewrite logs_app. unfold logs. cbn [app foldl]. f_equal. unfold absorb at 1.
  destruct (decide (bm ∈ absorb (lh g) bm)) as [?|Hn]; [done|]. exfalso. apply Hn. unfold absorb.
  case_decide; [done|]. apply elem_of_app. right. by left.
Qed.

Lemma with_bm_room g g' k : with_bm g g' → room g0 g (S k) → room g0 g' k.
Proof. intros [->| ->] Hr; [eapply room_le; [|done]; lia|by apply (room_logs g0 g [bm] k)]. Qed.

Lemma bfree_spec c g v h b : sees c g v h → fs_inv g0 sb v → data_block v b → room g0 g 1 → (size h ≤ 2)%nat →
  (∀ i, h !! i ≠ Some (key bm)) →
  ∃ c' v', bfree sb c g (dev g0) b = Ok (c', logs g [bm]) ∧ sees c' (logs g [bm]) v' h ∧ freed v v' {[b]}.
Proof using BL HL FL.
  intros Hs Hi (Hb & Hu & Hm) Hr Hsz Hh. unfold bfree. rewrite (BBLOCK_bm g0 sb FL) by done.
  destruct (fs_modify g0 HL c g v h bm Hs (fl_bm _ _ FL) Hh Hr Hsz) as (i & c1 & E1 & Ed & Hst). rewrite E1, bind_Ok, Ed, bind_Ok.
  assert (b mod BPB = b) as ->.
  { apply Z.mod_small. pose proof (fl_size _ _ FL). unfold BPB, BS, BSIZE, FSSIZE in *. lia. }
  unfold used in Hu. rewrite (proj2 (Z.eqb_neq _ _)) by done.
  set (x := clear_bit (v !!! key bm) b). destruct (Hst x) as (c2 & c3 & -> & E3 & Hs3). rewrite bind_Ok, E3, bind_Ok.
  exists c3, (<[key bm := x]> v). split; [done|]. split; [done|].
  assert (<[key bm := x]> v !!! key bm = x) as Ex by apply lookup_total_insert_eq.
  assert (∀ b', 0 <= b' → used g0 sb (<[key bm := x]> v) b' ↔ used g0 sb v b' ∧ b' ≠ b) as Hused.
  { intros b' Hb'. unfold used. rewrite Ex.
    pose proof (bit_of_clear (v !!! key bm) b b' ltac:(lia) Hb' ltac:(rewrite (fi_len _ _ _ Hi); by apply (bit_byte g0 sb FL))) as E. fold x in E.
    destruct (Z.eqb_spec (bit_of x b') 0), (Z.eqb_spec (bit_of (v !!! key bm) b') 0), (Z.eqb_spec b' b); cbn in E; try done; tauto. }
  split.
  - split; [rewrite Ex; unfold x, clear_bit; by rewrite length_insert, (fi_len _ _ _ Hi)|].
    intros b' Hb' Hm'. apply Hused; [lia|]. split; [by apply (fi_meta _ _ _ Hi)|]. by intros ->.
  - apply set_eq. intros b'. rewrite elem_of_union, elem_of_singleton, !elem_of_free. split.
    + intros [Hr' Hn]. rewrite Hused in Hn by lia. destruct (decide (b' = b)); [by right|left]. split; [done|]. tauto.
    + intros [[Hr' Hn]| ->]; (split; [done|]); rewrite Hused by lia; tauto.
  - intros b' Hb'. apply lookup_total_insert_ne. intros [=]. congruence.
  - intros b' Hb'. rewrite Hused by lia. set_solver.
Qed.

(** [if(a) bfree(dev, a)] for the addresses of a list. *)
Fixpoint free_list (c : C) (g : log) (l : list Z) : outcome (C * log) :=
  match l with
  | [] => Ok (c, g)
  | a :: l' => if a =? 0 then free_list c g l' else '(c, g) ← bfree sb c g (dev g0) a; free_list c g l'
  end.

Definition nonzero (l : list Z) : list Z := filter (λ a, a ≠ 0) l.

Lemma free_list_spec g l : room g0 g 2 → ∀ c g1 v h, with_bm g g1 → sees c g1 v h → fs_inv g0 sb v →
  Forall (data_block v) (nonzero l) → NoDup (nonzero l) → (size h ≤ 2)%nat → (∀ i, h !! i ≠ Some (key bm)) →
  ∃ c' g' v', free_list c g1 l = Ok (c', g') ∧ with_bm g g' ∧ sees c' g' v' h ∧ freed v v' (list_to_set (nonzero l)).
Proof using BL HL FL.
  intros Hr. induction l as [|a l IH]; intros c g1 v h Hg Hs Hi Hd Hnd Hsz Hh; cbn [free_list].
  { exists c, g1, v. split_and!; [done|done|done|by apply freed_refl]. }
  unfold nonzero in *. rewrite filter_cons in Hd, Hnd |- *. destruct (Z.eqb_spec a 0) as [->|Ha].
  { rewrite decide_False in Hd, Hnd |- * by tauto. by apply IH. }
  rewrite decide_True in Hd, Hnd |- * by done. apply Forall_cons in Hd as [Hda Hd]. apply NoDup_cons in Hnd as [Hna Hnd].
  destruct (bfree_spec c g1 v h a Hs Hi Hda) as (c1 & v1 & E1 & Hs1 & Hf1); [by eapply with_bm_room|done|done|].
  rewrite E1, bind_Ok. rewrite (with_bm_again g g1 Hg) in *.
  destruct (IH c1 (logs g [bm]) v1 h) as (c2 & g2 & v2 & E2 & Hg2 & Hs2 & Hf2); [by right|done|apply Hf1| |done|done|done|].
  { rewrite Forall_forall in Hd |- *. intros b Hb. destruct (Hd b Hb) as (Hbr & Hbu & Hbm). split_and!; [lia|lia| |done].
    apply (fr_used _ _ _ Hf1 b Hbr). split; [done|]. rewrite elem_of_singleton. by intros ->. }
  exists c2, g2, v2. split_and!; [done..|]. rewrite list_to_set_cons. by eapply freed_trans.
Qed.

(** The loops of [itrunc]. *)
Lemma trunc_indirect_list a n : ∀ c g j, trunc_indirect sb c g (dev g0) a j n = free_list c g (get32 a <$> seq j n).
Proof.
  induction n as [|n IH]; intros c g j; cbn [trunc_indirect seq fmap list_fmap free_list]; [done|]. case_match; [apply IH|].
  apply bind_ext. intros [c1 g1]. apply IH.
Qed.

Definition zeroed (ip : inode) (i n : nat) : inode := set_addrs (take i (addrs ip) ++ replicate n 0 ++ drop (i + n) (addrs ip)) ip.

Lemma zeroed_step ip i n : (i < length (addrs ip))%nat → zeroed (set_addr (Z.of_nat i) 0 ip) (S i) n = zeroed ip i (S n).
Proof.
  intros Hi. unfold zeroed, set_addr, set_addrs. cbn [i_dev inum i_ref i_locked i_valid itype major minor nlink isize addrs]. f_equal.
  rewrite Nat2Z.id. rewrite (take_S_r _ i 0) by (by apply list_lookup_insert_eq). rewrite take_insert_ge by lia. rewrite drop_insert_lt by lia.
  cbn [replicate]. rewrite <- app_assoc. cbn [app]. do 3 f_equal. f_equal. lia.
Qed.

Lemma trunc_direct_list n : ∀ c g ip i, i_dev ip = dev g0 → (i + n ≤ length (addrs ip))%nat →
  trunc_direct sb c g ip (Z.of_nat i) n = '(c, g) ← free_list c g (take n (drop i (addrs ip))); Ok (zeroed ip i n, c, g).
Proof.
  induction n as [|n IH]; intros c g ip i Hd Hl; cbn [trunc_direct].
  { rewrite take_0. cbn [free_list]. rewrite bind_Ok. unfold zeroed. cbn [replicate app]. rewrite Nat.add_0_r, take_drop. by destruct ip. }
  destruct (lookup_lt_is_Some_2 (addrs ip) i) as [a Ha]; [lia|]. rewrite (drop_S _ a i Ha).
  change (take (S n) (a :: drop (S i) (addrs ip))) with (a :: take n (drop (S i) (addrs ip))). cbn [free_list].
  unfold addr_at. rewrite Nat2Z.id, (list_lookup_total_correct _ _ _ Ha). replace (Z.of_nat i + 1) with (Z.of_nat (S i)) by lia.
  destruct (Z.eqb_spec a 0) as [->|Hn].
  - rewrite IH by (done || lia). apply bind_ext. intros [c1 g1]. rewrite <- zeroed_step by lia. do 4 f_equal.
    unfold set_addr. rewrite Nat2Z.id, list_insert_id by done. by destruct ip.
  - rewrite Hd. destruct (bfree sb c g (dev g0) a) as [[c1 g1]| | |]; cbn [mbind outcome_bind]; [|done..].
    rewrite IH by (first [exact Hd|unfold set_addr, set_addrs; cbn [addrs]; rewrite length_insert; lia]).
    rewrite zeroed_step by lia. unfold set_addr, set_addrs. cbn [addrs]. rewrite Nat2Z.id, drop_insert_lt by lia. done.
Qed.

(** ** The blocks of a file *)

Lemma nonzero_NoDup (f : nat → Z) n : ∀ a, (∀ i j, (a ≤ i < a + n)%nat → (a ≤ j < a + n)%nat → f i ≠ 0 → f i = f j → i = j) →
  NoDup (nonzero (f <$> seq a n)).
Proof.
  induction n as [|n IH]; intros a Hinj; [constructor|]. unfold nonzero. cbn [seq fmap list_fmap]. rewrite filter_cons.
  case_decide as Hn; [|apply IH; intros i j Hi Hj; apply Hinj; lia]. apply NoDup_cons. split.
  - intros [_ Hin]%list_elem_of_filter. apply list_elem_of_fmap in Hin as (j & E & Hj). apply elem_of_seq in Hj.
    assert (a = j) by (apply Hinj; [lia|lia|done|done]). lia.
  - apply IH. intros i j Hi Hj. apply Hinj; lia.
Qed.

Definition file_blocks (v : disk_map) (ip : inode) : gset Z := list_to_set (nonzero (saddr g0 v ip <$> seq 0 NSLOT)).

Lemma elem_of_nonzero (f : nat → Z) a n b : b ∈ nonzero (f <$> seq a n) ↔ b ≠ 0 ∧ ∃ s, (a ≤ s < a + n)%nat ∧ f s = b.
Proof.
  unfold nonzero. rewrite list_elem_of_filter, list_elem_of_fmap. split.
  - intros [Hb (s & -> & Hs%elem_of_seq)]. split; [done|]. by exists s.
  - intros [Hb (s & Hs & <-)]. split; [done|]. exists s. split; [done|]. by apply elem_of_seq.
Qed.

Lemma elem_of_file_blocks v ip b : b ∈ file_blocks v ip ↔ b ≠ 0 ∧ ∃ s, (s < NSLOT)%nat ∧ saddr g0 v ip s = b.
Proof.
  unfold file_blocks. rewrite elem_of_list_to_set, elem_of_nonzero. split; intros [Hb (s & Hs & E)]; (split; [done|]); exists s; (split; [lia|done]).
Qed.

Lemma slots_data v ip a n : file_ok g0 sb v ip → (a + n ≤ NSLOT)%nat →
  Forall (data_block v) (nonzero (saddr g0 v ip <$> seq a n)) ∧ NoDup (nonzero (saddr g0 v ip <$> seq a n)).
Proof.
  intros Hf Hl. split.
  - apply Forall_forall. intros b [Hb (s & Hs & <-)]%elem_of_nonzero. destruct (fo_good _ _ _ _ Hf s) as (? & ? & ? & _); [lia|done|]. split; [done|by split].
  - apply nonzero_NoDup. intros i j Hi Hj. apply (fo_inj _ _ _ _ Hf); lia.
Qed.

Lemma direct_slots v ip : file_ok g0 sb v ip → take 12 (addrs ip) = saddr g0 v ip <$> seq 0 12.
Proof.
  intros Hf. pose proof (fo_len _ _ _ _ Hf) as Hl. apply list_eq. intros k. destruct (decide (k < 12)%nat) as [Hk|Hk].
  - rewrite lookup_take_lt, list_lookup_fmap, lookup_seq_lt by lia. cbn [fmap option_fmap option_map]. unfold saddr.
    rewrite decide_True by lia. destruct (lookup_lt_is_Some_2 (addrs ip) k) as [y Hy]; [lia|]. by rewrite Hy, (list_lookup_total_correct _ _ _ Hy).
  - rewrite !lookup_ge_None_2; [done|rewrite length_fmap, length_seq; lia|rewrite length_take; lia].
Qed.

Lemma indirect_slots v ip : addrs ip !!! 12%nat ≠ 0 →
  get32 (v !!! key (addrs ip !!! 12%nat)) <$> seq 0 128 = saddr g0 v ip <$> seq 13 128.
Proof.
  intros Ha. replace (seq 13 128) with (Nat.add 13 <$> seq 0 128) by apply (fmap_add_seq 13 0). rewrite <- list_fmap_compose. apply list_fmap_ext. intros k j Hj. cbn [compose].
  unfold saddr. rewrite decide_False, decide_False by (done || lia). f_equal. lia.
Qed.

(** The blocks: direct, in the indirect block, and the indirect block. *)
Lemma file_blocks_parts v ip : file_ok g0 sb v ip →
  file_blocks v ip = list_to_set (nonzero (saddr g0 v ip <$> seq 0 12)) ∪
    (if decide (addrs ip !!! 12%nat = 0) then ∅ else list_to_set (nonzero (saddr g0 v ip <$> seq 13 128)) ∪ {[addrs ip !!! 12%nat]}).
Proof.
  intros Hf. apply set_eq. intros b. rewrite elem_of_union, elem_of_list_to_set, elem_of_nonzero, elem_of_file_blocks. case_decide as E12.
  - rewrite elem_of_empty. split.
    + intros [Hb (s & Hs & <-)]. left. split; [done|]. exists s. split; [|done]. unfold saddr, NSLOT in *.
      destruct (decide (s < 12)%nat); [lia|]. exfalso. apply Hb. case_decide; [by replace s with 12%nat by lia|]. by rewrite decide_True.
    + intros [[Hb (s & Hs & <-)]|[]]. split; [done|]. exists s. split; [unfold NSLOT; lia|done].
  - rewrite elem_of_union, elem_of_list_to_set, elem_of_nonzero, elem_of_singleton. split.
    + intros [Hb (s & Hs & <-)]. unfold NSLOT in Hs. destruct (decide (s < 12)%nat) as [?|?]; [left; split; [done|]; exists s; split; [lia|done]|].
      right. destruct (decide (s = 12%nat)) as [->|?]; [by right|left]. split; [done|]. exists s. split; [lia|done].
    + unfold NSLOT. intros [[Hb (s & Hs & <-)]|[[Hb (s & Hs & <-)]| ->]].
      * split; [done|]. exists s. split; [lia|done].
      * split; [done|]. exists s. split; [lia|done].
      * split; [done|]. exists 12%nat. split; [lia|done].
Qed.

(** The direct blocks. *)
Lemma trunc_direct_spec c g v ip : sees c g v ∅ → fs_inv g0 sb v → file_ok g0 sb v ip → room g0 g 2 →
  ∃ c' g' v', trunc_direct sb c g ip 0 12 = Ok (zeroed ip 0 12, c', g') ∧ with_bm g g' ∧ sees c' g' v' ∅ ∧
    freed v v' (list_to_set (nonzero (saddr g0 v ip <$> seq 0 12))).
Proof using BL HL FL.
  intros Hs Hi Hf Hr. change 0 with (Z.of_nat 0) at 1.
  rewrite trunc_direct_list by (first [apply (fo_dev _ _ _ _ Hf)|rewrite (fo_len _ _ _ _ Hf); lia]).
  rewrite drop_0, (direct_slots v ip Hf). destruct (slots_data v ip 0 12 Hf ltac:(unfold NSLOT; lia)) as [Hd Hnd].
  destruct (free_list_spec g _ Hr c g v ∅ (or_introl eq_refl) Hs Hi Hd Hnd) as (c' & g' & v' & E & Hg & Hs' & Hfr);
    [rewrite map_size_empty; lia|intros i; by rewrite lookup_empty|]. rewrite E, bind_Ok. by exists c', g', v'.
Qed.

(** The indirect block and the blocks in it. *)
Lemma trunc_rest_spec c g g1 v0 v ip : room g0 g 2 → with_bm g g1 → sees c g1 v ∅ → file_ok g0 sb v0 ip →
  freed v0 v (list_to_set (nonzero (saddr g0 v0 ip <$> seq 0 12))) → let a := addrs ip !!! 12%nat in a ≠ 0 →
  ∃ c' g' v',
    ('(bp, c) ← c_bread c (dev g0, a);
     x ← c_data c bp;
     '(c, g) ← trunc_indirect sb c g1 (dev g0) x 0 128;
     c ← c_brelse c bp;
     bfree sb c g (dev g0) a) = Ok (c', g') ∧ with_bm g g' ∧ sees c' g' v' ∅ ∧ freed v0 v' (file_blocks v0 ip).
Proof using BL HL FL.
  intros Hr Hg Hs Hf Hfr a Ha. assert (12 < NSLOT)%nat as H12 by (unfold NSLOT; lia).
  destruct (good_block g0 sb v0 ip 12 Hf H12 Ha) as [Hoka Habm]. change (saddr g0 v0 ip 12) with a in Hoka, Habm.
  destruct (fo_good _ _ _ _ Hf 12 H12 Ha) as (Har & Hau & Ham & _). change (saddr g0 v0 ip 12) with a in Har, Hau, Ham.
  assert (room g0 g1 1) as Hr1 by (by eapply with_bm_room).
  destruct (fs_bread g0 HL c g1 v ∅ a Hs Hoka) as (i & c1 & E1 & _ & Hs1); [intros i; by rewrite lookup_empty|by eapply room_le; [|done]; lia|rewrite map_size_empty; lia|].
  rewrite insert_empty in Hs1. assert (({[i := key a]} : gmap nat bkey) !! i = Some (key a)) as Hia by apply lookup_singleton_eq.
  rewrite E1, bind_Ok, (fs_data g0 _ _ _ _ i a Hs1 Hia), bind_Ok, trunc_indirect_list, (fr_keep _ _ _ Hfr a Habm).
  pose proof (indirect_slots v0 ip Ha) as Eind. fold a in Eind. rewrite Eind.
  destruct (slots_data v0 ip 13 128 Hf ltac:(unfold NSLOT; lia)) as [Hd Hnd].
  assert (∀ b s, (13 ≤ s)%nat ∨ s = 12%nat → (s < NSLOT)%nat → saddr g0 v0 ip s = b → data_block v0 b → b ≠ 0 → data_block v b) as Hstill.
  { intros b s Hs' Hlt Eb (Hb1 & Hb2 & Hb3) Hb0. split; [done|]. split; [|done]. apply (fr_used _ _ _ Hfr b Hb1). split; [done|].
    rewrite elem_of_list_to_set, elem_of_nonzero. intros [_ (s' & Hlt' & E')].
    assert (s = s') by (apply (fo_inj _ _ _ _ Hf); [done|unfold NSLOT; lia|congruence|congruence]). lia. }
  destruct (free_list_spec g (saddr g0 v0 ip <$> seq 13 128) Hr c1 g1 v _ Hg Hs1 (fr_inv _ _ _ Hfr)) as (c2 & g2 & v2 & E2 & Hg2 & Hs2 & Hfr2).
  { apply Forall_forall. intros b Hb. pose proof (proj1 (Forall_forall _ _) Hd b Hb) as Hdb. apply elem_of_nonzero in Hb as [Hb0 (s & Hlt & Eb)].
    apply (Hstill b s); [by left; lia|unfold NSLOT; lia|done|done|done]. }
  { exact Hnd. }
  { rewrite map_size_singleton. lia. }
  { intros j [_ E]%lookup_singleton_Some. injection E. congruence. }
  rewrite E2, bind_Ok. destruct (fs_brelse g0 c2 g2 v2 _ i a Hs2 Hia) as (c3 & E3 & Hs3). rewrite delete_singleton_eq in Hs3. rewrite E3, bind_Ok.
  assert (data_block v2 a) as Hda.
  { split; [done|]. split; [|done]. apply (fr_used _ _ _ Hfr2 a Har). split.
    - apply (Hstill a 12%nat); [by right|done|done|by split|done].
    - rewrite elem_of_list_to_set, elem_of_nonzero. intros [_ (s' & Hlt' & E')].
      assert (12 = s')%nat by (apply (fo_inj _ _ _ _ Hf); [done|unfold NSLOT; lia|done|symmetry; exact E']). lia. }
  destruct (bfree_spec c3 g2 v2 ∅ a Hs3 (fr_inv _ _ _ Hfr2) Hda) as (c4 & v4 & E4 & Hs4 & Hfr4);
    [by eapply with_bm_room|rewrite map_size_empty; lia|intros j; by rewrite lookup_empty|].
  exists c4, (logs g [bm]), v4. rewrite (with_bm_again g g2 Hg2) in *. split_and!; [done|by right|done|].
  rewrite (file_blocks_parts v0 ip Hf), decide_False by done. fold a.
  eapply freed_trans; [done|]. eapply freed_trans; done.
Qed.

Lemma zeroed_all ip : length (addrs ip) = 13%nat → addrs (zeroed ip 0 13) = replicate 13 0.
Proof. intros Hl. unfold zeroed, set_addrs. cbn [addrs]. rewrite take_0, drop_ge by (rewrite Hl; done). by rewrite app_nil_r. Qed.

Lemma zeroed_direct ip : length (addrs ip) = 13%nat → addrs (zeroed ip 0 12) = replicate 12 0 ++ [addrs ip !!! 12%nat].
Proof.
  intros Hl. unfold zeroed, set_addrs. cbn [addrs]. rewrite take_0. cbn [app Nat.add]. f_equal.
  destruct (lookup_lt_is_Some_2 (addrs ip) 12) as [a Ha]; [lia|]. rewrite (drop_S _ a 12 Ha), (drop_ge _ 13), (list_lookup_total_correct _ _ _ Ha) by lia. done.
Qed.

(** A file without blocks. *)
Lemma empty_saddr v ip n s : length (addrs ip) = 13%nat → saddr g0 v (set_size n (zeroed ip 0 13)) s = 0.
Proof.
  intros Hl. unfold saddr. change (addrs (set_size n (zeroed ip 0 13))) with (addrs (zeroed ip 0 13)). rewrite (zeroed_all ip Hl).
  case_decide as Hs; [|by rewrite decide_True]. rewrite list_lookup_total_alt, lookup_replicate_2 by done. done.
Qed.

Lemma empty_file_ok v v' ip n : file_ok g0 sb v ip → file_ok g0 sb v' (set_size n (zeroed ip 0 13)).
Proof.
  intros Hf. pose proof (λ w s, empty_saddr w ip n s (fo_len _ _ _ _ Hf)) as Hz. split.
  - apply (fo_dev _ _ _ _ Hf).
  - apply (fo_inum _ _ _ _ Hf).
  - change (addrs (set_size n (zeroed ip 0 13))) with (addrs (zeroed ip 0 13)). by rewrite (zeroed_all ip (fo_len _ _ _ _ Hf)).
  - intros s _ Hn. by rewrite Hz in Hn.
  - intros s s' _ _ Hn. by rewrite Hz in Hn.
Qed.

(** The second half of [itrunc]. *)
Lemma itrunc_rest c g g1 v0 v ip : room g0 g 2 → with_bm g g1 → sees c g1 v ∅ → file_ok g0 sb v0 ip →
  freed v0 v (list_to_set (nonzero (saddr g0 v0 ip <$> seq 0 12))) → let a := addrs ip !!! 12%nat in
  ∃ c' g' v',
    (if a =? 0 then Ok (c, g1)
     else
       '(bp, c) ← c_bread c (dev g0, a);
       x ← c_data c bp;
       '(c, g) ← trunc_indirect sb c g1 (dev g0) x 0 128;
       c ← c_brelse c bp;
       bfree sb c g (dev g0) a) = Ok (c', g') ∧ with_bm g g' ∧ sees c' g' v' ∅ ∧ freed v0 v' (file_blocks v0 ip).
Proof using BL HL FL.
  intros Hr Hg Hs Hf Hfr a. destruct (Z.eqb_spec a 0) as [E0|Hn].
  - exists c, g1, v. split_and!; [done..|]. rewrite (file_blocks_parts v0 ip Hf), decide_True, (right_id_L ∅ _) by done. done.
  - destruct (trunc_rest_spec c g g1 v0 v ip Hr Hg Hs Hf Hfr Hn) as (c2 & g2 & v2 & E2 & Hrest). by exists c2, g2, v2.
Qed.

Lemma itrunc_bind (c : C) (g : log) (a : Z) (ip1 ip2 : inode) (c' : C) (g' : log) :
  (if a =? 0 then Ok (c, g)
   else
     '(bp, c) ← c_bread c (dev g0, a);
     x ← c_data c bp;
     '(c, g) ← trunc_indirect sb c g (dev g0) x 0 128;
     c ← c_brelse c bp;
     bfree sb c g (dev g0) a) = Ok (c', g') →
  (if a =? 0 then Ok (ip1, c, g)
   else
     '(bp, c) ← c_bread c (dev g0, a);
     x ← c_data c bp;
     '(c, g) ← trunc_indirect sb c g (dev g0) x 0 (Z.to_nat NINDIRECT);
     c ← c_brelse c bp;
     '(c, g) ← bfree sb c g (dev g0) a;
     Ok (ip2, c, g)) = Ok (if a =? 0 then ip1 else ip2, c', g').
Proof.
  destruct (a =? 0); [by intros [= <- <-]|]. intros E. apply bind_Ok_inv in E as ([bp c1] & -> & E). rewrite bind_Ok.
  apply bind_Ok_inv in E as (x & -> & E). rewrite bind_Ok. change (Z.to_nat NINDIRECT) with 128%nat.
  apply bind_Ok_inv in E as ([c2 g2] & -> & E). rewrite bind_Ok. apply bind_Ok_inv in E as (c3 & -> & E). rewrite bind_Ok. by rewrite E.
Qed.

(** [itrunc] gives every block of the file back. *)
Lemma itrunc_spec c g v ip : sees c g v ∅ → fs_inv g0 sb v → file_ok g0 sb v ip → room g0 g 2 →
  length (v !!! key (IBLOCK sb (inum ip))) = BSIZE →
  ∃ c' g' v', itrunc sb c g ip = Ok (set_size 0 (zeroed ip 0 13), c', g') ∧ sees c' g' v' ∅ ∧ fs_inv g0 sb v' ∧
    frees v' = frees v ∪ file_blocks v ip ∧ dinode_at g0 sb v' (inum ip) = dinode_bytes (set_size 0 (zeroed ip 0 13)) ∧
    inodes_kept g0 sb v v' (inum ip) ∧ (∃ bl, g' = logs g bl ∧ (length bl ≤ 2)%nat) ∧ ∀ b, b ≠ bm → b ≠ IBLOCK sb (inum ip) → v' !!! key b = v !!! key b.
Proof using BL HL FL.
  intros Hs Hi Hf Hr Hl. unfold itrunc. change (Z.to_nat NDIRECT) with 12%nat.
  destruct (trunc_direct_spec c g v ip Hs Hi Hf Hr) as (c1 & g1 & v1 & E1 & Hg1 & Hs1 & Hfr1). rewrite E1, bind_Ok.
  pose proof (fo_len _ _ _ _ Hf) as Hlen. set (ip1 := zeroed ip 0 12).
  assert (addrs ip1 = replicate 12 0 ++ [addrs ip !!! 12%nat]) as Ez by (by apply zeroed_direct).
  assert (addr_at ip1 NDIRECT = addrs ip !!! 12%nat) as Ea by (unfold addr_at; by rewrite Ez).
  assert (set_addr NDIRECT 0 ip1 = zeroed ip 0 13) as Esa.
  { unfold set_addr. rewrite Ez. change (<[Z.to_nat NDIRECT:=0]> (replicate 12 0 ++ [addrs ip !!! 12%nat])) with (replicate 13 0).
    unfold zeroed, set_addrs. f_equal. rewrite take_0, drop_ge by (rewrite Hlen; done). by rewrite app_nil_r. }
  assert (i_dev ip1 = dev g0) as Ed by apply (fo_dev _ _ _ _ Hf).
  rewrite Ea, Ed, Esa. destruct (itrunc_rest c1 g g1 v v1 ip Hr Hg1 Hs1 Hf Hfr1) as (c2 & g2 & v2 & E2 & Hg2 & Hs2 & Hfr2).
  assert ((if addrs ip !!! 12%nat =? 0 then ip1 else zeroed ip 0 13) = zeroed ip 0 13) as Eip.
  { destruct (Z.eqb_spec (addrs ip !!! 12%nat) 0) as [E0|_]; [|done]. rewrite <- Esa. unfold set_addr.
    rewrite list_insert_id by (rewrite Ez, E0; done). done. }
  rewrite (itrunc_bind _ _ _ ip1 (zeroed ip 0 13) c2 g2 E2), Eip, bind_Ok. cbn zeta.
  destruct (inode_block_meta g0 sb FL ip v Hf) as [Hmb Hbm].
  assert (file_ok g0 sb v2 (set_size 0 (zeroed ip 0 13))) as Hf2 by (by apply (empty_file_ok v v2)).
  destruct (iupdate_spec g0 HL sb FL c2 g2 v2 (set_size 0 (zeroed ip 0 13)) Hs2 Hf2) as (c3 & E3 & Hs3 & Edi & Hk3);
    [by eapply with_bm_room|change (inum (set_size 0 (zeroed ip 0 13))) with (inum ip); by rewrite (fr_keep _ _ _ Hfr2 _ Hbm)|].
  change (inum (set_size 0 (zeroed ip 0 13))) with (inum ip) in *. rewrite E3, bind_Ok.
  destruct (store_meta g0 sb v2 (set_size 0 (zeroed ip 0 13)) (IBLOCK sb (inum ip))
    (splice (v2 !!! key (IBLOCK sb (inum ip))) (Z.to_nat (inum ip mod IPB) * DINODE) (dinode_bytes (set_size 0 (zeroed ip 0 13)))) (fr_inv _ _ _ Hfr2) Hf2 Hmb Hbm)
    as (Hi3 & _ & _ & _ & Ebm3).
  eexists c3, _, _. split_and!; [done|exact Hs3|done| |done| | |].
  - rewrite (free_blocks_ext g0 sb v2) by done. apply (fr_free _ _ _ Hfr2).
  - eapply inodes_kept_trans; [|exact Hk3]. intros j Hj. unfold dinode_at. rewrite (fr_keep _ _ _ Hfr2); [done|]. by apply (fl_ino _ _ FL).
  - destruct Hg2 as [-> | ->]; [eexists; split; [done|]; cbn; lia|]. rewrite logs_app. eexists. split; [done|]. cbn. lia.
  - intros b Hb Hib. unfold inode_put. rewrite lookup_total_insert_ne by (intros [=]; congruence). by apply (fr_keep _ _ _ Hfr2).
Qed.
End trunc.
