(* ===== verification/File.v ===== *)
(** Reading and writing open files (src/p4/file.c): [fileread] and [filewrite] over inodes and pipes.

    An open file holds its pipe or its inode.  A write to an inode is cut into pieces that fit in a transaction
    of the log, each one between [begin_op] and [end_op].  [begin_op] and a pipe operation
    that would sleep are a [Fault].  The table of open files is not modelled here.

    The theorems are about a file system at rest: no transaction is open, and the cache shows [v]. *)

From Stdlib Require Import ZArith Lia.
From stdpp Require Import base numbers list gmap fin_sets sets strings.
From S2P Require Import Prelude Bio Log LogCrash Fs FsSpec Pipe.
#[local] Open Scope Z_scope.

Inductive fdtype := FD_NONE | FD_PIPE (p : pipe) | FD_INODE (ip : inode).

Record file := File { f_type : fdtype; readable : bool; writable : bool; f_off : Z }.

Definition set_ip (ip : inode) (off : Z) (f : file) : file := File (FD_INODE ip) (readable f) (writable f) off.
Definition set_pipe (p : pipe) (f : file) : file := File (FD_PIPE p) (readable f) (writable f) (f_off f).

(** [int max = ((MAXOPBLOCKS-1-1-2) / 2) * 512;] *)
Definition maxwrite : Z := (MAXOPBLOCKS - 1 - 1 - 2) / 2 * 512.

Section file.
Context {C : Type} `{BufOps C} (sb : superblock).
Context (devsw_read : Z → option (C → log → inode → Z → outcome (Z * list Z * inode * C * log))).
Context (devsw_write : Z → option (C → log → inode → list Z → outcome (Z * inode * C * log))).

(** The result, the bytes stored at [addr], the file. *)
Definition fileread (c : C) (g : log) (f : file) (n : Z) (killed : bool) : outcome (Z * list Z * file * C * log) :=
  if negb (readable f) then Ok (-1, [], f, c, g)
  else match f_type f with
  | FD_PIPE p =>
      match piperead p (Z.to_nat n) killed with
      | (p', l, Return r _) => Ok (r, l, set_pipe p' f, c, g)
      | (_, _, Sleep _) => Fault 0
      end
  | FD_INODE ip =>
      '(ip, c) ← ilock sb c ip;
      '(r, l, ip, c, g) ← readi sb devsw_read c g ip (f_off f) (u32 n);
      let off := if 0 <? r then u32 (f_off f + r) else f_off f in
      ip ← iunlock ip;
      Ok (r, l, set_ip ip off f, c, g)
  | FD_NONE => Panic "fileread"
  end.

(** The loop of [filewrite]; [src] is what is left of the [n] bytes, [i] what is written. *)
Fixpoint filewrite_loop (c : C) (g : log) (ip : inode) (off : Z) (src : list Z) (i n : Z) (fuel : nat) : outcome (Z * inode * Z * C * log) :=
  if i <? n then
    match fuel with
    | O => NoFuel
    | S fuel' =>
        let n1 := if maxwrite <? n - i then maxwrite else n - i in
        match begin_op g with
        | None => Fault 0
        | Some g =>
            '(ip, c) ← ilock sb c ip;
            '(r, ip, c, g) ← writei sb devsw_write c g ip (take (Z.to_nat n1) src) off;
            let off := if 0 <? r then u32 (off + r) else off in
            ip ← iunlock ip;
            '(c, g) ← end_op c g;
            if r <? 0 then Ok (i, ip, off, c, g)
            else if negb (r =? n1) then Panic "short filewrite"
            else filewrite_loop c g ip off (drop (Z.to_nat r) src) (i + r) n fuel'
        end
    end
  else Ok (i, ip, off, c, g).

Definition filewrite (c : C) (g : log) (f : file) (src : list Z) (killed : bool) : outcome (Z * file * C * log) :=
  let n := Z.of_nat (length src) in
  if negb (writable f) then Ok (-1, f, c, g)
  else match f_type f with
  | FD_PIPE p =>
      match pipewrite p src n killed with
      | (p', _, Return r _) => Ok (r, set_pipe p' f, c, g)
      | (_, _, Sleep _) => Fault 0
      end
  | FD_INODE ip =>
      '(i, ip, off, c, g) ← filewrite_loop c g ip (f_off f) src 0 n (length src);
      Ok (if i =? n then n else -1, set_ip ip off f, c, g)
  | FD_NONE => Panic "filewrite"
  end.
End file.

(** * The specification: an array of bytes *)

(** The content [l] with [x] written at [o]. *)
Definition write_at (l : list Z) (o : nat) (x : list Z) : list Z := take o l ++ x ++ drop (o + length x) l.

Inductive file_op := Wr (src : list Z) | Rd (n : nat).

(** The result of a call, the bytes it returns, and the content and offset it leaves. *)
Definition spec_op (l : list Z) (off : nat) (op : file_op) : Z * list Z * list Z * nat :=
  match op with
  | Wr src => (Z.of_nat (length src), [], write_at l off src, (off + length src)%nat)
  | Rd n => let x := take n (drop off l) in (Z.of_nat (length x), x, l, (off + length x)%nat)
  end.

Fixpoint spec_ops (l : list Z) (off : nat) (ops : list file_op) : list (Z * list Z) * list Z * nat :=
  match ops with
  | [] => ([], l, off)
  | op :: ops' =>
      let '(r, x, l, off) := spec_op l off op in
      let '(rs, l, off) := spec_ops l off ops' in ((r, x) :: rs, l, off)
  end.

Section calls.
Context {C : Type} `{BufOps C} (sb : superblock).
Context (devsw_read : Z → option (C → log → inode → Z → outcome (Z * list Z * inode * C * log))).
Context (devsw_write : Z → option (C → log → inode → list Z → outcome (Z * inode * C * log))).

Definition do_op (c : C) (g : log) (f : file) (op : file_op) : outcome (Z * list Z * file * C * log) :=
  match op with
  | Wr src => '(r, f, c, g) ← filewrite sb devsw_write c g f src false; Ok (r, [], f, c, g)
  | Rd n => fileread sb devsw_read c g f (Z.of_nat n) false
  end.

Fixpoint do_ops (c : C) (g : log) (f : file) (ops : list file_op) : outcome (list (Z * list Z) * file * C * log) :=
  match ops with
  | [] => Ok ([], f, c, g)
  | op :: ops' =>
      '(r, x, f, c, g) ← do_op c g f op;
      '(rs, f, c, g) ← do_ops c g f ops';
      Ok ((r, x) :: rs, f, c, g)
  end.
End calls.

(** The bytes written by [ops], and the pieces they are cut into. *)
Definition op_bytes (op : file_op) : nat := match op with Wr src => length src | Rd _ => 0 end.
Definition pieces (n : nat) : nat := ((n + 1535) / 1536)%nat.
Definition op_pieces (op : file_op) : nat := match op with Wr src => pieces (length src) | Rd _ => 0 end.
Definition op_ok (op : file_op) : Prop := match op with Wr _ => True | Rd n => Z.of_nat n < 2 ^ 31 end.

Section filespec.
Context {C : Type} `{BL : BufLaws C cview} (g0 : log) (HL : layout g0) (Hid : idle g0).

(** The file system at rest. *)
Definition at_rest (c : C) (v : disk_map) : Prop := ∃ d, cview c (CAbs v d ∅ ∅).

(** The log inside the only transaction. *)
Definition g1 : log := set_outstanding (0 + 1) g0.

(** [v] and [v'] show the same blocks outside of the log. *)
Definition agree (v v' : disk_map) : Prop := ∀ b, home_ok g0 b → v' !!! home_key g0 b = v !!! home_key g0 b.

Lemma begin_sees c v : at_rest c v → begin_op g0 = Some g1 ∧ sees (cview := cview) g0 c g1 v ∅.
Proof using BL Hid.
  intros (d & Hc). destruct Hid as (Hout & Hcom & Hlh). split.
  - unfold begin_op. rewrite Hcom, Hlh, Hout. done.
  - unfold g1. split; cbn [set_outstanding dev start lsize outstanding lh]; rewrite ?Hlh; try done; [constructor|].
    exists d. split; [done|]. intros k Hk. apply (law_clean (cview := cview) c _ k Hc); [done|]. intros i. cbn [held]. by rewrite lookup_empty.
Qed.

Lemma end_sees c v bl : sees (cview := cview) g0 c (logs g1 bl) v ∅ → (length (lh (logs g1 bl)) < NBUF)%nat →
  Z.of_nat (length (lh (logs g1 bl))) < lsize g0 →
  ∃ c' v', end_op c (logs g1 bl) = Ok (c', g0) ∧ at_rest c' v' ∧ agree v v'.
Proof using BL HL Hid.
  intros [_ Hok Hnd (d & Hc & Hcl)] Hl1 Hl2. destruct Hid as (Hout & Hcom & Hlh). set (l := lh (logs g1 bl)) in *.
  unfold end_op, end_op_start. cbn [logs g1 set_lh set_outstanding committing outstanding]. rewrite Hcom.
  replace (0 + 1 - 1) with 0 by lia. rewrite Z.eqb_refl, bind_Ok.
  set (g2 := set_committing true _).
  assert (∀ x, set_committing false (set_lh [] g2) = x → x = g0) as Eg.
  { intros x <-. unfold g2, set_committing, set_lh, set_outstanding. cbn. destruct g0; cbn in *; congruence. }
  destruct (decide (l = [])) as [El|El].
  - exists c, v. unfold commit. change (lh g2) with l. rewrite El. cbn [length]. change (0 <? Z.of_nat 0) with false. cbn iota.
    rewrite bind_Ok. split_and!; [|by exists d; rewrite El in Hc|done]. do 2 f_equal. rewrite <- (Eg _ eq_refl).
    unfold set_committing, set_lh. cbn. f_equal. exact El.
  - destruct (commit_spec g0 HL c g2 v d l) as (c' & v' & E & Hc' & _); [done..|].
    rewrite E, bind_Ok. exists c', v'. split_and!; [by rewrite (Eg _ eq_refl)|by eexists|].
    intros b Hb. pose proof (law_clean (cview := cview) c' _ (home_key g0 b) Hc') as Ev. cbn [view dsk held pins] in Ev.
    rewrite Ev; [|set_solver|intros i; by rewrite lookup_empty]. rewrite commit_writes_home by done. case_decide as Hin; [done|].
    symmetry. apply Hcl. intros (b' & [= ->] & Hb')%logged_inv. done.
Qed.

(** ** Blocks outside of the log decide *)

Context (sb : superblock) (FL : fs_layout g0 sb).

Section agree.
Context (v v' : disk_map) (Hag : agree v v').

Lemma agree_bm : v' !!! home_key g0 (sb_bmapstart sb) = v !!! home_key g0 (sb_bmapstart sb).
Proof using FL Hag. apply Hag, FL. Qed.

Lemma agree_fs_inv : fs_inv g0 sb v → fs_inv g0 sb v'.
Proof using FL Hag.
  intros [Hl Hm]. split; [by rewrite agree_bm|]. intros b Hb Hmb. unfold used. rewrite agree_bm. by apply Hm.
Qed.

Lemma agree_saddr ip s : file_ok g0 sb v ip → (s < NSLOT)%nat → saddr g0 v' ip s = saddr g0 v ip s.
Proof using Hag.
  intros Hf Hs. unfold saddr. case_decide; [done|]. case_decide as E12; [done|].
  destruct (good_block g0 sb v ip 12 Hf) as [Hok _]; [unfold NSLOT; lia|done|].
  change (saddr g0 v ip 12) with (addrs ip !!! 12%nat) in Hok. by rewrite (Hag _ Hok).
Qed.

Lemma agree_file_ok ip : file_ok g0 sb v ip → file_ok g0 sb v' ip.
Proof using FL Hag.
  intros Hf. pose proof (λ s, agree_saddr ip s Hf) as Hsa. split; [apply Hf..| |].
  - intros s Hs Hn. rewrite Hsa in * by done. destruct (fo_good _ _ _ _ Hf s Hs Hn) as (Hr & Hu & Hm & Hl).
    destruct (good_block g0 sb v ip s Hf Hs Hn) as [Hok _]. split_and!; [lia|lia|unfold used; by rewrite agree_bm|done|].
    by rewrite (Hag _ Hok).
  - intros s1 s2 H1 H2. rewrite !Hsa by done. by apply (fo_inj _ _ _ _ Hf).
Qed.

Lemma agree_faddr ip x : file_ok g0 sb v ip → (x < MAXBYTES)%nat → faddr g0 v' ip x = faddr g0 v ip x.
Proof using Hag. intros Hf Hx. by apply agree_saddr, slot_lt, block_lt. Qed.

Lemma agree_content ip : file_ok g0 sb v ip → sized g0 v ip → sized g0 v' ip ∧ fcontent g0 v' ip = fcontent g0 v ip.
Proof using Hag.
  intros Hf [Hsz Ha]. split.
  - split; [done|]. intros x Hx. rewrite agree_faddr by (done || lia). by apply Ha.
  - apply list_fmap_ext. intros k x [-> Hk]%lookup_seq. unfold fbyte. rewrite agree_faddr by (done || lia).
    destruct (good_block g0 sb v ip (slot ((0 + k) / BSIZE)) Hf) as [Hok _]; [apply slot_lt, block_lt; lia|by apply Ha|].
    fold (faddr g0 v ip (0 + k)) in Hok. by rewrite (Hag _ Hok).
Qed.

Lemma agree_free : free_blocks g0 sb v' = free_blocks g0 sb v.
Proof using FL Hag. apply free_blocks_ext, agree_bm. Qed.
End agree.

(** An open file's inode, between system calls. *)
Record ready (c : C) (v : disk_map) (ip : inode) : Prop := {
  rd_rest : at_rest c v;
  rd_inv : fs_inv g0 sb v;
  rd_file : file_ok g0 sb v ip;
  rd_sized : sized g0 v ip;
  rd_type : itype ip ≠ T_DEV;
  rd_ref : 1 <= i_ref ip;
  rd_unlocked : i_locked ip = false;
  rd_valid : i_valid ip = true;
  rd_iblock : length (v !!! home_key g0 (IBLOCK sb (inum ip))) = BSIZE }.

Lemma ilock_ready c v ip : ready c v ip → ilock sb c ip = Ok (set_ilocked true ip, c).
Proof. intros [_ _ _ _ _ Hr Hu Hv _]. unfold ilock. rewrite (proj2 (Z.ltb_ge _ _)), Hu by lia. cbn. by rewrite Hv. Qed.

Lemma iunlock_locked ip : i_locked ip = true → 1 <= i_ref ip → iunlock ip = Ok (set_ilocked false ip).
Proof. intros Hl Hr. unfold iunlock. rewrite Hl, (proj2 (Z.ltb_ge _ _)) by lia. done. Qed.

Lemma relock ip : i_locked ip = false → set_ilocked false (set_ilocked true ip) = ip.
Proof. destruct ip. cbn. by intros ->. Qed.

(** At most [MAXOPBLOCKS] blocks are logged by a write of [maxwrite] bytes: data blocks, the indirect block, the bitmap and
    the inode's block. *)
Lemma log_bound v ip bl o r ib : (∀ b, b ∈ bl → b = ib ∨
    touched g0 sb v ip (λ s, s = 12%nat ∨ ∃ j, (o / BSIZE ≤ j < o / BSIZE + nblk o r)%nat ∧ s = slot j) b) →
  lh g0 = [] → NoDup (lh (logs g1 bl)) → (length (lh (logs g1 bl)) ≤ 3 + nblk o r)%nat.
Proof.
  intros Hbl Hlh Hnd.
  assert (lh (logs g1 bl) ⊆ [ib; sb_bmapstart sb; saddr g0 v ip 12] ++ ((λ j, saddr g0 v ip (slot j)) <$> seq (o / BSIZE) (nblk o r))) as Hsub.
  { intros b Hb. assert (b ∈ bl) as Hin.
    { unfold logs in Hb. cbn [lh set_lh g1 set_outstanding] in Hb. rewrite Hlh in Hb. revert Hb.
      assert (∀ l, b ∈ foldl absorb l bl → b ∈ l ∨ b ∈ bl) as Hf; [|intros Hb; apply Hf in Hb as [Hb|Hb]; [by apply not_elem_of_nil in Hb|done]].
      clear. induction bl as [|x bl IH]; intros l Hb; cbn [foldl] in Hb; [by left|]. apply IH in Hb as [Hb|Hb]; [|right; by right].
      unfold absorb in Hb. case_decide; [by left|]. apply elem_of_app in Hb as [Hb|Hb]; [by left|]. apply list_elem_of_singleton in Hb as ->. right. by left. }
    apply elem_of_app. destruct (Hbl b Hin) as [->|[->|(s & [->|(j & Hj & ->)] & _ & E & _)]].
    - left. set_solver.
    - left. set_solver.
    - left. rewrite E. set_solver.
    - right. rewrite <- E. apply list_elem_of_fmap. exists j. split; [done|]. apply elem_of_seq. lia. }
  pose proof (submseteq_length _ _ (NoDup_submseteq _ _ Hnd Hsub)) as Hlen. rewrite length_app, length_fmap, length_seq in Hlen. exact Hlen.
Qed.

Lemma nblk_max o r : (r ≤ 1536)%nat → (nblk o r ≤ 4)%nat.
Proof.
  intros Hr. unfold nblk. case_decide; [lia|].
  assert ((o + r - 1) / BSIZE < o / BSIZE + 4)%nat; [|lia]. apply Nat.Div0.div_lt_upper_bound.
  pose proof (Nat.div_mod o BSIZE ltac:(done)). pose proof (Nat.mod_upper_bound o BSIZE ltac:(done)). unfold BSIZE in *. lia.
Qed.

Lemma write_at_app l o x y : (o ≤ length l)%nat → write_at (write_at l o x) (o + length x) y = write_at l o (x ++ y).
Proof.
  intros Ho. unfold write_at. rewrite length_app. rewrite (app_assoc (take o l) x (drop (o + length x) l)).
  assert (length (take o l ++ x) = o + length x)%nat as El by (rewrite length_app, length_take; lia).
  rewrite take_app_length' by done. rewrite drop_app_ge by lia. rewrite El, drop_drop.
  replace (o + length x + (o + length x + length y - (o + length x)))%nat with (o + (length x + length y))%nat by lia. by rewrite <- !app_assoc.
Qed.

Lemma file_ok_locked v ip x : file_ok g0 sb v ip → file_ok g0 sb v (set_ilocked x ip).
Proof. intros [H1 H2 H3 H4 H5]. by split. Qed.

Lemma others_kept_agree v ip v1 ip1 v' : agree v1 v' → file_ok g0 sb v1 ip1 → others_kept g0 sb v ip v1 ip1 → others_kept g0 sb v ip v' ip1.
Proof using FL.
  intros Hag Hf Hk b Hb Hu Hbm Hib Hs. destruct (Hk b Hb Hu Hbm Hib Hs) as (E & Hu1 & Hs1). split_and!.
  - by rewrite (Hag b Hb).
  - unfold used. by rewrite (agree_bm v1 v' Hag).
  - intros s Hlt. rewrite (agree_saddr v1 v' Hag) by done. by apply Hs1.
Qed.

Lemma others_kept_trans v ip v1 ip1 v2 ip2 : inum ip1 = inum ip → others_kept g0 sb v ip v1 ip1 → others_kept g0 sb v1 ip1 v2 ip2 →
  others_kept g0 sb v ip v2 ip2.
Proof.
  intros En H1 H2 b Hb Hu Hbm Hib Hs. destruct (H1 b Hb Hu Hbm Hib Hs) as (E1 & Hu1 & Hs1).
  destruct (H2 b Hb Hu1 Hbm ltac:(by rewrite En) Hs1) as (E2 & Hu2 & Hs2). split_and!; [congruence|done|done].
Qed.

(** One transaction of [filewrite]. *)
Lemma write_piece dw c v ip src off : 26 <= lsize g0 → ready c v ip → 0 <= off <= isize ip → (length src ≤ 1536)%nat →
  off + Z.of_nat (length src) <= Z.of_nat MAXBYTES → (8 ≤ size (free_blocks g0 sb v))%nat →
  ∃ ip1 ip2 c1 bl c' v', begin_op g0 = Some g1 ∧ ilock sb c ip = Ok (ip1, c) ∧
    writei sb dw c g1 ip1 src off = Ok (Z.of_nat (length src), ip2, c1, logs g1 bl) ∧
    (Z.of_nat (length (lh (logs g1 bl))) <= MAXOPBLOCKS) ∧ iunlock ip2 = Ok (set_ilocked false ip2) ∧
    end_op c1 (logs g1 bl) = Ok (c', g0) ∧ ready c' v' (set_ilocked false ip2) ∧
    isize ip2 = Z.max (isize ip) (off + Z.of_nat (length src)) ∧ inum ip2 = inum ip ∧
    fcontent g0 v' (set_ilocked false ip2) = write_at (fcontent g0 v ip) (Z.to_nat off) src ∧
    others_kept g0 sb v ip v' (set_ilocked false ip2) ∧ (size (free_blocks g0 sb v) ≤ size (free_blocks g0 sb v') + 8)%nat.
Proof using BL HL FL Hid.
  intros Hsz Hrd Ho Hl Hmax Hfree. pose proof Hrd as [Hrest Hinv Hf Hs Hty Href Hul Hval Hibl].
  destruct (begin_sees c v Hrest) as [Eb Hsee]. set (ip1 := set_ilocked true ip). set (o := Z.to_nat off) in *.
  pose proof (nblk_max o (length src) Hl) as Hnb. destruct Hid as (Hout & Hcom & Hlh).
  assert (room g0 g1 25) as Hroom by (unfold room; cbn [g1 set_outstanding lh outstanding]; rewrite Hlh; cbn [length]; lia).
  destruct (writei_spec g0 HL sb FL 2 dw c g1 v ip1 src off Hsee Hinv (file_ok_locked v ip true Hf) Hs Hty Hibl Ho Hmax)
    as (ip2 & c1 & v2 & bl & E2 & Hsee2 & Hinv2 & Hf2 & Hs2 & Esz & Ecn & Hok2 & Hfr2 & _ & _ & _ & Hbl & Hsame & Hibl2 & Htouch);
    [eapply room_le; [|exact Hroom]; fold o; lia|by left|fold o; lia|].
  destruct (same_inode_inv _ _ Hsame) as (_ & En & Ety & _).
  assert (i_ref ip2 = i_ref ip ∧ i_locked ip2 = true ∧ i_valid ip2 = true) as (Eref & Elk & Eva).
  { destruct Hsame as [Hsame _]. unfold set_addrs, set_size in Hsame. unfold ip1, set_ilocked in Hsame.
    cbn [i_dev inum i_ref i_locked i_valid itype major minor nlink isize] in Hsame. injection Hsame. intros. split_and!; congruence. }
  assert (length (lh (logs g1 bl)) ≤ 25)%nat as Hlen.
  { pose proof (logs_length g1 bl) as Hll. change (lh g1) with (lh g0) in Hll. rewrite Hlh in Hll. cbn [length] in Hll. fold o in Hbl. lia. }
  destruct (end_sees c1 v2 bl Hsee2) as (c' & v' & E3 & Hrest' & Hag); [unfold NBUF; lia|lia|].
  assert (file_ok g0 sb v2 (set_ilocked false ip2)) as Hf2' by (by apply file_ok_locked).
  destruct (agree_content v2 v' Hag (set_ilocked false ip2) Hf2' Hs2) as [Hs' Ecn'].
  exists ip1, ip2, c1, bl, c', v'. split_and!.
  - done.
  - by eapply ilock_ready.
  - done.
  - pose proof (log_bound v2 ip2 bl o (length src) (IBLOCK sb (inum ip)) Htouch Hlh (se_nodup _ _ _ _ _ Hsee2)). unfold MAXOPBLOCKS. lia.
  - apply iunlock_locked; [done|lia].
  - done.
  - split; cbn [set_ilocked itype i_ref i_locked i_valid inum]; rewrite ?Ety, ?Eref, ?En; try done.
    + by apply (agree_fs_inv v2).
    + by apply (agree_file_ok v2).
    + change (inum ip1) with (inum ip) in Hibl2. rewrite (Hag _); [done|]. apply (fl_ino _ _ FL), (fo_inum _ _ _ _ Hf).
  - done.
  - done.
  - rewrite Ecn'. exact Ecn.
  - by eapply others_kept_agree.
  - rewrite (agree_free v2 v' Hag). fold o in Hfr2. lia.
Qed.

Lemma pieces_step n m : (0 < n)%nat → m = Nat.min 1536 n → pieces n = S (pieces (n - m)).
Proof.
  intros Hn ->. unfold pieces. destruct (decide (n ≤ 1536)%nat) as [Hle|Hgt].
  - replace (n - 1536 `min` n)%nat with 0%nat by lia. change ((0 + 1535) / 1536)%nat with 0%nat. symmetry.
    apply (Nat.div_unique _ _ 1 (n - 1)); lia.
  - replace (n - 1536 `min` n)%nat with (n - 1536)%nat by lia.
    replace (n + 1535)%nat with (n - 1536 + 1535 + 1 * 1536)%nat by lia. rewrite Nat.div_add by lia. lia.
Qed.

Lemma filewrite_loop_spec dw r : ∀ fuel c v ip off src i n, 26 <= lsize g0 → ready c v ip → 0 <= off <= isize ip → length src = r →
  (r ≤ fuel)%nat → n - i = Z.of_nat r → off + Z.of_nat r <= Z.of_nat MAXBYTES → (8 * pieces r ≤ size (free_blocks g0 sb v))%nat →
  ∃ ip' c' v', filewrite_loop sb dw c g0 ip off src i n fuel = Ok (n, ip', off + Z.of_nat r, c', g0) ∧ ready c' v' ip' ∧
    isize ip' = Z.max (isize ip) (off + Z.of_nat r) ∧ inum ip' = inum ip ∧
    fcontent g0 v' ip' = write_at (fcontent g0 v ip) (Z.to_nat off) src ∧ others_kept g0 sb v ip v' ip' ∧
    (size (free_blocks g0 sb v) ≤ size (free_blocks g0 sb v') + 8 * pieces r)%nat.
Proof using BL HL FL Hid.
  induction r as [r IH] using lt_wf_ind. intros fuel c v ip off src i n Hsz Hrd Ho Hl Hfuel Hn Hmax Hfree.
  destruct r as [|r0].
  { exists ip, c, v. apply nil_length_inv in Hl as ->. split_and!.
    - destruct fuel; cbn [filewrite_loop]; rewrite (proj2 (Z.ltb_ge _ _)) by lia; rewrite Z.add_0_r; by replace n with i by lia.
    - done.
    - lia.
    - done.
    - unfold write_at. cbn [length app]. by rewrite Nat.add_0_r, take_drop.
    - intros b Hb Hu Hbm Hib Hs. done.
    - lia. }
  destruct fuel as [|fuel]; [lia|]. cbn [filewrite_loop]. rewrite (proj2 (Z.ltb_lt _ _)) by lia.
  set (m := Nat.min 1536 (S r0)). pose proof (pieces_step (S r0) m ltac:(lia) eq_refl) as Hp. rewrite Hp in Hfree.
  assert ((if maxwrite <? n - i then maxwrite else n - i) = Z.of_nat m) as ->.
  { change maxwrite with 1536. unfold m. destruct (Z.ltb_spec 1536 (n - i)); lia. }
  assert (1 ≤ m ≤ S r0 ∧ m ≤ 1536)%nat as [Hm1 Hm2] by (unfold m; lia). rewrite !Nat2Z.id.
  set (x := take m src). assert (length x = m) as Hx by (unfold x; rewrite length_take; lia).
  destruct (write_piece dw c v ip x off Hsz Hrd Ho) as (ip1 & ip2 & c1 & bl & c2 & v2 & Eb & El & Ew & _ & Eu & Ee & Hrd2 & Esz & En & Ecn & Hk & Hfr);
    [lia|rewrite Hx; lia|lia|]. rewrite Hx in *.
  rewrite Eb, El, bind_Ok, Ew, bind_Ok. rewrite (proj2 (Z.ltb_lt 0 (Z.of_nat m))) by lia.
  rewrite (u32_small (off + Z.of_nat m)) by (unfold is_u32, MAXBYTES, BSIZE in *; lia). rewrite Eu, bind_Ok, Ee, bind_Ok.
  rewrite (proj2 (Z.ltb_ge (Z.of_nat m) 0)), Z.eqb_refl, Nat2Z.id by lia. cbn [negb].
  set (ip3 := set_ilocked false ip2) in *. change (isize ip2) with (isize ip3) in Esz. change (inum ip2) with (inum ip3) in En.
  destruct (IH (S r0 - m)%nat ltac:(lia) fuel c2 v2 ip3 (off + Z.of_nat m) (drop m src) (i + Z.of_nat m) n) as (ip4 & c4 & v4 & E4 & Hrd4 & Esz4 & En4 & Ecn4 & Hk4 & Hfr4);
    [done|done|lia|rewrite length_drop; lia|lia|lia|lia|lia|].
  exists ip4, c4, v4. split_and!; [|done|lia|congruence| |by eapply others_kept_trans|lia].
  - rewrite E4. by replace (off + Z.of_nat m + Z.of_nat (S r0 - m)) with (off + Z.of_nat (S r0)) by lia.
  - rewrite Ecn4, Ecn. replace (Z.to_nat (off + Z.of_nat m)) with (Z.to_nat off + length x)%nat by lia.
    rewrite write_at_app by (rewrite length_content; lia). unfold x. by rewrite take_drop.
Qed.

(** ** Reading *)

Lemma rest_sees c v : at_rest c v ↔ sees (cview := cview) g0 c g0 v ∅.
Proof using BL Hid.
  destruct Hid as (Hout & Hcom & Hlh). split.
  - intros (d & Hc). split; rewrite ?Hlh; [done|constructor|constructor|]. exists d. split; [done|]. intros k Hk.
    apply (law_clean (cview := cview) c _ k Hc); [done|]. intros i. cbn [held]. by rewrite lookup_empty.
  - intros [_ _ _ (d & Hc & _)]. rewrite Hlh in Hc. by exists d.
Qed.

Lemma fileread_spec dr c v f ip n killed : f_type f = FD_INODE ip → readable f = true → ready c v ip → 0 <= f_off f <= isize ip →
  0 <= n < 2 ^ 31 →
  let m := Z.min n (isize ip - f_off f) in
  ∃ c', fileread sb dr c g0 f n killed =
      Ok (m, take (Z.to_nat m) (drop (Z.to_nat (f_off f)) (fcontent g0 v ip)), set_ip ip (f_off f + m) f, c', g0) ∧ ready c' v ip.
Proof using BL HL FL Hid.
  intros Ef Er Hrd Ho Hn m. unfold fileread. rewrite Er, Ef. cbn [negb]. rewrite (ilock_ready c v ip Hrd), bind_Ok.
  pose proof Hrd as [Hrest Hinv Hf Hs Hty Href Hul Hval Hib]. pose proof Hs as [Hsz _].
  assert (isize ip < 2 ^ 31) as Hs31 by (unfold MAXBYTES, BSIZE in Hsz; lia).
  destruct (readi_spec g0 HL sb FL dr c g0 v (set_ilocked true ip) (f_off f) n) as (c' & Hsee & E);
    [by apply rest_sees|by apply file_ok_locked|done|done| |unfold is_u32; lia|unfold is_u32; lia|].
  { destruct Hid as (_ & _ & Hlh). unfold room. rewrite Hlh. cbn [length]. pose proof (lo_size _ HL). lia. }
  rewrite (u32_small n) by (unfold is_u32; lia). rewrite E. change (isize (set_ilocked true ip)) with (isize ip). rewrite decide_True by lia. cbn zeta. fold m. rewrite bind_Ok.
  change (fcontent g0 v (set_ilocked true ip)) with (fcontent g0 v ip).
  assert ((if 0 <? m then u32 (f_off f + m) else f_off f) = f_off f + m) as ->.
  { destruct (Z.ltb_spec 0 m); [apply u32_small; unfold is_u32|]; lia. }
  rewrite (iunlock_locked (set_ilocked true ip)) by done. rewrite bind_Ok. exists c'.
  rewrite relock by done.
  split; [done|]. split; try done. by apply rest_sees.
Qed.

(** ** Sequences of calls *)

Lemma filewrite_spec dw c v f ip src killed : 26 <= lsize g0 → f_type f = FD_INODE ip → writable f = true → ready c v ip →
  0 <= f_off f <= isize ip → f_off f + Z.of_nat (length src) <= Z.of_nat MAXBYTES →
  (8 * pieces (length src) ≤ size (free_blocks g0 sb v))%nat →
  ∃ ip' c' v', filewrite sb dw c g0 f src killed =
      Ok (Z.of_nat (length src), set_ip ip' (f_off f + Z.of_nat (length src)) f, c', g0) ∧ ready c' v' ip' ∧
    isize ip' = Z.max (isize ip) (f_off f + Z.of_nat (length src)) ∧ inum ip' = inum ip ∧
    fcontent g0 v' ip' = write_at (fcontent g0 v ip) (Z.to_nat (f_off f)) src ∧ others_kept g0 sb v ip v' ip' ∧
    (size (free_blocks g0 sb v) ≤ size (free_blocks g0 sb v') + 8 * pieces (length src))%nat.
Proof using BL HL FL Hid.
  intros Hsz Ef Ew Hrd Ho Hmax Hfree. unfold filewrite. rewrite Ew, Ef. cbn [negb].
  destruct (filewrite_loop_spec dw (length src) (length src) c v ip (f_off f) src 0 (Z.of_nat (length src)))
    as (ip' & c' & v' & E & Hrd' & Hrest); [done..|lia|done|done|]. rewrite E, bind_Ok, Z.eqb_refl. by exists ip', c', v'.
Qed.

Lemma length_write_at l o x : (o ≤ length l)%nat → length (write_at l o x) = Nat.max (length l) (o + length x).
Proof. intros Ho. unfold write_at. rewrite !length_app, length_take, length_drop. lia. Qed.

Lemma do_ops_spec dr dw ops : ∀ c v f ip, 26 <= lsize g0 → f_type f = FD_INODE ip → readable f = true → writable f = true →
  ready c v ip → 0 <= f_off f <= isize ip → Forall op_ok ops →
  (Z.to_nat (isize ip) + sum_list (op_bytes <$> ops) ≤ MAXBYTES)%nat →
  (8 * sum_list (op_pieces <$> ops) ≤ size (free_blocks g0 sb v))%nat →
  let '(rs, l, off) := spec_ops (fcontent g0 v ip) (Z.to_nat (f_off f)) ops in
  ∃ f' c' v' ip', do_ops sb dr dw c g0 f ops = Ok (rs, f', c', g0) ∧ f_type f' = FD_INODE ip' ∧ ready c' v' ip' ∧
    fcontent g0 v' ip' = l ∧ f_off f' = Z.of_nat off ∧ inum ip' = inum ip ∧ others_kept g0 sb v ip v' ip'.
Proof using BL HL FL Hid.
  induction ops as [|op ops IH]; intros c v f ip Hsz Ef Er Ew Hrd Ho Hok Hmax Hfree.
  { cbn [spec_ops do_ops]. exists f, c, v, ip. split_and!; [done..|lia|done|]. intros b Hb Hu Hbm Hib Hs. done. }
  apply Forall_cons in Hok as [Hop Hok]. csimpl in Hmax. csimpl in Hfree. pose proof (length_content g0 v ip) as Hlc.
  destruct op as [src|n]; cbn [op_bytes op_pieces op_ok] in Hmax, Hfree, Hop; cbn [spec_ops spec_op do_ops do_op].
  - destruct (filewrite_spec dw c v f ip src false) as (ip1 & c1 & v1 & E1 & Hrd1 & Esz1 & En1 & Ecn1 & Hk1 & Hfr1); [done..|lia|lia|].
    set (f1 := set_ip ip1 (f_off f + Z.of_nat (length src)) f) in *.
    specialize (IH c1 v1 f1 ip1 Hsz eq_refl Er Ew Hrd1). rewrite Ecn1 in IH. cbn [f1 set_ip f_off] in IH.
    replace (Z.to_nat (f_off f + Z.of_nat (length src))) with (Z.to_nat (f_off f) + length src)%nat in IH by lia.
    destruct (spec_ops _ _ ops) as [[rs l] off]. destruct IH as (f2 & c2 & v2 & ip2 & E2 & Ef2 & Hrd2 & El2 & Eo2 & En2 & Hk2); [lia|done|lia|lia|].
    exists f2, c2, v2, ip2. rewrite E1, !bind_Ok, E2, bind_Ok. split_and!; [done..|congruence|by eapply others_kept_trans].
  - destruct (fileread_spec dr c v f ip (Z.of_nat n) false) as (c1 & E1 & Hrd1); [done..|lia|]. set (m := Z.min (Z.of_nat n) (isize ip - f_off f)) in *.
    set (x := take n (drop (Z.to_nat (f_off f)) (fcontent g0 v ip))).
    assert (length x = Z.to_nat m) as Hx by (unfold x, m; rewrite length_take, length_drop, Hlc; lia).
    assert (take (Z.to_nat m) (drop (Z.to_nat (f_off f)) (fcontent g0 v ip)) = x) as Ex.
    { unfold x. destruct (Z.min_spec (Z.of_nat n) (isize ip - f_off f)) as [[Hlt Em]|[Hge Em]]; unfold m; rewrite Em.
      - by rewrite Nat2Z.id.
      - rewrite !take_ge by (rewrite length_drop, Hlc; lia). done. }
    set (f1 := set_ip ip (f_off f + m) f) in *. specialize (IH c1 v f1 ip Hsz eq_refl Er Ew Hrd1). cbn [f1 set_ip f_off] in IH.
    replace (Z.to_nat (f_off f + m)) with (Z.to_nat (f_off f) + length x)%nat in IH by (rewrite Hx; unfold m; lia).
    destruct (spec_ops _ _ ops) as [[rs l] off]. destruct IH as (f2 & c2 & v2 & ip2 & E2 & Hrest); [unfold m; lia|done|lia|lia|].
    exists f2, c2, v2, ip2. rewrite E1, bind_Ok, E2, bind_Ok, Ex. replace m with (Z.of_nat (length x)) by (rewrite Hx; unfold m; lia). done.
Qed.
End filespec.
