(* ===== verification/FileThm.v ===== *)
(** Files as arrays of bytes: the theorems about [fileread] and [filewrite] (src/p4/file.c) on top of fs.c,
    log.c and bio.c, and a small file system to try them on. *)

From Stdlib Require Import ZArith Lia.
From stdpp Require Import base numbers list gmap fin_sets sets strings.
From S2P Require Import Prelude Bio Log LogCrash Fs FsSpec FsTrunc Pipe File.
#[local] Open Scope Z_scope.

(** A file is an array of bytes.  Take a file system at rest, a consistent bitmap and inode, and an open file.  Any sequence
    of [fileread] and [filewrite] calls whose bytes fit in the largest file, with enough free blocks, returns what the same calls
    on an array of bytes with an offset return, and leaves that array and that offset.  All layers run:
    blocks are allocated in the bitmap, the indirect block is extended, every piece is one transaction that is committed through the
    log and the cache, and nothing panics.  Every block in use that is not the file's, its inode's or the bitmap keeps its content. *)
Theorem file_refines_bytes g sb dr dw ops c v f ip : layout g → idle g → fs_layout g sb → 26 <= lsize g →
  f_type f = FD_INODE ip → readable f = true → writable f = true → ready (cview := binv) g sb c v ip → 0 <= f_off f <= isize ip →
  Forall op_ok ops → (Z.to_nat (isize ip) + sum_list (op_bytes <$> ops) ≤ MAXBYTES)%nat →
  (8 * sum_list (op_pieces <$> ops) ≤ size (free_blocks g sb v))%nat →
  let '(rs, l, off) := spec_ops (fcontent g v ip) (Z.to_nat (f_off f)) ops in
  ∃ f' c' v' ip', do_ops sb dr dw c g f ops = Ok (rs, f', c', g) ∧ f_type f' = FD_INODE ip' ∧ ready (cview := binv) g sb c' v' ip' ∧
    fcontent g v' ip' = l ∧ f_off f' = Z.of_nat off ∧ inum ip' = inum ip ∧ others_kept g sb v ip v' ip'.
Proof. intros HL Hid FL. by apply (do_ops_spec g HL Hid sb FL). Qed.

(** A piece of [filewrite] fits in a transaction.  On a consistent file system at rest, a write of at most [maxwrite] bytes at any
    offset of the file logs at most [MAXOPBLOCKS] blocks (data, indirect, bitmap and inode blocks), the room that
    [begin_op] has reserved for it; so the size that [filewrite] cuts its data into is right, and [end_op] commits. *)
Theorem filewrite_piece_fits g sb dw c v ip src off : layout g → idle g → fs_layout g sb → 26 <= lsize g →
  ready (cview := binv) g sb c v ip → 0 <= off <= isize ip → Z.of_nat (length src) <= maxwrite →
  off + Z.of_nat (length src) <= Z.of_nat MAXBYTES → (8 ≤ size (free_blocks g sb v))%nat →
  ∃ g1 ip1 ip2 c1 g2 c', begin_op g = Some g1 ∧ ilock sb c ip = Ok (ip1, c) ∧
    writei sb dw c g1 ip1 src off = Ok (Z.of_nat (length src), ip2, c1, g2) ∧
    Z.of_nat (length (lh g2)) <= MAXOPBLOCKS ∧ end_op c1 g2 = Ok (c', g).
Proof.
  intros HL Hid FL Hsz Hrd Ho Hl Hmax Hfree. change maxwrite with 1536 in Hl.
  destruct (write_piece g HL Hid sb FL dw c v ip src off Hsz Hrd Ho ltac:(lia) Hmax Hfree)
    as (ip1 & ip2 & c1 & bl & c' & v' & Eb & El & Ew & Hb & _ & Ee & _).
  by exists (g1 g), ip1, ip2, c1, (logs (g1 g) bl), c'.
Qed.

(** [itrunc] gives back exactly the blocks of the file.  Inside a transaction on a consistent file system, [itrunc] returns without
    a panic ("freeing free block" in particular), every block of the file, direct, indirect and the indirect block itself, becomes
    free and no other does; the inode is empty in memory and on disk, the file system is consistent, and
    no block but the bitmap and the inode's changes. *)
Theorem itrunc_releases g sb c g1 v ip : layout g → fs_layout g sb → sees (cview := binv) g c g1 v ∅ → fs_inv g sb v → file_ok g sb v ip →
  room g g1 2 → length (v !!! home_key g (IBLOCK sb (inum ip))) = BSIZE →
  ∃ c' g' v' ip', itrunc sb c g1 ip = Ok (ip', c', g') ∧ sees (cview := binv) g c' g' v' ∅ ∧ fs_inv g sb v' ∧
    free_blocks g sb v' = free_blocks g sb v ∪ file_blocks g v ip ∧ isize ip' = 0 ∧ addrs ip' = replicate 13 0 ∧
    dinode_at g sb v' (inum ip) = dinode_bytes ip' ∧
    ∀ b, b ≠ sb_bmapstart sb → b ≠ IBLOCK sb (inum ip) → v' !!! home_key g b = v !!! home_key g b.
Proof.
  intros HL FL Hs Hi Hf Hr Hl. destruct (itrunc_spec g HL sb FL c g1 v ip Hs Hi Hf Hr Hl) as (c' & g' & v' & E & Hs' & Hi' & Hfr & Hd & _ & _ & Hk).
  exists c', g', v', (set_size 0 (zeroed ip 0 13)). split_and!; [done..| |done|done].
  change (addrs (zeroed ip 0 13) = replicate 13 0). apply zeroed_all, (fo_len _ _ _ _ Hf).
Qed.

(** * A small file system

    100 blocks: the log in blocks 2 to 31, inodes in 32, the bitmap in 33, and a file of five bytes in block 34. *)

Definition w_sb : superblock := SuperBlock 100 66 8 30 2 32 33.
Definition w_bitmap : block := [255; 255; 255; 255; 7] ++ replicate 507 0.
Definition w_fs : disk_map :=
  {[ (ROOTDEV, 2) := replicate BSIZE 0; (ROOTDEV, 32) := replicate BSIZE 0; (ROOTDEV, 33) := w_bitmap;
     (ROOTDEV, 34) := [9; 8; 7; 6; 5] ++ replicate 507 0 ]}.
Definition w_ip : inode := Inode ROOTDEV 1 1 false true T_FILE 0 0 1 5 (34 :: replicate 12 0).
Definition w_file : file := File (FD_INODE w_ip) true true 0.

Lemma w_fs_layout : fs_layout w_log w_sb.
Proof.
  split.
  - cbn. unfold FSSIZE. lia.
  - split; [cbn; unfold FSSIZE; lia|]. unfold in_log. cbn. lia.
  - intros i Hi. cbn in Hi. assert (IBLOCK w_sb i = 32) as ->.
    { unfold IBLOCK, IPB. cbn. rewrite Z.div_small; lia. }
    split; [|done]. split; [unfold FSSIZE; lia|]. unfold in_log. cbn. lia.
  - intros i Hi. cbn in Hi. unfold IBLOCK, IPB. cbn. rewrite Z.div_small; lia.
Qed.

Lemma w_bits b : 0 <= b < 35 → used w_log w_sb w_fs b.
Proof.
  intros Hb. assert (forallb (λ b, negb (bit_of w_bitmap b =? 0)) (seqZ 0 35) = true) as HF by (vm_compute; reflexivity).
  rewrite forallb_forall in HF. unfold used. change (w_fs !!! home_key w_log (sb_bmapstart w_sb)) with w_bitmap.
  apply Z.eqb_neq, negb_true_iff, HF, list_elem_of_In, elem_of_seqZ. lia.
Qed.

Lemma w_fs_inv : fs_inv w_log w_sb w_fs.
Proof.
  split; [by vm_compute|]. intros b Hb Hm. apply w_bits. cbn in Hb. destruct Hm as [Hm|[->|[Hm|(i & Hi & ->)]]].
  - assert (b < 32) as ?; [|lia]. destruct (decide (b < 32)) as [?|Hge]; [done|]. exfalso. apply Hm.
    split; [unfold FSSIZE; lia|]. unfold in_log. cbn. lia.
  - cbn. lia.
  - cbn in Hm. lia.
  - cbn in Hi. unfold IBLOCK, IPB. cbn. rewrite Z.div_small; lia.
Qed.

Lemma w_slots s : saddr w_log w_fs w_ip s ≠ 0 → s = 0%nat.
Proof.
  unfold saddr. case_decide as H13; [|by rewrite decide_True].
  do 13 (destruct s as [|s]; [done|]). lia.
Qed.

Lemma w_file_ok : file_ok w_log w_sb w_fs w_ip.
Proof.
  split.
  - done.
  - cbn. lia.
  - done.
  - intros s Hs Hn. apply w_slots in Hn as ->. change (saddr w_log w_fs w_ip 0) with 34. split_and!; [done|done|apply w_bits; lia| |by vm_compute].
    intros [Hm|[Hm|[Hm|(i & Hi & Hm)]]]; [|done|cbn in Hm; lia|].
    + apply Hm. split; [unfold FSSIZE; lia|]. unfold in_log. cbn. lia.
    + cbn in Hi. unfold IBLOCK, IPB in Hm. cbn in Hm. rewrite Z.div_small in Hm; lia.
  - intros s s' _ _ Hn E. pose proof (w_slots s Hn) as ->. symmetry. apply w_slots. by rewrite <- E.
Qed.

Lemma w_ready : ready (cview := binv) w_log w_sb (binit w_fs) w_fs w_ip.
Proof.
  split; [exists w_fs; apply binit_inv|apply w_fs_inv|apply w_file_ok| |done|cbn; lia|done|done|by vm_compute].
  split; [change (isize w_ip) with 5; unfold MAXBYTES, BSIZE; lia|]. intros x Hx. change (Z.to_nat (isize w_ip)) with 5%nat in Hx.
  do 5 (destruct x as [|x]; [by vm_compute|]). lia.
Qed.

Definition w_ops : list file_op := [Rd 2; Wr [1; 1]; Rd 10].

Lemma w_off : 0 <= f_off w_file <= isize w_ip.
Proof. by vm_compute. Qed.

Lemma w_ops_ok : Forall op_ok w_ops.
Proof. repeat constructor. Qed.

Lemma w_bytes_fit : (Z.to_nat (isize w_ip) + sum_list (op_bytes <$> w_ops) ≤ MAXBYTES)%nat.
Proof. change (Z.to_nat (isize w_ip) + sum_list (op_bytes <$> w_ops))%nat with 7%nat. unfold MAXBYTES, BSIZE. lia. Qed.

Lemma w_free : size (free_blocks w_log w_sb w_fs) = 65%nat.
Proof. vm_compute. reflexivity. Qed.

Lemma w_blocks_fit : (8 * sum_list (op_pieces <$> w_ops) ≤ size (free_blocks w_log w_sb w_fs))%nat.
Proof. rewrite w_free. change (sum_list (op_pieces <$> w_ops)) with 1%nat. lia. Qed.

Lemma file_refines_bytes_witness : ∃ f' c',
  do_ops w_sb (λ _, None) (λ _, None) (binit w_fs) w_log w_file w_ops = Ok ([(2, [9; 8]); (2, []); (1, [5])], f', c', w_log) ∧
  f_off f' = 5.
Proof.
  pose proof (file_refines_bytes w_log w_sb (λ _, None) (λ _, None) w_ops (binit w_fs) w_fs w_file w_ip
    w_log_layout ltac:(by split_and!) w_fs_layout ltac:(vm_compute; discriminate) eq_refl eq_refl eq_refl w_ready
    w_off w_ops_ok w_bytes_fit w_blocks_fit) as HT.
  assert (fcontent w_log w_fs w_ip = [9; 8; 7; 6; 5]) as Ec by (vm_compute; reflexivity). rewrite Ec in HT.
  destruct HT as (f' & c' & v' & ip' & E & _ & _ & _ & Eo & _). exists f', c'. split; [exact E|exact Eo].
Defined.

Lemma filewrite_piece_fits_witness : ∃ g2 ip2 c1, begin_op w_log = Some (set_outstanding 1 w_log) ∧
  writei w_sb (λ _, None) (binit w_fs) (set_outstanding 1 w_log) (set_ilocked true w_ip) (replicate 1536 4) 5 = Ok (1536, ip2, c1, g2) ∧
  Z.of_nat (length (lh g2)) <= MAXOPBLOCKS.
Proof.
  destruct (filewrite_piece_fits w_log w_sb (λ _, None) (binit w_fs) w_fs w_ip (replicate 1536 4) 5 w_log_layout ltac:(by split_and!) w_fs_layout
    ltac:(vm_compute; discriminate) w_ready ltac:(split; vm_compute; discriminate) ltac:(vm_compute; discriminate) ltac:(vm_compute; discriminate)
    ltac:(rewrite w_free; lia)) as (g1 & ip1 & ip2 & c1 & g2 & c' & Eb & El & Ew & Hl & _).
  injection Eb as <-. injection El as <-. exists g2, ip2, c1. split; [reflexivity|]. split; [exact Ew|exact Hl].
Defined.

Lemma itrunc_releases_witness : ∃ c' g' v' ip', itrunc w_sb (binit w_fs) (set_outstanding 1 w_log) w_ip = Ok (ip', c', g') ∧
  free_blocks w_log w_sb v' = free_blocks w_log w_sb w_fs ∪ file_blocks w_log w_fs w_ip ∧ isize ip' = 0.
Proof.
  assert (idle w_log) as Hid by (by split_and!).
  destruct (itrunc_releases w_log w_sb (binit w_fs) (set_outstanding 1 w_log) w_fs w_ip w_log_layout w_fs_layout
    (proj2 (begin_sees w_log Hid (binit w_fs) w_fs (rd_rest _ _ _ _ _ w_ready))) w_fs_inv w_file_ok) as (c' & g' & v' & ip' & E & _ & _ & Hfr & Hz & _).
  - split; [cbn; lia|split; [vm_compute; reflexivity|right; vm_compute; discriminate]].
  - vm_compute. reflexivity.
  - exists c', g', v', ip'. split; [exact E|]. split; [exact Hfr|exact Hz].
Defined.
