(* ===== verification/FsCk.v ===== *)
(** Consistency of the whole disk (src/p4/fs.c): the inode table, and the files it describes.

    [fsck] says that every inode in use describes a file, no block belongs to two files, and every block in use
    is one of some file or of the metadata.  [fsck_step] reduces an operation on one inode to its own effect. *)

From Stdlib Require Import ZArith Lia.
From stdpp Require Import base numbers list gmap fin_sets sets strings.
From S2P Require Import Prelude Bio Log LogCrash Fs FsSpec FsTrunc.
#[local] Open Scope Z_scope.

(** * Inodes on disk: round trip *)

Lemma le_le_bytes_mod n : ∀ x, le (le_bytes n x) = x mod 256 ^ Z.of_nat n.
Proof.
  induction n as [|n IH]; intros x; cbn [le_bytes le]; [by rewrite Z.mod_1_r|].
  rewrite IH, Nat2Z.inj_succ, Z.pow_succ_r by lia. symmetry. apply Z.rem_mul_r; lia.
Qed.

Definition is_short (x : Z) : Prop := - 2 ^ 15 <= x < 2 ^ 15.

Lemma short_bytes x l : is_short x → short_at (le_bytes 2 x ++ l) 0 = x.
Proof.
  intros Hx. unfold short_at. rewrite drop_0, take_app_length' by done. rewrite le_le_bytes_mod. change (256 ^ Z.of_nat 2) with (2 ^ 16).
  unfold is_short in Hx. destruct (Z_lt_le_dec x 0) as [Hn|Hn].
  - rewrite <- (Z.mod_unique_pos x (2 ^ 16) (-1) (x + 2 ^ 16)) by lia. destruct (Z.ltb_spec (x + 2 ^ 16) (2 ^ 15)); lia.
  - rewrite Z.mod_small by lia. destruct (Z.ltb_spec x (2 ^ 15)); lia.
Qed.

Lemma short_skip a l o : short_at (le_bytes 2 a ++ l) (2 + o) = short_at l o.
Proof. unfold short_at. rewrite (drop_app_add' _ _ 2 o) by done. done. Qed.

Lemma get32_skip (x l : list Z) k j : length x = (4 * k)%nat → get32 (x ++ l) (k + j) = get32 l j.
Proof. intros Hx. unfold get32. replace (4 * (k + j))%nat with (4 * k + 4 * j)%nat by lia. by rewrite drop_app_add'. Qed.

Lemma get32_head x l : is_u32 x → get32 (le_bytes 4 x ++ l) 0 = x.
Proof. intros Hx. unfold get32. rewrite drop_0, take_app_length' by done. by apply le_le_bytes. Qed.

Lemma get32_words l : Forall is_u32 l → (λ k, get32 (concat (le_bytes 4 <$> l)) k) <$> seq 0 (length l) = l.
Proof.
  induction 1 as [|a l Ha Hl IH]; [done|]. cbn [length seq fmap list_fmap concat]. rewrite get32_head by done. f_equal.
  transitivity ((λ k, get32 (concat (le_bytes 4 <$> l)) k) <$> seq 0 (length l)); [|exact IH].
  rewrite <- fmap_S_seq, <- list_fmap_compose. apply list_fmap_ext. intros k j _. cbn [compose].
  apply (get32_skip (le_bytes 4 a) _ 1 j). by rewrite length_le_bytes.
Qed.

Record fields_ok (ip : inode) : Prop := {
  fk_type : is_short (itype ip); fk_major : is_short (major ip); fk_minor : is_short (minor ip); fk_nlink : is_short (nlink ip);
  fk_size : is_u32 (isize ip); fk_addrs : Forall is_u32 (addrs ip); fk_len : length (addrs ip) = 13%nat }.

(** Reading an inode back from its bytes. *)
Lemma load_dinode_bytes ip ip0 : fields_ok ip →
  load_dinode (dinode_bytes ip) ip0 =
  Inode (i_dev ip0) (inum ip0) (i_ref ip0) (i_locked ip0) true (itype ip) (major ip) (minor ip) (nlink ip) (isize ip) (addrs ip).
Proof.
  intros [Ht Hma Hmi Hn Hs Ha Hl]. unfold load_dinode. f_equal.
  - by apply short_bytes.
  - unfold dinode_bytes. rewrite (short_skip _ _ 0). by apply short_bytes.
  - unfold dinode_bytes. rewrite (short_skip _ _ 2), (short_skip _ _ 0). by apply short_bytes.
  - unfold dinode_bytes. rewrite (short_skip _ _ 4), (short_skip _ _ 2), (short_skip _ _ 0). by apply short_bytes.
  - unfold dinode_bytes. rewrite !app_assoc, <- !(app_assoc _ (le_bytes 4 _)). rewrite (get32_skip _ _ 2 0); [by apply get32_head|]. rewrite !length_app, !length_le_bytes. done.
  - transitivity ((λ k, get32 (concat (le_bytes 4 <$> addrs ip)) k) <$> seq 0 (length (addrs ip))); [|by apply get32_words]. rewrite Hl. apply list_fmap_ext. intros k j _. unfold dinode_bytes. rewrite !app_assoc.
    apply get32_skip. rewrite !length_app, !length_le_bytes. done.
Qed.

(** * The files of a disk *)

Section fsck.
Context (g0 : log) (sb : superblock) (FL : fs_layout g0 sb).
Abbreviation key := (home_key g0).
Abbreviation bm := (sb_bmapstart sb).
Abbreviation ninodes := (sb_ninodes sb).
Abbreviation used := (used g0 sb).
Abbreviation meta := (meta g0 sb).
Abbreviation fblocks := (file_blocks g0).

(** The inode [i] as it is on the disk. *)
Definition din (v : disk_map) (i : Z) : inode := load_dinode (dinode_at g0 sb v i) (Inode (dev g0) i 0 false false 0 0 0 0 0 []).

Definition live (v : disk_map) (i : Z) : Prop := 1 <= i < ninodes ∧ itype (din v i) ≠ 0.
#[export] Instance live_dec v i : Decision (live v i).
Proof. unfold live. apply _. Defined.

(** The blocks of the file of inode [i]. *)
Definition blocks_of (v : disk_map) (i : Z) : gset Z := if decide (live v i) then fblocks v (din v i) else ∅.

Record good_file (v : disk_map) (ip : inode) : Prop := {
  gf_ok : file_ok g0 sb v ip;
  gf_sized : sized g0 v ip;
  gf_short : is_short (itype ip) ∧ is_short (major ip) ∧ is_short (minor ip) ∧ is_short (nlink ip) }.

Record fsck (v : disk_map) : Prop := {
  ck_inv : fs_inv g0 sb v;
  ck_len : ∀ i, 0 <= i < ninodes → length (v !!! key (IBLOCK sb i)) = BSIZE;
  ck_file : ∀ i, live v i → good_file v (din v i);
  ck_disj : ∀ i j, i ≠ j → blocks_of v i ## blocks_of v j;
  ck_used : ∀ b, 0 <= b < sb_size sb → used v b → ¬ meta b → ∃ i, b ∈ blocks_of v i }.

Lemma fields_good v ip : good_file v ip → fields_ok ip.
Proof using FL.
  intros [Hf [Hsz _] (? & ? & ? & ?)]. split; try done; [|apply Forall_lookup|apply (fo_len _ _ _ _ Hf)].
  - unfold is_u32, MAXBYTES, BSIZE in *. lia.
  - intros s a Ha. pose proof (lookup_lt_Some _ _ _ Ha) as Hs. rewrite (fo_len _ _ _ _ Hf) in Hs.
    assert (saddr g0 v ip s = a) as E by (unfold saddr; rewrite decide_True by lia; by apply list_lookup_total_correct).
    destruct (decide (a = 0)) as [->|Hn]; [done|]. destruct (fo_good _ _ _ _ Hf s) as (Hr & _); [unfold NSLOT; lia|congruence|].
    rewrite E in Hr. destruct FL. unfold is_u32, FSSIZE in *. lia.
Qed.

(** The part of an in-memory inode that is on disk. *)
Definition bare (ip : inode) : inode :=
  Inode (i_dev ip) (inum ip) 0 false true (itype ip) (major ip) (minor ip) (nlink ip) (isize ip) (addrs ip).

Lemma good_bare v ip : good_file v (bare ip) ↔ good_file v ip.
Proof. split; intros [[? ? ? ? ?] ? ?]; by split; [split|..]. Qed.

Lemma din_bytes v ip : fields_ok ip → i_dev ip = dev g0 → dinode_at g0 sb v (inum ip) = dinode_bytes ip → din v (inum ip) = bare ip.
Proof. intros Hf Hd E. unfold din, bare. by rewrite E, load_dinode_bytes, Hd. Qed.

Lemma block_data v ip b : file_ok g0 sb v ip → b ∈ fblocks v ip → data_block g0 sb v b.
Proof. intros Hf [Hb (s & Hs & <-)]%elem_of_file_blocks. destruct (fo_good _ _ _ _ Hf s Hs Hb) as (? & ? & ? & _). split; [done|by split]. Qed.

(** A file whose blocks are not touched. *)
Lemma file_frame v v' ip : file_ok g0 sb v ip → (∀ b, b ∈ fblocks v ip → v' !!! key b = v !!! key b ∧ used v' b) →
  file_ok g0 sb v' ip ∧ fblocks v' ip = fblocks v ip ∧ (sized g0 v ip → sized g0 v' ip ∧ fcontent g0 v' ip = fcontent g0 v ip).
Proof.
  intros Hf Hk.
  assert (∀ s, (s < NSLOT)%nat → saddr g0 v ip s ≠ 0 → v' !!! key (saddr g0 v ip s) = v !!! key (saddr g0 v ip s) ∧ used v' (saddr g0 v ip s)) as Hks.
  { intros s Hs Hn. apply Hk, elem_of_file_blocks. split; [done|]. by exists s. }
  assert (∀ s, (s < NSLOT)%nat → saddr g0 v' ip s = saddr g0 v ip s) as Hsl.
  { intros s Hs. unfold saddr. case_decide; [done|]. case_decide as E12; [done|].
    destruct (Hks 12%nat ltac:(unfold NSLOT; lia) E12) as [E _]. change (saddr g0 v ip 12) with (addrs ip !!! 12%nat) in E. by rewrite E. }
  split_and!.
  - split; [apply Hf..| |].
    + intros s Hs Hn. rewrite Hsl in * by done. destruct (fo_good _ _ _ _ Hf s Hs Hn) as (Hr & _ & Hm & Hl), (Hks s Hs Hn) as [E Hu].
      split_and!; [lia|lia|done|done|by rewrite E].
    + intros s1 s2 H1 H2. rewrite !Hsl by done. by apply (fo_inj _ _ _ _ Hf).
  - apply set_eq. intros b. rewrite !elem_of_file_blocks. split; intros [Hb (s & Hs & E)]; (split; [done|]); exists s; (split; [done|]); by rewrite ?Hsl in *.
  - intros [Hsz Ha]. assert (∀ x, (x < MAXBYTES)%nat → faddr g0 v' ip x = faddr g0 v ip x) as Hfa by (intros x Hx; by apply Hsl, slot_lt, block_lt).
    split; [split; [done|]; intros x Hx; rewrite Hfa by lia; by apply Ha|].
    apply list_fmap_ext. intros k x [-> Hlt]%lookup_seq. unfold fbyte. rewrite Hfa by lia.
    destruct (Hks (slot ((0 + k) / BSIZE))) as [E _]; [apply slot_lt, block_lt; lia|by apply Ha|]. fold (faddr g0 v ip (0 + k)) in E. by rewrite E.
Qed.

Lemma blocks_live v i b : b ∈ blocks_of v i → live v i ∧ b ∈ fblocks v (din v i).
Proof. unfold blocks_of. case_decide; [done|]. by intros ?%elem_of_empty. Qed.

(** A step that changes inode [i] and its blocks. *)
Lemma fsck_step v v' i : fsck v → fs_inv g0 sb v' → inodes_kept g0 sb v v' i →
  (∀ b, data_block g0 sb v b → b ∉ blocks_of v i → v' !!! key b = v !!! key b ∧ used v' b) →
  (live v' i → good_file v' (din v' i)) →
  (∀ b, b ∈ blocks_of v' i → used v b → b ∈ blocks_of v i) →
  (∀ b, 0 <= b < sb_size sb → used v' b → ¬ meta b → b ∈ blocks_of v' i ∨ used v b ∧ b ∉ blocks_of v i) →
  fsck v' ∧ ∀ j, j ≠ i → 0 <= j < ninodes → din v' j = din v j ∧ (live v j → fcontent g0 v' (din v j) = fcontent g0 v (din v j)).
Proof.
  intros Hck Hi Hk Hkeep Hgood Hown Hnew.
  assert (∀ j, j ≠ i → 0 <= j < ninodes → din v' j = din v j) as Hdin by (intros j Hj Hr; unfold din; by rewrite (proj1 (Hk j Hr))).
  assert (∀ j, j ≠ i → live v' j ↔ live v j) as Hlive.
  { intros j Hj. unfold live. split; intros [Hr Ht]; (split; [done|]); rewrite Hdin in * by (done || lia); done. }
  assert (∀ j, j ≠ i → live v j → file_ok g0 sb v' (din v j) ∧ fblocks v' (din v j) = fblocks v (din v j) ∧
    sized g0 v' (din v j) ∧ fcontent g0 v' (din v j) = fcontent g0 v (din v j)) as Hother.
  { intros j Hj Hl. destruct (ck_file _ Hck j Hl) as [Hf Hs _]. destruct (file_frame v v' (din v j) Hf) as (? & ? & Hss).
    - intros b Hb. apply Hkeep; [by eapply block_data|]. intros Hb'. apply (ck_disj _ Hck j i Hj b); [|done]. unfold blocks_of. by rewrite decide_True.
    - destruct (Hss Hs). by split_and!. }
  assert (∀ j, j ≠ i → blocks_of v' j = blocks_of v j) as Hbl.
  { intros j Hj. unfold blocks_of. destruct (decide (live v j)) as [Hl|Hl].
    - rewrite decide_True by (by apply Hlive). rewrite Hdin by (first [done|destruct Hl; lia]). by apply Hother.
    - rewrite decide_False; [done|]. by rewrite Hlive. }
  split.
  - assert (∀ j, j ≠ i → blocks_of v' j ## blocks_of v' i) as Hdisj.
    { intros j Hj b Hb Hb'. rewrite (Hbl j Hj) in Hb. destruct (blocks_live _ _ _ Hb) as [Hl Hbf].
      destruct (block_data v _ b (gf_ok _ _ (ck_file _ Hck j Hl)) Hbf) as (_ & Hu & _). exact (ck_disj _ Hck j i Hj b Hb (Hown b Hb' Hu)). }
    split; [done| | | |].
    + intros j Hj. rewrite (proj2 (Hk j Hj)). by apply (ck_len _ Hck).
    + intros j Hl. destruct (decide (j = i)) as [->|Hj]; [by apply Hgood|]. apply Hlive in Hl; [|done]. pose proof Hl as [Hr _].
      rewrite Hdin by (done || lia). destruct (Hother j Hj Hl) as (? & _ & ? & _). split; [done|done|]. by apply (ck_file _ Hck).
    + intros j1 j2 Hne. destruct (decide (j1 = i)) as [->|H1]; [symmetry; by apply Hdisj|]. destruct (decide (j2 = i)) as [->|H2]; [by apply Hdisj|].
      rewrite !Hbl by done. by apply (ck_disj _ Hck).
    + intros b Hb Hu Hm. destruct (Hnew b Hb Hu Hm) as [?|[Hu' Hn]]; [by exists i|]. destruct (ck_used _ Hck b Hb Hu' Hm) as (j & Hj).
      exists j. rewrite Hbl; [done|]. intros ->. done.
  - intros j Hj Hr. split; [by apply Hdin|]. intros Hl. by apply Hother.
Qed.

(** * Files as data *)

Record afile := AFile { a_type : Z; a_major : Z; a_minor : Z; a_nlink : Z; a_data : list Z }.

Definition afile_of (v : disk_map) (ip : inode) : afile := AFile (itype ip) (major ip) (minor ip) (nlink ip) (fcontent g0 v ip).

(** The files of [v] are [m]. *)
Definition shows (v : disk_map) (m : gmap Z afile) : Prop :=
  ∀ i, m !! i = if decide (live v i) then Some (afile_of v (din v i)) else None.

Lemma shows_step v v' i m : shows v m →
  (∀ j, j ≠ i → 0 <= j < ninodes → din v' j = din v j ∧ (live v j → fcontent g0 v' (din v j) = fcontent g0 v (din v j))) →
  shows v' (partial_alter (λ _, if decide (live v' i) then Some (afile_of v' (din v' i)) else None) i m).
Proof.
  intros Hs Hj j. destruct (decide (j = i)) as [->|Hne]; [by rewrite lookup_partial_alter_eq|].
  rewrite lookup_partial_alter_ne, Hs by done. destruct (decide (1 <= j < ninodes)) as [Hr|Hr].
  - destruct (Hj j Hne ltac:(lia)) as [E Ec]. assert (live v' j ↔ live v j) as Hiff by (unfold live; by rewrite E).
    rewrite (decide_ext _ _ _ _ Hiff). case_decide; [|done]. unfold afile_of. by rewrite E, Ec.
  - rewrite !decide_False; [done|by intros [? _]|by intros [? _]].
Qed.
End fsck.
