(* ===== verification/Icache.v ===== *)
(** The cache of in-memory inodes (src/p4/fs.c): references, allocation and release of inodes.

    [icache.inode] is a list of [NINODE] inodes and a pointer to one is its index.  [icache.lock] is taken
    and released inside each operation and is not part of the state.  The operations on a locked
    inode are those of Fs.v, applied to an entry.  [acquiresleep] on a lock that is held is a [Fault]. *)

From Stdlib Require Import ZArith Lia.
From stdpp Require Import base numbers list gmap fin_sets sets strings.
From S2P Require Import Prelude Bio Log Fs.
#[local] Open Scope Z_scope.

Definition NINODE : nat := 50.
Abbreviation icache := (list inode).

Definition set_ref (n : Z) (ip : inode) : inode :=
  Inode (i_dev ip) (inum ip) n (i_locked ip) (i_valid ip) (itype ip) (major ip) (minor ip) (nlink ip) (isize ip) (addrs ip).
Definition set_type (t : Z) (ip : inode) : inode :=
  Inode (i_dev ip) (inum ip) (i_ref ip) (i_locked ip) (i_valid ip) t (major ip) (minor ip) (nlink ip) (isize ip) (addrs ip).
Definition set_valid (x : bool) (ip : inode) : inode :=
  Inode (i_dev ip) (inum ip) (i_ref ip) (i_locked ip) x (itype ip) (major ip) (minor ip) (nlink ip) (isize ip) (addrs ip).

(** [ip->dev = dev; ip->inum = inum; ip->ref = 1; ip->valid = 0;] *)
Definition recycle (dv n : Z) (ip : inode) : inode :=
  Inode dv n 1 (i_locked ip) false (itype ip) (major ip) (minor ip) (nlink ip) (isize ip) (addrs ip).

(** [*ip]. *)
Definition deref (ic : icache) (k : nat) : outcome inode := match ic !! k with Some ip => Ok ip | None => Fault (Z.of_nat k) end.

(** The loop of [iget] from entry [k] on: the entry found, or the first empty one. *)
Fixpoint iget_scan (l : list inode) (dv n : Z) (k : nat) (empty : option nat) : nat + option nat :=
  match l with
  | [] => inr empty
  | ip :: l' =>
      if (0 <? i_ref ip) && (i_dev ip =? dv) && (inum ip =? n) then inl k
      else
        let empty := match empty with None => if i_ref ip =? 0 then Some k else None | Some _ => empty end in
        iget_scan l' dv n (S k) empty
  end.

Definition iget (ic : icache) (dv n : Z) : outcome (nat * icache) :=
  match iget_scan ic dv n 0 None with
  | inl k => ip ← deref ic k; Ok (k, <[k := set_ref (i_ref ip + 1) ip]> ic)
  | inr None => Panic "iget: no inodes"
  | inr (Some k) => ip ← deref ic k; Ok (k, <[k := recycle dv n ip]> ic)
  end.

Definition idup (ic : icache) (k : nat) : outcome icache :=
  ip ← deref ic k; Ok (<[k := set_ref (i_ref ip + 1) ip]> ic).

Section icache.
Context {C : Type} `{BufOps C} (sb : superblock).

(** [ilock] and [iunlock] on an entry of the cache. *)
Definition ilock_at (c : C) (ic : icache) (k : nat) : outcome (C * icache) :=
  ip ← deref ic k;
  '(ip, c) ← ilock sb c ip;
  Ok (c, <[k := ip]> ic).

Definition iunlock_at (ic : icache) (k : nat) : outcome icache :=
  ip ← deref ic k;
  ip ← iunlock ip;
  Ok (<[k := ip]> ic).

Definition iput (c : C) (g : log) (ic : icache) (k : nat) : outcome (C * log * icache) :=
  ip ← deref ic k;
  if i_locked ip then Fault (inum ip)
  else
    let ip := set_ilocked true ip in
    '(ip, c, g) ←
      (if i_valid ip && (nlink ip =? 0) && (i_ref ip =? 1) then
         '(ip, c, g) ← itrunc sb c g ip;
         let ip := set_type 0 ip in
         '(c, g) ← iupdate sb c g ip;
         Ok (set_valid false ip, c, g)
       else Ok (ip, c, g));
    let ip := set_ilocked false ip in
    Ok (c, g, <[k := set_ref (i_ref ip - 1) ip]> ic).

Definition iunlockput (c : C) (g : log) (ic : icache) (k : nat) : outcome (C * log * icache) :=
  ic ← iunlock_at ic k;
  iput c g ic k.

(** [memset(dip, 0, sizeof( *dip)); dip->type = type;] *)
Definition new_dinode (type : Z) : list Z := le_bytes 2 type ++ replicate 62 0.

(** The loop of [ialloc]; [n] is the number of inodes left. *)
Fixpoint ialloc_loop (c : C) (g : log) (ic : icache) (dv type i : Z) (n : nat) : outcome (nat * C * log * icache) :=
  match n with
  | O => Panic "ialloc: no inodes"
  | S n' =>
      '(bp, c) ← c_bread c (dv, IBLOCK sb i);
      d ← c_data c bp;
      let o := (Z.to_nat (i mod IPB) * DINODE)%nat in
      if short_at (drop o d) 0 =? 0 then
        '(c, g) ← store_log c g bp (splice d o (new_dinode type));
        c ← c_brelse c bp;
        '(k, ic) ← iget ic dv i;
        Ok (k, c, g, ic)
      else
        c ← c_brelse c bp;
        ialloc_loop c g ic dv type (i + 1) n'
  end.

Definition ialloc (c : C) (g : log) (ic : icache) (dv type : Z) : outcome (nat * C * log * icache) :=
  ialloc_loop c g ic dv type 1 (Z.to_nat (sb_ninodes sb - 1)).
End icache.

Record stat := Stat { st_type : Z; st_dev : Z; st_ino : Z; st_nlink : Z; st_size : Z }.
Definition stati (ip : inode) : stat := Stat (itype ip) (i_dev ip) (inum ip) (nlink ip) (isize ip).
