(* ===== verification/IcacheSpec.v ===== *)
(** The operations of Fs.v and Icache.v on a consistent disk: each one changes the inode it is called for, and
    [fsck] holds again. *)

From Stdlib Require Import ZArith Lia.
From stdpp Require Import base numbers list gmap fin_sets sets strings.
From S2P Require Import Prelude Bio Log LogCrash Fs FsSpec FsTrunc File FsCk Icache.
#[local] Open Scope Z_scope.

Section steps.
Context {C : Type} `{BL : BufLaws C cview} (g0 : log) (HL : layout g0) (sb : superblock) (FL : fs_layout g0 sb).
Abbreviation key := (home_key g0).
Abbreviation bm := (sb_bmapstart sb).
Abbreviation ninodes := (sb_ninodes sb).
Abbreviation sees := (sees (cview := cview) g0).
Abbreviation used := (used g0 sb).
Abbreviation meta := (meta g0 sb).
Abbreviation fsck := (fsck g0 sb).
Abbreviation din := (din g0 sb).
Abbreviation live := (live g0 sb).
Abbreviation blocks_of := (blocks_of g0 sb).

(** From [v] to [v'] only inode [i] and its file change. *)
Record inode_step (v v' : disk_map) (i : Z) : Prop := {
  is_ck : fsck v';
  is_other : ∀ j, j ≠ i → 0 <= j < ninodes →
    din v' j = din v j ∧ (live v j → fcontent g0 v' (din v j) = fcontent g0 v (din v j)) }.

Lemma inode_step_refl v i : fsck v → inode_step v v i.
Proof. by split. Qed.

Lemma inode_step_trans v v1 v2 i : inode_step v v1 i → inode_step v1 v2 i → inode_step v v2 i.
Proof.
  intros H1 H2. split; [apply H2|]. intros j Hj Hr. destruct (is_other _ _ _ H1 j Hj Hr) as [E1 C1], (is_other _ _ _ H2 j Hj Hr) as [E2 C2].
  split; [congruence|]. intros Hl. rewrite <- C1 by done. rewrite <- E1. apply C2. destruct Hl. split; [done|]. by rewrite E1.
Qed.

Lemma ino_range i : 1 <= i < ninodes → 0 <= i < ninodes.
Proof. lia. Qed.

Lemma data_not_meta v b : data_block g0 sb v b → home_ok g0 b ∧ b ≠ bm ∧ b ≠ 0 ∧ ∀ i, 0 <= i < ninodes → b ≠ IBLOCK sb i.
Proof.
  intros (_ & _ & Hm). split_and!.
  - destruct (decide (home_ok g0 b)) as [?|Hn]; [done|]. exfalso. apply Hm. by left.
  - intros ->. apply Hm. right. by left.
  - intros ->. apply Hm. right. right. left. lia.
  - intros i Hi ->. apply Hm. right. right. right. by exists i.
Qed.

(** ** Stores into the inode table *)

Lemma put_keeps v i x b : b ≠ IBLOCK sb i → inode_put g0 sb v i x !!! key b = v !!! key b.
Proof. intros Hb. unfold inode_put. apply lookup_total_insert_ne. intros [=]. congruence. Qed.

Lemma put_saddr v i x ip s : 0 <= i < ninodes → file_ok g0 sb v ip → saddr g0 (inode_put g0 sb v i x) ip s = saddr g0 v ip s.
Proof.
  intros Hi Hf. unfold saddr. case_decide; [done|]. case_decide as E12; [done|]. rewrite put_keeps; [done|].
  assert (12 < NSLOT)%nat as H12 by (unfold NSLOT; lia). destruct (fo_good _ _ _ _ Hf 12 H12 E12) as (? & ? & ? & _).
  by apply (data_not_meta v (saddr g0 v ip 12)); [split|].
Qed.

(** The blocks of a file depend on its addresses. *)
Lemma file_blocks_addrs v ip ip' : addrs ip' = addrs ip → file_blocks g0 v ip' = file_blocks g0 v ip.
Proof. intros E. unfold file_blocks. do 2 f_equal. apply list_fmap_ext. intros k s _. unfold saddr. by rewrite E. Qed.

Lemma file_blocks_empty v ip : addrs ip = replicate 13 0 → file_blocks g0 v ip = ∅.
Proof.
  intros E. apply set_eq. intros b. rewrite elem_of_file_blocks. split; [|by intros ?%elem_of_empty]. intros [Hb (s & Hs & Es)]. exfalso. apply Hb.
  rewrite <- Es. unfold saddr. rewrite E. case_decide; [by apply lookup_total_replicate_2|]. by rewrite decide_True.
Qed.

Lemma put_blocks_of v i x ip : 0 <= i < ninodes → file_ok g0 sb v ip → file_blocks g0 (inode_put g0 sb v i x) ip = file_blocks g0 v ip.
Proof. intros Hi Hf. unfold file_blocks. do 2 f_equal. apply list_fmap_ext. intros k s _. by apply put_saddr. Qed.

(** A step in which the set of blocks of the file does not change. *)
Lemma put_step v i x : fsck v → 1 <= i < ninodes → length x = DINODE → let v' := inode_put g0 sb v i x in
  (live v' i → good_file g0 sb v' (din v' i)) → blocks_of v' i = blocks_of v i → inode_step v v' i.
Proof using FL.
  intros Hck Hi Hx v' Hg Hbl. pose proof (ino_range i Hi) as Hi0.
  destruct (fl_ino _ _ FL i Hi0) as [_ Hbm]. destruct (inode_put_spec g0 sb v i x (ck_len _ _ _ Hck i Hi0) Hx) as [_ Hk].
  assert (v' !!! key bm = v !!! key bm) as Ebm by (by apply put_keeps).
  destruct (fsck_step g0 sb v v' i Hck) as [Hck' Ho]; [| |intros b Hb _| |intros b Hb _|intros b Hb Hu Hm|by split].
  - destruct (ck_inv _ _ _ Hck) as [Hl Hm]. split; [by rewrite Ebm|]. intros b Hb Hmb. unfold FsSpec.used. rewrite Ebm. by apply Hm.
  - exact Hk.
  - destruct (data_not_meta v b Hb) as (_ & _ & _ & Hni). split; [by apply put_keeps, Hni|]. unfold FsSpec.used. rewrite Ebm. by apply Hb.
  - exact Hg.
  - by rewrite <- Hbl.
  - unfold FsSpec.used in Hu. rewrite Ebm in Hu. destruct (decide (b ∈ blocks_of v i)) as [?|?]; [left; by rewrite Hbl|by right].
Qed.

(** New metadata for a file whose content stays. *)
Lemma metadata_step v ip : fsck v → live v (inum ip) → i_dev ip = dev g0 → addrs ip = addrs (din v (inum ip)) → isize ip = isize (din v (inum ip)) →
  is_short (itype ip) → is_short (major ip) → is_short (minor ip) → is_short (nlink ip) → itype ip ≠ 0 →
  let v' := inode_put g0 sb v (inum ip) (dinode_bytes ip) in
  inode_step v v' (inum ip) ∧ din v' (inum ip) = bare ip ∧ live v' (inum ip) ∧ good_file g0 sb v' ip ∧ fcontent g0 v' ip = fcontent g0 v (din v (inum ip)).
Proof using FL.
  intros Hck Hl Hd Ea Es H1 H2 H3 H4 Hty v'. pose proof Hl as [Hi _]. pose proof (ino_range _ Hi) as Hi0.
  destruct (ck_file _ _ _ Hck _ Hl) as [Hf Hsz _]. set (ip0 := din v (inum ip)) in *.
  assert (file_ok g0 sb v ip ∧ sized g0 v ip ∧ fcontent g0 v ip = fcontent g0 v ip0) as (Hf1 & Hs1 & Ec).
  { destruct ip as [dv n rf lk va ty ma mi nl sz ad]. cbn [addrs isize i_dev inum] in *. subst ad sz dv. split_and!; [|exact Hsz|done].
    destruct Hf as [Hd0 Hn0 Hl0 Hg0 Hj0]. split; [done|exact Hi0|exact Hl0|exact Hg0|exact Hj0]. }
  destruct (file_frame g0 sb v v' ip Hf1) as (Hf2 & Hb2 & Hc2).
  { intros b Hb. pose proof (block_data _ _ _ _ _ Hf1 Hb) as Hdb. destruct (data_not_meta v b Hdb) as (_ & _ & _ & Hni).
    destruct (fl_ino _ _ FL _ Hi0) as [_ Hbm]. split; [by apply put_keeps, Hni|]. unfold FsSpec.used, v'. rewrite put_keeps by done. apply Hdb. }
  destruct (Hc2 Hs1) as [Hs2 Ec2]. assert (good_file g0 sb v' ip) as Hg2 by (by split).
  pose proof (fields_good g0 sb FL v' ip Hg2) as Hfd.
  assert (length (dinode_bytes ip) = DINODE) as Hdl by (apply length_dinode_bytes, Hfd).
  destruct (inode_put_spec g0 sb v (inum ip) (dinode_bytes ip) (ck_len _ _ _ Hck _ Hi0) Hdl) as [Edi _].
  assert (din v' (inum ip) = bare ip) as Edin by (by apply din_bytes).
  assert (live v' (inum ip)) as Hl' by (split; [done|]; by rewrite Edin).
  split_and!; [|done|done|done|congruence]. apply put_step; [done..| |].
  - intros _. fold v'. rewrite Edin. by apply good_bare.
  - unfold FsCk.blocks_of. fold v'. rewrite !decide_True by done. rewrite Edin. fold ip0. rewrite (file_blocks_addrs v' ip (bare ip)), Hb2 by done.
    by apply file_blocks_addrs.
Qed.

(** An inode that is taken: an empty file. *)
Lemma fresh_step v ip : fsck v → 1 <= inum ip < ninodes → ¬ live v (inum ip) → i_dev ip = dev g0 → isize ip = 0 → addrs ip = replicate 13 0 →
  is_short (itype ip) ∧ is_short (major ip) ∧ is_short (minor ip) ∧ is_short (nlink ip) → itype ip ≠ 0 →
  let v' := inode_put g0 sb v (inum ip) (dinode_bytes ip) in
  inode_step v v' (inum ip) ∧ din v' (inum ip) = bare ip ∧ live v' (inum ip).
Proof using FL.
  intros Hck Hi Hnl Hd Hz Ha Hsh H0 v'. pose proof (ino_range _ Hi) as Hi0.
  assert (fields_ok ip) as Hfd by (destruct Hsh as (? & ? & ? & ?); split; rewrite ?Hz, ?Ha; try done; by apply (Forall_replicate is_u32 13 0)).
  assert (length (dinode_bytes ip) = DINODE) as Hdl by apply length_dinode_bytes, Hfd.
  destruct (inode_put_spec g0 sb v (inum ip) (dinode_bytes ip) (ck_len _ _ _ Hck _ Hi0) Hdl) as [Edi _].
  assert (din v' (inum ip) = bare ip) as Edin by (by apply din_bytes).
  assert (live v' (inum ip)) as Hl' by (split; [done|]; by rewrite Edin).
  split_and!; [|done|done]. apply put_step; [done..| |].
  - intros _. fold v'. rewrite Edin. apply good_bare. split; [|split; [rewrite Hz; done|rewrite Hz; cbn; lia]|done].
    assert (∀ s, saddr g0 v' ip s = 0) as Hs0 by (intros s; unfold saddr; rewrite Ha; case_decide; [by apply lookup_total_replicate_2|by rewrite decide_True]).
    split; [done|done|apply Hfd|intros s _ Hn; by rewrite Hs0 in Hn|intros s s' _ _ Hn; by rewrite Hs0 in Hn].
  - unfold FsCk.blocks_of. fold v'. rewrite decide_True, decide_False by done. rewrite Edin. by apply file_blocks_empty.
Qed.

Lemma alloc_step v i type : fsck v → 1 <= i < ninodes → ¬ live v i → is_short type → type ≠ 0 →
  let v' := inode_put g0 sb v i (new_dinode type) in
  inode_step v v' i ∧ din v' i = Inode (dev g0) i 0 false true type 0 0 0 0 (replicate 13 0) ∧ live v' i.
Proof using FL.
  intros Hck Hi Hnl Ht H0. exact (fresh_step v (Inode (dev g0) i 0 false true type 0 0 0 0 (replicate 13 0)) Hck Hi Hnl eq_refl eq_refl eq_refl ltac:(by split_and!) H0).
Qed.

(** ** Truncating, writing *)

Lemma cached_good v ip : fsck v → live v (inum ip) → bare ip = din v (inum ip) → good_file g0 sb v ip.
Proof. intros Hck Hl E. apply good_bare. rewrite E. by apply (ck_file _ _ _ Hck). Qed.

Lemma cached_blocks v ip : live v (inum ip) → bare ip = din v (inum ip) → blocks_of v (inum ip) = file_blocks g0 v ip.
Proof. intros Hl E. unfold FsCk.blocks_of. rewrite decide_True by done. rewrite <- E. by apply file_blocks_addrs. Qed.

Lemma used_or_free v b : 0 <= b < sb_size sb → b ∈ free_blocks g0 sb v ∨ used v b.
Proof. intros Hb. rewrite elem_of_free. unfold FsSpec.used. destruct (decide (bit_of (v !!! key bm) b = 0)); [left; split; [done|by intros []]|by right]. Qed.

Lemma trunc_step c g v ip : sees c g v ∅ → fsck v → live v (inum ip) → bare ip = din v (inum ip) → room g0 g 2 →
  let ip' := set_size 0 (zeroed ip 0 13) in
  ∃ c' v' bl, itrunc sb c g ip = Ok (ip', c', logs g bl) ∧ (length bl ≤ 2)%nat ∧ sees c' (logs g bl) v' ∅ ∧
    inode_step v v' (inum ip) ∧ din v' (inum ip) = bare ip' ∧ live v' (inum ip) ∧ (size (free_blocks g0 sb v) ≤ size (free_blocks g0 sb v'))%nat.
Proof using BL HL FL.
  intros Hs Hck Hl Eb Hr ip'. pose proof Hl as [Hi _]. pose proof (ino_range _ Hi) as Hi0. pose proof (cached_good v ip Hck Hl Eb) as [Hf _ Hsh].
  destruct (itrunc_spec g0 HL sb FL c g v ip Hs (ck_inv _ _ _ Hck) Hf Hr (ck_len _ _ _ Hck _ Hi0))
    as (c' & g' & v' & E & Hs' & Hi' & Hfr & Hdi & Hk & (bl & -> & Hbl) & Hkeep). fold ip' in E, Hdi.
  assert (addrs ip' = replicate 13 0) as Ea by (apply zeroed_all, (fo_len _ _ _ _ Hf)).
  assert (file_ok g0 sb v' ip') as Hf' by (by apply (empty_file_ok g0 sb v v')).
  assert (good_file g0 sb v' ip') as Hg' by (split; [done|split; [done|cbn; lia]|done]).
  assert (din v' (inum ip) = bare ip') as Edin by (apply (din_bytes g0 sb v' ip'); [by eapply fields_good|apply Hf|done]).
  assert (live v' (inum ip)) as Hl' by (split; [done|]; rewrite Edin; change (itype (bare ip) ≠ 0); rewrite Eb; apply Hl).
  assert (blocks_of v' (inum ip) = ∅) as Ebl.
  { change (inum ip) with (inum ip'). rewrite cached_blocks; [by apply file_blocks_empty|done|done]. }
  pose proof (cached_blocks v ip Hl Eb) as Ebv.
  exists c', v', bl. split_and!; [done..| |done|done|rewrite Hfr; apply subseteq_size; set_solver].
  destruct (fsck_step g0 sb v v' (inum ip) Hck) as [Hck' Ho]; [done|done|intros b Hb Hn| |intros b Hb|intros b Hb Hu Hm|by split].
  - destruct (data_not_meta v b Hb) as (_ & Hbm & _ & Hni). split; [by apply Hkeep, Hni|]. destruct Hb as (Hb & Hu & _).
    destruct (used_or_free v' b Hb) as [Hin|?]; [|done]. rewrite Hfr, elem_of_union, elem_of_free in Hin. rewrite Ebv in Hn. by destruct Hin as [[_ []]|?].
  - intros _. rewrite Edin. by apply good_bare.
  - rewrite Ebl in Hb. by apply elem_of_empty in Hb.
  - right. rewrite Ebv. assert (b ∉ free_blocks g0 sb v') as Hnf by (rewrite elem_of_free; by intros [_ []]). rewrite Hfr, not_elem_of_union in Hnf.
    destruct Hnf as [Hn1 Hn2]. split; [|done]. by destruct (used_or_free v b Hb).
Qed.

(** The fields that are not on disk. *)
Definition same_cached (ip ip' : inode) : Prop :=
  inum ip' = inum ip ∧ i_dev ip' = i_dev ip ∧ i_ref ip' = i_ref ip ∧ i_locked ip' = i_locked ip ∧ i_valid ip' = i_valid ip.

Lemma same_inode_fields ip ip' : same_inode ip ip' → same_cached ip ip' ∧
  itype ip' = itype ip ∧ major ip' = major ip ∧ minor ip' = minor ip ∧ nlink ip' = nlink ip.
Proof. intros [[=] _]. by split_and!. Qed.

Lemma write_step q dw c g v ip src off : sees c g v ∅ → fsck v → live v (inum ip) → bare ip = din v (inum ip) → itype ip ≠ T_DEV →
  0 <= off <= isize ip → off + Z.of_nat (length src) <= Z.of_nat MAXBYTES →
  room g0 g (6 * nblk (Z.to_nat off) (length src) + 1) → q = 2%nat ∨ q = 0%nat ∧ off + Z.of_nat (length src) <= isize ip →
  (q * nblk (Z.to_nat off) (length src) ≤ size (free_blocks g0 sb v))%nat →
  ∃ ip' c' v' bl, writei sb dw c g ip src off = Ok (Z.of_nat (length src), ip', c', logs g bl) ∧
    (length bl ≤ 6 * nblk (Z.to_nat off) (length src) + 1)%nat ∧ sees c' (logs g bl) v' ∅ ∧
    inode_step v v' (inum ip) ∧ din v' (inum ip) = bare ip' ∧ live v' (inum ip) ∧ same_cached ip ip' ∧
    afile_of g0 v' ip' = AFile (itype ip) (major ip) (minor ip) (nlink ip) (write_at (fcontent g0 v ip) (Z.to_nat off) src) ∧
    isize ip' = Z.max (isize ip) (off + Z.of_nat (length src)) ∧
    (size (free_blocks g0 sb v) ≤ size (free_blocks g0 sb v') + q * nblk (Z.to_nat off) (length src))%nat.
Proof using BL HL FL.
  intros Hs Hck Hl Eb Ht Ho Hmax Hr Hq Hfree. pose proof Hl as [Hi _]. pose proof (ino_range _ Hi) as Hi0. pose proof (cached_good v ip Hck Hl Eb) as [Hf Hsz Hsh].
  destruct (writei_spec g0 HL sb FL q dw c g v ip src off Hs (ck_inv _ _ _ Hck) Hf Hsz Ht (ck_len _ _ _ Hck _ Hi0) Ho Hmax Hr Hq Hfree)
    as (ip' & c' & v' & bl & E & Hs' & Hi' & Hf' & Hsz' & Esz & Ecn & Hok & Hfr & [Hsync Hk] & Hacc & Hsl & Hbl & Hsame & _ & _).
  destruct (same_inode_fields _ _ Hsame) as (Hsc & Ety & Ema & Emi & Enl). pose proof Hsc as (En & Ed & _). cbn [set_size itype major minor nlink inum i_dev] in *.
  assert (good_file g0 sb v' ip') as Hg' by (split; [done|done|by rewrite Ety, Ema, Emi, Enl]).
  assert (din v' (inum ip) = bare ip') as Edin.
  { destruct Hsync as [[-> Ed']|Ed'].
    - rewrite Eb. unfold FsCk.din. by rewrite Ed'.
    - rewrite <- En. apply din_bytes; [by eapply fields_good|rewrite Ed; apply Hf|by rewrite En]. }
  assert (live v' (inum ip)) as Hl' by (split; [done|]; rewrite Edin; cbn [bare itype]; rewrite Ety; change (itype (bare ip) ≠ 0); rewrite Eb; apply Hl).
  assert (blocks_of v' (inum ip) = file_blocks g0 v' ip') as Ebl' by (rewrite <- En; apply cached_blocks; by rewrite En).
  pose proof (cached_blocks v ip Hl Eb) as Ebv.
  assert (∀ b, data_block g0 sb v b → b ∉ file_blocks g0 v ip → v' !!! key b = v !!! key b ∧ used v' b ∧ b ∉ file_blocks g0 v' ip') as Hout.
  { intros b Hb Hn. destruct (data_not_meta v b Hb) as (Hokb & Hbm & Hb0 & Hni). destruct (Hok b Hokb) as (E1 & E2 & E3); [apply Hb|done|by apply Hni| |].
    - intros s Hs1 Es. apply Hn, elem_of_file_blocks. split; [done|]. by exists s.
    - split_and!; [done|done|]. intros [_ (s & Hs1 & Es)]%elem_of_file_blocks. by apply (E3 s). }
  exists ip', c', v', bl. split_and!; [done|done|done| |done|done|apply Hsc..| |done|done].
  - destruct (fsck_step g0 sb v v' (inum ip) Hck) as [Hck' Hoth]; [done|done|intros b Hb Hn| |intros b Hb Hu|intros b Hb Hu Hm|by split].
    + rewrite Ebv in Hn. by destruct (Hout b Hb Hn) as (? & ? & _).
    + intros _. rewrite Edin. by apply good_bare.
    + rewrite Ebl' in Hb. rewrite Ebv. destruct (decide (b ∈ file_blocks g0 v ip)) as [?|Hn]; [done|]. exfalso.
      destruct (block_data _ _ _ _ _ Hf' Hb) as (Hbr & _ & Hm). by apply (Hout b).
    + rewrite Ebl', Ebv. destruct (Hacc b ltac:(lia) Hu) as [Hu1|[Hb0 (s & Hs1 & Es)]]; [|left; apply elem_of_file_blocks; split; [done|by exists s]].
      destruct (decide (b ∈ file_blocks g0 v ip)) as [Hin|Hn]; [left|by right]. apply elem_of_file_blocks in Hin as [Hb0 (s & Hs1 & Es)].
      apply elem_of_file_blocks. split; [done|]. exists s. split; [done|]. rewrite Hsl by (done || congruence). done.
  - unfold afile_of. by rewrite Ety, Ema, Emi, Enl, Ecn.
Qed.
End steps.
