(* ===== verification/IcacheOps.v ===== *)
(** The inode cache against the disk: references and handles.

    [coh v hs L ic] relates the cache [ic] to the disk [v], the list [hs] of the pointers that clients hold and the set [L] of
    the entries they have locked: the reference count of an entry is the number of pointers to it, an entry in use is for
    a live inode, no inode has two entries, and a valid entry is the inode on disk. *)

From Stdlib Require Import ZArith Lia.
From stdpp Require Import base numbers list gmap fin_sets sets strings.
From S2P Require Import Prelude Bio Log LogCrash Fs FsSpec FsTrunc File FsCk Icache IcacheSpec.
#[local] Open Scope Z_scope.

(** The number of pointers to entry [k]. *)
Definition count (k : nat) (hs : list nat) : nat := length (filter (λ x, x = k) hs).

#[export] Instance count_Proper k : Proper ((≡ₚ) ==> (=)) (count k).
Proof. intros l l' Hl. unfold count. by rewrite Hl. Qed.

Lemma count_cons k x hs : count k (x :: hs) = ((if decide (x = k) then 1 else 0) + count k hs)%nat.
Proof. unfold count. rewrite filter_cons. by case_decide. Qed.

Lemma count_snoc k x hs : count k (hs ++ [x]) = ((if decide (x = k) then 1 else 0) + count k hs)%nat.
Proof. rewrite <- count_cons. apply count_Proper. rewrite (Permutation_app_comm hs [x]). done. Qed.

Lemma count_delete k x h hs : hs !! h = Some x → count k hs = ((if decide (x = k) then 1 else 0) + count k (delete h hs))%nat.
Proof. intros Hh. rewrite <- count_cons. apply count_Proper. by apply delete_Permutation. Qed.

Lemma count_pos k hs : (0 < count k hs)%nat ↔ k ∈ hs.
Proof.
  induction hs as [|x hs IH]; [split; [cbn; lia|by intros ?%not_elem_of_nil]|]. rewrite count_cons, elem_of_cons. case_decide as E; [subst; lia|]. rewrite <- IH. split; [lia|]. intros [->|?]; [done|lia].
Qed.

Lemma elem_of_delete (k j h : nat) (hs : list nat) : hs !! h = Some k → j ∈ hs → j ≠ k → j ∈ delete h hs.
Proof. intros Hh Hj Hne. rewrite (delete_Permutation _ _ _ Hh) in Hj. by apply elem_of_cons in Hj as [->|?]. Qed.

(** ** The scan of [iget] *)

Lemma iget_scan_spec dv n l : ∀ k e,
  match iget_scan l dv n k e with
  | inl k' => ∃ j ip, k' = (k + j)%nat ∧ l !! j = Some ip ∧ 0 < i_ref ip ∧ i_dev ip = dv ∧ inum ip = n
  | inr e' => (∀ j ip, l !! j = Some ip → ¬ (0 < i_ref ip ∧ i_dev ip = dv ∧ inum ip = n)) ∧
      match e with Some _ => e' = e | None => match e' with
        | Some k' => ∃ j ip, k' = (k + j)%nat ∧ l !! j = Some ip ∧ i_ref ip = 0
        | None => ∀ j ip, l !! j = Some ip → i_ref ip ≠ 0 end end
  end.
Proof.
  induction l as [|ip l IH]; intros k e; cbn [iget_scan]; [by destruct e|].
  destruct ((0 <? i_ref ip) && (i_dev ip =? dv) && (inum ip =? n)) eqn:E.
  - apply andb_prop in E as [[E1%Z.ltb_lt E2%Z.eqb_eq]%andb_prop E3%Z.eqb_eq]. exists 0%nat, ip. by rewrite Nat.add_0_r.
  - assert (¬ (0 < i_ref ip ∧ i_dev ip = dv ∧ inum ip = n)) as Hno.
    { intros (H1 & H2 & H3). by rewrite (proj2 (Z.ltb_lt _ _)), (proj2 (Z.eqb_eq _ _)), (proj2 (Z.eqb_eq _ _)) in E. }
    cbn zeta. set (e1 := match e with Some _ => e | None => _ end). specialize (IH (S k) e1). destruct (iget_scan l dv n (S k) e1) as [k'|e'].
    + destruct IH as (j & ip' & -> & Hj & H1). exists (S j), ip'. split; [lia|done].
    + destruct IH as [Hnone He]. split; [intros [|j] ip' Hj; [by injection Hj as <-|by apply (Hnone j)]|].
      subst e1. destruct e as [x|]; [done|]. destruct (Z.eqb_spec (i_ref ip) 0) as [E0|N0].
      * subst e'. exists 0%nat, ip. by rewrite Nat.add_0_r.
      * destruct e' as [k'|]; [|by intros [|j] ip' Hj; [injection Hj as <-|apply (He j)]]. destruct He as (j & ip' & -> & Hj & H0). exists (S j), ip'. split; [lia|done].
Qed.

Section ops.
Context {C : Type} `{BL : BufLaws C cview} (g0 : log) (HL : layout g0) (sb : superblock) (FL : fs_layout g0 sb).
Abbreviation key := (home_key g0).
Abbreviation ninodes := (sb_ninodes sb).
Abbreviation sees := (sees (cview := cview) g0).
Abbreviation fsck := (fsck g0 sb).
Abbreviation din := (din g0 sb).
Abbreviation live := (live g0 sb).
Abbreviation inode_step := (inode_step g0 sb).

(** An entry in use. *)
Record entry_ok (v : disk_map) (ip : inode) : Prop := {
  en_dev : i_dev ip = dev g0;
  en_live : live v (inum ip);
  en_valid : i_valid ip = true → bare ip = din v (inum ip) }.

Record coh (v : disk_map) (hs : list nat) (L : gset nat) (ic : icache) : Prop := {
  co_len : length ic = NINODE;
  co_ref : ∀ k ip, ic !! k = Some ip → i_ref ip = Z.of_nat (count k hs) ∧ i_locked ip = bool_decide (k ∈ L);
  co_held : ∀ k, k ∈ hs → is_Some (ic !! k);
  co_entry : ∀ k ip, ic !! k = Some ip → k ∈ hs → entry_ok v ip;
  co_uniq : ∀ k k' ip ip', ic !! k = Some ip → ic !! k' = Some ip' → k ∈ hs → k' ∈ hs → inum ip = inum ip' → k = k';
  co_lock : ∀ k, k ∈ L → k ∈ hs ∧ ∀ ip, ic !! k = Some ip → i_valid ip = true }.

Lemma coh_get v hs L ic k : coh v hs L ic → k ∈ hs →
  ∃ ip, ic !! k = Some ip ∧ entry_ok v ip ∧ 1 <= i_ref ip ∧ i_ref ip = Z.of_nat (count k hs) ∧ i_locked ip = bool_decide (k ∈ L).
Proof.
  intros Hc Hk. destruct (co_held _ _ _ _ Hc k Hk) as [ip Hip]. exists ip. destruct (co_ref _ _ _ _ Hc k ip Hip) as [Er El].
  apply count_pos in Hk as Hp. split_and!; [done|by eapply co_entry|lia|done|done].
Qed.

(** The disk changes for other inodes than those of the entries in use. *)
Lemma entry_step v v' i ip : inode_step v v' i → inum ip ≠ i → entry_ok v ip → entry_ok v' ip.
Proof.
  intros Hst Hne [Hd Hl Hv]. pose proof Hl as [Hr Ht]. destruct (is_other _ _ _ _ _ Hst (inum ip) Hne ltac:(lia)) as [E _].
  split; [done| |by rewrite E]. split; [done|by rewrite E].
Qed.

(** The entry [k] is rewritten, and its inode on disk. *)
Lemma coh_update v v' hs L L' ic k ip ip' : coh v hs L ic → k ∈ hs → ic !! k = Some ip → inode_step v v' (inum ip) →
  inum ip' = inum ip → i_ref ip' = i_ref ip → i_locked ip' = bool_decide (k ∈ L') → (∀ j, j ≠ k → j ∈ L' ↔ j ∈ L) → i_valid ip' = true → entry_ok v' ip' →
  coh v' hs L' (<[k := ip']> ic).
Proof.
  intros Hc Hk Hip Hst En Er El HL' Hv' He. pose proof (lookup_lt_Some _ _ _ Hip) as Hlt.
  assert (∀ j x, <[k := ip']> ic !! j = Some x → ∃ y, ic !! j = Some y ∧ inum x = inum y ∧ (j = k ∧ x = ip' ∧ y = ip ∨ j ≠ k ∧ x = y)) as Hlk.
  { intros j x Hj. destruct (decide (j = k)) as [->|Hne].
    - rewrite list_lookup_insert_eq in Hj by done. injection Hj as <-. exists ip. split_and!; [done|done|by left].
    - rewrite list_lookup_insert_ne in Hj by done. exists x. split_and!; [done|done|by right]. }
  split.
  - rewrite length_insert. apply (co_len _ _ _ _ Hc).
  - intros j x Hj. destruct (Hlk j x Hj) as (y & Hy & _ & [(-> & -> & ->)|(Hne & ->)]).
    + rewrite Er. split; [|done]. by apply (co_ref _ _ _ _ Hc).
    + rewrite (bool_decide_ext _ _ (HL' j Hne)). by apply (co_ref _ _ _ _ Hc).
  - intros j Hj. destruct (co_held _ _ _ _ Hc j Hj) as [y Hy]. apply lookup_lt_is_Some_2. rewrite length_insert. by eapply lookup_lt_Some.
  - intros j x Hj Hin. destruct (Hlk j x Hj) as (y & Hy & _ & [(-> & -> & ->)|(Hne & ->)]); [done|].
    apply (entry_step v v' (inum ip)); [done| |by eapply co_entry]. intros E. apply Hne. by eapply co_uniq.
  - intros j j' x x' Hj Hj' Hin Hin' E. destruct (Hlk j x Hj) as (y & Hy & Ey & _), (Hlk j' x' Hj') as (y' & Hy' & Ey' & _).
    eapply co_uniq; [done|exact Hy|exact Hy'|done|done|congruence].
  - intros j Hj. destruct (decide (j = k)) as [->|Hne].
    + split; [done|]. intros x Hx. rewrite list_lookup_insert_eq in Hx by done. by injection Hx as <-.
    + rewrite list_lookup_insert_ne by done. by apply (co_lock _ _ _ _ Hc), HL'.
Qed.

(** The numbers of the inodes that clients hold. *)
Definition names (ic : icache) (hs : list nat) (ns : list Z) : Prop := Forall2 (λ k i, ∃ ip, ic !! k = Some ip ∧ inum ip = i) hs ns.

Lemma names_lookup ic hs ns h i : names ic hs ns → ns !! h = Some i → ∃ k ip, hs !! h = Some k ∧ ic !! k = Some ip ∧ inum ip = i.
Proof. intros Hn Hi. destruct (Forall2_lookup_r _ _ _ _ _ Hn Hi) as (k & Hk & ip & Hip & E). by exists k, ip. Qed.

Lemma names_ext ic ic' hs ns : (∀ k ip, k ∈ hs → ic !! k = Some ip → ∃ ip', ic' !! k = Some ip' ∧ inum ip' = inum ip) → names ic hs ns → names ic' hs ns.
Proof.
  intros He Hn. apply Forall2_same_length_lookup. pose proof (proj1 (Forall2_same_length_lookup _ _ _) Hn) as [Hl Hlk]. split; [done|].
  intros h k i Hk Hi. destruct (Hlk h k i Hk Hi) as (ip & Hip & E). destruct (He k ip) as (ip' & Hip' & E'); [by eapply list_elem_of_lookup_2|done|].
  exists ip'. split; [done|congruence].
Qed.

Lemma names_insert ic hs ns k ip ip' : ic !! k = Some ip → inum ip' = inum ip → names ic hs ns → names (<[k := ip']> ic) hs ns.
Proof.
  intros Hip En. apply names_ext. intros j x _ Hj. destruct (decide (j = k)) as [->|Hne].
  - exists ip'. rewrite list_lookup_insert_eq by (by eapply lookup_lt_Some). split; [done|congruence].
  - exists x. by rewrite list_lookup_insert_ne.
Qed.

(** An inode is held by name iff its entry is held. *)
Lemma names_held v ic hs L ns k ip : coh v hs L ic → names ic hs ns → ic !! k = Some ip → k ∈ hs → inum ip ∈ ns.
Proof.
  intros Hc Hn Hip [h Hh]%list_elem_of_lookup. destruct (Forall2_lookup_l _ _ _ _ _ Hn Hh) as (i & Hi & ip' & Hip' & E).
  apply list_elem_of_lookup. exists h. congruence.
Qed.

(** ** [iget], [idup] *)

(** A new pointer [k]: the entry [ip'] is written. *)
Lemma coh_add v hs L ic k ip ip' : coh v hs L ic → ic !! k = Some ip → i_ref ip' = i_ref ip + 1 → i_locked ip' = i_locked ip → entry_ok v ip' →
  (k ∈ hs → inum ip' = inum ip ∧ i_valid ip' = i_valid ip) → (∀ j x, ic !! j = Some x → j ∈ hs → inum x = inum ip' → j = k) →
  coh v (hs ++ [k]) L (<[k := ip']> ic).
Proof.
  intros Hc Hip Er El He Hsame Huniq. pose proof (lookup_lt_Some _ _ _ Hip) as Hlt.
  assert (∀ j x, <[k := ip']> ic !! j = Some x → (j = k ∧ x = ip') ∨ (j ≠ k ∧ ic !! j = Some x)) as Hlk.
  { intros j x Hj. destruct (decide (j = k)) as [->|Hne]; [rewrite list_lookup_insert_eq in Hj by done; injection Hj as <-; by left|].
    rewrite list_lookup_insert_ne in Hj by done. by right. }
  assert (∀ j, j ∈ hs ++ [k] → j ≠ k → j ∈ hs) as Hin by (intros j [?|?%list_elem_of_singleton]%elem_of_app ?; done).
  split.
  - rewrite length_insert. apply (co_len _ _ _ _ Hc).
  - intros j x Hj. rewrite count_snoc. destruct (Hlk j x Hj) as [(-> & ->)|(Hne & Hj')].
    + rewrite decide_True, Er, El by done. destruct (co_ref _ _ _ _ Hc k ip Hip) as [-> ->]. split; [lia|done].
    + rewrite decide_False by done. by apply (co_ref _ _ _ _ Hc).
  - intros j Hj. apply lookup_lt_is_Some_2. rewrite length_insert. destruct (decide (j = k)) as [->|Hne]; [done|].
    destruct (co_held _ _ _ _ Hc j) as [y Hy]; [by apply Hin|]. by eapply lookup_lt_Some.
  - intros j x Hj Hjn. destruct (Hlk j x Hj) as [(-> & ->)|(Hne & Hj')]; [done|]. eapply co_entry; [done|done|by apply Hin].
  - intros j j' x x' Hj Hj' Hn Hn' E. destruct (Hlk j x Hj) as [(-> & ->)|(Hne & Hjx)], (Hlk j' x' Hj') as [(-> & ->)|(Hne' & Hjx')].
    + done.
    + symmetry. eapply Huniq; [exact Hjx'|by apply Hin|done].
    + eapply Huniq; [exact Hjx|by apply Hin|done].
    + eapply co_uniq; [done|exact Hjx|exact Hjx'|by apply Hin|by apply Hin|done].
  - intros j Hj. destruct (co_lock _ _ _ _ Hc j Hj) as [Hjh Hjv]. split; [apply elem_of_app; by left|]. intros x Hx.
    destruct (Hlk j x Hx) as [(-> & ->)|(Hne & Hj')]; [|by apply Hjv]. destruct (Hsame Hjh) as [_ ->]. by apply Hjv.
Qed.

(** Names after a new pointer. *)
Lemma names_add ic hs ns k ip' : names ic hs ns → (∀ ip, k ∈ hs → ic !! k = Some ip → inum ip' = inum ip) → (k < length ic)%nat →
  names (<[k := ip']> ic) (hs ++ [k]) (ns ++ [inum ip']).
Proof.
  intros Hn Hsame Hlt. apply Forall2_app.
  - eapply (names_ext ic); [|done]. intros j x Hj Hx. destruct (decide (j = k)) as [->|Hne].
    + exists ip'. rewrite list_lookup_insert_eq by done. split; [done|by apply Hsame].
    + exists x. by rewrite list_lookup_insert_ne.
  - constructor; [|done]. exists ip'. by rewrite list_lookup_insert_eq.
Qed.

(** The cache has an entry for [i], or an empty one. *)
Definition has_entry (ic : icache) (ns : list Z) (i : Z) : Prop := i ∈ ns ∨ ∃ k ip, ic !! k = Some ip ∧ i_ref ip = 0.

Lemma held_ref v hs L ic k ip : coh v hs L ic → ic !! k = Some ip → (k ∈ hs ↔ 0 < i_ref ip) ∧ 0 <= i_ref ip.
Proof. intros Hc Hip. destruct (co_ref _ _ _ _ Hc k ip Hip) as [-> _]. rewrite <- count_pos. lia. Qed.

(** [iget] finds the entry of a live inode or makes one. *)
Lemma iget_spec v hs L ns ic i : coh v hs L ic → names ic hs ns → live v i → has_entry ic ns i →
  ∃ k ip', iget ic (dev g0) i = Ok (k, <[k := ip']> ic) ∧ inum ip' = i ∧ (k < length ic)%nat ∧
    coh v (hs ++ [k]) L (<[k := ip']> ic) ∧ names (<[k := ip']> ic) (hs ++ [k]) (ns ++ [i]) ∧
    (∀ ip, ic !! k = Some ip → k ∈ hs → i_valid ip' = i_valid ip) ∧ (i ∉ ns → k ∉ hs).
Proof.
  intros Hc Hn Hl He. unfold iget. pose proof (iget_scan_spec (dev g0) i ic 0 None) as Hscan.
  destruct (iget_scan ic (dev g0) i 0 None) as [k|[k|]].
  - destruct Hscan as (j & ip & -> & Hip & Hr & Hd & Hi). cbn [Nat.add]. unfold deref. rewrite Hip, bind_Ok.
    assert (j ∈ hs) as Hj by (by apply (held_ref v hs L ic j ip)). pose proof (lookup_lt_Some _ _ _ Hip) as Hlt.
    destruct (co_ref _ _ _ _ Hc j ip Hip) as [_ El]. exists j, (set_ref (i_ref ip + 1) ip). split_and!; [done|done|done| | |intros; by simplify_eq|].
    + eapply coh_add; [done|done|done|done| |done|].
      * destruct (co_entry _ _ _ _ Hc j ip Hip Hj) as [H1 H2 H3]. by split.
      * intros j' x Hx Hj' E. eapply co_uniq; [done|exact Hx|exact Hip|done|done|done].
    + rewrite <- Hi. apply (names_add ic hs ns j (set_ref (i_ref ip + 1) ip)); [done|intros; by simplify_eq|done].
    + intros Hni. exfalso. apply Hni. rewrite <- Hi. eapply names_held; done.
  - destruct Hscan as [Hnone (j & ip & -> & Hip & Hr)]. cbn [Nat.add]. unfold deref. rewrite Hip, bind_Ok.
    assert (j ∉ hs) as Hj by (rewrite (proj1 (held_ref v hs L ic j ip Hc Hip)); lia). pose proof (lookup_lt_Some _ _ _ Hip) as Hlt.
    destruct (co_ref _ _ _ _ Hc j ip Hip) as [_ El]. exists j, (recycle (dev g0) i ip). split_and!; [done|done|done| | |done|done].
    + eapply coh_add; [done|done|cbn; lia|done|by split|done|]. intros j' x Hx Hj' E. cbn in E. exfalso.
      apply (Hnone j' x Hx). split_and!; [by apply (held_ref v hs L ic j' x)|by eapply co_entry|done].
    + apply (names_add ic hs ns j (recycle (dev g0) i ip)); [done|done|done].
  - exfalso. destruct Hscan as [Hnone Hnr]. destruct He as [[h Hh]%list_elem_of_lookup|(k & ip & Hip & E0)]; [|by apply (Hnr k ip Hip)].
    destruct (names_lookup _ _ _ _ _ Hn Hh) as (k & ip & Hk & Hip & E). apply list_elem_of_lookup_2 in Hk.
    apply (Hnone k ip Hip). split_and!; [by apply (held_ref v hs L ic k ip)|by eapply co_entry|done].
Qed.

Lemma idup_spec v hs L ns ic k i h : coh v hs L ic → names ic hs ns → hs !! h = Some k → ns !! h = Some i →
  ∃ ip ip', ic !! k = Some ip ∧ idup ic k = Ok (<[k := ip']> ic) ∧ coh v (hs ++ [k]) L (<[k := ip']> ic) ∧
    names (<[k := ip']> ic) (hs ++ [k]) (ns ++ [i]) ∧ inum ip' = inum ip ∧ i_valid ip' = i_valid ip.
Proof.
  intros Hc Hn Hk Hi. pose proof (list_elem_of_lookup_2 _ _ _ Hk) as Hin. destruct (coh_get v hs L ic k Hc Hin) as (ip & Hip & [H1 H2 H3] & _ & _ & El).
  exists ip, (set_ref (i_ref ip + 1) ip). unfold idup, deref. rewrite Hip, bind_Ok. split_and!; [done|done| | |done|done].
  - eapply coh_add; [done|done|done|done|by split|done|]. intros j x Hx Hj E. eapply co_uniq; [done|exact Hx|exact Hip|done|done|done].
  - destruct (Forall2_lookup_lr _ _ _ _ _ _ Hn Hk Hi) as (ip' & Hip' & <-). simplify_eq.
    apply (names_add ic hs ns k (set_ref (i_ref ip + 1) ip)); [done|intros; by simplify_eq|by eapply lookup_lt_Some].
Qed.

(** ** [ilock] *)

(** The entry [ip], locked: [ip1]. *)
Record locked_as (v : disk_map) (ip ip1 : inode) : Prop := {
  lk_same : inum ip1 = inum ip ∧ i_dev ip1 = i_dev ip ∧ i_ref ip1 = i_ref ip;
  lk_locked : i_locked ip1 = true;
  lk_valid : i_valid ip1 = true;
  lk_disk : bare ip1 = din v (inum ip) }.

Lemma ilock_spec c g v ip : sees c g v ∅ → entry_ok v ip → 1 <= i_ref ip → i_locked ip = false → room g0 g 0 →
  ∃ ip1 c', ilock sb c ip = Ok (ip1, c') ∧ sees c' g v ∅ ∧ locked_as v ip ip1.
Proof using BL HL FL.
  intros Hs [Hd Hl Hv] Hr Hul Hroom. unfold ilock. rewrite (proj2 (Z.ltb_ge _ _)), Hul by lia.
  change (i_valid (set_ilocked true ip)) with (i_valid ip). destruct (i_valid ip) eqn:Ev.
  - exists (set_ilocked true ip), c. split_and!; [done|done|]. split; [done|done|done|]. by rewrite <- Hv.
  - cbn [i_dev inum set_ilocked]. rewrite Hd. pose proof Hl as [Hi Ht]. destruct (fl_ino _ _ FL (inum ip) ltac:(lia)) as [Hok _].
    destruct (fs_read g0 HL c g v ∅ _ Hs Hok) as (j & c1 & c2 & -> & Ed & E2 & Hs2); [intros j; by rewrite lookup_empty|done|rewrite map_size_empty; lia|].
    rewrite bind_Ok, Ed, bind_Ok, E2, bind_Ok. fold (dinode_at g0 sb v (inum ip)). set (ip1 := load_dinode _ _).
    assert (bare ip1 = din v (inum ip)) as Eb by (unfold ip1, FsCk.din, bare, load_dinode; cbn; by rewrite Hd).
    assert (itype ip1 ≠ 0) as Ht1 by (change (itype (bare ip1) ≠ 0); by rewrite Eb). rewrite (proj2 (Z.eqb_neq _ _)) by done.
    exists ip1, c2. by split_and!.
Qed.

(** ** [iput] *)

(** Every file without a link is held. *)
Definition orphans (v : disk_map) (ic : icache) (hs : list nat) : Prop :=
  ∀ i, live v i → nlink (din v i) = 0 → ∃ k ip, k ∈ hs ∧ ic !! k = Some ip ∧ inum ip = i ∧ i_valid ip = true.

Lemma coh_drop v v' hs L ic h k ip ip' : coh v hs L ic → hs !! h = Some k → ic !! k = Some ip → inode_step v v' (inum ip) →
  inum ip' = inum ip → i_ref ip' = i_ref ip - 1 → i_locked ip' = i_locked ip → k ∉ L → (k ∈ delete h hs → entry_ok v' ip') →
  coh v' (delete h hs) L (<[k := ip']> ic).
Proof.
  intros Hc Hh Hip Hst En Er El HkL He. pose proof (lookup_lt_Some _ _ _ Hip) as Hlt. pose proof (list_elem_of_lookup_2 _ _ _ Hh) as Hk.
  assert (∀ j, j ∈ delete h hs → j ∈ hs) as Hsub by (intros j Hj; eapply elem_of_submseteq; [exact Hj|]; apply sublist_submseteq, sublist_delete).
  assert (∀ j x, <[k := ip']> ic !! j = Some x → ∃ y, ic !! j = Some y ∧ inum x = inum y ∧ (j = k ∧ x = ip' ∧ y = ip ∨ j ≠ k ∧ x = y)) as Hlk.
  { intros j x Hj. destruct (decide (j = k)) as [->|Hne].
    - rewrite list_lookup_insert_eq in Hj by done. injection Hj as <-. exists ip. split_and!; [done|done|by left].
    - rewrite list_lookup_insert_ne in Hj by done. exists x. split_and!; [done|done|by right]. }
  split.
  - rewrite length_insert. apply (co_len _ _ _ _ Hc).
  - intros j x Hj. destruct (Hlk j x Hj) as (y & Hy & _ & [(-> & -> & ->)|(Hne & ->)]); pose proof (co_ref _ _ _ _ Hc _ _ Hy) as [Ey Ly].
    + rewrite Er, Ey, El, Ly. pose proof (count_delete k k h hs Hh) as E. rewrite decide_True in E by done. split; [lia|done].
    + rewrite Ey. pose proof (count_delete j k h hs Hh) as E. rewrite decide_False in E by done. split; [lia|done].
  - intros j Hj. destruct (co_held _ _ _ _ Hc j (Hsub j Hj)) as [y Hy]. apply lookup_lt_is_Some_2. rewrite length_insert. by eapply lookup_lt_Some.
  - intros j x Hj Hin. destruct (Hlk j x Hj) as (y & Hy & _ & [(-> & -> & ->)|(Hne & ->)]); [by apply He|].
    apply (entry_step v v' (inum ip)); [done| |by eapply co_entry; [done|done|apply Hsub]]. intros E. apply Hne. eapply co_uniq; [done|exact Hy|exact Hip|by apply Hsub|done|done].
  - intros j j' x x' Hj Hj' Hin Hin' E. destruct (Hlk j x Hj) as (y & Hy & Ey & _), (Hlk j' x' Hj') as (y' & Hy' & Ey' & _).
    eapply co_uniq; [done|exact Hy|exact Hy'|by apply Hsub|by apply Hsub|congruence].
  - intros j Hj. destruct (co_lock _ _ _ _ Hc j Hj) as [Hjh Hjv]. assert (j ≠ k) as Hne by (by intros ->).
    rewrite list_lookup_insert_ne by done. split; [by eapply elem_of_delete|done].
Qed.

Lemma last_pointer v hs L ns ic h k ip : coh v hs L ic → names ic hs ns → hs !! h = Some k → ic !! k = Some ip →
  (i_ref ip = 1 ↔ k ∉ delete h hs) ∧ (k ∉ delete h hs ↔ inum ip ∉ delete h ns).
Proof.
  intros Hc Hn Hh Hip. pose proof (list_elem_of_lookup_2 _ _ _ Hh) as Hk. assert (names ic (delete h hs) (delete h ns)) as Hnd by (by apply Forall2_delete). split.
  - destruct (co_ref _ _ _ _ Hc k ip Hip) as [-> _]. pose proof (count_delete k k h hs Hh) as E. rewrite decide_True in E by done.
    rewrite <- count_pos. lia.
  - split; intros Hno Hin; apply Hno.
    + apply list_elem_of_lookup in Hin as [h' Hh']. destruct (names_lookup _ _ _ _ _ Hnd Hh') as (k' & ip' & Hk' & Hip' & E).
      apply list_elem_of_lookup_2 in Hk'. assert (k' = k) as <-; [|done]. eapply co_uniq; [done|exact Hip'|exact Hip| |done|done].
      eapply elem_of_submseteq; [exact Hk'|]. apply sublist_submseteq, sublist_delete.
    + apply list_elem_of_lookup in Hin as [h' Hh']. destruct (Forall2_lookup_l _ _ _ _ _ Hnd Hh') as (i' & Hi' & ip' & Hip' & E). simplify_eq.
      by eapply list_elem_of_lookup_2.
Qed.

(** The last pointer to a file without links: its blocks and its inode are freed. *)
Lemma free_step c g v ip : sees c g v ∅ → fsck v → live v (inum ip) → bare ip = din v (inum ip) → room g0 g 3 →
  ∃ ip' c' v' bl,
    ('(ip, c, g) ← itrunc sb c g ip;
     let ip := set_type 0 ip in
     '(c, g) ← iupdate sb c g ip;
     Ok (set_valid false ip, c, g)) = Ok (ip', c', logs g bl) ∧ (length bl ≤ 3)%nat ∧ sees c' (logs g bl) v' ∅ ∧ inode_step v v' (inum ip) ∧
    ¬ live v' (inum ip) ∧ inum ip' = inum ip ∧ i_ref ip' = i_ref ip ∧ (size (free_blocks g0 sb v) ≤ size (free_blocks g0 sb v'))%nat.
Proof using BL HL FL.
  intros Hs Hck Hl Eb Hr. pose proof Hl as [Hi _]. assert (0 <= inum ip < ninodes) as Hi0 by lia.
  destruct (trunc_step g0 HL sb FL c g v ip Hs Hck Hl Eb) as (c1 & v1 & bl1 & E1 & Hl1 & Hs1 & Hst1 & Edin1 & Hlive1 & Hfr1); [eapply room_le; [|done]; lia|].
  set (ip1 := set_size 0 (zeroed ip 0 13)) in *. set (ip2 := set_type 0 ip1). rewrite E1, bind_Ok. cbn zeta. fold ip2.
  pose proof (cached_good g0 sb v1 ip1 (is_ck _ _ _ _ _ Hst1) Hlive1 (eq_sym Edin1)) as Hg1.
  assert (addrs ip1 = replicate 13 0) as Ea.
  { apply zeroed_all. apply (fo_len _ _ _ _ (gf_ok _ _ _ _ (cached_good g0 sb v ip Hck Hl Eb))). }
  assert (file_ok g0 sb v1 ip2) as Hf2 by (destruct Hg1 as [[] _ _]; by split).
  destruct (iupdate_spec g0 HL sb FL c1 (logs g bl1) v1 ip2 Hs1 Hf2) as (c2 & E2 & Hs2 & Edi2 & _); [apply room_logs; eapply room_le; [|done]; lia|by apply (ck_len _ _ _ (is_ck _ _ _ _ _ Hst1))|].
  change (inum ip2) with (inum ip) in *. rewrite E2, bind_Ok, logs_app in *. set (v2 := inode_put g0 sb v1 (inum ip) (dinode_bytes ip2)) in *.
  assert (fields_ok ip2) as Hfd by (destruct (fields_good g0 sb FL v1 ip1 Hg1); by split).
  assert (din v2 (inum ip) = bare ip2) as Edin2 by (apply (din_bytes g0 sb v2 ip2); [done|apply (fo_dev _ _ _ _ Hf2)|done]).
  assert (¬ live v2 (inum ip)) as Hnl by (intros [_ Ht]; by rewrite Edin2 in Ht).
  destruct (fl_ino _ _ FL (inum ip) Hi0) as [_ Hbm].
  eexists (set_valid false ip2), c2, v2, _. split_and!; [done|rewrite length_app; cbn; lia|exact Hs2| |done|done|done|].
  - eapply inode_step_trans; [done|]. apply put_step; [done|apply Hst1|done|apply length_dinode_bytes, Hfd|by intros|]. fold v2.
    unfold blocks_of. rewrite decide_False, decide_True by done. rewrite Edin1. symmetry. by apply file_blocks_empty.
  - rewrite (free_blocks_ext g0 sb v1 v2); [done|]. by apply put_keeps.
Qed.

Lemma bare_locked x ip : bare (set_ilocked x ip) = bare ip.
Proof. done. Qed.

Lemma entry_nlink v ip : entry_ok v ip → i_valid ip = true → nlink ip = nlink (din v (inum ip)).
Proof. intros He Hv. by rewrite <- (en_valid _ _ He Hv). Qed.

(** Only a valid entry can be of a file without links. *)
Lemma orphan_valid v hs L ic k ip : coh v hs L ic → orphans v ic hs → k ∈ hs → ic !! k = Some ip → nlink (din v (inum ip)) = 0 → i_valid ip = true.
Proof.
  intros Hc Ho Hk Hip H0. destruct (Ho (inum ip)) as (k' & ip' & Hk' & Hip' & E & Hv); [apply (co_entry _ _ _ _ Hc k ip Hip Hk)|done|].
  assert (k' = k) as -> by (by eapply co_uniq). by simplify_eq.
Qed.

Lemma iput_spec c g v hs L ns ic h k i : sees c g v ∅ → fsck v → coh v hs L ic → names ic hs ns → orphans v ic hs →
  hs !! h = Some k → ns !! h = Some i → k ∉ L → room g0 g 3 →
  ∃ c' v' bl ic', iput sb c g ic k = Ok (c', logs g bl, ic') ∧ (length bl ≤ 3)%nat ∧ sees c' (logs g bl) v' ∅ ∧
    inode_step v v' i ∧ coh v' (delete h hs) L ic' ∧ names ic' (delete h hs) (delete h ns) ∧ orphans v' ic' (delete h hs) ∧
    (if decide ((i ∉ delete h ns) ∧ nlink (din v i) = 0) then ¬ live v' i else v' = v ∧ bl = []) ∧
    (∀ j x, ic !! j = Some x → j ≠ k → ic' !! j = Some x) ∧
    (size (free_blocks g0 sb v) ≤ size (free_blocks g0 sb v'))%nat.
Proof using BL HL FL.
  intros Hs Hck Hc Hn Ho Hh Hi HkL Hr. pose proof (list_elem_of_lookup_2 _ _ _ Hh) as Hk.
  destruct (coh_get v hs L ic k Hc Hk) as (ip & Hip & He & Hr1 & Er & El). rewrite bool_decide_eq_false_2 in El by done. pose proof (lookup_lt_Some _ _ _ Hip) as Hlt.
  assert (inum ip = i) as Ei by (destruct (Forall2_lookup_lr _ _ _ _ _ _ Hn Hh Hi) as (ip' & Hip' & <-); by simplify_eq).
  destruct (last_pointer v hs L ns ic h k ip Hc Hn Hh Hip) as [Hlast1 Hlast2].
  assert ((i_valid ip && (nlink ip =? 0) && (i_ref ip =? 1)) = bool_decide ((i ∉ delete h ns) ∧ nlink (din v i) = 0)) as Econd.
  { apply eq_bool_prop_intro. rewrite bool_decide_spec, !andb_True, !Is_true_true, !Z.eqb_eq, Hlast1, Hlast2, Ei.
    split; [intros ((Hv & H0) & Hno); split; [done|]; rewrite <- Ei, <- (entry_nlink v ip He Hv); done|].
    intros [Hno H0]. rewrite <- Ei in H0. pose proof (orphan_valid v hs L ic k ip Hc Ho Hk Hip H0) as Hv. split_and!; [done| |done].
    by rewrite (entry_nlink v ip He Hv). }
  assert (names ic (delete h hs) (delete h ns)) as Hnd by (by apply Forall2_delete).
  unfold iput, deref. rewrite Hip, bind_Ok, El. change (i_valid (set_ilocked true ip) && (nlink (set_ilocked true ip) =? 0) && (i_ref (set_ilocked true ip) =? 1))
    with (i_valid ip && (nlink ip =? 0) && (i_ref ip =? 1)). rewrite Econd. destruct (bool_decide_reflect ((i ∉ delete h ns) ∧ nlink (din v i) = 0)) as [[Hno H0]|Hkeep].
  - rewrite <- Ei in H0, Hno. assert (bare ip = din v (inum ip)) as Eb by (apply (en_valid _ _ He), (orphan_valid v hs L ic k ip); done).
    destruct (free_step c g v (set_ilocked true ip) Hs Hck (en_live _ _ He) Eb Hr) as (ip' & c' & v' & bl & E & Hbl & Hs' & Hst & Hnl & En & Erf & Hfr).
    cbv zeta iota in E |- *. rewrite E, bind_Ok. cbn [set_ilocked inum i_ref] in *. rewrite Ei in *.
    assert (k ∉ delete h hs) as Hkno by (by rewrite Hlast2).
    eexists c', v', bl, _. rewrite decide_True by done. split_and!; [done|done|done|done| | | |done|by intros; rewrite list_lookup_insert_ne|done].
    + eapply coh_drop; [done|done|done|by rewrite Ei|cbn; congruence|cbn; lia|by rewrite El|done|done].
    + apply (names_insert _ _ _ _ ip); [done|cbn; congruence|done].
    + intros j Hlj Hj0. destruct (decide (j = i)) as [->|Hne]; [done|]. destruct Hlj as [Hjr Hjt]. destruct (is_other _ _ _ _ _ Hst j Hne ltac:(lia)) as [Ej _].
      rewrite Ej in Hj0, Hjt. destruct (Ho j) as (k' & ip1 & Hk' & Hip1 & E1 & Hv1); [by split|done|].
      assert (k' ≠ k) as Hkk by (intros ->; simplify_eq). exists k', ip1. split_and!; [|by rewrite list_lookup_insert_ne|done|done].
      by eapply elem_of_delete.
  - rewrite bind_Ok. assert (inode_step v v i) as Hst by (by apply inode_step_refl).
    eexists c, v, [], _. rewrite logs_nil, decide_False by done. split_and!; [done|cbn; lia|done|done| | | |done|done|by intros; rewrite list_lookup_insert_ne|done].
    + eapply coh_drop; [done|done|done|by rewrite Ei|done|done|by rewrite El|done|]. intros _. destruct He. by split.
    + by apply (names_insert _ _ _ _ ip).
    + intros j Hlj Hj0. destruct (Ho j Hlj Hj0) as (k' & ip1 & Hk' & Hip1 & E1 & Hv1). destruct (decide (k' = k)) as [->|Hkk].
      * simplify_eq. eexists k, _. split_and!; [|by rewrite list_lookup_insert_eq|done|done].
        destruct (decide (k ∈ delete h hs)) as [?|Hno]; [done|]. exfalso. apply Hkeep. split; [|done]. by apply Hlast2.
      * exists k', ip1. split_and!; [by eapply elem_of_delete|by rewrite list_lookup_insert_ne|done|done].
Qed.

(** ** [ialloc] *)

Lemma coh_step v v' i hs L ic : inode_step v v' i → ¬ live v i → coh v hs L ic → coh v' hs L ic.
Proof.
  intros Hst Hnl Hc. destruct Hc as [H1 H2 H3 H4 H5 H6]. split; try done. intros k ip Hip Hk. apply (entry_step v v' i); [done| |by eapply H4].
  intros <-. apply Hnl, (en_live _ _ (H4 k ip Hip Hk)).
Qed.

Lemma type_at v i : short_at (drop (Z.to_nat (i mod IPB) * DINODE) (v !!! key (IBLOCK sb i))) 0 = itype (din v i).
Proof. unfold FsCk.din, dinode_at, load_dinode. cbn [itype]. unfold short_at. rewrite !drop_0, take_take. done. Qed.

Lemma ialloc_loop_spec type hs L ns ic i0 v n : ∀ c g i, sees c g v ∅ → fsck v → coh v hs L ic → names ic hs ns → 1 <= i <= i0 → i0 < ninodes →
  i0 < i + Z.of_nat n → (∀ j, i <= j < i0 → live v j) → ¬ live v i0 → is_short type → type ≠ 0 → has_entry ic ns i0 → room g0 g 1 →
  let v' := inode_put g0 sb v i0 (new_dinode type) in
  ∃ k ip' c', ialloc_loop sb c g ic (dev g0) type i n = Ok (k, c', logs g [IBLOCK sb i0], <[k := ip']> ic) ∧
    sees c' (logs g [IBLOCK sb i0]) v' ∅ ∧ coh v' (hs ++ [k]) L (<[k := ip']> ic) ∧ names (<[k := ip']> ic) (hs ++ [k]) (ns ++ [i0]) ∧
    inum ip' = i0 ∧ (k < length ic)%nat ∧ k ∉ hs.
Proof using BL HL FL.
  induction n as [|n IH]; intros c g i Hs Hck Hc Hn Hi Hmax Hfuel Hlv Hnl Hty Ht0 He Hr v'; [lia|]. cbn [ialloc_loop].
  destruct (fl_ino _ _ FL i ltac:(lia)) as [Hok _].
  destruct (decide (i = i0)) as [->|Hne].
  - destruct (fs_modify g0 HL c g v ∅ _ Hs Hok) as (b & c1 & -> & Ed & Hst); [intros j; by rewrite lookup_empty|done|rewrite map_size_empty; lia|].
    rewrite bind_Ok, Ed, bind_Ok. cbn zeta. rewrite type_at. assert (itype (din v i0) = 0) as Et.
    { destruct (decide (itype (din v i0) = 0)) as [?|Ht]; [done|]. exfalso. apply Hnl. split; [lia|done]. }
    rewrite Et. cbn [Z.eqb]. destruct (Hst (splice (v !!! key (IBLOCK sb i0)) (Z.to_nat (i0 mod IPB) * DINODE) (new_dinode type))) as (c2 & c3 & -> & E3 & Hs3).
    rewrite bind_Ok, E3, bind_Ok. destruct (alloc_step g0 sb FL v i0 type Hck ltac:(lia) Hnl Hty Ht0) as (Hist & _ & Hl').
    pose proof (coh_step v v' i0 hs L ic Hist Hnl Hc) as Hc'.
    destruct (iget_spec v' hs L ns ic i0 Hc' Hn Hl' He) as (k & ip' & -> & Ei & Hlt & Hc2 & Hn2 & _ & Hfresh). rewrite bind_Ok.
    exists k, ip', c3. split_and!; [done|exact Hs3|done|done|done|done|]. apply Hfresh. intros [h Hh]%list_elem_of_lookup.
    destruct (names_lookup _ _ _ _ _ Hn Hh) as (k' & x & Hk' & Hx & Ex). apply Hnl. rewrite <- Ex.
    eapply en_live, co_entry; [done|done|by eapply list_elem_of_lookup_2].
  - destruct (fs_read g0 HL c g v ∅ _ Hs Hok) as (b & c1 & c2 & -> & Ed & E2 & Hs2); [intros j; by rewrite lookup_empty|by eapply room_le; [|done]; lia|rewrite map_size_empty; lia|].
    rewrite bind_Ok, Ed, bind_Ok. cbn zeta. rewrite type_at, (proj2 (Z.eqb_neq _ _)) by (apply Hlv; lia). rewrite E2, bind_Ok.
    apply IH; try done; try lia. intros j Hj. apply Hlv. lia.
Qed.
End ops.
