(* ===== verification/IcacheThm.v ===== *)
(** The inode layer (src/p4/fs.c) as a map from inode numbers to files.

    Clients hold pointers into the inode cache and use them as file.c and sysfile.c do: every call that may write is one
    transaction.  The specification is a finite map and the list of the inodes held. *)

From Stdlib Require Import ZArith Lia.
From stdpp Require Import base numbers list gmap fin_sets sets strings.
From S2P Require Import Prelude Bio Log LogCrash Fs FsSpec FsTrunc File FileThm FsCk Icache IcacheSpec IcacheOps.
#[local] Open Scope Z_scope.

(** * Calls *)

Inductive fcall :=
| Create (type maj min : Z)
| Open (i : Z)
| Dup (h : nat)
| Close (h : nat)
| ReadAt (h : nat) (off n : Z)
| WriteAt (h : nat) (off : Z) (src : list Z)
| Relink (h : nat) (d : Z).

Definition set_nlink (n : Z) (ip : inode) : inode :=
  Inode (i_dev ip) (inum ip) (i_ref ip) (i_locked ip) (i_valid ip) (itype ip) (major ip) (minor ip) n (isize ip) (addrs ip).
Definition set_devno (ma mi : Z) (ip : inode) : inode :=
  Inode (i_dev ip) (inum ip) (i_ref ip) (i_locked ip) (i_valid ip) (itype ip) ma mi (nlink ip) (isize ip) (addrs ip).

(** Conversion to [short]. *)
Definition s16 (x : Z) : Z := (x + 2 ^ 15) mod 2 ^ 16 - 2 ^ 15.

Lemma s16_small x : is_short x → s16 x = x.
Proof. unfold is_short, s16. intros. rewrite Z.mod_small; lia. Qed.

Section calls.
Context {C : Type} `{BufOps C} (sb : superblock).
Context (devsw_read : Z → option (C → log → inode → Z → outcome (Z * list Z * inode * C * log))).
Context (devsw_write : Z → option (C → log → inode → list Z → outcome (Z * inode * C * log))).

Definition start_op (g : log) : outcome log := match begin_op g with Some g => Ok g | None => Fault 0 end.
Definition pointer (hs : list nat) (h : nat) : outcome nat := match hs !! h with Some k => Ok k | None => Fault (Z.of_nat h) end.

(** [ip = ialloc(...); ilock(ip); ip->major = ...; ip->minor = ...; ip->nlink = 1; iupdate(ip); iunlock(ip);] *)
Definition create_inode (c : C) (g : log) (ic : icache) (type maj min : Z) : outcome (nat * C * log * icache) :=
  '(k, c, g, ic) ← ialloc sb c g ic ROOTDEV type;
  '(c, ic) ← ilock_at sb c ic k;
  ip ← deref ic k;
  let ip := set_nlink 1 (set_devno maj min ip) in
  '(c, g) ← iupdate sb c g ip;
  ic ← iunlock_at (<[k := ip]> ic) k;
  Ok (k, c, g, ic).

(** [ilock(ip); writei(ip, ...); iunlock(ip);] *)
Definition write_inode (c : C) (g : log) (ic : icache) (k : nat) (off : Z) (src : list Z) : outcome (Z * C * log * icache) :=
  '(c, ic) ← ilock_at sb c ic k;
  ip ← deref ic k;
  '(r, ip, c, g) ← writei sb devsw_write c g ip src off;
  ic ← iunlock_at (<[k := ip]> ic) k;
  Ok (r, c, g, ic).

(** [ilock(ip); readi(ip, ...); iunlock(ip);] *)
Definition read_inode (c : C) (g : log) (ic : icache) (k : nat) (off n : Z) : outcome (Z * list Z * C * log * icache) :=
  '(c, ic) ← ilock_at sb c ic k;
  ip ← deref ic k;
  '(r, l, ip, c, g) ← readi sb devsw_read c g ip off n;
  ic ← iunlock_at (<[k := ip]> ic) k;
  Ok (r, l, c, g, ic).

(** [ilock(ip); ip->nlink += d; iupdate(ip); iunlock(ip);] *)
Definition relink_inode (c : C) (g : log) (ic : icache) (k : nat) (d : Z) : outcome (C * log * icache) :=
  '(c, ic) ← ilock_at sb c ic k;
  ip ← deref ic k;
  let ip := set_nlink (s16 (nlink ip + d)) ip in
  '(c, g) ← iupdate sb c g ip;
  ic ← iunlock_at (<[k := ip]> ic) k;
  Ok (c, g, ic).

(** The result, the bytes read, the new state. *)
Definition do_call (c : C) (g : log) (ic : icache) (hs : list nat) (op : fcall) : outcome (Z * list Z * C * log * icache * list nat) :=
  match op with
  | Create type maj min =>
      g ← start_op g;
      '(k, c, g, ic) ← create_inode c g ic type maj min;
      ip ← deref ic k;
      '(c, g) ← end_op c g;
      Ok (inum ip, [], c, g, ic, hs ++ [k])
  | Open i =>
      '(k, ic) ← iget ic ROOTDEV i;
      Ok (0, [], c, g, ic, hs ++ [k])
  | Dup h =>
      k ← pointer hs h;
      ic ← idup ic k;
      Ok (0, [], c, g, ic, hs ++ [k])
  | Close h =>
      k ← pointer hs h;
      g ← start_op g;
      '(c, g, ic) ← iput sb c g ic k;
      '(c, g) ← end_op c g;
      Ok (0, [], c, g, ic, delete h hs)
  | ReadAt h off n =>
      k ← pointer hs h;
      '(r, l, c, g, ic) ← read_inode c g ic k off n;
      Ok (r, l, c, g, ic, hs)
  | WriteAt h off src =>
      k ← pointer hs h;
      g ← start_op g;
      '(r, c, g, ic) ← write_inode c g ic k off src;
      '(c, g) ← end_op c g;
      Ok (r, [], c, g, ic, hs)
  | Relink h d =>
      k ← pointer hs h;
      g ← start_op g;
      '(c, g, ic) ← relink_inode c g ic k d;
      '(c, g) ← end_op c g;
      Ok (0, [], c, g, ic, hs)
  end.

Fixpoint do_calls (c : C) (g : log) (ic : icache) (hs : list nat) (ops : list fcall) : outcome (list (Z * list Z) * C * log * icache * list nat) :=
  match ops with
  | [] => Ok ([], c, g, ic, hs)
  | op :: ops' =>
      '(r, x, c, g, ic, hs) ← do_call c g ic hs op;
      '(rs, c, g, ic, hs) ← do_calls c g ic hs ops';
      Ok ((r, x) :: rs, c, g, ic, hs)
  end.
End calls.

(** * The specification *)

Record afs := AFs { files : gmap Z afile; handles : list Z }.

Section spec.
Context (sb : superblock).

Definition the_file (a : afs) (h : nat) : option (Z * afile) := i ← handles a !! h; f ← files a !! i; Some (i, f).

(** The number of the first free inode. *)
Definition fresh_inum (m : gmap Z afile) : option Z := head (filter (λ i, m !! i = None) (seqZ 1 (sb_ninodes sb - 1))).

Definition set_data (l : list Z) (f : afile) : afile := AFile (a_type f) (a_major f) (a_minor f) (a_nlink f) l.
Definition set_links (n : Z) (f : afile) : afile := AFile (a_type f) (a_major f) (a_minor f) n (a_data f).

Definition spec_call (a : afs) (op : fcall) : Z * list Z * afs :=
  match op with
  | Create type maj min =>
      let i := default 0 (fresh_inum (files a)) in
      (i, [], AFs (<[i := AFile type maj min 1 []]> (files a)) (handles a ++ [i]))
  | Open i => (0, [], AFs (files a) (handles a ++ [i]))
  | Dup h => (0, [], AFs (files a) (handles a ++ [default 0 (handles a !! h)]))
  | Close h =>
      match the_file a h with
      | None => (0, [], a)
      | Some (i, f) =>
          let hs := delete h (handles a) in
          (0, [], AFs (if decide ((i ∉ hs) ∧ a_nlink f = 0) then delete i (files a) else files a) hs)
      end
  | ReadAt h off n =>
      match the_file a h with
      | None => (0, [], a)
      | Some (_, f) =>
          if decide (off <= Z.of_nat (length (a_data f)) ∧ off + n < 2 ^ 32) then
            let x := take (Z.to_nat n) (drop (Z.to_nat off) (a_data f)) in (Z.of_nat (length x), x, a)
          else (-1, [], a)
      end
  | WriteAt h off src =>
      match the_file a h with
      | None => (0, [], a)
      | Some (i, f) =>
          if decide (off <= Z.of_nat (length (a_data f)) ∧ off + Z.of_nat (length src) <= Z.of_nat MAXBYTES) then
            (Z.of_nat (length src), [], AFs (<[i := set_data (write_at (a_data f) (Z.to_nat off) src) f]> (files a)) (handles a))
          else (-1, [], a)
      end
  | Relink h d =>
      match the_file a h with
      | None => (0, [], a)
      | Some (i, f) => (0, [], AFs (<[i := set_links (a_nlink f + d) f]> (files a)) (handles a))
      end
  end.

Definition cached (a : afs) : nat := size (list_to_set (handles a) : gset Z).

(** What a call needs: inodes and cache entries are left, the pointer is held, and the arguments are in range. *)
Definition call_ok (a : afs) (op : fcall) : Prop :=
  match op with
  | Create type maj min => is_Some (fresh_inum (files a)) ∧ (cached a < NINODE)%nat ∧ is_short type ∧ type ≠ 0 ∧ is_short maj ∧ is_short min
  | Open i => is_Some (files a !! i) ∧ (i ∈ handles a ∨ (cached a < NINODE)%nat)
  | Dup h | Close h => is_Some (handles a !! h)
  | ReadAt h off n => ∃ i f, the_file a h = Some (i, f) ∧ a_type f ≠ T_DEV ∧ is_u32 off ∧ is_u32 n
  | WriteAt h off src => ∃ i f, the_file a h = Some (i, f) ∧ a_type f ≠ T_DEV ∧ is_u32 off ∧ (length src ≤ 1536)%nat
  | Relink h d => ∃ i f, the_file a h = Some (i, f) ∧ is_short (a_nlink f + d)
  end.

Fixpoint spec_calls (a : afs) (ops : list fcall) : list (Z * list Z) * afs :=
  match ops with
  | [] => ([], a)
  | op :: ops' => let '(r, x, a) := spec_call a op in let '(rs, a) := spec_calls a ops' in ((r, x) :: rs, a)
  end.

Fixpoint calls_ok (a : afs) (ops : list fcall) : Prop :=
  match ops with [] => True | op :: ops' => call_ok a op ∧ calls_ok (spec_call a op).2 ops' end.
End spec.

(** The blocks that a call may take. *)
Definition call_blocks (op : fcall) : nat := match op with WriteAt _ _ _ => 8 | _ => 0 end.

(** * Refinement *)

(** Sets of locked entries. *)
Lemma lock_add (k : nat) (L : gset nat) : (k ∈ {[k]} ∪ L) ∧ ∀ j, j ≠ k → j ∈ {[k]} ∪ L ↔ j ∈ L.
Proof. set_solver. Qed.
Lemma lock_remove (k : nat) (L : gset nat) : (k ∉ L ∖ {[k]}) ∧ ∀ j, j ≠ k → j ∈ L ∖ {[k]} ↔ j ∈ L.
Proof. set_solver. Qed.

Section refine.
Context {C : Type} `{BL : BufLaws C cview} (g0 : log) (HL : layout g0) (Hid : idle g0) (sb : superblock) (FL : fs_layout g0 sb).
Abbreviation key := (home_key g0).
Abbreviation ninodes := (sb_ninodes sb).
Abbreviation sees := (sees (cview := cview) g0).
Abbreviation at_rest := (at_rest (cview := cview)).
Abbreviation fsck := (fsck g0 sb).
Abbreviation din := (din g0 sb).
Abbreviation live := (live g0 sb).
Abbreviation inode_step := (inode_step g0 sb).
Abbreviation coh := (coh g0 sb).
Abbreviation orphans := (orphans g0 sb).
Abbreviation shows := (shows g0 sb).
Abbreviation free := (free_blocks g0 sb).

(** The disk [v], the cache [ic] with the entries [L] locked and the pointers [hs] implement [a]. *)
Record implements (v : disk_map) (ic : icache) (hs : list nat) (L : gset nat) (a : afs) : Prop := {
  im_ck : fsck v;
  im_files : shows v (files a);
  im_coh : coh v hs L ic;
  im_names : names ic hs (handles a);
  im_orphans : orphans v ic hs }.

(** ** The end of a transaction *)

Section agree.
Context (v v' : disk_map) (Hag : agree g0 v v').

Lemma agree_din i : 0 <= i < ninodes → din v' i = din v i.
Proof using FL Hag. intros Hi. unfold FsCk.din, dinode_at. rewrite (Hag _); [done|]. by apply (fl_ino _ _ FL). Qed.

Lemma agree_live i : live v' i ↔ live v i.
Proof using FL Hag. unfold FsCk.live. split; intros [Hi Ht]; (split; [done|]); rewrite agree_din in * by lia; done. Qed.

Lemma agree_data b : data_block g0 sb v b → v' !!! key b = v !!! key b ∧ used g0 sb v' b.
Proof using FL Hag.
  intros Hb. destruct (data_not_meta g0 sb v b Hb) as (Hok & _). split; [by apply Hag|]. unfold used. rewrite (agree_bm g0 sb FL v v' Hag). apply Hb.
Qed.

(** Blocks outside of the log decide about the files, so a commit changes nothing. *)
Lemma agree_step : fsck v → inode_step v v' 0.
Proof using FL Hag.
  intros Hck. assert (¬ live v 0) as Hl0 by (intros [? _]; lia). assert (¬ live v' 0) as Hl0' by (by rewrite agree_live).
  destruct (fsck_step g0 sb v v' 0 Hck) as [H1 H2]; [by apply (agree_fs_inv g0 sb FL v), (ck_inv _ _ _ Hck)| |intros b Hb _; by apply agree_data|done| | |by split].
  - intros j Hj. destruct (fl_ino _ _ FL j Hj) as [Hok _]. unfold dinode_at. by rewrite (Hag _ Hok).
  - intros b [? _]%blocks_live. done.
  - intros b Hb Hu Hm. right. unfold used in *. rewrite (agree_bm g0 sb FL v v' Hag) in Hu. split; [done|]. by intros [? _]%blocks_live.
Qed.

Lemma agree_implements ic hs L a : implements v ic hs L a → implements v' ic hs L a.
Proof using FL Hag.
  intros [Hck Hsh Hc Hn Ho]. pose proof (agree_step Hck) as Hst. assert (∀ i, live v i → din v' i = din v i) as Hd by (intros i [? _]; apply agree_din; lia).
  split; [apply Hst| |by apply (coh_step g0 sb v v' 0); [|intros [? _]; lia|]|done|].
  - intros i. rewrite (Hsh i). destruct (decide (live v i)) as [Hl|Hl]; [rewrite decide_True by (by apply agree_live)|by rewrite decide_False by (by rewrite agree_live)].
    unfold afile_of. rewrite (Hd i Hl). pose proof Hl as [Hi _]. destruct (is_other _ _ _ _ _ Hst i ltac:(lia) ltac:(lia)) as [_ ->]; done.
  - intros i Hl H0. apply agree_live in Hl. rewrite (Hd i Hl) in H0. by apply Ho.
Qed.
End agree.

Abbreviation g1 := (File.g1 g0).

Lemma finish c v bl ic hs L a : sees c (logs g1 bl) v ∅ → (length bl ≤ 25)%nat → 26 <= lsize g0 → implements v ic hs L a →
  ∃ c' v', end_op c (logs g1 bl) = Ok (c', g0) ∧ at_rest c' v' ∧ implements v' ic hs L a ∧ free v' = free v.
Proof using BL HL Hid FL.
  intros Hs Hl Hsz Him. assert (length (lh (logs g1 bl)) ≤ 25)%nat as Hlen.
  { pose proof (logs_length g1 bl) as Hll. destruct Hid as (_ & _ & Hlh). change (lh g1) with (lh g0) in Hll. rewrite Hlh in Hll. cbn [length] in Hll. lia. }
  destruct (end_sees g0 HL Hid c v bl Hs) as (c' & v' & E & Hr & Hag); [unfold NBUF; lia|lia|]. exists c', v'.
  split_and!; [done|done|by eapply agree_implements|]. by apply (agree_free g0 sb FL v v').
Qed.

Lemma start_sees c v : at_rest c v → start_op g0 = Ok g1 ∧ sees c g1 v ∅.
Proof using BL Hid. intros Hr. destruct (begin_sees g0 Hid c v Hr) as [E Hs]. unfold start_op. by rewrite E. Qed.

Lemma room_start n : (n ≤ 25)%nat → 26 <= lsize g0 → room g0 g1 n.
Proof using Hid. intros Hn Hsz. destruct Hid as (_ & _ & Hlh). unfold room. cbn [g1 set_outstanding lh outstanding]. rewrite Hlh. cbn [length]. lia. Qed.

(** ** Files *)

Lemma shows_live v m i f : shows v m → m !! i = Some f → live v i ∧ f = afile_of g0 v (din v i).
Proof. intros Hs. rewrite (Hs i). case_decide; [|done]. by intros [= <-]. Qed.

Lemma shows_dead v m i : shows v m → m !! i = None ↔ ¬ live v i.
Proof. intros Hs. rewrite (Hs i). by case_decide. Qed.

Lemma shows_insert v v' i m x : shows v m → inode_step v v' i → live v' i → afile_of g0 v' (din v' i) = x → shows v' (<[i := x]> m).
Proof.
  intros Hs Hst Hl Ex. pose proof (shows_step g0 sb v v' i m Hs (is_other _ _ _ _ _ Hst)) as Hs'. intros j. rewrite <- (Hs' j).
  destruct (decide (j = i)) as [->|Hne]; [by rewrite lookup_insert_eq, lookup_partial_alter_eq, decide_True, Ex|by rewrite lookup_insert_ne, lookup_partial_alter_ne].
Qed.

Lemma shows_delete v v' i m : shows v m → inode_step v v' i → ¬ live v' i → shows v' (delete i m).
Proof.
  intros Hs Hst Hl. pose proof (shows_step g0 sb v v' i m Hs (is_other _ _ _ _ _ Hst)) as Hs'. intros j. rewrite <- (Hs' j).
  destruct (decide (j = i)) as [->|Hne]; [by rewrite lookup_delete_eq, lookup_partial_alter_eq, decide_False|by rewrite lookup_delete_ne, lookup_partial_alter_ne].
Qed.

Lemma fresh_inum_spec v m i : shows v m → fresh_inum sb m = Some i → 1 <= i < ninodes ∧ ¬ live v i ∧ ∀ j, 1 <= j < i → live v j.
Proof.
  intros Hs. unfold fresh_inum.
  assert (∀ n a, head (filter (λ i, m !! i = None) (seqZ a (Z.of_nat n))) = Some i → a <= i < a + Z.of_nat n ∧ m !! i = None ∧ ∀ j, a <= j < i → m !! j ≠ None) as Hgen.
  { induction n as [|n IH]; intros a Hh; [done|]. rewrite seqZ_cons in Hh by lia. rewrite filter_cons in Hh. case_decide as E.
    - injection Hh as <-. split_and!; [lia|lia|done|lia].
    - replace (Z.pred (Z.of_nat (S n))) with (Z.of_nat n) in Hh by lia. destruct (IH (Z.succ a) Hh) as (Hr & Hn & Hj). split_and!; [lia|lia|done|].
      intros j Hj'. destruct (decide (j = a)) as [->|?]; [done|]. apply Hj. lia. }
  intros Hh. destruct (decide (ninodes - 1 <= 0)) as [Hle|Hgt]; [by rewrite seqZ_nil in Hh by lia|].
  destruct (Hgen (Z.to_nat (ninodes - 1)) 1) as (Hr & Hn & Hj); [by rewrite Z2Nat.id by lia|]. split_and!; [lia|lia|by apply (shows_dead v m)|].
  intros j Hj'. destruct (decide (live v j)) as [?|Hnl]; [done|]. exfalso. by apply (Hj j Hj'), (shows_dead v m).
Qed.

(** ** Entries *)

Lemma cached_entry v hs L ns ic i : coh v hs L ic → names ic hs ns → i ∈ ns ∨ (size (list_to_set ns : gset Z) < NINODE)%nat → has_entry ic ns i.
Proof.
  intros Hc Hn [Hi|Hsz]; [by left|right]. destruct (decide (Exists (λ ip, i_ref ip = 0) ic)) as [[ip [[k Hk]%list_elem_of_lookup H0]]%Exists_exists|Hno].
  { by exists k, ip. }
  exfalso. rewrite <- (co_len _ _ _ _ _ _ Hc), <- (length_fmap inum ic) in Hsz.
  assert (∀ k ip, ic !! k = Some ip → k ∈ hs) as Hall.
  { intros k ip Hk. destruct (held_ref g0 sb v hs L ic k ip Hc Hk) as [Hiff Hge]. apply Hiff. assert (i_ref ip ≠ 0); [|lia]. intros E. apply Hno, Exists_exists.
    exists ip. split; [by eapply list_elem_of_lookup_2|done]. }
  assert (NoDup (inum <$> ic)) as Hnd.
  { apply NoDup_alt. intros k k' x Hk Hk'. rewrite list_lookup_fmap in Hk, Hk'. destruct (ic !! k) as [ip|] eqn:E; [|done]. destruct (ic !! k') as [ip'|] eqn:E'; [|done].
    injection Hk as <-. injection Hk' as Ex. eapply co_uniq; [done|done|done|by eapply Hall|by eapply Hall|done]. }
  rewrite <- (size_list_to_set (C := gset Z) _ Hnd) in Hsz. apply (Nat.lt_irrefl (size (list_to_set ns : gset Z))). eapply Nat.lt_le_trans; [exact Hsz|].
  apply subseteq_size. intros x. rewrite !elem_of_list_to_set. intros (ip & -> & [k Hk]%list_elem_of_lookup)%list_elem_of_fmap.
  eapply names_held; [done|done|done|by eapply Hall].
Qed.

Lemma ilock_at_spec c g v hs L ic k : sees c g v ∅ → coh v hs L ic → k ∈ hs → k ∉ L → room g0 g 0 →
  ∃ ip ip1 c', ic !! k = Some ip ∧ entry_ok g0 sb v ip ∧ 1 <= i_ref ip ∧ ilock_at sb c ic k = Ok (c', <[k := ip1]> ic) ∧ sees c' g v ∅ ∧
    locked_as g0 sb v ip ip1 ∧ deref (<[k := ip1]> ic) k = Ok ip1.
Proof using BL HL FL.
  intros Hs Hc Hk HkL Hr. destruct (coh_get g0 sb v hs L ic k Hc Hk) as (ip & Hip & He & Hr1 & _ & El). rewrite bool_decide_eq_false_2 in El by done.
  destruct (ilock_spec g0 HL sb FL c g v ip Hs He Hr1 El Hr) as (ip1 & c' & E & Hs' & Hlk). exists ip, ip1, c'.
  unfold ilock_at, deref. rewrite Hip, bind_Ok, E, bind_Ok, list_lookup_insert_eq by (by eapply lookup_lt_Some). done.
Qed.

Lemma iunlock_at_spec ic k ip1 ip2 : (k < length ic)%nat → i_locked ip2 = true → 1 <= i_ref ip2 →
  iunlock_at (<[k := ip2]> (<[k := ip1]> ic)) k = Ok (<[k := set_ilocked false ip2]> ic).
Proof.
  intros Hk Hl Hr. unfold iunlock_at, deref. rewrite list_insert_insert_eq, list_lookup_insert_eq, bind_Ok by done.
  rewrite iunlock_locked, bind_Ok, list_insert_insert_eq by done. done.
Qed.

(** The entry [k] and its file are rewritten; [L'] says whether the entry is locked. *)
Lemma implements_update v v' ic hs L L' a k ip ip' x : implements v ic hs L a → k ∈ hs → ic !! k = Some ip → inode_step v v' (inum ip) → live v' (inum ip) →
  inum ip' = inum ip → i_dev ip' = i_dev ip → i_ref ip' = i_ref ip → i_valid ip' = true → i_locked ip' = bool_decide (k ∈ L') → (∀ j, j ≠ k → j ∈ L' ↔ j ∈ L) →
  bare ip' = din v' (inum ip) → afile_of g0 v' ip' = x →
  implements v' (<[k := ip']> ic) hs L' (AFs (<[inum ip := x]> (files a)) (handles a)).
Proof.
  intros [Hck Hsh Hc Hn Ho] Hk Hip Hst Hl En Ed Er Hv Hlk HL' Eb Ex. pose proof (lookup_lt_Some _ _ _ Hip) as Hlt. split.
  - apply Hst.
  - apply (shows_insert v); [done|done|done|]. by rewrite <- Eb.
  - eapply coh_update; [done|done|done|done|done|done|done|done|done|]. split.
    + rewrite Ed. apply (co_entry _ _ _ _ _ _ Hc k ip Hip Hk).
    + by rewrite En.
    + intros _. rewrite En. exact Eb.
  - by apply (names_insert _ _ _ _ ip).
  - intros j Hlj Hj0. destruct (decide (j = inum ip)) as [->|Hne].
    + eexists k, _. split_and!; [done|by rewrite list_lookup_insert_eq|done|done].
    + destruct Hlj as [Hjr Hjt]. destruct (is_other _ _ _ _ _ Hst j Hne ltac:(lia)) as [Ej _]. rewrite Ej in Hj0, Hjt.
      destruct (Ho j) as (k' & ip1 & Hk' & Hip1 & E1 & Hv1); [by split|done|]. exists k', ip1. split_and!; [done| |done|done].
      rewrite list_lookup_insert_ne; [done|]. intros ->. by simplify_eq.
Qed.

(** A change of the lock of an entry that is, or becomes, valid. *)
Lemma implements_lock v ic hs L L' a k ip ip' : implements v ic hs L a → k ∈ hs → ic !! k = Some ip →
  inum ip' = inum ip → i_dev ip' = i_dev ip → i_ref ip' = i_ref ip → i_valid ip' = true → i_locked ip' = bool_decide (k ∈ L') → (∀ j, j ≠ k → j ∈ L' ↔ j ∈ L) →
  bare ip' = din v (inum ip) → implements v (<[k := ip']> ic) hs L' a.
Proof.
  intros Him Hk Hip En Ed Er Hv Hlk HL' Eb. pose proof Him as [Hck Hsh Hc _ _]. pose proof (en_live _ _ _ _ (co_entry _ _ _ _ _ _ Hc k ip Hip Hk)) as Hl.
  destruct a as [m ns]. pose proof (Hsh (inum ip)) as Hf. rewrite decide_True in Hf by done. cbn [files] in Hf.
  pose proof (implements_update v v ic hs L L' (AFs m ns) k ip ip' _ Him Hk Hip (inode_step_refl _ _ _ _ Hck) Hl En Ed Er Hv Hlk HL' Eb eq_refl) as Hu.
  cbn [files handles] in Hu. rewrite insert_id in Hu; [done|]. rewrite Hf, <- Eb. done.
Qed.

Lemma the_file_inv v ic hs L a h i f : implements v ic hs L a → the_file a h = Some (i, f) →
  ∃ k ip, hs !! h = Some k ∧ k ∈ hs ∧ ic !! k = Some ip ∧ inum ip = i ∧ handles a !! h = Some i ∧ files a !! i = Some f ∧ live v i ∧ f = afile_of g0 v (din v i).
Proof.
  intros Him Hf. unfold the_file in Hf. destruct (handles a !! h) as [i'|] eqn:Eh; [|done]. cbn in Hf. destruct (files a !! i') as [f'|] eqn:Ef; [|done].
  injection Hf as <- <-. destruct (names_lookup _ _ _ _ _ (im_names _ _ _ _ _ Him) Eh) as (k & ip & Hk & Hip & E).
  destruct (shows_live v (files a) i' f' (im_files _ _ _ _ _ Him) Ef) as [Hl Ex]. exists k, ip. split_and!; try done. by eapply list_elem_of_lookup_2.
Qed.

(** ** Rules for the operations on references, inside a transaction *)

Definition has_cache (a : afs) (i : Z) : Prop := i ∈ handles a ∨ (cached a < NINODE)%nat.
Definition hold (i : Z) (a : afs) : afs := AFs (files a) (handles a ++ [i]).

(** The state after the pointer [h] is dropped: a file without links goes with its last pointer. *)
Definition drop_handle (h : nat) (a : afs) : afs :=
  match the_file a h with
  | None => a
  | Some (i, f) =>
      let hs := delete h (handles a) in
      AFs (if decide ((i ∉ hs) ∧ a_nlink f = 0) then delete i (files a) else files a) hs
  end.

Lemma implements_iget v ic hs L a i : implements v ic hs L a → is_Some (files a !! i) → has_cache a i →
  ∃ k ip', iget ic (dev g0) i = Ok (k, <[k := ip']> ic) ∧ implements v (<[k := ip']> ic) (hs ++ [k]) L (hold i a) ∧
    (∀ j ip, ic !! j = Some ip → j ∈ hs → ∃ ip2, <[k := ip']> ic !! j = Some ip2 ∧ inum ip2 = inum ip) ∧ (k < length ic)%nat ∧ inum ip' = i.
Proof.
  intros Him [f Hf] Hent. pose proof Him as [Hck Hsh Hc Hn Ho]. destruct (shows_live v _ _ _ Hsh Hf) as [Hl _].
  destruct (iget_spec g0 sb v hs L (handles a) ic i Hc Hn Hl (cached_entry v hs L _ ic i Hc Hn Hent)) as (k & ip' & E & Ei & Hlt & Hc' & Hn' & Hv' & Hk).
  assert (∀ ip, ic !! k = Some ip → k ∈ hs → inum ip' = inum ip) as Hsame.
  { intros ip Hip Hkin. destruct (decide (i ∈ handles a)) as [[h Hh]%list_elem_of_lookup|Hni]; [|by apply Hk in Hni].
    destruct (names_lookup _ _ _ _ _ Hn Hh) as (k2 & ip2 & Hk2 & Hip2 & E2). apply list_elem_of_lookup_2 in Hk2 as Hk2'.
    assert (k2 ∈ hs ++ [k] ∧ k ∈ hs ++ [k]) as [Hin2 Hin] by (split; apply elem_of_app; by left).
    destruct (decide (k2 = k)) as [->|Hne2]; [congruence|]. exfalso. apply Hne2.
    eapply (co_uniq _ _ _ _ _ _ Hc' k2 k ip2 ip'); [by rewrite list_lookup_insert_ne|by rewrite list_lookup_insert_eq|done|done|congruence]. }
  assert (∀ j ip, ic !! j = Some ip → j ∈ hs → ∃ ip2, <[k := ip']> ic !! j = Some ip2 ∧ inum ip2 = inum ip ∧ i_valid ip2 = i_valid ip) as Hkeep.
  { intros j ip Hj Hjin. destruct (decide (j = k)) as [->|Hne]; [exists ip'; rewrite list_lookup_insert_eq by done; by rewrite (Hsame ip), (Hv' ip)|].
    exists ip. by rewrite list_lookup_insert_ne. }
  exists k, ip'. split_and!; [done| |intros j ip Hj Hjin; destruct (Hkeep j ip Hj Hjin) as (ip2 & ? & ? & _); by exists ip2|done|done].
  split; [done|done|done|done|]. intros j Hlj Hj0. destruct (Ho j Hlj Hj0) as (k' & ip1 & Hk' & Hip1 & E1 & Hv1).
  destruct (Hkeep k' ip1 Hip1 Hk') as (ip2 & Hip2 & En2 & Ev2). exists k', ip2. split_and!; [apply elem_of_app; by left|done|congruence|congruence].
Qed.

Lemma implements_idup v ic hs L a h k i : implements v ic hs L a → hs !! h = Some k → handles a !! h = Some i →
  ∃ ip', idup ic k = Ok (<[k := ip']> ic) ∧ implements v (<[k := ip']> ic) (hs ++ [k]) L (hold i a).
Proof.
  intros Him Hh Hi. pose proof Him as [Hck Hsh Hc Hn Ho].
  destruct (idup_spec g0 sb v hs L (handles a) ic k i h Hc Hn Hh Hi) as (ip0 & ip' & Hip0 & E & Hc' & Hn' & En & Ev). exists ip'. split; [done|].
  split; [done|done|done|done|]. intros j Hlj Hj0. destruct (Ho j Hlj Hj0) as (k' & ip1 & Hk' & Hip1 & E1 & Hv1).
  destruct (decide (k' = k)) as [->|Hne]; [exists k, ip'; simplify_eq|exists k', ip1]; (split; [apply elem_of_app; by left|]).
  - rewrite list_lookup_insert_eq by (by eapply lookup_lt_Some). rewrite Ev. by split_and!.
  - by rewrite list_lookup_insert_ne.
Qed.

Lemma implements_iput c g v ic hs L a h k : sees c g v ∅ → implements v ic hs L a → hs !! h = Some k → k ∉ L → room g0 g 3 →
  ∃ c' v' bl ic', iput sb c g ic k = Ok (c', logs g bl, ic') ∧ (length bl ≤ 3)%nat ∧ sees c' (logs g bl) v' ∅ ∧
    implements v' ic' (delete h hs) L (drop_handle h a) ∧ (files (drop_handle h a) = files a → v' = v ∧ bl = []) ∧
    (∀ j x, ic !! j = Some x → j ≠ k → ic' !! j = Some x) ∧ (size (free v) ≤ size (free v'))%nat.
Proof using BL HL FL.
  intros Hs Him Hh HkL Hr. pose proof Him as [Hck Hsh Hc Hn Ho]. destruct (Forall2_lookup_l _ _ _ _ _ Hn Hh) as (i & Hi & ip & Hip & Ei).
  pose proof (list_elem_of_lookup_2 _ _ _ Hh) as Hk. pose proof (co_entry _ _ _ _ _ _ Hc k ip Hip Hk) as [_ Hl _]. rewrite Ei in Hl.
  assert (files a !! i = Some (afile_of g0 v (din v i))) as Hfi by (rewrite (Hsh i), decide_True by done; done).
  destruct (iput_spec g0 HL sb FL c g v hs L (handles a) ic h k i Hs Hck Hc Hn Ho Hh Hi HkL Hr) as (c1 & v1 & bl & ic' & E1 & Hbl & Hs1 & Hst & Hc1 & Hn1 & Ho1 & Hcase & Hkeep & Hfr).
  assert (the_file a h = Some (i, afile_of g0 v (din v i))) as Etf by (unfold the_file; rewrite Hi; cbn; by rewrite Hfi).
  exists c1, v1, bl, ic'. unfold drop_handle. rewrite Etf. cbn [a_nlink afile_of].
  split_and!; [done|done|done| | |done|done].
  - split; [apply Hst| |done|done|done]. cbn [files]. case_decide; [by apply (shows_delete v)|]. by destruct Hcase as [-> _].
  - cbn [files]. case_decide as Hd; [|done]. intros E. exfalso. pose proof (lookup_delete_eq (files a) i) as El. by rewrite E, Hfi in El.
Qed.

Lemma implements_ilock c g v ic hs L a k : sees c g v ∅ → implements v ic hs L a → k ∈ hs → k ∉ L → room g0 g 0 →
  ∃ ip ip1 c', ic !! k = Some ip ∧ ilock_at sb c ic k = Ok (c', <[k := ip1]> ic) ∧ sees c' g v ∅ ∧ implements v (<[k := ip1]> ic) hs ({[k]} ∪ L) a ∧
    inum ip1 = inum ip ∧ (k < length ic)%nat.
Proof using BL HL FL.
  intros Hs Him Hk HkL Hr. destruct (ilock_at_spec c g v hs L ic k Hs (im_coh _ _ _ _ _ Him) Hk HkL Hr) as (ip & ip1 & c1 & Hip & He & Hr1 & E1 & Hs1 & [(? & ? & ?) ? ? ?] & _).
  exists ip, ip1, c1. split_and!; [done|done|done| |done|by eapply lookup_lt_Some].
  apply (implements_lock v ic hs L ({[k]} ∪ L) a k ip); [done..|by rewrite bool_decide_eq_true_2 by (apply (proj1 (lock_add k L)))|apply lock_add|done].
Qed.

Lemma implements_iunlock v ic hs L a k : implements v ic hs L a → k ∈ L →
  ∃ ip, ic !! k = Some ip ∧ iunlock_at ic k = Ok (<[k := set_ilocked false ip]> ic) ∧ implements v (<[k := set_ilocked false ip]> ic) hs (L ∖ {[k]}) a.
Proof.
  intros Him Hk. pose proof (im_coh _ _ _ _ _ Him) as Hc. destruct (co_lock _ _ _ _ _ _ Hc k Hk) as [Hkh Hv].
  destruct (coh_get g0 sb v hs L ic k Hc Hkh) as (ip & Hip & He & Hr1 & _ & El). rewrite bool_decide_eq_true_2 in El by done. exists ip.
  unfold iunlock_at, deref. rewrite Hip, bind_Ok, iunlock_locked, bind_Ok by (done || lia). split_and!; [done|done|].
  apply (implements_lock v ic hs L (L ∖ {[k]}) a k ip); try done; [exact (Hv ip Hip)|by rewrite bool_decide_eq_false_2 by (apply (proj1 (lock_remove k L)))|apply lock_remove|].
  apply (en_valid _ _ _ _ He), Hv, Hip.
Qed.

(** ** The calls *)

Context (dr : Z → option (C → log → inode → Z → outcome (Z * list Z * inode * C * log))).
Context (dw : Z → option (C → log → inode → list Z → outcome (Z * inode * C * log))).

(** A call from [a] to [a'] with result [r] and bytes [x]. *)
Definition call_result (c : C) (v : disk_map) (ic : icache) (hs : list nat) (op : fcall) (res : Z * list Z * afs) : Prop :=
  ∃ c' v' ic' hs', do_call sb dr dw c g0 ic hs op = Ok (res.1.1, res.1.2, c', g0, ic', hs') ∧ at_rest c' v' ∧ implements v' ic' hs' ∅ res.2 ∧
    (size (free v) ≤ size (free v') + call_blocks op)%nat.

Lemma implements_unlocked v ic hs a k ip ip1 : implements v ic hs ∅ a → k ∈ hs → ic !! k = Some ip → locked_as g0 sb v ip ip1 →
  implements v (<[k := set_ilocked false ip1]> ic) hs ∅ a.
Proof. intros Him Hk Hip [(? & ? & ?) _ ? ?]. by apply (implements_lock v ic hs ∅ ∅ a k ip). Qed.

Lemma read_call c v ic hs a h off n : at_rest c v → implements v ic hs ∅ a → call_ok sb a (ReadAt h off n) →
  call_result c v ic hs (ReadAt h off n) (spec_call sb a (ReadAt h off n)).
Proof using BL HL Hid FL.
  intros Hrest Him (i & f & Hf & Hty & Ho & Hn). destruct (the_file_inv v ic hs ∅ a h i f Him Hf) as (k & ip & Hh & Hk & Hip & Ei & _ & Hfi & Hl & Ef).
  cbn [spec_call]. rewrite Hf. pose proof Him as [Hck Hsh Hc Hnm Horp].
  assert (room g0 g0 0) as Hroom by (destruct Hid as (_ & _ & Hlh); unfold room; rewrite Hlh; cbn [length]; pose proof (lo_size _ HL); lia).
  destruct (ilock_at_spec c g0 v hs ∅ ic k) as (ip' & ip1 & c1 & Hip' & He & Hr1 & E1 & Hs1 & Hlk & Ed); [by apply (rest_sees g0 Hid)|done|done|set_solver|done|]. simplify_eq.
  pose proof Hlk as [(En1 & Ed1 & Er1) Hl1 Hv1 Eb1]. assert (live v (inum ip1)) as Hlive1 by (by rewrite En1). rewrite <- En1 in Eb1.
  destruct (cached_good g0 sb v ip1 Hck Hlive1 Eb1) as [Hfo Hsz _].
  assert (a_type (afile_of g0 v (din v (inum ip))) = itype ip1) as Ety by (rewrite <- En1, <- Eb1; done). rewrite Ety in Hty.
  assert (a_data (afile_of g0 v (din v (inum ip))) = fcontent g0 v ip1) as Edat by (rewrite <- En1, <- Eb1; done). rewrite Edat.
  destruct (readi_spec g0 HL sb FL dr c1 g0 v ip1 off n Hs1 Hfo Hsz Hty Hroom Ho Hn) as (c2 & Hs2 & E2).
  assert (iunlock_at (<[k:=ip1]> (<[k:=ip1]> ic)) k = Ok (<[k:=set_ilocked false ip1]> ic)) as E3 by (apply iunlock_at_spec; [by eapply lookup_lt_Some|done|lia]).
  pose proof (implements_unlocked v ic hs a k ip ip1 Him Hk Hip Hlk) as Him'.
  exists c2, v, (<[k:=set_ilocked false ip1]> ic), hs. cbn [do_call]. unfold pointer. rewrite Hh, bind_Ok. unfold read_inode.
  rewrite E1, bind_Ok, Ed, bind_Ok, E2. pose proof (length_content g0 v ip1) as Hlc. destruct Hsz as [Hsz _].
  assert ((off <= Z.of_nat (length (fcontent g0 v ip1)) ∧ off + n < 2 ^ 32) ↔ (off <= isize ip1 ∧ off + n < 2 ^ 32)) as Hiff by (rewrite Hlc, Z2Nat.id by lia; done).
  destruct (decide (off <= isize ip1 ∧ off + n < 2 ^ 32)) as [Hd|Hd].
  - rewrite decide_True by (by apply Hiff). cbn zeta. rewrite bind_Ok, E3, !bind_Ok. cbn [fst snd]. destruct Ho as [Ho _], Hn as [Hn0 _].
    set (m := Z.min n (isize ip1 - off)). assert (take (Z.to_nat m) (drop (Z.to_nat off) (fcontent g0 v ip1)) = take (Z.to_nat n) (drop (Z.to_nat off) (fcontent g0 v ip1))) as ->.
    { destruct (Z.min_spec n (isize ip1 - off)) as [[_ Em]|[Hge Em]]; unfold m; rewrite Em; [done|]. by rewrite !take_ge by (rewrite length_drop, Hlc; lia). }
    split_and!; [|by apply (rest_sees g0 Hid)|done|lia]. do 6 f_equal. rewrite length_take, length_drop, Hlc. unfold m. lia.
  - rewrite decide_False by (by rewrite Hiff). rewrite bind_Ok, E3, !bind_Ok. split_and!; [done|by apply (rest_sees g0 Hid)|done|cbn; lia].
Qed.

Lemma write_call c v ic hs a h off src : at_rest c v → implements v ic hs ∅ a → call_ok sb a (WriteAt h off src) → 26 <= lsize g0 →
  (8 ≤ size (free v))%nat → call_result c v ic hs (WriteAt h off src) (spec_call sb a (WriteAt h off src)).
Proof using BL HL Hid FL.
  intros Hrest Him (i & f & Hf & Hty & Ho & Hlen) Hlsz Hfree. destruct (the_file_inv v ic hs ∅ a h i f Him Hf) as (k & ip & Hh & Hk & Hip & Ei & _ & Hfi & Hl & Ef).
  cbn [spec_call]. rewrite Hf. pose proof Him as [Hck Hsh Hc Hnm Horp]. destruct (start_sees c v Hrest) as [Est Hs0].
  destruct (ilock_at_spec c g1 v hs ∅ ic k Hs0 Hc Hk) as (ip' & ip1 & c1 & Hip' & He & Hr1 & E1 & Hs1 & Hlk & Ed); [set_solver|apply room_start; [lia|done]|]. simplify_eq.
  pose proof Hlk as [(En1 & Ed1 & Er1) Hl1 Hv1 Eb1]. assert (live v (inum ip1)) as Hlive1 by (by rewrite En1). rewrite <- En1 in Eb1.
  destruct (cached_good g0 sb v ip1 Hck Hlive1 Eb1) as [Hfo Hsz _].
  assert (afile_of g0 v (din v (inum ip)) = afile_of g0 v ip1) as Eaf by (rewrite <- En1, <- Eb1; done). rewrite Eaf in *. cbn [afile_of a_type a_data] in *.
  pose proof (length_content g0 v ip1) as Hlc. pose proof Hsz as [Hszr _].
  pose proof (lookup_lt_Some _ _ _ Hip) as Hlt. unfold call_result. cbn [do_call]. unfold pointer. rewrite Hh, bind_Ok, Est, bind_Ok. unfold write_inode.
  rewrite E1, bind_Ok, Ed, bind_Ok. case_decide as Hd.
  - destruct Hd as [Hd1 Hd2]. pose proof (nblk_max (Z.to_nat off) (length src) Hlen) as Hnb. destruct Ho as [Ho _].
    destruct (write_step g0 HL sb FL 2 dw c1 g1 v ip1 src off Hs1 Hck Hlive1 Eb1 Hty) as (ip2 & c2 & v2 & bl & E2 & Hbl & Hs2 & Hst & Edin & Hl2 & Hsc & Eaf2 & _ & Hfr);
      [lia|done|apply room_start; [lia|done]|by left|lia|]. rewrite En1 in Hst, Edin, Hl2. destruct Hsc as (S1 & S2 & S3 & S4 & S5).
    rewrite E2, bind_Ok, iunlock_at_spec, !bind_Ok by (first [done|congruence|lia]).
    destruct (finish c2 v2 bl (<[k:=set_ilocked false ip2]> ic) hs ∅ (AFs (<[inum ip := set_data (write_at (fcontent g0 v ip1) (Z.to_nat off) src) (afile_of g0 v ip1)]> (files a)) (handles a)))
      as (c3 & v3 & E3 & Hr3 & Him3 & Efr); [done|lia|done| |].
    { apply (implements_update v v2 ic hs ∅ ∅ a k ip (set_ilocked false ip2)); try done; cbn; congruence. }
    rewrite E3, bind_Ok. eexists c3, v3, _, hs. split_and!; [done|done|done|]. rewrite Efr. cbn [call_blocks]. lia.
  - assert (writei sb dw c1 g1 ip1 src off = Ok (-1, ip1, c1, g1)) as E2.
    { unfold writei. rewrite (proj2 (Z.eqb_neq _ _)) by done. destruct Ho as [Ho1 Ho2].
      destruct (Z.ltb_spec (isize ip1) off) as [?|Hle]; [done|]. cbn [orb].
      assert (off <= Z.of_nat MAXBYTES) as Hom by lia. unfold MAXBYTES, BSIZE in Hom. rewrite (u32_small (off + Z.of_nat (length src))) by (unfold is_u32; lia).
      rewrite (proj2 (Z.ltb_ge (off + _) off)) by lia. change (MAXFILE * BS) with (Z.of_nat MAXBYTES). rewrite (proj2 (Z.ltb_lt _ _)); [done|].
      destruct (Z_lt_le_dec (Z.of_nat MAXBYTES) (off + Z.of_nat (length src))) as [?|Hc2]; [done|]. exfalso. apply Hd. rewrite Hlc. lia. }
    rewrite E2, bind_Ok, iunlock_at_spec, !bind_Ok by (first [done|lia]).
    destruct (finish c1 v [] (<[k:=set_ilocked false ip1]> ic) hs ∅ a) as (c3 & v3 & E3 & Hr3 & Him3 & Efr); [by rewrite logs_nil|cbn; lia|done|by eapply implements_unlocked|].
    rewrite logs_nil in E3. rewrite E3, bind_Ok. eexists c3, v3, _, hs. split_and!; [done|done|done|]. rewrite Efr. cbn. lia.
Qed.

(** [iupdate] of an inode with new metadata. *)
Lemma update_metadata c g v ip : sees c g v ∅ → fsck v → live v (inum ip) → i_dev ip = dev g0 → addrs ip = addrs (din v (inum ip)) → isize ip = isize (din v (inum ip)) →
  is_short (itype ip) → is_short (major ip) → is_short (minor ip) → is_short (nlink ip) → itype ip ≠ 0 → room g0 g 1 →
  ∃ c' v', iupdate sb c g ip = Ok (c', logs g [IBLOCK sb (inum ip)]) ∧ sees c' (logs g [IBLOCK sb (inum ip)]) v' ∅ ∧
    inode_step v v' (inum ip) ∧ bare ip = din v' (inum ip) ∧ live v' (inum ip) ∧ fcontent g0 v' ip = fcontent g0 v (din v (inum ip)) ∧ free v' = free v.
Proof using BL HL FL.
  intros Hs Hck Hl Hd Ea Es H1 H2 H3 H4 Ht Hr. destruct (metadata_step g0 sb FL v ip Hck Hl Hd Ea Es H1 H2 H3 H4 Ht) as (Hst & Edin & Hl' & Hg & Ec).
  pose proof Hl as [Hi _]. assert (file_ok g0 sb v ip) as Hf.
  { destruct (ck_file _ _ _ Hck _ Hl) as [[H5 H6 H7 H8 H9] _ _]. split; [done|lia|by rewrite Ea| |]; unfold saddr in *; rewrite Ea; done. }
  destruct (iupdate_spec g0 HL sb FL c g v ip Hs Hf Hr) as (c' & E & Hs' & _ & _); [apply (ck_len _ _ _ Hck); lia|].
  destruct (fl_ino _ _ FL (inum ip) ltac:(lia)) as [_ Hbm]. eexists c', _. split_and!; [done|exact Hs'|done|done|done|done|].
  apply free_blocks_ext. by apply put_keeps.
Qed.

Lemma relink_call c v ic hs a h d : at_rest c v → implements v ic hs ∅ a → call_ok sb a (Relink h d) → 26 <= lsize g0 →
  call_result c v ic hs (Relink h d) (spec_call sb a (Relink h d)).
Proof using BL HL Hid FL.
  intros Hrest Him (i & f & Hf & Hsh) Hlsz. destruct (the_file_inv v ic hs ∅ a h i f Him Hf) as (k & ip & Hh & Hk & Hip & Ei & _ & Hfi & Hl & Ef).
  cbn [spec_call]. rewrite Hf. pose proof Him as [Hck _ Hc _ _]. destruct (start_sees c v Hrest) as [Est Hs0].
  destruct (ilock_at_spec c g1 v hs ∅ ic k Hs0 Hc Hk) as (ip' & ip1 & c1 & Hip' & He & Hr1 & E1 & Hs1 & Hlk & Ed); [set_solver|apply room_start; [lia|done]|]. simplify_eq.
  pose proof Hlk as [(En1 & Ed1 & Er1) Hl1 Hv1 Eb1]. assert (afile_of g0 v (din v (inum ip)) = afile_of g0 v ip1) as Eaf by (rewrite <- Eb1; done).
  rewrite Eaf in *. cbn [afile_of a_nlink] in Hsh. set (ip2 := set_nlink (nlink ip1 + d) ip1). pose proof (lookup_lt_Some _ _ _ Hip) as Hlt.
  destruct (gf_short _ _ _ _ (ck_file _ _ _ Hck _ Hl)) as (T1 & T2 & T3 & _). pose proof Hl as [_ Ht]. rewrite <- Eb1 in T1, T2, T3, Ht.
  assert (live v (inum ip2)) as Hl2 by (cbn; by rewrite En1).
  destruct (update_metadata c1 g1 v ip2 Hs1 Hck Hl2) as (c2 & v2 & E2 & Hs2 & Hst & Edin & Hl3 & Ec & Efr);
    [cbn; rewrite Ed1; apply He|change (inum ip2) with (inum ip1); rewrite En1, <- Eb1; done|change (inum ip2) with (inum ip1); rewrite En1, <- Eb1; done|done|done|done|done|done|apply room_start; [lia|done]|].
  change (inum ip2) with (inum ip1) in *. rewrite En1 in *. unfold call_result. cbn [do_call]. unfold pointer. rewrite Hh, bind_Ok, Est, bind_Ok. unfold relink_inode.
  rewrite E1, bind_Ok, Ed, bind_Ok. cbn zeta. rewrite s16_small by done. fold ip2. rewrite E2, bind_Ok, iunlock_at_spec, !bind_Ok by (first [done|cbn; lia]).
  destruct (finish c2 v2 [IBLOCK sb (inum ip)] (<[k:=set_ilocked false ip2]> ic) hs ∅ (AFs (<[inum ip := set_links (nlink ip1 + d) (afile_of g0 v ip1)]> (files a)) (handles a)))
    as (c3 & v3 & E3 & Hr3 & Him3 & Efr3); [done|cbn; lia|done| |].
  { apply (implements_update v v2 ic hs ∅ ∅ a k ip (set_ilocked false ip2)); try done; [cbn; congruence..|]. unfold afile_of, set_links. cbn. f_equal.
    transitivity (fcontent g0 v2 ip2); [done|]. rewrite Ec, <- Eb1. done. }
  rewrite E3, bind_Ok. eexists c3, v3, _, hs. split_and!; [done|done|done|]. rewrite Efr3, Efr. cbn. lia.
Qed.

Lemma close_call c v ic hs a h : at_rest c v → implements v ic hs ∅ a → call_ok sb a (Close h) → 26 <= lsize g0 →
  call_result c v ic hs (Close h) (spec_call sb a (Close h)).
Proof using BL HL Hid FL.
  intros Hrest Him [i Hi] Hlsz. destruct (names_lookup _ _ _ _ _ (im_names _ _ _ _ _ Him) Hi) as (k & ip & Hh & _ & _).
  destruct (start_sees c v Hrest) as [Est Hs0].
  destruct (implements_iput c g1 v ic hs ∅ a h k Hs0 Him Hh) as (c1 & v1 & bl & ic' & E1 & Hbl & Hs1 & Him1 & _ & _ & Hfr); [set_solver|apply room_start; [lia|done]|].
  destruct (finish c1 v1 bl ic' (delete h hs) ∅ (drop_handle h a) Hs1 ltac:(lia) Hlsz Him1) as (c3 & v3 & E3 & Hr3 & Him3 & Efr3).
  assert (spec_call sb a (Close h) = (0, [], drop_handle h a)) as -> by (cbn [spec_call]; unfold drop_handle; by destruct (the_file a h) as [[]|]).
  unfold call_result. cbn [do_call]. unfold pointer. rewrite Hh, bind_Ok, Est, bind_Ok, E1, bind_Ok, E3, bind_Ok.
  eexists c3, v3, _, _. split_and!; [done|done|done|]. rewrite Efr3. cbn. lia.
Qed.

(** An entry [ip2] for a new file [i], allocated in [v2]. *)
Lemma implements_new v v2 ic hs L L' a i k ip' ip2 x : implements v ic hs L a → inode_step v v2 i → (k < length ic)%nat → k ∉ hs → inum ip2 = i →
  coh v2 (hs ++ [k]) L' (<[k := ip2]> (<[k := ip']> ic)) → names (<[k := ip2]> (<[k := ip']> ic)) (hs ++ [k]) (handles a ++ [i]) → live v2 i →
  afile_of g0 v2 (din v2 i) = x → a_nlink x ≠ 0 → implements v2 (<[k := ip2]> ic) (hs ++ [k]) L' (AFs (<[i := x]> (files a)) (handles a ++ [i])).
Proof.
  intros [Hck Hsh Hc Hn Ho] Hst Hlt Hk Ei Hc2 Hn2 Hl Ex Hx. rewrite list_insert_insert_eq in Hc2, Hn2. split; [apply Hst|by eapply shows_insert|done|done|].
  intros j Hlj Hj0. destruct (decide (j = i)) as [->|Hne]; [by rewrite <- Ex in Hx|].
  destruct Hlj as [Hjr Hjt]. destruct (is_other _ _ _ _ _ Hst j Hne ltac:(lia)) as [Ej _]. rewrite Ej in Hj0, Hjt.
  destruct (Ho j) as (k' & ip1 & Hk' & Hip1 & E1 & Hv1); [by split|done|]. exists k', ip1. split_and!; [apply elem_of_app; by left| |done|done].
  rewrite list_lookup_insert_ne; [done|]. by intros ->.
Qed.

(** [ialloc], [ilock] and [iupdate] of a new inode: the first free number, and the entry locked. *)
Lemma create_locked c g v ic hs L a type maj min i : sees c g v ∅ → implements v ic hs L a → fresh_inum sb (files a) = Some i → (cached a < NINODE)%nat →
  is_short type → type ≠ 0 → is_short maj → is_short min → room g0 g 2 →
  ∃ k c1 ic1 c2 ic2 ip c3 v3, let ip2 := set_nlink 1 (set_devno maj min ip) in
    ialloc sb c g ic (dev g0) type = Ok (k, c1, logs g [IBLOCK sb i], ic1) ∧ ilock_at sb c1 ic1 k = Ok (c2, ic2) ∧ deref ic2 k = Ok ip ∧
    iupdate sb c2 (logs g [IBLOCK sb i]) ip2 = Ok (c3, logs g [IBLOCK sb i; IBLOCK sb i]) ∧ sees c3 (logs g [IBLOCK sb i; IBLOCK sb i]) v3 ∅ ∧
    implements v3 (<[k := ip2]> ic2) (hs ++ [k]) ({[k]} ∪ L) (AFs (<[i := AFile type maj min 1 []]> (files a)) (handles a ++ [i])) ∧
    inum ip = i ∧ 1 <= i < ninodes ∧ free v3 = free v ∧ (k < length ic2)%nat.
Proof using BL HL FL.
  intros Hs0 Him Hi Hcache Hty Ht0 Hma Hmi Hroom. pose proof Him as [Hck Hsh Hc Hn Ho]. destruct (fresh_inum_spec v (files a) i Hsh Hi) as (Hir & Hnl & Hlv).
  pose proof (cached_entry v hs L (handles a) ic i Hc Hn (or_intror Hcache)) as Hent. assert (room g0 g 1) as Hr1 by (eapply room_le; [|done]; lia).
  destruct (ialloc_loop_spec g0 HL sb FL type hs L (handles a) ic i v (Z.to_nat (ninodes - 1)) c g 1 Hs0 Hck Hc Hn) as (k & ip' & c1 & E1 & Hs1 & Hc1 & Hn1 & Ei & Hlt & Hk);
    [lia|lia|lia|done|done|done|done|done|done|].
  assert (k ∉ L) as HkL by (intros HkL; by apply Hk, (co_lock _ _ _ _ _ _ Hc k)).
  destruct (alloc_step g0 sb FL v i type Hck Hir Hnl Hty Ht0) as (Hst1 & Edin1 & Hl1). set (v1 := inode_put g0 sb v i (new_dinode type)) in *.
  assert (k ∈ hs ++ [k]) as Hin by (apply elem_of_app; right; by apply list_elem_of_singleton).
  destruct (ilock_at_spec c1 (logs g [IBLOCK sb i]) v1 (hs ++ [k]) L (<[k:=ip']> ic) k Hs1 Hc1 Hin HkL) as (ipx & ip1 & c2 & Hip' & He & Hrf & E2 & Hs2 & Hlk & Ed);
    [by apply room_logs|]. rewrite list_lookup_insert_eq in Hip' by done. injection Hip' as <-.
  pose proof Hlk as [(En1 & Ed1 & Er1) Hlk1 Hv1 Eb1]. rewrite Ei in *. set (ip2 := set_nlink 1 (set_devno maj min ip1)).
  assert (itype ip1 = type ∧ isize ip1 = 0 ∧ addrs ip1 = replicate 13 0) as (Ety & Esz & Ead).
  { change (itype (bare ip1) = type ∧ isize (bare ip1) = 0 ∧ addrs (bare ip1) = replicate 13 0). by rewrite Eb1, Edin1. }
  destruct (update_metadata c2 (logs g [IBLOCK sb i]) v1 ip2 Hs2 (is_ck _ _ _ _ _ Hst1)) as (c3 & v2 & E3 & Hs3 & Hst2 & Edin2 & Hl2 & Ec2 & Efr2);
    [cbn; by rewrite En1|cbn; rewrite Ed1; apply He|change (inum ip2) with (inum ip1); by rewrite En1, Edin1|change (inum ip2) with (inum ip1); by rewrite En1, Edin1|
     cbn; by rewrite Ety|done|done|done|cbn; by rewrite Ety|by apply room_logs|].
  change (inum ip2) with (inum ip1) in *. rewrite En1 in *. rewrite logs_app in *.
  pose proof (inode_step_trans _ _ _ _ _ _ Hst1 Hst2) as Hst.
  exists k, c1, (<[k:=ip']> ic), c2, (<[k:=ip1]> (<[k:=ip']> ic)), ip1, c3, v2.
  split_and!; [done|done|done|done|done| |done|lia|lia| |by rewrite !length_insert].
  - rewrite !list_insert_insert_eq. apply (implements_new v v2 ic hs L ({[k]} ∪ L) a i k ip' ip2); try done.
    + apply (coh_update g0 sb v1 v2 (hs ++ [k]) L ({[k]} ∪ L) _ k ip'); [done|done|by rewrite list_lookup_insert_eq|by rewrite Ei|cbn; congruence|done| |apply lock_add|done|].
      * cbn. rewrite Hlk1. symmetry. apply bool_decide_eq_true, (proj1 (lock_add k L)).
      * split; [cbn; rewrite Ed1; apply He|cbn; by rewrite En1|]. intros _. change (inum ip2) with (inum ip1). by rewrite En1.
    + apply (names_insert _ _ _ k ip'); [by rewrite list_lookup_insert_eq|cbn; congruence|done].
    + rewrite <- Edin2. unfold afile_of. cbn. rewrite Ety. f_equal. change (fcontent g0 v2 ip2 = []). unfold fcontent. cbn. by rewrite Esz.
  - rewrite Efr2. apply free_blocks_ext, put_keeps. apply not_eq_sym, (fl_ino _ _ FL). lia.
Qed.

Lemma create_call c v ic hs a type maj min : at_rest c v → implements v ic hs ∅ a → call_ok sb a (Create type maj min) → 26 <= lsize g0 →
  call_result c v ic hs (Create type maj min) (spec_call sb a (Create type maj min)).
Proof using BL HL Hid FL.
  intros Hrest Him ([i Hi] & Hcache & Hty & Ht0 & Hma & Hmi) Hlsz. cbn [spec_call]. rewrite Hi. cbn [default]. destruct (start_sees c v Hrest) as [Est Hs0].
  destruct (create_locked c g1 v ic hs ∅ a type maj min i Hs0 Him Hi Hcache Hty Ht0 Hma Hmi) as (k & c1 & ic1 & c2 & ic2 & ip & c3 & v3 & E1 & E2 & Ed & E3 & Hs3 & Him3 & Ei & _ & Hfr & Hlt);
    [apply room_start; [lia|done]|].
  destruct (implements_iunlock v3 _ _ _ _ k Him3 (proj1 (lock_add k ∅))) as (ip4 & Hip4 & E4 & Him4). rewrite list_lookup_insert_eq in Hip4 by done. injection Hip4 as <-.
  assert (({[k]} ∪ ∅) ∖ {[k]} =@{gset nat} ∅) as EL by set_solver. rewrite EL in Him4.
  destruct (finish c3 v3 _ _ _ _ _ Hs3 ltac:(cbn; lia) Hlsz Him4) as (c4 & v4 & E5 & Hr5 & Him5 & Efr5).
  unfold call_result. cbn [do_call]. rewrite Est, bind_Ok. unfold create_inode. rewrite <- (lo_dev _ HL), E1, bind_Ok, E2, bind_Ok, Ed, bind_Ok. cbn zeta.
  rewrite E3, bind_Ok, E4, !bind_Ok. unfold deref. rewrite list_lookup_insert_eq, bind_Ok by (by rewrite length_insert). rewrite E5, bind_Ok.
  cbn [set_ilocked set_nlink set_devno inum]. rewrite Ei. eexists c4, v4, _, _. split_and!; [done|done|done|]. rewrite Efr5, Hfr. cbn. lia.
Qed.

Lemma open_call c v ic hs a i : at_rest c v → implements v ic hs ∅ a → call_ok sb a (Open i) → call_result c v ic hs (Open i) (spec_call sb a (Open i)).
Proof using HL.
  intros Hrest Him [Hf Hent]. destruct (implements_iget v ic hs ∅ a i Him Hf Hent) as (k & ip' & E & Him' & _).
  unfold call_result. cbn [do_call spec_call]. rewrite <- (lo_dev _ HL), E, bind_Ok. eexists c, v, _, _. split_and!; [done|done|done|cbn; lia].
Qed.

Lemma dup_call c v ic hs a h : at_rest c v → implements v ic hs ∅ a → call_ok sb a (Dup h) → call_result c v ic hs (Dup h) (spec_call sb a (Dup h)).
Proof.
  intros Hrest Him [i Hi]. destruct (names_lookup _ _ _ _ _ (im_names _ _ _ _ _ Him) Hi) as (k & ip & Hh & _ & _).
  destruct (implements_idup v ic hs ∅ a h k i Him Hh Hi) as (ip' & E & Him').
  unfold call_result. cbn [do_call spec_call]. unfold pointer. rewrite Hh, bind_Ok, E, bind_Ok, Hi. eexists c, v, _, _. split_and!; [done|done|done|cbn; lia].
Qed.

Lemma calls_spec ops : ∀ c v ic hs a, at_rest c v → implements v ic hs ∅ a → calls_ok sb a ops → 26 <= lsize g0 →
  (sum_list (call_blocks <$> ops) ≤ size (free v))%nat →
  let '(rs, a') := spec_calls sb a ops in
  ∃ c' v' ic' hs', do_calls sb dr dw c g0 ic hs ops = Ok (rs, c', g0, ic', hs') ∧ at_rest c' v' ∧ implements v' ic' hs' ∅ a'.
Proof using BL HL Hid FL.
  induction ops as [|op ops IH]; intros c v ic hs a Hr Him Hok Hsz Hfree; [cbn; by eexists c, v, ic, hs|].
  destruct Hok as [Hop Hok]. csimpl in Hfree.
  assert (call_result c v ic hs op (spec_call sb a op)) as (c1 & v1 & ic1 & hs1 & E1 & Hr1 & Him1 & Hfr).
  { destruct op; cbn [call_blocks] in Hfree; [by apply create_call|by apply open_call|by apply dup_call|by apply close_call|by apply read_call|apply write_call; [done..|lia]|by apply relink_call]. }
  cbn [spec_calls do_calls]. destruct (spec_call sb a op) as [[r x] a1]. cbn [fst snd] in *.
  specialize (IH c1 v1 ic1 hs1 a1 Hr1 Him1 Hok Hsz ltac:(lia)). destruct (spec_calls sb a1 ops) as [rs a2].
  destruct IH as (c2 & v2 & ic2 & hs2 & E2 & Hr2 & Him2). exists c2, v2, ic2, hs2. rewrite E1, bind_Ok, E2, bind_Ok. done.
Qed.
End refine.

(** C27. The inode layer is a map from inode numbers to files.  Take a consistent disk at rest and an inode cache that agrees with it.  Any sequence
    of calls, whose needs are met (inodes, cache entries and blocks are left, pointers are held), returns what the map returns: new files get the
    first free number, pointers to one inode share its content, a file without links goes away, with its blocks, when the last pointer to it is
    dropped, and errors of reads and writes change nothing.  The disk is consistent again after every call: each inode in use describes a
    file, no block is shared and none is lost; reference counts are the numbers of pointers, no inode has two entries, and valid entries are the inodes on disk. *)
Theorem inode_layer_refines g sb dr dw ops c v ic hs a : layout g → idle g → fs_layout g sb → 26 <= lsize g →
  at_rest (cview := binv) c v → implements g sb v ic hs ∅ a → calls_ok sb a ops →
  (sum_list (call_blocks <$> ops) ≤ size (free_blocks g sb v))%nat →
  let '(rs, a') := spec_calls sb a ops in
  ∃ c' v' ic' hs', do_calls sb dr dw c g ic hs ops = Ok (rs, c', g, ic', hs') ∧ at_rest (cview := binv) c' v' ∧ implements g sb v' ic' hs' ∅ a'.
Proof. intros HL Hid FL Hsz Hr Him Hok Hfree. by apply (calls_spec g HL Hid sb FL dr dw ops c v ic hs a). Qed.

(** * A disk with one file

    The disk of FileThm.v with the inode of its file in the table. *)

Definition x_fs : disk_map := <[(ROOTDEV, 32) := replicate 64 0 ++ dinode_bytes w_ip ++ replicate 384 0]> w_fs.
Definition x_din : inode := Inode ROOTDEV 1 0 false true T_FILE 0 0 1 5 (34 :: replicate 12 0).
Definition x_cache : icache := replicate NINODE (Inode 0 0 0 false false 0 0 0 0 0 []).
Definition x_abs : afs := AFs {[1 := AFile T_FILE 0 0 1 [9; 8; 7; 6; 5]]} [].

Lemma x_inode : din w_log w_sb x_fs 1 = x_din.
Proof. vm_compute. reflexivity. Qed.

Lemma x_live i : live w_log w_sb x_fs i ↔ i = 1.
Proof.
  split; [|intros ->; split; [by vm_compute|rewrite x_inode; by vm_compute]]. intros [Hi Ht]. cbn in Hi.
  assert (i = 1 ∨ i = 2 ∨ i = 3 ∨ i = 4 ∨ i = 5 ∨ i = 6 ∨ i = 7) as Hc by lia.
  destruct Hc as [-> |[-> |[-> |[-> |[-> |[-> | ->]]]]]]; [done|exfalso; apply Ht; vm_compute; reflexivity..].
Qed.

Lemma x_used b : 0 <= b < 100 → used w_log w_sb x_fs b ↔ b < 35.
Proof.
  intros Hb. assert (forallb (λ b, eqb (negb (bit_of w_bitmap b =? 0)) (b <? 35)) (seqZ 0 100) = true) as HF by (vm_compute; reflexivity).
  rewrite forallb_forall in HF. specialize (HF b). rewrite eqb_true_iff in HF. unfold used.
  change (x_fs !!! home_key w_log (sb_bmapstart w_sb)) with w_bitmap. rewrite <- Z.ltb_lt, <- HF by (apply list_elem_of_In, elem_of_seqZ; lia).
  rewrite negb_true_iff, Z.eqb_neq. done.
Qed.

Lemma x_meta b : 0 <= b < 34 → meta w_log w_sb b.
Proof.
  intros Hb. destruct (decide (b <= 1)) as [?|?]; [right; right; left; lia|]. destruct (decide (b < 32)) as [?|?].
  - left. intros [_ Hl]. apply Hl. unfold in_log. cbn. lia.
  - destruct (decide (b = 33)) as [->|?]; [right; by left|]. right. right. right. exists 1. split; [by vm_compute|]. assert (b = 32) as -> by lia. by vm_compute.
Qed.

Lemma x_slots s : saddr w_log x_fs x_din s ≠ 0 → s = 0%nat.
Proof. unfold saddr. case_decide as H13; [|by rewrite decide_True]. do 13 (destruct s as [|s]; [done|]). lia. Qed.

Lemma x_file : good_file w_log w_sb x_fs x_din.
Proof.
  split; [split|split|].
  - done.
  - cbn. lia.
  - done.
  - intros s Hs Hn. apply x_slots in Hn as ->. change (saddr w_log x_fs x_din 0) with 34. split_and!; [done|done|apply x_used; lia| |by vm_compute].
    intros [Hm|[Hm|[Hm|(i & Hi & Hm)]]]; [|done|cbn in Hm; lia|].
    + apply Hm. split; [unfold FSSIZE; lia|]. unfold in_log. cbn. lia.
    + cbn in Hi. unfold IBLOCK, IPB in Hm. cbn in Hm. rewrite Z.div_small in Hm; lia.
  - intros s s' _ _ Hn E. pose proof (x_slots s Hn) as ->. symmetry. apply x_slots. by rewrite <- E.
  - change (isize x_din) with 5. unfold MAXBYTES, BSIZE. lia.
  - intros x Hx. change (Z.to_nat (isize x_din)) with 5%nat in Hx. do 5 (destruct x as [|x]; [by vm_compute|]). lia.
  - by split_and!; vm_compute.
Qed.

Lemma x_fsck : fsck w_log w_sb x_fs.
Proof.
  assert (∀ i, i ≠ 1 → blocks_of w_log w_sb x_fs i = ∅) as Hnone by (intros i Hi; unfold blocks_of; rewrite decide_False; [done|by rewrite x_live]).
  split.
  - split; [by vm_compute|]. intros b Hb Hm. apply x_used; [done|]. destruct (decide (b < 35)) as [?|Hge]; [done|]. exfalso. cbn in Hb.
    destruct Hm as [Hm|[Hm|[Hm|(i & Hi & Hm)]]]; [|cbn in Hm; lia|cbn in Hm; lia|].
    + apply Hm. split; [unfold FSSIZE; lia|]. unfold in_log. cbn. lia.
    + cbn in Hi. unfold IBLOCK, IPB in Hm. cbn in Hm. rewrite Z.div_small in Hm; lia.
  - intros i Hi. cbn in Hi. assert (IBLOCK w_sb i = 32) as -> by (unfold IBLOCK, IPB; cbn; rewrite Z.div_small; lia). by vm_compute.
  - intros i ->%x_live. rewrite x_inode. apply x_file.
  - intros i j Hne. destruct (decide (i = 1)) as [->|Hi]; [|rewrite (Hnone i Hi); set_solver]. rewrite (Hnone j) by done. set_solver.
  - intros b Hb Hu%x_used Hm; [|done]. assert (b = 34) as ->.
    { destruct (decide (b < 34)) as [?|?]; [|lia]. exfalso. apply Hm, x_meta. lia. }
    exists 1. unfold blocks_of. rewrite decide_True by (by apply x_live). rewrite x_inode. apply elem_of_file_blocks. split; [done|]. exists 0%nat. split; [unfold NSLOT; lia|done].
Qed.

Lemma x_implements : implements w_log w_sb x_fs x_cache [] ∅ x_abs.
Proof.
  split.
  - apply x_fsck.
  - intros i. cbn [files x_abs]. destruct (decide (live w_log w_sb x_fs i)) as [->%x_live|Hn].
    + rewrite x_inode. vm_compute. reflexivity.
    + rewrite x_live in Hn. by rewrite lookup_singleton_ne.
  - split; [done|intros k ip [-> _]%lookup_replicate; done|by intros k ?%not_elem_of_nil|by intros k ip _ ?%not_elem_of_nil|by intros k k' ip ip' _ _ ?%not_elem_of_nil|by intros k ?%elem_of_empty].
  - constructor.
  - intros i ->%x_live. rewrite x_inode. done.
Qed.

Definition x_calls : list fcall :=
  [Open 1; Create T_FILE 0 0; WriteAt 1 0 [1; 2; 3]; ReadAt 1 1 5; Relink 1 (-1); Close 1; WriteAt 0 6 [4]; ReadAt 0 3 9].

Lemma x_calls_ok : calls_ok w_sb x_abs x_calls.
Proof.
  cbn [calls_ok x_calls]. split_and!; unfold call_ok; try (eexists; vm_compute; reflexivity); try (eexists _, _; split; [vm_compute; reflexivity|]; split_and!); try by vm_compute.
  - split; [eexists; vm_compute; reflexivity|]. right. apply Nat.ltb_lt. vm_compute. reflexivity.
  - split_and!; [eexists; vm_compute; reflexivity|apply Nat.ltb_lt; vm_compute; reflexivity|by vm_compute..].
  - cbn. lia.
  - cbn. lia.
Qed.

Lemma x_free : size (free_blocks w_log w_sb x_fs) = 65%nat.
Proof. vm_compute. reflexivity. Qed.

(** C27 on that disk: the new file is number 2, holds three bytes, and is gone in the end. *)
Lemma inode_layer_refines_witness : ∃ c' v' ic' hs',
  do_calls w_sb (λ _, None) (λ _, None) (binit x_fs) w_log x_cache [] x_calls =
    Ok ([(0, []); (2, []); (3, []); (2, [2; 3]); (0, []); (0, []); (-1, []); (2, [6; 5])], c', w_log, ic', hs') ∧
  implements w_log w_sb v' ic' hs' ∅ (AFs {[1 := AFile T_FILE 0 0 1 [9; 8; 7; 6; 5]]} [1]).
Proof.
  assert (sum_list (call_blocks <$> x_calls) ≤ size (free_blocks w_log w_sb x_fs))%nat as Hfree by (rewrite x_free; cbn; lia).
  pose proof (inode_layer_refines w_log w_sb (λ _, None) (λ _, None) x_calls (binit x_fs) x_fs x_cache [] x_abs
    w_log_layout ltac:(by split_and!) w_fs_layout ltac:(vm_compute; discriminate) (ex_intro _ x_fs (binit_inv x_fs)) x_implements x_calls_ok Hfree) as HT.
  assert (spec_calls w_sb x_abs x_calls = ([(0, []); (2, []); (3, []); (2, [2; 3]); (0, []); (0, []); (-1, []); (2, [6; 5])],
    AFs {[1 := AFile T_FILE 0 0 1 [9; 8; 7; 6; 5]]} [1])) as E by (vm_compute; reflexivity). rewrite E in HT.
  destruct HT as (c' & v' & ic' & hs' & E1 & _ & Him). exists c', v', ic', hs'. split; [exact E1|exact Him].
Defined.
