(* ===== verification/Dir.v ===== *)
(** Directories and paths (src/p4/fs.c).

    A name is the list of its characters, without the NUL that ends it; in a [struct dirent] it is padded with NULs to
    [DIRSIZ] bytes.  Directories are entries of the inode cache; the callers hold their locks. *)

From Stdlib Require Import ZArith Lia.
From stdpp Require Import base numbers list gmap fin_sets sets strings.
From S2P Require Import Prelude CStr Bio Log Fs Icache.
#[local] Open Scope Z_scope.

Definition DIRSIZ : nat := 14.
Definition ROOTINO : Z := 1.

(** The character [*p], and NUL at the end of the string. *)
Definition chr (p : list Z) : Z := hd 0 p.

(** [strncmp] on strings and buffers. *)
Fixpoint strncmp (p q : list Z) (n : nat) : Z :=
  match n with
  | O => 0
  | S n' => if negb (chr p =? 0) && (chr p =? chr q) then strncmp (tl p) (tl q) n' else chr p - chr q
  end.

Definition namecmp (s t : list Z) : Z := strncmp s t DIRSIZ.

(** The bytes that [strncpy(s, name, n)] stores. *)
Fixpoint strncpy (t : list Z) (n : nat) : list Z :=
  match n with
  | O => []
  | S n' => if chr t =? 0 then replicate (S n') 0 else chr t :: strncpy (tl t) n'
  end.

(** [struct dirent]: [ushort inum; char name[DIRSIZ];]. *)
Definition DIRENT : nat := 16.
Definition de_inum (d : list Z) : Z := le (take 2 d).
Definition de_name (d : list Z) : list Z := take DIRSIZ (drop 2 d).
Definition dirent (i : Z) (name : list Z) : list Z := le_bytes 2 i ++ strncpy name DIRSIZ.

(** ** Paths *)

Definition SLASH : Z := 47.

(** [while( *path == '/') path++;] *)
Fixpoint skip_slashes (path : list Z) : list Z := match path with c :: p => if c =? SLASH then skip_slashes p else path | [] => [] end.

(** [while( *path != '/' && *path != 0) path++;]: the element and what follows it. *)
Fixpoint take_elem (path : list Z) : list Z * list Z :=
  match path with
  | [] => ([], [])
  | c :: p => if (c =? SLASH) || (c =? 0) then ([], path) else let '(e, r) := take_elem p in (c :: e, r)
  end.

(** The element copied into [name], and the rest of the path. *)
Definition skipelem (path : list Z) : option (list Z * list Z) :=
  let path := skip_slashes path in
  if chr path =? 0 then None
  else
    let '(s, path) := take_elem path in
    let len := length s in
    let name := if (DIRSIZ <=? len)%nat then take DIRSIZ s else s in
    Some (name, skip_slashes path).

Section dir.
Context {C : Type} `{BufOps C} (sb : superblock).
Context (devsw_read : Z → option (C → log → inode → Z → outcome (Z * list Z * inode * C * log))).
Context (devsw_write : Z → option (C → log → inode → list Z → outcome (Z * inode * C * log))).

(** [readi] and [writei] on an entry of the cache. *)
Definition readi_at (c : C) (g : log) (ic : icache) (k : nat) (off n : Z) : outcome (Z * list Z * C * log * icache) :=
  ip ← deref ic k;
  '(r, l, ip, c, g) ← readi sb devsw_read c g ip off n;
  Ok (r, l, c, g, <[k := ip]> ic).

Definition writei_at (c : C) (g : log) (ic : icache) (k : nat) (src : list Z) (off : Z) : outcome (Z * C * log * icache) :=
  ip ← deref ic k;
  '(r, ip, c, g) ← writei sb devsw_write c g ip src off;
  Ok (r, c, g, <[k := ip]> ic).

(** The loop of [dirlookup]: the inode found and its offset. *)
Fixpoint dirlookup_loop (c : C) (g : log) (ic : icache) (dp : nat) (name : list Z) (off : Z) (fuel : nat) : outcome (option (nat * Z) * C * log * icache) :=
  ip ← deref ic dp;
  if off <? isize ip then
    match fuel with
    | O => NoFuel
    | S fuel' =>
        '(r, de, c, g, ic) ← readi_at c g ic dp off 16;
        if negb (r =? 16) then Panic "dirlookup read"
        else if de_inum de =? 0 then dirlookup_loop c g ic dp name (u32 (off + 16)) fuel'
        else if namecmp name (de_name de) =? 0 then
          '(k, ic) ← iget ic (i_dev ip) (de_inum de);
          Ok (Some (k, off), c, g, ic)
        else dirlookup_loop c g ic dp name (u32 (off + 16)) fuel'
    end
  else Ok (None, c, g, ic).

Definition dirlookup (c : C) (g : log) (ic : icache) (dp : nat) (name : list Z) : outcome (option (nat * Z) * C * log * icache) :=
  ip ← deref ic dp;
  if negb (itype ip =? T_DIR) then Panic "dirlookup not DIR"
  else dirlookup_loop c g ic dp name 0 (Z.to_nat (isize ip)).

(** The loop of [dirlink]: the offset of the first empty entry, or of the end. *)
Fixpoint dirlink_loop (c : C) (g : log) (ic : icache) (dp : nat) (off : Z) (fuel : nat) : outcome (Z * C * log * icache) :=
  ip ← deref ic dp;
  if off <? isize ip then
    match fuel with
    | O => NoFuel
    | S fuel' =>
        '(r, de, c, g, ic) ← readi_at c g ic dp off 16;
        if negb (r =? 16) then Panic "dirlink read"
        else if de_inum de =? 0 then Ok (off, c, g, ic)
        else dirlink_loop c g ic dp (u32 (off + 16)) fuel'
    end
  else Ok (off, c, g, ic).

Definition dirlink (c : C) (g : log) (ic : icache) (dp : nat) (name : list Z) (i : Z) : outcome (Z * C * log * icache) :=
  '(o, c, g, ic) ← dirlookup c g ic dp name;
  match o with
  | Some (k, _) =>
      '(c, g, ic) ← iput sb c g ic k;
      Ok (-1, c, g, ic)
  | None =>
      ip ← deref ic dp;
      '(off, c, g, ic) ← dirlink_loop c g ic dp 0 (Z.to_nat (isize ip));
      '(r, c, g, ic) ← writei_at c g ic dp (dirent i name) off;
      if negb (r =? 16) then Panic "dirlink" else Ok (0, c, g, ic)
  end.

(** The loop of [namex]: the inode, and the last element copied into [name]. *)
Fixpoint namex_loop (c : C) (g : log) (ic : icache) (k : nat) (path name : list Z) (nameiparent : bool) (fuel : nat) :
    outcome (option nat * list Z * C * log * icache) :=
  match skipelem path with
  | None =>
      if nameiparent then '(c, g, ic) ← iput sb c g ic k; Ok (None, name, c, g, ic)
      else Ok (Some k, name, c, g, ic)
  | Some (name, path) =>
      match fuel with
      | O => NoFuel
      | S fuel' =>
          '(c, ic) ← ilock_at sb c ic k;
          ip ← deref ic k;
          if negb (itype ip =? T_DIR) then '(c, g, ic) ← iunlockput sb c g ic k; Ok (None, name, c, g, ic)
          else if nameiparent && (chr path =? 0) then ic ← iunlock_at ic k; Ok (Some k, name, c, g, ic)
          else
            '(o, c, g, ic) ← dirlookup c g ic k name;
            match o with
            | None => '(c, g, ic) ← iunlockput sb c g ic k; Ok (None, name, c, g, ic)
            | Some (next, _) => '(c, g, ic) ← iunlockput sb c g ic k; namex_loop c g ic next path name nameiparent fuel'
            end
      end
  end.

(** [cwd] is the entry of the process's current directory. *)
Definition namex (c : C) (g : log) (ic : icache) (cwd : nat) (path name : list Z) (nameiparent : bool) : outcome (option nat * list Z * C * log * icache) :=
  '(k, ic) ← (if chr path =? SLASH then iget ic ROOTDEV ROOTINO else ic ← idup ic cwd; Ok (cwd, ic));
  namex_loop c g ic k path name nameiparent (length path).

Definition namei (c : C) (g : log) (ic : icache) (cwd : nat) (path : list Z) : outcome (option nat * C * log * icache) :=
  '(o, _, c, g, ic) ← namex c g ic cwd path [] false;
  Ok (o, c, g, ic).

Definition nameiparent (c : C) (g : log) (ic : icache) (cwd : nat) (path : list Z) : outcome (option nat * list Z * C * log * icache) :=
  namex c g ic cwd path [] true.
End dir.
