(* ===== verification/DirSpec.v ===== *)
(** Names, paths and the content of directories, without the disk (src/p4/fs.c). *)

From Stdlib Require Import ZArith Lia.
From stdpp Require Import base numbers list gmap fin_sets sets strings.
From S2P Require Import Prelude CStr Bio Log Fs FsSpec File FsCk Icache Dir.
#[local] Open Scope Z_scope.

(** * Names *)

(** The name in a buffer: the bytes before the NUL, at most [n]. *)
Fixpoint upto (n : nat) (l : list Z) : list Z :=
  match n, l with S n', c :: l' => if c =? 0 then [] else c :: upto n' l' | _, _ => [] end.
Definition cname (l : list Z) : list Z := upto DIRSIZ l.

Lemma upto_chr n l : upto (S n) l = if chr l =? 0 then [] else chr l :: upto n (tl l).
Proof. destruct l as [|c l]; [done|]. cbn. by destruct (c =? 0). Qed.

(** [namecmp] is equality of names. *)
Lemma strncmp_upto n : ∀ p q, strncmp p q n = 0 ↔ upto n p = upto n q.
Proof.
  induction n as [|n IH]; intros p q; [done|]. rewrite !upto_chr. cbn [strncmp].
  destruct (Z.eqb_spec (chr p) 0) as [Ep|Np]; cbn [negb andb].
  - rewrite Ep. destruct (Z.eqb_spec (chr q) 0) as [->|Nq]; [done|]. split; [lia|done].
  - destruct (Z.eqb_spec (chr p) (chr q)) as [E|N].
    + rewrite IH, <- E, (proj2 (Z.eqb_neq _ _)) by done. split; [by intros ->|by intros [=]].
    + destruct (Z.eqb_spec (chr q) 0) as [Eq|Nq]; [rewrite Eq; split; [lia|done]|]. split; [lia|]. by intros [=].
Qed.

Lemma namecmp_cname p q : (namecmp p q =? 0) = bool_decide (cname p = cname q).
Proof. apply eq_bool_prop_intro. rewrite bool_decide_spec, Is_true_true, Z.eqb_eq. apply strncmp_upto. Qed.

Lemma length_strncpy t n : length (strncpy t n) = n.
Proof. revert t. induction n as [|n IH]; intros t; [done|]. cbn [strncpy]. destruct (chr t =? 0); [apply length_replicate|]. cbn. by rewrite IH. Qed.

Lemma upto_strncpy n : ∀ t, upto n (strncpy t n) = upto n t.
Proof.
  induction n as [|n IH]; intros t; [done|]. rewrite (upto_chr n t). cbn [strncpy]. destruct (Z.eqb_spec (chr t) 0) as [E|N]; [done|].
  cbn [upto]. by rewrite (proj2 (Z.eqb_neq _ _)), IH.
Qed.

Lemma length_dirent i name : length (dirent i name) = DIRENT.
Proof. unfold dirent. rewrite length_app, length_le_bytes, length_strncpy. done. Qed.

Definition is_ushort (i : Z) : Prop := 0 <= i < 2 ^ 16.

Lemma dirent_inum i name : is_ushort i → de_inum (dirent i name) = i.
Proof. intros Hi. unfold de_inum, dirent. rewrite take_app_length' by done. by apply le_le_bytes. Qed.

Lemma dirent_name i name : cname (de_name (dirent i name)) = cname name.
Proof.
  unfold de_name, dirent. rewrite drop_app_length' by done. rewrite take_ge by (rewrite length_strncpy; done). apply upto_strncpy.
Qed.

(** * Directories *)

Definition dent (l : list Z) (k : nat) : list Z := take DIRENT (drop (DIRENT * k) l).
Definition ndent (l : list Z) : nat := (length l / DIRENT)%nat.

(** The first entry from [k] on, of [n], that satisfies [P]. *)
Fixpoint dfind (P : list Z → bool) (l : list Z) (k n : nat) : option nat :=
  match n with O => None | S n' => if P (dent l k) then Some k else dfind P l (S k) n' end.

Definition entry_for (name d : list Z) : bool := negb (de_inum d =? 0) && bool_decide (cname name = cname (de_name d)).
Definition entry_free (d : list Z) : bool := de_inum d =? 0.

Definition dlookup (l name : list Z) : option nat := dfind (entry_for name) l 0 (ndent l).
Definition dslot (l : list Z) : nat := default (ndent l) (dfind entry_free l 0 (ndent l)).

(** The content after [dirlink]. *)
Definition dlink (l name : list Z) (i : Z) : list Z := write_at l (DIRENT * dslot l) (dirent i name).

Lemma dfind_Some P l n : ∀ k j, dfind P l k n = Some j → (k ≤ j < k + n)%nat ∧ P (dent l j) = true ∧ ∀ j', (k ≤ j' < j)%nat → P (dent l j') = false.
Proof.
  induction n as [|n IH]; intros k j; [done|]. cbn [dfind]. destruct (P (dent l k)) eqn:E.
  - intros [= <-]. split_and!; [lia|lia|done|lia].
  - intros Hj. destruct (IH (S k) j Hj) as (Hr & HP & Hb). split_and!; [lia|lia|done|]. intros j' Hj'. destruct (decide (j' = k)) as [->|?]; [done|]. apply Hb. lia.
Qed.

Lemma dfind_None P l n : ∀ k, dfind P l k n = None → ∀ j, (k ≤ j < k + n)%nat → P (dent l j) = false.
Proof.
  induction n as [|n IH]; intros k Hn j Hj; [lia|]. cbn [dfind] in Hn. destruct (P (dent l k)) eqn:E; [done|].
  destruct (decide (j = k)) as [->|?]; [done|]. apply (IH (S k) Hn). lia.
Qed.

(** A directory as a map from names to inode numbers; the first entry for a name counts. *)
Definition dmap_from (l : list Z) (k n : nat) : gmap (list Z) Z :=
  list_to_map (omap (λ j, let d := dent l j in if de_inum d =? 0 then None else Some (cname (de_name d), de_inum d)) (seq k n)).
Definition dmap (l : list Z) : gmap (list Z) Z := dmap_from l 0 (ndent l).

Lemma dmap_step l k n : dmap_from l k (S n) =
  (if de_inum (dent l k) =? 0 then dmap_from l (S k) n else <[cname (de_name (dent l k)) := de_inum (dent l k)]> (dmap_from l (S k) n)).
Proof. unfold dmap_from. cbn [seq omap list_omap]. by destruct (de_inum (dent l k) =? 0). Qed.

(** What [dirlookup] looks for is the value of the map. *)
Lemma dmap_dfind l name n : ∀ k, dmap_from l k n !! cname name = (λ j, de_inum (dent l j)) <$> dfind (entry_for name) l k n.
Proof.
  induction n as [|n IH]; intros k; [done|]. rewrite dmap_step. cbn [dfind]. unfold entry_for at 1.
  destruct (Z.eqb_spec (de_inum (dent l k)) 0) as [E|N]; cbn [negb andb]; [apply IH|].
  case_bool_decide as Hc; [rewrite Hc; by rewrite lookup_insert_eq|]. rewrite lookup_insert_ne by done. apply IH.
Qed.

Lemma dmap_lookup l name : dmap l !! cname name = (λ j, de_inum (dent l j)) <$> dlookup l name.
Proof. apply dmap_dfind. Qed.

Lemma dmap_from_ext l l' k n : (∀ j, (k ≤ j < k + n)%nat → dent l' j = dent l j) → dmap_from l' k n = dmap_from l k n.
Proof.
  intros He. unfold dmap_from. f_equal. revert k He. induction n as [|n IH]; intros k He; [done|]. cbn [seq omap list_omap]. rewrite (He k) by lia.
  rewrite IH; [done|]. intros j Hj. apply He. lia.
Qed.

Lemma dmap_split l k n m : dmap_from l k (n + m) = dmap_from l k n ∪ dmap_from l (k + n) m.
Proof.
  revert k. induction n as [|n IH]; intros k; [rewrite Nat.add_0_r; symmetry; apply (left_id_L ∅ (∪))|]. cbn [Nat.add]. rewrite !dmap_step, IH.
  replace (S k + n)%nat with (k + S n)%nat by lia. destruct (_ =? 0); [done|]. by rewrite insert_union_l.
Qed.

(** Entry [j] is overwritten. *)
Lemma dent_write l s d j : length d = DIRENT → (DIRENT * s ≤ length l)%nat → (length l mod DIRENT = 0)%nat → 
  dent (write_at l (DIRENT * s) d) j = if decide (j = s) then d else dent l j.
Proof.
  intros Hd Hs Hm. unfold dent, write_at. case_decide as E.
  - subst j. rewrite drop_app_length' by (rewrite length_take; lia). by rewrite take_app_length' by done.
  - apply list_eq. intros x. destruct (decide (x < DIRENT)%nat) as [Hx|Hx]; [|by rewrite !lookup_take_ge by lia].
    rewrite !lookup_take_lt, !lookup_drop by done. unfold DIRENT in *. destruct (decide (16 * j + x < 16 * s)%nat) as [Hlt|Hge].
    + rewrite lookup_app_l by (rewrite length_take; lia). by rewrite lookup_take_lt by lia.
    + rewrite lookup_app_r by (rewrite length_take; lia). rewrite length_take, lookup_app_r by (rewrite Hd; lia). rewrite Hd, lookup_drop. f_equal. lia.
Qed.

Lemma dslot_spec l : (length l mod DIRENT = 0)%nat → let s := dslot l in
  (s ≤ ndent l)%nat ∧ ((s < ndent l)%nat → de_inum (dent l s) = 0) ∧ ∀ j, (j < s)%nat → de_inum (dent l j) ≠ 0.
Proof.
  intros Hm s. unfold s, dslot. destruct (dfind entry_free l 0 (ndent l)) as [j|] eqn:E; cbn [from_option]; unfold id.
  - destruct (dfind_Some _ _ _ _ _ E) as (Hr & HP & Hb). split_and!; [lia|intros _; by apply Z.eqb_eq|]. intros j' Hj'. apply Z.eqb_neq, Hb. lia.
  - split_and!; [lia|lia|]. intros j Hj. apply Z.eqb_neq. apply (dfind_None _ _ _ _ E). lia.
Qed.

Lemma ndent_length l : (length l mod DIRENT = 0)%nat → (DIRENT * ndent l = length l)%nat.
Proof. intros Hm. unfold ndent. pose proof (Nat.div_mod (length l) DIRENT ltac:(done)). lia. Qed.

(** [dirlink] of a new name adds it to the map, and changes nothing else in it. *)
Lemma dmap_dlink l name i : (length l mod DIRENT = 0)%nat → is_ushort i → i ≠ 0 → dlookup l name = None →
  dmap (dlink l name i) = <[cname name := i]> (dmap l) ∧ (length (dlink l name i) mod DIRENT = 0)%nat ∧
  length (dlink l name i) = Nat.max (length l) (DIRENT * dslot l + DIRENT).
Proof.
  intros Hm Hi Hi0 Hno. pose proof (ndent_length l Hm) as Hn. destruct (dslot_spec l Hm) as (Hs & Hfree & _). set (s := dslot l) in *.
  pose proof (length_dirent i name) as Hd. assert (DIRENT * s ≤ length l)%nat as Hsl by (unfold DIRENT in *; lia).
  set (l' := dlink l name i).
  assert (length l' = Nat.max (length l) (DIRENT * s + DIRENT)) as Hlen by (unfold l', dlink; fold s; by rewrite length_write_at, Hd).
  assert (∀ j, dent l' j = if decide (j = s) then dirent i name else dent l j) as Hdent by (intros j; by apply dent_write).
  assert (ndent l' = Nat.max (ndent l) (S s)) as Hnd.
  { unfold ndent at 1. rewrite Hlen. replace (Nat.max (length l) (DIRENT * s + DIRENT)) with (Nat.max (ndent l) (S s) * DIRENT)%nat by (unfold DIRENT in *; lia).
    by rewrite Nat.div_mul. }
  assert (∀ k n, (s < k ∨ k + n ≤ s)%nat → dmap_from l' k n = dmap_from l k n) as Hother.
  { intros k n Hk. apply dmap_from_ext. intros j Hj. rewrite Hdent, decide_False by lia. done. }
  assert (dmap l !! cname name = None) as Hnone by (by rewrite dmap_lookup, Hno).
  split_and!; [|by rewrite Hlen; replace (Nat.max (length l) (DIRENT * s + DIRENT)) with (Nat.max (ndent l) (S s) * DIRENT)%nat by (unfold DIRENT in *; lia); apply Nat.Div0.mod_mul|done].
  assert (dmap_from l' s 1 = {[cname name := i]}) as Hone.
  { rewrite dmap_step, Hdent, decide_True, dirent_inum, dirent_name by done. rewrite (proj2 (Z.eqb_neq _ _)) by done. done. }
  unfold dmap in *. rewrite Hnd. destruct (decide (s < ndent l)%nat) as [Hlt|Hge].
  - replace (Nat.max (ndent l) (S s)) with (s + (1 + (ndent l - S s)))%nat by lia. rewrite dmap_split, (dmap_split l' (0 + s) 1). cbn [Nat.add]. rewrite Hone, !Hother by lia.
    replace (ndent l) with (s + (1 + (ndent l - S s)))%nat in Hnone |- * by lia. rewrite dmap_split, (dmap_split l (0 + s) 1) in Hnone |- *. cbn [Nat.add] in *.
    assert (dmap_from l s 1 = ∅) as Hempty by (rewrite dmap_step, (Hfree Hlt); done). rewrite Hempty, (left_id_L ∅ (∪)) in Hnone |- *.
    apply lookup_union_None in Hnone as [Hn1 Hn2]. rewrite <- insert_union_singleton_l, insert_union_r by done. do 3 f_equal; lia.
  - assert (s = ndent l) as Es by lia. replace (Nat.max (ndent l) (S s)) with (s + 1)%nat by lia. rewrite dmap_split. cbn [Nat.add]. rewrite Hone, Hother by lia.
    rewrite <- Es in *. apply map_eq. intros x. destruct (decide (x = cname name)) as [->|Hx].
    + rewrite lookup_insert_eq, lookup_union_r by done. apply lookup_singleton_eq.
    + rewrite lookup_insert_ne, lookup_union_l by (done || by rewrite lookup_singleton_ne). done.
Qed.

(** * Paths *)

(** The parts of a path between slashes, and those that are not empty. *)
Fixpoint split_slash (p : list Z) : list (list Z) :=
  match p with
  | [] => [[]]
  | c :: p' => if c =? SLASH then [] :: split_slash p' else match split_slash p' with [] => [[c]] | e :: es => (c :: e) :: es end
  end.
Definition elems (p : list Z) : list (list Z) := filter (λ e, e ≠ []) (split_slash p).

Definition no_nul (p : list Z) : Prop := Forall (λ c, c ≠ 0) p.

Lemma elems_slash c p : c = SLASH → elems (c :: p) = elems p.
Proof. intros ->. unfold elems. cbn [split_slash]. rewrite Z.eqb_refl, filter_cons. by rewrite decide_False by (intros Hx; by apply Hx). Qed.

Lemma skip_slashes_spec p : no_nul p → elems (skip_slashes p) = elems p ∧ no_nul (skip_slashes p) ∧ chr (skip_slashes p) ≠ SLASH ∧ (length (skip_slashes p) ≤ length p)%nat.
Proof.
  induction 1 as [|c p Hc Hp IH]; [split_and!; [done|constructor|done|cbn; lia]|]. cbn [skip_slashes]. destruct (Z.eqb_spec c SLASH) as [->|Hne].
  - rewrite elems_slash by done. destruct IH as (? & ? & ? & ?). split_and!; try done. cbn. lia.
  - split_and!; [done|by constructor|done|lia].
Qed.

Lemma split_slash_cons p : ∃ e es, split_slash p = e :: es.
Proof. induction p as [|c p (e & es & E)]; [by exists [], []|]. cbn [split_slash]. destruct (c =? SLASH); [by exists [], (split_slash p)|]. rewrite E. by eexists _, _. Qed.

Lemma take_elem_spec p : no_nul p → let '(e, r) := take_elem p in
  (∃ es, split_slash p = e :: es ∧ filter (λ e, e ≠ []) es = elems r) ∧ no_nul r ∧ (length p = length e + length r)%nat.
Proof.
  induction 1 as [|c p Hc Hp IH]; [split_and!; [by exists []|constructor|done]|]. cbn [take_elem split_slash]. destruct (Z.eqb_spec c SLASH) as [->|Hne]; cbn [orb].
  - split_and!; [|by constructor|done]. exists (split_slash p). split; [done|]. by rewrite elems_slash.
  - rewrite (proj2 (Z.eqb_neq c 0)) by done. destruct (take_elem p) as [e r]. destruct IH as ((es & E & Ees) & Hr & Hlen). rewrite E.
    split_and!; [by exists es|done|cbn; lia].
Qed.

Lemma elems_nil p : no_nul p → chr p ≠ SLASH → (chr p = 0 ↔ elems p = []).
Proof.
  destruct p as [|c p]; [done|]. intros Hn Hc. apply Forall_cons in Hn as [Hc0 _]. cbn in Hc. split; [by intros|]. unfold elems. cbn [split_slash].
  rewrite (proj2 (Z.eqb_neq c SLASH)) by done. destruct (split_slash_cons p) as (e & es & ->). rewrite filter_cons. by rewrite decide_True.
Qed.

(** [skipelem] takes the first element of the path. *)
Lemma skipelem_spec p : no_nul p →
  match skipelem p with
  | None => elems p = []
  | Some (name, rest) => ∃ e, elems p = e :: elems rest ∧ name = take DIRSIZ e ∧ e ≠ [] ∧ no_nul rest ∧ (chr rest = 0 ↔ elems rest = []) ∧ (length rest < length p)%nat
  end.
Proof.
  intros Hn. unfold skipelem. destruct (skip_slashes_spec p Hn) as (E1 & Hn1 & Hc1 & Hl1). set (p1 := skip_slashes p) in *. rewrite <- E1. clearbody p1.
  destruct (Z.eqb_spec (chr p1) 0) as [E0|N0]; [by apply elems_nil|]. pose proof (take_elem_spec p1 Hn1) as Ht. destruct (take_elem p1) as [e r] eqn:Ete.
  destruct Ht as ((es & Es & Ees) & Hr & Hlen). destruct (skip_slashes_spec r Hr) as (E2 & Hn2 & Hc2 & Hl2).
  assert (e ≠ []) as He.
  { destruct p1 as [|c p1]; [done|]. cbn in N0, Hc1, Ete. rewrite (proj2 (Z.eqb_neq _ _)), (proj2 (Z.eqb_neq _ _)) in Ete by done. cbn in Ete.
    destruct (take_elem p1). by injection Ete as <- _. }
  exists e. split_and!; [| |done|done|by apply elems_nil|].
  - unfold elems at 1. rewrite Es, filter_cons, decide_True by done. by rewrite Ees, E2.
  - destruct (Nat.leb_spec DIRSIZ (length e)); [done|]. by rewrite take_ge by lia.
  - destruct e; [done|]. cbn [length] in Hlen. lia.
Qed.

(** The examples in the comment of [skipelem]. *)
Example skipelem_doc1 : skipelem (of_string "a/bb/c") = Some (of_string "a", of_string "bb/c").
Proof. reflexivity. Qed.
Example skipelem_doc2 : skipelem (of_string "///a//bb") = Some (of_string "a", of_string "bb").
Proof. reflexivity. Qed.
Example skipelem_doc3 : skipelem (of_string "a") = Some (of_string "a", []).
Proof. reflexivity. Qed.
Example skipelem_doc4 : skipelem [] = None ∧ skipelem (of_string "////") = None.
Proof. split; reflexivity. Qed.
