(* ===== verification/DirOps.v ===== *)
(** Directory and path operations (src/p4/fs.c) on a consistent file system: lookups, links and path resolution. *)

From Stdlib Require Import ZArith Lia.
From stdpp Require Import base numbers list gmap fin_sets sets strings.
From S2P Require Import Prelude CStr Bio Log LogCrash Fs FsSpec FsTrunc File FileThm FsCk Icache IcacheSpec IcacheOps IcacheThm Dir DirSpec.
#[local] Open Scope Z_scope.

Section dirops.
Context {C : Type} `{BL : BufLaws C cview} (g0 : log) (HL : layout g0) (Hid : idle g0) (sb : superblock) (FL : fs_layout g0 sb).
Context (dr : Z → option (C → log → inode → Z → outcome (Z * list Z * inode * C * log))).
Context (dw : Z → option (C → log → inode → list Z → outcome (Z * inode * C * log))).
Abbreviation sees := (sees (cview := cview) g0).
Abbreviation din := (din g0 sb).
Abbreviation live := (live g0 sb).
Abbreviation implements := (implements g0 sb).
Abbreviation free := (free_blocks g0 sb).

(** ** Locked entries *)

(** The entry [k], locked, is the inode [ip] of the file [f]. *)
Record locked_file (v : disk_map) (ic : icache) (hs : list nat) (a : afs) (k : nat) (ip : inode) (f : afile) : Prop := {
  lf_entry : ic !! k = Some ip;
  lf_held : k ∈ hs;
  lf_valid : i_valid ip = true;
  lf_dev : i_dev ip = dev g0;
  lf_live : live v (inum ip);
  lf_disk : bare ip = din v (inum ip);
  lf_file : files a !! inum ip = Some f;
  lf_is : f = afile_of g0 v ip }.

Lemma locked_get v ic hs L a k : implements v ic hs L a → k ∈ L → ∃ ip f, locked_file v ic hs a k ip f.
Proof.
  intros Him Hk. pose proof (im_coh _ _ _ _ _ _ _ Him) as Hc. destruct (co_lock _ _ _ _ _ _ Hc k Hk) as [Hkh Hv].
  destruct (coh_get g0 sb v hs L ic k Hc Hkh) as (ip & Hip & [Hd Hl Hb] & _). specialize (Hb (Hv ip Hip)).
  exists ip, (afile_of g0 v ip). split; try done; [by apply Hv|]. rewrite (im_files _ _ _ _ _ _ _ Him), decide_True by done. by rewrite <- Hb.
Qed.

Lemma locked_good v ic hs L a k ip f : implements v ic hs L a → locked_file v ic hs a k ip f → good_file g0 sb v ip ∧ length (a_data f) = Z.to_nat (isize ip) ∧
  a_type f = itype ip ∧ 0 <= isize ip <= Z.of_nat MAXBYTES.
Proof.
  intros Him [_ _ _ _ Hl Hb _ ->]. pose proof (cached_good g0 sb v ip (im_ck _ _ _ _ _ _ _ Him) Hl Hb) as Hg. split_and!; [done|apply length_content|done|apply Hg|apply Hg].
Qed.

Lemma readi_at_spec c g v ic hs L a k ip f off n : sees c g v ∅ → implements v ic hs L a → locked_file v ic hs a k ip f → a_type f ≠ T_DEV → room g0 g 0 →
  0 <= off → 0 <= n → (Z.to_nat off + Z.to_nat n ≤ length (a_data f))%nat →
  ∃ c', readi_at sb dr c g ic k off n = Ok (n, take (Z.to_nat n) (drop (Z.to_nat off) (a_data f)), c', g, ic) ∧ sees c' g v ∅.
Proof using BL HL FL.
  intros Hs Him Hlf Hty Hr Ho Hn Hle. destruct (locked_good _ _ _ _ _ _ _ _ Him Hlf) as ([Hf Hsz _] & Hlen & Ht & Hmax). pose proof Hlf as [Hip _ _ _ _ _ _ ->].
  cbn [a_type a_data afile_of] in *. assert (isize ip < 2 ^ 31) by (unfold MAXBYTES, BSIZE in *; lia).
  destruct (readi_spec g0 HL sb FL dr c g v ip off n Hs Hf Hsz Hty Hr) as (c' & Hs' & E); [unfold is_u32; lia|unfold is_u32; lia|].
  exists c'. unfold readi_at, deref. rewrite Hip, bind_Ok, E, decide_True by lia. cbn zeta. rewrite bind_Ok, list_insert_id by done.
  rewrite Z.min_l by lia. done.
Qed.

(** ** [dirlookup] *)

Record is_dir (f : afile) : Prop := { dr_type : a_type f = T_DIR; dr_size : (length (a_data f) mod DIRENT = 0)%nat }.

Lemma dirlookup_loop_spec v ic hs L a k ip f name g : implements v ic hs L a → locked_file v ic hs a k ip f → is_dir f → room g0 g 0 →
  ∀ n j c fuel, sees c g v ∅ → (j + n = ndent (a_data f))%nat → (n ≤ fuel)%nat →
  ∃ c', sees c' g v ∅ ∧ dirlookup_loop sb dr c g ic k name (Z.of_nat (DIRENT * j)) fuel =
    match dfind (entry_for name) (a_data f) j n with
    | None => Ok (None, c', g, ic)
    | Some j' => '(x, ic') ← iget ic (dev g0) (de_inum (dent (a_data f) j')); Ok (Some (x, Z.of_nat (DIRENT * j')), c', g, ic')
    end.
Proof using BL HL FL.
  intros Him Hlf [Hty Hmod] Hr. pose proof (ndent_length _ Hmod) as Hnd. destruct (locked_good _ _ _ _ _ _ _ _ Him Hlf) as (_ & Hlen & _ & Hmax).
  assert (a_type f ≠ T_DEV) as Hnd2 by (by rewrite Hty). pose proof (lf_entry _ _ _ _ _ _ _ Hlf) as Hip. unfold MAXBYTES, BSIZE in Hmax.
  induction n as [|n IH]; intros j c fuel Hs Hj Hfuel.
  - exists c. split; [done|]. cbn [dfind]. destruct fuel; cbn [dirlookup_loop]; unfold deref; rewrite Hip, bind_Ok, (proj2 (Z.ltb_ge _ _)) by (unfold DIRENT in *; lia); done.
  - destruct fuel as [|fuel]; [lia|]. cbn [dirlookup_loop dfind]. unfold deref at 1. rewrite Hip, bind_Ok, (proj2 (Z.ltb_lt _ _)) by (unfold DIRENT in *; lia).
    destruct (readi_at_spec c g v ic hs L a k ip f (Z.of_nat (DIRENT * j)) 16) as (c1 & E1 & Hs1); [done..|lia|lia|unfold DIRENT in *; lia|].
    rewrite E1, bind_Ok, Nat2Z.id. change (Z.to_nat 16) with DIRENT. fold (dent (a_data f) j). change (16 =? 16) with true. cbn [negb].
    assert (u32 (Z.of_nat (DIRENT * j) + 16) = Z.of_nat (DIRENT * S j)) as Eoff by (rewrite u32_small; unfold is_u32, DIRENT in *; lia). rewrite Eoff.
    rewrite namecmp_cname. unfold entry_for at 1. destruct (IH (S j) c1 fuel Hs1 ltac:(lia) ltac:(lia)) as (c2 & Hs2 & E2).
    destruct (de_inum (dent (a_data f) j) =? 0) eqn:E0; cbn [negb andb].
    + exists c2. split; [done|]. exact E2.
    + case_bool_decide.
      * exists c1. split; [done|]. by rewrite (lf_dev _ _ _ _ _ _ _ Hlf).
      * exists c2. split; [done|]. exact E2.
Qed.

(** The entry for [name]: its offset and its inode. *)
Lemma dirlookup_find c g v ic hs L a k ip f name : sees c g v ∅ → implements v ic hs L a → locked_file v ic hs a k ip f → is_dir f → room g0 g 0 →
  ∃ c', sees c' g v ∅ ∧ dirlookup sb dr c g ic k name =
    match dlookup (a_data f) name with
    | None => Ok (None, c', g, ic)
    | Some j => '(x, ic') ← iget ic (dev g0) (de_inum (dent (a_data f) j)); Ok (Some (x, Z.of_nat (DIRENT * j)), c', g, ic')
    end.
Proof using BL HL FL.
  intros Hs Him Hlf Hd Hr. destruct (locked_good _ _ _ _ _ _ _ _ Him Hlf) as (_ & Hlen & Hty & _). unfold dirlookup, deref.
  rewrite (lf_entry _ _ _ _ _ _ _ Hlf), bind_Ok, <- Hty, (dr_type _ Hd), Z.eqb_refl. cbn [negb].
  apply (dirlookup_loop_spec v ic hs L a k ip f name g Him Hlf Hd Hr (ndent (a_data f)) 0 c); [done|done|]. rewrite <- Hlen. unfold ndent. apply Nat.Div0.div_le_upper_bound. unfold DIRENT. lia.
Qed.

(** ** [dirlink] *)

(** A write to a locked file. *)
Lemma writei_at_spec q c g v ic hs L a k ip f src off : sees c g v ∅ → implements v ic hs L a → k ∈ L → locked_file v ic hs a k ip f → a_type f ≠ T_DEV →
  0 <= off <= Z.of_nat (length (a_data f)) → off + Z.of_nat (length src) <= Z.of_nat MAXBYTES →
  room g0 g (6 * nblk (Z.to_nat off) (length src) + 1) → q = 2%nat ∨ q = 0%nat ∧ off + Z.of_nat (length src) <= Z.of_nat (length (a_data f)) →
  (q * nblk (Z.to_nat off) (length src) ≤ size (free v))%nat →
  ∃ c' v' bl ip', writei_at sb dw c g ic k src off = Ok (Z.of_nat (length src), c', logs g bl, <[k := ip']> ic) ∧
    (length bl ≤ 6 * nblk (Z.to_nat off) (length src) + 1)%nat ∧ sees c' (logs g bl) v' ∅ ∧
    implements v' (<[k := ip']> ic) hs L (AFs (<[inum ip := set_data (write_at (a_data f) (Z.to_nat off) src) f]> (files a)) (handles a)) ∧
    (size (free v) ≤ size (free v') + q * nblk (Z.to_nat off) (length src))%nat ∧ inum ip' = inum ip ∧ (k < length ic)%nat.
Proof using BL HL FL.
  intros Hs Him Hk Hlf Hty Ho Hmax Hr Hq Hfree. destruct (locked_good _ _ _ _ _ _ _ _ Him Hlf) as (_ & Hlen & Ht & Hsz). pose proof Hlf as [Hip Hkh Hv _ Hl Hb _ Ef].
  rewrite Hlen in Ho, Hq. rewrite Ht in Hty. pose proof (im_coh _ _ _ _ _ _ _ Him) as Hc. destruct (co_ref _ _ _ _ _ _ Hc k ip Hip) as [_ El].
  destruct (write_step g0 HL sb FL q dw c g v ip src off Hs (im_ck _ _ _ _ _ _ _ Him) Hl Hb Hty) as (ip' & c' & v' & bl & E & Hbl & Hs' & Hst & Edin & Hl' & (S1 & S2 & S3 & S4 & S5) & Eaf & _ & Hfr);
    [lia|done|done|lia|done|]. exists c', v', bl, ip'. unfold writei_at, deref. rewrite Hip, bind_Ok, E, bind_Ok.
  split_and!; [done|done|done| |done|done|by eapply lookup_lt_Some].
  apply (implements_update g0 sb v v' ic hs L L a k ip ip'); try done; [congruence|congruence|]. rewrite Eaf, Ef. done.
Qed.

Lemma dirlink_loop_spec v ic hs L a k ip f g : implements v ic hs L a → locked_file v ic hs a k ip f → is_dir f → room g0 g 0 →
  ∀ n j c fuel, sees c g v ∅ → (j + n = ndent (a_data f))%nat → (n ≤ fuel)%nat →
  ∃ c', sees c' g v ∅ ∧ dirlink_loop sb dr c g ic k (Z.of_nat (DIRENT * j)) fuel =
    Ok (Z.of_nat (DIRENT * default (ndent (a_data f)) (dfind entry_free (a_data f) j n)), c', g, ic).
Proof using BL HL FL.
  intros Him Hlf [Hty Hmod] Hr. pose proof (ndent_length _ Hmod) as Hnd. destruct (locked_good _ _ _ _ _ _ _ _ Him Hlf) as (_ & Hlen & _ & Hmax).
  assert (a_type f ≠ T_DEV) as Hnd2 by (by rewrite Hty). pose proof (lf_entry _ _ _ _ _ _ _ Hlf) as Hip. unfold MAXBYTES, BSIZE in Hmax.
  induction n as [|n IH]; intros j c fuel Hs Hj Hfuel.
  - exists c. split; [done|]. cbn [dfind from_option]. unfold id. replace (ndent (a_data f)) with j by lia.
    destruct fuel; cbn [dirlink_loop]; unfold deref; rewrite Hip, bind_Ok, (proj2 (Z.ltb_ge _ _)) by (unfold DIRENT in *; lia); done.
  - destruct fuel as [|fuel]; [lia|]. cbn [dirlink_loop dfind]. unfold deref at 1. rewrite Hip, bind_Ok, (proj2 (Z.ltb_lt _ _)) by (unfold DIRENT in *; lia).
    destruct (readi_at_spec c g v ic hs L a k ip f (Z.of_nat (DIRENT * j)) 16) as (c1 & E1 & Hs1); [done..|lia|lia|unfold DIRENT in *; lia|].
    rewrite E1, bind_Ok, Nat2Z.id. change (Z.to_nat 16) with DIRENT. fold (dent (a_data f) j). change (16 =? 16) with true. cbn [negb].
    assert (u32 (Z.of_nat (DIRENT * j) + 16) = Z.of_nat (DIRENT * S j)) as Eoff by (rewrite u32_small; unfold is_u32, DIRENT in *; lia). rewrite Eoff.
    unfold entry_free at 1. destruct (IH (S j) c1 fuel Hs1 ltac:(lia) ltac:(lia)) as (c2 & Hs2 & E2).
    destruct (de_inum (dent (a_data f) j) =? 0); [by exists c1|by exists c2].
Qed.

Lemma nblk_dirent s : nblk (DIRENT * s) DIRENT = 1%nat.
Proof.
  unfold nblk. rewrite decide_False by done. assert ((DIRENT * s + DIRENT - 1) / BSIZE = DIRENT * s / BSIZE)%nat as ->; [|lia].
  unfold DIRENT, BSIZE. pose proof (Nat.div_mod s 32 ltac:(done)). pose proof (Nat.mod_upper_bound s 32 ltac:(done)).
  rewrite <- (Nat.div_unique (16 * s) 512 (s / 32) (16 * (s mod 32))) by lia. symmetry. apply (Nat.div_unique _ _ _ (16 * (s mod 32) + 15)); lia.
Qed.

(** A new name. *)
Lemma dirlink_new c g v ic hs L a k ip f name i : sees c g v ∅ → implements v ic hs L a → k ∈ L → locked_file v ic hs a k ip f → is_dir f →
  dlookup (a_data f) name = None → (length (a_data f) + DIRENT ≤ MAXBYTES)%nat → room g0 g 7 → (2 ≤ size (free v))%nat →
  ∃ c' v' bl ip', dirlink sb dr dw c g ic k name i = Ok (0, c', logs g bl, <[k := ip']> ic) ∧ (length bl ≤ 7)%nat ∧ sees c' (logs g bl) v' ∅ ∧
    implements v' (<[k := ip']> ic) hs L (AFs (<[inum ip := set_data (dlink (a_data f) name i) f]> (files a)) (handles a)) ∧
    (size (free v) ≤ size (free v') + 2)%nat ∧ inum ip' = inum ip ∧ (k < length ic)%nat.
Proof using BL HL FL.
  intros Hs Him Hk Hlf Hd Hno Hmax Hr Hfree. assert (room g0 g 0) as Hr0 by (eapply room_le; [|done]; lia). pose proof Hd as [Hty Hmod].
  destruct (dirlookup_find c g v ic hs L a k ip f name Hs Him Hlf Hd Hr0) as (c1 & Hs1 & E1). rewrite Hno in E1.
  destruct (locked_good _ _ _ _ _ _ _ _ Him Hlf) as (_ & Hlen & _ & _).
  destruct (dirlink_loop_spec v ic hs L a k ip f g Him Hlf Hd Hr0 (ndent (a_data f)) 0 c1 (Z.to_nat (isize ip)) Hs1) as (c2 & Hs2 & E2); [done| |].
  { rewrite <- Hlen. unfold ndent. apply Nat.Div0.div_le_upper_bound. unfold DIRENT. lia. }
  fold (dslot (a_data f)) in E2. change (Z.of_nat (DIRENT * 0)) with 0 in E2. destruct (dslot_spec (a_data f) Hmod) as (Hs0 & _). set (s := dslot (a_data f)) in *.
  pose proof (ndent_length _ Hmod) as Hnd. pose proof (length_dirent i name) as Hdl.
  destruct (writei_at_spec 2 c2 g v ic hs L a k ip f (dirent i name) (Z.of_nat (DIRENT * s)) Hs2 Him Hk Hlf) as (c3 & v3 & bl & ip' & E3 & Hbl & Hs3 & Him3 & Hfr & En & Hlt);
    [by rewrite Hty|unfold DIRENT in *; lia|rewrite Hdl; unfold DIRENT in *; lia|rewrite Nat2Z.id, Hdl, nblk_dirent; done|by left|rewrite Nat2Z.id, Hdl, nblk_dirent; lia|].
  rewrite Nat2Z.id, Hdl, nblk_dirent in *. exists c3, v3, bl, ip'. unfold dirlink, deref. rewrite E1, bind_Ok, (lf_entry _ _ _ _ _ _ _ Hlf), bind_Ok, E2, bind_Ok, E3, bind_Ok.
  split_and!; [done|lia|done|exact Him3|lia|done|done].
Qed.

(** The pointer that [iget] adds is the last one. *)
Lemma drop_last a i : drop_handle (length (handles a)) (hold i a) =
  match files a !! i with
  | None => hold i a
  | Some f => AFs (if decide ((i ∉ handles a) ∧ a_nlink f = 0) then delete i (files a) else files a) (handles a)
  end.
Proof.
  unfold drop_handle, the_file, hold. cbn [handles files]. rewrite list_lookup_middle by done. cbn. destruct (files a !! i) as [f|]; [|done]. cbn.
  assert (delete (length (handles a)) (handles a ++ [i]) = handles a) as ->; [|done]. rewrite delete_middle. by rewrite app_nil_r.
Qed.

Lemma delete_last {A} (l : list A) x : delete (length l) (l ++ [x]) = l.
Proof. rewrite delete_middle. by rewrite app_nil_r. Qed.

(** A name that is there. *)
Lemma dirlink_exists c g v ic hs L a k ip f name i j f' : sees c g v ∅ → implements v ic hs L a → k ∈ L → locked_file v ic hs a k ip f → is_dir f →
  dlookup (a_data f) name = Some j → let i' := de_inum (dent (a_data f) j) in files a !! i' = Some f' → a_nlink f' ≠ 0 → has_cache a i' → room g0 g 3 →
  (∀ k' ip', k' ∈ L → ic !! k' = Some ip' → inum ip' ≠ i') →
  ∃ c' ic', dirlink sb dr dw c g ic k name i = Ok (-1, c', g, ic') ∧ sees c' g v ∅ ∧ implements v ic' hs L a.
Proof using BL HL FL.
  intros Hs Him Hk Hlf Hd Hj i' Hf' Hn' Hca Hr HL'. assert (room g0 g 0) as Hr0 by (eapply room_le; [|done]; lia).
  destruct (dirlookup_find c g v ic hs L a k ip f name Hs Him Hlf Hd Hr0) as (c1 & Hs1 & E1). rewrite Hj in E1. fold i' in E1.
  destruct (implements_iget g0 sb v ic hs L a i' Him) as (x & ipx & Ex & Himx & Hkeep & Hlx & Enx); [by eexists|done|]. rewrite Ex, bind_Ok in E1.
  pose proof (im_names _ _ _ _ _ _ _ Him) as Hnm. assert (length hs = length (handles a)) as Elen by (by eapply Forall2_length).
  assert (x ∉ L) as HxL.
  { intros HxL. destruct (co_lock _ _ _ _ _ _ (im_coh _ _ _ _ _ _ _ Him) x HxL) as [Hxh _].
    destruct (co_held _ _ _ _ _ _ (im_coh _ _ _ _ _ _ _ Him) x Hxh) as [ip0 Hip0].
    destruct (Hkeep x ip0 Hip0 Hxh) as (ip2 & Hip2 & En2). rewrite list_lookup_insert_eq in Hip2 by done. injection Hip2 as <-.
    apply (HL' x ip0 HxL Hip0). congruence. }
  destruct (implements_iput g0 HL sb FL c1 g v _ (hs ++ [x]) L (hold i' a) (length hs) x Hs1 Himx) as (c2 & v2 & bl & ic2 & E2 & Hbl & Hs2 & Him2 & Hsame & _ & _);
    [by apply list_lookup_middle|done|done|]. rewrite Elen, drop_last, Hf', decide_False in * by (by intros [_ ?]).
  destruct (Hsame eq_refl) as [-> ->]. rewrite logs_nil in *. rewrite <- Elen, delete_last in Him2. exists c2, ic2.
  unfold dirlink. rewrite E1, bind_Ok, E2, bind_Ok. split_and!; [done|done|]. by destruct a.
Qed.

(** A name for the directory itself: [iput] waits for the lock that the caller holds. *)
Lemma dirlink_self c g v ic hs L a k ip f name i j : sees c g v ∅ → implements v ic hs L a → k ∈ L → locked_file v ic hs a k ip f → is_dir f →
  dlookup (a_data f) name = Some j → de_inum (dent (a_data f) j) = inum ip → room g0 g 0 →
  dirlink sb dr dw c g ic k name i = Fault (inum ip).
Proof using BL HL FL.
  intros Hs Him Hk Hlf Hd Hj Hi Hr. destruct (dirlookup_find c g v ic hs L a k ip f name Hs Him Hlf Hd Hr) as (c1 & Hs1 & E1). rewrite Hj, Hi in E1.
  pose proof (lf_entry _ _ _ _ _ _ _ Hlf) as Hip. pose proof (lf_held _ _ _ _ _ _ _ Hlf) as Hkh.
  destruct (implements_iget g0 sb v ic hs L a (inum ip) Him) as (x & ipx & Ex & Himx & Hkeep & Hlx & Enx).
  { eexists. apply (lf_file _ _ _ _ _ _ _ Hlf). }
  { left. by eapply names_held; [apply (im_coh _ _ _ _ _ _ _ Him)|apply (im_names _ _ _ _ _ _ _ Him)|done|]. }
  rewrite Ex, bind_Ok in E1. pose proof (im_coh _ _ _ _ _ _ _ Himx) as Hcx. destruct (Hkeep k ip Hip Hkh) as (ip2 & Hip2 & En2).
  assert (k = x) as <-.
  { apply (co_uniq _ _ _ _ _ _ Hcx k x ip2 ipx Hip2); [by rewrite list_lookup_insert_eq|apply elem_of_app; by left|apply elem_of_app; right; by apply list_elem_of_singleton|congruence]. }
  assert (<[k := ipx]> ic !! k = Some ipx) as Hipx by (by rewrite list_lookup_insert_eq). destruct (co_ref _ _ _ _ _ _ Hcx k ipx Hipx) as [_ El].
  unfold dirlink. rewrite E1, bind_Ok. unfold iput, deref. rewrite Hipx, bind_Ok, El, bool_decide_eq_true_2 by done. by rewrite Enx.
Qed.

(** ** [namex] *)

(** File [i] has a link. *)
Definition linked (m : gmap Z afile) (i : Z) : Prop := ∃ f, m !! i = Some f ∧ a_nlink f ≠ 0.

(** Directories with a link are well formed and name files with a link. *)
Definition tree_ok (a : afs) : Prop :=
  ∀ i f, files a !! i = Some f → a_type f = T_DIR → a_nlink f ≠ 0 → is_dir f ∧ ∀ n i', dmap (a_data f) !! n = Some i' → linked (files a) i'.

(** One element of a path. *)
Definition walk (m : gmap Z afile) (i : Z) (e : list Z) : option Z :=
  f ← m !! i; if decide (a_type f = T_DIR) then dmap (a_data f) !! cname e else None.
Definition resolve (m : gmap Z afile) (i : Z) (es : list (list Z)) : option Z := foldl (λ o e, i ← o; walk m i e) (Some i) es.

Lemma resolve_cons m i e es : resolve m i (e :: es) = (i' ← walk m i e; resolve m i' es).
Proof. unfold resolve. cbn [foldl]. cbn. destruct (walk m i e); [done|]. cbn. induction es; [done|]. cbn. done. Qed.

Lemma cname_take e : cname (take DIRSIZ e) = cname e.
Proof. unfold cname. generalize DIRSIZ. intros n. revert e. induction n as [|n IH]; intros e; [done|]. destruct e as [|c e]; [done|]. cbn. destruct (c =? 0); [done|]. by rewrite IH. Qed.

(** The state with the pointers [ns] held. *)
Definition with_handles (ns : list Z) (a : afs) : afs := AFs (files a) ns.

(** The pointer [i] of [ns ++ [i]] can be dropped without freeing its file. *)
Definition stays (a : afs) (ns : list Z) (i : Z) : Prop := i ∈ ns ∨ linked (files a) i.

Lemma linked_is m i : linked m i → is_Some (m !! i).
Proof. intros (f & Hf & _). by eexists. Qed.

Lemma drop_stays a ns1 i ns2 : stays a (ns1 ++ ns2) i → is_Some (files a !! i) →
  drop_handle (length ns1) (with_handles (ns1 ++ i :: ns2) a) = with_handles (ns1 ++ ns2) a.
Proof.
  intros Hst [f Hf]. unfold drop_handle, the_file, with_handles. cbn [handles files]. rewrite list_lookup_middle by done. cbn. rewrite Hf. cbn.
  rewrite delete_middle. rewrite decide_False; [done|]. intros [Hni H0]. destruct Hst as [?|(f' & Hf' & Hn)]; [done|]. congruence.
Qed.

(** [iunlockput] of such a pointer. *)
Lemma iunlockput_spec c g v ic hs1 k hs2 a ns1 i ns2 : sees c g v ∅ → implements v ic (hs1 ++ k :: hs2) {[k]} (with_handles (ns1 ++ i :: ns2) a) →
  length hs1 = length ns1 → stays a (ns1 ++ ns2) i → is_Some (files a !! i) → room g0 g 3 →
  ∃ c' ic', iunlockput sb c g ic k = Ok (c', g, ic') ∧ sees c' g v ∅ ∧ implements v ic' (hs1 ++ hs2) ∅ (with_handles (ns1 ++ ns2) a).
Proof using BL HL FL.
  intros Hs Him Hlen Hst Hf Hr. destruct (implements_iunlock g0 sb v ic _ _ _ k Him) as (ip & Hip & E1 & Him1); [by apply elem_of_singleton|].
  rewrite difference_diag_L in Him1.
  destruct (implements_iput g0 HL sb FL c g v _ _ ∅ _ (length hs1) k Hs Him1) as (c2 & v2 & bl & ic2 & E2 & Hbl & Hs2 & Him2 & Hsame & _);
    [by apply list_lookup_middle|apply not_elem_of_empty|done|]. rewrite Hlen, drop_stays in Him2, Hsame by done. destruct (Hsame eq_refl) as [-> ->].
  rewrite logs_nil in *. rewrite <- Hlen, delete_middle in Him2. exists c2, ic2. unfold iunlockput. rewrite E1, bind_Ok, E2. done.
Qed.

Lemma iput_stays c g v ic hs k a ns i : sees c g v ∅ → implements v ic (hs ++ [k]) ∅ (with_handles (ns ++ [i]) a) → length hs = length ns →
  stays a ns i → is_Some (files a !! i) → room g0 g 3 →
  ∃ c' ic', iput sb c g ic k = Ok (c', g, ic') ∧ sees c' g v ∅ ∧ implements v ic' hs ∅ (with_handles ns a).
Proof using BL HL FL.
  intros Hs Him Hlen Hst Hf Hr.
  destruct (implements_iput g0 HL sb FL c g v _ _ ∅ _ (length hs) k Hs Him) as (c2 & v2 & bl & ic2 & E2 & Hbl & Hs2 & Him2 & Hsame & _);
    [by apply list_lookup_middle|apply not_elem_of_empty|done|]. rewrite Hlen, drop_stays in Him2, Hsame by (rewrite ?app_nil_r; done). destruct (Hsame eq_refl) as [-> ->].
  rewrite logs_nil in *. rewrite <- Hlen, delete_last, app_nil_r in Him2. by exists c2, ic2.
Qed.

(** The directory that holds the last element. *)
Definition resolve_parent (m : gmap Z afile) (i : Z) (es : list (list Z)) : option Z :=
  match es with
  | [] => None
  | _ => p ← resolve m i (removelast es); f ← m !! p; if decide (a_type f = T_DIR) then Some p else None
  end.

Definition target (np : bool) (m : gmap Z afile) (i : Z) (es : list (list Z)) : option Z := if np then resolve_parent m i es else resolve m i es.

Lemma target_cons np m i e es : (np = true → es ≠ []) → target np m i (e :: es) = (i' ← walk m i e; target np m i' es).
Proof.
  intros Hes. destruct np; cbn [target]; [|apply resolve_cons]. destruct es as [|e' es]; [by specialize (Hes eq_refl)|].
  unfold resolve_parent. change (removelast (e :: e' :: es)) with (e :: removelast (e' :: es)). rewrite resolve_cons. by destruct (walk m i e).
Qed.

Lemma target_last m i e f : m !! i = Some f → target true m i [e] = if decide (a_type f = T_DIR) then Some i else None.
Proof. intros Hf. cbn. by rewrite Hf. Qed.

Lemma walk_file m i e f : m !! i = Some f → a_type f ≠ T_DIR → walk m i e = None.
Proof. intros Hf Ht. unfold walk. rewrite Hf. cbn. by rewrite decide_False. Qed.

Lemma walk_dir m i e f : m !! i = Some f → a_type f = T_DIR → walk m i e = (λ j, de_inum (dent (a_data f) j)) <$> dlookup (a_data f) (take DIRSIZ e).
Proof.
  intros Hf Ht. rewrite <- dmap_lookup, cname_take. unfold walk. rewrite Hf. cbn. by rewrite decide_True.
Qed.

(** What a path operation leaves: no pointer, or a pointer to [i']. *)
Definition walked (v : disk_map) (ic : icache) (hs : list nat) (ns : list Z) (a : afs) (o : option nat) (r : option Z) : Prop :=
  match r, o with
  | None, None => implements v ic hs ∅ (with_handles ns a)
  | Some i', Some k => implements v ic (hs ++ [k]) ∅ (with_handles (ns ++ [i']) a) ∧ linked (files a) i'
  | _, _ => False
  end.

(** [ilock] of the directory at hand. *)
Lemma lock_last c g v ic hs k a ns i : sees c g v ∅ → implements v ic (hs ++ [k]) ∅ (with_handles (ns ++ [i]) a) → length hs = length ns → room g0 g 0 →
  ∃ c' ic' ip f, ilock_at sb c ic k = Ok (c', ic') ∧ sees c' g v ∅ ∧ implements v ic' (hs ++ [k]) {[k]} (with_handles (ns ++ [i]) a) ∧
    locked_file v ic' (hs ++ [k]) (with_handles (ns ++ [i]) a) k ip f ∧ files a !! i = Some f ∧ itype ip = a_type f ∧ deref ic' k = Ok ip.
Proof using BL HL FL.
  intros Hs Him Hlen Hr.
  destruct (implements_ilock g0 HL sb FL c g v ic _ ∅ _ k Hs Him) as (ip0 & ip1 & c1 & Hip0 & E1 & Hs1 & Him1 & En & Hlt);
    [apply elem_of_app; right; by apply list_elem_of_singleton|apply not_elem_of_empty|done|]. rewrite (right_id_L ∅ (∪)) in Him1.
  destruct (locked_get v _ _ _ _ k Him1) as (ip & f & Hlf); [by apply elem_of_singleton|]. exists c1, (<[k := ip1]> ic), ip, f.
  pose proof (lf_entry _ _ _ _ _ _ _ Hlf) as Hip. assert (inum ip = i) as Ei.
  { destruct (Forall2_lookup_lr _ _ _ (length hs) k i (im_names _ _ _ _ _ _ _ Him1)) as (ipx & Hipx & <-); [by apply list_lookup_middle|cbn [handles with_handles]; by apply list_lookup_middle|congruence]. }
  pose proof (lf_file _ _ _ _ _ _ _ Hlf) as Hf. rewrite Ei in Hf.
  split_and!; [done|done|done|done|done| |by unfold deref; rewrite Hip]. by destruct (locked_good _ _ _ _ _ _ _ _ Him1 Hlf) as (_ & _ & -> & _).
Qed.

Lemma size_held (ns : list Z) i : (size (list_to_set (ns ++ [i]) : gset Z) ≤ size (list_to_set ns : gset Z) + 1)%nat.
Proof.
  rewrite list_to_set_app_L, size_union_alt. apply Nat.add_le_mono_l. rewrite <- (size_singleton (C := gset Z) i). apply subseteq_size.
  intros x. rewrite elem_of_difference, elem_of_list_to_set, list_elem_of_singleton, elem_of_singleton. by intros [-> _].
Qed.

Lemma namex_loop_spec np v hs ns a : tree_ok a → (size (list_to_set ns : gset Z) + 2 ≤ NINODE)%nat → length hs = length ns →
  ∀ fuel path name c g ic k i, no_nul path → (length path ≤ fuel)%nat → sees c g v ∅ → implements v ic (hs ++ [k]) ∅ (with_handles (ns ++ [i]) a) →
  linked (files a) i → room g0 g 3 →
  ∃ o name' c' ic', namex_loop sb dr c g ic k path name np fuel = Ok (o, name', c', g, ic') ∧ sees c' g v ∅ ∧
    walked v ic' hs ns a o (target np (files a) i (elems path)) ∧
    (np = true → is_Some o → name' = take DIRSIZ (default [] (last (elems path)))).
Proof using BL HL FL.
  intros Htree Hcache Hlen. induction fuel as [|fuel IH]; intros path name c g ic k i Hnn Hfuel Hs Him Hli Hr; pose proof (skipelem_spec path Hnn) as Hsk;
    pose proof (or_intror Hli : stays a ns i) as Hst; pose proof (linked_is _ _ Hli) as Hfi;
    cbn [namex_loop]; destruct (skipelem path) as [[nm rest]|].
  - destruct Hsk as (e & _ & _ & _ & _ & _ & Hlt). lia.
  - rewrite Hsk. destruct np.
    + destruct (iput_stays c g v ic hs k a ns i Hs Him Hlen Hst Hfi Hr) as (c1 & ic1 & E1 & Hs1 & Him1). rewrite E1, bind_Ok. exists None, name, c1, ic1. by split_and!.
    + exists (Some k), name, c, ic. by split_and!.
  - destruct Hsk as (e & Ee & -> & He & Hnr & Hrest & Hlt). rewrite Ee. assert (room g0 g 0) as Hr0 by (eapply room_le; [|done]; lia).
    destruct (lock_last c g v ic hs k a ns i Hs Him Hlen Hr0) as (c1 & ic1 & ip & f & E1 & Hs1 & Him1 & Hlf & Hf & Ety & Ed). rewrite E1, bind_Ok, Ed, bind_Ok, Ety.
    destruct (Z.eqb_spec (a_type f) T_DIR) as [Ht|Ht]; cbn [negb].
    2:{ destruct (iunlockput_spec c1 g v ic1 hs k [] a ns i [] Hs1 Him1 Hlen) as (c2 & ic2 & E2 & Hs2 & Him2); [by rewrite app_nil_r|done|done|].
        rewrite E2, bind_Ok, !app_nil_r in *. exists None, (take DIRSIZ e), c2, ic2. split_and!; [done|done| |by intros _ []].
        assert (target np (files a) i (e :: elems rest) = None) as ->; [|done].
        destruct (decide (np = true ∧ elems rest = [])) as [[-> ->]|Hnot].
        - by rewrite (target_last _ _ _ f), decide_False.
        - rewrite target_cons by (intros -> E0; apply Hnot; done). by rewrite (walk_file _ _ _ f). }
    destruct (np && (chr rest =? 0)) eqn:Enp.
    { apply andb_prop in Enp as [-> E0%Z.eqb_eq]. apply Hrest in E0 as E0'. rewrite E0'.
      destruct (implements_iunlock g0 sb v ic1 _ _ _ k Him1) as (ip2 & Hip2 & E2 & Him2); [by apply elem_of_singleton|]. rewrite difference_diag_L in Him2.
      rewrite E2, bind_Ok. eexists (Some k), (take DIRSIZ e), c1, _. split_and!; [done|done| |done]. rewrite (target_last _ _ _ f), decide_True by done. by split_and!. }
    assert (np = true → elems rest ≠ []) as Hne by (intros -> E0; apply Hrest in E0; by rewrite E0 in Enp).
    rewrite target_cons by done. rewrite (walk_dir _ _ _ f Hf Ht). destruct Hli as (f0 & Hf0 & Hn0). assert (a_nlink f ≠ 0) as Hnf by congruence. destruct (Htree i f Hf Ht Hnf) as [Hdir Hents].
    destruct (dirlookup_find c1 g v ic1 _ _ _ k ip f (take DIRSIZ e) Hs1 Him1 Hlf Hdir Hr0) as (c2 & Hs2 & E2).
    pose proof (dmap_lookup (a_data f) (take DIRSIZ e)) as Edm. destruct (dlookup (a_data f) (take DIRSIZ e)) as [j|].
    + cbn [fmap option_fmap option_map] in Edm |- *. set (i' := de_inum (dent (a_data f) j)) in *. pose proof (Hents _ _ Edm) as Hl'.
      destruct (implements_iget g0 sb v ic1 _ _ _ i' Him1) as (x & ipx & Ex & Himx & _); [by apply linked_is|right|].
      { unfold cached. cbn [handles with_handles]. pose proof (size_held ns i). lia. }
      rewrite Ex, bind_Ok in E2. rewrite E2, bind_Ok. rewrite <- app_assoc in Himx. unfold hold in Himx. cbn [files handles with_handles app] in Himx. rewrite <- app_assoc in Himx.
      destruct (iunlockput_spec c2 g v _ hs k [x] a ns i [i'] Hs2 Himx Hlen) as (c3 & ic3 & E3 & Hs3 & Him3); [right; by exists f|by eexists|done|]. rewrite E3, bind_Ok.
      destruct (IH rest (take DIRSIZ e) c3 g ic3 x i' Hnr ltac:(lia) Hs3 Him3) as (o & nm' & c4 & ic4 & E4 & Hs4 & Hw & Hnm); [done|done|].
      exists o, nm', c4, ic4. split_and!; [done|done|exact Hw|]. intros Hnp Ho. rewrite (Hnm Hnp Ho). destruct (elems rest) eqn:Er; [by specialize (Hne Hnp)|done].
    + destruct (iunlockput_spec c2 g v ic1 hs k [] a ns i [] Hs2 Him1 Hlen) as (c3 & ic3 & E3 & Hs3 & Him3); [by rewrite app_nil_r|done|done|].
      rewrite E2, bind_Ok, E3, bind_Ok, !app_nil_r in *. exists None, (take DIRSIZ e), c3, ic3. split_and!; [done|done|done|by intros _ []].
  - rewrite Hsk. destruct np.
    + destruct (iput_stays c g v ic hs k a ns i Hs Him Hlen Hst Hfi Hr) as (c1 & ic1 & E1 & Hs1 & Him1). rewrite E1, bind_Ok. exists None, name, c1, ic1. by split_and!.
    + exists (Some k), name, c, ic. by split_and!.
Qed.
Lemma namex_spec c g v ic hs a h cwd ci path np : sees c g v ∅ → implements v ic hs ∅ a → tree_ok a → hs !! h = Some cwd → handles a !! h = Some ci → no_nul path →
  let start := if chr path =? SLASH then ROOTINO else ci in
  linked (files a) start → (cached a + 2 ≤ NINODE)%nat → room g0 g 3 →
  ∃ o name c' ic', namex sb dr c g ic cwd path [] np = Ok (o, name, c', g, ic') ∧ sees c' g v ∅ ∧
    walked v ic' hs (handles a) a o (target np (files a) start (elems path)) ∧
    (np = true → is_Some o → name = take DIRSIZ (default [] (last (elems path)))).
Proof using BL HL FL.
  intros Hs Him Htree Hh Hi Hnn start Hli Hca Hr. pose proof (im_names _ _ _ _ _ _ _ Him) as Hn.
  assert (length hs = length (handles a)) as Hlen by (by eapply Forall2_length). assert (a = with_handles (handles a) a) as Ea by (by destruct a).
  assert (∀ i, hold i a = with_handles (handles a ++ [i]) a) as Eh by done. unfold namex. subst start. destruct (chr path =? SLASH).
  - destruct (implements_iget g0 sb v ic hs ∅ a ROOTINO Him) as (k & ip & Ek & Himk & _); [by apply linked_is|right; unfold cached in *; lia|].
    rewrite <- (lo_dev _ HL), Ek, bind_Ok. rewrite Eh in Himk.
    apply (namex_loop_spec np v hs (handles a) a Htree Hca Hlen (length path)); [done|lia|done|done|done|done].
  - destruct (implements_idup g0 sb v ic hs ∅ a h cwd ci Him Hh Hi) as (ip & Ek & Himk). rewrite Ek, !bind_Ok. rewrite Eh in Himk.
    apply (namex_loop_spec np v hs (handles a) a Htree Hca Hlen (length path)); [done|lia|done|done|done|done].
Qed.
End dirops.
