(* ===== verification/DirDemo.v ===== *)
(** A disk with a root directory and one empty file in it, on which the theorems of DirThm.v and of the system calls are tried. *)

From Stdlib Require Import ZArith Lia.
From stdpp Require Import base numbers list gmap fin_sets sets strings.
From S2P Require Import Prelude CStr Bio Log LogCrash Fs FsSpec FsTrunc File FileThm FsCk Icache IcacheSpec IcacheOps IcacheThm Dir DirSpec DirOps.
#[local] Open Scope Z_scope.

(** Names are lists of bytes: "." is 46, "f" is 102. *)
Definition y_ent (i : Z) (name : list Z) : list Z := le_bytes 2 i ++ name ++ replicate (14 - length name) 0.
Definition y_data : list Z := y_ent 1 [46] ++ y_ent 1 [46; 46] ++ y_ent 2 [102].
Definition y_root : inode := Inode ROOTDEV 1 0 false true T_DIR 0 0 1 48 (34 :: replicate 12 0).
Definition y_file : inode := Inode ROOTDEV 2 0 false true T_FILE 0 0 1 0 (replicate 13 0).
Definition y_fs : disk_map :=
  <[(ROOTDEV, 34) := y_data ++ replicate 464 0]> (<[(ROOTDEV, 32) := replicate 64 0 ++ dinode_bytes y_root ++ dinode_bytes y_file ++ replicate 320 0]> w_fs).
Definition y_files : gmap Z afile := {[1 := AFile T_DIR 0 0 1 y_data; 2 := AFile T_FILE 0 0 1 []]}.

Lemma y_inode1 : din w_log w_sb y_fs 1 = y_root.
Proof. vm_compute. reflexivity. Qed.
Lemma y_inode2 : din w_log w_sb y_fs 2 = y_file.
Proof. vm_compute. reflexivity. Qed.

Lemma y_live i : live w_log w_sb y_fs i ↔ i = 1 ∨ i = 2.
Proof.
  split; [|intros [-> | ->]; (split; [by vm_compute|rewrite ?y_inode1, ?y_inode2; by vm_compute])]. intros [Hi Ht]. cbn in Hi.
  assert (i = 1 ∨ i = 2 ∨ i = 3 ∨ i = 4 ∨ i = 5 ∨ i = 6 ∨ i = 7) as Hc by lia.
  destruct Hc as [-> |[-> |[-> |[-> |[-> |[-> | ->]]]]]]; [by left|by right|exfalso; apply Ht; vm_compute; reflexivity..].
Qed.

Lemma y_used b : 0 <= b < 100 → used w_log w_sb y_fs b ↔ b < 35.
Proof. exact (x_used b). Qed.

Lemma y_slots s : saddr w_log y_fs y_root s ≠ 0 → s = 0%nat.
Proof. unfold saddr. case_decide as H13; [|by rewrite decide_True]. do 13 (destruct s as [|s]; [done|]). lia. Qed.

Lemma y_slots2 s : saddr w_log y_fs y_file s = 0.
Proof. unfold saddr. case_decide as H13; [|by rewrite decide_True]. do 13 (destruct s as [|s]; [done|]). lia. Qed.

Lemma y_meta_ge b : 34 <= b < 100 → ¬ meta w_log w_sb b.
Proof.
  intros Hb [Hm|[Hm|[Hm|(i & Hi & Hm)]]]; [|cbn in Hm; lia|cbn in Hm; lia|].
  - apply Hm. split; [unfold FSSIZE; lia|]. unfold in_log. cbn. lia.
  - cbn in Hi. unfold IBLOCK, IPB in Hm. cbn in Hm. rewrite Z.div_small in Hm; lia.
Qed.

Lemma y_good_root : good_file w_log w_sb y_fs y_root.
Proof.
  split; [split|split|].
  - done.
  - cbn. lia.
  - done.
  - intros s Hs Hn. apply y_slots in Hn as ->. change (saddr w_log y_fs y_root 0) with 34. split_and!; [done|done|apply y_used; lia| |by vm_compute]. by apply y_meta_ge.
  - intros s s' _ _ Hn E. pose proof (y_slots s Hn) as ->. symmetry. apply y_slots. by rewrite <- E.
  - change (isize y_root) with 48. unfold MAXBYTES, BSIZE. lia.
  - intros x Hx. change (Z.to_nat (isize y_root)) with 48%nat in Hx. unfold faddr. rewrite Nat.div_small by (unfold BSIZE; lia). by vm_compute.
  - by split_and!; vm_compute.
Qed.

Lemma y_good_file : good_file w_log w_sb y_fs y_file.
Proof.
  split; [split|split|].
  - done.
  - cbn. lia.
  - done.
  - intros s _ Hn. by rewrite y_slots2 in Hn.
  - intros s s' _ _ Hn. by rewrite y_slots2 in Hn.
  - change (isize y_file) with 0. unfold MAXBYTES, BSIZE. lia.
  - intros x Hx. change (Z.to_nat (isize y_file)) with 0%nat in Hx. lia.
  - by split_and!; vm_compute.
Qed.

Lemma y_blocks i b : b ∈ blocks_of w_log w_sb y_fs i → i = 1.
Proof.
  intros [Hl Hb]%blocks_live. apply y_live in Hl as [-> | ->]; [done|]. rewrite y_inode2 in Hb. apply elem_of_file_blocks in Hb as [Hb (s & _ & <-)].
  by rewrite y_slots2 in Hb.
Qed.

Lemma y_fsck : fsck w_log w_sb y_fs.
Proof.
  split.
  - split; [by vm_compute|]. intros b Hb Hm. apply y_used; [done|]. destruct (decide (b < 35)) as [?|Hge]; [done|]. exfalso. apply (y_meta_ge b); [cbn in Hb; lia|done].
  - intros i Hi. cbn in Hi. assert (IBLOCK w_sb i = 32) as -> by (unfold IBLOCK, IPB; cbn; rewrite Z.div_small; lia). by vm_compute.
  - intros i [-> | ->]%y_live; [rewrite y_inode1; apply y_good_root|rewrite y_inode2; apply y_good_file].
  - intros i j Hne b Hb1%y_blocks Hb2%y_blocks. congruence.
  - intros b Hb Hu%y_used Hm; [|done]. assert (b = 34) as ->.
    { destruct (decide (b < 34)) as [?|?]; [|lia]. exfalso. apply Hm, x_meta. lia. }
    exists 1. unfold blocks_of. rewrite decide_True by (apply y_live; by left). rewrite y_inode1. apply elem_of_file_blocks. split; [done|]. exists 0%nat. split; [unfold NSLOT; lia|done].
Qed.

(** The cache with a pointer to the root in entry 0, locked or not. *)
Definition y_entry (locked : bool) : inode := Inode ROOTDEV 1 1 locked true T_DIR 0 0 1 48 (34 :: replicate 12 0).
Definition y_cache (locked : bool) : icache := y_entry locked :: replicate 49 (Inode 0 0 0 false false 0 0 0 0 0 []).
Definition y_locks (locked : bool) : gset nat := if locked then {[0%nat]} else ∅.
Definition y_abs : afs := AFs y_files [1].

Lemma y_cache_entry b k ip : y_cache b !! k = Some ip → k = 0%nat ∧ ip = y_entry b ∨ k ≠ 0%nat ∧ ip = Inode 0 0 0 false false 0 0 0 0 0 [].
Proof. destruct k as [|k]; [intros [= <-]; by left|]. intros [-> _]%(lookup_replicate (A := inode)). by right. Qed.

Lemma y_implements b : implements w_log w_sb y_fs (y_cache b) [0%nat] (y_locks b) y_abs.
Proof.
  split.
  - apply y_fsck.
  - intros i. cbn [files y_abs]. unfold y_files. destruct (decide (live w_log w_sb y_fs i)) as [[-> | ->]%y_live|Hn].
    + rewrite y_inode1. vm_compute. reflexivity.
    + rewrite y_inode2. vm_compute. reflexivity.
    + rewrite y_live in Hn. rewrite lookup_insert_ne, lookup_singleton_ne; [done|naive_solver..].
  - split.
    + done.
    + intros k ip [[-> ->]|[Hk ->]]%y_cache_entry.
      * split; [done|]. by destruct b.
      * split; [destruct k; done|]. symmetry. apply bool_decide_eq_false. unfold y_locks. destruct b; [|apply not_elem_of_empty]. by rewrite elem_of_singleton.
    + intros k ->%list_elem_of_singleton. by eexists.
    + intros k ip Hip ->%list_elem_of_singleton. injection Hip as <-. split; [done|apply y_live; by left|]. intros _. change (inum (y_entry b)) with 1. by rewrite y_inode1.
    + by intros k k' ip ip' _ _ ->%list_elem_of_singleton ->%list_elem_of_singleton.
    + unfold y_locks. intros k Hk. destruct b; [|by apply elem_of_empty in Hk]. apply elem_of_singleton in Hk as ->. split; [by apply list_elem_of_singleton|]. by intros ip [= <-].
  - repeat constructor. by exists (y_entry b).
  - intros i [-> | ->]%y_live; [by rewrite y_inode1|by rewrite y_inode2].
Qed.

(** Inside a transaction on that disk. *)
Lemma y_sees : sees (cview := binv) w_log (binit y_fs) (set_outstanding 1 w_log) y_fs ∅.
Proof. assert (idle w_log) as Hid by (by split_and!). exact (proj2 (begin_sees w_log Hid (binit y_fs) y_fs (ex_intro _ y_fs (binit_inv y_fs)))). Qed.

Lemma y_room n : (n ≤ 25)%nat → room w_log (set_outstanding 1 w_log) n.
Proof. intros Hn. split_and!; [cbn; lia|change (lsize w_log) with 30; cbn; lia|by right]. Qed.

Definition y_dir : afile := AFile T_DIR 0 0 1 y_data.

Lemma y_is_dir : is_dir y_dir.
Proof. by split. Qed.

Lemma y_locked : locked_file w_log w_sb y_fs (y_cache true) [0%nat] y_abs 0 (y_entry true) y_dir.
Proof.
  split; [done|by apply list_elem_of_singleton|done|done|apply y_live; by left|change (inum (y_entry true)) with 1; by rewrite y_inode1|..]; vm_compute; reflexivity.
Qed.

Lemma y_tree : tree_ok y_abs.
Proof.
  intros i f Hf Ht _. cbn [files y_abs] in Hf. unfold y_files in Hf. apply lookup_insert_Some in Hf as [[<- <-]|[_ [<- <-]%lookup_singleton_Some]]; [|done].
  split; [apply y_is_dir|]. intros n i' Hn. assert (dmap (a_data y_dir) = {[ [46] := 1; [46; 46] := 1; [102] := 2 ]}) as Em by (vm_compute; reflexivity).
  change (dmap (a_data y_dir) !! n = Some i') in Hn. rewrite Em in Hn.
  apply lookup_insert_Some in Hn as [[_ <-]|[_ Hn]]; [by exists y_dir|]. apply lookup_insert_Some in Hn as [[_ <-]|[_ [_ <-]%lookup_singleton_Some]]; [by exists y_dir|exists (AFile T_FILE 0 0 1 []); split; [vm_compute; reflexivity|done]].
Qed.

Lemma y_root_file : linked (files y_abs) ROOTINO.
Proof. exists y_dir. split; [vm_compute; reflexivity|done]. Qed.

Lemma y_cached : (cached y_abs + 2 ≤ NINODE)%nat.
Proof. apply Nat.leb_le. vm_compute. reflexivity. Qed.
