(* ===== verification/DirThm.v ===== *)
(** Directories and paths (src/p4/fs.c): the theorems, and a small tree to try them on. *)

From Stdlib Require Import ZArith Lia.
From stdpp Require Import base numbers list gmap fin_sets sets strings.
From S2P Require Import Prelude CStr Bio Log LogCrash Fs FsSpec FsTrunc File FileThm FsCk Icache IcacheSpec IcacheOps IcacheThm Dir DirSpec DirOps DirDemo.
#[local] Open Scope Z_scope.

(** C28. Paths are resolved in the tree of directories.  Inside a transaction on a consistent file system whose directories, those with a link, name files with
    links, and from a start that has a link, [namex] ends and does what its comment says: an absolute path starts at the root and a relative one at the current directory, each
    element, cut to [DIRSIZ] bytes, is looked up in the directory reached so far, and the result is a pointer to the file found, or with
    [nameiparent] to the directory of the last element, which is copied into [name].  If an element is missing or not a
    directory, the result is 0.  All references taken on the way are given back, no lock is left, and nothing on disk changes. *)
Theorem namex_resolves g sb dr c g1 v ic hs a h cwd ci path np : layout g → fs_layout g sb → sees (cview := binv) g c g1 v ∅ → implements g sb v ic hs ∅ a → tree_ok a → hs !! h = Some cwd → handles a !! h = Some ci → no_nul path →
  let start := if chr path =? SLASH then ROOTINO else ci in
  linked (files a) start → (cached a + 2 ≤ NINODE)%nat → room g g1 3 →
  ∃ o name c' ic', namex sb dr c g1 ic cwd path [] np = Ok (o, name, c', g1, ic') ∧ sees (cview := binv) g c' g1 v ∅ ∧
    walked g sb v ic' hs (handles a) a o (target np (files a) start (elems path)) ∧
    (np = true → is_Some o → name = take DIRSIZ (default [] (last (elems path)))).
Proof. intros HL FL. by apply (namex_spec g HL sb FL dr). Qed.

(** C29. A directory is a map from names to inode numbers.  For a locked directory on a consistent file system, [dirlookup] returns a new pointer to the
    inode that the map has for the name, or 0; [dirlink] of a name that the map does not have extends the map by it, in the first empty
    entry or at the end, and changes no other file; [dirlink] of a name that it has returns -1 and changes nothing,
    provided the inode is not one that the caller has locked. *)
Theorem directory_is_map g sb dr dw c g1 v ic hs L a k ip f name : layout g → fs_layout g sb → sees (cview := binv) g c g1 v ∅ → implements g sb v ic hs L a → k ∈ L →
  locked_file g sb v ic hs a k ip f → is_dir f → room g g1 7 →
  match dmap (a_data f) !! cname name with
  | None =>
      (∃ c', dirlookup sb dr c g1 ic k name = Ok (None, c', g1, ic) ∧ sees (cview := binv) g c' g1 v ∅) ∧
      ∀ i, is_ushort i → i ≠ 0 → (length (a_data f) + DIRENT ≤ MAXBYTES)%nat → (2 ≤ size (free_blocks g sb v))%nat →
        ∃ c' v' bl ic' l, dirlink sb dr dw c g1 ic k name i = Ok (0, c', logs g1 bl, ic') ∧ sees (cview := binv) g c' (logs g1 bl) v' ∅ ∧
          implements g sb v' ic' hs L (AFs (<[inum ip := set_data l f]> (files a)) (handles a)) ∧ dmap l = <[cname name := i]> (dmap (a_data f)) ∧ is_dir (set_data l f)
  | Some i' => ∀ f', files a !! i' = Some f' → a_nlink f' ≠ 0 → has_cache a i' →
      (∃ x off c' ic', dirlookup sb dr c g1 ic k name = Ok (Some (x, off), c', g1, ic') ∧ sees (cview := binv) g c' g1 v ∅ ∧ implements g sb v ic' (hs ++ [x]) L (hold i' a)) ∧
      ∀ i, (∀ k' ip', k' ∈ L → ic !! k' = Some ip' → inum ip' ≠ i') →
        ∃ c' ic', dirlink sb dr dw c g1 ic k name i = Ok (-1, c', g1, ic') ∧ sees (cview := binv) g c' g1 v ∅ ∧ implements g sb v ic' hs L a
  end.
Proof.
  intros HL FL Hs Him Hk Hlf Hd Hr. assert (room g g1 0 ∧ room g g1 3) as [Hr0 Hr3] by (split; eapply room_le; [|done| |done]; lia).
  destruct (dirlookup_find g HL sb FL dr c g1 v ic hs L a k ip f name Hs Him Hlf Hd Hr0) as (c1 & Hs1 & E1).
  rewrite dmap_lookup. destruct (dlookup (a_data f) name) as [j|] eqn:Ej; cbn [fmap option_fmap option_map].
  - intros f' Hf' Hn' Hca. split.
    + destruct (implements_iget g sb v ic hs L a _ Him ltac:(by eexists) Hca) as (x & ipx & Ex & Himx & _). rewrite Ex, bind_Ok in E1. by eexists x, _, c1, _.
    + intros i HL'. by eapply (dirlink_exists g HL sb FL dr dw c g1 v ic hs L a k ip f name i j f').
  - split; [by exists c1|]. intros i Hi Hi0 Hmax Hfree.
    destruct (dirlink_new g HL sb FL dr dw c g1 v ic hs L a k ip f name i Hs Him Hk Hlf Hd Ej Hmax Hr Hfree) as (c2 & v2 & bl & ip' & E2 & _ & Hs2 & Him2 & _).
    destruct (dmap_dlink (a_data f) name i (dr_size _ Hd) Hi Hi0 Ej) as (Em & Hm & _). exists c2, v2, bl, (<[k := ip']> ic), (dlink (a_data f) name i).
    split_and!; [done|done|done|done|]. split; [apply (dr_type _ Hd)|exact Hm].
Qed.

(** [dirlink] of a name that stands for the directory itself never returns.  The name, "." for example, is found, and [iput] of the pointer waits for the lock of
    the directory, which its caller holds: the process sleeps for ever inside its transaction.  ([link("f", "d/.")] gets there: [sys_link] locks the parent "d"
    and calls [dirlink] with the name ".".) *)
Theorem dirlink_self_deadlock g sb dr dw c g1 v ic hs L a k ip f name i : layout g → fs_layout g sb → sees (cview := binv) g c g1 v ∅ → implements g sb v ic hs L a → k ∈ L →
  locked_file g sb v ic hs a k ip f → is_dir f → dmap (a_data f) !! cname name = Some (inum ip) → room g g1 0 →
  dirlink sb dr dw c g1 ic k name i = Fault (inum ip).
Proof.
  intros HL FL Hs Him Hk Hlf Hd Hm Hr. rewrite dmap_lookup in Hm. destruct (dlookup (a_data f) name) as [j|] eqn:Ej; [|done]. injection Hm as Hi.
  by eapply dirlink_self.
Qed.

(** * The theorems on a small disk *)

(** C28 at the path "/./f". *)
Lemma namex_resolves_witness : ∃ k name c' ic',
  namex w_sb (λ _, None) (binit y_fs) (set_outstanding 1 w_log) (y_cache false) 0 [47; 46; 47; 102] [] false =
    Ok (Some k, name, c', set_outstanding 1 w_log, ic') ∧
  implements w_log w_sb y_fs ic' [0%nat; k] ∅ (AFs y_files [1; 2]).
Proof.
  pose proof (namex_resolves w_log w_sb (λ _, None) (binit y_fs) (set_outstanding 1 w_log) y_fs (y_cache false) [0%nat] y_abs 0 0 1 [47; 46; 47; 102] false
    w_log_layout w_fs_layout y_sees (y_implements false) y_tree eq_refl eq_refl ltac:(repeat constructor; done) y_root_file y_cached (y_room 3 ltac:(lia))) as (o & name & c' & ic' & E & _ & Hw & _).
  assert (target false (files y_abs) (if chr [47; 46; 47; 102] =? SLASH then ROOTINO else 1) (elems [47; 46; 47; 102]) = Some 2) as Et by (vm_compute; reflexivity).
  rewrite Et in Hw. destruct o as [k|]; [|by destruct Hw]. destruct Hw as (Him & _). exists k, name, c', ic'. split; [exact E|exact Him].
Defined.

(** C29 for the name "g", linked to inode 2. *)
Lemma directory_is_map_witness : ∃ c' v' bl ic' l,
  dirlink w_sb (λ _, None) (λ _, None) (binit y_fs) (set_outstanding 1 w_log) (y_cache true) 0 [103] 2 = Ok (0, c', logs (set_outstanding 1 w_log) bl, ic') ∧
  implements w_log w_sb v' ic' [0%nat] {[0%nat]} (AFs (<[1 := set_data l y_dir]> y_files) [1]) ∧ dmap l = {[ [46] := 1; [46; 46] := 1; [102] := 2; [103] := 2 ]}.
Proof.
  pose proof (directory_is_map w_log w_sb (λ _, None) (λ _, None) (binit y_fs) (set_outstanding 1 w_log) y_fs (y_cache true) [0%nat] {[0%nat]} y_abs 0 (y_entry true) y_dir [103]
    w_log_layout w_fs_layout y_sees (y_implements true) ltac:(by apply elem_of_singleton) y_locked y_is_dir (y_room 7 ltac:(lia))) as HT.
  assert (dmap (a_data y_dir) !! cname [103] = None) as E by (vm_compute; reflexivity). rewrite E in HT.
  destruct HT as [_ HT]. assert (size (free_blocks w_log w_sb y_fs) = 65%nat) as Ef by (vm_compute; reflexivity).
  destruct (HT 2 ltac:(split; done) ltac:(done)) as (c' & v' & bl & ic' & l & E1 & _ & Him & Ed & _).
  - change (length (a_data y_dir)) with 48%nat. unfold DIRENT, DIRSIZ, MAXBYTES, BSIZE. lia.
  - rewrite Ef. lia.
  - exists c', v', bl, ic', l. split; [exact E1|]. split; [exact Him|]. rewrite Ed. vm_compute. reflexivity.
Defined.

(** That theorem for the name "." of the root. *)
Lemma dirlink_self_deadlock_witness :
  dirlink w_sb (λ _, None) (λ _, None) (binit y_fs) (set_outstanding 1 w_log) (y_cache true) 0 [46] 2 = Fault 1.
Proof.
  apply (dirlink_self_deadlock w_log w_sb (λ _, None) (λ _, None) (binit y_fs) (set_outstanding 1 w_log) y_fs (y_cache true) [0%nat] {[0%nat]} y_abs 0 (y_entry true) y_dir [46] 2
    w_log_layout w_fs_layout y_sees (y_implements true) ltac:(by apply elem_of_singleton) y_locked y_is_dir); [vm_compute; reflexivity|apply y_room; lia].
Defined.
