(* ===== verification/Ftable.v ===== *)
(** The table of open files (src/p4/file.c) and the allocation of pipes (src/p4/pipe.c).

    [ftable.file] is a list of [NFILE] structures and a pointer to one is its index.  An inode pointer is an index into the inode cache, a pipe
    pointer the address of its page.  [fileread] and [filewrite] of File.v are applied to the structure with its pipe or
    inode fetched from there.  [ftable.lock] is taken and released inside each operation and is not part of the state. *)

From Stdlib Require Import ZArith Lia.
From stdpp Require Import base numbers list gmap fin_sets sets strings.
From S2P Require Import Prelude MemIface Bio Log Fs Pipe File Icache.
#[local] Open Scope Z_scope.

Definition NFILE : nat := 100.

Inductive ftype := FNone | FPipe (p : Z) | FInode (ip : nat).

Record tfile := TFile { t_type : ftype; t_ref : Z; t_readable : bool; t_writable : bool; t_off : Z }.
Abbreviation ftable := (list tfile).

Definition set_tref (n : Z) (f : tfile) : tfile := TFile (t_type f) n (t_readable f) (t_writable f) (t_off f).
Definition set_toff (o : Z) (f : tfile) : tfile := TFile (t_type f) (t_ref f) (t_readable f) (t_writable f) o.

(** [*f]. *)
Definition fderef (ft : ftable) (f : nat) : outcome tfile := match ft !! f with Some x => Ok x | None => Fault (Z.of_nat f) end.

(** The loop of [filealloc] from entry [k] on. *)
Fixpoint filealloc_scan (l : list tfile) (k : nat) : option nat :=
  match l with [] => None | f :: l' => if t_ref f =? 0 then Some k else filealloc_scan l' (S k) end.

Definition filealloc (ft : ftable) : option nat * ftable :=
  match filealloc_scan ft 0 with
  | Some k => (Some k, alter (set_tref 1) k ft)
  | None => (None, ft)
  end.

Definition filedup (ft : ftable) (k : nat) : outcome ftable :=
  f ← fderef ft k;
  if t_ref f <? 1 then Panic "filedup" else Ok (<[k := set_tref (t_ref f + 1) f]> ft).

(** What the calls on files share: the buffer cache, the log, the inode cache, the table, the pipes and the memory. *)
Record fsys (C M : Type) := FSys { fs_c : C; fs_g : log; fs_ic : icache; fs_ft : ftable; fs_pipes : gmap Z pipe; fs_mem : M }.
Arguments FSys {C M}.
Arguments fs_c {C M}.
Arguments fs_g {C M}.
Arguments fs_ic {C M}.
Arguments fs_ft {C M}.
Arguments fs_pipes {C M}.
Arguments fs_mem {C M}.

Section ftable.
Context {C M : Type} `{BufOps C} `{MemOps M} (sb : superblock).
Context (devsw_read : Z → option (C → log → inode → Z → outcome (Z * list Z * inode * C * log))).
Context (devsw_write : Z → option (C → log → inode → list Z → outcome (Z * inode * C * log))).
Abbreviation fsys := (fsys C M).

Definition set_disk (c : C) (g : log) (ic : icache) (s : fsys) : fsys := FSys c g ic (fs_ft s) (fs_pipes s) (fs_mem s).
Definition set_ft (ft : ftable) (s : fsys) : fsys := FSys (fs_c s) (fs_g s) (fs_ic s) ft (fs_pipes s) (fs_mem s).
Definition set_pipes (ps : gmap Z pipe) (mm : M) (s : fsys) : fsys := FSys (fs_c s) (fs_g s) (fs_ic s) (fs_ft s) ps mm.

(** [pipeclose] of the pipe at [p]. *)
Definition pipeclose_at (s : fsys) (p : Z) (writable : bool) : outcome fsys :=
  match fs_pipes s !! p with
  | None => Fault p
  | Some pi =>
      let '(pi', done) := pipeclose pi writable in
      if done then mm ← mkfree (fs_mem s) p; Ok (set_pipes (delete p (fs_pipes s)) mm s)
      else Ok (set_pipes (<[p := pi']> (fs_pipes s)) (fs_mem s) s)
  end.

(** [begin_op(); iput(ip); end_op();] *)
Definition iput_op (s : fsys) (k : nat) : outcome fsys :=
  match begin_op (fs_g s) with
  | None => Fault 0
  | Some g =>
      '(c, g, ic) ← iput sb (fs_c s) g (fs_ic s) k;
      '(c, g) ← end_op c g;
      Ok (set_disk c g ic s)
  end.

Definition fileclose (s : fsys) (k : nat) : outcome fsys :=
  f ← fderef (fs_ft s) k;
  if t_ref f <? 1 then Panic "fileclose"
  else
    let r := t_ref f - 1 in
    if 0 <? r then Ok (set_ft (<[k := set_tref r f]> (fs_ft s)) s)
    else
      let s := set_ft (<[k := TFile FNone 0 (t_readable f) (t_writable f) (t_off f)]> (fs_ft s)) s in
      match t_type f with
      | FPipe p => pipeclose_at s p (t_writable f)
      | FInode ip => iput_op s ip
      | FNone => Ok s
      end.

Definition filestat (s : fsys) (k : nat) : outcome (option stat * fsys) :=
  f ← fderef (fs_ft s) k;
  match t_type f with
  | FInode ip =>
      '(c, ic) ← ilock_at sb (fs_c s) (fs_ic s) ip;
      x ← deref ic ip;
      let st := stati x in
      ic ← iunlock_at ic ip;
      Ok (Some st, set_disk c (fs_g s) ic s)
  | _ => Ok (None, s)
  end.

(** A structure with the pipe or inode it points to, and back. *)
Definition load_file (s : fsys) (f : tfile) : outcome file :=
  match t_type f with
  | FNone => Ok (File FD_NONE (t_readable f) (t_writable f) (t_off f))
  | FPipe p => match fs_pipes s !! p with None => Fault p | Some pi => Ok (File (FD_PIPE pi) (t_readable f) (t_writable f) (t_off f)) end
  | FInode ip => x ← deref (fs_ic s) ip; Ok (File (FD_INODE x) (t_readable f) (t_writable f) (t_off f))
  end.

Definition store_file (c : C) (g : log) (s : fsys) (k : nat) (f : tfile) (x : file) : fsys :=
  FSys c g
    (match t_type f, f_type x with FInode ip, FD_INODE y => <[ip := y]> (fs_ic s) | _, _ => fs_ic s end)
    (<[k := set_toff (f_off x) f]> (fs_ft s))
    (match t_type f, f_type x with FPipe p, FD_PIPE y => <[p := y]> (fs_pipes s) | _, _ => fs_pipes s end)
    (fs_mem s).

Definition fileread_at (s : fsys) (k : nat) (n : Z) (killed : bool) : outcome (Z * list Z * fsys) :=
  f ← fderef (fs_ft s) k;
  x ← load_file s f;
  '(r, l, x, c, g) ← fileread sb devsw_read (fs_c s) (fs_g s) x n killed;
  Ok (r, l, store_file c g s k f x).

Definition filewrite_at (s : fsys) (k : nat) (src : list Z) (killed : bool) : outcome (Z * fsys) :=
  f ← fderef (fs_ft s) k;
  x ← load_file s f;
  '(r, x, c, g) ← filewrite sb devsw_write (fs_c s) (fs_g s) x src killed;
  Ok (r, store_file c g s k f x).

(** The read end and the write end of a new pipe; [d] is what the page holds. *)
Definition pipealloc (s : fsys) (d : list Z) : outcome (option (nat * nat) * fsys) :=
  let '(o0, ft) := filealloc (fs_ft s) in
  let s := set_ft ft s in
  match o0 with
  | None => Ok (None, s)
  | Some f0 =>
      let '(o1, ft) := filealloc (fs_ft s) in
      let s := set_ft ft s in
      match o1 with
      | None => s ← fileclose s f0; Ok (None, s)
      | Some f1 =>
          '(p, mm) ← mkalloc (fs_mem s);
          let s := set_pipes (fs_pipes s) mm s in
          if p =? 0 then s ← fileclose s f0; s ← fileclose s f1; Ok (None, s)
          else
            let ends w f := TFile (FPipe p) (t_ref f) (negb w) w (t_off f) in
            let ft := alter (ends true) f1 (alter (ends false) f0 (fs_ft s)) in
            Ok (Some (f0, f1), set_ft ft (set_pipes (<[p := pipe_new d]> (fs_pipes s)) (fs_mem s) s))
      end
  end.
End ftable.
