(* ===== verification/Sysfile.v ===== *)
(** The file-system calls (src/p4/sysfile.c).

    The arguments are what [argint] and [argstr] return, [None] for an error; memory of the process is passed as the bytes read and written.
    A process is its array of open files and its current directory. *)

From Stdlib Require Import ZArith Lia.
From stdpp Require Import base numbers list gmap fin_sets sets strings.
From S2P Require Import Prelude CStr MemIface Bio Log Fs Pipe File Icache IcacheThm Dir Ftable.
#[local] Open Scope Z_scope.

Definition NOFILE : nat := 16.
Definition O_RDONLY : Z := 0.
Definition O_WRONLY : Z := 1.
Definition O_RDWR : Z := 2.
Definition O_CREATE : Z := 512.

Definition DOT : list Z := [46].
Definition DOTDOT : list Z := [46; 46].

Record uproc := UProc { ofile : list (option nat); u_cwd : nat }.

(** [argfd], after [argint]. *)
Definition argfd (u : uproc) (fd : option Z) : option (nat * nat) :=
  fd ← fd;
  if (fd <? 0) || (Z.of_nat NOFILE <=? fd) then None
  else f ← mjoin (ofile u !! Z.to_nat fd); Some (Z.to_nat fd, f).

(** The loop of [fdalloc] from descriptor [k] on. *)
Fixpoint fd_scan (l : list (option nat)) (k : nat) : option nat :=
  match l with [] => None | None :: _ => Some k | Some _ :: l' => fd_scan l' (S k) end.

Definition fdalloc (u : uproc) (f : nat) : option (nat * uproc) :=
  fd ← fd_scan (ofile u) 0;
  Some (fd, UProc (<[fd := Some f]> (ofile u)) (u_cwd u)).

Section paths.
Context {C : Type} `{BufOps C} (sb : superblock).
Context (dr : Z → option (C → log → inode → Z → outcome (Z * list Z * inode * C * log))).
Context (dw : Z → option (C → log → inode → list Z → outcome (Z * inode * C * log))).

(** [ip->nlink += d; iupdate(ip);] for a locked inode. *)
Definition add_nlink (c : C) (g : log) (ic : icache) (k : nat) (d : Z) : outcome (C * log * icache) :=
  ip ← deref ic k;
  let ip := set_nlink (s16 (nlink ip + d)) ip in
  '(c, g) ← iupdate sb c g ip;
  Ok (c, g, <[k := ip]> ic).

(** From the label [bad] on. *)
Definition link_bad (c : C) (g : log) (ic : icache) (ip : nat) : outcome (Z * C * log * icache) :=
  '(c, ic) ← ilock_at sb c ic ip;
  '(c, g, ic) ← add_nlink c g ic ip (-1);
  '(c, g, ic) ← iunlockput sb c g ic ip;
  '(c, g) ← end_op c g;
  Ok (-1, c, g, ic).

Definition sys_link (c : C) (g : log) (ic : icache) (cwd : nat) (old new : option (list Z)) : outcome (Z * C * log * icache) :=
  match old, new with
  | Some old, Some new =>
      g ← start_op g;
      '(o, c, g, ic) ← namei sb dr c g ic cwd old;
      match o with
      | None => '(c, g) ← end_op c g; Ok (-1, c, g, ic)
      | Some ip =>
          '(c, ic) ← ilock_at sb c ic ip;
          x ← deref ic ip;
          if itype x =? T_DIR then
            '(c, g, ic) ← iunlockput sb c g ic ip;
            '(c, g) ← end_op c g;
            Ok (-1, c, g, ic)
          else
            '(c, g, ic) ← add_nlink c g ic ip 1;
            ic ← iunlock_at ic ip;
            '(o, name, c, g, ic) ← nameiparent sb dr c g ic cwd new;
            match o with
            | None => link_bad c g ic ip
            | Some dp =>
                '(c, ic) ← ilock_at sb c ic dp;
                d ← deref ic dp;
                x ← deref ic ip;
                '(r, c, g, ic) ← (if negb (i_dev d =? i_dev x) then Ok (-1, c, g, ic) else dirlink sb dr dw c g ic dp name (inum x));
                '(c, g, ic) ← iunlockput sb c g ic dp;
                if r <? 0 then link_bad c g ic ip
                else
                  '(c, g, ic) ← iput sb c g ic ip;
                  '(c, g) ← end_op c g;
                  Ok (0, c, g, ic)
            end
      end
  | _, _ => Ok (-1, c, g, ic)
  end.

(** The loop of [isdirempty] from the offset [off] on. *)
Fixpoint isdirempty_loop (c : C) (g : log) (ic : icache) (dp : nat) (off : Z) (fuel : nat) : outcome (bool * C * log * icache) :=
  ip ← deref ic dp;
  if off <? isize ip then
    match fuel with
    | O => NoFuel
    | S fuel' =>
        '(r, de, c, g, ic) ← readi_at sb dr c g ic dp off 16;
        if negb (r =? 16) then Panic "isdirempty: readi"
        else if negb (de_inum de =? 0) then Ok (false, c, g, ic)
        else isdirempty_loop c g ic dp (u32 (off + 16)) fuel'
    end
  else Ok (true, c, g, ic).

Definition isdirempty (c : C) (g : log) (ic : icache) (dp : nat) : outcome (bool * C * log * icache) :=
  ip ← deref ic dp;
  isdirempty_loop c g ic dp 32 (Z.to_nat (isize ip)).

(** From the label [bad] on. *)
Definition unlink_bad (c : C) (g : log) (ic : icache) (dp : nat) : outcome (Z * C * log * icache) :=
  '(c, g, ic) ← iunlockput sb c g ic dp;
  '(c, g) ← end_op c g;
  Ok (-1, c, g, ic).

Definition sys_unlink (c : C) (g : log) (ic : icache) (cwd : nat) (path : option (list Z)) : outcome (Z * C * log * icache) :=
  match path with
  | None => Ok (-1, c, g, ic)
  | Some path =>
      g ← start_op g;
      '(o, name, c, g, ic) ← nameiparent sb dr c g ic cwd path;
      match o with
      | None => '(c, g) ← end_op c g; Ok (-1, c, g, ic)
      | Some dp =>
          '(c, ic) ← ilock_at sb c ic dp;
          if (namecmp name DOT =? 0) || (namecmp name DOTDOT =? 0) then unlink_bad c g ic dp
          else
            '(o, c, g, ic) ← dirlookup sb dr c g ic dp name;
            match o with
            | None => unlink_bad c g ic dp
            | Some (ip, off) =>
                '(c, ic) ← ilock_at sb c ic ip;
                x ← deref ic ip;
                if nlink x <? 1 then Panic "unlink: nlink < 1"
                else
                  '(full, c, g, ic) ← (if itype x =? T_DIR then '(e, c, g, ic) ← isdirempty c g ic ip; Ok (negb e, c, g, ic) else Ok (false, c, g, ic));
                  if full : bool then
                    '(c, g, ic) ← iunlockput sb c g ic ip;
                    unlink_bad c g ic dp
                  else
                    '(r, c, g, ic) ← writei_at sb dw c g ic dp (replicate DIRENT 0) off;
                    if negb (r =? 16) then Panic "unlink: writei"
                    else
                      '(c, g, ic) ← (if itype x =? T_DIR then add_nlink c g ic dp (-1) else Ok (c, g, ic));
                      '(c, g, ic) ← iunlockput sb c g ic dp;
                      '(c, g, ic) ← add_nlink c g ic ip (-1);
                      '(c, g, ic) ← iunlockput sb c g ic ip;
                      '(c, g) ← end_op c g;
                      Ok (0, c, g, ic)
            end
      end
  end.

(** [if(dirlink(dp, name, inum) < 0) panic(msg);] *)
Definition dirlink_or_panic (msg : string) (c : C) (g : log) (ic : icache) (dp : nat) (name : list Z) (i : Z) : outcome (C * log * icache) :=
  '(r, c, g, ic) ← dirlink sb dr dw c g ic dp name i;
  if r <? 0 then Panic msg else Ok (c, g, ic).

(** The new inode of [create] in the directory [dp], locked. *)
Definition create_new (c : C) (g : log) (ic : icache) (dp : nat) (name : list Z) (type maj min : Z) : outcome (nat * C * log * icache) :=
  d ← deref ic dp;
  '(ip, c, g, ic) ← ialloc sb c g ic (i_dev d) type;
  '(c, ic) ← ilock_at sb c ic ip;
  x ← deref ic ip;
  let x := set_nlink 1 (set_devno maj min x) in
  '(c, g) ← iupdate sb c g x;
  let ic := <[ip := x]> ic in
  '(c, g, ic) ← (if type =? T_DIR then
     '(c, g, ic) ← add_nlink c g ic dp 1;
     '(c, g, ic) ← dirlink_or_panic "create dots" c g ic ip DOT (inum x);
     dirlink_or_panic "create dots" c g ic ip DOTDOT (inum d)
   else Ok (c, g, ic));
  '(c, g, ic) ← dirlink_or_panic "create: dirlink" c g ic dp name (inum x);
  '(c, g, ic) ← iunlockput sb c g ic dp;
  Ok (ip, c, g, ic).

Definition create (c : C) (g : log) (ic : icache) (cwd : nat) (path : list Z) (type maj min : Z) : outcome (option nat * C * log * icache) :=
  '(o, name, c, g, ic) ← nameiparent sb dr c g ic cwd path;
  match o with
  | None => Ok (None, c, g, ic)
  | Some dp =>
      '(c, ic) ← ilock_at sb c ic dp;
      '(o, c, g, ic) ← dirlookup sb dr c g ic dp name;
      match o with
      | Some (ip, _) =>
          '(c, g, ic) ← iunlockput sb c g ic dp;
          '(c, ic) ← ilock_at sb c ic ip;
          x ← deref ic ip;
          if (type =? T_FILE) && (itype x =? T_FILE) then Ok (Some ip, c, g, ic)
          else
            '(c, g, ic) ← iunlockput sb c g ic ip;
            Ok (None, c, g, ic)
      | None =>
          '(ip, c, g, ic) ← create_new c g ic dp name type maj min;
          Ok (Some ip, c, g, ic)
      end
  end.

(** What [sys_mkdir] and [sys_mknod] do with the result of [create]. *)
Definition put_created (o : option nat) (c : C) (g : log) (ic : icache) : outcome (Z * C * log * icache) :=
  match o with
  | None => '(c, g) ← end_op c g; Ok (-1, c, g, ic)
  | Some ip =>
      '(c, g, ic) ← iunlockput sb c g ic ip;
      '(c, g) ← end_op c g;
      Ok (0, c, g, ic)
  end.

Definition sys_mkdir (c : C) (g : log) (ic : icache) (cwd : nat) (path : option (list Z)) : outcome (Z * C * log * icache) :=
  g ← start_op g;
  '(o, c, g, ic) ← (match path with Some path => create c g ic cwd path T_DIR 0 0 | None => Ok (None, c, g, ic) end);
  put_created o c g ic.

(** [major] and [minor] are [int] here and [short] in [create]. *)
Definition sys_mknod (c : C) (g : log) (ic : icache) (cwd : nat) (path : option (list Z)) (maj min : option Z) : outcome (Z * C * log * icache) :=
  g ← start_op g;
  '(o, c, g, ic) ← (match path, maj, min with
    | Some path, Some maj, Some min => create c g ic cwd path T_DEV (s16 maj) (s16 min)
    | _, _, _ => Ok (None, c, g, ic) end);
  put_created o c g ic.

(** The new current directory. *)
Definition sys_chdir (c : C) (g : log) (ic : icache) (cwd : nat) (path : option (list Z)) : outcome (Z * nat * C * log * icache) :=
  g ← start_op g;
  '(o, c, g, ic) ← (match path with Some path => namei sb dr c g ic cwd path | None => Ok (None, c, g, ic) end);
  match o with
  | None => '(c, g) ← end_op c g; Ok (-1, cwd, c, g, ic)
  | Some ip =>
      '(c, ic) ← ilock_at sb c ic ip;
      x ← deref ic ip;
      if negb (itype x =? T_DIR) then
        '(c, g, ic) ← iunlockput sb c g ic ip;
        '(c, g) ← end_op c g;
        Ok (-1, cwd, c, g, ic)
      else
        ic ← iunlock_at ic ip;
        '(c, g, ic) ← iput sb c g ic cwd;
        '(c, g) ← end_op c g;
        Ok (0, ip, c, g, ic)
  end.

(** The first half of [sys_open], up to the locked inode. *)
Definition open_inode (c : C) (g : log) (ic : icache) (cwd : nat) (path : list Z) (omode : Z) : outcome (option nat * C * log * icache) :=
  if negb (Z.land omode O_CREATE =? 0) then create c g ic cwd path T_FILE 0 0
  else
    '(o, c, g, ic) ← namei sb dr c g ic cwd path;
    match o with
    | None => Ok (None, c, g, ic)
    | Some ip =>
        '(c, ic) ← ilock_at sb c ic ip;
        x ← deref ic ip;
        if (itype x =? T_DIR) && negb (omode =? O_RDONLY) then
          '(c, g, ic) ← iunlockput sb c g ic ip;
          Ok (None, c, g, ic)
        else Ok (Some ip, c, g, ic)
    end.
End paths.

Section files.
Context {C M : Type} `{BufOps C} `{MemOps M} (sb : superblock).
Context (dr : Z → option (C → log → inode → Z → outcome (Z * list Z * inode * C * log))).
Context (dw : Z → option (C → log → inode → list Z → outcome (Z * inode * C * log))).
Abbreviation fsys := (fsys C M).

Definition sys_dup (s : fsys) (u : uproc) (fd : option Z) : outcome (Z * fsys * uproc) :=
  match argfd u fd with
  | None => Ok (-1, s, u)
  | Some (_, f) =>
      match fdalloc u f with
      | None => Ok (-1, s, u)
      | Some (fd, u) =>
          ft ← filedup (fs_ft s) f;
          Ok (Z.of_nat fd, set_ft ft s, u)
      end
  end.

(** The bytes are stored at the second argument; [None] for [n] if it or the pointer is refused. *)
Definition sys_read (s : fsys) (u : uproc) (fd n : option Z) (killed : bool) : outcome (Z * list Z * fsys) :=
  match argfd u fd, n with
  | Some (_, f), Some n => fileread_at sb dr s f n killed
  | _, _ => Ok (-1, [], s)
  end.

Definition sys_write (s : fsys) (u : uproc) (fd : option Z) (src : option (list Z)) (killed : bool) : outcome (Z * fsys) :=
  match argfd u fd, src with
  | Some (_, f), Some src => filewrite_at sb dw s f src killed
  | _, _ => Ok (-1, s)
  end.

Definition sys_close (s : fsys) (u : uproc) (fd : option Z) : outcome (Z * fsys * uproc) :=
  match argfd u fd with
  | None => Ok (-1, s, u)
  | Some (fd, f) =>
      let u := UProc (<[fd := None]> (ofile u)) (u_cwd u) in
      s ← fileclose sb s f;
      Ok (0, s, u)
  end.

(** [ok] says whether [argptr] accepts the pointer. *)
Definition sys_fstat (s : fsys) (u : uproc) (fd : option Z) (ok : bool) : outcome (Z * option stat * fsys) :=
  match argfd u fd, ok with
  | Some (_, f), true =>
      '(st, s) ← filestat sb s f;
      Ok (match st with Some _ => 0 | None => -1 end, st, s)
  | _, _ => Ok (-1, None, s)
  end.

(** [iunlockput(ip); end_op(); return -1;] *)
Definition open_bad (s : fsys) (u : uproc) (ip : nat) : outcome (Z * fsys * uproc) :=
  '(c, g, ic) ← iunlockput sb (fs_c s) (fs_g s) (fs_ic s) ip;
  '(c, g) ← end_op c g;
  Ok (-1, set_disk c g ic s, u).

Definition sys_open (s : fsys) (u : uproc) (path : option (list Z)) (omode : option Z) : outcome (Z * fsys * uproc) :=
  match path, omode with
  | Some path, Some omode =>
      g ← start_op (fs_g s);
      '(o, c, g, ic) ← open_inode sb dr dw (fs_c s) g (fs_ic s) (u_cwd u) path omode;
      match o with
      | None => '(c, g) ← end_op c g; Ok (-1, set_disk c g ic s, u)
      | Some ip =>
          let s := set_disk c g ic s in
          let '(o, ft) := filealloc (fs_ft s) in
          let s := set_ft ft s in
          match o with
          | None => open_bad s u ip
          | Some f =>
              match fdalloc u f with
              | None => s ← fileclose sb s f; open_bad s u ip
              | Some (fd, u) =>
                  ic ← iunlock_at (fs_ic s) ip;
                  '(c, g) ← end_op (fs_c s) (fs_g s);
                  let s := set_disk c g ic s in
                  let readable := Z.land omode O_WRONLY =? 0 in
                  let writable := negb (Z.land omode O_WRONLY =? 0) || negb (Z.land omode O_RDWR =? 0) in
                  let ft := alter (λ x, TFile (FInode ip) (t_ref x) readable writable 0) f (fs_ft s) in
                  Ok (Z.of_nat fd, set_ft ft s, u)
              end
          end
      end
  | _, _ => Ok (-1, s, u)
  end.

(** The two descriptors stored at the argument; [ok] says whether [argptr] accepts it and [d] is what the page of the pipe holds. *)
Definition sys_pipe (s : fsys) (u : uproc) (ok : bool) (d : list Z) : outcome (Z * list Z * fsys * uproc) :=
  if negb ok then Ok (-1, [], s, u)
  else
    '(o, s) ← pipealloc sb s d;
    match o with
    | None => Ok (-1, [], s, u)
    | Some (rf, wf) =>
        match fdalloc u rf with
        | None =>
            s ← fileclose sb s rf;
            s ← fileclose sb s wf;
            Ok (-1, [], s, u)
        | Some (fd0, u1) =>
            match fdalloc u1 wf with
            | None =>
                let u := UProc (<[fd0 := None]> (ofile u1)) (u_cwd u1) in
                s ← fileclose sb s rf;
                s ← fileclose sb s wf;
                Ok (-1, [], s, u)
            | Some (fd1, u2) => Ok (0, [Z.of_nat fd0; Z.of_nat fd1], s, u2)
            end
        end
    end.
End files.
