(* ===== verification/Tree.v ===== *)
(** The tree of directories, without the disk (src/p4/fs.c, src/p4/sysfile.c).

    [graph] is what the system calls keep true of the directories and link counts: an entry is a triple of a directory with a link, a name and an inode number.
    The operations add or remove entries; each has a lemma that it keeps [graph].  [tree] says the same of the bytes in the directories. *)

From Stdlib Require Import ZArith Lia.
From stdpp Require Import base numbers list gmap fin_sets sets strings.
From S2P Require Import Prelude CStr Bio Log Fs FsSpec File FsCk Icache IcacheThm Dir DirSpec DirOps Sysfile.
#[local] Open Scope Z_scope.

(** * The entries of one directory *)

(** Entry [j] of the directory [l] is in use, with name [n] and inode [i]. *)
Definition slot_is (l : list Z) (j : nat) (n : list Z) (i : Z) : Prop := i ≠ 0 ∧ de_inum (dent l j) = i ∧ cname (de_name (dent l j)) = n.

Definition dnodup (l : list Z) : Prop := ∀ j1 j2 n i1 i2, (j1 < ndent l)%nat → (j2 < ndent l)%nat → slot_is l j1 n i1 → slot_is l j2 n i2 → j1 = j2.

Lemma dmap_from_Some l n i : ∀ c k, dmap_from l k c !! n = Some i → ∃ j, (k ≤ j < k + c)%nat ∧ slot_is l j n i.
Proof.
  induction c as [|c IH]; intros k Hn; [done|]. rewrite dmap_step in Hn. destruct (Z.eqb_spec (de_inum (dent l k)) 0) as [E|N].
  - destruct (IH (S k) Hn) as (j & Hj & Hs). exists j. split; [lia|done].
  - apply lookup_insert_Some in Hn as [[<- <-]|[_ Hn]]; [exists k; split; [lia|done]|]. destruct (IH (S k) Hn) as (j & Hj & Hs). exists j. split; [lia|done].
Qed.

Lemma dmap_Some l n i : dmap l !! n = Some i → ∃ j, (j < ndent l)%nat ∧ slot_is l j n i.
Proof. intros Hn. destruct (dmap_from_Some l n i _ _ Hn) as (j & Hj & Hs). exists j. split; [lia|done]. Qed.

Lemma dmap_from_None l n : ∀ c k, dmap_from l k c !! n = None → ∀ j i, (k ≤ j < k + c)%nat → ¬ slot_is l j n i.
Proof.
  induction c as [|c IH]; intros k Hn j i Hj (Hi & Ei & En); [lia|]. rewrite dmap_step in Hn. destruct (Z.eqb_spec (de_inum (dent l k)) 0) as [E|N].
  - destruct (decide (j = k)) as [->|?]; [congruence|]. by apply (IH (S k) Hn j i); [lia|].
  - apply lookup_insert_None in Hn as [Hn Hne]. destruct (decide (j = k)) as [->|?]; [congruence|]. by apply (IH (S k) Hn j i); [lia|].
Qed.

Lemma dmap_slot l n i j : dnodup l → (j < ndent l)%nat → slot_is l j n i → dmap l !! n = Some i.
Proof.
  intros Hd Hj Hs. destruct (dmap l !! n) as [i'|] eqn:E.
  - destruct (dmap_Some l n i' E) as (j' & Hj' & Hs'). assert (j' = j) as -> by (by eapply Hd). destruct Hs as (_ & <- & _), Hs' as (_ & <- & _). done.
  - exfalso. eapply (dmap_from_None l n _ _ E j i); [lia|done].
Qed.

Lemma dlookup_slot l name j : dlookup l name = Some j → (j < ndent l)%nat ∧ slot_is l j (cname name) (de_inum (dent l j)).
Proof.
  intros Hj. destruct (dfind_Some _ _ _ _ _ Hj) as (Hr & HP & _). unfold entry_for in HP. apply andb_prop in HP as [H0%negb_true_iff%Z.eqb_neq Hn%bool_decide_eq_true].
  split; [lia|]. done.
Qed.

Lemma dlookup_None l name : dmap l !! cname name = None ↔ dlookup l name = None.
Proof. rewrite dmap_lookup. by destruct (dlookup l name). Qed.

(** ** Adding and removing *)

Lemma slot_write l s d j n i : length d = DIRENT → (DIRENT * s ≤ length l)%nat → (length l mod DIRENT = 0)%nat →
  slot_is (write_at l (DIRENT * s) d) j n i ↔ if decide (j = s) then i ≠ 0 ∧ de_inum d = i ∧ cname (de_name d) = n else slot_is l j n i.
Proof. intros Hd Hs Hm. unfold slot_is at 1. rewrite dent_write by done. by case_decide. Qed.

Lemma ndent_write l s d : length d = DIRENT → (length l mod DIRENT = 0)%nat → (s ≤ ndent l)%nat → ndent (write_at l (DIRENT * s) d) = Nat.max (ndent l) (S s).
Proof.
  intros Hd Hm Hs. pose proof (ndent_length l Hm) as Hn. unfold ndent at 1. rewrite length_write_at, Hd by (unfold DIRENT in *; lia).
  replace (Nat.max (length l) (DIRENT * s + DIRENT)) with (Nat.max (ndent l) (S s) * DIRENT)%nat by (unfold DIRENT in *; lia). by rewrite Nat.div_mul.
Qed.

Lemma dnodup_dlink l name i : (length l mod DIRENT = 0)%nat → is_ushort i → i ≠ 0 → dlookup l name = None → dnodup l → dnodup (dlink l name i).
Proof.
  intros Hm Hi Hi0 Hno%dlookup_None Hd. destruct (dslot_spec l Hm) as (Hs & Hfree & Hused). pose proof (length_dirent i name) as Hdl. pose proof (ndent_length l Hm) as Hn.
  unfold dlink. intros j1 j2 n i1 i2. rewrite ndent_write by done. rewrite !slot_write by (done || (unfold DIRENT in *; lia)). intros H1 H2.
  assert (∀ j i', (j < Nat.max (ndent l) (S (dslot l)))%nat → j ≠ dslot l → slot_is l j (cname name) i' → False) as Hnew.
  { intros j i' Hj Hne. eapply (dmap_from_None l _ _ _ Hno j i'). lia. }
  case_decide as E1; case_decide as E2; [congruence| | |].
  - intros (_ & _ & En) Hs2. rewrite dirent_name in En. exfalso. eapply (Hnew j2); [lia|done|by rewrite En].
  - intros Hs1 (_ & _ & En). rewrite dirent_name in En. exfalso. eapply (Hnew j1); [lia|done|by rewrite En].
  - intros Hs1 Hs2. eapply Hd; [| |exact Hs1|exact Hs2]; lia.
Qed.

(** The content with entry [j] cleared. *)
Definition dclear (l : list Z) (j : nat) : list Z := write_at l (DIRENT * j) (replicate DIRENT 0).

Lemma slot_clear l j j' n i : (length l mod DIRENT = 0)%nat → (j < ndent l)%nat → slot_is (dclear l j) j' n i ↔ j' ≠ j ∧ slot_is l j' n i.
Proof.
  intros Hm Hj. pose proof (ndent_length l Hm) as Hn. unfold dclear. rewrite slot_write by (done || (unfold DIRENT in *; lia)). case_decide as E; [|tauto].
  split; [|by intros [? _]]. intros (Hi & E0 & _). by rewrite <- E0 in Hi.
Qed.

Lemma ndent_clear l j : (length l mod DIRENT = 0)%nat → (j < ndent l)%nat → ndent (dclear l j) = ndent l ∧ (length (dclear l j) mod DIRENT = 0)%nat ∧ length (dclear l j) = length l.
Proof.
  intros Hm Hj. pose proof (ndent_length l Hm) as Hn. assert (length (dclear l j) = length l) as El.
  { unfold dclear. rewrite length_write_at, length_replicate by (unfold DIRENT in *; lia). unfold DIRENT in *. lia. }
  split_and!; [unfold ndent; by rewrite El|by rewrite El|done].
Qed.

Lemma dmap_clear l j n i : (length l mod DIRENT = 0)%nat → (j < ndent l)%nat → dnodup l → slot_is l j n i → dmap (dclear l j) = delete n (dmap l) ∧ dnodup (dclear l j).
Proof.
  intros Hm Hj Hd Hs. destruct (ndent_clear l j Hm Hj) as (En & _). assert (dnodup (dclear l j)) as Hd'.
  { intros j1 j2 x i1 i2. rewrite En, !slot_clear by done. intros H1 H2 [_ Hs1] [_ Hs2]. by eapply Hd. }
  split; [|done]. apply map_eq. intros x. apply option_eq. intros y. split.
  - intros (j' & Hj' & Hs')%dmap_Some. rewrite En in Hj'. apply slot_clear in Hs' as [Hne Hs']; [|done|done].
    assert (n ≠ x) as Hnx by (intros ->; by apply Hne, (Hd j' j x y i)). rewrite lookup_delete_ne by done. by eapply dmap_slot.
  - intros [Hne Hx]%lookup_delete_Some. destruct (dmap_Some _ _ _ Hx) as (j' & Hj' & Hs'). eapply (dmap_slot _ _ _ j'); [done|by rewrite En|]. apply slot_clear; [done|done|].
    split; [|done]. intros ->. destruct Hs as (_ & _ & ?), Hs' as (_ & _ & ?). congruence.
Qed.

(** ** The first two entries *)

Definition entry_used (d : list Z) : bool := negb (de_inum d =? 0).

(** No entry after the first two is in use. *)
Definition dempty (l : list Z) : bool := match dfind entry_used l 2 (ndent l - 2) with None => true | Some _ => false end.

(** The first two entries are "." for [d] and ".." for [p]. *)
Definition dots_at (l : list Z) (d p : Z) : Prop := (2 ≤ ndent l)%nat ∧ slot_is l 0 DOT d ∧ slot_is l 1 DOTDOT p.

Definition proper (n : list Z) : Prop := n ≠ DOT ∧ n ≠ DOTDOT.

Lemma dots_map l d p : dots_at l d p → dnodup l → dmap l !! DOT = Some d ∧ dmap l !! DOTDOT = Some p.
Proof. intros (H2 & H0 & H1) Hd. split; (eapply dmap_slot; [done| |done]; lia). Qed.

Lemma dempty_spec l d p : dots_at l d p → dnodup l → dempty l = true ↔ ∀ n i, dmap l !! n = Some i → ¬ proper n.
Proof.
  intros (H2 & H0 & H1) Hd. unfold dempty. split.
  - intros Hdf n i (j & Hj & Hs)%dmap_Some [Hp1 Hp2]. destruct (dfind entry_used l 2 (ndent l - 2)) eqn:E; [done|].
    destruct (decide (j < 2)%nat) as [Hlt|Hge].
    + destruct j as [|[|j]]; [| |lia]; [apply Hp1; destruct H0 as (_ & _ & <-), Hs as (_ & _ & <-)|apply Hp2; destruct H1 as (_ & _ & <-), Hs as (_ & _ & <-)]; done.
    + pose proof (dfind_None _ _ _ _ E j ltac:(lia)) as Hu. destruct Hs as (Hi & Ei & _). unfold entry_used in Hu. apply negb_false_iff, Z.eqb_eq in Hu. congruence.
  - intros Hall. destruct (dfind entry_used l 2 (ndent l - 2)) as [j|] eqn:E; [|done]. exfalso. destruct (dfind_Some _ _ _ _ _ E) as (Hj & Hu & _).
    apply negb_true_iff, Z.eqb_neq in Hu. assert (slot_is l j (cname (de_name (dent l j))) (de_inum (dent l j))) as Hs by done.
    apply (Hall _ _ (dmap_slot l _ _ j Hd ltac:(lia) Hs)). split; intros En; rewrite En in Hs; [assert (j = 0%nat)|assert (j = 1%nat)]; try lia; eapply Hd; eauto; lia.
Qed.

Lemma dots_dlink l name i d p : (length l mod DIRENT = 0)%nat → dots_at l d p → dots_at (dlink l name i) d p.
Proof.
  intros Hm (H2 & H0 & H1). destruct (dslot_spec l Hm) as (Hs & Hfree & Hused). pose proof (ndent_length l Hm) as Hn. pose proof (length_dirent i name) as Hdl.
  assert (2 ≤ dslot l)%nat as Hge.
  { destruct (decide (2 ≤ dslot l)%nat) as [?|Hlt]; [done|exfalso]. destruct H0 as (? & ? & _), H1 as (? & ? & _). specialize (Hfree ltac:(lia)).
    destruct (dslot l) as [|[|]]; [congruence|congruence|lia]. }
  unfold dots_at, dlink. rewrite ndent_write by done. rewrite !slot_write by (done || (unfold DIRENT in *; lia)). rewrite !decide_False by lia. split_and!; [lia|done|done].
Qed.

Lemma dots_clear l j d p : (length l mod DIRENT = 0)%nat → (2 ≤ j < ndent l)%nat → dots_at l d p → dots_at (dclear l j) d p.
Proof.
  intros Hm Hj (H2 & H0 & H1). unfold dots_at. rewrite !slot_clear by (done || lia). destruct (ndent_clear l j Hm ltac:(lia)) as (-> & _). split_and!; [lia|lia|done|lia|done].
Qed.

(** The directory that [create] makes. *)
Definition new_dir (i d : Z) : list Z := dlink (dlink [] DOT i) DOTDOT d.

Lemma new_dir_spec i d : is_ushort i → i ≠ 0 → is_ushort d → d ≠ 0 → let l := new_dir i d in
  dlookup [] DOT = None ∧ dlookup (dlink [] DOT i) DOTDOT = None ∧ length (dlink [] DOT i) = 16%nat ∧ length l = 32%nat ∧ dnodup l ∧ dots_at l i d ∧ dmap l = {[DOT := i; DOTDOT := d]}.
Proof.
  intros Hi Hi0 Hd Hd0 l. assert (dlookup [] DOT = None) as N1 by done.
  destruct (dmap_dlink [] DOT i eq_refl Hi Hi0 N1) as (E1 & M1 & L1). change (Nat.max (length (@nil Z)) (DIRENT * dslot [] + DIRENT)) with 16%nat in L1.
  change (cname DOT) with DOT in E1. assert (dlookup (dlink [] DOT i) DOTDOT = None) as N2.
  { apply dlookup_None. rewrite E1. change (cname DOTDOT) with DOTDOT. by rewrite lookup_insert_ne. }
  destruct (dmap_dlink _ DOTDOT d M1 Hd Hd0 N2) as (E2 & M2 & L2). change (cname DOTDOT) with DOTDOT in E2.
  assert (dslot (dlink [] DOT i) = 1%nat) as Es.
  { destruct (dslot_spec _ M1) as (Hs & Hfree & _). assert (ndent (dlink [] DOT i) = 1%nat) as En by (unfold ndent; by rewrite L1). rewrite En in *.
    destruct (dslot (dlink [] DOT i)) as [|[|]] eqn:Eds; [|done|lia]. exfalso. specialize (Hfree ltac:(lia)). unfold dlink in Hfree.
    rewrite (dent_write [] 0) in Hfree by done. cbn [decide] in Hfree. rewrite decide_True in Hfree by done. by rewrite dirent_inum in Hfree. }
  rewrite Es, L1 in L2. change (Nat.max 16 (DIRENT * 1 + DIRENT)) with 32%nat in L2.
  assert (dnodup l) as Hnd.
  { apply dnodup_dlink; [done|done|done|done|]. apply dnodup_dlink; [done|done|done|done|]. intros j1 j2 n i1 i2 H1. by apply Nat.nlt_0_r in H1. }
  split_and!; [done|done|done|done|done| |].
  - assert (ndent l = 2%nat) as El by (unfold ndent; change l with (dlink (dlink [] DOT i) DOTDOT d); by rewrite L2).
    unfold dots_at. rewrite El. split; [done|]. unfold l, new_dir, dlink at 1 3. rewrite Es. rewrite !slot_write by (rewrite ?L1; done).
    rewrite decide_False, decide_True by done. split; [|by rewrite dirent_inum, dirent_name]. unfold dlink. rewrite (slot_write [] 0) by done.
    rewrite decide_True by done. by rewrite dirent_inum, dirent_name.
  - unfold l, new_dir. rewrite E2, E1. by rewrite insert_insert_ne.
Qed.

(** * The graph of entries

    [E d n i]: the directory [d], which has a link, has the entry [n] for [i].  [N] has for each inode in use whether it is a directory, and its link count. *)

Record graph (E : Z → list Z → Z → Prop) (N : gmap Z (bool * Z)) : Prop := {
  g_src : ∀ d n i, E d n i → ∃ x, N !! d = Some (true, x) ∧ x ≠ 0;
  g_fun : ∀ d n i i', E d n i → E d n i' → i = i';
  g_dots : ∀ d x, N !! d = Some (true, x) → x ≠ 0 → E d DOT d ∧ ∃ p, E d DOTDOT p;
  g_tgt : ∀ d n i, E d n i → is_Some (N !! i);
  (* link counts: the entries other than "." *)
  g_links : ∀ i b x, N !! i = Some (b, x) → ∃ X : gset (Z * list Z), (∀ d n, (d, n) ∈ X ↔ E d n i ∧ n ≠ DOT) ∧ x = Z.of_nat (size X);
  g_root : E ROOTINO DOTDOT ROOTINO;
  (* a directory is in its parent, once, and nowhere else *)
  g_up : ∀ d p, E d DOTDOT p → d ≠ ROOTINO → ∃ n, proper n ∧ E p n d;
  g_parent : ∀ d n i x, E d n i → proper n → N !! i = Some (true, x) → E i DOTDOT d ∧ i ≠ ROOTINO;
  g_one : ∀ d n n' i x, E d n i → E d n' i → proper n → proper n' → N !! i = Some (true, x) → n = n';
  g_rank : ∃ rank : Z → nat, ∀ d n i x, E d n i → proper n → N !! i = Some (true, x) → (rank d < rank i)%nat }.

Lemma elem_of_size_pos (X : gset (Z * list Z)) p : p ∈ X → size X ≠ 0%nat.
Proof. intros Hp H0%size_empty_inv. by apply (H0 p), not_elem_of_empty in Hp. Qed.

Section graph.
Context (E : Z → list Z → Z → Prop) (N : gmap Z (bool * Z)) (HG : graph E N).

Lemma graph_ext E' : (∀ d n i, E' d n i ↔ E d n i) → graph E' N.
Proof using HG.
  intros HE. destruct HG as [G1 G2 G3 G4 G5 G6 G7 G8 G9 [rk G10]]. split; try (setoid_rewrite HE; done). exists rk. setoid_rewrite HE. done.
Qed.

Lemma dot_self d i : E d DOT i → i = d.
Proof using HG. intros He. destruct (g_src _ _ HG _ _ _ He) as (x & Hx & Hx0). destruct (g_dots _ _ HG d x Hx Hx0) as [Hd _]. by eapply (g_fun _ _ HG). Qed.

(** A target of an entry has a link. *)
Lemma tgt_linked d n i : E d n i → ∃ b x, N !! i = Some (b, x) ∧ x ≠ 0.
Proof using HG.
  intros He. destruct (decide (n = DOT)) as [->|Hn].
  - destruct (g_src _ _ HG _ _ _ He) as (x & Hx & Hx0). apply dot_self in He as ->. by exists true, x.
  - destruct (g_tgt _ _ HG _ _ _ He) as [[b x] Hx]. exists b, x. split; [done|]. destruct (g_links _ _ HG i b x Hx) as (X & HX & ->).
    intros H0. apply (elem_of_size_pos X (d, n)); [by apply HX|lia].
Qed.

(** No entry leads to a file without links. *)
Lemma unlinked_tgt i b d n : N !! i = Some (b, 0) → ¬ E d n i.
Proof using HG. intros Hi He. destruct (tgt_linked d n i He) as (b' & x & Hx & H0). rewrite Hi in Hx. by injection Hx as <- <-. Qed.

Lemma root_dir : ∃ x, N !! ROOTINO = Some (true, x) ∧ x ≠ 0.
Proof using HG. exact (g_src _ _ HG _ _ _ (g_root _ _ HG)). Qed.

(** The counts with one entry more or less. *)
Lemma links_add (X : gset (Z * list Z)) p : p ∉ X → Z.of_nat (size X) + 1 = Z.of_nat (size ({[p]} ∪ X)).
Proof. intros Hp. rewrite size_union, size_singleton by (by apply disjoint_singleton_l). lia. Qed.
Lemma links_del (X : gset (Z * list Z)) p : p ∈ X → Z.of_nat (size X) - 1 = Z.of_nat (size (X ∖ {[p]})).
Proof.
  intros Hp. rewrite size_difference by (by apply singleton_subseteq_l). rewrite size_singleton. assert (size X ≠ 0%nat) by (by eapply elem_of_size_pos). lia.
Qed.

(** ** A link to a file *)

Lemma graph_add_file E' d n i y : (∃ x, N !! d = Some (true, x) ∧ x ≠ 0) → (∀ i', ¬ E d n i') → n ≠ DOT →
  N !! i = Some (false, y) ∨ N !! i = None ∧ y = 0 → (∀ d0 n0 i0, E' d0 n0 i0 ↔ E d0 n0 i0 ∨ (d0 = d ∧ n0 = n ∧ i0 = i)) → n ≠ DOTDOT →
  graph E' (<[i := (false, y + 1)]> N).
Proof using HG.
  intros (xd & Hd & Hxd) Hno Hn1 Hi HE Hn2. assert (i ≠ d) as Hne by (intros ->; destruct Hi as [Hi|[Hi _]]; congruence).
  assert (∀ j x, <[i := (false, y + 1)]> N !! j = Some (true, x) ↔ j ≠ i ∧ N !! j = Some (true, x)) as HD.
  { intros j x. rewrite lookup_insert_Some. naive_solver. }
  assert (∀ j x, N !! j = Some (true, x) → j ≠ i) as Hdir by (intros j x Hj ->; destruct Hi as [Hi|[Hi _]]; congruence).
  split.
  - intros d0 n0 i0 [He|(-> & -> & ->)]%HE; [|exists xd; rewrite HD; naive_solver]. destruct (g_src _ _ HG _ _ _ He) as (x & Hx & H0). exists x. rewrite HD. naive_solver.
  - intros d0 n0 i1 i2 [H1|(-> & -> & ->)]%HE [H2|(E1 & E2 & E3)]%HE; [by eapply (g_fun _ _ HG)|subst; by apply Hno in H1|by apply Hno in H2|done].
  - intros d0 x [Hne0 Hx]%HD H0. destruct (g_dots _ _ HG d0 x Hx H0) as [? (p & ?)]. split; [apply HE; by left|exists p; apply HE; by left].
  - intros d0 n0 i0 [He|(-> & -> & ->)]%HE; [|by rewrite lookup_insert_eq]. destruct (g_tgt _ _ HG _ _ _ He) as [z Hz].
    destruct (decide (i0 = i)) as [->|?]; [by rewrite lookup_insert_eq|by rewrite lookup_insert_ne].
  - intros j b x Hj. destruct (decide (j = i)) as [->|Hji].
    + rewrite lookup_insert_eq in Hj. injection Hj as <- <-.
      assert (∃ X : gset (Z * list Z), (∀ d n, (d, n) ∈ X ↔ E d n i ∧ n ≠ DOT) ∧ y = Z.of_nat (size X)) as (X & HX & ->).
      { destruct Hi as [Hi|[Hi ->]]; [by apply (g_links _ _ HG i false)|]. exists ∅. split; [|done]. intros d0 n0. split; [by intros ?%elem_of_empty|].
        intros [He _]. destruct (g_tgt _ _ HG _ _ _ He). congruence. }
      exists ({[(d, n)]} ∪ X). split; [|apply links_add; intros [He _]%HX; by apply Hno in He].
      intros d0 n0. rewrite elem_of_union, elem_of_singleton, HX, HE. naive_solver.
    + rewrite lookup_insert_ne in Hj by done. destruct (g_links _ _ HG j b x Hj) as (X & HX & ->). exists X. split; [|done]. intros d0 n0. rewrite HX, HE. naive_solver.
  - apply HE. left. apply (g_root _ _ HG).
  - intros d0 p [He|(-> & ? & ->)]%HE Hr; [|congruence]. destruct (g_up _ _ HG _ _ He Hr) as (n0 & Hp & He0). exists n0. split; [done|apply HE; by left].
  - intros d0 n0 i0 x [He|(-> & -> & ->)]%HE Hp [Hne0 Hx]%HD; [|done]. destruct (g_parent _ _ HG _ _ _ _ He Hp Hx). split; [apply HE; by left|done].
  - intros d0 n0 n1 i0 x [H1|(-> & -> & ->)]%HE [H2|(? & ? & ?)]%HE Hp1 Hp2 [Hne0 Hx]%HD; try done. by eapply (g_one _ _ HG).
  - destruct (g_rank _ _ HG) as (rk & Hrk). exists rk. intros d0 n0 i0 x [He|(-> & -> & ->)]%HE Hp [Hne0 Hx]%HD; [|done]. by eapply Hrk.
Qed.

Lemma graph_del_file E' d n i y : E d n i → proper n → N !! i = Some (false, y) →
  (∀ d0 n0 i0, E' d0 n0 i0 ↔ E d0 n0 i0 ∧ ¬ (d0 = d ∧ n0 = n)) → graph E' (<[i := (false, y - 1)]> N).
Proof using HG.
  intros He [Hn1 Hn2] Hi HE. assert (∀ j x, <[i := (false, y - 1)]> N !! j = Some (true, x) ↔ N !! j = Some (true, x)) as HD.
  { intros j x. rewrite lookup_insert_Some. naive_solver. }
  split.
  - intros d0 n0 i0 [H0 _]%HE. setoid_rewrite HD. by eapply (g_src _ _ HG).
  - intros d0 n0 i1 i2 [H1 _]%HE [H2 _]%HE. by eapply (g_fun _ _ HG).
  - intros d0 x Hx%HD H0. destruct (g_dots _ _ HG d0 x Hx H0) as [? (p & ?)]. split; [apply HE; split; [done|by intros [_ <-]]|exists p; apply HE; split; [done|by intros [_ <-]]].
  - intros d0 n0 i0 [H0 _]%HE. destruct (g_tgt _ _ HG _ _ _ H0) as [z Hz]. destruct (decide (i0 = i)) as [->|?]; [by rewrite lookup_insert_eq|by rewrite lookup_insert_ne].
  - intros j b x Hj. destruct (decide (j = i)) as [->|Hji].
    + rewrite lookup_insert_eq in Hj. injection Hj as <- <-. destruct (g_links _ _ HG i _ _ Hi) as (X & HX & ->). exists (X ∖ {[(d, n)]}).
      split; [|apply links_del, HX; by split]. intros d0 n0. rewrite elem_of_difference, elem_of_singleton, HX, HE. naive_solver.
    + rewrite lookup_insert_ne in Hj by done. destruct (g_links _ _ HG j b x Hj) as (X & HX & ->). exists X. split; [|done]. intros d0 n0. rewrite HX, HE.
      split; [|naive_solver]. intros [H0 ?]. split; [|done]. split; [done|]. intros [-> ->]. apply Hji. by eapply (g_fun _ _ HG).
  - apply HE. split; [apply (g_root _ _ HG)|]. by intros [_ <-].
  - intros d0 p [H0 _]%HE Hr. destruct (g_up _ _ HG _ _ H0 Hr) as (n0 & Hp & He0). exists n0. split; [done|]. apply HE. split; [done|]. intros [-> ->].
    assert (d0 = i) as -> by (by eapply (g_fun _ _ HG)). destruct (g_src _ _ HG _ _ _ H0) as (x & Hx & _). congruence.
  - intros d0 n0 i0 x [H0 _]%HE Hp Hx%HD. destruct (g_parent _ _ HG _ _ _ _ H0 Hp Hx). split; [|done]. apply HE. split; [done|]. by intros [_ <-].
  - intros d0 n0 n1 i0 x [H1 _]%HE [H2 _]%HE Hp1 Hp2 Hx%HD. by eapply (g_one _ _ HG).
  - destruct (g_rank _ _ HG) as (rk & Hrk). exists rk. intros d0 n0 i0 x [H0 _]%HE Hp Hx%HD. by eapply Hrk.
Qed.

(** ** A new directory *)

Lemma graph_add_dir E' d n i xd : N !! d = Some (true, xd) → xd ≠ 0 → xd + 1 ≠ 0 → (∀ i', ¬ E d n i') → proper n → N !! i = None →
  (∀ d0 n0 i0, E' d0 n0 i0 ↔ E d0 n0 i0 ∨ (d0 = d ∧ n0 = n ∧ i0 = i) ∨ (d0 = i ∧ n0 = DOT ∧ i0 = i) ∨ (d0 = i ∧ n0 = DOTDOT ∧ i0 = d)) →
  graph E' (<[d := (true, xd + 1)]> (<[i := (true, 1)]> N)).
Proof using HG.
  intros Hd Hxd Hxd1 Hno Hn Hi HE. assert (i ≠ d) as Hne by congruence.
  assert (∀ n0 i0, ¬ E i n0 i0) as Hsrc by (intros n0 i0 He; destruct (g_src _ _ HG _ _ _ He) as (x & ? & _); congruence).
  assert (∀ d0 n0, ¬ E d0 n0 i) as Htgt by (intros d0 n0 He; destruct (g_tgt _ _ HG _ _ _ He); congruence).
  assert (i ≠ ROOTINO) as Hir by (intros ->; destruct root_dir as (x & ? & _); congruence). set (N' := <[d := _]> _).
  assert (N' !! i = Some (true, 1)) as Ni by (unfold N'; by rewrite lookup_insert_ne, lookup_insert_eq).
  assert (N' !! d = Some (true, xd + 1)) as Nd by (unfold N'; by rewrite lookup_insert_eq).
  assert (∀ j, j ≠ i → j ≠ d → N' !! j = N !! j) as No by (intros j ? ?; unfold N'; by rewrite !lookup_insert_ne).
  assert (∀ j x, N !! j = Some (true, x) → x ≠ 0 → ∃ x', N' !! j = Some (true, x') ∧ x' ≠ 0) as Hup.
  { intros j x Hj H0. destruct (decide (j = d)) as [->|?]; [by exists (xd + 1)|]. exists x. rewrite No; [done|congruence|done]. }
  assert (∀ j x, N' !! j = Some (true, x) → j = i ∨ ∃ x', N !! j = Some (true, x')) as Hdown.
  { intros j x Hj. destruct (decide (j = i)); [by left|right]. destruct (decide (j = d)) as [->|?]; [by exists xd|]. exists x. by rewrite <- No. }
  split.
  - intros d0 n0 i0 [He|[(-> & _)|[(-> & _)|(-> & _)]]]%HE; [|by exists (xd + 1)|by exists 1|by exists 1]. destruct (g_src _ _ HG _ _ _ He) as (x & Hx & H0). by apply (Hup d0 x).
  - intros d0 n0 i1 i2 H1%HE H2%HE. destruct H1 as [H1|H1], H2 as [H2|H2]; [by eapply (g_fun _ _ HG)| | |].
    + destruct H2 as [(-> & -> & ->)|[(-> & -> & ->)|(-> & -> & ->)]]; exfalso; [by eapply Hno|by eapply Hsrc|by eapply Hsrc].
    + destruct H1 as [(-> & -> & ->)|[(-> & -> & ->)|(-> & -> & ->)]]; exfalso; [by eapply Hno|by eapply Hsrc|by eapply Hsrc].
    + naive_solver.
  - intros d0 x Hx H0. destruct (decide (d0 = i)) as [->|Hdi]; [split; [apply HE; tauto|exists d; apply HE; tauto]|].
    assert (∃ x', N !! d0 = Some (true, x') ∧ x' ≠ 0) as (x' & Hx' & H0').
    { destruct (decide (d0 = d)) as [->|?]; [by exists xd|]. exists x. by rewrite <- No. }
    destruct (g_dots _ _ HG d0 x' Hx' H0') as [? (p & ?)]. split; [apply HE; by left|exists p; apply HE; by left].
  - intros d0 n0 i0 [He|[(_ & _ & ->)|[(_ & _ & ->)|(_ & _ & ->)]]]%HE; [|by eexists..]. destruct (g_tgt _ _ HG _ _ _ He) as [z Hz].
    destruct (decide (i0 = d)) as [->|?]; [by eexists|]. rewrite No; [by eexists|congruence|done].
  - intros j b x Hj. destruct (decide (j = i)) as [->|Hji].
    + rewrite Ni in Hj. injection Hj as <- <-. exists {[(d, n)]}. split; [|by rewrite size_singleton]. intros d0 n0. rewrite elem_of_singleton, HE. destruct Hn. naive_solver.
    + destruct (decide (j = d)) as [->|Hjd].
      * rewrite Nd in Hj. injection Hj as <- <-. destruct (g_links _ _ HG d _ _ Hd) as (X & HX & ->). exists ({[(i, DOTDOT)]} ∪ X).
        split; [|apply links_add; intros [He _]%HX; by apply Hsrc in He]. intros d0 n0. rewrite elem_of_union, elem_of_singleton, HX, HE.
        split; [|naive_solver]. intros [[= -> ->]|[He ?]]; [split; [tauto|done]|by split; [left|]].
      * rewrite No in Hj by done. destruct (g_links _ _ HG j b x Hj) as (X & HX & ->). exists X. split; [|done]. intros d0 n0. rewrite HX, HE. naive_solver.
  - apply HE. left. apply (g_root _ _ HG).
  - intros d0 p [He|[(-> & E0 & ->)|[(-> & E0 & ->)|(-> & _ & ->)]]]%HE Hr; [|by destruct Hn|done|exists n; split; [done|apply HE; tauto]].
    destruct (g_up _ _ HG _ _ He Hr) as (n0 & Hp & He0). exists n0. split; [done|apply HE; by left].
  - intros d0 n0 i0 x He%HE Hp Hx. destruct He as [He|[(-> & -> & ->)|[(-> & -> & ->)|(-> & -> & ->)]]]; [|split; [apply HE; tauto|done]|by destruct Hp|by destruct Hp].
    destruct (Hdown i0 x Hx) as [->|(x' & Hx')]; [by apply Htgt in He|]. destruct (g_parent _ _ HG _ _ _ _ He Hp Hx'). split; [apply HE; by left|done].
  - intros d0 n0 n1 i0 x H1%HE H2%HE Hp1 Hp2 Hx. destruct Hp1, Hp2. destruct H1 as [H1|[(-> & -> & ->)|[(-> & -> & ->)|(-> & -> & ->)]]]; [| |done|done].
    + destruct H2 as [H2|[(-> & -> & ->)|[(-> & -> & ->)|(-> & -> & ->)]]]; [|by apply Htgt in H1|done|done].
      destruct (Hdown i0 x Hx) as [->|(x' & Hx')]; [by apply Htgt in H1|]. by eapply (g_one _ _ HG).
    + destruct H2 as [H2|[(_ & -> & _)|[(-> & -> & _)|(-> & -> & _)]]]; [by apply Htgt in H2|done..].
  - destruct (g_rank _ _ HG) as (rk & Hrk). exists (λ j, if decide (j = i) then S (rk d) else rk j). intros d0 n0 i0 x He%HE Hp Hx. destruct Hp.
    destruct He as [He|[(-> & -> & ->)|[(-> & -> & ->)|(-> & -> & ->)]]]; [|rewrite decide_False, decide_True by done; lia|done|done].
    destruct (Hdown i0 x Hx) as [->|(x' & Hx')]; [by apply Htgt in He|]. rewrite !decide_False; [by eapply Hrk| |]; intros ->; [by apply Htgt in He|by apply Hsrc in He].
Qed.

(** ** An empty directory is removed *)

(** It has one link. *)
Lemma empty_dir_links d n i y : E d n i → proper n → N !! i = Some (true, y) → (∀ n' i', E i n' i' → ¬ proper n') → y = 1 ∧ E i DOTDOT d ∧ i ≠ d ∧ i ≠ ROOTINO.
Proof using HG.
  intros He Hp Hi Hemp. destruct (g_parent _ _ HG _ _ _ _ He Hp Hi) as [Hup Hir]. destruct (g_rank _ _ HG) as (rk & Hrk).
  assert (i ≠ d) as Hne by (intros ->; pose proof (Hrk d n d y He Hp Hi); lia). split_and!; [|done|done|done].
  destruct (g_links _ _ HG i _ _ Hi) as (X & HX & ->). assert (X = {[(d, n)]}) as ->; [|by rewrite size_singleton]. apply set_eq. intros [d0 n0].
  rewrite HX, elem_of_singleton. split; [|intros [= -> ->]; split; [done|apply Hp]]. intros [H0 Hn0].
  destruct (decide (n0 = DOTDOT)) as [->|Hn1].
  - assert (d0 ≠ ROOTINO) as Hd0 by (intros ->; apply Hir; eapply (g_fun _ _ HG); [exact H0|apply (g_root _ _ HG)]).
    destruct (g_up _ _ HG _ _ H0 Hd0) as (n1 & Hp1 & H1). by apply Hemp in H1.
  - destruct (g_parent _ _ HG _ _ _ _ H0 (conj Hn0 Hn1) Hi) as [Hup' _]. assert (d0 = d) as -> by (by eapply (g_fun _ _ HG)).
    f_equal. by eapply (g_one _ _ HG).
Qed.

Lemma graph_del_dir E' d n i x y : E d n i → proper n → N !! i = Some (true, y) → N !! d = Some (true, x) → (∀ n' i', E i n' i' → ¬ proper n') →
  (∀ d0 n0 i0, E' d0 n0 i0 ↔ E d0 n0 i0 ∧ ¬ (d0 = d ∧ n0 = n) ∧ d0 ≠ i) → graph E' (<[i := (true, y - 1)]> (<[d := (true, x - 1)]> N)) ∧ x ≠ 1 ∧ y = 1.
Proof using HG.
  intros He Hp Hi Hd Hemp HE. destruct (empty_dir_links d n i y He Hp Hi Hemp) as (-> & Hup & Hne & Hir). destruct (g_links _ _ HG d _ _ Hd) as (X & HX & Ex).
  destruct (g_rank _ _ HG) as (rk & Hrk). change (1 - 1) with 0. set (N' := <[i := _]> _).
  assert ((i, DOTDOT) ∈ X) as HiX by (by apply HX). assert (x ≠ 1) as Hx1.
  { assert (∃ d0 n0, E d0 n0 d ∧ n0 ≠ DOT ∧ d0 ≠ i) as (d0 & n0 & H0 & Hn0 & Hd0).
    { destruct (decide (d = ROOTINO)) as [->|Hdr]; [exists ROOTINO, DOTDOT; split_and!; [apply (g_root _ _ HG)|done|done]|].
      destruct (g_src _ _ HG _ _ _ He) as (x0 & Hx0 & Hxn). destruct (g_dots _ _ HG d x0 Hx0 Hxn) as [_ (p & Hdd)]. destruct (g_up _ _ HG _ _ Hdd Hdr) as (n0 & Hp0 & H0).
      exists p, n0. split_and!; [done|apply Hp0|]. intros ->. by apply Hemp in H0. }
    intros H1. assert (size (X ∖ {[(i, DOTDOT)]}) = 0%nat) as Hs by (pose proof (links_del X _ HiX); lia).
    apply (elem_of_size_pos _ (d0, n0)) in Hs; [done|]. rewrite elem_of_difference, elem_of_singleton, HX. split; [done|]. by intros [= ->]. }
  assert (N' !! i = Some (true, 0)) as Ni by (unfold N'; by rewrite lookup_insert_eq).
  assert (N' !! d = Some (true, x - 1)) as Nd by (unfold N'; by rewrite lookup_insert_ne, lookup_insert_eq).
  assert (∀ j, j ≠ i → j ≠ d → N' !! j = N !! j) as No by (intros j ? ?; unfold N'; by rewrite !lookup_insert_ne).
  assert (∀ j z, N' !! j = Some (true, z) → ∃ z', N !! j = Some (true, z')) as Hdown.
  { intros j z Hj. destruct (decide (j = i)) as [->|?]; [by exists 1|]. destruct (decide (j = d)) as [->|?]; [by exists x|]. exists z. by rewrite <- No. }
  split_and!; [|done|done]. split.
  - intros d0 n0 i0 (H0 & _ & Hdi)%HE. destruct (g_src _ _ HG _ _ _ H0) as (z & Hz & Hz0). destruct (decide (d0 = d)) as [->|?]; [exists (x - 1); split; [done|lia]|].
    exists z. by rewrite No.
  - intros d0 n0 i1 i2 (H1 & _)%HE (H2 & _)%HE. by eapply (g_fun _ _ HG).
  - intros d0 z Hz Hz0. destruct (decide (d0 = i)) as [->|Hdi]; [rewrite Ni in Hz; by injection Hz as <-|].
    assert (∃ z', N !! d0 = Some (true, z') ∧ z' ≠ 0) as (z' & Hz' & Hz0').
    { destruct (decide (d0 = d)) as [->|?]; [|exists z; by rewrite <- No]. destruct (g_src _ _ HG _ _ _ He) as (x0 & ? & ?). by exists x0. }
    destruct (g_dots _ _ HG d0 z' Hz' Hz0') as [? (p & ?)]. destruct Hp.
    split; [apply HE; split_and!; [done|by intros [_ <-]|done]|exists p; apply HE; split_and!; [done|by intros [_ <-]|done]].
  - intros d0 n0 i0 (H0 & _)%HE. destruct (g_tgt _ _ HG _ _ _ H0) as [z Hz]. destruct (decide (i0 = i)) as [->|?]; [by eexists|].
    destruct (decide (i0 = d)) as [->|?]; [by eexists|]. rewrite No by done. by eexists.
  - intros j b z Hj. destruct (decide (j = i)) as [->|Hji].
    + rewrite Ni in Hj. injection Hj as <- <-. exists ∅. split; [|done]. intros d0 n0. rewrite HE. split; [by intros ?%elem_of_empty|]. intros [(H0 & Hdn & Hdi) Hn0]. exfalso.
      destruct (g_links _ _ HG i _ _ Hi) as (Y & HY & EY). assert (Y ∖ {[(d, n)]} = ∅) as Hemp2.
      { apply leibniz_equiv, size_empty_inv. pose proof (links_del Y (d, n) ltac:(apply HY; destruct Hp; done)). lia. }
      assert ((d0, n0) ∈ Y ∖ {[(d, n)]}) as Hin; [|by rewrite Hemp2 in Hin]. rewrite elem_of_difference, elem_of_singleton, HY. split; [done|]. intros [= -> ->]. by apply Hdn.
    + destruct (decide (j = d)) as [->|Hjd].
      * rewrite Nd in Hj. injection Hj as <- <-. exists (X ∖ {[(i, DOTDOT)]}). split; [|rewrite Ex; by apply links_del]. intros d0 n0.
        rewrite elem_of_difference, elem_of_singleton, HX, HE. split; [|naive_solver]. intros [[H0 Hn0] Hno]. split_and!; [done| | |done].
        -- intros [-> ->]. apply Hne. by eapply (g_fun _ _ HG).
        -- intros ->. apply Hno. destruct (decide (n0 = DOTDOT)) as [->|?]; [done|]. by destruct (Hemp _ _ H0).
      * rewrite No in Hj by done. destruct (g_links _ _ HG j b z Hj) as (Y & HY & ->). exists Y. split; [|done]. intros d0 n0. rewrite HY, HE. split; [|naive_solver].
        intros [H0 Hn0]. split_and!; [done| | |done].
        -- intros [-> ->]. apply Hji. by eapply (g_fun _ _ HG).
        -- intros ->. destruct (decide (n0 = DOTDOT)) as [->|?]; [apply Hjd; by eapply (g_fun _ _ HG)|]. by destruct (Hemp _ _ H0).
  - apply HE. split_and!; [apply (g_root _ _ HG)|destruct Hp; by intros [_ <-]|done].
  - intros d0 p (H0 & _ & Hdi)%HE Hr. destruct (g_up _ _ HG _ _ H0 Hr) as (n0 & Hp0 & H1). exists n0. split; [done|]. apply HE. split_and!; [done| |].
    + intros [-> ->]. apply Hdi. by eapply (g_fun _ _ HG).
    + intros ->. by apply Hemp in H1.
  - intros d0 n0 i0 z (H0 & Hdn & Hdi)%HE Hp0 Hz. destruct (Hdown i0 z Hz) as (z' & Hz'). destruct (g_parent _ _ HG _ _ _ _ H0 Hp0 Hz') as [H1 Hr]. split; [|done].
    destruct Hp. apply HE. split_and!; [done|by intros [_ <-]|]. intros ->. assert (d0 = d) as -> by (by eapply (g_fun _ _ HG)). apply Hdn. split; [done|].
    by eapply (g_one _ _ HG).
  - intros d0 n0 n1 i0 z (H1 & _)%HE (H2 & _)%HE Hp1 Hp2 Hz. destruct (Hdown i0 z Hz) as (z' & Hz'). by eapply (g_one _ _ HG).
  - exists rk. intros d0 n0 i0 z (H0 & _)%HE Hp0 Hz. destruct (Hdown i0 z Hz) as (z' & Hz'). by eapply Hrk.
Qed.

(** ** A file without links goes *)

Lemma graph_drop i b : N !! i = Some (b, 0) → graph E (delete i N).
Proof using HG.
  intros Hi. assert (∀ j z, delete i N !! j = Some z → N !! j = Some z) as Hdown by (intros j z [_ ?]%lookup_delete_Some; done).
  assert (∀ j z, N !! j = Some (true, z) → z ≠ 0 → delete i N !! j = Some (true, z)) as Hup.
  { intros j z Hj Hz. rewrite lookup_delete_ne; [done|]. intros <-. congruence. }
  destruct HG as [G1 G2 G3 G4 G5 G6 G7 G8 G9 [rk G10]]. split; try done.
  - intros d n j He. destruct (G1 _ _ _ He) as (z & Hz & H0). exists z. split; [by apply Hup|done].
  - intros d z Hz%Hdown. by apply G3.
  - intros d n j He. rewrite lookup_delete_ne; [by eapply G4|]. intros <-. by eapply unlinked_tgt.
  - intros j b' z Hz%Hdown. by eapply G5.
  - intros d n j z He Hp Hz%Hdown. by eapply G8.
  - intros d n n' j z H1 H2 Hp Hp' Hz%Hdown. by eapply G9.
  - exists rk. intros d n j z He Hp Hz%Hdown. by eapply G10.
Qed.
End graph.

(** * The tree of a map of files *)

Definition entry (m : gmap Z afile) (d : Z) (n : list Z) (i : Z) : Prop :=
  ∃ f, m !! d = Some f ∧ a_type f = T_DIR ∧ a_nlink f ≠ 0 ∧ dmap (a_data f) !! n = Some i.
Definition kind (f : afile) : bool * Z := (bool_decide (a_type f = T_DIR), a_nlink f).

Record tree (m : gmap Z afile) : Prop := {
  tr_dir : ∀ d f, m !! d = Some f → a_type f = T_DIR → a_nlink f ≠ 0 → is_dir f ∧ dnodup (a_data f) ∧ ∃ p, dots_at (a_data f) d p;
  tr_graph : graph (entry m) (kind <$> m) }.

Lemma kind_dir (m : gmap Z afile) d x : (kind <$> m) !! d = Some (true, x) ↔ ∃ f, m !! d = Some f ∧ a_type f = T_DIR ∧ a_nlink f = x.
Proof.
  rewrite lookup_fmap. destruct (m !! d) as [f|]; [|naive_solver]. cbn. unfold kind. split.
  - intros [= Hd%bool_decide_eq_true <-]. by exists f.
  - intros (? & [= <-] & Ht & <-). by rewrite bool_decide_eq_true_2.
Qed.

Lemma kind_file (m : gmap Z afile) i f : m !! i = Some f → a_type f ≠ T_DIR → (kind <$> m) !! i = Some (false, a_nlink f).
Proof. intros Hf Ht. rewrite lookup_fmap, Hf. cbn. unfold kind. by rewrite bool_decide_eq_false_2. Qed.

Lemma kind_is_dir f : a_type f = T_DIR → kind f = (true, a_nlink f).
Proof. intros Ht. unfold kind. by rewrite bool_decide_eq_true_2. Qed.
Lemma kind_is_file f : a_type f ≠ T_DIR → kind f = (false, a_nlink f).
Proof. intros Ht. unfold kind. by rewrite bool_decide_eq_false_2. Qed.

Lemma entry_linked m d n i : tree m → entry m d n i → linked m i.
Proof.
  intros [_ HG] He. destruct (tgt_linked _ _ HG d n i He) as (b & x & Hx & H0). rewrite lookup_fmap in Hx. destruct (m !! i) as [f|] eqn:Ef; [|done].
  injection Hx as _ <-. by exists f.
Qed.

(** Paths can be resolved. *)
Lemma tree_paths m : tree m → tree_ok (AFs m []).
Proof.
  intros Ht d f Hf Hd Hn. cbn [files] in *. destruct (tr_dir _ Ht d f Hf Hd Hn) as [Hdir _]. split; [done|]. intros n i Hi. eapply entry_linked; [done|]. by exists f.
Qed.

Lemma entry_insert m d f d0 n i : entry (<[d := f]> m) d0 n i ↔ if decide (d0 = d) then a_type f = T_DIR ∧ a_nlink f ≠ 0 ∧ dmap (a_data f) !! n = Some i else entry m d0 n i.
Proof.
  unfold entry. case_decide as E; [subst d0; rewrite lookup_insert_eq|by rewrite lookup_insert_ne]. naive_solver.
Qed.

(** Inserting a file that is not a directory does not change the entries. *)
Lemma entry_insert_file m i f d n j : a_type f ≠ T_DIR → (∀ g, m !! i = Some g → a_type g ≠ T_DIR) → entry (<[i := f]> m) d n j ↔ entry m d n j.
Proof.
  intros Ht Hold. rewrite entry_insert. case_decide as E; [|done]. subst d. split; [by intros [? _]|]. intros (g & Hg & Hgt & _). by apply Hold in Hg.
Qed.

Lemma dir_insert (m : gmap Z afile) i f : (∀ d f, m !! d = Some f → a_type f = T_DIR → a_nlink f ≠ 0 → is_dir f ∧ dnodup (a_data f) ∧ ∃ p, dots_at (a_data f) d p) →
  (a_type f = T_DIR → a_nlink f ≠ 0 → is_dir f ∧ dnodup (a_data f) ∧ ∃ p, dots_at (a_data f) i p) →
  ∀ d f', <[i := f]> m !! d = Some f' → a_type f' = T_DIR → a_nlink f' ≠ 0 → is_dir f' ∧ dnodup (a_data f') ∧ ∃ p, dots_at (a_data f') d p.
Proof. intros Hold Hnew d f' [[<- <-]|[_ Hf]]%lookup_insert_Some; [done|by apply Hold]. Qed.

(** The content of a file. *)
Lemma tree_data m i f l : tree m → m !! i = Some f → a_type f ≠ T_DIR → tree (<[i := set_data l f]> m).
Proof.
  intros [Hd HG] Hf Ht. split; [apply dir_insert; [done|]; intros ?; done|]. rewrite fmap_insert.
  assert (<[i := kind (set_data l f)]> (kind <$> m) = kind <$> m) as ->; [apply insert_id; by rewrite lookup_fmap, Hf|].
  eapply graph_ext; [done|]. intros d n j. apply entry_insert_file; [done|]. intros g Hg. congruence.
Qed.

Lemma tree_drop m i f : tree m → m !! i = Some f → a_nlink f = 0 → tree (delete i m).
Proof.
  intros [Hd HG] Hf H0. split; [intros d f' [_ Hf']%lookup_delete_Some; by apply Hd|]. rewrite fmap_delete.
  eapply graph_ext; [apply (graph_drop _ _ HG i (bool_decide (a_type f = T_DIR))); rewrite lookup_fmap, Hf; cbn; unfold kind; by rewrite H0|].
  intros d n j. unfold entry. split.
  - intros (g & [_ Hg]%lookup_delete_Some & Hr). by exists g.
  - intros (g & Hg & Ht & Hn & Hr). exists g. rewrite lookup_delete_ne; [done|]. intros ->. congruence.
Qed.

(** A directory whose map is extended by one entry, and one whose map loses an entry. *)
Lemma dir_dlink m d f name i : tree m → m !! d = Some f → a_type f = T_DIR → a_nlink f ≠ 0 → is_ushort i → i ≠ 0 → dlookup (a_data f) name = None →
  let f' := set_data (dlink (a_data f) name i) f in
  is_dir f' ∧ dnodup (a_data f') ∧ (∃ p, dots_at (a_data f') d p) ∧ dmap (a_data f') = <[cname name := i]> (dmap (a_data f)) ∧ proper (cname name).
Proof.
  intros [Hd _] Hf Ht Hn Hi Hi0 Hno f'. destruct (Hd d f Hf Ht Hn) as ([_ Hm] & Hnd & p & Hp). destruct (dmap_dlink _ name i Hm Hi Hi0 Hno) as (Em & Hm' & _).
  destruct (dots_map _ _ _ Hp Hnd) as [H1 H2]. apply dlookup_None in Hno as Hno'.
  split_and!; [by split|by apply dnodup_dlink|exists p; by apply dots_dlink|done|]. split; intros En; rewrite En in Hno'; congruence.
Qed.

Lemma dir_dclear m d f name j : tree m → m !! d = Some f → a_type f = T_DIR → a_nlink f ≠ 0 → dlookup (a_data f) name = Some j → proper (cname name) →
  let f' := set_data (dclear (a_data f) j) f in
  is_dir f' ∧ dnodup (a_data f') ∧ (∃ p, dots_at (a_data f') d p) ∧ dmap (a_data f') = delete (cname name) (dmap (a_data f)) ∧ (j < ndent (a_data f))%nat ∧
  entry m d (cname name) (de_inum (dent (a_data f) j)).
Proof.
  intros [Hd _] Hf Ht Hn Hj [Hp1 Hp2] f'. destruct (Hd d f Hf Ht Hn) as ([_ Hm] & Hnd & p & Hp). destruct (dlookup_slot _ _ _ Hj) as [Hlt Hs].
  destruct (dmap_clear _ j _ _ Hm Hlt Hnd Hs) as [Em Hnd']. destruct (ndent_clear _ j Hm Hlt) as (_ & Hm' & _).
  assert (2 ≤ j)%nat as H2.
  { destruct j as [|[|j]]; [exfalso; apply Hp1; destruct Hp as (_ & (_ & _ & <-) & _), Hs as (_ & _ & <-)|exfalso; apply Hp2; destruct Hp as (_ & _ & (_ & _ & <-)), Hs as (_ & _ & <-)|lia]; done. }
  split_and!; [by split|done|exists p; apply dots_clear; [done|lia|done]|done|done|]. exists f. split_and!; [done|done|done|by eapply dmap_slot].
Qed.

(** ** The operations on directories *)

Lemma tree_link m d f name i g : tree m → m !! d = Some f → a_type f = T_DIR → a_nlink f ≠ 0 → is_ushort i → i ≠ 0 → dlookup (a_data f) name = None → a_type g ≠ T_DIR →
  (∃ g0, m !! i = Some g0 ∧ a_type g0 ≠ T_DIR ∧ a_nlink g = a_nlink g0 + 1) ∨ m !! i = None ∧ a_nlink g = 1 →
  tree (<[d := set_data (dlink (a_data f) name i) f]> (<[i := g]> m)).
Proof.
  intros Htr Hf Ht Hn Hi Hi0 Hno Hg Hold. destruct (dir_dlink m d f name i Htr Hf Ht Hn Hi Hi0 Hno) as (D1 & D2 & D3 & Em & Hp). pose proof Htr as [Hd HG].
  assert (i ≠ d) as Hne by (intros ->; destruct Hold as [(g0 & ? & ? & _)|[? _]]; congruence). set (f' := set_data _ f) in *.
  split; [apply dir_insert; [apply dir_insert; [done|by intros ?]|by intros _ _]|]. rewrite !fmap_insert.
  assert (∀ g0, m !! i = Some g0 → a_type g0 ≠ T_DIR) as Hof by (intros g0 Hg0; destruct Hold as [(g1 & ? & ? & _)|[? _]]; congruence).
  assert (∃ y, kind g = (false, y + 1) ∧ ((kind <$> m) !! i = Some (false, y) ∨ (kind <$> m) !! i = None ∧ y = 0)) as (y & Eg & Hy).
  { rewrite (kind_is_file g Hg). destruct Hold as [(g0 & Hg0 & Hg0t & ->)|[Hg0 ->]]; [exists (a_nlink g0); split; [done|left; by apply kind_file]|].
    exists 0. split; [done|right]. by rewrite lookup_fmap, Hg0. }
  rewrite (insert_id (<[i := kind g]> (kind <$> m)) d) by (rewrite lookup_insert_ne, lookup_fmap, Hf by done; done). rewrite Eg.
  apply (graph_add_file _ _ HG _ d (cname name) i y); [|intros i' (f0 & Hf0 & _ & _ & Hl)| |done| |].
  - exists (a_nlink f). split; [|done]. rewrite lookup_fmap, Hf. cbn. by rewrite kind_is_dir.
  - simplify_eq. apply dlookup_None in Hno. congruence.
  - apply Hp.
  - intros d0 n0 i0. rewrite entry_insert. case_decide as E; [subst d0|].
    + rewrite Em, lookup_insert_Some. unfold entry. rewrite Hf. apply dlookup_None in Hno. naive_solver.
    + rewrite entry_insert_file by done. naive_solver.
  - apply Hp.
Qed.

Lemma tree_mkdir m d f name i ma mi : tree m → m !! d = Some f → a_type f = T_DIR → 0 < a_nlink f → is_ushort d → d ≠ 0 → is_ushort i → i ≠ 0 → dlookup (a_data f) name = None → m !! i = None →
  tree (<[d := set_data (dlink (a_data f) name i) (set_links (a_nlink f + 1) f)]> (<[i := AFile T_DIR ma mi 1 (new_dir i d)]> m)).
Proof.
  intros Htr Hf Ht Hn Hd Hd0 Hi Hi0 Hno Hnew. destruct (dir_dlink m d f name i Htr Hf Ht ltac:(lia) Hi Hi0 Hno) as ([_ D1] & D2 & D3 & Em & Hp). pose proof Htr as [Hdir HG].
  assert (i ≠ d) as Hne by congruence. set (f' := set_data _ _). destruct (new_dir_spec i d Hi Hi0 Hd Hd0) as (_ & _ & _ & Hlen & Hnd & Hdots & Edm).
  split.
  { apply dir_insert; [apply dir_insert; [done|]|]; intros _ _.
    - split_and!; [split; [done|cbn [a_data]; by rewrite Hlen]|done|by exists d].
    - split_and!; [by split|done|done]. }
  rewrite !fmap_insert. rewrite (kind_is_dir f' Ht). apply (graph_add_dir _ _ HG _ d (cname name) i (a_nlink f)); [|lia|lia| |done| |].
  - rewrite lookup_fmap, Hf. cbn. by rewrite kind_is_dir.
  - intros i' (f0 & Hf0 & _ & _ & Hl). simplify_eq. apply dlookup_None in Hno. congruence.
  - by rewrite lookup_fmap, Hnew.
  - intros d0 n0 i0. rewrite entry_insert. apply dlookup_None in Hno. assert (∀ n i0, ¬ entry m i n i0) as Hni by (intros n1 i1 (f0 & Hf0 & _); congruence).
    destruct (decide (d0 = d)) as [->|E]; [cbn [a_type a_nlink a_data f' set_data set_links]|rewrite entry_insert; destruct (decide (d0 = i)) as [->|E']; [cbn [a_type a_nlink a_data]|]].
    + change (dmap (dlink (a_data f) name i) = <[cname name := i]> (dmap (a_data f))) in Em. rewrite Em, lookup_insert_Some. unfold entry. rewrite Hf.
      assert (a_nlink f + 1 ≠ 0) by lia. assert (a_nlink f ≠ 0) by lia. naive_solver.
    + rewrite Edm, lookup_insert_Some, lookup_singleton_Some. assert (DOT ≠ DOTDOT) by done. naive_solver.
    + naive_solver.
Qed.

Lemma tree_unlink m d f name j g : tree m → m !! d = Some f → a_type f = T_DIR → a_nlink f ≠ 0 → dlookup (a_data f) name = Some j → proper (cname name) →
  let i := de_inum (dent (a_data f) j) in m !! i = Some g → a_type g ≠ T_DIR →
  tree (<[i := set_links (a_nlink g - 1) g]> (<[d := set_data (dclear (a_data f) j) f]> m)).
Proof.
  intros Htr Hf Ht Hn Hj Hp i Hg Hgt. destruct (dir_dclear m d f name j Htr Hf Ht Hn Hj Hp) as (D1 & D2 & D3 & Em & Hlt & He). fold i in He. pose proof Htr as [Hd HG].
  assert (i ≠ d) as Hne by congruence. set (f' := set_data _ f) in *. split; [apply dir_insert; [apply dir_insert; [done|by intros _ _]|by intros ?]|]. rewrite !fmap_insert.
  rewrite (insert_id (kind <$> m) d) by (rewrite lookup_fmap, Hf; done). rewrite (kind_is_file (set_links _ g)) by done.
  apply (graph_del_file _ _ HG _ d (cname name) i (a_nlink g)); [done|done|by apply kind_file|].
  intros d0 n0 i0. rewrite entry_insert_file; [|done|]. 2:{ intros g0. rewrite lookup_insert_ne by done. intros ?. congruence. }
  rewrite entry_insert. case_decide as E; [subst d0|naive_solver]. rewrite Em, lookup_delete_Some. unfold entry. rewrite Hf. naive_solver.
Qed.

Lemma tree_rmdir m d f name j g : tree m → m !! d = Some f → a_type f = T_DIR → a_nlink f ≠ 0 → dlookup (a_data f) name = Some j → proper (cname name) →
  let i := de_inum (dent (a_data f) j) in m !! i = Some g → a_type g = T_DIR → dempty (a_data g) = true →
  a_nlink g = 1 ∧ i ≠ d ∧ i ≠ ROOTINO ∧ 1 < a_nlink f ∧
  tree (<[i := set_links (a_nlink g - 1) g]> (<[d := set_links (a_nlink f - 1) (set_data (dclear (a_data f) j) f)]> m)).
Proof.
  intros Htr Hf Ht Hn Hj Hp i Hg Hgt Hem. destruct (dir_dclear m d f name j Htr Hf Ht Hn Hj Hp) as ([_ D1] & D2 & D3 & Em & Hlt & He). fold i in He. pose proof Htr as [Hd HG].
  assert ((kind <$> m) !! i = Some (true, a_nlink g)) as Ki by (apply kind_dir; by exists g). assert ((kind <$> m) !! d = Some (true, a_nlink f)) as Kd by (apply kind_dir; by exists f).
  destruct (entry_linked m d _ i Htr He) as (g0 & Hg0 & Hgn). simplify_eq. destruct (Hd i g Hg Hgt Hgn) as (_ & Hgd & p & Hgp).
  assert (∀ n' i', entry m i n' i' → ¬ proper n') as Hemp.
  { intros n' i' (g0 & Hg0' & _ & _ & Hl). simplify_eq. by apply (proj1 (dempty_spec _ _ _ Hgp Hgd) Hem _ _ Hl). }
  destruct (empty_dir_links _ _ HG d _ i _ He Hp Ki Hemp) as (Hg1 & _ & Hne & Hir).
  set (m' := <[i := _]> _). destruct (graph_del_dir _ _ HG (entry m') d (cname name) i (a_nlink f) (a_nlink g) He Hp Ki Kd Hemp) as (HG' & Hf1 & _).
  { intros d0 n0 i0. unfold m'. rewrite entry_insert. destruct (decide (d0 = i)) as [->|E]; [cbn [set_links a_nlink]; rewrite Hg1; naive_solver|].
    rewrite entry_insert. destruct (decide (d0 = d)) as [->|E']; [|naive_solver]. cbn [set_links set_data a_type a_nlink a_data]. change (a_data (set_data (dclear (a_data f) j) f)) with (dclear (a_data f) j) in Em.
    rewrite Em, lookup_delete_Some. unfold entry at 1. rewrite Hf.
    assert (a_nlink f - 1 ≠ 0) as Hf1; [|naive_solver]. intros H0. assert (a_nlink f = 1) as Hf1 by lia.
    destruct (graph_del_dir _ _ HG (λ d0 n0 i0, entry m d0 n0 i0 ∧ ¬ (d0 = d ∧ n0 = cname name) ∧ d0 ≠ i) d (cname name) i (a_nlink f) (a_nlink g) He Hp Ki Kd Hemp) as (_ & ? & _); done. }
  assert (1 < a_nlink f) as Hfgt. { destruct (g_links _ _ HG d _ _ Kd) as (X & _ & EX). lia. }
  split_and!; [done|done|done|done|]. split.
  { apply dir_insert; [apply dir_insert; [done|]|]; cbn [set_links a_nlink]; intros _ ?; [|lia]. by split_and!; [split|..]. }
  unfold m'. rewrite !fmap_insert. rewrite (kind_is_dir (set_links _ g)), (kind_is_dir (set_links _ (set_data _ f))) by done. done.
Qed.
