(* ===== verification/Txn.v ===== *)
(** Rules for the operations on inodes and directories inside a transaction (src/p4/fs.c, src/p4/sysfile.c).

    [txn c g ic P L m n b]: a transaction is open; the state implements the files [m], with the pointers [P] (cache entry and inode number) held
    and the entries [L] locked; [n] more blocks can be logged and [b] are free.  The order of [P] does not matter.  Each operation
    has a rule from such a state to another; the system calls are compositions of them. *)

From Stdlib Require Import ZArith Lia.
From stdpp Require Import base numbers list gmap fin_sets sets strings.
From S2P Require Import Prelude CStr Bio Log LogCrash Fs FsSpec FsTrunc File FileThm FsCk Icache IcacheSpec IcacheOps IcacheThm Dir DirSpec DirOps Sysfile Tree.
#[local] Open Scope Z_scope.

#[export] Instance afile_eq_dec : EqDecision afile.
Proof. solve_decision. Defined.

Section txn.
Context {C : Type} `{BL : BufLaws C cview} (g0 : log) (HL : layout g0) (Hid : idle g0) (Hlsz : 28 <= lsize g0) (sb : superblock) (FL : fs_layout g0 sb).
Context (dr : Z → option (C → log → inode → Z → outcome (Z * list Z * inode * C * log))).
Context (dw : Z → option (C → log → inode → list Z → outcome (Z * inode * C * log))).
Abbreviation sees := (sees (cview := cview) g0).
Abbreviation at_rest := (at_rest (cview := cview)).
Abbreviation free := (free_blocks g0 sb).
Abbreviation g1 := (File.g1 g0).
Abbreviation ptrs := (list (nat * Z)).

(** The disk and the cache implement [m] with the pointers [P]. *)
Definition holds (v : disk_map) (ic : icache) (P : ptrs) (L : gset nat) (m : gmap Z afile) : Prop := implements g0 sb v ic P.*1 L (AFs m P.*2).

Definition txn (c : C) (g : log) (ic : icache) (P : ptrs) (L : gset nat) (m : gmap Z afile) (n b : nat) : Prop :=
  ∃ v bl, sees c g v ∅ ∧ holds v ic P L m ∧ (b ≤ size (free v))%nat ∧ g = logs g1 bl ∧ (length bl + n ≤ 25)%nat.

(** Between calls. *)
Definition rest (c : C) (ic : icache) (P : ptrs) (m : gmap Z afile) (b : nat) : Prop :=
  ∃ v, at_rest c v ∧ holds v ic P ∅ m ∧ (b ≤ size (free v))%nat.

(** ** Pointers *)

Lemma fmap_fst_inv (P : ptrs) h k : P.*1 !! h = Some k → ∃ i, P !! h = Some (k, i).
Proof. rewrite list_lookup_fmap. destruct (P !! h) as [[k' i]|]; [|done]. intros [= <-]. by exists i. Qed.

Lemma ptr_fst (P : ptrs) k i : (k, i) ∈ P → k ∈ P.*1.
Proof. intros Hin. apply list_elem_of_fmap. by exists (k, i). Qed.

Lemma ptr_snd (P : ptrs) k i : (k, i) ∈ P → i ∈ P.*2.
Proof. intros Hin. apply list_elem_of_fmap. by exists (k, i). Qed.

Lemma names_ptrs ic P : names ic P.*1 P.*2 ↔ ∀ k i, (k, i) ∈ P → ∃ ip, ic !! k = Some ip ∧ inum ip = i.
Proof.
  unfold names. induction P as [|[k i] P IH]; [split; [by intros _ k i ?%not_elem_of_nil|constructor]|]. cbn [fmap list_fmap fst snd]. rewrite Forall2_cons, IH. split.
  - intros [H1 H2] k' i' [[= -> ->]|Hin]%elem_of_cons; [done|by apply H2].
  - intros Hall. split; [apply Hall, elem_of_cons; by left|]. intros k' i' Hin. apply Hall, elem_of_cons. by right.
Qed.

Lemma holds_perm v ic P P' L m : holds v ic P L m → P ≡ₚ P' → holds v ic P' L m.
Proof.
  intros [Hck Hsh Hc Hn Ho] HP. assert (P.*1 ≡ₚ P'.*1) as H1 by (by rewrite HP). assert (∀ k, k ∈ P'.*1 ↔ k ∈ P.*1) as Hin by (intros k; by rewrite H1).
  split; [done|done| | |].
  - destruct Hc as [C1 C2 C3 C4 C5 C6]. split; [done|intros k ip; rewrite <- H1; apply C2|intros k; rewrite Hin; apply C3|intros k ip Hk; rewrite Hin; by apply C4|
      intros k k' ip ip' Hk Hk'; rewrite !Hin; by apply C5|intros k; rewrite Hin; apply C6].
  - apply names_ptrs. intros k i. rewrite <- HP. by apply (names_ptrs ic P).
  - intros i Hl H0. destruct (Ho i Hl H0) as (k & ip & Hk & Hr). exists k, ip. by rewrite Hin.
Qed.

(** Two pointers to one inode are to one entry. *)
Lemma holds_inj v ic P L m k i k' i' : holds v ic P L m → (k, i) ∈ P → (k', i') ∈ P → k = k' ↔ i = i'.
Proof.
  intros [_ _ Hc Hn _] Hk Hk'. pose proof (proj1 (names_ptrs ic P) Hn) as Hnm. destruct (Hnm k i Hk) as (ip & Hip & <-), (Hnm k' i' Hk') as (ip' & Hip' & <-).
  split; [intros <-; congruence|]. intros E. eapply (co_uniq _ _ _ _ _ _ Hc); [done|done|by eapply ptr_fst|by eapply ptr_fst|done].
Qed.

Lemma holds_live v ic P L m k i : holds v ic P L m → (k, i) ∈ P → is_Some (m !! i).
Proof.
  intros [_ Hsh Hc Hn _] Hk. destruct (proj1 (names_ptrs ic P) Hn k i Hk) as (ip & Hip & <-).
  pose proof (en_live _ _ _ _ (co_entry _ _ _ _ _ _ Hc k ip Hip ltac:(by eapply ptr_fst))) as Hl.
  pose proof (Hsh (inum ip)) as E. cbn [files] in E. rewrite E, decide_True by done. by eexists.
Qed.

Lemma txn_perm c g ic P P' L m n b : txn c g ic P L m n b → P ≡ₚ P' → txn c g ic P' L m n b.
Proof. intros (v & bl & Hs & Hh & Hr) HP. exists v, bl. split_and!; try apply Hr; [done|by eapply holds_perm]. Qed.

Lemma txn_weaken c g ic P L m n b n' b' : txn c g ic P L m n b → (n' ≤ n)%nat → (b' ≤ b)%nat → txn c g ic P L m n' b'.
Proof. intros (v & bl & Hs & Hh & Hb & E & Hr) Hn Hb'. exists v, bl. split_and!; [done|done|lia|done|lia]. Qed.

Lemma txn_inj c g ic P L m n b k i k' i' : txn c g ic P L m n b → (k, i) ∈ P → (k', i') ∈ P → k = k' ↔ i = i'.
Proof. intros (v & bl & Hs & Hh & _). by eapply holds_inj. Qed.

Lemma txn_live c g ic P L m n b k i : txn c g ic P L m n b → (k, i) ∈ P → is_Some (m !! i).
Proof. intros (v & bl & Hs & Hh & _). by eapply holds_live. Qed.

Lemma txn_room bl n k : (length bl + n ≤ 25)%nat → (k ≤ n + 2)%nat → room g0 (logs g1 bl) k.
Proof using Hid Hlsz.
  intros Hn Hk. apply room_logs. destruct Hid as (_ & _ & Hlh). unfold room. cbn [File.g1 set_outstanding lh outstanding]. rewrite Hlh. cbn [length]. lia.
Qed.

(** ** The start and the end *)

Lemma txn_start c ic P m b : rest c ic P m b → start_op g0 = Ok g1 ∧ txn c g1 ic P ∅ m 25 b.
Proof using BL Hid.
  intros (v & Hr & Hh & Hb). destruct (start_sees g0 Hid c v Hr) as [E Hs]. split; [done|]. exists v, []. by rewrite logs_nil.
Qed.

Lemma txn_end c g ic P m n b : txn c g ic P ∅ m n b → ∃ c', end_op c g = Ok (c', g0) ∧ rest c' ic P m b.
Proof using BL HL Hid Hlsz FL.
  intros (v & bl & Hs & Hh & Hb & -> & Hn). destruct (finish g0 HL Hid sb FL c v bl ic _ _ _ Hs ltac:(lia) ltac:(lia) Hh) as (c' & v' & E & Hr & Him & Hfr).
  exists c'. split; [done|]. exists v'. by rewrite Hfr.
Qed.

(** ** References *)

(** The number of inodes held. *)
Definition held (P : ptrs) : nat := size (list_to_set P.*2 : gset Z).

Lemma held_perm P P' : P ≡ₚ P' → held P = held P'.
Proof. intros HP. unfold held. by rewrite HP. Qed.

Lemma held_cons p P : (held (p :: P) ≤ held P + 1)%nat.
Proof. rewrite (held_perm _ (P ++ [p])) by (by rewrite <- Permutation_cons_append). unfold held. rewrite fmap_app. apply size_held. Qed.

Lemma held_in k i P : i ∈ P.*2 → held ((k, i) :: P) = held P.
Proof. intros Hi. unfold held. f_equal. apply set_eq. intros x. rewrite !elem_of_list_to_set. cbn. rewrite elem_of_cons. split; [by intros [-> |?]|by right]. Qed.

Lemma holds_snoc v ic P k i L m : implements g0 sb v ic (P.*1 ++ [k]) L (AFs m (P.*2 ++ [i])) → holds v ic ((k, i) :: P) L m.
Proof.
  intros Him. apply (holds_perm v ic (P ++ [(k, i)])); [|by rewrite <- Permutation_cons_append]. unfold holds. by rewrite !fmap_app.
Qed.

Lemma r_iget c g ic P L m n b i : txn c g ic P L m n b → is_Some (m !! i) → i ∈ P.*2 ∨ (held P < NINODE)%nat →
  ∃ k ic', iget ic (dev g0) i = Ok (k, ic') ∧ txn c g ic' ((k, i) :: P) L m n b.
Proof.
  intros (v & bl & Hs & Hh & Hr) Hi Hca. destruct (implements_iget g0 sb v ic _ L _ i Hh Hi Hca) as (k & ip & E & Him & _).
  eexists k, _. split; [done|]. exists v, bl. split_and!; try apply Hr; [done|]. by apply holds_snoc.
Qed.

Lemma r_idup c g ic P L m n b k i : txn c g ic P L m n b → (k, i) ∈ P → ∃ ic', idup ic k = Ok ic' ∧ txn c g ic' ((k, i) :: P) L m n b.
Proof.
  intros (v & bl & Hs & Hh & Hr) [h Hi]%list_elem_of_lookup.
  destruct (implements_idup g0 sb v ic _ L _ h k i Hh) as (ip & E & Him); [by rewrite list_lookup_fmap, Hi|cbn [handles]; by rewrite list_lookup_fmap, Hi|].
  eexists. split; [done|]. exists v, bl. split_and!; try apply Hr; [done|]. by apply holds_snoc.
Qed.

(** The files after a pointer to [i] is dropped and pointers to the inodes [l] are left. *)
Definition dropped (l : list Z) (i : Z) (m : gmap Z afile) : gmap Z afile :=
  match m !! i with
  | Some f => if decide ((i ∉ l) ∧ a_nlink f = 0) then delete i m else m
  | None => m
  end.

Lemma dropped_linked l i m : linked m i → dropped l i m = m.
Proof. intros (f & Hf & Hn). unfold dropped. rewrite Hf, decide_False; [done|]. by intros [_ ?]. Qed.
Lemma dropped_held l i m : i ∈ l → dropped l i m = m.
Proof. intros Hi. unfold dropped. destruct (m !! i); [|done]. rewrite decide_False; [done|]. by intros [? _]. Qed.

Lemma drop_first P k i m f : m !! i = Some f → drop_handle 0 (AFs m ((k, i) :: P : ptrs).*2) = AFs (dropped P.*2 i m) P.*2.
Proof. intros Hf. unfold drop_handle, the_file, dropped. cbn. rewrite Hf. cbn. done. Qed.

(** [n] blocks are kept if the file stays. *)
Lemma r_iput c g ic P L m n b k i : txn c g ic ((k, i) :: P) L m n b → k ∉ L → (1 ≤ n)%nat → dropped P.*2 i m = m ∨ (3 ≤ n)%nat →
  ∃ c' g' ic' n', iput sb c g ic k = Ok (c', g', ic') ∧ txn c' g' ic' P L (dropped P.*2 i m) n' b ∧ (n - 3 ≤ n')%nat ∧ (dropped P.*2 i m = m → n' = n).
Proof using BL HL Hid Hlsz FL.
  intros (v & bl & Hs & Hh & Hb & -> & Hn) HkL Hn1 Hn3. destruct (holds_live _ _ _ _ _ k i Hh ltac:(apply elem_of_cons; by left)) as [f Hf].
  destruct (implements_iput g0 HL sb FL c _ v ic _ L _ 0 k Hs Hh eq_refl HkL) as (c' & v' & bl' & ic' & E & Hbl & Hs' & Him & Hsame & _ & Hfr); [eapply txn_room; [done|lia]|].
  rewrite (drop_first P k i m f Hf) in Him, Hsame. cbn [files] in Hsame. cbn in Him. rewrite logs_app in *. destruct (decide (dropped P.*2 i m = m)) as [Ed|Ed].
  - destruct (Hsame Ed) as [-> ->]. rewrite app_nil_r in *. eexists c', _, ic', n. split_and!; [done| |lia|done]. exists v, bl. split_and!; [done|done|lia|done|done].
  - destruct Hn3 as [?|Hn3]; [done|]. eexists c', _, ic', (n - 3)%nat. split_and!; [done| |lia|done].
    exists v', (bl ++ bl'). split_and!; [done|done|lia|done|]. rewrite length_app. lia.
Qed.

(** A file that stays. *)
Lemma r_iput_keep c g ic P L m n b k i : txn c g ic ((k, i) :: P) L m n b → k ∉ L → (1 ≤ n)%nat → i ∈ P.*2 ∨ linked m i →
  ∃ c' g' ic', iput sb c g ic k = Ok (c', g', ic') ∧ txn c' g' ic' P L m n b.
Proof using BL HL Hid Hlsz FL.
  intros Ht HkL Hn Hst. assert (dropped P.*2 i m = m) as Ed by (destruct Hst; [by apply dropped_held|by apply dropped_linked]).
  destruct (r_iput c g ic P L m n b k i Ht HkL Hn) as (c' & g' & ic' & n' & E & Ht' & _ & En); [by left|]. rewrite En, Ed in Ht' by done. by exists c', g', ic'.
Qed.

(** ** Locks *)

Lemma r_ilock c g ic P L m n b k i : txn c g ic P L m n b → (k, i) ∈ P → k ∉ L →
  ∃ c' ic', ilock_at sb c ic k = Ok (c', ic') ∧ txn c' g ic' P ({[k]} ∪ L) m n b.
Proof using BL HL Hid Hlsz FL.
  intros (v & bl & Hs & Hh & Hb & -> & Hn) Hk HkL.
  destruct (implements_ilock g0 HL sb FL c _ v ic _ L _ k Hs Hh) as (ip & ip1 & c' & _ & E & Hs' & Him & _); [by eapply ptr_fst|done|eapply txn_room; [done|lia]|].
  eexists c', _. split; [done|]. exists v, bl. by split_and!.
Qed.

Lemma r_iunlock c g ic P L m n b k : txn c g ic P L m n b → k ∈ L → ∃ ic', iunlock_at ic k = Ok ic' ∧ txn c g ic' P (L ∖ {[k]}) m n b.
Proof.
  intros (v & bl & Hs & Hh & Hr) Hk. destruct (implements_iunlock g0 sb v ic _ L _ k Hh Hk) as (ip & _ & E & Him). eexists. split; [done|].
  exists v, bl. split_and!; try apply Hr; done.
Qed.

Lemma r_iunlockput c g ic P L m n b k i : txn c g ic ((k, i) :: P) L m n b → k ∈ L → (1 ≤ n)%nat → dropped P.*2 i m = m ∨ (3 ≤ n)%nat →
  ∃ c' g' ic' n', iunlockput sb c g ic k = Ok (c', g', ic') ∧ txn c' g' ic' P (L ∖ {[k]}) (dropped P.*2 i m) n' b ∧ (n - 3 ≤ n')%nat ∧ (dropped P.*2 i m = m → n' = n).
Proof using BL HL Hid Hlsz FL.
  intros Ht Hk Hn Hd. destruct (r_iunlock _ _ _ _ _ _ _ _ k Ht Hk) as (ic1 & E1 & Ht1). unfold iunlockput. rewrite E1, bind_Ok. eapply r_iput; [done|by apply lock_remove|done|done].
Qed.

Lemma r_iunlockput_keep c g ic P L m n b k i : txn c g ic ((k, i) :: P) L m n b → k ∈ L → (1 ≤ n)%nat → i ∈ P.*2 ∨ linked m i →
  ∃ c' g' ic', iunlockput sb c g ic k = Ok (c', g', ic') ∧ txn c' g' ic' P (L ∖ {[k]}) m n b.
Proof using BL HL Hid Hlsz FL.
  intros Ht Hk Hn Hst. destruct (r_iunlock _ _ _ _ _ _ _ _ k Ht Hk) as (ic1 & E1 & Ht1). unfold iunlockput. rewrite E1, bind_Ok.
  eapply r_iput_keep; [done|by apply lock_remove|done|done].
Qed.

(** ** The content of inodes *)

Lemma holds_locked v ic P L m k i : holds v ic P L m → (k, i) ∈ P → k ∈ L → ∃ ip f, locked_file g0 sb v ic P.*1 (AFs m P.*2) k ip f ∧ inum ip = i ∧ m !! i = Some f.
Proof.
  intros Hh Hk HkL. destruct (locked_get g0 sb v ic _ L _ k Hh HkL) as (ip & f & Hlf). pose proof (lf_entry _ _ _ _ _ _ _ _ _ Hlf) as Hip.
  destruct (proj1 (names_ptrs ic P) (im_names _ _ _ _ _ _ _ Hh) k i Hk) as (ip' & Hip' & Ei). simplify_eq. exists ip, f. split_and!; [done|done|apply (lf_file _ _ _ _ _ _ _ _ _ Hlf)].
Qed.

Lemma r_locked c g ic P L m n b k i : txn c g ic P L m n b → (k, i) ∈ P → k ∈ L →
  ∃ ip f, deref ic k = Ok ip ∧ m !! i = Some f ∧ itype ip = a_type f ∧ nlink ip = a_nlink f ∧ inum ip = i ∧ i_dev ip = dev g0.
Proof.
  intros (v & bl & Hs & Hh & Hr) Hk HkL. destruct (holds_locked v ic P L m k i Hh Hk HkL) as (ip & f & [Hip _ _ Hd _ _ _ ->] & Ei & Hf). eexists ip, _.
  unfold deref. rewrite Hip. by split_and!.
Qed.

Lemma r_known c g ic P L m n b k i : txn c g ic P L m n b → (k, i) ∈ P → ∃ ip, deref ic k = Ok ip ∧ inum ip = i ∧ i_dev ip = dev g0.
Proof.
  intros (v & bl & Hs & Hh & Hr) Hk. destruct (proj1 (names_ptrs ic P) (im_names _ _ _ _ _ _ _ Hh) k i Hk) as (ip & Hip & Ei).
  pose proof (co_entry _ _ _ _ _ _ (im_coh _ _ _ _ _ _ _ Hh) k ip Hip ltac:(by eapply ptr_fst)) as [Hd _ _]. exists ip. unfold deref. by rewrite Hip.
Qed.

(** New metadata for a locked inode. *)
Lemma r_iupdate c g ic P L m n b k i ip f ma mi nl : txn c g ic P L m (S n) b → (k, i) ∈ P → k ∈ L → deref ic k = Ok ip → m !! i = Some f →
  is_short ma → is_short mi → is_short nl → let ip' := set_nlink nl (set_devno ma mi ip) in
  ∃ c' g', iupdate sb c g ip' = Ok (c', g') ∧ txn c' g' (<[k := ip']> ic) P L (<[i := AFile (a_type f) ma mi nl (a_data f)]> m) n b.
Proof using BL HL Hid Hlsz FL.
  intros (v & bl & Hs & Hh & Hb & -> & Hn) Hk HkL Ed Hf Hma Hmi Hnl ip'. destruct (holds_locked v ic P L m k i Hh Hk HkL) as (ip0 & f0 & Hlf & Ei & Hf0). simplify_eq.
  pose proof Hlf as [Hip Hkh Hv Hd Hl Hbd _ Ef]. unfold deref in Ed. rewrite Hip in Ed. injection Ed as ->. pose proof (im_ck _ _ _ _ _ _ _ Hh) as Hck.
  destruct (gf_short _ _ _ _ (ck_file _ _ _ Hck _ Hl)) as (T1 & _). pose proof Hl as [_ Ht]. rewrite <- Hbd in T1, Ht. cbn in T1, Ht.
  destruct (update_metadata g0 HL sb FL c (logs g1 bl) v ip' Hs Hck Hl Hd) as (c' & v' & E & Hs' & Hst & Edin & Hl' & Ec & Efr);
    [cbn [inum ip' set_nlink set_devno]; by rewrite <- Hbd|cbn [inum ip' set_nlink set_devno]; by rewrite <- Hbd|done|done|done|done|done|eapply txn_room; [done|lia]|].
  eexists c', _. split; [exact E|]. rewrite logs_app. eexists v', (bl ++ [_]). rewrite logs_app in Hs'. split_and!; [exact Hs'| |by rewrite Efr|done|rewrite length_app; cbn; lia].
  destruct (co_ref _ _ _ _ _ _ (im_coh _ _ _ _ _ _ _ Hh) k ip Hip) as [_ El].
  pose proof (implements_update g0 sb v v' ic P.*1 L L (AFs m P.*2) k ip ip' (AFile (a_type f) ma mi nl (a_data f))) as Hu.
  cbn [files handles] in Hu. apply Hu; try done. rewrite Ef. unfold afile_of. cbn [a_type a_data ip' set_nlink set_devno itype major minor nlink]. f_equal.
  transitivity (fcontent g0 v' ip'); [done|]. rewrite Ec. cbn [inum ip' set_nlink set_devno]. by rewrite <- Hbd.
Qed.

Lemma r_add_nlink c g ic P L m n b k i f d : txn c g ic P L m (S n) b → (k, i) ∈ P → k ∈ L → m !! i = Some f → is_short (a_nlink f + d) →
  ∃ c' g' ic', add_nlink sb c g ic k d = Ok (c', g', ic') ∧ txn c' g' ic' P L (<[i := set_links (a_nlink f + d) f]> m) n b.
Proof using BL HL Hid Hlsz FL.
  intros Ht Hk HkL Hf Hs. destruct (r_locked _ _ _ _ _ _ _ _ k i Ht Hk HkL) as (ip & f0 & Ed & Hf0 & _ & En & _ & _). simplify_eq.
  assert (is_short (a_major f) ∧ is_short (a_minor f) ∧ a_major f = major ip ∧ a_minor f = minor ip) as (Hma & Hmi & Ema & Emi).
  { destruct Ht as (v & bl & _ & Hh & _). destruct (holds_locked v ic P L m k i Hh Hk HkL) as (ip0 & f0 & Hlf & Ei & Hf1). simplify_eq.
    destruct (locked_good g0 sb v ic _ L _ k ip0 f Hh Hlf) as ([_ _ (_ & ? & ? & _)] & _). pose proof Hlf as [Hip _ _ _ _ _ _ ->].
    unfold deref in Ed. rewrite Hip in Ed. injection Ed as ->. done. }
  destruct (r_iupdate c g ic P L m n b k i ip f (a_major f) (a_minor f) (a_nlink f + d) Ht Hk HkL Ed Hf Hma Hmi Hs) as (c' & g' & E & Ht').
  unfold add_nlink. rewrite Ed, bind_Ok, En, s16_small by done. cbn zeta. replace (set_nlink (a_nlink f + d) ip) with (set_nlink (a_nlink f + d) (set_devno (a_major f) (a_minor f) ip)).
  - rewrite E, bind_Ok. eexists c', g', _. split; [done|]. by destruct f.
  - rewrite Ema, Emi. by destruct ip.
Qed.

(** A new file, locked. *)
Lemma r_create c g ic P L m n b type maj min i : txn c g ic P L m (S (S n)) b → fresh_inum sb m = Some i → (held P < NINODE)%nat →
  is_short type → type ≠ 0 → is_short maj → is_short min →
  ∃ k c1 g' ic1 c2 ic2 ip c3 g3, let ip2 := set_nlink 1 (set_devno maj min ip) in
    ialloc sb c g ic (dev g0) type = Ok (k, c1, g', ic1) ∧ ilock_at sb c1 ic1 k = Ok (c2, ic2) ∧ deref ic2 k = Ok ip ∧ iupdate sb c2 g' ip2 = Ok (c3, g3) ∧
    txn c3 g3 (<[k := ip2]> ic2) ((k, i) :: P) ({[k]} ∪ L) (<[i := AFile type maj min 1 []]> m) n b ∧ inum ip = i ∧ 1 <= i < sb_ninodes sb.
Proof using BL HL Hid Hlsz FL.
  intros (v & bl & Hs & Hh & Hb & -> & Hn) Hi Hca Hty Ht0 Hma Hmi.
  destruct (create_locked g0 HL sb FL c (logs g1 bl) v ic P.*1 L (AFs m P.*2) type maj min i Hs Hh Hi Hca Hty Ht0 Hma Hmi)
    as (k & c1 & ic1 & c2 & ic2 & ip & c3 & v3 & E1 & E2 & Ed & E3 & Hs3 & Him & Ei & Hir & Hfr & _); [eapply txn_room; [done|lia]|].
  eexists k, c1, _, ic1, c2, ic2, ip, c3, _. split_and!; [done|done|done|done| |done|lia|lia]. rewrite logs_app in *.
  eexists v3, (bl ++ _). split_and!; [done|by apply holds_snoc|by rewrite Hfr|done|rewrite length_app; cbn; lia].
Qed.

(** ** Directories *)

Lemma r_dirlookup c g ic P L m n b k d f name : txn c g ic P L m n b → (k, d) ∈ P → k ∈ L → m !! d = Some f → is_dir f →
  match dlookup (a_data f) name with
  | None => ∃ c', dirlookup sb dr c g ic k name = Ok (None, c', g, ic) ∧ txn c' g ic P L m n b
  | Some j =>
      let i := de_inum (dent (a_data f) j) in is_Some (m !! i) → i ∈ P.*2 ∨ (held P < NINODE)%nat →
      ∃ x c' ic', dirlookup sb dr c g ic k name = Ok (Some (x, Z.of_nat (DIRENT * j)), c', g, ic') ∧ txn c' g ic' ((x, i) :: P) L m n b
  end.
Proof using BL HL Hid Hlsz FL.
  intros (v & bl & Hs & Hh & Hb & -> & Hn) Hk HkL Hf Hd. destruct (holds_locked v ic P L m k d Hh Hk HkL) as (ip & f' & Hlf & Ei & Hf'). simplify_eq.
  destruct (dirlookup_find g0 HL sb FL dr c _ v ic _ L _ k ip f name Hs Hh Hlf Hd) as (c' & Hs' & E); [eapply txn_room; [done|lia]|].
  destruct (dlookup (a_data f) name) as [j|].
  - intros i Hi Hca. destruct (r_iget c' (logs g1 bl) ic P L m n b i) as (x & ic' & Ex & Ht); [by exists v, bl|done|done|].
    fold i in E. rewrite Ex, bind_Ok in E. by exists x, c', ic'.
  - exists c'. split; [done|]. by exists v, bl.
Qed.

(** A file of [P] gets new content. *)
Lemma r_dirlink c g ic P L m n b k d f name i : txn c g ic P L m (7 + n) (2 + b) → (k, d) ∈ P → k ∈ L → m !! d = Some f → is_dir f →
  dlookup (a_data f) name = None → (length (a_data f) + DIRENT ≤ MAXBYTES)%nat →
  ∃ c' g' ic', dirlink sb dr dw c g ic k name i = Ok (0, c', g', ic') ∧ txn c' g' ic' P L (<[d := set_data (dlink (a_data f) name i) f]> m) n b.
Proof using BL HL Hid Hlsz FL.
  intros (v & bl & Hs & Hh & Hb & -> & Hn) Hk HkL Hf Hd Hno Hmax. destruct (holds_locked v ic P L m k d Hh Hk HkL) as (ip & f' & Hlf & Ei & Hf'). simplify_eq.
  destruct (dirlink_new g0 HL sb FL dr dw c _ v ic _ L _ k ip f name i Hs Hh HkL Hlf Hd Hno Hmax) as (c' & v' & bl' & ip' & E & Hbl & Hs' & Him & Hfr & _);
    [eapply txn_room; [done|lia]|lia|]. rewrite logs_app in *. eexists c', _, _. split; [done|]. exists v', (bl ++ bl'). split_and!; [done|done|lia|done|rewrite length_app; lia].
Qed.

(** The name is there, for a file that is not locked. *)
Lemma r_dirlink_exists c g ic P L m n b k d f name i j : txn c g ic P L m (S n) b → (k, d) ∈ P → k ∈ L → m !! d = Some f → is_dir f →
  dlookup (a_data f) name = Some j → let i' := de_inum (dent (a_data f) j) in linked m i' → i' ∈ P.*2 ∨ (held P < NINODE)%nat →
  (∀ k', (k', i') ∈ P → k' ∉ L) → ∃ c' ic', dirlink sb dr dw c g ic k name i = Ok (-1, c', g, ic') ∧ txn c' g ic' P L m (S n) b.
Proof using BL HL Hid Hlsz FL.
  intros (v & bl & Hs & Hh & Hb & -> & Hn) Hk HkL Hf Hd Hj i' (fi & Hfi & Hni) Hca HL'. destruct (holds_locked v ic P L m k d Hh Hk HkL) as (ip & f' & Hlf & Ei & Hf'). simplify_eq.
  destruct (dirlink_exists g0 HL sb FL dr dw c _ v ic _ L _ k ip f name i j fi Hs Hh HkL Hlf Hd Hj Hfi Hni Hca) as (c' & ic' & E & Hs' & Him); [eapply txn_room; [done|lia]| |].
  - intros k' ip' Hk' Hip' Ei'. destruct (co_lock _ _ _ _ _ _ (im_coh _ _ _ _ _ _ _ Hh) k' Hk') as [Hkh _]. apply list_elem_of_fmap in Hkh as ([k2 i2] & -> & Hin). cbn [fst] in *.
    destruct (proj1 (names_ptrs ic P) (im_names _ _ _ _ _ _ _ Hh) k2 i2 Hin) as (ip2 & Hip2 & E2). apply (HL' k2); [|done]. assert (ip2 = ip') as -> by congruence. rewrite E2 in Ei'. unfold i'. by rewrite <- Ei'.
  - exists c', ic'. split; [done|]. by exists v, bl.
Qed.

(** An entry is overwritten: no block is needed. *)
Lemma r_clear c g ic P L m n b k d f j : txn c g ic P L m (7 + n) b → (k, d) ∈ P → k ∈ L → m !! d = Some f → is_dir f → (j < ndent (a_data f))%nat →
  ∃ c' g' ic', writei_at sb dw c g ic k (replicate DIRENT 0) (Z.of_nat (DIRENT * j)) = Ok (16, c', g', ic') ∧
    txn c' g' ic' P L (<[d := set_data (write_at (a_data f) (DIRENT * j) (replicate DIRENT 0)) f]> m) n b.
Proof using BL HL Hid Hlsz FL.
  intros (v & bl & Hs & Hh & Hb & -> & Hn) Hk HkL Hf [Hty Hmod] Hj. destruct (holds_locked v ic P L m k d Hh Hk HkL) as (ip & f' & Hlf & Ei & Hf'). simplify_eq.
  pose proof (ndent_length _ Hmod) as Hnd. destruct (locked_good g0 sb v ic _ L _ k ip f Hh Hlf) as (_ & Hlen & _ & Hmax).
  destruct (writei_at_spec g0 HL sb FL dw 0 c _ v ic _ L _ k ip f (replicate DIRENT 0) (Z.of_nat (DIRENT * j)) Hs Hh HkL Hlf) as (c' & v' & bl' & ip' & E & Hbl & Hs' & Him & Hfr & _);
    rewrite ?length_replicate, ?Nat2Z.id, ?nblk_dirent; [by rewrite Hty|unfold DIRENT in *; lia..|eapply txn_room; [done|lia]|right; split; [done|unfold DIRENT in *; lia]|lia|].
  rewrite length_replicate, Nat2Z.id, nblk_dirent in *. rewrite logs_app in *. eexists c', _, _. split; [exact E|]. exists v', (bl ++ bl').
  split_and!; [done|exact Him|lia|done|rewrite length_app; lia].
Qed.

Lemma isdirempty_loop_spec v ic hs L a k ip f g : implements g0 sb v ic hs L a → locked_file g0 sb v ic hs a k ip f → is_dir f → room g0 g 0 →
  ∀ n j c fuel, sees c g v ∅ → (j + n = ndent (a_data f))%nat → (n ≤ fuel)%nat →
  ∃ c', sees c' g v ∅ ∧ isdirempty_loop sb dr c g ic k (Z.of_nat (DIRENT * j)) fuel =
    Ok (match dfind entry_used (a_data f) j n with None => true | Some _ => false end, c', g, ic).
Proof using BL HL FL.
  intros Him Hlf [Hty Hmod] Hr. pose proof (ndent_length _ Hmod) as Hnd. destruct (locked_good g0 sb _ _ _ _ _ _ _ _ Him Hlf) as (_ & Hlen & _ & Hmax).
  assert (a_type f ≠ T_DEV) as Hnd2 by (by rewrite Hty). pose proof (lf_entry _ _ _ _ _ _ _ _ _ Hlf) as Hip. unfold MAXBYTES, BSIZE in Hmax.
  induction n as [|n IH]; intros j c fuel Hs Hj Hfuel.
  - exists c. split; [done|]. destruct fuel; cbn [isdirempty_loop dfind]; unfold deref; rewrite Hip, bind_Ok, (proj2 (Z.ltb_ge _ _)) by (unfold DIRENT in *; lia); done.
  - destruct fuel as [|fuel]; [lia|]. cbn [isdirempty_loop dfind]. unfold deref at 1. rewrite Hip, bind_Ok, (proj2 (Z.ltb_lt _ _)) by (unfold DIRENT in *; lia).
    destruct (readi_at_spec g0 HL sb FL dr c g v ic hs L a k ip f (Z.of_nat (DIRENT * j)) 16) as (c1 & E1 & Hs1); [done..|lia|lia|unfold DIRENT in *; lia|].
    rewrite E1, bind_Ok, Nat2Z.id. change (Z.to_nat 16) with DIRENT. fold (dent (a_data f) j). change (16 =? 16) with true. cbn [negb].
    assert (u32 (Z.of_nat (DIRENT * j) + 16) = Z.of_nat (DIRENT * S j)) as Eoff by (rewrite u32_small; unfold is_u32, DIRENT in *; lia). rewrite Eoff.
    unfold entry_used at 1. destruct (IH (S j) c1 fuel Hs1 ltac:(lia) ltac:(lia)) as (c2 & Hs2 & E2).
    destruct (negb (de_inum (dent (a_data f) j) =? 0)); [by exists c1|by exists c2].
Qed.

Lemma r_isdirempty c g ic P L m n b k d f : txn c g ic P L m n b → (k, d) ∈ P → k ∈ L → m !! d = Some f → is_dir f → (2 ≤ ndent (a_data f))%nat →
  ∃ c', isdirempty sb dr c g ic k = Ok (dempty (a_data f), c', g, ic) ∧ txn c' g ic P L m n b.
Proof using BL HL Hid Hlsz FL.
  intros (v & bl & Hs & Hh & Hb & -> & Hn) Hk HkL Hf Hd H2. destruct (holds_locked v ic P L m k d Hh Hk HkL) as (ip & f' & Hlf & Ei & Hf'). simplify_eq.
  destruct (locked_good g0 sb v ic _ L _ k ip f Hh Hlf) as (_ & Hlen & _ & _).
  destruct (isdirempty_loop_spec v ic _ L _ k ip f (logs g1 bl) Hh Hlf Hd (txn_room bl n 0 Hn ltac:(lia)) (ndent (a_data f) - 2) 2 c (Z.to_nat (isize ip)) Hs) as (c' & Hs' & E);
    [lia|rewrite <- Hlen; unfold ndent; pose proof (Nat.Div0.div_le_upper_bound (length (a_data f)) DIRENT (length (a_data f)) ltac:(unfold DIRENT; lia)); lia|].
  exists c'. unfold isdirempty, deref. rewrite (lf_entry _ _ _ _ _ _ _ _ _ Hlf), bind_Ok. split; [exact E|]. by exists v, bl.
Qed.

(** ** Paths *)

Definition start_of (ci : Z) (path : list Z) : Z := if chr path =? SLASH then ROOTINO else ci.

Lemma r_namex c g ic P m n b cwd ci path np : txn c g ic P ∅ m (S n) b → (cwd, ci) ∈ P → tree_ok (AFs m []) → linked m (start_of ci path) → no_nul path → (held P + 2 ≤ NINODE)%nat →
  match target np m (start_of ci path) (elems path) with
  | None => ∃ name c' ic', namex sb dr c g ic cwd path [] np = Ok (None, name, c', g, ic') ∧ txn c' g ic' P ∅ m (S n) b
  | Some i => ∃ k name c' ic', namex sb dr c g ic cwd path [] np = Ok (Some k, name, c', g, ic') ∧ txn c' g ic' ((k, i) :: P) ∅ m (S n) b ∧ linked m i ∧
      (np = true → name = take DIRSIZ (default [] (last (elems path))))
  end.
Proof using BL HL Hid Hlsz FL.
  intros (v & bl & Hs & Hh & Hb & -> & Hn) [h Hi]%list_elem_of_lookup Htr Hli Hnn Hca.
  destruct (namex_spec g0 HL sb FL dr c (logs g1 bl) v ic P.*1 (AFs m P.*2) h cwd ci path np Hs Hh Htr) as (o & name & c' & ic' & E & Hs' & Hw & Hnm);
    [by rewrite list_lookup_fmap, Hi|cbn [handles]; by rewrite list_lookup_fmap, Hi|done|done|done|eapply txn_room; [done|lia]|].
  cbn [files handles] in Hw. fold (start_of ci path) in Hw. unfold walked in Hw. destruct (target np m (start_of ci path) (elems path)) as [i|], o as [k|]; try done.
  - destruct Hw as [Him Hl]. exists k, name, c', ic'. split_and!; [done| |done|intros Hnp; by apply Hnm]. exists v, bl. split_and!; try done. by apply holds_snoc.
  - exists name, c', ic'. split; [done|]. by exists v, bl.
Qed.

Lemma r_namei c g ic P m n b cwd ci path : txn c g ic P ∅ m (S n) b → (cwd, ci) ∈ P → tree_ok (AFs m []) → linked m (start_of ci path) → no_nul path → (held P + 2 ≤ NINODE)%nat →
  match resolve m (start_of ci path) (elems path) with
  | None => ∃ c' ic', namei sb dr c g ic cwd path = Ok (None, c', g, ic') ∧ txn c' g ic' P ∅ m (S n) b
  | Some i => ∃ k c' ic', namei sb dr c g ic cwd path = Ok (Some k, c', g, ic') ∧ txn c' g ic' ((k, i) :: P) ∅ m (S n) b ∧ linked m i
  end.
Proof using BL HL Hid Hlsz FL.
  intros Ht Hc Htr Hli Hnn Hca. pose proof (r_namex c g ic P m n b cwd ci path false Ht Hc Htr Hli Hnn Hca) as Hx. cbn [target] in Hx. unfold namei.
  destruct (resolve m (start_of ci path) (elems path)).
  - destruct Hx as (k & name & c' & ic' & E & Ht' & Hl & _). exists k, c', ic'. by rewrite E.
  - destruct Hx as (name & c' & ic' & E & Ht'). exists c', ic'. by rewrite E.
Qed.

Lemma r_nameiparent c g ic P m n b cwd ci path : txn c g ic P ∅ m (S n) b → (cwd, ci) ∈ P → tree_ok (AFs m []) → linked m (start_of ci path) → no_nul path → (held P + 2 ≤ NINODE)%nat →
  match resolve_parent m (start_of ci path) (elems path) with
  | None => ∃ name c' ic', nameiparent sb dr c g ic cwd path = Ok (None, name, c', g, ic') ∧ txn c' g ic' P ∅ m (S n) b
  | Some d => ∃ k c' ic', nameiparent sb dr c g ic cwd path = Ok (Some k, take DIRSIZ (default [] (last (elems path))), c', g, ic') ∧
      txn c' g ic' ((k, d) :: P) ∅ m (S n) b ∧ linked m d
  end.
Proof using BL HL Hid Hlsz FL.
  intros Ht Hc Htr Hli Hnn Hca. pose proof (r_namex c g ic P m n b cwd ci path true Ht Hc Htr Hli Hnn Hca) as Hx. cbn [target] in Hx. unfold nameiparent.
  destruct (resolve_parent m (start_of ci path) (elems path)).
  - destruct Hx as (k & name & c' & ic' & E & Ht' & Hl & Hnm). rewrite <- Hnm by done. by exists k, c', ic'.
  - destruct Hx as (name & c' & ic' & E & Ht'). by exists name, c', ic'.
Qed.
End txn.
