(* ===== verification/SysfileSpec.v ===== *)
(** The system calls on paths (src/p4/sysfile.c): what they do to the tree of files, and that they do it. *)

From Stdlib Require Import ZArith Lia.
From stdpp Require Import base numbers list gmap fin_sets sets strings.
From S2P Require Import Prelude CStr Bio Log LogCrash Fs FsSpec FsTrunc File FileThm FsCk Icache IcacheSpec IcacheOps IcacheThm Dir DirSpec DirOps Sysfile Tree Txn.
#[local] Open Scope Z_scope.

(** * The specification *)

Section spec.
Context (sb : superblock).

(** The last element of a path, as [nameiparent] copies it. *)
Definition last_name (path : list Z) : list Z := take DIRSIZ (default [] (last (elems path))).

(** The file and the directory of a path, from the current directory [ci]. *)
Definition find (m : gmap Z afile) (ci : Z) (path : list Z) : option (Z * afile) :=
  i ← resolve m (start_of ci path) (elems path); f ← m !! i; Some (i, f).
Definition find_parent (m : gmap Z afile) (ci : Z) (path : list Z) : option (Z * afile) :=
  d ← resolve_parent m (start_of ci path) (elems path); f ← m !! d; Some (d, f).

Definition spec_link (m : gmap Z afile) (ci : Z) (old new : list Z) : Z * gmap Z afile :=
  match find m ci old with
  | None => (-1, m)
  | Some (i, f) =>
      if decide (a_type f = T_DIR) then (-1, m)
      else match find_parent m ci new with
      | None => (-1, m)
      | Some (d, fd) =>
          match dlookup (a_data fd) (last_name new) with
          | Some _ => (-1, m)
          | None => (0, <[d := set_data (dlink (a_data fd) (last_name new) i) fd]> (<[i := set_links (a_nlink f + 1) f]> m))
          end
      end
  end.

(** [l] are the inodes that pointers are held to. *)
Definition spec_unlink (l : list Z) (m : gmap Z afile) (ci : Z) (path : list Z) : Z * gmap Z afile :=
  match find_parent m ci path with
  | None => (-1, m)
  | Some (d, fd) =>
      if decide (proper (cname (last_name path))) then
        match dlookup (a_data fd) (last_name path) with
        | None => (-1, m)
        | Some j =>
            let i := de_inum (dent (a_data fd) j) in
            match m !! i with
            | None => (-1, m)
            | Some g =>
                let fd' := set_data (dclear (a_data fd) j) fd in
                if decide (a_type g = T_DIR) then
                  if dempty (a_data g) then (0, dropped l i (<[i := set_links (a_nlink g - 1) g]> (<[d := set_links (a_nlink fd - 1) fd']> m)))
                  else (-1, m)
                else (0, dropped l i (<[i := set_links (a_nlink g - 1) g]> (<[d := fd']> m)))
            end
        end
      else (-1, m)
  end.

(** The file with number [i] that [create] makes in [d]. *)
Definition created (m : gmap Z afile) (d : Z) (fd : afile) (name : list Z) (i type maj min : Z) : gmap Z afile :=
  if decide (type = T_DIR) then <[d := set_data (dlink (a_data fd) name i) (set_links (a_nlink fd + 1) fd)]> (<[i := AFile T_DIR maj min 1 (new_dir i d)]> m)
  else <[d := set_data (dlink (a_data fd) name i) fd]> (<[i := AFile type maj min 1 []]> m).

Definition spec_create (m : gmap Z afile) (ci : Z) (path : list Z) (type maj min : Z) : option Z * gmap Z afile :=
  match find_parent m ci path with
  | None => (None, m)
  | Some (d, fd) =>
      match dlookup (a_data fd) (last_name path) with
      | Some j =>
          let i := de_inum (dent (a_data fd) j) in
          match m !! i with
          | Some g => (if decide (type = T_FILE ∧ a_type g = T_FILE) then Some i else None, m)
          | None => (None, m)
          end
      | None => match fresh_inum sb m with Some i => (Some i, created m d fd (last_name path) i type maj min) | None => (None, m) end
      end
  end.
End spec.

(** * Resolution only looks at types and contents *)

Definition looks (f : afile) : Z * list Z := (a_type f, a_data f).

Lemma walk_ext m m' i e : looks <$> m' !! i = looks <$> m !! i → walk m' i e = walk m i e.
Proof. unfold walk. destruct (m' !! i) as [f'|], (m !! i) as [f|]; try done. intros [= E1 E2]. cbn. by rewrite E1, E2. Qed.

Lemma resolve_ext m m' es : (∀ i, looks <$> m' !! i = looks <$> m !! i) → ∀ i, resolve m' i es = resolve m i es.
Proof.
  intros He. induction es as [|e es IH]; intros i; [done|]. rewrite !resolve_cons, (walk_ext m m') by done. destruct (walk m i e); [|done]. cbn. apply IH.
Qed.

Lemma resolve_parent_ext m m' es i : (∀ i, looks <$> m' !! i = looks <$> m !! i) → resolve_parent m' i es = resolve_parent m i es.
Proof.
  intros He. unfold resolve_parent. destruct es as [|e es]; [done|]. rewrite (resolve_ext m m') by done. destruct (resolve m i (removelast (e :: es))) as [p|]; [|done]. cbn.
  specialize (He p). destruct (m' !! p) as [f'|], (m !! p) as [f|]; try done. injection He as E1 E2. cbn. by rewrite E1.
Qed.

Lemma looks_links (m : gmap Z afile) i f x : m !! i = Some f → ∀ j, looks <$> <[i := set_links x f]> m !! j = looks <$> m !! j.
Proof. intros Hf j. destruct (decide (j = i)) as [->|?]; [by rewrite lookup_insert_eq, Hf|by rewrite lookup_insert_ne]. Qed.

Lemma tree_ok_links m i f x : tree_ok (AFs m []) → m !! i = Some f → x ≠ 0 → a_nlink f ≠ 0 → tree_ok (AFs (<[i := set_links x f]> m) []).
Proof.
  intros Htr Hf Hx Hn d g Hg Ht Hgn. cbn [files] in *.
  assert (∃ g0, m !! d = Some g0 ∧ a_type g0 = T_DIR ∧ a_nlink g0 ≠ 0 ∧ a_data g0 = a_data g) as (g0 & Hg0 & Ht0 & Hn0 & Ed).
  { apply lookup_insert_Some in Hg as [[-> <-]|[_ Hg]]; [by exists f|by exists g]. }
  destruct (Htr d g0 Hg0 Ht0 Hn0) as [[_ Hm] Hl]. rewrite Ed in *. split; [by split|]. intros n i' Hi'. destruct (Hl n i' Hi') as (h & Hh & Hhn). cbn [files] in Hh.
  destruct (decide (i' = i)) as [->|?]; [exists (set_links x f); by rewrite lookup_insert_eq|exists h; by rewrite lookup_insert_ne].
Qed.

Lemma linked_links (m : gmap Z afile) i f x j : m !! i = Some f → x ≠ 0 → linked m j → linked (<[i := set_links x f]> m) j.
Proof.
  intros Hf Hx (g & Hg & Hn). destruct (decide (j = i)) as [->|?]; [exists (set_links x f); by rewrite lookup_insert_eq|exists g; by rewrite lookup_insert_ne].
Qed.

Lemma tree_nonneg m i f : tree m → m !! i = Some f → 0 <= a_nlink f.
Proof. intros [_ HG] Hf. destruct (g_links _ _ HG i (bool_decide (a_type f = T_DIR)) (a_nlink f)) as (X & _ & ->); [by rewrite lookup_fmap, Hf|lia]. Qed.

Lemma ptr_1 (p : nat * Z) P : p ∈ p :: P.
Proof. apply elem_of_cons. by left. Qed.
Lemma ptr_2 (p q : nat * Z) P : p ∈ q :: p :: P.
Proof. apply elem_of_cons. right. apply ptr_1. Qed.

Lemma lock_in (k : nat) (L : gset nat) : k ∈ {[k]} ∪ L.
Proof. apply elem_of_union. left. by apply elem_of_singleton. Qed.

Lemma lock_back (k : nat) (L : gset nat) : k ∉ L → ({[k]} ∪ L) ∖ {[k]} = L.
Proof. intros Hk. apply set_eq. intros j. rewrite elem_of_difference, elem_of_union, elem_of_singleton. split; [tauto|]. intros Hj. split; [by right|]. by intros ->. Qed.

Lemma lock_swap (k k' : nat) (L : gset nat) : k' ≠ k → k ∉ L → ({[k']} ∪ ({[k]} ∪ L)) ∖ {[k]} = {[k']} ∪ L.
Proof. intros Hne Hk. apply set_eq. intros j. rewrite elem_of_difference, !elem_of_union, !elem_of_singleton. split; [tauto|]. intros [->|Hj]; [tauto|]. split; [tauto|]. by intros ->. Qed.

(** * The system calls *)

Section calls.
Context {C : Type} `{BL : BufLaws C cview} (g0 : log) (HL : layout g0) (Hid : idle g0) (Hlsz : 28 <= lsize g0) (sb : superblock) (FL : fs_layout g0 sb).
Context (dr : Z → option (C → log → inode → Z → outcome (Z * list Z * inode * C * log))).
Context (dw : Z → option (C → log → inode → list Z → outcome (Z * inode * C * log))).
Abbreviation txn := (txn (cview := cview) g0 sb).
Abbreviation rest := (rest (cview := cview) g0 sb).
Abbreviation ptrs := (list (nat * Z)).

(** Inode numbers are small. *)
Lemma txn_range c g ic P L m n b i : txn c g ic P L m n b → is_Some (m !! i) → is_ushort i ∧ i ≠ 0.
Proof using FL.
  intros (v & bl & _ & Hh & _) [f Hf]. destruct (shows_live g0 sb v m i f (im_files _ _ _ _ _ _ _ Hh) Hf) as [[Hi _] _].
  pose proof (fl_size _ _ FL) as Hsz. pose proof (fl_iblock _ _ FL i ltac:(lia)) as H1. pose proof (fl_iblock _ _ FL 0 ltac:(lia)) as H0.
  unfold IBLOCK, IPB, FSSIZE in *. rewrite Z.div_0_l in H0 by lia. unfold is_ushort. split; [|lia]. split; [lia|]. pose proof (Z.div_mod i 8 ltac:(lia)). pose proof (Z.mod_pos_bound i 8 ltac:(lia)). lia.
Qed.

(** A process with current directory [ci], and a tree. *)
Record ready (P : ptrs) (m : gmap Z afile) (cwd : nat) (ci : Z) : Prop := {
  rd_tree : tree m; rd_cwd : (cwd, ci) ∈ P; rd_held : (held P + 3 ≤ NINODE)%nat }.

(** A path can be resolved if the current directory has a link, or if it is absolute. *)
Lemma start_linked m ci path : tree m → linked m ci ∨ chr path = SLASH → linked m (start_of ci path).
Proof.
  intros [_ HG] Hl. unfold start_of. destruct (Z.eqb_spec (chr path) SLASH) as [E|E]; [|by destruct Hl].
  destruct (root_dir _ _ HG) as (x & Hx & H0). apply kind_dir in Hx as (f & Hf & _ & <-). by exists f.
Qed.

Definition path_ok (m : gmap Z afile) (ci : Z) (path : list Z) : Prop := no_nul path ∧ (linked m ci ∨ chr path = SLASH).

(** The parent of a path is a directory with a link. *)
Lemma parent_dir m i es d : resolve_parent m i es = Some d → ∃ f, m !! d = Some f ∧ a_type f = T_DIR.
Proof.
  unfold resolve_parent. destruct es; [done|]. intros Hd. destruct (resolve m i _) as [p|]; [|done]. cbn in Hd. destruct (m !! p) as [f|] eqn:Ef; [|done]. cbn in Hd.
  case_decide; [|done]. injection Hd as <-. by exists f.
Qed.

(** ** [link] *)

Lemma link_bad_spec c g ic P m n b k i f : txn c g ic ((k, i) :: P) ∅ (<[i := set_links (a_nlink f + 1) f]> m) (S (S n)) b → m !! i = Some f → a_nlink f ≠ 0 → is_short (a_nlink f) →
  ∃ c' ic', link_bad sb c g ic k = Ok (-1, c', g0, ic') ∧ rest c' ic' P m b.
Proof using BL HL Hid Hlsz FL.
  intros Ht Hf Hn Hs. unfold link_bad. assert ((k, i) ∈ (k, i) :: P) as Hin by apply ptr_1.
  destruct (r_ilock g0 HL Hid Hlsz sb FL _ _ _ _ _ _ _ _ k i Ht Hin (not_elem_of_empty k)) as (c1 & ic1 & E1 & Ht1). rewrite E1, bind_Ok.
  destruct (r_add_nlink g0 HL Hid Hlsz sb FL _ _ _ _ _ _ _ _ k i (set_links (a_nlink f + 1) f) (-1) Ht1 Hin) as (c2 & g2 & ic2 & E2 & Ht2);
    [apply lock_in|by rewrite lookup_insert_eq|cbn; by replace (a_nlink f + 1 + -1) with (a_nlink f) by lia|]. rewrite E2, bind_Ok. cbn [set_links a_nlink a_type a_major a_minor a_data] in Ht2.
  replace (set_links (a_nlink f + 1 + -1) (set_links (a_nlink f + 1) f)) with f in Ht2 by (replace (a_nlink f + 1 + -1) with (a_nlink f) by lia; by destruct f).
  rewrite insert_insert_eq, insert_id in Ht2 by done.
  destruct (r_iunlockput_keep g0 HL Hid Hlsz sb FL _ _ _ _ _ _ _ _ k i Ht2) as (c3 & g3 & ic3 & E3 & Ht3); [apply lock_in|lia|right; by exists f|].
  rewrite E3, bind_Ok. rewrite lock_back in Ht3 by apply not_elem_of_empty. destruct (txn_end g0 HL Hid Hlsz sb FL _ _ _ _ _ _ _ Ht3) as (c4 & E4 & Hr). rewrite E4, bind_Ok.
  by exists c4, ic3.
Qed.

(** What [link] needs: the count does not overflow, the new name does not stand for the directory itself, and there is room for it. *)
Definition link_ok (m : gmap Z afile) (ci : Z) (old new : list Z) : Prop :=
  ∀ i f, find m ci old = Some (i, f) → a_type f ≠ T_DIR → a_nlink f + 1 < 2 ^ 15 ∧
    ∀ d fd, find_parent m ci new = Some (d, fd) →
      match dlookup (a_data fd) (last_name new) with
      | Some j => de_inum (dent (a_data fd) j) ≠ d
      | None => (length (a_data fd) + DIRENT ≤ MAXBYTES)%nat
      end.

(** The second half: the file [i] has its new count, and the parent is looked for. *)
Lemma link_dir_spec c g ic P m b k i f kd d fd name : let m1 := <[i := set_links (a_nlink f + 1) f]> m in
  txn c g ic ((kd, d) :: (k, i) :: P) ∅ m1 24 (2 + b) → tree m → m !! i = Some f → a_type f ≠ T_DIR → a_nlink f ≠ 0 → is_short (a_nlink f) →
  m !! d = Some fd → a_type fd = T_DIR → a_nlink fd ≠ 0 → (held P + 3 ≤ NINODE)%nat →
  match dlookup (a_data fd) name with Some j => de_inum (dent (a_data fd) j) ≠ d | None => (length (a_data fd) + DIRENT ≤ MAXBYTES)%nat end →
  ∃ c' ic', ('(c, ic) ← ilock_at sb c ic kd;
    d ← deref ic kd;
    x ← deref ic k;
    '(r, c, g, ic) ← (if negb (i_dev d =? i_dev x) then Ok (-1, c, g, ic) else dirlink sb dr dw c g ic kd name (inum x));
    '(c, g, ic) ← iunlockput sb c g ic kd;
    if r <? 0 then link_bad sb c g ic k
    else '(c, g, ic) ← iput sb c g ic k; '(c, g) ← end_op c g; Ok (0, c, g, ic)) =
    Ok (match dlookup (a_data fd) name with Some _ => -1 | None => 0 end, c', g0, ic') ∧
    rest c' ic' P (match dlookup (a_data fd) name with Some _ => m | None => <[d := set_data (dlink (a_data fd) name i) fd]> m1 end) b.
Proof using BL HL Hid Hlsz FL.
  intros m1 Ht Htr Hf Hft Hfn Hfs Hfd Hfdt Hfdn Hca Hok. assert (d ≠ i) as Hdi by congruence. assert (m1 !! d = Some fd) as Hfd1 by (unfold m1; by rewrite lookup_insert_ne).
  assert ((kd, d) ∈ (kd, d) :: (k, i) :: P ∧ (k, i) ∈ (kd, d) :: (k, i) :: P) as [Hind Hini] by (split; [apply ptr_1|apply ptr_2]).
  assert (linked m1 d ∧ linked m1 i) as [Hld Hli].
  { split; [by exists fd|]. unfold m1. eexists. rewrite lookup_insert_eq. split; [done|]. pose proof (tree_nonneg m i f Htr Hf). cbn. lia. }
  destruct (tr_dir _ Htr d fd Hfd Hfdt Hfdn) as (Hdir & _ & _).
  destruct (r_ilock g0 HL Hid Hlsz sb FL _ _ _ _ _ _ _ _ kd d Ht Hind (not_elem_of_empty kd)) as (c1 & ic1 & E1 & Ht1). rewrite E1, bind_Ok.
  destruct (r_locked g0 sb _ _ _ _ _ _ _ _ kd d Ht1 Hind (lock_in _ _)) as (ipd & fd' & Ed & Hfd' & _ & _ & _ & Edv). rewrite Ed, bind_Ok.
  destruct (r_known g0 sb _ _ _ _ _ _ _ _ k i Ht1 Hini) as (ipi & Ed2 & Ei & Edv2). rewrite Ed2, bind_Ok, Edv, Edv2, Z.eqb_refl, Ei. cbn [negb].
  destruct (dlookup (a_data fd) name) as [j|] eqn:Ej.
  - assert (linked m1 (de_inum (dent (a_data fd) j))) as Hlj.
    { destruct (dlookup_slot _ _ _ Ej) as [Hlt Hs]. destruct (tr_dir _ Htr d fd Hfd Hfdt Hfdn) as (_ & Hnd & _). pose proof (tree_nonneg m i f Htr Hf).
      apply linked_links; [done|lia|]. eapply entry_linked; [done|]. exists fd. split_and!; [done|done|done|by eapply dmap_slot]. }
    destruct (r_dirlink_exists g0 HL Hid Hlsz sb FL dr dw _ _ _ _ _ _ 23 _ kd d fd name i j Ht1 Hind (lock_in _ _) Hfd1 Hdir Ej Hlj) as (c2 & ic2 & E2 & Ht2).
    { right. pose proof (held_cons (kd, d) ((k, i) :: P)). pose proof (held_cons (k, i) P). lia. }
    { intros k' Hk' [->%elem_of_singleton|?%elem_of_empty]%elem_of_union; [|done]. apply Hok. by apply (txn_inj g0 sb _ _ _ _ _ _ _ _ _ _ _ _ Ht1 Hk' Hind). }
    rewrite E2, bind_Ok. destruct (r_iunlockput_keep g0 HL Hid Hlsz sb FL _ _ _ _ _ _ _ _ kd d Ht2) as (c3 & g3 & ic3 & E3 & Ht3); [apply lock_in|lia|by right|].
    rewrite E3, bind_Ok. rewrite lock_back in Ht3 by apply not_elem_of_empty. cbn [Z.ltb Z.compare].
    apply (link_bad_spec c3 g3 ic3 P m 22 b k i f); [|done|done|done]. eapply txn_weaken; [done|lia|lia].
  - destruct (r_dirlink g0 HL Hid Hlsz sb FL dr dw _ _ _ _ _ _ 17 b kd d fd name i Ht1 Hind (lock_in _ _) Hfd1 Hdir Ej Hok) as (c2 & g2 & ic2 & E2 & Ht2).
    rewrite E2, bind_Ok. destruct (r_iunlockput_keep g0 HL Hid Hlsz sb FL _ _ _ _ _ _ _ _ kd d Ht2) as (c3 & g3 & ic3 & E3 & Ht3); [apply lock_in|lia| |].
    { right. eexists. by rewrite lookup_insert_eq. }
    rewrite E3, bind_Ok. rewrite lock_back in Ht3 by apply not_elem_of_empty. cbn [Z.ltb Z.compare].
    destruct (r_iput_keep g0 HL Hid Hlsz sb FL _ _ _ _ _ _ _ _ k i Ht3) as (c4 & g4 & ic4 & E4 & Ht4); [apply not_elem_of_empty|lia| |].
    { right. destruct Hli as (fi & Hfi & Hni). exists fi. by rewrite lookup_insert_ne. }
    rewrite E4, bind_Ok. destruct (txn_end g0 HL Hid Hlsz sb FL _ _ _ _ _ _ _ Ht4) as (c5 & E5 & Hr). rewrite E5, bind_Ok. by exists c5, ic4.
Qed.

Lemma link_spec c ic P m b cwd ci old new : rest c ic P m (2 + b) → ready P m cwd ci → path_ok m ci old → path_ok m ci new → link_ok m ci old new →
  let res := spec_link m ci old new in
  ∃ c' ic', sys_link sb dr dw c g0 ic cwd (Some old) (Some new) = Ok (res.1, c', g0, ic') ∧ rest c' ic' P res.2 b ∧ tree res.2.
Proof using BL HL Hid Hlsz FL.
  intros Hrest Hrd [Hn1 Hp1] [Hn2 Hp2] Hok. pose proof Hrd as [Htr Hcwd Hca]. pose proof (tree_paths m Htr) as Htp. destruct (txn_start g0 Hid sb _ _ _ _ _ Hrest) as [E0 Ht0].
  unfold sys_link. rewrite E0, bind_Ok.
  pose proof (r_namei g0 HL Hid Hlsz sb FL dr _ _ _ _ _ 24 _ cwd ci old Ht0 Hcwd Htp (start_linked m ci old Htr Hp1) Hn1 ltac:(lia)) as H1.
  unfold spec_link, find in *. destruct (resolve m (start_of ci old) (elems old)) as [i|] eqn:Ei; cbn [mbind option_bind].
  2:{ destruct H1 as (c1 & ic1 & E1 & Ht1). rewrite E1, bind_Ok. destruct (txn_end g0 HL Hid Hlsz sb FL _ _ _ _ _ _ _ Ht1) as (c2 & E2 & Hr). rewrite E2, bind_Ok.
      exists c2, ic1. split_and!; [done| |done]. destruct Hr as (v & ? & ? & ?). exists v. split_and!; [done|done|lia]. }
  destruct H1 as (k & c1 & ic1 & E1 & Ht1 & f & Hf & Hfn). rewrite E1, bind_Ok, Hf. cbn [mbind option_bind].
  assert ((k, i) ∈ (k, i) :: P) as Hin by apply ptr_1.
  destruct (r_ilock g0 HL Hid Hlsz sb FL _ _ _ _ _ _ _ _ k i Ht1 Hin (not_elem_of_empty k)) as (c2 & ic2 & E2 & Ht2). rewrite E2, bind_Ok.
  destruct (r_locked g0 sb _ _ _ _ _ _ _ _ k i Ht2 Hin (lock_in _ _)) as (ip & f' & Ed & Hf' & Ety & _). simplify_eq. rewrite Ed, bind_Ok, Ety.
  destruct (Z.eqb_spec (a_type f) T_DIR) as [Hft|Hft]; [rewrite decide_True by done|rewrite decide_False by done].
  { destruct (r_iunlockput_keep g0 HL Hid Hlsz sb FL _ _ _ _ _ _ _ _ k i Ht2) as (c3 & g3 & ic3 & E3 & Ht3); [apply lock_in|lia|right; by exists f|].
    rewrite E3, bind_Ok. rewrite lock_back in Ht3 by apply not_elem_of_empty. apply (txn_weaken _ _ _ _ _ _ _ _ _ _ 25 b) in Ht3; [|lia|lia].
    destruct (txn_end g0 HL Hid Hlsz sb FL _ _ _ _ _ _ _ Ht3) as (c4 & E4 & Hr). rewrite E4, bind_Ok. by exists c4, ic3. }
  destruct (Hok i f) as [Hshort Hok2]; [unfold find; rewrite Ei; cbn; by rewrite Hf|done|]. pose proof (tree_nonneg m i f Htr Hf) as Hnn.
  assert (is_short (a_nlink f + 1) ∧ is_short (a_nlink f)) as [Hs1 Hs0] by (unfold is_short; lia).
  destruct (r_add_nlink g0 HL Hid Hlsz sb FL _ _ _ _ _ _ 24 _ k i f 1 Ht2 Hin (lock_in _ _) Hf Hs1) as (c3 & g3 & ic3 & E3 & Ht3). rewrite E3, bind_Ok.
  destruct (r_iunlock g0 sb _ _ _ _ _ _ _ _ k Ht3 (lock_in _ _)) as (ic4 & E4 & Ht4). rewrite E4, bind_Ok, lock_back in * by apply not_elem_of_empty.
  set (m1 := <[i := set_links (a_nlink f + 1) f]> m) in *. assert (resolve_parent m1 (start_of ci new) (elems new) = resolve_parent m (start_of ci new) (elems new)) as Erp.
  { apply resolve_parent_ext. by apply looks_links. }
  pose proof (r_nameiparent g0 HL Hid Hlsz sb FL dr _ _ _ _ _ 23 _ cwd ci new Ht4) as H5. rewrite Erp in H5. unfold find_parent, last_name in *.
  pose proof (held_cons (k, i) P) as Hhc.
  specialize (H5 ltac:(apply elem_of_cons; by right) ltac:(apply tree_ok_links; [done|done|lia|done]) ltac:(apply linked_links; [done|lia|by apply start_linked]) Hn2 ltac:(lia)).
  destruct (resolve_parent m (start_of ci new) (elems new)) as [d|] eqn:Ed5; cbn [mbind option_bind].
  2:{ destruct H5 as (name & c5 & ic5 & E5 & Ht5). rewrite E5, bind_Ok. destruct (link_bad_spec c5 g3 ic5 P m 22 b k i f) as (c6 & ic6 & E6 & Hr6); [eapply txn_weaken; [exact Ht5|lia|lia]|done|done|done|].
      rewrite E6. by exists c6, ic6. }
  destruct H5 as (kd & c5 & ic5 & E5 & Ht5 & Hld). rewrite E5, bind_Ok. destruct (parent_dir _ _ _ _ Ed5) as (fd & Hfd & Hfdt). rewrite Hfd. cbn [mbind option_bind].
  assert (d ≠ i) as Hdi by congruence. assert (a_nlink fd ≠ 0) as Hfdn. { destruct Hld as (fd' & Hfd' & ?). unfold m1 in Hfd'. rewrite lookup_insert_ne in Hfd' by done. congruence. }
  specialize (Hok2 d fd ltac:(cbn; by rewrite Hfd)). destruct (link_dir_spec c5 g3 ic5 P m b k i f kd d fd _ Ht5 Htr Hf Hft Hfn Hs0 Hfd Hfdt Hfdn ltac:(lia) Hok2) as (c6 & ic6 & E6 & Hr6).
  rewrite E6. destruct (dlookup (a_data fd) _) as [j|] eqn:Ej; exists c6, ic6; split_and!; [done|done|done|done|done|].
  destruct (txn_range _ _ _ _ _ _ _ _ i Ht2 ltac:(by eexists)) as [Hiu Hi0]. apply (tree_link m d fd _ i); try done. left. by exists f.
Qed.

(** ** [unlink] *)

Lemma unlink_bad_spec c g ic P m n b kd d : txn c g ic ((kd, d) :: P) ({[kd]} ∪ ∅) m (S n) b → linked m d →
  ∃ c' ic', unlink_bad sb c g ic kd = Ok (-1, c', g0, ic') ∧ rest c' ic' P m b.
Proof using BL HL Hid Hlsz FL.
  intros Ht Hl. unfold unlink_bad. destruct (r_iunlockput_keep g0 HL Hid Hlsz sb FL _ _ _ _ _ _ _ _ kd d Ht) as (c3 & g3 & ic3 & E3 & Ht3); [apply lock_in|lia|by right|].
  rewrite E3, bind_Ok. rewrite lock_back in Ht3 by apply not_elem_of_empty. destruct (txn_end g0 HL Hid Hlsz sb FL _ _ _ _ _ _ _ Ht3) as (c4 & E4 & Hr). rewrite E4, bind_Ok.
  by exists c4, ic3.
Qed.

(** After the parent is updated. *)
Lemma unlink_tail c g ic P m n b kd d ki i gi : txn c g ic ((ki, i) :: (kd, d) :: P) ({[ki]} ∪ ({[kd]} ∪ ∅)) m (4 + n) b → i ≠ d → linked m d → m !! i = Some gi → is_short (a_nlink gi - 1) →
  ∃ c' ic', ('(c, g, ic) ← iunlockput sb c g ic kd;
    '(c, g, ic) ← add_nlink sb c g ic ki (-1);
    '(c, g, ic) ← iunlockput sb c g ic ki;
    '(c, g) ← end_op c g;
    Ok (0, c, g, ic)) = Ok (0, c', g0, ic') ∧ rest c' ic' P (dropped P.*2 i (<[i := set_links (a_nlink gi - 1) gi]> m)) b.
Proof using BL HL Hid Hlsz FL.
  intros Ht Hne Hld Hgi Hs. assert (ki ≠ kd) as Hk.
  { intros E. apply Hne. apply (txn_inj g0 sb _ _ _ _ _ _ _ _ ki i kd d Ht); [apply ptr_1|apply ptr_2|done]. }
  apply (txn_perm _ _ _ _ _ _ ((kd, d) :: (ki, i) :: P)) in Ht; [|apply Permutation_swap].
  destruct (r_iunlockput_keep g0 HL Hid Hlsz sb FL _ _ _ _ _ _ _ _ kd d Ht) as (c1 & g1' & ic1 & E1 & Ht1); [apply elem_of_union; right; apply lock_in|lia|by right|].
  rewrite E1, bind_Ok. rewrite lock_swap in Ht1 by (done || apply not_elem_of_empty).
  destruct (r_add_nlink g0 HL Hid Hlsz sb FL _ _ _ _ _ _ (3 + n) _ ki i gi (-1) Ht1) as (c2 & g2 & ic2 & E2 & Ht2); [apply ptr_1|apply lock_in|done|done|].
  rewrite E2, bind_Ok. change (a_nlink gi + -1) with (a_nlink gi - 1) in Ht2.
  destruct (r_iunlockput g0 HL Hid Hlsz sb FL _ _ _ _ _ _ _ _ ki i Ht2) as (c3 & g3 & ic3 & n3 & E3 & Ht3 & _); [apply lock_in|lia|right; lia|].
  rewrite E3, bind_Ok. rewrite lock_back in Ht3 by apply not_elem_of_empty. destruct (txn_end g0 HL Hid Hlsz sb FL _ _ _ _ _ _ _ Ht3) as (c4 & E4 & Hr). rewrite E4, bind_Ok.
  by exists c4, ic3.
Qed.

Lemma tree_dropped l m i : tree m → tree (dropped l i m).
Proof. intros Ht. unfold dropped. destruct (m !! i) as [f|] eqn:Ef; [|done]. case_decide as Hd; [|done]. destruct Hd as [_ H0]. by eapply tree_drop. Qed.

(** Proper entries lead away from the directory. *)
Lemma proper_not_self m d n i : tree m → entry m d n i → proper n → i ≠ d.
Proof.
  intros [_ HG] He Hp ->. destruct (g_src _ _ HG _ _ _ He) as (x & Hx & _). destruct (g_rank _ _ HG) as (rk & Hrk). specialize (Hrk _ _ _ _ He Hp Hx). lia.
Qed.

Lemma namecmp_dots name : (namecmp name DOT =? 0) || (namecmp name DOTDOT =? 0) = negb (bool_decide (proper (cname name))).
Proof.
  rewrite !namecmp_cname. change (cname DOT) with DOT. change (cname DOTDOT) with DOTDOT. unfold proper. repeat case_bool_decide; naive_solver.
Qed.

(** The entry for the file is found and the file is locked. *)
Lemma unlink_found c g ic P m b kd d fd name j gi : txn c g ic ((kd, d) :: P) ({[kd]} ∪ ∅) m 25 b → tree m → (held P + 2 ≤ NINODE)%nat →
  m !! d = Some fd → a_type fd = T_DIR → a_nlink fd ≠ 0 → dlookup (a_data fd) name = Some j → proper (cname name) →
  let i := de_inum (dent (a_data fd) j) in m !! i = Some gi →
  let fd' := set_data (dclear (a_data fd) j) fd in
  let res := if decide (a_type gi = T_DIR) then
      if dempty (a_data gi) then (0, dropped P.*2 i (<[i := set_links (a_nlink gi - 1) gi]> (<[d := set_links (a_nlink fd - 1) fd']> m))) else (-1, m)
    else (0, dropped P.*2 i (<[i := set_links (a_nlink gi - 1) gi]> (<[d := fd']> m))) in
  ∃ c' ic', ('(o, c, g, ic) ← dirlookup sb dr c g ic kd name;
    match o with
    | None => unlink_bad sb c g ic kd
    | Some (ip, off) =>
        '(c, ic) ← ilock_at sb c ic ip;
        x ← deref ic ip;
        if nlink x <? 1 then Panic "unlink: nlink < 1"
        else
          '(full, c, g, ic) ← (if itype x =? T_DIR then '(e, c, g, ic) ← isdirempty sb dr c g ic ip; Ok (negb e, c, g, ic) else Ok (false, c, g, ic));
          if full : bool then '(c, g, ic) ← iunlockput sb c g ic ip; unlink_bad sb c g ic kd
          else
            '(r, c, g, ic) ← writei_at sb dw c g ic kd (replicate DIRENT 0) off;
            if negb (r =? 16) then Panic "unlink: writei"
            else
              '(c, g, ic) ← (if itype x =? T_DIR then add_nlink sb c g ic kd (-1) else Ok (c, g, ic));
              '(c, g, ic) ← iunlockput sb c g ic kd;
              '(c, g, ic) ← add_nlink sb c g ic ip (-1);
              '(c, g, ic) ← iunlockput sb c g ic ip;
              '(c, g) ← end_op c g;
              Ok (0, c, g, ic)
    end) = Ok (res.1, c', g0, ic') ∧ rest c' ic' P res.2 b ∧ tree res.2.
Proof using BL HL Hid Hlsz FL.
  intros Ht Htr Hca Hfd Hfdt Hfdn Hj Hp i Hgi fd' res. destruct (dir_dclear m d fd name j Htr Hfd Hfdt Hfdn Hj Hp) as (_ & _ & _ & _ & Hlt & He). fold i in He.
  destruct (entry_linked m d _ i Htr He) as (gi' & Hgi' & Hgn). simplify_eq. pose proof (proper_not_self m d _ i Htr He Hp) as Hne. pose proof (tree_nonneg m i gi Htr Hgi) as Hg0.
  destruct (tr_dir _ Htr d fd Hfd Hfdt Hfdn) as (Hdir & _ & _). assert ((kd, d) ∈ (kd, d) :: P) as Hind by apply ptr_1.
  pose proof (r_dirlookup g0 HL Hid Hlsz sb FL dr _ _ _ _ _ _ _ _ kd d fd name Ht Hind (lock_in _ _) Hfd Hdir) as H1. rewrite Hj in H1. fold i in H1.
  pose proof (held_cons (kd, d) P) as Hhc. destruct H1 as (ki & c1 & ic1 & E1 & Ht1); [by eexists|right; lia|]. rewrite E1, bind_Ok. clear E1.
  assert ((ki, i) ∈ (ki, i) :: (kd, d) :: P ∧ (kd, d) ∈ (ki, i) :: (kd, d) :: P) as [Hini Hind'] by (split; [apply ptr_1|apply ptr_2]).
  assert (ki ≠ kd) as Hk by (intros E; apply Hne, (txn_inj g0 sb _ _ _ _ _ _ _ _ ki i kd d Ht1); done).
  assert (ki ∉ ({[kd]} ∪ ∅ : gset nat)) as HkL by (rewrite elem_of_union, elem_of_singleton; intros [?|?%elem_of_empty]; done).
  destruct (r_ilock g0 HL Hid Hlsz sb FL _ _ _ _ _ _ _ _ ki i Ht1 Hini HkL) as (c2 & ic2 & E2 & Ht2). rewrite E2, bind_Ok. clear E2.
  destruct (r_locked g0 sb _ _ _ _ _ _ _ _ ki i Ht2 Hini (lock_in _ _)) as (x & gi' & Ed & Hgi' & Ety & Enl & _). simplify_eq. rewrite Ed, bind_Ok, Ety, Enl. clear Ed.
  rewrite (proj2 (Z.ltb_ge _ _)) by lia. assert (is_short (a_nlink gi - 1)) as Hsi.
  { destruct Ht2 as (v & bl & _ & Hh & _). destruct (shows_live g0 sb v m i gi (im_files _ _ _ _ _ _ _ Hh) Hgi) as [Hl ->].
    destruct (gf_short _ _ _ _ (ck_file _ _ _ (im_ck _ _ _ _ _ _ _ Hh) i Hl)) as (_ & _ & _ & Hs). unfold is_short, afile_of in *. cbn [a_nlink] in *. lia. }
  assert (linked m d) as Hld by (by exists fd). destruct (Z.eqb_spec (a_type gi) T_DIR) as [Hgt|Hgt].
  - unfold res. rewrite decide_True by done. destruct (tr_dir _ Htr i gi Hgi Hgt ltac:(lia)) as (Hgdir & _ & p & Hdots & _).
    destruct (r_isdirempty g0 HL Hid Hlsz sb FL dr _ _ _ _ _ _ _ _ ki i gi Ht2 Hini (lock_in _ _) Hgi Hgdir Hdots) as (c3 & E3 & Ht3). rewrite E3, !bind_Ok. clear E3.
    destruct (dempty (a_data gi)) eqn:Eem; cbn [negb fst snd].
    + destruct (tree_rmdir m d fd name j gi Htr Hfd Hfdt Hfdn Hj Hp Hgi Hgt Eem) as (_ & _ & _ & Hf1 & Htr'). fold i in Htr'.
      destruct (r_clear g0 HL Hid Hlsz sb FL dw _ _ _ _ _ _ 18 _ kd d fd j Ht3 Hind') as (c4 & g4 & ic4 & E4 & Ht4); [apply elem_of_union; right; apply lock_in|done|done|done|].
      rewrite E4, bind_Ok. change (16 =? 16) with true. cbn [negb]. change (set_data _ fd) with fd' in Ht4.
      destruct (r_add_nlink g0 HL Hid Hlsz sb FL _ _ _ _ _ _ 17 _ kd d fd' (-1) Ht4 Hind') as (c5 & g5 & ic5 & E5 & Ht5); [apply elem_of_union; right; apply lock_in|by rewrite lookup_insert_eq| |].
      { destruct Ht2 as (v & bl & _ & Hh & _). destruct (shows_live g0 sb v m d fd (im_files _ _ _ _ _ _ _ Hh) Hfd) as [Hl E].
        destruct (gf_short _ _ _ _ (ck_file _ _ _ (im_ck _ _ _ _ _ _ _ Hh) d Hl)) as (_ & _ & _ & Hs). change (a_nlink fd') with (a_nlink fd). rewrite E. unfold is_short, afile_of in *. rewrite E in Hf1. cbn [a_nlink afile_of] in *. lia. }
      rewrite E5, bind_Ok. change (a_nlink fd' + -1) with (a_nlink fd - 1) in Ht5. rewrite insert_insert_eq in Ht5.
      destruct (unlink_tail c5 g5 ic5 P _ 13 b kd d ki i gi Ht5 Hne) as (c6 & ic6 & E6 & Hr6); [eexists; rewrite lookup_insert_eq; split; [done|cbn; lia]|by rewrite lookup_insert_ne|done|].
      rewrite E6. exists c6, ic6. split_and!; [done|done|by apply tree_dropped].
    + destruct (r_iunlockput_keep g0 HL Hid Hlsz sb FL _ _ _ _ _ _ _ _ ki i Ht3) as (c4 & g4 & ic4 & E4 & Ht4); [apply lock_in|lia|right; by exists gi|].
      rewrite E4, bind_Ok. rewrite lock_back in Ht4 by done. destruct (unlink_bad_spec c4 g4 ic4 P m 24 b kd d Ht4 Hld) as (c5 & ic5 & E5 & Hr5). rewrite E5. by exists c5, ic5.
  - unfold res. rewrite decide_False by done. cbn [fst snd]. rewrite bind_Ok.
    destruct (r_clear g0 HL Hid Hlsz sb FL dw _ _ _ _ _ _ 18 _ kd d fd j Ht2 Hind') as (c4 & g4 & ic4 & E4 & Ht4); [apply elem_of_union; right; apply lock_in|done|done|done|].
    rewrite E4, bind_Ok. change (16 =? 16) with true. cbn [negb]. rewrite bind_Ok. change (set_data _ fd) with fd' in Ht4.
    destruct (unlink_tail c4 g4 ic4 P _ 14 b kd d ki i gi Ht4 Hne) as (c6 & ic6 & E6 & Hr6); [eexists; by rewrite lookup_insert_eq|by rewrite lookup_insert_ne|done|].
    rewrite E6. exists c6, ic6. split_and!; [done|done|]. apply tree_dropped. by apply (tree_unlink m d fd name j gi).
Qed.

Lemma unlink_spec c ic P m b cwd ci path : rest c ic P m b → ready P m cwd ci → path_ok m ci path →
  let res := spec_unlink P.*2 m ci path in
  ∃ c' ic', sys_unlink sb dr dw c g0 ic cwd (Some path) = Ok (res.1, c', g0, ic') ∧ rest c' ic' P res.2 b ∧ tree res.2.
Proof using BL HL Hid Hlsz FL.
  intros Hrest Hrd [Hn Hpl]. pose proof Hrd as [Htr Hcwd Hca]. pose proof (tree_paths m Htr) as Htp. destruct (txn_start g0 Hid sb _ _ _ _ _ Hrest) as [E0 Ht0].
  unfold sys_unlink. rewrite E0, bind_Ok.
  pose proof (r_nameiparent g0 HL Hid Hlsz sb FL dr _ _ _ _ _ 24 _ cwd ci path Ht0 Hcwd Htp (start_linked m ci path Htr Hpl) Hn ltac:(lia)) as H1.
  unfold spec_unlink, find_parent. destruct (resolve_parent m (start_of ci path) (elems path)) as [d|] eqn:Ed; cbn [mbind option_bind].
  2:{ destruct H1 as (name & c1 & ic1 & E1 & Ht1). rewrite E1, bind_Ok. destruct (txn_end g0 HL Hid Hlsz sb FL _ _ _ _ _ _ _ Ht1) as (c2 & E2 & Hr). rewrite E2, bind_Ok. by exists c2, ic1. }
  destruct H1 as (kd & c1 & ic1 & E1 & Ht1 & Hld). rewrite E1, bind_Ok. destruct (parent_dir _ _ _ _ Ed) as (fd & Hfd & Hfdt). rewrite Hfd. cbn [mbind option_bind].
  assert (a_nlink fd ≠ 0) as Hfdn by (destruct Hld as (fd' & ? & ?); congruence). assert ((kd, d) ∈ (kd, d) :: P) as Hin by apply ptr_1.
  destruct (r_ilock g0 HL Hid Hlsz sb FL _ _ _ _ _ _ _ _ kd d Ht1 Hin (not_elem_of_empty kd)) as (c2 & ic2 & E2 & Ht2). rewrite E2, bind_Ok.
  fold (last_name path). rewrite namecmp_dots. destruct (decide (proper (cname (last_name path)))) as [Hp|Hp]; [rewrite bool_decide_eq_true_2 by done|rewrite bool_decide_eq_false_2 by done]; cbn [negb].
  2:{ destruct (unlink_bad_spec c2 _ ic2 P m 24 b kd d Ht2 Hld) as (c3 & ic3 & E3 & Hr3). rewrite E3. by exists c3, ic3. }
  destruct (dlookup (a_data fd) (last_name path)) as [j|] eqn:Ej.
  - destruct (dir_dclear m d fd _ j Htr Hfd Hfdt Hfdn Ej Hp) as (_ & _ & _ & _ & _ & He). destruct (entry_linked m d _ _ Htr He) as (gi & Hgi & _).
    destruct (unlink_found c2 _ ic2 P m b kd d fd _ j gi Ht2 Htr ltac:(lia) Hfd Hfdt Hfdn Ej Hp Hgi) as (c3 & ic3 & E3 & Hr3 & Htr3). exists c3, ic3. cbv zeta. rewrite Hgi. by split_and!.
  - destruct (tr_dir _ Htr d fd Hfd Hfdt Hfdn) as (Hdir & _ & _).
    pose proof (r_dirlookup g0 HL Hid Hlsz sb FL dr _ _ _ _ _ _ _ _ kd d fd (last_name path) Ht2 Hin (lock_in _ _) Hfd Hdir) as H3. rewrite Ej in H3. destruct H3 as (c3 & E3 & Ht3).
    rewrite E3, bind_Ok. destruct (unlink_bad_spec c3 _ ic2 P m 24 b kd d Ht3 Hld) as (c4 & ic4 & E4 & Hr4). rewrite E4. by exists c4, ic4.
Qed.

(** ** [create] *)

Lemma fresh_none m i : fresh_inum sb m = Some i → m !! i = None.
Proof. unfold fresh_inum. intros Hi%head_Some_elem_of. by apply list_elem_of_filter in Hi as [? _]. Qed.

Lemma r_dirlink_or_panic msg c g ic P L m n b k d f name i : txn c g ic P L m (7 + n) (2 + b) → (k, d) ∈ P → k ∈ L → m !! d = Some f → is_dir f →
  dlookup (a_data f) name = None → (length (a_data f) + DIRENT ≤ MAXBYTES)%nat →
  ∃ c' g' ic', dirlink_or_panic sb dr dw msg c g ic k name i = Ok (c', g', ic') ∧ txn c' g' ic' P L (<[d := set_data (dlink (a_data f) name i) f]> m) n b.
Proof using BL HL Hid Hlsz FL.
  intros Ht Hk HkL Hf Hd Hno Hmax. destruct (r_dirlink g0 HL Hid Hlsz sb FL dr dw _ _ _ _ _ _ _ _ k d f name i Ht Hk HkL Hf Hd Hno Hmax) as (c' & g' & ic' & E & Ht').
  exists c', g', ic'. unfold dirlink_or_panic. by rewrite E.
Qed.

(** The entries of a new directory. *)
Lemma dots_spec c g ic P m b kd d fd ki i maj min : let f0 := AFile T_DIR maj min 1 [] in let P1 := (ki, i) :: (kd, d) :: P in let L1 := {[ki]} ∪ ({[kd]} ∪ ∅) in
  txn c g ic P1 L1 (<[i := f0]> m) 23 (6 + b) → i ≠ d → m !! d = Some fd → is_short (a_nlink fd + 1) → is_ushort i → i ≠ 0 → is_ushort d → d ≠ 0 →
  ∃ c' g' ic', ('(c, g, ic) ← add_nlink sb c g ic kd 1;
     '(c, g, ic) ← dirlink_or_panic sb dr dw "create dots" c g ic ki DOT i;
     dirlink_or_panic sb dr dw "create dots" c g ic ki DOTDOT d) = Ok (c', g', ic') ∧
    txn c' g' ic' P1 L1 (<[d := set_links (a_nlink fd + 1) fd]> (<[i := AFile T_DIR maj min 1 (new_dir i d)]> m)) 8 (2 + b).
Proof using BL HL Hid Hlsz FL.
  intros f0 P1 L1 Ht Hne Hfd Hs Hi Hi0 Hd Hd0. destruct (new_dir_spec i d Hi Hi0 Hd Hd0) as (N1 & N2 & Len1 & _).
  assert (kd ∈ L1 ∧ ki ∈ L1) as [Hkd Hki] by (split; [apply elem_of_union; right; apply lock_in|apply lock_in]).
  destruct (r_add_nlink g0 HL Hid Hlsz sb FL _ _ _ _ _ _ 22 _ kd d fd 1 Ht (ptr_2 _ _ _) Hkd) as (c1 & g1' & ic1 & E1 & Ht1); [by rewrite lookup_insert_ne|done|]. rewrite E1, bind_Ok.
  rewrite insert_insert_ne in Ht1 by done.
  destruct (r_dirlink_or_panic "create dots" _ _ _ _ _ _ 15 (4 + b) ki i f0 DOT i Ht1 (ptr_1 _ _) Hki) as (c2 & g2 & ic2 & E2 & Ht2);
    [by rewrite lookup_insert_eq|by split|exact N1|change (length (a_data f0)) with 0%nat; unfold DIRENT, MAXBYTES, BSIZE; lia|]. rewrite E2, bind_Ok.
  cbn [f0 a_data set_data a_type a_major a_minor a_nlink] in Ht2. rewrite insert_insert_eq in Ht2.
  destruct (r_dirlink_or_panic "create dots" _ _ _ _ _ _ 8 (2 + b) ki i (AFile T_DIR maj min 1 (dlink [] DOT i)) DOTDOT d Ht2 (ptr_1 _ _) Hki ltac:(by rewrite lookup_insert_eq)) as (c3 & g3 & ic3 & E3 & Ht3);
    [split; [done|]; cbn [a_data]; by rewrite Len1|done|cbn [a_data]; rewrite Len1; unfold DIRENT, MAXBYTES, BSIZE; lia|].
  exists c3, g3, ic3. split; [done|]. unfold set_data at 1 in Ht3. cbn [set_data a_type a_major a_minor a_nlink a_data] in Ht3. rewrite insert_insert_eq in Ht3. by rewrite insert_insert_ne by done.
Qed.

Lemma create_new_spec c g ic P m b kd d fd name type maj min i : txn c g ic ((kd, d) :: P) ({[kd]} ∪ ∅) m 25 (6 + b) → tree m → (held P + 2 ≤ NINODE)%nat →
  m !! d = Some fd → a_type fd = T_DIR → a_nlink fd ≠ 0 → dlookup (a_data fd) name = None → (length (a_data fd) + DIRENT ≤ MAXBYTES)%nat → fresh_inum sb m = Some i →
  is_short type → type ≠ 0 → is_short maj → is_short min → (type = T_DIR → is_short (a_nlink fd + 1)) →
  ∃ ki c' g' ic', create_new sb dr dw c g ic kd name type maj min = Ok (ki, c', g', ic') ∧
    txn c' g' ic' ((ki, i) :: P) ({[ki]} ∪ ∅) (created m d fd name i type maj min) 1 b ∧ tree (created m d fd name i type maj min).
Proof using BL HL Hid Hlsz FL.
  intros Ht Htr Hca Hfd Hfdt Hfdn Hno Hmax Hi Hty Ht0 Hma Hmi Hnl. pose proof (fresh_none m i Hi) as Hnone. assert (i ≠ d) as Hne by congruence.
  pose proof (held_cons (kd, d) P) as Hhc. pose proof (tree_nonneg m d fd Htr Hfd) as Hnn. destruct (tr_dir _ Htr d fd Hfd Hfdt Hfdn) as (Hdir & _ & _).
  destruct (r_locked g0 sb _ _ _ _ _ _ _ _ kd d Ht (ptr_1 _ _) (lock_in _ _)) as (ipd & fd' & Ed & Hfd' & _ & _ & Edi & Edv). simplify_eq.
  unfold create_new. rewrite Ed, bind_Ok, Edv.
  destruct (r_create g0 HL Hid Hlsz sb FL _ _ _ _ _ _ 23 _ type maj min i Ht Hi ltac:(lia) Hty Ht0 Hma Hmi) as (ki & c1 & g1' & ic1 & c2 & ic2 & ip & c3 & g3 & E1 & E2 & E3 & E4 & Ht1 & Ei & Hir).
  rewrite E1, bind_Ok, E2, bind_Ok, E3, bind_Ok. cbn zeta. rewrite E4, bind_Ok. cbn [set_nlink set_devno inum]. rewrite Ei.
  destruct (txn_range _ _ _ _ _ _ _ _ i Ht1 ltac:(by rewrite lookup_insert_eq)) as [Hiu Hi0]. destruct (txn_range _ _ _ _ _ _ _ _ (inum ipd) Ht ltac:(by eexists)) as [Hdu Hd0].
  assert (ki ≠ kd) as Hk by (intros E; apply Hne, (txn_inj g0 sb _ _ _ _ _ _ _ _ ki i kd (inum ipd) Ht1); [apply ptr_1|apply ptr_2|done]).
  assert (∃ c4 g4 ic4 F m1, (if type =? T_DIR then
     '(c, g, ic) ← add_nlink sb c3 g3 (<[ki := set_nlink 1 (set_devno maj min ip)]> ic2) kd 1;
     '(c, g, ic) ← dirlink_or_panic sb dr dw "create dots" c g ic ki DOT i;
     dirlink_or_panic sb dr dw "create dots" c g ic ki DOTDOT (inum ipd)
   else Ok (c3, g3, <[ki := set_nlink 1 (set_devno maj min ip)]> ic2)) = Ok (c4, g4, ic4) ∧
   txn c4 g4 ic4 ((ki, i) :: (kd, inum ipd) :: P) ({[ki]} ∪ ({[kd]} ∪ ∅)) m1 8 (2 + b) ∧ m1 !! inum ipd = Some F ∧ a_data F = a_data fd ∧ a_type F = T_DIR ∧ a_nlink F ≠ 0 ∧
   <[inum ipd := set_data (dlink (a_data fd) name i) F]> m1 = created m (inum ipd) fd name i type maj min) as (c4 & g4 & ic4 & F & m1 & E5 & Ht4 & HF & EF & HFt & HFn & Em).
  { unfold created. destruct (Z.eqb_spec type T_DIR) as [->|Hnd].
    - destruct (dots_spec c3 g3 _ P m b kd (inum ipd) fd ki i maj min Ht1 Hne Hfd (Hnl eq_refl) Hiu Hi0 Hdu Hd0) as (c4 & g4 & ic4 & E5 & Ht4).
      eexists c4, g4, ic4, (set_links (a_nlink fd + 1) fd), _. split; [exact E5|]. split; [exact Ht4|]. rewrite lookup_insert_eq, insert_insert_eq. split_and!; [done|done|done|cbn; lia|done].
    - eexists c3, g3, _, fd, _. split; [done|]. split; [eapply txn_weaken; [exact Ht1|lia|lia]|]. rewrite lookup_insert_ne by done. by rewrite (decide_False (P := type = T_DIR)). }
  rewrite E5, bind_Ok. destruct (r_dirlink_or_panic "create: dirlink" _ _ _ _ _ _ 1 b kd (inum ipd) F name i Ht4 (ptr_2 _ _ _)) as (c5 & g5 & ic5 & E6 & Ht5);
    [apply elem_of_union; right; apply lock_in|done|split; [done|]; rewrite EF; apply Hdir|by rewrite EF|by rewrite EF|]. rewrite E6, bind_Ok. rewrite EF, Em in Ht5.
  apply (txn_perm _ _ _ _ _ _ ((kd, inum ipd) :: (ki, i) :: P)) in Ht5; [|apply Permutation_swap].
  assert (linked (created m (inum ipd) fd name i type maj min) (inum ipd)) as Hld by (rewrite <- Em; eexists; by rewrite lookup_insert_eq).
  destruct (r_iunlockput_keep g0 HL Hid Hlsz sb FL _ _ _ _ _ _ _ _ kd (inum ipd) Ht5) as (c6 & g6 & ic6 & E7 & Ht6); [apply elem_of_union; right; apply lock_in|lia|by right|].
  rewrite E7, bind_Ok. rewrite lock_swap in Ht6 by (done || apply not_elem_of_empty). exists ki, c6, g6, ic6. split_and!; [done|done|].
  unfold created. case_decide as Hd; [apply tree_mkdir; [done|done|done|lia|done..]|apply tree_link; try done; by right].
Qed.

(** What [create] needs if the name is new. *)
Definition create_ok (m : gmap Z afile) (ci : Z) (path : list Z) (type : Z) : Prop :=
  ∀ d fd, find_parent m ci path = Some (d, fd) → dlookup (a_data fd) (last_name path) = None →
    (length (a_data fd) + DIRENT ≤ MAXBYTES)%nat ∧ is_Some (fresh_inum sb m) ∧ (type = T_DIR → a_nlink fd + 1 < 2 ^ 15).

Lemma create_spec c g ic P m b cwd ci path type maj min : txn c g ic P ∅ m 25 (6 + b) → ready P m cwd ci → path_ok m ci path → create_ok m ci path type →
  is_short type → type ≠ 0 → is_short maj → is_short min →
  let '(o, m') := spec_create sb m ci path type maj min in
  match o with
  | None => ∃ c' g' ic', create sb dr dw c g ic cwd path type maj min = Ok (None, c', g', ic') ∧ txn c' g' ic' P ∅ m' 1 b ∧ tree m'
  | Some i => ∃ k c' g' ic', create sb dr dw c g ic cwd path type maj min = Ok (Some k, c', g', ic') ∧ txn c' g' ic' ((k, i) :: P) ({[k]} ∪ ∅) m' 1 b ∧ tree m' ∧ linked m' i
  end.
Proof using BL HL Hid Hlsz FL.
  intros Ht0 [Htr Hcwd Hca] [Hn Hpl] Hok Hty Hty0 Hma Hmi. unfold create.
  pose proof (r_nameiparent g0 HL Hid Hlsz sb FL dr _ _ _ _ _ 24 _ cwd ci path Ht0 Hcwd (tree_paths m Htr) (start_linked m ci path Htr Hpl) Hn ltac:(lia)) as H1.
  unfold create_ok in Hok. unfold spec_create, find_parent in *. destruct (resolve_parent m (start_of ci path) (elems path)) as [d|] eqn:Ed; cbn [mbind option_bind] in *.
  2:{ destruct H1 as (name & c1 & ic1 & E1 & Ht1). rewrite E1, bind_Ok. eexists c1, _, ic1. split_and!; [done|eapply txn_weaken; [exact Ht1|lia|lia]|done]. }
  destruct H1 as (kd & c1 & ic1 & E1 & Ht1 & Hld). rewrite E1, bind_Ok. destruct (parent_dir _ _ _ _ Ed) as (fd & Hfd & Hfdt). rewrite Hfd in *. cbn [mbind option_bind] in *.
  assert (a_nlink fd ≠ 0) as Hfdn by (destruct Hld as (fd' & ? & ?); congruence). fold (last_name path). destruct (tr_dir _ Htr d fd Hfd Hfdt Hfdn) as (Hdir & Hnd & _).
  destruct (r_ilock g0 HL Hid Hlsz sb FL _ _ _ _ _ _ _ _ kd d Ht1 (ptr_1 _ _) (not_elem_of_empty kd)) as (c2 & ic2 & E2 & Ht2). rewrite E2, bind_Ok.
  pose proof (r_dirlookup g0 HL Hid Hlsz sb FL dr _ _ _ _ _ _ _ _ kd d fd (last_name path) Ht2 (ptr_1 _ _) (lock_in _ _) Hfd Hdir) as H3.
  pose proof (held_cons (kd, d) P) as Hhc. destruct (dlookup (a_data fd) (last_name path)) as [j|] eqn:Ej.
  - destruct (dlookup_slot _ _ _ Ej) as [Hlt Hs]. cbn zeta in H3 |- *. set (i := de_inum (dent (a_data fd) j)) in *.
    destruct (entry_linked m d (cname (last_name path)) i Htr) as (gi & Hgi & Hgn); [exists fd; split_and!; [done|done|done|by eapply dmap_slot]|]. rewrite Hgi.
    destruct H3 as (ki & c3 & ic3 & E3 & Ht3); [by eexists|right; lia|]. rewrite E3, bind_Ok.
    apply (txn_perm _ _ _ _ _ _ ((kd, d) :: (ki, i) :: P)) in Ht3; [|apply Permutation_swap].
    destruct (r_iunlockput_keep g0 HL Hid Hlsz sb FL _ _ _ _ _ _ _ _ kd d Ht3) as (c4 & g4 & ic4 & E4 & Ht4); [apply lock_in|lia|by right|].
    rewrite E4, bind_Ok. rewrite lock_back in Ht4 by apply not_elem_of_empty.
    destruct (r_ilock g0 HL Hid Hlsz sb FL _ _ _ _ _ _ _ _ ki i Ht4 (ptr_1 _ _) (not_elem_of_empty ki)) as (c5 & ic5 & E5 & Ht5). rewrite E5, bind_Ok.
    destruct (r_locked g0 sb _ _ _ _ _ _ _ _ ki i Ht5 (ptr_1 _ _) (lock_in _ _)) as (x & gi' & Edx & Hgi' & Ety & _). simplify_eq. rewrite Edx, bind_Ok, Ety.
    destruct (decide (type = T_FILE ∧ a_type gi = T_FILE)) as [[-> ->]|Hnot].
    + exists ki, c5, g4, ic5. split_and!; [done|eapply txn_weaken; [exact Ht5|lia|lia]|done|by exists gi].
    + assert ((type =? T_FILE) && (a_type gi =? T_FILE) = false) as -> by (apply andb_false_iff; rewrite !Z.eqb_neq; destruct (decide (type = T_FILE)); [right; tauto|by left]).
      destruct (r_iunlockput_keep g0 HL Hid Hlsz sb FL _ _ _ _ _ _ _ _ ki i Ht5) as (c6 & g6 & ic6 & E6 & Ht6); [apply lock_in|lia|right; by exists gi|].
      rewrite E6, bind_Ok. rewrite lock_back in Ht6 by apply not_elem_of_empty. exists c6, g6, ic6. split_and!; [done|eapply txn_weaken; [exact Ht6|lia|lia]|done].
  - destruct (Hok d fd eq_refl Ej) as (Hmax & [i Hi] & Hnl). rewrite Hi. destruct H3 as (c3 & E3 & Ht3). rewrite E3, bind_Ok. pose proof (tree_nonneg m d fd Htr Hfd).
    destruct (create_new_spec c3 _ ic2 P m b kd d fd _ type maj min i Ht3 Htr ltac:(lia) Hfd Hfdt Hfdn Ej Hmax Hi Hty Hty0 Hma Hmi) as (ki & c4 & g4 & ic4 & E4 & Ht4 & Htr4).
    { intros Htd. specialize (Hnl Htd). unfold is_short. lia. }
    rewrite E4, bind_Ok. exists ki, c4, g4, ic4. split_and!; [done|done|done|]. assert (i ≠ d) by (intros ->; apply fresh_none in Hi; congruence).
    unfold created, linked. case_decide; eexists; (rewrite lookup_insert_ne, lookup_insert_eq by done; done).
Qed.

Lemma put_created_spec c g ic P m n b o : match o with
    | None => txn c g ic P ∅ m n b
    | Some (k, i) => txn c g ic ((k, i) :: P) ({[k]} ∪ ∅) m (S n) b ∧ linked m i
    end →
  ∃ c' ic', put_created sb (fst <$> o) c g ic = Ok (match o with Some _ => 0 | None => -1 end, c', g0, ic') ∧ rest c' ic' P m b.
Proof using BL HL Hid Hlsz FL.
  destruct o as [[k i]|]; cbn [put_created fmap option_fmap option_map fst].
  - intros [Ht Hl]. destruct (r_iunlockput_keep g0 HL Hid Hlsz sb FL _ _ _ _ _ _ _ _ k i Ht) as (c1 & g1' & ic1 & E1 & Ht1); [apply lock_in|lia|by right|].
    rewrite E1, bind_Ok. rewrite lock_back in Ht1 by apply not_elem_of_empty. destruct (txn_end g0 HL Hid Hlsz sb FL _ _ _ _ _ _ _ Ht1) as (c2 & E2 & Hr). rewrite E2, bind_Ok. by exists c2, ic1.
  - intros Ht. destruct (txn_end g0 HL Hid Hlsz sb FL _ _ _ _ _ _ _ Ht) as (c2 & E2 & Hr). rewrite E2, bind_Ok. by exists c2, ic.
Qed.

(** [mkdir] and [mknod]. *)
Definition made (o : option Z) : Z := match o with Some _ => 0 | None => -1 end.

Lemma make_spec c ic P m b cwd ci path type maj min : rest c ic P m (6 + b) → ready P m cwd ci → path_ok m ci path → create_ok m ci path type →
  is_short type → type ≠ 0 → is_short maj → is_short min →
  let res := spec_create sb m ci path type maj min in
  ∃ c' ic', (g ← start_op g0; '(o, c, g, ic) ← create sb dr dw c g ic cwd path type maj min; put_created sb o c g ic) = Ok (made res.1, c', g0, ic') ∧
    rest c' ic' P res.2 b ∧ tree res.2.
Proof using BL HL Hid Hlsz FL.
  intros Hrest Hrd Hp Hok Hty Ht0 Hma Hmi. destruct (txn_start g0 Hid sb _ _ _ _ _ Hrest) as [E0 Ht]. rewrite E0, bind_Ok.
  pose proof (create_spec c _ ic P m b cwd ci path type maj min Ht Hrd Hp Hok Hty Ht0 Hma Hmi) as H1. destruct (spec_create sb m ci path type maj min) as [[i|] m']; cbn [fst snd].
  - destruct H1 as (k & c1 & g1' & ic1 & E1 & Ht1 & Htr & Hl). rewrite E1, bind_Ok. destruct (put_created_spec c1 g1' ic1 P m' 0 b (Some (k, i)) (conj Ht1 Hl)) as (c2 & ic2 & E2 & Hr).
    exists c2, ic2. split_and!; [exact E2|done|done].
  - destruct H1 as (c1 & g1' & ic1 & E1 & Ht1 & Htr). rewrite E1, bind_Ok. destruct (put_created_spec c1 g1' ic1 P m' 1 b None Ht1) as (c2 & ic2 & E2 & Hr).
    exists c2, ic2. split_and!; [exact E2|done|done].
Qed.

(** ** [chdir] *)

Lemma chdir_spec c ic Q m b cwd ci path : rest c ic ((cwd, ci) :: Q) m b → ready ((cwd, ci) :: Q) m cwd ci → path_ok m ci path →
  match find m ci path with
  | Some (i, f) =>
      if decide (a_type f = T_DIR) then
        ∃ k c' ic', sys_chdir sb dr c g0 ic cwd (Some path) = Ok (0, k, c', g0, ic') ∧ rest c' ic' ((k, i) :: Q) (dropped (i :: Q.*2) ci m) b
      else ∃ c' ic', sys_chdir sb dr c g0 ic cwd (Some path) = Ok (-1, cwd, c', g0, ic') ∧ rest c' ic' ((cwd, ci) :: Q) m b
  | None => ∃ c' ic', sys_chdir sb dr c g0 ic cwd (Some path) = Ok (-1, cwd, c', g0, ic') ∧ rest c' ic' ((cwd, ci) :: Q) m b
  end.
Proof using BL HL Hid Hlsz FL.
  intros Hrest [Htr Hcwd Hca] [Hn Hpl]. destruct (txn_start g0 Hid sb _ _ _ _ _ Hrest) as [E0 Ht0]. unfold sys_chdir, find. rewrite E0, bind_Ok.
  pose proof (r_namei g0 HL Hid Hlsz sb FL dr _ _ _ _ _ 24 _ cwd ci path Ht0 Hcwd (tree_paths m Htr) (start_linked m ci path Htr Hpl) Hn ltac:(lia)) as H1.
  destruct (resolve m (start_of ci path) (elems path)) as [i|]; cbn [mbind option_bind].
  2:{ destruct H1 as (c1 & ic1 & E1 & Ht1). rewrite E1, bind_Ok. destruct (txn_end g0 HL Hid Hlsz sb FL _ _ _ _ _ _ _ Ht1) as (c2 & E2 & Hr). rewrite E2, bind_Ok. by exists c2, ic1. }
  destruct H1 as (k & c1 & ic1 & E1 & Ht1 & f & Hf & Hfn). rewrite E1, bind_Ok, Hf. cbn [mbind option_bind].
  destruct (r_ilock g0 HL Hid Hlsz sb FL _ _ _ _ _ _ _ _ k i Ht1 (ptr_1 _ _) (not_elem_of_empty k)) as (c2 & ic2 & E2 & Ht2). rewrite E2, bind_Ok.
  destruct (r_locked g0 sb _ _ _ _ _ _ _ _ k i Ht2 (ptr_1 _ _) (lock_in _ _)) as (x & f' & Edx & Hf' & Ety & _). simplify_eq. rewrite Edx, bind_Ok, Ety.
  destruct (Z.eqb_spec (a_type f) T_DIR) as [Hft|Hft]; cbn [negb]; [rewrite decide_True by done|rewrite decide_False by done].
  - destruct (r_iunlock g0 sb _ _ _ _ _ _ _ _ k Ht2 (lock_in _ _)) as (ic3 & E3 & Ht3). rewrite E3, bind_Ok. rewrite lock_back in Ht3 by apply not_elem_of_empty.
    apply (txn_perm _ _ _ _ _ _ ((cwd, ci) :: (k, i) :: Q)) in Ht3; [|apply Permutation_swap].
    destruct (r_iput g0 HL Hid Hlsz sb FL _ _ _ _ _ _ _ _ cwd ci Ht3 (not_elem_of_empty cwd)) as (c4 & g4 & ic4 & n4 & E4 & Ht4 & _); [lia|right; lia|]. rewrite E4, bind_Ok.
    destruct (txn_end g0 HL Hid Hlsz sb FL _ _ _ _ _ _ _ Ht4) as (c5 & E5 & Hr). rewrite E5, bind_Ok. by exists k, c5, ic4.
  - destruct (r_iunlockput_keep g0 HL Hid Hlsz sb FL _ _ _ _ _ _ _ _ k i Ht2) as (c4 & g4 & ic4 & E4 & Ht4); [apply lock_in|lia|right; by exists f|].
    rewrite E4, bind_Ok. rewrite lock_back in Ht4 by apply not_elem_of_empty. destruct (txn_end g0 HL Hid Hlsz sb FL _ _ _ _ _ _ _ Ht4) as (c5 & E5 & Hr). rewrite E5, bind_Ok. by exists c5, ic4.
Qed.
End calls.
