(* ===== verification/FtableSpec.v ===== *)
(** The table of open files (src/p4/file.c) on a consistent file system.

    [fsok s tb refs cw m b]: the table is [tb], a list of open files or free entries, and the reference counts are the numbers of pointers in [refs]; the file
    system is at rest and implements the files [m]; the inode pointers held are [cw], for current directories, and one for each open file; [b]
    blocks are free.  Each operation of the table has a rule from such a state to another. *)

From Stdlib Require Import ZArith Lia.
From stdpp Require Import base numbers list gmap fin_sets sets strings.
From S2P Require Import Prelude CStr MemIface Bio Log LogCrash Fs FsSpec FsTrunc Pipe File FileThm FsCk Icache IcacheSpec IcacheOps IcacheThm Dir DirSpec DirOps Ftable Sysfile Tree Txn SysfileSpec.
#[local] Open Scope Z_scope.

(** * Reading and writing one inode, at rest *)

Section rw.
Context {C : Type} `{BL : BufLaws C cview} (g0 : log) (HL : layout g0) (Hid : idle g0) (Hlsz : 28 <= lsize g0) (sb : superblock) (FL : fs_layout g0 sb).
Context (dr : Z → option (C → log → inode → Z → outcome (Z * list Z * inode * C * log))).
Context (dw : Z → option (C → log → inode → list Z → outcome (Z * inode * C * log))).
Abbreviation rest := (rest (cview := cview) g0 sb).
Abbreviation ptrs := (list (nat * Z)).

Lemma rest_perm c ic P P' m b : rest c ic P m b → P ≡ₚ P' → rest c ic P' m b.
Proof. intros (v & Hr & Hh & Hb) HP. exists v. split_and!; [done|by eapply holds_perm|done]. Qed.

Lemma rest_weaken c ic P m b b' : rest c ic P m b → (b' ≤ b)%nat → rest c ic P m b'.
Proof. intros (v & Hr & Hh & Hb) Hb'. exists v. split_and!; [done|done|lia]. Qed.

Lemma rest_entry c ic P m b k i : rest c ic P m b → (k, i) ∈ P → ∃ ip f, ic !! k = Some ip ∧ m !! i = Some f ∧ (k < length ic)%nat.
Proof.
  intros (v & _ & Hh & _) Hk. destruct (proj1 (names_ptrs ic P) (im_names _ _ _ _ _ _ _ Hh) k i Hk) as (ip & Hip & _). destruct (holds_live g0 sb _ _ _ _ _ k i Hh Hk) as [f Hf].
  exists ip, f. split_and!; [done|done|by eapply lookup_lt_Some].
Qed.

Lemma rest_size c ic P m b i f : rest c ic P m b → m !! i = Some f → Z.of_nat (length (a_data f)) <= Z.of_nat MAXBYTES.
Proof.
  intros (v & _ & Hh & _) Hf. destruct (shows_live g0 sb v m i f (im_files _ _ _ _ _ _ _ Hh) Hf) as [Hl ->]. destruct (gf_sized _ _ _ _ (ck_file _ _ _ (im_ck _ _ _ _ _ _ _ Hh) i Hl)) as [Hsz _].
  cbn [a_data afile_of]. rewrite length_content. lia.
Qed.

(** The bytes that a read at [off] returns. *)
Definition read_bytes (f : afile) (off n : Z) : list Z := take (Z.to_nat n) (drop (Z.to_nat off) (a_data f)).

Lemma rest_read c ic P m b k i f off n : rest c ic P m b → (k, i) ∈ P → m !! i = Some f → a_type f ≠ T_DEV → 0 <= off <= Z.of_nat (length (a_data f)) → 0 <= n < 2 ^ 31 →
  let x := read_bytes f off n in
  ∃ c' ic', read_inode sb dr c g0 ic k off n = Ok (Z.of_nat (length x), x, c', g0, ic') ∧ rest c' ic' P m b.
Proof using BL HL Hid FL dw.
  intros Hrest [h Hh']%list_elem_of_lookup Hf Hty Ho Hn x. pose proof (rest_size _ _ _ _ _ _ _ Hrest Hf) as Hsz. destruct Hrest as (v & Hr & Hh & Hb). assert (the_file (AFs m P.*2) h = Some (i, f)) as Etf.
  { unfold the_file. cbn [handles files]. rewrite list_lookup_fmap, Hh'. cbn. by rewrite Hf. }
  assert (off < 2 ^ 31) as Ho31 by (unfold MAXBYTES, BSIZE in Hsz; lia).
  destruct (read_call g0 HL Hid sb FL dr dw c v ic P.*1 (AFs m P.*2) h off n Hr Hh) as (c' & v' & ic' & hs' & E & Hr' & Him & Hfr).
  { exists i, f. split_and!; [done|done|unfold is_u32; lia..]. }
  cbn [spec_call] in E, Him. rewrite Etf, decide_True in E, Him by lia. cbn [fst snd] in *. cbn [do_call] in E. unfold pointer in E. rewrite list_lookup_fmap, Hh' in E.
  cbn [fmap option_fmap option_map fst] in E. rewrite bind_Ok in E. fold (read_bytes f off n) in E. fold x in E.
  destruct (read_inode sb dr c g0 ic k off n) as [[[[[r y] c1] g1] ic1]| | |]; try done. rewrite bind_Ok in E. injection E as -> -> -> -> -> <-. exists c', ic'. split; [done|].
  exists v'. cbn [call_blocks] in Hfr. split_and!; [done|done|lia].
Qed.

(** A piece of a write: one transaction. *)
Lemma rest_write c ic P m b k i f off src : rest c ic P m (8 + b) → (k, i) ∈ P → m !! i = Some f → a_type f ≠ T_DEV → 0 <= off <= Z.of_nat (length (a_data f)) →
  off + Z.of_nat (length src) <= Z.of_nat MAXBYTES → (length src ≤ 1536)%nat →
  ∃ g1 c1 g2 c' ic', begin_op g0 = Some g1 ∧ write_inode sb dw c g1 ic k off src = Ok (Z.of_nat (length src), c1, g2, ic') ∧ end_op c1 g2 = Ok (c', g0) ∧
    rest c' ic' P (<[i := set_data (write_at (a_data f) (Z.to_nat off) src) f]> m) b.
Proof using BL HL Hid Hlsz FL dr.
  intros (v & Hr & Hh & Hb) [h Hh']%list_elem_of_lookup Hf Hty Ho Hmax Hl. assert (the_file (AFs m P.*2) h = Some (i, f)) as Etf.
  { unfold the_file. cbn [handles files]. rewrite list_lookup_fmap, Hh'. cbn. by rewrite Hf. }
  destruct (write_call g0 HL Hid sb FL dr dw c v ic P.*1 (AFs m P.*2) h off src Hr Hh) as (c' & v' & ic' & hs' & E & Hr' & Him & Hfr); [|lia|lia|].
  { exists i, f. unfold MAXBYTES, BSIZE in Hmax. split_and!; [done|done|unfold is_u32; lia|done]. }
  cbn [spec_call] in E, Him. rewrite Etf, decide_True in E, Him by lia. cbn [fst snd] in *. cbn [do_call] in E. unfold pointer in E. rewrite list_lookup_fmap, Hh' in E.
  cbn [fmap option_fmap option_map fst] in E. rewrite bind_Ok in E. unfold start_op in E. destruct (begin_op g0) as [gb|]; [|done]. rewrite bind_Ok in E.
  destruct (write_inode sb dw c gb ic k off src) as [[[[r c1] g2] ic1]| | |] eqn:Ew; try done. rewrite bind_Ok in E.
  destruct (end_op c1 g2) as [[c2 g3]| | |] eqn:Ee; try done. rewrite bind_Ok in E. injection E as -> -> -> -> <-. exists gb, c1, g2, c', ic'. split_and!; [done|done|done|].
  exists v'. cbn [call_blocks] in Hfr. split_and!; [done|exact Him|lia].
Qed.

(** [fileread] of an inode is a read through its entry. *)
Lemma fileread_inode c g ic k ip rd wr off n killed : ic !! k = Some ip → rd = true →
  fileread sb dr c g (File (FD_INODE ip) rd wr off) n killed =
  ('(r, x, c, g, ic') ← read_inode sb dr c g ic k off (u32 n);
   ip' ← deref ic' k;
   Ok (r, x, File (FD_INODE ip') rd wr (if 0 <? r then u32 (off + r) else off), c, g)).
Proof.
  intros Hip ->. pose proof (lookup_lt_Some _ _ _ Hip) as Hlt. unfold fileread, read_inode, ilock_at, iunlock_at, deref. cbn [readable f_type f_off negb]. rewrite Hip, bind_Ok.
  destruct (ilock sb c ip) as [[ip1 c1]| | |]; try done. rewrite !bind_Ok, list_lookup_insert_eq, bind_Ok by done.
  destruct (readi sb dr c1 g ip1 off (u32 n)) as [[[[[r x] ip2] c2] g2]| | |]; try done. rewrite !bind_Ok, list_lookup_insert_eq, bind_Ok by (by rewrite length_insert).
  destruct (iunlock ip2) as [ip3| | |]; try done. rewrite !bind_Ok, list_lookup_insert_eq, bind_Ok by (by rewrite !length_insert). done.
Qed.

Lemma read_inode_entry c g ic k ip off n r x c' g' ic' : ic !! k = Some ip → read_inode sb dr c g ic k off n = Ok (r, x, c', g', ic') → ∃ ip', ic' = <[k := ip']> ic.
Proof.
  intros Hip. pose proof (lookup_lt_Some _ _ _ Hip) as Hlt. unfold read_inode, ilock_at, iunlock_at, deref. rewrite Hip, bind_Ok. destruct (ilock sb c ip) as [[ip1 c1]| | |]; try done.
  rewrite !bind_Ok, list_lookup_insert_eq, bind_Ok by done. destruct (readi sb dr c1 g ip1 off n) as [[[[[r1 x1] ip2] c2] g2]| | |]; try done.
  rewrite !bind_Ok, list_lookup_insert_eq, bind_Ok by (by rewrite length_insert). destruct (iunlock ip2) as [ip3| | |]; try done. rewrite !bind_Ok. intros [= _ _ _ _ <-].
  exists ip3. by rewrite !list_insert_insert_eq.
Qed.

(** The loop of [filewrite] is a sequence of pieces. *)
Lemma write_loop_spec P k i : ∀ fuel src c ic ip off j n m b f, rest c ic P m (8 * pieces (length src) + b) → (k, i) ∈ P → ic !! k = Some ip → m !! i = Some f → a_type f ≠ T_DEV →
  0 <= off <= Z.of_nat (length (a_data f)) → off + Z.of_nat (length src) <= Z.of_nat MAXBYTES → n - j = Z.of_nat (length src) → (length src ≤ fuel)%nat →
  ∃ c' ip', filewrite_loop sb dw c g0 ip off src j n fuel = Ok (n, ip', off + Z.of_nat (length src), c', g0) ∧
    rest c' (<[k := ip']> ic) P (<[i := set_data (write_at (a_data f) (Z.to_nat off) src) f]> m) b.
Proof using BL HL Hid Hlsz FL dr.
  induction fuel as [|fuel IH]; intros src c ic ip off j n m b f Hr Hk Hip Hf Hty Ho Hmax Hn Hfuel.
  - assert (src = []) as -> by (apply nil_length_inv; lia). exists c, ip. cbn [filewrite_loop length] in *. rewrite (proj2 (Z.ltb_ge _ _)) by lia. replace j with n by lia.
    rewrite Z.add_0_r. split; [done|]. rewrite list_insert_id by done. unfold write_at. cbn [length app]. rewrite Nat.add_0_r, take_drop. rewrite insert_id; [done|]. rewrite Hf. by destruct f.
  - destruct (decide (length src = 0%nat)) as [E0|Hne].
    + assert (src = []) as -> by (by apply nil_length_inv). exists c, ip. cbn [filewrite_loop length] in *. rewrite (proj2 (Z.ltb_ge _ _)) by lia. replace j with n by lia.
      rewrite Z.add_0_r. split; [done|]. rewrite list_insert_id by done. unfold write_at. cbn [length app]. rewrite Nat.add_0_r, take_drop. rewrite insert_id; [done|]. rewrite Hf. by destruct f.
    + cbn [filewrite_loop]. rewrite (proj2 (Z.ltb_lt _ _)) by lia. set (q := Nat.min 1536 (length src)). pose proof (pieces_step (length src) q ltac:(lia) eq_refl) as Hp. rewrite Hp in Hr.
      assert ((if maxwrite <? n - j then maxwrite else n - j) = Z.of_nat q) as -> by (change maxwrite with 1536; unfold q; destruct (Z.ltb_spec 1536 (n - j)); lia).
      assert (1 ≤ q ≤ length src ∧ q ≤ 1536)%nat as [Hq1 Hq2] by (unfold q; lia). rewrite !Nat2Z.id. set (x := take q src). assert (length x = q) as Hx by (unfold x; rewrite length_take; lia).
      destruct (rest_write c ic P m (8 * pieces (length src - q) + b) k i f off x) as (gb & c1 & g2 & c2 & ic2 & Eb & Ew & Ee & Hr2);
        [by eapply rest_weaken; [exact Hr|lia]|done|done|done|done|rewrite Hx; lia|lia|]. rewrite Eb. pose proof (lookup_lt_Some _ _ _ Hip) as Hlt.
      unfold write_inode, ilock_at, iunlock_at, deref in Ew. rewrite Hip, bind_Ok in Ew. destruct (ilock sb c ip) as [[ip1 c3]| | |] eqn:El; try done.
      rewrite !bind_Ok, list_lookup_insert_eq, bind_Ok in Ew by done. destruct (writei sb dw c3 gb ip1 x off) as [[[[r ip2] c4] g4]| | |] eqn:Ewi; try done.
      rewrite !bind_Ok, list_lookup_insert_eq, bind_Ok in Ew by (by rewrite length_insert). destruct (iunlock ip2) as [ip3| | |] eqn:Eu; try done. rewrite !bind_Ok in Ew. injection Ew as -> -> -> <-.
      rewrite bind_Ok, Ewi, bind_Ok, Eu, bind_Ok, Ee, bind_Ok, Hx. rewrite (proj2 (Z.ltb_ge (Z.of_nat q) 0)), (proj2 (Z.ltb_lt 0 (Z.of_nat q))), Z.eqb_refl, Nat2Z.id by lia. cbn [negb].
      rewrite (u32_small (off + Z.of_nat q)) by (unfold is_u32, MAXBYTES, BSIZE in *; lia). rewrite !list_insert_insert_eq in Hr2.
      destruct (IH (drop q src) c2 (<[k := ip3]> ic) ip3 (off + Z.of_nat q) (j + Z.of_nat q) n _ b (set_data (write_at (a_data f) (Z.to_nat off) x) f) ltac:(rewrite length_drop; exact Hr2) Hk) as (c5 & ip5 & E5 & Hr5);
        [by rewrite list_lookup_insert_eq|by rewrite lookup_insert_eq|done|cbn [set_data a_data]; rewrite length_write_at by lia; lia|rewrite length_drop; lia|rewrite length_drop; lia|rewrite length_drop; lia|].
      exists c5, ip5. rewrite length_drop in E5. split; [rewrite E5; by replace (off + Z.of_nat q + Z.of_nat (length src - q)) with (off + Z.of_nat (length src)) by lia|].
      rewrite list_insert_insert_eq, insert_insert_eq in Hr5. cbn [set_data a_data a_type a_major a_minor a_nlink] in Hr5.
      replace (Z.to_nat (off + Z.of_nat q)) with (Z.to_nat off + length x)%nat in Hr5 by lia. rewrite write_at_app in Hr5 by lia. unfold x in Hr5. by rewrite take_drop in Hr5.
Qed.
End rw.

(** * The table *)

(** An open file: its inode, its modes, its offset. *)
Record adesc := ADesc { ad_ino : Z; ad_r : bool; ad_w : bool; ad_off : Z }.
Abbreviation atable := (list (option adesc)).

Definition inos (tb : atable) : list Z := ad_ino <$> omap id tb.

(** The first free place. *)
Definition first_none {A} (l : list (option A)) : option nat := fst <$> list_find (λ x, x = None) l.

Lemma first_none_Some {A} (l : list (option A)) k : first_none l = Some k ↔ l !! k = Some None ∧ ∀ j, (j < k)%nat → ∃ x, l !! j = Some (Some x).
Proof.
  unfold first_none. split.
  - intros ([k' x] & Hf & ->)%fmap_Some. apply list_find_Some in Hf as (Hk & -> & Hj). split; [done|]. intros j Hlt. cbn in Hlt.
    destruct (l !! j) as [[x|]|] eqn:E; [by exists x|by destruct (Hj j None E Hlt)|]. apply lookup_lt_Some in Hk. apply lookup_ge_None in E. lia.
  - intros [Hk Hj]. apply fmap_Some. exists (k, None). split; [|done]. apply list_find_Some. split_and!; [done|done|]. intros j y Hy Hlt. destruct (Hj j Hlt) as [x Hx]. congruence.
Qed.

Lemma fd_scan_first l : ∀ k, fd_scan l k = Nat.add k <$> first_none l.
Proof.
  unfold first_none. induction l as [|[x|] l IH]; intros k; [done| |cbn [fd_scan list_find]; rewrite decide_True by done; cbn; f_equal; lia]. cbn [fd_scan list_find]. rewrite IH, decide_False by done.
  destruct (list_find _ l) as [[j y]|]; [|done]. cbn. f_equal. lia.
Qed.

(** How many of [refs] point to entry [j]. *)
Definition nref (j : nat) (refs : list nat) : Z := Z.of_nat (length (filter (λ x, x = j) refs)).

#[export] Instance nref_perm j : Proper ((≡ₚ) ==> eq) (nref j).
Proof. intros l l' Hl. unfold nref. by rewrite Hl. Qed.

Lemma nref_cons j x l : nref j (x :: l) = (if decide (x = j) then 1 else 0) + nref j l.
Proof. unfold nref. rewrite filter_cons. case_decide; cbn [length]; lia. Qed.

Lemma nref_pos j l : 1 <= nref j l ↔ j ∈ l.
Proof.
  induction l as [|x l IH]; [split; [unfold nref; cbn; lia|by intros ?%not_elem_of_nil]|]. rewrite nref_cons, elem_of_cons. assert (0 <= nref j l) by (unfold nref; lia).
  case_decide as E; [subst; split; [by left|lia]|]. rewrite <- IH. split; [right; lia|intros [?|?]; [congruence|lia]].
Qed.

Lemma nref_0 j l : j ∉ l → nref j l = 0.
Proof. rewrite <- nref_pos. unfold nref. lia. Qed.

(** An entry stands for an open file on an inode, or is free; what a free entry says of modes and offset does not matter. *)
Definition entry_ok (n : Z) (f : tfile) (o : option adesc) : Prop :=
  t_ref f = n ∧
  match o with
  | Some d => 1 <= n ∧ (∃ k, t_type f = FInode k) ∧ t_readable f = ad_r d ∧ t_writable f = ad_w d ∧ t_off f = ad_off d
  | None => n = 0 ∧ t_type f = FNone
  end.

Definition table_ok (ft : ftable) (tb : atable) (refs : list nat) : Prop :=
  length ft = length tb ∧ (∀ j, j ∈ refs → (j < length tb)%nat) ∧ ∀ j f o, ft !! j = Some f → tb !! j = Some o → entry_ok (nref j refs) f o.

(** The pointers of the open files. *)
Definition tptr (f : tfile) (o : option adesc) : list (nat * Z) :=
  match t_type f, o with FInode k, Some d => [(k, ad_ino d)] | _, _ => [] end.
Definition tptrs (ft : ftable) (tb : atable) : list (nat * Z) := concat (zip_with tptr ft tb).

Lemma concat_insert {A} (l : list (list A)) j x : l !! j = Some x → ∃ R, concat l ≡ₚ x ++ R ∧ ∀ y, concat (<[j := y]> l) ≡ₚ y ++ R.
Proof.
  intros Hj. exists (concat (take j l) ++ concat (drop (S j) l)). pose proof (lookup_lt_Some _ _ _ Hj). split; [|intros y].
  - rewrite <- (take_drop_middle l j x Hj) at 1. rewrite concat_app. cbn [concat]. rewrite !app_assoc. by rewrite (Permutation_app_comm x).
  - rewrite insert_take_drop, concat_app by done. cbn [concat]. rewrite !app_assoc. by rewrite (Permutation_app_comm y).
Qed.

Lemma tptrs_insert ft tb j f o : ft !! j = Some f → tb !! j = Some o →
  ∃ R, tptrs ft tb ≡ₚ tptr f o ++ R ∧ ∀ f' o', tptrs (<[j := f']> ft) (<[j := o']> tb) ≡ₚ tptr f' o' ++ R.
Proof.
  intros Hf Ho. destruct (concat_insert (zip_with tptr ft tb) j (tptr f o)) as (R & H1 & H2); [by rewrite lookup_zip_with, Hf; cbn; rewrite Ho|].
  exists R. split; [done|]. intros f' o'. unfold tptrs. rewrite <- insert_zip_with. apply H2.
Qed.

Lemma tptrs_same ft tb j f f' o : ft !! j = Some f → tb !! j = Some o → t_type f' = t_type f → tptrs (<[j := f']> ft) tb ≡ₚ tptrs ft tb.
Proof.
  intros Hf Ho Ht. destruct (tptrs_insert ft tb j f o Hf Ho) as (R & H1 & H2). rewrite H1, <- (list_insert_id tb j o) at 1 by done. rewrite H2. unfold tptr. by rewrite Ht.
Qed.

Lemma tptrs_inos ft tb refs : table_ok ft tb refs → (tptrs ft tb).*2 = inos tb.
Proof.
  intros (Hl & _ & He). assert (∀ j f o, ft !! j = Some f → tb !! j = Some o → (tptr f o).*2 = inos [o]) as Hp.
  { intros j f [d|] Hf Ho; destruct (He j f _ Hf Ho) as [_ Hx]; unfold tptr; [destruct Hx as (_ & [k ->] & _); done|by destruct Hx as [_ ->]]. }
  clear He. revert tb Hl Hp. induction ft as [|f ft IH]; intros [|o tb] Hl Hp; try done. unfold tptrs, inos in *. cbn [zip_with concat]. rewrite fmap_app, (Hp 0%nat f o eq_refl eq_refl).
  rewrite IH; [by destruct o|cbn in Hl; lia|]. intros j f' o' Hf Ho. by apply (Hp (S j)).
Qed.

(** ** Allocation, duplication *)

Lemma filealloc_first ft tb refs : table_ok ft tb refs → filealloc_scan ft 0 = first_none tb.
Proof.
  intros (Hl & _ & He). assert (∀ k, filealloc_scan ft k = Nat.add k <$> first_none tb) as ->; [|by destruct (first_none tb)].
  assert (∀ j f o, ft !! j = Some f → tb !! j = Some o → t_ref f = 0 ↔ o = None) as Hz.
  { intros j f [d|] Hf Ho; destruct (He j f _ Hf Ho) as [-> Hx]; [split; [lia|done]|split; [done|lia]]. }
  clear He. revert tb Hl Hz. induction ft as [|f ft IH]; intros [|o tb] Hl Hz k; try done. cbn [filealloc_scan]. pose proof (Hz 0%nat f o eq_refl eq_refl) as H0.
  unfold first_none in *. cbn [list_find]. destruct (Z.eqb_spec (t_ref f) 0) as [E|E].
  - rewrite decide_True by tauto. cbn. f_equal. lia.
  - rewrite decide_False by tauto. rewrite (IH tb); [|cbn in Hl; lia|by intros j; apply (Hz (S j))]. destruct (list_find _ tb) as [[j y]|]; [|done]. cbn. f_equal. lia.
Qed.

(** One entry changes, and so do the pointers to it. *)
Lemma table_update ft tb refs refs' j f o : table_ok ft tb refs → (j < length tb)%nat → (∀ i, i ∈ refs' → i ∈ refs ∨ i = j) → (∀ i, i ≠ j → nref i refs' = nref i refs) → entry_ok (nref j refs') f o →
  table_ok (<[j := f]> ft) (<[j := o]> tb) refs'.
Proof.
  intros (Hl & Hr & He) Hj Hin Hn Hok. split_and!.
  - by rewrite !length_insert.
  - intros i Hi. rewrite length_insert. destruct (Hin i Hi) as [?| ->]; [by apply Hr|done].
  - intros i f' o' Hf Ho. destruct (decide (i = j)) as [->|Hne].
    + rewrite list_lookup_insert_eq in Hf by lia. rewrite list_lookup_insert_eq in Ho by lia. by simplify_eq.
    + rewrite list_lookup_insert_ne in Hf by done. rewrite list_lookup_insert_ne in Ho by done. rewrite Hn by done. by apply He.
Qed.

Lemma table_perm ft tb refs refs' : table_ok ft tb refs → refs ≡ₚ refs' → table_ok ft tb refs'.
Proof. intros (Hl & Hr & He) Hp. split_and!; [done|intros j Hj; apply Hr; by rewrite Hp|]. intros j f o Hf Ho. rewrite <- (nref_perm j _ _ Hp). by apply He. Qed.

Lemma table_open ft tb refs j : table_ok ft tb refs → j ∈ refs → ∃ f d k, ft !! j = Some f ∧ tb !! j = Some (Some d) ∧ t_type f = FInode k ∧ entry_ok (nref j refs) f (Some d).
Proof.
  intros (Hl & Hr & He) Hj. pose proof (Hr j Hj) as Hlt. destruct (lookup_lt_is_Some_2 ft j ltac:(lia)) as [f Hf], (lookup_lt_is_Some_2 tb j Hlt) as [o Ho].
  pose proof (He j f o Hf Ho) as Hx. destruct o as [d|]; [|destruct Hx as (_ & Hx & _); apply nref_pos in Hj; lia]. destruct Hx as (? & ? & [k Hk] & ?). exists f, d, k. split_and!; [done..|].
  split_and!; [done|done|by exists k|tauto..].
Qed.

Lemma filedup_spec ft tb refs j : table_ok ft tb refs → j ∈ refs → ∃ ft', filedup ft j = Ok ft' ∧ table_ok ft' tb (j :: refs) ∧ tptrs ft' tb ≡ₚ tptrs ft tb.
Proof.
  intros HT Hj. destruct (table_open _ _ _ _ HT Hj) as (f & d & k & Hf & Ho & Ht & Hr & Hn & Hk & Hx). unfold filedup, fderef. rewrite Hf, bind_Ok, (proj2 (Z.ltb_ge _ _)) by lia.
  eexists. split; [done|]. split; [|by eapply tptrs_same]. rewrite <- (list_insert_id tb j (Some d)) by done. eapply table_update; [done|by eapply lookup_lt_Some|..].
  - intros i [->|?]%elem_of_cons; [by right|by left].
  - intros i Hi. rewrite nref_cons, decide_False by done. lia.
  - rewrite nref_cons, decide_True by done. unfold entry_ok, set_tref; cbn [t_ref t_type t_readable t_writable t_off]. split; [lia|]. split; [lia|]. done.
Qed.

(** ** The operations on a file system at rest *)

Definition adv (n : Z) (d : adesc) : adesc := ADesc (ad_ino d) (ad_r d) (ad_w d) (ad_off d + n).

(** The table and the files after a pointer to entry [j] is given up, and [refs] are left; the inodes [l] are held elsewhere. *)
Definition close_at (l : list Z) (refs : list nat) (j : nat) (tb : atable) (m : gmap Z afile) : atable * gmap Z afile :=
  if decide (j ∈ refs) then (tb, m)
  else match tb !! j with
  | Some (Some d) => (<[j := None]> tb, dropped (l ++ inos (<[j := None]> tb)) (ad_ino d) m)
  | _ => (tb, m)
  end.

Lemma dropped_ext l l' i m : (i ∈ l ↔ i ∈ l') → dropped l i m = dropped l' i m.
Proof. intros Hl. unfold dropped. destruct (m !! i); [|done]. by rewrite (decide_ext ((i ∉ l) ∧ a_nlink a = 0) ((i ∉ l') ∧ a_nlink a = 0)) by tauto. Qed.

Section ops.
Context {C : Type} `{BL : BufLaws C cview} (g0 : log) (HL : layout g0) (Hid : idle g0) (Hlsz : 28 <= lsize g0) (sb : superblock) (FL : fs_layout g0 sb).
Context {M : Type} `{MemOps M}.
Context (dr : Z → option (C → log → inode → Z → outcome (Z * list Z * inode * C * log))).
Context (dw : Z → option (C → log → inode → list Z → outcome (Z * inode * C * log))).
Abbreviation rest := (rest (cview := cview) g0 sb).
Abbreviation ptrs := (list (nat * Z)).
Abbreviation fsys := (fsys C M).

Definition fsok (s : fsys) (tb : atable) (refs : list nat) (Q : ptrs) (m : gmap Z afile) (b : nat) : Prop :=
  fs_g s = g0 ∧ table_ok (fs_ft s) tb refs ∧ rest (fs_c s) (fs_ic s) (Q ++ tptrs (fs_ft s) tb) m b.

Lemma fsok_perm s tb refs refs' Q Q' m b : fsok s tb refs Q m b → refs ≡ₚ refs' → Q ≡ₚ Q' → fsok s tb refs' Q' m b.
Proof. intros (Hg & HT & Hr) H1 H2. split_and!; [done|by eapply table_perm|]. eapply rest_perm; [done|]. by rewrite H2. Qed.

Lemma iput_op_spec (s : fsys) P m b k i : fs_g s = g0 → rest (fs_c s) (fs_ic s) ((k, i) :: P) m b →
  ∃ c' ic', iput_op sb s k = Ok (set_disk c' g0 ic' s) ∧ rest c' ic' P (dropped P.*2 i m) b.
Proof using BL HL Hid Hlsz FL.
  intros Hg Hr. destruct (txn_start g0 Hid sb _ _ _ _ _ Hr) as [E0 Ht]. unfold iput_op, start_op in *. rewrite Hg. destruct (begin_op g0) as [gb|]; [|done]. injection E0 as ->.
  destruct (r_iput g0 HL Hid Hlsz sb FL _ _ _ _ _ _ _ _ k i Ht (not_elem_of_empty k)) as (c1 & g1 & ic1 & n1 & E1 & Ht1 & _); [lia|right; lia|]. rewrite E1, bind_Ok.
  destruct (txn_end g0 HL Hid Hlsz sb FL _ _ _ _ _ _ _ Ht1) as (c2 & E2 & Hr2). rewrite E2, bind_Ok. by exists c2, ic1.
Qed.

(** The pointer of entry [j] comes first, and the others follow. *)
Lemma split_entry ft tb j f d k Q : ft !! j = Some f → tb !! j = Some (Some d) → t_type f = FInode k →
  ∃ R, Q ++ tptrs ft tb ≡ₚ (k, ad_ino d) :: R ∧ ∀ f' o', Q ++ tptrs (<[j := f']> ft) (<[j := o']> tb) ≡ₚ tptr f' o' ++ R.
Proof.
  intros Hf Ho Hk. destruct (tptrs_insert ft tb j f (Some d) Hf Ho) as (R & H1 & H2). exists (Q ++ R). unfold tptr in H1. rewrite Hk in H1. split.
  - rewrite H1. cbn [app]. by rewrite Permutation_middle.
  - intros f' o'. rewrite H2, !app_assoc. by rewrite (Permutation_app_comm Q).
Qed.

Lemma fileclose_spec s tb refs j Q m b : fsok s tb (j :: refs) Q m b →
  let x := close_at Q.*2 refs j tb m in ∃ s', fileclose sb s j = Ok s' ∧ fsok s' x.1 refs Q x.2 b.
Proof using BL HL Hid Hlsz FL.
  intros (Hg & HT & Hr). destruct (table_open _ _ _ j HT ltac:(apply elem_of_cons; by left)) as (f & d & k & Hf & Ho & Hk & Hrf & Hn & _ & Hx). rewrite nref_cons, decide_True in Hrf, Hn by done.
  unfold fileclose, fderef. rewrite Hf, bind_Ok, (proj2 (Z.ltb_ge _ _)) by lia. unfold close_at. pose proof (lookup_lt_Some _ _ _ Ho) as Hlt.
  assert (∀ i, i ≠ j → nref i refs = nref i (j :: refs)) as Hne by (intros i Hi; rewrite nref_cons, decide_False by done; lia).
  assert (∀ i, i ∈ refs → i ∈ j :: refs ∨ i = j) as Hin by (intros i Hi; left; apply elem_of_cons; by right). case_decide as Hj.
  - apply nref_pos in Hj as Hj1. rewrite (proj2 (Z.ltb_lt _ _)) by lia. eexists. split; [done|]. cbn [fst snd]. split_and!; [done| |].
    + cbn [set_ft fs_ft]. rewrite <- (list_insert_id tb j (Some d)) by done. eapply table_update; [done|done|done|done|].
      unfold entry_ok, set_tref; cbn [t_ref t_type t_readable t_writable t_off]. split_and!; [lia|lia|by exists k|tauto..].
    + eapply rest_perm; [exact Hr|]. cbn [set_ft fs_ft]. by rewrite (tptrs_same (fs_ft s) tb j f (set_tref (t_ref f - 1) f) (Some d) Hf Ho eq_refl).
  - rewrite (nref_0 j refs Hj) in Hrf. rewrite (proj2 (Z.ltb_ge _ _)) by lia. rewrite Hk, Ho. cbn [fst snd]. destruct (split_entry _ _ j f d k Q Hf Ho Hk) as (R & H1 & H2).
    set (f' := TFile FNone 0 (t_readable f) (t_writable f) (t_off f)). set (s1 := set_ft (<[j := f']> (fs_ft s)) s).
    destruct (iput_op_spec s1 R m b k (ad_ino d) Hg ltac:(eapply rest_perm; [exact Hr|exact H1])) as (c' & ic' & E & Hr'). exists (set_disk c' g0 ic' s1). split; [exact E|].
    assert (table_ok (<[j := f']> (fs_ft s)) (<[j := None]> tb) refs) as HT'.
    { eapply table_update; [done|done|done|done|]. by rewrite nref_0. }
    specialize (H2 f' None). cbn [tptr t_type app] in H2. split_and!; [done|exact HT'|]. cbn [set_disk fs_c fs_ic fs_ft s1 set_ft]. eapply rest_perm; [|symmetry; exact H2].
    rewrite (dropped_ext _ R.*2); [exact Hr'|]. rewrite <- (tptrs_inos _ _ _ HT'), <- fmap_app. by rewrite H2.
Qed.

(** The open file [d] of entry [j]: the inode it points to and the bounds of its offset. *)
Lemma open_entry s tb refs Q m b j d : fsok s tb refs Q m b → j ∈ refs → tb !! j = Some (Some d) →
  ∃ tf k ip, fs_ft s !! j = Some tf ∧ t_type tf = FInode k ∧ t_readable tf = ad_r d ∧ t_writable tf = ad_w d ∧ t_off tf = ad_off d ∧ (k, ad_ino d) ∈ Q ++ tptrs (fs_ft s) tb ∧
    fs_ic s !! k = Some ip.
Proof.
  intros (_ & HT & Hr) Hj Ho. destruct (table_open _ _ _ j HT Hj) as (f & d' & k & Hf & Ho' & Hk & Hrf & Hn & _ & Hx1 & Hx2 & Hx3). simplify_eq.
  destruct (split_entry _ _ j f d k Q Hf Ho Hk) as (R & H1 & _). assert ((k, ad_ino d) ∈ Q ++ tptrs (fs_ft s) tb) as Hin by (rewrite H1; apply ptr_1).
  destruct (rest_entry g0 sb _ _ _ _ _ k (ad_ino d) Hr Hin) as (ip & _ & Hip & _). by exists f, k, ip.
Qed.

(** An entry whose offset moves. *)
Lemma move_offset s tb refs Q m m' b b' j d tf c ic n : fsok s tb refs Q m b → j ∈ refs → tb !! j = Some (Some d) → fs_ft s !! j = Some tf → rest c ic (Q ++ tptrs (fs_ft s) tb) m' b' →
  fsok (FSys c g0 ic (<[j := set_toff (ad_off d + n) tf]> (fs_ft s)) (fs_pipes s) (fs_mem s)) (<[j := Some (adv n d)]> tb) refs Q m' b'.
Proof.
  intros (_ & HT & Hr) Hj Ho Hf Hr'. destruct (table_open _ _ _ j HT Hj) as (f & d' & k & Hf' & Ho' & Hk & Hrf & Hn & _ & Hx1 & Hx2 & Hx3). assert (f = tf ∧ d' = d) as [-> ->] by (split; congruence).
  split_and!; [done| |].
  - cbn [fs_ft]. eapply table_update; [done|by eapply lookup_lt_Some|by left|done|]. unfold entry_ok, set_toff, adv; cbn [t_ref t_type t_readable t_writable t_off ad_r ad_w ad_off].
    split_and!; [done|done|by exists k|done..].
  - cbn [fs_c fs_ic fs_ft]. eapply rest_perm; [exact Hr'|]. destruct (split_entry _ _ j tf d k Q Hf Ho Hk) as (R & H1 & H2). rewrite H1, H2. unfold tptr, set_toff. cbn [t_type adv ad_ino]. by rewrite Hk.
Qed.

(** What [fileread] returns: nothing if the file is not open for reading. *)
Definition read_result (d : adesc) (f : afile) (n : Z) : list Z := if ad_r d then read_bytes f (ad_off d) n else [].

Lemma fileread_at_spec s tb refs Q m b j d f n killed : fsok s tb refs Q m b → j ∈ refs → tb !! j = Some (Some d) → m !! ad_ino d = Some f → a_type f ≠ T_DEV →
  0 <= ad_off d <= Z.of_nat (length (a_data f)) → 0 <= n < 2 ^ 31 → let x := read_result d f n in
  ∃ s', fileread_at sb dr s j n killed = Ok (if ad_r d then Z.of_nat (length x) else -1, x, s') ∧ fsok s' (<[j := Some (adv (Z.of_nat (length x)) d)]> tb) refs Q m b.
Proof using BL HL Hid FL dw.
  intros Hs Hj Ho Hf Hty Hoff Hn x. destruct (open_entry _ _ _ _ _ _ _ _ Hs Hj Ho) as (tf & k & ip & Htf & Hk & Er & Ew & Eo & Hin & Hip). pose proof Hs as (Hg & _ & Hr).
  unfold fileread_at, fderef, load_file, deref. rewrite Htf, bind_Ok, Hk, Hip, !bind_Ok, Er, Ew, Eo, Hg. unfold x, read_result. destruct (ad_r d).
  - rewrite (fileread_inode sb dr _ g0 (fs_ic s) k ip true) by done. rewrite u32_small by (unfold is_u32; lia).
    destruct (rest_read g0 HL Hid sb FL dr dw _ _ _ _ _ k _ f (ad_off d) n Hr Hin Hf Hty Hoff Hn) as (c' & ic' & E & Hr'). rewrite E, bind_Ok.
    destruct (read_inode_entry sb dr _ _ _ k ip _ _ _ _ _ _ _ Hip E) as [ip' ->]. unfold deref. rewrite list_lookup_insert_eq, !bind_Ok by (by eapply lookup_lt_Some).
    eexists. split; [done|]. set (y := read_bytes f (ad_off d) n) in *. assert ((if 0 <? Z.of_nat (length y) then u32 (ad_off d + Z.of_nat (length y)) else ad_off d) = ad_off d + Z.of_nat (length y)) as E'.
    { destruct (Z.ltb_spec 0 (Z.of_nat (length y))); [|lia]. apply u32_small. pose proof (rest_size g0 sb _ _ _ _ _ _ _ Hr Hf) as Hsz. unfold MAXBYTES, BSIZE in Hsz.
      assert (length y ≤ length (a_data f) - Z.to_nat (ad_off d))%nat by (unfold y, read_bytes; rewrite length_take, length_drop; lia). unfold is_u32. lia. }
    unfold store_file. rewrite Hk. cbn [f_type f_off]. rewrite E'. by eapply move_offset.
  - unfold fileread. cbn [readable negb]. rewrite bind_Ok. eexists. split; [done|]. unfold store_file. rewrite Hk. cbn [f_type f_off length Z.of_nat]. rewrite list_insert_id by done.
    replace (ad_off d) with (ad_off d + 0) at 1 by lia. by eapply move_offset.
Qed.

(** What [filewrite] leaves. *)
Definition written (d : adesc) (src : list Z) (f : afile) : afile := set_data (write_at (a_data f) (Z.to_nat (ad_off d)) src) f.

Lemma filewrite_at_spec s tb refs Q m b j d f src killed : fsok s tb refs Q m (8 * pieces (length src) + b) → j ∈ refs → tb !! j = Some (Some d) → m !! ad_ino d = Some f → a_type f ≠ T_DEV →
  0 <= ad_off d <= Z.of_nat (length (a_data f)) → ad_off d + Z.of_nat (length src) <= Z.of_nat MAXBYTES →
  ∃ s', filewrite_at sb dw s j src killed = Ok (if ad_w d then Z.of_nat (length src) else -1, s') ∧
    if ad_w d then fsok s' (<[j := Some (adv (Z.of_nat (length src)) d)]> tb) refs Q (<[ad_ino d := written d src f]> m) b else fsok s' tb refs Q m b.
Proof using BL HL Hid Hlsz FL dr.
  intros Hs Hj Ho Hf Hty Hoff Hmax. destruct (open_entry _ _ _ _ _ _ _ _ Hs Hj Ho) as (tf & k & ip & Htf & Hk & Er & Ew & Eo & Hin & Hip). pose proof Hs as (Hg & _ & Hr).
  unfold filewrite_at, fderef, load_file, deref. rewrite Htf, bind_Ok, Hk, Hip, !bind_Ok, Er, Ew, Eo, Hg. unfold filewrite. cbn [writable f_type f_off]. destruct (ad_w d); cbn [negb].
  - destruct (write_loop_spec g0 HL Hid Hlsz sb FL dr dw _ k _ (length src) src _ _ ip (ad_off d) 0 (Z.of_nat (length src)) m b f Hr Hin Hip Hf Hty Hoff Hmax) as (c' & ip' & E & Hr'); [lia|lia|].
    rewrite E, !bind_Ok, Z.eqb_refl. eexists. split; [done|]. unfold store_file. rewrite Hk. cbn [set_ip f_type f_off]. by eapply move_offset.
  - rewrite bind_Ok. eexists. split; [done|]. unfold store_file. rewrite Hk. cbn [f_type f_off]. rewrite list_insert_id by done.
    replace tb with (<[j := Some (adv 0 d)]> tb) by (apply list_insert_id; rewrite Ho; do 2 f_equal; unfold adv; destruct d; f_equal; cbn; lia).
    replace (ad_off d) with (ad_off d + 0) at 1 by lia. eapply move_offset; [done|done|done|done|]. eapply rest_weaken; [done|lia].
Qed.

Definition stat_of (i : Z) (f : afile) : stat := Stat (a_type f) (dev g0) i (a_nlink f) (Z.of_nat (length (a_data f))).

Lemma filestat_spec s tb refs Q m b j d f : fsok s tb refs Q m b → j ∈ refs → tb !! j = Some (Some d) → m !! ad_ino d = Some f →
  ∃ s', filestat sb s j = Ok (Some (stat_of (ad_ino d) f), s') ∧ fsok s' tb refs Q m b.
Proof using BL HL Hid Hlsz FL.
  intros Hs Hj Ho Hf. destruct (open_entry _ _ _ _ _ _ _ _ Hs Hj Ho) as (tf & k & ip & Htf & Hk & _ & _ & _ & Hin & Hip). destruct Hs as (Hg & HT & v & Hr & Hh & Hb).
  unfold filestat, fderef. rewrite Htf, bind_Ok, Hk. set (P := Q ++ tptrs (fs_ft s) tb) in *.
  assert (room g0 g0 0) as Hroom by (destruct Hid as (_ & _ & Hlh); unfold room; rewrite Hlh; cbn [length]; pose proof (lo_size _ HL); lia).
  destruct (implements_ilock g0 HL sb FL (fs_c s) g0 v (fs_ic s) _ ∅ _ k (proj1 (rest_sees g0 Hid _ _) Hr) Hh) as (ip0 & ip1 & c1 & _ & E1 & Hs1 & Hh1 & _ & Hlt);
    [by eapply ptr_fst|apply not_elem_of_empty|done|]. rewrite E1, bind_Ok.
  destruct (holds_locked g0 sb v _ P _ m k (ad_ino d) Hh1 Hin (lock_in _ _)) as (ip2 & f' & Hlf & Ei & Hf'). assert (f' = f) as -> by congruence.
  pose proof (lf_entry _ _ _ _ _ _ _ _ _ Hlf) as Hip2. unfold deref. rewrite Hip2, bind_Ok.
  destruct (implements_iunlock g0 sb v _ _ _ _ k Hh1 (lock_in _ _)) as (ip3 & _ & E3 & Hh3). rewrite E3, bind_Ok, Hg. rewrite lock_back in Hh3 by apply not_elem_of_empty.
  eexists (set_disk c1 g0 _ s). split; [|split_and!; [done|exact HT|exists v; split_and!; [by apply (rest_sees g0 Hid)|exact Hh3|done]]].
  destruct (locked_good g0 sb _ _ _ _ _ _ _ _ Hh1 Hlf) as ([_ [Hsz _] _] & Hlen & _). destruct Hlf as [_ _ _ Hd _ _ _ Ef]. unfold stati, stat_of. rewrite Hlen, Ef, Ei, Hd, Z2Nat.id by lia. done.
Qed.
End ops.
