(* ===== verification/Syscalls.v ===== *)
(** The file-system calls of a process (src/p4/sysfile.c), against a specification in which there are no disks, caches, logs or locks.

    [pstate] is what a process sees: the files, the table of open files, its current directory and its descriptors.  [spec_sys] says what each call does to it,
    where other processes hold the inodes [others] and the table entries [R].  [proc_ok] relates it to the state of the kernel, and a rule for each
    call says that the call returns what the specification says and keeps the relation. *)

From Stdlib Require Import ZArith Lia.
From stdpp Require Import base numbers list gmap fin_sets sets strings.
From S2P Require Import Prelude CStr MemIface Bio Log LogCrash Fs FsSpec FsTrunc Pipe File FileThm FsCk Icache IcacheSpec IcacheOps IcacheThm Dir DirSpec DirOps Ftable Sysfile Tree Txn SysfileSpec FtableSpec.
#[local] Open Scope Z_scope.

(** * The specification *)

Record pstate := PState { p_files : gmap Z afile; p_table : atable; p_cwd : Z; p_fds : list (option nat) }.

Inductive syscall :=
  | SLink (old new : list Z) | SUnlink (path : list Z) | SMkdir (path : list Z) | SMknod (path : list Z) (maj min : Z) | SChdir (path : list Z)
  | SOpen (path : list Z) (omode : Z) | SClose (fd : Z) | SDup (fd : Z) | SRead (fd n : Z) | SWrite (fd : Z) (src : list Z) | SFstat (fd : Z).

(** What a call returns: the result, the bytes read and the status. *)
Definition sysret : Type := Z * list Z * option stat.
Definition ret (r : Z) : sysret := (r, [], None).

(** Descriptor [fd] and the entry it stands for. *)
Definition afd (x : pstate) (fd : Z) : option (nat * nat) := argfd (UProc (p_fds x) 0) (Some fd).

Definition may_read (omode : Z) : bool := Z.land omode O_WRONLY =? 0.
Definition may_write (omode : Z) : bool := negb (Z.land omode O_WRONLY =? 0) || negb (Z.land omode O_RDWR =? 0).

Section spec.
Context (sb : superblock) (g0 : log) (others : list Z) (R : list nat).

(** The inodes that pointers are held to. *)
Definition p_inos (x : pstate) : list Z := p_cwd x :: others ++ inos (p_table x).
Definition with_files (m : gmap Z afile) (x : pstate) : pstate := PState m (p_table x) (p_cwd x) (p_fds x).

Definition spec_open_inode (m : gmap Z afile) (ci : Z) (path : list Z) (omode : Z) : option Z * gmap Z afile :=
  if negb (Z.land omode O_CREATE =? 0) then spec_create sb m ci path T_FILE 0 0
  else match find m ci path with
  | None => (None, m)
  | Some (i, f) => (if (a_type f =? T_DIR) && negb (omode =? O_RDONLY) then None else Some i, m)
  end.

Definition spec_chdir (path : list Z) (x : pstate) : sysret * pstate :=
  match find (p_files x) (p_cwd x) path with
  | Some (i, f) =>
      if decide (a_type f = T_DIR) then (ret 0, PState (dropped (i :: others ++ inos (p_table x)) (p_cwd x) (p_files x)) (p_table x) i (p_fds x))
      else (ret (-1), x)
  | None => (ret (-1), x)
  end.

Definition spec_open (path : list Z) (omode : Z) (x : pstate) : sysret * pstate :=
  let res := spec_open_inode (p_files x) (p_cwd x) path omode in
  match res.1, first_none (p_table x), first_none (p_fds x) with
  | Some i, Some j, Some fd =>
      (ret (Z.of_nat fd), PState res.2 (<[j := Some (ADesc i (may_read omode) (may_write omode) 0)]> (p_table x)) (p_cwd x) (<[fd := Some j]> (p_fds x)))
  | _, _, _ => (ret (-1), with_files res.2 x)
  end.

Definition spec_close (fd : Z) (x : pstate) : sysret * pstate :=
  match afd x fd with
  | None => (ret (-1), x)
  | Some (n, j) =>
      let fds := <[n := None]> (p_fds x) in
      let res := close_at (p_cwd x :: others) (omap id fds ++ R) j (p_table x) (p_files x) in
      (ret 0, PState res.2 res.1 (p_cwd x) fds)
  end.

Definition spec_dup (fd : Z) (x : pstate) : sysret * pstate :=
  match afd x fd, first_none (p_fds x) with
  | Some (_, j), Some n => (ret (Z.of_nat n), PState (p_files x) (p_table x) (p_cwd x) (<[n := Some j]> (p_fds x)))
  | _, _ => (ret (-1), x)
  end.

(** The open file of a descriptor and its content. *)
Definition open_file (x : pstate) (fd : Z) : option (nat * adesc * afile) :=
  '(_, j) ← afd x fd; d ← mjoin (p_table x !! j); f ← p_files x !! ad_ino d; Some (j, d, f).

Definition spec_read (fd n : Z) (x : pstate) : sysret * pstate :=
  match open_file x fd with
  | None => (ret (-1), x)
  | Some (j, d, f) =>
      let l := read_result d f n in
      ((if ad_r d then Z.of_nat (length l) else -1, l, None),
        PState (p_files x) (<[j := Some (adv (Z.of_nat (length l)) d)]> (p_table x)) (p_cwd x) (p_fds x))
  end.

Definition spec_write (fd : Z) (src : list Z) (x : pstate) : sysret * pstate :=
  match open_file x fd with
  | Some (j, d, f) =>
      if ad_w d then
        (ret (Z.of_nat (length src)),
          PState (<[ad_ino d := written d src f]> (p_files x)) (<[j := Some (adv (Z.of_nat (length src)) d)]> (p_table x)) (p_cwd x) (p_fds x))
      else (ret (-1), x)
  | None => (ret (-1), x)
  end.

Definition spec_fstat (fd : Z) (x : pstate) : sysret * pstate :=
  match open_file x fd with
  | None => (ret (-1), x)
  | Some (_, d, f) => ((0, [], Some (stat_of g0 (ad_ino d) f)), x)
  end.

Definition spec_files (r : Z * gmap Z afile) (x : pstate) : sysret * pstate := (ret r.1, with_files r.2 x).

Definition spec_sys (c : syscall) (x : pstate) : sysret * pstate :=
  let m := p_files x in
  match c with
  | SLink old new => spec_files (spec_link m (p_cwd x) old new) x
  | SUnlink path => spec_files (spec_unlink (p_inos x) m (p_cwd x) path) x
  | SMkdir path => let r := spec_create sb m (p_cwd x) path T_DIR 0 0 in spec_files (made r.1, r.2) x
  | SMknod path maj min => let r := spec_create sb m (p_cwd x) path T_DEV (s16 maj) (s16 min) in spec_files (made r.1, r.2) x
  | SChdir path => spec_chdir path x
  | SOpen path omode => spec_open path omode x
  | SClose fd => spec_close fd x
  | SDup fd => spec_dup fd x
  | SRead fd n => spec_read fd n x
  | SWrite fd src => spec_write fd src x
  | SFstat fd => spec_fstat fd x
  end.

(** ** What a call needs *)

(** Three entries of the inode cache, and a path that does not start in a removed directory. *)
Definition path_call (x : pstate) (path : list Z) : Prop :=
  (size (list_to_set (p_inos x) : gset Z) + 3 ≤ NINODE)%nat ∧ path_ok (p_files x) (p_cwd x) path.

Definition sys_ok (c : syscall) (x : pstate) : Prop :=
  let m := p_files x in
  match c with
  | SLink old new => path_call x old ∧ path_call x new ∧ link_ok m (p_cwd x) old new
  | SUnlink path | SChdir path => path_call x path
  | SMkdir path => path_call x path ∧ create_ok sb m (p_cwd x) path T_DIR
  | SMknod path _ _ => path_call x path ∧ create_ok sb m (p_cwd x) path T_DEV
  | SOpen path omode => path_call x path ∧ (Z.land omode O_CREATE ≠ 0 → create_ok sb m (p_cwd x) path T_FILE)
  | SClose _ | SDup _ | SFstat _ => True
  | SRead fd n => 0 <= n < 2 ^ 31 ∧ ∀ j d f, open_file x fd = Some (j, d, f) → a_type f ≠ T_DEV
  | SWrite fd src => ∀ j d f, open_file x fd = Some (j, d, f) → a_type f ≠ T_DEV ∧ ad_off d + Z.of_nat (length src) <= Z.of_nat MAXBYTES
  end.

(** The free blocks a call may take. *)
Definition sys_blocks (c : syscall) : nat :=
  match c with
  | SLink _ _ => 2
  | SMkdir _ | SMknod _ _ _ | SOpen _ _ => 6
  | SWrite _ src => 8 * pieces (length src)
  | _ => 0
  end.
End spec.

(** * What calls keep of files that are open *)

(** Files with numbers in [l] stay, keep their types and do not shrink. *)
Definition keeps (l : list Z) (m m' : gmap Z afile) : Prop :=
  ∀ i f, i ∈ l → m !! i = Some f → ∃ f', m' !! i = Some f' ∧ a_type f' = a_type f ∧ (length (a_data f) ≤ length (a_data f'))%nat.

#[export] Instance keeps_pre l : PreOrder (keeps l).
Proof.
  split; [by intros m i f _ Hf; exists f|]. intros m1 m2 m3 H1 H2 i f Hi Hf. destruct (H1 i f Hi Hf) as (f2 & Hf2 & Ht2 & Hl2), (H2 i f2 Hi Hf2) as (f3 & Hf3 & Ht3 & Hl3).
  exists f3. split_and!; [done|congruence|lia].
Qed.

Lemma keeps_insert l (m m1 : gmap Z afile) i f' : keeps l m m1 → (∀ f, m !! i = Some f → a_type f' = a_type f ∧ (length (a_data f) ≤ length (a_data f'))%nat) → keeps l m (<[i := f']> m1).
Proof.
  intros Hk Hf' j f Hj Hf. destruct (decide (j = i)) as [->|?]; [exists f'; rewrite lookup_insert_eq; split; [done|by apply Hf']|rewrite lookup_insert_ne by done; by apply Hk].
Qed.

(** A change to a file that is there. *)
Lemma keeps_at l (m m1 : gmap Z afile) i f f' : keeps l m m1 → m !! i = Some f → a_type f' = a_type f → (length (a_data f) ≤ length (a_data f'))%nat → keeps l m (<[i := f']> m1).
Proof. intros Hk Hf Ht Hl. apply keeps_insert; [done|]. intros f0 Hf0. by simplify_eq. Qed.

Lemma keeps_dropped l l' i m : (i ∈ l → i ∈ l') → keeps l m (dropped l' i m).
Proof.
  intros Hi j f Hj Hf. exists f. split; [|done]. unfold dropped. destruct (m !! i) as [fi|] eqn:Ei; [|done]. case_decide as Hd; [|done]. rewrite lookup_delete_ne; [done|].
  intros ->. destruct Hd as [Hd _]. tauto.
Qed.

Lemma length_write_ge l o x : (length l ≤ length (write_at l o x))%nat.
Proof. unfold write_at. rewrite !length_app, length_take, length_drop. lia. Qed.

Lemma find_parent_at m ci path d fd : find_parent m ci path = Some (d, fd) → m !! d = Some fd ∧ a_type fd = T_DIR.
Proof.
  unfold find_parent. destruct (resolve_parent m _ _) as [d'|] eqn:E; [|done]. cbn. destruct (m !! d') as [f|] eqn:Ef; [|done]. cbn. intros [= -> ->].
  destruct (parent_dir _ _ _ _ E) as (f' & ? & ?). split; [done|]. congruence.
Qed.

Lemma find_at m ci path i f : find m ci path = Some (i, f) → m !! i = Some f.
Proof. unfold find. destruct (resolve m _ _) as [i'|]; [|done]. cbn. destruct (m !! i') eqn:E; [|done]. cbn. by intros [= -> ->]. Qed.

Lemma keeps_link l m ci old new : keeps l m (spec_link m ci old new).2.
Proof.
  unfold spec_link. destruct (find m ci old) as [[i f]|] eqn:E1; [|done]. apply find_at in E1. case_decide as Ht; [done|]. destruct (find_parent m ci new) as [[d fd]|] eqn:E2; [|done].
  apply find_parent_at in E2 as [E2 Htd]. destruct (dlookup _ _); [done|]. eapply keeps_at; [by eapply keeps_at|done|done|]. cbn [set_data a_data]. apply length_write_ge.
Qed.

Lemma keeps_unlink l l' m ci path : l ⊆ l' → keeps l m (spec_unlink l' m ci path).2.
Proof.
  intros Hl. unfold spec_unlink. destruct (find_parent m ci path) as [[d fd]|] eqn:E2; [|done]. apply find_parent_at in E2 as [E2 Htd]. case_decide; [|done].
  destruct (dlookup _ _) as [j|]; [|done]. cbn zeta. set (i := de_inum _). destruct (m !! i) as [g|] eqn:Eg; [|done]. pose proof (length_write_ge (a_data fd) (DIRENT * j) (replicate DIRENT 0)).
  case_decide; [destruct (dempty _); [|done]|]; cbn [snd]; (etransitivity; [|apply keeps_dropped; intros Hi; by apply Hl]); (eapply keeps_at; [by eapply keeps_at|exact Eg|done|done]).
Qed.

Lemma keeps_create l sb m ci path type maj min : keeps l m (spec_create sb m ci path type maj min).2.
Proof.
  unfold spec_create. destruct (find_parent m ci path) as [[d fd]|] eqn:E2; [|done]. apply find_parent_at in E2 as [E2 Htd].
  destruct (dlookup _ _) as [j|]; [cbn zeta; by destruct (m !! de_inum _)|]. destruct (fresh_inum sb m) as [i|] eqn:Ei; [|done]. apply fresh_none in Ei. unfold created.
  pose proof (length_write_ge (a_data fd) (DIRENT * dslot (a_data fd)) (dirent i (last_name path))).
  cbn [snd]. case_decide; (eapply keeps_at; [apply keeps_insert; [done|by intros ? ?; simplify_eq]|done|done|done]).
Qed.

(** The table is sound for the files: offsets are inside, and directories are not open for writing. *)
Definition offs_ok (tb : atable) (m : gmap Z afile) : Prop :=
  ∀ j d, tb !! j = Some (Some d) → ∃ f, m !! ad_ino d = Some f ∧ 0 <= ad_off d <= Z.of_nat (length (a_data f)) ∧ (ad_w d = true → a_type f ≠ T_DIR).

Lemma ino_in tb j d : tb !! j = Some (Some d) → ad_ino d ∈ inos tb.
Proof. intros Hj. apply list_elem_of_fmap_2, list_elem_of_omap. exists (Some d). split; [by eapply list_elem_of_lookup_2|done]. Qed.

Lemma offs_keeps tb m m' : offs_ok tb m → keeps (inos tb) m m' → offs_ok tb m'.
Proof.
  intros Ho Hk j d Hj. destruct (Ho j d Hj) as (f & Hf & Hoff & Hw). destruct (Hk _ f (ino_in _ _ _ Hj) Hf) as (f' & Hf' & Ht & Hl). exists f'. rewrite Ht. split_and!; [done|lia|lia|done].
Qed.

Lemma offs_insert tb m j o : offs_ok tb m → (∀ d, o = Some d → ∃ f, m !! ad_ino d = Some f ∧ 0 <= ad_off d <= Z.of_nat (length (a_data f)) ∧ (ad_w d = true → a_type f ≠ T_DIR)) → offs_ok (<[j := o]> tb) m.
Proof. intros Ho Hd j' d [(-> & -> & _)|[_ ?]]%list_lookup_insert_Some; [by apply Hd|by eapply Ho]. Qed.

Lemma s16_short x : is_short (s16 x).
Proof. unfold s16, is_short. pose proof (Z.mod_pos_bound (x + 2 ^ 15) (2 ^ 16) ltac:(lia)). lia. Qed.

(** * The calls of the kernel *)

Section rules.
Context {C : Type} `{BL : BufLaws C cview} (g0 : log) (HL : layout g0) (Hid : idle g0) (Hlsz : 28 <= lsize g0) (sb : superblock) (FL : fs_layout g0 sb).
Context {M : Type} `{MO : MemOps M}.
Context (dr : Z → option (C → log → inode → Z → outcome (Z * list Z * inode * C * log))).
Context (dw : Z → option (C → log → inode → list Z → outcome (Z * inode * C * log))).
Abbreviation rest := (rest (cview := cview) g0 sb).
Abbreviation ptrs := (list (nat * Z)).
Abbreviation fsys := (fsys C M).
Abbreviation fsok := (fsok (M := M) (cview := cview) g0 sb).

(** A call that changes the disk only. *)
Definition on_disk (r : outcome (Z * C * log * icache)) (s : fsys) (u : uproc) : outcome (sysret * fsys * uproc) :=
  '(r, c, g, ic) ← r; Ok (ret r, set_disk c g ic s, u).

Definition do_sys (c : syscall) (s : fsys) (u : uproc) : outcome (sysret * fsys * uproc) :=
  match c with
  | SLink old new => on_disk (sys_link sb dr dw (fs_c s) (fs_g s) (fs_ic s) (u_cwd u) (Some old) (Some new)) s u
  | SUnlink path => on_disk (sys_unlink sb dr dw (fs_c s) (fs_g s) (fs_ic s) (u_cwd u) (Some path)) s u
  | SMkdir path => on_disk (sys_mkdir sb dr dw (fs_c s) (fs_g s) (fs_ic s) (u_cwd u) (Some path)) s u
  | SMknod path maj min => on_disk (sys_mknod sb dr dw (fs_c s) (fs_g s) (fs_ic s) (u_cwd u) (Some path) (Some maj) (Some min)) s u
  | SChdir path => '(r, cwd, c, g, ic) ← sys_chdir sb dr (fs_c s) (fs_g s) (fs_ic s) (u_cwd u) (Some path); Ok (ret r, set_disk c g ic s, UProc (ofile u) cwd)
  | SOpen path omode => '(r, s, u) ← sys_open sb dr dw s u (Some path) (Some omode); Ok (ret r, s, u)
  | SClose fd => '(r, s, u) ← sys_close sb s u (Some fd); Ok (ret r, s, u)
  | SDup fd => '(r, s, u) ← sys_dup s u (Some fd); Ok (ret r, s, u)
  | SRead fd n => '(r, l, s) ← sys_read sb dr s u (Some fd) (Some n) false; Ok ((r, l, None), s, u)
  | SWrite fd src => '(r, s) ← sys_write sb dw s u (Some fd) (Some src) false; Ok (ret r, s, u)
  | SFstat fd => '(r, st, s) ← sys_fstat sb s u (Some fd) true; Ok ((r, [], st), s, u)
  end.

(** The process [u] sees [x]; other processes hold the pointers [Q] as current directories and [R] to open files. *)
Record proc_ok (Q : ptrs) (R : list nat) (s : fsys) (u : uproc) (x : pstate) (b : nat) : Prop := {
  po_fs : fsok s (p_table x) (omap id (ofile u) ++ R) ((u_cwd u, p_cwd x) :: Q) (p_files x) b;
  po_fds : ofile u = p_fds x;
  po_nofile : length (ofile u) = NOFILE;
  po_tree : tree (p_files x);
  po_offs : offs_ok (p_table x) (p_files x) }.

Definition sys_result (c : syscall) (Q : ptrs) (R : list nat) (s : fsys) (u : uproc) (x : pstate) (b : nat) : Prop :=
  let res := spec_sys sb g0 Q.*2 R c x in ∃ s' u', do_sys c s u = Ok (res.1, s', u') ∧ proc_ok Q R s' u' res.2 b.

Lemma proc_inos Q R s u x b : proc_ok Q R s u x b → (((u_cwd u, p_cwd x) :: Q) ++ tptrs (fs_ft s) (p_table x)).*2 = p_inos Q.*2 x.
Proof. intros [(_ & HT & _) _ _ _ _]. unfold p_inos. rewrite fmap_app, (tptrs_inos _ _ _ HT). done. Qed.

Lemma proc_ready Q R s u x b path : proc_ok Q R s u x b → path_call Q.*2 x path →
  ready (((u_cwd u, p_cwd x) :: Q) ++ tptrs (fs_ft s) (p_table x)) (p_files x) (u_cwd u) (p_cwd x).
Proof. intros Hp [Hc _]. split; [apply Hp|apply elem_of_app; left; apply ptr_1|]. unfold held. by rewrite (proc_inos _ _ _ _ _ _ Hp). Qed.

Lemma proc_disk Q R s u x b b' c ic m' : proc_ok Q R s u x b → rest c ic (((u_cwd u, p_cwd x) :: Q) ++ tptrs (fs_ft s) (p_table x)) m' b' → tree m' → keeps (inos (p_table x)) (p_files x) m' →
  proc_ok Q R (set_disk c g0 ic s) u (with_files m' x) b'.
Proof. intros [(_ & HT & _) Hf Hn _ Ho] Hr Htr Hk. split; [by split_and!|done|done|done|by eapply offs_keeps]. Qed.

Lemma fs_start s tb refs Q m b : fsok s tb refs Q m b → fs_g s = g0 ∧ rest (fs_c s) (fs_ic s) (Q ++ tptrs (fs_ft s) tb) m b.
Proof. intros (? & _ & ?). done. Qed.

Lemma do_link Q R s u x b old new : proc_ok Q R s u x (2 + b) → sys_ok sb Q.*2 (SLink old new) x → sys_result (SLink old new) Q R s u x b.
Proof using BL HL Hid Hlsz FL.
  intros Hp (H1 & H2 & Hok). destruct (fs_start _ _ _ _ _ _ (po_fs _ _ _ _ _ _ Hp)) as [Eg Hr]. unfold sys_result. cbn [do_sys spec_sys spec_files]. rewrite Eg.
  destruct (link_spec g0 HL Hid Hlsz sb FL dr dw _ _ _ _ b _ _ old new Hr (proc_ready _ _ _ _ _ _ _ Hp H1)) as (c' & ic' & E & Hr' & Htr'); [apply H1|apply H2|done|].
  unfold on_disk. rewrite E, bind_Ok. eexists _, u. split; [done|]. eapply proc_disk; [done|done|done|apply keeps_link].
Qed.

Lemma do_unlink Q R s u x b path : proc_ok Q R s u x b → sys_ok sb Q.*2 (SUnlink path) x → sys_result (SUnlink path) Q R s u x b.
Proof using BL HL Hid Hlsz FL.
  intros Hp H1. destruct (fs_start _ _ _ _ _ _ (po_fs _ _ _ _ _ _ Hp)) as [Eg Hr]. unfold sys_result. cbn [do_sys spec_sys spec_files]. rewrite Eg.
  destruct (unlink_spec g0 HL Hid Hlsz sb FL dr dw _ _ _ _ b _ _ path Hr (proc_ready _ _ _ _ _ _ _ Hp H1)) as (c' & ic' & E & Hr' & Htr'); [apply H1|].
  rewrite (proc_inos _ _ _ _ _ _ Hp) in E, Hr', Htr'. unfold on_disk. rewrite E, bind_Ok. eexists _, u. split; [done|]. eapply proc_disk; [done|done|done|]. apply keeps_unlink. unfold p_inos. set_solver.
Qed.

Lemma do_make Q R s u x b path type maj min : proc_ok Q R s u x (6 + b) → path_call Q.*2 x path → create_ok sb (p_files x) (p_cwd x) path type → is_short type → type ≠ 0 → is_short maj → is_short min →
  let r := spec_create sb (p_files x) (p_cwd x) path type maj min in
  ∃ s' u', on_disk (g ← start_op (fs_g s); '(o, c, g, ic) ← create sb dr dw (fs_c s) g (fs_ic s) (u_cwd u) path type maj min; put_created sb o c g ic) s u = Ok (ret (made r.1), s', u') ∧
    proc_ok Q R s' u' (with_files r.2 x) b.
Proof using BL HL Hid Hlsz FL.
  intros Hp H1 Hok Ht Ht0 Hma Hmi r. destruct (fs_start _ _ _ _ _ _ (po_fs _ _ _ _ _ _ Hp)) as [Eg Hr]. rewrite Eg.
  destruct (make_spec g0 HL Hid Hlsz sb FL dr dw _ _ _ _ b _ _ path type maj min Hr (proc_ready _ _ _ _ _ _ _ Hp H1)) as (c' & ic' & E & Hr' & Htr'); [apply H1|done..|].
  unfold on_disk. rewrite E, bind_Ok. eexists _, u. split; [done|]. eapply proc_disk; [done|done|done|apply keeps_create].
Qed.

Lemma do_mkdir Q R s u x b path : proc_ok Q R s u x (6 + b) → sys_ok sb Q.*2 (SMkdir path) x → sys_result (SMkdir path) Q R s u x b.
Proof using BL HL Hid Hlsz FL. intros Hp [H1 Hok]. apply (do_make Q R s u x b path T_DIR 0 0); try done; unfold is_short, T_DIR; lia. Qed.

Lemma do_mknod Q R s u x b path maj min : proc_ok Q R s u x (6 + b) → sys_ok sb Q.*2 (SMknod path maj min) x → sys_result (SMknod path maj min) Q R s u x b.
Proof using BL HL Hid Hlsz FL. intros Hp [H1 Hok]. apply (do_make Q R s u x b path T_DEV (s16 maj) (s16 min)); try done; try apply s16_short; unfold is_short, T_DEV; lia. Qed.

Lemma do_chdir Q R s u x b path : proc_ok Q R s u x b → sys_ok sb Q.*2 (SChdir path) x → sys_result (SChdir path) Q R s u x b.
Proof using BL HL Hid Hlsz FL.
  intros Hp H1. destruct (fs_start _ _ _ _ _ _ (po_fs _ _ _ _ _ _ Hp)) as [Eg Hr]. unfold sys_result. cbn [do_sys spec_sys]. rewrite Eg. destruct (proc_ready _ _ _ _ _ _ _ Hp H1) as [Htr Hin Hh].
  pose proof (chdir_spec g0 HL Hid Hlsz sb FL dr _ _ (Q ++ tptrs (fs_ft s) (p_table x)) _ b _ _ path Hr (Build_ready _ _ _ _ Htr Hin Hh) (proj2 H1)) as Hch. unfold spec_chdir.
  assert (with_files (p_files x) x = x) as Ex by (by destruct x). destruct u as [fds cwd]. cbn [u_cwd ofile] in *.
  assert (∀ c' ic', rest c' ic' ((cwd, p_cwd x) :: Q ++ tptrs (fs_ft s) (p_table x)) (p_files x) b → proc_ok Q R (set_disk c' g0 ic' s) (UProc fds cwd) x b) as Hsame.
  { intros c' ic' Hr'. rewrite <- Ex. eapply proc_disk; [done|done|done|done]. }
  destruct (find (p_files x) (p_cwd x) path) as [[i f]|]; [case_decide as Hd|].
  - destruct Hch as (k & c' & ic' & E & Hr'). rewrite E, bind_Ok. eexists _, _. split; [done|]. destruct Hp as [(_ & HT & _) Hf Hn _ Ho]. rewrite fmap_app, (tptrs_inos _ _ _ HT) in Hr'.
    split; cbn [p_files p_table p_cwd p_fds fst snd]; [by split_and!|done|done|by apply tree_dropped|]. eapply offs_keeps; [done|]. apply keeps_dropped. intros Hi. apply elem_of_cons. right. apply elem_of_app. by right.
  - destruct Hch as (c' & ic' & E & Hr'). rewrite E, bind_Ok. eexists _, _. split; [done|by apply Hsame].
  - destruct Hch as (c' & ic' & E & Hr'). rewrite E, bind_Ok. eexists _, _. split; [done|by apply Hsame].
Qed.

(** ** Descriptors *)

Lemma fdalloc_first u f : fdalloc u f = (fd ← first_none (ofile u); Some (fd, UProc (<[fd := Some f]> (ofile u)) (u_cwd u))).
Proof. unfold fdalloc. rewrite fd_scan_first. by destruct (first_none (ofile u)). Qed.

Lemma fd_perm (l : list (option nat)) n o : l !! n = Some o → ∃ T, omap id l ≡ₚ option_list o ++ T ∧ ∀ o', omap id (<[n := o']> l) ≡ₚ option_list o' ++ T.
Proof.
  intros Hn. exists (omap id (take n l) ++ omap id (drop (S n) l)). pose proof (lookup_lt_Some _ _ _ Hn). split; [|intros o'].
  - rewrite <- (take_drop_middle l n o Hn) at 1. rewrite omap_app. destruct o; cbn; [|done]. by rewrite Permutation_middle.
  - rewrite insert_take_drop, omap_app by done. destruct o'; cbn; [|done]. by rewrite Permutation_middle.
Qed.

Lemma argfd_afd Q R s u x b fd : proc_ok Q R s u x b → argfd u (Some fd) = afd x fd.
Proof. intros Hp. unfold afd, argfd. cbn [ofile]. by rewrite (po_fds _ _ _ _ _ _ Hp). Qed.

Lemma afd_at x fd n j : afd x fd = Some (n, j) → p_fds x !! n = Some (Some j).
Proof. unfold afd, argfd. cbn. case_match; [done|]. destruct (p_fds x !! Z.to_nat fd) as [[j'|]|] eqn:E; try done. cbn. by intros [= <- <-]. Qed.

(** A descriptor stands for an entry in use, with its file. *)
Lemma afd_open Q R s u x b fd n j : proc_ok Q R s u x b → afd x fd = Some (n, j) →
  j ∈ omap id (ofile u) ++ R ∧ ∃ d f, p_table x !! j = Some (Some d) ∧ p_files x !! ad_ino d = Some f ∧ open_file x fd = Some (j, d, f) ∧
    0 <= ad_off d <= Z.of_nat (length (a_data f)) ∧ (ad_w d = true → a_type f ≠ T_DIR).
Proof.
  intros [(_ & HT & _) Hf _ _ Ho] Hfd. pose proof (afd_at _ _ _ _ Hfd) as Hn. assert (j ∈ omap id (ofile u) ++ R) as Hj.
  { apply elem_of_app. left. rewrite Hf. apply list_elem_of_omap. exists (Some j). split; [by eapply list_elem_of_lookup_2|done]. }
  split; [done|]. destruct (table_open _ _ _ j HT Hj) as (_ & d & _ & _ & Hd & _). destruct (Ho j d Hd) as (f & Hff & Hoff & Hw). exists d, f. split_and!; try done; try lia.
  unfold open_file. rewrite Hfd. cbn. rewrite Hd. cbn. by rewrite Hff.
Qed.

Lemma no_open x fd : afd x fd = None → open_file x fd = None.
Proof. unfold open_file. by intros ->. Qed.

Lemma do_dup Q R s u x b fd : proc_ok Q R s u x b → sys_result (SDup fd) Q R s u x b.
Proof.
  intros Hp. unfold sys_result. cbn [do_sys spec_sys]. unfold sys_dup, spec_dup. rewrite (argfd_afd _ _ _ _ _ _ fd Hp).
  destruct (afd x fd) as [[n j]|] eqn:Efd; [|by exists s, u]. destruct (afd_open _ _ _ _ _ _ _ _ _ Hp Efd) as (Hj & _).
  rewrite fdalloc_first, <- (po_fds _ _ _ _ _ _ Hp). destruct (first_none (ofile u)) as [k|] eqn:Ek; cbn [mbind option_bind]; [|by exists s, u].
  destruct Hp as [(Eg & HT & Hr) Hf Hn Htr Ho]. destruct (filedup_spec _ _ _ _ HT Hj) as (ft' & E & HT' & Hpt). rewrite E, !bind_Ok. eexists _, _. split; [done|].
  apply first_none_Some in Ek as [Ek _]. destruct (fd_perm _ _ _ Ek) as (T & HT1 & HT2).
  split; cbn [p_files p_table p_cwd p_fds fst snd ofile u_cwd]; [|done|by rewrite length_insert|done|done]. split_and!; [done| |].
  - eapply table_perm; [exact HT'|]. rewrite HT2, HT1. done.
  - cbn [set_ft fs_c fs_ic fs_ft]. eapply rest_perm; [exact Hr|]. by rewrite Hpt.
Qed.

Lemma do_close Q R s u x b fd : proc_ok Q R s u x b → sys_result (SClose fd) Q R s u x b.
Proof using BL HL Hid Hlsz FL.
  intros Hp. unfold sys_result. cbn [do_sys spec_sys]. unfold sys_close, spec_close. rewrite (argfd_afd _ _ _ _ _ _ fd Hp).
  destruct (afd x fd) as [[n j]|] eqn:Efd; [|by exists s, u]. pose proof (afd_at _ _ _ _ Efd) as Hn. destruct Hp as [Hfs Hf Hno Htr Ho]. rewrite <- Hf in *. destruct (fd_perm _ _ _ Hn) as (T & HT1 & HT2).
  destruct (fileclose_spec g0 HL Hid Hlsz sb FL s (p_table x) (omap id (<[n := None]> (ofile u)) ++ R) j _ _ b ltac:(eapply fsok_perm; [exact Hfs|rewrite HT2, HT1; done|done])) as (s' & E & Hs').
  rewrite E, bind_Ok. eexists _, _. split; [done|]. cbn [p_files p_table p_cwd p_fds fst snd ofile u_cwd]. split; cbn [p_files p_table p_cwd p_fds fst snd ofile u_cwd]; [exact Hs'|done|by rewrite length_insert|..].
  - unfold close_at. case_decide; [done|]. destruct (p_table x !! j) as [[d|]|]; [by apply tree_dropped|done..].
  - unfold close_at. case_decide; [done|]. destruct (p_table x !! j) as [[d|]|]; [|done..]. cbn [fst snd].
    eapply offs_keeps; [apply offs_insert; [exact Ho|done]|]. apply keeps_dropped. intros Hi. apply elem_of_app. by right.
Qed.

(** ** Reading and writing *)

Lemma do_read Q R s u x b fd n : proc_ok Q R s u x b → sys_ok sb Q.*2 (SRead fd n) x → sys_result (SRead fd n) Q R s u x b.
Proof using BL HL Hid FL dw.
  intros Hp [Hn Hdev]. unfold sys_result. cbn [do_sys spec_sys]. unfold sys_read, spec_read. rewrite (argfd_afd _ _ _ _ _ _ fd Hp).
  destruct (afd x fd) as [[n' j]|] eqn:Efd; [|rewrite (no_open _ _ Efd); by exists s, u]. destruct (afd_open _ _ _ _ _ _ _ _ _ Hp Efd) as (Hj & d & f & Hd & Hf & Eo & Hoff & Hw). rewrite Eo.
  destruct Hp as [Hfs Hfd Hno Htr Ho]. destruct (fileread_at_spec g0 HL Hid sb FL dr dw s _ _ _ _ _ j d f n false Hfs Hj Hd Hf (Hdev _ _ _ Eo) Hoff Hn) as (s' & E & Hs').
  rewrite E, bind_Ok. eexists _, _. split; [done|]. split; cbn [p_files p_table p_cwd p_fds fst snd]; try done. apply offs_insert; [done|]. intros ? [= <-]. exists f. cbn [adv ad_ino ad_off ad_w].
  split_and!; [done|lia| |done]. unfold read_result. destruct (ad_r d); [|cbn; lia]. unfold read_bytes. rewrite length_take, length_drop. lia.
Qed.

Lemma do_fstat Q R s u x b fd : proc_ok Q R s u x b → sys_result (SFstat fd) Q R s u x b.
Proof using BL HL Hid Hlsz FL.
  intros Hp. unfold sys_result. cbn [do_sys spec_sys]. unfold sys_fstat, spec_fstat. rewrite (argfd_afd _ _ _ _ _ _ fd Hp).
  destruct (afd x fd) as [[n' j]|] eqn:Efd; [|rewrite (no_open _ _ Efd); by exists s, u]. destruct (afd_open _ _ _ _ _ _ _ _ _ Hp Efd) as (Hj & d & f & Hd & Hf & Eo & Hoff & Hw). rewrite Eo.
  destruct Hp as [Hfs Hfd Hno Htr Ho]. destruct (filestat_spec g0 HL Hid Hlsz sb FL s _ _ _ _ _ j d f Hfs Hj Hd Hf) as (s' & E & Hs').
  rewrite E, !bind_Ok. eexists _, _. split; [done|]. by split.
Qed.

Lemma do_write Q R s u x b fd src : proc_ok Q R s u x (8 * pieces (length src) + b) → sys_ok sb Q.*2 (SWrite fd src) x → sys_result (SWrite fd src) Q R s u x b.
Proof using BL HL Hid Hlsz FL dr.
  intros Hp Hok. unfold sys_result. cbn [do_sys spec_sys]. unfold sys_write, spec_write. rewrite (argfd_afd _ _ _ _ _ _ fd Hp).
  assert (∀ b', (b' ≤ b)%nat → proc_ok Q R s u x b') as Hsame.
  { intros b' Hb. destruct Hp as [(Eg & HT & Hr) Hf Hno Htr Ho]. split; try done. split_and!; [done|done|]. eapply rest_weaken; [done|lia]. }
  destruct (afd x fd) as [[n' j]|] eqn:Efd; [|rewrite (no_open _ _ Efd); exists s, u; split; [done|by apply Hsame]].
  destruct (afd_open _ _ _ _ _ _ _ _ _ Hp Efd) as (Hj & d & f & Hd & Hf & Eo & Hoff & Hw). rewrite Eo. destruct (Hok _ _ _ Eo) as [Hdev Hmax].
  destruct Hp as [Hfs Hfd Hno Htr Ho]. destruct (filewrite_at_spec g0 HL Hid Hlsz sb FL dr dw s _ _ _ _ b j d f src false Hfs Hj Hd Hf Hdev Hoff Hmax) as (s' & E & Hs').
  rewrite E, bind_Ok. exists s', u. destruct (ad_w d) eqn:Ew; (split; [done|]); split; cbn [p_files p_table p_cwd p_fds fst snd]; try done.
  - apply tree_data; [done|done|by apply Hw].
  - apply offs_insert.
    + eapply offs_keeps; [done|]. eapply keeps_at; [done|done|done|]. cbn [written set_data a_data]. apply length_write_ge.
    + intros ? [= <-]. exists (written d src f). cbn [adv ad_ino ad_off ad_w]. rewrite lookup_insert_eq. split_and!; [done|lia| |by intros _; apply Hw].
      cbn [written set_data a_data]. rewrite length_write_at by lia. lia.
Qed.

(** ** [open] *)

(** [create_spec], and the branch without [O_CREATE]. *)
Lemma open_inode_spec c g ic P m b cwd ci path omode : txn (cview := cview) g0 sb c g ic P ∅ m 25 (6 + b) → ready P m cwd ci → path_ok m ci path →
  (Z.land omode O_CREATE ≠ 0 → create_ok sb m ci path T_FILE) → let res := spec_open_inode sb m ci path omode in
  match res.1 with
  | None => ∃ c' g' ic', open_inode sb dr dw c g ic cwd path omode = Ok (None, c', g', ic') ∧ txn (cview := cview) g0 sb c' g' ic' P ∅ res.2 1 b ∧ tree res.2
  | Some i => ∃ k c' g' ic', open_inode sb dr dw c g ic cwd path omode = Ok (Some k, c', g', ic') ∧ txn (cview := cview) g0 sb c' g' ic' ((k, i) :: P) ({[k]} ∪ ∅) res.2 1 b ∧ tree res.2 ∧ linked res.2 i
  end.
Proof using BL HL Hid Hlsz FL.
  intros Ht Hrd Hp Hok. unfold spec_open_inode, open_inode. destruct (Z.eqb_spec (Z.land omode O_CREATE) 0) as [E|E]; cbn [negb].
  2:{ pose proof (create_spec g0 HL Hid Hlsz sb FL dr dw c g ic P m b cwd ci path T_FILE 0 0 Ht Hrd Hp (Hok E)) as H1. destruct (spec_create sb m ci path T_FILE 0 0) as [[i|] m'];
      apply H1; unfold is_short, T_FILE; lia. }
  destruct Hrd as [Htr Hcwd Hca], Hp as [Hn Hpl].
  pose proof (r_namei g0 HL Hid Hlsz sb FL dr _ _ _ _ _ 24 _ cwd ci path Ht Hcwd (tree_paths m Htr) (start_linked m ci path Htr Hpl) Hn ltac:(lia)) as H1.
  unfold find. destruct (resolve m (start_of ci path) (elems path)) as [i|]; cbn [mbind option_bind fst snd].
  2:{ destruct H1 as (c1 & ic1 & E1 & Ht1). rewrite E1, bind_Ok. eexists c1, _, ic1. split_and!; [done|eapply txn_weaken; [exact Ht1|lia|lia]|done]. }
  destruct H1 as (k & c1 & ic1 & E1 & Ht1 & f & Hf & Hfn). rewrite E1, bind_Ok, Hf. cbn [mbind option_bind fst snd].
  destruct (r_ilock g0 HL Hid Hlsz sb FL _ _ _ _ _ _ _ _ k i Ht1 (ptr_1 _ _) (not_elem_of_empty k)) as (c2 & ic2 & E2 & Ht2). rewrite E2, bind_Ok.
  destruct (r_locked g0 sb _ _ _ _ _ _ _ _ k i Ht2 (ptr_1 _ _) (lock_in _ _)) as (y & f' & Edx & Hf' & Ety & _). assert (f' = f) as -> by congruence. rewrite Edx, bind_Ok, Ety.
  destruct ((a_type f =? T_DIR) && negb (omode =? O_RDONLY)).
  - destruct (r_iunlockput_keep g0 HL Hid Hlsz sb FL _ _ _ _ _ _ _ _ k i Ht2) as (c4 & g4 & ic4 & E4 & Ht4); [apply lock_in|lia|right; by exists f|].
    rewrite E4, bind_Ok. rewrite lock_back in Ht4 by apply not_elem_of_empty. exists c4, g4, ic4. split_and!; [done|eapply txn_weaken; [exact Ht4|lia|lia]|done].
  - eexists k, c2, _, ic2. split_and!; [done|eapply txn_weaken; [exact Ht2|lia|lia]|done|by exists f].
Qed.

Lemma keeps_open l m ci path omode : keeps l m (spec_open_inode sb m ci path omode).2.
Proof. unfold spec_open_inode. destruct (Z.land omode O_CREATE =? 0); cbn [negb]; [|apply keeps_create]. by destruct (find m ci path) as [[i f]|]. Qed.

(** What is opened for writing is not a directory. *)
Lemma open_not_dir m ci path omode i f : (spec_open_inode sb m ci path omode).1 = Some i → (spec_open_inode sb m ci path omode).2 !! i = Some f → may_write omode = true → a_type f ≠ T_DIR.
Proof.
  unfold spec_open_inode, may_write. destruct (Z.eqb_spec (Z.land omode O_CREATE) 0) as [E|E]; cbn [negb].
  - destruct (find m ci path) as [[i' f']|] eqn:Ef; [|done]. apply find_at in Ef. cbn [fst snd]. destruct (Z.eqb_spec omode O_RDONLY) as [->|Hne]; [done|].
    destruct (Z.eqb_spec (a_type f') T_DIR); cbn [negb andb]; [done|]. intros [= ->] ? _. congruence.
  - unfold spec_create. destruct (find_parent m ci path) as [[d fd]|] eqn:Ed; [|done]. apply find_parent_at in Ed as [Ed _]. destruct (dlookup _ _).
    + cbn zeta. destruct (m !! de_inum _) as [g|] eqn:Eg; [|done]. cbn [fst snd]. case_decide as Ht; [|done]. intros [= <-] Hf _. destruct Ht as [_ Ht]. simplify_eq. rewrite Ht. done.
    + destruct (fresh_inum sb m) as [i'|] eqn:Ei; [|done]. apply fresh_none in Ei. cbn [fst snd]. intros [= <-]. unfold created. rewrite decide_False by done.
      rewrite lookup_insert_ne, lookup_insert_eq by congruence. intros [= <-] _. done.
Qed.

Lemma open_bad_spec (s : fsys) u P m b k i : txn (cview := cview) g0 sb (fs_c s) (fs_g s) (fs_ic s) ((k, i) :: P) ({[k]} ∪ ∅) m 1 b → linked m i →
  ∃ c' ic', open_bad sb s u k = Ok (-1, set_disk c' g0 ic' s, u) ∧ rest c' ic' P m b.
Proof using BL HL Hid Hlsz FL.
  intros Ht Hl. unfold open_bad. destruct (r_iunlockput_keep g0 HL Hid Hlsz sb FL _ _ _ _ _ _ _ _ k i Ht) as (c1 & g1 & ic1 & E1 & Ht1); [apply lock_in|lia|by right|].
  rewrite E1, bind_Ok. rewrite lock_back in Ht1 by apply not_elem_of_empty. destruct (txn_end g0 HL Hid Hlsz sb FL _ _ _ _ _ _ _ Ht1) as (c2 & E2 & Hr). rewrite E2, bind_Ok. by exists c2, ic1.
Qed.

(** A free entry. *)
Lemma free_entry ft tb refs j : table_ok ft tb refs → first_none tb = Some j → ∃ f, ft !! j = Some f ∧ tb !! j = Some None ∧ t_type f = FNone ∧ t_ref f = 0 ∧ j ∉ refs.
Proof.
  intros (Hl & Hr & He) [Hj _]%first_none_Some. pose proof (lookup_lt_Some _ _ _ Hj). destruct (lookup_lt_is_Some_2 ft j ltac:(lia)) as [f Hf]. destruct (He j f None Hf Hj) as (Hn & Hn0 & Ht).
  exists f. split_and!; [done|done|done|lia|]. rewrite <- nref_pos. lia.
Qed.

(** An entry that was allocated and is given up. *)
Lemma close_fresh (s : fsys) ft j f : ft !! j = Some f → t_type f = FNone → t_ref f = 0 → fileclose sb (set_ft (alter (set_tref 1) j ft) s) j = Ok (set_ft ft s).
Proof.
  intros Hf Ht Hr. unfold fileclose, fderef. cbn [set_ft fs_ft]. rewrite list_lookup_alter_eq, Hf. cbn [fmap option_fmap option_map]. rewrite bind_Ok. cbn [set_tref t_ref t_type t_readable t_writable t_off].
  change (1 <? 1) with false. change (0 <? 1 - 1) with false. cbn iota. rewrite Ht.
  assert (<[j := TFile FNone 0 (t_readable f) (t_writable f) (t_off f)]> (alter (set_tref 1) j ft) = ft) as ->; [|done]. apply list_eq. intros i. destruct (decide (i = j)) as [->|Hne].
  - rewrite list_lookup_insert_eq by (rewrite length_alter; by eapply lookup_lt_Some). rewrite Hf. destruct f; cbn in *; by subst.
  - by rewrite list_lookup_insert_ne, list_lookup_alter_ne.
Qed.

(** The entry is filled in. *)
Lemma fill_entry ft tb refs j f k d : table_ok ft tb refs → ft !! j = Some f → tb !! j = Some None → t_ref f = 0 → j ∉ refs →
  let ft' := alter (λ y, TFile (FInode k) (t_ref y) (ad_r d) (ad_w d) (ad_off d)) j (alter (set_tref 1) j ft) in
  table_ok ft' (<[j := Some d]> tb) (j :: refs) ∧ tptrs ft' (<[j := Some d]> tb) ≡ₚ (k, ad_ino d) :: tptrs ft tb.
Proof.
  intros HT Hf Ho Hr Hj ft'. assert (ft' = <[j := TFile (FInode k) 1 (ad_r d) (ad_w d) (ad_off d)]> ft) as ->.
  { unfold ft'. apply list_eq. intros i. destruct (decide (i = j)) as [->|Hne]; [|by rewrite !list_lookup_alter_ne, list_lookup_insert_ne].
    rewrite !list_lookup_alter_eq, list_lookup_insert_eq, Hf by (by eapply lookup_lt_Some). done. }
  split.
  - eapply table_update; [done|by eapply lookup_lt_Some|..].
    + intros i [->|?]%elem_of_cons; [by right|by left].
    + intros i Hi. rewrite nref_cons, decide_False by done. lia.
    + rewrite nref_cons, decide_True, nref_0 by done. cbn. split_and!; [done|lia|by exists k|done..].
  - destruct (tptrs_insert ft tb j f None Hf Ho) as (T & H1 & H2). rewrite H2, H1. unfold tptr. cbn [t_type]. by destruct (t_type f).
Qed.

Lemma do_open Q R s u x b path omode : proc_ok Q R s u x (6 + b) → sys_ok sb Q.*2 (SOpen path omode) x → sys_result (SOpen path omode) Q R s u x b.
Proof using BL HL Hid Hlsz FL.
  intros Hp [H1 Hok]. destruct (fs_start _ _ _ _ _ _ (po_fs _ _ _ _ _ _ Hp)) as [Eg Hr]. unfold sys_result. cbn [do_sys spec_sys]. unfold sys_open, spec_open. rewrite Eg.
  destruct (txn_start g0 Hid sb _ _ _ _ _ Hr) as [E0 Ht]. rewrite E0, bind_Ok. pose proof (proc_ready _ _ _ _ _ _ _ Hp H1) as Hrd.
  pose proof (open_inode_spec _ _ _ _ _ b _ _ path omode Ht Hrd (proj2 H1) Hok) as Hopen. pose proof (keeps_open (inos (p_table x)) (p_files x) (p_cwd x) path omode) as Hk.
  pose proof (open_not_dir (p_files x) (p_cwd x) path omode) as Hnd. destruct (spec_open_inode sb (p_files x) (p_cwd x) path omode) as [[i|] m']; cbn [fst snd] in *.
  2:{ destruct Hopen as (c1 & g1 & ic1 & E1 & Ht1 & Htr). rewrite E1, bind_Ok. destruct (txn_end g0 HL Hid Hlsz sb FL _ _ _ _ _ _ _ Ht1) as (c2 & E2 & Hr2). rewrite E2, !bind_Ok.
      eexists _, u. split; [done|]. by eapply proc_disk. }
  destruct Hopen as (k & c1 & g1 & ic1 & E1 & Ht1 & Htr & Hl). rewrite E1, bind_Ok. cbn [set_disk fs_ft]. pose proof (po_fs _ _ _ _ _ _ Hp) as (_ & HT & _). unfold filealloc. rewrite (filealloc_first _ _ _ HT).
  destruct (first_none (p_table x)) as [j|] eqn:Ej.
  2:{ destruct (open_bad_spec (set_ft (fs_ft s) (set_disk c1 g1 ic1 s)) u _ m' b k i Ht1 Hl) as (c2 & ic2 & E2 & Hr2). rewrite E2, bind_Ok. eexists _, u. split; [done|]. by eapply (proc_disk Q R s). }
  destruct (free_entry _ _ _ _ HT Ej) as (f & Hf & Ho & Hty & Hrf & Hj). rewrite fdalloc_first, <- (po_fds _ _ _ _ _ _ Hp). destruct (first_none (ofile u)) as [fd|] eqn:Efd; cbn [mbind option_bind].
  2:{ rewrite (close_fresh _ (fs_ft s) j f Hf Hty Hrf), bind_Ok. destruct (open_bad_spec (set_ft (fs_ft s) (set_disk c1 g1 ic1 s)) u _ m' b k i Ht1 Hl) as (c2 & ic2 & E2 & Hr2).
      rewrite E2, bind_Ok. eexists _, u. split; [done|]. by eapply (proc_disk Q R s). }
  destruct (r_iunlock g0 sb _ _ _ _ _ _ _ _ k Ht1 (lock_in _ _)) as (ic2 & E2 & Ht2). cbn [set_ft set_disk fs_ic fs_c fs_g]. rewrite E2, bind_Ok. rewrite lock_back in Ht2 by apply not_elem_of_empty.
  destruct (txn_end g0 HL Hid Hlsz sb FL _ _ _ _ _ _ _ Ht2) as (c3 & E3 & Hr3). rewrite E3, !bind_Ok. set (d := ADesc i (may_read omode) (may_write omode) 0).
  destruct (fill_entry _ _ _ j f k d HT Hf Ho Hrf Hj) as [HT' Hpt]. apply first_none_Some in Efd as [Efd _]. destruct (fd_perm _ _ _ Efd) as (T & HT1 & HT2).
  eexists _, _. split; [done|]. split; cbn [p_files p_table p_cwd p_fds fst snd ofile u_cwd]; [|done|by rewrite length_insert, (po_nofile _ _ _ _ _ _ Hp)|done|].
  - split_and!; [done| |]; cbn [set_ft set_disk fs_c fs_ic fs_ft fs_g].
    + eapply table_perm; [exact HT'|]. rewrite HT2, HT1. done.
    + eapply rest_perm; [exact Hr3|]. cbn [d ad_r ad_w ad_off] in Hpt. rewrite Hpt. cbn [ad_ino d]. by rewrite Permutation_middle.
  - apply offs_insert; [eapply offs_keeps; [apply Hp|done]|]. intros ? [= <-]. destruct Hl as (fi & Hfi & _). exists fi. cbn [ad_ino ad_off ad_w d]. split_and!; [done|lia|lia|by eapply Hnd].
Qed.

Lemma do_sys_ok c Q R s u x b : proc_ok Q R s u x (sys_blocks c + b) → sys_ok sb Q.*2 c x → sys_result c Q R s u x b.
Proof using BL HL Hid Hlsz FL.
  destruct c; intros Hp Hok; [by apply do_link|by apply do_unlink|by apply do_mkdir|by apply do_mknod|by apply do_chdir|by apply do_open|by apply do_close|by apply do_dup|by apply do_read|by apply do_write|by apply do_fstat].
Qed.
End rules.
