(* ===== verification/SysRun.v ===== *)
(** Sequences of file-system calls by several processes (src/p4/sysfile.c).

    [asys] has the files, the table of open files, and for each process its current directory and its descriptors.  [run_spec] runs calls against it, [run_sys] runs
    them in the kernel.  A call is a step: calls that sleep inside one another are not interleaved. *)

From Stdlib Require Import ZArith Lia.
From stdpp Require Import base numbers list gmap fin_sets sets strings.
From S2P Require Import Prelude CStr MemIface Bio Log LogCrash Fs FsSpec FsTrunc Pipe File FileThm FsCk Icache IcacheSpec IcacheOps IcacheThm Dir DirSpec DirOps DirDemo Ftable Sysfile Tree Txn SysfileSpec FtableSpec Syscalls.
#[local] Open Scope Z_scope.

Record aproc := AProc { q_cwd : Z; q_fds : list (option nat) }.
Record asys := ASys { as_files : gmap Z afile; as_table : atable; as_procs : list aproc }.

Definition view (a : asys) (q : aproc) : pstate := PState (as_files a) (as_table a) (q_cwd q) (q_fds q).
Definition other_cwds (p : nat) (a : asys) : list Z := q_cwd <$> delete p (as_procs a).
Definition other_fds (p : nat) (a : asys) : list nat := concat ((λ q, omap id (q_fds q)) <$> delete p (as_procs a)).
Definition store_view (p : nat) (x : pstate) (a : asys) : asys := ASys (p_files x) (p_table x) (<[p := AProc (p_cwd x) (p_fds x)]> (as_procs a)).

(** Call [c] by process [p]. *)
Definition spec_at (sb : superblock) (g0 : log) (p : nat) (c : syscall) (a : asys) : sysret * asys :=
  match as_procs a !! p with
  | None => (ret (-1), a)
  | Some q => let res := spec_sys sb g0 (other_cwds p a) (other_fds p a) c (view a q) in (res.1, store_view p res.2 a)
  end.

Fixpoint run_spec (sb : superblock) (g0 : log) (cs : list (nat * syscall)) (a : asys) : list sysret * asys :=
  match cs with
  | [] => ([], a)
  | (p, c) :: cs' => let '(r, a) := spec_at sb g0 p c a in let '(rs, a) := run_spec sb g0 cs' a in (r :: rs, a)
  end.

(** Each call has what it needs, in the state in which it is made. *)
Fixpoint run_ok (sb : superblock) (g0 : log) (cs : list (nat * syscall)) (a : asys) : Prop :=
  match cs with
  | [] => True
  | (p, c) :: cs' => (∃ q, as_procs a !! p = Some q ∧ sys_ok sb (other_cwds p a) c (view a q)) ∧ run_ok sb g0 cs' (spec_at sb g0 p c a).2
  end.

Definition run_blocks (cs : list (nat * syscall)) : nat := sum_list (sys_blocks ∘ snd <$> cs).

Section run.
Context {C : Type} `{BL : BufLaws C cview} (g0 : log) (HL : layout g0) (Hid : idle g0) (Hlsz : 28 <= lsize g0) (sb : superblock) (FL : fs_layout g0 sb).
Context {M : Type} `{MO : MemOps M}.
Context (dr : Z → option (C → log → inode → Z → outcome (Z * list Z * inode * C * log))).
Context (dw : Z → option (C → log → inode → list Z → outcome (Z * inode * C * log))).
Abbreviation fsys := (fsys C M).
Abbreviation fsok := (fsok (M := M) (cview := cview) g0 sb).
Abbreviation proc_ok := (proc_ok (M := M) (cview := cview) g0 sb).

Fixpoint run_sys (cs : list (nat * syscall)) (s : fsys) (us : list uproc) : outcome (list sysret * fsys * list uproc) :=
  match cs with
  | [] => Ok ([], s, us)
  | (p, c) :: cs' =>
      match us !! p with
      | None => Fault (Z.of_nat p)
      | Some u =>
          '(r, s, u) ← do_sys sb dr dw c s u;
          '(rs, s, us) ← run_sys cs' s (<[p := u]> us);
          Ok (r :: rs, s, us)
      end
  end.

Definition all_refs (us : list uproc) : list nat := concat ((λ u, omap id (ofile u)) <$> us).
Definition cwd_ptrs (us : list uproc) (qs : list aproc) : list (nat * Z) := zip_with (λ u q, (u_cwd u, q_cwd q)) us qs.

(** The kernel with the processes [us] implements [a], with [b] free blocks: the file system is consistent on disk and in the caches, the
    files are a tree with exact link counts, the counts of the table are exact, and offsets are inside the files. *)
Record models (s : fsys) (us : list uproc) (a : asys) (b : nat) : Prop := {
  mo_fs : fsok s (as_table a) (all_refs us) (cwd_ptrs us (as_procs a)) (as_files a) b;
  mo_procs : Forall2 (λ u q, ofile u = q_fds q ∧ length (ofile u) = NOFILE) us (as_procs a);
  mo_tree : tree (as_files a);
  mo_offs : offs_ok (as_table a) (as_files a) }.

Lemma insert_perm {A} (l : list A) p x y : l !! p = Some x → <[p := y]> l ≡ₚ y :: delete p l.
Proof.
  intros Hp. rewrite insert_take_drop by (by eapply lookup_lt_Some). rewrite delete_take_drop. by rewrite <- Permutation_middle.
Qed.

Lemma refs_at us p u u' : us !! p = Some u → all_refs (<[p := u']> us) ≡ₚ omap id (ofile u') ++ all_refs (delete p us).
Proof. intros Hp. unfold all_refs. by rewrite (insert_perm us p u u' Hp). Qed.

Lemma cwds_at us qs p u q u' q' : us !! p = Some u → qs !! p = Some q →
  cwd_ptrs (<[p := u']> us) (<[p := q']> qs) ≡ₚ (u_cwd u', q_cwd q') :: delete p (cwd_ptrs us qs).
Proof.
  intros Hu Hq. unfold cwd_ptrs. rewrite <- insert_zip_with. eapply insert_perm. rewrite lookup_zip_with, Hu. cbn. rewrite Hq. done.
Qed.

Lemma cwds_snd us qs p : length us = length qs → (delete p (cwd_ptrs us qs)).*2 = q_cwd <$> delete p qs.
Proof.
  intros Hl. rewrite !delete_take_drop, !fmap_app, !fmap_take, !fmap_drop. assert ((cwd_ptrs us qs).*2 = q_cwd <$> qs) as ->; [|done].
  revert us Hl. induction qs as [|q qs IH]; intros [|u us] Hl; try done. cbn. by rewrite <- (IH us) by (cbn in Hl; lia).
Qed.

Lemma other_refs us qs p : Forall2 (λ u q, ofile u = q_fds q ∧ length (ofile u) = NOFILE) us qs → all_refs (delete p us) = concat ((λ q, omap id (q_fds q)) <$> delete p qs).
Proof.
  intros HF. unfold all_refs. f_equal. apply (Forall2_delete _ _ _ p) in HF. induction HF as [|u q us' qs' [E _] _ IH]; [done|]. rewrite !fmap_cons, E. f_equal. exact IH.
Qed.

Lemma models_view s us a b p u q : models s us a b → us !! p = Some u → as_procs a !! p = Some q →
  proc_ok (delete p (cwd_ptrs us (as_procs a))) (other_fds p a) s u (view a q) b.
Proof.
  intros [Hfs HF Htr Ho] Hu Hq. destruct (Forall2_lookup_lr _ _ _ _ _ _ HF Hu Hq) as [Hfd Hn]. split; try done. unfold other_fds. rewrite <- (other_refs _ _ p HF).
  eapply fsok_perm; [exact Hfs| |].
  - rewrite <- (list_insert_id us p u Hu) at 1. by eapply refs_at.
  - rewrite <- (list_insert_id us p u Hu) at 1. rewrite <- (list_insert_id (as_procs a) p q Hq) at 1. by eapply cwds_at.
Qed.

Lemma view_models s us a b s' u u' q x b' p : models s us a b → us !! p = Some u → as_procs a !! p = Some q → proc_ok (delete p (cwd_ptrs us (as_procs a))) (other_fds p a) s' u' x b' →
  models s' (<[p := u']> us) (store_view p x a) b'.
Proof.
  intros [Hfs HF Htr Ho] Hu Hq [Hfs' Hfd Hn Htr' Ho']. unfold other_fds in Hfs'. rewrite <- (other_refs _ _ p HF) in Hfs'. split; cbn [store_view as_files as_table as_procs]; [|by apply Forall2_insert|done|done].
  eapply fsok_perm; [exact Hfs'|symmetry; by eapply refs_at|]. symmetry. by eapply (cwds_at us (as_procs a) p u q u' (AProc (p_cwd x) (p_fds x))).
Qed.

Lemma models_weaken s us a b b' : models s us a b → (b' ≤ b)%nat → models s us a b'.
Proof. intros [(Eg & HT & Hr) HF Htr Ho] Hb. split; try done. split_and!; [done|done|by eapply rest_weaken]. Qed.

(** One call. *)
Lemma models_call p c s us a b : models s us a (sys_blocks c + b) → (∃ q, as_procs a !! p = Some q ∧ sys_ok sb (other_cwds p a) c (view a q)) →
  ∃ u s' u', us !! p = Some u ∧ do_sys sb dr dw c s u = Ok ((spec_at sb g0 p c a).1, s', u') ∧ models s' (<[p := u']> us) (spec_at sb g0 p c a).2 b.
Proof using BL HL Hid Hlsz FL.
  intros Hm (q & Hq & Hok). destruct (Forall2_lookup_r _ _ _ _ _ (mo_procs _ _ _ _ Hm) Hq) as (u & Hu & _). unfold spec_at. rewrite Hq.
  assert ((delete p (cwd_ptrs us (as_procs a))).*2 = other_cwds p a) as Ec by (apply cwds_snd, (Forall2_length _ _ _ (mo_procs _ _ _ _ Hm))).
  destruct (do_sys_ok g0 HL Hid Hlsz sb FL dr dw c _ _ s u _ b (models_view _ _ _ _ _ _ _ Hm Hu Hq)) as (s' & u' & E & Hp); [by rewrite Ec|]. rewrite Ec in E, Hp.
  exists u, s', u'. split_and!; [done|done|]. by eapply view_models.
Qed.

Lemma run_models cs : ∀ s us a b, models s us a (run_blocks cs + b) → run_ok sb g0 cs a →
  ∃ s' us', run_sys cs s us = Ok ((run_spec sb g0 cs a).1, s', us') ∧ models s' us' (run_spec sb g0 cs a).2 b.
Proof using BL HL Hid Hlsz FL.
  induction cs as [|[p c] cs IH]; intros s us a b Hm Hok; [by exists s, us|]. destruct Hok as [Hc Hok].
  destruct (models_call p c s us a (run_blocks cs + b)) as (u & s1 & u1 & Hu & E1 & Hm1); [by rewrite Nat.add_assoc|done|]. cbn [run_sys run_spec]. rewrite Hu, E1, bind_Ok.
  destruct (spec_at sb g0 p c a) as [r a1]. cbn [fst snd] in *. destruct (IH _ _ _ _ Hm1 Hok) as (s2 & us2 & E2 & Hm2). rewrite E2, bind_Ok. destruct (run_spec sb g0 cs a1) as [rs a2]. by exists s2, us2.
Qed.
End run.
