(* ===== verification/SyscallsDemo.v ===== *)
(** The disk of DirDemo.v with a process on it: no file is open, and the current directory is the root. *)

From Stdlib Require Import ZArith Lia.
From stdpp Require Import base numbers list gmap fin_sets sets strings.
From S2P Require Import Prelude CStr MemIface Bio Log LogCrash Fs FsSpec FsTrunc Pipe File FileThm FsCk Icache IcacheSpec IcacheOps IcacheThm Dir DirSpec DirOps DirDemo Ftable Sysfile Tree Txn SysfileSpec FtableSpec Syscalls SysRun.
#[local] Open Scope Z_scope.

Definition y_map : gmap (list Z) Z := {[ DOT := 1; DOTDOT := 1; [102] := 2 ]}.

Lemma y_dmap : dmap y_data = y_map.
Proof. vm_compute. reflexivity. Qed.

Lemma y_entries d n i : entry y_files d n i ↔ d = 1 ∧ y_map !! n = Some i.
Proof.
  unfold entry, y_files. split.
  - intros (f & [[<- <-]|[_ [<- <-]%lookup_singleton_Some]]%lookup_insert_Some & Ht & _ & Hn); [|done]. cbn [a_data] in Hn. by rewrite y_dmap in Hn.
  - intros [-> Hn]. exists y_dir. split; [vm_compute; reflexivity|]. split_and!; [done|done|]. cbn [a_data y_dir]. by rewrite y_dmap.
Qed.

Lemma y_names n i : y_map !! n = Some i ↔ n = DOT ∧ i = 1 ∨ n = DOTDOT ∧ i = 1 ∨ n = [102] ∧ i = 2.
Proof.
  unfold y_map. split; [|intros [[-> ->]|[[-> ->]|[-> ->]]]; vm_compute; reflexivity].
  intros [[<- <-]|[_ [[<- <-]|[_ [<- <-]%lookup_singleton_Some]]%lookup_insert_Some]]%lookup_insert_Some; tauto.
Qed.

Lemma y_kinds i b x : (kind <$> y_files) !! i = Some (b, x) ↔ i = 1 ∧ b = true ∧ x = 1 ∨ i = 2 ∧ b = false ∧ x = 1.
Proof.
  assert (kind <$> y_files = {[1 := (true, 1); 2 := (false, 1)]}) as -> by (vm_compute; reflexivity). split.
  - intros [[<- [= <- <-]]|[_ [<- [= <- <-]]%lookup_singleton_Some]]%lookup_insert_Some; tauto.
  - intros [(-> & -> & ->)|(-> & -> & ->)]; vm_compute; reflexivity.
Qed.

Lemma y_file_tree : tree y_files.
Proof.
  assert (∀ d n i, entry y_files d n i ↔ d = 1 ∧ (n = DOT ∧ i = 1 ∨ n = DOTDOT ∧ i = 1 ∨ n = [102] ∧ i = 2)) as He by (intros d n i; by rewrite y_entries, y_names).
  split.
  - intros d f Hf Ht Hn. unfold y_files in Hf. apply lookup_insert_Some in Hf as [[<- <-]|[_ [<- <-]%lookup_singleton_Some]]; [|done]. split_and!; [apply y_is_dir|cbn [a_data]..].
    + intros j1 j2 n i1 i2 H1 H2 (_ & _ & E1) (_ & _ & E2). change (ndent y_data) with 3%nat in *. rewrite <- E2 in E1.
      destruct j1 as [|[|[|]]], j2 as [|[|[|]]]; try lia; vm_compute in E1; done.
    + exists 1. split_and!; [change (ndent y_data) with 3%nat; lia|by split_and!; vm_compute..].
  - split.
    + intros d n i [-> _]%He. exists 1. split; [apply y_kinds; tauto|done].
    + intros d n i i'. rewrite !He. intros [_ H1] [_ H2]. destruct H1 as [[-> ->]|[[-> ->]|[-> ->]]], H2 as [[E ->]|[[E ->]|[E ->]]]; done.
    + intros d x [(-> & _ & ->)|(_ & ? & _)]%y_kinds _; [|done]. split; [apply He; tauto|exists 1; apply He; tauto].
    + intros d n i [_ Hi]%He. destruct Hi as [[_ ->]|[[_ ->]|[_ ->]]]; eexists; apply y_kinds; naive_solver.
    + intros i b x [(-> & _ & ->)|(-> & _ & ->)]%y_kinds; [exists {[ (1, DOTDOT) ]}|exists {[ (1, [102]) ]}]; (split; [|by rewrite size_singleton]);
        intros d n; rewrite elem_of_singleton, He; naive_solver.
    + apply He; tauto.
    + intros d p [-> _]%He Hd. done.
    + intros d n i x [-> Hi]%He [Hp1 Hp2] Hk%y_kinds. naive_solver.
    + intros d n n' i x [-> Hi]%He [_ Hi']%He [Hp1 Hp2] [Hp1' Hp2'] _. naive_solver.
    + exists (λ _, 0%nat). intros d n i x [-> Hi]%He [Hp1 Hp2] Hk%y_kinds. naive_solver.
Qed.

(** The table with all entries free, and the process. *)
Definition y_table : ftable := replicate NFILE (TFile FNone 0 false false 0).
Definition y_sys : fsys bcache mledger := FSys (binit y_fs) w_log (y_cache false) y_table ∅ (MLedger ∅ ∅ 1).
Definition y_proc : uproc := UProc (replicate NOFILE None) 0.
Definition y_asys : asys := ASys y_files (replicate NFILE None) [AProc 1 (replicate NOFILE None)].

Lemma y_idle : idle w_log.
Proof. by split_and!. Qed.

Lemma y_free : size (free_blocks w_log w_sb y_fs) = 65%nat.
Proof. vm_compute. reflexivity. Qed.

Lemma y_models b : (b ≤ 65)%nat → models (cview := binv) w_log w_sb y_sys [y_proc] y_asys b.
Proof.
  intros Hb. split; cbn [as_files as_table as_procs y_asys].
  - split_and!; [done| |].
    + split_and!; [done|by intros j ?%not_elem_of_nil|]. intros j f o [-> _]%lookup_replicate [-> _]%lookup_replicate. done.
    + change (all_refs [y_proc]) with (@nil nat). exists y_fs. split_and!; [exists y_fs; apply binit_inv|exact (y_implements false)|by rewrite y_free].
  - by repeat constructor.
  - apply y_file_tree.
  - intros j d [? _]%lookup_replicate. done.
Qed.

(** ** Checking what calls need *)

Definition linkedb (m : gmap Z afile) (i : Z) : bool := match m !! i with Some f => negb (a_nlink f =? 0) | None => false end.

Definition path_callb (others : list Z) (x : pstate) (path : list Z) : bool :=
  (size (list_to_set (p_inos others x) : gset Z) + 3 <=? NINODE)%nat && forallb (λ b, negb (b =? 0)) path && (linkedb (p_files x) (p_cwd x) || (chr path =? SLASH)).

Definition fits (fd : afile) : bool := Z.of_nat (length (a_data fd)) + 16 <=? 71680.

Definition create_okb (sb : superblock) (x : pstate) (path : list Z) : bool :=
  match find_parent (p_files x) (p_cwd x) path with
  | None => true
  | Some (d, fd) => bool_decide (is_Some (dlookup (a_data fd) (last_name path))) || fits fd && bool_decide (is_Some (fresh_inum sb (p_files x))) && (a_nlink fd + 1 <? 2 ^ 15)
  end.

Definition link_okb (x : pstate) (old new : list Z) : bool :=
  match find (p_files x) (p_cwd x) old with
  | None => true
  | Some (_, f) => (a_nlink f + 1 <? 2 ^ 15) &&
      match find_parent (p_files x) (p_cwd x) new with
      | None => true
      | Some (d, fd) => match dlookup (a_data fd) (last_name new) with Some j => negb (de_inum (dent (a_data fd) j) =? d) | None => fits fd end
      end
  end.

Definition sys_okb (sb : superblock) (others : list Z) (c : syscall) (x : pstate) : bool :=
  match c with
  | SLink old new => path_callb others x old && path_callb others x new && link_okb x old new
  | SUnlink path | SChdir path => path_callb others x path
  | SMkdir path | SMknod path _ _ | SOpen path _ => path_callb others x path && create_okb sb x path
  | SClose _ | SDup _ | SFstat _ => true
  | SRead fd n => (0 <=? n) && (n <? 2 ^ 31) && match open_file x fd with Some (_, _, f) => negb (a_type f =? T_DEV) | None => true end
  | SWrite fd src => match open_file x fd with Some (_, d, f) => negb (a_type f =? T_DEV) && (ad_off d + Z.of_nat (length src) <=? 71680) | None => true end
  end.

Fixpoint run_okb (sb : superblock) (g0 : log) (cs : list (nat * syscall)) (a : asys) : bool :=
  match cs with
  | [] => true
  | (p, c) :: cs' => match as_procs a !! p with None => false | Some q => sys_okb sb (other_cwds p a) c (view a q) end && run_okb sb g0 cs' (spec_at sb g0 p c a).2
  end.

Lemma path_callb_ok others x path : path_callb others x path = true → path_call others x path.
Proof.
  unfold path_callb, path_call, path_ok. rewrite !andb_true_iff, orb_true_iff. intros [[H1 H2] H3]. split; [by apply Nat.leb_le|]. split.
  - apply Forall_forall. intros b Hb. rewrite forallb_forall in H2. specialize (H2 b ltac:(by apply list_elem_of_In)). by apply negb_true_iff, Z.eqb_neq in H2.
  - destruct H3 as [H3|H3]; [left|right; by apply Z.eqb_eq]. unfold linkedb in H3. unfold linked. destruct (p_files x !! p_cwd x) as [f|]; [|done].
    exists f. by apply negb_true_iff, Z.eqb_neq in H3.
Qed.

Lemma fits_ok fd : fits fd = true → (length (a_data fd) + DIRENT ≤ MAXBYTES)%nat.
Proof. intros H%Z.leb_le. unfold MAXBYTES, BSIZE, DIRENT, DIRSIZ. lia. Qed.

Lemma create_okb_ok sb x path type : create_okb sb x path = true → create_ok sb (p_files x) (p_cwd x) path type.
Proof.
  unfold create_okb. intros H d fd E Hn. rewrite E, Hn in H. cbn [orb] in H. rewrite bool_decide_eq_false_2 in H by (by intros [? ?]). cbn [orb] in H.
  rewrite !andb_true_iff, bool_decide_eq_true in H. destruct H as [[H1 H2] H3%Z.ltb_lt]. split_and!; [by apply fits_ok|done|done].
Qed.

Lemma link_okb_ok x old new : link_okb x old new = true → link_ok (p_files x) (p_cwd x) old new.
Proof.
  unfold link_okb. intros H i f E _. rewrite E in H. apply andb_true_iff in H as [H1%Z.ltb_lt H2]. split; [done|]. intros d fd E2. rewrite E2 in H2.
  destruct (dlookup _ _); [by apply negb_true_iff, Z.eqb_neq in H2|by apply fits_ok].
Qed.

#[local] Hint Resolve path_callb_ok create_okb_ok link_okb_ok : core.

Lemma sys_okb_ok sb others c x : sys_okb sb others c x = true → sys_ok sb others c x.
Proof.
  destruct c; cbn [sys_okb sys_ok]; rewrite ?andb_true_iff; cbn zeta.
  - intros [[H1 H2] H3]. refine (conj _ (conj _ _)); auto.
  - auto.
  - intros [H1 H2]. refine (conj _ _); auto.
  - intros [H1 H2]. refine (conj _ _); auto.
  - auto.
  - intros [H1 H2]. refine (conj _ _); auto.
  - done.
  - done.
  - intros [[H1%Z.leb_le H2%Z.ltb_lt] H3]. split; [lia|]. intros j d f E. rewrite E in H3. by apply negb_true_iff, Z.eqb_neq in H3.
  - intros H j d f E. rewrite E in H. apply andb_true_iff in H as [H1%negb_true_iff%Z.eqb_neq H2%Z.leb_le]. split; [done|]. unfold MAXBYTES, BSIZE. lia.
  - done.
Qed.

Lemma run_okb_ok sb g0 cs : ∀ a, run_okb sb g0 cs a = true → run_ok sb g0 cs a.
Proof.
  induction cs as [|[p c] cs IH]; intros a; cbn [run_okb run_ok]; [done|]. intros [H1 H2]%andb_true_iff. split; [|by apply IH]. destruct (as_procs a !! p) as [q|]; [|done].
  exists q. split; [done|by apply sys_okb_ok].
Qed.
