(* ===== verification/SyscallsThm.v ===== *)
(** The theorems about the file-system calls (src/p4/sysfile.c, src/p4/file.c), and what they say on the disk of DirDemo.v. *)

From Stdlib Require Import ZArith Lia.
From stdpp Require Import base numbers list gmap fin_sets sets strings.
From S2P Require Import Prelude CStr MemIface Bio Log LogCrash Fs FsSpec FsTrunc Pipe File FileThm FsCk Icache IcacheSpec IcacheOps IcacheThm Dir DirSpec DirOps DirDemo Ftable Sysfile Tree Txn SysfileSpec FtableSpec Syscalls SysRun SyscallsDemo.
#[local] Open Scope Z_scope.

(** C1. Sequences of file-system calls, each made where it has what it needs, do to the kernel what they do to the abstract system, in which there are only a tree of files, a table of open
    files, and a current directory and descriptors for each process.  The calls are [link], [unlink], [mkdir], [mknod], [chdir], [open], [close], [dup], [read], [write] and [fstat], by any of the processes, one
    after the other.  [run_ok] says what each call needs in the abstract state in which it is made: a path has no NUL byte and starts at the root or in a directory that still has a link, and all calls with a path find three
    free entries in the inode cache; the new name of a [link] does not stand for the directory in which it is looked up (as f/. does), the link count of the file and, for [mkdir], that of the parent stay below 2^15, and a
    new entry finds room in the directory and, for a new file, a free inode; [read] and [write] are not on a device, the length of a [read] is an int that is not negative, and a [write] ends within the largest file.  And
    the disk has enough free blocks: 2 for a [link], 6 for a [mkdir], [mknod] or [open], 8 for each piece of a [write].  From a state that implements an abstract one, every such sequence returns without a panic, a
    deadlock or an overrun of the log, with the results of the specification, and ends in a state that implements the abstract one: the disk is
    consistent and at rest, the caches agree with it, the reference counts of the table and of the inodes are exact, each link count is the number of entries, directories form a tree,
    and a file without links stays until its last pointer goes.  The conditions on paths are needed: [removed_cwd_panics] is a sequence of calls after which a path that starts in a removed directory stops the kernel. *)
Theorem system_calls_refine {M} `{MemOps M} g sb dr dw cs (s : fsys bcache M) us a b : layout g → idle g → 28 <= lsize g → fs_layout g sb →
  models (cview := binv) g sb s us a (run_blocks cs + b) → run_ok sb g cs a →
  ∃ s' us', run_sys sb dr dw cs s us = Ok ((run_spec sb g cs a).1, s', us') ∧ models (cview := binv) g sb s' us' (run_spec sb g cs a).2 b.
Proof. intros HL Hid Hls FL. by apply (run_models g HL Hid Hls sb FL dr dw). Qed.

(** A directory that is removed while it is a current directory, and whose parent is removed after it. *)
Definition removal : list (nat * syscall) :=
  (0%nat,.) <$> [SMkdir (of_string "a"); SMkdir (of_string "a/b"); SChdir (of_string "a/b"); SUnlink (of_string "../b"); SUnlink (of_string "/a")].

(** C40. A process can stop the kernel with calls that a user program may make: it makes the directories a and a/b, goes to a/b, removes it and then a, each of which
    succeeds, since an empty directory can be removed while it is in use and its entry .. is not counted any more; then [chdir]("..") follows that entry to the
    inode that is now free, and [ilock] panics. *)
Theorem removed_cwd_panics :
  ∃ s u, run_sys w_sb (λ _, None) (λ _, None) removal y_sys [y_proc] = Ok (replicate 5 (ret 0), s, [u]) ∧
    sys_chdir w_sb (λ _, None) (fs_c s) (fs_g s) (fs_ic s) (u_cwd u) (Some (of_string "..")) = Panic "ilock: no type".
Proof.
  set (res := run_sys w_sb (λ _, None) (λ _, None) removal y_sys [y_proc]).
  assert (match res with
    | Ok (rs, s, [u]) => match sys_chdir w_sb (λ _, None) (fs_c s) (fs_g s) (fs_ic s) (u_cwd u) (Some (of_string "..")) with Panic msg => Some (rs, msg) | _ => None end
    | _ => None end = Some (replicate 5 (ret 0), "ilock: no type")) as E by (vm_compute; reflexivity).
  destruct res as [[[rs s] [|u [|]]]| | |]; try done. exists s, u. destruct (sys_chdir _ _ _ _ _ _ _); try done. by simplify_eq.
Qed.

(** * The theorems on a small disk *)

(** A file is made in a new directory, written, linked under another name and unlinked under the first, and read through the second; the directory is
    removed. *)
Definition y_calls : list (nat * syscall) :=
  (0%nat,.) <$> [SMkdir (of_string "d"); SOpen (of_string "d/x") (Z.lor O_CREATE O_RDWR); SWrite 0 [104; 105]; SLink (of_string "d/x") (of_string "g");
    SUnlink (of_string "d/x"); SOpen (of_string "g") O_RDONLY; SRead 1 10; SUnlink (of_string "/d"); SUnlink (of_string "g"); SDup 1; SClose 0; SFstat 2].

Definition y_results : list sysret :=
  [ret 0; ret 0; ret 2; ret 0; ret 0; ret 1; (2, [104; 105], None); ret 0; ret 0; ret 2; ret 0; (0, [], Some (Stat T_FILE ROOTDEV 4 0 2))].

Lemma y_results_ok : (run_spec w_sb w_log y_calls y_asys).1 = y_results.
Proof. vm_compute. reflexivity. Qed.

(** C1 for those calls. *)
Lemma system_calls_refine_witness : ∃ s' us', run_sys w_sb (λ _, None) (λ _, None) y_calls y_sys [y_proc] = Ok (y_results, s', us') ∧
  models (cview := binv) w_log w_sb s' us' (run_spec w_sb w_log y_calls y_asys).2 0.
Proof.
  destruct (system_calls_refine w_log w_sb (λ _, None) (λ _, None) y_calls y_sys [y_proc] y_asys 0 w_log_layout y_idle ltac:(by vm_compute) w_fs_layout) as (s' & us' & E & Hm).
  - apply y_models. apply Nat.leb_le. vm_compute. reflexivity.
  - apply run_okb_ok. vm_compute. reflexivity.
  - exists s', us'. rewrite y_results_ok in E. split; [exact E|exact Hm].
Defined.
