(* ===== verification/FileComp.v ===== *)
(** Processes on the file system: the table of open files and the inode cache of src/p4/file.c and src/p4/fs.c keep the promises that the process table
    relies on ([FileLaws] of KernBase.v), so that what was proved of forks and exits over any such component holds over this one.
    The two files are the same in the kernels of the projects.

    A pointer to entry [k] of the table or of the cache is [k + 1], so that it is not null. *)

From Stdlib Require Import ZArith Lia.
From stdpp Require Import base numbers list gmap fin_sets sets strings relations.
From S2P Require Import Prelude CStr Mmu MemIface KernBase Sched SchedSpec Bio Log LogCrash Fs FsSpec FsTrunc Pipe File FileThm FsCk Icache IcacheSpec IcacheOps IcacheThm Dir DirSpec DirOps DirDemo Ftable Sysfile Tree Txn SysfileSpec FtableSpec Syscalls SysRun SyscallsDemo.
#[local] Open Scope Z_scope.

Definition ptr_of (k : nat) : Z := Z.of_nat k + 1.
Definition of_ptr (x : Z) : nat := Z.to_nat (x - 1).

Lemma of_ptr_of k : of_ptr (ptr_of k) = k.
Proof. unfold of_ptr, ptr_of. lia. Qed.

(** The files [m0] less some that had no links. *)
Definition only_unlinked (m0 m : gmap Z afile) : Prop := m ⊆ m0 ∧ ∀ i f, m0 !! i = Some f → a_nlink f ≠ 0 → m !! i = Some f.

Lemma only_dropped m0 m l i : only_unlinked m0 m → only_unlinked m0 (dropped l i m).
Proof.
  intros [H1 H2]. unfold dropped. destruct (m !! i) as [fi|] eqn:Ei; [|done]. case_decide as Hd; [|done]. split; [etrans; [apply delete_subseteq|done]|].
  intros j f Hf Hn. rewrite lookup_delete_ne; [by apply H2|]. intros ->. pose proof (lookup_weaken _ _ _ _ Ei H1). destruct Hd as [_ Hd]. congruence.
Qed.

Section comp.
Context {C : Type} `{BL : BufLaws C cview} (g0 : log) (HL : layout g0) (Hid : idle g0) (Hlsz : 28 <= lsize g0) (sb : superblock) (FL : fs_layout g0 sb).
Context {M : Type} `{MO : MemOps M}.
Context (dr : Z → option (C → log → inode → Z → outcome (Z * list Z * inode * C * log))).
Abbreviation fsys := (fsys C M).
Abbreviation fsok := (fsok (M := M) (cview := cview) g0 sb).

Definition file_ops : FileOps fsys := {|
  KernBase.filedup s x := ft ← Ftable.filedup (fs_ft s) (of_ptr x); Ok (set_ft ft s);
  KernBase.fileclose s x := Ftable.fileclose sb s (of_ptr x);
  KernBase.idup s x := ic ← Icache.idup (fs_ic s) (of_ptr x); Ok (set_disk (fs_c s) (fs_g s) ic s);
  KernBase.iput_cwd s x := iput_op sb s (of_ptr x);
  KernBase.namei_root s :=
    '(o, c, g, ic) ← namei sb dr (fs_c s) (fs_g s) (fs_ic s) 0 [SLASH];
    Ok (match o with Some k => ptr_of k | None => 0 end, set_disk c g ic s)
|}.

(** The file system is consistent and at rest, with the files [m0] up to some that had no links; the counts of the table are the numbers of pointers in [l], and [c] are
    pointers to inodes. *)
Definition file_holds (m0 : gmap Z afile) (s : fsys) (l c : list Z) : Prop :=
  ∃ tb refs Q m, fsok s tb refs Q m 0 ∧ only_unlinked m0 m ∧ l ≡ₚ ptr_of <$> refs ∧ c ≡ₚ (ptr_of ∘ fst) <$> Q.

Lemma rest_idup c ic P m b k i : rest (cview := cview) g0 sb c ic P m b → (k, i) ∈ P → ∃ ic', Icache.idup ic k = Ok ic' ∧ rest (cview := cview) g0 sb c ic' ((k, i) :: P) m b.
Proof.
  intros (v & Hr & Hh & Hb) [h Hi]%list_elem_of_lookup.
  destruct (implements_idup g0 sb v ic _ ∅ _ h k i Hh) as (ip & E & Him); [by rewrite list_lookup_fmap, Hi|cbn [handles]; by rewrite list_lookup_fmap, Hi|].
  eexists. split; [done|]. exists v. split_and!; [done|by apply holds_snoc|done].
Qed.

Lemma perm_cons_fmap {A B} (f : A → B) x l (Q : list A) : x :: l ≡ₚ f <$> Q → ∃ q Q', Q ≡ₚ q :: Q' ∧ x = f q ∧ l ≡ₚ f <$> Q'.
Proof.
  intros Hp. assert (x ∈ f <$> Q) as (q & -> & Hq)%list_elem_of_fmap by (rewrite <- Hp; apply elem_of_cons; by left). apply elem_of_Permutation in Hq as [Q' HQ].
  exists q, Q'. split_and!; [done|done|]. apply (Permutation_cons_inv (a := f q)). by rewrite Hp, HQ.
Qed.

Lemma close_only m0 l refs j tb m : only_unlinked m0 m → only_unlinked m0 (close_at l refs j tb m).2.
Proof. intros Hm. unfold close_at. case_decide; [done|]. destruct (tb !! j) as [[d|]|]; [by apply only_dropped|done..]. Qed.

Lemma file_laws m0 : @FileLaws fsys file_ops (file_holds m0).
Proof using BL HL Hid Hlsz FL.
  split.
  - intros s l c l' c' (tb & refs & Q & m & Hs & Hm & Hl & Hc) El Ec. exists tb, refs, Q, m. split_and!; [done|done|by rewrite <- El|by rewrite <- Ec].
  - intros s l c x (tb & refs & Q & m & (Eg & HT & Hr) & Hm & Hl & Hc) Hx. rewrite Hl in Hx. apply list_elem_of_fmap in Hx as (j & -> & Hj).
    destruct (filedup_spec _ _ _ _ HT Hj) as (ft' & E & HT' & Hpt). cbn [KernBase.filedup file_ops]. rewrite of_ptr_of, E, bind_Ok. eexists. split; [done|]. exists tb, (j :: refs), Q, m.
    split; [|split_and!; [done|cbn; by rewrite Hl|done]]. split_and!; [done|done|]. eapply rest_perm; [exact Hr|]. cbn [set_ft fs_ft]. by rewrite Hpt.
  - intros s l c x (tb & refs & Q & m & Hs & Hm & Hl & Hc). destruct (perm_cons_fmap _ _ _ _ Hl) as (j & refs' & Hp & -> & Hl').
    destruct (fileclose_spec g0 HL Hid Hlsz sb FL s tb refs' j Q m 0 (fsok_perm _ _ _ _ _ _ _ _ _ _ Hs Hp (reflexivity Q))) as (s' & E & Hs').
    cbn [KernBase.fileclose file_ops]. rewrite of_ptr_of, E. eexists. split; [done|]. eexists _, refs', Q, _. split; [exact Hs'|]. split_and!; [by apply close_only|done|done].
  - intros s l c x (tb & refs & Q & m & (Eg & HT & Hr) & Hm & Hl & Hc) Hx. rewrite Hc in Hx. apply list_elem_of_fmap in Hx as ([k i] & -> & Hk). cbn [compose fst].
    destruct (rest_idup _ _ _ _ _ k i Hr ltac:(apply elem_of_app; by left)) as (ic' & E & Hr'). cbn [KernBase.idup file_ops]. rewrite of_ptr_of, E, bind_Ok. eexists. split; [done|].
    exists tb, refs, ((k, i) :: Q), m. split; [by split_and!|]. split_and!; [done|done|cbn; by rewrite Hc].
  - intros s l c x (tb & refs & Q & m & (Eg & HT & Hr) & Hm & Hl & Hc). destruct (perm_cons_fmap _ _ _ _ Hc) as ([k i] & Q' & Hp & -> & Hc'). cbn [compose fst].
    destruct (iput_op_spec g0 HL Hid Hlsz sb FL s (Q' ++ tptrs (fs_ft s) tb) m 0 k i Eg ltac:(eapply rest_perm; [exact Hr|by rewrite Hp])) as (c' & ic' & E & Hr').
    cbn [iput_cwd file_ops]. rewrite of_ptr_of, E. eexists. split; [done|]. eexists tb, refs, Q', _. split; [by split_and!|]. split_and!; [by apply only_dropped|done|done].
Qed.
End comp.

(** C30. Processes on the real file system.  With the table of open files and the inode cache as the component that [fork] and [exit] call, after any
    interleaving of scheduling rounds, forks, exits of processes other than the first, waits, sleeps, wake-ups, kills and heap changes that do not shrink a process to size zero: each count in
    the table of open files is the number of descriptors of all processes that name the entry, each current directory is a counted pointer into the inode cache, the disk is consistent and at rest, and no
    file has changed or gone except files without links whose last pointer went; and every operation that can happen next, except the exit of the first process and [sbrk] to size zero, returns without a
    panic: every process that runs can fork, and every one but the first can exit. *)
Theorem processes_on_files {M M' : Type} `{MO : MemOps M} {mholds : M → gset Z → gmap Z Z → Prop} {ML : MemLaws M mholds} `{MO' : MemOps M'} g sb dr (k0 k : kern M (fsys bcache M')) p0 m0 : layout g → idle g → 28 <= lsize g → fs_layout g sb →
  booted (holds := mholds) (fholds := file_holds (cview := binv) g sb m0) k0 p0 → rtc (allowed_step (H0 := file_ops sb dr)) k0 k →
  (∃ tb refs Q m, fsok (cview := binv) g sb (fs_ k) tb refs Q m 0 ∧ only_unlinked m0 m ∧ all_files (ptab k) ≡ₚ ptr_of <$> refs ∧ all_cwds (ptab k) ≡ₚ (ptr_of ∘ fst) <$> Q) ∧
  ∀ o, kenabled k o → kallowed k o → ∃ k', kexec (H0 := file_ops sb dr) k o = Ok k'.
Proof.
  intros HL Hid Hls FL Hb Hr. pose proof (file_laws g HL Hid Hls sb FL dr (M := M') m0) as FLaws.
  assert (safe (holds := mholds) (fholds := file_holds (cview := binv) g sb m0) k) as Hs.
  { eapply (rtc_invariant (allowed_step (H0 := file_ops sb dr))); [intros a b; apply (allowed_safe (FL := FLaws))|by eapply (boot_safe (FL := FLaws))|done]. }
  split; [exact (rs_files _ (sf_res _ Hs))|]. intros o He Ha. destruct (kexec_safe (FL := FLaws) k o Hs He Ha) as (k' & ? & _). eauto.
Qed.

(** The booted kernel of SchedSpec.v on the disk of DirDemo.v: the first process has the root as its current directory. *)
Abbreviation y_kernel := (kern mledger (fsys bcache mledger)).
Definition y_boot : y_kernel :=
  Kern (ptab demo_booted) (plocked demo_booted) (cpus demo_booted) (nextpid demo_booted) (rseed demo_booted) (ticks demo_booted) (initproc demo_booted) (mm demo_booted) y_sys.

Lemma y_boot_ok : booted (holds := mledger_holds) (fholds := file_holds (cview := binv) w_log w_sb y_files) y_boot (getp demo_booted 0).
Proof.
  destruct demo_is_booted as [H1 H2 H3 H4 H5 H6 H7]. split; [exact H1|exact H2|exact H3|exact H4|exact H5| |exact H7].
  exists (as_table y_asys), [], [(0%nat, 1)], y_files. split; [exact (mo_fs _ _ _ _ _ _ (y_models 0 ltac:(lia)))|]. split_and!; [split; [done|auto]|done|done].
Qed.

(** The first process is scheduled, and forks. *)
Definition y_k1 : y_kernel := match scheduler y_boot 0 with Ok k => k | _ => y_boot end.
Definition y_k2 : y_kernel := match fork (H0 := file_ops w_sb (λ _, None)) y_k1 0 with Ok (_, k) => k | _ => y_boot end.

Lemma y_k1_ok : scheduler y_boot 0 = Ok y_k1.
Proof. vm_compute. reflexivity. Qed.
Lemma y_k2_ok : fork (H0 := file_ops w_sb (λ _, None)) y_k1 0 = Ok (2, y_k2).
Proof. vm_compute. reflexivity. Qed.

(** C30 there: two pointers to the root are counted. *)
Lemma processes_on_files_witness : ∃ tb refs Q m, fsok (cview := binv) w_log w_sb (fs_ y_k2) tb refs Q m 0 ∧ m ⊆ y_files ∧ refs = [] ∧ Q.*1 = [0%nat; 0%nat].
Proof.
  destruct (processes_on_files (ML := mledger_laws) w_log w_sb (λ _, None) y_boot y_k2 _ y_files w_log_layout y_idle ltac:(by vm_compute) w_fs_layout y_boot_ok) as [(tb & refs & Q & m & Hs & Hm & Hl & Hc) _].
  - eapply rtc_l; [exists (OScheduler 0); split; [exact I|]; split; [vm_compute; reflexivity|exact y_k1_ok]|]. apply rtc_once. exists (OFork 0). split; [exact I|].
    split; [exists 0%nat; vm_compute; reflexivity|]. cbn [kexec]. by rewrite y_k2_ok, bind_Ok.
  - exists tb, refs, Q, m. split; [exact Hs|]. split; [apply Hm|]. assert (all_files (ptab y_k2) = []) as E1 by (vm_compute; reflexivity).
    assert (all_cwds (ptab y_k2) = [1; 1]) as E2 by (vm_compute; reflexivity). rewrite E1 in Hl. rewrite E2 in Hc. split; [apply Permutation_nil_l in Hl; symmetry in Hl; exact (fmap_nil_inv _ _ Hl)|].
    clear Hs Hm Hl E1 E2. assert (∀ q, q ∈ Q → q.1 = 0%nat) as Hq.
    { intros q Hq. assert (ptr_of q.1 ∈ [1; 1]) as H1 by (rewrite Hc; apply list_elem_of_fmap; exists q; split; [reflexivity|exact Hq]). unfold ptr_of in H1. rewrite !elem_of_cons, elem_of_nil in H1. lia. }
    pose proof (Permutation_length Hc) as Hlen. rewrite length_fmap in Hlen. destruct Q as [|q1 [|q2 [|]]]; try done. cbn. by rewrite (Hq q1), (Hq q2) by (rewrite !elem_of_cons; tauto).
Defined.
