(* ===== verification/Exec.v ===== *)
(** Loading a program (src/p4/exec.c, with loaduvm of src/p4/vm.c) and its system call (sys_exec of src/p4/sysfile.c, with fetchstr and argstr of
    src/p4/syscall.c).

    The file is read through the layers of the file system, the image is built in the page tables of Vm.v.  The arguments are strings: [sys_exec] reads them from the memory
    of the process, and what [copyout] copies is given as bytes.  [switchuvm] loads registers of the processor and is left out. *)

From Stdlib Require Import ZArith Lia.
From stdpp Require Import base numbers list gmap fin_sets sets strings.
From S2P Require Import Prelude CStr Mem Mmu Kalloc Vm Mencrypt Bio Log Fs Icache IcacheThm Dir.
#[local] Open Scope Z_scope.

Definition ELF_MAGIC : Z := 1179403647.
Definition ELF_PROG_LOAD : Z := 1.
Definition MAXARG : Z := 32.

(** The field of [n] bytes at [off] of a structure. *)
Definition field (n : nat) (l : list Z) (off : nat) : Z := le (u8 <$> take n (drop off l)).

Definition ELFHDR : Z := 52.
Definition e_magic (l : list Z) : Z := field 4 l 0.
Definition e_entry (l : list Z) : Z := field 4 l 24.
Definition e_phoff (l : list Z) : Z := field 4 l 28.
Definition e_phnum (l : list Z) : Z := field 2 l 44.

Definition PROGHDR : Z := 32.
Definition ph_type (l : list Z) : Z := field 4 l 0.
Definition ph_off (l : list Z) : Z := field 4 l 4.
Definition ph_vaddr (l : list Z) : Z := field 4 l 8.
Definition ph_filesz (l : list Z) : Z := field 4 l 16.
Definition ph_memsz (l : list Z) : Z := field 4 l 20.

(** The bytes [l] stored from [a] on. *)
Fixpoint store_bytes (m : mem) (a : Z) (l : list Z) : mem :=
  match l with [] => m | b :: l' => store_bytes (setb m a b) (a + 1) l' end.

(** [copyout], with the bytes to copy. *)
Fixpoint copyout_loop (s : kst) (pgdir va : Z) (l : list Z) (fuel : nat) : outcome (Z * kst) :=
  match l with
  | [] => Ok (0, s)
  | _ =>
      match fuel with
      | O => NoFuel
      | S fuel' =>
          let va0 := PGROUNDDOWN va in
          pa0 ← uva2ka s pgdir va0;
          if pa0 =? 0 then Ok (-1, s)
          else
            let n := Z.to_nat (u32 (PGSIZE - (va - va0))) in
            copyout_loop (set_ram s (store_bytes (ram s) (pa0 + (va - va0)) (take n l))) pgdir (u32 (va0 + PGSIZE)) (drop n l) fuel'
      end
  end.
Definition copyout (s : kst) (pgdir va : Z) (l : list Z) : outcome (Z * kst) := copyout_loop s pgdir va l (length l).

(** What [exec] changes of a process. *)
Record eproc := EProc { e_pgdir : Z; e_sz : Z; e_name : list Z; e_eip : Z; e_esp : Z }.

(** The loop that finds the last element of the path. *)
Fixpoint last_elem (s last : list Z) : list Z :=
  match s with [] => last | c :: s' => if c =? SLASH then last_elem s' s' else last_elem s' last end.

Section exec.
Context {C : Type} `{BufOps C} (sb : superblock) (kend kdata : Z).
Context (dr : Z → option (C → log → inode → Z → outcome (Z * list Z * inode * C * log))).

Fixpoint loaduvm_loop (s : kst) (c : C) (g : log) (ic : icache) (pgdir addr : Z) (ip : nat) (offset sz i : Z) (fuel : nat) : outcome (Z * kst * C * log * icache) :=
  if i <? sz then
    match fuel with
    | O => NoFuel
    | S fuel' =>
        '(pte, _) ← walkpgdir s pgdir (u32 (addr + i)) false;
        if pte =? 0 then Panic "loaduvm: address should exist"
        else
          let pa := PTE_ADDR (load32 (ram s) pte) in
          let n := if u32 (sz - i) <? PGSIZE then u32 (sz - i) else PGSIZE in
          '(r, l, c, g, ic) ← readi_at sb dr c g ic ip (u32 (offset + i)) n;
          let s := set_ram s (store_bytes (ram s) (P2V pa) l) in
          if negb (r =? n) then Ok (-1, s, c, g, ic)
          else loaduvm_loop s c g ic pgdir addr ip offset sz (u32 (i + PGSIZE)) fuel'
    end
  else Ok (0, s, c, g, ic).

Definition loaduvm (s : kst) (c : C) (g : log) (ic : icache) (pgdir addr : Z) (ip : nat) (offset sz : Z) : outcome (Z * kst * C * log * icache) :=
  if negb (addr mod PGSIZE =? 0) then Panic "loaduvm: addr must be page aligned"
  else loaduvm_loop s c g ic pgdir addr ip offset sz 0 (S (Z.to_nat (sz / PGSIZE))).

(** The loop over the [n] program headers that are left, from [off] on; [None] goes to [bad]. *)
Fixpoint load_loop (s : kst) (c : C) (g : log) (ic : icache) (pgdir : Z) (ip : nat) (off sz : Z) (n : nat) : outcome (option Z * kst * C * log * icache) :=
  match n with
  | O => Ok (Some sz, s, c, g, ic)
  | S n' =>
      '(r, ph, c, g, ic) ← readi_at sb dr c g ic ip off PROGHDR;
      if negb (r =? PROGHDR) then Ok (None, s, c, g, ic)
      else if negb (ph_type ph =? ELF_PROG_LOAD) then load_loop s c g ic pgdir ip (u32 (off + PROGHDR)) sz n'
      else if ph_memsz ph <? ph_filesz ph then Ok (None, s, c, g, ic)
      else if u32 (ph_vaddr ph + ph_memsz ph) <? ph_vaddr ph then Ok (None, s, c, g, ic)
      else
        '(sz, s) ← allocuvm kend s pgdir sz (u32 (ph_vaddr ph + ph_memsz ph));
        if sz =? 0 then Ok (None, s, c, g, ic)
        else if negb (ph_vaddr ph mod PGSIZE =? 0) then Ok (None, s, c, g, ic)
        else
          '(r, s, c, g, ic) ← loaduvm s c g ic pgdir (ph_vaddr ph) ip (ph_off ph) (ph_filesz ph);
          if r <? 0 then Ok (None, s, c, g, ic)
          else load_loop s c g ic pgdir ip (u32 (off + PROGHDR)) sz n'
  end.

(** The loop over the arguments; [ptrs] are the entries of [ustack] from 3 on. *)
Fixpoint push_args (s : kst) (pgdir sp : Z) (argv : list (list Z)) (ptrs : list Z) : outcome (option (Z * list Z) * kst) :=
  match argv with
  | [] => Ok (Some (sp, ptrs), s)
  | a :: argv' =>
      if MAXARG <=? Z.of_nat (length ptrs) then Ok (None, s)
      else
        let sp := Z.land (u32 (sp - (Z.of_nat (length a) + 1))) (bnot32 3) in
        '(r, s) ← copyout s pgdir sp (a ++ [0]);
        if r <? 0 then Ok (None, s) else push_args s pgdir sp argv' (ptrs ++ [sp])
  end.

(** From the label [bad] on. *)
Definition exec_bad (s : kst) (c : C) (g : log) (ic : icache) (p : eproc) (pgdir : option Z) (ip : option nat) : outcome (Z * kst * C * log * icache * eproc) :=
  s ← (match pgdir with Some d => freevm kend s d | None => Ok s end);
  '(c, g, ic) ← (match ip with
    | Some k => '(c, g, ic) ← iunlockput sb c g ic k; '(c, g) ← end_op c g; Ok (c, g, ic)
    | None => Ok (c, g, ic) end);
  Ok (-1, s, c, g, ic, p).

(** From the user stack on; the segments are loaded up to [sz]. *)
Definition exec_stack (s : kst) (c : C) (g : log) (ic : icache) (p : eproc) (path : list Z) (argv : list (list Z)) (elf : list Z) (pgdir sz : Z) : outcome (Z * kst * C * log * icache * eproc) :=
  let sz := PGROUNDUP sz in
  '(sz, s) ← allocuvm kend s pgdir sz (u32 (sz + 2 * PGSIZE));
  if sz =? 0 then exec_bad s c g ic p (Some pgdir) None
  else
    s ← clearpteu s pgdir (u32 (sz - 2 * PGSIZE));
    '(o, s) ← push_args s pgdir sz argv [];
    match o with
    | None => exec_bad s c g ic p (Some pgdir) None
    | Some (sp, ptrs) =>
        let argc := Z.of_nat (length ptrs) in
        let ustack := [4294967295; argc; u32 (sp - (argc + 1) * 4)] ++ ptrs ++ [0] in
        let sp := u32 (sp - (3 + argc + 1) * 4) in
        '(r, s) ← copyout s pgdir sp (ustack ≫= le_bytes 4);
        if r <? 0 then exec_bad s c g ic p (Some pgdir) None
        else
          s ← freevm kend s (e_pgdir p);
          Ok (0, s, c, g, ic, EProc pgdir sz (take 15 (last_elem path path)) (e_entry elf) sp)
    end.

Definition exec (s : kst) (c : C) (g : log) (ic : icache) (cwd : nat) (p : eproc) (path : list Z) (argv : list (list Z)) : outcome (Z * kst * C * log * icache * eproc) :=
  g ← start_op g;
  '(o, c, g, ic) ← namei sb dr c g ic cwd path;
  match o with
  | None => '(c, g) ← end_op c g; Ok (-1, s, c, g, ic, p)
  | Some ip =>
      '(c, ic) ← ilock_at sb c ic ip;
      '(r, elf, c, g, ic) ← readi_at sb dr c g ic ip 0 ELFHDR;
      if negb (r =? ELFHDR) then exec_bad s c g ic p None (Some ip)
      else if negb (e_magic elf =? ELF_MAGIC) then exec_bad s c g ic p None (Some ip)
      else
        '(pgdir, s) ← setupkvm kend kdata s;
        if pgdir =? 0 then exec_bad s c g ic p None (Some ip)
        else
          '(o, s, c, g, ic) ← load_loop s c g ic pgdir ip (e_phoff elf) 0 (Z.to_nat (e_phnum elf));
          match o with
          | None => exec_bad s c g ic p (Some pgdir) (Some ip)
          | Some sz =>
              '(c, g, ic) ← iunlockput sb c g ic ip;
              '(c, g) ← end_op c g;
              exec_stack s c g ic p path argv elf pgdir sz
          end
  end.
End exec.

(** * The system call *)

(** The loop of [fetchstr]: the bytes before the NUL. *)
Fixpoint fetchstr_loop (s : kst) (pgdir va ep : Z) (fuel : nat) : outcome (option (list Z) * kst) :=
  if va <? ep then
    match fuel with
    | O => NoFuel
    | S fuel' =>
        '(a, s) ← touch s pgdir va false;
        let b := getb (ram s) a in
        if b =? 0 then Ok (Some [], s)
        else
          '(o, s) ← fetchstr_loop s pgdir (u32 (va + 1)) ep fuel';
          Ok (option_map (cons b) o, s)
    end
  else Ok (None, s).

(** [None] is -1; [Some l] is the length of [l], with [*pp] pointing to it. *)
Definition fetchstr (s : kst) (p : uproc) (addr : Z) : outcome (option (list Z) * kst) :=
  if psz p <=? addr then Ok (None, s) else fetchstr_loop s (pgdir p) addr (psz p) (Z.to_nat (psz p - addr)).

Definition argstr (s : kst) (p : uproc) (n : Z) : outcome (option (list Z) * kst) :=
  '(r, s) ← argint s p n;
  match r with None => Ok (None, s) | Some addr => fetchstr s p (u32 addr) end.

(** The loop of [sys_exec] from argument [i] on. *)
Fixpoint fetch_args (s : kst) (p : uproc) (uargv i : Z) (fuel : nat) : outcome (option (list (list Z)) * kst) :=
  match fuel with
  | O => Ok (None, s)
  | S fuel' =>
      '(r, s) ← fetchint s p (u32 (uargv + 4 * i));
      match r with
      | None => Ok (None, s)
      | Some uarg =>
          if uarg =? 0 then Ok (Some [], s)
          else
            '(o, s) ← fetchstr s p (u32 uarg);
            match o with
            | None => Ok (None, s)
            | Some l => '(o, s) ← fetch_args s p uargv (i + 1) fuel'; Ok (option_map (cons l) o, s)
            end
      end
  end.

Section sys_exec.
Context {C : Type} `{BufOps C} (sb : superblock) (kend kdata : Z).
Context (dr : Z → option (C → log → inode → Z → outcome (Z * list Z * inode * C * log))).

(** The process is [p] for its arguments and [e] for [exec]. *)
Definition sys_exec (s : kst) (c : C) (g : log) (ic : icache) (cwd : nat) (p : uproc) (e : eproc) : outcome (Z * kst * C * log * icache * eproc) :=
  '(path, s) ← argstr s p 0;
  match path with
  | None => Ok (-1, s, c, g, ic, e)
  | Some path =>
      '(r, s) ← argint s p 1;
      match r with
      | None => Ok (-1, s, c, g, ic, e)
      | Some uargv =>
          '(argv, s) ← fetch_args s p (u32 uargv) 0 (Z.to_nat MAXARG);
          match argv with
          | None => Ok (-1, s, c, g, ic, e)
          | Some argv => exec sb kend kdata dr s c g ic cwd e path argv
          end
      end
  end.
End sys_exec.
