(* ===== verification/ExecMem.v ===== *)
(** The memory of a program that is being loaded: its image as a function from user addresses to bytes, and what the operations that [exec] calls do to
    it. *)

From Stdlib Require Import ZArith Lia.
From stdpp Require Import base numbers list gmap fin_sets sets strings.
From S2P Require Import Prelude CStr Mem Mmu Kalloc Vm VmSpec VmUser Mencrypt MemIface Exec.
#[local] Open Scope Z_scope.

Lemma getb_store_bytes l : ∀ m a b, getb (store_bytes m a l) b = if decide (a <= b < a + Z.of_nat (length l)) then u8 (default 0 (l !! Z.to_nat (b - a))) else getb m b.
Proof.
  induction l as [|x l IH]; intros m a b; [cbn [store_bytes length]; by rewrite decide_False by lia|]. cbn [store_bytes]. rewrite IH. cbn [length].
  destruct (decide (a = b)) as [->|Hne].
  - rewrite decide_False, decide_True by lia. rewrite Z.sub_diag. by rewrite getb_setb_eq.
  - rewrite getb_setb_ne by done. destruct (decide (a + 1 <= b < a + 1 + Z.of_nat (length l))) as [H|H].
    + rewrite decide_True by lia. replace (Z.to_nat (b - a)) with (S (Z.to_nat (b - (a + 1)))) by lia. done.
    + by rewrite decide_False by lia.
Qed.

Lemma page_start va : va / 4096 * 4096 <= va < va / 4096 * 4096 + 4096.
Proof. pose proof (Z.div_mod va 4096). pose proof (Z.mod_pos_bound va 4096). lia. Qed.

(** ** Images *)

Definition image : Type := Z → Z.

(** [img] with the bytes [l] from [va] on. *)
Definition write_img (img : image) (va : Z) (l : list Z) : image :=
  λ x, if decide (va <= x < va + Z.of_nat (length l)) then u8 (default 0 (l !! Z.to_nat (x - va))) else img x.

Lemma write_img_nil img va x : write_img img va [] x = img x.
Proof. unfold write_img. cbn [length]. by rewrite decide_False by lia. Qed.

Lemma write_img_app img va l l' x : write_img (write_img img va l) (va + Z.of_nat (length l)) l' x = write_img img va (l ++ l') x.
Proof.
  unfold write_img. rewrite length_app. destruct (decide (va + Z.of_nat (length l) <= x < va + Z.of_nat (length l) + Z.of_nat (length l'))) as [H|H].
  - rewrite decide_True by lia. rewrite lookup_app_r by lia. do 3 f_equal. lia.
  - destruct (decide (va <= x < va + Z.of_nat (length l))) as [H1|H1]; [|by rewrite decide_False by lia]. rewrite decide_True by lia. rewrite lookup_app_l by lia. done.
Qed.

(** The space [d] of size [sz] has the image [img]; all its pages can be used by the process, except one at [guard]. *)
Record img_ok (s : kst) (d sz guard : Z) (img : image) : Prop := {
  io_user : ∀ va, user_va va → va / 4096 * 4096 < sz → user_ok (pte_at (ram s) d va) = negb (va / 4096 * 4096 =? guard);
  io_byte : ∀ va, user_va va → va / 4096 * 4096 < sz → user_byte (ram s) d va = img va;
  io_zero : ∀ va, user_va va → sz <= va / 4096 * 4096 → img va = 0 }.

Lemma img_ext s d sz guard img img' : img_ok s d sz guard img → (∀ va, img' va = img va) → img_ok s d sz guard img'.
Proof. intros [H1 H2 H3] He. split; [done|intros va ? ?; rewrite He; by apply H2|intros va ? ?; rewrite He; by apply H3]. Qed.

(** Nothing changes in the spaces of [D] other than [d]. *)
Definition same_space (s s' : kst) (d sz : Z) : Prop :=
  ∀ va, user_va va → va / 4096 * 4096 < sz → user_byte (ram s') d va = user_byte (ram s) d va ∧ pte_at (ram s') d va = pte_at (ram s) d va.
Definition same_others (s s' : kst) (D : gmap Z Z) (d : Z) : Prop := ∀ d0 sz0, D !! d0 = Some sz0 → d0 ≠ d → same_space s s' d0 sz0.

Lemma same_others_refl s D d : same_others s s D d.
Proof. by intros d0 sz0 _ _ va _ _. Qed.

Lemma same_others_trans s1 s2 s3 D d : same_others s1 s2 D d → same_others s2 s3 D d → same_others s1 s3 D d.
Proof. intros H1 H2 d0 sz0 Hd0 Hne va Hu Hl. destruct (H1 d0 sz0 Hd0 Hne va Hu Hl) as [<- <-]. by apply (H2 d0 sz0). Qed.

Lemma same_img s s' d sz guard img : img_ok s d sz guard img → same_space s s' d sz → img_ok s' d sz guard img.
Proof.
  intros [H1 H2 H3] Hs. split; [|  |done]; intros va Hu Hl; destruct (Hs va Hu Hl) as [E1 E2]; [rewrite E2; by apply H1|rewrite E1; by apply H2].
Qed.

Lemma same_others_insert s s' D d sz : same_others s s' (<[d := sz]> D) d ↔ same_others s s' D d.
Proof.
  split; intros Hs d0 sz0 Hd0 Hne; apply (Hs d0 sz0); try done; [by rewrite lookup_insert_ne|by rewrite lookup_insert_ne in Hd0 by done].
Qed.

Section mem.
Context (kend kdata : Z) (Hkend : KERNLINK <= kend) (Hkdata : kdata_ok kdata).
Abbreviation kst_owns := (kst_owns kend).

(** A user page that does not change. *)
Lemma same_byte R X s own s' own' d va : evolves kend R X s own s' own' → space_inv kend s own → own !! d = Some Dir → ¬ X d → user_va va → mapped (pte_at (ram s) d va) = true → ¬ R d (va / 4096) →
  (∀ p, own !! p = Some (User d (va / 4096)) → ¬ X p) → user_byte (ram s') d va = user_byte (ram s) d va ∧ pte_at (ram s') d va = pte_at (ram s) d va.
Proof using Hkend.
  intros Hev Hinv Hd HX Hu Hm HR Hp. pose proof (ev_pte _ _ _ _ _ _ _ Hev d va Hd HX (user_va_u32 va Hu) HR) as E. split; [|done].
  pose proof (frame_owned kend Hkend s own d va Hinv Hd Hu Hm) as Hf.
  destruct (ev_data _ _ _ _ _ _ _ Hev _ _ Hf (Hp _ Hf)) as [_ Hag]; [right; eauto|]. unfold user_byte, user_addr, frame_of. rewrite E. apply Hag. by apply user_addr_in.
Qed.

Lemma evolves_same R s own s' own' D d : evolves kend R (λ _, False) s own s' own' → space_inv kend s own → (∀ d0 sz0, D !! d0 = Some sz0 → own !! d0 = Some Dir ∧ sized s d0 sz0) →
  (∀ d0 n, d0 ≠ d → ¬ R d0 n) → same_others s s' D d.
Proof using Hkend.
  intros Hev Hinv HD HR d0 sz0 Hd0 Hne va Hu Hl. destruct (HD d0 sz0 Hd0) as [Ho [_ Hm]]. apply (same_byte _ _ _ _ _ _ _ _ Hev); try done; [tauto|by apply Hm|by apply HR|tauto].
Qed.

(** Bytes are stored in one page. *)
Lemma store_page s own K D d sz guard img va l : kst_owns s own K D → D !! d = Some sz → img_ok s d sz guard img → user_va va → va / 4096 * 4096 < sz → va mod 4096 + Z.of_nat (length l) <= 4096 →
  let s' := set_ram s (store_bytes (ram s) (user_addr (ram s) d va) l) in
  kst_owns s' own K D ∧ img_ok s' d sz guard (write_img img va l) ∧ same_others s s' D d.
Proof using Hkend.
  intros (Hinv & HK & HD) Hd [I1 I2 I3] Hu Hlt Hl s'. destruct (HD d sz Hd) as [Ho [Hsz Hm]]. pose proof (Z.mod_pos_bound va 4096 ltac:(lia)) as Hmod.
  assert (mapped (pte_at (ram s) d va) = true) as Hmp by (by apply Hm).
  destruct (write_frame kend Hkend s own d va (ram s') Hinv Ho Hu Hmp) as [Hinv' Hpte].
  { intros b Hb. unfold s'; cbn [ram set_ram]. rewrite getb_store_bytes. apply decide_False. unfold in_page, user_addr in *. lia. }
  change (set_ram s (ram s')) with s' in Hinv'. split_and!.
  - split_and!; [done|done|]. intros d' sz' Hd'. destruct (HD d' sz' Hd') as [Ho' [Hsz' Hm']]. split; [done|]. split; [done|]. intros va' Hu'.
    rewrite (proj1 (Hpte d' va' Ho' (user_va_u32 va' Hu'))). by apply Hm'.
  - split.
    + intros va' Hu' Hlt'. rewrite (proj1 (Hpte d va' Ho (user_va_u32 va' Hu'))). by apply I1.
    + intros va' Hu' Hlt'. unfold user_byte, user_addr, frame_of. rewrite (proj1 (Hpte d va' Ho (user_va_u32 va' Hu'))). fold (frame_of (ram s) d va'). fold (user_addr (ram s) d va').
      unfold s'; cbn [ram set_ram]. rewrite getb_store_bytes. unfold write_img. destruct (decide (va <= va' < va + Z.of_nat (length l))) as [Hin|Hout].
      * assert (va' / 4096 = va / 4096) as E by (symmetry; apply (Z.div_unique_pos _ _ _ (va' - va + va mod 4096)); pose proof (Z.div_mod va 4096); lia).
        destruct (user_addr_page (ram s) d va (va' - va) Hu) as [Ea _]; [by replace (va + (va' - va)) with va' by lia|by replace (va + (va' - va)) with va' by lia|].
        replace (va + (va' - va)) with va' in Ea by lia. rewrite Ea, decide_True by lia. do 3 f_equal. lia.
      * rewrite decide_False; [by apply I2|]. intros Hr. assert (∃ j, j = user_addr (ram s) d va' - user_addr (ram s) d va) as [j Hj] by eauto.
        assert (user_va (va + j) ∧ (va + j) / 4096 = va / 4096) as [Huj Ej].
        { pose proof (Z.div_mod va 4096). assert ((va + j) / 4096 = va / 4096) as E by (symmetry; apply (Z.div_unique_pos _ _ _ (va mod 4096 + j)); lia). split; [|done].
          unfold user_va, KERNBASE in *. pose proof (Z.div_mod (va + j) 4096). lia. }
        destruct (user_addr_page (ram s) d va j Hu Huj Ej) as [Ea _]. apply Hout.
        assert (va + j = va') as <-; [|lia]. apply (user_addr_inj kend Hkend s own d); try done; [apply Hm; [done|by rewrite Ej]|by apply Hm|lia].
    + intros va' Hu' Hge. unfold write_img. rewrite decide_False; [by apply I3|]. intros Hin.
      assert (va' / 4096 = va / 4096) as E by (symmetry; apply (Z.div_unique_pos _ _ _ (va' - va + va mod 4096)); pose proof (Z.div_mod va 4096); lia). lia.
  - intros d0 sz0 Hd0 Hne va0 Hu0 Hlt0. destruct (HD d0 sz0 Hd0) as [Ho0 [_ Hm0]]. pose proof (proj1 (Hpte d0 va0 Ho0 (user_va_u32 va0 Hu0))) as Ep. split; [|done].
    unfold user_byte, user_addr, frame_of. rewrite Ep. fold (frame_of (ram s) d0 va0). unfold s'; cbn [ram set_ram]. rewrite getb_store_bytes. apply decide_False. intros Hr.
    pose proof (frame_owned kend Hkend s own d0 va0 Hinv Ho0 Hu0 ltac:(by apply Hm0)) as Hf0. pose proof (frame_owned kend Hkend s own d va Hinv Ho Hu Hmp) as Hf.
    apply (pages_disjoint (frame_of (ram s) d0 va0) (frame_of (ram s) d va) (frame_of (ram s) d0 va0 + va0 mod 4096)).
    + apply (si_valid kend s own Hinv _ _ Hf0).
    + apply (si_valid kend s own Hinv _ _ Hf).
    + intros E. rewrite E, Hf in Hf0. congruence.
    + by apply user_addr_in.
    + unfold in_page, user_addr in *. lia.
Qed.

Lemma user_ok_fresh p : valid_page kend p → user_ok (map_entry (V2P p) (Z.lor PTE_W PTE_U)) = true.
Proof using Hkend.
  intros Hv. destruct (map_entry_spec kend Hkend p (Z.lor PTE_W PTE_U) Hv ltac:(done)) as (Hu & Hm & _ & Hf). rewrite user_ok_alt, Hm, <- (flag_FLAGS _ PTE_U Hu), Hf; done.
Qed.


(** The pages between the sizes are fresh. *)
Lemma alloc_grown s own s' own' d sz newsz r img : space_inv kend s own → own !! d = Some Dir → sized s d sz → evolves kend (range d (PGROUNDUP sz) newsz) (λ _, False) s own s' own' → img_ok s d sz (-1) img →
  sz <= newsz → r = Z.max sz newsz → (r = newsz ∧ (∀ va, is_u32 va → PGROUNDUP sz <= va / 4096 * 4096 < newsz → fresh_page s' own' d va)) ∨ (r = 0 ∧ newsz = 0) → img_ok s' d r (-1) img.
Proof using Hkend.
  intros Hinv Ho [Hr Hm] Hev Him Hle Er Hf.
  assert (∀ va, user_va va → sz <= va / 4096 * 4096 → PGROUNDUP sz <= va / 4096 * 4096) as Hup.
  { intros va Hu Hx. destruct (Z_lt_le_dec (va / 4096 * 4096) (PGROUNDUP sz)) as [Hy|]; [|done]. apply (page_below_roundup va sz Hu Hr) in Hy. lia. }
  assert (∀ va, user_va va → va / 4096 * 4096 < sz → user_byte (ram s') d va = user_byte (ram s) d va ∧ pte_at (ram s') d va = pte_at (ram s) d va) as Hold.
  { intros va Hu Hl. apply (same_byte _ _ _ _ _ _ _ _ Hev); [done|done|tauto|done|by apply Hm| |tauto]. intros [_ Hrg]. apply (page_below_roundup va sz Hu Hr) in Hl. lia. }
  destruct Hf as [[-> Hf]|[-> ->]].
  2:{ split; [intros va Hu Hl; exfalso; unfold user_va in Hu; pose proof (Z.div_pos va 4096); lia..|]. intros va Hu Hl. apply Him; [done|lia]. }
  split.
  - intros va Hu Hl. destruct (Z_lt_le_dec (va / 4096 * 4096) sz) as [Hx|Hx]; [rewrite (proj2 (Hold va Hu Hx)); by apply Him|].
    destruct (Hf va (user_va_u32 va Hu) ltac:(specialize (Hup va Hu Hx); lia)) as (p & Hp & -> & _). rewrite user_ok_fresh by (by eapply (si_valid kend s' own'); [eapply ev_inv|]).
    symmetry. apply negb_true_iff, Z.eqb_neq. unfold user_va in Hu. pose proof (Z.div_pos va 4096). lia.
  - intros va Hu Hl. destruct (Z_lt_le_dec (va / 4096 * 4096) sz) as [Hx|Hx]; [rewrite (proj1 (Hold va Hu Hx)); by apply Him|].
    rewrite (io_zero _ _ _ _ _ Him va Hu Hx). destruct (Hf va (user_va_u32 va Hu) ltac:(specialize (Hup va Hu Hx); lia)) as (p & Hp & He & Hz).
    unfold user_byte. apply Hz. assert (frame_of (ram s') d va = p) as <-; [|by apply user_addr_in].
    unfold frame_of. rewrite He. apply (map_entry_spec kend Hkend p (Z.lor PTE_W PTE_U)); [|done]. by eapply (si_valid kend s' own'); [eapply ev_inv|].
  - intros va Hu Hl. apply Him; [done|lia].
Qed.

(** [allocuvm] adds zeros. *)
Lemma alloc_img s own K D d sz img newsz : kst_owns s own K D → D !! d = Some sz → img_ok s d sz (-1) img → 0 <= newsz →
  ∃ r s' own', allocuvm kend s d sz newsz = Ok (r, s') ∧ same_others s s' D d ∧ (∀ q, took d newsz own own' q) ∧
    ((r = 0 ∧ kst_owns s' own' K D ∧ (newsz < KERNBASE → starved kend d newsz own)) ∨
     (r = Z.max sz newsz ∧ r <= KERNBASE ∧ newsz < KERNBASE ∧ kst_owns s' own' K (<[d := r]> D) ∧ img_ok s' d r (-1) img)).
Proof using Hkend.
  intros Hh Hd Him Hnew. destruct (owns_allocuvm kend Hkend s own K D d sz newsz Hh Hd Hnew) as (r & s' & own' & E & Hev & Ht & Hc). exists r, s', own'.
  pose proof Hh as (Hinv & HK & HD). destruct (HD d sz Hd) as [Ho Hs]. pose proof Hs as [Hr Hm].
  split_and!; [done|apply (evolves_same _ _ _ _ _ _ _ Hev); [done|done|]; intros d0 n Hne [? _]; done|done|].
  destruct Hc as [?|(Er & Hk & Hh' & Hf)]; [by left|]. right. split_and!; [done|lia|done|done|].
  destruct (Z_lt_le_dec newsz sz) as [Hlt|Hge]; [|apply (alloc_grown s own s' own' d sz newsz r); try done; left; split; [lia|done]].
  assert (r = sz) as -> by lia. unfold allocuvm in E. destruct (Z.leb_spec KERNBASE newsz); [lia|]. destruct (Z.ltb_spec newsz sz); [|lia]. by injection E as <-.
Qed.

(** A new space is empty. *)
Lemma setup_img s own K D : kst_owns s own K D →
  ∃ r s' own', setupkvm kend kdata s = Ok (r, s') ∧ (∀ d, same_others s s' D d) ∧
    ((r = 0 ∧ own' = own ∧ kst_owns s' own K D ∧ short kend 0 own) ∨
     (r ≠ 0 ∧ own !! r = Some Free ∧ D !! r = None ∧ kst_owns s' own' K (<[r := 0]> D) ∧ img_ok s' r 0 (-1) (λ _, 0) ∧ ∀ q, took r 0 (<[r := Dir]> own) own' q)).
Proof using Hkend Hkdata.
  intros (Hinv & HK & HD). destruct (setupkvm_spec kend kdata Hkend s own Hinv Hkdata) as (r & s' & own' & E & Hev & Hc). exists r, s', own'. split; [done|].
  split; [intros d; apply (evolves_same _ _ _ _ _ _ _ Hev); [done|done|tauto]|].
  destruct (ledger_evolves kend _ _ s own s' own' K D Hev) as [HK' HD']; [intros p Hp; split; [by apply HK|tauto]|intros d sz Hd; destruct (HD d sz Hd); split_and!; try done; tauto|].
  pose proof (ev_inv _ _ _ _ _ _ _ Hev) as Hinv'. destruct Hc as [(-> & -> & Hsh)|(Hr & Hf & Hd & Hz & _ & Ht)]; [by left; split_and!|]. right. split_and!; [done|done| | | |by apply Ht].
  - destruct (D !! r) as [x|] eqn:Ex; [|done]. destruct (HD r x Ex). congruence.
  - split_and!; [done|done|]. intros d sz [[<- <-]|[_ Hd']]%lookup_insert_Some; [|by apply HD']. split; [done|]. split; [unfold KERNBASE; lia|]. intros va Hu. rewrite Hz by done.
    pose proof (page_start va). unfold user_va in Hu. split; [done|]. intros Hl. exfalso. assert (va / 4096 < 0) by lia. pose proof (Z.div_pos va 4096). lia.
  - split; [|  |done]; intros va Hu Hl; exfalso; unfold user_va in Hu; pose proof (Z.div_pos va 4096); lia.
Qed.

(** [clearpteu] takes a page away from the user. *)
Definition clear_u (e : Z) : Z := Z.land e (bnot32 PTE_U).

Lemma clear_u_bit e i : is_u32 e → 0 <= i → Z.testbit (clear_u e) i = Z.testbit e i && negb (i =? 2).
Proof.
  intros He Hi. unfold clear_u. change PTE_U with (2 ^ 2). rewrite Z.land_spec, bnot32_bit by lia. destruct (Z.ltb_spec i 32); [done|]. by rewrite (u32_bits_high e i He) by lia.
Qed.

Lemma clear_u_spec e : is_u32 e → mapped e = true → is_u32 (clear_u e) ∧ mapped (clear_u e) = true ∧ PTE_ADDR (clear_u e) = PTE_ADDR e ∧ flag (clear_u e) PTE_U = false.
Proof.
  intros He Hm. assert (is_u32 (clear_u e)) as Hu.
  { apply u32_of_bits. intros i Hi. rewrite clear_u_bit, (u32_bits_high e i He) by (done || lia). done. }
  split_and!; [done| | |].
  - unfold mapped in *. rewrite flag_lor in *. change PTE_P with (2 ^ 0) in *. change PTE_E with (2 ^ 10) in *. rewrite !flag_testbit in * by lia. rewrite !clear_u_bit by (done || lia). by rewrite !andb_true_r.
  - apply PTE_ADDR_bits; [done|done|]. intros i Hi. rewrite clear_u_bit by (done || lia). replace (i =? 2) with false by lia. by rewrite andb_true_r.
  - change PTE_U with (2 ^ 2). rewrite flag_testbit, clear_u_bit by (done || lia). by rewrite andb_false_r.
Qed.

Lemma clear_img s own K D d sz img g : kst_owns s own K D → D !! d = Some sz → img_ok s d sz (-1) img → 0 <= g < sz → g mod 4096 = 0 → ∃ s', clearpteu s d g = Ok s' ∧ kst_owns s' own K D ∧ img_ok s' d sz g img ∧ same_others s s' D d.
Proof using Hkend.
  intros (Hinv & HK & HD) Hd [I1 I2 I3] Hg Hal. destruct (HD d sz Hd) as [Ho [Hsz Hm]]. assert (user_va g) as Hu by (unfold user_va, KERNBASE in *; lia).
  pose proof (page_aligned_div g Hal) as Eg. assert (mapped (pte_at (ram s) d g) = true) as Hmp by (apply Hm; [done|lia]). pose proof (pte_u32 (ram s) d g) as He.
  destruct (clear_u_spec _ He Hmp) as (C1 & C2 & C3 & C4). destruct (set_entry kend Hkend s own d g _ Hinv Ho Hu Hmp C1 C2 C3) as (Hev & Ep & _ & Hb).
  set (s' := set_ram s (store32 (ram s) (pte_addr (ram s) d g) (clear_u (pte_at (ram s) d g)))) in *. exists s'. split.
  { unfold clearpteu. rewrite walk_noalloc, bind_Ok, (pte_addr_nonzero kend Hkend s own) by (done || by apply user_va_u32). do 3 f_equal. unfold clear_u. do 2 f_equal.
    destruct (pte_cases kend Hkend s own d g Hinv Ho (user_va_u32 g Hu)) as [(_ & H0 & _)|(t & _ & _ & _ & -> & -> & _)]; [by rewrite H0 in Hmp|done]. }
  assert (∀ va, user_va va → va / 4096 * 4096 ≠ g → va / 4096 ≠ g / 4096) as Hne by (intros va _ Hx E; apply Hx; by rewrite E).
  assert (∀ va, user_va va → va / 4096 * 4096 = g → pte_at (ram s') d va = clear_u (pte_at (ram s) d va) ∧ pte_at (ram s) d va = pte_at (ram s) d g) as Hsame.
  { intros va Hva E. assert (va / 4096 = g / 4096) as En by lia. rewrite !(pte_at_page _ d va g) by (done || by apply user_va_u32). done. }
  split_and!.
  - split; [by eapply ev_inv|]. split; [done|]. intros d' sz' Hd'. destruct (HD d' sz' Hd') as [Ho' [Hsz' Hm']]. split; [done|]. split; [done|]. intros va Hva.
    destruct (decide (d' = d ∧ va / 4096 * 4096 = g)) as [[-> E]|Hn].
    + destruct (Hsame va Hva E) as [-> E2]. rewrite E2, C2. assert (sz' = sz) as -> by congruence. split; [lia|done].
    + rewrite (ev_pte _ _ _ _ _ _ _ Hev d' va Ho' ltac:(tauto) (user_va_u32 va Hva)); [by apply Hm'|]. intros [-> E]. apply Hn. split; [done|]. by rewrite E.
  - split; [| |done]; intros va Hva Hl; destruct (decide (va / 4096 * 4096 = g)) as [E|Hn].
    + destruct (Hsame va Hva E) as [-> E2]. rewrite E2, user_ok_alt, C4, andb_false_r, E, Z.eqb_refl. done.
    + destruct (same_byte _ _ _ _ _ _ d va Hev Hinv Ho) as [_ ->]; [tauto|done|by apply Hm|intros [_ Ex]; by apply (Hne va Hva Hn)|tauto|]. rewrite (I1 va Hva Hl), (proj2 (Z.eqb_neq _ _) Hn). apply negb_true_iff, Z.eqb_neq. unfold user_va in Hva. pose proof (Z.div_pos va 4096). lia.
    + destruct (Hsame va Hva E) as [E1 E2]. rewrite <- (I2 va Hva Hl). unfold user_byte, user_addr, frame_of. rewrite E1, E2, C3. fold (frame_of (ram s) d g). apply Hb. unfold in_page. pose proof (Z.mod_pos_bound va 4096). lia.
    + destruct (same_byte _ _ _ _ _ _ d va Hev Hinv Ho) as [-> _]; [tauto|done|by apply Hm|intros [_ Ex]; by apply (Hne va Hva Hn)|tauto|]. by apply I2.
  - apply (evolves_same _ _ _ _ _ _ _ Hev); [done|done|]. intros d0 n Hx [? _]. done.
Qed.


(** [copyout] to the stack page, or to the page below it, which is the guard. *)
Lemma copyout_stack s own K D d sz img va l : kst_owns s own K D → D !! d = Some sz → sz mod 4096 = 0 → 8192 <= sz → img_ok s d sz (sz - 8192) img → sz - 8192 <= va → va + Z.of_nat (length l) <= sz → l ≠ [] →
  if decide (sz - 4096 <= va) then ∃ s', copyout s d va l = Ok (0, s') ∧ kst_owns s' own K D ∧ img_ok s' d sz (sz - 8192) (write_img img va l) ∧ same_others s s' D d else copyout s d va l = Ok (-1, s).
Proof using Hkend.
  intros Hh Hd Hal Hge Him Hva Hend Hl. pose proof Hh as (Hinv & HK & HD). destruct (HD d sz Hd) as [Ho [Hsz Hm]]. assert (1 <= Z.of_nat (length l)) as Hlen by (destruct l; [done|cbn [length]; lia]).
  assert (user_va va) as Hu by (unfold user_va, KERNBASE in *; lia). pose proof (page_start va) as Hps. apply Z_div_exact_full_2 in Hal; [|lia].
  set (va0 := va / 4096 * 4096) in *. assert (PGROUNDDOWN va = va0) as Er by (rewrite PGROUNDDOWN_mod by (by apply user_va_u32); unfold va0; pose proof (Z.div_mod va 4096); lia).
  assert (user_va va0) as Hu0 by (unfold va0, user_va, KERNBASE in *; pose proof (Z.div_pos va 4096); lia). assert (va0 / 4096 = va / 4096) as E0 by (unfold va0; by rewrite Z.div_mul).
  assert (va0 / 4096 * 4096 = va0) as E1 by (by rewrite E0). assert (va0 < sz) as Hlt by lia.
  unfold copyout. destruct (length l) as [|n] eqn:En; [lia|]. rewrite <- En in *. destruct l as [|b l']; [done|]. set (l := b :: l') in *.
  assert (copyout_loop s d va l (S n) = (pa0 ← uva2ka s d va0; if pa0 =? 0 then Ok (-1, s) else let k := Z.to_nat (u32 (PGSIZE - (va - va0))) in
    copyout_loop (set_ram s (store_bytes (ram s) (pa0 + (va - va0)) (take k l))) d (u32 (va0 + PGSIZE)) (drop k l) n)) as Eq by (cbn [copyout_loop l]; by rewrite Er).
  rewrite En, Eq. rewrite (uva2ka_spec kend Hkend s own d va0 Hinv Ho (user_va_u32 va0 Hu0)). rewrite (pte_addr_nonzero kend Hkend s own d va0 Hinv Ho (user_va_u32 va0 Hu0)) by (apply Hm; [done|lia]).
  rewrite (io_user _ _ _ _ _ Him va0 Hu0 ltac:(lia)), E1. case_decide as Hst.
  - rewrite (proj2 (Z.eqb_neq va0 (sz - 8192))) by lia. cbn [negb]. rewrite bind_Ok. pose proof (frame_owned kend Hkend s own d va0 Hinv Ho Hu0 ltac:(apply Hm; [done|lia])) as Hf.
    pose proof (valid_page_bounds kend Hkend _ (si_valid kend s own Hinv _ _ Hf)) as Hb. rewrite (proj2 (Z.eqb_neq _ _)) by (unfold KERNBASE, EXTMEM in Hb; lia). cbn zeta.
    assert (va0 = sz - 4096) as Ev by lia. rewrite u32_small by (unfold is_u32, PGSIZE; lia). rewrite take_ge, drop_ge by (unfold PGSIZE; lia).
    assert (frame_of (ram s) d va0 + (va - va0) = user_addr (ram s) d va) as ->.
    { unfold user_addr, frame_of. rewrite (pte_at_page _ d va0 va) by (done || by apply user_va_u32). unfold va0. pose proof (Z.div_mod va 4096). lia. }
    destruct (store_page s own K D d sz (sz - 8192) img va l Hh Hd Him Hu ltac:(lia)) as (Hh' & Him' & Hso); [pose proof (Z.div_mod va 4096); lia|]. eexists. split; [by destruct n|]. done.
  - assert (va0 = sz - 8192) as -> by lia. rewrite Z.eqb_refl. cbn [negb]. by rewrite bind_Ok.
Qed.

(** [freevm] of another space. *)
Lemma free_img s own K D d sz : kst_owns s own K D → D !! d = Some sz →
  ∃ s' own', freevm kend s d = Ok s' ∧ kst_owns s' own' K (delete d D) ∧ same_others s s' D d ∧ ∀ q, own' !! q = release_role d q <$> own !! q.
Proof using Hkend.
  intros Hh Hd. destruct (owns_freevm kend Hkend s own K D d sz Hh Hd) as (s' & own' & E & Hev & Hr & Hh'). exists s', own'. split_and!; [done|done| |done].
  destruct Hh as (Hinv & HK & HD). destruct (HD d sz Hd) as [Ho _]. intros d0 sz0 Hd0 Hne va Hu Hl. destruct (HD d0 sz0 Hd0) as [Ho0 [_ Hm0]].
  apply (same_byte _ _ _ _ _ _ _ _ Hev); try done; [by apply Hm0|]. intros p Hp ->. congruence.
Qed.

(** A size can be rounded up. *)
Lemma round_img s own K D d sz img : kst_owns s own K D → D !! d = Some sz → img_ok s d sz (-1) img → kst_owns s own K (<[d := PGROUNDUP sz]> D) ∧ img_ok s d (PGROUNDUP sz) (-1) img.
Proof.
  intros (Hinv & HK & HD) Hd [I1 I2 I3]. destruct (HD d sz Hd) as [Ho [Hsz Hm]]. pose proof (PGROUNDUP_user sz Hsz) as (P1 & P2 & P3). split.
  - split_and!; [done|done|]. intros d' x [[<- <-]|[_ Hd']]%lookup_insert_Some; [|by apply HD]. split; [done|]. split; [lia|]. intros va Hu. rewrite (Hm va Hu). by apply page_below_roundup.
  - split; intros va Hu Hl; [apply I1; [done|by apply page_below_roundup]|apply I2; [done|by apply page_below_roundup]|apply I3; [done|lia]].
Qed.
End mem.
