(* ===== verification/ExecSpec.v ===== *)
(** [exec] (src/p4/exec.c): the image it builds, and that it builds it or leaves everything as it was. *)

From Stdlib Require Import ZArith Lia.
From stdpp Require Import base numbers list gmap fin_sets sets strings.
From S2P Require Import Prelude CStr Mem Mmu Kalloc Vm VmSpec VmUser Mencrypt MemIface Bio Log LogCrash Fs FsSpec FsTrunc File FileThm FsCk Icache IcacheSpec IcacheOps IcacheThm Dir DirSpec DirOps Tree Txn SysfileSpec Exec ExecMem.
#[local] Open Scope Z_scope.

(** * The specification *)

(** The [n] bytes at [off] of a file, if it has them. *)
Definition full_read (data : list Z) (off n : Z) : option (list Z) :=
  if off + n <=? Z.of_nat (length data) then Some (take (Z.to_nat n) (drop (Z.to_nat off) data)) else None.

(** The bytes of a segment. *)
Definition seg_bytes (data : list Z) (off n : Z) : option (list Z) := if n =? 0 then Some [] else full_read data off n.

(** The size and the image after [n] program headers from [off] on. *)
Fixpoint load_spec (data : list Z) (off sz : Z) (img : image) (n : nat) : option (Z * image) :=
  match n with
  | O => Some (sz, img)
  | S n' =>
      ph ← full_read data off PROGHDR;
      if negb (ph_type ph =? ELF_PROG_LOAD) then load_spec data (u32 (off + PROGHDR)) sz img n'
      else
        let top := ph_vaddr ph + ph_memsz ph in
        if (ph_memsz ph <? ph_filesz ph) || (KERNBASE <=? top) || (Z.max sz top =? 0) || negb (ph_vaddr ph mod PGSIZE =? 0) then None
        else
          x ← seg_bytes data (ph_off ph) (ph_filesz ph);
          load_spec data (u32 (off + PROGHDR)) (Z.max sz top) (write_img img (ph_vaddr ph) x) n'
  end.

(** The arguments on the stack that ends at [top]. *)
Fixpoint push_spec (top : Z) (img : image) (sp : Z) (argv : list (list Z)) (ptrs : list Z) : option (Z * list Z * image) :=
  match argv with
  | [] => Some (sp, ptrs, img)
  | a :: argv' =>
      let sp := (sp - (Z.of_nat (length a) + 1)) / 4 * 4 in
      if (MAXARG <=? Z.of_nat (length ptrs)) || (sp <? top - PGSIZE) then None
      else push_spec top (write_img img sp (a ++ [0])) sp argv' (ptrs ++ [sp])
  end.

Definition stack_words (sp : Z) (ptrs : list Z) : list Z :=
  [4294967295; Z.of_nat (length ptrs); sp - (Z.of_nat (length ptrs) + 1) * 4] ++ ptrs ++ [0].

(** The size, the entry point, the stack pointer and the image of a program. *)
Record program := Program { pr_sz : Z; pr_entry : Z; pr_sp : Z; pr_img : image }.

Definition stack_spec (entry sz : Z) (img : image) (argv : list (list Z)) : option program :=
  let top := PGROUNDUP sz + 2 * PGSIZE in
  if KERNBASE <=? top then None
  else
    '(sp, ptrs, img) ← push_spec top img top argv [];
    let sp' := sp - (3 + Z.of_nat (length ptrs) + 1) * 4 in
    if sp' <? top - PGSIZE then None
    else Some (Program top entry sp' (write_img img sp' (stack_words sp ptrs ≫= le_bytes 4))).

Definition exec_spec (data : list Z) (argv : list (list Z)) : option program :=
  elf ← full_read data 0 ELFHDR;
  if negb (e_magic elf =? ELF_MAGIC) then None
  else
    '(sz, img) ← load_spec data (e_phoff elf) 0 (λ _, 0) (Z.to_nat (e_phnum elf));
    stack_spec (e_entry elf) sz img argv.

Lemma le_u8_range l : 0 <= le (u8 <$> l) < 256 ^ Z.of_nat (length l).
Proof.
  induction l as [|b l IH]; [cbn; lia|]. rewrite fmap_cons. cbn [le length]. rewrite Nat2Z.inj_succ, Z.pow_succ_r by lia. pose proof (u8_range b) as Hb. unfold is_byte in Hb. change (2 ^ 8) with 256 in Hb. lia.
Qed.

Lemma field_range n l off : 0 <= field n l off < 256 ^ Z.of_nat n.
Proof.
  unfold field. pose proof (le_u8_range (take n (drop off l))) as H. rewrite length_take in H. assert (256 ^ Z.of_nat (n `min` length (drop off l)) <= 256 ^ Z.of_nat n) by (apply Z.pow_le_mono_r; lia). lia.
Qed.

Lemma field_u32 l off : is_u32 (field 4 l off).
Proof. exact (field_range 4 l off). Qed.

Section exec.
Context {C : Type} `{BL : BufLaws C cview} (g0 : log) (HL : layout g0) (Hid : idle g0) (Hlsz : 28 <= lsize g0) (sb : superblock) (FL : fs_layout g0 sb).
Context (dr : Z → option (C → log → inode → Z → outcome (Z * list Z * inode * C * log))).
Context (kend kdata : Z) (Hkend : KERNLINK <= kend) (Hkdata : kdata_ok kdata).
Abbreviation txn := (txn (cview := cview) g0 sb).
Abbreviation rest := (rest (cview := cview) g0 sb).
Abbreviation ptrs := (list (nat * Z)).
Abbreviation kst_owns := (kst_owns kend).

(** ** Reading *)

Lemma r_readi c g ic P L m n b k i f off cnt : txn c g ic P L m n b → (k, i) ∈ P → k ∈ L → m !! i = Some f → a_type f ≠ T_DEV → is_u32 off → 0 < cnt <= 4096 →
  ∃ r l c', readi_at sb dr c g ic k off cnt = Ok (r, l, c', g, ic) ∧ txn c' g ic P L m n b ∧
    match full_read (a_data f) off cnt with Some x => r = cnt ∧ l = x | None => r ≠ cnt ∧ Z.of_nat (length l) <= cnt end.
Proof using BL HL Hid FL Hlsz.
  intros (v & bl & Hs & Hh & Hb & -> & Hn) Hk HkL Hf Hty Ho Hc. destruct (holds_locked g0 sb v ic P L m k i Hh Hk HkL) as (ip & f' & Hlf & Ei & Hf'). assert (f' = f) as -> by congruence.
  destruct (locked_good g0 sb _ _ _ _ _ _ _ _ Hh Hlf) as ([Hfo Hsz _] & Hlen & Ht & Hmax). pose proof Hlf as [Hip _ _ _ _ _ _ Ef]. assert (isize ip < 2 ^ 31) by (unfold MAXBYTES, BSIZE in *; lia).
  assert (room g0 (logs (File.g1 g0) bl) 0) as Hroom by (eapply txn_room; [done|done|done|lia]). rewrite Ht in Hty. rewrite Ef in Hlen. cbn [a_data afile_of] in Hlen.
  destruct (readi_spec g0 HL sb FL dr c _ v ip off cnt Hs Hfo Hsz Hty Hroom Ho) as (c' & Hs' & E); [unfold is_u32; lia|].
  assert (∀ r l, readi sb dr c (logs (File.g1 g0) bl) ip off cnt = Ok (r, l, ip, c', logs (File.g1 g0) bl) →
    readi_at sb dr c (logs (File.g1 g0) bl) ic k off cnt = Ok (r, l, c', logs (File.g1 g0) bl, ic)) as Hat.
  { intros r l Er. unfold readi_at, deref. by rewrite Hip, bind_Ok, Er, bind_Ok, list_insert_id. }
  assert (txn c' (logs (File.g1 g0) bl) ic P L m n b) as Ht' by (exists v, bl; by split_and!).
  unfold full_read. rewrite Ef. cbn [a_data afile_of]. rewrite Hlen. unfold is_u32 in Ho. destruct (Z.leb_spec (off + cnt) (Z.of_nat (Z.to_nat (isize ip)))) as [Hle|Hgt].
  - rewrite decide_True in E by lia. cbn zeta in E. rewrite Z.min_l in E by lia. eexists _, _, c'. split_and!; [by apply Hat|done|done|done].
  - case_decide as Hd.
    + cbn zeta in E. eexists _, _, c'. split_and!; [by apply Hat|done|lia|]. rewrite length_take. lia.
    + exists (-1), [], c'. split_and!; [by apply Hat|done|lia|cbn; lia].
Qed.

(** ** Segments *)

(** The rest of a segment from [i] on. *)
Definition seg_from (data : list Z) (off fsz i : Z) : list Z := take (Z.to_nat (fsz - i)) (drop (Z.to_nat (off + i)) data).

Lemma seg_from_step data off fsz i n : 0 <= off → 0 <= i → 0 <= n → i + n <= fsz →
  seg_from data off fsz i = take (Z.to_nat n) (drop (Z.to_nat (off + i)) data) ++ seg_from data off fsz (i + n).
Proof.
  intros Ho Hi Hn Hle. unfold seg_from. replace (Z.to_nat (off + (i + n))) with (Z.to_nat (off + i) + Z.to_nat n)%nat by lia. rewrite <- drop_drop.
  set (y := drop (Z.to_nat (off + i)) data). rewrite <- (take_drop (Z.to_nat n) (take (Z.to_nat (fsz - i)) y)). rewrite take_take, Nat.min_l by lia. f_equal.
  rewrite take_drop_commute. do 2 f_equal. lia.
Qed.

Lemma loaduvm_loop_spec P L m n b k i f d addr off fsz own K D sz g ic : (k, i) ∈ P → k ∈ L → m !! i = Some f → a_type f ≠ T_DEV → D !! d = Some sz → sz <= KERNBASE → is_u32 off → addr mod 4096 = 0 → 0 <= addr →
  addr + fsz <= sz → Z.of_nat (length (a_data f)) < 2 ^ 31 →
  ∀ fuel s c j img, txn c g ic P L m n b → kst_owns s own K D → img_ok s d sz (-1) img → j mod 4096 = 0 → 0 <= j → fsz - j <= 4096 * Z.of_nat fuel →
  (0 < j ∧ off + Z.min j fsz <= Z.of_nat (length (a_data f)) ∨ j = 0 ∧ 0 < fsz) →
  ∃ r s' c', loaduvm_loop sb dr s c g ic d addr k off fsz j fuel = Ok (r, s', c', g, ic) ∧ txn c' g ic P L m n b ∧ kst_owns s' own K D ∧ same_others s s' D d ∧
    if decide (off + fsz <= Z.of_nat (length (a_data f))) then r = 0 ∧ img_ok s' d sz (-1) (write_img img (addr + j) (seg_from (a_data f) off fsz j)) else r = -1.
Proof using BL HL Hid FL Hlsz Hkend.
  intros Hk HkL Hf Hty Hd Hsz Hoff Hal Ha Hend Hlen. unfold is_u32, KERNBASE in *. induction fuel as [|fuel IH]; intros s c j img Ht Hh Him Hj Hj0 Hfuel Hprev.
  { cbn [loaduvm_loop]. rewrite (proj2 (Z.ltb_ge _ _)) by lia. exists 0, s, c. split_and!; [done|done|done|done|]. rewrite decide_True by lia. split; [done|].
    eapply img_ext; [done|]. intros va. unfold seg_from. replace (Z.to_nat (fsz - j)) with 0%nat by lia. rewrite take_0. apply write_img_nil. }
  cbn [loaduvm_loop]. destruct (Z.ltb_spec j fsz) as [Hlt|Hge].
  2:{ exists 0, s, c. split_and!; [done|done|done|done|]. rewrite decide_True by lia. split; [done|].
    eapply img_ext; [done|]. intros va. unfold seg_from. replace (Z.to_nat (fsz - j)) with 0%nat by lia. rewrite take_0. apply write_img_nil. }
  pose proof Hh as (Hinv & HK & HD). destruct (HD d sz Hd) as [Ho [_ Hm]]. rewrite (u32_small (addr + j)) by (unfold is_u32; lia).
  assert (user_va (addr + j)) as Hu by (unfold user_va, KERNBASE; lia). assert ((addr + j) mod 4096 = 0) as Hal' by (rewrite Z.add_mod, Hal, Hj; [done|lia]). pose proof (page_aligned_div _ Hal') as Epg.
  assert (mapped (pte_at (ram s) d (addr + j)) = true) as Hmp by (apply Hm; [done|lia]).
  rewrite walk_noalloc, bind_Ok, (pte_addr_nonzero kend Hkend s own) by (done || by apply user_va_u32). cbn zeta. rewrite (u32_small (fsz - j)) by (unfold is_u32; lia).
  set (cnt := if fsz - j <? PGSIZE then fsz - j else PGSIZE). assert (cnt = Z.min (fsz - j) 4096) as Ec by (unfold cnt, PGSIZE; destruct (Z.ltb_spec (fsz - j) 4096); lia). clearbody cnt.
  assert (u32 (off + j) = off + j) as Eoj by (apply u32_small; unfold is_u32; lia). rewrite Eoj.
  destruct (r_readi c g ic P L m n b k i f (off + j) cnt Ht Hk HkL Hf Hty) as (r & l & c1 & E & Ht1 & Hr); [unfold is_u32; lia|lia|]. rewrite E, bind_Ok.
  assert (P2V (PTE_ADDR (load32 (ram s) (pte_addr (ram s) d (addr + j)))) = user_addr (ram s) d (addr + j)) as ->.
  { unfold user_addr, frame_of. rewrite Hal', Z.add_0_r. destruct (pte_cases kend Hkend s own d (addr + j) Hinv Ho (user_va_u32 _ Hu)) as [(_ & H0 & _)|(t & _ & _ & _ & -> & -> & _)]; [by rewrite H0 in Hmp|done]. }
  assert (Z.of_nat (length l) <= cnt) as Hll by (unfold full_read in Hr; destruct (Z.leb_spec (off + j + cnt) (Z.of_nat (length (a_data f)))); [destruct Hr as [_ ->]; rewrite length_take; lia|lia]).
  destruct (store_page kend Hkend s own K D d sz (-1) img (addr + j) l Hh Hd Him Hu ltac:(lia)) as (Hh1 & Him1 & Hso1); [lia|].
  set (s1 := set_ram s (store_bytes (ram s) (user_addr (ram s) d (addr + j)) l)) in *.
  unfold full_read in Hr. destruct (Z.leb_spec (off + j + cnt) (Z.of_nat (length (a_data f)))) as [Hin|Hout].
  2:{ destruct Hr as [Hr _]. rewrite (proj2 (Z.eqb_neq _ _)) by done. cbn [negb]. exists (-1), s1, c1. split_and!; [done|done|done|done|]. rewrite decide_False by lia. done. }
  destruct Hr as [-> ->]. rewrite Z.eqb_refl. cbn [negb]. rewrite (u32_small (j + PGSIZE)) by (unfold is_u32, PGSIZE; lia).
  destruct (IH s1 c1 (j + PGSIZE) _ Ht1 Hh1 Him1) as (r & s2 & c2 & E2 & Ht2 & Hh2 & Hso2 & Hres); [unfold PGSIZE; rewrite Z.add_mod, Hj by lia; done|unfold PGSIZE; lia|unfold PGSIZE; lia|left; unfold PGSIZE; lia|].
  exists r, s2, c2. split_and!; [done|done|done|by eapply same_others_trans|]. case_decide; [|done]. destruct Hres as [-> Hres]. split; [done|]. eapply img_ext; [exact Hres|]. intros va. symmetry.
  rewrite (seg_from_step (a_data f) off fsz j cnt) by lia. rewrite <- write_img_app. set (x := take (Z.to_nat cnt) (drop (Z.to_nat (off + j)) (a_data f))).
  assert (length x = Z.to_nat cnt) as Hx by (unfold x; rewrite length_take, length_drop; lia). destruct (decide (fsz - j <= 4096)) as [Hlast|Hmore].
  - unfold seg_from. replace (Z.to_nat (fsz - (j + PGSIZE))) with 0%nat by (unfold PGSIZE; lia). replace (Z.to_nat (fsz - (j + cnt))) with 0%nat by lia. by rewrite !take_0, !write_img_nil.
  - rewrite Hx. replace cnt with PGSIZE by (unfold PGSIZE; lia). by replace (addr + j + Z.of_nat (Z.to_nat PGSIZE)) with (addr + (j + PGSIZE)) by (unfold PGSIZE; lia).
Qed.

Lemma loaduvm_spec P L m n b k i f d addr off fsz own K D sz g ic s c img : (k, i) ∈ P → k ∈ L → m !! i = Some f → a_type f ≠ T_DEV → D !! d = Some sz → sz <= KERNBASE → is_u32 off → addr mod PGSIZE = 0 → 0 <= addr →
  0 <= fsz → addr + fsz <= sz → Z.of_nat (length (a_data f)) < 2 ^ 31 → txn c g ic P L m n b → kst_owns s own K D → img_ok s d sz (-1) img →
  ∃ r s' c', loaduvm sb dr s c g ic d addr k off fsz = Ok (r, s', c', g, ic) ∧ txn c' g ic P L m n b ∧ kst_owns s' own K D ∧ same_others s s' D d ∧
    match seg_bytes (a_data f) off fsz with Some x => r = 0 ∧ img_ok s' d sz (-1) (write_img img addr x) | None => r = -1 end.
Proof using BL HL Hid FL Hlsz Hkend.
  intros Hk HkL Hf Hty Hd Hsz Hoff Hal Ha Hf0 Hend Hlen Ht Hh Him. unfold loaduvm, seg_bytes. rewrite Hal. cbn [Z.eqb negb]. destruct (Z.eqb_spec fsz 0) as [->|Hnz].
  { exists 0, s, c. cbn [loaduvm_loop]. split_and!; [done|done|done|apply same_others_refl|done|]. eapply img_ext; [done|]. intros va. apply write_img_nil. }
  destruct (loaduvm_loop_spec P L m n b k i f d addr off fsz own K D sz g ic Hk HkL Hf Hty Hd Hsz Hoff Hal Ha Hend Hlen (S (Z.to_nat (fsz / PGSIZE))) s c 0 img Ht Hh Him) as (r & s' & c' & E & Ht' & Hh' & Hso & Hr); [done|lia| |lia|].
  { unfold PGSIZE. pose proof (Z.div_mod fsz 4096). pose proof (Z.mod_pos_bound fsz 4096). pose proof (Z.div_pos fsz 4096). lia. }
  exists r, s', c'. split_and!; [done|done|done|done|]. unfold full_read. unfold seg_from in Hr. rewrite Z.add_0_r, Z.sub_0_r, Z.add_0_r in Hr.
  destruct (Z.leb_spec (off + fsz) (Z.of_nat (length (a_data f)))); [by rewrite decide_True in Hr by lia|by rewrite decide_False in Hr by lia].
Qed.

Lemma load_spec_le data : ∀ n off sz img z img', load_spec data off sz img n = Some (z, img') → sz <= z <= Z.max sz KERNBASE.
Proof.
  induction n as [|n IH]; intros off sz img z img'; cbn [load_spec]; [intros [= -> _]; lia|]. destruct (full_read data off PROGHDR) as [ph|]; cbn [mbind option_bind]; [|done].
  destruct (negb _); [apply IH|]. destruct (Z.leb_spec KERNBASE (ph_vaddr ph + ph_memsz ph)); [by rewrite orb_true_r|]. destruct (_ || _); [done|]. destruct (seg_bytes _ _ _) as [x|]; cbn [mbind option_bind]; [|done]. intros E%IH. lia.
Qed.

(** What the loop does to memory: it takes pages for [d]; if it stops early on a good file, memory ran out. *)
Definition load_result (data : list Z) (off sz : Z) (img : image) (n : nat) (d : Z) (own : gmap Z role) (o : option Z) (s' : kst) (own' : gmap Z role) (sz' : Z) : Prop :=
  match o with
  | Some z => z = sz' ∧ (∀ q, took d z own own' q) ∧ ∃ img', load_spec data off sz img n = Some (z, img') ∧ img_ok s' d z (-1) img'
  | None => (∀ q, took d KERNBASE own own' q) ∧ ∀ z img', load_spec data off sz img n = Some (z, img') → starved kend d z own
  end.

Lemma load_fails data off sz img n d own s' sz' : load_spec data off sz img n = None → load_result data off sz img n d own None s' own sz'.
Proof. intros E. split; [intros q; apply took_refl|]. rewrite E. done. Qed.

Lemma load_loop_spec P L m nn b k i f d K D g ic : (k, i) ∈ P → k ∈ L → m !! i = Some f → a_type f ≠ T_DEV → Z.of_nat (length (a_data f)) < 2 ^ 31 →
  ∀ n s c off sz img own, txn c g ic P L m nn b → kst_owns s own K (<[d := sz]> D) → img_ok s d sz (-1) img → is_u32 off →
  ∃ o s' own' c' sz', load_loop sb kend dr s c g ic d k off sz n = Ok (o, s', c', g, ic) ∧ txn c' g ic P L m nn b ∧ kst_owns s' own' K (<[d := sz']> D) ∧ same_others s s' D d ∧
    load_result (a_data f) off sz img n d own o s' own' sz'.
Proof using BL HL Hid FL Hlsz Hkend.
  intros Hk HkL Hf Hty Hlen. induction n as [|n IH]; intros s c off sz img own Ht Hh Him Hoff.
  { exists (Some sz), s, own, c, sz. cbn [load_loop]. unfold load_result. split_and!; [done|done|done|apply same_others_refl|done|intros q; apply took_refl|by exists img]. }
  cbn [load_loop]. destruct (r_readi c g ic P L m nn b k i f off PROGHDR Ht Hk HkL Hf Hty Hoff ltac:(done)) as (r & ph & c1 & E & Ht1 & Hr). rewrite E, bind_Ok.
  assert (∀ c' sz', txn c' g ic P L m nn b → kst_owns s own K (<[d := sz']> D) → load_spec (a_data f) off sz img (S n) = None →
    ∃ o s' own' c'' sz'', Ok (None, s, c', g, ic) = Ok (o, s', c'', g, ic) ∧ txn c'' g ic P L m nn b ∧ kst_owns s' own' K (<[d := sz'']> D) ∧ same_others s s' D d ∧
      load_result (a_data f) off sz img (S n) d own o s' own' sz'') as Hfail.
  { intros c' sz' Ht' Hh' E'. exists None, s, own, c', sz'. split_and!; [done|done|done|apply same_others_refl|by apply load_fails]. }
  unfold load_result in *. cbn [load_spec] in *. destruct (full_read (a_data f) off PROGHDR) as [x|]; cbn [mbind option_bind] in *.
  2:{ destruct Hr as [Hr _]. rewrite (proj2 (Z.eqb_neq _ _)) by done. cbn [negb]. by apply (Hfail c1 sz). }
  destruct Hr as [-> ->]. rewrite Z.eqb_refl. cbn [negb]. destruct (negb (ph_type x =? ELF_PROG_LOAD)); [by apply (IH s c1 (u32 (off + PROGHDR)) sz img own Ht1 Hh Him (u32_range _))|].
  pose proof (field_u32 x 8) as Hva. pose proof (field_u32 x 20) as Hms. pose proof (field_u32 x 16) as Hfs. pose proof (field_u32 x 4) as Hpo. fold (ph_vaddr x) in Hva. fold (ph_memsz x) in Hms. fold (ph_filesz x) in Hfs. fold (ph_off x) in Hpo.
  unfold is_u32 in Hva, Hms, Hfs. destruct (Z.ltb_spec (ph_memsz x) (ph_filesz x)) as [Hmf|Hmf]; [by apply (Hfail c1 sz)|]. cbn [orb] in *.
  set (top := ph_vaddr x + ph_memsz x) in *. destruct (Z.ltb_spec (u32 top) (ph_vaddr x)) as [Hov|Hov].
  { apply (Hfail c1 sz); [done|done|]. destruct (Z.leb_spec KERNBASE top) as [|Hlt]; [done|]. rewrite u32_small in Hov by (unfold is_u32, KERNBASE in *; lia). lia. }
  assert (top < 2 ^ 32) as Hno.
  { destruct (Z_lt_le_dec top (2 ^ 32)) as [|Hge]; [done|]. unfold u32 in Hov. rewrite <- (Z_mod_plus_full _ (-1)), Z.mod_small in Hov by lia. lia. }
  rewrite (u32_small top) by (unfold is_u32; lia).
  destruct (alloc_img kend Hkend s own K (<[d := sz]> D) d sz img top Hh ltac:(by rewrite lookup_insert_eq) Him ltac:(lia)) as (r & s1 & own1 & E1 & Hso1 & Htk1 & Hc). rewrite E1, bind_Ok. apply same_others_insert in Hso1.
  assert (top < KERNBASE → ∀ q, took d KERNBASE own own1 q) as HtkK by (intros Hlt q; eapply took_mono; [|apply Htk1]; lia).
  destruct Hc as [(-> & Hh1 & Hst)|(Er & Hrk & Htk & Hh1 & Him1)].
  { destruct (Z.leb_spec KERNBASE top) as [Hge|Hlt].
    - unfold allocuvm in E1. rewrite (proj2 (Z.leb_le KERNBASE top)) in E1 by done. injection E1 as <-. by apply (Hfail c1 sz).
    - exists None, s1, own1, c1, sz. split_and!; [done|done|done|done|by apply HtkK|]. intros z img'. cbn [orb]. destruct (_ || _); [done|].
      destruct (seg_bytes _ _ _) as [y|]; cbn [mbind option_bind]; [|done]. intros Ez%load_spec_le. eapply starved_mono; [|by apply Hst]. lia. }
  rewrite insert_insert_eq in Hh1. rewrite (proj2 (Z.leb_gt KERNBASE top)) in * by done. rewrite <- Er in *. cbn [orb] in *.
  assert (∀ s2 c2, txn c2 g ic P L m nn b → kst_owns s2 own1 K (<[d := r]> D) → same_others s s2 D d →
    ∃ o s' own' c'' sz'', Ok (None, s2, c2, g, ic) = Ok (o, s', c'', g, ic) ∧ txn c'' g ic P L m nn b ∧ kst_owns s' own' K (<[d := sz'']> D) ∧ same_others s s' D d ∧
      match o with Some z => z = sz'' ∧ (∀ q, took d z own own' q) ∧ ∃ img', @None (Z * image) = Some (z, img') ∧ img_ok s' d z (-1) img'
      | None => (∀ q, took d KERNBASE own own' q) ∧ ∀ z img', @None (Z * image) = Some (z, img') → starved kend d z own end) as Hfail1.
  { intros s2 c2 Ht2 Hh2 Hso2. exists None, s2, own1, c2, r. split_and!; [done|done|done|done|by apply HtkK|done]. }
  destruct (Z.eqb_spec r 0) as [Hr0|Hr0]; [by apply Hfail1|]. cbn [orb]. destruct (negb (ph_vaddr x mod PGSIZE =? 0)) eqn:Eal; [by apply Hfail1|].
  apply negb_false_iff, Z.eqb_eq in Eal.
  destruct (loaduvm_spec P L m nn b k i f d (ph_vaddr x) (ph_off x) (ph_filesz x) own1 K (<[d := r]> D) r g ic s1 c1 img Hk HkL Hf Hty) as (r2 & s2 & c2 & E2 & Ht2 & Hh2 & Hso2 & Hres);
    [by rewrite lookup_insert_eq|lia|done|done|lia|lia|lia|done|done|done|done|]. rewrite E2, bind_Ok. apply same_others_insert in Hso2. pose proof (same_others_trans _ _ _ _ _ Hso1 Hso2) as Hso.
  destruct (seg_bytes (a_data f) (ph_off x) (ph_filesz x)) as [y|]; cbn [mbind option_bind] in *; [|rewrite Hres; by apply Hfail1].
  destruct Hres as [-> Him2]. cbn [Z.ltb Z.compare]. destruct (IH s2 c2 (u32 (off + PROGHDR)) r _ own1 Ht2 Hh2 Him2 (u32_range _)) as (o & s3 & own3 & c3 & sz3 & E3 & Ht3 & Hh3 & Hso3 & Ho).
  exists o, s3, own3, c3, sz3. split_and!; [done|done|done|by eapply same_others_trans|]. destruct o as [z|].
  - destruct Ho as (-> & Htk3 & img' & El & Him3). split_and!; [done| |by exists img']. apply load_spec_le in El. intros q. eapply took_trans; [eapply took_mono; [|apply Htk1]; lia|apply Htk3].
  - destruct Ho as [Htk3 Hst]. split; [intros q; eapply took_trans; [by apply HtkK|apply Htk3]|]. intros z img' El. eapply starved_took; [|by eapply Hst].
    apply load_spec_le in El. intros q. eapply took_mono; [|apply Htk1]. lia.
Qed.

(** ** The stack *)

Lemma round4 x : 0 <= x < 2 ^ 32 → Z.land (u32 x) (bnot32 3) = x / 4 * 4.
Proof.
  intros Hx. rewrite u32_small by done. pose proof (land_clear_low x 2 Hx ltac:(lia)) as E. change (2 ^ 2 - 1) with 3 in E. rewrite E. change (2 ^ 2) with 4. pose proof (Z.div_mod x 4). lia.
Qed.

Lemma push_args_spec d top own K D : D !! d = Some top → top mod 4096 = 0 → 8192 <= top <= KERNBASE → ∀ argv s img sp ps, kst_owns s own K D → img_ok s d top (top - 8192) img → top - 4096 <= sp <= top →
  Forall (λ a, Z.of_nat (length a) <= 4092) argv → Z.of_nat (length ps) <= MAXARG →
  ∃ o s', push_args s d sp argv ps = Ok (o, s') ∧ kst_owns s' own K D ∧ same_others s s' D d ∧
    match push_spec top img sp argv ps with
    | None => o = None
    | Some (sp', ps', img') => o = Some (sp', ps') ∧ img_ok s' d top (top - 8192) img' ∧ top - 4096 <= sp' <= top ∧ Z.of_nat (length ps') <= MAXARG
    end.
Proof using Hkend.
  intros Hd Hal Htop. unfold KERNBASE in Htop. induction argv as [|a argv IH]; intros s img sp ps Hh Him Hsp Hargs Hps.
  { exists (Some (sp, ps)), s. cbn [push_args push_spec]. split_and!; [done|done|apply same_others_refl|done|done|lia|lia|done]. }
  apply Forall_cons in Hargs as [Ha Hargs]. cbn [push_args push_spec]. rewrite round4 by lia. set (sp1 := (sp - (Z.of_nat (length a) + 1)) / 4 * 4).
  assert (sp - (Z.of_nat (length a) + 1) - 3 <= sp1 <= sp - (Z.of_nat (length a) + 1)) as Hs1 by (unfold sp1; pose proof (Z.div_mod (sp - (Z.of_nat (length a) + 1)) 4); pose proof (Z.mod_pos_bound (sp - (Z.of_nat (length a) + 1)) 4); lia).
  clearbody sp1. destruct (Z.leb_spec MAXARG (Z.of_nat (length ps))) as [Hmax|Hmax]; [exists None, s; split_and!; [done|done|apply same_others_refl|done]|]. cbn [orb].
  pose proof (copyout_stack kend Hkend s own K D d top img sp1 (a ++ [0]) Hh Hd Hal ltac:(lia) Him ltac:(lia)) as Hco. rewrite length_app in Hco. cbn [length] in Hco. specialize (Hco ltac:(lia) ltac:(by destruct a)).
  unfold PGSIZE. case_decide as Hin.
  - destruct Hco as (s1 & E1 & Hh1 & Him1 & Hso1). rewrite E1, bind_Ok. rewrite (proj2 (Z.ltb_ge sp1 (top - 4096))) by lia. cbn [Z.ltb Z.compare].
    destruct (IH s1 _ sp1 (ps ++ [sp1]) Hh1 Him1 ltac:(lia) Hargs) as (o & s2 & E2 & Hh2 & Hso2 & Hr); [rewrite length_app; cbn [length]; unfold MAXARG in *; lia|].
    exists o, s2. split_and!; [done|done|by eapply same_others_trans|done].
  - rewrite Hco, bind_Ok. rewrite (proj2 (Z.ltb_lt sp1 (top - 4096))) by lia. exists None, s. split_and!; [done|done|apply same_others_refl|done].
Qed.

Lemma length_ustack (ws : list Z) : length (ws ≫= le_bytes 4) = (4 * length ws)%nat.
Proof. induction ws as [|w ws IH]; [done|]. rewrite bind_cons, length_app, length_le_bytes, IH. cbn [length]. lia. Qed.

(** [bad] gives back the new space and the file. *)
Lemma bad_space s own c g ic p d x K D : kst_owns s own K (<[d := x]> D) → D !! d = None →
  ∃ s' own', exec_bad sb kend s c g ic p (Some d) None = Ok (-1, s', c, g, ic, p) ∧ kst_owns s' own' K D ∧ same_others s s' D d ∧ ∀ q, own' !! q = release_role d q <$> own !! q.
Proof using Hkend.
  intros Hh Hd. unfold exec_bad. destruct (free_img kend Hkend s own K _ d x Hh (lookup_insert_eq _ _ _)) as (s1 & own1 & E1 & Hh1 & Hso & Hr). rewrite E1, !bind_Ok. exists s1, own1. rewrite delete_insert_id in Hh1 by done.
  split_and!; [done|done|by apply same_others_insert in Hso|done].
Qed.

(** What [exec] does to memory and to the process.  [own] and [own'] are the roles of all pages before and after.  It fails only when there is no program to build, or when too few pages are free;
    then every page has the role it had.  When it succeeds, [d] was a free page and is the new directory, the pages taken for it were free and are its tables and its frames below its size, and exactly the
    pages of the old space are released. *)
Definition exec_result (s : kst) (own : gmap Z role) (K : gset Z) (D : gmap Z Z) (p : eproc) (path : list Z) (pr : option program) (r : Z) (s' : kst) (own' : gmap Z role) (p' : eproc) : Prop :=
  r = -1 ∧ p' = p ∧ own' = own ∧ kst_owns s' own K D ∧ (∀ d0 sz0, D !! d0 = Some sz0 → same_space s s' d0 sz0) ∧
    (∀ x, pr = Some x → Z.of_nat (size (free_pages own)) <= 1026 + pages_below (pr_sz x)) ∨
  r = 0 ∧ ∃ d x own1, pr = Some x ∧ p' = EProc d (pr_sz x) (take 15 (last_elem path path)) (pr_entry x) (pr_sp x) ∧ own !! d = Some Free ∧
    (∀ q, took d (pr_sz x) (<[d := Dir]> own) own1 q) ∧ (∀ q, own' !! q = release_role (e_pgdir p) q <$> own1 !! q) ∧
    kst_owns s' own' K (<[d := pr_sz x]> (delete (e_pgdir p) D)) ∧ img_ok s' d (pr_sz x) (pr_sz x - 2 * PGSIZE) (pr_img x) ∧
    ∀ d0 sz0, D !! d0 = Some sz0 → d0 ≠ e_pgdir p → same_space s s' d0 sz0.

Lemma same_all s s' D d : D !! d = None → same_others s s' D d → ∀ d0 sz0, D !! d0 = Some sz0 → same_space s s' d0 sz0.
Proof. intros Hd Hs d0 sz0 Hd0. apply (Hs d0 sz0); [done|congruence]. Qed.

(** The same from the user stack on: the new space [d] is there. *)
Definition stack_result (s : kst) (own : gmap Z role) (K : gset Z) (D : gmap Z Z) (p : eproc) (path : list Z) (pr : option program) (d r : Z) (s' : kst) (own' : gmap Z role) (p' : eproc) : Prop :=
  r = -1 ∧ p' = p ∧ kst_owns s' own' K D ∧ same_others s s' D d ∧ (∃ o, (∀ q, took d KERNBASE own o q) ∧ ∀ q, own' !! q = release_role d q <$> o !! q) ∧
    (∀ x, pr = Some x → starved kend d (pr_sz x) own) ∨
  r = 0 ∧ ∃ x own1, pr = Some x ∧ p' = EProc d (pr_sz x) (take 15 (last_elem path path)) (pr_entry x) (pr_sp x) ∧
    (∀ q, took d (pr_sz x) own own1 q) ∧ (∀ q, own' !! q = release_role (e_pgdir p) q <$> own1 !! q) ∧
    kst_owns s' own' K (<[d := pr_sz x]> (delete (e_pgdir p) D)) ∧ img_ok s' d (pr_sz x) (pr_sz x - 2 * PGSIZE) (pr_img x) ∧
    ∀ d0 sz0, D !! d0 = Some sz0 → d0 ≠ e_pgdir p → same_space s s' d0 sz0.

(** A stack that cannot be built. *)
Lemma bad_stack s own c g ic p path pr d x K D s1 own1 : kst_owns s1 own1 K (<[d := x]> D) → D !! d = None → same_others s s1 D d → (∀ q, took d KERNBASE own own1 q) →
  (∀ x, pr = Some x → starved kend d (pr_sz x) own) →
  ∃ r s' own' p', exec_bad sb kend s1 c g ic p (Some d) None = Ok (r, s', c, g, ic, p') ∧ stack_result s own K D p path pr d r s' own' p'.
Proof using Hkend.
  intros Hh Hd Hso Htk Hpr. destruct (bad_space s1 own1 c g ic p d x K D Hh Hd) as (s2 & own2 & E2 & Hh2 & Hso2 & Hr). exists (-1), s2, own2, p. split; [done|]. left.
  split_and!; [done|done|done|by eapply same_others_trans|by exists own1|done].
Qed.

Lemma exec_stack_spec s own c g ic p path argv elf d sz img K D : kst_owns s own K (<[d := sz]> D) → D !! d = None → img_ok s d sz (-1) img → D !! e_pgdir p = Some (e_sz p) →
  Forall (λ a, Z.of_nat (length a) <= 4092) argv →
  ∃ r s' own' p', exec_stack sb kend s c g ic p path argv elf d sz = Ok (r, s', c, g, ic, p') ∧ stack_result s own K D p path (stack_spec (e_entry elf) sz img argv) d r s' own' p'.
Proof using Hkend.
  intros Hh Hd Him Hp Hargs. unfold exec_stack, stack_spec. destruct (round_img kend s own K _ d sz img Hh (lookup_insert_eq _ _ _) Him) as [Hh0 Him0]. rewrite insert_insert_eq in Hh0.
  assert (PGROUNDUP sz mod 4096 = 0 ∧ 0 <= PGROUNDUP sz <= KERNBASE) as [Hal Hb].
  { destruct Hh as (_ & _ & HD). destruct (HD d sz (lookup_insert_eq _ _ _)) as [_ [Hsz _]]. destruct (PGROUNDUP_user sz Hsz) as (? & ? & ?). lia. }
  set (sz0 := PGROUNDUP sz) in *. unfold KERNBASE in Hb. cbn zeta. rewrite (u32_small (sz0 + 2 * PGSIZE)) by (unfold is_u32, PGSIZE; lia). set (top := sz0 + 2 * PGSIZE) in *. assert (top = sz0 + 8192) as Et by (unfold top, PGSIZE; lia). clearbody top.
  destruct (alloc_img kend Hkend s own K _ d sz0 img top Hh0 (lookup_insert_eq _ _ _) Him0 ltac:(lia)) as (r & s1 & own1 & E1 & Hso1 & Htk1 & Hc). rewrite E1, bind_Ok. apply same_others_insert in Hso1.
  destruct Hc as [(-> & Hh1 & Hst)|(Er & Hrk & Htk & Hh1 & Him1)].
  { cbn [Z.eqb]. destruct (Z.leb_spec KERNBASE top) as [Hge|Hlt].
    - unfold allocuvm in E1. rewrite (proj2 (Z.leb_le KERNBASE top)) in E1 by done. injection E1 as <-. by apply (bad_stack s own c g ic p path None d sz0 K D s own Hh0 Hd Hso1 (λ q, took_refl _ _ _ _)).
    - apply (bad_stack s own c g ic p path _ d sz0 K D s1 own1 Hh1 Hd Hso1); [intros q; eapply took_mono; [|apply Htk1]; lia|]. intros x. destruct (push_spec _ _ _ _ _) as [[[sp ps] img3]|]; cbn [mbind option_bind]; [|done].
      destruct (_ <? _); [done|]. intros [= <-]. by apply Hst. }
  rewrite (proj2 (Z.leb_gt KERNBASE top)) by done. rewrite insert_insert_eq in Hh1. assert (r = top) as -> by lia. rewrite (proj2 (Z.eqb_neq top 0)) by lia.
  assert (∀ q, took d KERNBASE own own1 q) as HtkK by (intros q; eapply took_mono; [|apply Htk1]; lia).
  assert (top mod 4096 = 0) as Halt by (rewrite Et, Z.add_mod, Hal by lia; done). unfold KERNBASE in Htk.
  rewrite (u32_small (top - 2 * PGSIZE)) by (unfold is_u32, PGSIZE; lia). replace (top - 2 * PGSIZE) with (top - 8192) by (unfold PGSIZE; lia).
  destruct (clear_img kend Hkend s1 own1 K _ d top img (top - 8192) Hh1 (lookup_insert_eq _ _ _) Him1 ltac:(lia)) as (s2 & E2 & Hh2 & Him2 & Hso2); [rewrite Zminus_mod, Halt; done|]. rewrite E2, bind_Ok. apply same_others_insert in Hso2.
  destruct (push_args_spec d top own1 K (<[d := top]> D) (lookup_insert_eq _ _ _) Halt ltac:(unfold KERNBASE; lia) argv s2 img top [] Hh2 Him2 ltac:(lia) Hargs ltac:(done)) as (o & s3 & E3 & Hh3 & Hso3 & Ho). rewrite E3, bind_Ok.
  apply same_others_insert in Hso3. pose proof (same_others_trans _ _ _ _ _ (same_others_trans _ _ _ _ _ Hso1 Hso2) Hso3) as Hso.
  destruct (push_spec top img top argv []) as [[[sp ps] img3]|]; cbn [mbind option_bind]; [|rewrite Ho; by apply (bad_stack s own c g ic p path None d top K D s3 own1)].
  destruct Ho as (-> & Him3 & Hsp & Hps). unfold MAXARG in Hps. rewrite (u32_small (sp - (3 + Z.of_nat (length ps) + 1) * 4)), (u32_small (sp - (Z.of_nat (length ps) + 1) * 4)) by (unfold is_u32; lia).
  change ([4294967295; Z.of_nat (length ps); sp - (Z.of_nat (length ps) + 1) * 4] ++ ps ++ [0]) with (stack_words sp ps). set (sp1 := sp - (3 + Z.of_nat (length ps) + 1) * 4). set (bs := stack_words sp ps ≫= le_bytes 4).
  assert (Z.of_nat (length bs) = (3 + Z.of_nat (length ps) + 1) * 4) as Hbs by (unfold bs; rewrite length_ustack; unfold stack_words; rewrite !length_app; cbn [length]; lia).
  pose proof (copyout_stack kend Hkend s3 own1 K _ d top img3 sp1 bs Hh3 (lookup_insert_eq _ _ _) Halt ltac:(lia) Him3 ltac:(unfold sp1; lia) ltac:(unfold sp1; lia)) as Hco.
  specialize (Hco ltac:(intros E; rewrite E in Hbs; cbn [length] in Hbs; lia)). unfold PGSIZE. case_decide as Hin.
  2:{ rewrite Hco, bind_Ok. cbn [Z.ltb Z.compare]. rewrite (proj2 (Z.ltb_lt sp1 (top - 4096))) by lia. by apply (bad_stack s own c g ic p path None d top K D s3 own1). }
  destruct Hco as (s4 & E4 & Hh4 & Him4 & Hso4). rewrite E4, bind_Ok. cbn [Z.ltb Z.compare]. rewrite (proj2 (Z.ltb_ge sp1 (top - 4096))) by lia. apply same_others_insert in Hso4.
  assert (e_pgdir p ≠ d) as Hne by congruence. destruct (free_img kend Hkend s4 own1 K _ (e_pgdir p) (e_sz p) Hh4) as (s5 & own5 & E5 & Hh5 & Hso5 & Hr5); [by rewrite lookup_insert_ne|]. rewrite E5, bind_Ok.
  exists 0, s5, own5, (EProc d top (take 15 (last_elem path path)) (e_entry elf) sp1). split; [done|]. right. split; [done|]. eexists _, own1. split; [done|]. cbn [pr_sz pr_entry pr_sp pr_img].
  split_and!; [done|done|done|by rewrite delete_insert_ne in Hh5 by done| |].
  - eapply same_img; [exact Him4|]. apply (Hso5 d top); [by rewrite lookup_insert_eq|done].
  - intros d0 x0 Hd0 Hn0 va Hu Hl. assert (d0 ≠ d) as Hn1 by congruence. destruct (same_others_trans _ _ _ _ _ Hso Hso4 d0 x0 Hd0 Hn1 va Hu Hl) as [<- <-].
    apply (Hso5 d0 x0); [by rewrite lookup_insert_ne|done|done|done].
Qed.

(** ** The whole call *)

Lemma put_file c g ic P m n b k i : txn c g ic ((k, i) :: P) ({[k]} ∪ ∅) m (S n) b → linked m i →
  ∃ c' ic', ('(c, g, ic) ← iunlockput sb c g ic k; '(c, g) ← end_op c g; Ok (c, g, ic)) = Ok (c', g0, ic') ∧ rest c' ic' P m b.
Proof using BL HL Hid Hlsz FL.
  intros Ht Hl. destruct (r_iunlockput_keep g0 HL Hid Hlsz sb FL _ _ _ _ _ _ _ _ k i Ht) as (c1 & g1 & ic1 & E1 & Ht1); [apply lock_in|lia|by right|]. rewrite E1, bind_Ok.
  rewrite lock_back in Ht1 by apply not_elem_of_empty. destruct (txn_end g0 HL Hid Hlsz sb FL _ _ _ _ _ _ _ Ht1) as (c2 & E2 & Hr). rewrite E2, bind_Ok. by exists c2, ic1.
Qed.

Lemma bad_file s own c g ic p K D P m n b k i : txn c g ic ((k, i) :: P) ({[k]} ∪ ∅) m (S n) b → linked m i →
  ∃ c' ic', exec_bad sb kend s c g ic p None (Some k) = Ok (-1, s, c', g0, ic', p) ∧ rest c' ic' P m b
    ∧ ∀ d x, D !! d = None → kst_owns s own K (<[d := x]> D) →
      ∃ s' own', exec_bad sb kend s c g ic p (Some d) (Some k) = Ok (-1, s', c', g0, ic', p) ∧ kst_owns s' own' K D ∧ same_others s s' D d ∧ ∀ q, own' !! q = release_role d q <$> own !! q.
Proof using BL HL Hid Hlsz FL Hkend.
  intros Ht Hl. destruct (put_file _ _ _ _ _ _ _ _ _ Ht Hl) as (c1 & ic1 & E1 & Hr). unfold exec_bad. exists c1, ic1. rewrite bind_Ok, E1, bind_Ok. split_and!; [done|done|]. intros d x Hd Hh.
  destruct (free_img kend Hkend s own K _ d x Hh (lookup_insert_eq _ _ _)) as (s1 & own1 & E2 & Hh1 & Hso & Hrel). rewrite E2, !bind_Ok. rewrite delete_insert_id in Hh1 by done.
  exists s1, own1. split_and!; [done|done|by apply same_others_insert in Hso|done].
Qed.

(** The accounting of a call that fails after [setupkvm]. *)
Lemma exec_fails s own K D p path pr d hi own1 s' own' : space_inv kend s own → own !! d = Some Free → D !! d = None → (∀ q, took d hi (<[d := Dir]> own) own1 q) → (∀ q, own' !! q = release_role d q <$> own1 !! q) →
  kst_owns s' own' K D → same_others s s' D d → (∀ x, pr = Some x → 0 <= pr_sz x ∧ starved kend d (pr_sz x) (<[d := Dir]> own)) → exec_result s own K D p path pr (-1) s' own' p.
Proof using Hkend.
  intros Hinv Hfree Hd Htk Hrel Hh Hso Hpr. pose proof (took_released kend s d hi own own1 own' Hinv Hfree Htk Hrel) as ->. left. split_and!; [done|done|done|done|by eapply same_all|].
  intros x Hx. destruct (Hpr x Hx) as [H0 Hst]. apply (short_bound kend Hkend); [|done]. right. by exists d.
Qed.

Lemma stack_spec_sz entry sz img argv x : 0 <= sz <= KERNBASE → stack_spec entry sz img argv = Some x → sz <= pr_sz x.
Proof.
  intros Hsz. unfold stack_spec. destruct (PGROUNDUP_user sz Hsz) as (H1 & _). destruct (_ <=? _); [done|]. destruct (push_spec _ _ _ _ _) as [[[sp ps] img3]|]; cbn [mbind option_bind]; [|done]. destruct (_ <? _); [done|].
  intros [= <-]. cbn [pr_sz]. unfold PGSIZE. lia.
Qed.

Lemma exec_run c ic P m b s own cwd ci p path argv K D : rest c ic P m b → ready P m cwd ci → path_ok m ci path → (∀ i f, find m ci path = Some (i, f) → a_type f ≠ T_DEV) →
  kst_owns s own K D → D !! e_pgdir p = Some (e_sz p) → Forall (λ a, Z.of_nat (length a) <= 4092) argv →
  ∃ r s' own' c' ic' p', exec sb kend kdata dr s c g0 ic cwd p path argv = Ok (r, s', c', g0, ic', p') ∧ rest c' ic' P m b ∧
    exec_result s own K D p path ('(_, f) ← find m ci path; exec_spec (a_data f) argv) r s' own' p'.
Proof using BL HL Hid Hlsz FL Hkend Hkdata.
  intros Hrest [Htr Hcwd Hca] [Hn Hpl] Hdev Hh Hp Hargs. destruct (txn_start g0 Hid sb _ _ _ _ _ Hrest) as [E0 Ht0]. unfold exec, find in *. rewrite E0, bind_Ok.
  assert (∀ c' ic', rest c' ic' P m b → ∃ r s' own' c'' ic'' p', Ok (-1, s, c', g0, ic', p) = Ok (r, s', c'', g0, ic'', p') ∧ rest c'' ic'' P m b ∧ exec_result s own K D p path None r s' own' p') as Hnone.
  { intros c' ic' Hr. exists (-1), s, own, c', ic', p. split_and!; [done|done|]. left. by split_and!. }
  pose proof (r_namei g0 HL Hid Hlsz sb FL dr _ _ _ _ _ 24 _ cwd ci path Ht0 Hcwd (tree_paths m Htr) (start_linked m ci path Htr Hpl) Hn ltac:(lia)) as H1.
  destruct (resolve m (start_of ci path) (elems path)) as [i|]; cbn [mbind option_bind].
  2:{ destruct H1 as (c1 & ic1 & E1 & Ht1). rewrite E1, bind_Ok. destruct (txn_end g0 HL Hid Hlsz sb FL _ _ _ _ _ _ _ Ht1) as (c2 & E2 & Hr). rewrite E2, bind_Ok. by apply Hnone. }
  destruct H1 as (k & c1 & ic1 & E1 & Ht1 & f & Hf & Hfn). rewrite E1, bind_Ok. rewrite Hf. cbn [mbind option_bind]. specialize (Hdev i f ltac:(cbn [mbind option_bind]; by rewrite Hf)). assert (linked m i) as Hlk by (by exists f).
  destruct (r_ilock g0 HL Hid Hlsz sb FL _ _ _ _ _ _ _ _ k i Ht1 (ptr_1 _ _) (not_elem_of_empty k)) as (c2 & ic2 & E2 & Ht2). rewrite E2, bind_Ok.
  assert (Z.of_nat (length (a_data f)) < 2 ^ 31) as Hlen.
  { destruct Ht2 as (v & bl & _ & Hh2 & _). destruct (shows_live g0 sb v m i f (im_files _ _ _ _ _ _ _ Hh2) Hf) as [Hl Ef]. destruct (gf_sized _ _ _ _ (ck_file _ _ _ (im_ck _ _ _ _ _ _ _ Hh2) i Hl)) as [Hsz _].
    rewrite Ef. cbn [a_data afile_of]. rewrite length_content. unfold MAXBYTES, BSIZE in Hsz. lia. }
  destruct (r_readi _ _ _ _ _ _ _ _ k i f 0 ELFHDR Ht2 (ptr_1 _ _) (lock_in _ _) Hf Hdev ltac:(done) ltac:(done)) as (r & elf & c3 & E3 & Ht3 & Hr). rewrite E3, bind_Ok. unfold exec_spec.
  destruct (bad_file s own c3 _ ic2 p K D P m 24 b k i Ht3 Hlk) as (c4 & ic4 & E4 & Hr4 & _).
  destruct (full_read (a_data f) 0 ELFHDR) as [x|]; cbn [mbind option_bind].
  2:{ destruct Hr as [Hr _]. rewrite (proj2 (Z.eqb_neq _ _)) by done. cbn [negb]. rewrite E4. by apply Hnone. }
  destruct Hr as [-> ->]. rewrite Z.eqb_refl. cbn [negb]. destruct (negb (e_magic x =? ELF_MAGIC)); [rewrite E4; by apply Hnone|].
  pose proof Hh as (Hinv & _ & _). destruct (setup_img kend kdata Hkend Hkdata s own K D Hh) as (d & s1 & own1 & E5 & Hso1 & Hc). rewrite E5, bind_Ok. destruct (Z.eqb_spec d 0) as [->|Hd0].
  { destruct Hc as [(_ & -> & Hh1 & Hsh)|[? _]]; [|done]. destruct (bad_file s1 own c3 _ ic2 p K D P m 24 b k i Ht3 Hlk) as (c5 & ic5 & E6 & Hr5 & _). rewrite E6.
    exists (-1), s1, own, c5, ic5, p. split_and!; [done|done|]. left. split_and!; [done|done|done|done| |].
    - intros d0 sz0 Hx. destruct (decide (d0 = 1)) as [->|Hne1]; [apply (Hso1 0 1 sz0 Hx); done|by apply (Hso1 1 d0 sz0 Hx)].
    - intros y Hy. destruct (load_spec _ _ _ _ _) as [[z img]|] eqn:El; cbn [mbind option_bind] in Hy; [|done]. apply load_spec_le in El. pose proof (stack_spec_sz _ z _ _ _ ltac:(unfold KERNBASE in *; lia) Hy). apply (short_bound kend Hkend); [|lia]. eapply short_mono; [|done]. lia. }
  destruct Hc as [(? & _)|(_ & Hfree & Hdn & Hh1 & Him1 & Htk1)]; [done|].
  destruct (load_loop_spec ((k, i) :: P) ({[k]} ∪ ∅) m 25 b k i f d K D _ ic2 (ptr_1 _ _) (lock_in _ _) Hf Hdev Hlen (Z.to_nat (e_phnum x)) s1 c3 (e_phoff x) 0 (λ _, 0) own1 Ht3 Hh1 Him1 (field_u32 _ _))
    as (o & s2 & own2 & c5 & sz2 & E6 & Ht5 & Hh2 & Hso2 & Ho). rewrite E6, bind_Ok. pose proof (same_others_trans _ _ _ _ _ (Hso1 d) Hso2) as Hso.
  assert (0 <= sz2 <= KERNBASE) as Hsz2 by (destruct Hh2 as (_ & _ & HD2); by destruct (HD2 d sz2 (lookup_insert_eq _ _ _)) as [_ [? _]]).
  assert (∀ z, 0 <= z → ∀ q, took d z (<[d := Dir]> own) own1 q) as Htk0 by (intros z Hz q; eapply took_mono; [exact Hz|apply Htk1]).
  destruct o as [sz|].
  2:{ destruct Ho as [Htk2 Hst]. destruct (bad_file s2 own2 c5 _ ic2 p K D P m 24 b k i Ht5 Hlk) as (c6 & ic6 & _ & Hr6 & Hb). destruct (Hb d sz2 Hdn Hh2) as (s3 & own3 & E7 & Hh3 & Hso3 & Hrel). rewrite E7.
      exists (-1), s3, own3, c6, ic6, p. split_and!; [done|done|]. apply (exec_fails s own K D p path _ d KERNBASE own2); try done; [|by eapply same_others_trans|].
      - intros q. eapply took_trans; [by apply Htk0|apply Htk2].
      - intros y Hy. destruct (load_spec _ _ _ _ _) as [[z img]|] eqn:El; cbn [mbind option_bind] in Hy; [|done]. specialize (Hst z img eq_refl).
        apply load_spec_le in El. pose proof (stack_spec_sz _ z _ _ _ ltac:(unfold KERNBASE in *; lia) Hy). split; [lia|]. apply (starved_mono kend d z); [lia|]. eapply starved_took; [apply Htk0; lia|done]. }
  destruct Ho as (-> & Htk2 & img & -> & Him2). cbn [mbind option_bind]. destruct (put_file c5 _ ic2 P m 24 b k i Ht5 Hlk) as (c6 & ic6 & E7 & Hr6).
  destruct (iunlockput sb c5 (File.g1 g0) ic2 k) as [[[c7 g7] ic7]| | |]; try done. rewrite !bind_Ok in E7. rewrite bind_Ok. destruct (end_op c7 g7) as [[c8 g8]| | |]; try done. rewrite !bind_Ok in E7. rewrite bind_Ok. injection E7 as -> -> ->.
  destruct (exec_stack_spec s2 own2 c6 g0 ic6 p path argv x d sz2 img K D Hh2 Hdn Him2 Hp Hargs) as (r & s3 & own3 & p' & E8 & Hres). rewrite E8. exists r, s3, own3, c6, ic6, p'. split_and!; [done|done|].
  assert (∀ z, sz2 <= z → ∀ q, took d z (<[d := Dir]> own) own2 q) as Htk by (intros z Hz q; eapply took_trans; [apply Htk0; lia|eapply took_mono; [exact Hz|apply Htk2]]).
  destruct Hres as [(-> & -> & Hh3 & Hso3 & (o & Hto & Hrel) & Hst)|(-> & y & own4 & Hpr & Hp' & Hto & Hrel & Hh3 & Him3 & Hs3)].
  - apply (exec_fails s own K D p path _ d KERNBASE o); try done; [|by eapply same_others_trans|].
    + intros q. eapply took_trans; [apply Htk; lia|apply Hto].
    + intros y Hy. pose proof (stack_spec_sz _ _ _ _ _ Hsz2 Hy). split; [lia|]. eapply starved_took; [apply Htk; lia|]. by apply Hst.
  - right. split; [done|]. exists d, y, own4. pose proof (stack_spec_sz _ _ _ _ _ Hsz2 Hpr). split_and!; [done|done|done| |done|done|done|].
    + intros q. eapply took_trans; [by apply Htk|apply Hto].
    + intros d0 sz0 Hx Hne va Hu Hl. destruct (same_all _ _ _ _ Hdn Hso d0 sz0 Hx va Hu Hl) as [<- <-]. by apply (Hs3 d0 sz0 Hx Hne).
Qed.
End exec.
