(* ===== verification/ExecThm.v ===== *)
(** The theorem about [exec] (src/p4/exec.c), and a program on the disk of DirDemo.v. *)

From Stdlib Require Import ZArith Lia.
From stdpp Require Import base numbers list gmap fin_sets sets strings.
From S2P Require Import Prelude CStr Mem Mmu Kalloc Vm VmSpec VmUser Mencrypt MemIface Bio Log LogCrash Fs FsSpec FsTrunc Pipe File FileThm FsCk Icache IcacheSpec IcacheOps IcacheThm Dir DirSpec DirOps DirDemo Ftable Sysfile Tree Txn SysfileSpec FtableSpec Syscalls SysRun SyscallsDemo Exec ExecMem ExecSpec.
#[local] Open Scope Z_scope.

(** C3. [exec] builds the image of the program or leaves everything as it was.  On a consistent file system whose files form a tree, and in a memory in which each address space has exactly
    the pages below its size and [own] says what each page is for (the free ones are those of the free list), for any path that starts at a linked directory and whose file is not a device, whatever bytes the file has,
    and for arguments of less than a page each: [exec] returns without a panic or a fault, with -1 or 0.  If it returns -1, the process is as before, every page of memory has the role it had before, so that no page of
    a half-built image is lost, and no address space has changed, the caller's included; and this happens only if the specification has no program for that path and these arguments (no such file, not
    an ELF file, a bad segment, too large, or arguments that do not fit the stack page), or if at most [1026] pages and those of the program were free.  If it returns 0, the file
    is an ELF file with loadable segments at page boundaries below KERNBASE; the process has a new address space of the size that the specification says, in
    which each byte is that of the last segment that covers it, or that of the arguments and the array of pointers to them on the stack page, or zero; the page below the stack is not
    accessible; the program counter is the entry point and the stack pointer the start of that array; the directory and the pages taken for it were free before and belong to the new space, exactly the pages of the
    old space are released, every other page has the role it had, and no other space has changed.  In both cases the file system is at rest, with the same files and the same pointers held. *)
Theorem exec_builds_image g sb dr kend kdata c ic P m b s own cwd ci p path argv K D : layout g → idle g → 28 <= lsize g → fs_layout g sb → KERNLINK <= kend → kdata_ok kdata →
  rest (cview := binv) g sb c ic P m b → ready P m cwd ci → path_ok m ci path → (∀ i f, find m ci path = Some (i, f) → a_type f ≠ T_DEV) →
  kst_owns kend s own K D → D !! e_pgdir p = Some (e_sz p) → Forall (λ a, Z.of_nat (length a) <= 4092) argv →
  ∃ r s' own' c' ic' p', exec sb kend kdata dr s c g ic cwd p path argv = Ok (r, s', c', g, ic', p') ∧ rest (cview := binv) g sb c' ic' P m b ∧
    exec_result kend s own K D p path ('(_, f) ← find m ci path; exec_spec (a_data f) argv) r s' own' p'.
Proof. intros HL Hid Hls FL Hk Hd. by apply (exec_run g HL Hid Hls sb FL dr kend kdata Hk Hd). Qed.

(** * A program *)

(** One segment of two bytes at address 0, behind the two headers. *)
Definition y_elf : list Z :=
  [127; 69; 76; 70] ++ replicate 24 0 ++ le_bytes 4 52 ++ replicate 12 0 ++ le_bytes 2 1 ++ replicate 6 0 ++
  le_bytes 4 1 ++ le_bytes 4 84 ++ replicate 8 0 ++ le_bytes 4 2 ++ le_bytes 4 2 ++ replicate 8 0 ++ [235; 254].

Definition y_argv : list (list Z) := [of_string "x"; of_string "hi"].

(** Its image: the segment, two arguments below the top, and the array of their addresses. *)
Example y_program : (λ x, (pr_sz x, pr_entry x, pr_sp x, pr_img x <$> [0; 1; 2], (λ n, le (pr_img x <$> [n; n + 1; n + 2; n + 3])) <$> [12256; 12260; 12264; 12268; 12272; 12276; 12280; 12284])) <$>
    exec_spec y_elf y_argv =
  Some (12288, 0, 12256, [235; 254; 0], [4294967295; 2; 12268; 12284; 12280; 0; 26984; 120]).
Proof. vm_compute. reflexivity. Qed.

Definition y_install : list (nat * syscall) := (0%nat,.) <$> [SOpen (of_string "x") (Z.lor O_CREATE O_RDWR); SWrite 0 y_elf; SClose 0].

Lemma y_installed : ∃ s u, run_sys w_sb (λ _, None) (λ _, None) y_install y_sys [y_proc] = Ok ([ret 0; ret 86; ret 0], s, [u]) ∧
  models (cview := binv) w_log w_sb s [u] (run_spec w_sb w_log y_install y_asys).2 0.
Proof.
  destruct (run_models w_log w_log_layout y_idle ltac:(by vm_compute) w_sb w_fs_layout (λ _, None) (λ _, None) y_install y_sys [y_proc] y_asys 0) as (s & us & E & Hm).
  - apply y_models. apply Nat.leb_le. vm_compute. reflexivity.
  - apply run_okb_ok. vm_compute. reflexivity.
  - assert ((run_spec w_sb w_log y_install y_asys).1 = [ret 0; ret 86; ret 0]) as Er by (vm_compute; reflexivity). rewrite Er in E.
    pose proof (Forall2_length _ _ _ (mo_procs _ _ _ _ _ _ Hm)) as Hl. assert (length (as_procs (run_spec w_sb w_log y_install y_asys).2) = 1%nat) as E1 by (vm_compute; reflexivity).
    rewrite E1 in Hl. clear Er E1. destruct us as [|u [|u' us']]; [discriminate Hl| |discriminate Hl]. exists s, u. split; [exact E|exact Hm].
Qed.

(** An empty address space. *)
Lemma owns_empty kend s own d : space_inv kend s own → own !! d = Some Dir → (∀ va, is_u32 va → pte_at (ram s) d va = 0) → kst_owns kend s own ∅ {[d := 0]}.
Proof.
  intros Hinv Hd Hz. split; [done|]. split; [by intros p ?%elem_of_empty|]. intros d' sz [<- <-]%lookup_singleton_Some. split; [done|]. split; [by vm_compute|].
  intros va Hu. rewrite (Hz va (user_va_u32 va Hu)). split; [done|]. intros Hl. exfalso. unfold user_va in Hu. pose proof (Z.div_pos va 4096). lia.
Qed.

(** The machine of VmUser.v with 4095 free pages. *)
Lemma y_memory : kst_owns demo_kend big_s big_own ∅ {[big_d := 0]}.
Proof. destruct big_ok as (Hinv & Hd & Hz & _). exact (owns_empty demo_kend big_s big_own big_d Hinv Hd Hz). Qed.

Definition y_exec_proc : eproc := EProc big_d 0 [] 0 0.

(** C3 for that program: it is loaded, its first byte is there, and the old directory is free. *)
Lemma exec_builds_image_witness : ∃ s u s' (own' : gmap Z role) c' ic' p', run_sys w_sb (λ _, None) (λ _, None) y_install y_sys [y_proc] = Ok ([ret 0; ret 86; ret 0], s, [u]) ∧
  exec w_sb demo_kend (KERNLINK + 4096) (λ _, None) big_s (fs_c s) w_log (fs_ic s) (u_cwd u) y_exec_proc (of_string "/x") y_argv = Ok (0, s', c', w_log, ic', p') ∧
  e_sz p' = 12288 ∧ user_byte (ram s') (e_pgdir p') 0 = 235 ∧ own' !! e_pgdir p' = Some Dir ∧ own' !! big_d = Some Free.
Proof.
  destruct y_installed as (s & u & Ei & Hm). pose proof (mo_fs _ _ _ _ _ _ Hm) as (_ & HT & Hr). set (a := (run_spec w_sb w_log y_install y_asys).2) in *.
  assert (as_procs a = [AProc 1 (replicate NOFILE None)]) as Ep by (vm_compute; reflexivity). assert (as_table a = replicate NFILE None) as Et by (vm_compute; reflexivity).
  assert (find (as_files a) 1 (of_string "/x") = Some (3, AFile T_FILE 0 0 1 y_elf)) as Ef by (vm_compute; reflexivity).
  assert (cwd_ptrs [u] (as_procs a) ++ tptrs (fs_ft s) (as_table a) = [(u_cwd u, 1)]) as EP.
  { rewrite Ep. cbn [cwd_ptrs zip_with app q_cwd]. f_equal. pose proof (tptrs_inos _ _ _ HT) as Hi. rewrite Et in Hi. assert (inos (replicate NFILE None) = []) as E0 by (vm_compute; reflexivity). rewrite E0 in Hi. rewrite Et. exact (fmap_nil_inv _ _ Hi). }
  rewrite EP in Hr.
  destruct (exec_builds_image w_log w_sb (λ _, None) demo_kend (KERNLINK + 4096) (fs_c s) (fs_ic s) [(u_cwd u, 1)] (as_files a) 0 big_s big_own (u_cwd u) 1 y_exec_proc (of_string "/x") y_argv ∅ {[big_d := 0]}
    w_log_layout y_idle ltac:(by vm_compute) w_fs_layout demo_kend_ok) as (r & s' & own' & c' & ic' & p' & E & _ & Hres).
  - split; [split|]; vm_compute; congruence.
  - exact Hr.
  - split; [exact (mo_tree _ _ _ _ _ _ Hm)|apply ptr_1|]. apply Nat.leb_le. vm_compute. reflexivity.
  - split; [by repeat constructor|]. right. vm_compute. reflexivity.
  - intros i f Hf. rewrite Ef in Hf. injection Hf as <- <-. discriminate.
  - exact y_memory.
  - apply lookup_singleton_eq.
  - by repeat constructor.
  - rewrite Ef in Hres. cbn [mbind option_bind a_data] in Hres. pose proof y_program as Hy. destruct (exec_spec y_elf y_argv) as [x|]; [|discriminate Hy].
    injection Hy as Esz _ _ Eb _ _ _ _ _ _ _ _ _ _. destruct big_ok as (_ & Hbd & _ & Hn).
    destruct Hres as [(_ & _ & _ & _ & _ & Hx)|(-> & d & y & own1 & Ey & -> & Hd & Htk & Hrel & Hh & Him & _)].
    { specialize (Hx x eq_refl). rewrite Esz in Hx. change (pages_below 12288) with 3 in Hx. lia. }
    injection Ey as <-. exists s, u, s', own', c', ic', (EProc d (pr_sz x) (take 15 (last_elem (of_string "/x") (of_string "/x"))) (pr_entry x) (pr_sp x)).
    cbn [e_sz e_pgdir]. split_and!; [exact Ei|exact E|exact Esz| | |].
    + rewrite (io_byte _ _ _ _ _ Him 0); [exact Eb|unfold user_va, KERNBASE; lia|rewrite Esz; reflexivity].
    + destruct Hh as (_ & _ & HD). apply (HD d (pr_sz x)), lookup_insert_eq.
    + assert (big_d ≠ d) as Hne by congruence. rewrite Hrel. destruct (Htk big_d) as [Eo|[Eo _]]; rewrite lookup_insert_ne, Hbd in Eo by congruence; [|discriminate Eo].
      rewrite Eo. cbn [fmap option_fmap option_map release_role y_exec_proc e_pgdir]. by rewrite bool_decide_eq_true_2.
Defined.
