(* ===== verification/Umalloc.v ===== *)
(** The allocator of user programs (src/p4/umalloc.c), with the system call it grows the heap by (sbrk: src/p4/sysproc.c, growproc of src/p4/proc.c).

    The blocks live in the memory of the process: a header is eight bytes, the pointer to the next free block and the size of the block in
    units of eight bytes, itself included.  Every access is checked against the end of the memory of the process, and one beyond it is a [Fault]. *)

From Stdlib Require Import ZArith Lia.
From stdpp Require Import base numbers list gmap.
From S2P Require Import Prelude Mem Mmu.
#[local] Open Scope Z_scope.

(** The memory of the process, its size, and the variable [freep]. *)
Record ust := Ust { um : mem; freep : Z; brk : Z }.
Definition set_um (m : mem) (s : ust) : ust := Ust m (freep s) (brk s).
Definition set_freep (p : Z) (s : ust) : ust := Ust (um s) p (brk s).
Definition set_brk (b : Z) (s : ust) : ust := Ust (um s) (freep s) b.

Definition ldw (s : ust) (a : Z) : outcome Z := if a + 4 <=? brk s then Ok (load32 (um s) a) else Fault a.
Definition stw (s : ust) (a v : Z) : outcome ust := if a + 4 <=? brk s then Ok (set_um (store32 (um s) a v) s) else Fault a.

(** [sizeof(Header)], the fields of a header, and pointer arithmetic on headers. *)
Definition HDR : Z := 8.
Definition h_ptr (s : ust) (p : Z) : outcome Z := ldw s p.
Definition h_size (s : ust) (p : Z) : outcome Z := ldw s (p + 4).
Definition set_ptr (s : ust) (p v : Z) : outcome ust := stw s p v.
Definition set_size (s : ust) (p v : Z) : outcome ust := stw s (p + 4) v.
Definition hplus (p n : Z) : Z := u32 (p + n * HDR).

(** The loop of [free]: the free block after which [bp] belongs. *)
Fixpoint free_find (s : ust) (bp p : Z) (fuel : nat) : outcome Z :=
  match fuel with
  | O => NoFuel
  | S fuel' =>
      nx ← h_ptr s p;
      if (p <? bp) && (bp <? nx) then Ok p
      else if (nx <=? p) && ((p <? bp) || (bp <? nx)) then Ok p
      else free_find s bp nx fuel'
  end.

(** Each free block has a unit of its own. *)
Definition ring_fuel (s : ust) : nat := Z.to_nat (brk s / HDR) + 2.

Definition free (s : ust) (ap : Z) : outcome ust :=
  let bp := u32 (ap - HDR) in
  p ← free_find s bp (freep s) (ring_fuel s);
  nx ← h_ptr s p;
  bsz ← h_size s bp;
  s ← (if hplus bp bsz =? nx then
         nsz ← h_size s nx;
         s ← set_size s bp (u32 (bsz + nsz));
         nn ← h_ptr s nx;
         set_ptr s bp nn
       else set_ptr s bp nx);
  psz ← h_size s p;
  s ← (if hplus p psz =? bp then
         bsz ← h_size s bp;
         s ← set_size s p (u32 (psz + bsz));
         bn ← h_ptr s bp;
         set_ptr s p bn
       else set_ptr s p bp);
  Ok (set_freep p s).

Section umalloc.
(** The address of [base], and whether the kernel has the memory to grow a process from one size to another. *)
Context (base : Z) (grant : Z → Z → bool).

(** [n] as an [int]; with the sizes that [allocuvm] and [deallocuvm] return. *)
Definition sbrk (s : ust) (n : Z) : Z * ust :=
  let addr := brk s in
  let newsz := u32 (addr + n) in
  if n =? 0 then (addr, s)
  else
    let sz :=
      if 0 <? n then if KERNBASE <=? newsz then 0 else if newsz <? addr then addr else if grant addr newsz then newsz else 0
      else if addr <=? newsz then addr else newsz in
    if sz =? 0 then (-1, s) else (addr, set_brk sz s).

Definition morecore (s : ust) (nu : Z) : outcome (Z * ust) :=
  let nu := if nu <? 4096 then 4096 else nu in
  let '(p, s) := sbrk s (s32 (nu * HDR)) in
  if p =? -1 then Ok (0, s)
  else
    s ← set_size s p nu;
    s ← free s (hplus p 1);
    Ok (freep s, s).

(** A block that is large enough: its tail, or all of it. *)
Definition take_block (s : ust) (prevp p sz nunits : Z) : outcome (Z * ust) :=
  '(p, s) ← (if sz =? nunits then nx ← h_ptr s p; s ← set_ptr s prevp nx; Ok (p, s)
             else
               s ← set_size s p (u32 (sz - nunits));
               let p := hplus p (u32 (sz - nunits)) in
               s ← set_size s p nunits; Ok (p, s));
  Ok (hplus p 1, set_freep prevp s).

(** The loop of [malloc]; [p] is [prevp->s.ptr] at the start of each turn. *)
Fixpoint malloc_loop (s : ust) (nunits prevp : Z) (fuel : nat) : outcome (Z * ust) :=
  match fuel with
  | O => NoFuel
  | S fuel' =>
      p ← h_ptr s prevp;
      sz ← h_size s p;
      if nunits <=? sz then take_block s prevp p sz nunits
      else if p =? freep s then
        '(p, s) ← morecore s nunits;
        if p =? 0 then Ok (0, s) else malloc_loop s nunits p fuel'
      else malloc_loop s nunits p fuel'
  end.

Definition malloc (s : ust) (nbytes : Z) : outcome (Z * ust) :=
  let nunits := u32 (u32 (nbytes + HDR - 1) / HDR + 1) in
  s ← (if freep s =? 0 then s ← set_ptr s base base; set_size (set_freep base s) base 0 else Ok s);
  malloc_loop s nunits (freep s) (2 * ring_fuel s).
End umalloc.

(** A process of three pages, [base] in the first. *)
Definition x_base : Z := 64.
Definition x_ust : ust := Ust ∅ 0 12288.

(** Two blocks from the end of the 32 KiB that the first call gets; the second one comes back. *)
Example malloc_free_example :
  ('(p, s) ← malloc x_base (λ _ _, true) x_ust 100; '(q, s) ← malloc x_base (λ _ _, true) s 5; s ← free s p; '(r, s) ← malloc x_base (λ _ _, true) s 99; Ok [p; q; r; brk s; freep s]) =
  Ok [44952; 44936; 44952; 45056; 12288].
Proof. vm_compute. reflexivity. Qed.

(** The largest requests wrap: the block has no bytes at all. *)
Example malloc_wraps : ('(p, s) ← malloc x_base (λ _ _, true) x_ust 4294967295; sz ← h_size s (p - 8); Ok (p, sz)) = Ok (45056, 1).
Proof. vm_compute. reflexivity. Qed.
