(* ===== verification/UmallocSpec.v ===== *)
(** The blocks of the heap of a user program, and what [free] and [malloc] (Umalloc.v) do to them. *)

From Stdlib Require Import ZArith Lia.
From stdpp Require Import base numbers list gmap.
From S2P Require Import Prelude Mem Mmu Umalloc.
#[local] Open Scope Z_scope.

(** * Lists of blocks *)

(** The address of a block, its size in units, and whether it is free. *)
Abbreviation block := (Z * Z * bool)%type.

(** The blocks fill the memory from [a] to [e]. *)
Fixpoint tiled (a : Z) (bl : list block) (e : Z) : Prop :=
  match bl with [] => a = e | (b, u, _) :: bl' => b = a ∧ 1 <= u ∧ tiled (a + 8 * u) bl' e end.

(** No two free blocks are neighbours. *)
Fixpoint coalesced (bl : list block) : Prop :=
  match bl with (_, _, f) :: ((_, _, f') :: _) as bl' => f && f' = false ∧ coalesced bl' | _ => True end.

Definition free_of (b : block) : list (Z * Z) := let '(a, u, f) := b in if f : bool then [(a, u)] else [].
Definition frees (bl : list block) : list (Z * Z) := bl ≫= free_of.

(** The address of the first block of a list, or [e]. *)
Definition hda (l : list (Z * Z)) (e : Z) : Z := match l with [] => e | (a, _) :: _ => a end.

(** The headers of [l] are linked to each other, the last one to [e]. *)
Fixpoint links (m : mem) (l : list (Z * Z)) (e : Z) : Prop :=
  match l with [] => True | (a, u) :: l' => load32 m a = hda l' e ∧ load32 m (a + 4) = u ∧ links m l' e end.

Lemma tiled_app a bl1 bl2 e : tiled a (bl1 ++ bl2) e ↔ ∃ b, tiled a bl1 b ∧ tiled b bl2 e.
Proof.
  revert a. induction bl1 as [|[[b u] f] bl1 IH]; intros a; cbn [app tiled].
  - split; [intros H; by exists a|intros (b & -> & H); done].
  - rewrite IH. naive_solver.
Qed.

Lemma tiled_le a bl e : tiled a bl e → a + 8 * Z.of_nat (length bl) <= e.
Proof. revert a. induction bl as [|[[b u] f] bl IH]; intros a; cbn [tiled length]; [lia|]. intros (-> & Hu & H). specialize (IH _ H). lia. Qed.

Lemma tiled_in a bl e b u f : tiled a bl e → (b, u, f) ∈ bl → a <= b ∧ b + 8 * u <= e ∧ 1 <= u.
Proof.
  intros H (l1 & l2 & ->)%list_elem_of_split. apply tiled_app in H as (c & H1 & -> & Hu & H2).
  apply tiled_le in H1, H2. lia.
Qed.

Lemma frees_app bl1 bl2 : frees (bl1 ++ bl2) = frees bl1 ++ frees bl2.
Proof. apply bind_app. Qed.

Lemma elem_of_frees a u bl : (a, u) ∈ frees bl ↔ (a, u, true) ∈ bl.
Proof.
  unfold frees. rewrite list_elem_of_bind. split.
  - intros ([[b v] f] & Hf & Hin). destruct f; cbn in Hf; [|by apply not_elem_of_nil in Hf]. apply list_elem_of_singleton in Hf. by injection Hf as -> ->.
  - intros Hin. exists (a, u, true). split; [by apply list_elem_of_singleton|done].
Qed.

(** Cutting the free list cuts the list of blocks. *)
Lemma frees_split bl k1 a u k2 : frees bl = k1 ++ (a, u) :: k2 → ∃ l1 l2, bl = l1 ++ (a, u, true) :: l2 ∧ frees l1 = k1 ∧ frees l2 = k2.
Proof.
  revert k1. induction bl as [|[[b v] f] bl IH]; intros k1 E; [by destruct k1|]. change (frees ((b, v, f) :: bl)) with (free_of (b, v, f) ++ frees bl) in E. destruct f; cbn [free_of app] in E.
  - destruct k1 as [|x k1]; cbn [app] in E; injection E; intros; subst.
    + by exists [], bl.
    + destruct (IH k1) as (l1 & l2 & -> & <- & <-); [done|]. by exists ((b, v, true) :: l1), l2.
  - destruct (IH k1 E) as (l1 & l2 & -> & <- & <-). by exists ((b, v, false) :: l1), l2.
Qed.

Lemma length_frees bl : (length (frees bl) ≤ length bl)%nat.
Proof. unfold frees. induction bl as [|[[a u] []] bl IH]; cbn in *; lia. Qed.

Lemma tiled_frees_in a bl e b u : tiled a bl e → (b, u) ∈ frees bl → a <= b ∧ b + 8 * u <= e ∧ 1 <= u.
Proof. intros H Hin%elem_of_frees. by eapply tiled_in. Qed.

Lemma coalesced_app bl1 bl2 : coalesced (bl1 ++ bl2) ↔ coalesced bl1 ∧ coalesced bl2 ∧ ∀ a u b v, last bl1 = Some (a, u, true) → head bl2 = Some (b, v, true) → False.
Proof.
  induction bl1 as [|[[b u] f] bl1 IH]; cbn [app].
  - split; [intros H; split_and!; done|by intros (_ & H & _)].
  - destruct bl1 as [|[[b' u'] f'] bl1]; cbn [app].
    + destruct bl2 as [|[[c v] g] bl2]; cbn [coalesced last head]; [naive_solver|]. split.
      * intros [H1 H2]. split_and!; try done. intros. by simplify_eq.
      * intros (_ & H2 & H3). split; [|done]. destruct f, g; try done. exfalso. by eapply H3.
    + cbn [coalesced app] in *. rewrite last_cons_cons. naive_solver.
Qed.

(** * Linked headers *)

Lemma hda_app l1 l2 e : hda (l1 ++ l2) e = hda l1 (hda l2 e).
Proof. by destruct l1 as [|[a u] l1]. Qed.

Lemma links_app m l1 l2 e : links m (l1 ++ l2) e ↔ links m l1 (hda l2 e) ∧ links m l2 e.
Proof. induction l1 as [|[a u] l1 IH]; cbn [links app]; [naive_solver|]. rewrite hda_app, IH. naive_solver. Qed.

(** A write outside the headers of [l]. *)
Lemma links_frame m l e x v : (∀ a u, (a, u) ∈ l → x + 4 <= a ∨ a + 8 <= x) → links m l e → links (store32 m x v) l e.
Proof.
  induction l as [|[a u] l IH]; cbn [links]; [done|]. intros Hd (H1 & H2 & H3). assert (x + 4 <= a ∨ a + 8 <= x) as Hx by (apply (Hd a u); left).
  rewrite !load32_store32_ne by lia; split_and!; [done..|apply IH; [intros b w Hb; apply (Hd b w); by right|done]].
Qed.

Lemma links_in m l e a u : links m l e → (a, u) ∈ l → load32 m (a + 4) = u.
Proof. induction l as [|[b v] l IH]; intros Hl Hin; [by apply not_elem_of_nil in Hin|]. destruct Hl as (_ & H2 & H3). apply elem_of_cons in Hin as [[= -> ->]|Hin]; auto. Qed.

(** The pointer of the last header changes. *)
Lemma links_snoc m l a u e : links m (l ++ [(a, u)]) e ↔ links m l a ∧ load32 m a = e ∧ load32 m (a + 4) = u.
Proof. rewrite links_app. cbn [links hda]. naive_solver. Qed.

(** * The invariant *)

Section heap.
Context (base h0 : Z) (Hbase : 0 < base) (Hh0 : base + 8 <= h0).

Definition ring (bl : list block) : list (Z * Z) := (base, 0) :: frees bl.

Record heap_ok (s : ust) (bl : list block) : Prop := {
  hp_tiled : tiled h0 bl (brk s);
  hp_brk : brk s < KERNBASE;
  hp_coal : coalesced bl;
  hp_ring : links (um s) (ring bl) base;
  hp_held : ∀ a u, (a, u, false) ∈ bl → load32 (um s) (a + 4) = u;
  hp_freep : freep s ∈ (ring bl).*1 }.

(** Nothing in the blocks that are held changes. *)
Definition kept (bl : list block) (s s' : ust) : Prop :=
  ∀ a u x, (a, u, false) ∈ bl → a + 8 <= x < a + 8 * u → getb (um s') x = getb (um s) x.

Lemma ring_bound s bl a u : heap_ok s bl → (a, u) ∈ ring bl → base <= a ∧ a + 8 <= brk s ∧ (a = base ∧ u = 0 ∨ h0 <= a ∧ 1 <= u ∧ a + 8 * u <= brk s).
Proof using Hh0.
  intros H Hin. pose proof (hp_tiled _ _ H) as Ht. pose proof (tiled_le _ _ _ Ht). apply elem_of_cons in Hin as [[= -> ->]|Hin]; [lia|].
  apply (tiled_frees_in _ _ _ _ _ Ht) in Hin. lia.
Qed.

(** The headers before a block are below it, those after it above. *)
Lemma split_bounds l1 b u f l2 e : tiled h0 (l1 ++ (b, u, f) :: l2) e →
  h0 <= b ∧ 1 <= u ∧ b + 8 * u <= e ∧ (∀ a v, (a, v) ∈ ring l1 → a + 8 <= b ∧ base <= a ∧ a + 8 * v <= b ∧ 0 <= v) ∧ (∀ a v, (a, v) ∈ frees l2 → b + 8 * u <= a ∧ 1 <= v ∧ a + 8 * v <= e).
Proof using Hh0.
  intros (c & H1 & -> & Hu & H2)%tiled_app. pose proof (tiled_le _ _ _ H1). pose proof (tiled_le _ _ _ H2). split_and!; [lia..| |].
  - intros a v Hin. apply elem_of_cons in Hin as [[= -> ->]|Hin]; [lia|]. apply (tiled_frees_in _ _ _ _ _ H1) in Hin. lia.
  - intros a v Hin. apply (tiled_frees_in _ _ _ _ _ H2) in Hin. lia.
Qed.
Lemma ring_app l1 l2 : ring (l1 ++ l2) = ring l1 ++ frees l2.
Proof. unfold ring. by rewrite frees_app. Qed.

Lemma ring_next bl e A z u z' u' B : tiled h0 bl e → ring bl = A ++ (z, u) :: (z', u') :: B → z + 8 <= z' ∧ z + 8 * u <= z'.
Proof using Hh0.
  intros Ht E. destruct A as [|x A]; injection E.
  - intros E1 <- <-. assert ((z', u') ∈ frees bl) as Hin by (rewrite E1; left). apply (tiled_frees_in _ _ _ _ _ Ht) in Hin. lia.
  - intros (l1 & l2 & -> & _ & E2)%frees_split _. apply split_bounds in Ht as (_ & ? & _ & _ & Ht); [|done..]. destruct (Ht z' u'); [rewrite E2; left|lia].
Qed.

Lemma ring_before bl e A p u B : tiled h0 bl e → ring bl = A ++ (p, u) :: B → ∀ b v, (b, v) ∈ A → b + 8 <= p.
Proof using Hh0.
  intros Ht E b v Hin. destruct A as [|x A]; [by apply not_elem_of_nil in Hin|]. injection E as <- (l1 & l2 & -> & <- & _)%frees_split.
  apply split_bounds in Ht as (_ & _ & _ & Ht & _); [|done..]. by destruct (Ht b v Hin).
Qed.

Lemma length_ring s bl : heap_ok s bl → (length (ring bl) ≤ S (length bl) ∧ S (length bl) < ring_fuel s)%nat.
Proof using Hbase Hh0.
  intros H. pose proof (tiled_le _ _ _ (hp_tiled _ _ H)) as Hl. pose proof (length_frees bl).
  unfold ring_fuel, ring, HDR. cbn [length]. assert (Z.of_nat (length bl) <= brk s / 8) by (apply Z.div_le_lower_bound; lia). lia.
Qed.

Lemma links_at m A a u B e : links m (A ++ (a, u) :: B) e → load32 m a = hda B e ∧ load32 m (a + 4) = u.
Proof. rewrite links_app. cbn. naive_solver. Qed.

Lemma ldw_ok s a : a + 4 <= brk s → ldw s a = Ok (load32 (um s) a).
Proof. intros H. unfold ldw. by rewrite (proj2 (Z.leb_le _ _) H). Qed.

Lemma stw_ok s a v : a + 4 <= brk s → stw s a v = Ok (set_um (store32 (um s) a v) s).
Proof. intros H. unfold stw. by rewrite (proj2 (Z.leb_le _ _) H). Qed.

(** ** Finding the place of a block *)

Section find.
Context (s : ust) (l1 l2 : list block) (bp ub : Z) (P0 : list (Z * Z)) (p up : Z).
Context (H : heap_ok s (l1 ++ (bp, ub, false) :: l2)) (HP : ring l1 = P0 ++ [(p, up)]).

Lemma find_ring : ring (l1 ++ (bp, ub, false) :: l2) = ring l1 ++ frees l2.
Proof using. by rewrite ring_app. Qed.

Lemma find_links : links (um s) (ring l1) (hda (frees l2) base) ∧ links (um s) (frees l2) base.
Proof using H. pose proof (hp_ring _ _ H) as Hr. by rewrite find_ring, links_app in Hr. Qed.

Lemma find_step z A u B fuel : ring l1 ++ frees l2 = A ++ (z, u) :: B →
  free_find s bp z (S fuel) = (let nx := hda B base in if (z <? bp) && (bp <? nx) then Ok z else if (nx <=? z) && ((z <? bp) || (bp <? nx)) then Ok z else free_find s bp nx fuel).
Proof using Hh0 H.
  intros E. cbn [free_find]. unfold h_ptr. pose proof (hp_ring _ _ H) as Hr. rewrite find_ring, E in Hr. apply links_at in Hr as [Hz _].
  destruct (ring_bound _ _ z u H) as (_ & ? & _); [rewrite find_ring, E; apply elem_of_app; right; left|].
  rewrite ldw_ok by lia. cbn [mbind outcome_bind]. by rewrite Hz.
Qed.

(** From a block before [bp]. *)
Lemma find_low B : ∀ A z u fuel, ring l1 = A ++ (z, u) :: B → (length B < fuel)%nat → free_find s bp z fuel = Ok p.
Proof using Hh0 H HP.
  pose proof (hp_tiled _ _ H) as Ht. destruct (split_bounds _ _ _ _ _ _ Ht) as (Hb & Hu & _ & Hlo & Hhi).
  induction B as [|[z' u'] B IH]; intros A z u [|fuel] E Hf; [cbn in Hf; lia| |cbn in Hf; lia|].
  - assert (z = p) as -> by (rewrite HP in E; apply (f_equal last) in E; rewrite !last_snoc in E; congruence).
    rewrite (find_step p A u (frees l2)) by (by rewrite E, <- app_assoc). destruct (Hlo p u) as (? & ? & _); [rewrite E; apply elem_of_app; right; left|].
    destruct (frees l2) as [|[x v] l] eqn:E2; cbn [hda].
    + replace (p <? bp) with true by lia. replace (bp <? base) with false by lia. replace (base <=? p) with true by lia. done.
    + destruct (Hhi x v); [left|]. replace (p <? bp) with true by lia. by replace (bp <? x) with true by lia.
  - rewrite (find_step z A u ((z', u') :: B ++ frees l2)) by (by rewrite E, <- app_assoc). cbn [hda].
    destruct (Hlo z' u') as (? & _); [rewrite E; apply elem_of_app; right; right; left|].
    destruct (ring_next _ _ A z u z' u' (B ++ frees l2) Ht) as [? _]; [by rewrite find_ring, E, <- app_assoc|].
    replace (bp <? z') with false by lia. rewrite andb_false_r. replace (z' <=? z) with false by lia. cbn [andb].
    apply (IH (A ++ [(z, u)]) z' u'); [by rewrite E, <- app_assoc|cbn in Hf; lia].
Qed.

(** From a block behind it. *)
Lemma find_high B : ∀ A z u fuel, frees l2 = A ++ (z, u) :: B → (length B + length (ring l1) < fuel)%nat → free_find s bp z fuel = Ok p.
Proof using Hh0 H HP.
  pose proof (hp_tiled _ _ H) as Ht. destruct (split_bounds _ _ _ _ _ _ Ht) as (Hb & Hu & _ & _ & Hhi).
  induction B as [|[z' u'] B IH]; intros A z u [|fuel] E Hf; [cbn in Hf; lia| |cbn in Hf; lia|]; (destruct (Hhi z u) as (? & _); [rewrite E; apply elem_of_app; right; left|]).
  - rewrite (find_step z (ring l1 ++ A) u []) by (by rewrite E, <- app_assoc). cbn [hda].
    replace (z <? bp) with false by lia. replace (bp <? base) with false by lia. cbn [andb orb]. rewrite andb_false_r. apply (find_low (frees l1) [] base 0); [done|]. unfold ring in Hf. cbn [length] in Hf. lia.
  - rewrite (find_step z (ring l1 ++ A) u ((z', u') :: B)) by (by rewrite E, <- app_assoc). cbn [hda].
    destruct (ring_next _ _ (ring l1 ++ A) z u z' u' B Ht) as [? _]; [by rewrite find_ring, E, <- app_assoc|].
    replace (z <? bp) with false by lia. replace (z' <=? z) with false by lia. cbn [andb].
    apply (IH (A ++ [(z, u)]) z' u'); [by rewrite E, <- app_assoc|cbn [length] in Hf; lia].
Qed.

Lemma free_find_spec : free_find s bp (freep s) (ring_fuel s) = Ok p.
Proof using Hbase Hh0 H HP.
  pose proof (hp_freep _ _ H) as Hf. pose proof (length_ring _ _ H) as Hl. rewrite find_ring in Hf, Hl. rewrite length_app in Hl.
  apply list_elem_of_fmap in Hf as ([z u] & Ez & Hin). cbn in Ez. rewrite Ez. apply elem_of_app in Hin as [Hin|Hin]; apply list_elem_of_split in Hin as (A & B & E).
  - apply (find_low B A z u); [done|]. rewrite E, length_app in Hl. cbn [length] in Hl. lia.
  - apply (find_high B A z u); [done|]. rewrite E, length_app in Hl. cbn [length] in Hl. lia.
Qed.
End find.

(** ** Freeing a block *)

(** Bytes change in the header at [a] only. *)
Definition only_header (a : Z) (m m' : mem) : Prop := ∀ x, ¬ (a <= x < a + 8) → getb m' x = getb m x.

Lemma only_load a m m' x : only_header a m m' → x + 4 <= a ∨ a + 8 <= x → load32 m' x = load32 m x.
Proof. intros H Hx. apply load32_ext. intros k Hk. apply H. lia. Qed.

Lemma only_links a m m' l e : only_header a m m' → (∀ b u, (b, u) ∈ l → b + 8 <= a ∨ a + 8 <= b) → links m l e → links m' l e.
Proof.
  intros Ho. induction l as [|[b u] l IH]; cbn [links]; [done|]. intros Hd (H1 & H2 & H3). assert (b + 8 <= a ∨ a + 8 <= b) as Hb by (apply (Hd b u); left).
  rewrite !(only_load _ _ _ _ Ho) by lia. split_and!; [done..|]. apply IH; [|done]. intros c w Hc. apply (Hd c w). by right.
Qed.

(** The size of one block changes and it gets the pointer of another one. *)
Lemma merge_header s p q v : p + 8 <= brk s → q + 8 <= brk s → q + 8 <= p ∨ p + 8 <= q → is_u32 v →
  ∃ m, (s ← set_size s p v; n ← h_ptr s q; set_ptr s p n) = Ok (set_um m s) ∧ only_header p (um s) m ∧ load32 m p = load32 (um s) q ∧ load32 m (p + 4) = v.
Proof.
  intros Hp Hq Hd Hv. unfold set_size, set_ptr, h_ptr. rewrite stw_ok by lia. cbn [mbind outcome_bind]. rewrite ldw_ok by (cbn; lia). cbn [mbind outcome_bind].
  rewrite stw_ok by (cbn; lia). eexists. split; [reflexivity|]. cbn [um set_um]. rewrite (load32_store32_ne _ (p + 4)) by lia. pose proof (load32_range (um s) q). split_and!.
  - intros x Hx. by rewrite !getb_store32_ne by lia.
  - by rewrite load32_store32.
  - by rewrite load32_store32_ne, load32_store32 by (done || lia).
Qed.

Lemma write_ptr s p w : p + 8 <= brk s → is_u32 w → ∃ m, set_ptr s p w = Ok (set_um m s) ∧ only_header p (um s) m ∧ load32 m p = w ∧ load32 m (p + 4) = load32 (um s) (p + 4).
Proof.
  intros Hp Hw. unfold set_ptr. rewrite stw_ok by lia. eexists. split; [reflexivity|]. cbn. split_and!.
  - intros x Hx. by rewrite getb_store32_ne by lia.
  - by rewrite load32_store32.
  - by rewrite load32_store32_ne by lia.
Qed.
Lemma hplus_small p n : 0 <= p → 0 <= n → p + 8 * n < 2 ^ 31 → hplus p n = p + 8 * n.
Proof. intros. unfold hplus, HDR. rewrite u32_small; [lia|]. unfold is_u32. lia. Qed.

(** With the block behind. *)
Lemma merge_right s bp ub l2 : h0 <= bp → 1 <= ub → brk s < KERNBASE → tiled (bp + 8 * ub) l2 (brk s) → links (um s) (frees l2) base → coalesced l2 → load32 (um s) (bp + 4) = ub →
  ∃ m ub' l2',
    (if hplus bp ub =? hda (frees l2) base then
       nsz ← h_size s (hda (frees l2) base); s ← set_size s bp (u32 (ub + nsz)); nn ← h_ptr s (hda (frees l2) base); set_ptr s bp nn
     else set_ptr s bp (hda (frees l2) base)) = Ok (set_um m s) ∧
    only_header bp (um s) m ∧ load32 m bp = hda (frees l2') base ∧ load32 m (bp + 4) = ub' ∧ ub <= ub' ∧ tiled (bp + 8 * ub') l2' (brk s) ∧
    links (um s) (frees l2') base ∧ coalesced ((bp, ub', true) :: l2') ∧ (∀ a u, (a, u, false) ∈ l2' ↔ (a, u, false) ∈ l2) ∧ (length l2' ≤ length l2)%nat.
Proof using Hbase Hh0.
  intros Hb Hu Hk Ht Hl Hc Hs. pose proof (tiled_le _ _ _ Ht) as Hle. unfold KERNBASE in Hk. rewrite hplus_small by lia.
  destruct l2 as [|[[x ux] [|]] l2'].
  - cbn [frees hda mbind list_bind]. replace (bp + 8 * ub =? base) with false by lia. destruct (write_ptr s bp base) as (m & E & Ho & E1 & E2); [cbn in Hle; lia|unfold is_u32; lia|].
    exists m, ub, []. rewrite E2. split_and!; done.
  - destruct Ht as (-> & Hux & Ht). destruct Hl as (L1 & L2 & Hl). change (hda (frees ((bp + 8 * ub, ux, true) :: l2')) base) with (bp + 8 * ub). rewrite Z.eqb_refl.
    pose proof (tiled_le _ _ _ Ht). unfold h_size. rewrite ldw_ok by lia. cbn [mbind outcome_bind]. rewrite L2.
    rewrite u32_small by (unfold is_u32; lia). destruct (merge_header s bp (bp + 8 * ub) (ub + ux)) as (m & E & Ho & E1 & E2); [lia..|unfold is_u32; lia|].
    exists m, (ub + ux), l2'. split; [exact E|]. split_and!; [done|by rewrite E1|done|lia| |done| | |].
    + by replace (bp + 8 * (ub + ux)) with (bp + 8 * ub + 8 * ux) by lia.
    + destruct l2' as [|[[y uy] fy] l2']; [done|]. cbn [coalesced] in *. done.
    + intros a u. rewrite elem_of_cons. naive_solver.
    + cbn. lia.
  - assert (hda (frees l2') base ≠ bp + 8 * ub) as Hne.
    { destruct Ht as (-> & Hux & Ht). destruct (frees l2') as [|[y uy] l] eqn:El; cbn; [lia|].
      destruct (tiled_frees_in _ _ _ y uy Ht); [rewrite El; left|lia]. }
    change (frees ((x, ux, false) :: l2')) with (frees l2') in *. replace (bp + 8 * ub =? hda (frees l2') base) with false by lia.
    destruct (write_ptr s bp (hda (frees l2') base)) as (m & E & Ho & E1 & E2); [cbn in Hle; lia| |].
    { destruct (frees l2') as [|[y uy] l] eqn:El; cbn; [unfold is_u32; lia|]. destruct Ht as (-> & Hux & Ht). destruct (tiled_frees_in _ _ _ y uy Ht); [rewrite El; left|unfold is_u32; lia]. }
    exists m, ub, ((x, ux, false) :: l2'). rewrite E2. split_and!; done.
Qed.
(** With the block before. *)
Lemma merge_left s l1 bp ub l2 P0 p up nx : brk s < KERNBASE → ring l1 = P0 ++ [(p, up)] → tiled h0 (l1 ++ (bp, ub, true) :: l2) (brk s) → coalesced l1 → coalesced ((bp, ub, true) :: l2) →
  links (um s) (ring l1) nx → links (um s) ((bp, ub) :: frees l2) base →
  ∃ m bl',
    (if hplus p up =? bp then bsz ← h_size s bp; s ← set_size s p (u32 (up + bsz)); bn ← h_ptr s bp; set_ptr s p bn else set_ptr s p bp) = Ok (set_um m s) ∧
    only_header p (um s) m ∧ links m (ring bl') base ∧ tiled h0 bl' (brk s) ∧ coalesced bl' ∧ p ∈ (ring bl').*1 ∧
    (∃ a u, (a, u) ∈ frees bl' ∧ ub <= u) ∧ (∀ a u, (a, u, false) ∈ bl' ↔ (a, u, false) ∈ l1 ++ l2) ∧ (length bl' ≤ length l1 + S (length l2))%nat.
Proof using Hbase Hh0.
  intros Hk EP Ht Hc1 Hc2 HlP Hlb. destruct (split_bounds _ _ _ _ _ _ Ht) as (Hb & Hu & He & Hlo & Hhi). unfold KERNBASE in Hk.
  destruct (Hlo p up) as (Hp & Hpb & Hpu & Hup0); [rewrite EP; apply elem_of_app; right; left|].
  rewrite EP in HlP. apply links_snoc in HlP as (HlP & _ & Hup).
  destruct Hlb as (Lb1 & Lb2 & Hl2). assert (∀ b v, (b, v) ∈ P0 → b + 8 <= p ∨ p + 8 <= b) as HP0.
  { intros b v Hin. left. apply (ring_before _ _ P0 p up (frees ((bp, ub, true) :: l2)) Ht) with v; [|done]. by rewrite ring_app, EP, <- app_assoc. }
  assert (p + 8 * up ≠ bp ∧ (∀ a u, last l1 ≠ Some (a, u, true)) ∨ ∃ k1, l1 = k1 ++ [(p, up, true)] ∧ ring k1 = P0 ∧ p + 8 * up = bp ∧ 1 <= up) as [[Hne Hlast]|(k1 & -> & Ek1 & Hpe & Hup1)].
  { destruct P0 as [|x P0].
    - injection EP as E1 E2 E3. left. split; [lia|]. intros a u Hla. apply last_Some in Hla as (l' & ->). rewrite frees_app in E3. by destruct (frees l').
    - injection EP as E1 E3. apply frees_split in E3 as (k1 & k2 & -> & H1 & H2). rewrite <- app_assoc in Ht. apply tiled_app in Ht as (c & Ht1 & -> & Hup1 & Ht2). apply tiled_app in Ht2 as (d & Ht2 & -> & _).
      destruct k2 as [|k k2 _] using rev_ind.
      + right. exists k1. cbn in Ht2. split_and!; [done|unfold ring; naive_solver|done|done].
      + left. apply tiled_le in Ht2. rewrite length_app in Ht2. cbn in Ht2. split; [lia|]. intros a u Hla. rewrite app_comm_cons, app_assoc, last_snoc in Hla.
        injection Hla as ->. rewrite frees_app in H2. by destruct (frees k2). }
  - rewrite hplus_small by lia. replace (p + 8 * up =? bp) with false by lia. destruct (write_ptr s p bp) as (m & E & Ho & E1 & E2); [lia|unfold is_u32; lia|].
    exists m, (l1 ++ (bp, ub, true) :: l2). split_and!; try done.
    + rewrite ring_app, EP. apply links_app. split; [apply links_snoc; split_and!; [by eapply only_links|by rewrite E1|by rewrite E2, Hup]|].
      apply (only_links _ _ _ _ _ Ho); [|done]. intros b v [[= -> ->]|Hin]%elem_of_cons; [lia|]. apply Hhi in Hin. lia.
    + apply coalesced_app. split_and!; [done..|]. intros a u ? ? Hla _. by apply Hlast in Hla.
    + rewrite ring_app, EP, !fmap_app. apply elem_of_app. left. apply elem_of_app. right. left.
    + exists bp, ub. split; [|lia]. apply elem_of_frees, elem_of_app. right. left.
    + intros a u. rewrite !elem_of_app, elem_of_cons. naive_solver.
    + by rewrite length_app.
  - rewrite hplus_small by lia. rewrite Hpe, Z.eqb_refl. unfold h_size. rewrite ldw_ok by lia. cbn [mbind outcome_bind]. rewrite Lb2.
    rewrite u32_small by (unfold is_u32; lia). destruct (merge_header s p bp (up + ub)) as (m & E & Ho & E1 & E2); [lia..|unfold is_u32; lia|].
    rewrite <- app_assoc in Ht. apply tiled_app in Ht as (c & Ht1 & -> & _ & (_ & _ & Ht2)). apply coalesced_app in Hc1 as (Hc1 & _ & Hc3).
    exists m, (k1 ++ (c, up + ub, true) :: l2). split; [exact E|]. split_and!; try done.
    + rewrite ring_app, Ek1. apply links_app. split; [by eapply only_links|]. cbn [links]. split_and!; [by rewrite E1|done|].
      apply (only_links _ _ _ _ _ Ho); [|done]. intros b v Hin. apply Hhi in Hin. lia.
    + apply tiled_app. exists c. split; [done|]. split_and!; [done|lia|]. by replace (c + 8 * (up + ub)) with (c + 8 * up + 8 * ub) by lia.
    + apply coalesced_app. split_and!; [done| |].
      * destruct l2 as [|[[y uy] fy] l2]; [done|]. cbn [coalesced] in *. done.
      * intros a u b v Hla [= <- <-]. by eapply Hc3.
    + rewrite ring_app, fmap_app. apply elem_of_app. right. left.
    + exists c, (up + ub). split; [|lia]. apply elem_of_frees, elem_of_app. right. left.
    + intros a u. rewrite !elem_of_app, !elem_of_cons, elem_of_nil. split; [intros [?|[[=]|?]]|intros [[?|[[=]|[]]]|?]]; auto.
    + rewrite !length_app. cbn. lia.
Qed.
Lemma kept_header bl a s m : only_header a (um s) m → (∀ b u, (b, u, false) ∈ bl → a + 8 <= b + 8 ∨ b + 8 * u <= a) → kept bl s (set_um m s).
Proof. intros Ho Hd b u x Hin Hx. apply Ho. destruct (Hd b u Hin); lia. Qed.

Lemma kept_trans bl s1 s2 s3 : kept bl s1 s2 → kept bl s2 s3 → kept bl s1 s3.
Proof. intros H1 H2 a u x Hin Hx. rewrite (H2 a u x), (H1 a u x); done. Qed.

(** Blocks do not overlap. *)
Lemma tiled_disjoint l1 a u f l2 c e b v g : tiled c (l1 ++ (a, u, f) :: l2) e → (b, v, g) ∈ l1 ++ l2 → b + 8 * v <= a ∨ a + 8 * u <= b.
Proof.
  intros (d & H1 & -> & Hu & H2)%tiled_app [Hin|Hin]%elem_of_app; [left; apply (tiled_in _ _ _ _ _ _ H1) in Hin|right; apply (tiled_in _ _ _ _ _ _ H2) in Hin]; lia.
Qed.

(** The header of a node of the ring is not in a block that is held. *)
Lemma ring_not_held bl e p u a v : tiled h0 bl e → (p, u) ∈ ring bl → (a, v, false) ∈ bl → p + 8 <= a ∨ a + 8 * v <= p.
Proof using Hh0.
  intros Ht [[= -> ->]|Hin]%elem_of_cons Ha; [apply (tiled_in _ _ _ _ _ _ Ht) in Ha; lia|].
  apply elem_of_frees in Hin. pose proof (tiled_in _ _ _ _ _ _ Ht Hin). apply list_elem_of_split in Hin as (l1 & l2 & ->).
  destruct (tiled_disjoint _ _ _ _ _ _ _ a v false Ht); [|lia..]. apply elem_of_app in Ha as [?|[[=]|?]%elem_of_cons]; apply elem_of_app; auto.
Qed.

Lemma free_spec s l1 bp ub l2 : heap_ok s (l1 ++ (bp, ub, false) :: l2) →
  ∃ s' bl', free s (bp + 8) = Ok s' ∧ heap_ok s' bl' ∧ brk s' = brk s ∧ kept (l1 ++ l2) s s' ∧
    (∀ a u, (a, u, false) ∈ bl' ↔ (a, u, false) ∈ l1 ++ l2) ∧ (length bl' ≤ length l1 + S (length l2))%nat ∧ ∃ a u, (a, u) ∈ frees bl' ∧ ub <= u.
Proof using Hbase Hh0.
  intros H. pose proof (hp_tiled _ _ H) as Ht. pose proof (hp_brk _ _ H) as Hk. destruct (split_bounds _ _ _ _ _ _ Ht) as (Hb & Hu & He & Hlo & Hhi).
  assert (∃ P0 p up, ring l1 = P0 ++ [(p, up)]) as (P0 & p & up & EP).
  { destruct (ring l1) as [|[a v] P0 _] eqn:E using rev_ind; [done|]. by exists P0, a, v. }
  destruct (find_links _ _ _ _ _ H) as [HlP HlQ]. pose proof (hp_coal _ _ H) as (Hc1 & Hc2 & Hc3)%coalesced_app.
  pose proof (proj1 (tiled_app _ _ _ _) Ht) as (c & Ht1 & -> & _ & Ht2). assert (load32 (um s) (c + 4) = ub) as Hsz by (apply (hp_held _ _ H), elem_of_app; right; left).
  assert (coalesced l2) as Hc2' by (destruct l2 as [|[[y uy] fy] l2]; [done|cbn [coalesced] in Hc2; tauto]).
  destruct (merge_right s c ub l2 Hb Hu Hk Ht2 HlQ Hc2' Hsz) as (m & ub' & l2' & E1 & Ho1 & M1 & M2 & Hub & Ht2' & HlQ' & Hc4 & Hh1 & Hn1).
  assert (tiled h0 (l1 ++ (c, ub', true) :: l2') (brk s)) as Ht' by (apply tiled_app; exists c; split; [done|]; split_and!; [done|lia|done]).
  destruct (split_bounds _ _ _ _ _ _ Ht') as (_ & _ & _ & _ & Hhi').
  destruct (merge_left (set_um m s) l1 c ub' l2' P0 p up (hda (frees l2) base)) as (m2 & bl' & E2 & Ho2 & HR & Htb & Hcb & Hpin & Hbig & Hh2 & Hn2); try done.
  { apply (only_links _ _ _ _ _ Ho1); [|done]. intros b v Hin. apply Hlo in Hin. lia. }
  { split_and!; [done..|]. apply (only_links _ _ _ _ _ Ho1); [|done]. intros b v Hin. apply Hhi' in Hin. lia. }
  assert (∀ a u, (a, u, false) ∈ bl' ↔ (a, u, false) ∈ l1 ++ l2) as Hh by (intros a u; rewrite Hh2, !elem_of_app, Hh1; done).
  destruct (Hlo p up) as (Hp & Hpb & Hpu & Hup0); [rewrite EP; apply elem_of_app; right; left|].
  assert (kept (l1 ++ l2) s (set_um m s)) as K1.
  { apply (kept_header _ c); [done|]. intros b u Hin. destruct (tiled_disjoint _ _ _ _ _ _ _ b u false Ht Hin); lia. }
  assert (∀ a u, (a, u, false) ∈ l1 ++ l2 → p + 8 <= a ∨ a + 8 * u <= p) as Hph.
  { intros a u Hin. apply (ring_not_held _ _ p up a u Ht).
    - rewrite ring_app, EP. apply elem_of_app. left. apply elem_of_app. right. left.
    - apply elem_of_app in Hin as [?|?]; apply elem_of_app; [by left|right; by right]. }
  exists (set_freep p (set_um m2 s)), bl'. split_and!; try done.
  - unfold free. unfold HDR. replace (c + 8 - 8) with c by lia. unfold KERNBASE in Hk. rewrite u32_small by (unfold is_u32; lia).
    rewrite (free_find_spec s l1 l2 c ub P0 p up H EP). cbn [mbind outcome_bind]. unfold h_ptr, h_size. rewrite (ldw_ok s p) by lia. cbn [mbind outcome_bind].
    rewrite EP in HlP. apply links_snoc in HlP as (_ & Hnx & Hup). rewrite Hnx, (ldw_ok s (c + 4)) by lia. cbn [mbind outcome_bind]. rewrite Hsz. unfold h_ptr, h_size in E1. rewrite E1. cbn [mbind outcome_bind].
    rewrite (ldw_ok _ (p + 4)) by (cbn; lia). cbn [mbind outcome_bind]. cbn [um set_um]. rewrite (only_load _ _ _ _ Ho1) by lia. rewrite Hup. unfold h_ptr, h_size in E2. cbn [um set_um] in E2. rewrite E2. done.
  - split; cbn; try done. intros a u Hin%Hh. assert (1 <= u) by (apply Hh, (tiled_in _ _ _ _ _ _ Htb) in Hin; lia). rewrite (only_load _ _ _ _ Ho2); cbn [um set_um].
    + rewrite (only_load _ _ _ _ Ho1).
      * apply (hp_held _ _ H). apply elem_of_app in Hin as [?|?]; apply elem_of_app; [by left|right; by right].
      * destruct (tiled_disjoint _ _ _ _ _ _ _ a u false Ht Hin); lia.
    + destruct (Hph a u Hin); lia.
  - apply (kept_trans _ _ _ _ K1). intros a u x Hin Hx. cbn [um set_freep set_um]. apply Ho2. destruct (Hph a u Hin); lia.
  - etrans; [exact Hn2|]. by apply Nat.add_le_mono_l, le_n_S.
  - destruct Hbig as (a & u & Hin & ?). exists a, u. split; [done|lia].
Qed.

(** ** Taking a block *)

Lemma only_size p v m : only_header p m (store32 m (p + 4) v).
Proof. intros x Hx. rewrite getb_store32_ne by lia. done. Qed.

Lemma take_split s l1 p u l2 z uz A n : heap_ok s (l1 ++ (p, u, true) :: l2) → ring l1 = A ++ [(z, uz)] → 1 <= n < u →
  ∃ s' q, take_block s z p u n = Ok (q + 8, s') ∧ heap_ok s' (l1 ++ (p, u - n, true) :: (q, n, false) :: l2) ∧ brk s' = brk s ∧ kept (l1 ++ l2) s s'.
Proof using Hbase Hh0.
  intros H EP Hn. pose proof (hp_tiled _ _ H) as Ht. pose proof (hp_brk _ _ H) as Hk. unfold KERNBASE in Hk. destruct (split_bounds _ _ _ _ _ _ Ht) as (Hb & Hu & He & Hlo & Hhi).
  pose proof (hp_ring _ _ H) as Hr. rewrite ring_app in Hr. change (frees ((p, u, true) :: l2)) with ((p, u) :: frees l2) in Hr. apply links_app in Hr as (Hr1 & L1 & L2 & Hr2).
  set (q := p + 8 * (u - n)). set (m1 := store32 (um s) (p + 4) (u - n)). set (m2 := store32 m1 (q + 4) n).
  pose proof (only_size p (u - n) (um s)) as O1. fold m1 in O1. pose proof (only_size q n m1) as O2. fold m2 in O2.
  exists (set_freep z (set_um m2 s)), q. split_and!.
  - unfold take_block. replace (u =? n) with false by lia. unfold set_size. rewrite stw_ok by lia. cbn [mbind outcome_bind]. rewrite u32_small by (unfold is_u32; lia).
    rewrite hplus_small by lia. fold q. rewrite stw_ok by (cbn; lia). cbn [mbind outcome_bind]. fold m1. cbn [um set_um]. rewrite hplus_small by lia. done.
  - split; cbn [brk um freep set_freep set_um]; [|done|..].
    + apply tiled_app in Ht as (c & Ht1 & -> & _ & Ht2). apply tiled_app. exists c. split; [done|]. cbn [tiled]. split_and!; [done|lia|done|lia|]. unfold q. by replace (c + 8 * (u - n) + 8 * n) with (c + 8 * u) by lia.
    + apply hp_coal, coalesced_app in H as (C1 & C2 & C3). apply coalesced_app. split_and!; [done| |].
      * destruct l2 as [|[[y uy] fy] l2]; [done|]. cbn [coalesced] in C2 |- *. tauto.
      * intros a v b w Hla [= <- <-]. by eapply C3.
    + rewrite ring_app. change (frees _) with ((p, u - n) :: frees l2). apply links_app. split; [|cbn [links]; split_and!].
      * apply (only_links _ _ _ _ _ O2); [intros b v Hin; apply Hlo in Hin; lia|]. apply (only_links _ _ _ _ _ O1); [intros b v Hin; apply Hlo in Hin; lia|]. done.
      * rewrite (only_load _ _ _ _ O2) by lia. unfold m1. by rewrite load32_store32_ne by lia.
      * rewrite (only_load _ _ _ _ O2) by lia. unfold m1. rewrite load32_store32; [done|unfold is_u32; lia].
      * apply (only_links _ _ _ _ _ O2); [intros b v Hin; apply Hhi in Hin; lia|]. apply (only_links _ _ _ _ _ O1); [intros b v Hin; apply Hhi in Hin; lia|]. done.
    + intros a v Hin. assert ((a, v) = (q, n) ∨ (a, v, false) ∈ l1 ++ l2) as [[= -> ->]|Hin'].
      { apply elem_of_app in Hin as [?|[[=]|[[= -> ->]|?]%elem_of_cons]%elem_of_cons]; [right; apply elem_of_app; by left|by left|right; apply elem_of_app; by right]. }
      * unfold m2. rewrite load32_store32; [done|unfold is_u32; lia].
      * assert (1 <= v) as Hv. { apply tiled_app in Ht as (c & Ht1 & -> & _ & Ht2). apply elem_of_app in Hin' as [Hi|Hi]; [apply (tiled_in _ _ _ _ _ _ Ht1) in Hi|apply (tiled_in _ _ _ _ _ _ Ht2) in Hi]; lia. }
        destruct (tiled_disjoint _ _ _ _ _ _ _ _ _ _ Ht Hin'); rewrite (only_load _ _ _ _ O2), (only_load _ _ _ _ O1) by lia; apply (hp_held _ _ H); apply elem_of_app in Hin' as [?|?]; apply elem_of_app; auto; right; by right.
    + rewrite ring_app, EP, !fmap_app. apply elem_of_app. left. apply elem_of_app. right. left.
  - done.
  - intros a v x Hin Hx. cbn [um set_freep set_um]. destruct (tiled_disjoint _ _ _ _ _ _ _ _ _ _ Ht Hin); rewrite (O2 x), (O1 x) by lia; done.
Qed.
Lemma take_exact s l1 p u l2 z uz A : heap_ok s (l1 ++ (p, u, true) :: l2) → ring l1 = A ++ [(z, uz)] →
  ∃ s', take_block s z p u u = Ok (p + 8, s') ∧ heap_ok s' (l1 ++ (p, u, false) :: l2) ∧ brk s' = brk s ∧ kept (l1 ++ l2) s s'.
Proof using Hbase Hh0.
  intros H EP. pose proof (hp_tiled _ _ H) as Ht. pose proof (hp_brk _ _ H) as Hk. unfold KERNBASE in Hk. destruct (split_bounds _ _ _ _ _ _ Ht) as (Hb & Hu & He & Hlo & Hhi).
  pose proof (hp_ring _ _ H) as Hr. rewrite ring_app in Hr. change (frees ((p, u, true) :: l2)) with ((p, u) :: frees l2) in Hr. apply links_app in Hr as (Hr1 & L1 & L2 & Hr2).
  destruct (Hlo z uz) as (Hz & Hzb & _); [rewrite EP; apply elem_of_app; right; left|].
  destruct (write_ptr s z (load32 (um s) p)) as (m & E & O & M1 & M2); [lia|apply load32_range|].
  assert (∀ a v, (a, v, false) ∈ l1 ++ l2 → z + 8 <= a ∨ a + 8 * v <= z) as Hzh.
  { intros a v Hin. apply (ring_not_held _ _ z uz a v Ht).
    - rewrite ring_app, EP. apply elem_of_app. left. apply elem_of_app. right. left.
    - apply elem_of_app in Hin as [?|?]; apply elem_of_app; [by left|right; by right]. }
  exists (set_freep z (set_um m s)). split_and!.
  - unfold take_block. rewrite Z.eqb_refl. unfold h_ptr. rewrite ldw_ok by lia. cbn [mbind outcome_bind]. rewrite E. cbn [mbind outcome_bind]. rewrite hplus_small by lia. done.
  - split; cbn [brk um freep set_freep set_um]; [|done|..].
    + apply tiled_app in Ht as (c & Ht1 & -> & _ & Ht2). apply tiled_app. exists c. done.
    + apply hp_coal, coalesced_app in H as (C1 & C2 & C3). apply coalesced_app. split_and!; [done| |].
      * destruct l2 as [|[[y uy] fy] l2]; [done|]. cbn [coalesced] in C2 |- *. tauto.
      * by intros a v b w Hla [=].
    + rewrite ring_app. change (frees _) with (frees l2). apply links_app. split.
      * rewrite EP in Hr1 |- *. apply links_snoc in Hr1 as (H1 & H2 & H3). apply links_snoc. split_and!; [|by rewrite M1|by rewrite M2].
        apply (only_links _ _ _ _ _ O); [|done]. intros b v Hin. left. apply (ring_before _ _ A z uz ((p, u) :: frees l2) Ht) with v; [|done]. by rewrite ring_app, EP, <- app_assoc.
      * apply (only_links _ _ _ _ _ O); [|done]. intros b v Hin. apply Hhi in Hin. lia.
    + intros a v Hin. assert ((a, v) = (p, u) ∨ (a, v, false) ∈ l1 ++ l2) as [[= -> ->]|Hin'].
      { apply elem_of_app in Hin as [?|[[= -> ->]|?]%elem_of_cons]; [right; apply elem_of_app; by left|by left|right; apply elem_of_app; by right]. }
      * rewrite (only_load _ _ _ _ O) by lia. done.
      * assert (1 <= v) as Hv. { apply tiled_app in Ht as (c & Ht1 & -> & _ & Ht2). apply elem_of_app in Hin' as [Hi|Hi]; [apply (tiled_in _ _ _ _ _ _ Ht1) in Hi|apply (tiled_in _ _ _ _ _ _ Ht2) in Hi]; lia. }
        destruct (Hzh a v Hin'); rewrite (only_load _ _ _ _ O) by lia; apply (hp_held _ _ H); apply elem_of_app in Hin' as [?|?]; apply elem_of_app; auto; right; by right.
    + rewrite ring_app, EP, !fmap_app. apply elem_of_app. left. apply elem_of_app. right. left.
  - done.
  - intros a v x Hin Hx. cbn [um set_freep set_um]. destruct (Hzh a v Hin); rewrite (O x) by lia; done.
Qed.

(** Either way: [n] units of a free block become a block that is held. *)
Definition taken (bl bl' : list block) (q n : Z) : Prop :=
  (∀ a u, (a, u, false) ∈ bl' ↔ (a, u, false) ∈ bl ∨ (a, u) = (q, n)) ∧ (∀ u, (q, u, false) ∉ bl).

Lemma take_spec s bl A z uz p u B n : heap_ok s bl → ring bl = A ++ (z, uz) :: (p, u) :: B → 1 <= n <= u →
  ∃ s' bl' q, take_block s z p u n = Ok (q + 8, s') ∧ heap_ok s' bl' ∧ brk s' = brk s ∧ kept bl s s' ∧ taken bl bl' q n.
Proof using Hbase Hh0.
  intros H E Hn. assert (∃ l1 l2, bl = l1 ++ (p, u, true) :: l2 ∧ ring l1 = A ++ [(z, uz)]) as (l1 & l2 & -> & EP).
  { destruct A as [|x A]; injection E.
    - intros E1 <- <-. change ((p, u) :: B) with ([] ++ (p, u) :: B) in E1. apply frees_split in E1 as (l1 & l2 & -> & El & _). exists l1, l2. split; [done|]. unfold ring. by rewrite El.
    - intros E1 <-. change (A ++ (z, uz) :: (p, u) :: B) with (A ++ [(z, uz)] ++ (p, u) :: B) in E1. rewrite app_assoc in E1. apply frees_split in E1 as (l1 & l2 & -> & El & _). exists l1, l2. split; [done|]. unfold ring. by rewrite El. }
  pose proof (hp_tiled _ _ H) as Ht. assert (∀ a v, (a, v, false) ∈ l1 ++ (p, u, true) :: l2 ↔ (a, v, false) ∈ l1 ++ l2) as Hh.
  { intros a v. rewrite !elem_of_app, elem_of_cons. split; [intros [?|[[=]|?]]|intros [?|?]]; auto. }
  assert (∀ q, p <= q < p + 8 * u → ∀ v, (q, v, false) ∉ l1 ++ (p, u, true) :: l2) as Hfresh.
  { intros q Hq v Hin. pose proof (tiled_in _ _ _ _ _ _ Ht Hin). apply Hh in Hin. destruct (tiled_disjoint _ _ _ _ _ _ _ _ _ _ Ht Hin); lia. }
  destruct (decide (u = n)) as [->|Hne].
  - destruct (take_exact s l1 p n l2 z uz A H EP) as (s' & Et & H' & Eb & K). exists s', (l1 ++ (p, n, false) :: l2), p. split_and!; try done.
    + intros a v x Hin. apply K. by apply Hh.
    + split; [|apply Hfresh; lia]. intros a v. rewrite Hh, !elem_of_app, elem_of_cons. split; [intros [?|[[=]|?]]|intros [[?|?]|[=]]]; subst; auto.
  - destruct (take_split s l1 p u l2 z uz A n H EP) as (s' & q & Et & H' & Eb & K); [lia|]. exists s', (l1 ++ (p, u - n, true) :: (q, n, false) :: l2), q. split_and!; try done.
    + intros a v x Hin. apply K. by apply Hh.
    + split; [intros a v; rewrite Hh, !elem_of_app, !elem_of_cons; split; [intros [?|[[=]|[[=]|?]]]|intros [[?|?]|[=]]]; subst; auto|].
      apply Hfresh. pose proof (hp_tiled _ _ H') as Ht'. apply tiled_app in Ht' as (c & _ & -> & ? & -> & ? & _). lia.
Qed.
End heap.
