(* ===== verification/UmallocThm.v ===== *)
(** The theorem about the allocator of user programs: any client that keeps to what it was given is served correctly. *)

From Stdlib Require Import ZArith Lia.
From stdpp Require Import base numbers list gmap.
From S2P Require Import Prelude Mem Mmu Umalloc UmallocSpec.
#[local] Open Scope Z_scope.

Section malloc.
Context (base h0 : Z) (Hbase : 0 < base) (Hh0 : base + 8 <= h0).
#[local] Abbreviation ring := (ring base).
#[local] Abbreviation heap_ok := (heap_ok base h0).

Lemma ring_le s bl a u : heap_ok s bl → (a, u) ∈ ring bl → a + 8 <= brk s.
Proof using Hh0. intros H Hin. by destruct (ring_bound base h0 Hh0 s bl a u H Hin) as (_ & ? & _). Qed.

(** * Looking for a block *)

Section walk.
Context (grant : Z → Z → bool) (s : ust) (bl : list block) (n : Z) (H : heap_ok s bl) (Hn : 1 <= n).

(** What happens after a full turn. *)
Definition grow (k : nat) : outcome (Z * ust) :=
  '(p, s) ← morecore grant s n; if p =? 0 then Ok (0, s) else malloc_loop grant s n p k.

Lemma loop_step A z uz B k : ring bl = A ++ (z, uz) :: B →
  malloc_loop grant s n z (S k) = (let '(p, u) := default (base, 0) (head B) in if n <=? u then take_block s z p u n else if p =? freep s then grow k else malloc_loop grant s n p k).
Proof using Hh0 H.
  intros E. pose proof (hp_ring _ _ _ _ H) as Hr. rewrite E in Hr. pose proof (links_at _ _ _ _ _ _ Hr) as [Hz _]. cbn [malloc_loop]. unfold h_ptr, h_size.
  rewrite (ldw_ok s z) by (assert (z + 8 <= brk s) by (apply (ring_le _ bl z uz H); rewrite E; apply elem_of_app; right; left); lia). cbn [mbind outcome_bind]. rewrite Hz.
  assert (load32 (um s) (base + 4) = 0) as Hb0 by (pose proof (hp_ring _ _ _ _ H) as (_ & ? & _); done).
  assert (base + 8 <= brk s) by (apply (ring_le _ bl base 0 H); left). destruct B as [|[p u] B]; cbn [hda head from_option id].
  - rewrite (ldw_ok s (base + 4)) by lia. cbn [mbind outcome_bind]. by rewrite Hb0.
  - assert ((p, u) ∈ ring bl) as Hin by (rewrite E; apply elem_of_app; right; right; left). apply (ring_le _ bl p u H) in Hin as Hp.
    rewrite (ldw_ok s (p + 4)) by lia. cbn [mbind outcome_bind]. by rewrite (links_in _ _ _ p u (hp_ring _ _ _ _ H) Hin).
Qed.

Definition found (r : outcome (Z * ust)) : Prop := ∃ A z uz p u B, ring bl = A ++ (z, uz) :: (p, u) :: B ∧ n <= u ∧ r = take_block s z p u n.
Definition small (x : Z * Z) : Prop := x.2 < n.

Lemma walk_to B : ∀ A z uz C k, ring bl = A ++ (z, uz) :: B ++ C → freep s ∉ B.*1 →
  found (malloc_loop grant s n z (length B + k)) ∨
  Forall small B ∧ ∃ D y uy, ring bl = D ++ (y, uy) :: C ∧ malloc_loop grant s n z (length B + k) = malloc_loop grant s n y k.
Proof using Hh0 H.
  induction B as [|[p u] B IH]; intros A z uz C k E Hf; [right; split; [done|]; by exists A, z, uz|].
  cbn [length Nat.add]. rewrite (loop_step A z uz (((p, u) :: B) ++ C)) by done. cbn [head from_option id app]. destruct (Z.leb_spec n u) as [Hu|Hu].
  - left. by exists A, z, uz, p, u, (B ++ C).
  - cbn [fmap list_fmap] in Hf. apply not_elem_of_cons in Hf as [Hf1 Hf2]. cbn in Hf1. replace (p =? freep s) with false by lia.
    destruct (IH (A ++ [(z, uz)]) p u C k) as [Hfo|[Hs HD]]; [by rewrite E, <- app_assoc|done|by left|right]. split; [by constructor|done].
Qed.

Lemma ring_nodup A p u B : ring bl = A ++ (p, u) :: B → (p ∉ A.*1) ∧ (p ∉ B.*1).
Proof using Hh0 H.
  intros E. pose proof (hp_tiled _ _ _ _ H) as Ht. split; intros ([a v] & -> & Hin)%list_elem_of_fmap; cbn in *.
  - pose proof (ring_before base h0 Hh0 _ _ _ _ _ _ Ht E a v Hin). lia.
  - apply list_elem_of_split in Hin as (B1 & B2 & ->). rewrite app_comm_cons, app_assoc in E.
    assert (a + 8 <= a); [|lia]. apply (ring_before base h0 Hh0 _ _ _ _ _ _ Ht E a u). apply elem_of_app. right. left.
Qed.

Lemma walk k : found (malloc_loop grant s n (freep s) (length (ring bl) + k)) ∨
  Forall small (ring bl) ∧ malloc_loop grant s n (freep s) (length (ring bl) + k) = grow k.
Proof using Hh0 H Hn.
  pose proof (hp_freep _ _ _ _ H) as Hf. apply list_elem_of_fmap in Hf as ([f uf] & Ef & Hin). cbn in Ef. rewrite Ef. apply list_elem_of_split in Hin as (F1 & F2 & E).
  destruct (ring_nodup _ _ _ _ E) as [N1 N2]. destruct F1 as [|x F1]; cbn [app] in E.
  - assert (f = base ∧ uf = 0) as [-> ->] by (unfold UmallocSpec.ring in E; by injection E as <- <-). replace (length (ring bl) + k)%nat with (length F2 + S k)%nat by (rewrite E; cbn; lia).
    destruct (walk_to F2 [] base 0 [] (S k)) as [Hfo|(Hs & D & y & uy & ED & ->)]; [by rewrite app_nil_r|by rewrite Ef|by left|right].
    rewrite E. split; [constructor; [unfold small; cbn; lia|done]|]. rewrite (loop_step D y uy []) by done. cbn [head from_option id]. replace (n <=? 0) with false by lia. by rewrite Ef, Z.eqb_refl.
  - assert (x = (base, 0)) as -> by (unfold UmallocSpec.ring in E; by injection E as <-). replace (length (ring bl) + k)%nat with (length F2 + S (length F1 + S k))%nat by (rewrite E; cbn; rewrite length_app; cbn; lia).
    cbn in N1. apply not_elem_of_cons in N1 as [Nb N1].
    destruct (walk_to F2 ((base, 0) :: F1) f uf [] (S (length F1 + S k))) as [Hfo|(Hs & D & y & uy & ED & ->)]; [by rewrite app_nil_r|by rewrite Ef|by left|].
    rewrite (loop_step D y uy []) by done. cbn [head from_option id]. replace (n <=? 0) with false by lia. replace (base =? freep s) with false by lia.
    destruct (walk_to F1 [] base 0 ((f, uf) :: F2) (S k)) as [Hfo|(Hs' & D' & y' & uy' & ED' & ->)]; [done|by rewrite Ef|by left|].
    rewrite (loop_step D' y' uy' ((f, uf) :: F2)) by done. cbn [head from_option id]. destruct (Z.leb_spec n uf) as [Hu|Hu].
    + left. by exists D', y', uy', f, uf, F2.
    + right. rewrite Ef, Z.eqb_refl. split; [|done]. rewrite E. constructor; [unfold small; cbn; lia|]. apply Forall_app. split; [done|by constructor].
Qed.
End walk.

(** * Growing the heap *)

(** What [morecore] asks for. *)
Definition core (n : Z) : Z := 8 * Z.max n 4096.
Definition refused (grant : Z → Z → bool) (s : ust) (n : Z) : Prop := KERNBASE <= brk s + core n ∨ grant (brk s) (brk s + core n) = false.

Definition same_held (bl bl' : list block) : Prop := ∀ a u, (a, u, false) ∈ bl' ↔ (a, u, false) ∈ bl.

Lemma grown_ok s bl nu : heap_ok s bl → 1 <= nu → brk s + 8 * nu < KERNBASE →
  heap_ok (set_um (store32 (um s) (brk s + 4) nu) (set_brk (brk s + 8 * nu) s)) (bl ++ [(brk s, nu, false)]).
Proof using Hbase Hh0.
  intros H Hnu Hk. pose proof (hp_tiled _ _ _ _ H) as Ht. pose proof (tiled_le _ _ _ Ht). unfold KERNBASE in Hk. split; cbn [brk um freep set_um set_brk].
  - apply tiled_app. exists (brk s). split; [done|]. split_and!; done.
  - done.
  - apply coalesced_app. split_and!; [apply H|done|]. by intros ? ? ? ? _ [=].
  - rewrite ring_app. cbn [frees mbind list_bind free_of app]. rewrite app_nil_r. apply links_frame; [|apply H]. intros a u Hin. pose proof (ring_le _ _ _ _ H Hin). lia.
  - intros a u Hin. apply elem_of_app in Hin as [Hin|[= -> ->]%list_elem_of_singleton]; [|rewrite load32_store32; [done|unfold is_u32; lia]].
    pose proof (tiled_in _ _ _ _ _ _ Ht Hin). rewrite load32_store32_ne by lia. by apply H.
  - rewrite ring_app, fmap_app. apply elem_of_app. left. apply H.
Qed.

Lemma morecore_spec grant s bl n : heap_ok s bl → 1 <= n → 8 * n < 2 ^ 31 →
  refused grant s n ∧ morecore grant s n = Ok (0, s) ∨
  ∃ s' bl', morecore grant s n = Ok (freep s', s') ∧ heap_ok s' bl' ∧ brk s' = brk s + core n ∧ kept bl s s' ∧ same_held bl bl' ∧ (length bl' ≤ S (length bl))%nat ∧ ∃ a u, (a, u) ∈ frees bl' ∧ n <= u.
Proof using Hbase Hh0.
  intros H Hn Hn2. pose proof (hp_brk _ _ _ _ H) as Hk. pose proof (tiled_le _ _ _ (hp_tiled _ _ _ _ H)) as Hle. unfold morecore, refused.
  set (nu := if n <? 4096 then 4096 else n). assert (core n = 8 * nu) as Ec by (unfold core, nu; destruct (Z.ltb_spec n 4096); lia). assert (n <= nu /\ 4096 <= nu /\ 8 * nu < 2 ^ 31) as (Hnu & Hnu1 & Hnu2) by (unfold nu; destruct (Z.ltb_spec n 4096); lia).
  clearbody nu. rewrite Ec. unfold HDR, KERNBASE in *. rewrite s32_small by lia. unfold sbrk. replace (nu * 8 =? 0) with false by lia. replace (0 <? nu * 8) with true by lia.
  rewrite u32_small by (unfold is_u32; lia). replace (brk s + nu * 8) with (brk s + 8 * nu) by lia. unfold KERNBASE. destruct (Z.leb_spec 2147483648 (brk s + 8 * nu)) as [Hr|Hr]; [left; split; [by left|done]|].
  replace (brk s + 8 * nu <? brk s) with false by lia. destruct (grant (brk s) (brk s + 8 * nu)) eqn:Eg; [|left; split; [by right|done]]. replace (brk s + 8 * nu =? 0) with false by lia.
  replace (brk s =? -1) with false by lia. unfold set_size. rewrite stw_ok by (cbn; lia). cbn [mbind outcome_bind].
  pose proof (grown_ok s bl nu H ltac:(lia) Hr) as Hg. rewrite hplus_small by lia. replace (brk s + 8 * 1) with (brk s + 8) by lia.
  destruct (free_spec base h0 Hbase Hh0 _ bl (brk s) nu [] Hg) as (s' & bl' & E & H' & Eb & K & Hh & Hlen & a & u & Hin & Hu). cbn [um set_brk] in E. cbn [um set_brk]. rewrite E. cbn [mbind outcome_bind]. right. exists s', bl'.
  rewrite app_nil_r in K, Hh. split_and!; try done.
  - intros b v x Hb Hx. rewrite (K b v x Hb Hx). cbn [um set_um]. rewrite getb_store32_ne; [done|]. pose proof (tiled_in _ _ _ _ _ _ (hp_tiled _ _ _ _ H) Hb). lia.
  - cbn [length] in Hlen. lia.
  - exists a, u. split; [done|lia].
Qed.

(** * Allocating *)

Lemma freep_pos s bl : heap_ok s bl → (freep s =? 0) = false.
Proof using Hbase Hh0. intros H. pose proof (hp_freep _ _ _ _ H) as ([a u] & -> & Hin)%list_elem_of_fmap. destruct (ring_bound base h0 Hh0 s bl a u H Hin). cbn. lia. Qed.

Definition no_room (bl : list block) (n : Z) : Prop := ∀ a u, (a, u) ∈ frees bl → u < n.

Lemma malloc_loop_spec grant s bl n : heap_ok s bl → 1 <= n → 8 * n < 2 ^ 31 →
  (malloc_loop grant s n (freep s) (2 * ring_fuel s) = Ok (0, s) ∧ refused grant s n ∧ no_room bl n) ∨
  ∃ s' bl' q, malloc_loop grant s n (freep s) (2 * ring_fuel s) = Ok (q + 8, s') ∧ heap_ok s' bl' ∧ kept bl s s' ∧ taken bl bl' q n.
Proof using Hbase Hh0.
  intros H Hn Hn2. pose proof (length_ring base h0 Hbase Hh0 s bl H) as [Hl0 Hl]. replace (2 * ring_fuel s)%nat with (length (ring bl) + (2 * ring_fuel s - length (ring bl)))%nat by lia.
  destruct (walk grant s bl n H Hn (2 * ring_fuel s - length (ring bl))) as [(A & z & uz & p & u & B & E & Hu & ->)|[Hs ->]].
  - right. destruct (take_spec base h0 Hbase Hh0 s bl A z uz p u B n H E) as (s' & bl' & q & -> & H' & _ & K & T); [lia|]. by exists s', bl', q.
  - unfold grow. destruct (morecore_spec grant s bl n H Hn Hn2) as [[Hr ->]|(s1 & bl1 & -> & H1 & Eb & K1 & Hh & Hlen & a & u & Hin & Hu)]; cbn [mbind outcome_bind].
    { left. split_and!; [done..|]. intros a u Hin. rewrite Forall_forall in Hs. apply (Hs (a, u)). by right. }
    rewrite (freep_pos s1 bl1 H1). right. destruct (length_ring base h0 Hbase Hh0 s1 bl1 H1) as [Hl1 _].
    assert (∃ k, 2 * ring_fuel s - length (ring bl) = length (ring bl1) + k)%nat as [k ->] by (exists (2 * ring_fuel s - length (ring bl) - length (ring bl1))%nat; lia).
    destruct (walk grant s1 bl1 n H1 Hn k) as [(A & z & uz & p & v & B & E & Hv & ->)|[Hs' _]].
    + destruct (take_spec base h0 Hbase Hh0 s1 bl1 A z uz p v B n H1 E) as (s' & bl' & q & -> & H' & _ & K & T); [lia|]. exists s', bl', q. split_and!; try done.
      * intros b w x Hb Hx. rewrite (K b w x), (K1 b w x); [done..|by apply Hh|done].
      * split; [intros b w; rewrite (proj1 T b w), (Hh b w); done|]. intros w Hw%Hh. by apply (proj2 T) in Hw.
    + exfalso. rewrite Forall_forall in Hs'. assert (u < n); [|lia]. apply (Hs' (a, u)). by right.
Qed.

(** The heap, also before the first call. *)
Definition ready (s : ust) (bl : list block) : Prop := heap_ok s bl ∨ freep s = 0 ∧ brk s = h0 ∧ bl = [] ∧ h0 < KERNBASE.

Definition units (nbytes : Z) : Z := (nbytes + 7) / 8 + 1.

Lemma first_call s : freep s = 0 → brk s = h0 → h0 < KERNBASE →
  ∃ s1, (s ← set_ptr s base base; set_size (set_freep base s) base 0) = Ok s1 ∧ heap_ok s1 [] ∧ brk s1 = h0.
Proof using Hbase Hh0.
  intros Hf Hb Hk. unfold set_ptr, set_size. rewrite stw_ok by lia. cbn [mbind outcome_bind]. rewrite stw_ok by (cbn; lia). eexists. split; [reflexivity|]. unfold KERNBASE in Hk.
  split; [|done]. split; cbn; try done; [by rewrite Hb| |set_solver|left]. split_and!; [|rewrite load32_store32; done|done]. rewrite load32_store32_ne, load32_store32; [done|unfold is_u32; lia|lia].
Qed.

Lemma malloc_spec grant s bl nbytes : ready s bl → 0 <= nbytes < 2 ^ 31 - 15 →
  (∃ s', malloc base grant s nbytes = Ok (0, s') ∧ ready s' bl ∧ brk s' = brk s ∧ kept bl s s' ∧ refused grant s (units nbytes) ∧ no_room bl (units nbytes)) ∨
  ∃ s' bl' q, malloc base grant s nbytes = Ok (q + 8, s') ∧ heap_ok s' bl' ∧ kept bl s s' ∧ taken bl bl' q (units nbytes).
Proof using Hbase Hh0.
  intros HR Hn. assert (1 <= units nbytes ∧ 8 * units nbytes < 2 ^ 31) as [Hu1 Hu2].
  { unfold units. pose proof (Z.mul_div_le (nbytes + 7) 8). pose proof (Z.div_pos (nbytes + 7) 8). lia. }
  unfold malloc, HDR. replace (nbytes + 8 - 1) with (nbytes + 7) by lia. rewrite (u32_small (nbytes + 7)) by (unfold is_u32; lia). fold (units nbytes). rewrite u32_small by (unfold is_u32; lia).
  destruct HR as [H|(Hf & Hb & -> & Hk)].
  - rewrite (freep_pos s bl H). cbn [mbind outcome_bind]. destruct (malloc_loop_spec grant s bl _ H Hu1 Hu2) as [(E & Hr & Hnr)|(s' & bl' & q & E & HT)].
    + left. exists s. split_and!; try done. by left.
    + right. exists s', bl', q. done.
  - rewrite Hf. cbn [Z.eqb]. destruct (first_call s Hf Hb Hk) as (s1 & -> & H1 & Eb). cbn [mbind outcome_bind]. assert (brk s1 = brk s) as Eb' by congruence.
    destruct (malloc_loop_spec grant s1 [] _ H1 Hu1 Hu2) as [(E & Hr & Hnr)|(s' & bl' & q & E & H' & K & T)].
    + left. exists s1. split_and!; try done; [by left|by intros a u x Hin%not_elem_of_nil|]. unfold refused in *. by rewrite <- Eb'.
    + right. exists s', bl', q. split_and!; try done. by intros a u x Hin%not_elem_of_nil.
Qed.

(** When all is free, there is one block. *)
Lemma all_free bl e : tiled h0 bl e → coalesced bl → (∀ a u, (a, u, false) ∉ bl) → bl = [] ∨ bl = [(h0, (e - h0) / 8, true)] ∧ 8 * ((e - h0) / 8) = e - h0.
Proof using.
  intros Ht Hc Hh. destruct bl as [|[[a u] f] bl]; [by left|right]. assert (f = true) as -> by (destruct f; [done|]; exfalso; apply (Hh a u); left).
  destruct bl as [|[[b v] f'] bl].
  - destruct Ht as (-> & Hu & Ht). cbn in Ht. subst e. replace (h0 + 8 * u - h0) with (u * 8) by lia. rewrite Z.div_mul by lia. split; [done|lia].
  - exfalso. cbn [coalesced] in Hc. destruct f'; [destruct Hc; done|]. apply (Hh b v). right. left.
Qed.

(** * Clients *)

(** The blocks that a client holds, with the sizes it asked for. *)
Definition held_ok (bl : list block) (H : gmap Z Z) : Prop :=
  (∀ p n, H !! p = Some n → ∃ u, (p - 8, u, false) ∈ bl ∧ 0 <= n <= 8 * u - 8) ∧ (∀ a u, (a, u, false) ∈ bl → is_Some (H !! (a + 8))).

(** What a client can do: call [malloc], whether the kernel grants memory or not, free what it holds, and write to it. *)
Inductive client : ust → gmap Z Z → Prop :=
| c_init m : client (Ust m 0 h0) ∅
| c_malloc grant s H n p s' : client s H → 0 <= n < 2 ^ 31 - 15 → malloc base grant s n = Ok (p, s') → client s' (if p =? 0 then H else <[p := n]> H)
| c_free s H p n s' : client s H → H !! p = Some n → free s p = Ok s' → client s' (delete p H)
| c_store s H p n i v : client s H → H !! p = Some n → 0 <= i < n → client (set_um (setb (um s) (p + i) v) s) H.

Lemma units_fit n : 0 <= n → n <= 8 * units n - 8.
Proof. intros. unfold units. pose proof (Z.div_mod (n + 7) 8). pose proof (Z.mod_pos_bound (n + 7) 8). lia. Qed.

Lemma held_taken bl bl' H q n : held_ok bl H → taken bl bl' q (units n) → 0 <= n → held_ok bl' (<[q + 8 := n]> H).
Proof using.
  intros [H1 H2] [T1 T2] Hn. split.
  - intros p k [[<- <-]|[Hne Hp]]%lookup_insert_Some.
    + exists (units n). pose proof (units_fit n Hn). replace (q + 8 - 8) with q by lia. split; [apply T1; by right|lia].
    + destruct (H1 p k Hp) as (u & Hin & Hk). exists u. split; [apply T1; by left|done].
  - intros a u [Hin|[= -> ->]]%T1; [|by rewrite lookup_insert_eq]. destruct (decide (q = a)) as [->|]; [by rewrite lookup_insert_eq|]. rewrite lookup_insert_ne by lia. by apply H2 in Hin.
Qed.

Lemma held_freed l1 bp ub l2 bl' H n c e : tiled c (l1 ++ (bp, ub, false) :: l2) e → held_ok (l1 ++ (bp, ub, false) :: l2) H → H !! (bp + 8) = Some n →
  (∀ a u, (a, u, false) ∈ bl' ↔ (a, u, false) ∈ l1 ++ l2) → held_ok bl' (delete (bp + 8) H).
Proof using.
  intros Ht [H1 H2] Hp Hh. assert (∀ u, (bp, u, false) ∉ l1 ++ l2) as Hno.
  { intros u Hin. pose proof (tiled_disjoint _ _ _ _ _ _ _ _ _ _ Ht Hin) as Hd. apply tiled_app in Ht as (d & Ht1 & -> & Hu & Ht2).
    apply elem_of_app in Hin as [Hin|Hin]; [apply (tiled_in _ _ _ _ _ _ Ht1) in Hin|apply (tiled_in _ _ _ _ _ _ Ht2) in Hin]; lia. }
  split.
  - intros p k [Hne Hpk]%lookup_delete_Some. destruct (H1 p k Hpk) as (u & Hin & Hk). exists u. split; [|done]. apply Hh.
    apply elem_of_app in Hin as [?|[[= Ep _]|?]%elem_of_cons]; [apply elem_of_app; by left|lia|apply elem_of_app; by right].
  - intros a u Hin%Hh. rewrite lookup_delete_ne by (intros E; assert (bp = a) as <- by lia; by apply (Hno u)). apply (H2 a u). apply elem_of_app in Hin as [?|?]; apply elem_of_app; [by left|right; by right].
Qed.

Lemma heap_write s bl a u x v : heap_ok s bl → (a, u, false) ∈ bl → a + 8 <= x < a + 8 * u → heap_ok (set_um (setb (um s) x v) s) bl.
Proof using Hh0.
  intros H Hin Hx. pose proof (hp_tiled _ _ _ _ H) as Ht. split; cbn [um brk freep set_um]; try apply H.
  - pose proof (hp_ring _ _ _ _ H) as Hr. assert (∀ b w, (b, w) ∈ ring bl → b + 8 <= x ∨ x < b) as Hd.
    { intros b w Hb. destruct (ring_not_held base h0 Hh0 _ _ b w a u Ht Hb Hin); lia. }
    clear -Hr Hd. revert Hr Hd. generalize (ring bl) as l. intros l. induction l as [|[b w] l IH]; [done|]. intros (L1 & L2 & L3) Hd.
    assert (b + 8 <= x ∨ x < b) by (apply (Hd b w); left). cbn [links]. rewrite !load32_setb_ne by lia. split_and!; [done..|]. apply IH; [done|]. intros c y Hc. apply (Hd c y). by right.
  - intros b w Hb. rewrite load32_setb_ne; [by apply H|]. intros Hbx. apply list_elem_of_split in Hin as (l1 & l2 & ->). pose proof (tiled_in _ _ _ _ _ _ Ht Hb).
    apply elem_of_app in Hb as [Hb|[[= -> ->]|Hb]%elem_of_cons]; [|lia|]; (destruct (tiled_disjoint _ _ _ _ _ _ _ b w false Ht); [apply elem_of_app; auto|lia..]).
Qed.

Lemma client_ok s H : h0 < KERNBASE → client s H → ∃ bl, ready s bl ∧ held_ok bl H.
Proof using Hbase Hh0.
  intros Hk Hc. induction Hc as [m|grant s H n p s' Hc (bl & HR & HH) Hn E|s H p n s' Hc (bl & HR & HH) Hp E|s H p n i v Hc (bl & HR & HH) Hp Hi].
  - exists []. split; [by right|]. split; [by intros p n Hp%lookup_empty_Some|by intros a u Hin%not_elem_of_nil].
  - destruct (malloc_spec grant s bl n HR Hn) as [(s1 & E1 & HR' & _)|(s1 & bl' & q & E1 & H' & K & T)]; rewrite E1 in E; injection E as <- <-.
    + by exists bl.
    + exists bl'. split; [by left|]. pose proof (hp_tiled _ _ _ _ H') as Ht. assert ((q, units n, false) ∈ bl') as Hq by (apply (proj1 T); by right).
      apply (tiled_in _ _ _ _ _ _ Ht) in Hq. replace (q + 8 =? 0) with false by lia. apply held_taken with bl; [done..|lia].
  - destruct (proj1 HH p n Hp) as (u & Hin & Hk'). destruct HR as [HO|(_ & _ & -> & _)]; [|by apply not_elem_of_nil in Hin]. apply list_elem_of_split in Hin as (l1 & l2 & ->).
    destruct (free_spec base h0 Hbase Hh0 s l1 (p - 8) u l2 HO) as (s1 & bl' & E1 & H' & _ & _ & Hh & _). replace (p - 8 + 8) with p in E1 by lia. rewrite E1 in E. injection E as <-.
    exists bl'. split; [by left|]. replace (delete p H) with (delete (p - 8 + 8) H) by (f_equal; lia). eapply held_freed; [apply HO|done| |done]. by replace (p - 8 + 8) with p by lia.
  - destruct (proj1 HH p n Hp) as (u & Hin & Hk'). destruct HR as [HO|(_ & _ & -> & _)]; [|by apply not_elem_of_nil in Hin]. exists bl. split; [|done]. left. apply (heap_write s bl (p - 8) u); [done..|lia].
Qed.

Lemma kept_held bl s s' H : held_ok bl H → kept bl s s' → ∀ q k x, H !! q = Some k → q <= x < q + k → getb (um s') x = getb (um s) x.
Proof using. intros HH K q k x Hq Hx. destruct (proj1 HH q k Hq) as (u & Hin & Hk). apply (K _ _ x Hin). lia. Qed.

(** Two blocks that are held. *)
Lemma held_apart bl e H p n q k : tiled h0 bl e → held_ok bl H → H !! p = Some n → H !! q = Some k → p ≠ q → p + n <= q ∨ q + k <= p.
Proof using.
  intros Ht HH Hp Hq Hne. destruct (proj1 HH p n Hp) as (u & Hin & Hu). destruct (proj1 HH q k Hq) as (w & Hiq & Hw). apply list_elem_of_split in Hin as (l1 & l2 & ->).
  apply elem_of_app in Hiq as [Hiq|[[= ? ?]|Hiq]%elem_of_cons]; [|lia|]; (destruct (tiled_disjoint _ _ _ _ _ _ _ (q - 8) w false Ht); [apply elem_of_app; auto|lia..]).
Qed.
End malloc.

(** C31. The allocator serves every client.  Whatever sequence of [malloc], [free] of a block that it holds, and writes into such blocks a client has made, and whenever the
    kernel grants memory or refuses it: [malloc] of less than 2 GiB returns, without an access outside of the memory of the process, a block inside the heap, of at least the size asked for and apart
    from every block that is held, or 0, and that only when the kernel refuses the memory; neither [malloc] nor [free] changes a byte of a
    block that stays held; and when nothing is held, the whole heap is one block again, so nothing is lost to fragmentation. *)
Theorem malloc_serves_clients base h0 s H : 0 < base → base + 8 <= h0 < KERNBASE → client base h0 s H →
  (∀ grant n, 0 <= n < 2 ^ 31 - 15 → ∃ p s', malloc base grant s n = Ok (p, s') ∧ (∀ q k x, H !! q = Some k → q <= x < q + k → getb (um s') x = getb (um s) x) ∧
     (p = 0 ∧ brk s' = brk s ∧ refused grant s (units n) ∨
      h0 + 8 <= p ∧ p + n <= brk s' < KERNBASE ∧ ∀ q k, H !! q = Some k → p ≠ q ∧ (p + n <= q ∨ q + k <= p))) ∧
  (∀ p n, H !! p = Some n → ∃ s', free s p = Ok s' ∧ ∀ q k x, q ≠ p → H !! q = Some k → q <= x < q + k → getb (um s') x = getb (um s) x) ∧
  (H = ∅ → ∀ n, 0 <= n → h0 + n + 8 <= brk s → ∃ p s', malloc base (λ _ _, false) s n = Ok (p, s') ∧ p ≠ 0).
Proof.
  intros Hb [Hh Hk] Hc. destruct (client_ok base h0 Hb Hh s H Hk Hc) as (bl & HR & HH). split_and!.
  - intros grant n Hn. destruct (malloc_spec base h0 Hb Hh grant s bl n HR Hn) as [(s' & E & _ & Eb & K & Hr & _)|(s' & bl' & q & E & H' & K & T)].
    + exists 0, s'. split_and!; [done|by apply (kept_held bl)|by left].
    + exists (q + 8), s'. split_and!; [done|by apply (kept_held bl)|right]. pose proof (hp_tiled _ _ _ _ H') as Ht. assert ((q, units n, false) ∈ bl') as Hq by (apply (proj1 T); by right).
      apply (tiled_in _ _ _ _ _ _ Ht) in Hq. pose proof (units_fit n ltac:(lia)). pose proof (hp_brk _ _ _ _ H'). split_and!; [lia..|]. intros p k Hp. assert (q + 8 ≠ p) as Hne.
      { intros <-. destruct (proj1 HH _ _ Hp) as (u & Hin & _). apply (proj2 T u). by replace (q + 8 - 8) with q in Hin by lia. }
      split; [done|]. apply (held_apart h0 bl' _ (<[q + 8 := n]> H) (q + 8) n p k Ht); [by apply held_taken with bl; [..|lia]|by rewrite lookup_insert_eq|by rewrite lookup_insert_ne|done].
  - intros p n Hp. destruct (proj1 HH p n Hp) as (u & Hin & Hu). destruct HR as [HO|(_ & _ & -> & _)]; [|by apply not_elem_of_nil in Hin]. apply list_elem_of_split in Hin as (l1 & l2 & ->).
    destruct (free_spec base h0 Hb Hh s l1 (p - 8) u l2 HO) as (s1 & bl' & E1 & _ & _ & K & _). replace (p - 8 + 8) with p in E1 by lia. exists s1. split; [done|]. intros q k x Hne Hq Hx.
    destruct (proj1 HH q k Hq) as (w & Hin & Hw). apply (K (q - 8) w x); [|lia]. apply elem_of_app in Hin as [?|[[= ? ?]|?]%elem_of_cons]; [apply elem_of_app; by left|lia|apply elem_of_app; by right].
  - intros -> n Hn Hbrk. destruct HR as [HO|(_ & Eb & _)]; [|lia]. pose proof (hp_tiled _ _ _ _ HO) as Ht. pose proof (hp_brk _ _ _ _ HO) as HK. unfold KERNBASE in HK.
    destruct (malloc_spec base h0 Hb Hh (λ _ _, false) s bl n) as [(s' & E & _ & _ & _ & _ & Hnr)|(s' & bl' & q & E & H' & _ & T)]; [by left|lia| |].
    + exfalso. destruct (all_free h0 bl (brk s) Ht (hp_coal _ _ _ _ HO)) as [->|[-> Hd]].
      * intros a u Hin. apply (proj2 HH) in Hin as [? []%lookup_empty_Some].
      * cbn in Ht. lia.
      * assert ((brk s - h0) / 8 < units n) as Hlt by (apply (Hnr h0); left). unfold units in Hlt. pose proof (Z.mul_div_le (n + 7) 8). lia.
    + exists (q + 8), s'. split; [done|]. assert ((q, units n, false) ∈ bl') as Hq by (apply (proj1 T); by right). apply (tiled_in _ _ _ _ _ _ (hp_tiled _ _ _ _ H')) in Hq. lia.
Qed.

(** C31 after an allocation, a write and a free in a process of three pages. *)
Lemma malloc_serves_clients_witness : ∃ s, client x_base 12288 s {[44936 := 5]} ∧ ∃ p s', malloc x_base (λ _ _, false) s 100 = Ok (p, s') ∧ getb (um s') 44938 = 7.
Proof.
  destruct (malloc x_base (λ _ _, true) x_ust 100) as [[p1 s1]| | |] eqn:E1; try (exfalso; vm_compute in E1; congruence).
  destruct (malloc x_base (λ _ _, true) s1 5) as [[p2 s2]| | |] eqn:E2; try (exfalso; vm_compute in E1; injection E1 as <- <-; vm_compute in E2; congruence).
  set (s3 := set_um (setb (um s2) (44936 + 2) 7) s2). destruct (free s3 44952) as [s4| | |] eqn:E4; try (exfalso; vm_compute in E1; injection E1 as <- <-; vm_compute in E2; injection E2 as <- <-; vm_compute in E4; congruence).
  assert (p1 = 44952 ∧ p2 = 44936) as [-> ->]. { vm_compute in E1. injection E1 as <- <-. vm_compute in E2. by injection E2 as <- <-. }
  pose proof (c_init x_base 12288 ∅) as C0. pose proof (c_malloc _ _ (λ _ _, true) x_ust ∅ 100 44952 s1 C0 ltac:(lia) E1) as C1. pose proof (c_malloc _ _ (λ _ _, true) s1 _ 5 44936 s2 C1 ltac:(lia) E2) as C2.
  pose proof (c_store _ _ _ _ 44936 5 2 7 C2 ltac:(vm_compute; reflexivity) ltac:(lia)) as C3. pose proof (c_free _ _ _ _ 44952 100 s4 C3 ltac:(vm_compute; reflexivity) E4) as C4.
  match type of C4 with client _ _ _ ?h => assert (h = {[44936 := 5]}) as EH by (vm_compute; reflexivity) end.
  rewrite EH in C4. exists s4. split; [exact C4|].
  destruct (malloc_serves_clients x_base 12288 s4 {[44936 := 5]} ltac:(reflexivity) ltac:(split; [discriminate|reflexivity]) C4) as (HM & _).
  destruct (HM (λ _ _, false) 100 ltac:(lia)) as (p & s' & E & K & _). exists p, s'. split; [exact E|]. rewrite (K 44936 5 44938 ltac:(vm_compute; reflexivity) ltac:(lia)).
  clear -E1 E2 E4. vm_compute in E1. injection E1 as <-. vm_compute in E2. injection E2 as <-. vm_compute in E4. injection E4 as <-. vm_compute. reflexivity.
Defined.
