(* ===== verification/Grep.v ===== *)
(** The pattern matcher and the line filter of grep (src/p4/grep.c), with strchr of the user library (src/p4/ulib.c). *)

From Stdlib Require Import ZArith Lia.
From stdpp Require Import base numbers list strings.
From S2P Require Import Prelude Mem CStr.
#[local] Open Scope Z_scope.

Definition NL : Z := 10.

(** [strchr]: the index of the first [c] before the end of the string. *)
Fixpoint strchr (s : list Z) (c : Z) : option nat :=
  match s with
  | [] => None
  | x :: s' => if x =? 0 then None else if x =? c then Some 0%nat else S <$> strchr s' c
  end.

Definition CARET : Z := 94.
Definition DOLLAR : Z := 36.
Definition DOT : Z := 46.
Definition STAR : Z := 42.

(** [matchstar(c, re, text)]; [here] is [matchhere] of [re]. *)
Fixpoint matchstar (here : cstring → bool) (c : Z) (text : cstring) : bool :=
  here text ||
  match text with
  | [] => false
  | t :: text' => if (t =? c) || (c =? DOT) then matchstar here c text' else false
  end.

Fixpoint matchhere (re text : cstring) : bool :=
  match re with
  | [] => true
  | c :: re' =>
      match re' with
      | s :: re2 =>
          if s =? STAR then matchstar (matchhere re2) c text
          else match text with t :: text' => if (c =? DOT) || (c =? t) then matchhere re' text' else false | [] => false end
      | [] =>
          if c =? DOLLAR then match text with [] => true | _ => false end
          else match text with t :: text' => if (c =? DOT) || (c =? t) then matchhere re' text' else false | [] => false end
      end
  end.

(** The loop of [match] over the suffixes of the text. *)
Fixpoint match_any (re text : cstring) : bool :=
  matchhere re text || match text with [] => false | _ :: text' => match_any re text' end.

Definition match_ (re text : cstring) : bool :=
  match re with
  | c :: re' => if c =? CARET then matchhere re' text else match_any re text
  | [] => match_any re text
  end.

(** ** The filter *)

(** The lines of the buffer from [p] on: what is written, and what is left of the buffer. *)
Fixpoint grep_lines (pattern p : list Z) (fuel : nat) : list Z * list Z :=
  match strchr p NL with
  | None => ([], p)
  | Some q =>
      match fuel with
      | O => ([], p)
      | S fuel' =>
          let '(out, p') := grep_lines pattern (drop (S q) p) fuel' in
          ((if match_ pattern (take q p) then take (S q) p else []) ++ out, p')
      end
  end.

Definition BUFSIZE : Z := 1024.

Section grep.
(** An open file: [read] returns the bytes read, none at the end of the file or on an error. *)
Context {F : Type} (read : F → Z → list Z * F).

(** [buf] has the [m] bytes that are kept from the reads before. *)
Fixpoint grep_loop (pattern : list Z) (buf : list Z) (fd : F) (fuel : nat) : outcome (list Z * F) :=
  match fuel with
  | O => NoFuel
  | S fuel' =>
      let '(l, fd) := read fd (BUFSIZE - Z.of_nat (length buf) - 1) in
      match l with
      | [] => Ok ([], fd)
      | _ =>
          let buf := buf ++ l in
          let '(out, p) := grep_lines pattern buf (length buf) in
          let buf := if (length p =? length buf)%nat then [] else p in
          '(out', fd) ← grep_loop pattern buf fd fuel';
          Ok (out ++ out', fd)
      end
  end.
Definition grep (pattern : list Z) (fd : F) (fuel : nat) : outcome (list Z * F) := grep_loop pattern [] fd fuel.
End grep.

(** A regular file: a read returns all that is asked for, up to the end of the file. *)
Definition read_file (s : list Z) (n : Z) : list Z * list Z := (take (Z.to_nat n) s, drop (Z.to_nat n) s).

(** A pipe that delivers its bytes as they were written. *)
Definition read_pipe (s : list (list Z)) (n : Z) : list Z * list (list Z) :=
  match s with [] => ([], []) | l :: s' => if Z.of_nat (length l) <=? n then (l, s') else (take (Z.to_nat n) l, drop (Z.to_nat n) l :: s') end.

Example grep_example : (λ x, match x with Ok (out, _) => Some out | _ => None end) (grep read_file (of_string "^a.*z$") (of_string "abcz" ++ [NL] ++ of_string "bcz" ++ [NL] ++ of_string "az" ++ [NL]) 9) =
  Some (of_string "abcz" ++ [NL] ++ of_string "az" ++ [NL]).
Proof. reflexivity. Qed.

(** The start of a line that comes in two reads is lost. *)
Example grep_short_read : (λ x, match x with Ok (out, _) => Some out | _ => None end) (grep read_pipe (of_string "^lo") [of_string "hel"; of_string "lo" ++ [NL]] 9) = Some (of_string "lo" ++ [NL]).
Proof. reflexivity. Qed.

(** * What a pattern means *)

Inductive atom := Any | Char (c : Z).
Inductive piece := One (a : atom) | Many (a : atom).

Definition atom_of (c : Z) : atom := if c =? DOT then Any else Char c.
Definition fits (a : atom) (t : Z) : Prop := match a with Any => True | Char c => t = c end.

(** The pieces of a pattern, and whether it ends with [$]. *)
Fixpoint pieces (re : cstring) : list piece * bool :=
  match re with
  | [] => ([], false)
  | c :: re' =>
      match re' with
      | s :: re2 => if s =? STAR then (Many (atom_of c) :: (pieces re2).1, (pieces re2).2) else (One (atom_of c) :: (pieces re').1, (pieces re').2)
      | [] => if c =? DOLLAR then ([], true) else ([One (atom_of c)], false)
      end
  end.

(** The words of a list of pieces. *)
Fixpoint lang (ps : list piece) (w : list Z) : Prop :=
  match ps with
  | [] => w = []
  | One a :: ps' => ∃ t v, w = t :: v ∧ fits a t ∧ lang ps' v
  | Many a :: ps' => ∃ u v, w = u ++ v ∧ Forall (fits a) u ∧ lang ps' v
  end.

(** A line matches when a part of it is a word of the pattern: at the start after [^], at the end before [$]. *)
Definition matches (re text : cstring) : Prop :=
  let '(anchored, re) := match re with c :: re' => if c =? CARET then (true, re') else (false, re) | [] => (false, []) end in
  ∃ pre w suf, text = pre ++ w ++ suf ∧ lang (pieces re).1 w ∧ (anchored = true → pre = []) ∧ ((pieces re).2 = true → suf = []).

Definition here_spec (x : list piece * bool) (text : cstring) : Prop := ∃ w suf, text = w ++ suf ∧ lang x.1 w ∧ (x.2 = true → suf = []).

Lemma fits_spec c t : (c =? DOT) || (c =? t) = true ↔ fits (atom_of c) t.
Proof. unfold atom_of. destruct (Z.eqb_spec c DOT); cbn; [done|]. rewrite Z.eqb_eq. naive_solver. Qed.

Lemma matchstar_spec here c ps e text : (∀ t, here t = true ↔ here_spec (ps, e) t) → matchstar here c text = true ↔ here_spec (Many (atom_of c) :: ps, e) text.
Proof.
  intros Hh. induction text as [|t text IH]; cbn [matchstar]; rewrite orb_true_iff, Hh.
  - split.
    + intros [(w & suf & E & Hw & He)|]; [|done]. exists w, suf. split_and!; [done| |done]. by exists [], w.
    + intros (w & suf & E & (u & v & -> & Hu & Hv) & He). left. symmetry in E. apply app_nil in E as [[-> ->]%app_nil ->]. by exists [], [].
  - rewrite (Z.eqb_sym t c), orb_comm. destruct ((c =? DOT) || (c =? t)) eqn:Ef.
    + apply fits_spec in Ef. rewrite IH. split.
      * intros [(w & suf & E & Hw & He)|(w & suf & -> & (u & v & -> & Hu & Hv) & He)].
        -- exists w, suf. split_and!; [done| |done]. by exists [], w.
        -- exists (t :: u ++ v), suf. split_and!; [done| |done]. exists (t :: u), v. split_and!; [done|by constructor|done].
      * intros (w & suf & E & (u & v & -> & Hu & Hv) & He). destruct u as [|x u]; [left; by exists v, suf|right]. injection E as <- ->. inversion Hu; subst.
        exists (u ++ v), suf. split_and!; [done| |done]. by exists u, v.
    + assert (¬ fits (atom_of c) t) as Hn by (rewrite <- fits_spec, Ef; done). split.
      * intros [(w & suf & E & Hw & He)|]; [|done]. exists w, suf. split_and!; [done| |done]. by exists [], w.
      * intros (w & suf & E & (u & v & -> & Hu & Hv) & He). left. destruct u as [|x u]; [by exists v, suf|]. injection E as <- ->. by inversion Hu.
Qed.

Lemma one_spec c rest ps e text : (∀ t, rest t = true ↔ here_spec (ps, e) t) →
  match text with t :: text' => if (c =? DOT) || (c =? t) then rest text' else false | [] => false end = true ↔ here_spec (One (atom_of c) :: ps, e) text.
Proof.
  intros Hr. destruct text as [|t text].
  - split; [done|]. intros (w & suf & E & (x & v & -> & _) & _). done.
  - destruct ((c =? DOT) || (c =? t)) eqn:Ef; [apply fits_spec in Ef; rewrite Hr|assert (¬ fits (atom_of c) t) as Hn by (rewrite <- fits_spec, Ef; done)]; split; try done.
    + intros (w & suf & -> & Hw & He). exists (t :: w), suf. split_and!; [done| |done]. by exists t, w.
    + intros (w & suf & E & (x & v & -> & Hx & Hv) & He). injection E as <- ->. by exists v, suf.
    + intros (w & suf & E & (x & v & -> & Hx & Hv) & He). by injection E as <- ->.
Qed.

Lemma matchhere_spec n : ∀ re text, (length re ≤ n)%nat → matchhere re text = true ↔ here_spec (pieces re) text.
Proof.
  induction n as [|n IH]; intros [|c re'] text Hl; cbn in Hl; try lia; try (split; [intros _; by exists [], text|done]).
  destruct re' as [|s re2]; cbn [matchhere pieces].
  - destruct (c =? DOLLAR).
    + split; [destruct text; [by exists [], []|done]|]. intros (w & suf & -> & -> & He). by rewrite (He eq_refl).
    + apply (one_spec c (λ _, true)). intros t. split; [intros _; by exists [], t|done].
  - destruct (s =? STAR).
    + apply matchstar_spec. intros t. rewrite <- surjective_pairing. apply IH. cbn in Hl. lia.
    + apply (one_spec c (matchhere (s :: re2))). intros t. rewrite <- surjective_pairing. apply IH. cbn in *. lia.
Qed.

Lemma match_any_spec re text : match_any re text = true ↔ ∃ pre rest, text = pre ++ rest ∧ here_spec (pieces re) rest.
Proof.
  induction text as [|t text IH]; cbn [match_any]; rewrite orb_true_iff, (matchhere_spec (length re)) by done.
  - split; [intros [H|]; [by exists [], []|done]|]. intros (pre & rest & E & H). left. symmetry in E. apply app_nil in E as [_ ->]. done.
  - rewrite IH. split.
    + intros [H|(pre & rest & -> & H)]; [by exists [], (t :: text)|by exists (t :: pre), rest].
    + intros ([|x pre] & rest & E & H); [left; by rewrite E|right]. injection E as <- ->. by exists pre, rest.
Qed.

Lemma match_spec re text : match_ re text = true ↔ matches re text.
Proof.
  assert (∀ re, match_any re text = true ↔ ∃ pre w suf, text = pre ++ w ++ suf ∧ lang (pieces re).1 w ∧ (false = true → pre = []) ∧ ((pieces re).2 = true → suf = [])) as Hany.
  { intros r. rewrite match_any_spec. unfold here_spec. naive_solver. }
  unfold match_, matches. destruct re as [|c re']; [apply Hany|]. destruct (c =? CARET); [|apply Hany]. rewrite (matchhere_spec (length re')) by done. split.
  - intros (w & suf & -> & H). exists [], w, suf. naive_solver.
  - intros (pre & w & suf & -> & Hw & Hp & He). rewrite (Hp eq_refl). by exists w, suf.
Qed.

#[export] Instance matches_dec re text : Decision (matches re text).
Proof. destruct (match_ re text) eqn:E; [left|right]; rewrite <- match_spec, E; done. Defined.

(** * The lines of a file *)

(** [ls] are the complete lines, [tail] what follows the last newline. *)
Definition join (ls : list (list Z)) : list Z := ls ≫= (λ l, l ++ [NL]).

Lemma strchr_spec s c : Forall (λ x, x ≠ 0) s →
  match strchr s c with None => c ∉ s | Some q => ∃ a b, s = a ++ c :: b ∧ length a = q ∧ c ∉ a end.
Proof.
  induction 1 as [|x s Hx Hs IH]; cbn [strchr]; [apply not_elem_of_nil|]. rewrite (proj2 (Z.eqb_neq x 0) Hx). destruct (Z.eqb_spec x c) as [->|Hne].
  - exists [], s. split_and!; [done..|apply not_elem_of_nil].
  - destruct (strchr s c) as [q|]; cbn [fmap option_fmap option_map].
    + destruct IH as (a & b & -> & <- & Ha). exists (x :: a), b. split_and!; [done..|]. by apply not_elem_of_cons.
    + apply not_elem_of_cons. split; [congruence|done].
Qed.

Lemma first_split {A} (c : A) a b a' b' : c ∉ a → c ∉ a' → a ++ c :: b = a' ++ c :: b' → a = a' ∧ b = b'.
Proof.
  revert a'. induction a as [|x a IH]; intros [|y a'] Ha Ha' E; cbn in E; injection E.
  - done.
  - intros _ <-. exfalso. apply Ha'. left.
  - intros _ ->. exfalso. apply Ha. left.
  - intros E' <-. apply not_elem_of_cons in Ha as [_ Ha], Ha' as [_ Ha']. by destruct (IH a' Ha Ha' E') as [-> ->].
Qed.

Lemma join_cons l ls : join (l :: ls) = l ++ NL :: join ls.
Proof. unfold join. cbn. by rewrite <- app_assoc. Qed.

Definition printed (re : cstring) (ls : list (list Z)) : list Z := join (filter (matches re) ls).

Lemma printed_cons re l ls : printed re (l :: ls) = (if match_ re l then l ++ [NL] else []) ++ printed re ls.
Proof.
  unfold printed. destruct (match_ re l) eqn:E.
  - rewrite filter_cons_True by (by apply match_spec). rewrite join_cons, <- app_assoc. done.
  - rewrite filter_cons_False; [done|]. rewrite <- match_spec, E. done.
Qed.

Lemma grep_lines_spec re fuel : ∀ buf rest ls tail, (length buf ≤ fuel)%nat → Forall (λ x, x ≠ 0) buf → Forall (λ l, NL ∉ l) ls → (NL ∉ tail) → buf ++ rest = join ls ++ tail →
  ∃ ls1 ls2 p, ls = ls1 ++ ls2 ∧ grep_lines re buf fuel = (printed re ls1, p) ∧ buf = join ls1 ++ p ∧ (NL ∉ p) ∧ p ++ rest = join ls2 ++ tail.
Proof.
  induction fuel as [|fuel IH]; intros buf rest ls tail Hf H0 Hls Ht E; pose proof (strchr_spec buf NL H0) as Hs; cbn [grep_lines]; destruct (strchr buf NL) as [q|].
  - exfalso. destruct Hs as (a & b & -> & _). rewrite length_app in Hf. cbn in Hf. lia.
  - by exists [], ls, buf.
  - destruct Hs as (a & b & -> & <- & Ha). rewrite <- app_assoc in E. cbn [app] in E. destruct ls as [|l ls].
    { exfalso. cbn [join mbind list_bind app] in E. apply Ht. rewrite <- E. apply elem_of_app. right. left. }
    rewrite join_cons, <- app_assoc in E. cbn [app] in E. inversion Hls as [|? ? Hl Hls']; subst. apply first_split in E as [<- E]; [|done..].
    apply Forall_app in H0 as [_ [_ H0]%Forall_cons]. rewrite length_app in Hf. cbn [length] in Hf.
    destruct (IH b rest ls tail) as (ls1 & ls2 & p & -> & Eg & -> & Hp & E2); [lia|done..|]. exists (a :: ls1), ls2, p.
    change (a ++ NL :: join ls1 ++ p) with (a ++ [NL] ++ join ls1 ++ p). rewrite !(app_assoc a). replace (S (length a)) with (length (a ++ [NL])) by (rewrite length_app; cbn; lia).
    rewrite drop_app_length, take_app_length, Eg, printed_cons, <- !app_assoc, take_app_length. split_and!; [done..| |done|done]. by rewrite join_cons, <- app_assoc.
  - by exists [], ls, buf.
Qed.

Lemma join_no_nl ls tail : NL ∉ join ls ++ tail → ls = [].
Proof. destruct ls as [|l ls]; [done|]. rewrite join_cons. intros H. exfalso. apply H. apply elem_of_app. left. apply elem_of_app. right. left. Qed.

(** A buffer that begins in a line and is as long as the line ends with or behind its newline. *)
Lemma long_prefix buf rest l more : buf ++ rest = l ++ NL :: more → NL ∉ buf → (length buf ≤ length l)%nat.
Proof.
  intros E Hb. destruct (decide (length buf ≤ length l)%nat) as [|Hlt]; [done|]. exfalso. apply Hb.
  assert (buf !! length l = Some NL) as Hl; [|by apply list_elem_of_lookup_2 in Hl].
  rewrite <- (lookup_app_l buf rest) by lia. rewrite E, lookup_app_r, Nat.sub_diag by done. done.
Qed.

Lemma grep_loop_spec re fuel : ∀ buf rest ls tail, (length rest < fuel)%nat → Forall (λ x, x ≠ 0) (buf ++ rest) → Forall (λ l, (NL ∉ l) ∧ (length l ≤ 1022)%nat) ls → NL ∉ tail → NL ∉ buf → (length buf ≤ 1022)%nat →
  buf ++ rest = join ls ++ tail → grep_loop read_file re buf rest fuel = Ok (printed re ls, []).
Proof.
  induction fuel as [|fuel IH]; intros buf rest ls tail Hf H0 Hls Ht Hb Hlb E; [lia|]. cbn [grep_loop]. unfold read_file at 1. unfold BUFSIZE. set (n := Z.to_nat (1024 - Z.of_nat (length buf) - 1)).
  destruct rest as [|r rest]; [rewrite take_nil, drop_nil; rewrite app_nil_r in E; rewrite (join_no_nl ls tail); [done|by rewrite <- E]|].
  assert (0 < n)%nat as Hn by lia. pose proof (take_drop n (r :: rest)) as Etd. destruct (take n (r :: rest)) as [|x l] eqn:El; [destruct n; [lia|done]|]. set (rest' := drop n (r :: rest)) in *.
  assert (length (x :: l) = n ∨ rest' = []) as Hfull.
  { assert (length (x :: l) = (n `min` length (r :: rest))%nat) as E1 by (rewrite <- El; apply length_take). destruct (decide (n ≤ length (r :: rest))%nat); [left; lia|right]. unfold rest'. apply drop_ge. lia. }
  assert (length rest' < fuel)%nat as Hf' by (unfold rest'; rewrite length_drop; cbn in Hf |- *; lia).
  rewrite <- Etd, app_assoc in E, H0. apply Forall_app in H0 as [H0 H0r].
  destruct (grep_lines_spec re (length (buf ++ x :: l)) (buf ++ x :: l) rest' ls tail) as (ls1 & ls2 & p & -> & -> & Ebuf & Hp & Ep); [done|done|by eapply Forall_impl; [exact Hls|]; cbn; intros ? []|done..|].
  apply Forall_app in Hls as [Hls1 Hls2]. destruct (Nat.eqb_spec (length p) (length (buf ++ x :: l))) as [Hlen|Hlen].
  - assert (ls1 = []) as ->. { destruct ls1 as [|l1 ls1]; [done|]. exfalso. rewrite Ebuf, length_app, join_cons, length_app in Hlen. cbn in Hlen. lia. }
    cbn [join mbind list_bind app] in Ebuf. rewrite Ebuf in *. assert (ls2 = []) as ->.
    { destruct Hfull as [Hfl|Hr]; [|rewrite Hr, app_nil_r in Ep; apply (join_no_nl ls2 tail); by rewrite <- Ep]. destruct ls2 as [|l2 ls2]; [done|]. exfalso.
      apply Forall_cons in Hls2 as [[_ Hl2] _]. rewrite join_cons, <- (app_assoc l2) in Ep. cbn [app] in Ep. apply long_prefix in Ep; [|done]. rewrite <- Ebuf, length_app, Hfl in Ep. lia. }
    rewrite (IH [] rest' [] rest'); [done|done|done|done| |apply not_elem_of_nil|cbn; lia|done]. cbn [join mbind list_bind app] in Ep. intros Hin. apply Ht. rewrite <- Ep. apply elem_of_app. by right.
  - rewrite Ebuf in H0. apply Forall_app in H0 as [_ H0p]. rewrite (IH p rest' ls2 tail); [|done|by apply Forall_app|done|done|done| |done].
    + cbn [mbind outcome_bind]. unfold printed. rewrite filter_app. unfold join. by rewrite bind_app.
    + assert (length p ≤ length (buf ++ x :: l))%nat by (rewrite Ebuf, length_app; lia). assert (length (x :: l) ≤ n)%nat by (rewrite <- El, length_take; lia). rewrite length_app in *. lia.
Qed.

(** C32. grep prints exactly the lines that match, in order.  For a regular file without NUL bytes, whose lines have at most 1022 bytes, whatever follows the last newline, [grep] ends
    at the end of the file, and has written, byte for byte, those complete lines that contain a word of the pattern: a list of characters, [.] for any character,
    and repetitions with [*], at the start of the line after [^] and at its end before [$]. *)
Theorem grep_prints_matches re ls tail fuel : Forall (λ l, (NL ∉ l) ∧ (length l ≤ 1022)%nat) ls → NL ∉ tail → Forall (λ x, x ≠ 0) (join ls ++ tail) → (length (join ls ++ tail) < fuel)%nat →
  grep read_file re (join ls ++ tail) fuel = Ok (join (filter (matches re) ls), []).
Proof. intros Hls Ht H0 Hf. apply (grep_loop_spec re fuel [] _ ls tail); try done; [apply not_elem_of_nil|cbn; lia]. Qed.

(** C32 for a pattern with a repetition, on three lines and the start of a fourth. *)
Lemma grep_prints_matches_witness :
  grep read_file (of_string "a.*z$") (join [of_string "xabcz"; of_string "abc"; of_string "az"] ++ of_string "a") 99 = Ok (join [of_string "xabcz"; of_string "az"], []).
Proof.
  rewrite (grep_prints_matches (of_string "a.*z$") [of_string "xabcz"; of_string "abc"; of_string "az"] (of_string "a") 99).
  - f_equal.
  - refine (bool_decide_unpack _ _). exact I.
  - refine (bool_decide_unpack _ _). exact I.
  - refine (bool_decide_unpack _ _). exact I.
  - cbn. lia.
Defined.
