(* ===== verification/Printf.v ===== *)
(** Formatted output of user programs (src/p4/printf.c) and reading numbers (atoi of src/p4/ulib.c).

    The output is the list of bytes written to the file.  Arguments are the words on the stack behind the format; [str] gives the string at an address. *)

From Stdlib Require Import ZArith Lia.
From stdpp Require Import base numbers list strings.
From S2P Require Import Prelude Mem CStr.
#[local] Open Scope Z_scope.

Definition digits : list Z := of_string "0123456789ABCDEF".
Definition MINUS : Z := 45.
Definition PERCENT : Z := 37.

(** The [do] loop of [printint]: [buf] holds the digits stored so far, the array has 16 bytes. *)
Fixpoint digits_loop (x base : Z) (buf : list Z) (fuel : nat) : outcome (list Z) :=
  match fuel with
  | O => NoFuel
  | S fuel' =>
      match digits !! Z.to_nat (x mod base) with
      | None => Fault (x mod base)
      | Some d =>
          if (16 <=? length buf)%nat then Fault (Z.of_nat (length buf))
          else
            let buf := buf ++ [d] in
            let x := x / base in
            if x =? 0 then Ok buf else digits_loop x base buf fuel'
      end
  end.

Definition printint (xx base : Z) (sgn : bool) : outcome (list Z) :=
  let neg := sgn && (xx <? 0) in
  let x := if neg then u32 (- xx) else u32 xx in
  buf ← digits_loop x base [] 32;
  buf ← (if neg then if (16 <=? length buf)%nat then Fault (Z.of_nat (length buf)) else Ok (buf ++ [MINUS]) else Ok buf);
  Ok (reverse buf).

Section printf.
Context (str : Z → cstring).

(** One turn of the loop per character of the format; [pct] is [state == '%'], [ap] the arguments that are left. *)
Fixpoint printf_loop (fmt : list Z) (pct : bool) (ap : list Z) : outcome (list Z) :=
  match fmt with
  | [] => Ok []
  | f :: fmt' =>
      let c := u8 f in
      if pct then
        if c =? 37 then out ← printf_loop fmt' false ap; Ok (c :: out)
        else if (c =? 100) || (c =? 120) || (c =? 112) || (c =? 115) || (c =? 99) then
          match ap with
          | [] => Fault 0
          | w :: ap' =>
              l ← (if c =? 100 then printint (s32 w) 10 true
                   else if (c =? 120) || (c =? 112) then printint (s32 w) 16 false
                   else if c =? 115 then Ok (if w =? 0 then of_string "(null)" else str w)
                   else Ok [u8 w]);
              out ← printf_loop fmt' false ap';
              Ok (l ++ out)
          end
        else out ← printf_loop fmt' false ap; Ok (PERCENT :: c :: out)
      else if c =? PERCENT then printf_loop fmt' true ap
      else out ← printf_loop fmt' false ap; Ok (c :: out)
  end.
Definition printf (fmt ap : list Z) : outcome (list Z) := printf_loop fmt false ap.
End printf.

(** The loop of [atoi], with [n] as far as it is read. *)
Fixpoint atoi_loop (s : list Z) (n : Z) : Z :=
  match s with
  | [] => n
  | c :: s' => if (48 <=? c) && (c <=? 57) then atoi_loop s' (s32 (n * 10 + c - 48)) else n
  end.
Definition atoi (s : list Z) : Z := atoi_loop s 0.

Example printf_example : printf (λ _, of_string "sh") (of_string "%s: pid %d at %x%%") [4096; 4294967295; 48879] = Ok (of_string "sh: pid -1 at BEEF%").
Proof. reflexivity. Qed.

Example printf_min : printf (λ _, []) (of_string "%d") [2147483648] = Ok (of_string "-2147483648").
Proof. reflexivity. Qed.

(** * Numerals *)

Definition digit_val (d : Z) : Z := if d <? 65 then d - 48 else d - 55.
Definition is_digit (base d : Z) : Prop := (48 <= d < 58 ∨ 65 <= d < 71) ∧ 0 <= digit_val d < base.

(** The value of digits, most significant first. *)
Definition value (base : Z) (l : list Z) : Z := foldl (λ n d, n * base + digit_val d) 0 l.

(** The numeral of [n]: no leading zero, but for zero itself. *)
Definition numeral (base n : Z) (l : list Z) : Prop :=
  Forall (is_digit base) l ∧ value base l = n ∧ ∃ d l', l = d :: l' ∧ (digit_val d = 0 → n = 0 ∧ l' = []).

Lemma digits_digit base r : 2 <= base <= 16 → 0 <= r < base → ∃ d, digits !! Z.to_nat r = Some d ∧ is_digit base d ∧ digit_val d = r.
Proof.
  intros Hb Hr. assert (r ∈ seqZ 0 16) as Hin by (apply elem_of_seqZ; lia).
  assert (Forall (λ r, ∃ d, digits !! Z.to_nat r = Some d ∧ (48 <= d < 58 ∨ 65 <= d < 71) ∧ digit_val d = r) (seqZ 0 16)) as HF.
  { repeat (apply Forall_cons; split; [eexists; split; [reflexivity|]; unfold digit_val; split; [cbn; lia|reflexivity]|]). by apply Forall_nil. }
  rewrite Forall_forall in HF. destruct (HF r Hin) as (d & E & Hd & Hv). exists d. split_and!; [done| |done]. split; [done|lia].
Qed.

Lemma value_snoc base l d : value base (l ++ [d]) = value base l * base + digit_val d.
Proof. unfold value. by rewrite foldl_app. Qed.

Lemma value_app base l l' : value base (l ++ l') = value base l * base ^ Z.of_nat (length l') + value base l'.
Proof.
  induction l' as [|d l' IH] using rev_ind; [rewrite app_nil_r; cbn; lia|]. rewrite app_assoc, !value_snoc, IH, length_app, Nat2Z.inj_add. cbn [length]. rewrite Z.pow_add_r by lia.
  replace (Z.of_nat 1) with 1 by lia. lia.
Qed.

(** The loop stores the numeral of [x], last digit first; [k] bounds the number of digits. *)
Lemma digits_loop_spec base k : 2 <= base <= 16 → ∀ x buf fuel, 0 <= x < base ^ Z.of_nat (S k) → (length buf + S k ≤ 16)%nat → (k < fuel)%nat →
  ∃ l, digits_loop x base buf fuel = Ok (buf ++ l) ∧ numeral base x (reverse l) ∧ (length l ≤ S k)%nat.
Proof.
  intros Hb. induction k as [|k IH]; intros x buf fuel Hx Hl Hf; (destruct fuel as [|fuel]; [lia|]); cbn [digits_loop];
    (destruct (digits_digit base (x mod base)) as (d & -> & Hd & Hv); [done|apply Z.mod_pos_bound; lia|]); (replace (16 <=? length buf)%nat with false by (symmetry; apply Nat.leb_gt; lia)).
  - rewrite Z.pow_1_r in Hx. rewrite Z.div_small by lia. cbn [Z.eqb]. exists [d]. split_and!; [done| |done]. cbn. split_and!; [by constructor|unfold value; cbn; rewrite Hv, Z.mod_small; lia|].
    exists d, []. split; [done|]. rewrite Hv, Z.mod_small by lia. done.
  - destruct (Z.eqb_spec (x / base) 0) as [Hz|Hz].
    + assert (x < base) by (apply Z.div_small_iff in Hz; lia). exists [d]. split_and!; [done| |cbn; lia]. cbn. split_and!; [by constructor|unfold value; cbn; rewrite Hv, Z.mod_small; lia|].
      exists d, []. split; [done|]. rewrite Hv, Z.mod_small by lia. done.
    + destruct (IH (x / base) (buf ++ [d]) fuel) as (l & E & (Hdl & Hvl & d0 & l0 & Er & Hd0) & Hll).
      { split; [apply Z.div_pos; lia|]. apply Z.div_lt_upper_bound; [lia|]. rewrite (Nat2Z.inj_succ (S k)), Z.pow_succ_r in Hx by lia. lia. }
      { rewrite length_app. cbn. lia. } { lia. }
      exists (d :: l). rewrite E, <- app_assoc. rewrite reverse_cons. split_and!; [done| |cbn; lia]. split_and!.
      * apply Forall_app. split; [done|by constructor].
      * rewrite value_snoc, Hvl, Hv. pose proof (Z.div_mod x base). lia.
      * rewrite Er. exists d0, (l0 ++ [d]). split; [done|]. intros H0. apply Hd0 in H0 as [H0 _]. lia.
Qed.

(** Ten digits, with a sign, fit in the array. *)
Lemma printint_spec xx base (sgn : bool) : base = 10 ∨ base = 16 → - 2 ^ 31 <= xx < 2 ^ 31 →
  ∃ l, numeral base (if sgn then Z.abs xx else u32 xx) l ∧ printint xx base sgn = Ok ((if sgn && (xx <? 0) then [MINUS] else []) ++ l).
Proof.
  intros Hb Hx. unfold printint. set (x := if sgn && (xx <? 0) then u32 (- xx) else u32 xx). assert (x = if sgn then Z.abs xx else u32 xx) as Ex.
  { unfold x. destruct sgn; cbn [andb]; [|done]. destruct (Z.ltb_spec xx 0); rewrite u32_small by (unfold is_u32; lia); lia. }
  assert (is_u32 x) as Hu by (unfold x; destruct (_ && _); apply u32_range). unfold is_u32 in Hu.
  destruct (digits_loop_spec base 9 ltac:(lia) x [] 32) as (l & -> & Hnum & Hl); [destruct Hb as [->| ->]; change (Z.of_nat 10) with 10; lia|cbn; lia|lia|].
  cbn [mbind outcome_bind app]. exists (reverse l). rewrite <- Ex. split; [done|]. destruct (sgn && (xx <? 0)); cbn [mbind outcome_bind].
  - replace (16 <=? length l)%nat with false by (symmetry; apply Nat.leb_gt; lia). cbn [mbind outcome_bind]. by rewrite reverse_snoc.
  - done.
Qed.

(** [atoi] reads a numeral back. *)
Lemma atoi_loop_value l rest n : Forall (is_digit 10) l → match rest with [] => True | c :: _ => ¬ (48 <= c <= 57) end → 0 <= n → n * 10 ^ Z.of_nat (length l) + value 10 l < 2 ^ 31 →
  atoi_loop (l ++ rest) n = n * 10 ^ Z.of_nat (length l) + value 10 l.
Proof.
  intros Hl Hr. revert n. induction Hl as [|d l Hd Hl IH]; intros n Hn Hlt.
  - change (value 10 []) with 0. cbn [length app]. rewrite Z.pow_0_r. destruct rest as [|c rest]; cbn [atoi_loop]; [lia|]. replace ((48 <=? c) && (c <=? 57)) with false; [lia|]. symmetry. apply andb_false_iff. lia.
  - change (d :: l) with ([d] ++ l) in Hlt |- *. rewrite value_app in Hlt |- *. assert (digit_val d = d - 48 ∧ 48 <= d <= 57) as [Hv Hd'].
    { destruct Hd as [Hd1 Hd2]. unfold digit_val in *. destruct (Z.ltb_spec d 65); lia. }
    change (value 10 [d]) with (0 * 10 + digit_val d) in Hlt |- *. rewrite length_app, Nat2Z.inj_add, Z.pow_add_r in Hlt |- * by lia. change (Z.of_nat (length [d])) with 1 in Hlt |- *.
    assert (0 < 10 ^ Z.of_nat (length l)) as Hp by (apply Z.pow_pos_nonneg; lia).
    assert (0 <= value 10 l) as Hvl. { clear -Hl. induction l as [|x l IH] using rev_ind; [done|]. apply Forall_app in Hl as [Hl [[_ Hx] _]%Forall_cons]. rewrite value_snoc. specialize (IH Hl). lia. }
    cbn [app atoi_loop]. replace ((48 <=? d) && (d <=? 57)) with true by (symmetry; apply andb_true_iff; lia). rewrite s32_small by nia. rewrite IH; nia.
Qed.

(** * Formats *)

(** The parts of a format with their arguments. *)
Inductive seg := Lit (c : Z) | Dec (n : Z) | Hex (w : Z) (p : bool) | Str (a : Z) | Chr (w : Z) | Pct | Unk (c : Z).

Definition seg_ok (x : seg) : Prop :=
  match x with
  | Lit c => is_char c ∧ c ≠ PERCENT
  | Dec n => - 2 ^ 31 <= n < 2 ^ 31
  | Hex w _ | Str w | Chr w => is_u32 w
  | Pct => True
  | Unk c => is_char c ∧ c ∉ of_string "%dxpsc"
  end.

Definition format (x : seg) : list Z :=
  match x with
  | Lit c => [c]
  | Dec _ => of_string "%d"
  | Hex _ p => if p : bool then of_string "%p" else of_string "%x"
  | Str _ => of_string "%s"
  | Chr _ => of_string "%c"
  | Pct => of_string "%%"
  | Unk c => [PERCENT; c]
  end.

Definition words (x : seg) : list Z :=
  match x with Dec n => [u32 n] | Hex w _ | Str w | Chr w => [w] | _ => [] end.

Definition shows (str : Z → cstring) (x : seg) (out : list Z) : Prop :=
  match x with
  | Lit c => out = [c]
  | Dec n => ∃ l, numeral 10 (Z.abs n) l ∧ out = (if n <? 0 then [MINUS] else []) ++ l
  | Hex w _ => numeral 16 w out
  | Str a => out = if a =? 0 then of_string "(null)" else str a
  | Chr w => out = [u8 w]
  | Pct => out = [PERCENT]
  | Unk c => out = [PERCENT; c]
  end.

Lemma u32_of_s32 w : is_u32 w → u32 (s32 w) = w.
Proof. intros H. unfold s32. rewrite (u32_small w H). unfold is_u32 in H. destruct (Z.ltb_spec w (2 ^ 31)); [by apply u32_small|]. unfold u32. rewrite <- (Z_mod_plus_full _ 1). replace (w - 2 ^ 32 + 1 * 2 ^ 32) with w by lia. by apply Z.mod_small. Qed.

Lemma s32_u32 n : - 2 ^ 31 <= n < 2 ^ 31 → s32 (u32 n) = n.
Proof. intros H. rewrite <- (s32_small n H) at 2. unfold s32, u32. by rewrite Z.mod_mod. Qed.

(** One part of the format. *)
Lemma printf_seg str x fmt ap : seg_ok x → ∃ out, shows str x out ∧ printf_loop str (format x ++ fmt) false (words x ++ ap) = (out' ← printf_loop str fmt false ap; Ok (out ++ out')).
Proof.
  destruct x as [c|n|w p|a|w| |c]; cbn [seg_ok shows]; intros Hok.
  - destruct Hok as [Hc Hne]. exists [c]. split; [done|]. cbn. unfold is_char in Hc. rewrite u8_small by (unfold is_byte; lia). rewrite (proj2 (Z.eqb_neq c PERCENT) Hne). done.
  - destruct (printint_spec n 10 true) as (l & Hl & E); [by left|done|]. exists ((if n <? 0 then [MINUS] else []) ++ l). split; [by exists l|].
    change (printf_loop str (format (Dec n) ++ fmt) false (words (Dec n) ++ ap)) with (l0 ← printint (s32 (u32 n)) 10 true; out ← printf_loop str fmt false ap; Ok (l0 ++ out)).
    rewrite s32_u32, E by done. done.
  - destruct (printint_spec (s32 w) 16 false) as (l & Hl & E); [by right|apply s32_range|]. rewrite u32_of_s32 in Hl by done. exists l. split; [done|].
    transitivity (l0 ← printint (s32 w) 16 false; out ← printf_loop str fmt false ap; Ok (l0 ++ out)); [by destruct p|]. by rewrite E.
  - exists (if a =? 0 then of_string "(null)" else str a). split; done.
  - exists [u8 w]. split; done.
  - exists [PERCENT]. split; done.
  - destruct Hok as [Hc Hn]. exists [PERCENT; c]. split; [done|]. cbn [format words app]. cbn [printf_loop]. unfold is_char in Hc. rewrite (u8_small c) by (unfold is_byte; lia).
    change (of_string "%dxpsc") with [37; 100; 120; 112; 115; 99] in Hn. rewrite !not_elem_of_cons in Hn. destruct Hn as (H1 & H2 & H3 & H4 & H5 & H6 & _).
    rewrite (proj2 (Z.eqb_neq _ _) H1), (proj2 (Z.eqb_neq _ _) H2), (proj2 (Z.eqb_neq _ _) H3), (proj2 (Z.eqb_neq _ _) H4), (proj2 (Z.eqb_neq _ _) H5), (proj2 (Z.eqb_neq _ _) H6). done.
Qed.

Lemma printf_segs str xs : Forall seg_ok xs → ∃ outs, printf str (xs ≫= format) (xs ≫= words) = Ok (concat outs) ∧ Forall2 (shows str) xs outs.
Proof.
  unfold printf. induction 1 as [|x xs Hx Hxs (outs & E & HF)]; [by exists []|].
  destruct (printf_seg str x (xs ≫= format) (xs ≫= words) Hx) as (out & Hs & Ex). exists (out :: outs). split; [|by constructor]. cbn [mbind list_bind]. rewrite Ex, E. done.
Qed.

(** C33. Formatted output says what it should, and numbers can be read back.  For a format made of plain characters, the conversions [%d], [%x], [%p], [%s], [%c], [%%] and unknown ones, in any order, and one
    argument word for each conversion that takes one, [printf] writes, without going beyond its 16-byte array, the output of each part in
    turn: for a number its numeral, without leading zeros and with a sign if it is negative, the smallest [int] included.  [atoi] gives a number of
    at least zero back from its decimal numeral, whatever follows that is not a digit. *)
Theorem printf_atoi_roundtrip str xs : Forall seg_ok xs →
  ∃ outs, printf str (xs ≫= format) (xs ≫= words) = Ok (concat outs) ∧ Forall2 (shows str) xs outs ∧
    ∀ i n out rest, xs !! i = Some (Dec n) → 0 <= n → outs !! i = Some out → match rest with [] => True | c :: _ => ¬ (48 <= c <= 57) end → atoi (out ++ rest) = n.
Proof.
  intros Hxs. destruct (printf_segs str xs Hxs) as (outs & E & HF). exists outs. split_and!; [done..|]. intros i n out rest Hx Hn Ho Hr.
  destruct (Forall2_lookup_lr _ _ _ _ _ _ HF Hx Ho) as (l & (Hd & Hv & _) & ->). replace (n <? 0) with false by lia. cbn [app].
  assert (seg_ok (Dec n)) as Hok by (rewrite Forall_lookup in Hxs; by eapply Hxs). cbn in Hok. rewrite Z.abs_eq in Hv by done.
  unfold atoi. rewrite atoi_loop_value; [lia|done..|lia].
Qed.

(** C33 for two numbers and a string. *)
Lemma printf_atoi_roundtrip_witness : ∃ outs, printf (λ _, of_string "sh") (of_string "%s:%d %d") [4096; 42; u32 (-7)] = Ok (concat outs) ∧ ∃ out, outs !! 2%nat = Some out ∧ atoi (out ++ of_string " ") = 42.
Proof.
  destruct (printf_atoi_roundtrip (λ _, of_string "sh") [Str 4096; Lit 58; Dec 42; Lit 32; Dec (-7)]) as (outs & E & HF & HA).
  { repeat apply Forall_cons_2; try apply Forall_nil_2; unfold seg_ok, is_char, is_u32, PERCENT; lia. }
  exists outs. split; [exact E|]. destruct (Forall2_lookup_l _ _ _ 2%nat (Dec 42) HF eq_refl) as (out & Ho & _). exists out. split; [done|].
  apply (HA 2%nat); [done|lia|done|]. cbn. lia.
Defined.
