(* ===== verification/Sh.v ===== *)
(** The parser of the shell of xv6 (src/p4/sh.c).

    The line is the list of its bytes, and a pointer into it an index; [es] is its length.  A parsed command points into the line: [nulterminate] then
    writes a NUL behind each word.  Allocations succeed.  [panic] of the shell, which ends the child that runs the line, is [Panic]. *)

From Stdlib Require Import ZArith Lia.
From stdpp Require Import base numbers list strings.
From S2P Require Import Prelude Mem CStr Grep Sysfile.
#[local] Open Scope Z_scope.

Definition MAXARGS : nat := 10.

(** [A] is what stands for a word: a pair of pointers to its start and end, or its bytes.  A redirection has a file, a mode and a descriptor. *)
Inductive cmd (A : Type) :=
| EXEC (argv : list A)
| REDIR (c : cmd A) (file : A) (mode fd : Z)
| PIPE (left right : cmd A)
| LIST (left right : cmd A)
| BACK (c : cmd A).
Arguments EXEC {A} argv.
Arguments REDIR {A} c file mode fd.
Arguments PIPE {A} left right.
Arguments LIST {A} left right.
Arguments BACK {A} c.

Abbreviation mark := (nat * nat)%type.

Definition whitespace : list Z := [32; 9; 13; 10; 11].
Definition symbols : list Z := of_string "<|>&;()".
Definition in_chars (l : list Z) (c : Z) : bool := match strchr l c with Some _ => true | None => false end.

Definition T_WORD : Z := 97.
Definition T_APPEND : Z := 43.

Section parse.
Context (buf : list Z).
Definition es : nat := length buf.
Definition char_at (s : nat) : Z := default 0 (buf !! s).

(** [while(s < es && p( *s)) s++;] *)
Fixpoint skip_while (p : Z → bool) (s fuel : nat) : nat :=
  match fuel with
  | O => s
  | S fuel' => if (s <? es)%nat && p (char_at s) then skip_while p (S s) fuel' else s
  end.
Definition skip_ws (s : nat) : nat := skip_while (in_chars whitespace) s es.

(** The token, its start and end, and the start of the next one. *)
Definition gettoken (s : nat) : Z * nat * nat * nat :=
  let s := skip_ws s in
  let q := s in
  let c := char_at s in
  let '(ret, s) :=
    if c =? 0 then (c, s)
    else if in_chars (of_string "|();&<") c then (c, S s)
    else if c =? 62 then if char_at (S s) =? 62 then (T_APPEND, S (S s)) else (c, S s)
    else (T_WORD, skip_while (λ c, negb (in_chars whitespace c) && negb (in_chars symbols c)) s es) in
  (ret, q, s, skip_ws s).

Definition peek (s : nat) (toks : list Z) : bool * nat :=
  let s := skip_ws s in
  (negb (char_at s =? 0) && in_chars toks (char_at s), s).

(** The redirections behind a command, innermost first. *)
Abbreviation redir := (mark * Z * Z)%type.

Fixpoint parseredirs (s fuel : nat) : outcome (list redir * nat) :=
  let '(more, s) := peek s (of_string "<>") in
  if more then
    match fuel with
    | O => NoFuel
    | S fuel' =>
        let '(tok, _, _, s) := gettoken s in
        let '(tok2, q, eq, s) := gettoken s in
        if negb (tok2 =? T_WORD) then Panic "missing file for redirection"
        else
          '(rs, s) ← parseredirs s fuel';
          Ok ((q, eq, if tok =? 60 then O_RDONLY else Z.lor O_WRONLY O_CREATE, if tok =? 60 then 0 else 1) :: rs, s)
    end
  else Ok ([], s).

Definition wrap {A} (c : cmd A) (rs : list (A * Z * Z)) : cmd A := foldl (λ c '(f, mode, fd), REDIR c f mode fd) c rs.

(** The loop of [parseexec]: [argv] so far, and the redirections around the command so far. *)
Fixpoint args_loop (s : nat) (argv : list mark) (rs : list redir) (fuel : nat) : outcome (list mark * list redir * nat) :=
  let '(stop, s) := peek s (of_string "|)&;") in
  if stop then Ok (argv, rs, s)
  else
    match fuel with
    | O => NoFuel
    | S fuel' =>
        let '(tok, q, eq, s) := gettoken s in
        if tok =? 0 then Ok (argv, rs, s)
        else if negb (tok =? T_WORD) then Panic "syntax"
        else
          let argv := argv ++ [(q, eq)] in
          if (MAXARGS <=? length argv)%nat then Panic "too many args"
          else
            '(rs', s) ← parseredirs s (S es);
            args_loop s argv (rs ++ rs') fuel'
    end.

(** The loop of [parseline] over [&]. *)
Fixpoint back_loop (c : cmd mark) (s fuel : nat) : outcome (cmd mark * nat) :=
  let '(more, s) := peek s (of_string "&") in
  if more then
    match fuel with
    | O => NoFuel
    | S fuel' => let '(_, _, _, s) := gettoken s in back_loop (BACK c) s fuel'
    end
  else Ok (c, s).

Fixpoint parseline (s fuel : nat) : outcome (cmd mark * nat) :=
  match fuel with
  | O => NoFuel
  | S fuel' =>
      '(c, s) ← parsepipe s fuel';
      '(c, s) ← back_loop c s (S es);
      let '(semi, s) := peek s (of_string ";") in
      if semi then
        let '(_, _, _, s) := gettoken s in
        '(c2, s) ← parseline s fuel';
        Ok (LIST c c2, s)
      else Ok (c, s)
  end
with parsepipe (s fuel : nat) : outcome (cmd mark * nat) :=
  match fuel with
  | O => NoFuel
  | S fuel' =>
      '(c, s) ← parseexec s fuel';
      let '(bar, s) := peek s (of_string "|") in
      if bar then
        let '(_, _, _, s) := gettoken s in
        '(c2, s) ← parsepipe s fuel';
        Ok (PIPE c c2, s)
      else Ok (c, s)
  end
(** With [parseblock], when the command starts with a parenthesis. *)
with parseexec (s fuel : nat) : outcome (cmd mark * nat) :=
  match fuel with
  | O => NoFuel
  | S fuel' =>
      let '(block, s) := peek s (of_string "(") in
      if block then
        let '(_, _, _, s) := gettoken s in
        '(c, s) ← parseline s fuel';
        let '(close, s) := peek s (of_string ")") in
        if negb close then Panic "syntax - missing )"
        else
          let '(_, _, _, s) := gettoken s in
          '(rs, s) ← parseredirs s (S es);
          Ok (wrap c rs, s)
      else
        '(rs, s) ← parseredirs s (S es);
        '(argv, rs, s) ← args_loop s [] rs (S es);
        Ok (wrap (EXEC argv) rs, s)
  end.
End parse.

(** The NULs behind the words of a command; [buf] ends with the NUL of the line. *)
Fixpoint nulterminate (c : cmd mark) (buf : list Z) : list Z :=
  match c with
  | EXEC argv => foldl (λ b '(_, e), <[e := 0]> b) buf argv
  | REDIR c (_, e) _ _ => <[e := 0]> (nulterminate c buf)
  | PIPE l r | LIST l r => nulterminate r (nulterminate l buf)
  | BACK c => nulterminate c buf
  end.

Definition parsecmd (buf : list Z) : outcome (cmd mark * list Z) :=
  '(c, s) ← parseline buf 0 (3 * length buf + 3);
  let '(_, s) := peek buf s [] in
  if negb (s =? length buf)%nat then Panic "syntax"
  else Ok (c, nulterminate c (buf ++ [0])).

(** The string at an index. *)
Fixpoint cstr (l : list Z) : list Z := match l with [] => [] | c :: l' => if c =? 0 then [] else c :: cstr l' end.

Fixpoint map_cmd {A B} (f : A → B) (c : cmd A) : cmd B :=
  match c with
  | EXEC argv => EXEC (f <$> argv)
  | REDIR c w mode fd => REDIR (map_cmd f c) (f w) mode fd
  | PIPE l r => PIPE (map_cmd f l) (map_cmd f r)
  | LIST l r => LIST (map_cmd f l) (map_cmd f r)
  | BACK c => BACK (map_cmd f c)
  end.

(** The command with the strings that its pointers point to. *)
Definition resolve (buf : list Z) (c : cmd mark) : cmd (list Z) := map_cmd (λ '(q, _), cstr (drop q buf)) c.

Example parse_example :
  ('(c, b) ← parsecmd (of_string "ls -l|(wc >out; cat)  & ;echo a>>b"); Ok (resolve b c)) =
  Ok (LIST (BACK (PIPE (EXEC [of_string "ls"; of_string "-l"]) (LIST (REDIR (EXEC [of_string "wc"]) (of_string "out") 513 1) (EXEC [of_string "cat"]))))
       (REDIR (EXEC [of_string "echo"; of_string "a"]) (of_string "b") 513 1)).
Proof. vm_compute. reflexivity. Qed.
