(* ===== verification/ShThm.v ===== *)
(** The theorems about the parser of the shell: it reads back what is written, and it ends on every line. *)

From Stdlib Require Import ZArith Lia.
From stdpp Require Import base numbers list strings.
From S2P Require Import Prelude Mem CStr Grep Sysfile Sh.
#[local] Open Scope Z_scope.

(** * Tokens *)

Definition is_ws (c : Z) : Prop := in_chars whitespace c = true.
Definition word_char (c : Z) : Prop := c ≠ 0 ∧ in_chars whitespace c = false ∧ in_chars symbols c = false.
Definition is_word (w : list Z) : Prop := w ≠ [] ∧ Forall word_char w.

#[export] Instance word_char_dec c : Decision (word_char c).
Proof. unfold word_char. apply _. Defined.
#[export] Instance is_word_dec w : Decision (is_word w).
Proof. unfold is_word. apply _. Defined.

Inductive tok := TWord (w : list Z) | TSym (c : Z).
Definition text (t : tok) : list Z := match t with TWord w => w | TSym c => [c] end.
Definition tok_ok (t : tok) : Prop := match t with TWord w => is_word w | TSym c => c ∈ symbols end.

(** A word ends at white space, a symbol or the end of the line. *)
Definition ends (l : list Z) : Prop := match l with [] => True | c :: _ => ¬ word_char c end.
Definition sep (t : tok) (l : list Z) : Prop := match t with TWord _ => ends l | TSym c => c = 62 → head l ≠ Some 62 end.

(** [l] is the tokens [ts], with any white space around them. *)
Inductive spells : list tok → list Z → Prop :=
| sp_nil ws : Forall is_ws ws → spells [] ws
| sp_cons ws t ts l : Forall is_ws ws → tok_ok t → sep t l → spells ts l → spells (t :: ts) (ws ++ text t ++ l).

(** The first character of the next token. *)
Definition tchar (ts : list tok) : Z := match ts with [] => 0 | TWord w :: _ => default 0 (head w) | TSym c :: _ => c end.

Lemma ws_nonzero c : is_ws c → c ≠ 0.
Proof. intros H ->. by vm_compute in H. Qed.

Lemma sym_cases c : c ∈ symbols → in_chars whitespace c = false ∧ c ≠ 0 ∧ (c = 62 ∨ in_chars (of_string "|();&<") c = true).
Proof. intros H. vm_compute in H. repeat (apply elem_of_cons in H as [->|H]; [vm_compute; split_and!; auto; congruence|]). by apply not_elem_of_nil in H. Qed.

Lemma in_chars_false l c : Forall (λ x, x ≠ 0) l → in_chars l c = false ↔ c ∉ l.
Proof.
  intros Hl. unfold in_chars. pose proof (strchr_spec l c Hl) as Hs. destruct (strchr l c); [|done]. destruct Hs as (a & b & -> & _). split; [done|]. intros H. exfalso. apply H, elem_of_app. right. left.
Qed.

(** A character that is no symbol is not in a list of symbols. *)
Lemma not_sym l c : in_chars symbols c = false → forallb (in_chars symbols) l = true → in_chars l c = false.
Proof.
  intros Hc Hl. assert (Forall (λ x, x ≠ 0) l) as H0. { apply Forall_forall. intros x Hx ->. rewrite forallb_forall in Hl. apply list_elem_of_In, Hl in Hx. by vm_compute in Hx. }
  apply in_chars_false; [done|]. intros Hin. rewrite forallb_forall in Hl. apply list_elem_of_In, Hl in Hin. congruence.
Qed.

(** * Writing a command *)

Definition paren (b : bool) (ts : list tok) : list tok := if b then TSym 40 :: ts ++ [TSym 41] else ts.

(** The tokens of a command, with parentheses where the level needs them: 0 is one command with redirections, 1 a pipeline, 2 one in the background, 3 a whole line. *)
Fixpoint toks (lev : nat) (c : cmd (list Z)) : list tok :=
  match c with
  | EXEC argv => TWord <$> argv
  | REDIR c f _ fd => toks 0 c ++ [TSym (if fd =? 0 then 60 else 62); TWord f]
  | PIPE l r => paren (lev <? 1)%nat (toks 0 l ++ TSym 124 :: toks 1 r)
  | BACK c => paren (lev <? 2)%nat (toks 2 c ++ [TSym 38])
  | LIST l r => paren (lev <? 3)%nat (toks 2 l ++ TSym 59 :: toks 3 r)
  end.

(** Commands that the shell can run: at most nine words, and the two kinds of redirection. *)
Fixpoint cmd_ok (c : cmd (list Z)) : Prop :=
  match c with
  | EXEC argv => Forall is_word argv ∧ (length argv < MAXARGS)%nat
  | REDIR c f mode fd => cmd_ok c ∧ is_word f ∧ (mode = O_RDONLY ∧ fd = 0 ∨ mode = Z.lor O_WRONLY O_CREATE ∧ fd = 1)
  | PIPE l r | LIST l r => cmd_ok l ∧ cmd_ok r
  | BACK c => cmd_ok c
  end.

Section buf.
Context (buf : list Z).
#[local] Abbreviation es := (length buf).

Definition at_ (s : nat) (ts : list tok) : Prop := (s ≤ es)%nat ∧ spells ts (drop s buf).

(** The word between two pointers. *)
Definition marks (m : mark) (w : list Z) : Prop := ∃ l, drop m.1 buf = w ++ l ∧ m.2 = (m.1 + length w)%nat ∧ is_word w ∧ ends l.

Lemma char_at_drop s l : drop s buf = l → char_at buf s = default 0 (head l).
Proof. intros <-. unfold char_at. by rewrite <- (Nat.add_0_r s) at 1; rewrite <- lookup_drop; destruct (drop s buf). Qed.

Lemma drop_lt s c l : drop s buf = c :: l → (s < es)%nat.
Proof. intros E. apply (f_equal length) in E. rewrite length_drop in E. cbn in E. lia. Qed.

Lemma drop_step s a b : drop s buf = a ++ b → drop (s + length a) buf = b.
Proof. intros E. by rewrite <- drop_drop, E, drop_app_length. Qed.

Lemma skip_while_spec p a : ∀ s b fuel, drop s buf = a ++ b → Forall (λ c, p c = true) a → match b with [] => True | c :: _ => p c = false end → (length a ≤ fuel)%nat →
  skip_while buf p s fuel = (s + length a)%nat.
Proof.
  induction a as [|c a IH]; intros s b fuel E Ha Hb Hf.
  - destruct fuel as [|fuel]; cbn [skip_while length]; [lia|]. destruct b as [|c b].
    + assert (es ≤ s)%nat as Hs by (apply (f_equal length) in E; rewrite length_drop in E; cbn in E; lia). replace (s <? Sh.es buf)%nat with false by (symmetry; apply Nat.ltb_ge; exact Hs). cbn [andb]. lia.
    + rewrite (char_at_drop s (c :: b)) by done. cbn [head from_option id]. rewrite Hb, andb_false_r. lia.
  - destruct fuel as [|fuel]; cbn in Hf; [lia|]. apply Forall_cons in Ha as [Hc Ha]. cbn [skip_while]. rewrite (char_at_drop s ((c :: a) ++ b)) by done. cbn [app head from_option id]. rewrite Hc.
    pose proof (drop_lt s c (a ++ b) E). replace (s <? Sh.es buf)%nat with true by (symmetry; apply Nat.ltb_lt; done). cbn [andb]. rewrite (IH (S s) b fuel); [cbn; lia|..|done|done|lia].
    rewrite <- (drop_step s [c] (a ++ b) E). f_equal. cbn. lia.
Qed.

Lemma drop_length s a b : drop s buf = a ++ b → (s ≤ es)%nat → (s + length a + length b = es)%nat.
Proof. intros E Hs. apply (f_equal length) in E. rewrite length_drop, length_app in E. lia. Qed.

Lemma tok_first t : tok_ok t → ∃ c l, text t = c :: l ∧ in_chars whitespace c = false ∧ c ≠ 0 ∧ tchar [t] = c.
Proof.
  destruct t as [w|c]; cbn.
  - intros [Hn Hw]. destruct w as [|c w]; [done|]. apply Forall_cons in Hw as [(H1 & H2 & H3) _]. by exists c, w.
  - intros (H1 & H2 & _)%sym_cases. by exists c, [].
Qed.

(** White space before the next token. *)
Lemma skip_ws_spec s ts : at_ s ts → ∃ s1, skip_ws buf s = s1 ∧ (s ≤ s1 ≤ es)%nat ∧ char_at buf s1 = tchar ts ∧
  match ts with [] => s1 = es | t :: ts' => ∃ l, drop s1 buf = text t ++ l ∧ tok_ok t ∧ sep t l ∧ spells ts' l end.
Proof.
  intros [Hs Hsp]. unfold skip_ws. remember (drop s buf) as d eqn:E. symmetry in E. destruct Hsp as [ws Hws|ws t ts l Hws Ht Hsep Hsp].
  - pose proof (drop_length s ws [] ltac:(by rewrite app_nil_r) Hs) as Hl. cbn in Hl. rewrite (skip_while_spec _ ws s []); [|by rewrite app_nil_r|done|done|unfold Sh.es; lia].
    exists (s + length ws)%nat. split_and!; [done|lia|lia| |lia]. unfold char_at. rewrite lookup_ge_None_2 by lia. done.
  - pose proof (drop_length s ws (text t ++ l) E Hs) as Hl. destruct (tok_first t Ht) as (c & l' & Ec & Hc & _ & Htc).
    rewrite (skip_while_spec _ ws s (text t ++ l)); [|done|done|by rewrite Ec|unfold Sh.es; lia]. apply drop_step in E. exists (s + length ws)%nat. split_and!; [done|lia|lia| |by exists l].
    rewrite (char_at_drop _ _ E). destruct t as [w|c']; [|done]. cbn in Ec |- *. by rewrite Ec.
Qed.
Definition starts (ts : list tok) (l : list Z) : bool := negb (tchar ts =? 0) && in_chars l (tchar ts).

Lemma starts_word w ts l : is_word w → forallb (in_chars symbols) l = true → starts (TWord w :: ts) l = false.
Proof. intros [Hn Hw] Hl. destruct w as [|c w]; [done|]. apply Forall_cons in Hw as [(_ & _ & Hc) _]. unfold starts. cbn. rewrite (not_sym l c Hc Hl). apply andb_false_r. Qed.

Lemma at_skip s1 ts : match ts with [] => s1 = es | t :: ts' => ∃ l, drop s1 buf = text t ++ l ∧ tok_ok t ∧ sep t l ∧ spells ts' l end → (s1 ≤ es)%nat → at_ s1 ts.
Proof.
  intros H Hs. split; [done|]. destruct ts as [|t ts].
  - subst. rewrite drop_all. by constructor.
  - destruct H as (l & -> & Ht & Hsep & Hsp). by apply (sp_cons []).
Qed.

Lemma peek_spec s ts l : at_ s ts → ∃ s1, peek buf s l = (starts ts l, s1) ∧ (s ≤ s1 ≤ es)%nat ∧ at_ s1 ts.
Proof.
  intros H. destruct (skip_ws_spec s ts H) as (s1 & E & Hs & Hc & Hm). exists s1. unfold peek. rewrite E, Hc. split_and!; [done|lia|lia|]. apply at_skip; [done|lia].
Qed.

Lemma gettoken_end s : at_ s [] → gettoken buf s = (0, es, es, es).
Proof.
  intros H. destruct (skip_ws_spec s [] H) as (s1 & E & Hs & Hc & ->). unfold gettoken. rewrite E, Hc. cbn [tchar Z.eqb].
  destruct (skip_ws_spec es []) as (s2 & E2 & Hs2 & _); [apply at_skip; [done|lia]|]. rewrite E2. repeat f_equal. lia.
Qed.

Definition code (t : tok) : Z := match t with TWord _ => T_WORD | TSym c => c end.

Lemma gettoken_spec s t ts : at_ s (t :: ts) → ∃ q e s', gettoken buf s = (code t, q, e, s') ∧ (s < s' ≤ es)%nat ∧ at_ s' ts ∧ match t with TWord w => marks (q, e) w | _ => True end.
Proof.
  intros H. destruct (skip_ws_spec s (t :: ts) H) as (q & E & Hq & Hc & l & Ed & Ht & Hsep & Hsp). pose proof (drop_length q (text t) l Ed ltac:(lia)) as Hl.
  assert (0 < length (text t))%nat as Hpos by (destruct (tok_first t Ht) as (c & l' & -> & _); cbn; lia).
  set (e := (q + length (text t))%nat). assert (at_ e ts) as He by (split; [unfold e; lia|unfold e; by rewrite (drop_step q (text t) l Ed)]).
  destruct (skip_ws_spec e ts He) as (s' & E' & Hs' & _ & Hm). exists q, e, s'. split_and!; [|unfold e in *; lia|lia|apply at_skip; [done|lia]|].
  - unfold gettoken. rewrite E, Hc. destruct t as [w|c]; cbn [code tchar].
    + destruct Ht as [Hn Hw]. destruct w as [|c w]; [done|]. pose proof Hw as [(H1 & H2 & H3) _]%Forall_cons. cbn [head from_option id]. rewrite (proj2 (Z.eqb_neq c 0) H1).
      rewrite (not_sym (of_string "|();&<") c H3) by done. assert (c ≠ 62) as H62 by (intros ->; by vm_compute in H3). rewrite (proj2 (Z.eqb_neq c 62) H62).
      assert (skip_while buf (λ c0, negb (in_chars whitespace c0) && negb (in_chars symbols c0)) q (Sh.es buf) = e) as ->; [|by rewrite E'].
      unfold e. apply skip_while_spec with l; [done| | |unfold Sh.es; lia].
      * eapply Forall_impl; [exact Hw|]. intros x (X1 & X2 & X3). cbv beta. by rewrite X2, X3.
      * destruct l as [|x l]; [done|]. cbn in Hsep. destruct (in_chars whitespace x) eqn:W; [done|]. destruct (in_chars symbols x) eqn:HS; [done|]. exfalso. apply Hsep. split_and!; [|done|done].
        intros ->. inversion Hsp as [ws Hws|ws t' ts' l' Hws Ht' Hsep' Hsp' Ew El].
        -- apply Forall_cons in Hws as [Hws _]. by apply ws_nonzero in Hws.
        -- destruct ws as [|y ws]; [|apply Forall_cons in Hws as [Hws _]; injection El as -> _; by apply ws_nonzero in Hws].
           destruct (tok_first t' Ht') as (c' & m' & Et' & _ & Hc' & _). cbn in El. rewrite Et' in El. by injection El.
    + apply sym_cases in Ht as (W & N & [->|HS]).
      * change (62 =? 0) with false. change (in_chars (of_string "|();&<") 62) with false. change (62 =? 62) with true. assert ((char_at buf (S q) =? 62) = false) as ->.
        { replace (S q) with (q + length [62%Z])%nat by (cbn; lia). rewrite (char_at_drop _ _ (drop_step q [62] l Ed)). apply Z.eqb_neq. cbn in Hsep. destruct l as [|x l]; [done|]. cbn. intros ->. by apply Hsep. }
        replace (S q) with e by (unfold e; cbn; lia). by rewrite E'.
      * rewrite (proj2 (Z.eqb_neq c 0) N), HS. replace (S q) with e by (unfold e; cbn; lia). by rewrite E'.
  - destruct t as [w|c]; [|done]. exists l. split_and!; done.
Qed.
(** * Redirections and arguments *)

Definition redir_ok (r : list Z * Z * Z) : Prop := let '(w, mode, fd) := r in is_word w ∧ (mode = O_RDONLY ∧ fd = 0 ∨ mode = Z.lor O_WRONLY O_CREATE ∧ fd = 1).
Definition rtoks (r : list Z * Z * Z) : list tok := let '(w, _, fd) := r in [TSym (if fd =? 0 then 60 else 62); TWord w].
Definition redir_rel (m : mark * Z * Z) (r : list Z * Z * Z) : Prop := marks m.1.1 r.1.1 ∧ m.1.2 = r.1.2 ∧ m.2 = r.2.

(** What may come next: nothing, or a symbol of [l]. *)
Definition follow (l : list Z) (ts : list tok) : Prop := ts = [] ∨ ∃ c ts', ts = TSym c :: ts' ∧ c ∈ l.

Lemma follow_starts l ts k : follow l ts → forallb (λ c, negb (in_chars k c)) l = true → starts ts k = false.
Proof.
  intros [->|(c & ts' & -> & Hc)] Hk; [done|]. unfold starts. cbn [tchar]. rewrite forallb_forall in Hk. apply list_elem_of_In, Hk, negb_true_iff in Hc. rewrite Hc. apply andb_false_r.
Qed.

Lemma parseredirs_spec rs : ∀ s ts fuel, at_ s ((rs ≫= rtoks) ++ ts) → Forall redir_ok rs → starts ts (of_string "<>") = false → (es - s < fuel)%nat →
  ∃ ms s', parseredirs buf s fuel = Ok (ms, s') ∧ (s ≤ s' ≤ es)%nat ∧ at_ s' ts ∧ Forall2 redir_rel ms rs.
Proof.
  induction rs as [|[[w mode] fd] rs IH]; intros s ts fuel Ha Hok Hst Hf.
  - destruct (peek_spec s ts (of_string "<>") Ha) as (s1 & E & Hs & Ha1). exists [], s1. split_and!; [|lia|lia|done|constructor]. destruct fuel; cbn [parseredirs]; rewrite E, Hst; done.
  - apply Forall_cons in Hok as [[Hw Hm] Hok]. cbn [mbind list_bind rtoks app] in Ha. destruct (peek_spec s _ (of_string "<>") Ha) as (s1 & E & Hs & Ha1). destruct fuel as [|fuel]; [lia|].
    destruct (gettoken_spec s1 _ _ Ha1) as (q & e & s2 & E2 & Hs2 & Ha2 & _). destruct (gettoken_spec s2 _ _ Ha2) as (q3 & e3 & s3 & E3 & Hs3 & Ha3 & Hm3).
    destruct (IH s3 ts fuel Ha3 Hok Hst) as (ms & s' & E4 & Hs4 & Ha4 & HF); [lia|]. exists ((q3, e3, mode, fd) :: ms), s'. split_and!; [|lia|lia|done|by constructor].
    cbn [parseredirs]. rewrite E. replace (starts _ _) with true by (destruct (fd =? 0); done). rewrite E2, E3. cbn [code]. rewrite Z.eqb_refl. cbn [negb]. rewrite E4. cbn [mbind outcome_bind]. destruct Hm as [[-> ->]|[-> ->]]; done.
Qed.

Lemma args_loop_spec rs ts : Forall redir_ok rs → follow [124; 41; 38; 59] ts → ∀ ws s argv rs0 fuel, let rs := match ws with [] => [] | _ => rs end in
  at_ s ((TWord <$> ws) ++ (rs ≫= rtoks) ++ ts) → Forall is_word ws → (length argv + length ws < MAXARGS)%nat → (es - s < fuel)%nat →
  ∃ am ms s', args_loop buf s argv rs0 fuel = Ok (argv ++ am, rs0 ++ ms, s') ∧ (s ≤ s' ≤ es)%nat ∧ at_ s' ts ∧ Forall2 marks am ws ∧ Forall2 redir_rel ms rs.
Proof.
  intros Hrs Hfo ws. induction ws as [|w ws IH]; intros s argv rs0 fuel rs' Ha Hw Hl Hf; cbn [fmap list_fmap app] in Ha.
  - cbn in Ha. destruct (peek_spec s ts (of_string "|)&;") Ha) as (s1 & E & Hs & Ha1). destruct Hfo as [->|(c & ts' & -> & Hc)].
    + exists [], [], es. rewrite !app_nil_r. split_and!; [|lia|lia|apply at_skip; done|constructor..]. destruct fuel; [lia|]. cbn [args_loop]. rewrite E, (gettoken_end s1 Ha1). done.
    + exists [], [], s1. rewrite !app_nil_r. split_and!; [|lia|lia|done|constructor..]. destruct fuel; cbn [args_loop]; rewrite E.
      all: replace (starts _ _) with true; [done|]; repeat (apply elem_of_cons in Hc as [->|Hc]; [done|]); by apply not_elem_of_nil in Hc.
  - apply Forall_cons in Hw as [Hw1 Hw]. destruct (peek_spec s _ (of_string "|)&;") Ha) as (s1 & E & Hs & Ha1). destruct fuel as [|fuel]; [lia|].
    destruct (gettoken_spec s1 _ _ Ha1) as (q & e & s2 & E2 & Hs2 & Ha2 & Hm2). cbn [length] in Hl.
    assert (∃ ms s3, parseredirs buf s2 (S (Sh.es buf)) = Ok (ms, s3) ∧ (s2 ≤ s3 ≤ es)%nat ∧ at_ s3 ((TWord <$> ws) ++ (match ws with [] => [] | _ => rs end ≫= rtoks) ++ ts) ∧ Forall2 redir_rel ms (match ws with [] => rs | _ => [] end)) as (ms & s3 & E3 & Hs3 & Ha3 & HF3).
    { destruct ws as [|w2 ws].
      - apply parseredirs_spec; [done|done|by eapply follow_starts|unfold Sh.es; lia].
      - apply (parseredirs_spec []); [done|done|apply starts_word; [by apply Forall_cons in Hw as [? _]|done]|unfold Sh.es; lia]. }
    destruct (IH s3 (argv ++ [(q, e)]) (rs0 ++ ms) fuel Ha3 Hw) as (am & ms' & s' & E4 & Hs4 & Ha4 & HFa & HFm); [rewrite length_app; cbn; lia|lia|].
    exists ((q, e) :: am), (ms ++ ms'), s'. split_and!; [|lia|lia|done|by constructor|].
    + cbn [args_loop]. rewrite E, starts_word, E2 by done. cbn [code]. change (T_WORD =? 0) with false. rewrite Z.eqb_refl. cbn [negb]. replace (MAXARGS <=? length (argv ++ [(q, e)]))%nat with false by (symmetry; apply Nat.leb_gt; rewrite length_app; cbn; lia).
      rewrite E3. cbn [mbind outcome_bind]. rewrite E4, <- !app_assoc. done.
    + unfold rs'. destruct ws; [inversion HFm; subst; by rewrite app_nil_r|]. inversion HF3; subst. done.
Qed.

Lemma back_loop_spec k ts : starts ts (of_string "&") = false → ∀ c s fuel, at_ s (replicate k (TSym 38) ++ ts) → (es - s < fuel)%nat →
  ∃ s', back_loop buf c s fuel = Ok (Nat.iter k BACK c, s') ∧ (s ≤ s' ≤ es)%nat ∧ at_ s' ts.
Proof.
  intros Hst. induction k as [|k IH]; intros c s fuel Ha Hf; cbn [replicate app] in Ha; destruct (peek_spec s _ (of_string "&") Ha) as (s1 & E & Hs & Ha1).
  - exists s1. split_and!; [|lia|lia|done]. destruct fuel; cbn [back_loop]; rewrite E, Hst; done.
  - destruct fuel as [|fuel]; [lia|]. destruct (gettoken_spec s1 _ _ Ha1) as (q & e & s2 & E2 & Hs2 & Ha2 & _). destruct (IH (BACK c) s2 fuel Ha2) as (s' & E3 & Hs3 & Ha3); [lia|].
    exists s'. split_and!; [|lia|lia|done]. cbn [back_loop]. rewrite E. change (starts (TSym 38 :: _) _) with true. rewrite E2. cbn match. rewrite E3. by rewrite <- Nat.iter_succ_r.
Qed.
(** * Commands *)

Fixpoint cmd_rel (c : cmd mark) (d : cmd (list Z)) : Prop :=
  match c, d with
  | EXEC ms, EXEC ws => Forall2 marks ms ws
  | REDIR c m mode fd, REDIR d w mode' fd' => cmd_rel c d ∧ marks m w ∧ mode = mode' ∧ fd = fd'
  | PIPE c1 c2, PIPE d1 d2 | LIST c1 c2, LIST d1 d2 => cmd_rel c1 d1 ∧ cmd_rel c2 d2
  | BACK c, BACK d => cmd_rel c d
  | _, _ => False
  end.

Lemma rel_wrap ms rs : Forall2 redir_rel ms rs → ∀ c d, cmd_rel c d → cmd_rel (wrap c ms) (wrap d rs).
Proof. induction 1 as [|[[m mode] fd] [[w mode'] fd'] ms rs (H1 & H2 & H3) HF IH]; intros c d Hc; [done|]. cbn. apply IH. by split_and!. Qed.

Lemma rel_back k c d : cmd_rel c d → cmd_rel (Nat.iter k BACK c) (Nat.iter k BACK d).
Proof. intros H. by induction k. Qed.

Definition is_redir (c : cmd (list Z)) : bool := match c with REDIR _ _ _ _ => true | _ => false end.

Lemma unwrap c : cmd_ok c → ∃ b rs, c = wrap b rs ∧ is_redir b = false ∧ cmd_ok b ∧ Forall redir_ok rs ∧ toks 0 c = toks 0 b ++ (rs ≫= rtoks).
Proof.
  induction c as [ws|c IH f mode fd|l _ r _|l _ r _|c _]; intros Hok; try (eexists _, []; rewrite app_nil_r; by split_and!).
  destruct Hok as (Hc & Hf & Hm). destruct (IH Hc) as (b & rs & -> & Hb & Hok & Hrs & Et). exists b, (rs ++ [(f, mode, fd)]). split_and!; [|done|done|apply Forall_app; split; [done|by constructor]|].
  - unfold wrap. by rewrite foldl_app.
  - cbn [toks]. by rewrite Et, bind_app, <- app_assoc.
Qed.

Lemma strip c : cmd_ok c → ∃ d k, c = Nat.iter k BACK d ∧ cmd_ok d ∧ toks 2 c = toks 1 d ++ replicate k (TSym 38).
Proof.
  induction c as [ws|c IH f mode fd|l _ r _|l _ r _|c IH]; intros Hok; try (eexists _, 0%nat; split_and!; [reflexivity|done|cbn [replicate]; by rewrite app_nil_r]).
  destruct (IH Hok) as (d & k & -> & Hd & Et). exists d, (S k). split_and!; [done..|]. cbn [toks paren Nat.ltb Nat.leb]. rewrite Et, <- app_assoc. by rewrite <- replicate_cons_app.
Qed.

(** The three levels of the parser. *)
Definition parses (f : nat → nat → outcome (cmd mark * nat)) (lev : nat) (l : list Z) (k fuel : nat) : Prop :=
  ∀ c s ts, cmd_ok c → at_ s (toks lev c ++ ts) → follow l ts → (3 * (es - s) + k ≤ fuel)%nat →
    ∃ m s', f s fuel = Ok (m, s') ∧ (s ≤ s' ≤ es)%nat ∧ at_ s' ts ∧ cmd_rel m c.

Lemma follow_sym l c ts : c ∈ l → follow l (TSym c :: ts).
Proof. intros Hc. right. by exists c, ts. Qed.

Lemma parse_exec fuel : parses (parseline buf) 3 [41] 3 fuel → parses (parseexec buf) 0 [124; 41; 38; 59] 1 (S fuel).
Proof.
  intros IH c s ts Hok Ha Hfo Hf. destruct (unwrap c Hok) as (b & rs & -> & Hb & Hokb & Hrs & Et). rewrite Et, <- app_assoc in Ha.
  assert (starts ts (of_string "<>") = false) as Hst by (by eapply follow_starts).
  assert ((∃ ws, b = EXEC ws) ∨ toks 0 b = TSym 40 :: toks 3 b ++ [TSym 41]) as [(ws & ->)|Eb] by (destruct b; [left; by eexists|done|by right..]).
  - destruct (peek_spec s _ (of_string "(") Ha) as (s1 & E & Hs & Ha1). cbn [cmd_ok] in Hokb. destruct Hokb as [Hw Hl].
    assert (starts ((TWord <$> ws) ++ (rs ≫= rtoks) ++ ts) (of_string "(") = false) as Hblock.
    { destruct ws as [|w ws]; [|apply starts_word; [by apply Forall_cons in Hw as [? _]|done]]. destruct rs as [|[[w mode] fd] rs]; [by eapply follow_starts|]. cbn. by destruct (fd =? 0). }
    assert (∃ ms s2, parseredirs buf s1 (S (Sh.es buf)) = Ok (ms, s2) ∧ (s1 ≤ s2 ≤ es)%nat ∧ at_ s2 ((TWord <$> ws) ++ (match ws with [] => [] | _ => rs end ≫= rtoks) ++ ts) ∧ Forall2 redir_rel ms (match ws with [] => rs | _ => [] end)) as (ms & s2 & E2 & Hs2 & Ha2 & HF2).
    { destruct ws as [|w ws].
      - apply parseredirs_spec; [done|done|done|unfold Sh.es; lia].
      - apply (parseredirs_spec []); [done|done|apply starts_word; [by apply Forall_cons in Hw as [? _]|done]|unfold Sh.es; lia]. }
    destruct (args_loop_spec rs ts Hrs Hfo ws s2 [] ms (S (Sh.es buf)) Ha2 Hw) as (am & ms' & s' & E3 & Hs3 & Ha3 & HFa & HFm); [done|unfold Sh.es; lia|].
    exists (wrap (EXEC am) (ms ++ ms')), s'. split_and!; [|lia|lia|done|].
    + cbn [parseexec]. rewrite E. cbn [toks]. rewrite Hblock, E2. cbn [mbind outcome_bind]. rewrite E3. done.
    + apply rel_wrap; [|done]. destruct ws; [inversion HFm; subst; by rewrite app_nil_r|]. inversion HF2; subst. done.
  - rewrite Eb in Ha. cbn [app] in Ha. rewrite <- app_assoc in Ha. destruct (peek_spec s _ (of_string "(") Ha) as (s1 & E & Hs & Ha1). destruct (gettoken_spec s1 _ _ Ha1) as (q & e & s2 & E2 & Hs2 & Ha2 & _).
    destruct (IH b s2 _ Hokb Ha2) as (m & s3 & E3 & Hs3 & Ha3 & Hrel); [apply follow_sym; left|lia|]. cbn [app] in Ha3.
    destruct (peek_spec s3 _ (of_string ")") Ha3) as (s4 & E4 & Hs4 & Ha4). destruct (gettoken_spec s4 _ _ Ha4) as (q5 & e5 & s5 & E5 & Hs5 & Ha5 & _).
    destruct (parseredirs_spec rs s5 ts (S (Sh.es buf)) Ha5 Hrs Hst) as (ms & s' & E6 & Hs6 & Ha6 & HF); [unfold Sh.es; lia|]. exists (wrap m ms), s'. split_and!; [|lia|lia|done|by apply rel_wrap].
    cbn [parseexec]. rewrite E. change (starts (TSym 40 :: _) _) with true. rewrite E2. cbn match. rewrite E3. cbn [mbind outcome_bind]. rewrite E4. change (starts (TSym 41 :: _) _) with true. cbn [negb]. rewrite E5. cbn match. rewrite E6. done.
Qed.

Lemma parse_pipe fuel : parses (parseexec buf) 0 [124; 41; 38; 59] 1 fuel → parses (parsepipe buf) 1 [41; 38; 59] 2 fuel → parses (parsepipe buf) 1 [41; 38; 59] 2 (S fuel).
Proof.
  intros IHe IHp c s ts Hok Ha Hfo Hf. assert ((∃ l r, c = PIPE l r) ∨ toks 1 c = toks 0 c) as [(l & r & ->)|Ec] by (destruct c; [by right|by right|left; by eexists _, _|by right|by right]).
  - cbn [toks paren Nat.ltb Nat.leb] in Ha. rewrite <- app_assoc in Ha. destruct Hok as [Hl Hr]. cbn [app] in Ha. destruct (IHe l s _ Hl Ha) as (m & s1 & E1 & Hs1 & Ha1 & Hrel); [apply follow_sym; left|lia|].
    destruct (peek_spec s1 _ (of_string "|") Ha1) as (s2 & E2 & Hs2 & Ha2). destruct (gettoken_spec s2 _ _ Ha2) as (q & e & s3 & E3 & Hs3 & Ha3 & _). destruct (IHp r s3 ts Hr Ha3 Hfo) as (m2 & s4 & E4 & Hs4 & Ha4 & Hrel2); [lia|].
    exists (PIPE m m2), s4. split_and!; [|lia|lia|done|done]. cbn [parsepipe]. rewrite E1. cbn [mbind outcome_bind]. rewrite E2. change (starts (TSym 124 :: _) _) with true. rewrite E3. cbn match. rewrite E4. done.
  - rewrite Ec in Ha. destruct (IHe c s ts Hok Ha) as (m & s1 & E1 & Hs1 & Ha1 & Hrel); [|lia|].
    { destruct Hfo as [->|(x & ts' & -> & Hx)]; [by left|apply follow_sym; by right]. }
    destruct (peek_spec s1 _ (of_string "|") Ha1) as (s2 & E2 & Hs2 & Ha2). exists m, s2. split_and!; [|lia|lia|done|done]. cbn [parsepipe]. rewrite E1. cbn [mbind outcome_bind]. rewrite E2, (follow_starts _ _ _ Hfo) by done. done.
Qed.

(** The part of a line up to a semicolon. *)
Lemma parse_front fuel c s ts : parses (parsepipe buf) 1 [41; 38; 59] 2 fuel → cmd_ok c → at_ s (toks 2 c ++ ts) → follow [41; 59] ts → (3 * (es - s) + 3 ≤ S fuel)%nat →
  ∃ m s1 m2 s2, parsepipe buf s fuel = Ok (m, s1) ∧ back_loop buf m s1 (S (Sh.es buf)) = Ok (m2, s2) ∧ (s ≤ s2 ≤ es)%nat ∧ at_ s2 ts ∧ cmd_rel m2 c.
Proof.
  intros IH Hok Ha Hfo Hf. destruct (strip c Hok) as (d & k & -> & Hd & Et). rewrite Et, <- app_assoc in Ha. destruct (IH d s _ Hd Ha) as (m & s1 & E1 & Hs1 & Ha1 & Hrel); [|lia|].
  { destruct k; [|apply follow_sym; right; left]. destruct Hfo as [->|(x & ts' & -> & Hx)]; [by left|apply follow_sym]. apply elem_of_cons in Hx as [->|Hx]; [left|right; by right]. }
  destruct (back_loop_spec k ts (follow_starts _ _ (of_string "&") Hfo eq_refl) m s1 (S (Sh.es buf)) Ha1) as (s2 & E2 & Hs2 & Ha2); [unfold Sh.es; lia|].
  exists m, s1, (Nat.iter k BACK m), s2. split_and!; [done|done|lia|lia|done|by apply rel_back].
Qed.

Lemma parse_line fuel : parses (parsepipe buf) 1 [41; 38; 59] 2 fuel → parses (parseline buf) 3 [41] 3 fuel → parses (parseline buf) 3 [41] 3 (S fuel).
Proof.
  intros IHp IHl c s ts Hok Ha Hfo Hf. assert ((∃ l r, c = LIST l r) ∨ toks 3 c = toks 2 c) as [(l & r & ->)|Ec] by (destruct c; [by right|by right|by right|left; by eexists _, _|by right]).
  - cbn [toks paren Nat.ltb Nat.leb] in Ha. rewrite <- app_assoc in Ha. destruct Hok as [Hl Hr]. cbn [app] in Ha. destruct (parse_front fuel l s _ IHp Hl Ha) as (m & s1 & m2 & s2 & E1 & E2 & Hs2 & Ha2 & Hrel); [apply follow_sym; right; left|lia|].
    destruct (peek_spec s2 _ (of_string ";") Ha2) as (s3 & E3 & Hs3 & Ha3). destruct (gettoken_spec s3 _ _ Ha3) as (q & e & s4 & E4 & Hs4 & Ha4 & _). destruct (IHl r s4 ts Hr Ha4 Hfo) as (m5 & s5 & E5 & Hs5 & Ha5 & Hrel2); [lia|].
    exists (LIST m2 m5), s5. split_and!; [|lia|lia|done|done]. cbn [parseline]. rewrite E1. cbn [mbind outcome_bind]. rewrite E2. cbn [mbind outcome_bind]. rewrite E3. change (starts (TSym 59 :: _) _) with true. rewrite E4. cbn match. rewrite E5. done.
  - rewrite Ec in Ha. destruct (parse_front fuel c s ts IHp Hok Ha) as (m & s1 & m2 & s2 & E1 & E2 & Hs2 & Ha2 & Hrel); [|lia|].
    { destruct Hfo as [->|(x & ts' & -> & Hx)]; [by left|apply follow_sym]. apply list_elem_of_singleton in Hx as ->. left. }
    destruct (peek_spec s2 _ (of_string ";") Ha2) as (s3 & E3 & Hs3 & Ha3). exists m2, s3. split_and!; [|lia|lia|done|done]. cbn [parseline]. rewrite E1. cbn [mbind outcome_bind]. rewrite E2. cbn [mbind outcome_bind]. rewrite E3, (follow_starts _ _ _ Hfo) by done. done.
Qed.

Lemma parse_all fuel : parses (parseline buf) 3 [41] 3 fuel ∧ parses (parsepipe buf) 1 [41; 38; 59] 2 fuel ∧ parses (parseexec buf) 0 [124; 41; 38; 59] 1 fuel.
Proof.
  induction fuel as [|fuel (IHl & IHp & IHe)]; [split_and!; intros c s ts _ _ _ Hf; lia|]. split_and!; [by apply parse_line|by apply parse_pipe|by apply parse_exec].
Qed.
(** * The strings of a parsed command *)

Fixpoint ends_of (c : cmd mark) : list nat :=
  match c with
  | EXEC ms => ms.*2
  | REDIR c (_, e) _ _ => e :: ends_of c
  | PIPE l r | LIST l r => ends_of l ++ ends_of r
  | BACK c => ends_of c
  end.

Lemma foldl_nul (ms : list mark) (b : list Z) i : i ∈ ms.*2 ∧ (i < length b)%nat ∨ b !! i = Some 0 → foldl (λ b '(_, e), <[e := 0]> b) b ms !! i = Some 0.
Proof.
  revert b. induction ms as [|[q e] ms IH]; intros b; cbn [foldl fmap list_fmap snd].
  - intros [[[]%not_elem_of_nil _]|]; done.
  - intros H. apply IH. rewrite length_insert. destruct H as [[[->|Hin]%elem_of_cons Hl]|H]; [right; by apply list_lookup_insert_eq|by left|right].
    destruct (decide (e = i)) as [->|]; [apply list_lookup_insert_eq; by eapply lookup_lt_Some|by rewrite list_lookup_insert_ne].
Qed.

Lemma foldl_nul_ne (ms : list mark) (b : list Z) i : i ∉ ms.*2 → foldl (λ b '(_, e), <[e := 0]> b) b ms !! i = b !! i.
Proof.
  revert b. induction ms as [|[q e] ms IH]; intros b; cbn [foldl fmap list_fmap snd]; [done|]. intros [Hne Hin]%not_elem_of_cons. rewrite IH by done. by rewrite list_lookup_insert_ne.
Qed.

Lemma length_foldl_nul (ms : list mark) (b : list Z) : length (foldl (λ b '(_, e), <[e := 0]> b) b ms) = length b.
Proof. revert b. induction ms as [|[q e] ms IH]; intros b; cbn; [done|]. by rewrite IH, length_insert. Qed.

Lemma length_nul c b : length (nulterminate c b) = length b.
Proof. revert b. induction c as [ms|c IH [q e] mode fd|l IHl r IHr|l IHl r IHr|c IH]; intros b; cbn [nulterminate]; [apply length_foldl_nul|by rewrite length_insert|by rewrite IHr, IHl|by rewrite IHr, IHl|done]. Qed.

Lemma nul_at c b i : i ∈ ends_of c ∧ (i < length b)%nat ∨ b !! i = Some 0 → nulterminate c b !! i = Some 0.
Proof.
  revert b. induction c as [ms|c IH [q e] mode fd|l IHl r IHr|l IHl r IHr|c IH]; intros b; cbn [nulterminate ends_of].
  - apply foldl_nul.
  - intros H. destruct (decide (e = i)) as [->|Hne].
    + apply list_lookup_insert_eq. rewrite length_nul. destruct H as [[_ ?]|H]; [done|by eapply lookup_lt_Some].
    + rewrite list_lookup_insert_ne by done. apply IH. destruct H as [[[->|?]%elem_of_cons ?]|?]; [done|by left|by right].
  - rewrite elem_of_app. intros H. apply IHr. rewrite length_nul. destruct H as [[[H|H] Hl]|H]; [right; apply IHl; by left|by left|right; apply IHl; by right].
  - rewrite elem_of_app. intros H. apply IHr. rewrite length_nul. destruct H as [[[H|H] Hl]|H]; [right; apply IHl; by left|by left|right; apply IHl; by right].
  - apply IH.
Qed.

Lemma nul_ne c b i : i ∉ ends_of c → nulterminate c b !! i = b !! i.
Proof.
  revert b. induction c as [ms|c IH [q e] mode fd|l IHl r IHr|l IHl r IHr|c IH]; intros b; cbn [nulterminate ends_of].
  - apply foldl_nul_ne.
  - intros [Hne Hin]%not_elem_of_cons. rewrite list_lookup_insert_ne by done. by apply IH.
  - rewrite not_elem_of_app. intros [H1 H2]. by rewrite IHr, IHl.
  - rewrite not_elem_of_app. intros [H1 H2]. by rewrite IHr, IHl.
  - apply IH.
Qed.

Lemma marks_end m w : marks m w → (m.2 ≤ es)%nat ∧ ∀ c, buf !! m.2 = Some c → ¬ word_char c.
Proof.
  intros (l & Ed & -> & Hw & He). assert (m.1 ≤ es)%nat as Hs.
  { destruct (decide (m.1 ≤ es)%nat); [done|]. rewrite drop_ge in Ed by lia. destruct Hw as [Hw _]. by destruct w. }
  pose proof (drop_length _ _ _ Ed Hs). apply drop_step in Ed. split; [lia|]. intros c Hc. rewrite <- (Nat.add_0_r (m.1 + length w)), <- lookup_drop, Ed in Hc. destruct l as [|x l]; [done|]. by injection Hc as ->.
Qed.

(** No end of a word of [c] is inside a word. *)
Definition ends_ok (c : cmd mark) : Prop := ∀ e, e ∈ ends_of c → (e ≤ es)%nat ∧ ∀ x, buf !! e = Some x → ¬ word_char x.

Lemma rel_ends c d : cmd_rel c d → ends_ok c.
Proof.
  revert d. induction c as [ms|c IH [q e] mode fd|l IHl r IHr|l IHl r IHr|c IH]; intros [ws|d w mode' fd'|d1 d2|d1 d2|d] H; try done; cbn [cmd_rel] in H; unfold ends_ok; cbn [ends_of].
  - intros e ([q e'] & -> & Hin)%list_elem_of_fmap. apply list_elem_of_lookup in Hin as (i & Hi). destruct (Forall2_lookup_l _ _ _ _ _ H Hi) as (w & _ & Hw). by apply marks_end in Hw.
  - destruct H as (H1 & H2 & _). intros e' [->|Hin]%elem_of_cons; [by apply marks_end in H2|by apply (IH d)].
  - destruct H as [H1 H2]. intros e [Hin|Hin]%elem_of_app; [by apply (IHl d1)|by apply (IHr d2)].
  - destruct H as [H1 H2]. intros e [Hin|Hin]%elem_of_app; [by apply (IHl d1)|by apply (IHr d2)].
  - by apply (IH d).
Qed.

Lemma cstr_word w l : Forall word_char w → cstr (w ++ 0 :: l) = w.
Proof. induction 1 as [|c w (Hc & _) Hw IH]; [done|]. cbn. rewrite (proj2 (Z.eqb_neq c 0) Hc). by f_equal. Qed.

(** In a buffer in which only ends of words are overwritten. *)
Lemma cstr_marks b q e w : marks (q, e) w → (∀ i x, buf !! i = Some x → word_char x → b !! i = Some x) → b !! e = Some 0 → cstr (drop q b) = w.
Proof.
  intros (l & Ed & Ee & [Hn Hw] & _) Hb He. cbn in Ed, Ee. subst e. assert (drop q b = w ++ 0 :: drop (S (length w)) (drop q b)) as ->; [|by apply cstr_word].
  rewrite <- (take_drop (length w) (drop q b)) at 1. f_equal.
  - apply list_eq. intros i. destruct (decide (i < length w)%nat) as [Hi|Hi]; [|rewrite lookup_take_ge, lookup_ge_None_2 by lia; done].
    rewrite lookup_take_lt, lookup_drop by done. destruct (lookup_lt_is_Some_2 w i Hi) as [x Hx]. rewrite Hx. apply Hb; [|rewrite Forall_lookup in Hw; by eapply Hw].
    rewrite <- lookup_drop, Ed. by apply lookup_app_l_Some.
  - rewrite !drop_drop. rewrite (drop_S b 0) by done. f_equal. f_equal. lia.
Qed.

Lemma resolve_rel b c d : cmd_rel c d → (∀ i x, buf !! i = Some x → word_char x → b !! i = Some x) → (∀ e, e ∈ ends_of c → b !! e = Some 0) → resolve b c = d.
Proof.
  intros H Hb. unfold resolve. revert d H. induction c as [ms|c IH [q e] mode fd|l IHl r IHr|l IHl r IHr|c IH]; intros [ws|d w mode' fd'|d1 d2|d1 d2|d] H He; try done; cbn [cmd_rel] in H; cbn [map_cmd ends_of] in *.
  - f_equal. apply list_eq_Forall2. apply Forall2_fmap_l. apply Forall2_same_length_lookup_2; [by eapply Forall2_length|]. intros i [q e] w Hi Hw. eapply cstr_marks; [by eapply Forall2_lookup_lr|done|].
    apply He. apply list_elem_of_fmap. exists (q, e). split; [done|by eapply list_elem_of_lookup_2].
  - destruct H as (H1 & H2 & -> & ->). f_equal; [apply IH; [done|intros; apply He; by right]|]. eapply cstr_marks; [done|done|]. apply He. left.
  - destruct H as [H1 H2]. f_equal; [apply IHl|apply IHr]; try done; intros e Hin; apply He, elem_of_app; auto.
  - destruct H as [H1 H2]. f_equal; [apply IHl|apply IHr]; try done; intros e Hin; apply He, elem_of_app; auto.
  - f_equal. by apply IH.
Qed.
End buf.

(** C34. The shell reads commands back.  A command of words, redirections, pipelines, lists and background jobs, nested in any way, is written as a line with parentheses where the levels need
    them, and with any white space between the tokens.  [parsecmd] of that line returns a command in which, once the line is terminated behind each word, every
    pointer points to the string that was written, and the structure is the same. *)
Theorem shell_reads_back c line : cmd_ok c → spells (toks 3 c) line → ∃ m b, parsecmd line = Ok (m, b) ∧ resolve b m = c.
Proof.
  intros Hok Hsp. destruct (parse_all line (3 * length line + 3)) as [HL _]. destruct (HL c 0%nat [] Hok) as (m & s & E & Hs & Ha & Hrel); [|by left|lia|].
  { rewrite app_nil_r. split; [lia|done]. }
  destruct (skip_ws_spec line s [] Ha) as (s1 & E1 & _ & _ & ->). exists m, (nulterminate m (line ++ [0])). split.
  - unfold parsecmd. rewrite E. cbn [mbind outcome_bind]. unfold peek. rewrite E1, Nat.eqb_refl. done.
  - pose proof (rel_ends line m c Hrel) as He. apply (resolve_rel line); [done| |].
    + intros i x Hi Hx. rewrite nul_ne; [by apply lookup_app_l_Some|]. intros Hin. apply He in Hin as [_ Hin]. by apply (Hin x).
    + intros e Hin. apply nul_at. left. split; [done|]. apply He in Hin as [Hin _]. rewrite length_app. cbn. lia.
Qed.

(** Decides a closed goal. *)
#[local] Ltac decided := refine (bool_decide_unpack _ _); exact I.

(** C34 for [(a;b>f)|c &]. *)
Lemma shell_reads_back_witness : let c := BACK (PIPE (LIST (EXEC [of_string "a"]) (REDIR (EXEC [of_string "b"]) (of_string "f") (Z.lor O_WRONLY O_CREATE) 1)) (EXEC [of_string "c"])) in
  ∃ m b, parsecmd (of_string "(a;b>f)|c &") = Ok (m, b) ∧ resolve b m = c.
Proof.
  intros c. assert (is_word [97] ∧ is_word [98] ∧ is_word [99] ∧ is_word [102]) as (Ha & Hb & Hc & Hf) by (split_and!; decided).
  apply shell_reads_back.
  - cbn [cmd_ok c]. split_and!; first [done|by right|by constructor|cbn; unfold MAXARGS; lia].
  - apply (sp_cons [] (TSym 40)); [done|cbn [tok_ok]; decided|done|]. apply (sp_cons [] (TWord [97])); [done|done|by intros (_ & _ & ?)|]. apply (sp_cons [] (TSym 59)); [done|cbn [tok_ok]; decided|done|].
    apply (sp_cons [] (TWord [98])); [done|done|by intros (_ & _ & ?)|]. apply (sp_cons [] (TSym 62)); [done|cbn [tok_ok]; decided|done|]. apply (sp_cons [] (TWord [102])); [done|done|by intros (_ & _ & ?)|].
    apply (sp_cons [] (TSym 41)); [done|cbn [tok_ok]; decided|done|]. apply (sp_cons [] (TSym 124)); [done|cbn [tok_ok]; decided|done|]. apply (sp_cons [] (TWord [99])); [done|done|by intros (_ & ? & _)|].
    apply (sp_cons [32] (TSym 38)); [by constructor|cbn [tok_ok]; decided|done|]. by apply sp_nil.
Defined.

(** * Every line *)

Section total.
Context (buf : list Z).
#[local] Abbreviation es := (length buf).

Lemma skip_bounds p fuel : ∀ s, (s ≤ es)%nat → (s ≤ skip_while buf p s fuel ≤ es)%nat.
Proof using.
  induction fuel as [|fuel IH]; intros s Hs; cbn [skip_while]; [lia|]. destruct ((s <? Sh.es buf)%nat && p (char_at buf s)) eqn:E; [|lia].
  apply andb_true_iff in E as [E%Nat.ltb_lt _]. unfold Sh.es in E. pose proof (IH (S s) ltac:(lia)). lia.
Qed.

Lemma skip_ws_bounds s : (s ≤ es)%nat → (s ≤ skip_ws buf s ≤ es)%nat.
Proof using. apply skip_bounds. Qed.

Lemma skip_stop p s fuel : p (char_at buf s) = false → skip_while buf p s fuel = s.
Proof using. intros E. destruct fuel; cbn [skip_while]; [done|]. by rewrite E, andb_false_r. Qed.

Lemma skip_go p s fuel : (s < es)%nat → p (char_at buf s) = true → (0 < fuel)%nat → (s < skip_while buf p s fuel)%nat.
Proof using.
  intros Hs E Hf. destruct fuel as [|fuel]; [lia|]. cbn [skip_while]. rewrite E. replace (s <? Sh.es buf)%nat with true by (symmetry; by apply Nat.ltb_lt). cbn [andb]. pose proof (skip_bounds p fuel (S s) ltac:(lia)). lia.
Qed.

Lemma char_nonzero s : char_at buf s ≠ 0 → (s < es)%nat.
Proof using. intros H. unfold char_at in H. destruct (buf !! s) eqn:E; [by eapply lookup_lt_Some|done]. Qed.

(** White space is skipped to its end. *)
Lemma skip_ws_char fuel : ∀ s, (s ≤ es)%nat → (es - s ≤ fuel)%nat → in_chars whitespace (char_at buf (skip_while buf (in_chars whitespace) s fuel)) = false.
Proof using.
  induction fuel as [|fuel IH]; intros s Hs Hf; cbn [skip_while].
  - unfold char_at. rewrite lookup_ge_None_2 by lia. done.
  - destruct (s <? Sh.es buf)%nat eqn:E; cbn [andb]; [|apply Nat.ltb_ge in E; unfold Sh.es in E; unfold char_at; by rewrite lookup_ge_None_2 by lia].
    apply Nat.ltb_lt in E. unfold Sh.es in E. destruct (in_chars whitespace (char_at buf s)) eqn:Ew; [apply IH; lia|done].
Qed.

(** A token that is not the end moves forward. *)
Lemma gettoken_bounds s : (s ≤ es)%nat → let '(tok, q, e, s') := gettoken buf s in (s ≤ s' ≤ es)%nat ∧ (tok ≠ 0 → (s < s')%nat) ∧ (char_at buf s ≠ 0 → in_chars whitespace (char_at buf s) = false → tok ≠ 0).
Proof using.
  intros Hs. unfold gettoken. pose proof (skip_ws_bounds s Hs) as Hq. pose proof (skip_ws_char es s Hs ltac:(lia)) as Hw. fold es in Hw. change (skip_while buf (in_chars whitespace) s es) with (skip_ws buf s) in Hw.
  assert (in_chars whitespace (char_at buf s) = false → skip_ws buf s = s) as Hst by (intros; by apply skip_stop). set (q := skip_ws buf s) in *.
  destruct (Z.eqb_spec (char_at buf q) 0) as [Hc|Hc].
  - pose proof (skip_ws_bounds q ltac:(lia)). split_and!; [lia|lia|done|]. intros Hn Hws. rewrite <- (Hst Hws) in Hn. done.
  - pose proof (char_nonzero q Hc) as Hlt. destruct (in_chars (of_string "|();&<") (char_at buf q)) eqn:E1; [pose proof (skip_ws_bounds (S q) ltac:(lia)); split_and!; [lia|lia|lia|done]|].
    destruct (Z.eqb_spec (char_at buf q) 62) as [H62|H62].
    + destruct (Z.eqb_spec (char_at buf (S q)) 62) as [E2|E2].
      * assert (S q < es)%nat by (apply char_nonzero; lia). pose proof (skip_ws_bounds (S (S q)) ltac:(lia)). split_and!; [lia|lia|lia|done].
      * pose proof (skip_ws_bounds (S q) ltac:(lia)). split_and!; [lia|lia|lia|done].
    + set (p := λ c, negb (in_chars whitespace c) && negb (in_chars symbols c)). assert (p (char_at buf q) = true) as Hp.
      { unfold p. rewrite Hw. cbn [negb andb]. apply negb_true_iff, in_chars_false; [by repeat constructor|]. intros Hin. apply sym_cases in Hin as (_ & _ & [?|?]); [done|congruence]. }
      pose proof (skip_go p q (Sh.es buf) Hlt Hp ltac:(unfold Sh.es; lia)). pose proof (skip_bounds p (Sh.es buf) q ltac:(lia)). pose proof (skip_ws_bounds (skip_while buf p q (Sh.es buf)) ltac:(lia)). split_and!; [lia|lia|lia|done].
Qed.

(** After [peek] has seen a symbol, [gettoken] moves forward. *)
Lemma peek_bounds s l : (s ≤ es)%nat → let '(b, s1) := peek buf s l in (s ≤ s1 ≤ es)%nat ∧ (b = true → let '(_, _, _, s2) := gettoken buf s1 in (s1 < s2 ≤ es)%nat).
Proof using.
  intros Hs. unfold peek. pose proof (skip_ws_bounds s Hs) as Hq. pose proof (skip_ws_char es s Hs ltac:(lia)) as Hw. change (skip_while buf (in_chars whitespace) s es) with (skip_ws buf s) in Hw. set (q := skip_ws buf s) in *.
  split; [lia|]. intros [E _]%andb_true_iff. apply negb_true_iff, Z.eqb_neq in E. pose proof (gettoken_bounds q ltac:(lia)) as Hg. destruct (gettoken buf q) as [[[tok q'] e] s2]. destruct Hg as (H1 & H2 & H3). specialize (H2 (H3 E Hw)). lia.
Qed.

(** A result, or an error that is reported. *)
Definition fine {A} (s : nat) (r : outcome (A * nat)) : Prop := match r with Ok (_, s') => (s ≤ s' ≤ es)%nat | Panic _ => True | _ => False end.

Lemma fine_bind {A B} s (r : outcome (A * nat)) (f : A * nat → outcome (B * nat)) : fine s r → (∀ a s', (s ≤ s' ≤ es)%nat → fine s (f (a, s'))) → fine s (r ≫= f).
Proof using. destruct r as [[a s']| | |]; cbn; auto. Qed.

Lemma fine_le {A} s s' (r : outcome (A * nat)) : (s ≤ s')%nat → fine s' r → fine s r.
Proof using. destruct r as [[a s'']| | |]; cbn; try done. lia. Qed.

Lemma fine_redirs fuel : ∀ s, (s ≤ es)%nat → (es - s < fuel)%nat → fine s (parseredirs buf s fuel).
Proof using.
  induction fuel as [|fuel IH]; intros s Hs Hf; [lia|]. cbn [parseredirs]. pose proof (peek_bounds s (of_string "<>") Hs) as Hp. destruct (peek buf s (of_string "<>")) as [[|] s1]; destruct Hp as [Hp1 Hp2]; [|cbn; lia].
  specialize (Hp2 eq_refl). destruct (gettoken buf s1) as [[[t q] e] s2]. pose proof (gettoken_bounds s2 ltac:(lia)) as Hg. destruct (gettoken buf s2) as [[[t2 q2] e2] s3]. destruct Hg as (Hg & _). destruct (negb _); [done|].
  apply (fine_le s s3); [lia|]. apply fine_bind; [apply IH; lia|]. intros rs s' Hs'. cbn. lia.
Qed.

Lemma fine_args fuel : ∀ s argv rs, (s ≤ es)%nat → (es - s < fuel)%nat → fine s (args_loop buf s argv rs fuel).
Proof using.
  induction fuel as [|fuel IH]; intros s argv rs Hs Hf; [lia|]. cbn [args_loop]. pose proof (peek_bounds s (of_string "|)&;") Hs) as Hp. destruct (peek buf s (of_string "|)&;")) as [[|] s1]; destruct Hp as [Hp1 _]; [cbn; lia|].
  pose proof (gettoken_bounds s1 ltac:(lia)) as Hg. destruct (gettoken buf s1) as [[[t q] e] s2]. destruct Hg as (Hg1 & Hg2 & _). destruct (Z.eqb_spec t 0) as [->|Ht]; [cbn; lia|]. specialize (Hg2 Ht).
  destruct (negb _); [done|]. destruct (MAXARGS <=? _)%nat; [done|]. apply (fine_le s s2); [lia|]. apply fine_bind; [apply fine_redirs; [lia|unfold Sh.es; lia]|]. intros rs' s' Hs'. apply (fine_le s2 s'); [lia|]. apply IH; lia.
Qed.

Lemma fine_back fuel : ∀ c s, (s ≤ es)%nat → (es - s < fuel)%nat → fine s (back_loop buf c s fuel).
Proof using.
  induction fuel as [|fuel IH]; intros c s Hs Hf; [lia|]. cbn [back_loop]. pose proof (peek_bounds s (of_string "&") Hs) as Hp. destruct (peek buf s (of_string "&")) as [[|] s1]; destruct Hp as [Hp1 Hp2]; [|cbn; lia].
  specialize (Hp2 eq_refl). destruct (gettoken buf s1) as [[[t q] e] s2]. apply (fine_le s s2); [lia|]. apply IH; lia.
Qed.

Lemma fine_all fuel : ∀ s, (s ≤ es)%nat → ((3 * (es - s) + 3 ≤ fuel)%nat → fine s (parseline buf s fuel)) ∧ ((3 * (es - s) + 2 ≤ fuel)%nat → fine s (parsepipe buf s fuel)) ∧ ((3 * (es - s) + 1 ≤ fuel)%nat → fine s (parseexec buf s fuel)).
Proof using.
  induction fuel as [|fuel IH]; intros s Hs; [lia|]. split_and!; intros Hf.
  - cbn [parseline]. apply fine_bind; [apply IH; lia|]. intros c s1 Hs1. apply (fine_le s s1); [lia|]. apply fine_bind; [apply fine_back; [lia|unfold Sh.es; lia]|]. intros c2 s2 Hs2.
    pose proof (peek_bounds s2 (of_string ";") ltac:(lia)) as Hp. destruct (peek buf s2 (of_string ";")) as [[|] s3]; destruct Hp as [Hp1 Hp2]; [|cbn; lia]. specialize (Hp2 eq_refl). destruct (gettoken buf s3) as [[[t q] e] s4].
    apply (fine_le s1 s4); [lia|]. apply fine_bind; [apply IH; lia|]. intros c3 s5 Hs5. cbn. lia.
  - cbn [parsepipe]. apply fine_bind; [apply IH; lia|]. intros c s1 Hs1.
    pose proof (peek_bounds s1 (of_string "|") ltac:(lia)) as Hp. destruct (peek buf s1 (of_string "|")) as [[|] s3]; destruct Hp as [Hp1 Hp2]; [|cbn; lia]. specialize (Hp2 eq_refl). destruct (gettoken buf s3) as [[[t q] e] s4].
    apply (fine_le s s4); [lia|]. apply fine_bind; [apply IH; lia|]. intros c3 s5 Hs5. cbn. lia.
  - cbn [parseexec]. pose proof (peek_bounds s (of_string "(") Hs) as Hp. destruct (peek buf s (of_string "(")) as [[|] s1]; destruct Hp as [Hp1 Hp2].
    + specialize (Hp2 eq_refl). destruct (gettoken buf s1) as [[[t q] e] s2]. apply (fine_le s s2); [lia|]. apply fine_bind; [apply IH; lia|]. intros c s3 Hs3.
      pose proof (peek_bounds s3 (of_string ")") ltac:(lia)) as Hp. destruct (peek buf s3 (of_string ")")) as [[|] s4]; destruct Hp as [Hp3 Hp4]; [|done]. cbn [negb]. specialize (Hp4 eq_refl). destruct (gettoken buf s4) as [[[t5 q5] e5] s5].
      apply (fine_le s2 s5); [lia|]. apply fine_bind; [apply fine_redirs; [lia|unfold Sh.es; lia]|]. intros rs s6 Hs6. cbn. lia.
    + apply (fine_le s s1); [lia|]. apply fine_bind; [apply fine_redirs; [lia|unfold Sh.es; lia]|]. intros rs s2 Hs2. apply (fine_le s1 s2); [lia|].
      apply fine_bind; [apply fine_args; [lia|unfold Sh.es; lia]|]. intros [argv rs'] s3 Hs3. cbn. lia.
Qed.
End total.

(** C35. The parser ends on every line.  Whatever bytes a line has, [parsecmd] returns a command, with the line as long as before, or stops with one of the
    shell's error messages; it never runs on. *)
Theorem shell_parser_total line : (∃ m b, parsecmd line = Ok (m, b) ∧ length b = S (length line)) ∨ ∃ msg, parsecmd line = Panic msg.
Proof.
  unfold parsecmd. destruct (fine_all line (3 * length line + 3) 0 ltac:(lia)) as [HF _]. specialize (HF ltac:(lia)).
  destruct (parseline line 0 (3 * length line + 3)) as [[m s]|msg| |]; cbn [mbind outcome_bind]; [|right; by exists msg|done..]. destruct (peek line s []) as [b s1]. destruct (negb _); [right; by eexists|left].
  eexists _, _. split; [done|]. rewrite length_nul, length_app. cbn. lia.
Qed.
