(* ===== verification/Console.v ===== *)
(** The console (src/p4/console.c): line editing of the input, reads of the console, and the screen.

    The ring of input bytes has three counters that grow without bound and wrap at 2^32: up to [e] bytes are typed, up to [w] they are committed, up to [r] they are
    read.  One turn of the loop of consoleintr is a function of the character; the loop of consoleread stops when the process sleeps, and goes on from there. *)

From Stdlib Require Import ZArith Lia.
From stdpp Require Import base numbers list strings.
From S2P Require Import Prelude.
#[local] Open Scope Z_scope.

Definition INPUT_BUF : Z := 128.
Definition BACKSPACE : Z := 256.
Definition ctl (x : Z) : Z := x - 64.
Definition CTRL_P : Z := ctl 80.
Definition CTRL_U : Z := ctl 85.
Definition CTRL_H : Z := ctl 72.
Definition CTRL_D : Z := ctl 68.
Definition DEL : Z := 127.
Definition CR : Z := 13.
Definition LF : Z := 10.

Record input := Input { i_buf : list Z; i_r : Z; i_w : Z; i_e : Z }.
Definition input_init : input := Input (replicate 128 0) 0 0 0.

Definition slot (k : Z) : nat := Z.to_nat (k mod INPUT_BUF).
Definition cell (s : input) (k : Z) : Z := nth (slot k) (i_buf s) 0.
Definition set_e (k : Z) (s : input) : input := Input (i_buf s) (i_r s) (i_w s) k.

(** The loop of [C('U')]. *)
Fixpoint kill_line (s : input) (fuel : nat) : outcome (list Z * input) :=
  if negb (i_e s =? i_w s) && negb (cell s (u32 (i_e s - 1)) =? LF) then
    match fuel with
    | O => NoFuel
    | S fuel' => '(echo, s) ← kill_line (set_e (u32 (i_e s - 1)) s) fuel'; Ok (BACKSPACE :: echo, s)
    end
  else Ok ([], s).

(** One character: what is echoed, and whether readers are woken up. *)
Definition consoleintr (s : input) (c : Z) : outcome (list Z * bool * input) :=
  if c =? CTRL_P then Ok ([], false, s)
  else if c =? CTRL_U then '(echo, s) ← kill_line s 128; Ok (echo, false, s)
  else if (c =? CTRL_H) || (c =? DEL) then
    if negb (i_e s =? i_w s) then Ok ([BACKSPACE], false, set_e (u32 (i_e s - 1)) s) else Ok ([], false, s)
  else if negb (c =? 0) && (u32 (i_e s - i_r s) <? INPUT_BUF) then
    let c := if c =? CR then LF else c in
    let s := Input (<[slot (i_e s) := u8 c]> (i_buf s)) (i_r s) (i_w s) (u32 (i_e s + 1)) in
    if (c =? LF) || (c =? CTRL_D) || (i_e s =? u32 (i_r s + INPUT_BUF)) then Ok ([c], true, Input (i_buf s) (i_r s) (i_e s) (i_e s))
    else Ok ([c], false, s)
  else Ok ([], false, s).

Inductive read_state := RDone | RSleep | RKilled.

(** The loop of [consoleread] with [n] of [target] bytes still to read: the bytes stored, and whether it has returned, sleeps, or returns -1 because
    the process is killed; the bytes left are then [n] less those stored. *)
Fixpoint consoleread_loop (killed : bool) (s : input) (target : Z) (n : nat) : list Z * read_state * input :=
  match n with
  | O => ([], RDone, s)
  | S n' =>
      if i_r s =? i_w s then ([], if killed then RKilled else RSleep, s)
      else
        let c := cell s (i_r s) in
        let s' := Input (i_buf s) (u32 (i_r s + 1)) (i_w s) (i_e s) in
        if c =? CTRL_D then ([], RDone, if Z.of_nat n <? target then Input (i_buf s) (u32 (i_r s' - 1)) (i_w s) (i_e s) else s')
        else if c =? LF then ([c], RDone, s')
        else let '(l, st, s'') := consoleread_loop killed s' target n' in (c :: l, st, s'')
  end.

(** ** The screen *)

(** Cells of CGA memory, and the position of the cursor. *)
Record cga := Cga { crt : list Z; cpos : Z }.
Definition CELLS : Z := 2000.

Definition store_cell (l : list Z) (i v : Z) : outcome (list Z) := if (0 <=? i) && (i <? Z.of_nat (length l)) then Ok (<[Z.to_nat i := v]> l) else Fault i.

Definition cgaputc (s : cga) (c : Z) : outcome cga :=
  let pos := cpos s in
  '(l, pos) ← (if c =? LF then Ok (crt s, pos + (80 - pos mod 80))
               else if c =? BACKSPACE then Ok (crt s, if 0 <? pos then pos - 1 else pos)
               else l ← store_cell (crt s) pos (Z.lor (Z.land c 255) 1792); Ok (l, pos + 1));
  if (pos <? 0) || (25 * 80 <? pos) then Panic "pos under/overflow"
  else
    let '(l, pos) :=
      if 24 <=? pos / 80 then
        let l := take 1840 (drop 80 l) ++ drop 1840 l in
        let pos := pos - 80 in
        (take (Z.to_nat pos) l ++ replicate (Z.to_nat (24 * 80 - pos)) 0 ++ drop 1920 l, pos)
      else (l, pos) in
    l ← store_cell l pos (Z.lor 32 1792);
    Ok (Cga l pos).

(** [consputc] sends three characters to the serial line for a [BACKSPACE]. *)
Definition consputc (s : cga) (c : Z) : outcome (list Z * cga) :=
  s ← cgaputc s c; Ok (if c =? BACKSPACE then [8; 32; 8] else [c], s).

Fixpoint consolewrite (s : cga) (l : list Z) : outcome (list Z * cga) :=
  match l with
  | [] => Ok ([], s)
  | c :: l' => '(o, s) ← consputc s (Z.land c 255); '(o', s) ← consolewrite s l'; Ok (o ++ o', s)
  end.

Example typing : (λ x, match x with Ok (_, _, s) => Some (consoleread_loop false s 10 10).1.1 | _ => None end)
    ('(_, _, s) ← consoleintr input_init 108; '(_, _, s) ← consoleintr s 115; '(_, _, s) ← consoleintr s 115; '(_, _, s) ← consoleintr s DEL; consoleintr s CR) = Some [108; 115; 10].
Proof. reflexivity. Qed.

(** * The input as a queue and a line *)

(** Bytes that can be read, and the line that is being typed. *)
Record con := Con { ready : list Z; line : list Z }.

Definition used (a : con) : Z := Z.of_nat (length (ready a) + length (line a)).

(** What a character does. *)
Definition key (a : con) (c : Z) : list Z * bool * con :=
  if c =? CTRL_P then ([], false, a)
  else if c =? CTRL_U then (replicate (length (line a)) BACKSPACE, false, Con (ready a) [])
  else if (c =? CTRL_H) || (c =? DEL) then
    match line a with [] => ([], false, a) | _ => ([BACKSPACE], false, Con (ready a) (take (pred (length (line a))) (line a))) end
  else if (c =? 0) || (INPUT_BUF <=? used a) then ([], false, a)
  else
    let c := if c =? CR then LF else c in
    let a' := Con (ready a) (line a ++ [c]) in
    if (c =? LF) || (c =? CTRL_D) || (used a' =? INPUT_BUF) then ([c], true, Con (ready a ++ line a ++ [c]) []) else ([c], false, a').

(** What a read takes: up to a newline, or up to an end of file, which stays if bytes were read before it. *)
Fixpoint take_line (killed : bool) (l : list Z) (target : Z) (n : nat) {struct n} : list Z * read_state * list Z :=
  match n with
  | O => ([], RDone, l)
  | S n' =>
      match l with
      | [] => ([], if killed then RKilled else RSleep, [])
      | c :: l' =>
          if c =? CTRL_D then ([], RDone, if Z.of_nat n <? target then l else l')
          else if c =? LF then ([c], RDone, l')
          else let '(r, st, l'') := take_line killed l' target n' in (c :: r, st, l'')
      end
  end.

(** ** The ring holds both *)

Record holds (s : input) (a : con) (R : Z) : Prop := {
  ho_len : length (i_buf s) = 128%nat;
  ho_r : i_r s = u32 R;
  ho_w : i_w s = u32 (R + Z.of_nat (length (ready a)));
  ho_e : i_e s = u32 (R + used a);
  ho_used : used a <= INPUT_BUF;
  ho_bytes : ∀ j c, (ready a ++ line a) !! j = Some c → cell s (R + Z.of_nat j) = c;
  ho_line : LF ∉ line a;
  ho_full : used a = INPUT_BUF → line a = [] }.

Lemma slot_u32 k : slot (u32 k) = slot k.
Proof. unfold slot, u32, INPUT_BUF. f_equal. apply Z.mod_mod_divide. by exists (2 ^ 25). Qed.

Lemma ring_slot_lt k : (slot k < 128)%nat.
Proof. unfold slot, INPUT_BUF. pose proof (Z.mod_pos_bound k 128). lia. Qed.

Lemma ring_slot_inj k k' : slot k = slot k' → - INPUT_BUF < k - k' < INPUT_BUF → k = k'.
Proof.
  unfold slot, INPUT_BUF. intros E Hk. pose proof (Z.mod_pos_bound k 128). pose proof (Z.mod_pos_bound k' 128). assert (k mod 128 = k' mod 128) as E' by lia.
  pose proof (Z.div_mod k 128). pose proof (Z.div_mod k' 128). lia.
Qed.

Lemma u32_diff R d : 0 <= d <= INPUT_BUF → u32 (u32 (R + d) - u32 R) = d.
Proof. intros Hd. unfold INPUT_BUF in Hd. unfold u32. rewrite <- Zminus_mod. replace (R + d - R) with d by lia. apply Z.mod_small. lia. Qed.

Lemma u32_eqb R d d' : 0 <= d <= INPUT_BUF → 0 <= d' <= INPUT_BUF → (u32 (R + d) =? u32 (R + d')) = (d =? d').
Proof.
  intros Hd Hd'. destruct (Z.eqb_spec d d') as [->|Hne]; [apply Z.eqb_refl|]. apply Z.eqb_neq. intros E.
  pose proof (u32_diff R d Hd) as E1. pose proof (u32_diff R d' Hd') as E2. rewrite E in E1. congruence.
Qed.

Lemma u32_pred R d : u32 (u32 (R + d) - 1) = u32 (R + (d - 1)).
Proof. unfold u32. rewrite Zminus_mod_idemp_l. f_equal. lia. Qed.

Lemma u32_succ k : u32 (u32 k + 1) = u32 (k + 1).
Proof. unfold u32. by rewrite Zplus_mod_idemp_l. Qed.

Lemma cell_u32 s k : cell s (u32 k) = cell s k.
Proof. unfold cell. by rewrite slot_u32. Qed.

Lemma used_line a : used a = Z.of_nat (length (ready a)) + Z.of_nat (length (line a)).
Proof. unfold used. lia. Qed.

Lemma holds_pop s rd l c R : holds s (Con rd (l ++ [c])) R → holds (set_e (u32 (i_e s - 1)) s) (Con rd l) R.
Proof.
  intros [H1 H2 H3 H4 H5 H6 H7 H8]. unfold used in *. cbn in *. rewrite length_app in *. cbn in *. split; unfold used; cbn; try done.
  - rewrite H4, u32_pred. f_equal. lia.
  - lia.
  - intros j x Hj. apply (H6 j x). rewrite app_assoc. by apply lookup_app_l_Some.
  - intros Hin. apply H7, elem_of_app. by left.
  - lia.
Qed.

Lemma pop_test s rd l c R : holds s (Con rd (l ++ [c])) R → (i_e s =? i_w s) = false ∧ cell s (u32 (i_e s - 1)) = c.
Proof.
  intros [H1 H2 H3 H4 H5 H6 H7 H8]. unfold used in *. cbn in *. rewrite length_app in *. cbn in *. split.
  - rewrite H4, H3, u32_eqb; [|clear -H5; unfold INPUT_BUF in *; lia|clear -H5; unfold INPUT_BUF in *; lia]. apply Z.eqb_neq. lia.
  - rewrite H4, u32_pred, cell_u32. rewrite <- (H6 (length rd + length l)%nat c); [f_equal; lia|]. rewrite app_assoc, lookup_app_r by (rewrite length_app; lia). rewrite length_app, Nat.sub_diag. done.
Qed.

Lemma empty_test s rd R : holds s (Con rd []) R → (i_e s =? i_w s) = true.
Proof. intros H. rewrite (ho_e _ _ _ H), (ho_w _ _ _ H). cbn. unfold used. cbn. rewrite Nat.add_0_r. apply Z.eqb_refl. Qed.

Lemma kill_line_spec l : ∀ s rd R fuel, holds s (Con rd l) R → (length l ≤ fuel)%nat → ∃ s', kill_line s fuel = Ok (replicate (length l) BACKSPACE, s') ∧ holds s' (Con rd []) R.
Proof.
  induction l as [|c l IH] using rev_ind; intros s rd R fuel H Hf.
  - exists s. split; [|done]. destruct fuel; cbn [kill_line]; by rewrite (empty_test _ _ _ H).
  - rewrite length_app in *. cbn in Hf. destruct fuel as [|fuel]; [lia|]. destruct (pop_test _ _ _ _ _ H) as [E1 E2]. destruct (IH _ rd R fuel (holds_pop _ _ _ _ _ H)) as (s' & E & H'); [lia|].
    exists s'. split; [|done]. cbn [kill_line]. rewrite E1, E2. pose proof (ho_line _ _ _ H) as Hl. cbn in Hl. assert (c ≠ LF) as Hc by (intros ->; apply Hl, elem_of_app; right; left).
    rewrite (proj2 (Z.eqb_neq c LF) Hc). cbn [negb andb]. rewrite E. cbn [mbind outcome_bind length]. by rewrite Nat.add_comm.
Qed.

(** A byte behind the others. *)
Lemma push_bytes s a R c : holds s a R → is_byte c → used a < INPUT_BUF →
  ∀ j x, (ready a ++ line a ++ [c]) !! j = Some x → nth (slot (R + Z.of_nat j)) (<[slot (i_e s) := u8 c]> (i_buf s)) 0 = x.
Proof.
  intros H Hc Hu j x Hj. pose proof (ho_len _ _ _ H) as Hl. rewrite (ho_e _ _ _ H), slot_u32. rewrite nth_lookup. rewrite app_assoc in Hj. destruct (decide (j < length (ready a ++ line a))%nat) as [Hlt|Hge].
  - rewrite lookup_app_l in Hj by done. rewrite list_lookup_insert_ne.
    + rewrite <- nth_lookup. by apply (ho_bytes _ _ _ H).
    + intros E. apply ring_slot_inj in E; unfold used, INPUT_BUF in *; rewrite length_app in Hlt; lia.
  - rewrite lookup_app_r in Hj by lia. rewrite length_app in Hj, Hge. assert (j = length (ready a) + length (line a))%nat as ->.
    { apply lookup_lt_Some in Hj. cbn in Hj. lia. }
    rewrite Nat.sub_diag in Hj. injection Hj as <-. fold (used a). unfold used. rewrite list_lookup_insert_eq by (rewrite Hl; apply ring_slot_lt). cbn. by apply u8_small.
Qed.

Lemma consoleintr_spec s a R c : holds s a R → is_byte c → ∃ s', consoleintr s c = Ok ((key a c).1, s') ∧ holds s' (key a c).2 R.
Proof.
  intros H Hc. unfold consoleintr, key. destruct a as [rd l]. cbn [ready line]. destruct (c =? CTRL_P); [by exists s|]. destruct (c =? CTRL_U).
  { pose proof (ho_used _ _ _ H) as Hu. unfold used, INPUT_BUF in Hu. cbn in Hu. destruct (kill_line_spec l s rd R 128 H) as (s' & -> & H'); [lia|]. by exists s'. }
  destruct ((c =? CTRL_H) || (c =? DEL)).
  { destruct l as [|c' l _] using rev_ind; [rewrite (empty_test _ _ _ H); by exists s|]. destruct (pop_test _ _ _ _ _ H) as [E1 _]. rewrite E1. cbn [negb]. apply holds_pop in H. eexists. split; [destruct (l ++ [c']) eqn:E; [by destruct l|reflexivity]|].
    destruct (l ++ [c']) eqn:E; [by destruct l|]. rewrite <- E. cbn [snd]. rewrite length_app. cbn [length]. rewrite Nat.add_1_r. cbn [pred]. by rewrite take_app_length. }
  assert (u32 (i_e s - i_r s) = used (Con rd l)) as Ed. { rewrite (ho_e _ _ _ H), (ho_r _ _ _ H). apply u32_diff. pose proof (ho_used _ _ _ H). unfold used in *. lia. }
  rewrite Ed. destruct (Z.eqb_spec c 0) as [->|Hc0]; cbn [negb andb orb]; [by exists s|]. destruct (Z.ltb_spec (used (Con rd l)) INPUT_BUF) as [Hlt|Hge]; cbn [andb]; [|replace (INPUT_BUF <=? used (Con rd l)) with true by lia; by exists s].
  replace (INPUT_BUF <=? used (Con rd l)) with false by lia. set (d := if c =? CR then LF else c). assert (is_byte d) as Hd by (unfold d, LF, is_byte in *; destruct (c =? CR); lia).
  pose proof (push_bytes _ _ _ d H Hd Hlt) as Hp. cbn [ready line] in Hp. cbn [i_e i_r i_buf].
  assert (used (Con rd (l ++ [d])) = used (Con rd l) + 1) as Eu by (unfold used; cbn; rewrite length_app; cbn; lia).
  assert (u32 (i_e s + 1) = u32 (R + used (Con rd (l ++ [d])))) as Ee by (rewrite (ho_e _ _ _ H), u32_succ; f_equal; lia).
  assert ((u32 (i_e s + 1) =? u32 (i_r s + INPUT_BUF)) = (used (Con rd (l ++ [d])) =? INPUT_BUF)) as ->.
  { rewrite Ee, (ho_r _ _ _ H). replace (u32 (u32 R + INPUT_BUF)) with (u32 (R + INPUT_BUF)) by (unfold u32; by rewrite Zplus_mod_idemp_l). apply u32_eqb; unfold INPUT_BUF in *; unfold used in *; lia. }
  destruct ((d =? LF) || (d =? CTRL_D) || (used (Con rd (l ++ [d])) =? INPUT_BUF)) eqn:Ew.
  - eexists. split; [reflexivity|]. cbn [snd]. split; cbn; try done.
    + by rewrite length_insert, (ho_len _ _ _ H).
    + apply (ho_r _ _ _ H).
    + rewrite Ee. f_equal. unfold used. cbn. rewrite !length_app. cbn. lia.
    + rewrite Ee. f_equal. unfold used. cbn. rewrite !length_app. cbn. lia.
    + unfold used in *. cbn in *. rewrite !length_app in *. cbn in *. lia.
    + intros j x. rewrite app_nil_r. apply Hp.
    + apply not_elem_of_nil.
  - apply orb_false_iff in Ew as [[Ew1 Ew2]%orb_false_iff Ew3]. eexists. split; [reflexivity|]. cbn [snd]. split; cbn; try done.
    + by rewrite length_insert, (ho_len _ _ _ H).
    + apply (ho_r _ _ _ H).
    + apply (ho_w _ _ _ H).
    + lia.
    + intros [Hin|Hin%list_elem_of_singleton]%elem_of_app; [by apply (ho_line _ _ _ H)|lia].
    + lia.
Qed.

Lemma read_head s c rd l R : holds s (Con (c :: rd) l) R → (i_r s =? i_w s) = false ∧ cell s (i_r s) = c ∧
  holds (Input (i_buf s) (u32 (i_r s + 1)) (i_w s) (i_e s)) (Con rd l) (R + 1) ∧ u32 (u32 (i_r s + 1) - 1) = i_r s.
Proof.
  intros [H1 H2 H3 H4 H5 H6 H7 H8]. unfold used in *. cbn [ready line length app] in *. split_and!.
  - rewrite H2, H3. rewrite <- (Z.add_0_r R) at 1. rewrite u32_eqb; [|unfold INPUT_BUF; lia|clear -H5; unfold INPUT_BUF in *; lia]. apply Z.eqb_neq. lia.
  - rewrite H2, cell_u32, <- (Z.add_0_r R). by apply (H6 0%nat).
  - split; unfold used; cbn [ready line i_buf i_r i_w i_e]; try done.
    + by rewrite H2, u32_succ.
    + rewrite H3. f_equal. lia.
    + rewrite H4. f_equal. lia.
    + lia.
    + intros j x Hj. specialize (H6 (S j) x Hj). unfold cell in *. cbn [i_buf]. rewrite <- H6. do 2 f_equal. lia.
    + lia.
  - rewrite H2, u32_succ, u32_pred, Z.sub_diag, Z.add_0_r. done.
Qed.

Lemma read_spec killed n : ∀ s rd l R target, holds s (Con rd l) R →
  ∃ s' R', consoleread_loop killed s target n = ((take_line killed rd target n).1, s') ∧ holds s' (Con (take_line killed rd target n).2 l) R'.
Proof.
  induction n as [|n IH]; intros s rd l R target H; [by exists s, R|]. cbn [consoleread_loop take_line]. destruct rd as [|c rd].
  - rewrite (ho_r _ _ _ H), (ho_w _ _ _ H). cbn [ready length]. rewrite Z.add_0_r, Z.eqb_refl. by exists s, R.
  - destruct (read_head _ _ _ _ _ H) as (E1 & E2 & H' & E3). rewrite E1, E2. cbn [i_r]. destruct (c =? CTRL_D).
    + cbn [fst snd]. destruct (Z.of_nat (S n) <? target); [|eexists _, (R + 1); split; [reflexivity|exact H']]. rewrite E3. exists s, R. split; [by destruct s|done].
    + destruct (c =? LF); [eexists _, (R + 1); split; [reflexivity|exact H']|]. destruct (IH _ rd l (R + 1) target H') as (s' & R' & E & Hh). exists s', R'. rewrite E. destruct (take_line killed rd target n) as [[r st] l'']. by cbn in *.
Qed.

(** * Sequences of events *)

(** A character that is typed, or the loop of a read, from its start or from where it slept. *)
Inductive event := Key (c : Z) | Read (killed : bool) (target : Z) (n : nat).
Inductive reply := Echo (l : list Z) (woken : bool) | Got (l : list Z) (st : read_state).

Definition event_ok (ev : event) : Prop := match ev with Key c => is_byte c | Read _ _ _ => True end.

Definition do_event (s : input) (ev : event) : outcome (reply * input) :=
  match ev with
  | Key c => '(l, w, s) ← consoleintr s c; Ok (Echo l w, s)
  | Read killed target n => let '(l, st, s) := consoleread_loop killed s target n in Ok (Got l st, s)
  end.

Definition spec_event (a : con) (ev : event) : reply * con :=
  match ev with
  | Key c => let '(l, w, a) := key a c in (Echo l w, a)
  | Read killed target n => let '(l, st, rd) := take_line killed (ready a) target n in (Got l st, Con rd (line a))
  end.

Fixpoint run_console (s : input) (evs : list event) : outcome (list reply * input) :=
  match evs with [] => Ok ([], s) | ev :: evs' => '(r, s) ← do_event s ev; '(rs, s) ← run_console s evs'; Ok (r :: rs, s) end.

Fixpoint run_queue (a : con) (evs : list event) : list reply * con :=
  match evs with [] => ([], a) | ev :: evs' => let '(r, a) := spec_event a ev in let '(rs, a) := run_queue a evs' in (r :: rs, a) end.

Lemma run_refines evs : Forall event_ok evs → ∀ s a R, holds s a R → ∃ s' R', run_console s evs = Ok ((run_queue a evs).1, s') ∧ holds s' (run_queue a evs).2 R'.
Proof.
  induction 1 as [|ev evs Hev Hevs IH]; intros s a R H; [by exists s, R|]. cbn [run_console run_queue].
  assert (∃ s1 R1, do_event s ev = Ok ((spec_event a ev).1, s1) ∧ holds s1 (spec_event a ev).2 R1) as (s1 & R1 & E1 & H1).
  { destruct ev as [c|killed target n]; cbn [do_event spec_event].
    - destruct (consoleintr_spec s a R c H Hev) as (s1 & -> & H1). exists s1, R. destruct (key a c) as [[l w] a']. done.
    - destruct a as [rd l]. destruct (read_spec killed n s rd l R target H) as (s1 & R1 & -> & H1). exists s1, R1. cbn [ready line]. destruct (take_line killed rd target n) as [[r st] rd']. done. }
  rewrite E1. cbn [mbind outcome_bind]. destruct (spec_event a ev) as [r a1]. cbn [fst snd] in *. destruct (IH s1 a1 R1 H1) as (s' & R' & -> & H'). exists s', R'. destruct (run_queue a1 evs) as [rs a2]. done.
Qed.

Lemma holds_init : holds input_init (Con [] []) 0.
Proof. split; try done. apply not_elem_of_nil. Qed.

(** C36. The console input is a queue of committed bytes and a line that is being edited.  In any sequence of characters typed and reads, from their start or from where they slept, the ring with its
    three wrapping counters gives the same echo, the same wake-ups and the same bytes as a queue and a line do: a line goes to the queue at its newline, at an end of
    file or when 128 bytes are in use; backspace and kill change only the line that is typed; a read takes bytes in order up to a newline or an end of file, which stays
    for the next read if it is not the first byte; it sleeps only when the queue is empty. *)
Theorem console_refines_queue evs : Forall event_ok evs → ∃ s R, run_console input_init evs = Ok ((run_queue (Con [] []) evs).1, s) ∧ holds s (run_queue (Con [] []) evs).2 R.
Proof. intros Hevs. apply (run_refines evs Hevs _ _ 0). apply holds_init. Qed.

(** C36 for a line with a correction, read in two parts, and an end of file. *)
Lemma console_refines_queue_witness : ∃ s R, run_console input_init [Read false 8 8; Key 108; Key 120; Key DEL; Key 115; Key CR; Read false 2 2; Read false 8 8; Key CTRL_D; Read false 8 8] =
    Ok ([Got [] RSleep; Echo [108] false; Echo [120] false; Echo [BACKSPACE] false; Echo [115] false; Echo [10] true; Got [108; 115] RDone; Got [10] RDone; Echo [4] true; Got [] RDone], s) ∧ holds s (Con [] []) R.
Proof.
  apply (console_refines_queue [Read false 8 8; Key 108; Key 120; Key DEL; Key 115; Key CR; Read false 2 2; Read false 8 8; Key CTRL_D; Read false 8 8]).
  repeat apply Forall_cons_2; try apply Forall_nil_2; cbn; unfold is_byte, DEL, CR, CTRL_D, ctl; try lia; done.
Defined.

(** * The screen *)

Definition screen_ok (s : cga) : Prop := length (crt s) = 2000%nat ∧ 0 <= cpos s < 24 * 80.

Lemma store_cell_ok l i v : length l = 2000%nat → 0 <= i < 2000 → store_cell l i v = Ok (<[Z.to_nat i := v]> l).
Proof. intros Hl Hi. unfold store_cell. rewrite Hl. change (Z.of_nat 2000) with 2000. replace ((0 <=? i) && (i <? 2000)) with true; [done|]. symmetry. apply andb_true_iff. lia. Qed.

(** What is left of the cursor after one character: the same text, scrolled up by a row if needed. *)
Definition shown (s : cga) : list Z := take (Z.to_nat (cpos s)) (crt s).

Lemma cga_finish l pos : length l = 2000%nat → 0 <= pos <= 24 * 80 →
  let '(l', pos') := if 24 <=? pos / 80 then
      let l := take 1840 (drop 80 l) ++ drop 1840 l in let pos := pos - 80 in (take (Z.to_nat pos) l ++ replicate (Z.to_nat (24 * 80 - pos)) 0 ++ drop 1920 l, pos) else (l, pos) in
  length l' = 2000%nat ∧ 0 <= pos' < 24 * 80 ∧ take (Z.to_nat pos') l' = drop (if pos <? 1920 then 0 else 80) (take (Z.to_nat pos) l).
Proof.
  intros Hl Hp. destruct (Z.ltb_spec pos 1920) as [Hlt|Hge].
  - replace (24 <=? pos / 80) with false; [by rewrite drop_0; split_and!; [..|lia|]; [done|lia|]|]. symmetry. apply Z.leb_gt. apply Z.div_lt_upper_bound; lia.
  - assert (pos = 1920) as -> by lia. change (24 <=? 1920 / 80) with true. cbn [Z.sub]. change (Z.to_nat (1920 - 80)) with 1840%nat. change (Z.to_nat (24 * 80 - (1920 - 80))) with 80%nat. change (Z.to_nat 1920) with 1920%nat.
    assert (length (take 1840 (drop 80 l)) = 1840%nat) as E1 by (rewrite length_take, length_drop; lia). assert (length (drop 1840 l) = 160%nat) as E2 by (rewrite length_drop; lia).
    assert (take 1840 (drop 80 l) = drop 80 (take 1920 l)) as EA by (rewrite take_drop_commute; done). revert E1 E2 EA. generalize (take 1840 (drop 80 l)) as A. generalize (drop 1840 l) as B. intros B A E1 E2 EA. split_and!; [|lia|lia|].
    + rewrite !length_app, length_replicate, length_take, length_drop, !length_app. lia.
    + rewrite take_app_le by (rewrite length_take, length_app; lia). rewrite take_take, take_app_le by lia. rewrite take_ge by lia. done.
Qed.

Lemma cgaputc_spec s c : screen_ok s → ∃ s', cgaputc s c = Ok s' ∧ screen_ok s' ∧
  (c ≠ LF → c ≠ BACKSPACE → shown s' = drop (if cpos s <? 1919 then 0 else 80) (shown s ++ [Z.lor (Z.land c 255) 1792])).
Proof.
  intros [Hl Hp]. unfold cgaputc. assert (∀ l pos, length l = 2000%nat → 0 <= pos <= 24 * 80 → ∃ s',
    (if (pos <? 0) || (25 * 80 <? pos) then Panic "pos under/overflow" else
      let '(l, pos) := if 24 <=? pos / 80 then let l := take 1840 (drop 80 l) ++ drop 1840 l in let pos := pos - 80 in (take (Z.to_nat pos) l ++ replicate (Z.to_nat (24 * 80 - pos)) 0 ++ drop 1920 l, pos) else (l, pos) in
      l ← store_cell l pos (Z.lor 32 1792); Ok (Cga l pos)) = Ok s' ∧ screen_ok s' ∧ shown s' = drop (if pos <? 1920 then 0 else 80) (take (Z.to_nat pos) l)) as Hfin.
  { intros l pos Hl' Hp'. replace ((pos <? 0) || (25 * 80 <? pos)) with false by (symmetry; apply orb_false_iff; lia). pose proof (cga_finish l pos Hl' Hp') as Hf.
    destruct (if 24 <=? pos / 80 then _ else _) as [l' pos']. destruct Hf as (F1 & F2 & F3). rewrite store_cell_ok by lia. cbn [mbind outcome_bind]. eexists. split; [reflexivity|]. split; [split; cbn; [by rewrite length_insert|done]|].
    unfold shown. cbn [cpos crt]. by rewrite take_insert_ge by lia. }
  destruct (Z.eqb_spec c LF) as [->|Hc].
  - cbn [mbind outcome_bind]. pose proof (Z.mod_pos_bound (cpos s) 80). pose proof (Z.div_mod (cpos s) 80). destruct (Hfin (crt s) (cpos s + (80 - cpos s mod 80)) Hl) as (s' & E & Hok & _); [|by exists s']. assert (cpos s / 80 < 24) by (apply Z.div_lt_upper_bound; lia). lia.
  - destruct (Z.eqb_spec c BACKSPACE) as [->|Hb].
    + cbn [mbind outcome_bind]. destruct (Hfin (crt s) (if 0 <? cpos s then cpos s - 1 else cpos s) Hl) as (s' & E & Hok & _); [destruct (Z.ltb_spec 0 (cpos s)); lia|]. by exists s'.
    + rewrite store_cell_ok by lia. cbn [mbind outcome_bind]. destruct (Hfin (<[Z.to_nat (cpos s) := Z.lor (Z.land c 255) 1792]> (crt s)) (cpos s + 1)) as (s' & E & Hok & Hsh); [by rewrite length_insert|lia|]. exists s'. split_and!; [exact E|done|]. intros _ _.
      rewrite Hsh. replace (cpos s + 1 <? 1920) with (cpos s <? 1919) by lia. f_equal. unfold shown. replace (Z.to_nat (cpos s + 1)) with (S (Z.to_nat (cpos s))) by lia.
      rewrite (take_S_r _ _ (Z.lor (Z.land c 255) 1792)) by (apply list_lookup_insert_eq; lia). by rewrite take_insert_ge by lia.
Qed.

(** C37. The console never leaves the screen.  Whatever is written to the console, at whatever position of the cursor, [consolewrite] does not panic, every access is to one of the
    2000 cells of the screen memory, and the cursor stays in the first 24 rows; a character appears left of the cursor, behind what was shown there,
    which moves up by one row when the last one is full. *)
Theorem screen_in_bounds s l : screen_ok s →
  (∃ o s', consolewrite s l = Ok (o, s') ∧ screen_ok s') ∧
  (∀ c, c ≠ LF → c ≠ BACKSPACE → ∃ s', cgaputc s c = Ok s' ∧ shown s' = drop (if cpos s <? 1919 then 0 else 80) (shown s ++ [Z.lor (Z.land c 255) 1792])).
Proof.
  intros Hs. split; [|intros c H1 H2; destruct (cgaputc_spec s c Hs) as (s' & E & _ & H); exists s'; split; [done|by apply H]]. revert s Hs. induction l as [|c l IH]; intros s Hs; [by exists [], s|].
  cbn [consolewrite]. unfold consputc. destruct (cgaputc_spec s (Z.land c 255) Hs) as (s1 & -> & H1 & _). cbn [mbind outcome_bind]. destruct (IH s1 H1) as (o & s' & -> & H'). cbn [mbind outcome_bind]. by eexists _, s'.
Qed.

(** C37 for two characters at the end of the last row. *)
Lemma screen_in_bounds_witness : ∃ o s', consolewrite (Cga (replicate 2000 0) 1919) [65; 66] = Ok (o, s') ∧ screen_ok s'.
Proof. destruct (screen_in_bounds (Cga (replicate 2000 0) 1919) [65; 66]) as [H _]; [split; [apply length_replicate|cbn; lia]|exact H]. Defined.
