(* ===== verification/Unixutil.v ===== *)
(** The two programs of project 1: my-look (src/p1/P1a_tests/unix-util/my-look/my-look.c), which prints the lines that begin with a string, and wordle
    (src/p1/P1a_tests/unix-util/wordle/wordle.c), which prints the words that are still possible.

    Files have no NUL bytes, so that the length of a line is its [strlen]; [None] is a file that cannot be opened.  The result is what is printed, and the exit status. *)

From Stdlib Require Import ZArith Lia.
From stdpp Require Import base numbers list strings.
From S2P Require Import Prelude Mem CStr Grep.
#[local] Open Scope Z_scope.

(** [fgets(line, n + 1, fp)]: at most [n] bytes, up to a newline; the file is the list of bytes left. *)
Fixpoint fgets_loop (f : list Z) (n : nat) : list Z * list Z :=
  match n, f with
  | S n', c :: f' => if c =? NL then ([c], f') else let '(l, f'') := fgets_loop f' n' in (c :: l, f'')
  | _, _ => ([], f)
  end.
Definition fgets (f : list Z) (n : nat) : option (list Z * list Z) := match f with [] => None | _ => Some (fgets_loop f n) end.

Definition LINE : nat := 254.

(** ** my-look *)

Definition alnum (c : Z) : bool := (48 <=? c) && (c <=? 57) || (97 <=? c) && (c <=? 122) || (65 <=? c) && (c <=? 90).
Definition tolower (c : Z) : Z := if (65 <=? c) && (c <=? 90) then c + 32 else c.

(** The loop that copies to [temp], an array of 255 bytes. *)
Fixpoint copy_alnum (l temp : list Z) : outcome (list Z) :=
  match l with
  | [] => Ok temp
  | c :: l' => if alnum c then if (255 <=? length temp)%nat then Fault (Z.of_nat (length temp)) else copy_alnum l' (temp ++ [c]) else copy_alnum l' temp
  end.

Fixpoint strncasecmp (p q : cstring) (n : nat) : Z :=
  match n with
  | O => 0
  | S n' =>
      match p, q with
      | [], [] => 0
      | [], d :: _ => 0 - tolower d
      | c :: _, [] => tolower c - 0
      | c :: p', d :: q' => if tolower c =? tolower d then strncasecmp p' q' n' else tolower c - tolower d
      end
  end.

Fixpoint look_loop (input : cstring) (f : list Z) (fuel : nat) : outcome (list Z) :=
  match fgets f LINE with
  | None => Ok []
  | Some (line, f) =>
      match fuel with
      | O => NoFuel
      | S fuel' =>
          temp ← copy_alnum (take (length line - 1) line) [];
          if (255 <=? length temp)%nat then Fault 255
          else
            out ← look_loop input f fuel';
            Ok ((if strncasecmp input temp (length input) =? 0 then line else []) ++ out)
      end
  end.
Definition output (input : cstring) (f : option (list Z)) : outcome (list Z * Z) :=
  match f with
  | None => Ok (of_string "my-look: cannot open file" ++ [NL], 1)
  | Some f => out ← look_loop input f (length f); Ok (out, 0)
  end.

(** ** wordle *)

(** The loop over the letters that are ruled out. *)
Fixpoint count_letter (c : Z) (str : cstring) (count : Z) : Z :=
  match str with [] => count | d :: str' => if c =? d then count else count_letter c str' (count + 1) end.

Definition count_line (line str : cstring) : Z := if (length line =? 5)%nat then foldl (λ n c, count_letter c str n) 0 line else 0.

Fixpoint chop (l : list Z) : list Z := match l with [] => [] | c :: l' => if c =? NL then [] else c :: chop l' end.

Fixpoint wordle_loop (f : list Z) (str : cstring) (fuel : nat) : outcome (list Z) :=
  match fgets f LINE with
  | None => Ok []
  | Some (line, f) =>
      match fuel with
      | O => NoFuel
      | S fuel' =>
          let line := chop line in
          out ← wordle_loop f str fuel';
          Ok ((if count_line line str =? 5 * Z.of_nat (length str) then line ++ [NL] else []) ++ out)
      end
  end.
Definition wordle (f : option (list Z)) (str : cstring) : outcome (list Z * Z) :=
  match f with
  | None => Ok (of_string "wordle: cannot open file" ++ [NL], 1)
  | Some f => out ← wordle_loop f str (length f); Ok (out, 0)
  end.

Example look_example : output (of_string "ab") (Some (of_string "A-bc" ++ [NL] ++ of_string "xab" ++ [NL] ++ of_string "ab")) = Ok (of_string "A-bc" ++ [NL], 0).
Proof. reflexivity. Qed.

Example wordle_example : wordle (Some (of_string "crane" ++ [NL] ++ of_string "pious" ++ [NL] ++ of_string "moist" ++ [NL] ++ of_string "so" ++ [NL])) (of_string "ac") = Ok (of_string "pious" ++ [NL] ++ of_string "moist" ++ [NL], 0).
Proof. reflexivity. Qed.

(** * Lines *)

(** The lines that [fgets] returns: complete ones, and the rest of the file if it does not end with a newline. *)
Definition file_lines (ls : list (list Z)) (tail : list Z) : list (list Z) := ((λ l, l ++ [NL]) <$> ls) ++ match tail with [] => [] | _ => [tail] end.

Lemma fgets_takes l f n : NL ∉ l → (length l < n)%nat → fgets_loop (l ++ NL :: f) n = (l ++ [NL], f).
Proof.
  revert n. induction l as [|c l IH]; intros [|n] Hl Hn; cbn in Hn; try lia; cbn [app fgets_loop].
  - by rewrite Z.eqb_refl.
  - apply not_elem_of_cons in Hl as [Hc Hl]. rewrite (proj2 (Z.eqb_neq c NL)) by congruence. rewrite IH by (done || lia). done.
Qed.

Lemma fgets_tail l n : NL ∉ l → (length l ≤ n)%nat → fgets_loop l n = (l, []).
Proof.
  revert n. induction l as [|c l IH]; intros [|n] Hl Hn; cbn in Hn; try lia; cbn [fgets_loop]; try done.
  apply not_elem_of_cons in Hl as [Hc Hl]. rewrite (proj2 (Z.eqb_neq c NL)) by congruence. rewrite IH by (done || lia). done.
Qed.

(** The loops of both programs: each line is handled in turn. *)
Section each.
Context (loop : list Z → nat → outcome (list Z)) (g : list Z → outcome (list Z)).
Context (Hloop : ∀ f fuel, loop f fuel = match fgets f LINE with None => Ok [] | Some (line, f) => match fuel with O => NoFuel | S fuel' => x ← g line; out ← loop f fuel'; Ok (x ++ out) end end).

Lemma each_line (h : list Z → list Z) tail fuel : ∀ ls, NL ∉ tail → (length tail ≤ LINE)%nat → Forall (λ l, (NL ∉ l) ∧ (length l < LINE)%nat) ls → (length (file_lines ls tail) ≤ fuel)%nat →
  (∀ l, l ∈ file_lines ls tail → g l = Ok (h l)) → loop (join ls ++ tail) fuel = Ok (file_lines ls tail ≫= h).
Proof using Hloop.
  induction fuel as [|fuel IH]; intros ls Ht Htl Hls Hf Hg.
  - assert (ls = [] ∧ tail = []) as [-> ->]. { unfold file_lines in Hf. rewrite length_app, length_fmap in Hf. destruct ls, tail; cbn in Hf; try lia. done. }
    rewrite Hloop. done.
  - destruct ls as [|l ls].
    + destruct tail as [|c tail]; [by rewrite Hloop|]. cbn [join mbind list_bind app]. rewrite Hloop. cbn [fgets]. rewrite fgets_tail by done. rewrite Hg by left. cbn [mbind outcome_bind]. rewrite (Hloop []). cbn [fgets mbind outcome_bind]. done.
    + apply Forall_cons in Hls as [[Hl1 Hl2] Hls]. rewrite join_cons, <- app_assoc. cbn [app]. rewrite Hloop. unfold fgets. destruct (l ++ NL :: join ls ++ tail) eqn:E; [by destruct l|]. rewrite <- E, fgets_takes by done.
      rewrite Hg by (left). cbn [mbind outcome_bind]. rewrite (IH ls); [done|done|done|done| |].
      * unfold file_lines in *. cbn in Hf. lia.
      * intros x Hx. apply Hg. unfold file_lines in *. cbn [fmap list_fmap app]. by right.
Qed.
End each.

Lemma bind_filter (P : list Z → Prop) `{∀ l, Decision (P l)} (h : list Z → list Z) k : (k ≫= λ l, if decide (P l) then h l else []) = filter P k ≫= h.
Proof. induction k as [|x k IH]; [done|]. rewrite bind_cons, IH, filter_cons. by destruct (decide (P x)). Qed.

Lemma length_file_lines ls tail : (length (file_lines ls tail) ≤ length (join ls ++ tail))%nat.
Proof.
  unfold file_lines. rewrite !length_app, length_fmap. assert (length ls ≤ length (join ls))%nat. { induction ls as [|l ls IH]; [done|]. rewrite join_cons, length_app. cbn. lia. }
  destruct tail; cbn; lia.
Qed.

(** * my-look *)

Lemma copy_alnum_spec l : ∀ temp, (length temp + length l < 255)%nat → copy_alnum l temp = Ok (temp ++ filter (λ c, alnum c = true) l).
Proof.
  induction l as [|c l IH]; intros temp Hl; cbn [copy_alnum]; [by rewrite app_nil_r|]. cbn [length] in Hl. destruct (alnum c) eqn:E.
  - replace (255 <=? length temp)%nat with false by (symmetry; apply Nat.leb_gt; lia). rewrite IH by (rewrite length_app; cbn; lia). rewrite filter_cons_True by done. by rewrite <- app_assoc.
  - rewrite filter_cons_False by congruence. apply IH. lia.
Qed.

Lemma strncasecmp_spec p : str_ok p → ∀ q, strncasecmp p q (length p) = 0 ↔ tolower <$> p `prefix_of` tolower <$> q.
Proof.
  induction 1 as [|c p Hc Hp IH]; intros q; cbn [length strncasecmp fmap list_fmap].
  - split; [intros _; apply prefix_nil|done].
  - unfold is_char in Hc. destruct q as [|d q]; cbn [fmap list_fmap].
    + split; [|intros [k E]; discriminate]. unfold tolower. destruct (_ && _); lia.
    + destruct (Z.eqb_spec (tolower c) (tolower d)) as [E|Hne].
      * rewrite IH, E. split; [by apply prefix_cons|apply prefix_cons_inv_2].
      * split; [lia|]. intros H%prefix_cons_inv_1. done.
Qed.

(** The letters and digits of a line without its last character, in lower case, begin with the string. *)
Definition looks (input line : list Z) : Prop := tolower <$> input `prefix_of` tolower <$> filter (λ c, alnum c = true) (take (length line - 1) line).

#[export] Instance looks_dec input line : Decision (looks input line).
Proof. unfold looks. apply _. Defined.

(** my-look prints the lines that begin with the string.  For a file whose lines have at most 253 bytes, [output] ends, within its arrays, and has printed in order those lines whose letters and digits begin
    with the string, upper or lower case; a last line without newline is looked at without its last character. *)
Theorem my_look_prints input ls tail : str_ok input → Forall (λ l, (NL ∉ l) ∧ (length l < 254)%nat) ls → NL ∉ tail → (length tail ≤ 254)%nat →
  output input (Some (join ls ++ tail)) = Ok (filter (looks input) (file_lines ls tail) ≫= id, 0).
Proof.
  intros Hi Hls Ht Htl. unfold output. set (g := λ line, temp ← copy_alnum (take (length line - 1) line) []; if (255 <=? length temp)%nat then Fault 255 else Ok (if strncasecmp input temp (length input) =? 0 then line else [])).
  rewrite (each_line (look_loop input) g) with (h := λ l, if decide (looks input l) then id l else []); [|..|done|done|done|apply length_file_lines|].
  - cbn [mbind outcome_bind]. by rewrite bind_filter.
  - intros f fuel. unfold g. destruct fuel; cbn [look_loop]; destruct (fgets f LINE) as [[line f']|]; try done. destruct (copy_alnum _ _) as [temp| | |]; cbn [mbind outcome_bind]; try done. destruct (255 <=? length temp)%nat; done.
  - intros l Hl. assert (length l ≤ 254)%nat as Hll.
    { unfold file_lines in Hl. apply elem_of_app in Hl as [(x & -> & Hx)%list_elem_of_fmap|Hl]; [rewrite Forall_forall in Hls; apply Hls in Hx as [_ Hx]; rewrite length_app; cbn; lia|]. destruct tail; [by apply not_elem_of_nil in Hl|by apply list_elem_of_singleton in Hl as ->]. }
    unfold g. rewrite copy_alnum_spec by (rewrite length_take; cbn; lia). cbn [mbind outcome_bind app]. replace (255 <=? length _)%nat with false.
    + pose proof (strncasecmp_spec input Hi (filter (λ c, alnum c = true) (take (length l - 1) l))) as Hs. f_equal. destruct (Z.eqb_spec (strncasecmp input (filter (λ c, alnum c = true) (take (length l - 1) l)) (length input)) 0) as [E|E]; destruct (decide (looks input l)) as [D|D]; try done; unfold looks in D; tauto.
    + symmetry. apply Nat.leb_gt. pose proof (length_filter (λ c, alnum c = true) (take (length l - 1) l)). rewrite length_take in *. lia.
Qed.

(** That theorem for two lines and the start of a third. *)
Lemma my_look_prints_witness : output (of_string "ab") (Some (join [of_string "A-bc"; of_string "xab"] ++ of_string "abc")) = Ok (of_string "A-bc" ++ [NL] ++ of_string "abc", 0).
Proof.
  rewrite (my_look_prints (of_string "ab") [of_string "A-bc"; of_string "xab"] (of_string "abc")).
  - reflexivity.
  - refine (bool_decide_unpack _ _). exact I.
  - refine (bool_decide_unpack _ _). exact I.
  - refine (bool_decide_unpack _ _). exact I.
  - cbn. lia.
Defined.

(** * wordle *)

Lemma count_letter_spec c str : ∀ n, n <= count_letter c str n <= n + Z.of_nat (length str) ∧ (count_letter c str n = n + Z.of_nat (length str) ↔ c ∉ str).
Proof.
  induction str as [|d str IH]; intros n; cbn [count_letter length].
  - split; [lia|]. split; [intros _; apply not_elem_of_nil|lia].
  - rewrite not_elem_of_cons. destruct (Z.eqb_spec c d) as [->|Hne]; [split; [lia|split; [lia|by intros []]]|]. destruct (IH (n + 1)) as [H1 H2]. split; [lia|].
    split; [intros E; split; [done|apply H2; lia]|intros [_ H]; apply H2 in H; lia].
Qed.

Lemma count_fold str l : ∀ n, let k := foldl (λ n c, count_letter c str n) n l in
  n <= k <= n + Z.of_nat (length l) * Z.of_nat (length str) ∧ (k = n + Z.of_nat (length l) * Z.of_nat (length str) ↔ Forall (λ c, c ∉ str) l).
Proof.
  induction l as [|c l IH]; intros n; cbn [foldl length].
  - split; [lia|]. split; [intros _; constructor|lia].
  - destruct (count_letter_spec c str n) as [H1 H2]. destruct (IH (count_letter c str n)) as [H3 H4]. split; [lia|]. rewrite Forall_cons, <- H2, <- H4. lia.
Qed.

(** A word of five letters without any of those ruled out; if none is, every line. *)
Definition possible (str w : list Z) : Prop := str = [] ∨ length w = 5%nat ∧ Forall (λ c, c ∉ str) w.

#[export] Instance possible_dec str w : Decision (possible str w).
Proof. unfold possible. apply _. Defined.

Lemma count_line_spec str w : (count_line w str =? 5 * Z.of_nat (length str)) = bool_decide (possible str w).
Proof.
  apply eq_true_iff_eq. rewrite Z.eqb_eq, bool_decide_eq_true. unfold count_line, possible. destruct (Nat.eqb_spec (length w) 5) as [Hw|Hw].
  - destruct (count_fold str w 0) as [_ H]. rewrite Hw in H. change (Z.of_nat 5) with 5 in H. rewrite Z.add_0_l in H. rewrite H. split; [by right|]. intros [->|[_ ?]]; [|done]. apply Forall_forall. intros c _. apply not_elem_of_nil.
  - split; [intros E; left; destruct str; [done|cbn in E; lia]|]. intros [->|[? _]]; done.
Qed.

Lemma chop_line l : NL ∉ l → chop l = l ∧ chop (l ++ [NL]) = l.
Proof. induction l as [|c l IH]; [done|]. intros [Hc Hl]%not_elem_of_cons. cbn. rewrite (proj2 (Z.eqb_neq c NL)) by congruence. destruct (IH Hl) as [-> ->]. done. Qed.

(** wordle prints the words that are still possible.  For a file whose lines have at most 253 bytes and a string of letters ruled out, which is not empty, [wordle] ends and has printed, each on a line of
    its own and in order, exactly the words of five letters with none of those letters; for the empty string it prints every line, whatever its length. *)
Theorem wordle_prints str ls tail : Forall (λ l, (NL ∉ l) ∧ (length l < 254)%nat) ls → NL ∉ tail → (length tail ≤ 254)%nat →
  wordle (Some (join ls ++ tail)) str = Ok (join (filter (possible str) (ls ++ match tail with [] => [] | _ => [tail] end)), 0).
Proof.
  intros Hls Ht Htl. unfold wordle. set (g := λ line, Ok (A := list Z) (if count_line (chop line) str =? 5 * Z.of_nat (length str) then chop line ++ [NL] else [])).
  set (h := λ l, if decide (possible str (chop l)) then chop l ++ [NL] else []).
  rewrite (each_line (λ f, wordle_loop f str) g) with (h := h); [|..|done|done|done|apply length_file_lines|].
  - cbn [mbind outcome_bind]. do 2 f_equal. unfold join. rewrite <- (bind_filter (possible str) (λ l, l ++ [NL])). unfold file_lines. rewrite !bind_app. f_equal.
    + clear -Hls. induction Hls as [|l ls [Hl _] Hls IH]; [done|]. rewrite fmap_cons, !bind_cons, IH. unfold h. by rewrite (proj2 (chop_line l Hl)).
    + destruct tail as [|c tail]; [done|]. rewrite !bind_cons. unfold h. by rewrite (proj1 (chop_line _ Ht)).
  - intros f fuel. unfold g. destruct fuel; cbn [wordle_loop]; destruct (fgets f LINE) as [[line f']|]; done.
  - intros l _. unfold g, h. rewrite count_line_spec. f_equal. case_bool_decide; by destruct (decide (possible str (chop l))).
Qed.

(** That theorem for the letters a and c. *)
Lemma wordle_prints_witness : wordle (Some (join [of_string "crane"; of_string "pious"; of_string "so"] ++ of_string "moist")) (of_string "ac") = Ok (join [of_string "pious"; of_string "moist"], 0).
Proof.
  rewrite (wordle_prints (of_string "ac") [of_string "crane"; of_string "pious"; of_string "so"] (of_string "moist")).
  - reflexivity.
  - refine (bool_decide_unpack _ _). exact I.
  - refine (bool_decide_unpack _ _). exact I.
  - cbn. lia.
Defined.
