(* ===== verification/Ide.v ===== *)
(** The disk driver (src/p4/ide.c): the queue of requests, the commands to the disk and the interrupt handler, under any interleaving of the processes that use it.

    The critical sections run under idelock with interrupts off, so each is one step: the part of iderw up to its first sleep, the test after a wake-up, and ideintr.  The controller is a
    state of its own: it decodes the registers that idestart writes, and works while processes go on.  The disk reports no errors, and interrupts when it has done a
    request; an interrupt without a request is allowed too.  The second disk is present. *)

From Stdlib Require Import ZArith Lia.
From stdpp Require Import base numbers list gmap fin_sets sets strings relations.
From S2P Require Import Prelude Traces Bio.
#[local] Open Scope Z_scope.

Definition SECTOR_SIZE : Z := 512.
Definition IDE_CMD_READ : Z := 32.
Definition IDE_CMD_WRITE : Z := 48.

(** The registers that a command is made of: ports 0x1f2 to 0x1f7. *)
Record regs := Regs { r_count : Z; r_lo : Z; r_mid : Z; r_hi : Z; r_dev : Z; r_cmd : Z }.

(** The controller: a command with its data, for a write; then the data that it has read. *)
Inductive drive := DIdle | DBusy (r : regs) (d : block) | DDone (d : block).

Record ide := IdeSt {
  cache : bcache; idequeue : option nat; qnext : list (option nat); ctrl : drive;
  (* the processes inside iderw: the buffer, and whether the process is asleep *)
  waiting : gmap nat (nat * bool) }.

Definition set_cache (c : bcache) (s : ide) : ide := IdeSt c (idequeue s) (qnext s) (ctrl s) (waiting s).
Definition set_queue (q : option nat) (n : list (option nat)) (s : ide) : ide := IdeSt (cache s) q n (ctrl s) (waiting s).
Definition set_ctrl (d : drive) (s : ide) : ide := IdeSt (cache s) (idequeue s) (qnext s) d (waiting s).
Definition set_waiting (w : gmap nat (nat * bool)) (s : ide) : ide := IdeSt (cache s) (idequeue s) (qnext s) (ctrl s) w.

(** One sector per block; for a write the data follows the command. *)
Definition idestart (s : ide) (i : nat) : outcome ide :=
  b ← getbuf (cache s) i;
  if FSSIZE <=? (b_key b).2 then Panic "incorrect blockno"
  else
    let sector := (b_key b).2 * (Z.of_nat BSIZE / SECTOR_SIZE) in
    let r := Regs (Z.of_nat BSIZE / SECTOR_SIZE) (Z.land sector 255) (Z.land (Z.shiftr sector 8) 255) (Z.land (Z.shiftr sector 16) 255)
      (Z.lor (Z.lor 224 (Z.shiftl (Z.land (b_key b).1 1) 4)) (Z.land (Z.shiftr sector 24) 15)) (if dirty b then IDE_CMD_WRITE else IDE_CMD_READ) in
    Ok (set_ctrl (DBusy r (if dirty b then data b else [])) s).

(** [for(pp=&idequeue; *pp; pp=&( *pp)->qnext);] from buffer [i] on: the last buffer of the queue. *)
Fixpoint queue_end (n : list (option nat)) (i fuel : nat) : outcome nat :=
  match n !! i with
  | Some None => Ok i
  | Some (Some j) => match fuel with O => NoFuel | S fuel' => queue_end n j fuel' end
  | None => Fault (Z.of_nat i)
  end.

Definition append (s : ide) (i : nat) : outcome ide :=
  let n := <[i := None]> (qnext s) in
  match idequeue s with
  | None => Ok (set_queue (Some i) n s)
  | Some h => j ← queue_end n h (length n); Ok (set_queue (Some h) (<[j := Some i]> n) s)
  end.

Definition done_flags (b : buf) : bool := valid b && negb (dirty b).

(** The test of the loop of [iderw]: the process sleeps, or returns. *)
Definition iderw_wait (s : ide) (p i : nat) : outcome ide :=
  b ← getbuf (cache s) i;
  if done_flags b then Ok (set_waiting (delete p (waiting s)) s) else Ok (set_waiting (<[p := (i, true)]> (waiting s)) s).

(** [iderw] of process [p] for buffer [i], up to there. *)
Definition iderw_call (s : ide) (p i : nat) : outcome ide :=
  b ← getbuf (cache s) i;
  if negb (locked b) then Panic "iderw: buf not locked"
  else if done_flags b then Panic "iderw: nothing to do"
  else
    s ← append s i;
    s ← (if decide (idequeue s = Some i) then idestart s i else Ok s);
    iderw_wait s p i.

(** [wakeup(b)] *)
Definition wake_buf (i : nat) (w : gmap nat (nat * bool)) : gmap nat (nat * bool) := (λ x, if decide (x.1 = i) then (i, false) else x) <$> w.

Definition ideintr (s : ide) : outcome ide :=
  match idequeue s with
  | None => Ok s
  | Some i =>
      b ← getbuf (cache s) i;
      let s := set_queue (mjoin (qnext s !! i)) (qnext s) s in
      d ← (if dirty b then Ok (data b) else match ctrl s with DDone d => Ok d | _ => Fault 0 end);
      let s := set_cache (upd i (λ b, set_dirty false (set_valid true (set_data d b))) (cache s)) s in
      let s := set_waiting (wake_buf i (waiting s)) (set_ctrl DIdle s) in
      match idequeue s with Some j => idestart s j | None => Ok s end
  end.

(** * The controller *)

Definition reg_key (r : regs) : bkey :=
  (Z.land (Z.shiftr (r_dev r) 4) 1, r_lo r + 256 * r_mid r + 65536 * r_hi r + 16777216 * Z.land (r_dev r) 15).

(** The command is carried out. *)
Definition hw_done (s : ide) : outcome ide :=
  match ctrl s with
  | DBusy r d =>
      let c := cache s in
      if r_cmd r =? IDE_CMD_WRITE then Ok (set_ctrl (DDone []) (set_cache (BCache (bufs c) (mru c) (<[reg_key r := d]> (disk c)) (trace c ++ [(reg_key r, d)])) s))
      else Ok (set_ctrl (DDone (disk c !!! reg_key r)) s)
  | _ => Fault 0
  end.

(** * Runs *)

(** The buffers of processes that are inside [iderw]. *)
Definition inside (s : ide) (i : nat) : Prop := ∃ p x, waiting s !! p = Some (i, x).

(** A buffer that may be handed to [iderw]. *)
Definition request (b : buf) : Prop := locked b = true ∧ done_flags b = false ∧ 0 <= (b_key b).2 < FSSIZE ∧ ((b_key b).1 = 0 ∨ (b_key b).1 = 1).

(** What a run shows: a call for buffer [i], and the interrupt that finishes the request of buffer [i]. *)
Inductive event := Called (i : nat) | Served (i : nat).

Inductive ide_step : ide → option event → ide → Prop :=
(* processes change buffers that are not inside iderw, and the order of the list *)
| st_client s c : length (bufs c) = length (bufs (cache s)) → disk c = disk (cache s) → trace c = trace (cache s) → (∀ i, inside s i → bufs c !! i = bufs (cache s) !! i) → ide_step s None (set_cache c s)
| st_call s s' p i b : waiting s !! p = None → ¬ inside s i → bufs (cache s) !! i = Some b → request b → iderw_call s p i = Ok s' → ide_step s (Some (Called i)) s'
| st_work s s' : hw_done s = Ok s' → ide_step s None s'
| st_intr s s' d : ctrl s = DDone d ∨ idequeue s = None → ideintr s = Ok s' → ide_step s (Served <$> idequeue s) s'
| st_wait s s' p i : waiting s !! p = Some (i, false) → iderw_wait s p i = Ok s' → ide_step s None s'.

(** The disk and its interrupts alone. *)
Definition hw_step (s s' : ide) : Prop := hw_done s = Ok s' ∨ (∃ d, ctrl s = DDone d) ∧ ideintr s = Ok s'.

Definition ide_init (c : bcache) : ide := IdeSt c None (replicate (length (bufs c)) None) DIdle ∅.

(** What the driver promises: requests are served in the order of the calls, each as one step that does what [iderw] of Bio.v does. *)
Inductive serve_step : bcache * list nat → option event → bcache * list nat → Prop :=
| sv_client c c' q : length (bufs c') = length (bufs c) → disk c' = disk c → trace c' = trace c → (∀ i, i ∈ q → bufs c' !! i = bufs c !! i) → serve_step (c, q) None (c', q)
| sv_call c q i : i ∉ q → serve_step (c, q) (Some (Called i)) (c, q ++ [i])
| sv_serve c c' q i : iderw c i = Ok c' → serve_step (c, i :: q) (Some (Served i)) (c', q).

(** The buffers in the order of the calls, and in the order in which they were served. *)
Definition calls (tr : list event) : list nat := omap (λ e, match e with Called i => Some i | _ => None end) tr.
Definition served (tr : list event) : list nat := omap (λ e, match e with Served i => Some i | _ => None end) tr.

(** * The invariant *)

(** The buffers that are linked from [h] on. *)
Fixpoint linked (n : list (option nat)) (h : option nat) (q : list nat) : Prop :=
  match q with [] => h = None | i :: q' => h = Some i ∧ ∃ nx, n !! i = Some nx ∧ linked n nx q' end.

Definition cmd_of (b : buf) : drive :=
  let sector := (b_key b).2 in
  DBusy (Regs 1 (Z.land sector 255) (Z.land (Z.shiftr sector 8) 255) (Z.land (Z.shiftr sector 16) 255)
    (Z.lor (Z.lor 224 (Z.shiftl (Z.land (b_key b).1 1) 4)) (Z.land (Z.shiftr sector 24) 15)) (if dirty b then IDE_CMD_WRITE else IDE_CMD_READ)) (if dirty b then data b else []).

(** The disk works on [b]: [c] is the cache before the request is served. *)
Definition working (s : ide) (c : bcache) (b : buf) : Prop :=
  let same := disk (cache s) = disk c ∧ trace (cache s) = trace c in
  ctrl s = cmd_of b ∧ same ∨
  dirty b = true ∧ ctrl s = DDone [] ∧ disk (cache s) = <[b_key b := data b]> (disk c) ∧ trace (cache s) = trace c ++ [(b_key b, data b)] ∨
  dirty b = false ∧ ctrl s = DDone (disk c !!! b_key b) ∧ same.

Record driver (s : ide) (c : bcache) (q : list nat) : Prop := {
  dr_linked : linked (qnext s) (idequeue s) q;
  dr_nodup : NoDup q;
  dr_len : length (qnext s) = length (bufs c);
  dr_bufs : bufs (cache s) = bufs c;
  dr_mru : mru (cache s) = mru c;
  dr_req : ∀ i, i ∈ q → inside s i ∧ ∃ b, bufs c !! i = Some b ∧ request b;
  dr_ctrl : match q with [] => ctrl s = DIdle ∧ disk (cache s) = disk c ∧ trace (cache s) = trace c | i :: _ => ∃ b, bufs c !! i = Some b ∧ working s c b end;
  dr_wait : ∀ p i x, waiting s !! p = Some (i, x) → i ∈ q ∨ x = false ∧ ∃ b, bufs c !! i = Some b ∧ done_flags b = true }.

Lemma getbuf_Ok c i b : bufs c !! i = Some b → getbuf c i = Ok b.
Proof. intros E. unfold getbuf. by rewrite E. Qed.

Lemma idestart_spec s i b : bufs (cache s) !! i = Some b → request b → idestart s i = Ok (set_ctrl (cmd_of b) s).
Proof.
  intros E (_ & _ & Hk & _). unfold idestart. rewrite (getbuf_Ok _ _ _ E), bind_Ok. replace (FSSIZE <=? (b_key b).2) with false by lia.
  change (Z.of_nat BSIZE / SECTOR_SIZE) with 1. unfold cmd_of. by rewrite Z.mul_1_r.
Qed.

(** The controller finds the block that was meant. *)
Lemma reg_key_spec b r d : request b → cmd_of b = DBusy r d → reg_key r = b_key b.
Proof.
  intros (_ & _ & Hk & Hd) [= <- _]. unfold reg_key. cbn [r_dev r_lo r_mid r_hi]. destruct (b_key b) as [dev k]. cbn [fst snd] in *. unfold FSSIZE in Hk.
  change 255 with (Z.ones 8). rewrite !Z.land_ones, !Z.shiftr_div_pow2 by lia. assert (k / 2 ^ 24 = 0) as -> by (apply Z.div_small; lia). assert (k / 2 ^ 16 = 0) as -> by (apply Z.div_small; lia).
  assert (k / 2 ^ 8 < 4) by (apply Z.div_lt_upper_bound; lia). assert (0 <= k / 2 ^ 8) by (apply Z.div_pos; lia). rewrite (Z.mod_small (k / 2 ^ 8)) by lia. pose proof (Z.div_mod k (2 ^ 8)).
  destruct Hd as [->| ->]; (apply (f_equal2 pair); [reflexivity|]).
  - replace (Z.land (Z.lor (Z.lor 224 (Z.shiftl (Z.land 0 1) 4)) (Z.land 0 15)) 15) with 0 by reflexivity. change (0 mod 2 ^ 8) with 0. lia.
  - replace (Z.land (Z.lor (Z.lor 224 (Z.shiftl (Z.land 1 1) 4)) (Z.land 0 15)) 15) with 0 by reflexivity. change (0 mod 2 ^ 8) with 0. lia.
Qed.

Lemma linked_insert n h q i x : i ∉ q → linked n h q → linked (<[i := x]> n) h q.
Proof.
  revert h. induction q as [|j q IH]; intros h Hi H; [done|]. apply not_elem_of_cons in Hi as [Hj Hi]. destruct H as (-> & nx & Hn & H). split; [done|]. exists nx. split; [by rewrite list_lookup_insert_ne|by apply IH].
Qed.

Lemma linked_snoc n h q i x : linked n h (q ++ [i]) → NoDup (q ++ [i]) → n !! i = Some x → x = None.
Proof.
  revert h. induction q as [|j q IH]; intros h; cbn [app linked].
  - intros (_ & nx & Hn & ->) _ Hx. congruence.
  - intros (_ & nx & Hn & H) [_ Hnd]%NoDup_cons Hx. by apply (IH nx).
Qed.

(** [append] at pointer level. *)
Lemma queue_end_spec n q : ∀ h fuel, linked n (Some h) q → (length q ≤ S fuel)%nat → ∃ q0 j, q = q0 ++ [j] ∧ queue_end n h fuel = Ok j.
Proof.
  induction q as [|i q IH]; intros h fuel H Hf; [done|]. destruct H as ([= ->] & nx & Hn & H). destruct q as [|i2 q].
  - cbn in H. subst nx. exists [], i. split; [done|]. destruct fuel; cbn; by rewrite Hn.
  - destruct fuel as [|fuel]; [cbn in Hf; lia|]. pose proof H as (-> & _). destruct (IH i2 fuel H) as (q0 & j & E & Eq); [cbn in *; lia|]. exists (i :: q0), j. rewrite E. split; [done|]. cbn [queue_end]. by rewrite Hn.
Qed.

Lemma linked_append n h q0 j i : linked n h (q0 ++ [j]) → NoDup (q0 ++ [j]) → n !! i = Some None → i ∉ q0 ++ [j] → (j < length n)%nat → linked (<[j := Some i]> n) h (q0 ++ [j; i]).
Proof.
  revert h. induction q0 as [|k q0 IH]; intros h; cbn [app linked].
  - intros (-> & nx & Hn & ->) _ Hi Hne Hj. split; [done|]. exists (Some i). split; [by apply list_lookup_insert_eq|]. split; [done|]. exists None. split; [|done]. rewrite list_lookup_insert_ne; [done|]. intros ->. apply Hne. left.
  - intros (-> & nx & Hn & H) [Hk Hnd]%NoDup_cons Hi [Hne1 Hne2]%not_elem_of_cons Hj. split; [done|]. exists nx. split; [|by apply IH]. rewrite list_lookup_insert_ne; [done|]. intros ->. apply Hk, elem_of_app. right. left.
Qed.

Lemma append_spec s c q i : driver s c q → i ∉ q → (i < length (bufs c))%nat → ∃ n, append s i = Ok (set_queue (match q with [] => Some i | j :: _ => Some j end) n s) ∧ linked n (match q with [] => Some i | j :: _ => Some j end) (q ++ [i]) ∧ length n = length (bufs c).
Proof.
  intros H Hi Hlt. pose proof (dr_linked _ _ _ H) as Hq. pose proof (dr_len _ _ _ H) as Hl. unfold append. destruct q as [|j q].
  - cbn in Hq. rewrite Hq. eexists. split; [reflexivity|]. split; [|by rewrite length_insert]. cbn. split; [done|]. exists None. split; [|done]. apply list_lookup_insert_eq. lia.
  - pose proof Hq as (E & _). rewrite E in *. pose proof (linked_insert _ _ _ i None Hi Hq) as Hq'. assert (length (j :: q) ≤ S (length (<[i := None]> (qnext s))))%nat as Hfu.
    { rewrite length_insert, Hl. assert (length (j :: q) ≤ length (bufs c))%nat; [|lia]. pose proof (submseteq_length (j :: q) (seq 0 (length (bufs c)))) as HX. rewrite length_seq in HX. apply HX, NoDup_submseteq; [apply (dr_nodup _ _ _ H)|].
      intros k Hk. apply elem_of_seq. destruct (dr_req _ _ _ H k Hk) as (_ & b & Hb & _). apply lookup_lt_Some in Hb. lia. }
    destruct (queue_end_spec _ _ _ _ Hq' Hfu) as (q0 & k & Eq & ->). cbn [mbind outcome_bind]. eexists. split; [reflexivity|]. split; [|by rewrite !length_insert].
    rewrite Eq, <- app_assoc. cbn [app]. apply linked_append; [by rewrite <- Eq|rewrite <- Eq; apply (dr_nodup _ _ _ H)|apply list_lookup_insert_eq; lia|by rewrite <- Eq|].
    rewrite length_insert, Hl. destruct (dr_req _ _ _ H k) as (_ & b & Hb & _); [rewrite Eq; apply elem_of_app; right; left|]. by apply lookup_lt_Some in Hb.
Qed.

(** * Steps *)

(** A call joins the queue, and the process sleeps. *)
Lemma call_spec s c q p i b : driver s c q → waiting s !! p = None → ¬ inside s i → bufs (cache s) !! i = Some b → request b →
  ∃ s', iderw_call s p i = Ok s' ∧ driver s' c (q ++ [i]).
Proof.
  intros H Hp Hni Hb Hr. pose proof Hr as (Hlk & Hfl & _). assert (i ∉ q) as Hi by (intros Hin; by apply Hni, (dr_req _ _ _ H)). rewrite (dr_bufs _ _ _ H) in Hb. pose proof (lookup_lt_Some _ _ _ Hb) as Hlt.
  unfold iderw_call. rewrite (getbuf_Ok _ _ b), bind_Ok by (by rewrite (dr_bufs _ _ _ H)). rewrite Hlk, Hfl. cbn [negb]. destruct (append_spec s c q i H Hi Hlt) as (n & -> & Hn & Hln). rewrite bind_Ok.
  set (h := match q with [] => Some i | j :: _ => Some j end) in *. set (s1 := set_queue h n s). assert (∃ d, (if decide (idequeue s1 = Some i) then idestart s1 i else Ok s1) = Ok (set_ctrl d s1) ∧
    match q with [] => d = cmd_of b | _ => d = ctrl s end) as (d & -> & Hd).
  { destruct q as [|j q]; unfold h in s1; cbn.
    - rewrite decide_True by done. exists (cmd_of b). split; [|done]. apply idestart_spec; [cbn; by rewrite (dr_bufs _ _ _ H)|done].
    - rewrite decide_False by (intros [= ->]; apply Hi; left). by exists (ctrl s). }
  rewrite bind_Ok. unfold iderw_wait. rewrite (getbuf_Ok _ _ b), bind_Ok by (cbn; by rewrite (dr_bufs _ _ _ H)). rewrite Hfl. eexists. split; [reflexivity|].
  split; cbn; try apply H; try done.
  - apply NoDup_app. split_and!; [apply H|by intros x Hx ->%list_elem_of_singleton|apply NoDup_singleton].
  - intros k [Hk| ->%list_elem_of_singleton]%elem_of_app.
    + destruct (dr_req _ _ _ H k Hk) as ((p' & x & Hw) & Hreq). split; [|done]. exists p', x. cbn. rewrite lookup_insert_ne; [done|]. intros ->. congruence.
    + split; [exists p, true; cbn; by rewrite lookup_insert_eq|by exists b].
  - pose proof (dr_ctrl _ _ _ H) as Hc. destruct q as [|j q]; cbn [app].
    + exists b. split; [done|]. left. cbn. split; [done|]. by destruct Hc as (_ & ? & ?).
    + destruct Hc as (bj & Hbj & Hw). exists bj. split; [done|]. unfold working in *. cbn. by rewrite Hd.
  - intros p' k x Hw. destruct (decide (p = p')) as [->|Hne].
    + rewrite lookup_insert_eq in Hw. injection Hw as <- <-. left. apply elem_of_app. right. left.
    + rewrite lookup_insert_ne in Hw by done. destruct (dr_wait _ _ _ H p' k x Hw) as [Hk|Hk]; [left; apply elem_of_app; by left|by right].
Qed.

Lemma work_spec s c q : driver s c q → ctrl s ≠ DIdle → (∃ d, ctrl s = DDone d) ∨ ∃ s', hw_done s = Ok s' ∧ driver s' c q.
Proof.
  intros H Hc. pose proof (dr_ctrl _ _ _ H) as Hw. destruct q as [|i q]; [by destruct Hw|]. destruct Hw as (b & Hb & [(E & E1 & E2)|[(Hd & E & E1 & E2)|(Hd & E & E1 & E2)]]); [|left; by eexists..]. right.
  destruct (dr_req _ _ _ H i) as (_ & b' & Hb' & Hr); [left|]. assert (b' = b) as -> by congruence. unfold hw_done. rewrite E. unfold cmd_of. pose proof (reg_key_spec b _ _ Hr eq_refl) as Hk. cbn [r_cmd].
  destruct (dirty b) eqn:Ed.
  - change (IDE_CMD_WRITE =? IDE_CMD_WRITE) with true. cbn match. rewrite Hk. eexists. split; [reflexivity|]. split; cbn; try apply H. exists b. split; [done|]. right. left. cbn. split_and!; [done..|by rewrite E1|by rewrite E2].
  - change (IDE_CMD_READ =? IDE_CMD_WRITE) with false. cbn match. rewrite Hk. eexists. split; [reflexivity|]. split; cbn; try apply H. exists b. split; [done|]. right. right. cbn. split_and!; [done|by rewrite E1|done..].
Qed.

Lemma wake_lookup i w p : wake_buf i w !! p = (λ x, if decide (x.1 = i) then (i, false) else x) <$> w !! p.
Proof. apply lookup_fmap. Qed.

(** An interrupt serves the first request. *)
Lemma intr_spec s c i q d : driver s c (i :: q) → ctrl s = DDone d → ∃ s' c', ideintr s = Ok s' ∧ iderw c i = Ok c' ∧ driver s' c' q.
Proof.
  intros H Hc. pose proof (dr_linked _ _ _ H) as (Eq & nx & Hn & Hl). destruct (dr_req _ _ _ H i) as (_ & b & Hb & Hr); [left|]. pose proof Hr as (Hlk & Hfl & Hk & _). pose proof (dr_nodup _ _ _ H) as [Hi Hnd]%NoDup_cons.
  pose proof (dr_bufs _ _ _ H) as Eb. pose proof (lookup_lt_Some _ _ _ Hb) as Hlt.
  pose proof (dr_ctrl _ _ _ H) as (b' & Hb' & Hw). assert (b' = b) as -> by congruence. destruct Hw as [(E & _)|Hw]; [rewrite E in Hc; by destruct (dirty b)|].
  set (b2 := set_dirty false (set_valid true (if dirty b then b else set_data (disk c !!! b_key b) b))).
  assert (∃ c', iderw c i = Ok c' ∧ bufs c' = <[i := b2]> (bufs c) ∧ mru c' = mru c ∧ disk c' = disk (cache s) ∧ trace c' = trace (cache s)) as (c' & Ei & Cb & Cm & Cd & Ct).
  { unfold iderw. rewrite (getbuf_Ok _ _ _ Hb), bind_Ok, Hlk. unfold done_flags in Hfl. rewrite Hfl. cbn [negb]. replace (FSSIZE <=? (b_key b).2) with false by lia. destruct (dirty b) eqn:Ed.
    - destruct Hw as [(_ & _ & E1 & E2)|[? _]]; [|congruence]. eexists. split; [reflexivity|]. cbn. rewrite (alter_insert _ _ _ _ Hb). split_and!; [done|done|by rewrite E1|by rewrite E2].
    - destruct Hw as [[? _]|(_ & _ & E1 & E2)]; [congruence|]. eexists. split; [reflexivity|]. cbn. rewrite (alter_insert _ _ _ _ Hb). split_and!; [|done|done|done]. f_equal. unfold b2. destruct b. cbn in *. by subst. }
  set (s1 := set_waiting (wake_buf i (waiting s)) (set_ctrl DIdle (set_cache (upd i (λ b, set_dirty false (set_valid true (set_data (if dirty b then data b else d) b))) (cache s)) (set_queue nx (qnext s) s)))).
  assert (bufs (cache s1) = bufs c') as Eb1.
  { cbn. rewrite Cb, Eb, (alter_insert _ _ _ _ Hb). f_equal. unfold b2. destruct (dirty b) eqn:Ed; [destruct b; cbn in *; done|]. destruct Hw as [[? _]|(_ & E & _)]; [congruence|]. rewrite E in Hc. injection Hc as <-. destruct b; cbn in *; by subst. }
  assert (∀ k bk, k ≠ i → bufs c !! k = Some bk → bufs c' !! k = Some bk) as Hne by (intros k bk Hki Hbk; rewrite Cb, list_lookup_insert_ne; done).
  assert (bufs c' !! i = Some b2) as Hb2 by (rewrite Cb; by apply list_lookup_insert_eq).
  assert (∃ s2, (match idequeue s1 with Some j => idestart s1 j | None => Ok s1 end) = Ok (set_ctrl s2 s1) ∧ match q with [] => s2 = DIdle | j :: _ => ∃ bj, bufs c' !! j = Some bj ∧ s2 = cmd_of bj end) as (dr & E1 & Hdr).
  { cbn. destruct q as [|j q].
    - cbn in Hl. subst nx. by exists DIdle.
    - destruct Hl as (-> & _). destruct (dr_req _ _ _ H j) as (_ & bj & Hbj & Hrj); [right; left|]. assert (j ≠ i) by (intros ->; apply Hi; left). exists (cmd_of bj). split; [|exists bj; split; [by apply Hne|done]].
      apply idestart_spec; [|done]. rewrite Eb1. by apply Hne. }
  exists (set_ctrl dr s1), c'. split_and!; [|done|].
  - unfold ideintr. rewrite Eq, (getbuf_Ok _ _ b), bind_Ok by (by rewrite Eb). cbn [qnext set_queue ctrl]. rewrite Hn, Hc. cbn [mjoin option_join]. transitivity (match idequeue s1 with Some j => idestart s1 j | None => Ok s1 end); [|exact E1].
    assert (upd i (λ b0, set_dirty false (set_valid true (set_data (if dirty b0 then data b0 else d) b0))) (cache s) = upd i (λ b0, set_dirty false (set_valid true (set_data (if dirty b then data b else d) b0))) (cache s)) as Eu.
    { unfold upd. f_equal. rewrite Eb. by rewrite !(alter_insert _ _ _ _ Hb). }
    unfold s1. rewrite Eu. by destruct (dirty b).
  - split; cbn; try done.
    + rewrite Cb, length_insert. apply H.
    + by rewrite Cm, <- (dr_mru _ _ _ H).
    + intros k Hkq. assert (k ≠ i) as Hki by (intros ->; done). destruct (dr_req _ _ _ H k) as ((p & x & Hp) & bk & Hbk & Hrk); [by right|]. split; [|exists bk; split; [by apply Hne|done]].
      exists p, x. cbn. rewrite wake_lookup, Hp. cbn. by rewrite decide_False.
    + destruct q as [|j q]; [split_and!; [done|by rewrite Cd|by rewrite Ct]|]. destruct Hdr as (bj & Hbj & ->). exists bj. split; [done|]. left. cbn. split_and!; [done|by rewrite Cd|by rewrite Ct].
    + intros p k x Hp. rewrite wake_lookup in Hp. destruct (waiting s !! p) as [[k' x']|] eqn:Ew; [|done]. cbn in Hp. destruct (decide (k' = i)) as [->|Hki].
      * injection Hp as <- <-. right. split; [done|]. exists b2. split; [done|]. unfold b2. by destruct (dirty b).
      * injection Hp as <- <-. destruct (dr_wait _ _ _ H p k' x' Ew) as [[ ->|Hin]%elem_of_cons|(-> & bk & Hbk & Hf)]; [done|by left|right]. split; [done|]. exists bk. split; [by apply Hne|done].
Qed.

(** After a wake-up the process returns if its request is served, and sleeps again if not. *)
Lemma wait_spec s c q p i : driver s c q → waiting s !! p = Some (i, false) → ∃ s', iderw_wait s p i = Ok s' ∧ (i ∉ q → waiting s' !! p = None).
Proof.
  intros H Hp. assert (∃ b, bufs c !! i = Some b ∧ (i ∉ q → done_flags b = true)) as (b & Hb & Hf).
  { destruct (dr_wait _ _ _ H p i false Hp) as [Hin|(_ & b & Hb & Hf)]; [|by exists b]. destruct (dr_req _ _ _ H i Hin) as (_ & b & Hb & _). by exists b. }
  unfold iderw_wait. rewrite (getbuf_Ok _ _ b), bind_Ok by (by rewrite (dr_bufs _ _ _ H)). destruct (done_flags b) eqn:E; eexists; (split; [reflexivity|]); intros Hi; [cbn; apply lookup_delete_eq|by apply Hf in Hi].
Qed.

Lemma wait_keeps s c q p i s' : driver s c q → waiting s !! p = Some (i, false) → iderw_wait s p i = Ok s' → driver s' c q.
Proof.
  intros H Hp E. unfold iderw_wait in E. apply bind_Ok_inv in E as (b & Eb & E). unfold getbuf in Eb. rewrite (dr_bufs _ _ _ H) in Eb. destruct (bufs c !! i) as [b'|] eqn:Hb; [|done]. injection Eb as ->.
  assert (done_flags b = true → ∀ k, k ∈ q → k ≠ i) as Hne. { intros Hd k Hk ->. destruct (dr_req _ _ _ H i Hk) as (_ & b' & Hb' & _ & Hf & _). congruence. }
  destruct (done_flags b) eqn:Hd; injection E as <-; split; cbn; try apply H.
  - intros k Hk. destruct (dr_req _ _ _ H k Hk) as ((p' & x & Hw) & Hreq). split; [|done]. exists p', x. cbn. rewrite lookup_delete_ne; [done|]. intros ->. rewrite Hp in Hw. injection Hw as <- _. by apply (Hne eq_refl i).
  - intros p' k x [_ Hw]%lookup_delete_Some. by apply (dr_wait _ _ _ H p').
  - intros k Hk. destruct (dr_req _ _ _ H k Hk) as ((p' & x & Hw) & Hreq). split; [|done]. destruct (decide (p = p')) as [->|Hn]; [|exists p', x; cbn; by rewrite lookup_insert_ne].
    exists p', true. cbn. rewrite lookup_insert_eq. rewrite Hp in Hw. by injection Hw as <- _.
  - intros p' k x Hw. destruct (decide (p = p')) as [->|Hn].
    + rewrite lookup_insert_eq in Hw. injection Hw as <- <-. left. destruct (dr_wait _ _ _ H p' i false Hp) as [?|(_ & b' & Hb' & Hf)]; [done|congruence].
    + rewrite lookup_insert_ne in Hw by done. by apply (dr_wait _ _ _ H p').
Qed.

Lemma driver_step s l s' c q : driver s c q → ide_step s l s' → ∃ c' q', lrun serve_step (c, q) (option_list l) (c', q') ∧ driver s' c' q'.
Proof.
  intros H Hst. destruct Hst as [s cc Hlen Hdisk Htr Hsame|s s' p i b Hp Hni Hb Hr E|s s' E|s s' d Hc E|s s' p i Hp E].
  - exists (BCache (bufs cc) (mru cc) (disk c) (trace c)), q. split.
    + apply (lrun_once serve_step _ None), sv_client; cbn; try done; [by rewrite Hlen, (dr_bufs _ _ _ H)|]. intros i Hi. rewrite Hsame by (by apply (dr_req _ _ _ H)). by rewrite (dr_bufs _ _ _ H).
    + assert (∀ i b, inside s i → bufs c !! i = Some b → bufs cc !! i = Some b) as Hk by (intros i b Hi Hb; rewrite Hsame, (dr_bufs _ _ _ H); done).
      split; cbn; try apply H; try done.
      * rewrite Hlen, (dr_bufs _ _ _ H). apply H.
      * intros i Hi. destruct (dr_req _ _ _ H i Hi) as (Hin & b & Hb & Hr). split; [done|]. exists b. split; [by apply Hk|done].
      * pose proof (dr_ctrl _ _ _ H) as Hc. destruct q as [|i q]; [by rewrite Hdisk, Htr|]. destruct Hc as (b & Hb & Hw). exists b. split; [apply Hk; [apply (dr_req _ _ _ H); left|done]|]. unfold working in *. cbn. by rewrite Hdisk, Htr.
      * intros p i x Hp. destruct (dr_wait _ _ _ H p i x Hp) as [?|(-> & b & Hb & Hf)]; [by left|right]. split; [done|]. exists b. split; [apply Hk; [by exists p, false|done]|done].
  - destruct (call_spec s c q p i b H Hp Hni Hb Hr) as (s2 & E2 & H2). rewrite E2 in E. injection E as <-. exists c, (q ++ [i]). split; [|done]. apply (lrun_once serve_step _ (Some (Called i))), sv_call. intros Hi. by apply Hni, (dr_req _ _ _ H).
  - exists c, q. split; [apply lrun_refl|]. destruct (work_spec s c q H) as [(d & Hd)|(s2 & E2 & H2)]; [|unfold hw_done in E; by rewrite Hd in E|congruence]. intros Hd. unfold hw_done in E. by rewrite Hd in E.
  - destruct q as [|i q].
    + pose proof (dr_linked _ _ _ H) as Hl. cbn in Hl. exists c, []. split; [rewrite Hl; apply lrun_refl|]. unfold ideintr in E. rewrite Hl in E. by injection E as <-.
    + pose proof (dr_linked _ _ _ H) as (Eq & _). destruct Hc as [Hc|Hc]; [|congruence]. destruct (intr_spec s c i q d H Hc) as (s2 & c' & E2 & Ei & H2). rewrite E2 in E. injection E as <-. exists c', q. split; [|done]. rewrite Eq. by apply (lrun_once serve_step _ (Some (Served i))), sv_serve.
  - exists c, q. split; [apply lrun_refl|]. by eapply wait_keeps.
Qed.

Lemma driver_init c : driver (ide_init c) c [].
Proof. split; cbn; try done; [apply NoDup_nil_2|apply length_replicate|by intros i []%not_elem_of_nil]. Qed.

Lemma driver_run tr s c : lrun ide_step (ide_init c) tr s → ∃ c' q, lrun serve_step (c, []) tr (c', q) ∧ driver s c' q.
Proof.
  intros Hr. destruct (lrun_simulation ide_step serve_step (λ s a, driver s a.1 a.2) (ide_init c) tr s (c, [])) as ([c' q] & R & H); [|apply driver_init|done|by exists c', q].
  intros s1 [c1 q1] l s2 H1 Hst. destruct (driver_step s1 l s2 c1 q1 H1 Hst) as (c2 & q2 & R2 & H2). by exists (c2, q2).
Qed.

(** What is served are the first of the calls: all but those in the queue. *)
Lemma serve_order c tr c' q : lrun serve_step (c, []) tr (c', q) → calls tr = served tr ++ q.
Proof.
  intros Hr. apply (lrun_invariant serve_step (λ tr a, calls tr = served tr ++ a.2) (c, []) tr (c', q)); [|done|done].
  clear Hr. intros tr1 a l a' E Hst. unfold calls, served in *. rewrite !omap_app, E. destruct Hst; cbn; by rewrite ?app_nil_r, <- ?app_assoc.
Qed.

(** The disk gets on with the first request, and the interrupt that follows serves it. *)
Lemma head_served s c i q : driver s c (i :: q) → ∃ s' c', rtc hw_step s s' ∧ driver s' c' q.
Proof.
  intros H. assert (∃ s1 d, rtc hw_step s s1 ∧ ctrl s1 = DDone d ∧ driver s1 c (i :: q)) as (s1 & d & R & Hd & H1).
  { pose proof (dr_ctrl _ _ _ H) as (b & Hb & Hw). destruct (ctrl s) as [|r d|d] eqn:E; [|clear Hw|by exists s, d].
    - unfold working in Hw. rewrite E in Hw. destruct Hw as [[Hw _]|[(_ & Hw & _)|(_ & Hw & _)]]; done.
    - destruct (work_spec s c _ H) as [(d' & Hd)|(s1 & E1 & H1)]; [by rewrite E|congruence|]. assert (∃ d', ctrl s1 = DDone d') as [d' Hd'].
      { unfold hw_done in E1. rewrite E in E1. destruct (_ =? _); injection E1 as <-; by eexists. }
      exists s1, d'. split; [apply rtc_once; by left|done]. }
  destruct (intr_spec s1 c i q d H1 Hd) as (s2 & c2 & E2 & _ & H2). exists s2, c2. split; [|done]. etrans; [exact R|]. apply rtc_once. right. split; [by exists d|done].
Qed.

Lemma queue_served q : ∀ s c, driver s c q → ∃ s' c', rtc hw_step s s' ∧ driver s' c' [].
Proof.
  induction q as [|i q IH]; intros s c H; [by exists s, c|]. destruct (head_served _ _ _ _ H) as (s1 & c1 & R1 & H1). destruct (IH _ _ H1) as (s2 & c2 & R2 & H2). exists s2, c2. split; [by etrans|done].
Qed.

(** * The theorem *)

(** C38. However the processes, the disk and its interrupts interleave, the driver does what the cache relies on.  With [tr] the calls and the finished requests of the run, in the
    order in which they happen: there is a run with the same events in which requests queue up and each is served in one step by the [iderw] of the buffer cache, always the oldest one first; so the
    buffers served are the first of those called for, in the order of the calls, and the queue holds the rest; the buffers, and between requests the disk and the order of
    writes too, are those of that run.  A call for a locked
    buffer with work to do neither panics nor loops in the queue; a process sleeps only while its buffer is queued, and once it is served returns at its next test; and
    the disk alone serves the whole queue and wakes every process. *)
Theorem ide_serves_requests c tr s : lrun ide_step (ide_init c) tr s →
  ∃ c' q, lrun serve_step (c, []) tr (c', q) ∧ calls tr = served tr ++ q ∧ bufs (cache s) = bufs c' ∧ (q = [] → cache s = c') ∧
    (∀ p i b, waiting s !! p = None → ¬ inside s i → bufs c' !! i = Some b → request b → ∃ s', iderw_call s p i = Ok s') ∧
    (∀ p i, waiting s !! p = Some (i, true) → i ∈ q) ∧
    (∀ p i, waiting s !! p = Some (i, false) → ∃ s', iderw_wait s p i = Ok s' ∧ (i ∉ q → waiting s' !! p = None)) ∧
    ∃ s', rtc hw_step s s' ∧ idequeue s' = None ∧ ∀ p i x, waiting s' !! p = Some (i, x) → x = false.
Proof.
  intros Hr. destruct (driver_run tr s c Hr) as (c' & q & R & H). exists c', q. pose proof (dr_bufs _ _ _ H) as Eb. split_and!; [done|by eapply serve_order|done|..].
  - intros ->. destruct (dr_ctrl _ _ _ H) as (_ & Ed & Et). pose proof (dr_mru _ _ _ H) as Em. destruct (cache s), c'. cbn in *. congruence.
  - intros p i b Hp Hi Hb Hq. rewrite <- Eb in Hb. destruct (call_spec s c' q p i b H Hp Hi Hb Hq) as (s' & E & _). by exists s'.
  - intros p i Hp. by destruct (dr_wait _ _ _ H p i true Hp) as [?|[? _]].
  - intros p i Hp. by apply (wait_spec s c').
  - destruct (queue_served q s c' H) as (s' & c2 & R' & H'). exists s'. split; [done|]. split; [apply (dr_linked _ _ _ H')|]. intros p i x Hp. destruct (dr_wait _ _ _ H' p i x Hp) as [[]%not_elem_of_nil|[? _]]. done.
Qed.

(** Process 1 writes block 5, process 2 reads block 7: the disk has done the write when both sleep. *)
Definition y_cache : bcache := BCache [Buf (1, 5) true true true 1 [7]; Buf (1, 7) false false true 1 []] [0; 1]%nat {[ (1, 7) := [9] ]} [].
Definition y_after (o : outcome ide) : ide := match o with Ok s => s | _ => ide_init y_cache end.
Definition y_s1 : ide := y_after (iderw_call (ide_init y_cache) 1 0).
Definition y_s2 : ide := y_after (iderw_call y_s1 2 1).
Definition y_s3 : ide := y_after (hw_done y_s2).
Definition y_s4 : ide := y_after (ideintr y_s3).

Lemma y_driven : lrun ide_step (ide_init y_cache) [Called 0; Called 1; Served 0]%nat y_s4.
Proof.
  apply (lrun_snoc ide_step _ [Called 0; Called 1]%nat y_s3 (Some (Served 0%nat))); [apply (lrun_snoc ide_step _ [Called 0; Called 1]%nat y_s2 None); [apply (lrun_snoc ide_step _ [Called 0%nat] y_s1 (Some (Called 1%nat))); [apply (lrun_once ide_step _ (Some (Called 0%nat)))|]|]|].
  - eapply (st_call _ y_s1 1%nat 0%nat); [reflexivity|intros (p & x & Hp); discriminate|reflexivity|split_and!; try reflexivity; [done|by right]|by vm_compute].
  - eapply (st_call _ y_s2 2%nat 1%nat); [by vm_compute| |by vm_compute|split_and!; try reflexivity; [done|by right]|by vm_compute].
    intros (p & x & Hp). change (waiting y_s1) with (<[1%nat := (0%nat, true)]> (∅ : gmap nat (nat * bool))) in Hp. apply lookup_insert_Some in Hp as [[_ [=]]|[_ Hp]]. by rewrite lookup_empty in Hp.
  - apply (st_work _ y_s3). by vm_compute.
  - apply (st_intr y_s3 y_s4 []); [left; by vm_compute|by vm_compute].
Qed.

(** C38 applies: process 1 is awake and its block is on the disk; process 2 sleeps until block 7 is read: its buffer is all that is queued. *)
Lemma ide_serves_requests_witness : disk (cache y_s4) !! (1, 5) = Some [7] ∧ waiting y_s4 !! 1%nat = Some (0%nat, false) ∧
  ∃ c', lrun serve_step (y_cache, []) [Called 0; Called 1; Served 0]%nat (c', [1%nat]) ∧ bufs (cache y_s4) = bufs c'.
Proof.
  split; [by vm_compute|]. split; [by vm_compute|]. destruct (ide_serves_requests y_cache _ y_s4 y_driven) as (c' & q & H1 & H2 & H3 & _).
  cbn in H2. injection H2 as <-. exists c'. split; [exact H1|exact H3].
Defined.
