(* ===== verification/Lock.v ===== *)
(** Spin locks and sleep locks (src/p4/spinlock.c, src/p4/sleeplock.c).

    A processor runs acquire and release one access to a shared word at a time, interleaved with the others in any order; memory is sequentially consistent, which is what the
    barriers of the code are there for.  pushcli and popcli touch words of the processor only and are one step.  The debugging fields, name and pcs, are left out.  Each processor also
    records its history: the locks it has acquired and not released, the pushcli calls of its own that are pending, and the interrupt flag it last chose.

    A sleep lock is used by processes; its operations are critical sections of a spin lock, and each is one step. *)

From Stdlib Require Import ZArith Lia.
From stdpp Require Import base numbers list gmap fin_sets sets strings relations.
From S2P Require Import Prelude.
#[local] Open Scope Z_scope.

Module Spin.

Record spinlock := Spinlock { l_locked : Z; l_cpu : option nat }.

(** Where a processor is: in client code, or before the named access in [acquire] or [release]. *)
Inductive pos :=
| Idle
| AcqLocked (l : nat) | AcqCpu (l : nat) | AcqXchg (l : nat) | AcqSet (l : nat)
| RelLocked (l : nat) | RelCpu (l : nat) | RelClear (l : nat) | RelUnlock (l : nat)
| Stopped (msg : string) (l : nat).

Record cpu := Cpu {
  fl : bool; ncli : Z; intena : bool; pc : pos;
  held : list nat; pushed : nat; base : bool }.

Definition set_pc (w : pos) (c : cpu) : cpu := Cpu (fl c) (ncli c) (intena c) w (held c) (pushed c) (base c).
Definition set_held (h : list nat) (c : cpu) : cpu := Cpu (fl c) (ncli c) (intena c) (pc c) h (pushed c) (base c).
Definition set_pushed (n : nat) (c : cpu) : cpu := Cpu (fl c) (ncli c) (intena c) (pc c) (held c) n (base c).
Definition set_flag (b : bool) (c : cpu) : cpu := Cpu b (ncli c) (intena c) (pc c) (held c) (pushed c) b.

Definition initlock : spinlock := Spinlock 0 None.

Definition pushcli (c : cpu) : cpu :=
  Cpu false (s32 (ncli c + 1)) (if ncli c =? 0 then fl c else intena c) (pc c) (held c) (pushed c) (base c).

Definition popcli (c : cpu) : outcome cpu :=
  if fl c then Panic "popcli - interruptible"
  else
    let n := s32 (ncli c - 1) in
    if n <? 0 then Panic "popcli" else Ok (Cpu ((n =? 0) && intena c) n (intena c) (pc c) (held c) (pushed c) (base c)).

(** [popcli] and then on to [w]. *)
Definition pop_then (w : pos) (l : nat) (c : cpu) : cpu :=
  match popcli c with Ok c => set_pc w c | Panic m => set_pc (Stopped m l) c | _ => c end.

(** The calls of [acquire] and [release], up to the first access of [holding]. *)
Definition acquire (l : nat) (c : cpu) : cpu := set_pc (AcqLocked l) (pushcli (pushcli c)).
Definition release (l : nat) (c : cpu) : cpu := set_pc (RelLocked l) (pushcli c).

(** The lock that the next access is to. *)
Definition target (w : pos) : option nat :=
  match w with
  | AcqLocked l | AcqCpu l | AcqXchg l | AcqSet l | RelLocked l | RelCpu l | RelClear l | RelUnlock l => Some l
  | Idle | Stopped _ _ => None
  end.

(** One access by processor [me].  [holding] is [r = lock->locked && lock->cpu == mycpu()]: two reads. *)
Definition lock_step (me : nat) (c : cpu) (lk : spinlock) : cpu * spinlock :=
  match pc c with
  | AcqLocked l => (if l_locked lk =? 0 then pop_then (AcqXchg l) l c else set_pc (AcqCpu l) c, lk)
  | AcqCpu l => (if decide (l_cpu lk = Some me) then pop_then (Stopped "acquire" l) l c else pop_then (AcqXchg l) l c, lk)
  | AcqXchg l => (if l_locked lk =? 0 then set_pc (AcqSet l) c else c, Spinlock 1 (l_cpu lk))
  | AcqSet l => (set_held (l :: held c) (set_pc Idle c), Spinlock (l_locked lk) (Some me))
  | RelLocked l => (if l_locked lk =? 0 then pop_then (Stopped "release" l) l c else set_pc (RelCpu l) c, lk)
  | RelCpu l => (if decide (l_cpu lk = Some me) then pop_then (RelClear l) l c else pop_then (Stopped "release" l) l c, lk)
  | RelClear l => (set_pc (RelUnlock l) c, Spinlock (l_locked lk) None)
  | RelUnlock l => (pop_then Idle l (set_held (filter (.≠ l) (held c)) c), Spinlock 0 (l_cpu lk))
  | Idle | Stopped _ _ => (c, lk)
  end.

(** * Runs *)

Record mach := Mach { cpus : list cpu; locks : list spinlock }.

Definition set_cpu (i : nat) (c : cpu) (s : mach) : mach := Mach (<[i := c]> (cpus s)) (locks s).

(** The nesting that the counter can represent. *)
Definition shallow (c : cpu) : Prop := ncli c < 2 ^ 31 - 2.

Inductive mach_step : mach → mach → Prop :=
| ms_acquire s i c l : cpus s !! i = Some c → pc c = Idle → (l < length (locks s))%nat → shallow c → mach_step s (set_cpu i (acquire l c) s)
| ms_release s i c l : cpus s !! i = Some c → pc c = Idle → (l < length (locks s))%nat → shallow c → mach_step s (set_cpu i (release l c) s)
| ms_push s i c : cpus s !! i = Some c → pc c = Idle → shallow c → mach_step s (set_cpu i (set_pushed (S (pushed c)) (pushcli c)) s)
| ms_pop s i c n : cpus s !! i = Some c → pc c = Idle → pushed c = S n → mach_step s (set_cpu i (pop_then Idle 0 (set_pushed n c)) s)
(* sti, cli, or an interrupt that returns *)
| ms_flag s i c b : cpus s !! i = Some c → pc c = Idle → ncli c = 0 → mach_step s (set_cpu i (set_flag b c) s)
| ms_go s i c l lk c' lk' : cpus s !! i = Some c → target (pc c) = Some l → locks s !! l = Some lk → lock_step i c lk = (c', lk') →
    mach_step s (Mach (<[i := c']> (cpus s)) (<[l := lk']> (locks s))).

Definition boot_cpu (b : bool) : cpu := Cpu b 0 false Idle [] 0 b.
Definition boot (bs : list bool) (m : nat) : mach := Mach (boot_cpu <$> bs) (replicate m initlock).

(** What locks promise: each has at most one owner, who takes it and gives it back in one step. *)
Inductive own_step : list (option nat) → list (option nat) → Prop :=
| own_take o l i : o !! l = Some None → own_step o (<[l := Some i]> o)
| own_give o l i : o !! l = Some (Some i) → own_step o (<[l := None]> o).

(** * The invariant *)

(** [n] calls of [pushcli] are pending. *)
Definition balanced (c : cpu) (n : Z) : Prop :=
  ncli c = n ∧ 0 <= n < 2 ^ 31 ∧ if n =? 0 then fl c = base c else fl c = false ∧ intena c = base c.

(** The calls that [acquire] and [release] have pending at a position, beyond one for each lock held. *)
Definition extra (w : pos) : Z :=
  match w with AcqLocked _ | AcqCpu _ => 2 | AcqXchg _ | AcqSet _ | RelLocked _ | RelCpu _ => 1 | _ => 0 end.

Definition depth (c : cpu) : Z := Z.of_nat (length (held c)) + Z.of_nat (pushed c) + extra (pc c).

Definition pos_ok (c : cpu) : Prop :=
  match pc c with
  | AcqXchg l | AcqSet l => l ∉ held c
  | RelClear l | RelUnlock l => l ∈ held c
  | Stopped m l => m = "acquire"%string ∧ l ∈ held c ∨ m = "release"%string ∧ l ∉ held c
  | _ => True
  end.

Definition stopped (c : cpu) : bool := match pc c with Stopped _ _ => true | _ => false end.

Definition cpu_ok (c : cpu) : Prop := NoDup (held c) ∧ pos_ok c ∧ (stopped c = false → balanced c (depth c)).

(** From the exchange in [acquire] to the store in [release]. *)
Definition owns (c : cpu) (l : nat) : Prop := l ∈ held c ∨ pc c = AcqSet l.

Record inv (s : mach) (o : list (option nat)) : Prop := {
  i_len : length o = length (locks s);
  i_cpu : ∀ i c, cpus s !! i = Some c → cpu_ok c;
  i_own : ∀ i c l, cpus s !! i = Some c → owns c l ↔ o !! l = Some (Some i);
  i_owner : ∀ i l, o !! l = Some (Some i) → is_Some (cpus s !! i);
  i_lock : ∀ l lk, locks s !! l = Some lk → l_locked lk = match o !! l with Some (Some _) => 1 | _ => 0 end;
  i_set : ∀ i l lk, locks s !! l = Some lk → l_cpu lk = Some i → o !! l = Some (Some i);
  i_view : ∀ i c l lk, cpus s !! i = Some c → locks s !! l = Some lk → l_cpu lk = Some i ↔ l ∈ held c ∧ pc c ≠ RelUnlock l }.

Lemma pushcli_balanced c n : balanced c n → n < 2 ^ 31 - 1 → balanced (pushcli c) (n + 1).
Proof.
  intros (E & Hn & H) Hlt. unfold balanced, pushcli. cbn [ncli fl intena base]. rewrite s32_small by lia. split; [lia|]. split; [lia|]. replace (n + 1 =? 0) with false by lia. split; [done|]. rewrite E. destruct (n =? 0); [done|apply H].
Qed.

Lemma pop_then_spec w l c n : balanced c (n + 1) → 0 <= n →
  balanced (pop_then w l c) n ∧ pc (pop_then w l c) = w ∧ held (pop_then w l c) = held c ∧ pushed (pop_then w l c) = pushed c.
Proof.
  intros (E & Hn & H) H0. replace (n + 1 =? 0) with false in H by lia. destruct H as [Hf Hi]. unfold pop_then, popcli. rewrite Hf, E, s32_small by lia. replace (n + 1 - 1) with n by lia. replace (n <? 0) with false by lia.
  cbn. split; [|done]. split; [done|]. split; [lia|]. cbn. rewrite Hi. by destruct (n =? 0); [rewrite andb_true_l|].
Qed.

(** A step of processor [i] that takes or gives no lock. *)
Lemma inv_local s o i c c' : inv s o → cpus s !! i = Some c → cpu_ok c' → held c' = held c →
  (∀ l, pc c' = AcqSet l ↔ pc c = AcqSet l) → (∀ l, pc c' = RelUnlock l ↔ pc c = RelUnlock l) → inv (set_cpu i c' s) o.
Proof.
  intros H Hc Hok Hh H1 H2. pose proof (lookup_lt_Some _ _ _ Hc) as Hlt. split; try apply H.
  - intros j d Hd. cbn in Hd. apply list_lookup_insert_Some in Hd as [(<- & <- & _)|(_ & Hd)]; [done|by eapply (i_cpu _ _ H)].
  - intros j d l Hd. cbn in Hd. apply list_lookup_insert_Some in Hd as [(<- & <- & _)|(_ & Hd)]; [|by apply (i_own _ _ H)]. rewrite <- (i_own _ _ H i c l Hc). unfold owns. by rewrite Hh, H1.
  - intros j l Hj. cbn. apply lookup_lt_is_Some. rewrite length_insert. apply lookup_lt_is_Some. by apply (i_owner _ _ H j l).
  - intros j d l lk Hd Hl. cbn in Hd. apply list_lookup_insert_Some in Hd as [(<- & <- & _)|(_ & Hd)]; [|by apply (i_view _ _ H)]. rewrite (i_view _ _ H i c l lk Hc Hl), Hh. by rewrite H2.
Qed.

Lemma idle_balanced c : cpu_ok c → pc c = Idle → balanced c (Z.of_nat (length (held c)) + Z.of_nat (pushed c)).
Proof. intros (_ & _ & H) E. unfold stopped, depth in H. rewrite E in H. cbn in H. rewrite Z.add_0_r in H. by apply H. Qed.

Lemma inv_idle s o i c c' : inv s o → cpus s !! i = Some c → pc c = Idle → held c' = held c → (pc c' = Idle ∨ ∃ l, pc c' = AcqLocked l ∨ pc c' = RelLocked l) → balanced c' (depth c') →
  inv (set_cpu i c' s) o.
Proof.
  intros H Hc Hpc Hh Hw Hb. apply (inv_local s o i c); [done..| |done| |].
  - split; [rewrite Hh; by apply (i_cpu _ _ H i)|]. split; [|by intros _]. unfold pos_ok. by destruct Hw as [->|(l & [->| ->])].
  - intros l. rewrite Hpc. by destruct Hw as [->|(l' & [->| ->])].
  - intros l. rewrite Hpc. by destruct Hw as [->|(l' & [->| ->])].
Qed.

Definition seen (c : cpu) (l : nat) : Prop := l ∈ held c ∧ pc c ≠ RelUnlock l.

(** A step of processor [i] on lock [l], which no other owns. *)
Lemma inv_go s o i c l lk c' lk' x : inv s o → cpus s !! i = Some c → locks s !! l = Some lk → cpu_ok c' →
  (∀ j, j ≠ i → o !! l ≠ Some (Some j)) → (∀ k, k ≠ l → (owns c' k ↔ owns c k) ∧ (seen c' k ↔ seen c k)) →
  (owns c' l ↔ x = true) → l_locked lk' = (if x then 1 else 0) → (l_cpu lk' = None ∨ l_cpu lk' = Some i) → (l_cpu lk' = Some i ↔ seen c' l) →
  inv (Mach (<[i := c']> (cpus s)) (<[l := lk']> (locks s))) (<[l := if x then Some i else None]> o).
Proof.
  intros H Hc Hl Hok Hoth Hne Hx Hlk Hcp Hv. pose proof (lookup_lt_Some _ _ _ Hc) as Hlt. pose proof (lookup_lt_Some _ _ _ Hl) as Hll. rewrite <- (i_len _ _ H) in Hll.
  assert (<[l := if x then Some i else None]> o !! l = Some (if x then Some i else None)) as Ho by (by apply list_lookup_insert_eq).
  split; cbn.
  - rewrite !length_insert. apply H.
  - intros j d Hd. apply list_lookup_insert_Some in Hd as [(<- & <- & _)|(_ & Hd)]; [done|by eapply (i_cpu _ _ H)].
  - intros j d k Hd. apply list_lookup_insert_Some in Hd as [(<- & <- & _)|(Hj & Hd)]; destruct (decide (k = l)) as [->|Hk].
    + rewrite Ho, Hx. by destruct x.
    + rewrite list_lookup_insert_ne by done. rewrite (proj1 (Hne k Hk)). by apply (i_own _ _ H).
    + rewrite Ho. rewrite (i_own _ _ H j d l Hd). split; [intros E; by destruct (Hoth j)|intros E]. destruct x; congruence.
    + rewrite list_lookup_insert_ne by done. by apply (i_own _ _ H).
  - intros j k Hk. apply lookup_lt_is_Some. rewrite length_insert. destruct (decide (k = l)) as [->|Hkl].
    + rewrite Ho in Hk. destruct x; [|done]. injection Hk as <-. done.
    + rewrite list_lookup_insert_ne in Hk by done. apply lookup_lt_is_Some. by apply (i_owner _ _ H j k).
  - intros k lk2 Hk. apply list_lookup_insert_Some in Hk as [(<- & <- & _)|(Hk & Hlk2)]; [rewrite Ho; by destruct x|]. rewrite list_lookup_insert_ne by done. by apply (i_lock _ _ H).
  - intros j k lk2 Hk Ej. apply list_lookup_insert_Some in Hk as [(<- & <- & _)|(Hk & Hlk2)]; [|rewrite list_lookup_insert_ne by done; by apply (i_set _ _ H j k lk2)].
    assert (j = i) as -> by (destruct Hcp; congruence). rewrite Ho. assert (x = true) as ->; [|done]. apply Hx. left. by apply Hv.
  - intros j d k lk2 Hd Hk. fold (seen d k). apply list_lookup_insert_Some in Hk as [(<- & <- & _)|(Hk & Hlk2)]; apply list_lookup_insert_Some in Hd as [(<- & <- & _)|(Hj & Hd)]; [done| |rewrite (proj2 (Hne k (not_eq_sym Hk))); by apply (i_view _ _ H)|by apply (i_view _ _ H)].
    split; [intros E; destruct Hcp as [Hcp|Hcp]; congruence|intros [Hh _]]. destruct (Hoth j); [done|]. apply (i_own _ _ H j d l Hd). by left.
Qed.

Lemma pop_ok w l c : cpu_ok c → 0 < depth c → stopped c = false → stopped (set_pc w c) = true ∨ extra w + 1 = extra (pc c) → pos_ok (set_pc w c) →
  cpu_ok (pop_then w l c) ∧ held (pop_then w l c) = held c ∧ pc (pop_then w l c) = w.
Proof.
  intros (Hnd & _ & Hb) Hd Hs Hw Hp. destruct (pop_then_spec w l c (depth c - 1)) as (B & Ew & Eh & Ep); [replace (depth c - 1 + 1) with (depth c) by lia; by apply Hb|lia|].
  split; [|done]. unfold cpu_ok, pos_ok, stopped, depth in *. rewrite Ew, Eh, Ep in *. cbn in Hw, Hp. split; [done|]. split; [done|]. intros Hs'. destruct Hw as [Hw|Hw]; [congruence|]. by replace (_ + extra w) with (Z.of_nat (length (held c)) + Z.of_nat (pushed c) + extra (pc c) - 1) by lia.
Qed.

(** The two reads of [holding] give the right answer. *)
Lemma check_spec s o i c l lk : inv s o → cpus s !! i = Some c → locks s !! l = Some lk → pc c ≠ RelUnlock l →
  (l_locked lk = 0 → l ∉ held c) ∧ (l_cpu lk = Some i ↔ l ∈ held c).
Proof.
  intros H Hc Hl Hp. split.
  - intros E Hh. rewrite (i_lock _ _ H l lk Hl) in E. assert (o !! l = Some (Some i)) as Eo by (apply (i_own _ _ H i c); [done|by left]). by rewrite Eo in E.
  - rewrite (i_view _ _ H i c l lk Hc Hl). tauto.
Qed.

Definition quiet (w : pos) : bool := match w with AcqSet _ | RelUnlock _ => false | _ => true end.

Lemma inv_check s o i c l lk c' : inv s o → cpus s !! i = Some c → locks s !! l = Some lk → quiet (pc c) = true → quiet (pc c') = true → cpu_ok c' ∧ held c' = held c →
  inv (Mach (<[i := c']> (cpus s)) (<[l := lk]> (locks s))) o.
Proof.
  intros H Hc Hl Q Q' [Hok Hh]. rewrite (list_insert_id (locks s) l lk) by done. apply (inv_local s o i c c' H Hc Hok Hh).
  - intros k. split; intros E; [rewrite E in Q'|rewrite E in Q]; done.
  - intros k. split; intros E; [rewrite E in Q'|rewrite E in Q]; done.
Qed.

Lemma inv_pop s o i c l lk w : inv s o → cpus s !! i = Some c → locks s !! l = Some lk → quiet (pc c) = true → quiet w = true → stopped c = false → 0 < extra (pc c) →
  stopped (set_pc w c) = true ∨ extra w + 1 = extra (pc c) → pos_ok (set_pc w c) → inv (Mach (<[i := pop_then w l c]> (cpus s)) (<[l := lk]> (locks s))) o.
Proof.
  intros H Hc Hl Q Q' Hs He Hw Hp. destruct (pop_ok w l c) as (Hok & Hh & Ew); [by apply (i_cpu _ _ H i)|unfold depth; lia|done..|]. apply (inv_check s o i c); [done..|by rewrite Ew|done].
Qed.

Lemma owned_by s o i c l : inv s o → cpus s !! i = Some c → owns c l → ∀ j, j ≠ i → o !! l ≠ Some (Some j).
Proof. intros H Hc Ho j Hj E. apply (i_own _ _ H i c l Hc) in Ho. congruence. Qed.

(** The exchange that finds the lock free takes it. *)
Lemma inv_xchg s o i c l lk : inv s o → cpus s !! i = Some c → pc c = AcqXchg l → locks s !! l = Some lk → l_locked lk = 0 →
  o !! l = Some None ∧ inv (Mach (<[i := set_pc (AcqSet l) c]> (cpus s)) (<[l := Spinlock 1 (l_cpu lk)]> (locks s))) (<[l := Some i]> o).
Proof.
  intros H Hc Hp Hl E. destruct (i_cpu _ _ H i c Hc) as (Hnd & Hpos & Hb). unfold pos_ok in Hpos. rewrite Hp in Hpos. rewrite (i_lock _ _ H l lk Hl) in E.
  assert (o !! l = Some None) as Eo. { pose proof (lookup_lt_Some _ _ _ Hl) as Hlt. rewrite <- (i_len _ _ H) in Hlt. apply lookup_lt_is_Some in Hlt as [x Hx]. rewrite Hx in E |- *. by destruct x. }
  split; [done|]. apply (inv_go s o i c l lk _ _ true H Hc Hl).
  - split; [done|]. split; [done|]. unfold stopped, depth in *. rewrite Hp in Hb. done.
  - intros j _. by rewrite Eo.
  - intros k Hk. unfold owns, seen. cbn. rewrite Hp. split; [|split; intros [? _]; done]. split; intros [?|[=]]; by left.
  - unfold owns. cbn. split; [done|]. intros _. by right.
  - done.
  - left. cbn. destruct (l_cpu lk) as [j|] eqn:Ej; [|done]. apply (i_set _ _ H j l lk Hl) in Ej. congruence.
  - cbn. unfold seen. cbn. rewrite (i_view _ _ H i c l lk Hc Hl), Hp. split; intros [? _]; done.
Qed.

Lemma inv_set s o i c l lk : inv s o → cpus s !! i = Some c → pc c = AcqSet l → locks s !! l = Some lk →
  inv (Mach (<[i := set_held (l :: held c) (set_pc Idle c)]> (cpus s)) (<[l := Spinlock (l_locked lk) (Some i)]> (locks s))) o.
Proof.
  intros H Hc Hp Hl. destruct (i_cpu _ _ H i c Hc) as (Hnd & Hpos & Hb). unfold pos_ok in Hpos. rewrite Hp in Hpos. assert (owns c l) as Ho by (by right). pose proof (proj1 (i_own _ _ H i c l Hc) Ho) as Eo.
  rewrite <- (list_insert_id o l (Some i)) by done. apply (inv_go s o i c l lk _ _ true H Hc Hl).
  - split; [by apply NoDup_cons|]. split; [done|]. unfold stopped, depth in *. rewrite Hp in Hb. cbn [held pushed pc set_held set_pc extra length] in *. intros _. specialize (Hb eq_refl).
    replace (Z.of_nat (S (length (held c))) + Z.of_nat (pushed c) + 0) with (Z.of_nat (length (held c)) + Z.of_nat (pushed c) + 1) by lia. exact Hb.
  - by eapply owned_by.
  - intros k Hk. unfold owns, seen. cbn. rewrite Hp, elem_of_cons. split; split; naive_solver.
  - unfold owns. cbn. split; [done|]. intros _. left. left.
  - cbn. rewrite (i_lock _ _ H l lk Hl). by rewrite Eo.
  - by right.
  - cbn. unfold seen. cbn. split; [|done]. intros _. split; [left|done].
Qed.

Lemma inv_clear s o i c l lk : inv s o → cpus s !! i = Some c → pc c = RelClear l → locks s !! l = Some lk →
  inv (Mach (<[i := set_pc (RelUnlock l) c]> (cpus s)) (<[l := Spinlock (l_locked lk) None]> (locks s))) o.
Proof.
  intros H Hc Hp Hl. destruct (i_cpu _ _ H i c Hc) as (Hnd & Hpos & Hb). unfold pos_ok in Hpos. rewrite Hp in Hpos. assert (owns c l) as Ho by (by left). pose proof (proj1 (i_own _ _ H i c l Hc) Ho) as Eo.
  rewrite <- (list_insert_id o l (Some i)) by done. apply (inv_go s o i c l lk _ _ true H Hc Hl).
  - split; [done|]. split; [done|]. unfold stopped, depth in *. by rewrite Hp in Hb.
  - by eapply owned_by.
  - intros k Hk. unfold owns, seen. cbn. rewrite Hp. split; split; naive_solver.
  - unfold owns. cbn. split; [done|]. intros _. by left.
  - cbn. rewrite (i_lock _ _ H l lk Hl). by rewrite Eo.
  - by left.
  - cbn. unfold seen. cbn. split; [done|]. by intros [_ []].
Qed.

Lemma length_remove (l : nat) h : NoDup h → l ∈ h → length h = S (length (filter (.≠ l) h)).
Proof.
  induction h as [|k h IH]; intros Hnd Hl; [by apply not_elem_of_nil in Hl|]. apply NoDup_cons in Hnd as [Hk Hnd]. destruct (decide (k = l)) as [->|Hne].
  - rewrite filter_cons_False by tauto. cbn [length]. f_equal. clear IH Hl. induction h as [|k h IH]; [done|]. apply not_elem_of_cons in Hk as [Hk1 Hk2]. rewrite filter_cons_True by done. cbn. f_equal. apply IH; [done|by apply NoDup_cons in Hnd as [_ ?]].
  - apply elem_of_cons in Hl as [->|Hl]; [done|]. rewrite filter_cons_True by done. cbn. by rewrite (IH Hnd Hl).
Qed.

(** The store in [release] gives the lock back. *)
Lemma inv_unlock s o i c l lk : inv s o → cpus s !! i = Some c → pc c = RelUnlock l → locks s !! l = Some lk →
  o !! l = Some (Some i) ∧ inv (Mach (<[i := pop_then Idle l (set_held (filter (.≠ l) (held c)) c)]> (cpus s)) (<[l := Spinlock 0 (l_cpu lk)]> (locks s))) (<[l := None]> o).
Proof.
  intros H Hc Hp Hl. destruct (i_cpu _ _ H i c Hc) as (Hnd & Hpos & Hb). unfold pos_ok in Hpos. rewrite Hp in Hpos. assert (owns c l) as Ho by (by left). pose proof (proj1 (i_own _ _ H i c l Hc) Ho) as Eo.
  split; [done|]. set (h := filter (.≠ l) (held c)) in *. pose proof (length_remove l (held c) Hnd Hpos) as Hlen. fold h in Hlen. unfold stopped, depth in Hb. rewrite Hp in Hb. specialize (Hb eq_refl). cbn [extra] in Hb.
  destruct (pop_then_spec Idle l (set_held h c) (Z.of_nat (length h) + Z.of_nat (pushed c))) as (B & Ew & Eh & Ep); [|lia|].
  { replace (Z.of_nat (length h) + Z.of_nat (pushed c) + 1) with (Z.of_nat (length (held c)) + Z.of_nat (pushed c) + 0) by lia. exact Hb. }
  cbn [held pushed set_held] in Eh, Ep. set (c' := pop_then Idle l (set_held h c)) in *.
  assert (∀ k, k ∈ h ↔ k ≠ l ∧ k ∈ held c) as Hh by (intros k; unfold h; by rewrite list_elem_of_filter). assert (l_cpu lk ≠ Some i) as Hcp. { rewrite (i_view _ _ H i c l lk Hc Hl), Hp. by intros [_ []]. }
  apply (inv_go s o i c l lk _ _ false H Hc Hl).
  - split; [rewrite Eh; by apply NoDup_filter|]. split; [unfold pos_ok; by rewrite Ew|]. intros _. unfold depth. rewrite Ew, Eh, Ep. cbn [extra]. by rewrite Z.add_0_r.
  - by eapply owned_by.
  - intros k Hk. unfold owns, seen. rewrite Ew, Eh, Hp, Hh. split; split; naive_solver.
  - unfold owns. rewrite Ew, Eh, Hh. split; [|done]. intros [[? _]|?]; done.
  - done.
  - left. cbn. destruct (l_cpu lk) as [j|] eqn:Ej; [|done]. apply (i_set _ _ H j l lk Hl) in Ej. congruence.
  - cbn. unfold seen. rewrite Eh, Hh. split; [done|]. by intros [[? _] _].
Qed.

Lemma inv_access s o i c l lk c' lk' : inv s o → cpus s !! i = Some c → target (pc c) = Some l → locks s !! l = Some lk → lock_step i c lk = (c', lk') →
  ∃ o', rtc own_step o o' ∧ inv (Mach (<[i := c']> (cpus s)) (<[l := lk']> (locks s))) o'.
Proof.
  intros H Hc Ht Hl E. assert (pc c ≠ RelUnlock l → _) as Hck by exact (check_spec s o i c l lk H Hc Hl). assert (stopped c = false) as Hs by (unfold stopped; by destruct (pc c)).
  unfold lock_step in E. destruct (pc c) as [|k|k|k|k|k|k|k|k|] eqn:Hp; try discriminate; injection Ht as ->.
  - destruct (Hck ltac:(done)) as [Hz _]. injection E as <- <-. exists o. split; [done|]. destruct (Z.eqb_spec (l_locked lk) 0) as [E0|_].
    + apply (inv_pop s o i c); rewrite ?Hp; try done; [by right|]. by apply Hz.
    + apply (inv_check s o i c); rewrite ?Hp; try done. split; [|done]. destruct (i_cpu _ _ H i c Hc) as (? & _ & Hb). split_and!; [done..|]. unfold stopped, depth in *. by rewrite Hp in Hb.
  - destruct (Hck ltac:(done)) as [_ Hv]. injection E as <- <-. exists o. split; [done|]. destruct (decide (l_cpu lk = Some i)) as [E0|E0]; apply (inv_pop s o i c); rewrite ?Hp; try done; [by left| |by right|].
    + left. split; [done|]. by apply Hv.
    + intros Hh. by apply E0, Hv.
  - destruct (Z.eqb_spec (l_locked lk) 0) as [E0|E0]; injection E as <- <-.
    + destruct (inv_xchg s o i c l lk H Hc Hp Hl E0) as [Eo Hi]. exists (<[l := Some i]> o). split; [by apply rtc_once, own_take|done].
    + exists o. split; [done|]. pose proof (i_lock _ _ H l lk Hl) as E1. assert (Spinlock 1 (l_cpu lk) = lk) as ->. { destruct lk as [v q]. cbn in *. f_equal. destruct (o !! l) as [[]|]; congruence. }
      rewrite !list_insert_id by done. by destruct s.
  - injection E as <- <-. exists o. split; [done|]. by apply inv_set.
  - destruct (Hck ltac:(done)) as [Hz _]. injection E as <- <-. exists o. split; [done|]. destruct (Z.eqb_spec (l_locked lk) 0) as [E0|_].
    + apply (inv_pop s o i c); rewrite ?Hp; try done; [by left|]. right. split; [done|]. by apply Hz.
    + apply (inv_check s o i c); rewrite ?Hp; try done. split; [|done]. destruct (i_cpu _ _ H i c Hc) as (? & _ & Hb). split_and!; [done..|]. unfold stopped, depth in *. by rewrite Hp in Hb.
  - destruct (Hck ltac:(done)) as [_ Hv]. injection E as <- <-. exists o. split; [done|]. destruct (decide (l_cpu lk = Some i)) as [E0|E0]; apply (inv_pop s o i c); rewrite ?Hp; try done; [by right| |by left|].
    + by apply Hv.
    + right. split; [done|]. intros Hh. by apply E0, Hv.
  - injection E as <- <-. exists o. split; [done|]. by apply inv_clear.
  - injection E as <- <-. destruct (inv_unlock s o i c l lk H Hc Hp Hl) as [Eo Hi]. exists (<[l := None]> o). split; [by eapply rtc_once, own_give|done].
Qed.

Lemma inv_step s o s' : inv s o → mach_step s s' → ∃ o', rtc own_step o o' ∧ inv s' o'.
Proof.
  intros H Hst. destruct Hst as [s i c l Hc Hp Hl Hs|s i c l Hc Hp Hl Hs|s i c Hc Hp Hs|s i c n Hc Hp Hn|s i c b Hc Hp Hz|s i c l lk c' lk' Hc Ht Hl E]; [..|by eapply inv_access];
    (exists o; split; [done|]); pose proof (idle_balanced c (i_cpu _ _ H i c Hc) Hp) as B; pose proof B as (En & Hr & Hf); unfold shallow in *.
  - apply (inv_idle s o i c); [done..|right; eauto|]. unfold depth, acquire. cbn [held pushed pc set_pc pushcli extra]. replace (_ + 2) with (Z.of_nat (length (held c)) + Z.of_nat (pushed c) + 1 + 1) by lia. apply (pushcli_balanced (pushcli c)); [apply pushcli_balanced; [done|lia]|lia].
  - apply (inv_idle s o i c); [done..|right; eauto|]. unfold depth, release. cbn [held pushed pc set_pc pushcli extra]. apply (pushcli_balanced c); [done|lia].
  - apply (inv_idle s o i c); [done..|by left|]. unfold depth. cbn [held pushed pc set_pushed pushcli]. rewrite Hp. cbn [extra]. replace (_ + _ + 0) with (Z.of_nat (length (held c)) + Z.of_nat (pushed c) + 1) by lia. apply (pushcli_balanced c); [done|lia].
  - destruct (pop_then_spec Idle 0 (set_pushed n c) (Z.of_nat (length (held c)) + Z.of_nat n)) as (B' & Ew & Eh & Ep); [|lia|].
    { rewrite Hn in B. by replace (_ + Z.of_nat n + 1) with (Z.of_nat (length (held c)) + Z.of_nat (S n)) by lia. }
    apply (inv_idle s o i c); [done..|by left|]. unfold depth. rewrite Ew, Eh, Ep. cbn [extra held pushed set_pushed]. by rewrite Z.add_0_r.
  - apply (inv_idle s o i c); [done..|by left|]. unfold depth. cbn [held pushed pc set_flag]. rewrite Hp. cbn [extra]. rewrite Z.add_0_r. split; [done|]. split; [done|]. replace (_ =? 0) with true by lia. done.
Qed.

Lemma inv_boot bs m : inv (boot bs m) (replicate m None).
Proof.
  split; cbn.
  - by rewrite !length_replicate.
  - intros i c Hc. apply list_lookup_fmap_Some in Hc as (b & -> & _). split; [apply NoDup_nil_2|]. split; [done|]. by intros _.
  - intros i c l Hc. apply list_lookup_fmap_Some in Hc as (b & -> & _). unfold owns. split; [intros [[]%not_elem_of_nil|[=]]|intros [[=] _]%lookup_replicate].
  - by intros i l [[=] _]%lookup_replicate.
  - intros l lk [-> Hl]%lookup_replicate. by rewrite lookup_replicate_2.
  - by intros i l lk [-> _]%lookup_replicate.
  - intros i c l lk Hc [-> _]%lookup_replicate. apply list_lookup_fmap_Some in Hc as (b & -> & _). split; [done|]. by intros [[]%not_elem_of_nil _].
Qed.

Lemma inv_run bs m s : rtc mach_step (boot bs m) s → ∃ o, rtc own_step (replicate m None) o ∧ inv s o.
Proof.
  intros Hr. apply (rtc_invariant mach_step (λ s, ∃ o, rtc own_step (replicate m None) o ∧ inv s o) (boot bs m)); [|exists (replicate m None); split; [done|apply inv_boot]|done].
  intros s1 s2 (o1 & R1 & H1) Hst. destruct (inv_step s1 o1 s2 H1 Hst) as (o2 & R2 & H2). exists o2. split; [by etrans|done].
Qed.

(** C39. In every interleaving of the accesses of any number of processors to any number of spin locks, the locks are owned one owner at a time, and a processor that has acquired a lock is its owner.  With a lock
    held interrupts are off, so that no handler can spin on a lock of its own processor; with nothing pending the interrupt flag is what the processor last chose.  A processor panics
    exactly when it acquires a lock it holds or releases one it does not, although holding reads the lock in two steps; and one that tries to take a lock takes it unless another processor owns it. *)
Theorem spin_locks_exclude bs m s : rtc mach_step (boot bs m) s → ∃ o, rtc own_step (replicate m None) o ∧ ∀ i c, cpus s !! i = Some c →
  (∀ l, l ∈ held c → o !! l = Some (Some i)) ∧
  (stopped c = false → held c ≠ [] → fl c = false) ∧ (pc c = Idle → held c = [] → pushed c = 0%nat → fl c = base c) ∧
  (∀ msg l, pc c = Stopped msg l → msg = "acquire"%string ∧ l ∈ held c ∨ msg = "release"%string ∧ l ∉ held c) ∧
  (∀ l, pc c = AcqXchg l → l ∉ held c) ∧ (∀ l, pc c = RelClear l → l ∈ held c) ∧
  (∀ l lk, pc c = AcqXchg l → locks s !! l = Some lk → pc (lock_step i c lk).1 = AcqSet l ∨ ∃ j d, j ≠ i ∧ cpus s !! j = Some d ∧ owns d l).
Proof.
  intros Hr. destruct (inv_run bs m s Hr) as (o & R & H). exists o. split; [done|]. intros i c Hc. pose proof (i_cpu _ _ H i c Hc) as (_ & Hp & Hb). split_and!.
  - intros l Hl. apply (i_own _ _ H i c); [done|by left].
  - intros Hs Hh. destruct (Hb Hs) as (_ & _ & Hf). replace (depth c =? 0) with false in Hf; [by destruct Hf|]. unfold depth. destruct (held c); [done|]. assert (0 <= extra (pc c)) by (by destruct (pc c)). cbn [length]. symmetry. apply Z.eqb_neq. lia.
  - intros Ei Eh Ep. unfold stopped, depth in Hb. rewrite Ei, Eh, Ep in Hb. by destruct (Hb eq_refl) as (_ & _ & Hf).
  - intros msg l E. unfold pos_ok in Hp. by rewrite E in Hp.
  - intros l E. unfold pos_ok in Hp. by rewrite E in Hp.
  - intros l E. unfold pos_ok in Hp. by rewrite E in Hp.
  - intros l lk E Hl. unfold lock_step. rewrite E. destruct (Z.eqb_spec (l_locked lk) 0) as [_|Hz]; [by left|right]. rewrite (i_lock _ _ H l lk Hl) in Hz. destruct (o !! l) as [[j|]|] eqn:Ho; [|done..].
    destruct (i_owner _ _ H j l Ho) as [d Hd]. pose proof (proj2 (i_own _ _ H j d l Hd) Ho) as Hod. exists j, d. split; [|done]. intros ->. assert (d = c) as -> by congruence. unfold pos_ok in Hp. rewrite E in Hp. destruct Hod as [?|?]; [done|congruence].
Qed.

(** Processor 0 takes lock 0, processor 1 waits for it. *)
Definition y_go (i l : nat) (s : mach) : mach :=
  match cpus s !! i, locks s !! l with
  | Some c, Some lk => let '(c', lk') := lock_step i c lk in Mach (<[i := c']> (cpus s)) (<[l := lk']> (locks s))
  | _, _ => s
  end.
Definition y_call (i l : nat) (s : mach) : mach := match cpus s !! i with Some c => set_cpu i (acquire l c) s | None => s end.
Definition y_two : mach := y_go 1 0 (y_go 1 0 (y_go 1 0 (y_call 1 0 (y_go 0 0 (y_go 0 0 (y_go 0 0 (y_call 0 0 (boot [true; false] 1)))))))).

Lemma y_two_run : rtc mach_step (boot [true; false] 1) y_two.
Proof.
  eapply rtc_l; [eapply (ms_acquire _ 0%nat _ 0%nat); [reflexivity|reflexivity|cbn; lia|done]|].
  do 3 (eapply rtc_l; [eapply (ms_go _ 0%nat _ 0%nat); reflexivity|]).
  eapply rtc_l; [eapply (ms_acquire _ 1%nat _ 0%nat); [reflexivity|reflexivity|cbn; lia|done]|].
  do 3 (eapply rtc_l; [eapply (ms_go _ 1%nat _ 0%nat); reflexivity|]). apply rtc_refl.
Qed.

(** C39 applies: processor 0 holds the lock with interrupts off, processor 1 is at its exchange. *)
Lemma spin_locks_exclude_witness : ∃ c d o, cpus y_two !! 0%nat = Some c ∧ cpus y_two !! 1%nat = Some d ∧ held c = [0%nat] ∧ pc d = AcqXchg 0 ∧ rtc own_step (replicate 1 None) o ∧ o !! 0%nat = Some (Some 0%nat) ∧ fl c = false.
Proof.
  destruct (spin_locks_exclude [true; false] 1 y_two y_two_run) as (o & R & H). eexists _, _, o. split; [reflexivity|]. split; [reflexivity|]. split; [reflexivity|]. split; [reflexivity|]. split; [exact R|].
  destruct (H 0%nat _ eq_refl) as (H1 & H2 & _). split; [apply H1; left|]. apply H2; [reflexivity|discriminate].
Defined.

End Spin.

Module Sleep.

(** [waiters] are the processes in [acquiresleep], with whether they are asleep; [owners] the processes whose [acquiresleep] has returned and which have not called [releasesleep]. *)
Record sleeplock := Sleeplock { s_locked : Z; s_pid : Z; waiters : gmap Z bool; owners : list Z }.

Definition initsleeplock : sleeplock := Sleeplock 0 0 ∅ [].

(** The test of the loop of [acquiresleep]: process [p] sleeps, or takes the lock and returns. *)
Definition acquire_test (p : Z) (k : sleeplock) : sleeplock :=
  if negb (s_locked k =? 0) then Sleeplock (s_locked k) (s_pid k) (<[p := true]> (waiters k)) (owners k)
  else Sleeplock 1 p (delete p (waiters k)) (p :: owners k).

Definition releasesleep (p : Z) (k : sleeplock) : sleeplock := Sleeplock 0 0 ((λ _, false) <$> waiters k) (filter (.≠ p) (owners k)).

Definition holdingsleep (p : Z) (k : sleeplock) : bool := negb (s_locked k =? 0) && (s_pid k =? p).

(** A process calls [acquiresleep], wakes up, perhaps because it was killed, and tests again; or it has the lock and releases it. *)
Inductive sleep_step : sleeplock → sleeplock → Prop :=
| sl_call k p : p ∉ owners k → waiters k !! p = None → 0 < p → sleep_step k (acquire_test p k)
| sl_wake k p : waiters k !! p = Some true → sleep_step k (Sleeplock (s_locked k) (s_pid k) (<[p := false]> (waiters k)) (owners k))
| sl_test k p : waiters k !! p = Some false → sleep_step k (acquire_test p k)
| sl_release k p : p ∈ owners k → sleep_step k (releasesleep p k).

Definition sleep_inv (k : sleeplock) : Prop :=
  (s_locked k = 0 ∧ owners k = [] ∧ (∀ p, waiters k !! p ≠ Some true) ∨ s_locked k = 1 ∧ owners k = [s_pid k]) ∧ (∀ p, is_Some (waiters k !! p) → p ∉ owners k).

Lemma test_inv k p : sleep_inv k → p ∉ owners k → sleep_inv (acquire_test p k).
Proof.
  intros [H Hw] Hp. unfold acquire_test. destruct H as [(E & Eo & Hs)|(E & Eo)]; rewrite E; cbn [Z.eqb negb].
  - split; [right; cbn; by rewrite Eo|]. cbn. rewrite Eo. intros q [x [Hne _]%lookup_delete_Some] ->%list_elem_of_singleton. done.
  - split; [by right|]. cbn. intros q [x [[<- _]|[_ Hq]]%lookup_insert_Some]; [done|]. apply Hw. by exists x.
Qed.

Lemma sleep_inv_step k k' : sleep_inv k → sleep_step k k' → sleep_inv k'.
Proof.
  intros H Hst. destruct Hst as [k p Hp Hn _|k p Hp|k p Hp|k p Hp].
  - by apply test_inv.
  - destruct H as [H Hw]. split; cbn.
    + destruct H as [(E & Eo & Hs)|H]; [by apply Hs in Hp|by right].
    + intros q [x [[<- _]|[_ Hq]]%lookup_insert_Some]; apply Hw; eauto.
  - apply test_inv; [done|]. apply H. by exists false.
  - destruct H as [[(_ & Eo & _)|(E & Eo)] _]; rewrite Eo in Hp; [by apply not_elem_of_nil in Hp|]. apply list_elem_of_singleton in Hp as ->. unfold releasesleep. rewrite Eo. rewrite filter_cons_False by tauto. cbn.
    split; cbn; [left; split_and!; try done|].
    + intros p. rewrite lookup_fmap. by destruct (waiters k !! p).
    + intros p _. apply not_elem_of_nil.
Qed.

(** A sleep lock has at most one owner, which is the process that [holdingsleep] finds; no process sleeps while the lock is free, and a process that tests a free lock has it. *)
Theorem sleep_lock_excludes k : rtc sleep_step initsleeplock k →
  (length (owners k) ≤ 1)%nat ∧ (∀ p, holdingsleep p k = true ↔ p ∈ owners k) ∧ (∀ p, waiters k !! p = Some true → owners k ≠ []) ∧
  (∀ p, owners k = [] → owners (acquire_test p k) = [p] ∧ holdingsleep p (acquire_test p k) = true).
Proof.
  intros Hr. assert (sleep_inv k) as [H _].
  { apply (rtc_invariant sleep_step sleep_inv initsleeplock); [intros ? ? ? ?; by eapply sleep_inv_step| |done]. split; [left; split_and!; try done; intros p; by rewrite lookup_empty|]. intros p _. apply not_elem_of_nil. }
  unfold holdingsleep, acquire_test. destruct H as [(E & Eo & Hs)|(E & Eo)]; rewrite E, Eo; cbn [Z.eqb negb andb length]; split_and!; try lia; try done.
  - intros p. split; [done|]. by intros []%not_elem_of_nil.
  - intros p Hp _. by apply (Hs p).
  - intros p _. cbn. split; [done|]. apply Z.eqb_refl.
  - intros p. rewrite list_elem_of_singleton. split; [|intros ->; apply Z.eqb_refl]. by intros ->%Z.eqb_eq.
Qed.

End Sleep.
