(* ===== verification/Boot.v ===== *)
(** How the kernel starts its file system (src/p4/fs.c, log.c, proc.c): the first process gets the root as its current directory before any block is read, and the first return to user space
    reads the super block and recovers the log.  The console messages are left out. *)

From Stdlib Require Import ZArith Lia.
From stdpp Require Import base numbers list gmap fin_sets sets strings.
From S2P Require Import Prelude CStr Bio Log Fs File Icache Dir Ftable Sysfile.
#[local] Open Scope Z_scope.

Definition load_sb (d : block) : superblock :=
  SuperBlock (get32 d 0) (get32 d 1) (get32 d 2) (get32 d 3) (get32 d 4) (get32 d 5) (get32 d 6).

Definition readsb {C} `{BufOps C} (c : C) (dv : Z) : outcome (superblock * C) :=
  '(bp, c) ← c_bread c (dv, 1);
  d ← c_data c bp;
  c ← c_brelse c bp;
  Ok (load_sb d, c).

(** [initsleeplock] of each entry, then [sb]. *)
Definition iinit {C} `{BufOps C} (c : C) (ic : icache) (dv : Z) : outcome (superblock * C * icache) :=
  let ic := set_ilocked false <$> ic in
  '(sb, c) ← readsb c dv;
  Ok (sb, c, ic).

(** [initlog] as a whole: with the super block it reads. *)
Definition initlog_sb {C} `{BufOps C} (c : C) (dv : Z) : outcome (C * log) :=
  '(sb, c) ← readsb c dv;
  initlog c dv (sb_logstart sb) (sb_nlog sb).

(** Memory before it is initialised: zero. *)
Definition icache0 : icache := replicate NINODE (Inode 0 0 0 false false 0 0 0 0 0 []).
Definition log0 : log := Log 0 0 0 false 0 [].
Definition sb0 : superblock := SuperBlock 0 0 0 0 0 0 0.
Definition ftable0 : ftable := replicate NFILE (TFile FNone 0 false false 0).

(** [p->cwd = namei("/")] in [userinit]. *)
Definition userinit_cwd {C} `{BufOps C} (c : C) (ic : icache) : outcome (option nat * C * log * icache) :=
  namei sb0 (λ _, None) c log0 ic 0 (of_string "/").

(** [forkret] of the first process. *)
Definition forkret {C} `{BufOps C} (c : C) (ic : icache) : outcome (superblock * C * log * icache) :=
  '(sb, c, ic) ← iinit c ic ROOTDEV;
  '(c, g) ← initlog_sb c ROOTDEV;
  Ok (sb, c, g, ic).

(** From the disk [d] to the first process in user space, without open files. *)
Definition start_fs {M : Type} (d : disk_map) (mm : M) : outcome (superblock * fsys bcache M * uproc) :=
  '(o, c, _, ic) ← userinit_cwd (binit d) icache0;
  match o with
  | None => Fault 0
  | Some k =>
      '(sb, c, g, ic) ← forkret c ic;
      Ok (sb, FSys c g ic ftable0 ∅ mm, UProc (replicate NOFILE None) k)
  end.
