(* ===== verification/Mkfs.v ===== *)
(** The tool that makes the first disk image (src/p4/mkfs.c).

    The image is the disk the kernel will boot from: block [sec] of the file is block [sec] of [ROOTDEV].  The host is little endian, so xshort and xint are the identity.  Calls of the host that
    fail end the tool; of these, the reads past the end of the image and the files that cannot be opened are modelled, as [Panic], like a failing assert.  The arguments are the names of the files, each with
    the pieces that successive calls of read return. *)

From Stdlib Require Import ZArith Lia.
From stdpp Require Import base numbers list gmap fin_sets sets strings.
From S2P Require Import Prelude CStr Bio Log Fs File Icache Dir.
#[local] Open Scope Z_scope.

Definition NINODES : Z := 200.
Definition nbitmap : Z := FSSIZE / (BS * 8) + 1.
Definition ninodeblocks : Z := NINODES / IPB + 1.
Definition nlog : Z := LOGSIZE.
Definition nmeta : Z := 2 + nlog + ninodeblocks + nbitmap.
Definition nblocks : Z := FSSIZE - nmeta.

(** [sb] *)
Definition mk_sb : superblock := SuperBlock FSSIZE nblocks NINODES nlog 2 (2 + nlog) (2 + nlog + ninodeblocks).
Definition sb_bytes (s : superblock) : list Z :=
  concat (le_bytes 4 <$> [sb_size s; sb_nblocks s; sb_ninodes s; sb_nlog s; sb_logstart s; sb_inodestart s; sb_bmapstart s]).

Definition zeroes : block := replicate BSIZE 0.

(** The globals. *)
Record mkst := MkSt { img : disk_map; freeinode : Z; freeblock : Z }.
Definition set_img (i : disk_map) (s : mkst) : mkst := MkSt i (freeinode s) (freeblock s).
(** [freeblock++] *)
Definition take_block (s : mkst) : mkst := MkSt (img s) (freeinode s) (u32 (freeblock s + 1)).

Definition wsect (i : disk_map) (sec : Z) (buf : block) : disk_map := <[(ROOTDEV, sec) := buf]> i.
Definition rsect (i : disk_map) (sec : Z) : outcome block :=
  match i !! (ROOTDEV, sec) with Some b => Ok b | None => Panic "read" end.

Definition winode (i : disk_map) (n : Z) (ip : inode) : outcome disk_map :=
  let bn := IBLOCK mk_sb n in
  buf ← rsect i bn;
  Ok (wsect i bn (splice buf (Z.to_nat (n mod IPB) * DINODE) (dinode_bytes ip))).

Definition rinode (i : disk_map) (n : Z) : outcome inode :=
  let bn := IBLOCK mk_sb n in
  buf ← rsect i bn;
  Ok (load_dinode (take DINODE (drop (Z.to_nat (n mod IPB) * DINODE) buf)) (Inode ROOTDEV n 0 false false 0 0 0 0 0 [])).

Definition ialloc (s : mkst) (type : Z) : outcome (Z * mkst) :=
  let n := freeinode s in
  i ← winode (img s) n (Inode ROOTDEV n 0 false false type 0 0 1 0 (replicate 13 0));
  Ok (n, MkSt i (u32 (n + 1)) (freeblock s)).

(** The first [used] bits. *)
Definition bits (used : Z) : block := foldl set_bit zeroes (seqZ 0 used).
Definition balloc (i : disk_map) (used : Z) : outcome disk_map :=
  if used <? BS * 8 then Ok (wsect i (sb_bmapstart mk_sb) (bits used)) else Panic "used < BSIZE*8".

(** The block [fbn] of the file, taken if it has none. *)
Definition block_for (s : mkst) (din : inode) (fbn : Z) : outcome (Z * inode * mkst) :=
  if fbn <? NDIRECT then
    if addr_at din fbn =? 0 then Ok (freeblock s, set_addr fbn (freeblock s) din, take_block s) else Ok (addr_at din fbn, din, s)
  else
    let '(din, s) := if addr_at din NDIRECT =? 0 then (set_addr NDIRECT (freeblock s) din, take_block s) else (din, s) in
    indirect ← rsect (img s) (addr_at din NDIRECT);
    let k := Z.to_nat (fbn - NDIRECT) in
    if get32 indirect k =? 0 then
      let x := freeblock s in
      Ok (x, din, set_img (wsect (img s) (addr_at din NDIRECT) (put32 indirect k x)) (take_block s))
    else Ok (get32 indirect k, din, s).

(** The loop of [iappend]: [p] is left to append, at [off]. *)
Fixpoint iappend_loop (s : mkst) (din : inode) (p : list Z) (off : Z) (fuel : nat) : outcome (inode * Z * mkst) :=
  match p, fuel with
  | [], _ => Ok (din, off, s)
  | _, O => NoFuel
  | _, S fuel' =>
      let fbn := off / BS in
      if MAXFILE <=? fbn then Panic "fbn < MAXFILE"
      else
        '(x, din, s) ← block_for s din fbn;
        let n1 := Z.to_nat (Z.min (Z.of_nat (length p)) ((fbn + 1) * BS - off)) in
        buf ← rsect (img s) x;
        let s := set_img (wsect (img s) x (splice buf (Z.to_nat (off - fbn * BS)) (take n1 p))) s in
        iappend_loop s din (drop n1 p) (off + Z.of_nat n1) fuel'
  end.

Definition iappend (s : mkst) (n : Z) (p : list Z) : outcome mkst :=
  din ← rinode (img s) n;
  '(din, off, s) ← iappend_loop s din p (isize din) (length p);
  i ← winode (img s) n (set_size off din);
  Ok (set_img i s).

(** [while((cc = read(fd, buf, sizeof(buf))) > 0) iappend(inum, buf, cc);] *)
Fixpoint append_all (s : mkst) (n : Z) (pieces : list (list Z)) : outcome mkst :=
  match pieces with [] => Ok s | p :: ps => s ← iappend s n p; append_all s n ps end.

(** An argument: its name, and what can be read from the file. *)
Definition arg : Type := list Z * option (list (list Z)).

Definition UNDERSCORE : Z := 95.
Definition stored_name (name : list Z) : list Z := if chr name =? UNDERSCORE then tl name else name.

Definition add_file (s : mkst) (a : arg) : outcome mkst :=
  if bool_decide (SLASH ∈ a.1) then Panic "index(argv[i], '/') == 0"
  else
    match a.2 with
    | None => Panic "open"
    | Some pieces =>
        '(n, s) ← ialloc s T_FILE;
        s ← iappend s ROOTINO (dirent n (stored_name a.1));
        append_all s n pieces
    end.

Fixpoint add_files (s : mkst) (args : list arg) : outcome mkst :=
  match args with [] => Ok s | a :: args' => s ← add_file s a; add_files s args' end.

(** Zero blocks, then the super block. *)
Definition blank : disk_map :=
  wsect (foldl (λ i sec, wsect i sec zeroes) ∅ (seqZ 0 FSSIZE)) 1 (splice zeroes 0 (sb_bytes mk_sb)).

(** The root directory with its first two entries. *)
Definition mk_root (s : mkst) : outcome mkst :=
  '(rootino, s) ← ialloc s T_DIR;
  if negb (rootino =? ROOTINO) then Panic "rootino == ROOTINO"
  else
    s ← iappend s rootino (dirent rootino (of_string "."));
    iappend s rootino (dirent rootino (of_string "..")).

(** [// fix size of root inode dir] and the bitmap. *)
Definition finish (s : mkst) : outcome disk_map :=
  din ← rinode (img s) ROOTINO;
  i ← winode (img s) ROOTINO (set_size ((isize din / BS + 1) * BS) din);
  balloc i (freeblock s).

Definition mkfs (args : list arg) : outcome disk_map :=
  s ← mk_root (MkSt blank 1 nmeta);
  s ← add_files s args;
  finish s.
