(* ===== verification/MkfsSpec.v ===== *)
(** What the operations of mkfs.c do to the file system on the image.

    The bitmap is written last.  [mview] is the image with the bitmap it would get now; on it, each operation is a step of FsCk.v from a consistent disk to a consistent disk, as for the kernel.
    [full] says that a file of a given size has exactly the blocks it needs, which counts the blocks that are taken, and [tail0] that its last block is zero behind the end. *)

From Stdlib Require Import ZArith Lia.
From stdpp Require Import base numbers list gmap fin_sets sets strings.
From S2P Require Import Prelude CStr Bio Log LogCrash Fs FsSpec FsTrunc File FsCk Icache IcacheSpec IcacheOps IcacheThm Dir DirSpec Mkfs.
#[local] Open Scope Z_scope.

(** The log of the kernel on that disk. *)
Definition mk_log : log := Log 2 nlog 0 false ROOTDEV [].
Abbreviation mkey := (home_key mk_log).

Lemma IBLOCK_mk i : 0 <= i < 200 → 32 <= IBLOCK mk_sb i < 57.
Proof. intros Hi. unfold IBLOCK, IPB. change (sb_inodestart mk_sb) with 32. pose proof (Z.div_lt_upper_bound i 8 25). pose proof (Z.div_pos i 8). lia. Qed.

Lemma mk_fs_layout : fs_layout mk_log mk_sb.
Proof.
  assert (∀ b, 32 <= b < 1000 → home_ok mk_log b) as Hok.
  { intros b Hb. split; [unfold FSSIZE; lia|]. unfold in_log. change (start mk_log) with 2. change (lsize mk_log) with 30. lia. }
  split; change (sb_size mk_sb) with 1000; change (sb_ninodes mk_sb) with 200; change (sb_bmapstart mk_sb) with 58.
  - unfold FSSIZE. lia.
  - apply Hok. lia.
  - intros i Hi. pose proof (IBLOCK_mk i Hi). split; [apply Hok; lia|lia].
  - intros i Hi. pose proof (IBLOCK_mk i Hi). lia.
Qed.

Lemma mk_meta b : 0 <= b < 1000 → meta mk_log mk_sb b ↔ b < 59.
Proof.
  intros Hb. unfold meta. change (sb_inodestart mk_sb) with 32. change (sb_bmapstart mk_sb) with 58. assert (home_ok mk_log b ↔ b < 2 ∨ 32 <= b) as Hh.
  { unfold home_ok, in_log. change (start mk_log) with 2. change (lsize mk_log) with 30. unfold FSSIZE. lia. }
  rewrite Hh. split; [|lia]. intros [Hm|[->|[Hm|(i & Hi & ->)]]]; [lia|done|lia|]. change (sb_ninodes mk_sb) with 200 in Hi. pose proof (IBLOCK_mk i Hi). lia.
Qed.

(** ** The bitmap *)

Lemma bits_S n : 0 <= n → bits (n + 1) = set_bit (bits n) n.
Proof. intros Hn. unfold bits. replace (seqZ 0 (n + 1)) with (seqZ 0 n ++ [n]); [by rewrite foldl_app|]. rewrite seqZ_app by lia. f_equal. Qed.

Lemma bits_spec n : (n ≤ 1000)%nat → length (bits (Z.of_nat n)) = BSIZE ∧ ∀ b, 0 <= b < 4096 → bit_of (bits (Z.of_nat n)) b ≠ 0 ↔ b < Z.of_nat n.
Proof.
  induction n as [|n IH]; intros Hn.
  - split; [done|]. intros b Hb. split; [|lia]. intros H. exfalso. apply H. unfold bit_of. change (bits (Z.of_nat 0)) with (replicate BSIZE 0). rewrite lookup_total_replicate_2; [done|].
    apply Nat2Z.inj_lt. rewrite Z2Nat.id by (apply Z.div_pos; lia). apply Z.div_lt_upper_bound; unfold BSIZE; lia.
  - destruct IH as [Hl Hb]; [lia|]. replace (Z.of_nat (S n)) with (Z.of_nat n + 1) by lia. rewrite bits_S by lia. split; [unfold set_bit; by rewrite length_insert|].
    intros b Hr. assert (Z.to_nat (Z.of_nat n / 8) < length (bits (Z.of_nat n)))%nat as Hlt.
    { rewrite Hl. apply Nat2Z.inj_lt. rewrite Z2Nat.id by (apply Z.div_pos; lia). apply Z.div_lt_upper_bound; unfold BSIZE; lia. }
    pose proof (bit_of_set (bits (Z.of_nat n)) (Z.of_nat n) b ltac:(lia) ltac:(lia) Hlt) as E. specialize (Hb b Hr).
    destruct (Z.eqb_spec (bit_of (set_bit (bits (Z.of_nat n)) (Z.of_nat n)) b) 0), (Z.eqb_spec (bit_of (bits (Z.of_nat n)) b) 0), (Z.eqb_spec b (Z.of_nat n)); cbn in E; try done; lia.
Qed.

(** ** The image *)

Record image_ok (s : mkst) : Prop := {
  io_blocks : ∀ b, 0 <= b < 1000 → ∃ x, img s !! mkey b = Some x ∧ length x = BSIZE;
  io_zero : ∀ b, freeblock s <= b < 1000 → img s !! mkey b = Some zeroes;
  io_free : 59 <= freeblock s <= 1000 }.

Definition mview (s : mkst) : disk_map := <[mkey 58 := bits (freeblock s)]> (img s).

Lemma mview_other s b : b ≠ 58 → mview s !!! mkey b = img s !!! mkey b.
Proof. intros Hb. apply lookup_total_insert_ne. intros [=]. congruence. Qed.

Lemma mview_used s b : image_ok s → 0 <= b < 4096 → used mk_log mk_sb (mview s) b ↔ b < freeblock s.
Proof.
  intros H Hb. pose proof (io_free _ H). unfold used. change (sb_bmapstart mk_sb) with 58. unfold mview. rewrite lookup_total_insert_eq. replace (freeblock s) with (Z.of_nat (Z.to_nat (freeblock s))) by lia. apply bits_spec; lia.
Qed.

Lemma mview_inv s : image_ok s → fs_inv mk_log mk_sb (mview s).
Proof.
  intros H. pose proof (io_free _ H) as Hf. split.
  - change (sb_bmapstart mk_sb) with 58. unfold mview. rewrite lookup_total_insert_eq. replace (freeblock s) with (Z.of_nat (Z.to_nat (freeblock s))) by lia. apply bits_spec. lia.
  - intros b Hb Hm. change (sb_size mk_sb) with 1000 in Hb. rewrite mk_meta in Hm by done. apply mview_used; [done|lia|lia].
Qed.

Lemma mview_free s b : image_ok s → b ∈ free_blocks mk_log mk_sb (mview s) ↔ freeblock s <= b < 1000.
Proof.
  intros H. pose proof (io_free _ H). rewrite elem_of_free. change (sb_size mk_sb) with 1000. split.
  - intros [Hb Hu]. rewrite mview_used in Hu by (done || lia). lia.
  - intros Hb. split; [lia|]. rewrite mview_used by (done || lia). lia.
Qed.

Lemma rsect_ok s b : image_ok s → 0 <= b < 1000 → b ≠ 58 → rsect (img s) b = Ok (mview s !!! mkey b) ∧ length (mview s !!! mkey b) = BSIZE.
Proof.
  intros H Hb Hne. destruct (io_blocks _ H b Hb) as (x & Hx & Hl). rewrite mview_other by done. unfold rsect. change (ROOTDEV, b) with (mkey b). rewrite Hx. by rewrite (lookup_total_correct _ _ _ Hx).
Qed.

Lemma mview_set s b x : b ≠ 58 → mview (set_img (wsect (img s) b x) s) = <[mkey b := x]> (mview s).
Proof. intros Hb. unfold mview, wsect, set_img. cbn [img freeblock]. change (ROOTDEV, b) with (mkey b). apply insert_insert_ne. intros [=]. congruence. Qed.

Lemma image_set s b x : image_ok s → 0 <= b < freeblock s → length x = BSIZE → image_ok (set_img (wsect (img s) b x) s).
Proof.
  intros [H1 H2 H3] Hb Hx. split; cbn [img freeblock set_img]; [| |done]; unfold wsect; change (ROOTDEV, b) with (mkey b).
  - intros c Hc. destruct (decide (c = b)) as [->|Hne]; [exists x; by rewrite lookup_insert_eq|]. rewrite lookup_insert_ne by (intros [=]; congruence). by apply H1.
  - intros c Hc. rewrite lookup_insert_ne by (intros [=]; lia). by apply H2.
Qed.

Lemma take_block_ok s : image_ok s → freeblock s < 1000 →
  image_ok (take_block s) ∧ freeblock (take_block s) = freeblock s + 1 ∧ mview (take_block s) = alloc_view mk_log mk_sb (mview s) (freeblock s).
Proof.
  intros H Hlt. pose proof (io_free _ H) as Hf. assert (freeblock (take_block s) = freeblock s + 1) as E by (cbn; apply u32_small; unfold is_u32; lia). split_and!.
  - split; [apply H| |rewrite E; lia]. intros b Hb. rewrite E in Hb. apply (io_zero _ H). lia.
  - done.
  - unfold alloc_view. change (sb_bmapstart mk_sb) with 58. unfold mview at 2 3. rewrite lookup_total_insert_eq, insert_insert_eq, <- bits_S by lia. unfold mview. rewrite E. change (img (take_block s)) with (img s).
    rewrite insert_insert_ne by (intros [=]; lia). f_equal. symmetry. apply insert_id, (io_zero _ H). lia.
Qed.

(** ** The blocks of a file *)

Abbreviation msaddr := (saddr mk_log).
Abbreviation mfaddr := (faddr mk_log).
Abbreviation mfile_ok := (file_ok mk_log mk_sb).
Abbreviation mextends := (extends mk_log mk_sb).

(** The blocks of a file of [n] bytes. *)
Definition nblks (n : nat) : nat := ((n + 511) / 512)%nat.

Record full (v : disk_map) (ip : inode) (n : nat) : Prop := {
  fu_data : ∀ j, (j < 140)%nat → msaddr v ip (slot j) ≠ 0 ↔ (j < nblks n)%nat;
  fu_ind : addrs ip !!! 12%nat ≠ 0 ↔ (12 < nblks n)%nat }.

(** The blocks that the file takes when byte [n] is appended. *)
Definition taken (n : nat) : Z := if decide (n mod 512 = 0)%nat then if decide (n / 512 = 12)%nat then 2 else 1 else 0.

Lemma nblks_in n : (n mod 512 ≠ 0)%nat → nblks n = S (n / 512)%nat.
Proof. intros H. unfold nblks. pose proof (Nat.div_mod n 512 ltac:(done)). pose proof (Nat.mod_upper_bound n 512 ltac:(done)). symmetry. apply (Nat.div_unique (n + 511) 512 _ (n mod 512 - 1)); lia. Qed.

Lemma nblks_at n : (n mod 512 = 0)%nat → nblks n = (n / 512)%nat.
Proof. intros H. unfold nblks. pose proof (Nat.div_mod n 512 ltac:(done)). symmetry. apply (Nat.div_unique (n + 511) 512 _ 511); lia. Qed.

Lemma nblks_piece n k : (0 < k)%nat → (n mod 512 + k ≤ 512)%nat → nblks (n + k) = S (n / 512)%nat.
Proof. intros Hk H. unfold nblks. pose proof (Nat.div_mod n 512 ltac:(done)). symmetry. apply (Nat.div_unique (n + k + 511) 512 _ (n mod 512 + k - 1)); lia. Qed.

(** The only new block is in slot [s]. *)
Lemma extends_one v ip v' ip' s b : mextends v ip v' ip' → (∀ x, 0 <= x → used mk_log mk_sb v' x ↔ used mk_log mk_sb v x ∨ x = b) → (s < NSLOT)%nat → msaddr v' ip' s = b → b ≠ 0 →
  ∀ s', (s' < NSLOT)%nat → s' ≠ s → msaddr v' ip' s' = msaddr v ip s'.
Proof.
  intros He Hu Hs Eb Hb s' Hs' Hne. destruct (decide (msaddr v ip s' = 0)) as [E0|Hn]; [|by apply (ex_slots _ _ _ _ _ _ He)].
  destruct (decide (msaddr v' ip' s' = 0)) as [E1|Hn1]; [congruence|]. exfalso. pose proof (ex_new _ _ _ _ _ _ He s' Hs' E0 Hn1) as [Hr Hnu]%elem_of_free. pose proof (ex_file _ _ _ _ _ _ He) as Hf.
  destruct (fo_good _ _ _ _ Hf s' Hs' Hn1) as (_ & Hu1 & _). apply Hu in Hu1 as [?|E]; [done| |lia]. apply Hne, (fo_inj _ _ _ _ Hf); congruence.
Qed.

Lemma slot_cases j : (j < 140)%nat → (j < 12 ∧ slot j = j ∨ 12 ≤ j ∧ slot j = 13 + (j - 12))%nat.
Proof. intros Hj. unfold slot. case_decide; [left|right]; lia. Qed.

(** A new block in slot [k] of the inode. *)
Lemma take_in_inode s ip k : image_ok s → mfile_ok (mview s) ip → freeblock s < 1000 → (k < 13)%nat → addrs ip !!! k = 0 →
  let ip' := set_addr (Z.of_nat k) (freeblock s) ip in
  mextends (mview s) ip (mview (take_block s)) ip' ∧ msaddr (mview (take_block s)) ip' k = freeblock s ∧ (∀ s', (s' < NSLOT)%nat → s' ≠ k → msaddr (mview (take_block s)) ip' s' = msaddr (mview s) ip s') ∧
  mview (take_block s) !!! mkey (freeblock s) = zeroes.
Proof.
  intros H Hf Hlt Hk E0 ip'. pose proof (io_free _ H) as Hfr. destruct (take_block_ok s H Hlt) as (_ & _ & Ev). assert (freeblock s ∈ free_blocks mk_log mk_sb (mview s)) as Hb by (apply mview_free; [done|lia]).
  assert (mextends (mview s) ip (mview (take_block s)) ip') as He by (rewrite Ev; apply (alloc_in_inode mk_log mk_sb mk_fs_layout); [by apply mview_inv|done..]).
  assert (msaddr (mview (take_block s)) ip' k = freeblock s) as Ek.
  { unfold saddr. rewrite decide_True by done. unfold ip', set_addr. cbn [addrs set_addrs]. rewrite Nat2Z.id. apply list_lookup_total_insert_eq. by rewrite (fo_len _ _ _ _ Hf). }
  split_and!; [done|done| |rewrite Ev; apply lookup_total_insert_eq]. apply (extends_one _ _ _ _ _ (freeblock s)); [done| |unfold NSLOT; lia|done|lia].
  intros x Hx. rewrite Ev. apply (alloc_used mk_log mk_sb mk_fs_layout); [by apply mview_inv|done|done].
Qed.

(** A new block in the indirect block. *)
Lemma take_in_indirect s ip k : image_ok s → mfile_ok (mview s) ip → freeblock s < 1000 → (k < 128)%nat → addrs ip !!! 12%nat ≠ 0 → msaddr (mview s) ip (13 + k) = 0 →
  let a := addrs ip !!! 12%nat in let s' := set_img (wsect (img s) a (put32 (mview s !!! mkey a) k (freeblock s))) (take_block s) in
  rsect (img s) a = Ok (mview s !!! mkey a) ∧ get32 (mview s !!! mkey a) k = 0 ∧ 59 <= a < freeblock s ∧ image_ok s' ∧ mextends (mview s) ip (mview s') ip ∧ msaddr (mview s') ip (13 + k) = freeblock s ∧
  (∀ t, (t < NSLOT)%nat → t ≠ (13 + k)%nat → msaddr (mview s') ip t = msaddr (mview s) ip t) ∧ mview s' !!! mkey (freeblock s) = zeroes.
Proof.
  intros H Hf Hlt Hk Ha E0 a s'. pose proof (io_free _ H) as Hfr. destruct (take_block_ok s H Hlt) as (H1 & E1 & Ev). assert (freeblock s ∈ free_blocks mk_log mk_sb (mview s)) as Hb by (apply mview_free; [done|lia]).
  assert (12 < NSLOT)%nat as H12 by (unfold NSLOT; lia). destruct (fo_good _ _ _ _ Hf 12 H12 Ha) as (Hr & Hu & Hm & Hl). change (saddr mk_log (mview s) ip 12) with a in *. change (sb_size mk_sb) with 1000 in Hr.
  assert (59 <= a < freeblock s) as Har by (rewrite mk_meta in Hm by done; apply mview_used in Hu; [lia|done|lia]).
  destruct (rsect_ok s a H ltac:(lia) ltac:(lia)) as [Er _]. assert (get32 (mview s !!! mkey a) k = 0) as Eg.
  { unfold saddr in E0. rewrite decide_False, decide_False in E0 by (done || lia). by replace (13 + k - 13)%nat with k in E0 by lia. }
  destruct (alloc_in_indirect mk_log mk_sb mk_fs_layout (mview s) ip k (freeblock s) (mview_inv s H) Hf Hb Hk Ha Eg) as [He _]. fold a in He.
  assert (mview s' = <[mkey a := put32 (mview s !!! mkey a) k (freeblock s)]> (alloc_view mk_log mk_sb (mview s) (freeblock s))) as Ev'.
  { rewrite <- Ev. apply (mview_set (take_block s)). lia. }
  rewrite <- Ev' in He. assert (4 * k + 4 ≤ length (mview s !!! mkey a))%nat as Hkl by (rewrite Hl; unfold BSIZE; lia).
  assert (msaddr (mview s') ip (13 + k) = freeblock s) as Ek.
  { unfold saddr. rewrite decide_False, decide_False by (done || lia). fold a. rewrite Ev', lookup_total_insert_eq. replace (13 + k - 13)%nat with k by lia. apply get_put32_eq; [done|]. unfold is_u32. lia. }
  split_and!; [done|done|lia|lia| |done|done| |].
  - apply (image_set (take_block s)); [done|rewrite E1; lia|by rewrite length_put32].
  - apply (extends_one _ _ _ _ _ (freeblock s)); [done| |unfold NSLOT; lia|done|lia]. intros x Hx. rewrite Ev'. unfold used at 1. change (sb_bmapstart mk_sb) with 58. rewrite lookup_total_insert_ne by (intros [= E]; lia).
    apply (alloc_used mk_log mk_sb mk_fs_layout); [by apply mview_inv|done|done].
  - rewrite Ev', lookup_total_insert_ne by (intros [=]; lia). apply lookup_total_insert_eq.
Qed.

Lemma slot_block s ip t : image_ok s → mfile_ok (mview s) ip → (t < NSLOT)%nat → msaddr (mview s) ip t ≠ 0 →
  59 <= msaddr (mview s) ip t < freeblock s ∧ rsect (img s) (msaddr (mview s) ip t) = Ok (mview s !!! mkey (msaddr (mview s) ip t)) ∧ length (mview s !!! mkey (msaddr (mview s) ip t)) = BSIZE.
Proof.
  intros H Hf Ht Hn. destruct (fo_good _ _ _ _ Hf t Ht Hn) as (Hr & Hu & Hm & Hl). change (sb_size mk_sb) with 1000 in Hr. pose proof (io_free _ H). rewrite mk_meta in Hm by done. apply mview_used in Hu; [|done|lia].
  split; [lia|]. apply rsect_ok; [done|lia|lia].
Qed.

Lemma addr_at_slot v ip j : (j < 13)%nat → addr_at ip (Z.of_nat j) = msaddr v ip j.
Proof. intros Hj. unfold addr_at, saddr. rewrite Nat2Z.id. by rewrite decide_True. Qed.

(** What [block_for] does for the block of byte [n], in a file of [n] bytes. *)
Record got_block (s : mkst) (ip : inode) (n : nat) (x : Z) (ip' : inode) (s' : mkst) : Prop := {
  gb_image : image_ok s';
  gb_ext : mextends (mview s) ip (mview s') ip';
  gb_addr : x = mfaddr (mview s') ip' n ∧ x ≠ 0;
  gb_count : freeblock s' = freeblock s + taken n ∧ freeinode s' = freeinode s;
  gb_other : ∀ j, (j < 140)%nat → j ≠ (n / 512)%nat → msaddr (mview s') ip' (slot j) = msaddr (mview s) ip (slot j);
  gb_ind : addrs ip' !!! 12%nat ≠ 0 ↔ (12 ≤ n / 512)%nat;
  gb_new : (n mod 512 = 0)%nat → mview s' !!! mkey x = zeroes;
  gb_old : (n mod 512 ≠ 0)%nat → mview s' = mview s ∧ ip' = ip;
  gb_frame : ∀ b, b < 59 → img s' !! mkey b = img s !! mkey b }.

Lemma block_for_hit s ip n : image_ok s → mfile_ok (mview s) ip → full (mview s) ip n → (n < MAXBYTES)%nat → (n mod 512 ≠ 0)%nat →
  ∃ x, block_for s ip (Z.of_nat (n / 512)) = Ok (x, ip, s) ∧ got_block s ip n x ip s.
Proof.
  intros H Hf Hfu Hn Hm. pose proof (block_lt n Hn) as Hj. change (n / BSIZE)%nat with (n / 512)%nat in Hj. set (j := (n / 512)%nat) in *. pose proof (nblks_in n Hm) as En. fold j in En.
  assert (msaddr (mview s) ip (slot j) ≠ 0) as Hnz by (apply (fu_data _ _ _ Hfu); lia). exists (msaddr (mview s) ip (slot j)). split.
  - unfold block_for, NDIRECT. destruct (slot_cases j Hj) as [[Hlt Es]|[Hge Es]].
    + rewrite (proj2 (Z.ltb_lt _ _)) by lia. rewrite (addr_at_slot (mview s)) by lia. rewrite Es in *. by rewrite (proj2 (Z.eqb_neq _ _)).
    + rewrite (proj2 (Z.ltb_ge _ _)) by lia. assert (addrs ip !!! 12%nat ≠ 0) as H12 by (apply (fu_ind _ _ _ Hfu); lia). change 12 with (Z.of_nat 12). rewrite (addr_at_slot (mview s)) by lia. rewrite (proj2 (Z.eqb_neq _ _)) by done.
      destruct (slot_block s ip 12 H Hf ltac:(unfold NSLOT; lia) H12) as (_ & Er & _). rewrite (addr_at_slot (mview s)), Er, bind_Ok by lia.
      assert (get32 (mview s !!! mkey (msaddr (mview s) ip 12)) (Z.to_nat (Z.of_nat j - Z.of_nat 12)) = msaddr (mview s) ip (slot j)) as ->; [|by rewrite (proj2 (Z.eqb_neq _ _))].
      rewrite Es. unfold saddr at 2. rewrite decide_False, decide_False by (done || lia). f_equal. lia.
  - split; try done.
    + apply extends_refl; [by apply mview_inv|done].
    + unfold taken. rewrite decide_False by done. split; [lia|done].
    + rewrite (fu_ind _ _ _ Hfu), En. fold j. lia.
Qed.

Lemma block_for_new s ip n : image_ok s → mfile_ok (mview s) ip → full (mview s) ip n → (n < MAXBYTES)%nat → (n mod 512 = 0)%nat → freeblock s + taken n <= 1000 →
  ∃ x ip' s', block_for s ip (Z.of_nat (n / 512)) = Ok (x, ip', s') ∧ got_block s ip n x ip' s'.
Proof.
  intros H Hf Hfu Hn Hm Hroom. pose proof (block_lt n Hn) as Hj. change (n / BSIZE)%nat with (n / 512)%nat in Hj. pose proof (nblks_at n Hm) as En. unfold taken in Hroom. rewrite (decide_True (P := (n mod 512 = 0)%nat)) in Hroom by done.
  pose proof (io_free _ H) as Hfr. set (j := (n / 512)%nat) in *. assert (msaddr (mview s) ip (slot j) = 0) as Ez.
  { destruct (decide (msaddr (mview s) ip (slot j) = 0)) as [?|Hz]; [done|]. apply (fu_data _ _ _ Hfu) in Hz; lia. }
  assert (∀ k, (k < 140)%nat → k ≠ j → slot k ≠ slot j) as Hsl by (intros k _ Hk E; by apply Hk, slot_inj).
  assert (∀ v ip, mfaddr v ip n = msaddr v ip (slot j)) as Hfa by done.
  unfold block_for, NDIRECT. destruct (slot_cases j Hj) as [[Hlt Es]|[Hge Es]].
  - rewrite (proj2 (Z.ltb_lt _ _)) by lia. rewrite (addr_at_slot (mview s)) by lia. rewrite Es in Ez. rewrite Ez. cbn [Z.eqb]. eexists _, _, _. split; [reflexivity|].
    rewrite (decide_False (P := j = 12%nat)) in Hroom by lia. destruct (take_block_ok s H ltac:(lia)) as (H1 & E1 & _). unfold saddr in Ez. rewrite decide_True in Ez by lia.
    destruct (take_in_inode s ip j H Hf ltac:(lia) ltac:(lia) Ez) as (He & Ek & Ho & Hz). split; try done.
    + rewrite Hfa, Es. split; [done|lia].
    + unfold taken. rewrite decide_True, decide_False by (done || lia). split; [done|done].
    + intros k Hk Hkj. apply Ho; [by apply slot_lt|]. rewrite <- Es. by apply Hsl.
    + cbn [addrs set_addr set_addrs]. rewrite Nat2Z.id, list_lookup_total_insert_ne by lia. rewrite (fu_ind _ _ _ Hfu), En. fold j. lia.
  - rewrite (proj2 (Z.ltb_ge _ _)) by lia. change 12 with (Z.of_nat 12). rewrite (addr_at_slot (mview s)) by lia.
    assert (∀ s1 ip1, image_ok s1 → mfile_ok (mview s1) ip1 → mextends (mview s) ip (mview s1) ip1 → addrs ip1 !!! 12%nat ≠ 0 → msaddr (mview s1) ip1 (slot j) = 0 → freeblock s1 + 1 = freeblock s + taken n → freeblock s1 < 1000 → freeinode s1 = freeinode s →
      (∀ k, (k < 140)%nat → msaddr (mview s1) ip1 (slot k) = msaddr (mview s) ip (slot k)) → (∀ b, b < 59 → img s1 !! mkey b = img s !! mkey b) →
      ∃ x ip' s', (indirect ← rsect (img s1) (addr_at ip1 (Z.of_nat 12)); let k := Z.to_nat (Z.of_nat j - Z.of_nat 12) in
        if get32 indirect k =? 0 then Ok (freeblock s1, ip1, set_img (wsect (img s1) (addr_at ip1 (Z.of_nat 12)) (put32 indirect k (freeblock s1))) (take_block s1)) else Ok (get32 indirect k, ip1, s1)) = Ok (x, ip', s') ∧ got_block s ip n x ip' s') as Hent.
    { intros s1 ip1 H1 Hf1 He1 H12 Ez1 Ec Hlt Ei Hs1 Hfr1. rewrite Es in Ez1. rewrite !(addr_at_slot (mview s1)) by lia. change (msaddr (mview s1) ip1 12) with (addrs ip1 !!! 12%nat).
      destruct (take_in_indirect s1 ip1 (j - 12) H1 Hf1 Hlt ltac:(lia) H12 Ez1) as (Er & Eg & Ha & H2 & He2 & Ek & Ho & Hz). rewrite Er, bind_Ok. cbn zeta. replace (Z.to_nat (Z.of_nat j - Z.of_nat 12)) with (j - 12)%nat by lia. rewrite Eg. cbn [Z.eqb].
      pose proof (io_free _ H1). eexists _, _, _. split; [reflexivity|]. split; try done.
      - by eapply extends_trans.
      - rewrite Hfa, Es. split; [done|lia].
      - split; [|done]. cbn [set_img freeblock]. destruct (take_block_ok s1 H1 Hlt) as (_ & -> & _). lia.
      - intros k Hk Hkj. rewrite Ho; [by apply Hs1|by apply slot_lt|]. rewrite <- Es. by apply Hsl.
      - intros b Hb. cbn [set_img img]. unfold wsect. rewrite lookup_insert_ne by (intros [=]; lia). by apply Hfr1. }
    destruct (decide (j = 12%nat)) as [E12|N12].
    + assert (addrs ip !!! 12%nat = 0) as E0. { destruct (decide (addrs ip !!! 12%nat = 0)) as [?|Hz]; [done|]. apply (fu_ind _ _ _ Hfu) in Hz. lia. }
      change (msaddr (mview s) ip 12) with (addrs ip !!! 12%nat). rewrite E0. cbn [Z.eqb]. destruct (take_block_ok s H ltac:(lia)) as (H1 & E1 & _). destruct (take_in_inode s ip 12 H Hf ltac:(lia) ltac:(lia) E0) as (He & Ek & Ho & _).
      apply Hent; try done.
      * apply (ex_file _ _ _ _ _ _ He).
      * change (msaddr (mview (take_block s)) (set_addr (Z.of_nat 12) (freeblock s) ip) 12 ≠ 0). rewrite Ek. lia.
      * rewrite Ho; [done|by apply slot_lt|apply slot_not_12].
      * rewrite E1. unfold taken. rewrite !decide_True by done. lia.
      * rewrite E1. lia.
      * intros k Hk. apply Ho; [by apply slot_lt|apply slot_not_12].
    + assert (addrs ip !!! 12%nat ≠ 0) as H12 by (apply (fu_ind _ _ _ Hfu); lia). change (msaddr (mview s) ip 12) with (addrs ip !!! 12%nat). rewrite (proj2 (Z.eqb_neq _ _)) by done.
      apply Hent; try done; [apply extends_refl; [by apply mview_inv|done]|unfold taken; rewrite decide_True, decide_False by done; lia|lia].
Qed.

(** ** Appending *)

Abbreviation mfbyte := (fbyte mk_log).
Abbreviation mwritten := (written mk_log mk_sb).

Definition tail0 (v : disk_map) (ip : inode) (n : nat) : Prop := ∀ k, (n ≤ k < 512 * nblks n)%nat → mfbyte v ip k = 0.

(** A file of [n] bytes. *)
Record file_at (s : mkst) (ip : inode) (n : nat) : Prop := {
  fa_image : image_ok s;
  fa_ok : mfile_ok (mview s) ip;
  fa_full : full (mview s) ip n;
  fa_tail : tail0 (mview s) ip n }.

Lemma same_block_at n k : (n ≤ k < 512 * S (n / 512))%nat → (k / 512 = n / 512)%nat ∧ (k mod 512 = n mod 512 + (k - n))%nat.
Proof.
  intros Hk. pose proof (Nat.div_mod n 512 ltac:(done)). pose proof (Nat.mod_upper_bound n 512 ltac:(done)).
  split; symmetry; [apply (Nat.div_unique k 512 _ (n mod 512 + (k - n)))|apply (Nat.mod_unique k 512 (n / 512))]; lia.
Qed.

Lemma append_piece s ip n x : file_at s ip n → x ≠ [] → (n mod 512 + length x ≤ 512)%nat → (n + length x ≤ MAXBYTES)%nat → freeblock s + taken n <= 1000 →
  ∃ y ip' s1 buf, block_for s ip (Z.of_nat (n / 512)) = Ok (y, ip', s1) ∧ rsect (img s1) y = Ok buf ∧ let s' := set_img (wsect (img s1) y (splice buf (n mod 512) x)) s1 in
    file_at s' ip' (n + length x) ∧ mwritten (mview s) ip (mview s') ip' n x ∧ freeblock s' = freeblock s + taken n ∧ freeinode s' = freeinode s ∧ ∀ b, b < 59 → img s' !! mkey b = img s !! mkey b.
Proof.
  intros [H Hf Hfu Ht] Hx Hm Hmax Hroom. assert (0 < length x)%nat as Hpos by (destruct x; [done|cbn; lia]). assert (n < MAXBYTES)%nat as Hn by lia.
  assert (∃ y ip' s1, block_for s ip (Z.of_nat (n / 512)) = Ok (y, ip', s1) ∧ got_block s ip n y ip' s1) as (y & ip' & s1 & Eb & HG).
  { destruct (decide (n mod 512 = 0)%nat) as [E|E]; [by apply block_for_new|]. destruct (block_for_hit s ip n H Hf Hfu Hn E) as (y & Hy). by exists y, ip, s. }
  destruct HG as [H1 He [Ey Hy] [Ec Ei] Ho Hi Hnew Hold Hfr]. pose proof (ex_file _ _ _ _ _ _ He) as Hf1. pose proof (block_lt n Hn) as Hj. pose proof (slot_lt _ Hj) as Hsl.
  assert (mfaddr (mview s1) ip' n ≠ 0) as Hy' by congruence. destruct (slot_block s1 ip' _ H1 Hf1 Hsl Hy') as (Hr & Er & Hl). fold (mfaddr (mview s1) ip' n) in Hr, Er, Hl. rewrite <- Ey in Hr, Er, Hl.
  set (buf := mview s1 !!! mkey y) in *. exists y, ip', s1, buf. split; [done|]. split; [done|]. cbn zeta. set (d := splice buf (n mod 512) x). set (s' := set_img (wsect (img s1) y d) s1).
  assert (length d = BSIZE) as Hd by (unfold d; rewrite length_splice; [done|]; rewrite Hl; unfold BSIZE; lia). assert (mview s' = <[mkey y := d]> (mview s1)) as Ev by (apply mview_set; lia).
  destruct (written_block mk_log mk_sb mk_fs_layout (mview s) ip (mview s1) ip' n x (mview_inv s H) Hf He Hn Hm Hy') as [Hw _]. rewrite <- Ey in Hw. change (n mod BSIZE)%nat with (n mod 512)%nat in Hw. fold buf d in Hw. rewrite <- Ev in Hw.
  destruct (store_data mk_log mk_sb (mview s1) ip' (slot (n / BSIZE)) d (mview_inv s1 H1) Hf1 Hsl (slot_not_12 _) Hy' Hd) as (_ & _ & Hs2 & _). fold (mfaddr (mview s1) ip' n) in Hs2. rewrite <- Ey, <- Ev in Hs2.
  pose proof (nblks_piece n (length x) Hpos Hm) as En. split_and!; [|exact Hw|done|done|].
  - split; [apply image_set; [done|lia|done]|apply Hw| |].
    + split; [|by rewrite En, Hi, <- Nat.le_succ_l, <- Nat.succ_le_mono]. intros j Hj2. rewrite Hs2 by (by apply slot_lt). rewrite En. destruct (decide (j = n / 512)%nat) as [->|Hne]; [split; [lia|done]|].
      rewrite Ho by done. rewrite (fu_data _ _ _ Hfu j Hj2). destruct (decide (n mod 512 = 0)%nat) as [E|E]; [rewrite (nblks_at n E)|rewrite (nblks_in n E)]; lia.
    + intros k Hk. rewrite En in Hk. destruct (same_block_at n k) as [Ek1 Ek2]; [lia|]. unfold fbyte, faddr. change (k / BSIZE)%nat with (k / 512)%nat. change (k mod BSIZE)%nat with (k mod 512)%nat. rewrite Ek1.
      rewrite Hs2 by done. change (saddr mk_log (mview s1) ip' (slot (n / 512))) with (mfaddr (mview s1) ip' n). rewrite <- Ey, Ev, lookup_total_insert_eq. unfold d. rewrite splice_out by (rewrite ?Hl; unfold BSIZE; lia).
      destruct (decide (n mod 512 = 0)%nat) as [E|E].
      * rewrite (Hnew E). apply lookup_total_replicate_2. unfold BSIZE. pose proof (Nat.mod_upper_bound k 512 ltac:(done)). lia.
      * destruct (Hold E) as [Ev1 ->]. rewrite <- (Ht k) by (rewrite (nblks_in n E); lia). unfold buf, fbyte, faddr. change (k / BSIZE)%nat with (k / 512)%nat. rewrite Ek1, Ey, Ev1. done.
  - intros b Hb. cbn [s' set_img img]. unfold wsect. rewrite lookup_insert_ne by (intros [=]; lia). by apply Hfr.
Qed.

(** All blocks of a file of [n] bytes, the indirect block included. *)
Definition nall (n : nat) : Z := Z.of_nat (nblks n) + if decide (12 < nblks n)%nat then 1 else 0.

Lemma taken_nall n k : (0 < k)%nat → (n mod 512 + k ≤ 512)%nat → taken n = nall (n + k) - nall n.
Proof.
  intros Hk Hm. unfold taken, nall. rewrite (nblks_piece n k Hk Hm). case_decide as E; [rewrite (nblks_at n E)|rewrite (nblks_in n E)]; repeat case_decide; lia.
Qed.

Lemma nall_mono n m : (n ≤ m)%nat → nall n <= nall m.
Proof. intros H. unfold nall. assert (nblks n ≤ nblks m)%nat by (unfold nblks; apply Nat.Div0.div_le_mono; lia). repeat case_decide; lia. Qed.

Lemma iappend_loop_spec fuel : ∀ p s ip n, (length p ≤ fuel)%nat → file_at s ip n → (n + length p ≤ MAXBYTES)%nat → freeblock s + (nall (n + length p) - nall n) <= 1000 →
  ∃ ip' s', iappend_loop s ip p (Z.of_nat n) fuel = Ok (ip', Z.of_nat (n + length p), s') ∧ file_at s' ip' (n + length p) ∧ mwritten (mview s) ip (mview s') ip' n p ∧
    freeblock s' = freeblock s + (nall (n + length p) - nall n) ∧ freeinode s' = freeinode s ∧ ∀ b, b < 59 → img s' !! mkey b = img s !! mkey b.
Proof.
  induction fuel as [|fuel IH]; intros p s ip n Hfu HF Hmax Hroom.
  - destruct p; [|cbn in Hfu; lia]. cbn [length]. rewrite Nat.add_0_r. exists ip, s. split_and!; [done|done|apply written_nil; [apply mview_inv; apply HF|apply HF]|lia|done|done].
  - destruct (decide (p = [])) as [->|Hp]. { cbn [length]. rewrite Nat.add_0_r. exists ip, s. split_and!; [done|done|apply written_nil; [apply mview_inv; apply HF|apply HF]|lia|done|done]. }
    assert (0 < length p)%nat as Hpos by (destruct p; [done|cbn; lia]). pose proof (Nat.mod_upper_bound n 512 ltac:(done)) as Hmod. pose proof (Nat.div_mod n 512 ltac:(done)) as Hdm.
    set (n1 := Nat.min (length p) (512 - n mod 512)). assert (length (take n1 p) = n1) as Hl1 by (rewrite length_take; lia). pose proof (length_drop p n1) as Hl2.
    assert (Z.of_nat n / BS = Z.of_nat (n / 512)) as Ef by (rewrite Nat2Z.inj_div; done). pose proof (block_lt n ltac:(lia)) as Hj. change (n / BSIZE)%nat with (n / 512)%nat in Hj.
    pose proof (nall_mono (n + n1) (n + length p) ltac:(lia)) as Hmono. pose proof (taken_nall n n1 ltac:(lia) ltac:(lia)) as Etk.
    destruct (append_piece s ip n (take n1 p) HF) as (y & ip1 & s1 & buf & Eb & Er & HF1 & Hw1 & Ec1 & Ei1 & Hfr1); [intros E; rewrite E in Hl1; cbn in Hl1; lia|lia|lia|lia|].
    rewrite Hl1 in HF1. set (s2 := set_img (wsect (img s1) y (splice buf (n mod 512) (take n1 p))) s1) in *.
    destruct (IH (drop n1 p) s2 ip1 (n + n1)%nat) as (ip3 & s3 & E3 & HF3 & Hw3 & Ec3 & Ei3 & Hfr3); [lia|done|lia|rewrite Hl2; replace (n + n1 + (length p - n1))%nat with (n + length p)%nat by lia; lia|].
    rewrite Hl2 in *. replace (n + n1 + (length p - n1))%nat with (n + length p)%nat in * by lia. exists ip3, s3. split_and!; [|done| |lia|congruence|intros b Hb; by rewrite Hfr3, Hfr1].
    + destruct p as [|a p]; [done|]. cbn [iappend_loop]. rewrite Ef. replace (MAXFILE <=? Z.of_nat (n / 512)) with false by (unfold MAXFILE, NDIRECT, NINDIRECT; lia). rewrite Eb, bind_Ok.
      replace (Z.to_nat (Z.min (Z.of_nat (length (a :: p))) ((Z.of_nat (n / 512) + 1) * BS - Z.of_nat n))) with n1 by (unfold n1, BS, BSIZE in *; lia). rewrite Er, bind_Ok.
      replace (Z.to_nat (Z.of_nat n - Z.of_nat (n / 512) * BS)) with (n mod 512)%nat by (unfold BS, BSIZE; lia). fold s2. rewrite <- E3. f_equal. lia.
    + rewrite <- (take_drop n1 p). apply (written_app mk_log mk_sb _ _ (mview s2) ip1); [rewrite Hl1, Hl2; lia|exact Hw1|by rewrite Hl1].
Qed.

(** ** Steps of the file system *)

Abbreviation mfsck := (fsck mk_log mk_sb).
Abbreviation mlive := (live mk_log mk_sb).
Abbreviation mdin := (din mk_log mk_sb).
Abbreviation mput := (inode_put mk_log mk_sb).
Abbreviation mstep := (inode_step mk_log mk_sb).
Abbreviation mcontent := (fcontent mk_log).

(** The blocks of files other than [i] are as before. *)
Definition blocks_kept (v v' : disk_map) (i : Z) : Prop := ∀ b, data_block mk_log mk_sb v b → b ∉ blocks_of mk_log mk_sb v i → v' !!! mkey b = v !!! mkey b.

(** A file that has been written to, and its inode stored with a new size. *)
Lemma put_written v ip v1 ip1 o x z : mfsck v → mlive v (inum ip) → bare ip = mdin v (inum ip) → mwritten v ip v1 ip1 o x → let ip2 := set_size z ip1 in sized mk_log v1 ip2 →
  let v3 := mput v1 (inum ip) (dinode_bytes ip2) in
  mstep v v3 (inum ip) ∧ mdin v3 (inum ip) = bare ip2 ∧ mlive v3 (inum ip) ∧ mcontent v3 ip2 = mcontent v1 ip2 ∧ mfile_ok v3 ip2 ∧ (∀ t, (t < NSLOT)%nat → msaddr v3 ip2 t = msaddr v1 ip1 t) ∧
  (∀ k, (k < MAXBYTES)%nat → mfaddr v1 ip1 k ≠ 0 → mfbyte v3 ip2 k = mfbyte v1 ip1 k) ∧ blocks_kept v v3 (inum ip).
Proof.
  intros Hck Hl Eb Hw ip2 Hsz v3. pose proof Hl as [Hi _]. assert (0 <= inum ip < sb_ninodes mk_sb) as Hi0 by lia. pose proof (cached_good mk_log mk_sb v ip Hck Hl Eb) as [Hf _ Hsh].
  destruct (same_inode_fields _ _ (wr_same _ _ _ _ _ _ _ _ Hw)) as (Hsc & Ety & Ema & Emi & Enl). pose proof Hsc as (En & Ed & _).
  assert (mfile_ok v1 ip2) as Hf1 by apply file_ok_size, Hw. destruct (inode_block_meta mk_log mk_sb mk_fs_layout ip v Hf) as [Hmb Hbm].
  destruct (store_meta mk_log mk_sb v1 ip2 (IBLOCK mk_sb (inum ip)) (splice (v1 !!! mkey (IBLOCK mk_sb (inum ip))) (Z.to_nat (inum ip mod IPB) * DINODE) (dinode_bytes ip2)) (wr_inv _ _ _ _ _ _ _ _ Hw) Hf1 Hmb Hbm) as (Hi3 & Hf3 & Hsl3 & Hfb3 & Ebm3).
  change (<[mkey (IBLOCK mk_sb (inum ip)) := _]> v1) with v3 in *.
  assert (sized mk_log v3 ip2) as Hsz3. { destruct Hsz as [Hr Ha]. split; [done|]. intros k Hk. unfold faddr. rewrite Hsl3 by (apply slot_lt, block_lt; lia). by apply Ha. }
  assert (good_file mk_log mk_sb v3 ip2) as Hg by (split; [done|done|]; cbn; by rewrite Ety, Ema, Emi, Enl). pose proof (fields_good mk_log mk_sb mk_fs_layout v3 ip2 Hg) as Hfd.
  assert (inodes_kept mk_log mk_sb v v1 (inum ip)) as Hk1 by (eapply written_inodes; [apply mk_fs_layout|apply Hck|exact Hf|exact Hw]).
  assert (length (v1 !!! mkey (IBLOCK mk_sb (inum ip))) = BSIZE) as Hlb by (rewrite (proj2 (Hk1 _ Hi0)); by apply (ck_len _ _ _ Hck)).
  destruct (inode_put_spec mk_log mk_sb v1 (inum ip) (dinode_bytes ip2) Hlb ltac:(apply length_dinode_bytes, Hfd)) as [Edi Hk2]. fold v3 in Edi, Hk2.
  assert (mdin v3 (inum ip) = bare ip2) as Edin by (rewrite <- En in *; change (inum ip1) with (inum ip2) in *; apply din_bytes; [done|cbn; rewrite Ed; apply Hf|done]).
  assert (mlive v3 (inum ip)) as Hl3 by (split; [done|]; rewrite Edin; cbn [bare itype ip2 set_size]; rewrite Ety; change (itype (bare ip) ≠ 0); rewrite Eb; apply Hl).
  assert (blocks_of mk_log mk_sb v3 (inum ip) = file_blocks mk_log v3 ip2) as Eb3 by (unfold blocks_of; rewrite decide_True by done; rewrite Edin; by apply file_blocks_addrs).
  pose proof (cached_blocks mk_log mk_sb v ip Hl Eb) as Ebv.
  assert (∀ b, data_block mk_log mk_sb v b → b ∉ file_blocks mk_log v ip → v3 !!! mkey b = v !!! mkey b ∧ used mk_log mk_sb v3 b ∧ b ∉ file_blocks mk_log v3 ip2) as Hout.
  { intros b Hb Hn. destruct (data_not_meta mk_log mk_sb v b Hb) as (Hokb & Hbb & Hb0 & Hni). pose proof Hb as (Hbr & Hu & _). destruct (wr_frame _ _ _ _ _ _ _ _ Hw b) as (E1 & E2 & E3); [lia|done|done| |].
    - intros t Ht Et. apply Hn, elem_of_file_blocks. split; [done|]. by exists t.
    - split_and!; [rewrite <- E1; apply lookup_total_insert_ne; intros [= E]; by apply (Hni (inum ip))|unfold used; by rewrite Ebm3|]. intros [_ (t & Ht & Et)]%elem_of_file_blocks. rewrite Hsl3 in Et by done. by apply (E3 t). }
  split_and!; [|done|done| |done|done|intros k Hk Ha; by apply Hfb3|intros b Hb Hn; apply Hout; [done|by rewrite <- Ebv]].
  - destruct (fsck_step mk_log mk_sb v v3 (inum ip) Hck) as [Hck' Hoth]; [done|by eapply inodes_kept_trans|intros b Hb Hn| |intros b Hb Hu|intros b Hb Hu Hm|by split].
    + rewrite Ebv in Hn. by destruct (Hout b Hb Hn) as (? & ? & _).
    + intros _. rewrite Edin. by apply good_bare.
    + rewrite Eb3 in Hb. rewrite Ebv. destruct (decide (b ∈ file_blocks mk_log v ip)) as [?|Hn]; [done|]. exfalso. destruct (block_data _ _ _ _ _ Hf3 Hb) as (Hbr & _ & Hm). by apply (Hout b).
    + rewrite Eb3, Ebv. unfold used in Hu. rewrite Ebm3 in Hu. fold (used mk_log mk_sb v1 b) in Hu. destruct (wr_fresh _ _ _ _ _ _ _ _ Hw b ltac:(lia) Hu) as [Hu1|[Hb0 (t & Ht & Et)]].
      * destruct (decide (b ∈ file_blocks mk_log v ip)) as [[Hb0 (t & Ht & Et)]%elem_of_file_blocks|Hn]; [left|by right]. apply elem_of_file_blocks. split; [done|]. exists t. split; [done|]. rewrite Hsl3 by done. change (saddr mk_log v1 ip2 t) with (msaddr v1 ip1 t). rewrite (wr_slots _ _ _ _ _ _ _ _ Hw) by (done || congruence). done.
      * left. apply elem_of_file_blocks. split; [done|]. exists t. split; [done|]. by rewrite Hsl3.
  - unfold fcontent. apply list_fmap_ext. intros j k [-> Hk]%lookup_seq. destruct Hsz as [Hr Ha]. apply Hfb3; [lia|]. apply Ha. lia.
Qed.

(** Other files keep their blocks. *)
Lemma other_kept v v' i j : mfsck v → blocks_kept v v' i → mlive v j → j ≠ i →
  (∀ t, (t < NSLOT)%nat → msaddr v' (mdin v j) t = msaddr v (mdin v j) t) ∧ (∀ k, (k < MAXBYTES)%nat → mfaddr v (mdin v j) k ≠ 0 → mfbyte v' (mdin v j) k = mfbyte v (mdin v j) k).
Proof.
  intros Hck Hk Hl Hj. set (ip := mdin v j). pose proof (ck_file _ _ _ Hck j Hl) as [Hf _ _].
  assert (∀ t, (t < NSLOT)%nat → msaddr v ip t ≠ 0 → v' !!! mkey (msaddr v ip t) = v !!! mkey (msaddr v ip t)) as Hb.
  { intros t Ht Hn. assert (msaddr v ip t ∈ file_blocks mk_log v ip) as Hin by (apply elem_of_file_blocks; split; [done|by exists t]). apply Hk; [by eapply block_data|].
    intros Hi. apply (ck_disj _ _ _ Hck j i Hj (msaddr v ip t)); [|done]. unfold blocks_of. by rewrite decide_True. }
  assert (∀ t, (t < NSLOT)%nat → msaddr v' ip t = msaddr v ip t) as Hs.
  { intros t Ht. unfold saddr. case_decide; [done|]. case_decide as E12; [done|]. pose proof (Hb 12%nat ltac:(unfold NSLOT; lia) E12) as E. change (msaddr v ip 12) with (addrs ip !!! 12%nat) in E. by rewrite E. }
  split; [done|]. intros k Hk2 Ha. unfold fbyte, faddr. pose proof (slot_lt _ (block_lt k Hk2)) as Hsl. rewrite Hs by done. by rewrite Hb.
Qed.

Lemma full_ext v ip v' ip' n : (∀ t, (t < NSLOT)%nat → msaddr v' ip' t = msaddr v ip t) → full v ip n → full v' ip' n.
Proof.
  intros Hs [H1 H2]. split; [intros j Hj; rewrite Hs by (by apply slot_lt); by apply H1|]. rewrite <- H2. change (addrs ip' !!! 12%nat) with (msaddr v' ip' 12). rewrite Hs by (unfold NSLOT; lia). done.
Qed.

Lemma full_addr v ip n k : full v ip n → (k < 512 * nblks n)%nat → (k < MAXBYTES)%nat → mfaddr v ip k ≠ 0.
Proof. intros Hf Hk Hm. apply (fu_data _ _ _ Hf); [by apply block_lt|]. apply Nat.Div0.div_lt_upper_bound. exact Hk. Qed.

Lemma nblks_max n : (n ≤ MAXBYTES)%nat → (512 * nblks n ≤ MAXBYTES)%nat.
Proof. intros Hn. unfold nblks, MAXBYTES, BSIZE in *. pose proof (Nat.Div0.div_le_mono (n + 511) (140 * 512 + 511) 512 ltac:(lia)) as H. change ((140 * 512 + 511) / 512)%nat with 140%nat in H. lia. Qed.

Lemma nblks_ge n : (n ≤ 512 * nblks n)%nat.
Proof. unfold nblks. pose proof (Nat.div_mod (n + 511) 512 ltac:(done)). pose proof (Nat.mod_upper_bound (n + 511) 512 ltac:(done)). lia. Qed.

Lemma tail0_ext v ip v' ip' n : full v ip n → (n ≤ MAXBYTES)%nat → (∀ k, (k < MAXBYTES)%nat → mfaddr v ip k ≠ 0 → mfbyte v' ip' k = mfbyte v ip k) → tail0 v ip n → tail0 v' ip' n.
Proof. intros Hf Hn He Ht k Hk. pose proof (nblks_max n Hn). rewrite He; [by apply Ht|lia|]. apply (full_addr v ip n); [done|lia|lia]. Qed.

(** ** The tool between its operations *)

Definition sb_block : block := splice zeroes 0 (sb_bytes mk_sb).

Record built (s : mkst) (m : gmap Z afile) : Prop := {
  bu_image : image_ok s;
  bu_ck : mfsck (mview s);
  bu_shows : shows mk_log mk_sb (mview s) m;
  bu_files : ∀ i f, m !! i = Some f → full (mview s) (mdin (mview s) i) (length (a_data f)) ∧ tail0 (mview s) (mdin (mview s) i) (length (a_data f));
  bu_inums : ∀ i, is_Some (m !! i) ↔ 1 <= i < freeinode s;
  bu_free : 1 <= freeinode s <= 200;
  bu_low : img s !! mkey 1 = Some sb_block ∧ img s !! mkey 2 = Some zeroes }.

Lemma rinode_ok s i : image_ok s → 0 <= i < 200 → rinode (img s) i = Ok (mdin (mview s) i).
Proof. intros H Hi. pose proof (IBLOCK_mk i Hi). unfold rinode. destruct (rsect_ok s (IBLOCK mk_sb i) H) as [-> _]; [lia|lia|]. done. Qed.

Lemma winode_ok s i ip : image_ok s → 0 <= i < 200 → length (addrs ip) = 13%nat →
  ∃ d, winode (img s) i ip = Ok d ∧ mview (set_img d s) = mput (mview s) i (dinode_bytes ip) ∧ image_ok (set_img d s) ∧ ∀ b, b < 32 → d !! mkey b = img s !! mkey b.
Proof.
  intros H Hi Hl. pose proof (IBLOCK_mk i Hi) as Hb. pose proof (io_free _ H). destruct (rsect_ok s (IBLOCK mk_sb i) H) as [Er Hlen]; [lia|lia|]. unfold winode. rewrite Er, bind_Ok. eexists. split; [reflexivity|].
  assert (length (dinode_bytes ip) = DINODE) as Hd by (by apply length_dinode_bytes). split_and!.
  - rewrite mview_set by lia. done.
  - apply image_set; [done|lia|]. rewrite length_splice; [done|]. rewrite Hlen, Hd. pose proof (Z.mod_pos_bound i IPB eq_refl). unfold IPB, DINODE, BSIZE in *. lia.
  - intros b Hb2. unfold wsect. rewrite lookup_insert_ne; [done|]. intros [=]. lia.
Qed.

Lemma bu_live s m i f : built s m → m !! i = Some f → mlive (mview s) i ∧ 1 <= i < 200 ∧ f = afile_of mk_log (mview s) (mdin (mview s) i) ∧ Z.to_nat (isize (mdin (mview s) i)) = length (a_data f) ∧
  0 <= isize (mdin (mview s) i) ∧ (length (a_data f) ≤ MAXBYTES)%nat.
Proof.
  intros H Hf. rewrite (bu_shows _ _ H) in Hf. case_decide as Hl; [|done]. injection Hf as <-. split; [done|]. pose proof Hl as [Hr _]. change (sb_ninodes mk_sb) with 200 in Hr. split; [done|]. split; [done|].
  destruct (ck_file _ _ _ (bu_ck _ _ H) i Hl) as [_ [Hsz _] _]. cbn [afile_of a_data]. rewrite length_content. split_and!; [done|lia|lia].
Qed.

(** A step of the tool that changes file [i]. *)
Lemma built_step s m s' i f : built s m → image_ok s' → mstep (mview s) (mview s') i → blocks_kept (mview s) (mview s') i → 1 <= i < 200 → mlive (mview s') i → afile_of mk_log (mview s') (mdin (mview s') i) = f →
  full (mview s') (mdin (mview s') i) (length (a_data f)) → tail0 (mview s') (mdin (mview s') i) (length (a_data f)) →
  1 <= freeinode s' <= 200 → (∀ j, j = i ∨ 1 <= j < freeinode s ↔ 1 <= j < freeinode s') → (∀ b, b < 32 → img s' !! mkey b = img s !! mkey b) → built s' (<[i := f]> m).
Proof.
  intros H Him Hst Hk Hi Hl Ef Hfu Ht Hfi Hin Hlow. split; [done|apply Hst| | | |done|].
  - intros j. pose proof (shows_step mk_log mk_sb (mview s) (mview s') i m (bu_shows _ _ H) (is_other _ _ _ _ _ Hst) j) as Hj. rewrite <- Hj. destruct (decide (j = i)) as [->|Hne].
    + rewrite lookup_insert_eq, lookup_partial_alter_eq, decide_True by done. by rewrite Ef.
    + by rewrite lookup_insert_ne, lookup_partial_alter_ne.
  - intros j g Hg. destruct (decide (j = i)) as [->|Hne]; [rewrite lookup_insert_eq in Hg; by injection Hg as <-|]. rewrite lookup_insert_ne in Hg by done.
    destruct (bu_live s m j g H Hg) as (Hlj & Hr & _ & _ & _ & Hmax). destruct (bu_files _ _ H j g Hg) as [Hfj Htj]. destruct (other_kept _ _ i j (bu_ck _ _ H) Hk Hlj Hne) as [Hs Hb].
    destruct (is_other _ _ _ _ _ Hst j Hne) as [-> _]; [change (sb_ninodes mk_sb) with 200; lia|]. split; [by eapply full_ext|by eapply tail0_ext].
  - intros j. rewrite <- Hin, <- (bu_inums _ _ H). destruct (decide (j = i)) as [->|Hne]; [rewrite lookup_insert_eq|rewrite lookup_insert_ne by done]; [split; [by left|by eauto]|]. split; [by right|by intros [?|?]].
  - destruct (bu_low _ _ H). by rewrite !Hlow.
Qed.

Lemma din_bare v i : bare (mdin v i) = mdin v i.
Proof. done. Qed.

Lemma iappend_spec s m i f p : built s m → m !! i = Some f → (length (a_data f) + length p ≤ MAXBYTES)%nat → freeblock s + (nall (length (a_data f) + length p) - nall (length (a_data f))) <= 1000 →
  ∃ s', iappend s i p = Ok s' ∧ built s' (<[i := set_data (a_data f ++ p) f]> m) ∧ freeblock s' = freeblock s + (nall (length (a_data f) + length p) - nall (length (a_data f))) ∧ freeinode s' = freeinode s.
Proof.
  intros H Hf Hmax Hroom. destruct (bu_live s m i f H Hf) as (Hl & Hi & Ef & Esz & H0 & _). destruct (bu_files _ _ H i f Hf) as [Hfu Ht]. set (n := length (a_data f)) in *. set (ip := mdin (mview s) i) in *.
  pose proof (ck_file _ _ _ (bu_ck _ _ H) i Hl) as [Hfo Hsz _]. fold ip in Hfo, Hsz. unfold iappend. rewrite (rinode_ok s i (bu_image _ _ H) ltac:(lia)), bind_Ok. fold ip.
  destruct (iappend_loop_spec (length p) p s ip n ltac:(lia) (Build_file_at _ _ _ (bu_image _ _ H) Hfo Hfu Ht) Hmax Hroom) as (ip1 & s1 & E1 & [H1 Hf1 Hfu1 Ht1] & Hw & Ec & Ei & Hlow).
  replace (isize ip) with (Z.of_nat n) by lia. rewrite E1, bind_Ok. set (ip2 := set_size (Z.of_nat (n + length p)) ip1).
  assert (sized mk_log (mview s1) ip2) as Hsz2.
  { split; [cbn [ip2 set_size isize]; lia|]. intros k Hk. cbn [ip2 set_size isize] in Hk. apply (full_addr (mview s1) ip1 (n + length p)); [done|pose proof (nblks_ge (n + length p)); lia|lia]. }
  destruct (put_written (mview s) ip (mview s1) ip1 n p (Z.of_nat (n + length p)) (bu_ck _ _ H) Hl (din_bare _ _) Hw Hsz2) as (Hst & Edin & Hl3 & Ecn & Hf3 & Hs3 & Hb3 & Hk3). change (inum ip) with i in *. fold ip2 in Edin, Ecn, Hf3, Hs3, Hb3, Hst, Hl3, Hk3.
  destruct (winode_ok s1 i ip2 H1 ltac:(lia) (fo_len _ _ _ _ Hf1)) as (d & -> & Ev & H3 & Hd). rewrite bind_Ok. rewrite <- Ev in *. exists (set_img d s1). split; [done|].
  assert (mcontent (mview s1) ip2 = a_data f ++ p) as Edata.
  { rewrite (content_written mk_log (mview s) ip (mview s1) ip2 n p); [|lia|lia|done|cbn [ip2 set_size isize]; lia|intros k Hk; by apply (wr_in _ _ _ _ _ _ _ _ Hw)|intros k Hk Hn Ha; by apply (wr_out _ _ _ _ _ _ _ _ Hw)].
    assert (mcontent (mview s) ip = a_data f) as -> by (by rewrite Ef). rewrite take_ge, drop_ge by lia. by rewrite app_nil_r. }
  split; [|split; [cbn [set_img freeblock]; lia|done]].
  assert (length (a_data (set_data (a_data f ++ p) f)) = (n + length p)%nat) as Elen by (cbn; rewrite length_app; done).
  apply (built_step s m (set_img d s1) i); [done|done|done|done|lia|done| |rewrite Elen, Edin..| | |].
  - rewrite Edin. unfold afile_of, set_data. change (fcontent mk_log (mview (set_img d s1)) (bare ip2)) with (mcontent (mview (set_img d s1)) ip2). rewrite Ecn, Edata.
    destruct (same_inode_fields _ _ (wr_same _ _ _ _ _ _ _ _ Hw)) as (_ & Ety & Ema & Emi & Enl). cbn [bare ip2 set_size itype major minor nlink]. rewrite Ety, Ema, Emi, Enl, Ef. done.
  - eapply (full_ext (mview s1) ip1); [|done]. intros t Ht2. exact (Hs3 t Ht2).
  - eapply (tail0_ext (mview s1) ip1); [done|lia| |done]. intros k Hk Ha. exact (Hb3 k Hk Ha).
  - cbn [set_img freeinode]. rewrite Ei. apply H.
  - intros j. cbn [set_img freeinode]. rewrite Ei. assert (1 <= i < freeinode s) by (apply (bu_inums _ _ H); by eexists). lia.
  - intros b Hb. cbn [set_img img]. rewrite Hd by done. apply Hlow. lia.
Qed.

Lemma nall_0 : nall 0 = 0.
Proof. done. Qed.

Lemma ialloc_spec s m type : built s m → freeinode s < 200 → is_short type → type ≠ 0 →
  ∃ s', ialloc s type = Ok (freeinode s, s') ∧ built s' (<[freeinode s := AFile type 0 0 1 []]> m) ∧ freeblock s' = freeblock s ∧ freeinode s' = freeinode s + 1 ∧ m !! freeinode s = None.
Proof.
  intros H Hlt Ht H0. set (n := freeinode s) in *. pose proof (bu_free _ _ H) as Hn. fold n in Hn. set (ip := Inode ROOTDEV n 0 false false type 0 0 1 0 (replicate 13 0)).
  assert (m !! n = None) as Hno by (apply eq_None_not_Some; rewrite (bu_inums _ _ H); fold n; lia). assert (¬ mlive (mview s) n) as Hnl.
  { pose proof (bu_shows _ _ H n) as E. rewrite Hno in E. by case_decide. }
  destruct (fresh_step mk_log mk_sb mk_fs_layout (mview s) ip (bu_ck _ _ H)) as (Hst & Edin & Hl); try done; [change (sb_ninodes mk_sb) with 200; cbn; lia|]. change (inum ip) with n in *.
  destruct (winode_ok s n ip (bu_image _ _ H) ltac:(lia) eq_refl) as (d & Ew & Ev & H3 & Hd). change (ialloc s type) with (i ← winode (img s) n ip; Ok (n, MkSt i (u32 (n + 1)) (freeblock s))). rewrite Ew, bind_Ok. eexists. split; [reflexivity|]. set (s' := MkSt d (u32 (n + 1)) (freeblock s)).
  change (mview (set_img d s)) with (mview s') in Ev. rewrite <- Ev in *. assert (u32 (n + 1) = n + 1) as Eu by (apply u32_small; unfold is_u32; lia).
  split; [|by split_and!]. assert (∀ t, (t < NSLOT)%nat → msaddr (mview s') (bare ip) t = 0) as Hz.
  { intros t Htl. unfold saddr. change (addrs (bare ip)) with (replicate 13 0). case_decide; [by apply lookup_total_replicate_2|by rewrite decide_True]. }
  apply (built_step s m s' n); [done|by destruct H3|done| |lia|done| | | |cbn; lia| |done].
  - intros b Hb _. rewrite Ev. apply put_keeps. destruct (data_not_meta mk_log mk_sb _ b Hb) as (_ & _ & _ & Hni). apply Hni. change (sb_ninodes mk_sb) with 200. lia.
  - rewrite Edin. done.
  - rewrite Edin. split; [intros j Hj; rewrite Hz by (by apply slot_lt); split; [done|cbn; lia]|]. split; [done|cbn; lia].
  - intros k Hk. cbn in Hk. lia.
  - intros j. cbn [s' freeinode]. rewrite Eu. fold n. lia.
Qed.

Lemma append_all_spec ps : ∀ s m i f, built s m → m !! i = Some f → (length (a_data f) + length (concat ps) ≤ MAXBYTES)%nat → freeblock s + (nall (length (a_data f) + length (concat ps)) - nall (length (a_data f))) <= 1000 →
  ∃ s', append_all s i ps = Ok s' ∧ built s' (<[i := set_data (a_data f ++ concat ps) f]> m) ∧ freeblock s' = freeblock s + (nall (length (a_data f) + length (concat ps)) - nall (length (a_data f))) ∧ freeinode s' = freeinode s.
Proof.
  induction ps as [|p ps IH]; intros s m i f H Hf Hmax Hroom; cbn [append_all concat].
  - exists s. cbn [concat length] in *. rewrite app_nil_r, Nat.add_0_r. split_and!; [done| |lia|done]. rewrite insert_id; [done|]. by destruct f.
  - cbn [concat] in Hmax, Hroom. rewrite length_app in *. pose proof (nall_mono (length (a_data f) + length p) (length (a_data f) + (length p + length (concat ps))) ltac:(lia)).
    destruct (iappend_spec s m i f p H Hf ltac:(lia) ltac:(lia)) as (s1 & E1 & H1 & Ec1 & Ei1). rewrite E1, bind_Ok. set (f1 := set_data (a_data f ++ p) f) in *.
    assert (length (a_data f1) = (length (a_data f) + length p)%nat) as El by (cbn; by rewrite length_app).
    destruct (IH s1 _ i f1 H1) as (s2 & E2 & H2 & Ec2 & Ei2); [apply lookup_insert_eq|lia|rewrite El, Ec1, <- Nat.add_assoc; lia|]. exists s2. rewrite insert_insert_eq in H2. rewrite El, <- Nat.add_assoc in Ec2.
    split_and!; [done| |lia|congruence]. change (set_data (a_data f1 ++ concat ps) f1) with (set_data ((a_data f ++ p) ++ concat ps) f) in H2. by rewrite <- app_assoc in H2.
Qed.

Lemma add_file_spec s m r name ps : built s m → m !! ROOTINO = Some r → freeinode s < 200 → SLASH ∉ name → (length (a_data r) + DIRENT ≤ MAXBYTES)%nat → (length (concat ps) ≤ MAXBYTES)%nat →
  freeblock s + (nall (length (a_data r) + DIRENT) - nall (length (a_data r))) + nall (length (concat ps)) <= 1000 →
  let n := freeinode s in
  ∃ s', add_file s (name, Some ps) = Ok s' ∧ built s' (<[ROOTINO := set_data (a_data r ++ dirent n (stored_name name)) r]> (<[n := AFile T_FILE 0 0 1 (concat ps)]> m)) ∧
    freeblock s' = freeblock s + (nall (length (a_data r) + DIRENT) - nall (length (a_data r))) + nall (length (concat ps)) ∧ freeinode s' = n + 1 ∧ m !! n = None.
Proof.
  intros H Hr Hn Hsl Hmax1 Hmax2 Hroom n. pose proof (nall_mono (length (a_data r)) (length (a_data r) + DIRENT) ltac:(lia)) as Hm1. pose proof (nall_mono 0 (length (concat ps)) ltac:(lia)) as Hm2. rewrite nall_0 in Hm2.
  destruct (ialloc_spec s m T_FILE H Hn) as (s1 & E1 & H1 & Ec1 & Ei1 & Hno); [done|done|]. fold n in E1, H1, Hno. assert (n ≠ ROOTINO) as Hne by congruence.
  unfold add_file. cbn [fst snd]. rewrite bool_decide_eq_false_2 by done. rewrite E1, bind_Ok.
  assert (length (dirent n (stored_name name)) = DIRENT) as Ed by apply length_dirent.
  destruct (iappend_spec s1 _ ROOTINO r (dirent n (stored_name name)) H1) as (s2 & E2 & H2 & Ec2 & Ei2); [by rewrite lookup_insert_ne|lia|rewrite Ed; lia|]. rewrite Ed in Ec2. rewrite E2, bind_Ok.
  destruct (append_all_spec ps s2 _ n (AFile T_FILE 0 0 1 []) H2) as (s3 & E3 & H3 & Ec3 & Ei3); [rewrite lookup_insert_ne by done; apply lookup_insert_eq|exact Hmax2|cbn [a_data length Nat.add]; rewrite nall_0; lia|].
  cbn [a_data length Nat.add app] in *. rewrite nall_0 in Ec3. exists s3. split_and!; [done| |lia|lia|done].
  rewrite (insert_insert_ne _ n ROOTINO), insert_insert_eq in H3 by done. exact H3.
Qed.

(** The size of the root directory is rounded up, and the bitmap is written. *)
Lemma finish_spec s m r : built s m → m !! ROOTINO = Some r → let n := length (a_data r) in (n mod 512 ≠ 0)%nat →
  ∃ s', finish s = Ok (mview s') ∧ built s' (<[ROOTINO := set_data (a_data r ++ replicate (512 * nblks n - n) 0) r]> m) ∧ freeblock s' = freeblock s.
Proof.
  intros H Hr n Hn. destruct (bu_live s m ROOTINO r H Hr) as (Hl & Hi & Ef & Esz & H0 & Hmax). fold n in Esz, Hmax. destruct (bu_files _ _ H ROOTINO r Hr) as [Hfu Ht]. fold n in Hfu, Ht. set (ip := mdin (mview s) ROOTINO) in *. pose proof (bu_image _ _ H) as Him.
  pose proof (ck_file _ _ _ (bu_ck _ _ H) ROOTINO Hl) as [Hfo Hsz _]. fold ip in Hfo, Hsz. pose proof (nblks_max n Hmax) as Hmax2. pose proof (nblks_in n Hn) as En. pose proof (Nat.div_mod n 512 ltac:(done)) as Hdm. pose proof (Nat.mod_upper_bound n 512 ltac:(done)) as Hmu.
  unfold finish. rewrite (rinode_ok s ROOTINO Him ltac:(done)), bind_Ok. fold ip. assert ((isize ip / BS + 1) * BS = Z.of_nat (512 * nblks n)) as ->.
  { replace (isize ip) with (Z.of_nat n) by lia. assert (Z.of_nat n / BS = Z.of_nat (n / 512)) as -> by (rewrite Nat2Z.inj_div; done). rewrite En. unfold BS, BSIZE. lia. }
  set (z := (512 * nblks n)%nat) in *. assert (n ≤ z)%nat as Hnz by apply nblks_ge. assert (nblks z = nblks n) as Ez.
  { unfold z. rewrite nblks_at by (rewrite Nat.mul_comm; apply Nat.Div0.mod_mul). rewrite Nat.mul_comm. by apply Nat.div_mul. }
  assert (sized mk_log (mview s) (set_size (Z.of_nat z) ip)) as Hsz2.
  { split; [cbn [set_size isize]; lia|]. intros k Hk. cbn [set_size isize] in Hk. apply (full_addr (mview s) ip n); [done|unfold z in *; lia|lia]. }
  destruct (put_written (mview s) ip (mview s) ip n [] (Z.of_nat z) (bu_ck _ _ H) Hl (din_bare _ _) (written_nil _ _ _ _ _ (mview_inv s Him) Hfo) Hsz2) as (Hst & Edin & Hl3 & Ecn & Hf3 & Hs3 & Hb3 & Hk3). set (ip2 := set_size (Z.of_nat z) ip) in *. change (inum ip) with ROOTINO in *.
  destruct (winode_ok s ROOTINO ip2 Him ltac:(done) (fo_len _ _ _ _ Hfo)) as (d & -> & Ev & H3 & Hd). rewrite bind_Ok. rewrite <- Ev in *. exists (set_img d s). pose proof (io_free _ Him) as Hfr. split_and!; [|clear Ev|done].
  { unfold balloc. rewrite (proj2 (Z.ltb_lt _ _)); [done|]. unfold BS, BSIZE. lia. }
  assert (mcontent (mview s) ip2 = a_data r ++ replicate (z - n) 0) as Edata.
  { assert (a_data r = mcontent (mview s) ip) as -> by (by rewrite Ef). unfold fcontent. cbn [ip2 set_size isize]. rewrite Esz. replace (Z.to_nat (Z.of_nat z)) with (n + (z - n))%nat by lia.
    rewrite seq_app, fmap_app. f_equal. apply list_eq_same_length with (z - n)%nat; [by rewrite length_replicate|by rewrite length_fmap, length_seq|]. intros k a b Hk Ha Hb. apply list_lookup_fmap_Some in Ha as (c & -> & [-> _]%lookup_seq). apply lookup_replicate in Hb as [-> _]. apply Ht. fold z. lia. }
  assert (length (a_data (set_data (a_data r ++ replicate (z - n) 0) r)) = z) as Elen by (cbn [set_data a_data]; rewrite length_app, length_replicate; fold n; lia).
  apply (built_step s m (set_img d s) ROOTINO); [done|done|done|done|done|done| |rewrite Elen, Edin..| | |done].
  - rewrite Edin. unfold afile_of, set_data. change (fcontent mk_log (mview (set_img d s)) (bare ip2)) with (mcontent (mview (set_img d s)) ip2). rewrite Ecn, Edata, Ef. done.
  - split; [intros j Hj; change (msaddr (mview (set_img d s)) (bare ip2) (slot j)) with (msaddr (mview (set_img d s)) ip2 (slot j)); rewrite Hs3, Ez by (by apply slot_lt); by apply (fu_data _ _ _ Hfu)|]. rewrite Ez. apply (fu_ind _ _ _ Hfu).
  - intros k Hk. rewrite Ez in Hk. unfold z in Hk. lia.
  - apply H.
  - intros j. cbn [set_img freeinode]. assert (1 <= ROOTINO < freeinode s) by (apply (bu_inums _ _ H); by eexists). lia.
Qed.
