(* ===== verification/MkfsThm.v ===== *)
(** The image that mkfs makes (src/p4/mkfs.c) and the kernel that starts from it.

    [mkfs_spec] follows the whole tool: the image is a consistent file system with a root directory and the files given, with the bytes that were read.  [mkfs_boots] composes this with Boot.v: the kernel
    that starts from the image is in a state from which the theorem on the system calls goes on. *)

From Stdlib Require Import ZArith Lia.
From stdpp Require Import base numbers list gmap fin_sets sets strings.
From S2P Require Import Prelude CStr MemIface Bio Log LogCrash Fs FsSpec FsTrunc Pipe File FileThm FsCk Icache IcacheSpec IcacheOps IcacheThm Dir DirSpec DirOps Ftable Sysfile Tree Txn SysfileSpec FtableSpec Syscalls SysRun SyscallsDemo Boot Mkfs MkfsSpec.
#[local] Open Scope Z_scope.

(** * The empty image *)

Lemma wsect_all l : ∀ d b, foldl (λ i sec, wsect i sec zeroes) d l !! mkey b = if decide (b ∈ l) then Some zeroes else d !! mkey b.
Proof.
  induction l as [|a l IH]; intros d b; cbn [foldl]; [by rewrite decide_False by apply not_elem_of_nil|]. rewrite IH. unfold wsect. destruct (decide (b ∈ l)) as [Hin|Hn].
  - rewrite decide_True; [done|]. by right.
  - change (ROOTDEV, a) with (mkey a). destruct (decide (b = a)) as [->|Hne]; [rewrite lookup_insert_eq, decide_True; [done|left]|].
    rewrite lookup_insert_ne by (intros [=]; congruence). rewrite decide_False; [done|]. by rewrite not_elem_of_cons.
Qed.

Lemma blank_lookup b : 0 <= b < 1000 → blank !! mkey b = Some (if decide (b = 1) then sb_block else zeroes).
Proof.
  intros Hb. unfold blank, wsect. change (ROOTDEV, 1) with (mkey 1). case_decide as E; [subst; apply lookup_insert_eq|]. rewrite lookup_insert_ne by (intros [=]; congruence). rewrite wsect_all, decide_True; [done|].
  apply elem_of_seqZ. unfold FSSIZE. lia.
Qed.

Definition mk0 : mkst := MkSt blank 1 nmeta.

Lemma mk0_image : image_ok mk0.
Proof.
  split; cbn [mk0 img freeblock]; change nmeta with 59.
  - intros b Hb. rewrite blank_lookup by done. eexists. split; [reflexivity|]. by case_decide.
  - intros b Hb. rewrite blank_lookup by lia. by rewrite decide_False by lia.
  - lia.
Qed.

Lemma mk0_inode i : 0 <= i < 200 → mview mk0 !!! mkey (IBLOCK mk_sb i) = zeroes ∧ itype (mdin (mview mk0) i) = 0.
Proof.
  intros Hi. pose proof (IBLOCK_mk i Hi) as Hb. assert (mview mk0 !!! mkey (IBLOCK mk_sb i) = zeroes) as E.
  { rewrite mview_other by lia. apply lookup_total_correct. cbn [mk0 img]. rewrite blank_lookup by lia. by rewrite decide_False by lia. }
  split; [done|]. unfold din, load_dinode, dinode_at. rewrite E. cbn [itype]. unfold zeroes, short_at. rewrite drop_replicate, take_replicate. pose proof (Z.mod_pos_bound i IPB eq_refl). unfold IPB in *.
  replace (DINODE `min` (BSIZE - Z.to_nat (i mod 8) * DINODE))%nat with DINODE by (unfold DINODE, BSIZE; lia). done.
Qed.

Lemma mk0_built : built mk0 ∅.
Proof.
  assert (∀ i, ¬ mlive (mview mk0) i) as Hl. { intros i [Hi Ht]. change (sb_ninodes mk_sb) with 200 in Hi. apply Ht. apply (mk0_inode i). lia. }
  split; [apply mk0_image| | |by intros i f ?%lookup_empty_Some| |cbn; lia|].
  - split; [apply mview_inv, mk0_image| | | |].
    + intros i Hi. change (sb_ninodes mk_sb) with 200 in Hi. by destruct (mk0_inode i Hi) as [-> _].
    + intros i Hi. by apply Hl in Hi.
    + intros i j _ b Hb _. apply blocks_live in Hb as [Hb _]. by apply Hl in Hb.
    + intros b Hb Hu Hm. exfalso. apply Hm. change (sb_size mk_sb) with 1000 in Hb. apply mview_used in Hu; [|apply mk0_image|lia]. apply mk_meta; [done|exact Hu].
  - intros i. rewrite lookup_empty. case_decide as E; [by apply Hl in E|done].
  - intros i. rewrite lookup_empty. split; [by intros [? ?]|cbn; lia].
  - cbn [mk0 img]. rewrite !blank_lookup by lia. done.
Qed.

(** * The root directory *)

Definition root_dots : list Z := dirent ROOTINO (of_string ".") ++ dirent ROOTINO (of_string "..").

Lemma mk_root_spec : ∃ s, mk_root mk0 = Ok s ∧ built s {[ROOTINO := AFile T_DIR 0 0 1 root_dots]} ∧ freeblock s = nmeta + nall 32 ∧ freeinode s = 2.
Proof.
  destruct (ialloc_spec mk0 ∅ T_DIR mk0_built) as (s1 & E1 & H1 & C1 & I1 & _); [done..|]. change (freeinode mk0) with ROOTINO in *.
  destruct (iappend_spec s1 _ ROOTINO (AFile T_DIR 0 0 1 []) (dirent ROOTINO (of_string ".")) H1) as (s2 & E2 & H2 & C2 & I2); [apply lookup_insert_eq|rewrite length_dirent; unfold MAXBYTES, BSIZE, DIRENT; cbn [a_data length]; lia|rewrite C1; done|].
  destruct (iappend_spec s2 _ ROOTINO (AFile T_DIR 0 0 1 (dirent ROOTINO (of_string "."))) (dirent ROOTINO (of_string "..")) H2) as (s3 & E3 & H3 & C3 & I3); [apply lookup_insert_eq|cbn [a_data]; rewrite !length_dirent; unfold MAXBYTES, BSIZE, DIRENT; cbn [length]; lia|rewrite C2, C1; done|].
  exists s3. unfold mk_root. rewrite E1, bind_Ok. cbn [negb Z.eqb]. change (negb (ROOTINO =? ROOTINO)) with false. cbn match. rewrite E2, bind_Ok, E3. split; [done|]. split; [|split; [rewrite C3, C2, C1; done|rewrite I3, I2, I1; done]].
  rewrite !insert_insert_eq in H3. exact H3.
Qed.

(** A directory without free entries: a new one goes to the end. *)
Definition packed (l : list Z) : Prop := (length l mod DIRENT = 0)%nat ∧ dslot l = ndent l.

Lemma dlink_packed l name i : packed l → is_ushort i → i ≠ 0 → dlink l name i = l ++ dirent i name ∧ packed (l ++ dirent i name).
Proof.
  intros [Hm Hs] Hi Hi0. pose proof (ndent_length l Hm) as Hn. pose proof (length_dirent i name) as Hd. assert (dlink l name i = l ++ dirent i name) as E.
  { unfold dlink, write_at. rewrite Hs, Hn, take_ge, drop_ge by lia. by rewrite app_nil_r. }
  split; [done|]. destruct (dslot_spec l Hm) as (_ & _ & Hused). assert (length (l ++ dirent i name) = (ndent l + 1) * DIRENT)%nat as Hl by (rewrite length_app, Hd; lia).
  assert (length (l ++ dirent i name) mod DIRENT = 0)%nat as Hm' by (rewrite Hl; apply Nat.Div0.mod_mul). split; [done|]. assert (ndent (l ++ dirent i name) = S (ndent l)) as En by (unfold ndent at 1; rewrite Hl, Nat.div_mul by done; lia).
  destruct (dslot_spec _ Hm') as (Hle & Hfree & _). destruct (decide (dslot (l ++ dirent i name) < ndent (l ++ dirent i name))%nat) as [Hlt|?]; [exfalso|lia]. specialize (Hfree Hlt). rewrite <- E in Hfree at 1. unfold dlink in Hfree. rewrite dent_write in Hfree by (done || lia).
  case_decide as Ej; [by rewrite dirent_inum in Hfree|]. refine (Hused _ _ Hfree). lia.
Qed.

(** * The files *)

Definition contents (a : arg) : list Z := concat (default [] a.2).
Definition name_of (a : arg) : list Z := cname (stored_name a.1).

Fixpoint file_map (n : Z) (args : list arg) : gmap Z afile :=
  match args with [] => ∅ | a :: args' => <[n := AFile T_FILE 0 0 1 (contents a)]> (file_map (n + 1) args') end.
Fixpoint entries (n : Z) (args : list arg) : list Z :=
  match args with [] => [] | a :: args' => dirent n (stored_name a.1) ++ entries (n + 1) args' end.

Lemma file_map_lookup args : ∀ n i, file_map n args !! i = if decide (n <= i) then (λ a, AFile T_FILE 0 0 1 (contents a)) <$> args !! Z.to_nat (i - n) else None.
Proof.
  induction args as [|a args IH]; intros n i; cbn [file_map]; [rewrite lookup_empty; by case_decide|]. destruct (decide (i = n)) as [->|Hne].
  - rewrite lookup_insert_eq, decide_True, Z.sub_diag by lia. done.
  - rewrite lookup_insert_ne, IH by done. case_decide; case_decide; try lia; [|done]. replace (Z.to_nat (i - n)) with (S (Z.to_nat (i - (n + 1)))) by lia. done.
Qed.

Lemma length_dirents args : ∀ n, length (entries n args) = (DIRENT * length args)%nat.
Proof. induction args as [|a args IH]; intros n; [done|]. cbn [entries length]. rewrite length_app, length_dirent, IH. lia. Qed.

(** An argument that can be put on the image. *)
Definition arg_ok (a : arg) : Prop := (SLASH ∉ a.1) ∧ is_Some a.2 ∧ (length (contents a) ≤ MAXBYTES)%nat.

Definition file_blocks_needed (args : list arg) : Z := foldr (λ a n, nall (length (contents a)) + n) 0 args.

Lemma needed_pos args : 0 <= file_blocks_needed args.
Proof. induction args as [|a args IH]; [done|]. cbn. pose proof (nall_mono 0 (length (contents a)) ltac:(lia)). rewrite nall_0 in *. unfold file_blocks_needed in IH. lia. Qed.

Lemma add_files_spec args : ∀ s m r, built s m → tree m → m !! ROOTINO = Some r → a_type r = T_DIR → a_nlink r ≠ 0 → packed (a_data r) →
  Forall arg_ok args → NoDup (name_of <$> args) → (∀ a, a ∈ args → dmap (a_data r) !! name_of a = None) →
  freeinode s + Z.of_nat (length args) <= 200 → (length (a_data r) + DIRENT * length args ≤ MAXBYTES)%nat →
  let cost := nall (length (a_data r) + DIRENT * length args) - nall (length (a_data r)) + file_blocks_needed args in freeblock s + cost <= 1000 →
  ∃ s', add_files s args = Ok s' ∧ freeblock s' = freeblock s + cost ∧ let m' := <[ROOTINO := set_data (a_data r ++ entries (freeinode s) args) r]> (file_map (freeinode s) args ∪ m) in built s' m' ∧ tree m'.
Proof.
  induction args as [|a args IH]; intros s m r H Ht Hr Hty Hnl Hpk Hok Hnd Hno Hfi Hmax cost Hroom.
  - exists s. split; [done|]. cbn [entries file_map length] in *. rewrite app_nil_r, map_empty_union, insert_id by (by destruct r). unfold cost. cbn [length]. rewrite Nat.mul_0_r, Nat.add_0_r. split; [cbn; lia|done].
  - apply Forall_cons in Hok as [(Hsl & [ps Hps] & Hlen) Hok]. destruct a as [nm o]. cbn [fst snd] in *. subst o. apply NoDup_cons in Hnd as [Hnin Hnd]. cbn [length] in *. set (n := freeinode s) in *.
    assert (contents (nm, Some ps) = concat ps) as Ec by done. rewrite Ec in *. pose proof (needed_pos args) as Hnp. unfold cost in *. clear cost. cbn [file_blocks_needed foldr] in Hroom |- *. fold (file_blocks_needed args) in Hroom |- *. rewrite Ec in *.
    set (k := length (a_data r)) in *. replace (k + DIRENT * S (length args))%nat with (k + DIRENT + DIRENT * length args)%nat in * by lia. pose proof (nall_mono (k + DIRENT) (k + DIRENT + DIRENT * length args) ltac:(lia)) as Hmono.
    destruct (add_file_spec s m r nm ps H Hr ltac:(lia) Hsl ltac:(fold k; lia) Hlen ltac:(fold k; lia)) as (s1 & E1 & H1 & C1 & I1 & Hfresh). fold n in H1, I1, Hfresh. fold k in C1.
    pose proof (bu_free _ _ H) as Hfree. fold n in Hfree. assert (is_ushort n) as Hush by (unfold is_ushort; lia). destruct (dlink_packed (a_data r) (stored_name nm) n Hpk Hush ltac:(lia)) as [Edl Hpk1].
    assert (dlookup (a_data r) (stored_name nm) = None) as Hdl by (apply dlookup_None, (Hno (nm, Some ps)); left).
    pose proof (tree_link m ROOTINO r (stored_name nm) n (AFile T_FILE 0 0 1 (concat ps)) Ht Hr Hty Hnl Hush ltac:(lia) Hdl ltac:(done) ltac:(by right)) as Ht1. rewrite Edl in Ht1.
    destruct (dir_dlink m ROOTINO r (stored_name nm) n Ht Hr Hty Hnl Hush ltac:(lia) Hdl) as (_ & _ & _ & Edm & _). cbn [set_data a_data] in Edm. rewrite Edl in Edm.
    set (r1 := set_data (a_data r ++ dirent n (stored_name nm)) r) in *. set (m1 := <[ROOTINO := r1]> _) in *.
    assert (length (a_data r1) = (k + DIRENT)%nat) as El1 by (cbn [r1 set_data a_data]; by rewrite length_app, length_dirent).
    destruct (IH s1 m1 r1 H1 Ht1 (lookup_insert_eq _ _ _) Hty Hnl Hpk1 Hok Hnd) as (s2 & E2 & C2 & H2 & Ht2).
    + intros b Hb. cbn [r1 set_data a_data]. rewrite Edm, lookup_insert_ne; [apply Hno; by right|]. intros En. apply Hnin. apply list_elem_of_fmap. exists b. split; [exact En|done].
    + lia.
    + rewrite El1. lia.
    + rewrite El1. lia.
    + exists s2. cbn [add_files]. rewrite E1, bind_Ok. split; [done|]. rewrite El1 in C2. split; [lia|]. cbn zeta. rewrite I1 in H2, Ht2.
      assert (<[ROOTINO := set_data (a_data r1 ++ entries (n + 1) args) r1]> (file_map (n + 1) args ∪ m1) =
        <[ROOTINO := set_data (a_data r ++ entries n ((nm, Some ps) :: args)) r]> (file_map n ((nm, Some ps) :: args) ∪ m)) as Em; [|rewrite Em in H2, Ht2; done].
      apply map_eq. intros i. destruct (decide (i = ROOTINO)) as [->|Hi]; [rewrite !lookup_insert_eq; cbn [entries r1 set_data a_data fst]; by rewrite <- app_assoc|]. rewrite !lookup_insert_ne by done. cbn [file_map]. rewrite <- insert_union_l, lookup_union. unfold m1. rewrite lookup_insert_ne by done.
      destruct (decide (i = n)) as [->|Hin]; [rewrite !lookup_insert_eq, file_map_lookup, decide_False by lia; by rewrite Ec|]. by rewrite !lookup_insert_ne, lookup_union by done.
Qed.

(** ** The size of the root directory *)

Lemma dent_app_l l x j : (length l mod DIRENT = 0)%nat → (j < ndent l)%nat → dent (l ++ x) j = dent l j.
Proof. intros Hm Hj. pose proof (ndent_length l Hm). unfold dent. rewrite drop_app_le by (unfold DIRENT in *; lia). rewrite take_app_le; [done|]. rewrite length_drop. unfold DIRENT in *. lia. Qed.

Lemma dent_pad l k j : (length l mod DIRENT = 0)%nat → (ndent l ≤ j)%nat → de_inum (dent (l ++ replicate k 0) j) = 0.
Proof.
  intros Hm Hj. pose proof (ndent_length l Hm). unfold de_inum, dent. rewrite drop_app_ge by (unfold DIRENT in *; lia). rewrite drop_replicate, !take_replicate. generalize (2 `min` (DIRENT `min` (k - (DIRENT * j - length l))))%nat. intros q. induction q as [|q IH]; [done|]. cbn [replicate le]. lia.
Qed.

Lemma pad_dir l k d p : (length l mod DIRENT = 0)%nat → (k mod DIRENT = 0)%nat → dnodup l → dots_at l d p → let l' := l ++ replicate k 0 in
  (length l' mod DIRENT = 0)%nat ∧ dnodup l' ∧ dots_at l' d p ∧ dmap l' = dmap l.
Proof.
  intros Hm Hk Hnd (H2 & H0 & H1) l'. pose proof (ndent_length l Hm) as Hn. set (q := (k / DIRENT)%nat). assert (k = DIRENT * q)%nat as Ek by (pose proof (Nat.div_mod k DIRENT ltac:(done)); unfold q; lia).
  assert (length l' = (ndent l + q) * DIRENT)%nat as Hl by (unfold l'; rewrite length_app, length_replicate; lia). assert (ndent l' = ndent l + q)%nat as En by (unfold ndent at 1; rewrite Hl; by apply Nat.div_mul).
  assert (∀ j n i, slot_is l' j n i → (j < ndent l)%nat ∧ slot_is l j n i) as Hslot.
  { intros j n i Hs. destruct (decide (j < ndent l)%nat) as [Hj|Hj]; [|destruct Hs as (Hi & Ei & _); unfold l' in Ei; rewrite dent_pad in Ei by (done || lia); congruence]. split; [done|]. unfold slot_is, l' in Hs. by rewrite dent_app_l in Hs. }
  split_and!.
  - rewrite Hl. apply Nat.Div0.mod_mul.
  - intros j1 j2 n i1 i2 _ _ [L1 S1]%Hslot [L2 S2]%Hslot. exact (Hnd j1 j2 n i1 i2 L1 L2 S1 S2).
  - split; [lia|]. unfold slot_is, l'. rewrite !dent_app_l by (done || lia). split; [exact H0|exact H1].
  - unfold dmap. rewrite En, dmap_split, (dmap_from_ext l l') by (intros j Hj; apply dent_app_l; [done|lia]). rewrite <- (map_union_empty (dmap_from l 0 (ndent l))) at 2. f_equal. clear En Hl Ek.
    assert (∀ c j, (ndent l ≤ j)%nat → dmap_from l' j c = ∅) as Hz; [|by apply Hz]. induction c as [|c IH]; intros j Hj; [done|]. rewrite dmap_step. unfold l' at 1. rewrite dent_pad by done. apply IH. lia.
Qed.

Lemma tree_pad m r k : tree m → m !! ROOTINO = Some r → a_type r = T_DIR → a_nlink r ≠ 0 → (k mod DIRENT = 0)%nat → tree (<[ROOTINO := set_data (a_data r ++ replicate k 0) r]> m).
Proof.
  intros [Hd HG] Hr Hty Hnl Hk. destruct (Hd _ _ Hr Hty Hnl) as ([_ Hm] & Hnd & p & Hdots). destruct (pad_dir (a_data r) k _ _ Hm Hk Hnd Hdots) as (Hm' & Hnd' & Hdots' & Edm). split.
  - apply dir_insert; [done|]. intros _ _. split_and!; [by split|done|by exists p].
  - rewrite fmap_insert. change (kind (set_data (a_data r ++ replicate k 0) r)) with (kind r). rewrite (insert_id (kind <$> m)) by (by rewrite lookup_fmap, Hr). eapply graph_ext; [exact HG|]. intros d n i. rewrite entry_insert. case_decide as E; [|done]. subst d. cbn [set_data a_type a_nlink a_data]. rewrite Edm. unfold entry. rewrite Hr. naive_solver.
Qed.

Lemma root_tree : tree {[ROOTINO := AFile T_DIR 0 0 1 root_dots]}.
Proof.
  assert (root_dots = new_dir 1 1) as E by (vm_compute; reflexivity). destruct (new_dir_spec 1 1) as (_ & _ & _ & Hlen & Hnd & Hdots & Edm); [done..|]. rewrite <- E in *. set (r := AFile T_DIR 0 0 1 root_dots).
  assert (∀ d n i, entry {[ROOTINO := r]} d n i ↔ d = 1 ∧ i = 1 ∧ (n = DOT ∨ n = DOTDOT)) as He.
  { intros d n i. unfold entry. split.
    - intros (f & [<- <-]%lookup_singleton_Some & _ & _ & Hn). cbn [r a_data] in Hn. rewrite Edm in Hn. split; [done|]. apply lookup_insert_Some in Hn as [[<- <-]|[_ [<- <-]%lookup_singleton_Some]]; split; auto.
    - intros (-> & -> & Hn). exists r. split; [by rewrite lookup_singleton_eq|]. split_and!; [done|done|]. cbn [r a_data]. rewrite Edm. destruct Hn as [->| ->]; vm_compute; reflexivity. }
  assert (∀ i b x, (kind <$> ({[ROOTINO := r]} : gmap Z afile)) !! i = Some (b, x) ↔ i = 1 ∧ b = true ∧ x = 1) as Hk.
  { intros i b x. rewrite map_fmap_singleton, lookup_singleton_Some. change (kind r) with (true, 1). naive_solver. }
  split.
  - intros d f [<- <-]%lookup_singleton_Some _ _. split_and!; [by split; [|cbn [r a_data]; rewrite Hlen]|done|by exists 1].
  - split; repeat setoid_rewrite He; repeat setoid_rewrite Hk.
    + intros d n i (-> & _). by exists 1.
    + intros d n i i' (_ & -> & _) (_ & -> & _). done.
    + intros d x (-> & _ & ->) _. split; [by auto|]. exists 1. by auto.
    + intros d n i (_ & -> & _). exists (true, 1). by apply Hk.
    + intros i b x (-> & _ & ->). exists {[(1, DOTDOT)]}. split; [|by rewrite size_singleton]. intros d n. rewrite elem_of_singleton. naive_solver.
    + by auto.
    + intros d p (-> & _) Hd. done.
    + intros d n i x (_ & _ & [Hn|Hn]) [Hp1 Hp2] _; [by apply Hp1 in Hn|by apply Hp2 in Hn].
    + intros d n n' i x (_ & _ & [Hn|Hn]) _ [Hp1 Hp2] _ _; [by apply Hp1 in Hn|by apply Hp2 in Hn].
    + exists (λ _, 0%nat). intros d n i x (_ & _ & [Hn|Hn]) [Hp1 Hp2] _; [by apply Hp1 in Hn|by apply Hp2 in Hn].
Qed.

Lemma root_packed : packed root_dots.
Proof. split; vm_compute; reflexivity. Qed.

Lemma root_map : dmap root_dots = {[DOT := 1; DOTDOT := 1]}.
Proof. vm_compute. reflexivity. Qed.

(** * The image *)

(** The directory [.], [..] and one entry for each file, padded to whole blocks. *)
Definition root_bytes (args : list arg) : list Z := root_dots ++ entries 2 args.
Definition image_files (args : list arg) : gmap Z afile :=
  let l := root_bytes args in <[ROOTINO := AFile T_DIR 0 0 1 (l ++ replicate (512 * nblks (length l) - length l) 0)]> (file_map 2 args).

(** The blocks in use. *)
Definition image_blocks (args : list arg) : Z := nmeta + nall (length (root_bytes args)) + file_blocks_needed args.

(** What mkfs can put on an image: names without slash that stay different and differ from [.] and [..] when cut to 14 characters, files that can be read and are not too large, as many as there
    are inodes, and blocks for all; and not a number of files that fills the blocks of the directory exactly. *)
Record args_ok (args : list arg) : Prop := {
  ao_each : Forall arg_ok args;
  ao_names : NoDup (name_of <$> args);
  ao_proper : Forall (λ a, proper (name_of a)) args;
  ao_count : (length args ≤ 198)%nat;
  ao_blocks : image_blocks args <= FSSIZE;
  ao_partial : (length (root_bytes args) mod 512 ≠ 0)%nat }.

Lemma mkfs_spec args : args_ok args → ∃ s, mkfs args = Ok (mview s) ∧ built s (image_files args) ∧ tree (image_files args) ∧ freeblock s = image_blocks args.
Proof.
  intros [Heach Hnames Hprop Hcount Hblocks Hpart]. destruct mk_root_spec as (s0 & E0 & H0 & C0 & I0). set (r := AFile T_DIR 0 0 1 root_dots) in *.
  assert (length (root_bytes args) = (32 + DIRENT * length args)%nat) as Hlen by (unfold root_bytes; rewrite length_app, length_dirents; done). unfold image_blocks, FSSIZE in Hblocks. rewrite Hlen in *.
  destruct (add_files_spec args s0 _ r H0 root_tree (lookup_singleton_eq _ _) eq_refl ltac:(discriminate) root_packed Heach Hnames) as (s1 & E1 & C1 & H1 & T1).
  { intros a Ha. rewrite Forall_forall in Hprop. destruct (Hprop a Ha) as [P1 P2]. cbn [r a_data]. rewrite root_map, lookup_insert_ne, lookup_singleton_ne; congruence. }
  { rewrite I0. lia. }
  { change (length (a_data r)) with 32%nat. unfold MAXBYTES, BSIZE, DIRENT. lia. }
  { change (length (a_data r)) with 32%nat. rewrite C0. lia. }
  change (length (a_data r)) with 32%nat in C1. rewrite I0 in H1, T1. set (r1 := set_data (a_data r ++ entries 2 args) r) in *. set (m1 := <[ROOTINO := r1]> _) in *. change (a_data r ++ entries 2 args) with (root_bytes args) in r1.
  assert (m1 !! ROOTINO = Some r1) as Hr1 by apply lookup_insert_eq. destruct (finish_spec s1 m1 r1 H1 Hr1) as (s2 & E2 & H2 & C2); [change (a_data r1) with (root_bytes args); by rewrite Hlen|]. change (a_data r1) with (root_bytes args) in E2, H2.
  assert (<[ROOTINO := set_data (root_bytes args ++ replicate (512 * nblks (length (root_bytes args)) - length (root_bytes args)) 0) r1]> m1 = image_files args) as Em.
  { unfold m1, image_files. rewrite insert_insert_eq. apply map_eq. intros i. destruct (decide (i = ROOTINO)) as [->|Hi]; [by rewrite !lookup_insert_eq|]. rewrite !lookup_insert_ne, lookup_union, lookup_singleton_ne by done. by destruct (file_map 2 args !! i). }
  rewrite Em in H2. exists s2. split_and!; [|done| |].
  - change (mkfs args) with (s ← mk_root mk0; s ← add_files s args; finish s). by rewrite E0, bind_Ok, E1, bind_Ok.
  - rewrite <- Em. apply (tree_pad m1 r1 _ T1 Hr1 eq_refl ltac:(done)). rewrite Hlen. unfold DIRENT.
    assert (∃ z, 512 * nblks (32 + 16 * length args) - (32 + 16 * length args) = z * 16)%nat as [z ->]; [exists (32 * nblks (32 + 16 * length args) - (2 + length args))%nat; lia|apply Nat.Div0.mod_mul].
  - unfold image_blocks. rewrite Hlen, C2, C1, C0. lia.
Qed.

(** * The kernel on the image *)

Lemma mk_layout : layout mk_log.
Proof. by split. Qed.

Lemma mk_idle : idle mk_log.
Proof. by split_and!. Qed.

Lemma image_nlink args i f : image_files args !! i = Some f → a_nlink f = 1.
Proof. unfold image_files. intros [[_ <-]|[_ Hf]]%lookup_insert_Some; [done|]. rewrite file_map_lookup in Hf. case_decide; [|done]. by destruct (args !! _); simplify_eq/=. Qed.

Lemma set_ilocked_id ip : i_locked ip = false → set_ilocked false ip = ip.
Proof. destruct ip. cbn. by intros ->. Qed.

(** The first pointer of the inode cache. *)
Lemma first_cwd v m f (c : bcache) : mfsck v → shows mk_log mk_sb v m → (∀ i f, m !! i = Some f → a_nlink f ≠ 0) → m !! ROOTINO = Some f →
  ∃ k ic, userinit_cwd c icache0 = Ok (Some k, c, log0, ic) ∧ set_ilocked false <$> ic = ic ∧ implements mk_log mk_sb v ic [k] ∅ (AFs m [ROOTINO]).
Proof.
  intros Hck Hsh Hnl Hr. assert (mlive v ROOTINO) as Hl by (rewrite Hsh in Hr; by case_decide).
  assert (coh mk_log mk_sb v [] ∅ icache0) as Hc by (split; [done|intros k ip [-> _]%lookup_replicate; done|by intros k ?%not_elem_of_nil|by intros k ip _ ?%not_elem_of_nil|by intros k k' ip ip' _ _ ?%not_elem_of_nil|by intros k ?%elem_of_empty]).
  destruct (iget_spec mk_log mk_sb v [] ∅ [] icache0 ROOTINO Hc) as (k & ip' & E & _ & _ & Hc' & Hn' & _); [constructor|done|right; exists 0%nat; eexists; split; [reflexivity|done]|].
  exists k, (<[k := ip']> icache0). split_and!.
  - unfold userinit_cwd, namei, namex. change (chr (of_string "/") =? SLASH) with true. cbn match. change ROOTDEV with (dev mk_log). rewrite E. done.
  - apply list_eq. intros j. rewrite list_lookup_fmap. destruct (<[k := ip']> icache0 !! j) as [ip|] eqn:Ej; [|done]. cbn [fmap option_fmap option_map]. destruct (co_ref _ _ _ _ _ _ Hc' j ip Ej) as [_ Elk]. rewrite bool_decide_eq_false_2 in Elk by apply not_elem_of_empty. by rewrite set_ilocked_id.
  - split; [done|done|exact Hc'|exact Hn'|]. intros i Hli H0. exfalso. specialize (Hsh i). rewrite decide_True in Hsh by done. by apply (Hnl i _ Hsh).
Qed.

Lemma readsb_spec (c : bcache) v : binv c (CAbs v v ∅ ∅) → ∃ c', readsb c ROOTDEV = Ok (load_sb (v !!! mkey 1), c') ∧ binv c' (CAbs v v ∅ ∅).
Proof.
  intros Hc. destruct (read_block_spec (cview := binv) c v v ∅ (mkey 1) Hc) as (i & c1 & E1 & Hc1 & _ & Ed); [by split|rewrite size_empty; unfold NBUF; lia|].
  destruct (law_brelse (cview := binv) c1 _ i (mkey 1) Hc1) as (c2 & E2 & Hc2 & _); [by apply (lookup_singleton_eq (M := gmap nat))|by right|]. cbn [Bio.view dsk Bio.held pins] in Hc2. rewrite delete_singleton_eq in Hc2.
  exists c2. split; [|done]. unfold readsb. change (ROOTDEV, 1) with (mkey 1). by rewrite E1, bind_Ok, Ed, bind_Ok, E2, bind_Ok.
Qed.

(** Recovery from an empty log leaves the disk as it is. *)
Lemma initlog_empty (c : bcache) v : binv c (CAbs v v ∅ ∅) → v !! mkey 2 = Some zeroes → ∃ c', initlog c ROOTDEV 2 30 = Ok (c', mk_log) ∧ binv c' (CAbs v v ∅ ∅).
Proof.
  intros Hc Hz. assert (v !!! header_key mk_log = zeroes) as E by (by apply lookup_total_correct). assert (decode_head zeroes = []) as Eh by (vm_compute; reflexivity).
  destruct (recover_spec (cview := binv) mk_log mk_layout c v Hc) as (c' & Er & Hc' & _).
  { unfold head_ok. rewrite E, Eh. split_and!; [vm_compute; discriminate|constructor|constructor|done]. }
  exists c'. split; [exact Er|]. assert (apply_writes v (recover_writes mk_log v) = v) as Ev; [|by rewrite Ev in Hc']. unfold recover_writes. rewrite E, Eh. assert (head_bytes zeroes [] = zeroes) as -> by (vm_compute; reflexivity).
  cbn. by apply insert_id.
Qed.

Lemma mk_super : load_sb sb_block = mk_sb.
Proof. vm_compute. reflexivity. Qed.

Lemma start_spec {M} (mm : M) v m f : mfsck v → shows mk_log mk_sb v m → (∀ i f, m !! i = Some f → a_nlink f ≠ 0) → m !! ROOTINO = Some f → v !! mkey 1 = Some sb_block → v !! mkey 2 = Some zeroes →
  ∃ c ic k, start_fs v mm = Ok (mk_sb, FSys c mk_log ic ftable0 ∅ mm, UProc (replicate NOFILE None) k) ∧ binv c (CAbs v v ∅ ∅) ∧ implements mk_log mk_sb v ic [k] ∅ (AFs m [ROOTINO]).
Proof.
  intros Hck Hsh Hnl Hr H1 H2. destruct (first_cwd v m f (binit v) Hck Hsh Hnl Hr) as (k & ic & E & Eic & Him). destruct (readsb_spec (binit v) v (binit_inv v)) as (c1 & E1 & Hc1). destruct (readsb_spec c1 v Hc1) as (c2 & E2 & Hc2).
  rewrite (lookup_total_correct _ _ _ H1), mk_super in E1, E2. destruct (initlog_empty c2 v Hc2 H2) as (c3 & E3 & Hc3). exists c3, ic, k. split; [|split; [exact Hc3|exact Him]].
  unfold start_fs. rewrite E, bind_Ok. unfold forkret, iinit, initlog_sb. rewrite Eic, E1, !bind_Ok, E2, bind_Ok. change (sb_logstart mk_sb) with 2. change (sb_nlog mk_sb) with 30. by rewrite E3, bind_Ok.
Qed.

Lemma image_free s : image_ok s → size (free_blocks mk_log mk_sb (mview s)) = Z.to_nat (1000 - freeblock s).
Proof.
  intros H. pose proof (io_free _ H) as Hf. assert (free_blocks mk_log mk_sb (mview s) = list_to_set (seqZ (freeblock s) (1000 - freeblock s))) as ->.
  { apply set_eq. intros b. rewrite mview_free, elem_of_list_to_set, elem_of_seqZ by done. lia. }
  rewrite size_list_to_set by apply NoDup_seqZ. by rewrite length_seqZ.
Qed.

Lemma mo_start {M} `{MemOps M} (c : bcache) ic k (mm : M) v m b : binv c (CAbs v v ∅ ∅) → implements mk_log mk_sb v ic [k] ∅ (AFs m [ROOTINO]) → tree m → (b ≤ size (free_blocks mk_log mk_sb v))%nat →
  models (cview := binv) mk_log mk_sb (FSys c mk_log ic ftable0 ∅ mm) [UProc (replicate NOFILE None) k] (ASys m (replicate NFILE None) [AProc ROOTINO (replicate NOFILE None)]) b.
Proof.
  intros Hc Him Ht Hb. split; cbn [as_files as_table as_procs].
  - split_and!; [done| |].
    + split_and!; [done|by intros j ?%not_elem_of_nil|]. intros j f o [-> _]%lookup_replicate [-> _]%lookup_replicate. done.
    + exists v. split_and!; [by exists v|exact Him|done].
  - by repeat constructor.
  - done.
  - by intros j d [? _]%lookup_replicate.
Qed.

(** The state in which the first process finds the system. *)
Definition first_state (args : list arg) : asys := ASys (image_files args) (replicate NFILE None) [AProc ROOTINO (replicate NOFILE None)].

(** C2. mkfs makes an image from which the kernel starts.  Its arguments are as [args_ok] says: names without a slash which, without a leading underscore and cut to 14 characters, are different from each other and
    from . and ..; files that can be read and are at most as long as the file system allows; at most 198 of them; blocks for all on the image; and a number of entries, . and .. included, that does not
    fill the last block of the root directory (with a multiple of 32 entries mkfs sets the size of the root one block too high).  Then mkfs ends without an error, with an image from which the kernel
    starts: it reads back the super block, recovers the empty log and gives the first process the root directory.  The
    state it reaches implements the tree of files in which the root has, besides . and .., one entry for each file, with the name given (without a leading underscore, cut to 14 characters), link count one and exactly
    the bytes that were read, and as many free blocks as the files leave.  So nothing needs to be assumed of the disk: every sequence of calls of the first process that meets [run_ok], with no more
    blocks than are free, then returns what the specification says, and leaves a state that implements the specified one. *)
Theorem mkfs_boots {M} `{MemOps M} (mm : M) dr dw args cs : args_ok args → let a := first_state args in let free := Z.to_nat (FSSIZE - image_blocks args) in
  (run_blocks cs ≤ free)%nat → run_ok mk_sb mk_log cs a →
  ∃ d s u, mkfs args = Ok d ∧ start_fs d mm = Ok (mk_sb, s, u) ∧ models (cview := binv) mk_log mk_sb s [u] a free ∧
    ∃ s' us', run_sys mk_sb dr dw cs s [u] = Ok ((run_spec mk_sb mk_log cs a).1, s', us') ∧ models (cview := binv) mk_log mk_sb s' us' (run_spec mk_sb mk_log cs a).2 (free - run_blocks cs).
Proof.
  intros Hok a free Hcs Hrun. destruct (mkfs_spec args Hok) as (st & E & HB & HT & HF). pose proof (bu_image _ _ HB) as Him. destruct (bu_low _ _ HB) as [L1 L2].
  destruct (start_spec mm (mview st) (image_files args) _ (bu_ck _ _ HB) (bu_shows _ _ HB) ltac:(intros i f Hf; by rewrite (image_nlink args i f Hf)) (lookup_insert_eq _ _ _)) as (c & ic & k & Es & Hc & Hi); [unfold mview; by rewrite lookup_insert_ne..|].
  assert (models (cview := binv) mk_log mk_sb (FSys c mk_log ic ftable0 ∅ mm) [UProc (replicate NOFILE None) k] a free) as Hm.
  { apply (mo_start c ic k mm (mview st)); [exact Hc|exact Hi|exact HT|]. rewrite image_free, HF by exact Him. apply le_n. }
  eexists _, _, _. split; [exact E|]. split; [exact Es|]. split; [exact Hm|]. apply (run_models mk_log mk_layout mk_idle ltac:(by vm_compute) mk_sb mk_fs_layout dr dw); [|exact Hrun]. by replace (run_blocks cs + (free - run_blocks cs))%nat with free by lia.
Qed.

(** * Examples *)

(** cat and README; the first process reads both, writes a file in a new directory and removes cat. *)
Definition y_args : list arg := [(of_string "_cat", Some [[1; 2; 3]]); (of_string "README", Some [replicate 512 7; [1; 2]])].
Definition y_session : list (nat * syscall) :=
  (0%nat,.) <$> [SOpen (of_string "cat") O_RDONLY; SRead 0 10; SMkdir (of_string "d"); SOpen (of_string "/d/x") (Z.lor O_CREATE O_RDWR); SWrite 1 [9]; SUnlink (of_string "cat"); SOpen (of_string "cat") O_RDONLY;
    SOpen (of_string "d/../README") O_RDONLY; SFstat 2].

Lemma y_args_ok : args_ok y_args.
Proof.
  split.
  - assert (length (contents (of_string "README", Some [replicate 512 7; [1; 2]])) = 514%nat) as E by (vm_compute; reflexivity). apply Forall_cons. split; [|apply Forall_singleton].
    + split; [refine (bool_decide_unpack _ _); vm_compute; exact I|]. split; [by eexists|]. change (3 ≤ MAXBYTES)%nat. unfold MAXBYTES, BSIZE. lia.
    + split; [refine (bool_decide_unpack _ _); vm_compute; exact I|]. split; [by eexists|]. rewrite E. unfold MAXBYTES, BSIZE. lia.
  - refine (bool_decide_unpack _ _). vm_compute. exact I.
  - repeat constructor; vm_compute; discriminate.
  - apply Nat.leb_le. reflexivity.
  - vm_compute. discriminate.
  - vm_compute. discriminate.
Qed.

(** C2 for those files and calls. *)
Lemma mkfs_boots_witness : ∃ d s u, mkfs y_args = Ok d ∧ start_fs d (MLedger ∅ ∅ 1) = Ok (mk_sb, s, u) ∧ ∃ s' us', run_sys mk_sb (λ _, None) (λ _, None) y_session s [u] =
  Ok ([ret 0; (3, [1; 2; 3], None); ret 0; ret 1; ret 1; ret 0; ret (-1); ret 2; (0, [], Some (Stat T_FILE ROOTDEV 3 1 514))], s', us').
Proof.
  destruct (mkfs_boots (MLedger ∅ ∅ 1) (λ _, None) (λ _, None) y_args y_session y_args_ok) as (d & s & u & E & Es & _ & s' & us' & Er & _).
  - apply Nat.leb_le. vm_compute. reflexivity.
  - apply run_okb_ok. vm_compute. reflexivity.
  - exists d, s, u. split; [exact E|]. split; [exact Es|]. exists s', us'. assert ((run_spec mk_sb mk_log y_session (first_state y_args)).1 = [ret 0; (3, [1; 2; 3], None); ret 0; ret 1; ret 1; ret 0; ret (-1); ret 2; (0, [], Some (Stat T_FILE ROOTDEV 3 1 514))]) as Ev by (vm_compute; reflexivity).
    rewrite Ev in Er. exact Er.
Defined.

(** With 30 files the entries fill one block exactly, and the size is rounded up to a second block that the directory does not have. *)
Definition y_thirty : list arg := (λ c, ([c], Some [])) <$> seqZ 97 30.

Example root_size_overshoots :
  match mkfs y_thirty with Ok d => Some (isize (mdin d ROOTINO), take 2 (addrs (mdin d ROOTINO))) | _ => None end = Some (1024, [59; 0]).
Proof. vm_compute. reflexivity. Qed.
